(* ===== verification/_CoqProject ===== *)
-Q . S2P
Prelude.v
SFPrim.v
SFRound.v
SFConv.v
SFArith.v
SFSpec.v
SFConvSpec.v
Machine.v
Emulation.v
EmulationFP.v
Trap.v
Memory.v
Uart.v
Console.v
File.v
Devices.v
VM.v
Mmap.v
Loader.v
Boot.v
Disk.v
SdCard.v
Fat.v
FatFile.v
Drive.v
FatDir.v
FatOpen.v
FatName.v
FatLib.v
