(* ===== verification/Prelude.v ===== *)
(** * Verification of the tagged-memory RISC-V board software

    The repository holds a RISC-V system with tagged memory for the KC705 FPGA board.  The
    C program this development verifies is the software under
    [src/fpga/board/kc705/]: the boot loader [bbl/], which runs in machine mode, loads a
    kernel and then serves it; the floating-point library [softfloat/] it is linked with;
    and the drivers [driver/] it uses, the FatFs file system on the SD card among them.
    Paths below are relative to that directory.

    ** The program and the files that model it

    After reset [machine_init] ([bbl/minit.c]) sets the hart up and loads the kernel
    ([bbl/elf.c]) through a file layer ([bbl/file.c]) over FatFs into memory whose layout
    [bbl/vm.c] decides; [supervisor_vm_init] builds the kernel's page tables and [eret]
    starts it.  From then on the boot loader runs when the hart traps into machine mode:
    [bbl/mtrap.c] serves machine calls and device interrupts, and [bbl/emulation.c]
    completes instructions the core does not have, with [softfloat/] for the
    floating-point ones.  Messages go to the serial port ([driver/uart.c]) through
    [bbl/console.c].

    - [Prelude]: integers of fixed width, the state and error monad [ST], byte lists, the
      automation.
    - [SFPrim], [SFRound], [SFConv], [SFArith]: the C files of [softfloat/], one definition
      per function ([softfloat_X] keeps its name, C macros too); [SFSpec], [SFConvSpec]:
      IEEE 754 arithmetic on exact rationals, the class [SoftFloatArith] that states what
      the emulation relies on, its two instances, and the theorems on conversions.
    - [Machine]: a hart as the handlers see it ([mach]: trap frame, registers, CSRs, memory
      of the interrupted level) with the macros of [bbl/mtrap.h].  [Emulation],
      [EmulationFP]: [bbl/emulation.c].  [Trap]: the illegal-instruction dispatch of
      [bbl/mtrap.c].
    - [Memory]: physical memory and [bbl/string.c].  [Uart]: [driver/uart.c] over the class
      [UartDevice] with the laws [UartLaws].  [Console]: [bbl/console.c].  [File]:
      [bbl/file.c] and [bbl/atomic.h] over the class [FatFs] with [FatFsLaws].
    - [Devices]: every machine call, the console interrupt and the machine-mode dispatch
      of [bbl/mtrap.c], with the steps of a hart and its supervisor as a relation.
    - [VM]: the page allocator, page-table entries, [vm_init] and [supervisor_vm_init] of
      [bbl/vm.c], and the hardware's Sv39 walk ([rocket/src/main/scala/ptw.scala]).
      [Mmap]: the rest of [bbl/vm.c]: regions, the walk that creates tables, page faults,
      [mmap], [munmap], [brk], [mprotect], the kernel's ranges.
    - [Loader]: [bbl/elf.c].  [Boot]: [bbl/minit.c], [bbl/init.c], [bbl/bbl.c], with the
      CSR writes of [rocket/src/main/scala/csr.scala].
    - [Disk]: [driver/spi.c] and [driver/diskio.c] over the class of SPI cores.  [SdCard]: an
      SD card behind the core and the theorems on the driver with it.  [Fat]: the sector
      window, the allocation table and the cluster chains of [driver/ff.c] over the class
      [BlockDevice] with its laws.  [FatFile]: the file objects of [driver/ff.c].  [FatDir]:
      its directories, short names and paths.  [FatOpen]: mounting volumes and opening
      files.  [FatName]: its calls on directories, names, labels and free space.
    - [Drive]: the driver and the card as a [BlockDevice].  [FatLib]: FatFs as the class
      [FatFs] of [File], and the composition of all layers from the card to the kernel.

    ** How the code is modelled

    A C function is a function in [ST S A] over the state it touches: it returns ([Ret]),
    stops in a panic or failed assertion ([Panic]), has undefined behaviour ([Undef]) or
    does not return ([Hang]).  [zoom] runs code of one component inside the state of
    another.  Unsigned integers are [Z] reduced by [wrapu] wherever C wraps, signed ones by
    [wraps]; signed overflow is [Undef], or [None] in [softfloat/] ([i32_to_f64]).  The
    shifts of the macro [DO_LOAD], whose amounts C leaves undefined, are those of the target,
    which the macro is written for.  Memory is a finite map from physical addresses to
    bytes; structures in memory (messages, page tables, regions, ELF headers) are loads and
    stores at their offsets.  A misaligned or unmapped access in machine mode is the trap
    that ends in [bad_trap].

    The target is RV64 with hard floating point and without compressed instructions, built
    by riscv64-unknown-elf with newlib: [char] is unsigned, the [fast] integer types of
    [softfloat/] are 32 bits (64 for [uint_fast64_t]), [ENOSYS] is 88.  The rounding mode of
    [softfloat/] is the register [tp] and its exception flags are the CSR [fflags].  Where
    [fmv.s.x] leaves the upper half of a register open, a parameter [fp_hi] gives it.  Hart
    local storage ([HLS()]) is a record beside memory.  The register [send_ipi] that
    [mcall_send_ipi] writes is not in the core ([csr.scala] leaves it out), so the write is the
    trap that ends in [bad_trap].  The memory of the interrupted level
    is the map [umem] of [mach]; physical memory is the one of [Memory].  On one hart a
    spin lock that is held is waited for without end, so taking it is [Hang].  String
    literals are lists of characters.

    Hardware is a parameter: the UART and the SPI core are classes of operations with laws
    of documented behaviour; each class has an instance that the witnesses use
    ([uart16550], the SD card of [SdCard]).  Layers meet at classes too: [File] is proved
    against the class [FatFs], [Loader] against [VolumeFile], and the FatFs files against
    [BlockDevice]; [Drive] and [FatLib] discharge these classes with the layers below.  The
    unprivileged access sites, the linker symbol [_end], the addresses of locals and of the
    handle table and [mcpuid] are arguments; so is [f_mount] in [Boot], until [FatLib] gives
    it.

    ** What the theorems show

    - Boot ([Boot], [Loader], [VM]): from reset the first hart reaches the kernel's entry
      point in supervisor mode, and every byte of every loadable segment of the ELF file is
      what the hardware's translation finds at its virtual address; the page tables give
      exactly the intended address space; the page allocator hands out distinct zeroed
      pages until the pool is used up.  [FatLib] closes the stack: the same holds from an
      SD card, not powered up, whose FAT volume has the kernel as a file.
    - Mappings ([Mmap]): page tables in memory, the region array and the reference counts
      agree for anonymous regions, and [do_mmap], [do_munmap], [handle_page_fault], [do_mprotect] and
      [__map_kernel_range] keep that agreement and change exactly the translations they
      should, as the hardware walk sees them; unmapping the last page of a file-backed
      region gives up its file.
    - Emulation and SoftFloat: the arithmetic of [softfloat/] is IEEE 754 arithmetic on all
      words and rounding modes with exactly the right flags; conversions and comparisons
      are exact or correctly rounded; the emulated instructions write these results to the
      hart; multiply, divide and the misaligned accesses do what the instruction set says
      wherever the C code is defined, and the operands on which it is not are named;
      refused instructions leave the hart as it was, with the cause the supervisor is to see.
    - Machine calls ([Devices]): the linked queues implement their abstract
      specification for console and disk requests; waiting answers are always signalled
      and collected in order; each call has its exact result and effect.
    - Console, serial port, strings, files: the text [vsnprintf] produces and the bounds it
      keeps, what reaches the serial line, the byte-wise meaning of the string routines,
      the life of a file handle and the effect of each I/O call.
    - The SD card ([Disk], [SdCard]): a card is brought up, and what is written to sectors is
      read back; a read past the end fails with an error.
    - FatFs ([Fat], [FatFile], [FatDir], [FatOpen], [FatName]): the window and the drive together are one disk; allocating
      and freeing clusters changes exactly the chains it should, on any table in bounded
      time; an open file is an array of bytes under reads, writes and seeks, writing leaves
      other files alone, and a flush puts everything on the drive.  Every path leads to what it
      names in the directory tree of the disk or to its error, short names survive the trip through an
      entry, and opening a file on a volume not yet mounted gives an object that stands for
      the bytes on the disk; volumes that cannot be used are refused with their error.  Reading a directory
      lists exactly its entries ([FatName]).

    Deviations of the code from its intent that the proofs brought out are theorems too
    (in [EmulationFP], [Trap], [Console], [Devices], [Mmap], [Loader], [SdCard],
    [FatOpen], [FatName]).

    ** Loops and fuel

    Loops with a bound in the code recurse on the iterations left.  The others carry fuel
    that the theorems show to be enough: [div64_loop] and [estimateDiv_loop] correct an
    estimate that is at most two above; the square-root loops halve a 64-bit
    distance; polling the UART takes at most [tx_bound] reads by the class laws; the scans
    for a string's end are bounded by the size of memory; loops over pages by the length of
    the range ([pages_fuel]); the superpage loop by the size of memory; polling the card by
    the time-outs of the code; walking a chain by the number of clusters, reading and
    writing a file by the number of bytes, scanning a directory by the 65536 entries an index
    can reach, following a path by its length, climbing to the root by the buffer of the path; the loop of [%s] in
    [vsnprintf] by the string and the buffer, and where it has no bound a theorem says so.
    Fuel that runs out is [Hang], so a theorem that a call returns includes that it is
    enough.

    ** Not modelled

    The support code of the
    demonstration programs ([driver/syscalls.c], [driver/elf.c]); the SoftFloat routines no
    emulated instruction calls (remainder, rounding to an integral value, the r_minMag
    conversions).  The trap entry in assembly appears as the trap frame it saves and
    restores.  The hardware in Scala is used only where the C code depends on it.  The
    toolchain, the simulator, the proxy kernel and the tests are vendored projects. *)

From Stdlib Require Import ZArith Lia Bool List String.
From stdpp Require Import base list.
#[export] Set Default Goal Selector "!".

Declare Scope word_scope.
Delimit Scope word_scope with word.
Open Scope Z_scope.

(** ** Fixed-width integers

    A C unsigned integer of width [w] is a [Z] in [0, 2^w); a signed one is a
    [Z] in [-2^(w-1), 2^(w-1)).  [wrapu] and [wraps] are the conversions to
    those types. *)
Definition wrapu (w x : Z) : Z := x mod 2 ^ w.

Definition wraps (w x : Z) : Z := (x + 2 ^ (w - 1)) mod 2 ^ w - 2 ^ (w - 1).

Abbreviation u8 := (wrapu 8).
Abbreviation u16 := (wrapu 16).
Abbreviation u32 := (wrapu 32).
Abbreviation u64 := (wrapu 64).
Abbreviation s8 := (wraps 8).
Abbreviation s32 := (wraps 32).
Abbreviation s64 := (wraps 64).

(** [x] is a value of the unsigned type of width [w]. *)
Definition inu (w x : Z) : Prop := 0 <= x < 2 ^ w.

#[export] Instance inu_dec w x : Decision (inu w x).
Proof. unfold inu. apply _. Defined.

(** Close a decidable closed goal by evaluating its decision procedure. *)
Ltac vm_decide := apply (bool_decide_unpack _); vm_compute; exact I.

(** A C truth value as an [int]. *)
Definition b2z (b : bool) : Z := if b then 1 else 0.

(** [x & -(1 << n)]: clear the low [n] bits of an unsigned [w]-bit value. *)
Definition bitand_not (w x m : Z) : Z := Z.land x (wrapu w (Z.lnot m)).

Infix "&&&" := Z.land (at level 40, left associativity) : word_scope.
Infix "|||" := Z.lor (at level 50, left associativity) : word_scope.
Infix "^^^" := Z.lxor (at level 50, left associativity) : word_scope.
Infix ">>>" := Z.shiftr (at level 36, left associativity) : word_scope.
Infix "<<<" := Z.shiftl (at level 36, left associativity) : word_scope.

Create HintDb word discriminated.
Create Rewrite HintDb testbit.

(** ** Lemmas on truncation *)

Lemma pow2_pos w : 0 <= w -> 0 < 2 ^ w.
Proof. intros. apply Z.pow_pos_nonneg; lia. Qed.

Lemma pow2_split a b : 0 <= a <= b -> 2 ^ b = 2 ^ a * 2 ^ (b - a).
Proof. intros. rewrite <- Z.pow_add_r by lia. f_equal; lia. Qed.

Lemma wrapu_range w x : 0 <= w -> inu w (wrapu w x).
Proof. intros. apply Z.mod_pos_bound, pow2_pos; lia. Qed.

Lemma wrapu_small w x : inu w x -> wrapu w x = x.
Proof. intros. apply Z.mod_small, H. Qed.

Lemma wrapu_wrapu v w x : 0 <= v <= w -> wrapu v (wrapu w x) = wrapu v x.
Proof.
  intros. unfold wrapu. rewrite (pow2_split v w) by lia.
  rewrite Z.rem_mul_r by (apply Z.pow_nonzero || apply pow2_pos; lia).
  rewrite Z.mul_comm, Z.mod_add by (apply Z.pow_nonzero; lia).
  apply Z.mod_mod, Z.pow_nonzero; lia.
Qed.

Lemma wrapu_idem w x : 0 <= w -> wrapu w (wrapu w x) = wrapu w x.
Proof. intros. apply wrapu_wrapu; lia. Qed.

Lemma wrapu_add_l w x y : 0 <= w -> wrapu w (wrapu w x + y) = wrapu w (x + y).
Proof. intros. unfold wrapu. apply Z.add_mod_idemp_l, Z.pow_nonzero; lia. Qed.

Lemma wrapu_add_r w x y : 0 <= w -> wrapu w (x + wrapu w y) = wrapu w (x + y).
Proof. intros. unfold wrapu. apply Z.add_mod_idemp_r, Z.pow_nonzero; lia. Qed.

Lemma wrapu_shift_period w x k : 0 <= w -> wrapu w (x + k * 2 ^ w) = wrapu w x.
Proof. intros. unfold wrapu. apply Z.mod_add, Z.pow_nonzero; lia. Qed.

Lemma wraps_range w x : 0 < w -> - 2 ^ (w - 1) <= wraps w x < 2 ^ (w - 1).
Proof.
  intros. unfold wraps. pose proof (Z.mod_pos_bound (x + 2 ^ (w - 1)) (2 ^ w)) as B.
  rewrite (pow2_split (w - 1) w) in * by lia.
  replace (w - (w - 1)) with 1 in * by lia. pose proof (pow2_pos (w - 1)). lia.
Qed.

Lemma wraps_small w x : 0 < w -> - 2 ^ (w - 1) <= x < 2 ^ (w - 1) -> wraps w x = x.
Proof.
  intros. unfold wraps. rewrite Z.mod_small; [lia|].
  rewrite (pow2_split (w - 1) w) by lia. replace (w - (w - 1)) with 1 by lia. lia.
Qed.

Lemma wraps_wrapu w x : 0 <= w -> wraps w (wrapu w x) = wraps w x.
Proof.
  intros. unfold wraps, wrapu. f_equal. apply Z.add_mod_idemp_l, Z.pow_nonzero; lia.
Qed.

Lemma wrapu_wraps w x : 0 <= w -> wrapu w (wraps w x) = wrapu w x.
Proof.
  intros. unfold wraps, wrapu. rewrite Zminus_mod_idemp_l. f_equal; lia.
Qed.

(** The two's-complement reading of an unsigned value. *)
Lemma wraps_of_unsigned w x :
  0 < w -> inu w x -> wraps w x = if x <? 2 ^ (w - 1) then x else x - 2 ^ w.
Proof.
  intros Hw [H0 H1]. assert (2 ^ w = 2 ^ (w - 1) * 2) as E.
  { rewrite (pow2_split (w - 1) w) by lia. f_equal.
    replace (w - (w - 1)) with 1 by lia. reflexivity. }
  pose proof (pow2_pos (w - 1)). destruct (Z.ltb_spec x (2 ^ (w - 1))).
  - apply wraps_small; lia.
  - unfold wraps. replace (x + 2 ^ (w - 1)) with (x - 2 ^ (w - 1) + 1 * 2 ^ w) by lia.
    rewrite Z.mod_add, Z.mod_small by lia. lia.
Qed.

Lemma inu_weaken v w x : v <= w -> 0 <= v -> inu v x -> inu w x.
Proof.
  unfold inu. intros. split; [lia|].
  apply Z.lt_le_trans with (2 ^ v); [lia|]. apply Z.pow_le_mono_r; lia.
Qed.

#[export] Hint Resolve wrapu_range pow2_pos : word.
#[export] Hint Extern 1 (_ <= _) => lia : word.
#[export] Hint Extern 1 (_ < _) => lia : word.

(** ** Bitwise reasoning *)

Lemma wrapu_land_ones w x : 0 <= w -> wrapu w x = Z.land x (Z.ones w).
Proof. intros. symmetry. apply Z.land_ones; lia. Qed.

Lemma testbit_wrapu w x i :
  0 <= w -> 0 <= i -> Z.testbit (wrapu w x) i = (i <? w) && Z.testbit x i.
Proof.
  intros. unfold wrapu. destruct (Z.ltb_spec i w).
  - by rewrite Z.mod_pow2_bits_low by lia.
  - by rewrite Z.mod_pow2_bits_high by lia.
Qed.

Lemma testbit_ones n i : 0 <= n -> 0 <= i -> Z.testbit (Z.ones n) i = (i <? n).
Proof.
  intros. destruct (Z.ltb_spec i n).
  - by apply Z.ones_spec_low.
  - by apply Z.ones_spec_high.
Qed.

Lemma testbit_inu w x i : inu w x -> 0 <= w <= i -> Z.testbit x i = false.
Proof.
  intros. rewrite <- (wrapu_small w x) by done.
  rewrite testbit_wrapu by lia. destruct (Z.ltb_spec i w); [lia|done].
Qed.

Lemma testbit_shiftr x n i : 0 <= i -> Z.testbit (Z.shiftr x n) i = Z.testbit x (i + n).
Proof. intros. by rewrite Z.shiftr_spec. Qed.

Lemma testbit_shiftl x n i : 0 <= i -> Z.testbit (Z.shiftl x n) i = Z.testbit x (i - n).
Proof. intros. by rewrite Z.shiftl_spec. Qed.

#[export] Hint Rewrite Z.land_spec Z.lor_spec Z.lxor_spec Z.testbit_0_l : testbit.
#[export] Hint Rewrite testbit_wrapu testbit_ones testbit_shiftr testbit_shiftl
  Z.lnot_spec using lia : testbit.

(** Prove an equation between words bit by bit. *)
Ltac split_ltb :=
  match goal with
  | |- context [?a <? ?b] => destruct (Z.ltb_spec a b)
  | |- context [?a <=? ?b] => destruct (Z.leb_spec a b)
  end.

Ltac kill_bits :=
  repeat match goal with
  | |- context [Z.testbit ?x ?i] =>
      first [ rewrite (Z.testbit_neg_r x i) by lia
            | match goal with H : inu ?w x |- _ => rewrite (testbit_inu w x i) by (auto; lia) end ]
  end.

Ltac bits_ext :=
  apply Z.bits_inj'; intros ?i ?Hi; autorewrite with testbit;
  repeat split_ltb; kill_bits; simpl; try reflexivity; try lia;
  try (repeat rewrite ?andb_true_r, ?andb_false_r, ?orb_false_r, ?orb_true_r,
         ?xorb_false_r; try reflexivity; try (f_equal; lia)).

(** Disjoint bit patterns add up. *)
Lemma lor_disjoint_add a b n :
  0 <= n -> inu n a -> 0 <= b -> Z.lor a (Z.shiftl b n) = a + b * 2 ^ n.
Proof.
  intros. rewrite <- Z.shiftl_mul_pow2 by lia.
  assert (Z.land a (Z.shiftl b n) = 0) as D.
  { apply Z.bits_inj'. intros i Hi. autorewrite with testbit.
    destruct (Z.lt_ge_cases i n); kill_bits; by rewrite ?andb_false_r. }
  by rewrite Z.add_nocarry_lxor, Z.lxor_lor.
Qed.

Lemma shiftr_range w x n : 0 <= n -> inu w x -> inu w (Z.shiftr x n).
Proof.
  intros. unfold inu in *. rewrite Z.shiftr_div_pow2 by lia.
  pose proof (pow2_pos n). split; [apply Z.div_pos; lia|].
  apply Z.le_lt_trans with x; [|lia]. apply Z.div_le_upper_bound; nia.
Qed.

Lemma land_range w x m : 0 <= w -> inu w m -> inu w (Z.land x m).
Proof.
  intros Hw Hm. rewrite <- (wrapu_small w m) by done.
  rewrite wrapu_land_ones, Z.land_assoc, <- wrapu_land_ones by lia. by apply wrapu_range.
Qed.

Lemma land_range_l w x m : 0 <= w -> inu w m -> inu w (Z.land m x).
Proof. intros. rewrite Z.land_comm. by apply land_range. Qed.

Lemma lor_range w x y : 0 <= w -> inu w x -> inu w y -> inu w (Z.lor x y).
Proof.
  intros Hw Hx Hy. replace (Z.lor x y) with (wrapu w (Z.lor x y)); [by apply wrapu_range|].
  bits_ext.
Qed.

Lemma lxor_range w x y : 0 <= w -> inu w x -> inu w y -> inu w (Z.lxor x y).
Proof.
  intros Hw Hx Hy. replace (Z.lxor x y) with (wrapu w (Z.lxor x y)); [by apply wrapu_range|].
  bits_ext.
Qed.

Lemma wrapu_lxor w x y : 0 <= w -> wrapu w (Z.lxor x y) = Z.lxor (wrapu w x) (wrapu w y).
Proof.
  intros Hw. apply Z.bits_inj'. intros i Hi. autorewrite with testbit.
  split_ltb; rewrite ?andb_true_l, ?andb_false_l; done.
Qed.

#[export] Hint Resolve shiftr_range land_range lor_range lxor_range : word.

(** ** Stateful code

    A C function that reads and writes the state [S] is a function into
    [outcome S A]: it returns, it stops in [do_panic]/[kassert_fail] (which do
    not return), it runs into undefined behaviour of C, or it is still looping
    when the fuel of its loops is used up. *)
Inductive outcome (S A : Type) : Type :=
  | Ret (a : A) (s : S)
  | Panic (msg : string) (s : S)
  | Undef
  | Hang (s : S).
Arguments Ret {S A} a s.
Arguments Panic {S A} msg s.
Arguments Undef {S A}.
Arguments Hang {S A} s.

Definition ST (S A : Type) : Type := S -> outcome S A.

Definition ret {S A} (a : A) : ST S A := fun s => Ret a s.

Definition bind {S A B} (m : ST S A) (k : A -> ST S B) : ST S B := fun s =>
  match m s with
  | Ret a s' => k a s'
  | Panic msg s' => Panic msg s'
  | Undef => Undef
  | Hang s' => Hang s'
  end.

Definition gets {S A} (f : S -> A) : ST S A := fun s => Ret (f s) s.

Definition modify {S} (f : S -> S) : ST S unit := fun s => Ret tt (f s).

Definition panic {S A} (msg : string) : ST S A := fun s => Panic msg s.

Definition undef {S A} : ST S A := fun _ => Undef.

Definition hang {S A} : ST S A := fun s => Hang s.

Declare Scope st_scope.
Delimit Scope st_scope with st.
Notation "'let!' x ':=' c 'in' k" := (bind c (fun x => k))
  (at level 10, x pattern, c at level 100, k at level 200,
   format "'[v' 'let!'  x  ':='  c  'in'  '/' k ']'") : st_scope.
Notation "c1 ;; c2" := (bind c1 (fun _ => c2))
  (at level 100, c2 at level 200, right associativity,
   format "'[v' c1  ;;  '/' c2 ']'") : st_scope.
Open Scope st_scope.

Definition kassert {S} (b : bool) : ST S unit :=
  if b then ret tt else panic "assertion failed".

(** [while (cond) body] with [fuel] evaluations of the condition. *)
Fixpoint while {S} (fuel : nat) (cond : ST S bool) (body : ST S unit) : ST S unit :=
  match fuel with
  | O => hang
  | Datatypes.S fuel' =>
      let! b := cond in if b then body ;; while fuel' cond body else ret tt
  end.

(** Run code of a part of the state on the whole. *)
Definition zoom {S T A} (get : S -> T) (set : T -> S -> S) (c : ST T A) : ST S A := fun s =>
  match c (get s) with
  | Ret a t => Ret a (set t s)
  | Panic msg t => Panic msg (set t s)
  | Undef => Undef
  | Hang t => Hang (set t s)
  end.

(** Total correctness: [m] run from [s] returns, in a state and with a result
    that satisfy [P]. *)
Definition returns {S A} (m : ST S A) (s : S) (P : A -> S -> Prop) : Prop :=
  exists a s', m s = Ret a s' /\ P a s'.

Section Returns.
Context {S A B : Type}.
Implicit Types (P : A -> S -> Prop).

Lemma returns_ret (a : A) s P : P a s -> returns (ret a) s P.
Proof. intros. by exists a, s. Qed.

Lemma returns_bind (m : ST S A) (k : A -> ST S B) s (Q : A -> S -> Prop) (P : B -> S -> Prop) :
  returns m s Q -> (forall a s', Q a s' -> returns (k a) s' P) -> returns (bind m k) s P.
Proof.
  intros (a & s' & E & HQ) Hk. destruct (Hk a s' HQ) as (b & s'' & E' & HP).
  exists b, s''. split; [|done]. unfold bind. by rewrite E.
Qed.

Lemma returns_mono (m : ST S A) s P (Q : A -> S -> Prop) :
  returns m s P -> (forall a s', P a s' -> Q a s') -> returns m s Q.
Proof. intros (a & s' & E & HP) HPQ. exists a, s'. auto. Qed.

Lemma returns_gets (f : S -> A) s P : P (f s) s -> returns (gets f) s P.
Proof. intros. by exists (f s), s. Qed.

Lemma returns_intro (m : ST S A) s a s' P : m s = Ret a s' -> P a s' -> returns m s P.
Proof. intros. by exists a, s'. Qed.
End Returns.

Lemma returns_modify {S} (f : S -> S) s (P : unit -> S -> Prop) :
  P tt (f s) -> returns (modify f) s P.
Proof. intros. by exists tt, (f s). Qed.

Lemma returns_step {S A B} (m : ST S A) (k : A -> ST S B) s a s' P :
  m s = Ret a s' -> returns (k a) s' P -> returns (bind m k) s P.
Proof. intros E (b & t & E' & HP). exists b, t. split; [|done]. unfold bind. by rewrite E. Qed.

Lemma returns_zoom {S T A} (get : S -> T) (set : T -> S -> S) (c : ST T A) s (P : A -> T -> Prop) :
  returns c (get s) P -> returns (zoom get set c) s (fun a s' => exists t, s' = set t s /\ P a t).
Proof. intros (a & t & E & HP). exists a, (set t s). unfold zoom. rewrite E. split; [done|]. by exists t. Qed.

Create HintDb st.
#[export] Hint Unfold bind ret gets modify panic undef hang kassert : st.

(** Run a straight-line monadic term one statement at a time. *)
Ltac st_simpl :=
  cbv beta iota delta [bind ret gets modify panic undef hang kassert]; cbn beta iota.

(** ** Bytes in memory order *)

(** The little-endian value of a byte list. *)
Fixpoint le_combine (l : list Z) : Z :=
  match l with
  | [] => 0
  | b :: l' => b + 2 ^ 8 * le_combine l'
  end.

(** The [n] low bytes of [x], least significant first. *)
Fixpoint le_split (n : nat) (x : Z) : list Z :=
  match n with
  | O => []
  | Datatypes.S n' => x mod 2 ^ 8 :: le_split n' (x / 2 ^ 8)
  end.

Lemma length_le_split n x : length (le_split n x) = n.
Proof. revert x. induction n; intros; simpl; auto. Qed.

Lemma le_combine_range l :
  Forall (inu 8) l -> inu (8 * Z.of_nat (length l)) (le_combine l).
Proof.
  induction 1 as [|b l Hb Hl IH]; [done|]. unfold inu in *.
  cbn [length le_combine]. rewrite Nat2Z.inj_succ, Z.mul_succ_r, Z.pow_add_r by lia. nia.
Qed.

Lemma le_combine_split n x : le_combine (le_split n x) = wrapu (8 * Z.of_nat n) x.
Proof.
  unfold wrapu. revert x. induction n as [|n IH]; intros x.
  { by rewrite Z.mod_1_r. }
  cbn [le_split le_combine]. rewrite IH, Nat2Z.inj_succ, Z.mul_succ_r.
  rewrite (Z.add_comm (8 * _) 8), Z.pow_add_r by lia.
  symmetry. apply Z.rem_mul_r; [lia|]. apply pow2_pos; lia.
Qed.

Lemma le_split_bytes n x : Forall (inu 8) (le_split n x).
Proof.
  revert x. induction n; intros; simpl; constructor; auto. apply Z.mod_pos_bound. lia.
Qed.

Lemma le_split_combine l : Forall (inu 8) l -> le_split (length l) (le_combine l) = l.
Proof.
  induction 1 as [|b l Hb Hl IH]; [done|]. cbn [length le_split le_combine].
  rewrite Z.mul_comm, Z.mod_add, Z.mod_small, Z.div_add, Z.div_small, Z.add_0_l, IH by (unfold inu in *; lia).
  done.
Qed.

Lemma le_combine_app l1 l2 :
  le_combine (l1 ++ l2) = le_combine l1 + 2 ^ (8 * Z.of_nat (length l1)) * le_combine l2.
Proof.
  induction l1 as [|b l1 IH]; [by rewrite Z.mul_1_l|].
  cbn [app length le_combine]. rewrite IH, Nat2Z.inj_succ, Z.mul_succ_r, (Z.add_comm (8 * _) 8).
  rewrite Z.pow_add_r by lia. ring.
Qed.

(** ** Small facts shared by the components *)

Lemma mod_mul_shift a b n : 0 < n -> (a * n + b) mod n = b mod n.
Proof. intros. rewrite Z.add_comm. apply Z.mod_add. lia. Qed.

Lemma div_mul_shift a b n : 0 < n -> 0 <= b < n -> (a * n + b) / n = a.
Proof. intros. rewrite Z.div_add_l, Z.div_small by lia. lia. Qed.

Lemma testbit_bitand_not w x m i :
  0 <= w -> 0 <= i ->
  Z.testbit (bitand_not w x m) i = Z.testbit x i && ((i <? w) && negb (Z.testbit m i)).
Proof. intros. unfold bitand_not. by autorewrite with testbit. Qed.

#[export] Hint Rewrite testbit_bitand_not using lia : testbit.

Lemma inu_bitand_not w x m : 0 <= w -> inu w (bitand_not w x m).
Proof. intros. apply land_range; [lia|]. by apply wrapu_range. Qed.

(** [i] is one of [0 .. n-1] or at least [n]. *)
Lemma below_cases (n : nat) (i : Z) :
  0 <= i -> In i (map Z.of_nat (seq 0 n)) \/ Z.of_nat n <= i.
Proof.
  intros. destruct (Z.lt_ge_cases i (Z.of_nat n)); [left|by right].
  apply in_map_iff. exists (Z.to_nat i). split; [lia|]. apply in_seq. lia.
Qed.

(** A bit of a word all of whose [m] bits are clear. *)
Lemma testbit_masked_zero x m i : Z.land x m = 0 -> Z.testbit m i = true -> Z.testbit x i = false.
Proof.
  intros E Hm. pose proof (f_equal (fun z => Z.testbit z i) E) as Hb. cbn beta in Hb.
  by rewrite Z.land_spec, Hm, andb_true_r, Z.testbit_0_l in Hb.
Qed.

Lemma testbit_masked_ones x m i : Z.land x m = m -> Z.testbit m i = true -> Z.testbit x i = true.
Proof.
  intros E Hm. pose proof (f_equal (fun z => Z.testbit z i) E) as Hb. cbn beta in Hb.
  rewrite Z.land_spec, Hm, andb_true_r in Hb. done.
Qed.

Lemma le_combine_take_drop k l :
  Forall (inu 8) l -> (k <= length l)%nat ->
  le_combine (take k l) = wrapu (8 * Z.of_nat k) (le_combine l) /\
  le_combine (drop k l) = Z.shiftr (le_combine l) (8 * Z.of_nat k).
Proof.
  intros Hl Hk. rewrite <- (take_drop k l) in Hl. apply Forall_app in Hl as [H1 H2].
  pose proof (le_combine_range _ H1) as R. rewrite length_take_le in R by done.
  rewrite <- (take_drop k l) at 2 4. rewrite le_combine_app, length_take_le by done.
  rewrite Z.shiftr_div_pow2 by lia. unfold wrapu, inu in *.
  rewrite Z.add_comm, (Z.mul_comm (2 ^ _)), mod_mul_shift, div_mul_shift, Z.mod_small by lia. done.
Qed.

(** Joining the top of one little-endian word with the bottom of the next. *)
Lemma le_combine_join k l1 l2 :
  Forall (inu 8) l1 -> Forall (inu 8) l2 -> length l1 = length l2 -> (0 < k < length l1)%nat ->
  Z.lor (Z.shiftr (le_combine l1) (8 * Z.of_nat k))
    (wrapu (8 * Z.of_nat (length l1))
       (Z.shiftl (le_combine l2) (8 * Z.of_nat (length l1 - k)))) =
  le_combine (drop k l1 ++ take k l2).
Proof.
  intros H1 H2 Hlen Hk.
  destruct (le_combine_take_drop k l1 H1) as [_ Ed]; [lia|].
  destruct (le_combine_take_drop k l2 H2) as [Et _]; [lia|].
  rewrite le_combine_app, Et, Ed, length_drop.
  set (n := 8 * Z.of_nat (length l1 - k)). rewrite (Z.mul_comm (2 ^ n)).
  rewrite <- lor_disjoint_add.
  - f_equal. assert (n + 8 * Z.of_nat k = 8 * Z.of_nat (length l1)) by lia.
    apply Z.bits_inj'. intros i Hi. autorewrite with testbit.
    destruct (Z.lt_ge_cases i n); kill_bits; [by rewrite !andb_false_r|].
    rewrite testbit_wrapu by lia.
    destruct (Z.ltb_spec i (8 * Z.of_nat (length l1))), (Z.ltb_spec (i - n) (8 * Z.of_nat k)); lia || done.
  - lia.
  - rewrite <- Ed. pose proof (le_combine_range (drop k l1)) as R.
    rewrite length_drop in R. apply R. by apply Forall_drop.
  - apply wrapu_range. lia.
Qed.

Open Scope word_scope.

(** Rounding down to a multiple of a power of two. *)
Lemma align_down a j :
  inu 64 a -> 0 <= j <= 64 -> a &&& (2 ^ 64 - 2 ^ j) = a - a mod 2 ^ j.
Proof.
  intros Ha Hj. replace (2 ^ 64 - 2 ^ j) with (Z.ones (64 - j) <<< j).
  2: { rewrite Z.ones_equiv, <- Z.sub_1_r, Z.shiftl_mul_pow2, Z.mul_sub_distr_r by lia.
       rewrite <- Z.pow_add_r by lia. f_equal; [f_equal|]; lia. }
  replace (a &&& (Z.ones (64 - j) <<< j)) with ((a >>> j) <<< j).
  - rewrite Z.shiftl_mul_pow2, Z.shiftr_div_pow2 by lia.
    pose proof (Z.div_mod a (2 ^ j)). pose proof (pow2_pos j). lia.
  - apply Z.bits_inj'. intros i Hi. autorewrite with testbit.
    destruct (Z.lt_ge_cases i j); kill_bits; [by rewrite !andb_false_r|].
    autorewrite with testbit. replace (i - j + j) with i by lia.
    split_ltb; [by rewrite andb_true_r|]. by rewrite (testbit_inu 64 a i) by (auto; lia).
Qed.
Close Scope word_scope.
