(* ===== verification/SFPrim.v ===== *)
(** * SoftFloat: integer primitives

    The multi-word integer routines of softfloat/s_*.c on which the
    floating-point operations are built: leading-zero counts, shifts that keep
    a sticky bit ("jam"), 128/192/256-bit addition, subtraction and
    multiplication, and the quotient estimate.  The theorems give each routine
    its meaning on unbounded integers. *)

From Stdlib Require Import ZArith Lia Bool List.
From stdpp Require Import base list.
From S2P Require Import Prelude.

Create HintDb sf discriminated.

(** [x << n] on an unsigned [w]-bit operand. *)
Definition shl (w x n : Z) : Z := wrapu w (Z.shiftl x n).

(** The C condition [x] and the C expression [!x]. *)
Definition nz (x : Z) : bool := negb (x =? 0).

(** ** The structures of primitives.h *)
Record uint128 := U128 { u128_v64 : Z; u128_v0 : Z }.
Record uint192 := U192 { u192_v128 : Z; u192_v64 : Z; u192_v0 : Z }.
Record uint256 := U256 { u256_v192 : Z; u256_v128 : Z; u256_v64 : Z; u256_v0 : Z }.
Record uint64_extra := U64E { u64e_v : Z; u64e_extra : Z }.
Record uint128_extra := U128E { u128e_v64 : Z; u128e_v0 : Z; u128e_extra : Z }.

(** ** Counting leading zeros *)

Definition softfloat_countLeadingZeros8_table : list Z :=
  [ 8; 7; 6; 6; 5; 5; 5; 5; 4; 4; 4; 4; 4; 4; 4; 4;
    3; 3; 3; 3; 3; 3; 3; 3; 3; 3; 3; 3; 3; 3; 3; 3;
    2; 2; 2; 2; 2; 2; 2; 2; 2; 2; 2; 2; 2; 2; 2; 2;
    2; 2; 2; 2; 2; 2; 2; 2; 2; 2; 2; 2; 2; 2; 2; 2;
    1; 1; 1; 1; 1; 1; 1; 1; 1; 1; 1; 1; 1; 1; 1; 1;
    1; 1; 1; 1; 1; 1; 1; 1; 1; 1; 1; 1; 1; 1; 1; 1;
    1; 1; 1; 1; 1; 1; 1; 1; 1; 1; 1; 1; 1; 1; 1; 1;
    1; 1; 1; 1; 1; 1; 1; 1; 1; 1; 1; 1; 1; 1; 1; 1;
    0; 0; 0; 0; 0; 0; 0; 0; 0; 0; 0; 0; 0; 0; 0; 0;
    0; 0; 0; 0; 0; 0; 0; 0; 0; 0; 0; 0; 0; 0; 0; 0;
    0; 0; 0; 0; 0; 0; 0; 0; 0; 0; 0; 0; 0; 0; 0; 0;
    0; 0; 0; 0; 0; 0; 0; 0; 0; 0; 0; 0; 0; 0; 0; 0;
    0; 0; 0; 0; 0; 0; 0; 0; 0; 0; 0; 0; 0; 0; 0; 0;
    0; 0; 0; 0; 0; 0; 0; 0; 0; 0; 0; 0; 0; 0; 0; 0;
    0; 0; 0; 0; 0; 0; 0; 0; 0; 0; 0; 0; 0; 0; 0; 0;
    0; 0; 0; 0; 0; 0; 0; 0; 0; 0; 0; 0; 0; 0; 0; 0 ].

Definition softfloat_countLeadingZeros8 (a : Z) : Z :=
  nth (Z.to_nat a) softfloat_countLeadingZeros8_table 0.

Definition softfloat_countLeadingZeros32 (a : Z) : Z :=
  let count := 0 in
  let '(count, a) := if a <? 0x10000 then (16, shl 32 a 16) else (count, a) in
  let '(count, a) := if a <? 0x1000000 then (count + 8, shl 32 a 8) else (count, a) in
  count + softfloat_countLeadingZeros8 (Z.shiftr a 24).

Definition softfloat_countLeadingZeros64 (a : Z) : Z :=
  let count := 32 in
  let a32 := u32 a in
  let '(count, a32) :=
    if 0x100000000 <=? a then (0, u32 (Z.shiftr a 32)) else (count, a32) in
  let '(count, a32) := if a32 <? 0x10000 then (count + 16, shl 32 a32 16) else (count, a32) in
  let '(count, a32) := if a32 <? 0x1000000 then (count + 8, shl 32 a32 8) else (count, a32) in
  count + softfloat_countLeadingZeros8 (Z.shiftr a32 24).

(** ** Shifts that jam the bits shifted out

    A count [c] of type [unsigned int] is negated modulo [2^32]; only its low
    bits are used. *)
Definition neg_count (count m : Z) : Z := Z.land (u32 (- count)) m.

Definition softfloat_shortShift32Right1Jam (a : Z) : Z :=
  Z.lor (Z.shiftr a 1) (Z.land a 1).

Definition softfloat_shortShift64RightJam (a count : Z) : Z :=
  Z.lor (Z.shiftr a count) (b2z (nz (Z.land a (shl 64 1 count - 1)))).

Definition softfloat_shift32RightJam (a count : Z) : Z :=
  if count <? 32
  then Z.lor (Z.shiftr a count) (b2z (nz (shl 32 a (neg_count count 31))))
  else b2z (nz a).

Definition softfloat_shift64RightJam (a count : Z) : Z :=
  if count <? 64
  then Z.lor (Z.shiftr a count) (b2z (nz (shl 64 a (neg_count count 63))))
  else b2z (nz a).

Definition softfloat_shortShift64ExtraRightJam (a extra count : Z) : uint64_extra :=
  U64E (Z.shiftr a count)
       (Z.lor (shl 64 a (neg_count count 63)) (b2z (nz extra))).

Definition softfloat_shift64ExtraRightJam (a extra count : Z) : uint64_extra :=
  let '(v, e) :=
    if count <? 64
    then (Z.shiftr a count, shl 64 a (neg_count count 63))
    else (0, if count =? 64 then a else b2z (nz a)) in
  U64E v (Z.lor e (b2z (nz extra))).

Definition softfloat_shortShift128Left (a64 a0 count : Z) : uint128 :=
  U128 (Z.lor (shl 64 a64 count) (Z.shiftr a0 (neg_count count 63)))
       (shl 64 a0 count).

Definition softfloat_shortShift128Right (a64 a0 count : Z) : uint128 :=
  U128 (Z.shiftr a64 count)
       (Z.lor (shl 64 a64 (neg_count count 63)) (Z.shiftr a0 count)).

Definition softfloat_shortShift192Left (a128 a64 a0 count : Z) : uint192 :=
  let negCount := neg_count count 63 in
  U192 (Z.lor (shl 64 a128 count) (Z.shiftr a64 negCount))
       (Z.lor (shl 64 a64 count) (Z.shiftr a0 negCount))
       (shl 64 a0 count).

Definition softfloat_shortShift128ExtraRightJam (a64 a0 extra count : Z) : uint128_extra :=
  let negCount := neg_count count 63 in
  U128E (Z.shiftr a64 count)
        (Z.lor (shl 64 a64 negCount) (Z.shiftr a0 count))
        (Z.lor (shl 64 a0 negCount) (b2z (nz extra))).

Definition softfloat_shift128RightJam (a64 a0 count : Z) : uint128 :=
  if count <? 64 then
    let negCount := neg_count count 63 in
    U128 (Z.shiftr a64 (Z.land count 63))
         (Z.lor (Z.lor (shl 64 a64 negCount) (Z.shiftr a0 count))
                (b2z (nz (shl 64 a0 negCount))))
  else
    U128 0
      (if count <? 128
       then Z.lor (Z.shiftr a64 (Z.land count 63))
              (b2z (nz (Z.lor (Z.land a64 (shl 64 1 (Z.land count 63) - 1)) a0)))
       else b2z (nz (Z.lor a64 a0))).

Definition softfloat_shift128ExtraRightJam (a64 a0 extra count : Z) : uint128_extra :=
  let negCount := neg_count count 63 in
  let '(z64, z0, ze, extra) :=
    if count <? 64 then
      (Z.shiftr a64 count,
       Z.lor (shl 64 a64 negCount) (Z.shiftr a0 count),
       shl 64 a0 negCount, extra)
    else if count =? 64 then (0, a64, a0, extra)
    else
      let extra := Z.lor extra a0 in
      if count <? 128
      then (0, Z.shiftr a64 (Z.land count 63), shl 64 a64 negCount, extra)
      else (0, 0, if count =? 128 then a64 else b2z (nz a64), extra) in
  U128E z64 z0 (Z.lor ze (b2z (nz extra))).

(** ** Comparison, addition and subtraction of multi-word integers *)

Definition softfloat_eq128 (a64 a0 b64 b0 : Z) : bool := (a64 =? b64) && (a0 =? b0).

Definition softfloat_le128 (a64 a0 b64 b0 : Z) : bool :=
  (a64 <? b64) || ((a64 =? b64) && (a0 <=? b0)).

Definition softfloat_lt128 (a64 a0 b64 b0 : Z) : bool :=
  (a64 <? b64) || ((a64 =? b64) && (a0 <? b0)).

Definition softfloat_add128 (a64 a0 b64 b0 : Z) : uint128 :=
  let v0 := u64 (a0 + b0) in
  let v64 := u64 (a64 + b64) in
  U128 (u64 (v64 + b2z (v0 <? a0))) v0.

Definition softfloat_sub128 (a64 a0 b64 b0 : Z) : uint128 :=
  let v0 := u64 (a0 - b0) in
  let v64 := u64 (a64 - b64) in
  U128 (u64 (v64 - b2z (a0 <? b0))) v0.

Definition softfloat_add192 (a128 a64 a0 b128 b64 b0 : Z) : uint192 :=
  let v0 := u64 (a0 + b0) in
  let carry64 := b2z (v0 <? a0) in
  let v64 := u64 (a64 + b64) in
  let carry128 := b2z (v64 <? a64) in
  let v128 := u64 (a128 + b128) in
  let v64 := u64 (v64 + carry64) in
  let carry128 := carry128 + b2z (v64 <? carry64) in
  U192 (u64 (v128 + carry128)) v64 v0.

Definition softfloat_sub192 (a128 a64 a0 b128 b64 b0 : Z) : uint192 :=
  let v0 := u64 (a0 - b0) in
  let borrow64 := b2z (a0 <? b0) in
  let v64 := u64 (a64 - b64) in
  let borrow128 := b2z (a64 <? b64) in
  let v128 := u64 (a128 - b128) in
  let borrow128 := borrow128 + b2z (v64 <? borrow64) in
  let v64 := u64 (v64 - borrow64) in
  U192 (u64 (v128 - borrow128)) v64 v0.

(** ** Multiplication *)

Definition softfloat_mul64To128 (a b : Z) : uint128 :=
  let a32 := u32 (Z.shiftr a 32) in
  let a0 := u32 a in
  let b32 := u32 (Z.shiftr b 32) in
  let b0 := u32 b in
  let v0 := u64 (a0 * b0) in
  let mid1 := u64 (a32 * b0) in
  let mid2 := u64 (a0 * b32) in
  let v64 := u64 (a32 * b32) in
  let mid := u64 (mid1 + mid2) in
  let v64 := u64 (v64 + Z.lor (shl 64 (b2z (mid <? mid1)) 32) (Z.shiftr mid 32)) in
  let mid := shl 64 mid 32 in
  let v0 := u64 (v0 + mid) in
  U128 (u64 (v64 + b2z (v0 <? mid))) v0.

Definition softfloat_mul128By64To192 (a64 a0 b : Z) : uint192 :=
  let p0 := softfloat_mul64To128 a0 b in
  let p64 := softfloat_mul64To128 a64 b in
  let z64 := u64 (u128_v0 p64 + u128_v64 p0) in
  U192 (u64 (u128_v64 p64 + b2z (z64 <? u128_v0 p64))) z64 (u128_v0 p0).

Definition softfloat_mul128To256 (a64 a0 b64 b0 : Z) : uint256 :=
  let p0 := softfloat_mul64To128 a0 b0 in
  let z0 := u128_v0 p0 in
  let p64 := softfloat_mul64To128 a64 b0 in
  let z64 := u64 (u128_v0 p64 + u128_v64 p0) in
  let z128 := u64 (u128_v64 p64 + b2z (z64 <? u128_v0 p64)) in
  let p128 := softfloat_mul64To128 a64 b64 in
  let z128 := u64 (z128 + u128_v0 p128) in
  let z192 := u64 (u128_v64 p128 + b2z (z128 <? u128_v0 p128)) in
  let p64 := softfloat_mul64To128 a0 b64 in
  let z64 := u64 (z64 + u128_v0 p64) in
  let p64_v64 := u64 (u128_v64 p64 + b2z (z64 <? u128_v0 p64)) in
  let z128 := u64 (z128 + p64_v64) in
  let z192 := u64 (z192 + b2z (z128 <? p64_v64)) in
  U256 z192 z128 z64 z0.

(** ** Estimates of a quotient and of a square root *)

(** The correction loop [while (2^63 <= rem.v64)]: [None] when [fuel] rounds do
    not end it. *)
Fixpoint estimateDiv_loop (fuel : nat) (b b32 z : Z) (rem : uint128) : option (Z * uint128) :=
  if 0x8000000000000000 <=? u128_v64 rem then
    match fuel with
    | O => None
    | Datatypes.S fuel' =>
        estimateDiv_loop fuel' b b32 (u64 (z - 0x100000000))
          (softfloat_add128 (u128_v64 rem) (u128_v0 rem) b32 (shl 64 b 32))
    end
  else Some (z, rem).

Definition softfloat_estimateDiv128To64 (a64 a0 b : Z) : option Z :=
  if b <=? a64 then Some 0xFFFFFFFFFFFFFFFF
  else
    let b32 := u32 (Z.shiftr b 32) in
    let z := if shl 64 b32 32 <=? a64 then 0xFFFFFFFF00000000
             else shl 64 (a64 / b32) 32 in
    let term := softfloat_mul64To128 b z in
    let rem := softfloat_sub128 a64 a0 (u128_v64 term) (u128_v0 term) in
    match estimateDiv_loop 3 b b32 z rem with
    | None => None
    | Some (z, rem) =>
        let rem32 := Z.lor (shl 64 (u128_v64 rem) 32) (Z.shiftr (u128_v0 rem) 32) in
        Some (Z.lor z (if shl 64 b32 32 <=? rem32 then 0xFFFFFFFF else rem32 / b32))
    end.

Definition sqrtOddAdjustments : list Z :=
  [ 0x0004; 0x0022; 0x005D; 0x00B1; 0x011D; 0x019F; 0x0236; 0x02E0;
    0x039C; 0x0468; 0x0545; 0x0631; 0x072B; 0x0832; 0x0946; 0x0A67 ].

Definition sqrtEvenAdjustments : list Z :=
  [ 0x0A2D; 0x08AF; 0x075A; 0x0629; 0x051A; 0x0429; 0x0356; 0x029E;
    0x0200; 0x0179; 0x0109; 0x00AF; 0x0068; 0x0034; 0x0012; 0x0002 ].

Definition softfloat_estimateSqrt32 (expA a : Z) : Z :=
  let index := Z.to_nat (Z.land (Z.shiftr a 27) 15) in
  let finish a z := u32 (u32 (Z.shiftl a 31 / z) + Z.shiftr z 1) in
  if nz (Z.land expA 1) then
    let z := u32 (0x4000 + Z.shiftr a 17 - nth index sqrtOddAdjustments 0) in
    let z := u32 (shl 32 (a / z) 14 + shl 32 z 15) in
    finish (Z.shiftr a 1) z
  else
    let z := u32 (0x8000 + Z.shiftr a 17 - nth index sqrtEvenAdjustments 0) in
    let z := u32 (a / z + z) in
    let z := if 0x20000 <=? z then 0xFFFF8000 else shl 32 z 15 in
    if z <=? a then u32 (Z.shiftr (s32 a) 1) else finish a z.

(** ** Meaning of the leading-zero counts *)

(** The number of zero bits above the highest one bit of a [w]-bit word. *)
Definition clz (w a : Z) : Z := if a =? 0 then w else w - 1 - Z.log2 a.

Lemma clz_shift w a k : 0 <= k -> 0 < a -> clz w a = k + clz w (a * 2 ^ k).
Proof.
  intros. unfold clz. assert (0 < a * 2 ^ k) by (pose proof (pow2_pos k); nia).
  rewrite !(proj2 (Z.eqb_neq _ 0)), Z.log2_mul_pow2 by lia. lia.
Qed.

Lemma clz_div w a k : 0 <= k -> 2 ^ k <= a -> clz (w + k) a = clz w (a / 2 ^ k).
Proof.
  intros. unfold clz. pose proof (pow2_pos k). assert (0 < a / 2 ^ k) by (apply Z.div_str_pos; lia).
  rewrite !(proj2 (Z.eqb_neq _ 0)) by lia.
  rewrite <- Z.shiftr_div_pow2, Z.log2_shiftr by lia.
  assert (k <= Z.log2 a) by (apply Z.log2_le_pow2; lia). lia.
Qed.

(** The highest one bit is where the count says. *)
Lemma clz_bound w a : 0 < a < 2 ^ w -> 0 <= w -> 0 <= clz w a < w /\ 2 ^ (w - 1 - clz w a) <= a < 2 ^ (w - clz w a).
Proof.
  intros. unfold clz. rewrite (proj2 (Z.eqb_neq _ 0)) by lia.
  pose proof (Z.log2_spec a). pose proof (Z.log2_lt_pow2 a w). pose proof (Z.log2_nonneg a).
  replace (w - 1 - (w - 1 - Z.log2 a)) with (Z.log2 a) by lia.
  replace (w - (w - 1 - Z.log2 a)) with (Z.succ (Z.log2 a)) by lia. lia.
Qed.

Lemma clz8_correct a : inu 8 a -> softfloat_countLeadingZeros8 a = clz 8 a.
Proof.
  intros [H0 H1]. assert (forallb (fun n => softfloat_countLeadingZeros8 n =? clz 8 n)
    (map Z.of_nat (seq 0 256)) = true) as F by (vm_compute; reflexivity).
  rewrite forallb_forall in F. apply Z.eqb_eq, F.
  destruct (below_cases 256 a H0); [done|]. simpl in *. lia.
Qed.

Lemma shl_small w a k : 0 <= k -> 0 <= a -> a * 2 ^ k < 2 ^ w -> shl w a k = a * 2 ^ k.
Proof.
  intros. unfold shl. rewrite Z.shiftl_mul_pow2 by lia. apply wrapu_small.
  unfold inu. pose proof (pow2_pos k). nia.
Qed.

(** The last two narrowing steps shared by the 32- and the 64-bit count. *)
Lemma clz32_step count a :
  inu 32 a ->
  (let '(count, a) := if a <? 0x10000 then (count + 16, shl 32 a 16) else (count, a) in
   let '(count, a) := if a <? 0x1000000 then (count + 8, shl 32 a 8) else (count, a) in
   count + softfloat_countLeadingZeros8 (Z.shiftr a 24)) = count + clz 32 a.
Proof.
  intros H. assert (forall c x, 2 ^ 24 <= x < 2 ^ 32 ->
    c + softfloat_countLeadingZeros8 (Z.shiftr x 24) = c + clz 32 x) as Hi.
  { intros c x Hx. rewrite Z.shiftr_div_pow2, clz8_correct by
      (lia || (unfold inu; split; [apply Z.div_pos|apply Z.div_lt_upper_bound]; lia)).
    by rewrite <- (clz_div 8 x 24) by lia. }
  unfold inu in H. destruct (Z.eqb_spec a 0) as [->|]; [cbv -[Z.add]; lia|].
  destruct (Z.ltb_spec a 0x10000).
  - rewrite shl_small by lia. destruct (Z.ltb_spec (a * 2 ^ 16) 0x1000000).
    + rewrite shl_small, Hi by lia. rewrite (clz_shift 32 a 16), (clz_shift _ (a * 2 ^ 16) 8) by lia. lia.
    + rewrite Hi by lia. rewrite (clz_shift 32 a 16) by lia. lia.
  - destruct (Z.ltb_spec a 0x1000000).
    + rewrite shl_small, Hi by lia. rewrite (clz_shift 32 a 8) by lia. lia.
    + apply Hi; lia.
Qed.

Lemma countLeadingZeros32_clz a : inu 32 a -> softfloat_countLeadingZeros32 a = clz 32 a.
Proof. intros H. exact (clz32_step 0 a H). Qed.

Lemma countLeadingZeros64_clz a : inu 64 a -> softfloat_countLeadingZeros64 a = clz 64 a.
Proof.
  intros H. unfold softfloat_countLeadingZeros64, inu in *.
  destruct (Z.leb_spec 0x100000000 a).
  - rewrite wrapu_small by (rewrite Z.shiftr_div_pow2 by lia; split;
      [apply Z.div_pos|apply Z.div_lt_upper_bound]; lia).
    rewrite clz32_step by (rewrite Z.shiftr_div_pow2 by lia; split;
      [apply Z.div_pos|apply Z.div_lt_upper_bound]; lia).
    rewrite Z.shiftr_div_pow2, <- (clz_div 32 a 32) by lia. reflexivity.
  - rewrite wrapu_small by (unfold inu; lia). rewrite clz32_step by (unfold inu; lia).
    unfold clz. destruct (a =? 0); lia.
Qed.

(** ** Meaning of the jamming shifts *)

(** [a / 2^n], with the lowest bit set when a one bit was shifted out. *)
Definition jam (a n : Z) : Z := Z.lor (a / 2 ^ n) (b2z (nz (a mod 2 ^ n))).

Lemma nz_mul a k : 0 < k -> nz (a * k) = nz a.
Proof. intros. unfold nz. destruct (Z.eqb_spec a 0), (Z.eqb_spec (a * k) 0); nia || done. Qed.

Lemma nz_lor a b : 0 <= a -> 0 <= b -> nz (Z.lor a b) = nz a || nz b.
Proof.
  intros. unfold nz. destruct (Z.eqb_spec (Z.lor a b) 0) as [E|E].
  - apply Z.lor_eq_0_iff in E as [-> ->]. done.
  - destruct (Z.eqb_spec a 0), (Z.eqb_spec b 0); subst; done.
Qed.

Lemma b2z_range b : 0 <= b2z b <= 1.
Proof. destruct b; simpl; lia. Qed.

Lemma b2z_inu w b : 0 < w -> inu w (b2z b).
Proof.
  intros. pose proof (b2z_range b). unfold inu. pose proof (Z.pow_le_mono_r 2 1 w). lia.
Qed.

Lemma neg_count_small w n : w = 32 \/ w = 64 -> 0 < n < w -> neg_count n (w - 1) = w - n.
Proof.
  intros Hw Hn. unfold neg_count. assert (exists k, 0 <= k /\ w = 2 ^ k /\ k <= 32) as (k & ? & -> & ?).
  { destruct Hw; [exists 5|exists 6]; subst; lia. }
  replace (2 ^ k - 1) with (Z.ones k) by (rewrite Z.ones_equiv; lia).
  rewrite <- wrapu_land_ones, wrapu_wrapu by lia. unfold wrapu.
  rewrite <- (Z.mod_add (- n) 1), Z.mod_small by lia. lia.
Qed.

Lemma shl_neg_count w a n :
  w = 32 \/ w = 64 -> 0 < n < w -> shl w a (neg_count n (w - 1)) = a mod 2 ^ n * 2 ^ (w - n).
Proof.
  intros. rewrite neg_count_small by done. unfold shl, wrapu.
  rewrite Z.shiftl_mul_pow2, (pow2_split (w - n) w) by lia.
  replace (w - (w - n)) with n by lia. rewrite (Z.mul_comm (2 ^ _)).
  apply Z.mul_mod_distr_r; apply Z.pow_nonzero; lia.
Qed.

Lemma jam_low a n : 0 < a < 2 ^ n -> jam a n = 1.
Proof.
  intros. unfold jam, nz. rewrite Z.div_small, Z.mod_small by lia.
  by rewrite (proj2 (Z.eqb_neq a 0)) by lia.
Qed.

Lemma jam_large w a n : inu w a -> w <= n -> jam a n = b2z (nz a).
Proof.
  intros Ha Hn. unfold inu in Ha. destruct (Z.eqb_spec a 0) as [->|].
  - unfold jam. by rewrite Zdiv_0_l, Zmod_0_l.
  - rewrite jam_low; [unfold nz; by rewrite (proj2 (Z.eqb_neq a 0)) by lia|].
    pose proof (Z.pow_le_mono_r 2 w n). lia.
Qed.

Lemma shift64RightJam_jam a n :
  inu 64 a -> 0 < n -> softfloat_shift64RightJam a n = jam a n.
Proof.
  intros Ha Hn. unfold softfloat_shift64RightJam. destruct (Z.ltb_spec n 64).
  - rewrite (shl_neg_count 64), nz_mul, Z.shiftr_div_pow2 by (auto; apply pow2_pos || lia; lia). done.
  - symmetry. by apply (jam_large 64).
Qed.

Lemma shift32RightJam_jam a n :
  inu 32 a -> 0 < n -> softfloat_shift32RightJam a n = jam a n.
Proof.
  intros Ha Hn. unfold softfloat_shift32RightJam. destruct (Z.ltb_spec n 32).
  - rewrite (shl_neg_count 32), nz_mul, Z.shiftr_div_pow2 by (auto; apply pow2_pos || lia; lia). done.
  - symmetry. by apply (jam_large 32).
Qed.

Lemma shortShift64RightJam_jam a n :
  inu 64 a -> 0 <= n < 64 -> softfloat_shortShift64RightJam a n = jam a n.
Proof.
  intros Ha Hn. unfold softfloat_shortShift64RightJam.
  rewrite shl_small, Z.mul_1_l by (rewrite ?Z.mul_1_l; try apply Z.pow_lt_mono_r; lia).
  replace (2 ^ n - 1) with (Z.ones n) by (rewrite Z.ones_equiv; lia).
  rewrite Z.land_ones, Z.shiftr_div_pow2 by lia. done.
Qed.

Lemma shortShift32Right1Jam_jam a : inu 32 a -> softfloat_shortShift32Right1Jam a = jam a 1.
Proof.
  intros Ha. unfold softfloat_shortShift32Right1Jam, jam.
  rewrite Z.shiftr_div_pow2 by lia. change (Z.land a 1) with (Z.land a (Z.ones 1)).
  rewrite Z.land_ones by lia. pose proof (Z.mod_pos_bound a 2). change (2 ^ 1) with 2.
  assert (a mod 2 = 0 \/ a mod 2 = 1) as [->| ->] by lia; done.
Qed.

(** ** Meaning of the multi-word operations *)

Definition val128 (x : uint128) : Z := u128_v64 x * 2 ^ 64 + u128_v0 x.
Definition val192 (x : uint192) : Z := (u192_v128 x * 2 ^ 64 + u192_v64 x) * 2 ^ 64 + u192_v0 x.
Definition val256 (x : uint256) : Z :=
  ((u256_v192 x * 2 ^ 64 + u256_v128 x) * 2 ^ 64 + u256_v64 x) * 2 ^ 64 + u256_v0 x.

Lemma add_carry w a b :
  0 <= w -> inu w a -> inu w b -> wrapu w (a + b) + 2 ^ w * b2z (wrapu w (a + b) <? a) = a + b.
Proof.
  intros Hw [Ha Ha'] [Hb Hb']. unfold wrapu. destruct (Z.lt_ge_cases (a + b) (2 ^ w)) as [H|H].
  - rewrite Z.mod_small by lia. rewrite (proj2 (Z.ltb_ge _ _)) by lia. simpl. lia.
  - rewrite <- (Z.mod_add _ (-1)), Z.mod_small by lia.
    rewrite (proj2 (Z.ltb_lt _ _)) by lia. simpl. lia.
Qed.

(** The same carry, read off the other operand. *)
Lemma add_carry_r w a b :
  0 <= w -> inu w a -> inu w b -> wrapu w (a + b) + 2 ^ w * b2z (wrapu w (a + b) <? b) = a + b.
Proof. intros. rewrite (Z.add_comm a b). by apply add_carry. Qed.

Lemma sub_borrow w a b :
  0 <= w -> inu w a -> inu w b -> wrapu w (a - b) = a - b + 2 ^ w * b2z (a <? b).
Proof.
  intros Hw [Ha Ha'] [Hb Hb']. unfold wrapu. destruct (Z.ltb_spec a b) as [H|H]; cbn [b2z].
  - rewrite <- (Z.mod_add _ 1), Z.mod_small by lia. lia.
  - rewrite Z.mod_small by lia. lia.
Qed.

Lemma join_mod p m x y :
  0 < p -> 0 <= y < m -> (x mod p) * m + y = (x * m + y) mod (p * m).
Proof.
  intros. rewrite (Z.mul_comm p m), Z.rem_mul_r by lia.
  rewrite mod_mul_shift, div_mul_shift, (Z.mod_small y) by lia. lia.
Qed.

Lemma u64_in x : inu 64 (u64 x).
Proof. by apply wrapu_range. Qed.
#[export] Hint Resolve u64_in b2z_inu : sf.

Lemma add128_val a64 a0 b64 b0 :
  inu 64 a0 -> inu 64 b0 ->
  val128 (softfloat_add128 a64 a0 b64 b0) =
  wrapu 128 ((a64 * 2 ^ 64 + a0) + (b64 * 2 ^ 64 + b0)).
Proof.
  intros H0 H0'. unfold val128, softfloat_add128. cbn [u128_v64 u128_v0].
  pose proof (add_carry 64 a0 b0 ltac:(lia) H0 H0') as C. rewrite wrapu_add_l by lia.
  pose proof (u64_in (a0 + b0)). unfold wrapu at 1. rewrite join_mod by (unfold inu in *; lia).
  unfold wrapu. f_equal. unfold wrapu in C. lia.
Qed.

Lemma sub128_val a64 a0 b64 b0 :
  inu 64 a0 -> inu 64 b0 ->
  val128 (softfloat_sub128 a64 a0 b64 b0) =
  wrapu 128 ((a64 * 2 ^ 64 + a0) - (b64 * 2 ^ 64 + b0)).
Proof.
  intros H0 H0'. unfold val128, softfloat_sub128. cbn [u128_v64 u128_v0].
  pose proof (sub_borrow 64 a0 b0 ltac:(lia) H0 H0') as C.
  rewrite <- !Z.add_opp_r with (n := u64 _), wrapu_add_l by lia.
  pose proof (u64_in (a0 - b0)). unfold wrapu at 1. rewrite join_mod by (unfold inu in *; lia).
  unfold wrapu. f_equal. unfold wrapu in C. lia.
Qed.

Lemma uint128_in_add a64 a0 b64 b0 : 
  inu 64 (u128_v64 (softfloat_add128 a64 a0 b64 b0)) /\ inu 64 (u128_v0 (softfloat_add128 a64 a0 b64 b0)).
Proof. split; apply u64_in. Qed.

Lemma uint128_in_sub a64 a0 b64 b0 : 
  inu 64 (u128_v64 (softfloat_sub128 a64 a0 b64 b0)) /\ inu 64 (u128_v0 (softfloat_sub128 a64 a0 b64 b0)).
Proof. split; apply u64_in. Qed.

Lemma add192_val a128 a64 a0 b128 b64 b0 :
  inu 64 a0 -> inu 64 b0 -> inu 64 a64 -> inu 64 b64 ->
  val192 (softfloat_add192 a128 a64 a0 b128 b64 b0) =
  wrapu 192 (((a128 * 2 ^ 64 + a64) * 2 ^ 64 + a0) + ((b128 * 2 ^ 64 + b64) * 2 ^ 64 + b0)).
Proof.
  intros H0 H0' H64 H64'. unfold val192, softfloat_add192. cbn [u192_v128 u192_v64 u192_v0].
  pose proof (add_carry 64 a0 b0 ltac:(lia) H0 H0') as C.
  pose proof (add_carry 64 a64 b64 ltac:(lia) H64 H64') as C'.
  set (c0 := b2z (u64 (a0 + b0) <? a0)) in *. set (c1 := b2z (u64 (a64 + b64) <? a64)) in *.
  pose proof (add_carry_r 64 (u64 (a64 + b64)) c0 ltac:(lia) (u64_in _) ltac:(apply b2z_inu; lia)) as C''.
  set (c2 := b2z (u64 (u64 (a64 + b64) + c0) <? c0)) in *. rewrite (wrapu_add_l 64 (a128 + b128)) by lia.
  pose proof (u64_in (a0 + b0)). pose proof (u64_in (u64 (a64 + b64) + c0)).
  unfold wrapu at 1. rewrite join_mod, join_mod by (unfold inu in *; lia).
  unfold wrapu. f_equal. unfold wrapu in C, C', C''. lia.
Qed.

Lemma sub192_val a128 a64 a0 b128 b64 b0 :
  inu 64 a0 -> inu 64 b0 -> inu 64 a64 -> inu 64 b64 ->
  val192 (softfloat_sub192 a128 a64 a0 b128 b64 b0) =
  wrapu 192 (((a128 * 2 ^ 64 + a64) * 2 ^ 64 + a0) - ((b128 * 2 ^ 64 + b64) * 2 ^ 64 + b0)).
Proof.
  intros H0 H0' H64 H64'. unfold val192, softfloat_sub192. cbn [u192_v128 u192_v64 u192_v0].
  pose proof (sub_borrow 64 a0 b0 ltac:(lia) H0 H0') as C.
  pose proof (sub_borrow 64 a64 b64 ltac:(lia) H64 H64') as C'.
  set (c0 := b2z (a0 <? b0)) in *. set (c1 := b2z (a64 <? b64)) in *.
  pose proof (sub_borrow 64 (u64 (a64 - b64)) c0 ltac:(lia) (u64_in _) ltac:(apply b2z_inu; lia)) as C''.
  set (c2 := b2z (u64 (a64 - b64) <? c0)) in *.
  rewrite <- (Z.add_opp_r (u64 (a128 - b128))), (wrapu_add_l 64 (a128 - b128)) by lia.
  pose proof (u64_in (a0 - b0)). pose proof (u64_in (u64 (a64 - b64) - c0)).
  unfold wrapu at 1. rewrite join_mod, join_mod by (unfold inu in *; lia).
  unfold wrapu. f_equal. unfold wrapu in C, C', C''. lia.
Qed.

Lemma lt128_val a64 a0 b64 b0 :
  inu 64 a0 -> inu 64 b0 ->
  softfloat_lt128 a64 a0 b64 b0 = (a64 * 2 ^ 64 + a0 <? b64 * 2 ^ 64 + b0).
Proof.
  unfold inu, softfloat_lt128. intros.
  destruct (Z.ltb_spec a64 b64), (Z.eqb_spec a64 b64), (Z.ltb_spec a0 b0); simpl;
    symmetry; (apply Z.ltb_lt || apply Z.ltb_ge); nia.
Qed.

Lemma le128_val a64 a0 b64 b0 :
  inu 64 a0 -> inu 64 b0 ->
  softfloat_le128 a64 a0 b64 b0 = (a64 * 2 ^ 64 + a0 <=? b64 * 2 ^ 64 + b0).
Proof.
  unfold inu, softfloat_le128. intros.
  destruct (Z.ltb_spec a64 b64), (Z.eqb_spec a64 b64), (Z.leb_spec a0 b0); simpl;
    symmetry; (apply Z.leb_le || apply Z.leb_gt); nia.
Qed.

Lemma eq128_val a64 a0 b64 b0 :
  inu 64 a0 -> inu 64 b0 ->
  softfloat_eq128 a64 a0 b64 b0 = (a64 * 2 ^ 64 + a0 =? b64 * 2 ^ 64 + b0).
Proof.
  unfold inu, softfloat_eq128. intros.
  destruct (Z.eqb_spec a64 b64), (Z.eqb_spec a0 b0); simpl;
    symmetry; (apply Z.eqb_eq || apply Z.eqb_neq); nia.
Qed.

Lemma u32_mul_in a b : inu 64 (u32 a * u32 b).
Proof.
  pose proof (wrapu_range 32 a ltac:(lia)). pose proof (wrapu_range 32 b ltac:(lia)).
  unfold inu in *. change (2 ^ 64) with (2 ^ 32 * 2 ^ 32). nia.
Qed.

(** Split of a double word at its middle. *)
Lemma split32 a : inu 64 a -> a = u32 (Z.shiftr a 32) * 2 ^ 32 + u32 a.
Proof.
  intros [H0 H1]. rewrite Z.shiftr_div_pow2, (wrapu_small 32 (a / _)).
  - unfold wrapu. rewrite Z.mul_comm. apply Z.div_mod. lia.
  - unfold inu. split; [apply Z.div_pos; lia|]. apply Z.div_lt_upper_bound; lia.
  - lia.
Qed.

Lemma mul64To128_val a b :
  inu 64 a -> inu 64 b -> val128 (softfloat_mul64To128 a b) = a * b.
Proof.
  intros Ha Hb. unfold val128, softfloat_mul64To128. cbv zeta. cbn [u128_v64 u128_v0].
  pose proof (split32 a Ha) as Ea. pose proof (split32 b Hb) as Eb.
  set (a32 := u32 (Z.shiftr a 32)) in *. set (a0 := u32 a) in *.
  set (b32 := u32 (Z.shiftr b 32)) in *. set (b0 := u32 b) in *.
  rewrite !(wrapu_small 64 (_ * _)) by apply u32_mul_in.
  pose proof (add_carry 64 (a32 * b0) (a0 * b32) ltac:(lia) (u32_mul_in _ _) (u32_mul_in _ _)) as C1.
  pose proof (u64_in (a32 * b0 + a0 * b32)) as R. set (mid := u64 (a32 * b0 + a0 * b32)) in *.
  set (c1 := mid <? a32 * b0) in *.
  assert (shl 64 mid 32 = mid mod 2 ^ 32 * 2 ^ 32) as Es.
  { pose proof (shl_neg_count 64 mid 32). change (neg_count 32 (64 - 1)) with 32 in *. auto with lia. }
  assert (Z.lor (shl 64 (b2z c1) 32) (Z.shiftr mid 32) = mid / 2 ^ 32 + b2z c1 * 2 ^ 32) as El.
  { rewrite Z.lor_comm, <- Z.shiftr_div_pow2 by lia. rewrite shl_small by (destruct c1; simpl; lia).
    rewrite <- Z.shiftl_mul_pow2 by lia. rewrite Z.shiftl_mul_pow2 at 2 by lia.
    apply lor_disjoint_add; [lia| |destruct c1; simpl; lia].
    rewrite Z.shiftr_div_pow2 by lia. unfold inu in *. split; [apply Z.div_pos; lia|].
    apply Z.div_lt_upper_bound; lia. }
  rewrite El, Es.
  assert (inu 64 (mid mod 2 ^ 32 * 2 ^ 32)) as Rs.
  { rewrite <- Es. apply u64_in. }
  pose proof (add_carry_r 64 (a0 * b0) _ ltac:(lia) (u32_mul_in _ _) Rs) as C2.
  set (lo := u64 (a0 * b0 + mid mod 2 ^ 32 * 2 ^ 32)) in *. set (c2 := lo <? mid mod 2 ^ 32 * 2 ^ 32) in *.
  rewrite wrapu_add_l by lia. pose proof (u64_in (a0 * b0 + mid mod 2 ^ 32 * 2 ^ 32)) as Rl.
  change (inu 64 lo) in Rl. unfold wrapu at 1. rewrite join_mod by (unfold inu in *; lia).
  change (2 ^ 64 * 2 ^ 64) with (2 ^ 128). pose proof (Z.div_mod mid (2 ^ 32) ltac:(lia)).
  transitivity ((a * b) mod 2 ^ 128).
  - f_equal. rewrite Ea, Eb. lia.
  - apply Z.mod_small. unfold inu in *. change (2 ^ 128) with (2 ^ 64 * 2 ^ 64). nia.
Qed.

Lemma mul64To128_in a b :
  inu 64 (u128_v64 (softfloat_mul64To128 a b)) /\ inu 64 (u128_v0 (softfloat_mul64To128 a b)).
Proof. split; apply u64_in. Qed.

(** Both halves of a product, as a rewriting equation. *)
Lemma mul64To128_spec a b :
  inu 64 a -> inu 64 b ->
  inu 64 (u128_v64 (softfloat_mul64To128 a b)) /\ inu 64 (u128_v0 (softfloat_mul64To128 a b)) /\
  u128_v64 (softfloat_mul64To128 a b) * 2 ^ 64 + u128_v0 (softfloat_mul64To128 a b) = a * b.
Proof. intros. split_and!; [apply mul64To128_in..|by apply mul64To128_val]. Qed.

Lemma mul128By64To192_val a64 a0 b :
  inu 64 a64 -> inu 64 a0 -> inu 64 b ->
  val192 (softfloat_mul128By64To192 a64 a0 b) = (a64 * 2 ^ 64 + a0) * b.
Proof.
  intros H64 H0 Hb. unfold val192, softfloat_mul128By64To192. cbn [u192_v128 u192_v64 u192_v0].
  destruct (mul64To128_spec a0 b H0 Hb) as (R1 & R2 & E0).
  destruct (mul64To128_spec a64 b H64 Hb) as (R3 & R4 & E64).
  set (p0 := softfloat_mul64To128 a0 b) in *. set (p64 := softfloat_mul64To128 a64 b) in *.
  pose proof (add_carry 64 _ _ ltac:(lia) R4 R1) as C. pose proof (u64_in (u128_v0 p64 + u128_v64 p0)).
  unfold wrapu at 1. rewrite join_mod, join_mod by (unfold inu in *; lia).
  rewrite Z.mod_small.
  - lia.
  - unfold inu in *. nia.
Qed.

Lemma mul128To256_val a64 a0 b64 b0 :
  inu 64 a64 -> inu 64 a0 -> inu 64 b64 -> inu 64 b0 ->
  val256 (softfloat_mul128To256 a64 a0 b64 b0) = (a64 * 2 ^ 64 + a0) * (b64 * 2 ^ 64 + b0).
Proof.
  intros Ha64 Ha0 Hb64 Hb0. unfold val256, softfloat_mul128To256. cbv zeta.
  cbn [u256_v192 u256_v128 u256_v64 u256_v0].
  destruct (mul64To128_spec a0 b0 Ha0 Hb0) as (R1 & R2 & E0).
  destruct (mul64To128_spec a64 b0 Ha64 Hb0) as (R3 & R4 & E1).
  destruct (mul64To128_spec a64 b64 Ha64 Hb64) as (R5 & R6 & E2).
  destruct (mul64To128_spec a0 b64 Ha0 Hb64) as (R7 & R8 & E3).
  generalize dependent (softfloat_mul64To128 a0 b0). intros [p3 p4] R1 R2 E0.
  generalize dependent (softfloat_mul64To128 a64 b0). intros [p5 p6] R3 R4 E1.
  generalize dependent (softfloat_mul64To128 a64 b64). intros [p7 p8] R5 R6 E2.
  generalize dependent (softfloat_mul64To128 a0 b64). intros [p1 p2] R7 R8 E3.
  cbn [u128_v64 u128_v0] in *.
  pose proof (add_carry 64 _ _ ltac:(lia) R4 R1) as C1. set (c1 := b2z (u64 (p6 + p3) <? p6)) in *.
  set (z64 := u64 (p6 + p3)) in *. pose proof (u64_in (p6 + p3)) as Z1. fold z64 in Z1.
  pose proof (add_carry_r 64 _ _ ltac:(lia) (u64_in (p5 + c1)) R6) as C2.
  set (z128 := u64 (u64 (p5 + c1) + p8)) in *. set (c2 := b2z (z128 <? p8)) in *.
  pose proof (u64_in (u64 (p5 + c1) + p8)) as Z2. fold z128 in Z2.
  pose proof (add_carry_r 64 _ _ ltac:(lia) Z1 R8) as C3.
  set (z64' := u64 (z64 + p2)) in *. set (c3 := b2z (z64' <? p2)) in *.
  pose proof (u64_in (z64 + p2)) as Z3. fold z64' in Z3.
  pose proof (add_carry_r 64 _ _ ltac:(lia) Z2 (u64_in (p1 + c3))) as C4.
  set (z128' := u64 (z128 + u64 (p1 + c3))) in *. set (c4 := b2z (z128' <? u64 (p1 + c3))) in *.
  pose proof (u64_in (z128 + u64 (p1 + c3))) as Z4. fold z128' in Z4.
  assert (p5 + c1 < 2 ^ 64 /\ p1 + c3 < 2 ^ 64) as [Hs1 Hs2].
  { unfold inu in *. pose proof (b2z_range (z64 <? p6)). pose proof (b2z_range (z64' <? p2)). nia. }
  rewrite (wrapu_small 64 (p5 + c1)) in * by
    (pose proof (b2z_range (z64 <? p6)); unfold inu in *; subst c1; lia).
  rewrite (wrapu_small 64 (p1 + c3)) in * by
    (pose proof (b2z_range (z64' <? p2)); unfold inu in *; subst c3; lia).
  rewrite wrapu_add_l by lia. unfold wrapu at 1.
  rewrite join_mod, join_mod, join_mod by (unfold inu in *; lia).
  match goal with |- ?x mod _ = _ => assert (x = (a64 * 2 ^ 64 + a0) * (b64 * 2 ^ 64 + b0)) as -> by lia end.
  apply Z.mod_small. split; [unfold inu in *; nia|].
  replace (2 ^ 64 * 2 ^ 64 * 2 ^ 64 * 2 ^ 64) with (2 ^ 128 * 2 ^ 128) by reflexivity.
  apply Z.mul_lt_mono_nonneg; unfold inu in *; lia.
Qed.

Lemma lor_join w x y b :
  0 <= w -> 0 <= x -> inu w y -> inu w b -> Z.lor (x * 2 ^ w + y) b = x * 2 ^ w + Z.lor y b.
Proof.
  intros. rewrite !(Z.add_comm (x * _)). rewrite <- !lor_disjoint_add by (auto using lor_range).
  rewrite <- !Z.lor_assoc. f_equal. apply Z.lor_comm.
Qed.

(** The bits of a double word around a cut at [n] bits. *)
Lemma div_join w x y n :
  0 <= n <= w -> (x * 2 ^ w + y) / 2 ^ n = x * 2 ^ (w - n) + y / 2 ^ n.
Proof.
  intros. rewrite (pow2_split n w) by lia.
  replace (x * (2 ^ n * 2 ^ (w - n)) + y) with (x * 2 ^ (w - n) * 2 ^ n + y) by ring.
  rewrite Z.div_add_l; [done|]. apply Z.pow_nonzero; lia.
Qed.

Lemma mod_join w x y n : 0 <= n <= w -> (x * 2 ^ w + y) mod 2 ^ n = y mod 2 ^ n.
Proof.
  intros. rewrite (pow2_split n w) by lia.
  replace (x * (2 ^ n * 2 ^ (w - n)) + y) with (x * 2 ^ (w - n) * 2 ^ n + y) by ring.
  apply mod_mul_shift. apply pow2_pos; lia.
Qed.

Lemma shiftr_div_range w x n : 0 <= n <= w -> inu w x -> inu (w - n) (x / 2 ^ n).
Proof.
  intros Hn [H0 H1]. pose proof (pow2_pos n). split; [apply Z.div_pos; lia|].
  apply Z.div_lt_upper_bound; [lia|]. by rewrite <- pow2_split by lia.
Qed.

Lemma lor_high_low x y n w :
  0 <= n <= w -> inu n y -> 0 <= x -> Z.lor (x * 2 ^ n) y = x * 2 ^ n + y.
Proof.
  intros. rewrite Z.lor_comm, <- Z.shiftl_mul_pow2 by lia.
  rewrite lor_disjoint_add, Z.shiftl_mul_pow2 by (auto; lia). lia.
Qed.

(** A word times [2^n], split at bit 64. *)
Lemma shl_split x n :
  0 < n < 64 -> x * 2 ^ n = x / 2 ^ (64 - n) * 2 ^ 64 + shl 64 x n /\
  shl 64 x n = x mod 2 ^ (64 - n) * 2 ^ n.
Proof.
  intros. unfold shl, wrapu. rewrite Z.shiftl_mul_pow2 by lia.
  pose proof (pow2_split (64 - n) 64 ltac:(lia)) as E. replace (64 - (64 - n)) with n in E by lia.
  rewrite E, Z.mul_mod_distr_r by (apply Z.pow_nonzero; lia). split; [|done].
  rewrite (Z.div_mod x (2 ^ (64 - n))) at 1 by (apply Z.pow_nonzero; lia). ring.
Qed.

Lemma shortShift128Left_val a64 a0 n :
  inu 64 a64 -> inu 64 a0 -> 0 < n < 64 ->
  val128 (softfloat_shortShift128Left a64 a0 n) = wrapu 128 ((a64 * 2 ^ 64 + a0) * 2 ^ n).
Proof.
  intros Ha64 Ha0 Hn. unfold val128, softfloat_shortShift128Left. cbn [u128_v64 u128_v0].
  rewrite (neg_count_small 64), Z.shiftr_div_pow2 by (auto; lia).
  destruct (shl_split a64 n Hn) as [E1 E2]. destruct (shl_split a0 n Hn) as [E3 _].
  pose proof (shiftr_div_range 64 a0 (64 - n) ltac:(lia) Ha0) as R.
  replace (64 - (64 - n)) with n in R by lia.
  pose proof (Z.mod_pos_bound a64 (2 ^ (64 - n)) ltac:(apply pow2_pos; lia)).
  rewrite E2 at 1. rewrite (lor_high_low _ _ _ 64) by (auto; lia). rewrite <- E2.
  pose proof (u64_in (Z.shiftl a64 n)) as R1. pose proof (u64_in (Z.shiftl a0 n)) as R2.
  change (u64 (Z.shiftl ?x n)) with (shl 64 x n) in *.
  assert (shl 64 a64 n + a0 / 2 ^ (64 - n) < 2 ^ 64) as B.
  { rewrite E2. pose proof (pow2_split (64 - n) 64 ltac:(lia)) as E.
    replace (64 - (64 - n)) with n in E by lia. unfold inu in *. nia. }
  unfold wrapu. apply Z.mod_unique with (a64 / 2 ^ (64 - n)); unfold inu in *.
  - left. lia.
  - lia.
Qed.

Lemma shift128RightJam_jam a64 a0 n :
  inu 64 a64 -> inu 64 a0 -> 0 < n ->
  val128 (softfloat_shift128RightJam a64 a0 n) = jam (a64 * 2 ^ 64 + a0) n.
Proof.
  intros Ha64 Ha0 Hn. unfold val128, softfloat_shift128RightJam.
  destruct (Z.ltb_spec n 64); cbn [u128_v64 u128_v0].
  - assert (Z.land n 63 = n) as ->.
    { change 63 with (Z.ones 6). rewrite Z.land_ones by lia. apply Z.mod_small. lia. }
    rewrite !(shl_neg_count 64), nz_mul by (auto; apply pow2_pos; lia).
    unfold jam. rewrite !Z.shiftr_div_pow2, mod_join, div_join by lia.
    pose proof (shiftr_div_range 64 a0 n ltac:(lia) Ha0) as R.
    pose proof (Z.mod_pos_bound a64 (2 ^ n) ltac:(apply pow2_pos; lia)).
    rewrite (lor_high_low _ _ (64 - n) 64) by (auto; lia).
    rewrite <- lor_join.
    + f_equal. rewrite (Z.div_mod a64 (2 ^ n)) at 3 by (apply Z.pow_nonzero; lia).
      rewrite (pow2_split n 64) by lia. ring.
    + lia.
    + apply Z.div_pos; [apply Ha64|apply pow2_pos; lia].
    + pose proof (pow2_split n 64 ltac:(lia)). unfold inu in *. nia.
    + by apply b2z_inu.
  - rewrite Z.add_0_l. destruct (Z.ltb_spec n 128).
    + assert (Z.land n 63 = n - 64) as ->.
      { change 63 with (Z.ones 6). rewrite Z.land_ones by lia. change (2 ^ 6) with 64.
        rewrite <- (Z.mod_add _ (-1)), Z.mod_small by lia. lia. }
      rewrite shl_small, Z.mul_1_l by (rewrite ?Z.mul_1_l; try apply Z.pow_lt_mono_r; lia).
      replace (2 ^ (n - 64) - 1) with (Z.ones (n - 64)) by (rewrite Z.ones_equiv; lia).
      rewrite Z.land_ones, Z.shiftr_div_pow2 by lia. unfold jam.
      pose proof (Z.mod_pos_bound a64 (2 ^ (n - 64)) ltac:(apply pow2_pos; lia)).
      rewrite (pow2_split 64 n) by lia. rewrite Z.rem_mul_r, <- Z.div_div by (try apply Z.pow_nonzero; try apply pow2_pos; lia).
      rewrite mod_mul_shift, div_mul_shift, (Z.mod_small a0) by (apply Ha0 || lia).
      f_equal. f_equal. unfold inu in *. rewrite nz_lor by lia. unfold nz.
      destruct (Z.eqb_spec (a64 mod 2 ^ (n - 64)) 0), (Z.eqb_spec a0 0); simpl; symmetry;
        (apply negb_true_iff, Z.eqb_neq || apply negb_false_iff, Z.eqb_eq); lia.
    + rewrite (jam_large 128) by (unfold inu in *; lia). f_equal. unfold inu in *.
      rewrite nz_lor by lia. unfold nz.
      destruct (Z.eqb_spec a64 0), (Z.eqb_spec a0 0); simpl; symmetry;
        (apply negb_true_iff, Z.eqb_neq || apply negb_false_iff, Z.eqb_eq); lia.
Qed.

Lemma compare_mul_l k a b : 0 < k -> (k * a ?= k * b) = (a ?= b).
Proof. intros. destruct (Z.compare_spec a b), (Z.compare_spec (k * a) (k * b)); nia || done. Qed.

(** The extra word tells an exact result, and on which side of one half the
    discarded fraction lies. *)
Lemma shift64ExtraRightJam_spec a n :
  inu 64 a -> 0 < n ->
  let z := softfloat_shift64ExtraRightJam a 0 n in
  inu 64 (u64e_v z) /\ inu 64 (u64e_extra z) /\ u64e_v z = a / 2 ^ n /\
  nz (u64e_extra z) = nz (a mod 2 ^ n) /\
  (u64e_extra z ?= 2 ^ 63) = (2 * (a mod 2 ^ n) ?= 2 ^ n).
Proof.
  intros Ha Hn. unfold softfloat_shift64ExtraRightJam. cbv zeta.
  pose proof (pow2_pos n ltac:(lia)). destruct (Z.ltb_spec n 64) as [Hlt|Hge].
  - cbn [u64e_v u64e_extra]. rewrite Z.lor_0_r, Z.shiftr_div_pow2 by lia.
    split_and!; [rewrite <- Z.shiftr_div_pow2 by lia; by apply shiftr_range; [lia|]|apply u64_in|done| |];
      rewrite (shl_neg_count 64) by (auto; lia).
    + apply nz_mul, pow2_pos. lia.
    + replace (2 ^ 63) with (2 ^ (63 - n) * 2 ^ n) by (rewrite <- Z.pow_add_r by lia; f_equal; lia).
      replace (64 - n) with (63 - n + 1) by lia. rewrite Z.pow_add_r by lia.
      pose proof (pow2_pos (63 - n) ltac:(lia)).
      replace (a mod 2 ^ n * (2 ^ (63 - n) * 2 ^ 1)) with (2 ^ (63 - n) * (2 * (a mod 2 ^ n))) by lia.
      by apply compare_mul_l.
  - assert (inu n a) as Hna by (apply (inu_weaken 64); auto; lia). unfold inu in Hna.
    rewrite (Z.div_small a), (Z.mod_small a) by lia. cbn [u64e_v u64e_extra]. rewrite Z.lor_0_r.
    split_and!; [done|destruct (n =? 64); [done|by apply b2z_inu]|done| |]; destruct (Z.eqb_spec n 64).
    + done.
    + unfold nz. by destruct (a =? 0).
    + subst. unfold inu in Ha. destruct (Z.compare_spec a (2 ^ 63)), (Z.compare_spec (2 * a) (2 ^ 64)); lia || done.
    + pose proof (b2z_range (nz a)). pose proof (Z.pow_le_mono_r 2 65 n). unfold inu in Ha.
      rewrite (proj2 (Z.compare_lt_iff _ _)) by lia. symmetry. apply Z.compare_lt_iff. lia.
Qed.

(** ** The quotient estimate

    One digit in base [2^32], estimated from the top halves as in Knuth's
    Algorithm D. *)
Definition digit_est (t b32 : Z) : Z := if b32 * 2 ^ 32 <=? t then 2 ^ 32 - 1 else t / b32.

Lemma digit_est_bound R b32 bl :
  let b := b32 * 2 ^ 32 + bl in
  2 ^ 31 <= b32 < 2 ^ 32 -> 0 <= bl < 2 ^ 32 -> 0 <= R < b * 2 ^ 32 ->
  R / b <= digit_est (R / 2 ^ 32) b32 <= R / b + 2 /\ 0 <= digit_est (R / 2 ^ 32) b32 < 2 ^ 32.
Proof.
  intros b Hb32 Hbl HR. assert (0 < b) by lia.
  pose proof (Z.div_mod R b ltac:(lia)) as E. pose proof (Z.mod_pos_bound R b ltac:(lia)) as Er.
  assert (0 <= R / b < 2 ^ 32) by (split; [apply Z.div_pos|apply Z.div_lt_upper_bound]; lia).
  pose proof (Z.mul_div_le R (2 ^ 32) ltac:(lia)) as Et. set (t := R / 2 ^ 32) in *.
  assert (0 <= t) by (apply Z.div_pos; lia).
  assert (R / b <= t / b32) as Hlo.
  { apply Z.div_le_lower_bound; [lia|]. apply Z.div_le_lower_bound; [lia|]. nia. }
  unfold digit_est. destruct (Z.leb_spec (b32 * 2 ^ 32) t).
  - split; [|lia]. split; [lia|]. assert (t - t mod b32 >= 0) by (pose proof (Z.mod_le t b32); lia). nia.
  - pose proof (Z.mul_div_le t b32 ltac:(lia)).
    assert (t / b32 < 2 ^ 32) by (apply Z.div_lt_upper_bound; lia).
    split; [|split; [apply Z.div_pos|]; lia]. split; [done|]. nia.
Qed.

Lemma val128_ge x : inu 64 (u128_v64 x) -> inu 64 (u128_v0 x) ->
  (0x8000000000000000 <=? u128_v64 x) = (2 ^ 127 <=? val128 x).
Proof.
  unfold val128, inu. intros.
  destruct (Z.leb_spec 0x8000000000000000 (u128_v64 x)), (Z.leb_spec (2 ^ 127) (u128_v64 x * 2 ^ 64 + u128_v0 x)); lia || done.
Qed.

Lemma estimateDiv_loop_spec A b32 bl qh fuel zh rem :
  let b := b32 * 2 ^ 32 + bl in
  2 ^ 31 <= b32 < 2 ^ 32 -> 0 <= bl < 2 ^ 32 ->
  0 <= qh -> qh * b * 2 ^ 32 <= A < (qh + 1) * b * 2 ^ 32 ->
  qh <= zh <= qh + 2 -> zh <= qh + Z.of_nat fuel -> zh < 2 ^ 32 ->
  inu 64 (u128_v64 rem) -> inu 64 (u128_v0 rem) ->
  val128 rem = wrapu 128 (A - b * (zh * 2 ^ 32)) ->
  exists rem', estimateDiv_loop fuel b b32 (zh * 2 ^ 32) rem = Some (qh * 2 ^ 32, rem') /\
    inu 64 (u128_v64 rem') /\ inu 64 (u128_v0 rem') /\ val128 rem' = A - b * (qh * 2 ^ 32).
Proof.
  intros b Hb32 Hbl Hqh HA. revert zh rem. induction fuel as [|fuel IH]; intros zh rem Hz Hf Hzs R64 R0 E.
  - assert (zh = qh) as -> by lia. assert (val128 rem = A - b * (qh * 2 ^ 32)) as E'.
    { rewrite E. apply wrapu_small. unfold inu. nia. }
    exists rem. cbn [estimateDiv_loop]. rewrite val128_ge, E', (proj2 (Z.leb_gt _ _)) by (auto; nia). auto.
  - cbn [estimateDiv_loop]. rewrite val128_ge by done. destruct (Z.eq_dec zh qh) as [->|Hne].
    + assert (val128 rem = A - b * (qh * 2 ^ 32)) as E'.
      { rewrite E. apply wrapu_small. unfold inu. nia. }
      exists rem. rewrite E', (proj2 (Z.leb_gt _ _)) by nia. auto.
    + assert (val128 rem = A - b * (zh * 2 ^ 32) + 2 ^ 128) as E'.
      { rewrite E. unfold wrapu. rewrite <- (Z.mod_add _ 1), Z.mod_small by nia. lia. }
      rewrite E', (proj2 (Z.leb_le _ _)) by nia.
      rewrite (wrapu_small 64 (zh * 2 ^ 32 - 0x100000000)) by (unfold inu; lia).
      replace (zh * 2 ^ 32 - 0x100000000) with ((zh - 1) * 2 ^ 32) by lia.
      apply IH; try apply uint128_in_add; try lia.
      rewrite add128_val by (auto; apply u64_in). change (u128_v64 rem * 2 ^ 64 + u128_v0 rem) with (val128 rem).
      rewrite E'. assert (shl 64 b 32 = bl * 2 ^ 32) as ->.
      { pose proof (shl_neg_count 64 b 32) as Hs. change (neg_count 32 (64 - 1)) with 32 in Hs.
        rewrite Hs by (auto; lia). unfold b. rewrite mod_mul_shift, Z.mod_small by lia. done. }
      rewrite <- (wrapu_shift_period 128 (A - b * ((zh - 1) * 2 ^ 32)) 1) by lia.
      f_equal. unfold b. lia.
Qed.

Lemma shl32_low x : inu 32 x -> shl 64 x 32 = x * 2 ^ 32.
Proof. unfold inu. intros. apply shl_small; lia. Qed.

(** What the estimate promises: it returns, and errs by at most two above. *)
Lemma estimateDiv128To64_bound a64 a0 b :
  2 ^ 63 <= b < 2 ^ 64 -> 0 <= a64 < b -> inu 64 a0 ->
  exists z, softfloat_estimateDiv128To64 a64 a0 b = Some z /\ inu 64 z /\
    let q := (a64 * 2 ^ 64 + a0) / b in q <= z <= q + 2.
Proof.
  intros Hb Ha64 Ha0. unfold softfloat_estimateDiv128To64.
  rewrite (proj2 (Z.leb_gt b a64)) by lia. cbv zeta.
  pose proof (split32 b ltac:(unfold inu; lia)) as Eb. pose proof (wrapu_range 32 b ltac:(lia)) as Hbl.
  set (bl := u32 b) in *. assert (inu 32 (Z.shiftr b 32)) as Hb32.
  { rewrite Z.shiftr_div_pow2 by lia. apply (shiftr_div_range 64); unfold inu; lia. }
  rewrite (wrapu_small 32) in * by done. set (b32 := Z.shiftr b 32) in *. unfold inu in Hb32, Hbl, Ha0.
  set (A := a64 * 2 ^ 64 + a0). set (R := A / 2 ^ 32).
  assert (0 <= R < b * 2 ^ 32) as HR.
  { unfold R. split; [apply Z.div_pos; lia|]. apply Z.div_lt_upper_bound; lia. }
  assert (R / 2 ^ 32 = a64) as ER.
  { unfold R, A. rewrite Z.div_div by lia. apply div_mul_shift; lia. }
  rewrite shl32_low by (unfold inu; lia).
  destruct (digit_est_bound R b32 bl) as [B1 B2]; [lia..|]. rewrite <- Eb in B1. rewrite ER in B1, B2.
  set (zh := digit_est a64 b32) in *.
  assert ((if b32 * 2 ^ 32 <=? a64 then 0xFFFFFFFF00000000 else shl 64 (a64 / b32) 32) = zh * 2 ^ 32) as ->.
  { unfold zh, digit_est in *. destruct (b32 * 2 ^ 32 <=? a64); [done|]. by apply shl32_low. }
  destruct (mul64To128_spec b (zh * 2 ^ 32)) as (M1 & M2 & M3); [unfold inu; lia..|].
  destruct (estimateDiv_loop_spec A b32 bl (R / b) 3 zh
    (softfloat_sub128 a64 a0 (u128_v64 (softfloat_mul64To128 b (zh * 2 ^ 32)))
       (u128_v0 (softfloat_mul64To128 b (zh * 2 ^ 32))))) as (rem & L & R1 & R2 & E); try lia.
  - apply Z.div_pos; lia.
  - rewrite <- Eb. unfold R. rewrite Z.div_div by lia. rewrite (Z.mul_comm (2 ^ 32) b).
    pose proof (Z.mul_div_le A (b * 2 ^ 32)). pose proof (Z.mul_succ_div_gt A (b * 2 ^ 32)). lia.
  - apply uint128_in_sub.
  - apply uint128_in_sub.
  - rewrite sub128_val, M3 by (done || unfold inu; lia). by rewrite <- Eb.
  - rewrite <- Eb in E, L. rewrite L. set (qh := R / b) in *. assert (0 <= val128 rem < b * 2 ^ 32) as Hrem.
    { rewrite E. unfold qh, R. rewrite Z.div_div by lia. rewrite (Z.mul_comm (2 ^ 32) b).
      pose proof (Z.mul_div_le A (b * 2 ^ 32)). pose proof (Z.mul_succ_div_gt A (b * 2 ^ 32)). lia. }
    assert (Z.lor (shl 64 (u128_v64 rem) 32) (Z.shiftr (u128_v0 rem) 32) = val128 rem / 2 ^ 32) as ->.
    { unfold val128, inu in *. assert (inu 32 (u128_v64 rem)) by (unfold inu; lia).
      rewrite shl32_low, Z.shiftr_div_pow2, div_join by (auto; lia).
      apply (lor_high_low _ _ _ 64); [lia| |lia]. by apply (shiftr_div_range 64). }
    destruct (digit_est_bound (val128 rem) b32 bl) as [D1 D2]; [lia..|].
    change 0xFFFFFFFF with (2 ^ 32 - 1).
    change (if b32 * 2 ^ 32 <=? ?x then 2 ^ 32 - 1 else ?x / b32) with (digit_est x b32).
    eexists; split; [done|]. assert (0 <= qh) by (apply Z.div_pos; lia).
    rewrite (lor_high_low _ _ _ 64) by (unfold inu; lia). rewrite <- Eb in D1.
    assert (A / b = qh * 2 ^ 32 + val128 rem / b) as ->; [|unfold inu; lia].
    rewrite <- Z.div_add_l by lia. f_equal. lia.
Qed.
