(* ===== verification/SFRound.v ===== *)
(** * SoftFloat: formats, rounding and packing

    The field macros of internals.h, NaN handling (specialize.h), the
    normalise/round/pack routines for the single and the double format and the
    rounding to 32- and 64-bit integers, with a reference semantics of rounding
    on exact rationals that all arithmetic is proved against. *)

From Stdlib Require Import ZArith Lia Bool List.
From stdpp Require Import base list.
From S2P Require Import Prelude SFPrim.

(** ** The floating-point environment

    specialize.h includes bbl/mtrap.h, which makes [softfloat_roundingMode] the
    register [tp] and [softfloat_raiseFlags(x)] the instruction
    [csrs fflags, x].  A routine reads the first and accumulates into the
    second; [None] stands for a loop that has not ended within its fuel. *)
Definition FP (A : Type) : Type := Z -> Z -> option (A * Z).

Definition fret {A} (a : A) : FP A := fun _ fl => Some (a, fl).

Definition fbind {A B} (c : FP A) (k : A -> FP B) : FP B := fun rm fl =>
  match c rm fl with
  | Some (a, fl') => k a rm fl'
  | None => None
  end.

Definition softfloat_roundingMode : FP Z := fun rm fl => Some (rm, fl).

Definition softfloat_raiseFlags (which : Z) : FP unit := fun _ fl => Some (tt, Z.lor fl which).

Definition flift {A} (o : option A) : FP A := fun _ fl =>
  match o with Some a => Some (a, fl) | None => None end.

Declare Scope fp_scope.
Delimit Scope fp_scope with fp.
Notation "'let%' x ':=' c 'in' k" := (fbind c (fun x => k))
  (at level 10, x pattern, c at level 100, k at level 200) : fp_scope.
Notation "c1 ;;% c2" := (fbind c1 (fun _ => c2))
  (at level 100, c2 at level 200, right associativity) : fp_scope.
Open Scope fp_scope.

(** [if (c) softfloat_raiseFlags(x);] *)
Definition raise_if (c : bool) (which : Z) : FP unit :=
  if c then softfloat_raiseFlags which else fret tt.

(** ** Constants (softfloat.h, specialize.h) *)
Definition softfloat_round_nearest_even : Z := 0.
Definition softfloat_round_minMag : Z := 1.
Definition softfloat_round_min : Z := 2.
Definition softfloat_round_max : Z := 3.
Definition softfloat_round_nearest_maxMag : Z := 4.
Definition softfloat_flag_inexact : Z := 1.
Definition softfloat_flag_underflow : Z := 2.
Definition softfloat_flag_overflow : Z := 4.
Definition softfloat_flag_infinity : Z := 8.
Definition softfloat_flag_invalid : Z := 16.
Definition softfloat_tininess_beforeRounding : Z := 0.
Definition softfloat_detectTininess : Z := softfloat_tininess_beforeRounding.
Definition defaultNaNF32UI : Z := 0xFFFFFFFF.
Definition defaultNaNF64UI : Z := 0xFFFFFFFFFFFFFFFF.

(** ** Fields (internals.h) *)
Definition signF32UI (a : Z) : bool := nz (Z.shiftr (u32 a) 31).
Definition expF32UI (a : Z) : Z := Z.land (s32 (Z.shiftr a 23)) 0xFF.
Definition fracF32UI (a : Z) : Z := Z.land a 0x007FFFFF.
Definition packToF32UI (sign : bool) (exp sig : Z) : Z :=
  u32 (shl 32 (b2z sign) 31 + shl 32 (u32 exp) 23 + sig).
Definition isNaNF32UI (ui : Z) : bool := 0xFF000000 <? shl 32 ui 1.

Definition signF64UI (a : Z) : bool := nz (Z.shiftr (u64 a) 63).
Definition expF64UI (a : Z) : Z := Z.land (s32 (Z.shiftr a 52)) 0x7FF.
Definition fracF64UI (a : Z) : Z := Z.land a 0x000FFFFFFFFFFFFF.
Definition packToF64UI (sign : bool) (exp sig : Z) : Z :=
  u64 (shl 64 (b2z sign) 63 + shl 64 (u64 exp) 52 + sig).
Definition isNaNF64UI (ui : Z) : bool := 0xFFE0000000000000 <? shl 64 ui 1.

(** ** NaNs *)
Record commonNaN := CommonNaN { nan_sign : bool; nan_v64 : Z; nan_v0 : Z }.

Definition softfloat_isSigNaNF32UI (ui : Z) : bool :=
  (Z.land (Z.shiftr ui 22) 0x1FF =? 0x1FE) && nz (Z.land ui 0x003FFFFF).

Definition softfloat_isSigNaNF64UI (ui : Z) : bool :=
  (Z.land (Z.shiftr ui 51) 0xFFF =? 0xFFE) && nz (Z.land ui 0x0007FFFFFFFFFFFF).

Definition softfloat_propagateNaNF32UI (uiA uiB : Z) : FP Z :=
  raise_if (softfloat_isSigNaNF32UI uiA || softfloat_isSigNaNF32UI uiB) softfloat_flag_invalid ;;%
  fret defaultNaNF32UI.

Definition softfloat_propagateNaNF64UI (uiA uiB : Z) : FP Z :=
  raise_if (softfloat_isSigNaNF64UI uiA || softfloat_isSigNaNF64UI uiB) softfloat_flag_invalid ;;%
  fret defaultNaNF64UI.

Definition softfloat_f32UIToCommonNaN (uiA : Z) : FP commonNaN :=
  raise_if (softfloat_isSigNaNF32UI uiA) softfloat_flag_invalid ;;%
  fret (CommonNaN (nz (Z.shiftr uiA 31)) (shl 64 0x7FFFF 41) 0).

Definition softfloat_f64UIToCommonNaN (uiA : Z) : FP commonNaN :=
  raise_if (softfloat_isSigNaNF64UI uiA) softfloat_flag_invalid ;;%
  fret (CommonNaN (nz (Z.shiftr uiA 63)) (shl 64 0xFFFFFFFFFFFFF 12) 0).

Definition softfloat_commonNaNToF32UI (a : commonNaN) : Z :=
  Z.lor (shl 32 (b2z (nan_sign a)) 31) 0x7FFFFFFF.

Definition softfloat_commonNaNToF64UI (a : commonNaN) : Z :=
  Z.lor (shl 64 (b2z (nan_sign a)) 63) 0x7FFFFFFFFFFFFFFF.

(** ** Normalisation of subnormal significands *)
Record exp_sig := ExpSig { es_exp : Z; es_sig : Z }.

Definition softfloat_normSubnormalF32Sig (sig : Z) : exp_sig :=
  let shiftCount := softfloat_countLeadingZeros32 sig - 8 in
  ExpSig (1 - shiftCount) (shl 32 sig shiftCount).

Definition softfloat_normSubnormalF64Sig (sig : Z) : exp_sig :=
  let shiftCount := softfloat_countLeadingZeros64 sig - 11 in
  ExpSig (1 - shiftCount) (shl 64 sig shiftCount).

(** ** Rounding and packing *)
Definition softfloat_roundPackToF32 (sign : bool) (exp sig : Z) : FP Z :=
  let% roundingMode := softfloat_roundingMode in
  let roundNearestEven := roundingMode =? softfloat_round_nearest_even in
  let roundIncrement :=
    if negb roundNearestEven && negb (roundingMode =? softfloat_round_nearest_maxMag) then
      if (roundingMode =? softfloat_round_minMag)
         || (roundingMode =? (if sign then softfloat_round_max else softfloat_round_min))
      then 0 else 0x7F
    else 0x40 in
  let roundBits := Z.land sig 0x7F in
  (** the code after the range checks *)
  let finish exp sig roundBits :=
    raise_if (nz roundBits) softfloat_flag_inexact ;;%
    let sig := Z.shiftr (u32 (sig + roundIncrement)) 7 in
    let sig := Z.land sig (Z.lnot (b2z ((Z.lxor roundBits 0x40 =? 0) && roundNearestEven))) in
    fret (packToF32UI sign (if nz sig then exp else 0) sig) in
  if 0xFD <=? u16 exp then
    if exp <? 0 then
      let isTiny := (softfloat_detectTininess =? softfloat_tininess_beforeRounding)
                    || (exp <? -1) || (u32 (sig + roundIncrement) <? 0x80000000) in
      let sig := softfloat_shift32RightJam sig (- exp) in
      let roundBits := Z.land sig 0x7F in
      raise_if (isTiny && nz roundBits) softfloat_flag_underflow ;;%
      finish 0 sig roundBits
    else if (0xFD <? exp) || (0x80000000 <=? u32 (sig + roundIncrement)) then
      softfloat_raiseFlags (Z.lor softfloat_flag_overflow softfloat_flag_inexact) ;;%
      fret (u32 (packToF32UI sign 0xFF 0 - b2z (roundIncrement =? 0)))
    else finish exp sig roundBits
  else finish exp sig roundBits.

Definition softfloat_roundPackToF64 (sign : bool) (exp sig : Z) : FP Z :=
  let% roundingMode := softfloat_roundingMode in
  let roundNearestEven := roundingMode =? softfloat_round_nearest_even in
  let roundIncrement :=
    if negb roundNearestEven && negb (roundingMode =? softfloat_round_nearest_maxMag) then
      if (roundingMode =? softfloat_round_minMag)
         || (roundingMode =? (if sign then softfloat_round_max else softfloat_round_min))
      then 0 else 0x3FF
    else 0x200 in
  let roundBits := Z.land sig 0x3FF in
  (** the code after the range checks *)
  let finish exp sig roundBits :=
    raise_if (nz roundBits) softfloat_flag_inexact ;;%
    let sig := Z.shiftr (u64 (sig + roundIncrement)) 10 in
    let sig := Z.land sig (Z.lnot (b2z ((Z.lxor roundBits 0x200 =? 0) && roundNearestEven))) in
    fret (packToF64UI sign (if nz sig then exp else 0) sig) in
  if 0x7FD <=? u16 exp then
    if exp <? 0 then
      let isTiny := (softfloat_detectTininess =? softfloat_tininess_beforeRounding)
                    || (exp <? -1) || (u64 (sig + roundIncrement) <? 0x8000000000000000) in
      let sig := softfloat_shift64RightJam sig (- exp) in
      let roundBits := Z.land sig 0x3FF in
      raise_if (isTiny && nz roundBits) softfloat_flag_underflow ;;%
      finish 0 sig roundBits
    else if (0x7FD <? exp) || (0x8000000000000000 <=? u64 (sig + roundIncrement)) then
      softfloat_raiseFlags (Z.lor softfloat_flag_overflow softfloat_flag_inexact) ;;%
      fret (u64 (packToF64UI sign 0x7FF 0 - b2z (roundIncrement =? 0)))
    else finish exp sig roundBits
  else finish exp sig roundBits.

Definition softfloat_normRoundPackToF32 (sign : bool) (exp sig : Z) : FP Z :=
  let shiftCount := softfloat_countLeadingZeros32 sig - 1 in
  let exp := exp - shiftCount in
  if (7 <=? shiftCount) && (u16 exp <? 0xFD) then
    fret (packToF32UI sign (if nz sig then exp else 0) (shl 32 sig (shiftCount - 7)))
  else softfloat_roundPackToF32 sign exp (shl 32 sig shiftCount).

Definition softfloat_normRoundPackToF64 (sign : bool) (exp sig : Z) : FP Z :=
  let shiftCount := softfloat_countLeadingZeros64 sig - 1 in
  let exp := exp - shiftCount in
  if (10 <=? shiftCount) && (u16 exp <? 0x7FD) then
    fret (packToF64UI sign (if nz sig then exp else 0) (shl 64 sig (shiftCount - 10)))
  else softfloat_roundPackToF64 sign exp (shl 64 sig shiftCount).

(** ** Rounding to integers *)

Definition softfloat_roundPackToUI32 (sign : bool) (sig roundingMode : Z) (exact : bool) : FP Z :=
  let roundNearestEven := roundingMode =? softfloat_round_nearest_even in
  let roundIncrement :=
    if negb roundNearestEven && negb (roundingMode =? softfloat_round_nearest_maxMag) then
      if (roundingMode =? softfloat_round_minMag)
         || (roundingMode =? (if sign then softfloat_round_max else softfloat_round_min))
      then 0 else 0x7F
    else 0x40 in
  let invalid := softfloat_raiseFlags softfloat_flag_invalid ;;% fret 0xFFFFFFFF in
  let roundBits := Z.land sig 0x7F in
  let sig := u64 (sig + roundIncrement) in
  if nz (Z.land sig 0xFFFFFF8000000000) then invalid
  else
    let z := u32 (Z.shiftr sig 7) in
    let z := Z.land z (Z.lnot (b2z ((Z.lxor roundBits 0x40 =? 0) && roundNearestEven))) in
    if sign && nz z then invalid
    else raise_if (exact && nz roundBits) softfloat_flag_inexact ;;% fret z.

Definition softfloat_roundPackToI32 (sign : bool) (sig roundingMode : Z) (exact : bool) : FP Z :=
  let roundNearestEven := roundingMode =? softfloat_round_nearest_even in
  let roundIncrement :=
    if negb roundNearestEven && negb (roundingMode =? softfloat_round_nearest_maxMag) then
      if (roundingMode =? softfloat_round_minMag)
         || (roundingMode =? (if sign then softfloat_round_max else softfloat_round_min))
      then 0 else 0x7F
    else 0x40 in
  let invalid :=
    softfloat_raiseFlags softfloat_flag_invalid ;;%
    fret (if sign then -0x7FFFFFFF - 1 else 0x7FFFFFFF) in
  let roundBits := Z.land sig 0x7F in
  let sig := u64 (sig + roundIncrement) in
  if nz (Z.land sig 0xFFFFFF8000000000) then invalid
  else
    let sig32 := u32 (Z.shiftr sig 7) in
    let sig32 := Z.land sig32 (Z.lnot (b2z ((Z.lxor roundBits 0x40 =? 0) && roundNearestEven))) in
    let z := s32 (if sign then u32 (- sig32) else sig32) in
    if nz z && xorb (z <? 0) sign then invalid
    else raise_if (exact && nz roundBits) softfloat_flag_inexact ;;% fret z.

Definition softfloat_roundPackToUI64 (sign : bool) (sig64 sig0 roundingMode : Z) (exact : bool) : FP Z :=
  let roundNearestEven := roundingMode =? softfloat_round_nearest_even in
  let increment :=
    if negb roundNearestEven && negb (roundingMode =? softfloat_round_nearest_maxMag) then
      negb (roundingMode =? softfloat_round_minMag)
      && (roundingMode =? (if sign then softfloat_round_min else softfloat_round_max))
      && nz sig0
    else 0x8000000000000000 <=? sig0 in
  let invalid := softfloat_raiseFlags softfloat_flag_invalid ;;% fret 0xFFFFFFFFFFFFFFFF in
  let rest sig64 :=
    if sign && nz sig64 then invalid
    else raise_if (exact && nz sig0) softfloat_flag_inexact ;;% fret sig64 in
  if increment then
    let sig64 := u64 (sig64 + 1) in
    if sig64 =? 0 then invalid
    else rest (Z.land sig64
      (Z.lnot (b2z ((Z.land sig0 0x7FFFFFFFFFFFFFFF =? 0) && roundNearestEven))))
  else rest sig64.

Definition softfloat_roundPackToI64 (sign : bool) (sig64 sig0 roundingMode : Z) (exact : bool) : FP Z :=
  let roundNearestEven := roundingMode =? softfloat_round_nearest_even in
  let increment :=
    if negb roundNearestEven && negb (roundingMode =? softfloat_round_nearest_maxMag) then
      negb (roundingMode =? softfloat_round_minMag)
      && (roundingMode =? (if sign then softfloat_round_min else softfloat_round_max))
      && nz sig0
    else 0x8000000000000000 <=? sig0 in
  let invalid :=
    softfloat_raiseFlags softfloat_flag_invalid ;;%
    fret (if sign then -0x7FFFFFFFFFFFFFFF - 1 else 0x7FFFFFFFFFFFFFFF) in
  let rest sig64 :=
    let z := s64 (if sign then u64 (- sig64) else sig64) in
    if nz z && xorb (z <? 0) sign then invalid
    else raise_if (exact && nz sig0) softfloat_flag_inexact ;;% fret z in
  if increment then
    let sig64 := u64 (sig64 + 1) in
    if sig64 =? 0 then invalid
    else rest (Z.land sig64
      (Z.lnot (b2z ((Z.land sig0 0x7FFFFFFFFFFFFFFF =? 0) && roundNearestEven))))
  else rest sig64.

(** ** Reference semantics of rounding

    The exact result of an operation is a sign and a rational [n/d], in units
    of the smallest subnormal.  [round_q] rounds it to an integer,
    [ref_round] to a floating-point format. *)
Definition round_up (rm : Z) (sign odd : bool) (half : comparison) (inexact : bool) : bool :=
  if rm =? 0 then match half with Gt => true | Eq => odd | Lt => false end
  else if rm =? 1 then false
  else if rm =? 2 then sign && inexact
  else if rm =? 3 then negb sign && inexact
  else match half with Lt => false | _ => true end.

Definition round_q (rm : Z) (sign : bool) (n d : Z) : Z :=
  n / d + b2z (round_up rm sign (Z.odd (n / d)) (2 * (n mod d) ?= d) (nz (n mod d))).

Record fformat := Fformat { frac_bits : Z; exp_max : Z; fwidth : Z }.
Definition F32 : fformat := Fformat 23 0xFF 32.
Definition F64 : fformat := Fformat 52 0x7FF 64.

(** The result bits and the flags raised. *)
Definition ref_round (f : fformat) (rm : Z) (sign : bool) (n d : Z) : Z * Z :=
  let e := Z.max 0 (Z.log2 (n / d) - frac_bits f) in
  let u := e * 2 ^ frac_bits f + round_q rm sign n (d * 2 ^ e) in
  let inexact := nz (n mod (d * 2 ^ e)) in
  let inf := exp_max f * 2 ^ frac_bits f in
  let s := b2z sign * 2 ^ (fwidth f - 1) in
  if inf <=? u then
    (s + inf - b2z ((rm =? 1) || (rm =? if sign then 3 else 2)), 5)
  else (s + u, b2z inexact + 2 * b2z (inexact && (n <? d * 2 ^ frac_bits f))).

(** [n/d] rounded down, with its lowest bit set when the division is inexact. *)
Definition jamq (n d : Z) : Z := Z.lor (n / d) (b2z (nz (n mod d))).

Lemma lor_1_r x : 0 <= x -> Z.lor x 1 = if Z.odd x then x else x + 1.
Proof.
  intros. assert (forall k, 0 <= k -> Z.lor (k * 2 ^ 1) 1 = k * 2 ^ 1 + 1) as L.
  { intros. apply (lor_high_low _ _ _ 1); unfold inu; lia. }
  pose proof (Zdiv2_odd_eqn x) as E. pose proof (Z.div2_nonneg x). destruct (Z.odd x).
  - replace x with (Z.div2 x * 2 ^ 1 + 1) by lia. rewrite <- L by lia. by rewrite <- Z.lor_assoc.
  - replace x with (Z.div2 x * 2 ^ 1) by lia. apply L. lia.
Qed.

Lemma land_lnot_1 x : Z.land x (Z.lnot 1) = if Z.odd x then x - 1 else x.
Proof.
  change (Z.land x (Z.lnot 1)) with (Z.land x (-2)).
  pose proof (Zdiv2_odd_eqn x) as E.
  assert (Z.land x (-2) = 2 * Z.div2 x) as ->; [|destruct (Z.odd x); lia].
  apply Z.bits_inj'. intros i Hi. rewrite Z.land_spec. change (-2) with (Z.lnot 1).
  rewrite Z.lnot_spec by lia. destruct (Z.eq_dec i 0) as [->|].
  - rewrite Z.testbit_even_0. by rewrite andb_false_r.
  - rewrite (Z.bits_above_log2 1) by (simpl; lia). simpl. rewrite andb_true_r.
    replace i with (Z.succ (Z.pred i)) by lia. rewrite Z.testbit_even_succ, Z.div2_spec by lia.
    rewrite Z.shiftr_spec by lia. by f_equal.
Qed.

Lemma jamq_cases n d :
  0 <= n -> 0 < d ->
  (jamq n d = n / d /\ (n mod d = 0 \/ Z.odd (n / d) = true)) \/
  (jamq n d = n / d + 1 /\ n mod d <> 0 /\ Z.odd (n / d) = false).
Proof.
  intros. unfold jamq, nz. destruct (Z.eqb_spec (n mod d) 0) as [E|E]; simpl.
  { left. rewrite Z.lor_0_r. auto. }
  rewrite lor_1_r by (apply Z.div_pos; lia). destruct (Z.odd (n / d)); auto.
Qed.

(** Jamming is harmless when at least two more bits are dropped. *)
Lemma jamq_round n d c :
  0 <= n -> 0 < d -> 0 < c -> c mod 4 = 0 ->
  jamq n d / c = n / (d * c) /\
  nz (jamq n d mod c) = nz (n mod (d * c)) /\
  (2 * (jamq n d mod c) ?= c) = (2 * (n mod (d * c)) ?= d * c).
Proof.
  intros Hn Hd Hc Hc4. pose proof (Z.div_mod c 4 ltac:(lia)) as Ec. rewrite Hc4, Z.add_0_r in Ec.
  set (c' := c / 4) in *. clearbody c'. subst c. set (c := 4 * c') in *.
  rewrite Z.rem_mul_r, <- Z.div_div by lia.
  pose proof (Z.mod_pos_bound n d Hd). pose proof (Z.mod_pos_bound (n / d) c Hc).
  pose proof (Z.div_mod (n / d) c ltac:(lia)) as E. set (q := n / d / c) in *. set (r := (n / d) mod c) in *.
  assert (Z.odd (n / d) = Z.odd r) as Eo.
  { rewrite E, Z.odd_add, Z.odd_mul. unfold c. by rewrite (Z.odd_mul 4). }
  destruct (jamq_cases n d Hn Hd) as [[-> Hz]|(-> & Hz & Ho)].
  - fold q r. split; [done|]. rewrite Eo in Hz. split.
    + unfold nz. f_equal. destruct (Z.eqb_spec r 0), (Z.eqb_spec (n mod d + d * r) 0); try done; [|nia].
      destruct Hz as [|Hz]; [lia|]. by replace r with 0 in Hz by lia.
    + destruct Hz as [->|Hz].
      * replace (2 * (0 + d * r)) with (d * (2 * r)) by ring. symmetry. by apply compare_mul_l.
      * assert (r <> 2 * c') by (intros ->; by rewrite Z.odd_mul in Hz).
        destruct (Z.compare_spec (2 * r) c), (Z.compare_spec (2 * (n mod d + d * r)) (d * c)); try done; nia.
  - rewrite Eo in Ho. assert (r + 1 < c).
    { destruct (Z.eq_dec r (c - 1)) as [Er|]; [|lia]. rewrite Er, Z.odd_sub in Ho. unfold c in Ho.
      by rewrite Z.odd_mul in Ho. }
    assert ((n / d + 1) / c = q /\ (n / d + 1) mod c = r + 1) as [-> ->].
    { rewrite E, (Z.mul_comm c q), <- Z.add_assoc.
      rewrite div_mul_shift, mod_mul_shift, Z.mod_small by lia. done. }
    split; [done|]. split.
    + unfold nz. rewrite !(proj2 (Z.eqb_neq _ 0)) by nia. done.
    + assert (2 * c' <> r + 1).
      { intros Er. replace r with (2 * c' - 1) in Ho by lia. rewrite Z.odd_sub, Z.odd_mul in Ho. done. }
      destruct (Z.compare_spec (2 * (r + 1)) c), (Z.compare_spec (2 * (n mod d + d * r)) (d * c)); try done; nia.
Qed.

Lemma round_jamq rm sign n d c :
  0 <= n -> 0 < d -> 0 < c -> c mod 4 = 0 ->
  round_q rm sign (jamq n d) c = round_q rm sign n (d * c).
Proof. intros. unfold round_q. by destruct (jamq_round n d c) as (-> & -> & ->). Qed.

Lemma round_q_scale rm sign n d k :
  0 < k -> 0 < d -> round_q rm sign (n * k) (d * k) = round_q rm sign n d.
Proof.
  intros. unfold round_q. rewrite Z.div_mul_cancel_r, Z.mul_mod_distr_r, nz_mul by lia.
  replace (2 * (n mod d * k)) with (k * (2 * (n mod d))) by ring.
  by rewrite (Z.mul_comm d k), compare_mul_l.
Qed.

(** ** The increment-and-mask idiom computes [round_q] *)

(** The increment the routines choose for [g] dropped bits. *)
Definition round_increment (rm : Z) (sign : bool) (g : Z) : Z :=
  if negb (rm =? 0) && negb (rm =? 4) then
    if (rm =? 1) || (rm =? (if sign then 3 else 2)) then 0 else 2 ^ g - 1
  else 2 ^ (g - 1).

Lemma lxor_eqb_0 a b : (Z.lxor a b =? 0) = (a =? b).
Proof.
  destruct (Z.eqb_spec a b) as [->|H]; [by rewrite Z.lxor_nilpotent|].
  apply Z.eqb_neq. intros E. by apply H, Z.lxor_eq.
Qed.

Lemma rm_cases rm : 0 <= rm <= 4 -> rm = 0 \/ rm = 1 \/ rm = 2 \/ rm = 3 \/ rm = 4.
Proof. lia. Qed.

Lemma div_add_small q r i m :
  0 < m -> 0 <= r < m -> 0 <= i < m -> (q * m + r + i) / m = q + b2z (m <=? r + i).
Proof.
  intros. rewrite <- Z.add_assoc, Z.div_add_l by lia. f_equal.
  destruct (Z.leb_spec m (r + i)); simpl.
  - symmetry. apply Z.div_unique with (r + i - m); lia.
  - apply Z.div_small. lia.
Qed.

Lemma round_idiom rm sign sig g :
  0 <= rm <= 4 -> 0 <= sig -> 0 < g ->
  let r := Z.land sig (2 ^ g - 1) in
  Z.land (Z.shiftr (sig + round_increment rm sign g) g)
         (Z.lnot (b2z ((Z.lxor r (2 ^ (g - 1)) =? 0) && (rm =? 0)))) =
  round_q rm sign sig (2 ^ g).
Proof.
  intros Hrm Hs Hg. cbv zeta. replace (2 ^ g - 1) with (Z.ones g) by (rewrite Z.ones_equiv; lia).
  rewrite Z.land_ones, Z.shiftr_div_pow2, lxor_eqb_0 by lia. unfold round_q.
  pose proof (pow2_pos g ltac:(lia)). pose proof (pow2_pos (g - 1) ltac:(lia)).
  pose proof (pow2_split (g - 1) g ltac:(lia)) as Eg. replace (g - (g - 1)) with 1 in Eg by lia.
  pose proof (Z.mod_pos_bound sig (2 ^ g) ltac:(lia)) as Hr.
  rewrite (Z.div_mod sig (2 ^ g)) at 1 by lia. rewrite (Z.mul_comm (2 ^ g)).
  set (q := sig / 2 ^ g). set (r := sig mod 2 ^ g) in *. set (h := 2 ^ (g - 1)) in *. set (m := 2 ^ g) in *.
  assert (forall i, 0 <= i < m -> Z.land ((q * m + r + i) / m) (Z.lnot (b2z false)) = q + b2z (m <=? r + i)) as Hno.
  { intros. rewrite Z.land_m1_r. apply div_add_small; lia. }
  destruct (rm_cases rm Hrm) as [->|[->|[->|[->| ->]]]]; cbn [Z.eqb Pos.eqb andb negb orb round_increment];
    rewrite ?andb_false_r, ?andb_true_r.
  - unfold round_increment. cbn [Z.eqb negb andb]. unfold round_up. cbn [Z.eqb]. fold h. destruct (Z.eqb_spec r h) as [->|Hne].
    + cbn [b2z]. rewrite div_add_small, land_lnot_1 by lia. rewrite (proj2 (Z.leb_le _ _)) by lia.
      rewrite (proj2 (Z.compare_eq_iff _ _)) by lia. cbn [b2z]. rewrite Z.odd_add. cbn [Z.odd xorb].
      destruct (Z.odd q); simpl; lia.
    + rewrite Hno by lia. f_equal. f_equal.
      destruct (Z.leb_spec m (r + h)), (Z.compare_spec (2 * r) m); lia || done.
  - unfold round_increment. simpl. rewrite Hno by lia. by rewrite (proj2 (Z.leb_gt _ _)) by lia.
  - unfold round_increment, round_up, nz. destruct sign; simpl; fold m; rewrite Hno by lia.
    + destruct (Z.leb_spec m (r + (m - 1))), (Z.eqb_spec r 0); simpl; lia.
    + rewrite (proj2 (Z.leb_gt _ _)) by lia. done.
  - unfold round_increment, round_up, nz. destruct sign; simpl; fold m; rewrite Hno by lia.
    + rewrite (proj2 (Z.leb_gt _ _)) by lia. done.
    + destruct (Z.leb_spec m (r + (m - 1))), (Z.eqb_spec r 0); simpl; lia.
  - unfold round_increment, round_up. simpl. fold h. rewrite Hno by lia. f_equal. f_equal.
    destruct (Z.leb_spec m (r + h)), (Z.compare_spec (2 * r) m); lia || done.
Qed.

Lemma raise_if_run c x rm fl : raise_if c x rm fl = Some (tt, Z.lor fl (if c then x else 0)).
Proof. destruct c; [done|]. cbv [raise_if fret]. by rewrite Z.lor_0_r. Qed.

Lemma round_q_bounds rm sign n d :
  0 <= n -> 0 < d -> n / d <= round_q rm sign n d <= n / d + 1.
Proof. intros. unfold round_q. pose proof (b2z_range (round_up rm sign (Z.odd (n / d)) (2 * (n mod d) ?= d) (nz (n mod d)))). lia. Qed.

Lemma log2_between n d k :
  0 < d -> 0 <= k -> d * 2 ^ k <= n < d * 2 ^ (k + 1) -> Z.log2 (n / d) = k.
Proof.
  intros Hd Hk [H1 H2]. apply Z.log2_unique; [lia|]. split.
  - apply Z.div_le_lower_bound; lia.
  - apply Z.div_lt_upper_bound; [lia|]. by replace (Z.succ k) with (k + 1) by lia.
Qed.

Lemma jamq_between n d a b :
  0 <= n -> 0 < d -> 0 < a -> Z.even b = true ->
  d * a <= n < d * b -> a <= jamq n d < b.
Proof.
  intros Hn Hd Ha Hb [H1 H2]. assert (a <= n / d) by (apply Z.div_le_lower_bound; lia).
  assert (n / d < b) by (apply Z.div_lt_upper_bound; lia).
  destruct (jamq_cases n d Hn Hd) as [[-> _]|(-> & _ & O)]; [lia|].
  assert (n / d <> b - 1); [|lia]. intros E. rewrite E, Z.odd_sub, <- Z.negb_even, Hb in O. done.
Qed.

Lemma jamq_1 n : jamq n 1 = n.
Proof. unfold jamq. by rewrite Z.div_1_r, Z.mod_1_r, Z.lor_0_r. Qed.

Lemma round_increment_range g rm sign : 0 < g -> 0 <= round_increment rm sign g < 2 ^ g.
Proof.
  intros. unfold round_increment. pose proof (pow2_pos g ltac:(lia)). pose proof (Z.pow_lt_mono_r 2 (g - 1) g).
  pose proof (pow2_pos (g - 1) ltac:(lia)).
  repeat match goal with |- context [if ?b then _ else _] => destruct b end; lia.
Qed.

(** [ref_round] depends on the value of the fraction only. *)
Lemma ref_round_scale f rm sign n d k :
  0 <= n -> 0 < d -> 0 < k -> ref_round f rm sign (n * k) (d * k) = ref_round f rm sign n d.
Proof.
  intros. unfold ref_round. rewrite Z.div_mul_cancel_r by lia. set (e := Z.max 0 _).
  pose proof (pow2_pos e ltac:(lia)). replace (d * k * 2 ^ e) with (d * 2 ^ e * k) by ring.
  rewrite round_q_scale, Z.mul_mod_distr_r, nz_mul by lia.
  assert ((n * k <? d * k * 2 ^ frac_bits f) = (n <? d * 2 ^ frac_bits f)) as ->; [|done].
  replace (d * k * 2 ^ frac_bits f) with (d * 2 ^ frac_bits f * k) by ring.
  destruct (Z.ltb_spec (n * k) (d * 2 ^ frac_bits f * k)), (Z.ltb_spec n (d * 2 ^ frac_bits f)); nia || done.
Qed.

Lemma ref_round_eq f rm sign n d n' d' :
  0 <= n -> 0 < d -> 0 <= n' -> 0 < d' -> n * d' = n' * d ->
  ref_round f rm sign n d = ref_round f rm sign n' d'.
Proof.
  intros ? ? ? ? E. rewrite <- (ref_round_scale f rm sign n d d'), E by lia.
  rewrite (Z.mul_comm d d'). by apply ref_round_scale.
Qed.

(** A value with at most [frac_bits + 1] significant bits is represented
    exactly. *)
Lemma ref_round_exact f rm sign n d e m :
  0 <= rm <= 4 -> 0 < d -> 0 <= e -> 0 <= frac_bits f -> n = m * 2 ^ e * d ->
  0 <= m < 2 ^ (frac_bits f + 1) -> (0 < e -> 2 ^ frac_bits f <= m) ->
  e * 2 ^ frac_bits f + m < exp_max f * 2 ^ frac_bits f ->
  ref_round f rm sign n d = (b2z sign * 2 ^ (fwidth f - 1) + (e * 2 ^ frac_bits f + m), 0).
Proof.
  intros Hrm Hd He Hf -> Hm Hn Hmax. unfold ref_round. rewrite Z.div_mul by lia.
  set (fb := frac_bits f) in *. pose proof (pow2_pos e He).
  assert (Z.max 0 (Z.log2 (m * 2 ^ e) - fb) = e) as ->.
  { destruct (Z.eq_dec e 0) as [->|].
    - rewrite Z.mul_1_r. destruct (Z.eq_dec m 0) as [->|]; [simpl; lia|].
      assert (Z.log2 m < fb + 1) by (apply Z.log2_lt_pow2; lia). lia.
    - rewrite Z.log2_mul_pow2 by (pose proof (pow2_pos fb); lia).
      rewrite (Z.log2_unique m fb) by (replace (Z.succ fb) with (fb + 1) by lia; lia). lia. }
  rewrite (Z.mul_comm d). rewrite <- Z.mul_assoc. unfold round_q.
  rewrite Z.div_mul, Z.mod_mul by nia.
  rewrite (proj2 (Z.compare_lt_iff (2 * 0) _)) by nia. change (nz 0) with false. cbn [andb b2z].
  assert (round_up rm sign (Z.odd m) Lt false = false) as ->.
  { unfold round_up. destruct (rm_cases rm Hrm) as [->|[->|[->|[->| ->]]]]; simpl; by rewrite ?andb_false_r. }
  cbn [b2z]. rewrite Z.add_0_r, (proj2 (Z.leb_gt _ _)) by lia. f_equal.
Qed.

(** Values below half the smallest subnormal all round alike. *)
Lemma ref_round_tiny f rm sign n d n' d' :
  0 <= frac_bits f -> 0 < 2 * n < d -> 0 < 2 * n' < d' ->
  ref_round f rm sign n d = ref_round f rm sign n' d'.
Proof.
  intros Hf H H'. unfold ref_round, round_q. rewrite !(Z.div_small _ d), !(Z.div_small _ d') by lia.
  cbn [Z.log2]. rewrite !Z.max_l, !Z.mul_1_r by lia.
  rewrite !(Z.div_small _ d), !(Z.div_small _ d'), !Z.mod_small by lia.
  rewrite !(proj2 (Z.compare_lt_iff _ _)) by lia. unfold nz.
  rewrite (proj2 (Z.eqb_neq n 0)), (proj2 (Z.eqb_neq n' 0)) by lia.
  pose proof (pow2_pos (frac_bits f) Hf).
  by rewrite (proj2 (Z.ltb_lt n _)), (proj2 (Z.ltb_lt n' _)) by nia.
Qed.

(** ** Packing: both formats at once

    [roundPackToF32] and [roundPackToF64] are the same routine at two sets of
    constants; the proofs are done once for that routine. *)
Section RoundPack.
Context (g fb w emax : Z) (sjam : Z -> Z -> Z).

Definition pack_gen (sign : bool) (exp sig : Z) : Z :=
  wrapu w (shl w (b2z sign) (w - 1) + shl w (wrapu w exp) fb + sig).

Definition finish_gen (rm : Z) (sign : bool) (exp sig roundBits : Z) : FP Z :=
  raise_if (nz roundBits) softfloat_flag_inexact ;;%
  let sig := Z.shiftr (wrapu w (sig + round_increment rm sign g)) g in
  let sig := Z.land sig (Z.lnot (b2z ((Z.lxor roundBits (2 ^ (g - 1)) =? 0) && (rm =? 0)))) in
  fret (pack_gen sign (if nz sig then exp else 0) sig).

Definition roundPack_gen (sign : bool) (exp sig : Z) : FP Z :=
  let% rm := softfloat_roundingMode in
  let roundIncrement := round_increment rm sign g in
  let roundBits := Z.land sig (2 ^ g - 1) in
  if emax - 2 <=? u16 exp then
    if exp <? 0 then
      let isTiny := (softfloat_detectTininess =? softfloat_tininess_beforeRounding)
                    || (exp <? -1) || (wrapu w (sig + roundIncrement) <? 2 ^ (w - 1)) in
      let sig := sjam sig (- exp) in
      let roundBits := Z.land sig (2 ^ g - 1) in
      raise_if (isTiny && nz roundBits) softfloat_flag_underflow ;;%
      finish_gen rm sign 0 sig roundBits
    else if (emax - 2 <? exp) || (2 ^ (w - 1) <=? wrapu w (sig + roundIncrement)) then
      softfloat_raiseFlags (Z.lor softfloat_flag_overflow softfloat_flag_inexact) ;;%
      fret (wrapu w (pack_gen sign emax 0 - b2z (roundIncrement =? 0)))
    else finish_gen rm sign exp sig roundBits
  else finish_gen rm sign exp sig roundBits.

Context (Hg : 2 < g) (Hfb : g + 1 < fb) (Hw : w = g + fb + 2) (Hemax : 2 < emax <= 2 ^ 11)
  (Hw64 : w <= 64) (Hemaxw : emax = 2 ^ (g + 1) - 1)
  (Hjam : forall a n, inu w a -> 0 < n -> sjam a n = jam a n).

Lemma pow_w : 2 ^ (w - 1) = 2 ^ (g + 1) * 2 ^ fb /\ 2 ^ w = 2 * 2 ^ (w - 1).
Proof.
  rewrite <- Z.pow_add_r by lia. split; [f_equal; lia|].
  rewrite (pow2_split (w - 1) w) by lia. replace (w - (w - 1)) with 1 by lia. lia.
Qed.

Lemma pack_gen_val sign exp sig :
  0 <= exp -> 0 <= sig -> exp * 2 ^ fb + sig < 2 ^ (w - 1) ->
  pack_gen sign exp sig = b2z sign * 2 ^ (w - 1) + exp * 2 ^ fb + sig.
Proof.
  intros He Hs Hlt. destruct pow_w as [E1 E2]. unfold pack_gen.
  pose proof (pow2_pos fb ltac:(lia)). pose proof (pow2_pos (w - 1) ltac:(lia)).
  rewrite (wrapu_small w exp) by (unfold inu; nia).
  rewrite !shl_small by (lia || (destruct sign; cbn [b2z]; lia)).
  apply wrapu_small. unfold inu. destruct sign; cbn [b2z]; lia.
Qed.

Lemma finish_gen_val rm sign exp sig fl :
  0 <= rm <= 4 -> 0 <= sig < 2 ^ (w - 1) -> 0 <= exp ->
  let m := round_q rm sign sig (2 ^ g) in
  exp * 2 ^ fb + m < 2 ^ (w - 1) -> (m = 0 -> exp = 0) ->
  finish_gen rm sign exp sig (Z.land sig (2 ^ g - 1)) rm fl =
  Some (b2z sign * 2 ^ (w - 1) + exp * 2 ^ fb + m, Z.lor fl (b2z (nz (sig mod 2 ^ g)))).
Proof.
  intros Hrm Hs He m Hlt Hm0. unfold finish_gen, fbind. rewrite raise_if_run. unfold fret.
  destruct pow_w as [E1 E2]. pose proof (round_increment_range g rm sign ltac:(lia)).
  pose proof (Z.pow_lt_mono_r 2 g (w - 1)). rewrite wrapu_small by (unfold inu; lia).
  rewrite round_idiom by lia. fold m. assert (0 <= m) as Hm.
  { unfold m, round_q. pose proof (b2z_range (round_up rm sign (Z.odd (sig / 2 ^ g)) (2 * (sig mod 2 ^ g) ?= 2 ^ g) (nz (sig mod 2 ^ g)))).
    pose proof (Z.div_pos sig (2 ^ g)). pose proof (pow2_pos g). lia. }
  replace (if nz m then exp else 0) with exp.
  - rewrite pack_gen_val by lia. replace (2 ^ g - 1) with (Z.ones g) by (rewrite Z.ones_equiv; lia).
    rewrite Z.land_ones by lia. unfold softfloat_flag_inexact. by destruct (nz (sig mod 2 ^ g)).
  - unfold nz. destruct (Z.eqb_spec m 0); simpl; auto.
Qed.
(** The exact value [sig * 2^exp / 2^g] as a fraction. *)
Definition rp_num (exp sig : Z) : Z := sig * 2 ^ Z.max exp 0.
Definition rp_den (exp : Z) : Z := 2 ^ g * 2 ^ Z.max (- exp) 0.

Definition fmt : fformat := Fformat fb emax w.

(** The rounded significand carries out exactly when the code's comparison
    says so. *)
Lemma round_carry rm sign sig :
  0 <= rm <= 4 -> 0 <= sig < 2 ^ (w - 1) ->
  (2 ^ (w - 1) <=? wrapu w (sig + round_increment rm sign g)) =
  (2 ^ (fb + 1) <=? round_q rm sign sig (2 ^ g)).
Proof.
  intros Hrm Hs. destruct pow_w as [E1 E2]. pose proof (round_increment_range g rm sign ltac:(lia)).
  pose proof (Z.pow_lt_mono_r 2 g (w - 1)). rewrite wrapu_small by (unfold inu; lia).
  pose proof (round_idiom rm sign sig g Hrm ltac:(lia) ltac:(lia)) as E. cbv zeta in E. rewrite <- E.
  rewrite Z.shiftr_div_pow2 by lia. set (X := (sig + round_increment rm sign g) / 2 ^ g).
  assert ((2 ^ (w - 1) <=? sig + round_increment rm sign g) = (2 ^ (fb + 1) <=? X)) as ->.
  { replace (2 ^ (w - 1)) with (2 ^ g * 2 ^ (fb + 1)) by (rewrite <- Z.pow_add_r by lia; f_equal; lia).
    pose proof (pow2_pos g ltac:(lia)).
    destruct (Z.leb_spec (2 ^ g * 2 ^ (fb + 1)) (sig + round_increment rm sign g)); symmetry.
    - apply Z.leb_le, Z.div_le_lower_bound; lia.
    - apply Z.leb_gt, Z.div_lt_upper_bound; lia. }
  match goal with |- context [b2z ?b] => destruct b end; cbn [b2z]; [|by rewrite Z.land_m1_r].
  rewrite land_lnot_1. destruct (Z.odd X) eqn:O; [|done].
  assert (X <> 2 ^ (fb + 1)).
  { intros Heq. rewrite Heq in O. replace (fb + 1) with (Z.succ fb) in O by lia.
    rewrite Z.pow_succ_r, Z.odd_mul in O by lia. done. }
  destruct (Z.leb_spec (2 ^ (fb + 1)) X), (Z.leb_spec (2 ^ (fb + 1)) (X - 1)); lia || done.
Qed.

Lemma increment_0 rm sign :
  0 <= rm <= 4 -> (round_increment rm sign g =? 0) = ((rm =? 1) || (rm =? if sign then 3 else 2)).
Proof.
  intros Hrm. unfold round_increment. pose proof (pow2_pos (g - 1) ltac:(lia)).
  pose proof (Z.pow_gt_1 2 g ltac:(lia)).
  destruct (rm_cases rm Hrm) as [->|[->|[->|[->| ->]]]]; destruct sign; simpl; try done; apply Z.eqb_neq; lia.
Qed.

Lemma overflow_gen_val rm sign (c : bool) fl :
  (softfloat_raiseFlags (Z.lor softfloat_flag_overflow softfloat_flag_inexact) ;;%
   fret (wrapu w (pack_gen sign emax 0 - b2z c))) rm fl =
  Some (b2z sign * 2 ^ (w - 1) + emax * 2 ^ fb - b2z c, Z.lor fl 5).
Proof.
  destruct pow_w as [E1 E2]. unfold fbind, softfloat_raiseFlags, fret.
  pose proof (pow2_pos fb ltac:(lia)). rewrite pack_gen_val by nia.
  rewrite Z.add_0_r, wrapu_small; [done|]. unfold inu. destruct sign, c; cbn [b2z]; nia.
Qed.

(** Normalised significand, exponent in the normal range or above. *)
Lemma roundPack_gen_normal rm sign exp sig fl :
  0 <= rm <= 4 -> 2 ^ (w - 2) <= sig < 2 ^ (w - 1) -> 0 <= exp < 2 ^ 15 ->
  let R := ref_round fmt rm sign (rp_num exp sig) (rp_den exp) in
  roundPack_gen sign exp sig rm fl = Some (R.1, Z.lor fl R.2).
Proof.
  intros Hrm Hs He. cbv zeta. unfold rp_num, rp_den, fmt, ref_round. cbn [frac_bits exp_max fwidth].
  rewrite (Z.max_l exp 0), (Z.max_r (- exp) 0), Z.mul_1_r by lia.
  destruct pow_w as [E1 E2]. pose proof (pow2_pos exp ltac:(lia)). pose proof (pow2_pos g ltac:(lia)).
  pose proof (pow2_pos fb ltac:(lia)) as Pfb.
  assert (2 ^ (w - 2) = 2 ^ g * 2 ^ fb) as E3 by (rewrite <- Z.pow_add_r by lia; f_equal; lia).
  assert (2 ^ (g + 1) = 2 * 2 ^ g) as E4 by (rewrite Z.pow_add_r by lia; lia).
  rewrite (log2_between _ _ (fb + exp)) by (rewrite ?Z.pow_add_r by lia; lia || nia).
  rewrite (Z.max_r 0) by lia. replace (fb + exp - fb) with exp by lia.
  rewrite round_q_scale, Z.mul_mod_distr_r, nz_mul by lia.
  pose proof (round_carry rm sign sig Hrm ltac:(lia)) as Hc.
  pose proof (round_q_bounds rm sign sig (2 ^ g) ltac:(lia) ltac:(lia)) as Hm.
  assert (2 ^ fb <= sig / 2 ^ g < 2 * 2 ^ fb) as Hq.
  { split; [apply Z.div_le_lower_bound|apply Z.div_lt_upper_bound]; lia. }
  rewrite (proj2 (Z.ltb_ge (sig * 2 ^ exp) _)) by nia. rewrite andb_false_r, Z.add_0_r.
  unfold roundPack_gen, fbind at 1, softfloat_roundingMode. rewrite (wrapu_small 16) by (unfold inu; lia).
  rewrite (proj2 (Z.ltb_ge exp 0)) by lia. rewrite Hc, increment_0 by done.
  replace (2 ^ (fb + 1)) with (2 * 2 ^ fb) by (rewrite Z.pow_add_r by lia; lia). set (m := round_q rm sign sig (2 ^ g)) in *.
  assert (forall b : bool, (b = true <-> emax * 2 ^ fb <= exp * 2 ^ fb + m) ->
    (emax * 2 ^ fb <=? exp * 2 ^ fb + m) = b) as Hb.
  { intros b Hb. destruct (Z.leb_spec (emax * 2 ^ fb) (exp * 2 ^ fb + m)), b; intuition (lia || congruence). }
  assert (exp * 2 ^ fb + m < emax * 2 ^ fb ->
    finish_gen rm sign exp sig (Z.land sig (2 ^ g - 1)) rm fl =
    Some (b2z sign * 2 ^ (w - 1) + (exp * 2 ^ fb + m), Z.lor fl (b2z (nz (sig mod 2 ^ g))))) as Hfin.
  { intros. rewrite finish_gen_val by (lia || nia). fold m. f_equal. f_equal. lia. }
  destruct (Z.lt_trichotomy exp (emax - 2)) as [Hlt|[Heq|Hgt]].
  - assert (exp * 2 ^ fb <= (emax - 3) * 2 ^ fb) by (apply Z.mul_le_mono_nonneg_r; lia).
    rewrite (proj2 (Z.leb_gt (emax - 2) exp)), (Hb false) by (try split; lia || done). apply Hfin. lia.
  - subst exp. rewrite Z.leb_refl, Z.ltb_irrefl, (Hb (2 * 2 ^ fb <=? m)) by (rewrite Z.leb_le; lia).
    destruct (Z.leb_spec (2 * 2 ^ fb) m); cbn [orb]; [by rewrite overflow_gen_val|apply Hfin; lia].
  - assert ((emax - 1) * 2 ^ fb <= exp * 2 ^ fb) by (apply Z.mul_le_mono_nonneg_r; lia).
    rewrite (proj2 (Z.leb_le (emax - 2) exp)), (proj2 (Z.ltb_lt (emax - 2) exp)), (Hb true) by (try split; lia || done).
    cbn [orb]. apply overflow_gen_val.
Qed.

(** Exponent below the normal range: a subnormal result. *)
Lemma roundPack_gen_subnormal rm sign exp sig fl :
  0 <= rm <= 4 -> 0 < sig < 2 ^ (w - 1) -> - 2 ^ 15 < exp < 0 ->
  let R := ref_round fmt rm sign (rp_num exp sig) (rp_den exp) in
  roundPack_gen sign exp sig rm fl = Some (R.1, Z.lor fl R.2).
Proof.
  intros Hrm Hs He. cbv zeta. unfold rp_num, rp_den, fmt, ref_round. cbn [frac_bits exp_max fwidth].
  rewrite (Z.max_r exp 0), (Z.max_l (- exp) 0), Z.mul_1_r by lia.
  destruct pow_w as [E1 E2]. pose proof (pow2_pos (- exp) ltac:(lia)). pose proof (pow2_pos g ltac:(lia)).
  pose proof (pow2_pos fb ltac:(lia)) as Pfb.
  assert (2 ^ (g + 1) = 2 * 2 ^ g) as E4 by (rewrite Z.pow_add_r by lia; lia).
  assert (2 <= 2 ^ (- exp)) as P2 by (apply (Z.pow_le_mono_r 2 1); lia).
  assert (sig < 2 ^ g * 2 ^ (- exp) * 2 ^ fb) as Hlt by nia.
  assert (sig / (2 ^ g * 2 ^ (- exp)) < 2 ^ fb) as Hq by (apply Z.div_lt_upper_bound; lia).
  assert (0 <= sig / (2 ^ g * 2 ^ (- exp))) as Hq0 by (apply Z.div_pos; lia).
  rewrite (Z.max_l 0), Z.mul_1_r, Z.mul_0_l, Z.add_0_l by
    (destruct (Z.eq_dec (sig / (2 ^ g * 2 ^ (- exp))) 0) as [->|]; [simpl; lia|];
     pose proof (proj1 (Z.log2_lt_pow2 (sig / (2 ^ g * 2 ^ (- exp))) fb ltac:(lia)) Hq); lia).
  rewrite (proj2 (Z.ltb_lt _ _) Hlt), andb_true_r.
  assert (2 ^ g mod 4 = 0) as H4.
  { rewrite (pow2_split 2 g) by lia. rewrite Z.mul_comm. apply Z.mod_mul. lia. }
  pose proof (jamq_round sig (2 ^ (- exp)) (2 ^ g) ltac:(lia) ltac:(lia) ltac:(lia) H4) as (_ & Jn & _).
  pose proof (round_jamq rm sign sig (2 ^ (- exp)) (2 ^ g) ltac:(lia) ltac:(lia) ltac:(lia) H4) as Jr.
  rewrite (Z.mul_comm (2 ^ g) (2 ^ (- exp))) in *. rewrite <- Jr, <- Jn.
  pose proof (round_q_bounds rm sign sig (2 ^ (- exp) * 2 ^ g) ltac:(lia) ltac:(lia)) as Hm.
  rewrite <- Jr in Hm. change (jamq sig (2 ^ (- exp))) with (jam sig (- exp)) in *.
  assert (0 <= jam sig (- exp) < 2 ^ (w - 1)) as HJ.
  { destruct (jamq_cases sig (2 ^ (- exp))) as [[E _]|[E _]]; [lia..| |]; change (jamq sig (2 ^ (- exp))) with (jam sig (- exp)) in E;
      rewrite E; pose proof (Z.div_pos sig (2 ^ (- exp)));
      assert (sig / 2 ^ (- exp) < 2 ^ g * 2 ^ fb) by (apply Z.div_lt_upper_bound; lia); nia. }
  unfold roundPack_gen, fbind at 1, softfloat_roundingMode.
  assert (u16 exp = exp + 2 ^ 16) as ->.
  { unfold wrapu. rewrite <- (Z.mod_add _ 1), Z.mod_small by lia. lia. }
  rewrite (proj2 (Z.leb_le _ _)), (proj2 (Z.ltb_lt exp 0)) by lia.
  rewrite Hjam by (unfold inu; lia). change (softfloat_detectTininess =? softfloat_tininess_beforeRounding) with true.
  cbn [orb andb]. unfold fbind at 1. rewrite raise_if_run.
  rewrite finish_gen_val by (lia || nia). rewrite (proj2 (Z.leb_gt _ _)) by nia.
  rewrite Z.mul_0_l, Z.add_0_r, <- Z.lor_assoc. f_equal. f_equal. f_equal.
  replace (2 ^ g - 1) with (Z.ones g) by (rewrite Z.ones_equiv; lia). rewrite Z.land_ones by lia.
  by destruct (nz (jam sig (- exp) mod 2 ^ g)).
Qed.
(** A jammed significand rounds like the exact quotient it stands for. *)
Lemma ref_round_jamq rm sign n d c :
  0 <= n -> 0 < d -> 0 < c -> c mod 4 = 0 ->
  ref_round fmt rm sign (jamq n d) c = ref_round fmt rm sign n (d * c).
Proof.
  intros Hn Hd Hc H4. unfold ref_round. pose proof (jamq_round n d c Hn Hd Hc H4) as (-> & _ & _).
  set (e := Z.max 0 _). pose proof (pow2_pos e ltac:(lia)) as Pe. rewrite <- !Z.mul_assoc.
  assert (forall k, 0 < k -> (c * k) mod 4 = 0) as H4k.
  { intros k Hk. rewrite Z.mul_mod, H4 by lia. done. }
  pose proof (jamq_round n d (c * 2 ^ e) Hn Hd ltac:(lia) (H4k _ Pe)) as (_ & -> & _).
  rewrite (round_jamq rm sign n d (c * 2 ^ e)) by (auto; lia).
  cbn [fmt frac_bits exp_max fwidth]. pose proof (pow2_pos fb ltac:(lia)) as Pf.
  assert ((jamq n d <? c * 2 ^ fb) = (n <? d * (c * 2 ^ fb))) as ->; [|done].
  pose proof (jamq_round n d (c * 2 ^ fb) Hn Hd ltac:(lia) (H4k _ Pf)) as (E & _ & _).
  assert (0 <= jamq n d) by (destruct (jamq_cases n d Hn Hd) as [[-> _]|[-> _]]; pose proof (Z.div_pos n d); lia).
  assert (forall x y, 0 <= x -> 0 < y -> (x <? y) = (x / y =? 0)) as Hdiv.
  { intros x y Hx Hy. destruct (Z.ltb_spec x y); symmetry.
    - apply Z.eqb_eq, Z.div_small. lia.
    - apply Z.eqb_neq. pose proof (Z.div_str_pos x y). lia. }
  rewrite !Hdiv by nia. by rewrite E.
Qed.

Lemma ref_round_jam_up rm sign n d exp :
  0 <= n -> 0 < d -> 0 <= exp -> d * 2 ^ (w - 2) <= n < d * 2 ^ (w - 1) ->
  ref_round fmt rm sign (jamq n d * 2 ^ exp) (2 ^ g) = ref_round fmt rm sign (n * 2 ^ exp) (d * 2 ^ g).
Proof.
  intros Hn Hd He Hb. pose proof (pow2_pos g ltac:(lia)). pose proof (pow2_pos exp He).
  pose proof (pow2_pos fb ltac:(lia)).
  assert (2 ^ (w - 1) = 2 * (2 ^ g * 2 ^ fb)) as E1.
  { rewrite <- Z.pow_add_r, <- (Z.pow_succ_r 2) by lia. f_equal. lia. }
  assert (2 ^ (w - 2) = 2 ^ g * 2 ^ fb) as E2 by (rewrite <- Z.pow_add_r by lia; f_equal; lia).
  assert (2 ^ (w - 2) <= jamq n d < 2 ^ (w - 1)) as HJ.
  { apply jamq_between; try lia. by rewrite E1, Z.even_mul. }
  unfold ref_round. rewrite !(log2_between _ _ (fb + exp)).
  2-7: rewrite ?Z.pow_add_r by lia; lia || nia.
  cbn [fmt frac_bits exp_max fwidth]. rewrite (Z.max_r 0) by lia. replace (fb + exp - fb) with exp by lia.
  rewrite !round_q_scale, !Z.mul_mod_distr_r, !nz_mul by lia.
  assert (2 ^ g mod 4 = 0) as H4.
  { rewrite (pow2_split 2 g) by lia. rewrite Z.mul_comm. apply Z.mod_mul. lia. }
  pose proof (jamq_round n d (2 ^ g) Hn Hd ltac:(lia) H4) as (_ & -> & _).
  rewrite (round_jamq rm sign n d (2 ^ g)) by (auto; lia).
  rewrite (proj2 (Z.ltb_ge _ (2 ^ g * 2 ^ fb))), (proj2 (Z.ltb_ge _ (d * 2 ^ g * 2 ^ fb))) by nia. done.
Qed.

(** What [roundPack] computes: the rounding of the exact quotient [n/d], scaled
    by [2^exp], of which its significand argument is the jammed value. *)
Lemma roundPack_gen_ref rm sign exp n d fl :
  0 <= rm <= 4 -> 0 <= n -> 0 < d -> d * 2 ^ (w - 2) <= n < d * 2 ^ (w - 1) -> - 2 ^ 15 < exp < 2 ^ 15 ->
  let R := ref_round fmt rm sign (n * 2 ^ Z.max exp 0) (d * 2 ^ g * 2 ^ Z.max (- exp) 0) in
  roundPack_gen sign exp (jamq n d) rm fl = Some (R.1, Z.lor fl R.2).
Proof.
  intros Hrm Hn Hd Hb He. cbv zeta.
  assert (2 ^ (w - 2) <= jamq n d < 2 ^ (w - 1)) as HJ.
  { apply jamq_between; auto; [apply pow2_pos; lia|]. destruct pow_w as [-> _].
    by rewrite Z.pow_add_r, !Z.even_mul, orb_true_r by lia. }
  destruct (Z.lt_ge_cases exp 0).
  - rewrite roundPack_gen_subnormal by (auto; pose proof (pow2_pos (w - 2)); lia).
    unfold rp_num, rp_den. rewrite (Z.max_r exp 0), !Z.mul_1_r, <- Z.mul_assoc by lia.
    rewrite ref_round_jamq; auto.
    + pose proof (pow2_pos g). pose proof (pow2_pos (Z.max (- exp) 0)). nia.
    + rewrite (pow2_split 2 g) by lia. replace (2 ^ 2) with 4 by done.
      rewrite <- Z.mul_assoc, Z.mul_comm. apply Z.mod_mul. lia.
  - rewrite roundPack_gen_normal by (auto; lia). unfold rp_num, rp_den.
    rewrite (Z.max_l exp 0), (Z.max_r (- exp) 0), !Z.mul_1_r by lia.
    by rewrite ref_round_jam_up.
Qed.
(** Two splittings of one exponent give the same fraction. *)
Lemma ref_round_rescale rm sign sig exp k :
  0 <= sig -> 0 <= k ->
  ref_round fmt rm sign (sig * 2 ^ k * 2 ^ Z.max (exp - k) 0) (2 ^ g * 2 ^ Z.max (- (exp - k)) 0) =
  ref_round fmt rm sign (sig * 2 ^ Z.max exp 0) (2 ^ g * 2 ^ Z.max (- exp) 0).
Proof.
  intros. pose proof (pow2_pos g ltac:(lia)).
  pose proof (pow2_pos (Z.max (exp - k) 0) ltac:(lia)). pose proof (pow2_pos (Z.max (- (exp - k)) 0) ltac:(lia)).
  pose proof (pow2_pos (Z.max exp 0) ltac:(lia)). pose proof (pow2_pos (Z.max (- exp) 0) ltac:(lia)).
  pose proof (pow2_pos k ltac:(lia)). apply ref_round_eq; try nia.
  assert (2 ^ k * 2 ^ Z.max (exp - k) 0 * 2 ^ Z.max (- exp) 0 = 2 ^ Z.max exp 0 * 2 ^ Z.max (- (exp - k)) 0) as E.
  { rewrite <- !Z.pow_add_r by lia. f_equal. lia. }
  transitivity (sig * 2 ^ g * (2 ^ k * 2 ^ Z.max (exp - k) 0 * 2 ^ Z.max (- exp) 0)); [ring|].
  rewrite E. ring.
Qed.

Context (clzf : Z -> Z) (Hclz : forall a, inu w a -> clzf a = clz w a).

Definition normRoundPack_gen (sign : bool) (exp sig : Z) : FP Z :=
  let shiftCount := clzf sig - 1 in
  let exp := exp - shiftCount in
  if (g <=? shiftCount) && (u16 exp <? emax - 2) then
    fret (pack_gen sign (if nz sig then exp else 0) (shl w sig (shiftCount - g)))
  else roundPack_gen sign exp (shl w sig shiftCount).

(** [roundPack] of an unjammed significand. *)
Lemma roundPack_gen_exact rm sign exp sig fl :
  0 <= rm <= 4 -> 2 ^ (w - 2) <= sig < 2 ^ (w - 1) -> - 2 ^ 15 < exp < 2 ^ 15 ->
  let R := ref_round fmt rm sign (sig * 2 ^ Z.max exp 0) (2 ^ g * 2 ^ Z.max (- exp) 0) in
  roundPack_gen sign exp sig rm fl = Some (R.1, Z.lor fl R.2).
Proof.
  intros Hrm Hs He. pose proof (roundPack_gen_ref rm sign exp sig 1 fl Hrm) as H.
  rewrite jamq_1, !Z.mul_1_l in H. apply H; auto; pose proof (pow2_pos (w - 2)); lia.
Qed.

(** The shortcut for significands that need no rounding. *)
Lemma roundPack_gen_short rm sign exp s fl :
  0 <= rm <= 4 -> 2 ^ fb <= s < 2 ^ (fb + 1) -> 0 <= exp < emax - 2 ->
  roundPack_gen sign exp (s * 2 ^ g) rm fl = Some (pack_gen sign exp s, fl).
Proof.
  intros Hrm Hs He. destruct pow_w as [E1 E2]. pose proof (pow2_pos g ltac:(lia)). pose proof (pow2_pos fb ltac:(lia)).
  assert (2 ^ (g + 1) = 2 * 2 ^ g /\ 2 ^ (fb + 1) = 2 * 2 ^ fb) as [E4 E5] by (rewrite !Z.pow_add_r by lia; lia).
  unfold roundPack_gen, fbind at 1, softfloat_roundingMode.
  rewrite (wrapu_small 16) by (unfold inu; lia). rewrite (proj2 (Z.leb_gt _ _)) by lia.
  assert (round_q rm sign (s * 2 ^ g) (2 ^ g) = s) as Er.
  { unfold round_q. rewrite Z.div_mul, Z.mod_mul by lia.
    replace (2 * 0 ?= 2 ^ g) with Lt by (symmetry; apply Z.compare_lt_iff; lia).
    unfold round_up. destruct (rm_cases rm Hrm) as [->|[->|[->|[->| ->]]]]; simpl; rewrite ?andb_false_r; simpl; lia. }
  rewrite finish_gen_val; rewrite ?Er; try lia; try nia.
  rewrite Z.mod_mul, Z.lor_0_r, pack_gen_val by nia. done.
Qed.

Lemma normRoundPack_gen_ref rm sign exp sig fl :
  0 <= rm <= 4 -> 0 < sig < 2 ^ (w - 1) -> - 2 ^ 14 < exp < 2 ^ 14 ->
  let R := ref_round fmt rm sign (sig * 2 ^ Z.max exp 0) (2 ^ g * 2 ^ Z.max (- exp) 0) in
  normRoundPack_gen sign exp sig rm fl = Some (R.1, Z.lor fl R.2).
Proof.
  intros Hrm Hs He. cbv zeta. destruct pow_w as [E1 E2].
  assert (inu w sig) as Hin by (unfold inu; lia). unfold normRoundPack_gen. rewrite Hclz by done.
  destruct (clz_bound w sig) as [B1 B2]; [unfold inu in *; lia|lia|].
  set (sc := clz w sig - 1) in *. replace (w - 1 - clz w sig) with (w - 2 - sc) in B2 by lia.
  replace (w - clz w sig) with (w - 1 - sc) in B2 by lia.
  assert (0 <= sc).
  { destruct (Z.lt_ge_cases sc 0); [|done]. assert (w - 1 <= w - 2 - sc) by lia.
    pose proof (Z.pow_le_mono_r 2 (w - 1) (w - 2 - sc)). lia. }
  assert (sc <= w - 2) by lia. pose proof (pow2_pos sc ltac:(lia)) as Psc.
  assert (2 ^ (w - 2) <= sig * 2 ^ sc < 2 ^ (w - 1)) as Hn.
  { rewrite (pow2_split sc (w - 2)), (pow2_split sc (w - 1)) by lia.
    nia. }
  rewrite <- (ref_round_rescale rm sign sig exp sc) by lia.
  rewrite (shl_small w sig sc) by lia.
  pose proof (roundPack_gen_exact rm sign (exp - sc) (sig * 2 ^ sc) fl Hrm Hn ltac:(lia)) as Hex.
  destruct (Z.leb_spec g sc) as [Hgs|]; cbn [andb]; [|exact Hex].
  destruct (Z.ltb_spec (u16 (exp - sc)) (emax - 2)) as [Hu|]; [|exact Hex].
  assert (0 <= exp - sc) as Hpos.
  { destruct (Z.lt_ge_cases (exp - sc) 0); [|done]. unfold wrapu in Hu.
    rewrite <- (Z.mod_add _ 1), Z.mod_small in Hu by lia. lia. }
  rewrite (wrapu_small 16) in Hu by (unfold inu; lia).
  assert (sig * 2 ^ sc = sig * 2 ^ (sc - g) * 2 ^ g) as Es.
  { rewrite <- Z.mul_assoc, <- Z.pow_add_r by lia. repeat f_equal. lia. }
  assert (2 ^ (w - 2) = 2 ^ fb * 2 ^ g /\ 2 ^ (w - 1) = 2 ^ (fb + 1) * 2 ^ g) as [F1 F2].
  { rewrite <- !Z.pow_add_r by lia. split; f_equal; lia. }
  pose proof (pow2_pos g ltac:(lia)). pose proof (pow2_pos (sc - g) ltac:(lia)).
  rewrite Es in Hex, Hn. rewrite Es, roundPack_gen_short in * by nia. rewrite <- Hex.
  unfold nz. rewrite (proj2 (Z.eqb_neq sig 0)) by lia. cbn [negb]. rewrite shl_small; [done|lia..|nia].
Qed.
End RoundPack.

Lemma roundPackToF32_gen : softfloat_roundPackToF32 = roundPack_gen 7 23 32 0xFF softfloat_shift32RightJam.
Proof. reflexivity. Qed.

Lemma roundPackToF64_gen : softfloat_roundPackToF64 = roundPack_gen 10 52 64 0x7FF softfloat_shift64RightJam.
Proof. reflexivity. Qed.

Lemma roundPackToF32_ref rm sign exp n d fl :
  0 <= rm <= 4 -> 0 <= n -> 0 < d -> d * 2 ^ 30 <= n < d * 2 ^ 31 -> - 2 ^ 15 < exp < 2 ^ 15 ->
  let R := ref_round F32 rm sign (n * 2 ^ Z.max exp 0) (d * 2 ^ 7 * 2 ^ Z.max (- exp) 0) in
  softfloat_roundPackToF32 sign exp (jamq n d) rm fl = Some (R.1, Z.lor fl R.2).
Proof.
  intros. rewrite roundPackToF32_gen. apply (roundPack_gen_ref 7 23 32 0xFF); auto; try lia.
  intros. by apply shift32RightJam_jam.
Qed.

Lemma roundPackToF64_ref rm sign exp n d fl :
  0 <= rm <= 4 -> 0 <= n -> 0 < d -> d * 2 ^ 62 <= n < d * 2 ^ 63 -> - 2 ^ 15 < exp < 2 ^ 15 ->
  let R := ref_round F64 rm sign (n * 2 ^ Z.max exp 0) (d * 2 ^ 10 * 2 ^ Z.max (- exp) 0) in
  softfloat_roundPackToF64 sign exp (jamq n d) rm fl = Some (R.1, Z.lor fl R.2).
Proof.
  intros. rewrite roundPackToF64_gen. apply (roundPack_gen_ref 10 52 64 0x7FF); auto; try lia.
  intros. by apply shift64RightJam_jam.
Qed.

Lemma normRoundPackToF32_ref rm sign exp sig fl :
  0 <= rm <= 4 -> 0 < sig < 2 ^ 31 -> - 2 ^ 14 < exp < 2 ^ 14 ->
  let R := ref_round F32 rm sign (sig * 2 ^ Z.max exp 0) (2 ^ 7 * 2 ^ Z.max (- exp) 0) in
  softfloat_normRoundPackToF32 sign exp sig rm fl = Some (R.1, Z.lor fl R.2).
Proof.
  intros. change softfloat_normRoundPackToF32 with
    (normRoundPack_gen 7 23 32 0xFF softfloat_shift32RightJam softfloat_countLeadingZeros32).
  apply (normRoundPack_gen_ref 7 23 32 0xFF); auto; try lia.
  - intros. by apply shift32RightJam_jam.
  - apply countLeadingZeros32_clz.
Qed.

Lemma normRoundPackToF64_ref rm sign exp sig fl :
  0 <= rm <= 4 -> 0 < sig < 2 ^ 63 -> - 2 ^ 14 < exp < 2 ^ 14 ->
  let R := ref_round F64 rm sign (sig * 2 ^ Z.max exp 0) (2 ^ 10 * 2 ^ Z.max (- exp) 0) in
  softfloat_normRoundPackToF64 sign exp sig rm fl = Some (R.1, Z.lor fl R.2).
Proof.
  intros. change softfloat_normRoundPackToF64 with
    (normRoundPack_gen 10 52 64 0x7FF softfloat_shift64RightJam softfloat_countLeadingZeros64).
  apply (normRoundPack_gen_ref 10 52 64 0x7FF); auto; try lia.
  - intros. by apply shift64RightJam_jam.
  - apply countLeadingZeros64_clz.
Qed.

(** ** Rounding to integers: the specification and the four routines *)

(** The conversion of the exact value [(-1)^sign * n/d] to the integer type
    with values [lo..hi]: the rounded value, or the nearest bound and the
    invalid flag. *)
Definition ref_to_int (lo hi rm : Z) (sign exact : bool) (n d : Z) : Z * Z :=
  let z := if sign then - round_q rm sign n d else round_q rm sign n d in
  if z <? lo then (lo, 16)
  else if hi <? z then (hi, 16)
  else (z, b2z (exact && nz (n mod d))).

(** For the unsigned types the code has one saturation value. *)
Definition ref_to_uint (hi rm : Z) (sign exact : bool) (n d : Z) : Z * Z :=
  let m := round_q rm sign n d in
  if (sign && nz m) || (hi <? m) then (hi, 16) else (m, b2z (exact && nz (n mod d))).

Lemma raise_inexact_run (c : bool) (z : Z) rm0 fl :
  (raise_if c softfloat_flag_inexact ;;% fret z) rm0 fl = Some (z, Z.lor fl (b2z c)).
Proof. unfold fbind. rewrite raise_if_run. by destruct c. Qed.

(** The overflow test of the 32-bit routines. *)
Lemma mask_high_39 x : inu 64 x -> nz (Z.land x 0xFFFFFF8000000000) = (2 ^ 39 <=? x).
Proof.
  intros Hx. assert (Z.land x 0xFFFFFF8000000000 = Z.shiftl (Z.shiftr x 39) 39) as ->.
  { change 0xFFFFFF8000000000 with (Z.shiftl (Z.ones 25) 39).
    apply Z.bits_inj'. intros i Hi. autorewrite with testbit.
    destruct (Z.lt_ge_cases i 39); [kill_bits; by rewrite andb_false_r|].
    rewrite testbit_ones, testbit_shiftr by lia. replace (i - 39 + 39) with i by lia.
    destruct (Z.ltb_spec (i - 39) 25); [by rewrite andb_true_r|]. by rewrite (testbit_inu 64 x) by (done || lia). }
  unfold inu in Hx. rewrite Z.shiftl_mul_pow2, nz_mul, Z.shiftr_div_pow2 by lia. unfold nz.
  destruct (Z.leb_spec (2 ^ 39) x).
  - apply negb_true_iff, Z.eqb_neq. pose proof (Z.div_str_pos x (2 ^ 39)). lia.
  - apply negb_false_iff, Z.eqb_eq, Z.div_small. lia.
Qed.

(** Comparing with an even bound before or after the tie correction is the
    same. *)
Lemma round_ge_even rm sign sig g t :
  0 <= rm <= 4 -> 0 <= sig -> 0 < g -> Z.even t = true ->
  (t * 2 ^ g <=? sig + round_increment rm sign g) = (t <=? round_q rm sign sig (2 ^ g)).
Proof.
  intros Hrm Hs Hg Ht. pose proof (round_idiom rm sign sig g Hrm Hs Hg) as E. cbv zeta in E. rewrite <- E.
  rewrite Z.shiftr_div_pow2 by lia. set (X := (sig + round_increment rm sign g) / 2 ^ g).
  pose proof (pow2_pos g ltac:(lia)).
  assert ((t * 2 ^ g <=? sig + round_increment rm sign g) = (t <=? X)) as ->.
  { destruct (Z.leb_spec (t * 2 ^ g) (sig + round_increment rm sign g)); symmetry.
    - apply Z.leb_le, Z.div_le_lower_bound; lia.
    - apply Z.leb_gt, Z.div_lt_upper_bound; lia. }
  match goal with |- context [b2z ?b] => destruct b end; cbn [b2z]; [|by rewrite Z.land_m1_r].
  rewrite land_lnot_1. destruct (Z.odd X) eqn:O; [|done].
  assert (X <> t). { intros ->. by rewrite <- Z.negb_even, Ht in O. }
  destruct (Z.leb_spec t X), (Z.leb_spec t (X - 1)); lia || done.
Qed.

Lemma round_q_nonneg rm sign n d : 0 <= n -> 0 < d -> 0 <= round_q rm sign n d.
Proof. intros. pose proof (round_q_bounds rm sign n d). pose proof (Z.div_pos n d). lia. Qed.

(** Common part of the 32-bit routines. *)
Lemma round32_step rm sign sig :
  0 <= rm <= 4 -> 0 <= sig < 2 ^ 63 ->
  let inc := round_increment rm sign 7 in
  let m := round_q rm sign sig (2 ^ 7) in
  nz (Z.land (u64 (sig + inc)) 0xFFFFFF8000000000) = (2 ^ 32 <=? m) /\
  (m < 2 ^ 32 ->
   Z.land (u32 (Z.shiftr (u64 (sig + inc)) 7))
     (Z.lnot (b2z ((Z.lxor (Z.land sig 0x7F) 0x40 =? 0) && (rm =? 0)))) = m).
Proof.
  intros Hrm Hs inc m. pose proof (round_increment_range 7 rm sign ltac:(lia)) as Hi. fold inc in Hi.
  pose proof (wrapu_small 64 (sig + inc) ltac:(unfold inu; lia)) as Hu.
  rewrite mask_high_39 by apply u64_in. rewrite Hu.
  pose proof (round_ge_even rm sign sig 7 (2 ^ 32) Hrm ltac:(lia) ltac:(lia) eq_refl) as Hge. fold inc m in Hge.
  split; [by rewrite <- Hge|]. intros Hm. rewrite (proj2 (Z.leb_gt _ m) Hm) in Hge. apply Z.leb_gt in Hge.
  rewrite wrapu_small.
  - exact (round_idiom rm sign sig 7 Hrm ltac:(lia) ltac:(lia)).
  - rewrite Z.shiftr_div_pow2 by lia. split; [apply Z.div_pos|apply Z.div_lt_upper_bound]; lia.
Qed.

Lemma roundPackToUI32_ref sign sig rm exact rm0 fl :
  0 <= rm <= 4 -> 0 <= sig < 2 ^ 63 ->
  let R := ref_to_uint (2 ^ 32 - 1) rm sign exact sig (2 ^ 7) in
  softfloat_roundPackToUI32 sign sig rm exact rm0 fl = Some (R.1, Z.lor fl R.2).
Proof.
  intros Hrm Hs. destruct (round32_step rm sign sig Hrm Hs) as [H1 H2]. cbv zeta in *.
  unfold ref_to_uint, softfloat_roundPackToUI32. cbv zeta.
  change (if negb (rm =? softfloat_round_nearest_even) && negb (rm =? softfloat_round_nearest_maxMag)
          then if (rm =? softfloat_round_minMag) || (rm =? (if sign then softfloat_round_max else softfloat_round_min))
               then 0 else 0x7F else 0x40) with (round_increment rm sign 7).
  unfold softfloat_round_nearest_even. rewrite H1. pose proof (round_q_nonneg rm sign sig (2 ^ 7)).
  set (m := round_q rm sign sig (2 ^ 7)) in *. destruct (Z.leb_spec (2 ^ 32) m).
  - rewrite (proj2 (Z.ltb_lt _ m)) by lia. rewrite orb_true_r. done.
  - rewrite H2, (proj2 (Z.ltb_ge _ m)), orb_false_r by lia.
    destruct (sign && nz m); [done|]. rewrite raise_inexact_run.
    change 0x7F with (Z.ones 7). by rewrite Z.land_ones.
Qed.

(** Two's complement reading of a sign and a magnitude, and the code's test
    that it fits. *)
Lemma signed_fits w (sign : bool) m :
  1 < w -> 0 <= m < 2 ^ w ->
  let v := if sign then - m else m in
  let z := wraps w (if sign then wrapu w (- m) else m) in
  let lo := - 2 ^ (w - 1) in let hi := 2 ^ (w - 1) - 1 in
  (nz z && xorb (z <? 0) sign = true -> (v < lo /\ sign = true) \/ (hi < v /\ sign = false)) /\
  (nz z && xorb (z <? 0) sign = false -> lo <= v <= hi /\ z = v).
Proof.
  intros Hw Hm. cbv zeta. assert (2 ^ w = 2 * 2 ^ (w - 1)) as E.
  { rewrite <- Z.pow_succ_r by lia. f_equal. lia. }
  pose proof (pow2_pos (w - 1) ltac:(lia)). destruct sign.
  - rewrite wraps_wrapu by lia. destruct (Z.le_gt_cases m (2 ^ (w - 1))).
    + rewrite wraps_small by lia. unfold nz. destruct (Z.eqb_spec (- m) 0), (Z.ltb_spec (- m) 0); simpl; lia || intuition (lia || congruence).
    + assert (wraps w (- m) = 2 ^ w - m) as ->.
      { unfold wraps. rewrite <- (Z.mod_add _ 1), Z.mod_small by lia. lia. }
      unfold nz. destruct (Z.eqb_spec (2 ^ w - m) 0), (Z.ltb_spec (2 ^ w - m) 0); simpl; lia || intuition (lia || congruence).
  - destruct (Z.lt_ge_cases m (2 ^ (w - 1))).
    + rewrite wraps_small by lia. unfold nz. destruct (Z.eqb_spec m 0), (Z.ltb_spec m 0); simpl; lia || intuition (lia || congruence).
    + rewrite wraps_of_unsigned by (unfold inu; lia). rewrite (proj2 (Z.ltb_ge m _)) by lia.
      unfold nz. destruct (Z.eqb_spec (m - 2 ^ w) 0), (Z.ltb_spec (m - 2 ^ w) 0); simpl; lia || intuition (lia || congruence).
Qed.

Lemma roundPackToI32_ref sign sig rm exact rm0 fl :
  0 <= rm <= 4 -> 0 <= sig < 2 ^ 63 ->
  let R := ref_to_int (- 2 ^ 31) (2 ^ 31 - 1) rm sign exact sig (2 ^ 7) in
  softfloat_roundPackToI32 sign sig rm exact rm0 fl = Some (R.1, Z.lor fl R.2).
Proof.
  intros Hrm Hs. destruct (round32_step rm sign sig Hrm Hs) as [H1 H2]. cbv zeta in *.
  unfold ref_to_int, softfloat_roundPackToI32. cbv zeta.
  change (if negb (rm =? softfloat_round_nearest_even) && negb (rm =? softfloat_round_nearest_maxMag)
          then if (rm =? softfloat_round_minMag) || (rm =? (if sign then softfloat_round_max else softfloat_round_min))
               then 0 else 0x7F else 0x40) with (round_increment rm sign 7).
  unfold softfloat_round_nearest_even. rewrite H1. pose proof (round_q_nonneg rm sign sig (2 ^ 7)).
  set (m := round_q rm sign sig (2 ^ 7)) in *. destruct (Z.leb_spec (2 ^ 32) m).
  - destruct sign; [rewrite (proj2 (Z.ltb_lt _ _)) by lia; done|].
    rewrite (proj2 (Z.ltb_ge _ _)), (proj2 (Z.ltb_lt _ m)) by lia. done.
  - rewrite H2 by lia. destruct (signed_fits 32 sign m) as [F1 F2]; [lia..|]. cbv zeta in F1, F2.
    destruct (nz _ && xorb _ _).
    + destruct (F1 eq_refl) as [[? ->]|[? ->]]; [by rewrite (proj2 (Z.ltb_lt _ _)) by lia|].
      by rewrite (proj2 (Z.ltb_ge _ _)), (proj2 (Z.ltb_lt _ m)) by lia.
    + destruct (F2 eq_refl) as [? ->]. rewrite (proj2 (Z.ltb_ge _ _)), (proj2 (Z.ltb_ge (2 ^ 31 - 1) _)) by lia.
      rewrite raise_inexact_run. change 0x7F with (Z.ones 7). by rewrite Z.land_ones.
Qed.

(** What the pair [(sig64, sig0)] says of the exact value [n/d]. *)
Definition stands_for (sig64 sig0 n d : Z) : Prop :=
  inu 64 sig64 /\ inu 64 sig0 /\ sig64 = n / d /\
  nz sig0 = nz (n mod d) /\ (sig0 ?= 2 ^ 63) = (2 * (n mod d) ?= d).

Definition increment64 (rm : Z) (sign : bool) (sig0 : Z) : bool :=
  if negb (rm =? 0) && negb (rm =? 4) then
    negb (rm =? 1) && (rm =? (if sign then 2 else 3)) && nz sig0
  else 0x8000000000000000 <=? sig0.

(** The rounded value, from the increment and the tie correction. *)
Lemma round64_step rm sign sig64 sig0 n d :
  0 <= rm <= 4 -> stands_for sig64 sig0 n d ->
  round_q rm sign n d =
  if increment64 rm sign sig0
  then Z.land (sig64 + 1) (Z.lnot (b2z ((Z.land sig0 0x7FFFFFFFFFFFFFFF =? 0) && (rm =? 0))))
  else sig64.
Proof.
  intros Hrm (R1 & R0 & E1 & E2 & E3). unfold round_q. rewrite <- E1, <- E2, <- E3.
  unfold increment64, round_up.
  assert ((0x8000000000000000 <=? sig0) = match sig0 ?= 2 ^ 63 with Lt => false | _ => true end) as ->.
  { destruct (Z.compare_spec sig0 (2 ^ 63)), (Z.leb_spec 0x8000000000000000 sig0); lia || done. }
  destruct (rm_cases rm Hrm) as [->|[->|[->|[->| ->]]]]; cbn [Z.eqb Pos.eqb negb andb]; rewrite ?andb_false_r, ?andb_true_r.
  - assert (sig0 = (sig0 / 2 ^ 63) * 2 ^ 63 + Z.land sig0 0x7FFFFFFFFFFFFFFF) as E.
    { change 0x7FFFFFFFFFFFFFFF with (Z.ones 63). rewrite Z.land_ones, Z.mul_comm by lia. apply Z.div_mod. lia. }
    assert (0 <= Z.land sig0 0x7FFFFFFFFFFFFFFF < 2 ^ 63) as B.
    { change 0x7FFFFFFFFFFFFFFF with (Z.ones 63). rewrite Z.land_ones by lia. apply Z.mod_pos_bound. lia. }
    assert (0 <= sig0 / 2 ^ 63 < 2) as B'.
    { unfold inu in R0. split; [apply Z.div_pos|apply Z.div_lt_upper_bound]; lia. }
    destruct (Z.compare_spec sig0 (2 ^ 63)) as [H|H|H].
    + rewrite (proj2 (Z.eqb_eq _ 0)) by nia. cbn [b2z]. rewrite land_lnot_1, Z.odd_add.
      destruct (Z.odd sig64); simpl; lia.
    + simpl. lia.
    + rewrite (proj2 (Z.eqb_neq _ 0)) by nia. cbn [b2z]. rewrite Z.land_m1_r. done.
  - simpl. lia.
  - destruct sign, (nz sig0); simpl; rewrite ?Z.land_m1_r; lia.
  - destruct sign, (nz sig0); simpl; rewrite ?Z.land_m1_r; lia.
  - destruct (sig0 ?= 2 ^ 63); simpl; rewrite ?Z.land_m1_r; lia.
Qed.

(** The incremented word does not wrap unless the result is out of range. *)
Lemma round64_wrap rm sign sig64 sig0 n d :
  0 <= rm <= 4 -> stands_for sig64 sig0 n d ->
  increment64 rm sign sig0 = true ->
  if u64 (sig64 + 1) =? 0 then round_q rm sign n d = 2 ^ 64
  else u64 (sig64 + 1) = sig64 + 1 /\ 0 <= round_q rm sign n d < 2 ^ 64.
Proof.
  intros Hrm Hst Hi. pose proof (round64_step rm sign _ _ _ _ Hrm Hst) as Hm. rewrite Hi in Hm.
  destruct Hst as (R1 & R0 & _). unfold inu in R1. rewrite Hm.
  destruct (Z.eq_dec sig64 (2 ^ 64 - 1)) as [->|Hne].
  - change (u64 (2 ^ 64 - 1 + 1) =? 0) with true. cbv iota. by destruct (_ && _).
  - rewrite (wrapu_small 64) by (unfold inu; lia). rewrite (proj2 (Z.eqb_neq _ 0)) by lia. split; [done|].
    destruct (_ && _); cbn [b2z]; [rewrite land_lnot_1; destruct (Z.odd _)|rewrite Z.land_m1_r]; lia.
Qed.

Lemma roundPackToUI64_ref sign sig64 sig0 n d rm exact rm0 fl :
  0 <= rm <= 4 -> stands_for sig64 sig0 n d ->
  let R := ref_to_uint (2 ^ 64 - 1) rm sign exact n d in
  softfloat_roundPackToUI64 sign sig64 sig0 rm exact rm0 fl = Some (R.1, Z.lor fl R.2).
Proof.
  intros Hrm Hst. cbv zeta. unfold softfloat_roundPackToUI64. cbv zeta.
  change (if negb (rm =? softfloat_round_nearest_even) && negb (rm =? softfloat_round_nearest_maxMag) then
      negb (rm =? softfloat_round_minMag) && (rm =? (if sign then softfloat_round_min else softfloat_round_max)) && nz sig0
    else 0x8000000000000000 <=? sig0) with (increment64 rm sign sig0).
  pose proof (round64_step rm sign _ _ _ _ Hrm Hst) as Hm. pose proof (round64_wrap rm sign _ _ _ _ Hrm Hst) as Hw.
  destruct Hst as (R1 & R0 & _ & En & _). unfold inu in R1. unfold ref_to_uint. rewrite En.
  change softfloat_round_nearest_even with 0.
  set (m := round_q rm sign n d) in *. destruct (increment64 rm sign sig0).
  - specialize (Hw eq_refl). destruct (u64 (sig64 + 1) =? 0).
    + rewrite Hw, orb_true_r. done.
    + destruct Hw as [-> ?]. rewrite <- Hm, (proj2 (Z.ltb_ge _ m)), orb_false_r by lia.
      destruct (sign && nz m); [done|]. apply raise_inexact_run.
  - rewrite Hm, (proj2 (Z.ltb_ge _ sig64)), orb_false_r by lia.
    destruct (sign && nz sig64); [done|]. apply raise_inexact_run.
Qed.

Lemma roundPackToI64_ref sign sig64 sig0 n d rm exact rm0 fl :
  0 <= rm <= 4 -> stands_for sig64 sig0 n d ->
  let R := ref_to_int (- 2 ^ 63) (2 ^ 63 - 1) rm sign exact n d in
  softfloat_roundPackToI64 sign sig64 sig0 rm exact rm0 fl = Some (R.1, Z.lor fl R.2).
Proof.
  intros Hrm Hst. cbv zeta. unfold softfloat_roundPackToI64. cbv zeta.
  change (if negb (rm =? softfloat_round_nearest_even) && negb (rm =? softfloat_round_nearest_maxMag) then
      negb (rm =? softfloat_round_minMag) && (rm =? (if sign then softfloat_round_min else softfloat_round_max)) && nz sig0
    else 0x8000000000000000 <=? sig0) with (increment64 rm sign sig0).
  pose proof (round64_step rm sign _ _ _ _ Hrm Hst) as Hm. pose proof (round64_wrap rm sign _ _ _ _ Hrm Hst) as Hw.
  destruct Hst as (R1 & R0 & _ & En & _). unfold inu in R1. rewrite En. change softfloat_round_nearest_even with 0.
  set (invalid := softfloat_raiseFlags softfloat_flag_invalid ;;% fret (if sign then _ else _)).
  assert (forall m, m = round_q rm sign n d -> 0 <= m < 2 ^ 64 ->
    (if nz (s64 (if sign then u64 (- m) else m)) && xorb (s64 (if sign then u64 (- m) else m) <? 0) sign
     then invalid
     else raise_if (exact && nz (n mod d)) softfloat_flag_inexact ;;%
          fret (s64 (if sign then u64 (- m) else m))) rm0 fl =
    Some ((ref_to_int (- 2 ^ 63) (2 ^ 63 - 1) rm sign exact n d).1,
          Z.lor fl (ref_to_int (- 2 ^ 63) (2 ^ 63 - 1) rm sign exact n d).2)) as Hfin.
  { intros m Em Hr. unfold ref_to_int. rewrite <- Em.
    destruct (signed_fits 64 sign m) as [F1 F2]; [lia..|]. cbv zeta in F1, F2. destruct (nz _ && xorb _ _).
    - destruct (F1 eq_refl) as [[? ->]|[? ->]]; [by rewrite (proj2 (Z.ltb_lt _ _)) by lia|].
      by rewrite (proj2 (Z.ltb_ge _ _)), (proj2 (Z.ltb_lt _ m)) by lia.
    - destruct (F2 eq_refl) as [? ->]. rewrite (proj2 (Z.ltb_ge _ _)), (proj2 (Z.ltb_ge (2 ^ 63 - 1) _)) by lia.
      apply raise_inexact_run. }
  destruct (increment64 rm sign sig0).
  - specialize (Hw eq_refl). destruct (u64 (sig64 + 1) =? 0).
    + unfold ref_to_int. rewrite Hw. by destruct sign.
    + destruct Hw as [-> ?]. rewrite Hm in *. by apply Hfin.
  - apply Hfin; auto.
Qed.
