(* ===== verification/SFConv.v ===== *)
(** * SoftFloat: comparisons, classification and conversions

    f32_eq.c .. f64_lt_quiet.c, f*_classify.c, the conversions between the two
    formats and between them and the 32- and 64-bit integers.  The theorems
    relate each routine to the exact value of its operands. *)

From Stdlib Require Import ZArith Lia Bool List.
From stdpp Require Import base list.
From S2P Require Import Prelude SFPrim SFRound.

(** ** Comparisons (f32) *)
Definition nanF32 (ui : Z) : bool := (expF32UI ui =? 0xFF) && nz (fracF32UI ui).

Definition f32_eq (uiA uiB : Z) : FP bool :=
  if nanF32 uiA || nanF32 uiB then
    raise_if (softfloat_isSigNaNF32UI uiA || softfloat_isSigNaNF32UI uiB) softfloat_flag_invalid ;;%
    fret false
  else fret ((uiA =? uiB) || negb (nz (shl 32 (Z.lor uiA uiB) 1))).

Definition f32_eq_signaling (uiA uiB : Z) : FP bool :=
  if nanF32 uiA || nanF32 uiB then softfloat_raiseFlags softfloat_flag_invalid ;;% fret false
  else fret ((uiA =? uiB) || negb (nz (shl 32 (Z.lor uiA uiB) 1))).

Definition f32_le_order (uiA uiB : Z) : bool :=
  let signA := signF32UI uiA in
  let signB := signF32UI uiB in
  if negb (eqb signA signB) then signA || negb (nz (shl 32 (Z.lor uiA uiB) 1))
  else (uiA =? uiB) || xorb signA (uiA <? uiB).

Definition f32_lt_order (uiA uiB : Z) : bool :=
  let signA := signF32UI uiA in
  let signB := signF32UI uiB in
  if negb (eqb signA signB) then signA && nz (shl 32 (Z.lor uiA uiB) 1)
  else negb (uiA =? uiB) && xorb signA (uiA <? uiB).

Definition f32_le (uiA uiB : Z) : FP bool :=
  if nanF32 uiA || nanF32 uiB then softfloat_raiseFlags softfloat_flag_invalid ;;% fret false
  else fret (f32_le_order uiA uiB).

Definition f32_lt (uiA uiB : Z) : FP bool :=
  if nanF32 uiA || nanF32 uiB then softfloat_raiseFlags softfloat_flag_invalid ;;% fret false
  else fret (f32_lt_order uiA uiB).

Definition f32_le_quiet (uiA uiB : Z) : FP bool :=
  if nanF32 uiA || nanF32 uiB then
    raise_if (softfloat_isSigNaNF32UI uiA || softfloat_isSigNaNF32UI uiB) softfloat_flag_invalid ;;%
    fret false
  else fret (f32_le_order uiA uiB).

Definition f32_lt_quiet (uiA uiB : Z) : FP bool :=
  if nanF32 uiA || nanF32 uiB then
    raise_if (softfloat_isSigNaNF32UI uiA || softfloat_isSigNaNF32UI uiB) softfloat_flag_invalid ;;%
    fret false
  else fret (f32_lt_order uiA uiB).

Definition f32_isSignalingNaN (a : Z) : bool := softfloat_isSigNaNF32UI a.

Definition f32_classify (uiA : Z) : Z :=
  let infOrNaN := expF32UI uiA =? 0xFF in
  let subnormalOrZero := expF32UI uiA =? 0 in
  let sign := signF32UI uiA in
  let bit (b : bool) n := Z.shiftl (b2z b) n in
  Z.lor (bit (sign && infOrNaN && (fracF32UI uiA =? 0)) 0)
  (Z.lor (bit (sign && negb infOrNaN && negb subnormalOrZero) 1)
  (Z.lor (bit (sign && subnormalOrZero && nz (fracF32UI uiA)) 2)
  (Z.lor (bit (sign && subnormalOrZero && (fracF32UI uiA =? 0)) 3)
  (Z.lor (bit (negb sign && infOrNaN && (fracF32UI uiA =? 0)) 7)
  (Z.lor (bit (negb sign && negb infOrNaN && negb subnormalOrZero) 6)
  (Z.lor (bit (negb sign && subnormalOrZero && nz (fracF32UI uiA)) 5)
  (Z.lor (bit (negb sign && subnormalOrZero && (fracF32UI uiA =? 0)) 4)
  (Z.lor (bit (isNaNF32UI uiA && softfloat_isSigNaNF32UI uiA) 8)
         (bit (isNaNF32UI uiA && negb (softfloat_isSigNaNF32UI uiA)) 9))))))))).

(** ** Comparisons (f64) *)
Definition nanF64 (ui : Z) : bool := (expF64UI ui =? 0x7FF) && nz (fracF64UI ui).

Definition f64_eq (uiA uiB : Z) : FP bool :=
  if nanF64 uiA || nanF64 uiB then
    raise_if (softfloat_isSigNaNF64UI uiA || softfloat_isSigNaNF64UI uiB) softfloat_flag_invalid ;;%
    fret false
  else fret ((uiA =? uiB) || negb (nz (Z.land (Z.lor uiA uiB) 0x7FFFFFFFFFFFFFFF))).

Definition f64_eq_signaling (uiA uiB : Z) : FP bool :=
  if nanF64 uiA || nanF64 uiB then softfloat_raiseFlags softfloat_flag_invalid ;;% fret false
  else fret ((uiA =? uiB) || negb (nz (Z.land (Z.lor uiA uiB) 0x7FFFFFFFFFFFFFFF))).

Definition f64_le_order (uiA uiB : Z) : bool :=
  let signA := signF64UI uiA in
  let signB := signF64UI uiB in
  if negb (eqb signA signB) then signA || negb (nz (Z.land (Z.lor uiA uiB) 0x7FFFFFFFFFFFFFFF))
  else (uiA =? uiB) || xorb signA (uiA <? uiB).

Definition f64_lt_order (uiA uiB : Z) : bool :=
  let signA := signF64UI uiA in
  let signB := signF64UI uiB in
  if negb (eqb signA signB) then signA && nz (Z.land (Z.lor uiA uiB) 0x7FFFFFFFFFFFFFFF)
  else negb (uiA =? uiB) && xorb signA (uiA <? uiB).

Definition f64_le (uiA uiB : Z) : FP bool :=
  if nanF64 uiA || nanF64 uiB then softfloat_raiseFlags softfloat_flag_invalid ;;% fret false
  else fret (f64_le_order uiA uiB).

Definition f64_lt (uiA uiB : Z) : FP bool :=
  if nanF64 uiA || nanF64 uiB then softfloat_raiseFlags softfloat_flag_invalid ;;% fret false
  else fret (f64_lt_order uiA uiB).

Definition f64_le_quiet (uiA uiB : Z) : FP bool :=
  if nanF64 uiA || nanF64 uiB then
    raise_if (softfloat_isSigNaNF64UI uiA || softfloat_isSigNaNF64UI uiB) softfloat_flag_invalid ;;%
    fret false
  else fret (f64_le_order uiA uiB).

Definition f64_lt_quiet (uiA uiB : Z) : FP bool :=
  if nanF64 uiA || nanF64 uiB then
    raise_if (softfloat_isSigNaNF64UI uiA || softfloat_isSigNaNF64UI uiB) softfloat_flag_invalid ;;%
    fret false
  else fret (f64_lt_order uiA uiB).

Definition f64_isSignalingNaN (a : Z) : bool := softfloat_isSigNaNF64UI a.

Definition f64_classify (uiA : Z) : Z :=
  let infOrNaN := expF64UI uiA =? 0x7FF in
  let subnormalOrZero := expF64UI uiA =? 0 in
  let sign := signF64UI uiA in
  let bit (b : bool) n := Z.shiftl (b2z b) n in
  Z.lor (bit (sign && infOrNaN && (fracF64UI uiA =? 0)) 0)
  (Z.lor (bit (sign && negb infOrNaN && negb subnormalOrZero) 1)
  (Z.lor (bit (sign && subnormalOrZero && nz (fracF64UI uiA)) 2)
  (Z.lor (bit (sign && subnormalOrZero && (fracF64UI uiA =? 0)) 3)
  (Z.lor (bit (negb sign && infOrNaN && (fracF64UI uiA =? 0)) 7)
  (Z.lor (bit (negb sign && negb infOrNaN && negb subnormalOrZero) 6)
  (Z.lor (bit (negb sign && subnormalOrZero && nz (fracF64UI uiA)) 5)
  (Z.lor (bit (negb sign && subnormalOrZero && (fracF64UI uiA =? 0)) 4)
  (Z.lor (bit (isNaNF64UI uiA && softfloat_isSigNaNF64UI uiA) 8)
         (bit (isNaNF64UI uiA && negb (softfloat_isSigNaNF64UI uiA)) 9))))))))).

(** ** Integer to floating point

    [i32_to_f64] negates its argument as a signed [int]: at the most negative
    one the negation overflows, which C leaves undefined, and so is the result
    here ([None]).  The other conversions negate as unsigned words or take that
    argument apart first. *)
Definition ui32_to_f32 (a : Z) : FP Z :=
  if negb (nz a) then fret 0
  else if nz (Z.land a 0x80000000) then
    softfloat_roundPackToF32 false 0x9D (softfloat_shortShift32Right1Jam a)
  else softfloat_normRoundPackToF32 false 0x9C a.

Definition ui32_to_f64 (a : Z) : FP Z :=
  fret (if negb (nz a) then 0
        else
          let shiftCount := softfloat_countLeadingZeros32 a + 21 in
          packToF64UI false (0x432 - shiftCount) (shl 64 a shiftCount)).

Definition ui64_to_f32 (a : Z) : FP Z :=
  let shiftCount := softfloat_countLeadingZeros64 a - 40 in
  if 0 <=? shiftCount then
    fret (if nz a then packToF32UI false (0x95 - shiftCount) (shl 32 (u32 a) shiftCount) else 0)
  else
    let shiftCount := shiftCount + 7 in
    let sig := if shiftCount <? 0 then u32 (softfloat_shortShift64RightJam a (- shiftCount))
               else shl 32 (u32 a) shiftCount in
    softfloat_roundPackToF32 false (0x9C - shiftCount) sig.

Definition ui64_to_f64 (a : Z) : FP Z :=
  if negb (nz a) then fret 0
  else if nz (Z.land a 0x8000000000000000) then
    softfloat_roundPackToF64 false 0x43D (softfloat_shortShift64RightJam a 1)
  else softfloat_normRoundPackToF64 false 0x43C a.

Definition i32_to_f32 (a : Z) : FP Z :=
  let sign := a <? 0 in
  if negb (nz (Z.land a 0x7FFFFFFF)) then
    fret (if sign then packToF32UI true 0x9E 0 else 0)
  else softfloat_normRoundPackToF32 sign 0x9C (if sign then - a else a).

Definition i32_to_f64 (a : Z) : FP Z :=
  if negb (nz a) then fret 0
  else
    let sign := a <? 0 in
    if sign && (a =? - 2 ^ 31) then (fun _ _ => None)
    else
      let absA := u32 (if sign then - a else a) in
      let shiftCount := softfloat_countLeadingZeros32 absA + 21 in
      fret (packToF64UI sign (0x432 - shiftCount) (shl 64 absA shiftCount)).

Definition i64_to_f32 (a : Z) : FP Z :=
  let sign := a <? 0 in
  let absA := if sign then u64 (- u64 a) else u64 a in
  let shiftCount := softfloat_countLeadingZeros64 absA - 40 in
  if 0 <=? shiftCount then
    fret (if nz a then packToF32UI sign (0x95 - shiftCount) (shl 32 (u32 absA) shiftCount) else 0)
  else
    let shiftCount := shiftCount + 7 in
    let sig := if shiftCount <? 0 then u32 (softfloat_shortShift64RightJam absA (- shiftCount))
               else shl 32 (u32 absA) shiftCount in
    softfloat_roundPackToF32 sign (0x9C - shiftCount) sig.

Definition i64_to_f64 (a : Z) : FP Z :=
  let sign := a <? 0 in
  if negb (nz (Z.land (u64 a) 0x7FFFFFFFFFFFFFFF)) then
    fret (if sign then packToF64UI true 0x43E 0 else 0)
  else softfloat_normRoundPackToF64 sign 0x43C (if sign then - a else a).

(** ** Between the formats *)
Definition f32_to_f64 (uiA : Z) : FP Z :=
  let sign := signF32UI uiA in
  let exp := expF32UI uiA in
  let sig := fracF32UI uiA in
  let pack exp sig := fret (packToF64UI sign (exp + 0x380) (shl 64 sig 29)) in
  if exp =? 0xFF then
    if nz sig then
      let% c := softfloat_f32UIToCommonNaN uiA in fret (softfloat_commonNaNToF64UI c)
    else fret (packToF64UI sign 0x7FF 0)
  else if negb (nz exp) then
    if negb (nz sig) then fret (packToF64UI sign 0 0)
    else
      let normExpSig := softfloat_normSubnormalF32Sig sig in
      pack (es_exp normExpSig - 1) (es_sig normExpSig)
  else pack exp sig.

Definition f64_to_f32 (uiA : Z) : FP Z :=
  let sign := signF64UI uiA in
  let exp := expF64UI uiA in
  let sig := fracF64UI uiA in
  if exp =? 0x7FF then
    if nz sig then
      let% c := softfloat_f64UIToCommonNaN uiA in fret (softfloat_commonNaNToF32UI c)
    else fret (packToF32UI sign 0xFF 0)
  else
    let sig32 := u32 (softfloat_shortShift64RightJam sig 22) in
    if negb (nz (Z.lor exp sig32)) then fret (packToF32UI sign 0 0)
    else softfloat_roundPackToF32 sign (exp - 0x381) (Z.lor sig32 0x40000000).

(** ** Floating point to integer *)
Definition f32_to_ui32 (uiA roundingMode : Z) (exact : bool) : FP Z :=
  let sign := signF32UI uiA in
  let exp := expF32UI uiA in
  let sig := fracF32UI uiA in
  let sig := if nz exp then Z.lor sig 0x00800000 else sig in
  let sig64 := shl 64 sig 32 in
  let shiftCount := 0xAF - exp in
  let sig64 := if 0 <? shiftCount then softfloat_shift64RightJam sig64 shiftCount else sig64 in
  softfloat_roundPackToUI32 sign sig64 roundingMode exact.

Definition f32_to_i32 (uiA roundingMode : Z) (exact : bool) : FP Z :=
  let sign := signF32UI uiA in
  let exp := expF32UI uiA in
  let sig := fracF32UI uiA in
  let sig := if nz exp then Z.lor sig 0x00800000 else sig in
  let sig64 := shl 64 sig 32 in
  let shiftCount := 0xAF - exp in
  let sig64 := if 0 <? shiftCount then softfloat_shift64RightJam sig64 shiftCount else sig64 in
  softfloat_roundPackToI32 sign sig64 roundingMode exact.

Definition f32_to_ui64 (uiA roundingMode : Z) (exact : bool) : FP Z :=
  let sign := signF32UI uiA in
  let exp := expF32UI uiA in
  let sig := fracF32UI uiA in
  let shiftCount := 0xBE - exp in
  if shiftCount <? 0 then
    softfloat_raiseFlags softfloat_flag_invalid ;;% fret 0xFFFFFFFFFFFFFFFF
  else
    let sig := if nz exp then Z.lor sig 0x00800000 else sig in
    let sig64 := shl 64 sig 40 in
    let e := if nz shiftCount then softfloat_shift64ExtraRightJam sig64 0 shiftCount
             else U64E sig64 0 in
    softfloat_roundPackToUI64 sign (u64e_v e) (u64e_extra e) roundingMode exact.

Definition f32_to_i64 (uiA roundingMode : Z) (exact : bool) : FP Z :=
  let sign := signF32UI uiA in
  let exp := expF32UI uiA in
  let sig := fracF32UI uiA in
  let shiftCount := 0xBE - exp in
  if shiftCount <? 0 then
    softfloat_raiseFlags softfloat_flag_invalid ;;%
    fret (if negb sign then 0x7FFFFFFFFFFFFFFF else -0x7FFFFFFFFFFFFFFF - 1)
  else
    let sig := if nz exp then Z.lor sig 0x00800000 else sig in
    let sig64 := shl 64 sig 40 in
    let e := if nz shiftCount then softfloat_shift64ExtraRightJam sig64 0 shiftCount
             else U64E sig64 0 in
    softfloat_roundPackToI64 sign (u64e_v e) (u64e_extra e) roundingMode exact.

Definition f64_to_ui32 (uiA roundingMode : Z) (exact : bool) : FP Z :=
  let sign := signF64UI uiA in
  let exp := expF64UI uiA in
  let sig := fracF64UI uiA in
  let sig := if nz exp then Z.lor sig 0x0010000000000000 else sig in
  let shiftCount := 0x42C - exp in
  let sig := if 0 <? shiftCount then softfloat_shift64RightJam sig shiftCount else sig in
  softfloat_roundPackToUI32 sign sig roundingMode exact.

Definition f64_to_i32 (uiA roundingMode : Z) (exact : bool) : FP Z :=
  let sign := signF64UI uiA in
  let exp := expF64UI uiA in
  let sig := fracF64UI uiA in
  let sig := if nz exp then Z.lor sig 0x0010000000000000 else sig in
  let shiftCount := 0x42C - exp in
  let sig := if 0 <? shiftCount then softfloat_shift64RightJam sig shiftCount else sig in
  softfloat_roundPackToI32 sign sig roundingMode exact.

Definition f64_to_ui64 (uiA roundingMode : Z) (exact : bool) : FP Z :=
  let sign := signF64UI uiA in
  let exp := expF64UI uiA in
  let sig := fracF64UI uiA in
  let sig := if nz exp then Z.lor sig 0x0010000000000000 else sig in
  let shiftCount := 0x433 - exp in
  if shiftCount <=? 0 then
    if 0x43E <? exp then
      softfloat_raiseFlags softfloat_flag_invalid ;;% fret 0xFFFFFFFFFFFFFFFF
    else softfloat_roundPackToUI64 sign (shl 64 sig (- shiftCount)) 0 roundingMode exact
  else
    let sigExtra := softfloat_shift64ExtraRightJam sig 0 shiftCount in
    softfloat_roundPackToUI64 sign (u64e_v sigExtra) (u64e_extra sigExtra) roundingMode exact.

Definition f64_to_i64 (uiA roundingMode : Z) (exact : bool) : FP Z :=
  let sign := signF64UI uiA in
  let exp := expF64UI uiA in
  let sig := fracF64UI uiA in
  let sig := if nz exp then Z.lor sig 0x0010000000000000 else sig in
  let shiftCount := 0x433 - exp in
  if shiftCount <=? 0 then
    if 0x43E <? exp then
      softfloat_raiseFlags softfloat_flag_invalid ;;%
      fret (if negb sign then 0x7FFFFFFFFFFFFFFF else -0x7FFFFFFFFFFFFFFF - 1)
    else softfloat_roundPackToI64 sign (shl 64 sig (- shiftCount)) 0 roundingMode exact
  else
    let sigExtra := softfloat_shift64ExtraRightJam sig 0 shiftCount in
    softfloat_roundPackToI64 sign (u64e_v sigExtra) (u64e_extra sigExtra) roundingMode exact.

(** ** The value of a floating-point word

    Every finite single (double) is an integer multiple of [2^-149]
    ([2^-1074]); [mag32] ([mag64]) is the multiple, without its sign. *)
Definition mag32 (a : Z) : Z :=
  if expF32UI a =? 0 then fracF32UI a else (fracF32UI a + 2 ^ 23) * 2 ^ (expF32UI a - 1).

Definition mag64 (a : Z) : Z :=
  if expF64UI a =? 0 then fracF64UI a else (fracF64UI a + 2 ^ 52) * 2 ^ (expF64UI a - 1).

Definition finite32 (a : Z) : Prop := inu 32 a /\ expF32UI a <> 0xFF.
Definition finite64 (a : Z) : Prop := inu 64 a /\ expF64UI a <> 0x7FF.

Lemma fields32 a :
  inu 32 a ->
  0 <= expF32UI a <= 0xFF /\ 0 <= fracF32UI a < 2 ^ 23 /\
  a = b2z (signF32UI a) * 2 ^ 31 + expF32UI a * 2 ^ 23 + fracF32UI a.
Proof.
  intros Ha. unfold signF32UI, expF32UI, fracF32UI. rewrite (wrapu_small 32 a) by done.
  rewrite !Z.shiftr_div_pow2 by lia. unfold inu in Ha.
  assert (0 <= a / 2 ^ 23 < 512) by (split; [apply Z.div_pos|apply Z.div_lt_upper_bound]; lia).
  rewrite (wraps_small 32 (a / _)) by lia. 
  rewrite !(Z.land_ones _ 8 : _ -> Z.land _ 0xFF = _), (Z.land_ones _ 23 : _ -> Z.land _ 0x7FFFFF = _) by lia. pose proof (Z.mod_pos_bound (a / 2 ^ 23) (2 ^ 8)).
  pose proof (Z.mod_pos_bound a (2 ^ 23)). split; [lia|]. split; [lia|].
  assert (0 <= a / 2 ^ 31 < 2) by (split; [apply Z.div_pos|apply Z.div_lt_upper_bound]; lia).
  assert (b2z (nz (a / 2 ^ 31)) = a / 2 ^ 31) as ->.
  { assert (a / 2 ^ 31 = 0 \/ a / 2 ^ 31 = 1) as [->| ->] by lia; done. }
  pose proof (Z.div_mod a (2 ^ 23) ltac:(lia)). pose proof (Z.div_mod (a / 2 ^ 23) (2 ^ 8) ltac:(lia)) as E.
  rewrite Z.div_div in E by lia. change (2 ^ 23 * 2 ^ 8) with (2 ^ 31) in E. lia.
Qed.

Lemma fields64 a :
  inu 64 a ->
  0 <= expF64UI a <= 0x7FF /\ 0 <= fracF64UI a < 2 ^ 52 /\
  a = b2z (signF64UI a) * 2 ^ 63 + expF64UI a * 2 ^ 52 + fracF64UI a.
Proof.
  intros Ha. unfold signF64UI, expF64UI, fracF64UI. rewrite (wrapu_small 64 a) by done.
  rewrite !Z.shiftr_div_pow2 by lia. unfold inu in Ha.
  assert (0 <= a / 2 ^ 52 < 4096) by (split; [apply Z.div_pos|apply Z.div_lt_upper_bound]; lia).
  rewrite (wraps_small 32 (a / _)) by lia. 
  rewrite !(Z.land_ones _ 11 : _ -> Z.land _ 0x7FF = _), (Z.land_ones _ 52 : _ -> Z.land _ 0xFFFFFFFFFFFFF = _) by lia. pose proof (Z.mod_pos_bound (a / 2 ^ 52) (2 ^ 11)).
  pose proof (Z.mod_pos_bound a (2 ^ 52)). split; [lia|]. split; [lia|].
  assert (0 <= a / 2 ^ 63 < 2) by (split; [apply Z.div_pos|apply Z.div_lt_upper_bound]; lia).
  assert (b2z (nz (a / 2 ^ 63)) = a / 2 ^ 63) as ->.
  { assert (a / 2 ^ 63 = 0 \/ a / 2 ^ 63 = 1) as [->| ->] by lia; done. }
  pose proof (Z.div_mod a (2 ^ 52) ltac:(lia)). pose proof (Z.div_mod (a / 2 ^ 52) (2 ^ 11) ltac:(lia)) as E.
  rewrite Z.div_div in E by lia. change (2 ^ 52 * 2 ^ 11) with (2 ^ 63) in E. lia.
Qed.

(** The three fields determine and are determined by the word. *)
Lemma fields32_pack s e f :
  0 <= e <= 0xFF -> 0 <= f < 2 ^ 23 ->
  let a := b2z s * 2 ^ 31 + e * 2 ^ 23 + f in
  inu 32 a /\ signF32UI a = s /\ expF32UI a = e /\ fracF32UI a = f.
Proof.
  intros He Hf a. assert (inu 32 a) as Ha by (unfold a, inu; destruct s; cbn [b2z]; lia).
  split; [done|]. destruct (fields32 a Ha) as (H1 & H2 & E). unfold a in E at 1.
  destruct s, (signF32UI a); cbn [b2z] in E; (split; [done || lia|]; lia).
Qed.

Lemma fields64_pack s e f :
  0 <= e <= 0x7FF -> 0 <= f < 2 ^ 52 ->
  let a := b2z s * 2 ^ 63 + e * 2 ^ 52 + f in
  inu 64 a /\ signF64UI a = s /\ expF64UI a = e /\ fracF64UI a = f.
Proof.
  intros He Hf a. assert (inu 64 a) as Ha by (unfold a, inu; destruct s; cbn [b2z]; lia).
  split; [done|]. destruct (fields64 a Ha) as (H1 & H2 & E). unfold a in E at 1.
  destruct s, (signF64UI a); cbn [b2z] in E; (split; [done || lia|]; lia).
Qed.

(** ** Comparison is the order of the values *)

Definition val32 (a : Z) : Z := if signF32UI a then - mag32 a else mag32 a.
Definition val64 (a : Z) : Z := if signF64UI a then - mag64 a else mag64 a.

(** The magnitude of the word with exponent field [e] and fraction [f]. *)
Definition mag_of (fb e f : Z) : Z := if e =? 0 then f else (f + 2 ^ fb) * 2 ^ (e - 1).

(** The encoding is monotone: exponent first, then fraction. *)
Lemma mag_of_lt fb e f e' f' :
  0 < fb -> 0 <= e -> 0 <= e' -> 0 <= f < 2 ^ fb -> 0 <= f' < 2 ^ fb ->
  e * 2 ^ fb + f < e' * 2 ^ fb + f' -> mag_of fb e f < mag_of fb e' f'.
Proof.
  intros Hfb He He' Hf Hf' Hlt. unfold mag_of. pose proof (pow2_pos fb ltac:(lia)).
  assert (e < e' \/ (e = e' /\ f < f')) as [Hl|[-> Hl]] by nia.
  - rewrite (proj2 (Z.eqb_neq e' 0)) by lia.
    assert (2 ^ fb * 2 ^ (e' - 1) <= (f' + 2 ^ fb) * 2 ^ (e' - 1)).
    { apply Z.mul_le_mono_nonneg_r; [|lia]. pose proof (pow2_pos (e' - 1)). lia. }
    destruct (Z.eqb_spec e 0) as [->|].
    + pose proof (Z.pow_le_mono_r 2 0 (e' - 1)). nia.
    + assert (2 ^ e <= 2 ^ (e' - 1)) by (apply Z.pow_le_mono_r; lia).
      replace e with (e - 1 + 1) in H1 by lia. rewrite Z.pow_add_r in H1 by lia.
      pose proof (pow2_pos (e - 1) ltac:(lia)). nia.
  - destruct (Z.eqb_spec e' 0); [done|]. pose proof (pow2_pos (e' - 1) ltac:(lia)). nia.
Qed.

Lemma mag_of_nonneg fb e f : 0 <= fb -> 0 <= e -> 0 <= f -> 0 <= mag_of fb e f.
Proof.
  intros. unfold mag_of. destruct (Z.eqb_spec e 0); [done|].
  pose proof (pow2_pos fb). pose proof (pow2_pos (e - 1)). nia.
Qed.

Section Order.
Context (fb emax w : Z) (Hfb : 0 < fb) (Hemax : 0 < emax).

(** A word split into sign and the rest, its value and the code's order. *)
Definition val_of (s : bool) (e f : Z) : Z := if s then - mag_of fb e f else mag_of fb e f.

Definition lt_order (sA sB : bool) (a b nonzero : Z) : bool :=
  if negb (eqb sA sB) then sA && nz nonzero else negb (a =? b) && xorb sA (a <? b).

Definition le_order (sA sB : bool) (a b nonzero : Z) : bool :=
  if negb (eqb sA sB) then sA || negb (nz nonzero) else (a =? b) || xorb sA (a <? b).

Context (sA sB : bool) (eA fA eB fB nonzero : Z).
Context (HeA : 0 <= eA) (HeB : 0 <= eB) (HfA : 0 <= fA < 2 ^ fb) (HfB : 0 <= fB < 2 ^ fb).
Let xA := eA * 2 ^ fb + fA.
Let xB := eB * 2 ^ fb + fB.
Context (Hz : nonzero = 0 <-> xA = 0 /\ xB = 0).
Context (Hw : xA < 2 ^ (w - 1)) (Hw' : xB < 2 ^ (w - 1)).

Lemma mag_of_eq : xA = xB -> mag_of fb eA fA = mag_of fb eB fB.
Proof. unfold xA, xB. intros. assert (eA = eB) as ->; [|f_equal; lia].
  destruct (Z.lt_trichotomy eA eB) as [|[|]]; [nia|done|nia]. Qed.

Lemma mag_of_0 e f : 0 <= e -> 0 <= f < 2 ^ fb -> mag_of fb e f = 0 <-> e * 2 ^ fb + f = 0.
Proof.
  intros. pose proof (pow2_pos fb ltac:(lia)). split; intros E.
  - destruct (Z.eq_dec (e * 2 ^ fb + f) 0) as [|Hn]; [done|].
    assert (mag_of fb 0 0 < mag_of fb e f) by (apply mag_of_lt; nia). unfold mag_of at 1 in H2. simpl in H2. lia.
  - assert (e = 0 /\ f = 0) as [-> ->] by nia. done.
Qed.

Ltac order_facts :=
  pose proof (mag_of_nonneg fb eA fA); pose proof (mag_of_nonneg fb eB fB);
  pose proof (mag_of_0 eA fA HeA HfA) as Z1; pose proof (mag_of_0 eB fB HeB HfB) as Z2;
  pose proof (mag_of_lt fb eA fA eB fB Hfb HeA HeB HfA HfB) as L1;
  pose proof (mag_of_lt fb eB fB eA fA Hfb HeB HeA HfB HfA) as L2;
  pose proof mag_of_eq; fold xA in Z1, L1, L2; fold xB in Z2, L1, L2; unfold nz.

Lemma lt_order_val :
  lt_order sA sB (b2z sA * 2 ^ (w - 1) + xA) (b2z sB * 2 ^ (w - 1) + xB) nonzero =
  (val_of sA eA fA <? val_of sB eB fB).
Proof.
  unfold lt_order, val_of. order_facts.
  symmetry. destruct sA, sB; cbn [eqb negb b2z andb xorb].
  - destruct (Z.eqb_spec (1 * 2 ^ (w - 1) + xA) (1 * 2 ^ (w - 1) + xB)), (Z.ltb_spec (1 * 2 ^ (w - 1) + xA) (1 * 2 ^ (w - 1) + xB));
      cbn [negb andb xorb]; (apply Z.ltb_lt || apply Z.ltb_ge); lia.
  - destruct (Z.eqb_spec nonzero 0); cbn [negb]; (apply Z.ltb_lt || apply Z.ltb_ge); lia.
  - apply Z.ltb_ge; lia.
  - destruct (Z.eqb_spec (0 * 2 ^ (w - 1) + xA) (0 * 2 ^ (w - 1) + xB)), (Z.ltb_spec (0 * 2 ^ (w - 1) + xA) (0 * 2 ^ (w - 1) + xB));
      cbn [negb andb xorb]; (apply Z.ltb_lt || apply Z.ltb_ge); lia.
Qed.

Lemma le_order_val :
  le_order sA sB (b2z sA * 2 ^ (w - 1) + xA) (b2z sB * 2 ^ (w - 1) + xB) nonzero =
  (val_of sA eA fA <=? val_of sB eB fB).
Proof.
  unfold le_order, val_of. order_facts.
  symmetry. destruct sA, sB; cbn [eqb negb b2z orb xorb].
  - destruct (Z.eqb_spec (1 * 2 ^ (w - 1) + xA) (1 * 2 ^ (w - 1) + xB)), (Z.ltb_spec (1 * 2 ^ (w - 1) + xA) (1 * 2 ^ (w - 1) + xB));
      cbn [negb orb xorb]; (apply Z.leb_le || apply Z.leb_gt); lia.
  - apply Z.leb_le; lia.
  - destruct (Z.eqb_spec nonzero 0); cbn [negb]; (apply Z.leb_le || apply Z.leb_gt); lia.
  - destruct (Z.eqb_spec (0 * 2 ^ (w - 1) + xA) (0 * 2 ^ (w - 1) + xB)), (Z.ltb_spec (0 * 2 ^ (w - 1) + xA) (0 * 2 ^ (w - 1) + xB));
      cbn [negb orb xorb]; (apply Z.leb_le || apply Z.leb_gt); lia.
Qed.

Lemma eq_order_val :
  (b2z sA * 2 ^ (w - 1) + xA =? b2z sB * 2 ^ (w - 1) + xB) || negb (nz nonzero) =
  (val_of sA eA fA =? val_of sB eB fB).
Proof.
  unfold val_of. order_facts.
  symmetry. destruct (Z.eqb_spec (b2z sA * 2 ^ (w - 1) + xA) (b2z sB * 2 ^ (w - 1) + xB)), (Z.eqb_spec nonzero 0);
    destruct sA, sB; cbn [negb orb b2z] in *; (apply Z.eqb_eq || apply Z.eqb_neq); lia.
Qed.
End Order.

Lemma low_bits_zero k a b xa xb s t :
  0 <= k -> a = s * 2 ^ k + xa -> b = t * 2 ^ k + xb -> 0 <= xa < 2 ^ k -> 0 <= xb < 2 ^ k ->
  (Z.lor a b) mod 2 ^ k = 0 <-> xa = 0 /\ xb = 0.
Proof.
  intros Hk -> -> Ha Hb. rewrite <- Z.land_ones, Z.land_lor_distr_l, !Z.land_ones by lia.
  rewrite !mod_mul_shift, !Z.mod_small by lia. apply Z.lor_eq_0_iff.
Qed.

Lemma nonzero32 a b :
  inu 32 a -> inu 32 b ->
  shl 32 (Z.lor a b) 1 = 0 <->
  expF32UI a * 2 ^ 23 + fracF32UI a = 0 /\ expF32UI b * 2 ^ 23 + fracF32UI b = 0.
Proof.
  intros Ha Hb. destruct (fields32 a Ha) as (? & ? & Ea), (fields32 b Hb) as (? & ? & Eb).
  assert (shl 32 (Z.lor a b) 1 = Z.lor a b mod 2 ^ 31 * 2) as ->.
  { unfold shl, wrapu. rewrite Z.shiftl_mul_pow2 by lia. change (2 ^ 32) with (2 ^ 31 * 2 ^ 1).
    by rewrite Z.mul_mod_distr_r by lia. }
  rewrite <- Z.add_assoc in Ea, Eb.
  pose proof (low_bits_zero 31 a b _ _ _ _ ltac:(lia) Ea Eb ltac:(lia) ltac:(lia)). lia.
Qed.

Lemma nonzero64 a b :
  inu 64 a -> inu 64 b ->
  Z.land (Z.lor a b) 0x7FFFFFFFFFFFFFFF = 0 <->
  expF64UI a * 2 ^ 52 + fracF64UI a = 0 /\ expF64UI b * 2 ^ 52 + fracF64UI b = 0.
Proof.
  intros Ha Hb. destruct (fields64 a Ha) as (? & ? & Ea), (fields64 b Hb) as (? & ? & Eb).
  rewrite (Z.land_ones _ 63 : _ -> Z.land _ 0x7FFFFFFFFFFFFFFF = _) by lia.
  rewrite <- Z.add_assoc in Ea, Eb.
  pose proof (low_bits_zero 63 a b _ _ _ _ ltac:(lia) Ea Eb ltac:(lia) ltac:(lia)). lia.
Qed.

Lemma f32_lt_order_val a b : inu 32 a -> inu 32 b -> f32_lt_order a b = (val32 a <? val32 b).
Proof.
  intros Ha Hb. destruct (fields32 a Ha) as (? & ? & Ea), (fields32 b Hb) as (? & ? & Eb).
  rewrite <- Z.add_assoc in Ea, Eb. pose proof (nonzero32 a b Ha Hb).
  change (f32_lt_order a b) with (lt_order (signF32UI a) (signF32UI b) a b (shl 32 (Z.lor a b) 1)).
  rewrite Ea at 2. rewrite Eb at 2. apply (lt_order_val 23 32); auto; lia.
Qed.

Lemma f32_le_order_val a b : inu 32 a -> inu 32 b -> f32_le_order a b = (val32 a <=? val32 b).
Proof.
  intros Ha Hb. destruct (fields32 a Ha) as (? & ? & Ea), (fields32 b Hb) as (? & ? & Eb).
  rewrite <- Z.add_assoc in Ea, Eb. pose proof (nonzero32 a b Ha Hb).
  change (f32_le_order a b) with (le_order (signF32UI a) (signF32UI b) a b (shl 32 (Z.lor a b) 1)).
  rewrite Ea at 2. rewrite Eb at 2. apply (le_order_val 23 32); auto; lia.
Qed.

Lemma f32_eq_order_val a b :
  inu 32 a -> inu 32 b -> (a =? b) || negb (nz (shl 32 (Z.lor a b) 1)) = (val32 a =? val32 b).
Proof.
  intros Ha Hb. destruct (fields32 a Ha) as (? & ? & Ea), (fields32 b Hb) as (? & ? & Eb).
  rewrite <- Z.add_assoc in Ea, Eb. pose proof (nonzero32 a b Ha Hb).
  rewrite Ea at 1. rewrite Eb at 1. apply (eq_order_val 23 32); auto; lia.
Qed.

Lemma f64_lt_order_val a b : inu 64 a -> inu 64 b -> f64_lt_order a b = (val64 a <? val64 b).
Proof.
  intros Ha Hb. destruct (fields64 a Ha) as (? & ? & Ea), (fields64 b Hb) as (? & ? & Eb).
  rewrite <- Z.add_assoc in Ea, Eb. pose proof (nonzero64 a b Ha Hb).
  change (f64_lt_order a b) with (lt_order (signF64UI a) (signF64UI b) a b (Z.land (Z.lor a b) 0x7FFFFFFFFFFFFFFF)).
  rewrite Ea at 2. rewrite Eb at 2. apply (lt_order_val 52 64); auto; lia.
Qed.

Lemma f64_le_order_val a b : inu 64 a -> inu 64 b -> f64_le_order a b = (val64 a <=? val64 b).
Proof.
  intros Ha Hb. destruct (fields64 a Ha) as (? & ? & Ea), (fields64 b Hb) as (? & ? & Eb).
  rewrite <- Z.add_assoc in Ea, Eb. pose proof (nonzero64 a b Ha Hb).
  change (f64_le_order a b) with (le_order (signF64UI a) (signF64UI b) a b (Z.land (Z.lor a b) 0x7FFFFFFFFFFFFFFF)).
  rewrite Ea at 2. rewrite Eb at 2. apply (le_order_val 52 64); auto; lia.
Qed.

Lemma f64_eq_order_val a b :
  inu 64 a -> inu 64 b ->
  (a =? b) || negb (nz (Z.land (Z.lor a b) 0x7FFFFFFFFFFFFFFF)) = (val64 a =? val64 b).
Proof.
  intros Ha Hb. destruct (fields64 a Ha) as (? & ? & Ea), (fields64 b Hb) as (? & ? & Eb).
  rewrite <- Z.add_assoc in Ea, Eb. pose proof (nonzero64 a b Ha Hb).
  rewrite Ea at 1. rewrite Eb at 1. apply (eq_order_val 52 64); auto; lia.
Qed.

(** What a comparison instruction needs: on numbers the relation of the
    values and no flag; on a NaN [false], with the invalid flag always
    (signalling) or for signalling NaNs only (quiet). *)
Definition cmp_spec (isnan issig : Z -> bool) (val : Z -> Z) (rel : Z -> Z -> bool) (quiet : bool)
    (a b fl : Z) : bool * Z :=
  if isnan a || isnan b
  then (false, if quiet && negb (issig a || issig b) then fl else Z.lor fl 16)
  else (rel (val a) (val b), fl).

Lemma quiet_nan_run (c : bool) rm fl :
  (raise_if c softfloat_flag_invalid ;;% fret false) rm fl = Some (false, if negb c then fl else Z.lor fl 16).
Proof. by destruct c. Qed.

Lemma f32_compare_spec a b rm fl :
  inu 32 a -> inu 32 b ->
  f32_eq a b rm fl = Some (cmp_spec nanF32 softfloat_isSigNaNF32UI val32 Z.eqb true a b fl) /\
  f32_lt a b rm fl = Some (cmp_spec nanF32 softfloat_isSigNaNF32UI val32 Z.ltb false a b fl) /\
  f32_le a b rm fl = Some (cmp_spec nanF32 softfloat_isSigNaNF32UI val32 Z.leb false a b fl) /\
  f32_eq_signaling a b rm fl = Some (cmp_spec nanF32 softfloat_isSigNaNF32UI val32 Z.eqb false a b fl) /\
  f32_lt_quiet a b rm fl = Some (cmp_spec nanF32 softfloat_isSigNaNF32UI val32 Z.ltb true a b fl) /\
  f32_le_quiet a b rm fl = Some (cmp_spec nanF32 softfloat_isSigNaNF32UI val32 Z.leb true a b fl).
Proof.
  intros Ha Hb. unfold cmp_spec, f32_eq, f32_lt, f32_le, f32_eq_signaling, f32_lt_quiet, f32_le_quiet.
  rewrite f32_lt_order_val, f32_le_order_val, f32_eq_order_val by done.
  destruct (nanF32 a || nanF32 b); split_and!; try done; apply quiet_nan_run.
Qed.

Lemma f64_compare_spec a b rm fl :
  inu 64 a -> inu 64 b ->
  f64_eq a b rm fl = Some (cmp_spec nanF64 softfloat_isSigNaNF64UI val64 Z.eqb true a b fl) /\
  f64_lt a b rm fl = Some (cmp_spec nanF64 softfloat_isSigNaNF64UI val64 Z.ltb false a b fl) /\
  f64_le a b rm fl = Some (cmp_spec nanF64 softfloat_isSigNaNF64UI val64 Z.leb false a b fl) /\
  f64_eq_signaling a b rm fl = Some (cmp_spec nanF64 softfloat_isSigNaNF64UI val64 Z.eqb false a b fl) /\
  f64_lt_quiet a b rm fl = Some (cmp_spec nanF64 softfloat_isSigNaNF64UI val64 Z.ltb true a b fl) /\
  f64_le_quiet a b rm fl = Some (cmp_spec nanF64 softfloat_isSigNaNF64UI val64 Z.leb true a b fl).
Proof.
  intros Ha Hb. unfold cmp_spec, f64_eq, f64_lt, f64_le, f64_eq_signaling, f64_lt_quiet, f64_le_quiet.
  rewrite f64_lt_order_val, f64_le_order_val, f64_eq_order_val by done.
  destruct (nanF64 a || nanF64 b); split_and!; try done; apply quiet_nan_run.
Qed.

(** ** Conversion to integers *)

(** Two fractions that every rounding mode rounds to the same integer, with
    the same inexactness. *)
Definition same_rounding (n d n' d' : Z) : Prop :=
  n / d = n' / d' /\ nz (n mod d) = nz (n' mod d') /\ (2 * (n mod d) ?= d) = (2 * (n' mod d') ?= d').

Lemma same_rounding_jamq n d c :
  0 <= n -> 0 < d -> 0 < c -> c mod 4 = 0 -> same_rounding (jamq n d) c n (d * c).
Proof. intros. by apply jamq_round. Qed.

Lemma same_rounding_eq n d n' d' :
  0 < d -> 0 < d' -> n * d' = n' * d -> same_rounding n d n' d'.
Proof.
  intros Hd Hd' E. unfold same_rounding.
  assert (forall n d k, 0 < d -> 0 < k -> (n * k) / (d * k) = n / d /\
    nz ((n * k) mod (d * k)) = nz (n mod d) /\ (2 * ((n * k) mod (d * k)) ?= d * k) = (2 * (n mod d) ?= d)) as S.
  { intros m e k He Hk. rewrite Z.div_mul_cancel_r, Z.mul_mod_distr_r, nz_mul by lia. split_and!; try done.
    replace (2 * (m mod e * k)) with (k * (2 * (m mod e))) by ring. by rewrite (Z.mul_comm e k), compare_mul_l. }
  destruct (S n d d' Hd Hd') as (A1 & A2 & A3). destruct (S n' d' d Hd' Hd) as (B1 & B2 & B3).
  rewrite <- A1, <- A2, <- A3, <- B1, <- B2, <- B3, E, (Z.mul_comm d' d). done.
Qed.

Lemma same_rounding_trans n d n' d' n'' d'' :
  same_rounding n d n' d' -> same_rounding n' d' n'' d'' -> same_rounding n d n'' d''.
Proof. unfold same_rounding. intuition congruence. Qed.

(** Below one half only being zero matters. *)
Lemma same_rounding_tiny n d n' d' :
  0 <= 2 * n < d -> 0 <= 2 * n' < d' -> nz n = nz n' -> same_rounding n d n' d'.
Proof.
  intros. unfold same_rounding. rewrite !Z.div_small, !Z.mod_small by lia. split_and!; [done..|].
  rewrite !(proj2 (Z.compare_lt_iff _ _)) by lia. done.
Qed.

Lemma ref_to_int_same lo hi rm sign exact n d n' d' :
  same_rounding n d n' d' -> ref_to_int lo hi rm sign exact n d = ref_to_int lo hi rm sign exact n' d'.
Proof. intros (E1 & E2 & E3). unfold ref_to_int, round_q. by rewrite E1, E2, E3. Qed.

Lemma ref_to_uint_same hi rm sign exact n d n' d' :
  same_rounding n d n' d' -> ref_to_uint hi rm sign exact n d = ref_to_uint hi rm sign exact n' d'.
Proof. intros (E1 & E2 & E3). unfold ref_to_uint, round_q. by rewrite E1, E2, E3. Qed.

Lemma stands_for_same a b n d n' d' :
  stands_for a b n d -> same_rounding n d n' d' -> stands_for a b n' d'.
Proof. intros (H1 & H2 & H3 & H4 & H5) (E1 & E2 & E3). unfold stands_for. rewrite <- E1, <- E2, <- E3. auto. Qed.

(** Values beyond the type. *)
Lemma ref_to_int_large lo hi rm sign exact n d :
  0 <= n -> 0 < d -> lo <= 0 -> hi + 1 < n / d -> - lo < n / d ->
  ref_to_int lo hi rm sign exact n d = (if sign then lo else hi, 16).
Proof.
  intros. pose proof (round_q_bounds rm sign n d). unfold ref_to_int. destruct sign.
  - by rewrite (proj2 (Z.ltb_lt _ _)) by lia.
  - by rewrite (proj2 (Z.ltb_ge _ _)), (proj2 (Z.ltb_lt _ _)) by lia.
Qed.

Lemma ref_to_uint_large hi rm sign exact n d :
  0 <= n -> 0 < d -> hi < n / d -> ref_to_uint hi rm sign exact n d = (hi, 16).
Proof.
  intros. pose proof (round_q_bounds rm sign n d). unfold ref_to_uint.
  by rewrite (proj2 (Z.ltb_lt hi _)), orb_true_r by lia.
Qed.

(** The significand with its hidden bit, and the value it denotes. *)
Lemma sig32_hidden a :
  inu 32 a ->
  let sig := if nz (expF32UI a) then Z.lor (fracF32UI a) 0x00800000 else fracF32UI a in
  0 <= sig < 2 ^ 24 /\ (0 < expF32UI a -> 2 ^ 23 <= sig /\ mag32 a = sig * 2 ^ (expF32UI a - 1)) /\
  (expF32UI a = 0 -> mag32 a = sig /\ sig < 2 ^ 23).
Proof.
  intros Ha. destruct (fields32 a Ha) as (H1 & H2 & _). unfold mag32, nz.
  destruct (Z.eqb_spec (expF32UI a) 0); cbn [negb].
  - split_and!; lia.
  - replace (Z.lor (fracF32UI a) 0x800000) with (fracF32UI a + 1 * 2 ^ 23).
    + split_and!; lia.
    + symmetry. apply (lor_disjoint_add (fracF32UI a) 1 23); unfold inu; lia.
Qed.

Lemma sig64_hidden a :
  inu 64 a ->
  let sig := if nz (expF64UI a) then Z.lor (fracF64UI a) 0x0010000000000000 else fracF64UI a in
  0 <= sig < 2 ^ 53 /\ (0 < expF64UI a -> 2 ^ 52 <= sig /\ mag64 a = sig * 2 ^ (expF64UI a - 1)) /\
  (expF64UI a = 0 -> mag64 a = sig /\ sig < 2 ^ 52).
Proof.
  intros Ha. destruct (fields64 a Ha) as (H1 & H2 & _). unfold mag64, nz.
  destruct (Z.eqb_spec (expF64UI a) 0); cbn [negb].
  - split_and!; lia.
  - replace (Z.lor (fracF64UI a) 0x0010000000000000) with (fracF64UI a + 1 * 2 ^ 52).
    + split_and!; lia.
    + symmetry. apply (lor_disjoint_add (fracF64UI a) 1 52); unfold inu; lia.
Qed.

Lemma jamq_upper n d : 0 <= n -> 0 < d -> 0 <= jamq n d <= n + 1.
Proof.
  intros Hn Hd. pose proof (Z.div_pos n d Hn Hd). pose proof (Z.div_le_upper_bound n d n Hd).
  destruct (jamq_cases n d Hn Hd) as [[-> _]|[-> _]]; nia.
Qed.

Lemma nz_b2z b : nz (b2z b) = b.
Proof. by destruct b. Qed.

(** The 32-bit conversions: a fixed-point value with seven fraction bits. *)
Lemma fixed7_32 a :
  inu 32 a -> expF32UI a < 0xAF ->
  let sig := if nz (expF32UI a) then Z.lor (fracF32UI a) 0x00800000 else fracF32UI a in
  let s := softfloat_shift64RightJam (shl 64 sig 32) (0xAF - expF32UI a) in
  0 <= s < 2 ^ 63 /\ same_rounding s (2 ^ 7) (mag32 a) (2 ^ 149).
Proof.
  intros Ha He. destruct (sig32_hidden a Ha) as (Hs & Hn & Hd). cbv zeta in *. destruct (fields32 a Ha) as (Hx & _).
  set (sig := if nz _ then _ else _) in *. set (e := expF32UI a) in *. rewrite shl_small by lia.
  assert (inu 64 (sig * 2 ^ 32)) as Hin by (unfold inu; lia). rewrite shift64RightJam_jam by (auto; lia).
  pose proof (pow2_pos (0xAF - e) ltac:(lia)) as P. split.
  - pose proof (jamq_upper (sig * 2 ^ 32) (2 ^ (0xAF - e))). unfold jam. fold (jamq (sig * 2 ^ 32) (2 ^ (0xAF - e))). lia.
  - destruct (Z.eq_dec e 0) as [E0|E0].
    + destruct (Hd E0) as [-> ?]. rewrite E0, (jam_large 64) by (auto; lia).
      pose proof (b2z_range (nz (sig * 2 ^ 32))). apply same_rounding_tiny; [lia..|].
      by rewrite nz_b2z, nz_mul.
    + destruct (Hn ltac:(lia)) as [? ->]. eapply same_rounding_trans; [apply (same_rounding_jamq _ (2 ^ (0xAF - e))); lia || done|].
      pose proof (pow2_pos (e - 1) ltac:(lia)). apply same_rounding_eq; [lia..|].
      assert (2 ^ 32 * 2 ^ 149 = 2 ^ (e - 1) * (2 ^ (0xAF - e) * 2 ^ 7)) as E.
      { rewrite <- !Z.pow_add_r by lia. f_equal. lia. }
      rewrite <- !Z.mul_assoc, E. ring.
Qed.

Lemma large32 a k :
  inu 32 a -> 126 <= k < expF32UI a -> 2 ^ (k - 126) <= mag32 a / 2 ^ 149 /\ 0 <= mag32 a.
Proof.
  intros Ha He. destruct (sig32_hidden a Ha) as (Hs & Hn & _). destruct (Hn ltac:(lia)) as [Hb ->].
  pose proof (pow2_pos (expF32UI a - 1) ltac:(lia)). split; [|nia]. apply Z.div_le_lower_bound; [lia|].
  rewrite <- Z.pow_add_r by lia. replace (149 + (k - 126)) with (23 + k) by lia.
  rewrite Z.pow_add_r by lia. pose proof (Z.pow_le_mono_r 2 k (expF32UI a - 1)). pose proof (pow2_pos k). nia.
Qed.

(** The 64-bit conversions: an integer part and a word of fraction. *)
Lemma fixed64_32 a :
  inu 32 a -> expF32UI a <= 0xBE ->
  let sig := if nz (expF32UI a) then Z.lor (fracF32UI a) 0x00800000 else fracF32UI a in
  let e := if nz (0xBE - expF32UI a) then softfloat_shift64ExtraRightJam (shl 64 sig 40) 0 (0xBE - expF32UI a)
           else U64E (shl 64 sig 40) 0 in
  stands_for (u64e_v e) (u64e_extra e) (mag32 a) (2 ^ 149).
Proof.
  intros Ha He. destruct (sig32_hidden a Ha) as (Hs & Hn & Hd). cbv zeta in *. destruct (fields32 a Ha) as (Hx & _).
  set (sig := if nz _ then _ else _) in *. set (e := expF32UI a) in *. rewrite shl_small by lia.
  assert (inu 64 (sig * 2 ^ 40)) as Hin by (unfold inu; lia).
  unfold nz. destruct (Z.eqb_spec (0xBE - e) 0) as [E0|E0]; cbn [negb].
  - destruct (Hn ltac:(lia)) as [? ->]. apply (stands_for_same _ _ (sig * 2 ^ 40) 1).
    + unfold stands_for. cbn [u64e_v u64e_extra]. rewrite Z.div_1_r, Z.mod_1_r. done.
    + replace (e - 1) with 189 by lia. apply same_rounding_eq; lia.
  - destruct (shift64ExtraRightJam_spec (sig * 2 ^ 40) (0xBE - e) Hin ltac:(lia)) as (S1 & S2 & S3 & S4 & S5).
    apply (stands_for_same _ _ (sig * 2 ^ 40) (2 ^ (0xBE - e))); [done|].
    pose proof (pow2_pos (0xBE - e) ltac:(lia)). destruct (Z.eq_dec e 0) as [Ez|Ez].
    + destruct (Hd Ez) as [-> ?]. rewrite Ez in *. apply same_rounding_tiny; [lia..|]. by rewrite nz_mul.
    + destruct (Hn ltac:(lia)) as [? ->]. pose proof (pow2_pos (e - 1) ltac:(lia)).
      apply same_rounding_eq; [lia..|].
      assert (2 ^ 40 * 2 ^ 149 = 2 ^ (e - 1) * 2 ^ (0xBE - e)) as E.
      { rewrite <- !Z.pow_add_r by lia. f_equal. lia. }
      rewrite <- !Z.mul_assoc, E. ring.
Qed.

Lemma f32_to_i32_spec a rm exact rm0 fl :
  finite32 a -> 0 <= rm <= 4 ->
  let R := ref_to_int (- 2 ^ 31) (2 ^ 31 - 1) rm (signF32UI a) exact (mag32 a) (2 ^ 149) in
  f32_to_i32 a rm exact rm0 fl = Some (R.1, Z.lor fl R.2).
Proof.
  intros [Ha Hf] Hrm. destruct (fields32 a Ha) as (Hx & _). unfold f32_to_i32. cbv zeta.
  destruct (Z.ltb_spec 0 (0xAF - expF32UI a)).
  - destruct (fixed7_32 a Ha ltac:(lia)) as [Hr Hs]. rewrite roundPackToI32_ref by auto.
    by rewrite (ref_to_int_same _ _ _ _ _ _ _ _ _ Hs).
  - destruct (sig32_hidden a Ha) as (Hs & Hn & _). cbv zeta in *. destruct (Hn ltac:(lia)) as [? _].
    destruct (large32 a 174 Ha ltac:(lia)). set (sig := if nz _ then _ else _) in *. rewrite shl_small by lia.
    rewrite roundPackToI32_ref by lia. assert (2 ^ 40 <= (sig * 2 ^ 32) / 2 ^ 7) by (apply Z.div_le_lower_bound; lia).
    by rewrite !ref_to_int_large by lia.
Qed.

Lemma f32_to_ui32_spec a rm exact rm0 fl :
  finite32 a -> 0 <= rm <= 4 ->
  let R := ref_to_uint (2 ^ 32 - 1) rm (signF32UI a) exact (mag32 a) (2 ^ 149) in
  f32_to_ui32 a rm exact rm0 fl = Some (R.1, Z.lor fl R.2).
Proof.
  intros [Ha Hf] Hrm. destruct (fields32 a Ha) as (Hx & _). unfold f32_to_ui32. cbv zeta.
  destruct (Z.ltb_spec 0 (0xAF - expF32UI a)).
  - destruct (fixed7_32 a Ha ltac:(lia)) as [Hr Hs]. rewrite roundPackToUI32_ref by auto.
    by rewrite (ref_to_uint_same _ _ _ _ _ _ _ _ Hs).
  - destruct (sig32_hidden a Ha) as (Hs & Hn & _). cbv zeta in *. destruct (Hn ltac:(lia)) as [? _].
    destruct (large32 a 174 Ha ltac:(lia)). set (sig := if nz _ then _ else _) in *. rewrite shl_small by lia.
    rewrite roundPackToUI32_ref by lia. assert (2 ^ 40 <= (sig * 2 ^ 32) / 2 ^ 7) by (apply Z.div_le_lower_bound; lia).
    by rewrite !ref_to_uint_large by lia.
Qed.

Lemma f32_to_i64_spec a rm exact rm0 fl :
  finite32 a -> 0 <= rm <= 4 ->
  let R := ref_to_int (- 2 ^ 63) (2 ^ 63 - 1) rm (signF32UI a) exact (mag32 a) (2 ^ 149) in
  f32_to_i64 a rm exact rm0 fl = Some (R.1, Z.lor fl R.2).
Proof.
  intros [Ha Hf] Hrm. destruct (fields32 a Ha) as (Hx & _). unfold f32_to_i64. cbv zeta.
  destruct (Z.ltb_spec (0xBE - expF32UI a) 0).
  - destruct (large32 a 190 Ha ltac:(lia)).
    rewrite ref_to_int_large by lia. by destruct (signF32UI a).
  - by rewrite (roundPackToI64_ref _ _ _ _ _ _ _ _ _ Hrm (fixed64_32 a Ha ltac:(lia))).
Qed.

Lemma f32_to_ui64_spec a rm exact rm0 fl :
  finite32 a -> 0 <= rm <= 4 ->
  let R := ref_to_uint (2 ^ 64 - 1) rm (signF32UI a) exact (mag32 a) (2 ^ 149) in
  f32_to_ui64 a rm exact rm0 fl = Some (R.1, Z.lor fl R.2).
Proof.
  intros [Ha Hf] Hrm. destruct (fields32 a Ha) as (Hx & _). unfold f32_to_ui64. cbv zeta.
  destruct (Z.ltb_spec (0xBE - expF32UI a) 0).
  - destruct (large32 a 190 Ha ltac:(lia)).
    by rewrite ref_to_uint_large by lia.
  - by rewrite (roundPackToUI64_ref _ _ _ _ _ _ _ _ _ Hrm (fixed64_32 a Ha ltac:(lia))).
Qed.

Lemma fixed7_64 a :
  inu 64 a -> expF64UI a < 0x42C ->
  let sig := if nz (expF64UI a) then Z.lor (fracF64UI a) 0x0010000000000000 else fracF64UI a in
  let s := softfloat_shift64RightJam sig (0x42C - expF64UI a) in
  0 <= s < 2 ^ 63 /\ same_rounding s (2 ^ 7) (mag64 a) (2 ^ 1074).
Proof.
  intros Ha He. destruct (sig64_hidden a Ha) as (Hs & Hn & Hd). cbv zeta in *. destruct (fields64 a Ha) as (Hx & _).
  set (sig := if nz _ then _ else _) in *. set (e := expF64UI a) in *.
  assert (inu 64 sig) as Hin by (unfold inu; lia). rewrite shift64RightJam_jam by (auto; lia).
  pose proof (pow2_pos (0x42C - e) ltac:(lia)) as P. split.
  - pose proof (jamq_upper sig (2 ^ (0x42C - e))). unfold jam. fold (jamq sig (2 ^ (0x42C - e))). lia.
  - destruct (Z.eq_dec e 0) as [E0|E0].
    + destruct (Hd E0) as [-> ?]. rewrite E0, (jam_large 64) by (auto; lia).
      pose proof (b2z_range (nz sig)). apply same_rounding_tiny; [lia..|]. by rewrite nz_b2z.
    + destruct (Hn ltac:(lia)) as [? ->].
      eapply same_rounding_trans; [apply (same_rounding_jamq _ (2 ^ (0x42C - e))); lia || done|].
      pose proof (pow2_pos (e - 1) ltac:(lia)). apply same_rounding_eq; [lia..|].
      assert (2 ^ 1074 = 2 ^ (e - 1) * (2 ^ (0x42C - e) * 2 ^ 7)) as ->.
      { rewrite <- !Z.pow_add_r by lia. f_equal. lia. }
      ring.
Qed.

Lemma large64 a k :
  inu 64 a -> 1022 <= k < expF64UI a -> 2 ^ (k - 1022) <= mag64 a / 2 ^ 1074 /\ 0 <= mag64 a.
Proof.
  intros Ha He. destruct (sig64_hidden a Ha) as (Hs & Hn & _). destruct (Hn ltac:(lia)) as [Hb ->].
  pose proof (pow2_pos (expF64UI a - 1) ltac:(lia)). split; [|nia]. apply Z.div_le_lower_bound; [lia|].
  rewrite <- Z.pow_add_r by lia. replace (1074 + (k - 1022)) with (52 + k) by lia.
  rewrite Z.pow_add_r by lia. pose proof (Z.pow_le_mono_r 2 k (expF64UI a - 1)). pose proof (pow2_pos k). nia.
Qed.

(** Exponents from 0x433 on denote integers. *)
Lemma fixed64_64_int a :
  inu 64 a -> 0x433 <= expF64UI a <= 0x43E ->
  let sig := if nz (expF64UI a) then Z.lor (fracF64UI a) 0x0010000000000000 else fracF64UI a in
  stands_for (shl 64 sig (- (0x433 - expF64UI a))) 0 (mag64 a) (2 ^ 1074).
Proof.
  intros Ha He. destruct (sig64_hidden a Ha) as (Hs & Hn & Hd). cbv zeta in *.
  set (sig := if nz _ then _ else _) in *. set (e := expF64UI a) in *. destruct (Hn ltac:(lia)) as [? ->].
  pose proof (Z.pow_le_mono_r 2 (- (0x433 - e)) 11). pose proof (pow2_pos (- (0x433 - e)) ltac:(lia)).
  rewrite shl_small by (lia || nia). apply (stands_for_same _ _ (sig * 2 ^ (- (0x433 - e))) 1).
  - unfold stands_for, inu. rewrite Z.div_1_r, Z.mod_1_r. split_and!; try done; nia.
  - apply same_rounding_eq; [lia..|].
    replace (2 ^ (e - 1)) with (2 ^ (- (0x433 - e)) * 2 ^ 1074) by (rewrite <- Z.pow_add_r by lia; f_equal; lia). ring.
Qed.

Lemma fixed64_64_frac a :
  inu 64 a -> expF64UI a < 0x433 ->
  let sig := if nz (expF64UI a) then Z.lor (fracF64UI a) 0x0010000000000000 else fracF64UI a in
  let x := softfloat_shift64ExtraRightJam sig 0 (0x433 - expF64UI a) in
  stands_for (u64e_v x) (u64e_extra x) (mag64 a) (2 ^ 1074).
Proof.
  intros Ha He. destruct (sig64_hidden a Ha) as (Hs & Hn & Hd). cbv zeta in *. destruct (fields64 a Ha) as (Hx & _).
  set (sig := if nz _ then _ else _) in *. set (e := expF64UI a) in *.
  assert (inu 64 sig) as Hin by (unfold inu; lia).
  destruct (shift64ExtraRightJam_spec sig (0x433 - e) Hin ltac:(lia)) as (S1 & S2 & S3 & S4 & S5).
  apply (stands_for_same _ _ sig (2 ^ (0x433 - e))); [done|].
  pose proof (pow2_pos (0x433 - e) ltac:(lia)). destruct (Z.eq_dec e 0) as [Ez|Ez].
  - destruct (Hd Ez) as [-> ?]. rewrite Ez in *. apply same_rounding_tiny; lia || done.
  - destruct (Hn ltac:(lia)) as [? ->]. pose proof (pow2_pos (e - 1) ltac:(lia)).
    apply same_rounding_eq; [lia..|].
    replace (2 ^ 1074) with (2 ^ (e - 1) * 2 ^ (0x433 - e)) by (rewrite <- Z.pow_add_r by lia; f_equal; lia). ring.
Qed.

Lemma f64_to_i32_spec a rm exact rm0 fl :
  finite64 a -> 0 <= rm <= 4 ->
  let R := ref_to_int (- 2 ^ 31) (2 ^ 31 - 1) rm (signF64UI a) exact (mag64 a) (2 ^ 1074) in
  f64_to_i32 a rm exact rm0 fl = Some (R.1, Z.lor fl R.2).
Proof.
  intros [Ha Hf] Hrm. destruct (fields64 a Ha) as (Hx & _). unfold f64_to_i32. cbv zeta.
  destruct (Z.ltb_spec 0 (0x42C - expF64UI a)).
  - destruct (fixed7_64 a Ha ltac:(lia)) as [Hr Hs]. rewrite roundPackToI32_ref by auto.
    by rewrite (ref_to_int_same _ _ _ _ _ _ _ _ _ Hs).
  - destruct (sig64_hidden a Ha) as (Hs & Hn & _). cbv zeta in *. destruct (Hn ltac:(lia)) as [? _].
    destruct (large64 a 1067 Ha ltac:(lia)). set (sig := if nz _ then _ else _) in *.
    rewrite roundPackToI32_ref by lia. assert (2 ^ 40 <= sig / 2 ^ 7) by (apply Z.div_le_lower_bound; lia).
    by rewrite !ref_to_int_large by lia.
Qed.

Lemma f64_to_ui32_spec a rm exact rm0 fl :
  finite64 a -> 0 <= rm <= 4 ->
  let R := ref_to_uint (2 ^ 32 - 1) rm (signF64UI a) exact (mag64 a) (2 ^ 1074) in
  f64_to_ui32 a rm exact rm0 fl = Some (R.1, Z.lor fl R.2).
Proof.
  intros [Ha Hf] Hrm. destruct (fields64 a Ha) as (Hx & _). unfold f64_to_ui32. cbv zeta.
  destruct (Z.ltb_spec 0 (0x42C - expF64UI a)).
  - destruct (fixed7_64 a Ha ltac:(lia)) as [Hr Hs]. rewrite roundPackToUI32_ref by auto.
    by rewrite (ref_to_uint_same _ _ _ _ _ _ _ _ Hs).
  - destruct (sig64_hidden a Ha) as (Hs & Hn & _). cbv zeta in *. destruct (Hn ltac:(lia)) as [? _].
    destruct (large64 a 1067 Ha ltac:(lia)). set (sig := if nz _ then _ else _) in *.
    rewrite roundPackToUI32_ref by lia. assert (2 ^ 40 <= sig / 2 ^ 7) by (apply Z.div_le_lower_bound; lia).
    by rewrite !ref_to_uint_large by lia.
Qed.

Lemma f64_to_i64_spec a rm exact rm0 fl :
  finite64 a -> 0 <= rm <= 4 ->
  let R := ref_to_int (- 2 ^ 63) (2 ^ 63 - 1) rm (signF64UI a) exact (mag64 a) (2 ^ 1074) in
  f64_to_i64 a rm exact rm0 fl = Some (R.1, Z.lor fl R.2).
Proof.
  intros [Ha Hf] Hrm. destruct (fields64 a Ha) as (Hx & _). unfold f64_to_i64. cbv zeta.
  destruct (Z.leb_spec (0x433 - expF64UI a) 0); [destruct (Z.ltb_spec 0x43E (expF64UI a))|].
  - destruct (large64 a 1086 Ha ltac:(lia)). rewrite ref_to_int_large by lia. by destruct (signF64UI a).
  - by rewrite (roundPackToI64_ref _ _ _ _ _ _ _ _ _ Hrm (fixed64_64_int a Ha ltac:(lia))).
  - by rewrite (roundPackToI64_ref _ _ _ _ _ _ _ _ _ Hrm (fixed64_64_frac a Ha ltac:(lia))).
Qed.

Lemma f64_to_ui64_spec a rm exact rm0 fl :
  finite64 a -> 0 <= rm <= 4 ->
  let R := ref_to_uint (2 ^ 64 - 1) rm (signF64UI a) exact (mag64 a) (2 ^ 1074) in
  f64_to_ui64 a rm exact rm0 fl = Some (R.1, Z.lor fl R.2).
Proof.
  intros [Ha Hf] Hrm. destruct (fields64 a Ha) as (Hx & _). unfold f64_to_ui64. cbv zeta.
  destruct (Z.leb_spec (0x433 - expF64UI a) 0); [destruct (Z.ltb_spec 0x43E (expF64UI a))|].
  - destruct (large64 a 1086 Ha ltac:(lia)). by rewrite ref_to_uint_large by lia.
  - by rewrite (roundPackToUI64_ref _ _ _ _ _ _ _ _ _ Hrm (fixed64_64_int a Ha ltac:(lia))).
  - by rewrite (roundPackToUI64_ref _ _ _ _ _ _ _ _ _ Hrm (fixed64_64_frac a Ha ltac:(lia))).
Qed.

(** [lia] with the exponents of two computed. *)
Ltac const_max := cbv [Z.max Z.opp Z.compare Pos.compare Pos.compare_cont]; lia.

(** ** Conversion from integers: the correctly rounded value *)

Lemma land_top k a : 0 <= k -> 0 <= a < 2 ^ (k + 1) -> nz (Z.land a (2 ^ k)) = (2 ^ k <=? a).
Proof.
  intros Hk Ha. rewrite Z.pow_add_r in Ha by lia. assert (Z.testbit a k = (2 ^ k <=? a)) as <-.
  { pose proof (Z.testbit_spec' a k Hk) as T. destruct (Z.leb_spec (2 ^ k) a).
    - rewrite <- (Z.div_unique a (2 ^ k) 1 (a - 2 ^ k)) in T by lia. by destruct (Z.testbit a k).
    - rewrite Z.div_small in T by lia. by destruct (Z.testbit a k). }
  assert (Z.land a (2 ^ k) = if Z.testbit a k then 2 ^ k else 0) as ->.
  { apply Z.bits_inj'. intros i Hi. rewrite Z.land_spec. destruct (Z.eq_dec i k) as [->|].
    - rewrite Z.pow2_bits_true by lia. destruct (Z.testbit a k) eqn:E; simpl;
        [by rewrite Z.pow2_bits_true by lia|by rewrite Z.testbit_0_l].
    - rewrite Z.pow2_bits_false, andb_false_r by lia. destruct (Z.testbit a k);
        [by rewrite Z.pow2_bits_false by lia|by rewrite Z.testbit_0_l]. }
  pose proof (pow2_pos k Hk). destruct (Z.testbit a k); [|done]. unfold nz. by rewrite (proj2 (Z.eqb_neq _ 0)) by lia.
Qed.

Lemma nz_pos a : 0 < a -> nz a = true.
Proof. intros. unfold nz. by rewrite (proj2 (Z.eqb_neq a 0)) by lia. Qed.

Lemma ui32_to_f32_spec a rm fl :
  0 <= rm <= 4 -> 0 < a < 2 ^ 32 ->
  let R := ref_round F32 rm false (a * 2 ^ 149) 1 in
  ui32_to_f32 a rm fl = Some (R.1, Z.lor fl R.2).
Proof.
  intros Hrm Ha. unfold ui32_to_f32. rewrite (nz_pos a) by lia. cbn [negb].
  rewrite (land_top 31 a : _ -> _ -> nz (Z.land a 0x80000000) = _) by lia. destruct (Z.leb_spec (2 ^ 31) a).
  - rewrite shortShift32Right1Jam_jam by (unfold inu; lia). change (jam a 1) with (jamq a (2 ^ 1)).
    rewrite roundPackToF32_ref by lia. by rewrite (ref_round_eq F32 rm false _ _ (a * 2 ^ 149) 1) by const_max.
  - rewrite normRoundPackToF32_ref by lia. by rewrite (ref_round_eq F32 rm false _ _ (a * 2 ^ 149) 1) by const_max.
Qed.

Lemma ui64_to_f64_spec a rm fl :
  0 <= rm <= 4 -> 0 < a < 2 ^ 64 ->
  let R := ref_round F64 rm false (a * 2 ^ 1074) 1 in
  ui64_to_f64 a rm fl = Some (R.1, Z.lor fl R.2).
Proof.
  intros Hrm Ha. unfold ui64_to_f64. rewrite (nz_pos a) by lia. cbn [negb].
  rewrite (land_top 63 a : _ -> _ -> nz (Z.land a 0x8000000000000000) = _) by lia. destruct (Z.leb_spec (2 ^ 63) a).
  - rewrite shortShift64RightJam_jam by (unfold inu; lia). change (jam a 1) with (jamq a (2 ^ 1)).
    rewrite roundPackToF64_ref by lia. by rewrite (ref_round_eq F64 rm false _ _ (a * 2 ^ 1074) 1) by const_max.
  - rewrite normRoundPackToF64_ref by lia. by rewrite (ref_round_eq F64 rm false _ _ (a * 2 ^ 1074) 1) by const_max.
Qed.

Lemma i32_to_f32_spec a rm fl :
  0 <= rm <= 4 -> - 2 ^ 31 <= a < 2 ^ 31 -> a <> 0 ->
  let R := ref_round F32 rm (a <? 0) (Z.abs a * 2 ^ 149) 1 in
  i32_to_f32 a rm fl = Some (R.1, Z.lor fl R.2).
Proof.
  intros Hrm Ha H0. unfold i32_to_f32. cbv zeta.
  rewrite (Z.land_ones a 31 : _ -> Z.land a 0x7FFFFFFF = _) by lia. destruct (Z.eq_dec a (- 2 ^ 31)) as [->|Hne].
  - rewrite (ref_round_exact F32 rm _ _ _ 157 (2 ^ 23)) by (cbn; lia). cbn. by rewrite Z.lor_0_r.
  - assert (nz (a mod 2 ^ 31) = true) as ->.
    { unfold nz. apply negb_true_iff, Z.eqb_neq. intros E. apply Z.mod_divide in E as [k ->]; lia. }
    cbn [negb]. assert ((if a <? 0 then - a else a) = Z.abs a) as -> by (destruct (Z.ltb_spec a 0); lia).
    rewrite normRoundPackToF32_ref by lia.
    by rewrite (ref_round_eq F32 rm _ _ _ (Z.abs a * 2 ^ 149) 1) by const_max.
Qed.

Lemma i64_to_f64_spec a rm fl :
  0 <= rm <= 4 -> - 2 ^ 63 <= a < 2 ^ 63 -> a <> 0 ->
  let R := ref_round F64 rm (a <? 0) (Z.abs a * 2 ^ 1074) 1 in
  i64_to_f64 a rm fl = Some (R.1, Z.lor fl R.2).
Proof.
  intros Hrm Ha H0. unfold i64_to_f64. cbv zeta.
  rewrite (Z.land_ones (u64 a) 63 : _ -> Z.land (u64 a) 0x7FFFFFFFFFFFFFFF = _) by lia.
  change (u64 a mod 2 ^ 63) with (wrapu 63 (u64 a)). rewrite wrapu_wrapu by lia. unfold wrapu.
  destruct (Z.eq_dec a (- 2 ^ 63)) as [->|Hne].
  - rewrite (ref_round_exact F64 rm _ _ _ 1085 (2 ^ 52)) by (cbn; lia). cbn. by rewrite Z.lor_0_r.
  - assert (nz (a mod 2 ^ 63) = true) as ->.
    { unfold nz. apply negb_true_iff, Z.eqb_neq. intros E. apply Z.mod_divide in E as [k ->]; lia. }
    cbn [negb]. assert ((if a <? 0 then - a else a) = Z.abs a) as -> by (destruct (Z.ltb_spec a 0); lia).
    rewrite normRoundPackToF64_ref by lia.
    by rewrite (ref_round_eq F64 rm _ _ _ (Z.abs a * 2 ^ 1074) 1) by const_max.
Qed.

Lemma packToF32UI_val sign exp sig :
  0 <= exp -> 0 <= sig -> exp * 2 ^ 23 + sig < 2 ^ 31 ->
  packToF32UI sign exp sig = b2z sign * 2 ^ 31 + exp * 2 ^ 23 + sig.
Proof. intros. apply (pack_gen_val 7 23 32 0xFF); lia. Qed.

Lemma packToF64UI_val sign exp sig :
  0 <= exp -> 0 <= sig -> exp * 2 ^ 52 + sig < 2 ^ 63 ->
  packToF64UI sign exp sig = b2z sign * 2 ^ 63 + exp * 2 ^ 52 + sig.
Proof. intros. apply (pack_gen_val 10 52 64 0x7FF); lia. Qed.

(** The highest bit of a nonzero word, from its leading-zero count. *)
Lemma clz_normalise w a k :
  0 < a < 2 ^ w -> 0 <= w -> 0 <= k -> 0 <= clz w a - (w - 1 - k) ->
  2 ^ k <= a * 2 ^ (clz w a - (w - 1 - k)) < 2 ^ (k + 1).
Proof.
  intros Ha Hw Hk Hc. destruct (clz_bound w a Ha Hw) as [B1 B2].
  set (s := clz w a - (w - 1 - k)) in *. pose proof (pow2_pos s Hc).
  rewrite (pow2_split s k), (pow2_split s (k + 1)) by lia.
  replace (k - s) with (w - 1 - clz w a) by lia. replace (k + 1 - s) with (w - clz w a) by lia. nia.
Qed.

(** The common body of [ui64_to_f32] and [i64_to_f32]. *)
Lemma u64_to_f32_body sign a rm fl :
  0 <= rm <= 4 -> 0 < a < 2 ^ 64 ->
  let R := ref_round F32 rm sign (a * 2 ^ 149) 1 in
  (let shiftCount := softfloat_countLeadingZeros64 a - 40 in
   if 0 <=? shiftCount then fret (packToF32UI sign (0x95 - shiftCount) (shl 32 (u32 a) shiftCount))
   else
     let shiftCount := shiftCount + 7 in
     let sig := if shiftCount <? 0 then u32 (softfloat_shortShift64RightJam a (- shiftCount))
                else shl 32 (u32 a) shiftCount in
     softfloat_roundPackToF32 sign (0x9C - shiftCount) sig) rm fl = Some (R.1, Z.lor fl R.2).
Proof.
  intros Hrm Ha. cbv zeta. rewrite countLeadingZeros64_clz by (unfold inu; lia).
  destruct (clz_bound 64 a Ha ltac:(lia)) as [B1 B2]. destruct (Z.leb_spec 0 (clz 64 a - 40)) as [Hp|Hn].
  - pose proof (clz_normalise 64 a 23 Ha ltac:(lia) ltac:(lia) ltac:(lia)) as N.
    change (64 - 1 - 23) with 40 in N. change (23 + 1) with 24 in N.
    set (s := clz 64 a - 40) in *. pose proof (pow2_pos s Hp).
    assert (a < 2 ^ 24) by nia. rewrite (wrapu_small 32 a) by (unfold inu; lia). rewrite shl_small by lia.
    rewrite (ref_round_exact F32 rm sign _ _ (0x95 - s) (a * 2 ^ s)); cbn [F32 frac_bits exp_max fwidth]; try lia.
    + rewrite packToF32UI_val by lia. unfold fret. cbn [fst snd]. rewrite Z.lor_0_r. f_equal. f_equal. lia.
    + replace (2 ^ 149) with (2 ^ s * 2 ^ (0x95 - s)) by (rewrite <- Z.pow_add_r by lia; f_equal; lia). ring.
  - set (c := clz 64 a) in *. replace (c - 40 + 7) with (c - 33) by lia. destruct (Z.ltb_spec (c - 33) 0).
    + rewrite shortShift64RightJam_jam by (unfold inu; lia).
      pose proof (pow2_pos (- (c - 33)) ltac:(lia)).
      assert (2 ^ (- (c - 33)) * 2 ^ 30 <= a < 2 ^ (- (c - 33)) * 2 ^ 31) as Hb.
      { rewrite <- !Z.pow_add_r by lia. replace (- (c - 33) + 30) with (64 - 1 - c) by lia.
        replace (- (c - 33) + 31) with (64 - c) by lia. done. }
      pose proof (jamq_between a (2 ^ (- (c - 33))) (2 ^ 30) (2 ^ 31) ltac:(lia) ltac:(lia) ltac:(lia) eq_refl Hb) as HJ.
      change (jam a (- (c - 33))) with (jamq a (2 ^ (- (c - 33)))). rewrite wrapu_small by (unfold inu; lia).
      rewrite roundPackToF32_ref by (auto; lia). rewrite (ref_round_eq F32 rm sign _ _ (a * 2 ^ 149) 1); auto.
      * rewrite Z.max_l by lia. pose proof (pow2_pos (0x9C - (c - 33))). nia.
      * rewrite Z.max_r by lia. lia.
      * lia.
      * lia.
      * rewrite Z.max_l, Z.max_r, !Z.mul_1_r by lia. rewrite <- !Z.mul_assoc. f_equal.
        rewrite <- !Z.pow_add_r by lia. f_equal. lia.
    + assert (a < 2 ^ 32) by (pose proof (Z.pow_le_mono_r 2 (64 - c) 31); lia).
      rewrite (wrapu_small 32 a) by (unfold inu; lia).
      pose proof (clz_normalise 64 a 30 Ha ltac:(lia) ltac:(lia) ltac:(unfold c in *; lia)) as N.
      change (64 - 1 - 30) with 33 in N. change (30 + 1) with 31 in N. fold c in N. rewrite shl_small by lia.
      pose proof (roundPackToF32_ref rm sign (0x9C - (c - 33)) (a * 2 ^ (c - 33)) 1 fl Hrm) as HR.
      rewrite jamq_1 in HR. rewrite HR by lia. pose proof (pow2_pos (c - 33) ltac:(lia)).
      rewrite (ref_round_eq F32 rm sign _ _ (a * 2 ^ 149) 1); auto.
      * rewrite Z.max_l by lia. pose proof (pow2_pos (0x9C - (c - 33))). nia.
      * rewrite Z.max_r by lia. lia.
      * lia.
      * lia.
      * rewrite Z.max_l, Z.max_r, !Z.mul_1_r by lia. rewrite Z.mul_1_l, <- !Z.mul_assoc. f_equal.
        rewrite <- !Z.pow_add_r by lia. f_equal. lia.
Qed.

Lemma ui64_to_f32_spec a rm fl :
  0 <= rm <= 4 -> 0 < a < 2 ^ 64 ->
  let R := ref_round F32 rm false (a * 2 ^ 149) 1 in
  ui64_to_f32 a rm fl = Some (R.1, Z.lor fl R.2).
Proof.
  intros Hrm Ha. cbv zeta. rewrite <- (u64_to_f32_body false a rm fl Hrm Ha).
  unfold ui64_to_f32. by rewrite (nz_pos a) by lia.
Qed.

Lemma i64_to_f32_spec a rm fl :
  0 <= rm <= 4 -> - 2 ^ 63 <= a < 2 ^ 63 -> a <> 0 ->
  let R := ref_round F32 rm (a <? 0) (Z.abs a * 2 ^ 149) 1 in
  i64_to_f32 a rm fl = Some (R.1, Z.lor fl R.2).
Proof.
  intros Hrm Ha H0. cbv zeta. rewrite <- (u64_to_f32_body (a <? 0) (Z.abs a) rm fl Hrm ltac:(lia)).
  unfold i64_to_f32. assert ((if a <? 0 then u64 (- u64 a) else u64 a) = Z.abs a) as ->.
  { destruct (Z.ltb_spec a 0).
    - unfold wrapu.
      replace (a mod 2 ^ 64) with (a + 2 ^ 64) by (rewrite <- (Z.mod_add _ 1), Z.mod_small by lia; lia).
      rewrite <- (Z.mod_add _ 1), Z.mod_small by lia. lia.
    - rewrite wrapu_small by (unfold inu; lia). lia. }
  assert (nz a = true) as -> by (unfold nz; by rewrite (proj2 (Z.eqb_neq a 0))). done.
Qed.

(** Every 32-bit integer is a double. *)
Lemma int32_body (sign : bool) m :
  0 < m < 2 ^ 32 ->
  let shiftCount := softfloat_countLeadingZeros32 m + 21 in
  let z := packToF64UI sign (0x432 - shiftCount) (shl 64 m shiftCount) in
  finite64 z /\ signF64UI z = sign /\ mag64 z = m * 2 ^ 1074.
Proof.
  intros Hm. cbv zeta. rewrite countLeadingZeros32_clz by (unfold inu; lia).
  destruct (clz_bound 32 m Hm ltac:(lia)) as [B1 B2].
  pose proof (clz_normalise 32 m 52 Hm ltac:(lia) ltac:(lia) ltac:(lia)) as N.
  replace (clz 32 m - (32 - 1 - 52)) with (clz 32 m + 21) in N by lia. change (52 + 1) with 53 in N.
  set (s := clz 32 m + 21) in *. rewrite shl_small by lia. rewrite packToF64UI_val by lia.
  replace (b2z sign * 2 ^ 63 + (0x432 - s) * 2 ^ 52 + m * 2 ^ s) with
    (b2z sign * 2 ^ 63 + (0x433 - s) * 2 ^ 52 + (m * 2 ^ s - 2 ^ 52)) by lia.
  destruct (fields64_pack sign (0x433 - s) (m * 2 ^ s - 2 ^ 52)) as (P1 & P2 & P3 & P4); [lia..|].
  unfold finite64, mag64. rewrite P2, P3, P4. split_and!; [done|lia|done|].
  rewrite (proj2 (Z.eqb_neq _ 0)) by lia. replace (m * 2 ^ s - 2 ^ 52 + 2 ^ 52) with (m * 2 ^ s) by lia.
  rewrite <- Z.mul_assoc, <- Z.pow_add_r by lia. f_equal. f_equal. lia.
Qed.

Lemma ui32_to_f64_spec a rm fl :
  inu 32 a ->
  exists z, ui32_to_f64 a rm fl = Some (z, fl) /\ finite64 z /\ val64 z = a * 2 ^ 1074.
Proof.
  intros Ha. unfold ui32_to_f64, fret. unfold inu in Ha. destruct (Z.eq_dec a 0) as [->|].
  - exists 0. done.
  - rewrite (nz_pos a) by lia. cbn [negb]. destruct (int32_body false a ltac:(lia)) as (F & S & M).
    eexists. split; [done|]. split; [done|]. unfold val64. by rewrite S, M.
Qed.

Lemma i32_to_f64_spec a rm fl :
  - 2 ^ 31 < a < 2 ^ 31 ->
  exists z, i32_to_f64 a rm fl = Some (z, fl) /\ finite64 z /\ val64 z = a * 2 ^ 1074.
Proof.
  intros Ha. unfold i32_to_f64, fret. destruct (Z.eq_dec a 0) as [->|Hne].
  - exists 0. done.
  - assert (nz a = true) as -> by (unfold nz; by rewrite (proj2 (Z.eqb_neq a 0))). cbn [negb].
    rewrite (proj2 (Z.eqb_neq a (- 2 ^ 31))), andb_false_r by lia.
    assert (u32 (if a <? 0 then - a else a) = Z.abs a) as ->.
    { destruct (Z.ltb_spec a 0); rewrite wrapu_small by (unfold inu; lia); lia. }
    destruct (int32_body (a <? 0) (Z.abs a) ltac:(lia)) as (F & S & M).
    eexists. split; [done|]. split; [done|]. unfold val64. rewrite S, M. destruct (Z.ltb_spec a 0); lia.
Qed.

(** ** Between the formats *)

Lemma normSubnormalF32_val sig :
  0 < sig < 2 ^ 23 ->
  let z := softfloat_normSubnormalF32Sig sig in
  exists k, 1 <= k <= 23 /\ es_exp z = 1 - k /\ es_sig z = sig * 2 ^ k /\ 2 ^ 23 <= sig * 2 ^ k < 2 ^ 24.
Proof.
  intros Hs. unfold softfloat_normSubnormalF32Sig. cbv zeta. cbn [es_exp es_sig].
  rewrite countLeadingZeros32_clz by (unfold inu; lia). destruct (clz_bound 32 sig ltac:(lia) ltac:(lia)) as [B1 B2].
  assert (9 <= clz 32 sig).
  { destruct (Z.lt_ge_cases (clz 32 sig) 9); [|done]. pose proof (Z.pow_le_mono_r 2 23 (32 - 1 - clz 32 sig)). lia. }
  pose proof (clz_normalise 32 sig 23 ltac:(lia) ltac:(lia) ltac:(lia) ltac:(lia)) as N.
  change (32 - 1 - 23) with 8 in N. change (23 + 1) with 24 in N.
  exists (clz 32 sig - 8). rewrite shl_small by lia. split_and!; lia.
Qed.

Lemma normSubnormalF64_val sig :
  0 < sig < 2 ^ 52 ->
  let z := softfloat_normSubnormalF64Sig sig in
  exists k, 1 <= k <= 52 /\ es_exp z = 1 - k /\ es_sig z = sig * 2 ^ k /\ 2 ^ 52 <= sig * 2 ^ k < 2 ^ 53.
Proof.
  intros Hs. unfold softfloat_normSubnormalF64Sig. cbv zeta. cbn [es_exp es_sig].
  rewrite countLeadingZeros64_clz by (unfold inu; lia). destruct (clz_bound 64 sig ltac:(lia) ltac:(lia)) as [B1 B2].
  assert (12 <= clz 64 sig).
  { destruct (Z.lt_ge_cases (clz 64 sig) 12); [|done]. pose proof (Z.pow_le_mono_r 2 52 (64 - 1 - clz 64 sig)). lia. }
  pose proof (clz_normalise 64 sig 52 ltac:(lia) ltac:(lia) ltac:(lia) ltac:(lia)) as N.
  change (64 - 1 - 52) with 11 in N. change (52 + 1) with 53 in N.
  exists (clz 64 sig - 11). rewrite shl_small by lia. split_and!; lia.
Qed.

(** Every finite single is a double of the same value. *)
Lemma f32_to_f64_spec a rm fl :
  finite32 a ->
  exists z, f32_to_f64 a rm fl = Some (z, fl) /\ finite64 z /\ signF64UI z = signF32UI a /\
    mag64 z = mag32 a * 2 ^ 925.
Proof.
  intros [Ha Hf]. destruct (fields32 a Ha) as (He & Hfr & _). unfold f32_to_f64, mag32.
  rewrite (proj2 (Z.eqb_neq _ _) Hf). set (s := signF32UI a). set (e := expF32UI a) in *. set (f := fracF32UI a) in *.
  assert (forall k m, 0 <= m < 2 ^ 23 -> 1 <= k <= 0x7FE ->
    finite64 (b2z s * 2 ^ 63 + k * 2 ^ 52 + m * 2 ^ 29) /\ signF64UI (b2z s * 2 ^ 63 + k * 2 ^ 52 + m * 2 ^ 29) = s /\
    mag64 (b2z s * 2 ^ 63 + k * 2 ^ 52 + m * 2 ^ 29) = (m + 2 ^ 23) * 2 ^ (k + 28)) as Hnorm.
  { intros k m Hm Hk. destruct (fields64_pack s k (m * 2 ^ 29)) as (P1 & P2 & P3 & P4); [lia..|].
    unfold finite64, mag64. rewrite P2, P3, P4, (proj2 (Z.eqb_neq k 0)) by lia. split_and!; [done|lia|done|].
    replace (k + 28) with (29 + (k - 1)) by lia. rewrite Z.pow_add_r by lia. change (2 ^ 52) with (2 ^ 23 * 2 ^ 29). ring. }
  unfold nz at 1. destruct (Z.eqb_spec e 0) as [E0|E0]; cbn [negb]; [unfold nz; destruct (Z.eqb_spec f 0) as [Ef|Ef]; cbn [negb]|].
  - exists (packToF64UI s 0 0). rewrite Ef, packToF64UI_val by lia.
    destruct (fields64_pack s 0 0) as (P1 & P2 & P3 & P4); [lia..|]. rewrite <- !Z.add_assoc in *.
    unfold finite64, mag64. rewrite P2, P3, P4. by split_and!.
  - destruct (normSubnormalF32_val f ltac:(lia)) as (k & Hk & -> & -> & Hb). eexists; split; [done|].
    rewrite shl_small, packToF64UI_val by lia.
    replace (b2z s * 2 ^ 63 + (1 - k - 1 + 0x380) * 2 ^ 52 + f * 2 ^ k * 2 ^ 29) with
      (b2z s * 2 ^ 63 + (0x381 - k) * 2 ^ 52 + (f * 2 ^ k - 2 ^ 23) * 2 ^ 29) by lia.
    destruct (Hnorm (0x381 - k) (f * 2 ^ k - 2 ^ 23)) as (Q1 & Q2 & ->); [lia..|]. split_and!; [done..|].
    replace 925 with (k + (0x381 - k + 28)) by lia. rewrite (Z.pow_add_r 2 k) by lia. ring.
  - eexists; split; [done|]. rewrite shl_small, packToF64UI_val by lia.
    destruct (Hnorm (e + 0x380) f) as (Q1 & Q2 & ->); [lia..|]. split_and!; [done..|].
    replace (e + 0x380 + 28) with (e - 1 + 925) by lia. rewrite Z.pow_add_r by lia. ring.
Qed.

Lemma shortShift_frac f :
  0 <= f < 2 ^ 52 ->
  let s := u32 (softfloat_shortShift64RightJam f 22) in
  0 <= s < 2 ^ 30 /\ (s = 0 <-> f = 0) /\ Z.lor s 0x40000000 = jamq (f + 2 ^ 52) (2 ^ 22).
Proof.
  intros Hf. cbv zeta. rewrite shortShift64RightJam_jam by (unfold inu; lia).
  assert ((f + 2 ^ 52) / 2 ^ 22 = f / 2 ^ 22 + 2 ^ 30 /\ (f + 2 ^ 52) mod 2 ^ 22 = f mod 2 ^ 22) as [D M].
  { replace (f + 2 ^ 52) with (2 ^ 30 * 2 ^ 22 + f) by lia. rewrite Z.div_add_l, mod_mul_shift by lia. lia. }
  pose proof (Z.mod_pos_bound f (2 ^ 22)). pose proof (Z.div_mod f (2 ^ 22) ltac:(lia)).
  assert (0 <= f / 2 ^ 22 < 2 ^ 30) as Hd by (split; [apply Z.div_pos|apply Z.div_lt_upper_bound]; lia).
  assert (inu 30 (Z.lor (f / 2 ^ 22) (b2z (nz (f mod 2 ^ 22))))) as Hr.
  { apply lor_range; [lia|done|by apply b2z_inu]. }
  unfold jam. rewrite wrapu_small by (unfold inu in *; lia). split; [exact Hr|]. split.
  - rewrite Z.lor_eq_0_iff. unfold nz. destruct (Z.eqb_spec (f mod 2 ^ 22) 0); simpl; lia.
  - unfold jamq. rewrite D, M, <- (Z.mul_1_l (2 ^ 30)), Z.add_comm, lor_join by (try apply b2z_inu; unfold inu; lia).
    rewrite (lor_disjoint_add _ 1 30 : _ -> _ -> _ -> Z.lor _ 0x40000000 = _) by (auto; lia). lia.
Qed.

Lemma f64_to_f32_spec a rm fl :
  finite64 a -> 0 <= rm <= 4 -> mag64 a <> 0 ->
  let R := ref_round F32 rm (signF64UI a) (mag64 a) (2 ^ 925) in
  f64_to_f32 a rm fl = Some (R.1, Z.lor fl R.2).
Proof.
  intros [Ha Hf] Hrm H0. destruct (fields64 a Ha) as (He & Hfr & _). unfold f64_to_f32. cbv zeta.
  rewrite (proj2 (Z.eqb_neq _ _) Hf). destruct (shortShift_frac _ Hfr) as (Hs & Hz & Hj). cbv zeta in *.
  rewrite Hj. set (s := u32 _) in *. set (e := expF64UI a) in *. set (f := fracF64UI a) in *.
  assert (mag64 a = if e =? 0 then f else (f + 2 ^ 52) * 2 ^ (e - 1)) as Em by done.
  assert (nz (Z.lor e s) = true) as ->.
  { unfold nz. apply negb_true_iff, Z.eqb_neq. rewrite Z.lor_eq_0_iff. intros [E1 E2]. rewrite E1 in Em. simpl in Em. lia. }
  cbn [negb]. rewrite roundPackToF32_ref by lia. destruct (Z.eqb_spec e 0) as [E0|E0].
  - rewrite E0, Em. change (Z.max (0 - 0x381) 0) with 0. change (Z.max (- (0 - 0x381)) 0) with 897.
    rewrite (ref_round_tiny F32 rm _ _ _ f (2 ^ 925)); [done|by cbn|lia|lia].
  - rewrite Em. pose proof (pow2_pos (e - 1) ltac:(lia)).
    pose proof (pow2_pos (Z.max (e - 0x381) 0) ltac:(lia)). pose proof (pow2_pos (Z.max (- (e - 0x381)) 0) ltac:(lia)).
    rewrite (ref_round_eq F32 rm _ _ _ ((f + 2 ^ 52) * 2 ^ (e - 1)) (2 ^ 925)); [done|nia..|].
    assert (2 ^ Z.max (e - 0x381) 0 * 2 ^ 925 = 2 ^ (e - 1) * (2 ^ 22 * 2 ^ 7 * 2 ^ Z.max (- (e - 0x381)) 0)) as E.
    { rewrite <- !Z.pow_add_r by lia. f_equal. lia. }
    rewrite <- Z.mul_assoc, E. ring.
Qed.
