(* ===== verification/SFArith.v ===== *)
(** * SoftFloat: arithmetic

    Addition, subtraction, multiplication, division, square root and fused
    multiply-add for both formats (s_addMags*.c, s_subMags*.c, f*_mul.c,
    f*_div.c, f*_sqrt.c, s_mulAdd*.c).  The jumps to the labels at the end of
    each C function are the local definitions of the same names.  The theorems
    show that the results are the exact results, correctly rounded. *)

From Stdlib Require Import ZArith Lia Bool List.
From stdpp Require Import base list.
From S2P Require Import Prelude SFPrim SFRound SFConv.

(** ** Addition and subtraction of magnitudes, f32 *)
Definition softfloat_addMagsF32 (uiA uiB : Z) (signZ : bool) : FP Z :=
  let expA := expF32UI uiA in
  let sigA := fracF32UI uiA in
  let expB := expF32UI uiB in
  let sigB := fracF32UI uiB in
  let expDiff := expA - expB in
  let sigA := shl 32 sigA 6 in
  let sigB := shl 32 sigB 6 in
  let propagateNaN := softfloat_propagateNaNF32UI uiA uiB in
  let unequal expZ sigA sigB :=
    let sigZ := u32 (0x20000000 + sigA + sigB) in
    if sigZ <? 0x40000000 then softfloat_roundPackToF32 signZ (expZ - 1) (shl 32 sigZ 1)
    else softfloat_roundPackToF32 signZ expZ sigZ in
  if negb (nz expDiff) then
    if expA =? 0xFF then
      if nz (Z.lor sigA sigB) then propagateNaN else fret uiA
    else if negb (nz expA) then
      fret (packToF32UI signZ 0 (Z.land (u32 (uiA + uiB)) 0x7FFFFFFF))
    else softfloat_roundPackToF32 signZ expA (u32 (0x40000000 + sigA + sigB))
  else if expDiff <? 0 then
    if expB =? 0xFF then
      if nz sigB then propagateNaN else fret (packToF32UI signZ 0xFF 0)
    else
      let sigA := u32 (sigA + (if nz expA then 0x20000000 else sigA)) in
      unequal expB (softfloat_shift32RightJam sigA (- expDiff)) sigB
  else
    if expA =? 0xFF then
      if nz sigA then propagateNaN else fret uiA
    else
      let sigB := u32 (sigB + (if nz expB then 0x20000000 else sigB)) in
      unequal expA sigA (softfloat_shift32RightJam sigB expDiff).

Definition softfloat_subMagsF32 (uiA uiB : Z) (signZ : bool) : FP Z :=
  let expA := expF32UI uiA in
  let sigA := fracF32UI uiA in
  let expB := expF32UI uiB in
  let sigB := fracF32UI uiB in
  let expDiff := expA - expB in
  let sigA := shl 32 sigA 7 in
  let sigB := shl 32 sigB 7 in
  let propagateNaN := softfloat_propagateNaNF32UI uiA uiB in
  let bBigger expB sigA sigB :=
    softfloat_normRoundPackToF32 (negb signZ) (expB - 1) (u32 (sigB - sigA)) in
  let aBigger expA sigA sigB :=
    softfloat_normRoundPackToF32 signZ (expA - 1) (u32 (sigA - sigB)) in
  if 0 <? expDiff then
    if expA =? 0xFF then
      if nz sigA then propagateNaN else fret uiA
    else
      let sigB := u32 (sigB + (if nz expB then 0x40000000 else sigB)) in
      let sigB := softfloat_shift32RightJam sigB expDiff in
      aBigger expA (Z.lor sigA 0x40000000) sigB
  else if expDiff <? 0 then
    if expB =? 0xFF then
      if nz sigB then propagateNaN else fret (packToF32UI (negb signZ) 0xFF 0)
    else
      let sigA := u32 (sigA + (if nz expA then 0x40000000 else sigA)) in
      let sigA := softfloat_shift32RightJam sigA (- expDiff) in
      bBigger expB sigA (Z.lor sigB 0x40000000)
  else
    if expA =? 0xFF then
      if nz (Z.lor sigA sigB) then propagateNaN
      else softfloat_raiseFlags softfloat_flag_invalid ;;% fret defaultNaNF32UI
    else
      let '(expA, expB) := if negb (nz expA) then (1, 1) else (expA, expB) in
      if sigB <? sigA then aBigger expA sigA sigB
      else if sigA <? sigB then bBigger expB sigA sigB
      else
        let% rm := softfloat_roundingMode in
        fret (packToF32UI (rm =? softfloat_round_min) 0 0).

Definition f32_add (uiA uiB : Z) : FP Z :=
  let signA := signF32UI uiA in
  let signB := signF32UI uiB in
  (if eqb signA signB then softfloat_addMagsF32 else softfloat_subMagsF32) uiA uiB signA.

Definition f32_sub (uiA uiB : Z) : FP Z :=
  let signA := signF32UI uiA in
  let signB := signF32UI uiB in
  (if eqb signA signB then softfloat_subMagsF32 else softfloat_addMagsF32)
    uiA (Z.lxor uiB 0x80000000) signA.

(** ** Addition and subtraction of magnitudes, f64 *)
Definition softfloat_addMagsF64 (uiA uiB : Z) (signZ : bool) : FP Z :=
  let expA := expF64UI uiA in
  let sigA := fracF64UI uiA in
  let expB := expF64UI uiB in
  let sigB := fracF64UI uiB in
  let expDiff := expA - expB in
  let sigA := shl 64 sigA 9 in
  let sigB := shl 64 sigB 9 in
  let propagateNaN := softfloat_propagateNaNF64UI uiA uiB in
  let unequal expZ sigA sigB :=
    let sigZ := u64 (0x2000000000000000 + sigA + sigB) in
    if sigZ <? 0x4000000000000000 then softfloat_roundPackToF64 signZ (expZ - 1) (shl 64 sigZ 1)
    else softfloat_roundPackToF64 signZ expZ sigZ in
  if negb (nz expDiff) then
    if expA =? 0x7FF then
      if nz (Z.lor sigA sigB) then propagateNaN else fret uiA
    else if negb (nz expA) then
      fret (packToF64UI signZ 0 (Z.land (u64 (uiA + uiB)) 0x7FFFFFFFFFFFFFFF))
    else softfloat_roundPackToF64 signZ expA (u64 (0x4000000000000000 + sigA + sigB))
  else if expDiff <? 0 then
    if expB =? 0x7FF then
      if nz sigB then propagateNaN else fret (packToF64UI signZ 0x7FF 0)
    else
      let sigA := u64 (sigA + (if nz expA then 0x2000000000000000 else sigA)) in
      unequal expB (softfloat_shift64RightJam sigA (- expDiff)) sigB
  else
    if expA =? 0x7FF then
      if nz sigA then propagateNaN else fret uiA
    else
      let sigB := u64 (sigB + (if nz expB then 0x2000000000000000 else sigB)) in
      unequal expA sigA (softfloat_shift64RightJam sigB expDiff).

Definition softfloat_subMagsF64 (uiA uiB : Z) (signZ : bool) : FP Z :=
  let expA := expF64UI uiA in
  let sigA := fracF64UI uiA in
  let expB := expF64UI uiB in
  let sigB := fracF64UI uiB in
  let expDiff := expA - expB in
  let sigA := shl 64 sigA 10 in
  let sigB := shl 64 sigB 10 in
  let propagateNaN := softfloat_propagateNaNF64UI uiA uiB in
  let bBigger expB sigA sigB :=
    softfloat_normRoundPackToF64 (negb signZ) (expB - 1) (u64 (sigB - sigA)) in
  let aBigger expA sigA sigB :=
    softfloat_normRoundPackToF64 signZ (expA - 1) (u64 (sigA - sigB)) in
  if 0 <? expDiff then
    if expA =? 0x7FF then
      if nz sigA then propagateNaN else fret uiA
    else
      let sigB := u64 (sigB + (if nz expB then 0x4000000000000000 else sigB)) in
      let sigB := softfloat_shift64RightJam sigB expDiff in
      aBigger expA (Z.lor sigA 0x4000000000000000) sigB
  else if expDiff <? 0 then
    if expB =? 0x7FF then
      if nz sigB then propagateNaN else fret (packToF64UI (negb signZ) 0x7FF 0)
    else
      let sigA := u64 (sigA + (if nz expA then 0x4000000000000000 else sigA)) in
      let sigA := softfloat_shift64RightJam sigA (- expDiff) in
      bBigger expB sigA (Z.lor sigB 0x4000000000000000)
  else
    if expA =? 0x7FF then
      if nz (Z.lor sigA sigB) then propagateNaN
      else softfloat_raiseFlags softfloat_flag_invalid ;;% fret defaultNaNF64UI
    else
      let '(expA, expB) := if negb (nz expA) then (1, 1) else (expA, expB) in
      if sigB <? sigA then aBigger expA sigA sigB
      else if sigA <? sigB then bBigger expB sigA sigB
      else
        let% rm := softfloat_roundingMode in
        fret (packToF64UI (rm =? softfloat_round_min) 0 0).

Definition f64_add (uiA uiB : Z) : FP Z :=
  let signA := signF64UI uiA in
  let signB := signF64UI uiB in
  (if eqb signA signB then softfloat_addMagsF64 else softfloat_subMagsF64) uiA uiB signA.

Definition f64_sub (uiA uiB : Z) : FP Z :=
  let signA := signF64UI uiA in
  let signB := signF64UI uiB in
  (if eqb signA signB then softfloat_subMagsF64 else softfloat_addMagsF64) uiA uiB signA.

(** ** Multiplication *)
Definition f32_mul (uiA uiB : Z) : FP Z :=
  let signA := signF32UI uiA in
  let expA := expF32UI uiA in
  let sigA := fracF32UI uiA in
  let signB := signF32UI uiB in
  let expB := expF32UI uiB in
  let sigB := fracF32UI uiB in
  let signZ := xorb signA signB in
  let propagateNaN := softfloat_propagateNaNF32UI uiA uiB in
  let infArg magBits :=
    if negb (nz magBits) then softfloat_raiseFlags softfloat_flag_invalid ;;% fret defaultNaNF32UI
    else fret (packToF32UI signZ 0xFF 0) in
  let zero := fret (packToF32UI signZ 0 0) in
  if expA =? 0xFF then
    if nz sigA || ((expB =? 0xFF) && nz sigB) then propagateNaN else infArg (Z.lor expB sigB)
  else if expB =? 0xFF then
    if nz sigB then propagateNaN else infArg (Z.lor expA sigA)
  else if negb (nz expA) && negb (nz sigA) then zero
  else
    let a := if negb (nz expA) then softfloat_normSubnormalF32Sig sigA else ExpSig expA sigA in
    if negb (nz expB) && negb (nz sigB) then zero
    else
      let b := if negb (nz expB) then softfloat_normSubnormalF32Sig sigB else ExpSig expB sigB in
      let expZ := es_exp a + es_exp b - 0x7F in
      let sigA := shl 32 (Z.lor (es_sig a) 0x00800000) 7 in
      let sigB := shl 32 (Z.lor (es_sig b) 0x00800000) 8 in
      let sigZ := u32 (softfloat_shortShift64RightJam (u64 (sigA * sigB)) 32) in
      if sigZ <? 0x40000000 then softfloat_roundPackToF32 signZ (expZ - 1) (shl 32 sigZ 1)
      else softfloat_roundPackToF32 signZ expZ sigZ.

Definition f64_mul (uiA uiB : Z) : FP Z :=
  let signA := signF64UI uiA in
  let expA := expF64UI uiA in
  let sigA := fracF64UI uiA in
  let signB := signF64UI uiB in
  let expB := expF64UI uiB in
  let sigB := fracF64UI uiB in
  let signZ := xorb signA signB in
  let propagateNaN := softfloat_propagateNaNF64UI uiA uiB in
  let infArg magBits :=
    if negb (nz magBits) then softfloat_raiseFlags softfloat_flag_invalid ;;% fret defaultNaNF64UI
    else fret (packToF64UI signZ 0x7FF 0) in
  let zero := fret (packToF64UI signZ 0 0) in
  if expA =? 0x7FF then
    if nz sigA || ((expB =? 0x7FF) && nz sigB) then propagateNaN else infArg (Z.lor expB sigB)
  else if expB =? 0x7FF then
    if nz sigB then propagateNaN else infArg (Z.lor expA sigA)
  else if negb (nz expA) && negb (nz sigA) then zero
  else
    let a := if negb (nz expA) then softfloat_normSubnormalF64Sig sigA else ExpSig expA sigA in
    if negb (nz expB) && negb (nz sigB) then zero
    else
      let b := if negb (nz expB) then softfloat_normSubnormalF64Sig sigB else ExpSig expB sigB in
      let expZ := es_exp a + es_exp b - 0x3FF in
      let sigA := shl 64 (Z.lor (es_sig a) 0x0010000000000000) 10 in
      let sigB := shl 64 (Z.lor (es_sig b) 0x0010000000000000) 11 in
      let sigZ128 := softfloat_mul64To128 sigA sigB in
      let sigZ := Z.lor (u128_v64 sigZ128) (b2z (nz (u128_v0 sigZ128))) in
      if sigZ <? 0x4000000000000000 then softfloat_roundPackToF64 signZ (expZ - 1) (shl 64 sigZ 1)
      else softfloat_roundPackToF64 signZ expZ sigZ.

(** ** Division *)
Definition f32_div (uiA uiB : Z) : FP Z :=
  let signA := signF32UI uiA in
  let expA := expF32UI uiA in
  let sigA := fracF32UI uiA in
  let signB := signF32UI uiB in
  let expB := expF32UI uiB in
  let sigB := fracF32UI uiB in
  let signZ := xorb signA signB in
  let propagateNaN := softfloat_propagateNaNF32UI uiA uiB in
  let invalid := softfloat_raiseFlags softfloat_flag_invalid ;;% fret defaultNaNF32UI in
  let infinity := fret (packToF32UI signZ 0xFF 0) in
  let zero := fret (packToF32UI signZ 0 0) in
  if expA =? 0xFF then
    if nz sigA then propagateNaN
    else if expB =? 0xFF then if nz sigB then propagateNaN else invalid
    else infinity
  else if expB =? 0xFF then if nz sigB then propagateNaN else zero
  else if negb (nz expB) && negb (nz sigB) then
    if negb (nz (Z.lor expA sigA)) then invalid
    else softfloat_raiseFlags softfloat_flag_infinity ;;% infinity
  else
    let b := if negb (nz expB) then softfloat_normSubnormalF32Sig sigB else ExpSig expB sigB in
    if negb (nz expA) && negb (nz sigA) then zero
    else
      let a := if negb (nz expA) then softfloat_normSubnormalF32Sig sigA else ExpSig expA sigA in
      let expZ := es_exp a - es_exp b + 0x7D in
      let sigA := shl 32 (Z.lor (es_sig a) 0x00800000) 7 in
      let sigB := shl 32 (Z.lor (es_sig b) 0x00800000) 8 in
      let '(expZ, sigA) :=
        if sigB <=? u32 (sigA + sigA) then (expZ + 1, Z.shiftr sigA 1) else (expZ, sigA) in
      let sigZ := u32 (shl 64 sigA 32 / sigB) in
      let sigZ :=
        if negb (nz (Z.land sigZ 0x3F))
        then Z.lor sigZ (b2z (negb (u64 (sigB * sigZ) =? shl 64 sigA 32))) else sigZ in
      softfloat_roundPackToF32 signZ expZ sigZ.

(** The correction loop of the 64-bit division, with its fuel. *)
Fixpoint div64_loop (fuel : nat) (sigB sigZ : Z) (rem : uint128) : option (Z * uint128) :=
  if 0x8000000000000000 <=? u128_v64 rem then
    match fuel with
    | O => None
    | Datatypes.S fuel' =>
        div64_loop fuel' sigB (u64 (sigZ - 1))
          (softfloat_add128 (u128_v64 rem) (u128_v0 rem) 0 sigB)
    end
  else Some (sigZ, rem).

Definition f64_div (uiA uiB : Z) : FP Z :=
  let signA := signF64UI uiA in
  let expA := expF64UI uiA in
  let sigA := fracF64UI uiA in
  let signB := signF64UI uiB in
  let expB := expF64UI uiB in
  let sigB := fracF64UI uiB in
  let signZ := xorb signA signB in
  let propagateNaN := softfloat_propagateNaNF64UI uiA uiB in
  let invalid := softfloat_raiseFlags softfloat_flag_invalid ;;% fret defaultNaNF64UI in
  let infinity := fret (packToF64UI signZ 0x7FF 0) in
  let zero := fret (packToF64UI signZ 0 0) in
  if expA =? 0x7FF then
    if nz sigA then propagateNaN
    else if expB =? 0x7FF then if nz sigB then propagateNaN else invalid
    else infinity
  else if expB =? 0x7FF then if nz sigB then propagateNaN else zero
  else if negb (nz expB) && negb (nz sigB) then
    if negb (nz (Z.lor expA sigA)) then invalid
    else softfloat_raiseFlags softfloat_flag_infinity ;;% infinity
  else
    let b := if negb (nz expB) then softfloat_normSubnormalF64Sig sigB else ExpSig expB sigB in
    if negb (nz expA) && negb (nz sigA) then zero
    else
      let a := if negb (nz expA) then softfloat_normSubnormalF64Sig sigA else ExpSig expA sigA in
      let expZ := es_exp a - es_exp b + 0x3FD in
      let sigA := shl 64 (Z.lor (es_sig a) 0x0010000000000000) 10 in
      let sigB := shl 64 (Z.lor (es_sig b) 0x0010000000000000) 11 in
      let '(expZ, sigA) :=
        if sigB <=? u64 (sigA + sigA) then (expZ + 1, Z.shiftr sigA 1) else (expZ, sigA) in
      let% sigZ := flift (softfloat_estimateDiv128To64 sigA 0 sigB) in
      let% sigZ :=
        if Z.land sigZ 0x1FF <=? 2 then
          let term := softfloat_mul64To128 sigB sigZ in
          let rem := softfloat_sub128 sigA 0 (u128_v64 term) (u128_v0 term) in
          let% (sigZ, rem) := flift (div64_loop 3 sigB sigZ rem) in
          fret (Z.lor sigZ (b2z (nz (u128_v0 rem))))
        else fret sigZ in
      softfloat_roundPackToF64 signZ expZ sigZ.

(** ** Square root *)

(** [while (2^63 <= rem) { --sigZ; rem += 2*sigZ | 1; }] *)
Fixpoint sqrt32_loop (fuel : nat) (sigZ rem : Z) : option (Z * Z) :=
  if 0x8000000000000000 <=? rem then
    match fuel with
    | O => None
    | Datatypes.S fuel' =>
        let sigZ := u32 (sigZ - 1) in
        sqrt32_loop fuel' sigZ (u64 (rem + Z.lor (shl 64 sigZ 1) 1))
    end
  else Some (sigZ, rem).

Definition f32_sqrt (uiA : Z) : FP Z :=
  let signA := signF32UI uiA in
  let expA := expF32UI uiA in
  let sigA := fracF32UI uiA in
  let invalid := softfloat_raiseFlags softfloat_flag_invalid ;;% fret defaultNaNF32UI in
  if expA =? 0xFF then
    if nz sigA then softfloat_propagateNaNF32UI uiA 0
    else if negb signA then fret uiA else invalid
  else if signA then
    if negb (nz (Z.lor expA sigA)) then fret uiA else invalid
  else if negb (nz expA) && negb (nz sigA) then fret uiA
  else
    let a := if negb (nz expA) then softfloat_normSubnormalF32Sig sigA else ExpSig expA sigA in
    let expA := es_exp a in
    let expZ := Z.shiftr (expA - 0x7F) 1 + 0x7E in
    let sigA := shl 32 (Z.lor (es_sig a) 0x00800000) 8 in
    let sigZ := u32 (softfloat_estimateSqrt32 (u32 expA) sigA + 2) in
    if Z.land sigZ 0x7F <=? 5 then
      if sigZ <? 2 then softfloat_roundPackToF32 false expZ 0x7FFFFFFF
      else
        let sigA := Z.shiftr sigA (Z.land expA 1) in
        let term := u64 (sigZ * sigZ) in
        let rem := u64 (shl 64 sigA 32 - term) in
        let% (sigZ, rem) := flift (sqrt32_loop 64 sigZ rem) in
        softfloat_roundPackToF32 false expZ
          (softfloat_shortShift32Right1Jam (Z.lor sigZ (b2z (nz rem))))
    else softfloat_roundPackToF32 false expZ (softfloat_shortShift32Right1Jam sigZ).

Fixpoint sqrt64_loop (fuel : nat) (sigZ : Z) (rem : uint128) : option (Z * uint128) :=
  if 0x8000000000000000 <=? u128_v64 rem then
    match fuel with
    | O => None
    | Datatypes.S fuel' =>
        let sigZ := u64 (sigZ - 1) in
        sqrt64_loop fuel' sigZ
          (softfloat_add128 (u128_v64 rem) (u128_v0 rem) (Z.shiftr sigZ 63) (shl 64 sigZ 1))
    end
  else Some (sigZ, rem).

Definition f64_sqrt (uiA : Z) : FP Z :=
  let signA := signF64UI uiA in
  let expA := expF64UI uiA in
  let sigA := fracF64UI uiA in
  let invalid := softfloat_raiseFlags softfloat_flag_invalid ;;% fret defaultNaNF64UI in
  if expA =? 0x7FF then
    if nz sigA then softfloat_propagateNaNF64UI uiA 0
    else if negb signA then fret uiA else invalid
  else if signA then
    if negb (nz (Z.lor expA sigA)) then fret uiA else invalid
  else if negb (nz expA) && negb (nz sigA) then fret uiA
  else
    let a := if negb (nz expA) then softfloat_normSubnormalF64Sig sigA else ExpSig expA sigA in
    let expA := es_exp a in
    let expZ := Z.shiftr (expA - 0x3FF) 1 + 0x3FE in
    let sigA := Z.lor (es_sig a) 0x0010000000000000 in
    let sigZ32 := softfloat_estimateSqrt32 (u32 expA) (u32 (Z.shiftr sigA 21)) in
    let sigA := shl 64 sigA (9 - Z.land expA 1) in
    let% est := flift (softfloat_estimateDiv128To64 sigA 0 (shl 64 sigZ32 32)) in
    let sigZ := u64 (est + shl 64 sigZ32 30) in
    if Z.land sigZ 0x1FF <=? 5 then
      let term := softfloat_mul64To128 sigZ sigZ in
      let rem := softfloat_sub128 sigA 0 (u128_v64 term) (u128_v0 term) in
      let% (sigZ, rem) := flift (sqrt64_loop 64 sigZ rem) in
      softfloat_roundPackToF64 false expZ
        (Z.lor sigZ (b2z (nz (Z.lor (u128_v64 rem) (u128_v0 rem)))))
    else softfloat_roundPackToF64 false expZ sigZ.

(** ** Fused multiply-add

    The two routines read the operation code differently: [op] is compared in
    the single routine and masked in the double one. *)
Definition softfloat_mulAdd_subC : Z := 1.
Definition softfloat_mulAdd_subProd : Z := 2.

Definition softfloat_mulAddF32 (op uiA uiB uiC : Z) : FP Z :=
  let signA := signF32UI uiA in
  let expA := expF32UI uiA in
  let sigA := fracF32UI uiA in
  let signB := signF32UI uiB in
  let expB := expF32UI uiB in
  let sigB := fracF32UI uiB in
  let signC := xorb (signF32UI uiC) (op =? softfloat_mulAdd_subC) in
  let expC := expF32UI uiC in
  let sigC := fracF32UI uiC in
  let signProd := xorb (xorb signA signB) (op =? softfloat_mulAdd_subProd) in
  let propagateNaN_ZC uiZ := softfloat_propagateNaNF32UI uiZ uiC in
  let propagateNaN_ABC :=
    let% uiZ := softfloat_propagateNaNF32UI uiA uiB in propagateNaN_ZC uiZ in
  let invalid :=
    softfloat_raiseFlags softfloat_flag_invalid ;;% propagateNaN_ZC defaultNaNF32UI in
  let infProdArg magBits :=
    if nz magBits then
      let uiZ := packToF32UI signProd 0xFF 0 in
      if negb (expC =? 0xFF) then fret uiZ
      else if nz sigC then propagateNaN_ZC uiZ
      else if eqb signProd signC then fret uiZ
      else invalid
    else invalid in
  let completeCancellation :=
    let% rm := softfloat_roundingMode in
    fret (packToF32UI (rm =? softfloat_round_min) 0 0) in
  let zeroProd :=
    if negb (nz (Z.lor expC sigC)) && negb (eqb signProd signC) then completeCancellation
    else fret uiC in
  if expA =? 0xFF then
    if nz sigA || ((expB =? 0xFF) && nz sigB) then propagateNaN_ABC else infProdArg (Z.lor expB sigB)
  else if expB =? 0xFF then
    if nz sigB then propagateNaN_ABC else infProdArg (Z.lor expA sigA)
  else if expC =? 0xFF then
    if nz sigC then propagateNaN_ZC 0 else fret uiC
  else if negb (nz expA) && negb (nz sigA) then zeroProd
  else
    let a := if negb (nz expA) then softfloat_normSubnormalF32Sig sigA else ExpSig expA sigA in
    if negb (nz expB) && negb (nz sigB) then zeroProd
    else
      let b := if negb (nz expB) then softfloat_normSubnormalF32Sig sigB else ExpSig expB sigB in
      let expProd := es_exp a + es_exp b - 0x7E in
      let sigA := shl 32 (Z.lor (es_sig a) 0x00800000) 7 in
      let sigB := shl 32 (Z.lor (es_sig b) 0x00800000) 7 in
      let sigProd := u64 (sigA * sigB) in
      let '(expProd, sigProd) :=
        if sigProd <? 0x2000000000000000 then (expProd - 1, shl 64 sigProd 1) else (expProd, sigProd) in
      let signZ := signProd in
      if negb (nz expC) && negb (nz sigC) then
        softfloat_roundPackToF32 signZ (expProd - 1) (u32 (softfloat_shortShift64RightJam sigProd 31))
      else
        let c := if negb (nz expC) then softfloat_normSubnormalF32Sig sigC else ExpSig expC sigC in
        let expC := es_exp c in
        let sigC := shl 32 (Z.lor (es_sig c) 0x00800000) 6 in
        let expDiff := expProd - expC in
        if eqb signProd signC then
          let '(expZ, sigZ) :=
            if expDiff <=? 0
            then (expC, u32 (sigC + softfloat_shift64RightJam sigProd (32 - expDiff)))
            else
              (expProd,
               u32 (softfloat_shortShift64RightJam
                 (u64 (sigProd + softfloat_shift64RightJam (shl 64 sigC 32) expDiff)) 32)) in
          if sigZ <? 0x40000000 then softfloat_roundPackToF32 signZ (expZ - 1) (shl 32 sigZ 1)
          else softfloat_roundPackToF32 signZ expZ sigZ
        else
          let sigC64 := shl 64 sigC 32 in
          let normalise signZ expZ sigZ64 :=
            let shiftCount := softfloat_countLeadingZeros64 sigZ64 - 1 in
            let expZ := expZ - shiftCount in
            let shiftCount := shiftCount - 32 in
            let sigZ :=
              if shiftCount <? 0 then u32 (softfloat_shortShift64RightJam sigZ64 (- shiftCount))
              else shl 32 (u32 sigZ64) shiftCount in
            softfloat_roundPackToF32 signZ expZ sigZ in
          if expDiff <? 0 then
            normalise signC expC (u64 (sigC64 - softfloat_shift64RightJam sigProd (- expDiff)))
          else if negb (nz expDiff) then
            let sigZ64 := u64 (sigProd - sigC64) in
            if negb (nz sigZ64) then completeCancellation
            else if nz (Z.land sigZ64 0x8000000000000000)
            then normalise (negb signZ) expProd (u64 (- sigZ64))
            else normalise signZ expProd sigZ64
          else
            normalise signZ expProd (u64 (sigProd - softfloat_shift64RightJam sigC64 expDiff)).

Definition f32_mulAdd (uiA uiB uiC : Z) : FP Z := softfloat_mulAddF32 0 uiA uiB uiC.

Definition softfloat_mulAddF64 (op uiA uiB uiC : Z) : FP Z :=
  let signA := signF64UI uiA in
  let expA := expF64UI uiA in
  let sigA := fracF64UI uiA in
  let signB := signF64UI uiB in
  let expB := expF64UI uiB in
  let sigB := fracF64UI uiB in
  let signC := xorb (signF64UI uiC) (nz (Z.land op softfloat_mulAdd_subC)) in
  let expC := expF64UI uiC in
  let sigC := fracF64UI uiC in
  let signProd := xorb (xorb signA signB) (nz (Z.land op softfloat_mulAdd_subProd)) in
  let propagateNaN_ZC uiZ := softfloat_propagateNaNF64UI uiZ uiC in
  let propagateNaN_ABC :=
    let% uiZ := softfloat_propagateNaNF64UI uiA uiB in propagateNaN_ZC uiZ in
  let invalid :=
    softfloat_raiseFlags softfloat_flag_invalid ;;% propagateNaN_ZC defaultNaNF64UI in
  let infProdArg magBits :=
    if nz magBits then
      let uiZ := packToF64UI signProd 0x7FF 0 in
      if negb (expC =? 0x7FF) then fret uiZ
      else if nz sigC then propagateNaN_ZC uiZ
      else if eqb signProd signC then fret uiZ
      else invalid
    else invalid in
  let completeCancellation :=
    let% rm := softfloat_roundingMode in
    fret (packToF64UI (rm =? softfloat_round_min) 0 0) in
  let zeroProd :=
    if negb (nz (Z.lor expC sigC)) && negb (eqb signProd signC) then completeCancellation
    else fret uiC in
  if expA =? 0x7FF then
    if nz sigA || ((expB =? 0x7FF) && nz sigB) then propagateNaN_ABC else infProdArg (Z.lor expB sigB)
  else if expB =? 0x7FF then
    if nz sigB then propagateNaN_ABC else infProdArg (Z.lor expA sigA)
  else if expC =? 0x7FF then
    if nz sigC then propagateNaN_ZC 0 else fret uiC
  else if negb (nz expA) && negb (nz sigA) then zeroProd
  else
    let a := if negb (nz expA) then softfloat_normSubnormalF64Sig sigA else ExpSig expA sigA in
    if negb (nz expB) && negb (nz sigB) then zeroProd
    else
      let b := if negb (nz expB) then softfloat_normSubnormalF64Sig sigB else ExpSig expB sigB in
      let expProd := es_exp a + es_exp b - 0x3FE in
      let sigA := shl 64 (Z.lor (es_sig a) 0x0010000000000000) 10 in
      let sigB := shl 64 (Z.lor (es_sig b) 0x0010000000000000) 10 in
      let sigProd := softfloat_mul64To128 sigA sigB in
      let '(expProd, sigProd) :=
        if u128_v64 sigProd <? 0x2000000000000000
        then (expProd - 1, softfloat_shortShift128Left (u128_v64 sigProd) (u128_v0 sigProd) 1)
        else (expProd, sigProd) in
      let signZ := signProd in
      if negb (nz expC) && negb (nz sigC) then
        softfloat_roundPackToF64 signZ (expProd - 1)
          (Z.lor (shl 64 (u128_v64 sigProd) 1) (b2z (nz (u128_v0 sigProd))))
      else
        let c := if negb (nz expC) then softfloat_normSubnormalF64Sig sigC else ExpSig expC sigC in
        let expC := es_exp c in
        let sigC := shl 64 (Z.lor (es_sig c) 0x0010000000000000) 9 in
        let expDiff := expProd - expC in
        if eqb signProd signC then
          let '(expZ, sigZ) :=
            if expDiff <=? 0 then
              let prod64 := if nz expDiff then softfloat_shift64RightJam (u128_v64 sigProd) (- expDiff)
                            else u128_v64 sigProd in
              (expC, Z.lor (u64 (sigC + prod64)) (b2z (nz (u128_v0 sigProd))))
            else
              let sigC128 := softfloat_shift128RightJam sigC 0 expDiff in
              let sigZ128 := softfloat_add128 (u128_v64 sigProd) (u128_v0 sigProd)
                               (u128_v64 sigC128) (u128_v0 sigC128) in
              (expProd, Z.lor (u128_v64 sigZ128) (b2z (nz (u128_v0 sigZ128)))) in
          if sigZ <? 0x4000000000000000 then softfloat_roundPackToF64 signZ (expZ - 1) (shl 64 sigZ 1)
          else softfloat_roundPackToF64 signZ expZ sigZ
        else
          let normalise signZ expZ (sigZ128 : uint128) :=
            let '(expZ, sigZ128) :=
              if negb (nz (u128_v64 sigZ128)) then (expZ - 64, U128 (u128_v0 sigZ128) 0)
              else (expZ, sigZ128) in
            let shiftCount := softfloat_countLeadingZeros64 (u128_v64 sigZ128) - 1 in
            let expZ := expZ - shiftCount in
            let '(sigZ, sigZ128) :=
              if shiftCount <? 0
              then (softfloat_shortShift64RightJam (u128_v64 sigZ128) (- shiftCount), sigZ128)
              else
                let s := softfloat_shortShift128Left (u128_v64 sigZ128) (u128_v0 sigZ128) shiftCount in
                (u128_v64 s, s) in
            softfloat_roundPackToF64 signZ expZ (Z.lor sigZ (b2z (nz (u128_v0 sigZ128)))) in
          if expDiff <? 0 then
            let p := softfloat_shift128RightJam (u128_v64 sigProd) (u128_v0 sigProd) (- expDiff) in
            normalise signC expC (softfloat_sub128 sigC 0 (u128_v64 p) (u128_v0 p))
          else if negb (nz expDiff) then
            let sigZ128 := softfloat_sub128 (u128_v64 sigProd) (u128_v0 sigProd) sigC 0 in
            if negb (nz (Z.lor (u128_v64 sigZ128) (u128_v0 sigZ128))) then completeCancellation
            else if nz (Z.land (u128_v64 sigZ128) 0x8000000000000000)
            then normalise (negb signZ) expProd (softfloat_sub128 0 0 (u128_v64 sigZ128) (u128_v0 sigZ128))
            else normalise signZ expProd sigZ128
          else
            let sigC128 := softfloat_shift128RightJam sigC 0 expDiff in
            normalise signZ expProd
              (softfloat_sub128 (u128_v64 sigProd) (u128_v0 sigProd) (u128_v64 sigC128) (u128_v0 sigC128)).

Definition f64_mulAdd (uiA uiB uiC : Z) : FP Z := softfloat_mulAddF64 0 uiA uiB uiC.

(** ** Rounding a jammed significand, in general position *)

(** [x/y] lies between the powers [2^L] and [2^(L+1)]. *)
Definition binade (L x y : Z) : Prop := y * 2 ^ L <= x < y * 2 ^ (L + 1).

Lemma binade_exists x y : 0 < y -> y <= x -> exists L, 0 <= L /\ binade L x y.
Proof.
  intros Hy Hx. exists (Z.log2 (x / y)). split; [apply Z.log2_nonneg|].
  assert (0 < x / y) by (apply Z.div_str_pos; lia). pose proof (Z.log2_spec (x / y) ltac:(lia)) as [S1 S2].
  unfold binade. replace (Z.log2 (x / y) + 1) with (Z.succ (Z.log2 (x / y))) by lia.
  pose proof (Z.mul_div_le x y). pose proof (Z.mul_succ_div_gt x y). nia.
Qed.

Lemma binade_log2 L x y i j :
  0 <= L -> 0 < y -> binade L x y -> 0 <= i -> 0 <= j ->
  Z.log2 (x * 2 ^ i / (y * 2 ^ j)) = Z.max 0 (L + i - j).
Proof.
  intros HL Hy [B1 B2] Hi Hj. pose proof (pow2_pos i Hi). pose proof (pow2_pos j Hj).
  rewrite Z.pow_add_r in B2 by lia. destruct (Z.lt_ge_cases (L + i - j) 0).
  - assert (2 ^ (L + 1 + i) <= 2 ^ j) as P by (apply Z.pow_le_mono_r; lia). rewrite !Z.pow_add_r in P by lia.
    pose proof (pow2_pos L HL). assert (0 <= x) by nia.
    assert (x * 2 ^ i < y * 2 ^ j).
    { apply Z.lt_le_trans with (y * (2 ^ L * 2 ^ 1) * 2 ^ i); [nia|]. rewrite <- Z.mul_assoc. nia. }
    rewrite Z.div_small, Z.max_l by nia. done.
  - rewrite Z.max_r by lia. apply log2_between; [nia|lia|].
    replace (y * 2 ^ j * 2 ^ (L + i - j)) with (y * 2 ^ L * 2 ^ i).
    + replace (y * 2 ^ j * 2 ^ (L + i - j + 1)) with (y * (2 ^ L * 2 ^ 1) * 2 ^ i); [nia|].
      rewrite <- !Z.mul_assoc. f_equal. rewrite <- !Z.pow_add_r by lia. f_equal. lia.
    + rewrite <- !Z.mul_assoc. f_equal. rewrite <- !Z.pow_add_r by lia. f_equal. lia.
Qed.

Lemma binade_ltb L x y i j k :
  0 <= L -> 0 < y -> binade L x y -> 0 <= i -> 0 <= j -> 0 <= k ->
  (x * 2 ^ i <? y * 2 ^ j * 2 ^ k) = (L + i <? j + k).
Proof.
  intros HL Hy [B1 B2] Hi Hj Hk. pose proof (pow2_pos i Hi). rewrite <- Z.mul_assoc, <- Z.pow_add_r by lia.
  destruct (Z.ltb_spec (L + i) (j + k)).
  - apply Z.ltb_lt. assert (2 ^ (L + 1 + i) <= 2 ^ (j + k)) as P by (apply Z.pow_le_mono_r; lia).
    rewrite (Z.pow_add_r 2 (L + 1)) in P by lia. nia.
  - apply Z.ltb_ge. assert (2 ^ (j + k) <= 2 ^ (L + i)) as P by (apply Z.pow_le_mono_r; lia).
    rewrite (Z.pow_add_r 2 L) in P by lia. nia.
Qed.

(** [z] agrees with the exact quotient [n/d] above its [K] low bits, which are
    zero exactly when the rest of the quotient is. *)
Definition sticky (K z n d : Z) : Prop :=
  0 <= z /\ z / 2 ^ K = n / (d * 2 ^ K) /\ nz (z mod 2 ^ K) = nz (n mod (d * 2 ^ K)).

Lemma sticky_jamq n d : 0 <= n -> 0 < d -> sticky 1 (jamq n d) n d.
Proof.
  intros Hn Hd. pose proof (jamq_upper n d Hn Hd). unfold sticky. change (2 ^ 1) with 2.
  rewrite Z.rem_mul_r, <- Z.div_div by lia. pose proof (Z.mod_pos_bound n d Hd).
  assert (forall x, Z.odd x = true -> x mod 2 = 1) as Ho by (intros x Hx; rewrite Zmod_odd; by rewrite Hx).
  assert (forall x, Z.odd x = false -> x mod 2 = 0) as He by (intros x Hx; rewrite Zmod_odd; by rewrite Hx).
  destruct (jamq_cases n d Hn Hd) as [[-> Hz]|(-> & Hz & O)].
  - split_and!; [by apply Z.div_pos|done|]. unfold nz. f_equal. destruct Hz as [->|O].
    + rewrite Z.add_0_l. destruct (Z.eqb_spec ((n / d) mod 2) 0) as [->|]; [by rewrite Z.mul_0_r|].
      symmetry. apply Z.eqb_neq. nia.
    + rewrite (Ho _ O). symmetry. apply Z.eqb_neq. lia.
  - specialize (He _ O). pose proof (Z.div_mod (n / d) 2 ltac:(lia)). pose proof (Z.div_pos n d Hn Hd).
    assert ((n / d + 1) / 2 = n / d / 2 /\ (n / d + 1) mod 2 = 1) as [-> ->].
    { replace (n / d + 1) with (n / d / 2 * 2 + 1) by lia. by rewrite div_mul_shift, mod_mul_shift by lia. }
    split_and!; [lia|done|]. rewrite He, Z.mul_0_r, Z.add_0_r. unfold nz. by rewrite (proj2 (Z.eqb_neq _ 0) Hz).
Qed.

Lemma sticky_round K z n d k :
  0 <= K < k -> 0 < d -> sticky K z n d -> same_rounding z (2 ^ k) n (d * 2 ^ k).
Proof.
  intros Hk Hd (Hz & Eh & En). unfold same_rounding. set (h := 2 ^ K) in *. set (m := 2 ^ (k - K)).
  assert (0 < h) by (apply pow2_pos; lia). assert (2 ^ k = h * m) as -> by (by apply pow2_split; lia).
  assert (exists m', 0 < m' /\ m = 2 * m') as (m' & Hm' & Em).
  { exists (2 ^ (k - K - 1)). split; [apply pow2_pos; lia|]. unfold m. rewrite <- Z.pow_succ_r by lia. f_equal. lia. }
  rewrite Z.mul_assoc, (Z.rem_mul_r z h m), (Z.rem_mul_r n (d * h) m), <- (Z.div_div z h m), <- (Z.div_div n (d * h) m), Eh by nia.
  split; [done|].
  pose proof (Z.mod_pos_bound z h ltac:(lia)). pose proof (Z.mod_pos_bound n (d * h) ltac:(nia)).
  pose proof (Z.mod_pos_bound (n / (d * h)) m ltac:(lia)). set (v := (n / (d * h)) mod m) in *.
  set (r := z mod h) in *. set (r' := n mod (d * h)) in *. unfold nz in En.
  assert (r = 0 <-> r' = 0) as Er by (destruct (Z.eqb_spec r 0), (Z.eqb_spec r' 0); simpl in En; intuition congruence).
  assert (0 < d * h) by nia. set (g := d * h) in *. rewrite Em. split.
  - unfold nz. f_equal. destruct (Z.eqb_spec (r + h * v) 0), (Z.eqb_spec (r' + g * v) 0); nia.
  - destruct (Z.lt_trichotomy v m') as [Hv|[Hv|Hv]].
    + rewrite !(proj2 (Z.compare_lt_iff _ _)) by nia. done.
    + rewrite Hv. destruct (Z.eq_dec r 0) as [E0|E0].
      * rewrite !(proj2 (Z.compare_eq_iff _ _)) by lia. done.
      * rewrite !(proj2 (Z.compare_gt_iff _ _)) by lia. done.
    + rewrite !(proj2 (Z.compare_gt_iff _ _)) by nia. done.
Qed.

Lemma binade_sticky L K z n d :
  0 <= K < L -> 0 < d -> sticky K z n d -> binade L n d -> binade L z 1.
Proof.
  intros HL Hd (Hz & Eh & _) [B1 B2]. unfold binade. rewrite !Z.mul_1_l.
  assert (0 < 2 ^ K) by (apply pow2_pos; lia).
  assert (2 ^ (L - K) <= n / (d * 2 ^ K) < 2 ^ (L + 1 - K)) as HB.
  { split; [apply Z.div_le_lower_bound|apply Z.div_lt_upper_bound]; try nia;
      rewrite <- Z.mul_assoc, <- Z.pow_add_r by lia;
      [replace (K + (L - K)) with L by lia|replace (K + (L + 1 - K)) with (L + 1) by lia]; done. }
  rewrite <- Eh in HB. rewrite (pow2_split K L), (pow2_split K (L + 1)) by lia.
  pose proof (Z.mul_div_le z (2 ^ K)). pose proof (Z.mul_succ_div_gt z (2 ^ K)). nia.
Qed.

Lemma round_q_same rm sign n d n' d' :
  same_rounding n d n' d' -> round_q rm sign n d = round_q rm sign n' d'.
Proof. intros (E1 & E2 & E3). unfold round_q. by rewrite E1, E2, E3. Qed.

(** A sticky significand rounds like the exact value. *)
Lemma ref_round_sticky f rm sign K z n d i j :
  0 <= K -> 0 < d -> 0 <= i -> 0 <= j -> 0 <= frac_bits f -> sticky K z n d ->
  d * 2 ^ (frac_bits f + K + 1) <= n ->
  ref_round f rm sign (z * 2 ^ i) (2 ^ j) = ref_round f rm sign (n * 2 ^ i) (d * 2 ^ j).
Proof.
  intros HK Hd Hi Hj Hf Hst Hb. set (fb := frac_bits f) in *.
  assert (1 <= 2 ^ (fb + K + 1)) by (apply (Z.pow_le_mono_r 2 0); lia).
  destruct (binade_exists n d Hd ltac:(nia)) as (L & HL & B).
  assert (fb + K + 1 <= L).
  { destruct (Z.lt_ge_cases L (fb + K + 1)); [|done]. destruct B as [_ B2].
    pose proof (Z.pow_le_mono_r 2 (L + 1) (fb + K + 1)). nia. }
  pose proof (binade_sticky L K z n d ltac:(lia) Hd Hst B) as BJ. pose proof (pow2_pos i Hi) as Pi.
  rewrite <- (Z.mul_1_l (2 ^ j)) at 1. unfold ref_round. fold fb.
  rewrite (binade_log2 L n d), (binade_log2 L z 1) by (auto; lia).
  rewrite (binade_ltb L n d), (binade_ltb L z 1) by (auto; lia).
  set (e := Z.max 0 (Z.max 0 (L + i - j) - fb)). set (c := 2 ^ (j + e - i)).
  assert (2 ^ j * 2 ^ e = c * 2 ^ i) as Ec.
  { unfold c. rewrite <- !Z.pow_add_r by lia. f_equal. lia. }
  assert (0 < c) as Pc by (apply pow2_pos; lia).
  replace (1 * 2 ^ j * 2 ^ e) with (c * 2 ^ i) by lia.
  replace (d * 2 ^ j * 2 ^ e) with (d * c * 2 ^ i) by (rewrite <- !Z.mul_assoc; f_equal; lia).
  rewrite !round_q_scale, !Z.mul_mod_distr_r, !nz_mul by nia.
  pose proof (sticky_round K z n d (j + e - i) ltac:(lia) Hd Hst) as Hs. fold c in Hs.
  rewrite (round_q_same rm sign _ _ _ _ Hs). destruct Hs as (_ & -> & _). done.
Qed.

(** What [roundPackToF32] ([F64]) returns for a sticky significand shifted by
    [t] bits: the exact value, correctly rounded. *)
Lemma roundPackToF32_sticky rm sign exp K z n d t N D fl :
  0 <= rm <= 4 -> 0 <= K -> 0 < d -> 0 <= t -> K + t <= 6 -> sticky K z n d ->
  d * 2 ^ (30 - t) <= n < d * 2 ^ (31 - t) ->
  - 2 ^ 15 < exp < 2 ^ 15 -> 0 <= N -> 0 < D ->
  n * 2 ^ t * 2 ^ Z.max exp 0 * D = N * (d * 2 ^ 7 * 2 ^ Z.max (- exp) 0) ->
  let R := ref_round F32 rm sign N D in
  softfloat_roundPackToF32 sign exp (z * 2 ^ t) rm fl = Some (R.1, Z.lor fl R.2).
Proof.
  intros Hrm HK Hd Ht HKt Hst Hb He HN HD E. cbv zeta.
  assert (2 ^ 30 <= z * 2 ^ t < 2 ^ 31) as HJ.
  { replace (31 - t) with (30 - t + 1) in Hb by lia.
    pose proof (binade_sticky (30 - t) K z n d ltac:(lia) Hd Hst Hb) as [B1 B2]. rewrite Z.mul_1_l in B1, B2.
    replace (30 - t + 1) with (31 - t) in * by lia.
    rewrite (pow2_split t 30), (pow2_split t 31) by lia. pose proof (pow2_pos t). nia. }
  pose proof (pow2_pos t ltac:(lia)). pose proof (pow2_pos (Z.max exp 0) ltac:(lia)). pose proof (pow2_pos (Z.max (- exp) 0) ltac:(lia)).
  pose proof (roundPackToF32_ref rm sign exp (z * 2 ^ t) 1 fl Hrm) as H2.
  rewrite jamq_1 in H2. rewrite H2 by lia. clear H2. rewrite Z.mul_1_l, <- Z.mul_assoc, <- !Z.pow_add_r by lia.
  assert (0 < 2 ^ (30 - t)) by (apply pow2_pos; lia).
  rewrite (ref_round_sticky F32 rm sign K z n d); [|done || cbn [F32 F64 frac_bits]; lia..|].
  - rewrite !Z.pow_add_r by lia. rewrite (ref_round_eq F32 rm sign _ _ N D); [done|nia|nia|done|done|].
    rewrite !Z.mul_assoc in *. exact E.
  - cbn [F32 frac_bits]. pose proof (Z.pow_le_mono_r 2 (23 + K + 1) (30 - t)). nia.
Qed.

Lemma roundPackToF64_sticky rm sign exp K z n d t N D fl :
  0 <= rm <= 4 -> 0 <= K -> 0 < d -> 0 <= t -> K + t <= 9 -> sticky K z n d ->
  d * 2 ^ (62 - t) <= n < d * 2 ^ (63 - t) ->
  - 2 ^ 15 < exp < 2 ^ 15 -> 0 <= N -> 0 < D ->
  n * 2 ^ t * 2 ^ Z.max exp 0 * D = N * (d * 2 ^ 10 * 2 ^ Z.max (- exp) 0) ->
  let R := ref_round F64 rm sign N D in
  softfloat_roundPackToF64 sign exp (z * 2 ^ t) rm fl = Some (R.1, Z.lor fl R.2).
Proof.
  intros Hrm HK Hd Ht HKt Hst Hb He HN HD E. cbv zeta.
  assert (2 ^ 62 <= z * 2 ^ t < 2 ^ 63) as HJ.
  { replace (63 - t) with (62 - t + 1) in Hb by lia.
    pose proof (binade_sticky (62 - t) K z n d ltac:(lia) Hd Hst Hb) as [B1 B2]. rewrite Z.mul_1_l in B1, B2.
    replace (62 - t + 1) with (63 - t) in * by lia.
    rewrite (pow2_split t 62), (pow2_split t 63) by lia. pose proof (pow2_pos t). nia. }
  pose proof (pow2_pos t ltac:(lia)). pose proof (pow2_pos (Z.max exp 0) ltac:(lia)). pose proof (pow2_pos (Z.max (- exp) 0) ltac:(lia)).
  pose proof (roundPackToF64_ref rm sign exp (z * 2 ^ t) 1 fl Hrm) as H2.
  rewrite jamq_1 in H2. rewrite H2 by lia. clear H2. rewrite Z.mul_1_l, <- Z.mul_assoc, <- !Z.pow_add_r by lia.
  assert (0 < 2 ^ (62 - t)) by (apply pow2_pos; lia).
  rewrite (ref_round_sticky F64 rm sign K z n d); [|done || cbn [F32 F64 frac_bits]; lia..|].
  - rewrite !Z.pow_add_r by lia. rewrite (ref_round_eq F64 rm sign _ _ N D); [done|nia|nia|done|done|].
    rewrite !Z.mul_assoc in *. exact E.
  - cbn [F64 frac_bits]. pose proof (Z.pow_le_mono_r 2 (52 + K + 1) (62 - t)). nia.
Qed.

(** ** Normalised operands

    After the subnormal case has been handled, significand and exponent denote
    the operand: [mag * 2^24 = S * 2^(E + 23)]. *)
Definition norm32 (a : Z) : exp_sig :=
  if negb (nz (expF32UI a)) then softfloat_normSubnormalF32Sig (fracF32UI a)
  else ExpSig (expF32UI a) (fracF32UI a).

Definition norm64 (a : Z) : exp_sig :=
  if negb (nz (expF64UI a)) then softfloat_normSubnormalF64Sig (fracF64UI a)
  else ExpSig (expF64UI a) (fracF64UI a).

Lemma lor_hidden k x : 0 <= k -> 2 ^ k <= x < 2 ^ (k + 1) -> Z.lor x (2 ^ k) = x.
Proof.
  intros Hk Hx. rewrite Z.pow_add_r in Hx by lia.
  assert (x = Z.lor (x - 2 ^ k) (2 ^ k)) as E.
  { pose proof (lor_disjoint_add (x - 2 ^ k) 1 k Hk) as L. rewrite Z.shiftl_1_l in L.
    rewrite L; [lia|unfold inu; lia|lia]. }
  rewrite E at 1. by rewrite <- Z.lor_assoc, Z.lor_diag, <- E.
Qed.

Lemma norm32_spec a :
  finite32 a -> mag32 a <> 0 ->
  let E := es_exp (norm32 a) in let S := Z.lor (es_sig (norm32 a)) 0x00800000 in
  - 22 <= E <= 254 /\ 2 ^ 23 <= S < 2 ^ 24 /\ mag32 a * 2 ^ 24 = S * 2 ^ (E + 23).
Proof.
  intros [Ha Hf] H0. destruct (fields32 a Ha) as (He & Hfr & _). unfold norm32, nz, mag32 in *.
  destruct (Z.eqb_spec (expF32UI a) 0) as [E0|E0]; cbn [negb].
  - destruct (normSubnormalF32_val (fracF32UI a) ltac:(lia)) as (k & Hk & -> & -> & Hb).
    change 0x00800000 with (2 ^ 23). rewrite lor_hidden by lia. split_and!; try lia.
    rewrite <- Z.mul_assoc, <- Z.pow_add_r by lia. f_equal. f_equal. lia.
  - cbn [es_exp es_sig]. replace (Z.lor (fracF32UI a) 0x800000) with (fracF32UI a + 1 * 2 ^ 23).
    + split_and!; try lia. rewrite Z.mul_1_l, <- Z.mul_assoc, <- Z.pow_add_r by lia. f_equal. f_equal. lia.
    + symmetry. apply (lor_disjoint_add (fracF32UI a) 1 23); unfold inu; lia.
Qed.

Lemma norm64_spec a :
  finite64 a -> mag64 a <> 0 ->
  let E := es_exp (norm64 a) in let S := Z.lor (es_sig (norm64 a)) 0x0010000000000000 in
  - 51 <= E <= 2046 /\ 2 ^ 52 <= S < 2 ^ 53 /\ mag64 a * 2 ^ 53 = S * 2 ^ (E + 52).
Proof.
  intros [Ha Hf] H0. destruct (fields64 a Ha) as (He & Hfr & _). unfold norm64, nz, mag64 in *.
  destruct (Z.eqb_spec (expF64UI a) 0) as [E0|E0]; cbn [negb].
  - destruct (normSubnormalF64_val (fracF64UI a) ltac:(lia)) as (k & Hk & -> & -> & Hb).
    change 0x0010000000000000 with (2 ^ 52). rewrite lor_hidden by lia. split_and!; try lia.
    rewrite <- Z.mul_assoc, <- Z.pow_add_r by lia. f_equal. f_equal. lia.
  - cbn [es_exp es_sig]. replace (Z.lor (fracF64UI a) 0x0010000000000000) with (fracF64UI a + 1 * 2 ^ 52).
    + split_and!; try lia. rewrite Z.mul_1_l, <- Z.mul_assoc, <- Z.pow_add_r by lia. f_equal. f_equal. lia.
    + symmetry. apply (lor_disjoint_add (fracF64UI a) 1 52); unfold inu; lia.
Qed.

Lemma mag32_zero a : inu 32 a -> negb (nz (expF32UI a)) && negb (nz (fracF32UI a)) = (mag32 a =? 0).
Proof.
  intros Ha. destruct (fields32 a Ha) as (He & Hf & _). unfold mag32, nz. destruct (Z.eqb_spec (expF32UI a) 0); simpl.
  - by rewrite negb_involutive.
  - pose proof (pow2_pos (expF32UI a - 1) ltac:(lia)). symmetry. apply Z.eqb_neq. nia.
Qed.

Lemma mag64_zero a : inu 64 a -> negb (nz (expF64UI a)) && negb (nz (fracF64UI a)) = (mag64 a =? 0).
Proof.
  intros Ha. destruct (fields64 a Ha) as (He & Hf & _). unfold mag64, nz. destruct (Z.eqb_spec (expF64UI a) 0); simpl.
  - by rewrite negb_involutive.
  - pose proof (pow2_pos (expF64UI a - 1) ltac:(lia)). symmetry. apply Z.eqb_neq. nia.
Qed.

Lemma mag32_nonneg a : inu 32 a -> 0 <= mag32 a.
Proof. intros Ha. destruct (fields32 a Ha) as (? & ? & _). apply (mag_of_nonneg 23); lia. Qed.

Lemma mag64_nonneg a : inu 64 a -> 0 <= mag64 a.
Proof. intros Ha. destruct (fields64 a Ha) as (? & ? & _). apply (mag_of_nonneg 52); lia. Qed.

(** ** Multiplication is correctly rounded *)
Lemma f32_mul_spec a b rm fl :
  finite32 a -> finite32 b -> mag32 a <> 0 -> mag32 b <> 0 -> 0 <= rm <= 4 ->
  let R := ref_round F32 rm (xorb (signF32UI a) (signF32UI b)) (mag32 a * mag32 b) (2 ^ 149) in
  f32_mul a b rm fl = Some (R.1, Z.lor fl R.2).
Proof.
  intros Fa Fb Ha Hb Hrm. destruct (norm32_spec a Fa Ha) as (EA & SA & MA), (norm32_spec b Fb Hb) as (EB & SB & MB).
  cbv zeta in *. unfold f32_mul. fold (norm32 a) (norm32 b).
  rewrite !mag32_zero, !(proj2 (Z.eqb_neq _ _)) by (done || apply Fa || apply Fb).
  set (ea := es_exp (norm32 a)) in *. set (eb := es_exp (norm32 b)) in *.
  set (sa := Z.lor (es_sig (norm32 a)) _) in *. set (sb := Z.lor (es_sig (norm32 b)) _) in *. cbv zeta. rewrite !shl_small by lia.
  set (P := sa * 2 ^ 7 * (sb * 2 ^ 8)). assert (2 ^ 61 <= P < 2 ^ 63) as HP by (unfold P; nia).
  rewrite (wrapu_small 64 P) by (unfold inu; lia). rewrite shortShift64RightJam_jam by (unfold inu; lia).
  change (jam P 32) with (jamq P (2 ^ 32)).
  pose proof (jamq_between P (2 ^ 32) (2 ^ 29) (2 ^ 31) ltac:(lia) ltac:(lia) ltac:(lia) eq_refl ltac:(lia)) as HJ.
  rewrite (wrapu_small 32) by (unfold inu; lia).
  assert (0 <= mag32 a * mag32 b) as Hpos by (apply Z.mul_nonneg_nonneg; apply mag32_nonneg; apply Fa || apply Fb).
  assert (forall t E, E = ea + eb - 0x7F - t -> 0 <= t ->
    P * 2 ^ t * 2 ^ Z.max E 0 * 2 ^ 149 = mag32 a * mag32 b * (2 ^ 32 * 2 ^ 7 * 2 ^ Z.max (- E) 0)) as HE.
  { intros t E -> Ht. unfold P. apply (Z.mul_cancel_r _ _ (2 ^ 48)); [lia|].
    transitivity ((mag32 a * 2 ^ 24) * (mag32 b * 2 ^ 24) * (2 ^ 39 * 2 ^ Z.max (- (ea + eb - 0x7F - t)) 0)); [|ring].
    rewrite MA, MB. transitivity (sa * sb * (2 ^ 15 * 2 ^ t * 2 ^ Z.max (ea + eb - 0x7F - t) 0 * 2 ^ 149 * 2 ^ 48)); [ring|].
    transitivity (sa * sb * (2 ^ (ea + 23) * 2 ^ (eb + 23) * 2 ^ 39 * 2 ^ Z.max (- (ea + eb - 0x7F - t)) 0)); [|ring].
    f_equal. rewrite <- !Z.pow_add_r by lia. f_equal. lia. }
  pose proof (sticky_jamq P (2 ^ 32) ltac:(lia) ltac:(lia)) as HS.
  destruct (Z.ltb_spec (jamq P (2 ^ 32)) 0x40000000) as [Hl|Hl].
  - rewrite shl_small by lia. rewrite (roundPackToF32_sticky rm _ _ 1 _ P (2 ^ 32) 1 (mag32 a * mag32 b) (2 ^ 149));
      auto; try lia; [|by apply HE; lia].
    destruct (Z.lt_ge_cases P (2 ^ 62)); [lia|].
    pose proof (jamq_between P (2 ^ 32) (2 ^ 30) (2 ^ 31) ltac:(lia) ltac:(lia) ltac:(lia) eq_refl ltac:(lia)). lia.
  - rewrite <- (Z.mul_1_r (jamq P (2 ^ 32))). change 1 with (2 ^ 0).
    rewrite (roundPackToF32_sticky rm _ _ 1 _ P (2 ^ 32) 0 (mag32 a * mag32 b) (2 ^ 149)); auto; try lia; [|apply HE; lia].
    destruct (Z.lt_ge_cases P (2 ^ 62)); [|lia].
    pose proof (jamq_between P (2 ^ 32) (2 ^ 29) (2 ^ 30) ltac:(lia) ltac:(lia) ltac:(lia) eq_refl ltac:(lia)). lia.
Qed.

(** The two words of a product as its jammed upper half. *)
Lemma mul64To128_jam a b :
  inu 64 a -> inu 64 b ->
  Z.lor (u128_v64 (softfloat_mul64To128 a b)) (b2z (nz (u128_v0 (softfloat_mul64To128 a b)))) =
  jamq (a * b) (2 ^ 64).
Proof.
  intros Ha Hb. destruct (mul64To128_spec a b Ha Hb) as (R1 & R0 & E). unfold inu in R1, R0.
  unfold jamq. by rewrite <- E, div_mul_shift, mod_mul_shift, Z.mod_small by lia.
Qed.

Lemma f64_mul_spec a b rm fl :
  finite64 a -> finite64 b -> mag64 a <> 0 -> mag64 b <> 0 -> 0 <= rm <= 4 ->
  let R := ref_round F64 rm (xorb (signF64UI a) (signF64UI b)) (mag64 a * mag64 b) (2 ^ 1074) in
  f64_mul a b rm fl = Some (R.1, Z.lor fl R.2).
Proof.
  intros Fa Fb Ha Hb Hrm. destruct (norm64_spec a Fa Ha) as (EA & SA & MA), (norm64_spec b Fb Hb) as (EB & SB & MB).
  cbv zeta in *. unfold f64_mul. fold (norm64 a) (norm64 b).
  rewrite !mag64_zero, !(proj2 (Z.eqb_neq _ _)) by (done || apply Fa || apply Fb).
  set (ea := es_exp (norm64 a)) in *. set (eb := es_exp (norm64 b)) in *.
  set (sa := Z.lor (es_sig (norm64 a)) _) in *. set (sb := Z.lor (es_sig (norm64 b)) _) in *. cbv zeta.
  rewrite !shl_small by lia. rewrite mul64To128_jam by (unfold inu; lia).
  set (P := sa * 2 ^ 10 * (sb * 2 ^ 11)). assert (2 ^ 125 <= P < 2 ^ 127) as HP by (unfold P; nia).
  pose proof (jamq_between P (2 ^ 64) (2 ^ 61) (2 ^ 63) ltac:(lia) ltac:(lia) ltac:(lia) eq_refl ltac:(lia)) as HJ.
  assert (0 <= mag64 a * mag64 b) as Hpos by (apply Z.mul_nonneg_nonneg; apply mag64_nonneg; apply Fa || apply Fb).
  assert (forall t E, E = ea + eb - 0x3FF - t -> 0 <= t ->
    P * 2 ^ t * 2 ^ Z.max E 0 * 2 ^ 1074 = mag64 a * mag64 b * (2 ^ 64 * 2 ^ 10 * 2 ^ Z.max (- E) 0)) as HE.
  { intros t E -> Ht. unfold P. apply (Z.mul_cancel_r _ _ (2 ^ 106)); [lia|].
    transitivity ((mag64 a * 2 ^ 53) * (mag64 b * 2 ^ 53) * (2 ^ 74 * 2 ^ Z.max (- (ea + eb - 0x3FF - t)) 0)); [|ring].
    rewrite MA, MB. transitivity (sa * sb * (2 ^ 21 * 2 ^ t * 2 ^ Z.max (ea + eb - 0x3FF - t) 0 * 2 ^ 1074 * 2 ^ 106)); [ring|].
    transitivity (sa * sb * (2 ^ (ea + 52) * 2 ^ (eb + 52) * 2 ^ 74 * 2 ^ Z.max (- (ea + eb - 0x3FF - t)) 0)); [|ring].
    f_equal. rewrite <- !Z.pow_add_r by lia. f_equal. lia. }
  pose proof (sticky_jamq P (2 ^ 64) ltac:(lia) ltac:(lia)) as HS.
  destruct (Z.ltb_spec (jamq P (2 ^ 64)) 0x4000000000000000) as [Hl|Hl].
  - rewrite shl_small by lia. rewrite (roundPackToF64_sticky rm _ _ 1 _ P (2 ^ 64) 1 (mag64 a * mag64 b) (2 ^ 1074));
      auto; try lia; [|by apply HE; lia].
    destruct (Z.lt_ge_cases P (2 ^ 126)); [lia|].
    pose proof (jamq_between P (2 ^ 64) (2 ^ 62) (2 ^ 63) ltac:(lia) ltac:(lia) ltac:(lia) eq_refl ltac:(lia)). lia.
  - rewrite <- (Z.mul_1_r (jamq P (2 ^ 64))). change 1 with (2 ^ 0).
    rewrite (roundPackToF64_sticky rm _ _ 1 _ P (2 ^ 64) 0 (mag64 a * mag64 b) (2 ^ 1074)); auto; try lia; [|apply HE; lia].
    destruct (Z.lt_ge_cases P (2 ^ 126)); [|lia].
    pose proof (jamq_between P (2 ^ 64) (2 ^ 61) (2 ^ 62) ltac:(lia) ltac:(lia) ltac:(lia) eq_refl ltac:(lia)). lia.
Qed.

(** ** Division is correctly rounded *)

(** A floor quotient is sticky when its low bits are not all zero... *)
Lemma sticky_floor K n d :
  0 <= K -> 0 <= n -> 0 < d -> (n / d) mod 2 ^ K <> 0 -> sticky K (n / d) n d.
Proof.
  intros HK Hn Hd Hl. pose proof (pow2_pos K HK). unfold sticky.
  rewrite Z.rem_mul_r, <- Z.div_div by lia. split_and!; [by apply Z.div_pos|done|].
  pose proof (Z.mod_pos_bound (n / d) (2 ^ K) ltac:(lia)). pose proof (Z.mod_pos_bound n d Hd).
  unfold nz. rewrite !(proj2 (Z.eqb_neq _ 0)) by nia. done.
Qed.

(** ... and so is a larger estimate that does not reach the next multiple. *)
Lemma sticky_estimate K z n d δ :
  0 <= K -> 0 <= n -> 0 < d -> z = n / d + δ -> 0 <= δ -> δ < z mod 2 ^ K -> sticky K z n d.
Proof.
  intros HK Hn Hd -> Hδ Hl. pose proof (pow2_pos K HK) as P. set (q := n / d) in *.
  pose proof (Z.div_pos n d Hn Hd). fold q in H. pose proof (Z.mod_pos_bound (q + δ) (2 ^ K) P).
  pose proof (Z.div_mod (q + δ) (2 ^ K) ltac:(lia)) as E.
  assert (q / 2 ^ K = (q + δ) / 2 ^ K /\ q mod 2 ^ K = (q + δ) mod 2 ^ K - δ) as [E1 E2].
  { replace q with ((q + δ) / 2 ^ K * 2 ^ K + ((q + δ) mod 2 ^ K - δ)) at 1 3 by lia.
    rewrite div_mul_shift, mod_mul_shift, Z.mod_small by lia. done. }
  destruct (sticky_floor K n d HK Hn Hd) as (_ & S2 & S3); [fold q; lia|].
  fold q in S2, S3. unfold sticky. split_and!; [lia|congruence|]. rewrite <- S3. unfold nz.
  rewrite !(proj2 (Z.eqb_neq _ 0)) by lia. done.
Qed.

(** Jamming keeps every coarser stickiness. *)
Lemma sticky_weaken K K' z n d : 0 <= K <= K' -> 0 < d -> sticky K z n d -> sticky K' z n d.
Proof.
  intros HK Hd (Hz & E1 & E2). unfold sticky. rewrite (pow2_split K K') by lia.
  pose proof (pow2_pos K ltac:(lia)). pose proof (pow2_pos (K' - K) ltac:(lia)).
  rewrite Z.mul_assoc, (Z.rem_mul_r z), (Z.rem_mul_r n (d * 2 ^ K)), <- (Z.div_div z), <- (Z.div_div n (d * 2 ^ K)), E1 by nia.
  split_and!; [done..|]. set (v := (n / (d * 2 ^ K)) mod 2 ^ (K' - K)).
  assert (0 <= v) by (apply Z.mod_pos_bound; lia).
  pose proof (Z.mod_pos_bound z (2 ^ K) ltac:(lia)). pose proof (Z.mod_pos_bound n (d * 2 ^ K) ltac:(nia)).
  unfold nz in *. destruct (Z.eqb_spec (z mod 2 ^ K) 0) as [->|], (Z.eqb_spec (n mod (d * 2 ^ K)) 0) as [->|]; try done.
  - f_equal. rewrite !Z.add_0_l. destruct (Z.eqb_spec (2 ^ K * v) 0), (Z.eqb_spec (d * 2 ^ K * v) 0); nia.
  - rewrite !(proj2 (Z.eqb_neq _ 0)) by nia. done.
Qed.

(** The single-precision quotient with its conditional sticky bit. *)
Lemma f32_div_sticky n d :
  0 <= n < 2 ^ 64 -> 0 < d -> n / d < 2 ^ 31 ->
  let q := u32 (n / d) in
  sticky 6 (if negb (nz (Z.land q 0x3F)) then Z.lor q (b2z (negb (u64 (d * q) =? n))) else q) n d.
Proof.
  intros Hn Hd Hq. cbv zeta. pose proof (Z.div_pos n d). rewrite (wrapu_small 32 (n / d)) by (unfold inu; lia).
  rewrite (Z.land_ones _ 6 : _ -> Z.land _ 0x3F = _) by lia.
  pose proof (Z.mul_div_le n d Hd). pose proof (Z.div_mod n d ltac:(lia)).
  rewrite (wrapu_small 64) by (unfold inu; nia). unfold nz. destruct (Z.eqb_spec ((n / d) mod 2 ^ 6) 0) as [E|E]; cbn [negb].
  - apply (sticky_weaken 1); [lia..|]. replace (negb (d * (n / d) =? n)) with (nz (n mod d)).
    + apply sticky_jamq; lia.
    + unfold nz. f_equal. destruct (Z.eqb_spec (n mod d) 0), (Z.eqb_spec (d * (n / d)) n); lia || done.
  - apply sticky_floor; lia.
Qed.

Lemma f32_div_spec a b rm fl :
  finite32 a -> finite32 b -> mag32 a <> 0 -> mag32 b <> 0 -> 0 <= rm <= 4 ->
  let R := ref_round F32 rm (xorb (signF32UI a) (signF32UI b)) (mag32 a * 2 ^ 149) (mag32 b) in
  f32_div a b rm fl = Some (R.1, Z.lor fl R.2).
Proof.
  intros Fa Fb Ha Hb Hrm. destruct (norm32_spec a Fa Ha) as (EA & SA & MA), (norm32_spec b Fb Hb) as (EB & SB & MB).
  cbv zeta in *. unfold f32_div. fold (norm32 a) (norm32 b).
  rewrite !mag32_zero, !(proj2 (Z.eqb_neq _ _)) by (done || apply Fa || apply Fb).
  set (ea := es_exp (norm32 a)) in *. set (eb := es_exp (norm32 b)) in *.
  set (sa := Z.lor (es_sig (norm32 a)) _) in *. set (sb := Z.lor (es_sig (norm32 b)) _) in *. cbv zeta.
  pose proof (mag32_nonneg a (proj1 Fa)). pose proof (mag32_nonneg b (proj1 Fb)).
  rewrite !(shl_small 32) by lia. rewrite (wrapu_small 32 (_ + _)) by (unfold inu; lia).
  assert (forall k E, 6 <= k <= 7 -> E = ea - eb + 0x84 - k ->
    sa * 2 ^ (32 + k) * 2 ^ 0 * 2 ^ Z.max E 0 * mag32 b = mag32 a * 2 ^ 149 * (sb * 2 ^ 8 * 2 ^ 7 * 2 ^ Z.max (- E) 0)) as HE.
  { intros k E Hk ->. apply (Z.mul_cancel_r _ _ (2 ^ 24)); [lia|].
    transitivity (sa * 2 ^ (32 + k) * 2 ^ Z.max (ea - eb + 0x84 - k) 0 * (mag32 b * 2 ^ 24)); [ring|].
    transitivity ((mag32 a * 2 ^ 24) * (2 ^ 149 * sb * 2 ^ 8 * 2 ^ 7 * 2 ^ Z.max (- (ea - eb + 0x84 - k)) 0)); [|ring].
    rewrite MA, MB. transitivity (sa * sb * (2 ^ (32 + k) * 2 ^ Z.max (ea - eb + 0x84 - k) 0 * 2 ^ (eb + 23))); [ring|].
    transitivity (sa * sb * (2 ^ (ea + 23) * 2 ^ 149 * 2 ^ 8 * 2 ^ 7 * 2 ^ Z.max (- (ea - eb + 0x84 - k)) 0)); [|ring].
    f_equal. rewrite <- !Z.pow_add_r by lia. f_equal. lia. }
  assert (forall k E z, 6 <= k <= 7 -> E = ea - eb + 0x84 - k -> sb * 2 ^ 8 * 2 ^ 30 <= sa * 2 ^ (32 + k) < sb * 2 ^ 8 * 2 ^ 31 ->
    sticky 6 z (sa * 2 ^ (32 + k)) (sb * 2 ^ 8) ->
    softfloat_roundPackToF32 (xorb (signF32UI a) (signF32UI b)) E z rm fl =
    (let R := ref_round F32 rm (xorb (signF32UI a) (signF32UI b)) (mag32 a * 2 ^ 149) (mag32 b) in Some (R.1, Z.lor fl R.2))) as Hfin.
  { intros k E z Hk HEk Hb' Hst. rewrite <- (Z.mul_1_r z). change 1 with (2 ^ 0).
    eapply (roundPackToF32_sticky rm _ E 6 z (sa * 2 ^ (32 + k)) (sb * 2 ^ 8) 0); auto; lia. }
  destruct (Z.leb_spec (sb * 2 ^ 8) (sa * 2 ^ 7 + sa * 2 ^ 7)).
  - rewrite Z.shiftr_div_pow2 by lia. replace (sa * 2 ^ 7) with (sa * 2 ^ 6 * 2 ^ 1) by lia. rewrite Z.div_mul by lia.
    rewrite (shl_small 64) by lia. apply (Hfin 6); [lia..|]. replace (sa * 2 ^ 6 * 2 ^ 32) with (sa * 2 ^ (32 + 6)) by lia.
    apply f32_div_sticky; [lia..|]. apply Z.div_lt_upper_bound; lia.
  - rewrite (shl_small 64) by lia. apply (Hfin 7); [lia..|]. replace (sa * 2 ^ 7 * 2 ^ 32) with (sa * 2 ^ (32 + 7)) by lia.
    apply f32_div_sticky; [lia..|]. apply Z.div_lt_upper_bound; lia.
Qed.

Lemma div64_loop_spec n d fuel z rem :
  2 ^ 63 <= d < 2 ^ 64 -> 0 <= n ->
  let q := n / d in
  q <= z <= q + 2 -> z <= q + Z.of_nat fuel -> z < 2 ^ 64 ->
  inu 64 (u128_v64 rem) -> inu 64 (u128_v0 rem) -> val128 rem = wrapu 128 (n - d * z) ->
  exists rem', div64_loop fuel d z rem = Some (q, rem') /\ u128_v64 rem' = 0 /\ u128_v0 rem' = n mod d.
Proof.
  intros Hd Hn q Hz Hf Hz64 R1 R0 E. pose proof (Z.div_mod n d ltac:(lia)) as Edm. fold q in Edm.
  pose proof (Z.mod_pos_bound n d ltac:(lia)) as Hr. assert (0 <= q) as Hq by (apply Z.div_pos; lia).
  revert z rem Hz Hf Hz64 R1 R0 E. induction fuel as [|fuel IH]; intros z rem Hz Hf Hz64 R1 R0 E.
  all: destruct (Z.eq_dec z q) as [->|Hne]; [|try lia].
  1,2: assert (val128 rem = n mod d) as E' by (rewrite E; replace (n - d * q) with (n mod d) by lia; apply wrapu_small; unfold inu; lia);
    assert (u128_v64 rem = 0 /\ u128_v0 rem = n mod d) as [V1 V0] by (unfold val128, inu in *; lia);
    exists rem; cbn [div64_loop]; rewrite V1, V0; done.
  assert (val128 rem = n - d * z + 2 ^ 128) as E'.
  { rewrite E. unfold wrapu. rewrite <- (Z.mod_add _ 1), Z.mod_small by nia. lia. }
  cbn [div64_loop]. rewrite val128_ge, E', (proj2 (Z.leb_le _ _)) by (done || nia).
  rewrite (wrapu_small 64 (z - 1)) by (unfold inu; lia).
  apply IH; try apply uint128_in_add; try lia.
  rewrite add128_val by (auto; unfold inu; lia).
  change (u128_v64 rem * 2 ^ 64 + u128_v0 rem) with (val128 rem). rewrite E'.
  rewrite <- (wrapu_shift_period 128 (n - d * (z - 1)) 1) by lia. f_equal. lia.
Qed.

Lemma f64_div_sticky n64 d :
  2 ^ 63 <= d < 2 ^ 64 -> 0 <= n64 < d ->
  let n := n64 * 2 ^ 64 in
  exists z, (let% sigZ := flift (softfloat_estimateDiv128To64 n64 0 d) in
    if Z.land sigZ 0x1FF <=? 2 then
      let term := softfloat_mul64To128 d sigZ in
      let rem := softfloat_sub128 n64 0 (u128_v64 term) (u128_v0 term) in
      let% (sigZ, rem) := flift (div64_loop 3 d sigZ rem) in
      fret (Z.lor sigZ (b2z (nz (u128_v0 rem))))
    else fret sigZ) = fret z /\ sticky 9 z n d.
Proof.
  intros Hd Hn n. destruct (estimateDiv128To64_bound n64 0 d Hd Hn ltac:(done)) as (z & Ez & Hz & Hq).
  cbv zeta in Hq. rewrite Z.add_0_r in Hq. fold n in Hq. unfold flift at 1, fbind at 1. rewrite Ez.
  assert (0 <= n) by (unfold n; lia). rewrite (Z.land_ones _ 9 : _ -> Z.land _ 0x1FF = _) by lia.
  destruct (Z.leb_spec (z mod 2 ^ 9) 2).
  - destruct (mul64To128_spec d z) as (M1 & M0 & M); [unfold inu in *; lia..|].
    destruct (div64_loop_spec n d 3 z (softfloat_sub128 n64 0 (u128_v64 (softfloat_mul64To128 d z)) (u128_v0 (softfloat_mul64To128 d z))))
      as (rem & L & _ & V0); try apply uint128_in_sub; unfold inu in Hz; try lia.
    + rewrite sub128_val, M, Z.add_0_r by (done || unfold inu; lia). done.
    + exists (jamq n d). unfold fbind, flift. rewrite L, V0. split; [done|].
      apply (sticky_weaken 1); [lia..|]. apply sticky_jamq; lia.
  - exists z. split; [done|]. apply (sticky_estimate 9 z n d (z - n / d)); lia.
Qed.

Lemma fbind_assoc {A B C} (m : FP A) (k : A -> FP B) (h : B -> FP C) rm fl :
  fbind m (fun x => fbind (k x) h) rm fl = fbind (fbind m k) h rm fl.
Proof. unfold fbind. by destruct (m rm fl) as [[x fl']|]. Qed.

Lemma f64_div_spec a b rm fl :
  finite64 a -> finite64 b -> mag64 a <> 0 -> mag64 b <> 0 -> 0 <= rm <= 4 ->
  let R := ref_round F64 rm (xorb (signF64UI a) (signF64UI b)) (mag64 a * 2 ^ 1074) (mag64 b) in
  f64_div a b rm fl = Some (R.1, Z.lor fl R.2).
Proof.
  intros Fa Fb Ha Hb Hrm. destruct (norm64_spec a Fa Ha) as (EA & SA & MA), (norm64_spec b Fb Hb) as (EB & SB & MB).
  cbv zeta in *. unfold f64_div. fold (norm64 a) (norm64 b).
  rewrite !mag64_zero, !(proj2 (Z.eqb_neq _ _)) by (done || apply Fa || apply Fb).
  set (ea := es_exp (norm64 a)) in *. set (eb := es_exp (norm64 b)) in *.
  set (sa := Z.lor (es_sig (norm64 a)) _) in *. set (sb := Z.lor (es_sig (norm64 b)) _) in *. cbv zeta.
  pose proof (mag64_nonneg a (proj1 Fa)). pose proof (mag64_nonneg b (proj1 Fb)).
  rewrite !(shl_small 64) by lia. rewrite (wrapu_small 64 (_ + _)) by (unfold inu; lia).
  assert (forall k E, 9 <= k <= 10 -> E = ea - eb + 0x407 - k ->
    sa * 2 ^ k * 2 ^ 64 * 2 ^ 0 * 2 ^ Z.max E 0 * mag64 b = mag64 a * 2 ^ 1074 * (sb * 2 ^ 11 * 2 ^ 10 * 2 ^ Z.max (- E) 0)) as HE.
  { intros k E Hk ->. apply (Z.mul_cancel_r _ _ (2 ^ 53)); [lia|].
    transitivity (sa * 2 ^ k * 2 ^ 64 * 2 ^ Z.max (ea - eb + 0x407 - k) 0 * (mag64 b * 2 ^ 53)); [ring|].
    transitivity ((mag64 a * 2 ^ 53) * (2 ^ 1074 * sb * 2 ^ 11 * 2 ^ 10 * 2 ^ Z.max (- (ea - eb + 0x407 - k)) 0)); [|ring].
    rewrite MA, MB. transitivity (sa * sb * (2 ^ k * 2 ^ 64 * 2 ^ Z.max (ea - eb + 0x407 - k) 0 * 2 ^ (eb + 52))); [ring|].
    transitivity (sa * sb * (2 ^ (ea + 52) * 2 ^ 1074 * 2 ^ 11 * 2 ^ 10 * 2 ^ Z.max (- (ea - eb + 0x407 - k)) 0)); [|ring].
    f_equal. rewrite <- !Z.pow_add_r by lia. f_equal. lia. }
  assert (forall k E, 9 <= k <= 10 -> E = ea - eb + 0x407 - k ->
    sb * 2 ^ 11 * 2 ^ 62 <= sa * 2 ^ k * 2 ^ 64 < sb * 2 ^ 11 * 2 ^ 63 ->
    (let% sigZ := flift (softfloat_estimateDiv128To64 (sa * 2 ^ k) 0 (sb * 2 ^ 11)) in
     let% sigZ :=
       if Z.land sigZ 0x1FF <=? 2 then
         let term := softfloat_mul64To128 (sb * 2 ^ 11) sigZ in
         let rem := softfloat_sub128 (sa * 2 ^ k) 0 (u128_v64 term) (u128_v0 term) in
         let% (sigZ, rem) := flift (div64_loop 3 (sb * 2 ^ 11) sigZ rem) in
         fret (Z.lor sigZ (b2z (nz (u128_v0 rem))))
       else fret sigZ in
     softfloat_roundPackToF64 (xorb (signF64UI a) (signF64UI b)) E sigZ) rm fl =
    (let R := ref_round F64 rm (xorb (signF64UI a) (signF64UI b)) (mag64 a * 2 ^ 1074) (mag64 b) in Some (R.1, Z.lor fl R.2))) as Hfin.
  { intros k E Hk HEk Hb'. rewrite fbind_assoc. destruct (f64_div_sticky (sa * 2 ^ k) (sb * 2 ^ 11)) as (z & Ez & Hst); [lia..|].
    cbv zeta in Ez |- *. rewrite Ez. unfold fbind, fret. rewrite <- (Z.mul_1_r z). change 1 with (2 ^ 0).
    eapply (roundPackToF64_sticky rm _ E 9 z (sa * 2 ^ k * 2 ^ 64) (sb * 2 ^ 11) 0); auto; lia. }
  destruct (Z.leb_spec (sb * 2 ^ 11) (sa * 2 ^ 10 + sa * 2 ^ 10)).
  - rewrite Z.shiftr_div_pow2 by lia. replace (sa * 2 ^ 10) with (sa * 2 ^ 9 * 2 ^ 1) by lia. rewrite Z.div_mul by lia.
    apply (Hfin 9); lia.
  - apply (Hfin 10); lia.
Qed.

(** ** Addition and subtraction are correctly rounded *)

(** An even integer added to, or reduced by, a jammed one. *)
Lemma jamq_add x y d :
  0 <= x -> 0 <= y -> 0 < d -> Z.even x = true -> x + jamq y d = jamq (x * d + y) d.
Proof.
  intros Hx Hy Hd He. unfold jamq. rewrite Z.div_add_l, mod_mul_shift by lia.
  pose proof (Z.div_pos y d Hy Hd). unfold nz. destruct (y mod d =? 0); cbn [negb b2z]; [by rewrite !Z.lor_0_r|].
  rewrite !lor_1_r by lia. rewrite Z.odd_add, <- (Z.negb_even x), He. simpl. destruct (Z.odd (y / d)); lia.
Qed.

Lemma jamq_sub x y d :
  0 <= y <= x * d -> 0 < d -> Z.even x = true -> x - jamq y d = jamq (x * d - y) d.
Proof.
  intros Hy Hd He. pose proof (Z.div_mod y d ltac:(lia)) as E. pose proof (Z.mod_pos_bound y d Hd).
  pose proof (Z.div_pos y d ltac:(lia) Hd). unfold jamq, nz. destruct (Z.eqb_spec (y mod d) 0) as [E0|E0].
  - assert (x * d - y = (x - y / d) * d + 0) as -> by lia. rewrite Z.div_add_l, mod_mul_shift by lia.
    rewrite Zdiv_0_l, Zmod_0_l. cbn [Z.eqb negb b2z]. rewrite !Z.lor_0_r. lia.
  - assert (x * d - y = (x - y / d - 1) * d + (d - y mod d)) as -> by lia.
    rewrite div_mul_shift, mod_mul_shift, (Z.mod_small (d - y mod d)) by lia.
    rewrite (proj2 (Z.eqb_neq (d - y mod d) 0)) by lia. cbn [negb b2z].
    assert (y / d < x) by nia. rewrite !lor_1_r by lia.
    rewrite !Z.odd_sub, <- (Z.negb_even x), He. cbn [negb xorb Z.odd]. destruct (Z.odd (y / d)); simpl; lia.
Qed.

(** The aligned significand of the smaller operand, for [k] guard bits. *)
Lemma aligned32 a k :
  inu 32 a -> 0 <= k <= 7 ->
  let T := u32 (shl 32 (fracF32UI a) k + (if nz (expF32UI a) then 2 ^ (23 + k) else shl 32 (fracF32UI a) k)) in
  0 <= T < 2 ^ (24 + k) /\ T * 2 ^ expF32UI a = mag32 a * 2 ^ (k + 1) /\
  (0 < expF32UI a -> T = (fracF32UI a + 2 ^ 23) * 2 ^ k).
Proof.
  intros Ha Hk. destruct (fields32 a Ha) as (He & Hf & _). cbv zeta. unfold mag32.
  pose proof (pow2_pos k ltac:(lia)). pose proof (Z.pow_le_mono_r 2 k 7).
  rewrite !shl_small by nia. rewrite !Z.pow_add_r by lia. unfold nz.
  destruct (Z.eqb_spec (expF32UI a) 0) as [E|E]; cbn [negb].
  - rewrite wrapu_small by (unfold inu; nia). rewrite E. split_and!; nia.
  - rewrite wrapu_small by (unfold inu; nia). split_and!; [nia..| |lia].
    replace (expF32UI a) with (expF32UI a - 1 + 1) at 1 by lia. rewrite Z.pow_add_r by lia. ring.
Qed.

Lemma aligned64 a k :
  inu 64 a -> 0 <= k <= 10 ->
  let T := u64 (shl 64 (fracF64UI a) k + (if nz (expF64UI a) then 2 ^ (52 + k) else shl 64 (fracF64UI a) k)) in
  0 <= T < 2 ^ (53 + k) /\ T * 2 ^ expF64UI a = mag64 a * 2 ^ (k + 1) /\
  (0 < expF64UI a -> T = (fracF64UI a + 2 ^ 52) * 2 ^ k).
Proof.
  intros Ha Hk. destruct (fields64 a Ha) as (He & Hf & _). cbv zeta. unfold mag64.
  pose proof (pow2_pos k ltac:(lia)). pose proof (Z.pow_le_mono_r 2 k 10).
  rewrite !shl_small by nia. rewrite !Z.pow_add_r by lia. unfold nz.
  destruct (Z.eqb_spec (expF64UI a) 0) as [E|E]; cbn [negb].
  - rewrite wrapu_small by (unfold inu; nia). rewrite E. split_and!; nia.
  - rewrite wrapu_small by (unfold inu; nia). split_and!; [nia..| |lia].
    replace (expF64UI a) with (expF64UI a - 1 + 1) at 1 by lia. rewrite Z.pow_add_r by lia. ring.
Qed.

Lemma mag32_normal a : 0 < expF32UI a -> mag32 a * 2 = (fracF32UI a + 2 ^ 23) * 2 ^ expF32UI a.
Proof.
  intros. unfold mag32. rewrite (proj2 (Z.eqb_neq _ 0)) by lia.
  replace (expF32UI a) with (expF32UI a - 1 + 1) at 2 by lia. rewrite Z.pow_add_r by lia. ring.
Qed.

Lemma mag64_normal a : 0 < expF64UI a -> mag64 a * 2 = (fracF64UI a + 2 ^ 52) * 2 ^ expF64UI a.
Proof.
  intros. unfold mag64. rewrite (proj2 (Z.eqb_neq _ 0)) by lia.
  replace (expF64UI a) with (expF64UI a - 1 + 1) at 2 by lia. rewrite Z.pow_add_r by lia. ring.
Qed.

(** The tail of [addMags] for unequal exponents: [T] is the aligned smaller
    operand, [F + 2^23] the significand of the larger one. *)
Lemma addMags32_unequal signZ expZ F T diff N rm fl :
  0 <= rm <= 4 -> 0 < expZ < 0xFF -> 0 <= F < 2 ^ 23 -> 0 <= T < 2 ^ 30 -> 0 < diff -> 0 <= N ->
  ((F + 2 ^ 23) * 2 ^ 6 * 2 ^ diff + T) * 2 ^ expZ = N * (2 ^ diff * 2 ^ 7) ->
  let R := ref_round F32 rm signZ N 1 in
  (let sigZ := u32 (0x20000000 + shl 32 F 6 + softfloat_shift32RightJam T diff) in
   if sigZ <? 0x40000000 then softfloat_roundPackToF32 signZ (expZ - 1) (shl 32 sigZ 1)
   else softfloat_roundPackToF32 signZ expZ sigZ) rm fl = Some (R.1, Z.lor fl R.2).
Proof.
  intros Hrm He HF HT Hd HN E. cbv zeta. rewrite shift32RightJam_jam by (unfold inu; lia).
  change (jam T diff) with (jamq T (2 ^ diff)). pose proof (pow2_pos diff ltac:(lia)) as Pd.
  rewrite (shl_small 32 F 6) by lia. set (x := (F + 2 ^ 23) * 2 ^ 6) in *.
  assert (0x20000000 + F * 2 ^ 6 + jamq T (2 ^ diff) = jamq (x * 2 ^ diff + T) (2 ^ diff)) as ->.
  { rewrite <- jamq_add by (unfold x; rewrite ?Z.even_mul, ?orb_true_r; lia || done). unfold x. lia. }
  set (n := x * 2 ^ diff + T) in *. assert (2 <= 2 ^ diff) by (apply (Z.pow_le_mono_r 2 1); lia).
  assert (2 ^ diff * 2 ^ 29 <= n < 2 ^ diff * 2 ^ 31) as Hn by (unfold n, x; nia).
  pose proof (jamq_between n (2 ^ diff) (2 ^ 29) (2 ^ 31) ltac:(lia) Pd ltac:(lia) eq_refl Hn) as HJ.
  rewrite wrapu_small by (unfold inu; lia). pose proof (sticky_jamq n (2 ^ diff) ltac:(lia) Pd) as HS.
  assert (2 ^ expZ = 2 * 2 ^ (expZ - 1)) as Ep by (rewrite <- Z.pow_succ_r by lia; f_equal; lia).
  destruct (Z.ltb_spec (jamq n (2 ^ diff)) 0x40000000) as [Hl|Hl].
  - rewrite shl_small by lia. apply (roundPackToF32_sticky rm _ _ 1 _ n (2 ^ diff) 1); auto; try lia.
    + destruct (Z.lt_ge_cases n (2 ^ diff * 2 ^ 30)); [lia|].
      pose proof (jamq_between n (2 ^ diff) (2 ^ 30) (2 ^ 31) ltac:(lia) Pd ltac:(lia) eq_refl ltac:(lia)). lia.
    + rewrite (Z.max_l (expZ - 1)), Z.max_r by lia. lia.
  - rewrite <- (Z.mul_1_r (jamq n (2 ^ diff))). change 1 with (2 ^ 0).
    apply (roundPackToF32_sticky rm _ _ 1 _ n (2 ^ diff) 0); auto; try lia.
    + destruct (Z.lt_ge_cases n (2 ^ diff * 2 ^ 30)); [|lia].
      pose proof (jamq_between n (2 ^ diff) (2 ^ 29) (2 ^ 30) ltac:(lia) Pd ltac:(lia) eq_refl ltac:(lia)). lia.
    + rewrite (Z.max_l expZ), Z.max_r by lia. lia.
Qed.

Lemma addMagsF32_spec a b signZ rm fl :
  finite32 a -> finite32 b -> 0 <= rm <= 4 ->
  let R := ref_round F32 rm signZ (mag32 a + mag32 b) 1 in
  softfloat_addMagsF32 a b signZ rm fl = Some (R.1, Z.lor fl R.2).
Proof.
  intros [Ia Fa] [Ib Fb] Hrm. cbv zeta. destruct (fields32 a Ia) as (EA & FA & Wa), (fields32 b Ib) as (EB & FB & Wb).
  pose proof (mag32_nonneg a Ia). pose proof (mag32_nonneg b Ib).
  destruct (aligned32 a 6 Ia ltac:(lia)) as (TA & MA & _), (aligned32 b 6 Ib ltac:(lia)) as (TB & MB & _). cbv zeta in *.
  change (6 + 1) with 7 in *. pose proof (mag32_normal a) as NA. pose proof (mag32_normal b) as NB.
  unfold softfloat_addMagsF32. cbv zeta. change 0x20000000 with (2 ^ (23 + 6)).
  set (Ta := u32 (shl 32 (fracF32UI a) 6 + _)) in *. set (Tb := u32 (shl 32 (fracF32UI b) 6 + _)) in *.
  rewrite (proj2 (Z.eqb_neq _ _) Fa), (proj2 (Z.eqb_neq _ _) Fb). unfold nz at 1.
  destruct (Z.eqb_spec (expF32UI a - expF32UI b) 0) as [E|E]; cbn [negb].
  - unfold nz at 1. destruct (Z.eqb_spec (expF32UI a) 0) as [E0|E0]; cbn [negb].
    + assert (Z.land (u32 (a + b)) 0x7FFFFFFF = fracF32UI a + fracF32UI b) as ->.
      { rewrite (Z.land_ones _ 31 : _ -> Z.land _ 0x7FFFFFFF = _) by lia.
        change (u32 (a + b) mod 2 ^ 31) with (wrapu 31 (u32 (a + b))). rewrite wrapu_wrapu by lia. unfold wrapu.
        replace (a + b) with ((b2z (signF32UI a) + b2z (signF32UI b)) * 2 ^ 31 + (fracF32UI a + fracF32UI b)) by lia.
        rewrite mod_mul_shift, Z.mod_small by lia. done. }
      rewrite packToF32UI_val by lia. unfold fret, mag32. replace (expF32UI b) with 0 by lia. rewrite E0. cbn [Z.eqb].
      rewrite (ref_round_exact F32 rm signZ _ 1 0 (fracF32UI a + fracF32UI b)); cbn [F32 frac_bits exp_max fwidth]; try lia.
      cbn [fst snd]. rewrite Z.lor_0_r. f_equal. f_equal. lia.
    + rewrite !shl_small, wrapu_small by (unfold inu; lia).
      pose proof (roundPackToF32_ref rm signZ (expF32UI a) (0x40000000 + fracF32UI a * 2 ^ 6 + fracF32UI b * 2 ^ 6) 1 fl Hrm) as HR.
      rewrite jamq_1 in HR. rewrite HR by lia. pose proof (pow2_pos (expF32UI a) ltac:(lia)).
      rewrite (ref_round_eq F32 rm signZ _ _ (mag32 a + mag32 b) 1); [done|rewrite Z.max_l by lia; nia|rewrite Z.max_r by lia; lia|lia|lia|].
      rewrite Z.max_l, Z.max_r by lia. specialize (NA ltac:(lia)). specialize (NB ltac:(lia)).
      replace (expF32UI b) with (expF32UI a) in NB by lia. lia.
  - destruct (Z.ltb_spec (expF32UI a - expF32UI b) 0).
    + rewrite <- Z.add_assoc, (Z.add_comm (softfloat_shift32RightJam _ _)), Z.add_assoc.
      apply addMags32_unequal; auto; try lia. specialize (NB ltac:(lia)).
      replace (- (expF32UI a - expF32UI b)) with (expF32UI b - expF32UI a) by lia.
      assert (2 ^ expF32UI b = 2 ^ expF32UI a * 2 ^ (expF32UI b - expF32UI a)) as Ep by (by apply pow2_split; lia).
      replace (((fracF32UI b + 2 ^ 23) * 2 ^ 6 * 2 ^ (expF32UI b - expF32UI a) + Ta) * 2 ^ expF32UI b) with
        ((fracF32UI b + 2 ^ 23) * 2 ^ expF32UI b * 2 ^ 6 * 2 ^ (expF32UI b - expF32UI a) + Ta * 2 ^ expF32UI a * 2 ^ (expF32UI b - expF32UI a))
        by (rewrite Ep; ring).
      rewrite <- NB, MA. ring.
    + apply addMags32_unequal; auto; try lia. specialize (NA ltac:(lia)).
      assert (2 ^ expF32UI a = 2 ^ expF32UI b * 2 ^ (expF32UI a - expF32UI b)) as Ep by (by apply pow2_split; lia).
      replace (((fracF32UI a + 2 ^ 23) * 2 ^ 6 * 2 ^ (expF32UI a - expF32UI b) + Tb) * 2 ^ expF32UI a) with
        ((fracF32UI a + 2 ^ 23) * 2 ^ expF32UI a * 2 ^ 6 * 2 ^ (expF32UI a - expF32UI b) + Tb * 2 ^ expF32UI b * 2 ^ (expF32UI a - expF32UI b))
        by (rewrite Ep; ring).
      rewrite <- NA, MB. ring.
Qed.

(** The tail of [subMags] for unequal exponents. *)
Lemma subMags32_unequal sign expZ F T diff N rm fl :
  0 <= rm <= 4 -> 0 < expZ < 0xFF -> 0 <= F < 2 ^ 23 -> 0 <= T < 2 ^ 31 -> 0 < diff ->
  (diff = 1 -> Z.even T = true) -> 0 <= N ->
  ((F + 2 ^ 23) * 2 ^ 7 * 2 ^ diff - T) * 2 ^ (expZ - 1) = N * (2 ^ diff * 2 ^ 7) ->
  let R := ref_round F32 rm sign N 1 in
  softfloat_normRoundPackToF32 sign (expZ - 1)
    (u32 (Z.lor (shl 32 F 7) 0x40000000 - softfloat_shift32RightJam T diff)) rm fl = Some (R.1, Z.lor fl R.2).
Proof.
  intros Hrm He HF HT Hd Hev HN E. cbv zeta. rewrite shift32RightJam_jam by (unfold inu; lia).
  change (jam T diff) with (jamq T (2 ^ diff)). pose proof (pow2_pos diff ltac:(lia)) as Pd.
  rewrite (shl_small 32 F 7), (lor_disjoint_add _ 1 30 : _ -> _ -> _ -> Z.lor _ 0x40000000 = _) by (unfold inu; lia).
  replace (F * 2 ^ 7 + 1 * 2 ^ 30) with ((F + 2 ^ 23) * 2 ^ 7) by lia.
  set (x := (F + 2 ^ 23) * 2 ^ 7) in *. assert (2 ^ 30 <= x < 2 ^ 31) by (unfold x; lia).
  assert (2 <= 2 ^ diff) by (apply (Z.pow_le_mono_r 2 1); lia).
  rewrite jamq_sub by (unfold x; rewrite ?Z.even_mul, ?orb_true_r; nia || done).
  set (n := x * 2 ^ diff - T) in *. assert (0 <= n) by (unfold n; nia).
  pose proof (pow2_pos (expZ - 1) ltac:(lia)). destruct (Z.eq_dec diff 1) as [->|Hd2].
  - assert (exists h, T = 2 * h) as [h Eh] by (apply Z.even_spec, Hev; done).
    assert (jamq n (2 ^ 1) = x - h) as ->.
    { unfold jamq. replace n with ((x - h) * 2 ^ 1) by lia. rewrite Z.div_mul, Z.mod_mul by lia. apply Z.lor_0_r. }
    rewrite wrapu_small by (unfold inu; lia). rewrite normRoundPackToF32_ref by lia.
    rewrite (ref_round_eq F32 rm sign _ _ N 1); [done|rewrite Z.max_l by lia; nia|rewrite Z.max_r by lia; lia|lia|lia|].
    rewrite Z.max_l, Z.max_r by lia. lia.
  - assert (4 <= 2 ^ diff) by (apply (Z.pow_le_mono_r 2 2); lia).
    assert (2 ^ diff * 2 ^ 29 <= n < 2 ^ diff * 2 ^ 31) as Hn by (unfold n; nia).
    assert (2 ^ 29 <= jamq n (2 ^ diff) < 2 ^ 31) as HJ by (apply jamq_between; lia || done).
    rewrite wrapu_small by (unfold inu; lia). rewrite normRoundPackToF32_ref by lia.
    rewrite (Z.max_l (expZ - 1)), (Z.max_r (- (expZ - 1))), Z.mul_1_r by lia.
    rewrite (ref_round_sticky F32 rm sign 1 _ n (2 ^ diff)); try (cbn [F32 frac_bits]; lia).
    + rewrite (ref_round_eq F32 rm sign _ _ N 1); [done|nia|lia|lia|lia|]. lia.
    + apply sticky_jamq; lia.
Qed.

Lemma subMagsF32_spec a b signZ rm fl :
  finite32 a -> finite32 b -> 0 <= rm <= 4 ->
  let v := mag32 a - mag32 b in
  let R := ref_round F32 rm (if v <? 0 then negb signZ else signZ) (Z.abs v) 1 in
  softfloat_subMagsF32 a b signZ rm fl =
  if v =? 0 then Some (b2z (rm =? 2) * 2 ^ 31, fl) else Some (R.1, Z.lor fl R.2).
Proof.
  intros [Ia Fa] [Ib Fb] Hrm. cbv zeta. destruct (fields32 a Ia) as (EA & FA & Wa), (fields32 b Ib) as (EB & FB & Wb).
  destruct (aligned32 a 7 Ia ltac:(lia)) as (TA & MA & TnA), (aligned32 b 7 Ib ltac:(lia)) as (TB & MB & TnB). cbv zeta in *.
  change (7 + 1) with 8 in *. change (24 + 7) with 31 in *. pose proof (mag32_normal a) as NA. pose proof (mag32_normal b) as NB.
  assert (expF32UI a < expF32UI b -> mag32 a < mag32 b) as La by (intros; apply (mag_of_lt 23); lia).
  assert (expF32UI b < expF32UI a -> mag32 b < mag32 a) as Lb by (intros; apply (mag_of_lt 23); lia).
  unfold softfloat_subMagsF32. cbv zeta. change 0x40000000 with (2 ^ (23 + 7)) at 1 3.
  set (Ta := u32 (shl 32 (fracF32UI a) 7 + _)) in *. set (Tb := u32 (shl 32 (fracF32UI b) 7 + _)) in *.
  rewrite (proj2 (Z.eqb_neq _ _) Fa), (proj2 (Z.eqb_neq _ _) Fb).
  assert (forall e e', e < e' -> 0 <= e -> 2 ^ (e' - 1) * 2 = 2 ^ e * 2 ^ (e' - e)) as Hpow.
  { intros. rewrite <- Z.pow_add_r, Z.mul_comm, <- Z.pow_succ_r by lia. f_equal. lia. }
  destruct (Z.ltb_spec 0 (expF32UI a - expF32UI b)); [|destruct (Z.ltb_spec (expF32UI a - expF32UI b) 0)].
  - specialize (Lb ltac:(lia)). rewrite (proj2 (Z.eqb_neq _ 0)), (proj2 (Z.ltb_ge _ 0)) by lia. specialize (NA ltac:(lia)).
    apply subMags32_unequal; auto; try lia.
    + intros ED. destruct (Z.eq_dec (expF32UI b) 0) as [E0|E0].
      * rewrite E0 in MB. replace Tb with (mag32 b * 2 ^ 8) by lia. by rewrite Z.even_mul, orb_true_r.
      * rewrite TnB by lia. by rewrite Z.even_mul, orb_true_r.
    + specialize (Hpow (expF32UI b) (expF32UI a) ltac:(lia) ltac:(lia)). set (P := 2 ^ (expF32UI a - 1)) in *.
      set (D := 2 ^ (expF32UI a - expF32UI b)) in *. assert (2 ^ expF32UI a = P * 2) as Ea.
      { unfold P. rewrite Z.mul_comm, <- Z.pow_succ_r by lia. f_equal. lia. }
      rewrite Ea in NA. rewrite Z.abs_eq by lia.
      apply (Z.mul_cancel_r _ _ 2); [lia|].
      transitivity ((fracF32UI a + 2 ^ 23) * (P * 2) * 2 ^ 7 * D - Tb * (P * 2)); [ring|].
      rewrite Hpow, <- Hpow, <- NA at 1. rewrite Hpow, Z.mul_assoc, MB. ring.
  - specialize (La ltac:(lia)). rewrite (proj2 (Z.eqb_neq _ 0)), (proj2 (Z.ltb_lt _ 0)) by lia. specialize (NB ltac:(lia)).
    replace (- (expF32UI a - expF32UI b)) with (expF32UI b - expF32UI a) by lia.
    apply subMags32_unequal; auto; try lia.
    + intros ED. destruct (Z.eq_dec (expF32UI a) 0) as [E0|E0].
      * rewrite E0 in MA. replace Ta with (mag32 a * 2 ^ 8) by lia. by rewrite Z.even_mul, orb_true_r.
      * rewrite TnA by lia. by rewrite Z.even_mul, orb_true_r.
    + specialize (Hpow (expF32UI a) (expF32UI b) ltac:(lia) ltac:(lia)). set (P := 2 ^ (expF32UI b - 1)) in *.
      set (D := 2 ^ (expF32UI b - expF32UI a)) in *. assert (2 ^ expF32UI b = P * 2) as Ea.
      { unfold P. rewrite Z.mul_comm, <- Z.pow_succ_r by lia. f_equal. lia. }
      rewrite Ea in NB. rewrite Z.abs_neq by lia.
      apply (Z.mul_cancel_r _ _ 2); [lia|].
      transitivity ((fracF32UI b + 2 ^ 23) * (P * 2) * 2 ^ 7 * D - Ta * (P * 2)); [ring|].
      rewrite Hpow, <- Hpow, <- NB at 1. rewrite Hpow, Z.mul_assoc, MA. ring.
  - set (e := if negb (nz (expF32UI a)) then 1 else expF32UI a).
    replace (if negb (nz (expF32UI a)) then (1, 1) else (expF32UI a, expF32UI b)) with (e, e)
      by (unfold e; destruct (negb _); [done|f_equal; lia]).
    assert (1 <= e < 0xFF /\ mag32 a - mag32 b = (fracF32UI a - fracF32UI b) * 2 ^ (e - 1)) as [He Hv].
    { unfold e, mag32, nz. replace (expF32UI b) with (expF32UI a) by lia.
      destruct (Z.eqb_spec (expF32UI a) 0); cbn [negb]; split; [lia| |lia|]; [change (1 - 1) with 0; lia|ring]. }
    rewrite !shl_small by lia. rewrite Hv. pose proof (pow2_pos (e - 1) ltac:(lia)).
    assert (forall s d, 0 < d < 2 ^ 23 -> softfloat_normRoundPackToF32 s (e - 1) (u32 (d * 2 ^ 7)) rm fl =
      Some ((ref_round F32 rm s (d * 2 ^ (e - 1)) 1).1, Z.lor fl (ref_round F32 rm s (d * 2 ^ (e - 1)) 1).2)) as Hfin.
    { intros s d Hd. rewrite wrapu_small by (unfold inu; lia). rewrite normRoundPackToF32_ref by lia.
      rewrite (ref_round_eq F32 rm s _ _ (d * 2 ^ (e - 1)) 1); [done|rewrite Z.max_l by lia; apply Z.mul_nonneg_nonneg; lia|rewrite Z.max_r by lia; lia|apply Z.mul_nonneg_nonneg; lia|lia|].
      rewrite Z.max_l, Z.max_r by lia. ring. }
    destruct (Z.ltb_spec (fracF32UI b * 2 ^ 7) (fracF32UI a * 2 ^ 7)); [|destruct (Z.ltb_spec (fracF32UI a * 2 ^ 7) (fracF32UI b * 2 ^ 7))].
    + assert (0 < (fracF32UI a - fracF32UI b) * 2 ^ (e - 1)) by (apply Z.mul_pos_pos; lia).
      rewrite (proj2 (Z.eqb_neq _ 0)), (proj2 (Z.ltb_ge _ 0)), Z.abs_eq by lia.
      rewrite <- Hfin by lia. f_equal. f_equal. ring.
    + assert ((fracF32UI a - fracF32UI b) * 2 ^ (e - 1) < 0) by (apply Z.mul_neg_pos; lia).
      rewrite (proj2 (Z.eqb_neq _ 0)), (proj2 (Z.ltb_lt _ 0)), Z.abs_neq, <- Z.mul_opp_l by lia.
      rewrite <- Hfin by lia. f_equal. f_equal. ring.
    + replace (fracF32UI a - fracF32UI b) with 0 by lia. rewrite Z.mul_0_l. cbn [Z.eqb].
      unfold fbind, softfloat_roundingMode, fret. rewrite packToF32UI_val by lia. f_equal. f_equal. unfold softfloat_round_min. lia.
Qed.

(** The tail of [addMags] for unequal exponents: [T] is the aligned smaller
    operand, [F + 2^23] the significand of the larger one. *)
Lemma addMags64_unequal signZ expZ F T diff N rm fl :
  0 <= rm <= 4 -> 0 < expZ < 0x7FF -> 0 <= F < 2 ^ 52 -> 0 <= T < 2 ^ 62 -> 0 < diff -> 0 <= N ->
  ((F + 2 ^ 52) * 2 ^ 9 * 2 ^ diff + T) * 2 ^ expZ = N * (2 ^ diff * 2 ^ 10) ->
  let R := ref_round F64 rm signZ N 1 in
  (let sigZ := u64 (0x2000000000000000 + shl 64 F 9 + softfloat_shift64RightJam T diff) in
   if sigZ <? 0x4000000000000000 then softfloat_roundPackToF64 signZ (expZ - 1) (shl 64 sigZ 1)
   else softfloat_roundPackToF64 signZ expZ sigZ) rm fl = Some (R.1, Z.lor fl R.2).
Proof.
  intros Hrm He HF HT Hd HN E. cbv zeta. rewrite shift64RightJam_jam by (unfold inu; lia).
  change (jam T diff) with (jamq T (2 ^ diff)). pose proof (pow2_pos diff ltac:(lia)) as Pd.
  rewrite (shl_small 64 F 9) by lia. set (x := (F + 2 ^ 52) * 2 ^ 9) in *.
  assert (0x2000000000000000 + F * 2 ^ 9 + jamq T (2 ^ diff) = jamq (x * 2 ^ diff + T) (2 ^ diff)) as ->.
  { rewrite <- jamq_add by (unfold x; rewrite ?Z.even_mul, ?orb_true_r; lia || done). unfold x. lia. }
  set (n := x * 2 ^ diff + T) in *. assert (2 <= 2 ^ diff) by (apply (Z.pow_le_mono_r 2 1); lia).
  assert (2 ^ diff * 2 ^ 61 <= n < 2 ^ diff * 2 ^ 63) as Hn by (unfold n, x; nia).
  pose proof (jamq_between n (2 ^ diff) (2 ^ 61) (2 ^ 63) ltac:(lia) Pd ltac:(lia) eq_refl Hn) as HJ.
  rewrite wrapu_small by (unfold inu; lia). pose proof (sticky_jamq n (2 ^ diff) ltac:(lia) Pd) as HS.
  assert (2 ^ expZ = 2 * 2 ^ (expZ - 1)) as Ep by (rewrite <- Z.pow_succ_r by lia; f_equal; lia).
  destruct (Z.ltb_spec (jamq n (2 ^ diff)) 0x4000000000000000) as [Hl|Hl].
  - rewrite shl_small by lia. apply (roundPackToF64_sticky rm _ _ 1 _ n (2 ^ diff) 1); auto; try lia.
    + destruct (Z.lt_ge_cases n (2 ^ diff * 2 ^ 62)); [lia|].
      pose proof (jamq_between n (2 ^ diff) (2 ^ 62) (2 ^ 63) ltac:(lia) Pd ltac:(lia) eq_refl ltac:(lia)). lia.
    + rewrite (Z.max_l (expZ - 1)), Z.max_r by lia. lia.
  - rewrite <- (Z.mul_1_r (jamq n (2 ^ diff))). change 1 with (2 ^ 0).
    apply (roundPackToF64_sticky rm _ _ 1 _ n (2 ^ diff) 0); auto; try lia.
    + destruct (Z.lt_ge_cases n (2 ^ diff * 2 ^ 62)); [|lia].
      pose proof (jamq_between n (2 ^ diff) (2 ^ 61) (2 ^ 62) ltac:(lia) Pd ltac:(lia) eq_refl ltac:(lia)). lia.
    + rewrite (Z.max_l expZ), Z.max_r by lia. lia.
Qed.

Lemma addMagsF64_spec a b signZ rm fl :
  finite64 a -> finite64 b -> 0 <= rm <= 4 ->
  let R := ref_round F64 rm signZ (mag64 a + mag64 b) 1 in
  softfloat_addMagsF64 a b signZ rm fl = Some (R.1, Z.lor fl R.2).
Proof.
  intros [Ia Fa] [Ib Fb] Hrm. cbv zeta. destruct (fields64 a Ia) as (EA & FA & Wa), (fields64 b Ib) as (EB & FB & Wb).
  pose proof (mag64_nonneg a Ia). pose proof (mag64_nonneg b Ib).
  destruct (aligned64 a 9 Ia ltac:(lia)) as (TA & MA & _), (aligned64 b 9 Ib ltac:(lia)) as (TB & MB & _). cbv zeta in *.
  change (9 + 1) with 10 in *. pose proof (mag64_normal a) as NA. pose proof (mag64_normal b) as NB.
  unfold softfloat_addMagsF64. cbv zeta. change 0x2000000000000000 with (2 ^ (52 + 9)).
  set (Ta := u64 (shl 64 (fracF64UI a) 9 + _)) in *. set (Tb := u64 (shl 64 (fracF64UI b) 9 + _)) in *.
  rewrite (proj2 (Z.eqb_neq _ _) Fa), (proj2 (Z.eqb_neq _ _) Fb). unfold nz at 1.
  destruct (Z.eqb_spec (expF64UI a - expF64UI b) 0) as [E|E]; cbn [negb].
  - unfold nz at 1. destruct (Z.eqb_spec (expF64UI a) 0) as [E0|E0]; cbn [negb].
    + assert (Z.land (u64 (a + b)) 0x7FFFFFFFFFFFFFFF = fracF64UI a + fracF64UI b) as ->.
      { rewrite (Z.land_ones _ 63 : _ -> Z.land _ 0x7FFFFFFFFFFFFFFF = _) by lia.
        change (u64 (a + b) mod 2 ^ 63) with (wrapu 63 (u64 (a + b))). rewrite wrapu_wrapu by lia. unfold wrapu.
        replace (a + b) with ((b2z (signF64UI a) + b2z (signF64UI b)) * 2 ^ 63 + (fracF64UI a + fracF64UI b)) by lia.
        rewrite mod_mul_shift, Z.mod_small by lia. done. }
      rewrite packToF64UI_val by lia. unfold fret, mag64. replace (expF64UI b) with 0 by lia. rewrite E0. cbn [Z.eqb].
      rewrite (ref_round_exact F64 rm signZ _ 1 0 (fracF64UI a + fracF64UI b)); cbn [F64 frac_bits exp_max fwidth]; try lia.
      cbn [fst snd]. rewrite Z.lor_0_r. f_equal. f_equal. lia.
    + rewrite !shl_small, wrapu_small by (unfold inu; lia).
      pose proof (roundPackToF64_ref rm signZ (expF64UI a) (0x4000000000000000 + fracF64UI a * 2 ^ 9 + fracF64UI b * 2 ^ 9) 1 fl Hrm) as HR.
      rewrite jamq_1 in HR. rewrite HR by lia. pose proof (pow2_pos (expF64UI a) ltac:(lia)).
      rewrite (ref_round_eq F64 rm signZ _ _ (mag64 a + mag64 b) 1); [done|rewrite Z.max_l by lia; nia|rewrite Z.max_r by lia; lia|lia|lia|].
      rewrite Z.max_l, Z.max_r by lia. specialize (NA ltac:(lia)). specialize (NB ltac:(lia)).
      replace (expF64UI b) with (expF64UI a) in NB by lia. lia.
  - destruct (Z.ltb_spec (expF64UI a - expF64UI b) 0).
    + rewrite <- Z.add_assoc, (Z.add_comm (softfloat_shift64RightJam _ _)), Z.add_assoc.
      apply addMags64_unequal; auto; try lia. specialize (NB ltac:(lia)).
      replace (- (expF64UI a - expF64UI b)) with (expF64UI b - expF64UI a) by lia.
      assert (2 ^ expF64UI b = 2 ^ expF64UI a * 2 ^ (expF64UI b - expF64UI a)) as Ep by (by apply pow2_split; lia).
      replace (((fracF64UI b + 2 ^ 52) * 2 ^ 9 * 2 ^ (expF64UI b - expF64UI a) + Ta) * 2 ^ expF64UI b) with
        ((fracF64UI b + 2 ^ 52) * 2 ^ expF64UI b * 2 ^ 9 * 2 ^ (expF64UI b - expF64UI a) + Ta * 2 ^ expF64UI a * 2 ^ (expF64UI b - expF64UI a))
        by (rewrite Ep; ring).
      rewrite <- NB, MA. ring.
    + apply addMags64_unequal; auto; try lia. specialize (NA ltac:(lia)).
      assert (2 ^ expF64UI a = 2 ^ expF64UI b * 2 ^ (expF64UI a - expF64UI b)) as Ep by (by apply pow2_split; lia).
      replace (((fracF64UI a + 2 ^ 52) * 2 ^ 9 * 2 ^ (expF64UI a - expF64UI b) + Tb) * 2 ^ expF64UI a) with
        ((fracF64UI a + 2 ^ 52) * 2 ^ expF64UI a * 2 ^ 9 * 2 ^ (expF64UI a - expF64UI b) + Tb * 2 ^ expF64UI b * 2 ^ (expF64UI a - expF64UI b))
        by (rewrite Ep; ring).
      rewrite <- NA, MB. ring.
Qed.

(** The tail of [subMags] for unequal exponents. *)
Lemma subMags64_unequal sign expZ F T diff N rm fl :
  0 <= rm <= 4 -> 0 < expZ < 0x7FF -> 0 <= F < 2 ^ 52 -> 0 <= T < 2 ^ 63 -> 0 < diff ->
  (diff = 1 -> Z.even T = true) -> 0 <= N ->
  ((F + 2 ^ 52) * 2 ^ 10 * 2 ^ diff - T) * 2 ^ (expZ - 1) = N * (2 ^ diff * 2 ^ 10) ->
  let R := ref_round F64 rm sign N 1 in
  softfloat_normRoundPackToF64 sign (expZ - 1)
    (u64 (Z.lor (shl 64 F 10) 0x4000000000000000 - softfloat_shift64RightJam T diff)) rm fl = Some (R.1, Z.lor fl R.2).
Proof.
  intros Hrm He HF HT Hd Hev HN E. cbv zeta. rewrite shift64RightJam_jam by (unfold inu; lia).
  change (jam T diff) with (jamq T (2 ^ diff)). pose proof (pow2_pos diff ltac:(lia)) as Pd.
  rewrite (shl_small 64 F 10), (lor_disjoint_add _ 1 62 : _ -> _ -> _ -> Z.lor _ 0x4000000000000000 = _) by (unfold inu; lia).
  replace (F * 2 ^ 10 + 1 * 2 ^ 62) with ((F + 2 ^ 52) * 2 ^ 10) by lia.
  set (x := (F + 2 ^ 52) * 2 ^ 10) in *. assert (2 ^ 62 <= x < 2 ^ 63) by (unfold x; lia).
  assert (2 <= 2 ^ diff) by (apply (Z.pow_le_mono_r 2 1); lia).
  rewrite jamq_sub by (unfold x; rewrite ?Z.even_mul, ?orb_true_r; nia || done).
  set (n := x * 2 ^ diff - T) in *. assert (0 <= n) by (unfold n; nia).
  pose proof (pow2_pos (expZ - 1) ltac:(lia)). destruct (Z.eq_dec diff 1) as [->|Hd2].
  - assert (exists h, T = 2 * h) as [h Eh] by (apply Z.even_spec, Hev; done).
    assert (jamq n (2 ^ 1) = x - h) as ->.
    { unfold jamq. replace n with ((x - h) * 2 ^ 1) by lia. rewrite Z.div_mul, Z.mod_mul by lia. apply Z.lor_0_r. }
    rewrite wrapu_small by (unfold inu; lia). rewrite normRoundPackToF64_ref by lia.
    rewrite (ref_round_eq F64 rm sign _ _ N 1); [done|rewrite Z.max_l by lia; nia|rewrite Z.max_r by lia; lia|lia|lia|].
    rewrite Z.max_l, Z.max_r by lia. lia.
  - assert (4 <= 2 ^ diff) by (apply (Z.pow_le_mono_r 2 2); lia).
    assert (2 ^ diff * 2 ^ 61 <= n < 2 ^ diff * 2 ^ 63) as Hn by (unfold n; nia).
    assert (2 ^ 61 <= jamq n (2 ^ diff) < 2 ^ 63) as HJ by (apply jamq_between; lia || done).
    rewrite wrapu_small by (unfold inu; lia). rewrite normRoundPackToF64_ref by lia.
    rewrite (Z.max_l (expZ - 1)), (Z.max_r (- (expZ - 1))), Z.mul_1_r by lia.
    rewrite (ref_round_sticky F64 rm sign 1 _ n (2 ^ diff)); try (cbn [F64 frac_bits]; lia).
    + rewrite (ref_round_eq F64 rm sign _ _ N 1); [done|nia|lia|lia|lia|]. lia.
    + apply sticky_jamq; lia.
Qed.

Lemma subMagsF64_spec a b signZ rm fl :
  finite64 a -> finite64 b -> 0 <= rm <= 4 ->
  let v := mag64 a - mag64 b in
  let R := ref_round F64 rm (if v <? 0 then negb signZ else signZ) (Z.abs v) 1 in
  softfloat_subMagsF64 a b signZ rm fl =
  if v =? 0 then Some (b2z (rm =? 2) * 2 ^ 63, fl) else Some (R.1, Z.lor fl R.2).
Proof.
  intros [Ia Fa] [Ib Fb] Hrm. cbv zeta. destruct (fields64 a Ia) as (EA & FA & Wa), (fields64 b Ib) as (EB & FB & Wb).
  destruct (aligned64 a 10 Ia ltac:(lia)) as (TA & MA & TnA), (aligned64 b 10 Ib ltac:(lia)) as (TB & MB & TnB). cbv zeta in *.
  change (10 + 1) with 11 in *. change (53 + 10) with 63 in *. pose proof (mag64_normal a) as NA. pose proof (mag64_normal b) as NB.
  assert (expF64UI a < expF64UI b -> mag64 a < mag64 b) as La by (intros; apply (mag_of_lt 52); lia).
  assert (expF64UI b < expF64UI a -> mag64 b < mag64 a) as Lb by (intros; apply (mag_of_lt 52); lia).
  unfold softfloat_subMagsF64. cbv zeta. change 0x4000000000000000 with (2 ^ (52 + 10)) at 1 3.
  set (Ta := u64 (shl 64 (fracF64UI a) 10 + _)) in *. set (Tb := u64 (shl 64 (fracF64UI b) 10 + _)) in *.
  rewrite (proj2 (Z.eqb_neq _ _) Fa), (proj2 (Z.eqb_neq _ _) Fb).
  assert (forall e e', e < e' -> 0 <= e -> 2 ^ (e' - 1) * 2 = 2 ^ e * 2 ^ (e' - e)) as Hpow.
  { intros. rewrite <- Z.pow_add_r, Z.mul_comm, <- Z.pow_succ_r by lia. f_equal. lia. }
  destruct (Z.ltb_spec 0 (expF64UI a - expF64UI b)); [|destruct (Z.ltb_spec (expF64UI a - expF64UI b) 0)].
  - specialize (Lb ltac:(lia)). rewrite (proj2 (Z.eqb_neq _ 0)), (proj2 (Z.ltb_ge _ 0)) by lia. specialize (NA ltac:(lia)).
    apply subMags64_unequal; auto; try lia.
    + intros ED. destruct (Z.eq_dec (expF64UI b) 0) as [E0|E0].
      * rewrite E0 in MB. replace Tb with (mag64 b * 2 ^ 11) by lia. by rewrite Z.even_mul, orb_true_r.
      * rewrite TnB by lia. by rewrite Z.even_mul, orb_true_r.
    + specialize (Hpow (expF64UI b) (expF64UI a) ltac:(lia) ltac:(lia)). set (P := 2 ^ (expF64UI a - 1)) in *.
      set (D := 2 ^ (expF64UI a - expF64UI b)) in *. assert (2 ^ expF64UI a = P * 2) as Ea.
      { unfold P. rewrite Z.mul_comm, <- Z.pow_succ_r by lia. f_equal. lia. }
      rewrite Ea in NA. rewrite Z.abs_eq by lia.
      apply (Z.mul_cancel_r _ _ 2); [lia|].
      transitivity ((fracF64UI a + 2 ^ 52) * (P * 2) * 2 ^ 10 * D - Tb * (P * 2)); [ring|].
      rewrite Hpow, <- Hpow, <- NA at 1. rewrite Hpow, Z.mul_assoc, MB. ring.
  - specialize (La ltac:(lia)). rewrite (proj2 (Z.eqb_neq _ 0)), (proj2 (Z.ltb_lt _ 0)) by lia. specialize (NB ltac:(lia)).
    replace (- (expF64UI a - expF64UI b)) with (expF64UI b - expF64UI a) by lia.
    apply subMags64_unequal; auto; try lia.
    + intros ED. destruct (Z.eq_dec (expF64UI a) 0) as [E0|E0].
      * rewrite E0 in MA. replace Ta with (mag64 a * 2 ^ 11) by lia. by rewrite Z.even_mul, orb_true_r.
      * rewrite TnA by lia. by rewrite Z.even_mul, orb_true_r.
    + specialize (Hpow (expF64UI a) (expF64UI b) ltac:(lia) ltac:(lia)). set (P := 2 ^ (expF64UI b - 1)) in *.
      set (D := 2 ^ (expF64UI b - expF64UI a)) in *. assert (2 ^ expF64UI b = P * 2) as Ea.
      { unfold P. rewrite Z.mul_comm, <- Z.pow_succ_r by lia. f_equal. lia. }
      rewrite Ea in NB. rewrite Z.abs_neq by lia.
      apply (Z.mul_cancel_r _ _ 2); [lia|].
      transitivity ((fracF64UI b + 2 ^ 52) * (P * 2) * 2 ^ 10 * D - Ta * (P * 2)); [ring|].
      rewrite Hpow, <- Hpow, <- NB at 1. rewrite Hpow, Z.mul_assoc, MA. ring.
  - set (e := if negb (nz (expF64UI a)) then 1 else expF64UI a).
    replace (if negb (nz (expF64UI a)) then (1, 1) else (expF64UI a, expF64UI b)) with (e, e)
      by (unfold e; destruct (negb _); [done|f_equal; lia]).
    assert (1 <= e < 0x7FF /\ mag64 a - mag64 b = (fracF64UI a - fracF64UI b) * 2 ^ (e - 1)) as [He Hv].
    { unfold e, mag64, nz. replace (expF64UI b) with (expF64UI a) by lia.
      destruct (Z.eqb_spec (expF64UI a) 0); cbn [negb]; split; [lia| |lia|]; [change (1 - 1) with 0; lia|ring]. }
    rewrite !shl_small by lia. rewrite Hv. pose proof (pow2_pos (e - 1) ltac:(lia)).
    assert (forall s d, 0 < d < 2 ^ 52 -> softfloat_normRoundPackToF64 s (e - 1) (u64 (d * 2 ^ 10)) rm fl =
      Some ((ref_round F64 rm s (d * 2 ^ (e - 1)) 1).1, Z.lor fl (ref_round F64 rm s (d * 2 ^ (e - 1)) 1).2)) as Hfin.
    { intros s d Hd. rewrite wrapu_small by (unfold inu; lia). rewrite normRoundPackToF64_ref by lia.
      rewrite (ref_round_eq F64 rm s _ _ (d * 2 ^ (e - 1)) 1); [done|rewrite Z.max_l by lia; apply Z.mul_nonneg_nonneg; lia|rewrite Z.max_r by lia; lia|apply Z.mul_nonneg_nonneg; lia|lia|].
      rewrite Z.max_l, Z.max_r by lia. ring. }
    destruct (Z.ltb_spec (fracF64UI b * 2 ^ 10) (fracF64UI a * 2 ^ 10)); [|destruct (Z.ltb_spec (fracF64UI a * 2 ^ 10) (fracF64UI b * 2 ^ 10))].
    + assert (0 < (fracF64UI a - fracF64UI b) * 2 ^ (e - 1)) by (apply Z.mul_pos_pos; lia).
      rewrite (proj2 (Z.eqb_neq _ 0)), (proj2 (Z.ltb_ge _ 0)), Z.abs_eq by lia.
      rewrite <- Hfin by lia. f_equal. f_equal. ring.
    + assert ((fracF64UI a - fracF64UI b) * 2 ^ (e - 1) < 0) by (apply Z.mul_neg_pos; lia).
      rewrite (proj2 (Z.eqb_neq _ 0)), (proj2 (Z.ltb_lt _ 0)), Z.abs_neq, <- Z.mul_opp_l by lia.
      rewrite <- Hfin by lia. f_equal. f_equal. ring.
    + replace (fracF64UI a - fracF64UI b) with 0 by lia. rewrite Z.mul_0_l. cbn [Z.eqb].
      unfold fbind, softfloat_roundingMode, fret. rewrite packToF64UI_val by lia. f_equal. f_equal. unfold softfloat_round_min. lia.
Qed.

(** The exact sum, and the sign of a zero sum. *)
Definition ref_sum (f : fformat) (rm : Z) (sA sB : bool) (v : Z) : Z * Z :=
  if v =? 0 then (b2z (if eqb sA sB then sA else rm =? 2) * 2 ^ (fwidth f - 1), 0)
  else ref_round f rm (v <? 0) (Z.abs v) 1.

Lemma lor_0_pair (x : Z) fl : Some (x, fl) = Some ((x, 0).1, Z.lor fl (x, 0).2).
Proof. cbn [fst snd]. by rewrite Z.lor_0_r. Qed.

(** Adding magnitudes under the sign [s], or subtracting them. *)
Lemma ref_sum_add f rm s mA mB :
  0 <= rm <= 4 -> 0 <= frac_bits f -> 0 < exp_max f -> 0 <= mA -> 0 <= mB ->
  ref_round f rm s (mA + mB) 1 = ref_sum f rm s s ((if s then - mA else mA) + (if s then - mB else mB)).
Proof.
  intros Hrm Hf He HA HB. unfold ref_sum. rewrite eqb_reflx.
  destruct (Z.eqb_spec ((if s then - mA else mA) + (if s then - mB else mB)) 0) as [E|E].
  - assert (mA + mB = 0) as -> by (destruct s; lia). pose proof (pow2_pos (frac_bits f) Hf).
    pose proof (pow2_pos (frac_bits f + 1) ltac:(lia)).
    rewrite (ref_round_exact f rm s 0 1 0 0) by lia. f_equal. lia.
  - destruct s.
    + rewrite (proj2 (Z.ltb_lt _ 0)) by lia. f_equal. lia.
    + rewrite (proj2 (Z.ltb_ge _ 0)) by lia. f_equal. lia.
Qed.

Lemma ref_sum_sub f rm sA mA mB fl :
  (if mA - mB =? 0 then Some (b2z (rm =? 2) * 2 ^ (fwidth f - 1), fl)
   else let R := ref_round f rm (if mA - mB <? 0 then negb sA else sA) (Z.abs (mA - mB)) 1 in Some (R.1, Z.lor fl R.2)) =
  (let R := ref_sum f rm sA (negb sA) ((if sA then - mA else mA) + (if negb sA then - mB else mB)) in
   Some (R.1, Z.lor fl R.2)).
Proof.
  unfold ref_sum. replace (eqb sA (negb sA)) with false by (by destruct sA).
  assert (((if sA then - mA else mA) + (if negb sA then - mB else mB) =? 0) = (mA - mB =? 0)) as ->.
  { destruct sA; simpl; destruct (Z.eqb_spec (mA - mB) 0); (apply Z.eqb_eq || apply Z.eqb_neq); lia. }
  destruct (Z.eqb_spec (mA - mB) 0); [apply lor_0_pair|]. cbv zeta.
  assert (((if sA then - mA else mA) + (if negb sA then - mB else mB) <? 0) = if mA - mB <? 0 then negb sA else sA) as ->.
  { destruct sA; simpl; destruct (Z.ltb_spec (mA - mB) 0); (apply Z.ltb_lt || apply Z.ltb_ge); lia. }
  replace (Z.abs ((if sA then - mA else mA) + (if negb sA then - mB else mB))) with (Z.abs (mA - mB)); [done|].
  destruct sA; simpl; lia.
Qed.

Lemma eqb_negb_r a b : eqb a b = false -> b = negb a.
Proof. by destruct a, b. Qed.

Lemma f32_add_spec a b rm fl :
  finite32 a -> finite32 b -> 0 <= rm <= 4 ->
  let R := ref_sum F32 rm (signF32UI a) (signF32UI b) (val32 a + val32 b) in
  f32_add a b rm fl = Some (R.1, Z.lor fl R.2).
Proof.
  intros Fa Fb Hrm. cbv zeta. unfold f32_add, val32. destruct (eqb (signF32UI a) (signF32UI b)) eqn:E.
  - apply eqb_prop in E. rewrite addMagsF32_spec by auto. rewrite <- E.
    rewrite <- ref_sum_add; [done|lia|by cbn|by cbn|apply mag32_nonneg, Fa|apply mag32_nonneg, Fb].
  - rewrite subMagsF32_spec by auto. rewrite (eqb_negb_r _ _ E). apply (ref_sum_sub F32).
Qed.

Lemma f64_add_spec a b rm fl :
  finite64 a -> finite64 b -> 0 <= rm <= 4 ->
  let R := ref_sum F64 rm (signF64UI a) (signF64UI b) (val64 a + val64 b) in
  f64_add a b rm fl = Some (R.1, Z.lor fl R.2).
Proof.
  intros Fa Fb Hrm. cbv zeta. unfold f64_add, val64. destruct (eqb (signF64UI a) (signF64UI b)) eqn:E.
  - apply eqb_prop in E. rewrite addMagsF64_spec by auto. rewrite <- E.
    rewrite <- ref_sum_add; [done|lia|by cbn|by cbn|apply mag64_nonneg, Fa|apply mag64_nonneg, Fb].
  - rewrite subMagsF64_spec by auto. rewrite (eqb_negb_r _ _ E). apply (ref_sum_sub F64).
Qed.

(** Flipping the sign bit negates. *)
Lemma lxor_top k x s :
  0 <= k -> inu k x -> Z.lxor (b2z s * 2 ^ k + x) (2 ^ k) = b2z (negb s) * 2 ^ k + x.
Proof.
  intros Hk Hx. assert (forall t, b2z t * 2 ^ k + x = Z.lor x (Z.shiftl (b2z t) k)) as E.
  { intros t. rewrite lor_disjoint_add by (auto; destruct t; simpl; lia). lia. }
  rewrite !E. rewrite <- (Z.mul_1_l (2 ^ k)), <- Z.shiftl_mul_pow2 by lia. apply Z.bits_inj'. intros i Hi.
  autorewrite with testbit. destruct (Z.lt_ge_cases i k); kill_bits; [by rewrite !orb_false_r, xorb_false_r|].
  destruct s; cbn [b2z negb orb]; [by rewrite xorb_nilpotent, Z.testbit_0_l|by rewrite Z.testbit_0_l].
Qed.

Lemma flip32 b :
  inu 32 b -> let b' := Z.lxor b 0x80000000 in
  inu 32 b' /\ signF32UI b' = negb (signF32UI b) /\ expF32UI b' = expF32UI b /\ fracF32UI b' = fracF32UI b.
Proof.
  intros Hb. destruct (fields32 b Hb) as (He & Hf & E). cbv zeta.
  assert (Z.lxor b 0x80000000 = b2z (negb (signF32UI b)) * 2 ^ 31 + expF32UI b * 2 ^ 23 + fracF32UI b) as ->.
  { rewrite E at 1. rewrite <- !Z.add_assoc. apply (lxor_top 31); unfold inu; lia. }
  by apply fields32_pack.
Qed.

Lemma flip64 b :
  inu 64 b -> let b' := Z.lxor b 0x8000000000000000 in
  inu 64 b' /\ signF64UI b' = negb (signF64UI b) /\ expF64UI b' = expF64UI b /\ fracF64UI b' = fracF64UI b.
Proof.
  intros Hb. destruct (fields64 b Hb) as (He & Hf & E). cbv zeta.
  assert (Z.lxor b 0x8000000000000000 = b2z (negb (signF64UI b)) * 2 ^ 63 + expF64UI b * 2 ^ 52 + fracF64UI b) as ->.
  { rewrite E at 1. rewrite <- !Z.add_assoc. apply (lxor_top 63); unfold inu; lia. }
  by apply fields64_pack.
Qed.

Lemma f32_sub_spec a b rm fl :
  finite32 a -> finite32 b -> 0 <= rm <= 4 ->
  let R := ref_sum F32 rm (signF32UI a) (negb (signF32UI b)) (val32 a - val32 b) in
  f32_sub a b rm fl = Some (R.1, Z.lor fl R.2).
Proof.
  intros Fa [Hb Fb] Hrm. cbv zeta. destruct (flip32 b Hb) as (I & S & X & F).
  assert (val32 a - val32 b = val32 a + val32 (Z.lxor b 0x80000000)) as ->.
  { unfold val32, mag32. rewrite S, X, F. destruct (signF32UI b); cbn [negb]; lia. }
  pose proof (f32_add_spec a (Z.lxor b 0x80000000) rm fl Fa ltac:(by split; [|rewrite X]) Hrm) as H. cbv zeta in H.
  rewrite <- S, <- H.
  unfold f32_sub, f32_add. rewrite S. by destruct (signF32UI a), (signF32UI b).
Qed.

Lemma f64_sub_spec a b rm fl :
  finite64 a -> finite64 b -> 0 <= rm <= 4 ->
  let R := ref_sum F64 rm (signF64UI a) (negb (signF64UI b)) (val64 a - val64 b) in
  f64_sub a b rm fl = Some (R.1, Z.lor fl R.2).
Proof.
  intros Fa Fb Hrm. cbv zeta. unfold f64_sub, val64.
  replace (_ - _) with ((if signF64UI a then - mag64 a else mag64 a) + (if negb (signF64UI b) then - mag64 b else mag64 b))
    by (destruct (signF64UI b); cbn [negb]; lia).
  destruct (eqb (signF64UI a) (signF64UI b)) eqn:E.
  - apply eqb_prop in E. rewrite subMagsF64_spec by auto. rewrite <- E. apply (ref_sum_sub F64).
  - rewrite addMagsF64_spec by auto. rewrite (eqb_negb_r _ _ E), negb_involutive.
    rewrite <- ref_sum_add; [done|lia|by cbn|by cbn|apply mag64_nonneg, Fa|apply mag64_nonneg, Fb].
Qed.
