(* ===== verification/SFSpec.v ===== *)
(** * SoftFloat: IEEE 754 arithmetic as the contract of the library

    The four operations on all words of a format, infinities, zeros and NaNs
    included, as functions on data ([datum]) and exact rationals; the type class
    [SoftFloatArith] is what the instruction emulation relies on, and its two
    instances are the single and the double routines of softfloat/. *)

From Stdlib Require Import ZArith Lia Bool List.
From stdpp Require Import base list.
From S2P Require Import Prelude SFPrim SFRound SFConv SFArith.
Open Scope Z_scope.

(** What a word denotes; [m] counts units of the smallest subnormal. *)
Inductive datum :=
  | DNaN (signaling : bool)
  | DInf (s : bool)
  | DFin (s : bool) (m : Z).

Definition decode32 (a : Z) : datum :=
  if expF32UI a =? 0xFF then
    if nz (fracF32UI a) then DNaN (softfloat_isSigNaNF32UI a) else DInf (signF32UI a)
  else DFin (signF32UI a) (mag32 a).

Definition decode64 (a : Z) : datum :=
  if expF64UI a =? 0x7FF then
    if nz (fracF64UI a) then DNaN (softfloat_isSigNaNF64UI a) else DInf (signF64UI a)
  else DFin (signF64UI a) (mag64 a).

(** The value 1.0 in units of the smallest subnormal. *)
Definition one_mag (f : fformat) : Z := 2 ^ (exp_max f / 2 - 1 + frac_bits f).

Definition default_nan (f : fformat) : Z := 2 ^ fwidth f - 1.
Definition signed_inf (f : fformat) (s : bool) : Z :=
  b2z s * 2 ^ (fwidth f - 1) + exp_max f * 2 ^ frac_bits f.
Definition signed_zero (f : fformat) (s : bool) : Z := b2z s * 2 ^ (fwidth f - 1).
Definition signed (s : bool) (m : Z) : Z := if s then - m else m.

Definition invalid_op (f : fformat) : Z * Z := (default_nan f, softfloat_flag_invalid).
Definition nan_arg (f : fformat) (sa sb : bool) : Z * Z :=
  (default_nan f, if sa || sb then softfloat_flag_invalid else 0).
Definition is_signaling (x : datum) : bool := match x with DNaN s => s | _ => false end.

Definition ieee_add (f : fformat) (rm : Z) (x y : datum) : Z * Z :=
  match x, y with
  | DNaN s, _ => nan_arg f s (is_signaling y)
  | _, DNaN s => nan_arg f (is_signaling x) s
  | DInf s, DInf t => if eqb s t then (signed_inf f s, 0) else invalid_op f
  | DInf s, DFin _ _ | DFin _ _, DInf s => (signed_inf f s, 0)
  | DFin s m, DFin t n => ref_sum f rm s t (signed s m + signed t n)
  end.

Definition ieee_neg (x : datum) : datum :=
  match x with DNaN s => DNaN s | DInf s => DInf (negb s) | DFin s m => DFin (negb s) m end.

Definition ieee_sub (f : fformat) (rm : Z) (x y : datum) : Z * Z := ieee_add f rm x (ieee_neg y).

Definition ieee_mul (f : fformat) (rm : Z) (x y : datum) : Z * Z :=
  match x, y with
  | DNaN s, _ => nan_arg f s (is_signaling y)
  | _, DNaN s => nan_arg f (is_signaling x) s
  | DInf s, DInf t => (signed_inf f (xorb s t), 0)
  | DInf s, DFin t m | DFin t m, DInf s =>
      if m =? 0 then invalid_op f else (signed_inf f (xorb s t), 0)
  | DFin s m, DFin t n =>
      if (m =? 0) || (n =? 0) then (signed_zero f (xorb s t), 0)
      else ref_round f rm (xorb s t) (m * n) (one_mag f)
  end.

Definition ieee_div (f : fformat) (rm : Z) (x y : datum) : Z * Z :=
  match x, y with
  | DNaN s, _ => nan_arg f s (is_signaling y)
  | _, DNaN s => nan_arg f (is_signaling x) s
  | DInf _, DInf _ => invalid_op f
  | DInf s, DFin t _ => (signed_inf f (xorb s t), 0)
  | DFin s _, DInf t => (signed_zero f (xorb s t), 0)
  | DFin s m, DFin t n =>
      if n =? 0 then
        if m =? 0 then invalid_op f else (signed_inf f (xorb s t), softfloat_flag_infinity)
      else if m =? 0 then (signed_zero f (xorb s t), 0)
      else ref_round f rm (xorb s t) (m * one_mag f) n
  end.

(** The routine returns the bits and accrues the flags. *)
Definition computes (c : FP Z) (rm fl : Z) (r : Z * Z) : Prop := c rm fl = Some (r.1, Z.lor fl r.2).

(** The contract of a SoftFloat format. *)
Class SoftFloatArith (f : fformat) := {
  sf_decode : Z -> datum;
  sf_add : Z -> Z -> FP Z;
  sf_sub : Z -> Z -> FP Z;
  sf_mul : Z -> Z -> FP Z;
  sf_div : Z -> Z -> FP Z;
  sf_add_ieee a b rm fl : inu (fwidth f) a -> inu (fwidth f) b -> 0 <= rm <= 4 ->
    computes (sf_add a b) rm fl (ieee_add f rm (sf_decode a) (sf_decode b));
  sf_sub_ieee a b rm fl : inu (fwidth f) a -> inu (fwidth f) b -> 0 <= rm <= 4 ->
    computes (sf_sub a b) rm fl (ieee_sub f rm (sf_decode a) (sf_decode b));
  sf_mul_ieee a b rm fl : inu (fwidth f) a -> inu (fwidth f) b -> 0 <= rm <= 4 ->
    computes (sf_mul a b) rm fl (ieee_mul f rm (sf_decode a) (sf_decode b));
  sf_div_ieee a b rm fl : inu (fwidth f) a -> inu (fwidth f) b -> 0 <= rm <= 4 ->
    computes (sf_div a b) rm fl (ieee_div f rm (sf_decode a) (sf_decode b));
}.

(** ** Words and data *)

Lemma nz_shl w x k : 0 <= k -> 0 <= x -> x * 2 ^ k < 2 ^ w -> nz (shl w x k) = nz x.
Proof.
  intros. rewrite shl_small by lia. unfold nz. f_equal. pose proof (pow2_pos k ltac:(lia)).
  destruct (Z.eqb_spec x 0); [subst; apply Z.eqb_eq; lia|apply Z.eqb_neq; nia].
Qed.

(** The test for a signalling NaN looks at the exponent, the top fraction bit and
    the rest of the fraction. *)
Lemma signaling_test fb eb s e f :
  1 <= fb -> 1 <= eb -> 0 <= e < 2 ^ eb -> 0 <= f < 2 ^ fb ->
  let a := s * 2 ^ (fb + eb) + e * 2 ^ fb + f in
  e <> 2 ^ eb - 1 \/ f = 0 ->
  (Z.land (Z.shiftr a (fb - 1)) (Z.ones (eb + 1)) =? 2 ^ (eb + 1) - 2) && nz (Z.land a (Z.ones (fb - 1))) = false.
Proof.
  intros Hfb Heb He Hf a Hx. pose proof (pow2_pos (fb - 1) ltac:(lia)). pose proof (pow2_pos eb ltac:(lia)).
  assert (2 ^ fb = 2 * 2 ^ (fb - 1)) as Pf by (rewrite <- Z.pow_succ_r by lia; f_equal; lia).
  assert (2 ^ (eb + 1) = 2 * 2 ^ eb) as Pe by (rewrite Z.pow_add_r by lia; lia).
  assert (a = (s * 2 ^ (eb + 1) + 2 * e) * 2 ^ (fb - 1) + f) as E.
  { unfold a. replace (2 ^ (fb + eb)) with (2 ^ (eb + 1) * 2 ^ (fb - 1)) by (rewrite <- Z.pow_add_r by lia; f_equal; lia). lia. }
  rewrite !Z.land_ones, Z.shiftr_div_pow2, E by lia.
  rewrite Z.div_add_l, mod_mul_shift, <- Z.add_assoc, Z.add_comm, Z.mod_add by lia.
  assert (0 <= f / 2 ^ (fb - 1) < 2) by (split; [apply Z.div_pos|apply Z.div_lt_upper_bound]; lia).
  rewrite Z.mod_small by lia. destruct Hx as [Hx| ->].
  - rewrite (proj2 (Z.eqb_neq _ _)) by lia. done.
  - rewrite Z.mod_0_l by lia. apply andb_false_r.
Qed.

Lemma mag32_zero_word a : inu 32 a -> mag32 a = 0 -> a = signed_zero F32 (signF32UI a).
Proof.
  intros Ha M. destruct (fields32 a Ha) as (He & Hf & E). pose proof (mag32_zero a Ha) as Z0. rewrite M in Z0. cbn [Z.eqb] in Z0.
  unfold nz in Z0. apply andb_true_iff in Z0 as [Y1 Y2]. rewrite negb_involutive in Y1, Y2. apply Z.eqb_eq in Y1, Y2.
  unfold signed_zero. change (2 ^ (fwidth F32 - 1)) with (2 ^ 31). lia.
Qed.

Lemma mag64_zero_word a : inu 64 a -> mag64 a = 0 -> a = signed_zero F64 (signF64UI a).
Proof.
  intros Ha M. destruct (fields64 a Ha) as (He & Hf & E). pose proof (mag64_zero a Ha) as Z0. rewrite M in Z0. cbn [Z.eqb] in Z0.
  unfold nz in Z0. apply andb_true_iff in Z0 as [Y1 Y2]. rewrite negb_involutive in Y1, Y2. apply Z.eqb_eq in Y1, Y2.
  unfold signed_zero. change (2 ^ (fwidth F64 - 1)) with (2 ^ 63). lia.
Qed.

Lemma sig_decode32 a : inu 32 a -> softfloat_isSigNaNF32UI a = is_signaling (decode32 a).
Proof.
  intros Ha. destruct (fields32 a Ha) as (He & Hf & E). unfold decode32.
  destruct (Z.eqb_spec (expF32UI a) 0xFF) as [X|X]; [destruct (nz (fracF32UI a)) eqn:N; [done|]|]; cbn [is_signaling];
    unfold softfloat_isSigNaNF32UI; rewrite E; apply (signaling_test 23 8); try lia.
  right. unfold nz in N. by apply negb_false_iff, Z.eqb_eq in N.
Qed.

Lemma sig_decode64 a : inu 64 a -> softfloat_isSigNaNF64UI a = is_signaling (decode64 a).
Proof.
  intros Ha. destruct (fields64 a Ha) as (He & Hf & E). unfold decode64.
  destruct (Z.eqb_spec (expF64UI a) 0x7FF) as [X|X]; [destruct (nz (fracF64UI a)) eqn:N; [done|]|]; cbn [is_signaling];
    unfold softfloat_isSigNaNF64UI; rewrite E; apply (signaling_test 52 11); try lia.
  right. unfold nz in N. by apply negb_false_iff, Z.eqb_eq in N.
Qed.

Lemma propagateNaNF32_run a b rm fl :
  inu 32 a -> inu 32 b ->
  computes (softfloat_propagateNaNF32UI a b) rm fl (nan_arg F32 (is_signaling (decode32 a)) (is_signaling (decode32 b))).
Proof.
  intros Ha Hb. unfold computes, softfloat_propagateNaNF32UI. rewrite !sig_decode32 by done.
  unfold nan_arg. destruct (_ || _); cbn; by rewrite ?Z.lor_0_r.
Qed.

Lemma propagateNaNF64_run a b rm fl :
  inu 64 a -> inu 64 b ->
  computes (softfloat_propagateNaNF64UI a b) rm fl (nan_arg F64 (is_signaling (decode64 a)) (is_signaling (decode64 b))).
Proof.
  intros Ha Hb. unfold computes, softfloat_propagateNaNF64UI. rewrite !sig_decode64 by done.
  unfold nan_arg. destruct (_ || _); cbn; by rewrite ?Z.lor_0_r.
Qed.

Lemma computes_fret v rm fl : computes (fret v) rm fl (v, 0).
Proof. unfold computes. apply lor_0_pair. Qed.

Lemma computes_raise v x rm fl : computes (softfloat_raiseFlags x ;;% fret v) rm fl (v, x).
Proof. done. Qed.

(** How a word decodes. *)
Inductive decoded32 (a : Z) : datum -> Prop :=
  | dec32_nan : expF32UI a = 0xFF -> nz (fracF32UI a) = true -> decoded32 a (DNaN (softfloat_isSigNaNF32UI a))
  | dec32_inf : expF32UI a = 0xFF -> nz (fracF32UI a) = false -> a = signed_inf F32 (signF32UI a) ->
      mag32 a <> 0 -> decoded32 a (DInf (signF32UI a))
  | dec32_fin : finite32 a -> 0 <= expF32UI a < 0xFF -> 0 <= mag32 a -> decoded32 a (DFin (signF32UI a) (mag32 a)).

Inductive decoded64 (a : Z) : datum -> Prop :=
  | dec64_nan : expF64UI a = 0x7FF -> nz (fracF64UI a) = true -> decoded64 a (DNaN (softfloat_isSigNaNF64UI a))
  | dec64_inf : expF64UI a = 0x7FF -> nz (fracF64UI a) = false -> a = signed_inf F64 (signF64UI a) ->
      mag64 a <> 0 -> decoded64 a (DInf (signF64UI a))
  | dec64_fin : finite64 a -> 0 <= expF64UI a < 0x7FF -> 0 <= mag64 a -> decoded64 a (DFin (signF64UI a) (mag64 a)).

Lemma decode32_cases a : inu 32 a -> decoded32 a (decode32 a).
Proof.
  intros Ha. destruct (fields32 a Ha) as (He & Hf & E). unfold decode32.
  destruct (Z.eqb_spec (expF32UI a) 0xFF) as [X|X]; [destruct (nz (fracF32UI a)) eqn:N|]; constructor; auto.
  - unfold nz in N. apply negb_false_iff, Z.eqb_eq in N. unfold signed_inf. cbn. lia.
  - apply Z.eqb_neq. rewrite <- mag32_zero by done. by rewrite X.
  - by split.
  - lia.
  - by apply mag32_nonneg.
Qed.

Lemma decode64_cases a : inu 64 a -> decoded64 a (decode64 a).
Proof.
  intros Ha. destruct (fields64 a Ha) as (He & Hf & E). unfold decode64.
  destruct (Z.eqb_spec (expF64UI a) 0x7FF) as [X|X]; [destruct (nz (fracF64UI a)) eqn:N|]; constructor; auto.
  - unfold nz in N. apply negb_false_iff, Z.eqb_eq in N. unfold signed_inf. cbn. lia.
  - apply Z.eqb_neq. rewrite <- mag64_zero by done. by rewrite X.
  - by split.
  - lia.
  - by apply mag64_nonneg.
Qed.

(** Decide the tests on exponents that the context determines. *)
Ltac exp_tests :=
  repeat match goal with
    | |- context [?a =? ?b] =>
        first [rewrite (proj2 (Z.eqb_eq a b)) by (done || lia) | rewrite (proj2 (Z.eqb_neq a b)) by lia]
    | |- context [?a <? ?b] =>
        first [rewrite (proj2 (Z.ltb_lt a b)) by lia | rewrite (proj2 (Z.ltb_ge a b)) by lia]
    | |- context [nz (?a - ?b)] =>
        first [rewrite (eq_refl : nz (a - b) = negb (a - b =? 0))]
    | H : nz ?x = _ |- context [nz ?x] => rewrite H
    end; cbn [negb andb orb].

Lemma eqb_negb2 x : eqb x (negb x) = false.
Proof. by destruct x. Qed.

(** The datum with another sign. *)
Definition with_sign (s : bool) (x : datum) : datum :=
  match x with DNaN q => DNaN q | DInf _ => DInf s | DFin _ m => DFin s m end.

Lemma frac_shl32 a k :
  inu 32 a -> 0 <= k <= 7 -> 0 <= shl 32 (fracF32UI a) k /\ nz (shl 32 (fracF32UI a) k) = nz (fracF32UI a).
Proof.
  intros Ha Hk. destruct (fields32 a Ha) as (_ & Hf & _).
  assert (2 ^ k <= 2 ^ 7) by (apply Z.pow_le_mono_r; lia). pose proof (pow2_pos k ltac:(lia)).
  split; [|apply nz_shl; nia]. rewrite shl_small by nia. nia.
Qed.

Lemma pack_inf32 s : packToF32UI s 0xFF 0 = signed_inf F32 s.
Proof. by destruct s. Qed.

Lemma pack_zero32 s : packToF32UI s 0 0 = signed_zero F32 s.
Proof. by destruct s. Qed.

(** Close the goal of an operation with a special operand. *)
Ltac special32 P :=
  exp_tests; rewrite ?pack_inf32, ?pack_zero32;
  first [ exact P | apply computes_raise | apply computes_fret
        | match goal with I : ?a = signed_inf _ _ |- computes (fret ?a) _ _ _ => rewrite <- I; apply computes_fret end ].

Lemma mag32_zero_lor a : inu 32 a -> nz (Z.lor (expF32UI a) (fracF32UI a)) = negb (mag32 a =? 0).
Proof.
  intros Ha. destruct (fields32 a Ha) as (He & Hf & _). rewrite <- mag32_zero by done. rewrite nz_lor by lia.
  by destruct (nz _), (nz _).
Qed.

Lemma addMagsF32_special a b rm fl :
  inu 32 a -> inu 32 b -> expF32UI a = 0xFF \/ expF32UI b = 0xFF ->
  computes (softfloat_addMagsF32 a b (signF32UI a)) rm fl
    (ieee_add F32 rm (decode32 a) (with_sign (signF32UI a) (decode32 b))).
Proof.
  intros Ha Hb Hx. pose proof (propagateNaNF32_run a b rm fl Ha Hb) as P.
  destruct (frac_shl32 a 6 Ha ltac:(lia)) as (Pa & Na), (frac_shl32 b 6 Hb ltac:(lia)) as (Pb & Nb).
  destruct (decode32_cases a Ha) as [Xa Za|Xa Za Ia ?|Xa Ea Ma], (decode32_cases b Hb) as [Xb Zb|Xb Zb Ib ?|Xb Eb Mb];
    cbn [ieee_add is_signaling with_sign] in *; [..|lia].
  all: unfold softfloat_addMagsF32; cbv zeta; rewrite ?nz_lor, ?Na, ?Nb, ?eqb_reflx by done; special32 P.
Qed.

Lemma subMagsF32_special a b rm fl :
  inu 32 a -> inu 32 b -> expF32UI a = 0xFF \/ expF32UI b = 0xFF ->
  computes (softfloat_subMagsF32 a b (signF32UI a)) rm fl
    (ieee_add F32 rm (decode32 a) (with_sign (negb (signF32UI a)) (decode32 b))).
Proof.
  intros Ha Hb Hx. pose proof (propagateNaNF32_run a b rm fl Ha Hb) as P.
  destruct (frac_shl32 a 7 Ha ltac:(lia)) as (Pa & Na), (frac_shl32 b 7 Hb ltac:(lia)) as (Pb & Nb).
  destruct (decode32_cases a Ha) as [Xa Za|Xa Za Ia ?|Xa Ea Ma], (decode32_cases b Hb) as [Xb Zb|Xb Zb Ib ?|Xb Eb Mb];
    cbn [ieee_add is_signaling with_sign] in *; [..|lia].
  all: unfold softfloat_subMagsF32; cbv zeta; rewrite ?nz_lor, ?Na, ?Nb, ?eqb_negb2 by done; special32 P.
Qed.

Lemma with_sign32 a s : s = signF32UI a -> with_sign s (decode32 a) = decode32 a.
Proof. intros ->. unfold decode32. by repeat case_match. Qed.

Lemma with_sign_neg32 a s : s = negb (signF32UI a) -> with_sign s (decode32 a) = ieee_neg (decode32 a).
Proof. intros ->. unfold decode32. by repeat case_match. Qed.

Lemma special_or_finite32 a b :
  inu 32 a -> inu 32 b ->
  (expF32UI a = 0xFF \/ expF32UI b = 0xFF) \/
  (finite32 a /\ finite32 b /\ decode32 a = DFin (signF32UI a) (mag32 a) /\ decode32 b = DFin (signF32UI b) (mag32 b)).
Proof.
  intros Ha Hb. unfold finite32, decode32.
  destruct (Z.eqb_spec (expF32UI a) 0xFF), (Z.eqb_spec (expF32UI b) 0xFF); tauto.
Qed.

Lemma f32_add_ieee a b rm fl :
  inu 32 a -> inu 32 b -> 0 <= rm <= 4 ->
  computes (f32_add a b) rm fl (ieee_add F32 rm (decode32 a) (decode32 b)).
Proof.
  intros Ha Hb Hrm. destruct (special_or_finite32 a b Ha Hb) as [X|(Fa & Fb & -> & ->)]; [|by apply f32_add_spec].
  unfold f32_add. destruct (eqb _ _) eqn:S.
  - rewrite <- (with_sign32 b (signF32UI a)) by by apply eqb_prop. by apply addMagsF32_special.
  - rewrite <- (with_sign32 b (negb (signF32UI a))) by (rewrite (eqb_negb_r _ _ S); by rewrite ?negb_involutive).
    by apply subMagsF32_special.
Qed.

Lemma decode32_flip b : inu 32 b -> decode32 (Z.lxor b 0x80000000) = ieee_neg (decode32 b).
Proof.
  intros Hb. destruct (flip32 b Hb) as (I & S & X & F). unfold decode32, mag32. rewrite S, X, F.
  destruct (expF32UI b =? 0xFF); [destruct (nz (fracF32UI b))|]; cbn [ieee_neg]; try done.
  f_equal. unfold softfloat_isSigNaNF32UI. change 0x80000000 with (Z.shiftl 1 31).
  change 0x1FF with (Z.ones 9). change 0x3FFFFF with (Z.ones 22). f_equal; f_equal.
  all: apply Z.bits_inj'; intros i Hi; autorewrite with testbit; split_ltb; rewrite ?andb_false_r, ?andb_true_r; try done.
  all: kill_bits; by rewrite xorb_false_r.
Qed.

Lemma f32_sub_ieee a b rm fl :
  inu 32 a -> inu 32 b -> 0 <= rm <= 4 ->
  computes (f32_sub a b) rm fl (ieee_sub F32 rm (decode32 a) (decode32 b)).
Proof.
  intros Ha Hb Hrm. unfold ieee_sub. rewrite <- decode32_flip by done. destruct (flip32 b Hb) as (I & S & _).
  replace (f32_sub a b) with (f32_add a (Z.lxor b 0x80000000)); [by apply f32_add_ieee|].
  unfold f32_sub, f32_add. rewrite S. by destruct (signF32UI a), (signF32UI b).
Qed.

Lemma f32_mul_ieee a b rm fl :
  inu 32 a -> inu 32 b -> 0 <= rm <= 4 ->
  computes (f32_mul a b) rm fl (ieee_mul F32 rm (decode32 a) (decode32 b)).
Proof.
  intros Ha Hb Hrm. pose proof (propagateNaNF32_run a b rm fl Ha Hb) as P.
  pose proof (mag32_zero_lor a Ha) as La. pose proof (mag32_zero_lor b Hb) as Lb.
  destruct (decode32_cases a Ha) as [Xa Za|Xa Za Ia ?|Xa Ea Ma], (decode32_cases b Hb) as [Xb Zb|Xb Zb Ib ?|Xb Eb Mb];
    cbn [ieee_mul is_signaling] in *.
  9: { destruct (Z.eqb_spec (mag32 a) 0), (Z.eqb_spec (mag32 b) 0); [| | |by apply f32_mul_spec].
       all: unfold f32_mul; cbv zeta; rewrite !mag32_zero by done; special32 P. }
  all: unfold f32_mul; cbv zeta; rewrite ?La, ?Lb, ?(xorb_comm (signF32UI b));
    destruct (Z.eqb_spec (mag32 a) 0), (Z.eqb_spec (mag32 b) 0); try done; special32 P.
Qed.

Lemma f32_div_ieee a b rm fl :
  inu 32 a -> inu 32 b -> 0 <= rm <= 4 ->
  computes (f32_div a b) rm fl (ieee_div F32 rm (decode32 a) (decode32 b)).
Proof.
  intros Ha Hb Hrm. pose proof (propagateNaNF32_run a b rm fl Ha Hb) as P.
  pose proof (mag32_zero_lor a Ha) as La.
  destruct (decode32_cases a Ha) as [Xa Za|Xa Za Ia ?|Xa Ea Ma], (decode32_cases b Hb) as [Xb Zb|Xb Zb Ib ?|Xb Eb Mb];
    cbn [ieee_div is_signaling] in *.
  9: { destruct (Z.eqb_spec (mag32 b) 0), (Z.eqb_spec (mag32 a) 0); [| | |by apply f32_div_spec].
       all: unfold f32_div; cbv zeta; rewrite !mag32_zero, ?La by done; special32 P. }
  all: unfold f32_div; cbv zeta; special32 P.
Qed.


Lemma frac_shl64 a k :
  inu 64 a -> 0 <= k <= 10 -> 0 <= shl 64 (fracF64UI a) k /\ nz (shl 64 (fracF64UI a) k) = nz (fracF64UI a).
Proof.
  intros Ha Hk. destruct (fields64 a Ha) as (_ & Hf & _).
  assert (2 ^ k <= 2 ^ 10) by (apply Z.pow_le_mono_r; lia). pose proof (pow2_pos k ltac:(lia)).
  split; [|apply nz_shl; nia]. rewrite shl_small by nia. nia.
Qed.

Lemma pack_inf64 s : packToF64UI s 0x7FF 0 = signed_inf F64 s.
Proof. by destruct s. Qed.

Lemma pack_zero64 s : packToF64UI s 0 0 = signed_zero F64 s.
Proof. by destruct s. Qed.

(** Close the goal of an operation with a special operand. *)
Ltac special64 P :=
  exp_tests; rewrite ?pack_inf64, ?pack_zero64;
  first [ exact P | apply computes_raise | apply computes_fret
        | match goal with I : ?a = signed_inf _ _ |- computes (fret ?a) _ _ _ => rewrite <- I; apply computes_fret end ].

Lemma mag64_zero_lor a : inu 64 a -> nz (Z.lor (expF64UI a) (fracF64UI a)) = negb (mag64 a =? 0).
Proof.
  intros Ha. destruct (fields64 a Ha) as (He & Hf & _). rewrite <- mag64_zero by done. rewrite nz_lor by lia.
  by destruct (nz _), (nz _).
Qed.

Lemma addMagsF64_special a b rm fl :
  inu 64 a -> inu 64 b -> expF64UI a = 0x7FF \/ expF64UI b = 0x7FF ->
  computes (softfloat_addMagsF64 a b (signF64UI a)) rm fl
    (ieee_add F64 rm (decode64 a) (with_sign (signF64UI a) (decode64 b))).
Proof.
  intros Ha Hb Hx. pose proof (propagateNaNF64_run a b rm fl Ha Hb) as P.
  destruct (frac_shl64 a 9 Ha ltac:(lia)) as (Pa & Na), (frac_shl64 b 9 Hb ltac:(lia)) as (Pb & Nb).
  destruct (decode64_cases a Ha) as [Xa Za|Xa Za Ia ?|Xa Ea Ma], (decode64_cases b Hb) as [Xb Zb|Xb Zb Ib ?|Xb Eb Mb];
    cbn [ieee_add is_signaling with_sign] in *; [..|lia].
  all: unfold softfloat_addMagsF64; cbv zeta; rewrite ?nz_lor, ?Na, ?Nb, ?eqb_reflx by done; special64 P.
Qed.

Lemma subMagsF64_special a b rm fl :
  inu 64 a -> inu 64 b -> expF64UI a = 0x7FF \/ expF64UI b = 0x7FF ->
  computes (softfloat_subMagsF64 a b (signF64UI a)) rm fl
    (ieee_add F64 rm (decode64 a) (with_sign (negb (signF64UI a)) (decode64 b))).
Proof.
  intros Ha Hb Hx. pose proof (propagateNaNF64_run a b rm fl Ha Hb) as P.
  destruct (frac_shl64 a 10 Ha ltac:(lia)) as (Pa & Na), (frac_shl64 b 10 Hb ltac:(lia)) as (Pb & Nb).
  destruct (decode64_cases a Ha) as [Xa Za|Xa Za Ia ?|Xa Ea Ma], (decode64_cases b Hb) as [Xb Zb|Xb Zb Ib ?|Xb Eb Mb];
    cbn [ieee_add is_signaling with_sign] in *; [..|lia].
  all: unfold softfloat_subMagsF64; cbv zeta; rewrite ?nz_lor, ?Na, ?Nb, ?eqb_negb2 by done; special64 P.
Qed.

Lemma with_sign64 a s : s = signF64UI a -> with_sign s (decode64 a) = decode64 a.
Proof. intros ->. unfold decode64. by repeat case_match. Qed.

Lemma with_sign_neg64 a s : s = negb (signF64UI a) -> with_sign s (decode64 a) = ieee_neg (decode64 a).
Proof. intros ->. unfold decode64. by repeat case_match. Qed.

Lemma special_or_finite64 a b :
  inu 64 a -> inu 64 b ->
  (expF64UI a = 0x7FF \/ expF64UI b = 0x7FF) \/
  (finite64 a /\ finite64 b /\ decode64 a = DFin (signF64UI a) (mag64 a) /\ decode64 b = DFin (signF64UI b) (mag64 b)).
Proof.
  intros Ha Hb. unfold finite64, decode64.
  destruct (Z.eqb_spec (expF64UI a) 0x7FF), (Z.eqb_spec (expF64UI b) 0x7FF); tauto.
Qed.

Lemma f64_add_ieee a b rm fl :
  inu 64 a -> inu 64 b -> 0 <= rm <= 4 ->
  computes (f64_add a b) rm fl (ieee_add F64 rm (decode64 a) (decode64 b)).
Proof.
  intros Ha Hb Hrm. destruct (special_or_finite64 a b Ha Hb) as [X|(Fa & Fb & -> & ->)]; [|by apply f64_add_spec].
  unfold f64_add. destruct (eqb _ _) eqn:S.
  - rewrite <- (with_sign64 b (signF64UI a)) by by apply eqb_prop. by apply addMagsF64_special.
  - rewrite <- (with_sign64 b (negb (signF64UI a))) by (rewrite (eqb_negb_r _ _ S); by rewrite ?negb_involutive).
    by apply subMagsF64_special.
Qed.

Lemma decode64_flip b : inu 64 b -> decode64 (Z.lxor b 0x8000000000000000) = ieee_neg (decode64 b).
Proof.
  intros Hb. destruct (flip64 b Hb) as (I & S & X & F). unfold decode64, mag64. rewrite S, X, F.
  destruct (expF64UI b =? 0x7FF); [destruct (nz (fracF64UI b))|]; cbn [ieee_neg]; try done.
  f_equal. unfold softfloat_isSigNaNF64UI. change 0x8000000000000000 with (Z.shiftl 1 63).
  change 0xFFF with (Z.ones 12). change 0x7FFFFFFFFFFFF with (Z.ones 51). f_equal; f_equal.
  all: apply Z.bits_inj'; intros i Hi; autorewrite with testbit; split_ltb; rewrite ?andb_false_r, ?andb_true_r; try done.
  all: kill_bits; by rewrite xorb_false_r.
Qed.

Lemma f64_sub_ieee a b rm fl :
  inu 64 a -> inu 64 b -> 0 <= rm <= 4 ->
  computes (f64_sub a b) rm fl (ieee_sub F64 rm (decode64 a) (decode64 b)).
Proof.
  intros Ha Hb Hrm. unfold ieee_sub. destruct (special_or_finite64 a b Ha Hb) as [X|(Fa & Fb & -> & ->)].
  - unfold f64_sub. destruct (eqb _ _) eqn:S.
    + rewrite <- (with_sign_neg64 b (negb (signF64UI a))) by (by rewrite (eqb_prop _ _ S)). by apply subMagsF64_special.
    + rewrite <- (with_sign_neg64 b (signF64UI a)) by (rewrite (eqb_negb_r _ _ S); by rewrite negb_involutive). by apply addMagsF64_special.
  - cbn [ieee_neg ieee_add]. replace (_ + _) with (val64 a - val64 b); [by apply f64_sub_spec|].
    unfold val64, signed. destruct (signF64UI b); cbn [negb]; lia.
Qed.

Lemma f64_mul_ieee a b rm fl :
  inu 64 a -> inu 64 b -> 0 <= rm <= 4 ->
  computes (f64_mul a b) rm fl (ieee_mul F64 rm (decode64 a) (decode64 b)).
Proof.
  intros Ha Hb Hrm. pose proof (propagateNaNF64_run a b rm fl Ha Hb) as P.
  pose proof (mag64_zero_lor a Ha) as La. pose proof (mag64_zero_lor b Hb) as Lb.
  destruct (decode64_cases a Ha) as [Xa Za|Xa Za Ia ?|Xa Ea Ma], (decode64_cases b Hb) as [Xb Zb|Xb Zb Ib ?|Xb Eb Mb];
    cbn [ieee_mul is_signaling] in *.
  9: { destruct (Z.eqb_spec (mag64 a) 0), (Z.eqb_spec (mag64 b) 0); [| | |by apply f64_mul_spec].
       all: unfold f64_mul; cbv zeta; rewrite !mag64_zero by done; special64 P. }
  all: unfold f64_mul; cbv zeta; rewrite ?La, ?Lb, ?(xorb_comm (signF64UI b));
    destruct (Z.eqb_spec (mag64 a) 0), (Z.eqb_spec (mag64 b) 0); try done; special64 P.
Qed.

Lemma f64_div_ieee a b rm fl :
  inu 64 a -> inu 64 b -> 0 <= rm <= 4 ->
  computes (f64_div a b) rm fl (ieee_div F64 rm (decode64 a) (decode64 b)).
Proof.
  intros Ha Hb Hrm. pose proof (propagateNaNF64_run a b rm fl Ha Hb) as P.
  pose proof (mag64_zero_lor a Ha) as La.
  destruct (decode64_cases a Ha) as [Xa Za|Xa Za Ia ?|Xa Ea Ma], (decode64_cases b Hb) as [Xb Zb|Xb Zb Ib ?|Xb Eb Mb];
    cbn [ieee_div is_signaling] in *.
  9: { destruct (Z.eqb_spec (mag64 b) 0), (Z.eqb_spec (mag64 a) 0); [| | |by apply f64_div_spec].
       all: unfold f64_div; cbv zeta; rewrite !mag64_zero, ?La by done; special64 P. }
  all: unfold f64_div; cbv zeta; special64 P.
Qed.


(** ** The two formats meet the contract *)

#[export] Instance sf_single : SoftFloatArith F32 :=
  Build_SoftFloatArith F32 decode32 f32_add f32_sub f32_mul f32_div
    f32_add_ieee f32_sub_ieee f32_mul_ieee f32_div_ieee.

#[export] Instance sf_double : SoftFloatArith F64 :=
  Build_SoftFloatArith F64 decode64 f64_add f64_sub f64_mul f64_div
    f64_add_ieee f64_sub_ieee f64_mul_ieee f64_div_ieee.

(** ** Consequences of the contract *)

Lemma ieee_add_comm f rm x y : ieee_add f rm x y = ieee_add f rm y x.
Proof.
  destruct x as [s|s|s m], y as [t|t|t n]; cbn [ieee_add is_signaling];
    try reflexivity; try (unfold nan_arg; by rewrite orb_comm).
  - destruct s, t; reflexivity.
  - rewrite (Z.add_comm (signed s m)). unfold ref_sum. destruct s, t; reflexivity.
Qed.

Lemma ieee_mul_comm f rm x y : ieee_mul f rm x y = ieee_mul f rm y x.
Proof.
  destruct x as [s|s|s m], y as [t|t|t n]; cbn [ieee_mul is_signaling];
    try reflexivity; try (unfold nan_arg; by rewrite orb_comm).
  - by rewrite xorb_comm.
  - by rewrite (xorb_comm s), orb_comm, (Z.mul_comm m).
Qed.

Section Contract.
Context {f : fformat} `{!SoftFloatArith f}.

Lemma sf_add_comm a b rm fl :
  inu (fwidth f) a -> inu (fwidth f) b -> 0 <= rm <= 4 -> sf_add a b rm fl = sf_add b a rm fl.
Proof. intros. unfold computes in *. by rewrite (sf_add_ieee a b), (sf_add_ieee b a), ieee_add_comm. Qed.

Lemma sf_mul_comm a b rm fl :
  inu (fwidth f) a -> inu (fwidth f) b -> 0 <= rm <= 4 -> sf_mul a b rm fl = sf_mul b a rm fl.
Proof. intros. by rewrite (sf_mul_ieee a b), (sf_mul_ieee b a), ieee_mul_comm. Qed.
End Contract.

(** ** The rounded result is the nearest one *)

(** The magnitude of a packed word below infinity. *)
Lemma mag_of_packed fb e q :
  0 <= fb -> 0 <= e -> 0 <= q <= 2 ^ (fb + 1) -> e = 0 \/ 2 ^ fb <= q ->
  let u := e * 2 ^ fb + q in mag_of fb (u / 2 ^ fb) (u mod 2 ^ fb) = q * 2 ^ e.
Proof.
  intros Hfb He Hq Hn u. pose proof (pow2_pos fb Hfb) as P. pose proof (pow2_pos e He).
  assert (2 ^ (fb + 1) = 2 * 2 ^ fb) as P2 by (rewrite Z.pow_add_r by lia; lia).
  assert (q < 2 ^ fb \/ 2 ^ fb <= q < 2 * 2 ^ fb \/ q = 2 * 2 ^ fb) as [C|[C| ->]] by lia; unfold u, mag_of.
  - destruct Hn as [->|]; [|lia]. rewrite Z.mul_0_l, Z.add_0_l, Z.div_small, Z.mod_small by lia. cbn. lia.
  - replace (e * 2 ^ fb + q) with ((e + 1) * 2 ^ fb + (q - 2 ^ fb)) by lia.
    rewrite div_mul_shift, mod_mul_shift, Z.mod_small by lia. rewrite (proj2 (Z.eqb_neq _ _)) by lia.
    replace (e + 1 - 1) with e by lia. lia.
  - replace (e * 2 ^ fb + 2 * 2 ^ fb) with ((e + 2) * 2 ^ fb + 0) by lia.
    rewrite div_mul_shift, mod_mul_shift, Z.mod_0_l by lia. rewrite (proj2 (Z.eqb_neq _ _)) by lia.
    replace (e + 2 - 1) with (Z.succ e) by lia. rewrite Z.pow_succ_r by lia. lia.
Qed.

(** Rounding to nearest gives a nearest integer. *)
Lemma round_q_nearest sign n d k :
  0 <= n -> 0 < d -> Z.abs (round_q 0 sign n d * d - n) <= Z.abs (k * d - n).
Proof.
  intros Hn Hd. unfold round_q, round_up. cbn [Z.eqb]. pose proof (Z.div_mod n d ltac:(lia)) as E.
  pose proof (Z.mod_pos_bound n d Hd) as R. set (q := n / d) in *. set (r := n mod d) in *.
  assert (k <= q \/ q + 1 <= k) as K by lia.
  destruct (Z.compare_spec (2 * r) d); [destruct (Z.odd q)| |]; cbn [b2z]; nia.
Qed.

(** The word that round-to-nearest packs is at least as close to the exact value
    [n/d] as any other number of the format. *)
Lemma ref_round_nearest fb sign n d ex fr :
  0 < fb -> 0 <= n -> 0 < d -> 0 <= ex -> 0 <= fr < 2 ^ fb ->
  let e := Z.max 0 (Z.log2 (n / d) - fb) in
  let u := e * 2 ^ fb + round_q 0 sign n (d * 2 ^ e) in
  Z.abs (mag_of fb (u / 2 ^ fb) (u mod 2 ^ fb) * d - n) <= Z.abs (mag_of fb ex fr * d - n).
Proof.
  intros Hfb Hn Hd Hex Hfr e u. assert (0 <= e) as He by lia. pose proof (pow2_pos e He) as Pe.
  pose proof (pow2_pos fb ltac:(lia)) as Pf.
  assert (2 ^ (fb + 1) = 2 * 2 ^ fb) as P2 by (rewrite Z.pow_add_r by lia; lia).
  assert (2 ^ (fb + 1 + e) = 2 ^ (fb + 1) * 2 ^ e) as Pfe by (apply Z.pow_add_r; lia).
  assert (0 <= n / d) as Q0 by (apply Z.div_pos; lia).
  (* the significand has at most fb+1 bits, exactly that many when e > 0 *)
  assert (n / (d * 2 ^ e) < 2 ^ (fb + 1)) as Qhi.
  { rewrite <- Z.div_div by lia. apply Z.div_lt_upper_bound; [lia|]. rewrite Z.mul_comm, <- Pfe.
    destruct (Z.eq_dec (n / d) 0) as [->|]; [pose proof (pow2_pos (fb + 1 + e)); lia|].
    apply Z.log2_lt_pow2; lia. }
  assert (e = 0 \/ 2 ^ fb * 2 ^ e <= n / d) as Qlo.
  { destruct (Z.eq_dec e 0); [by left|right]. rewrite <- Z.pow_add_r by lia.
    assert (0 < n / d) by (destruct (Z.eq_dec (n / d) 0) as [Z0|]; [unfold e in *; rewrite Z0 in *; cbn in *; lia|lia]).
    apply Z.log2_le_pow2; lia. }
  set (q := round_q 0 sign n (d * 2 ^ e)) in *.
  pose proof (round_q_bounds 0 sign n (d * 2 ^ e)) as B. fold q in B.
  assert (0 <= n / (d * 2 ^ e)) by (apply Z.div_pos; nia).
  assert (e = 0 \/ 2 ^ fb <= n / (d * 2 ^ e)) as Qlo'.
  { destruct Qlo as [|Q]; [by left|right]. rewrite <- Z.div_div by lia. apply Z.div_le_lower_bound; lia. }
  unfold u. rewrite mag_of_packed by lia.
  assert (forall k, Z.abs (q * 2 ^ e * d - n) <= Z.abs (k * 2 ^ e * d - n)) as Near.
  { intros k. pose proof (round_q_nearest sign n (d * 2 ^ e) k Hn ltac:(nia)) as N. fold q in N.
    replace (q * 2 ^ e * d) with (q * (d * 2 ^ e)) by lia. by replace (k * 2 ^ e * d) with (k * (d * 2 ^ e)) by lia. }
  assert (e = 0 \/ e <= ex - 1 \/ (0 < e /\ ex - 1 < e)) as [E0|[E1|[E1 E2]]] by lia.
  - pose proof (Near (mag_of fb ex fr)) as N. rewrite E0 in *. by rewrite !Z.mul_1_r in *.
  - assert (mag_of fb ex fr = (fr + 2 ^ fb) * 2 ^ (ex - 1 - e) * 2 ^ e) as ->; [|apply Near].
    unfold mag_of. rewrite (proj2 (Z.eqb_neq _ _)) by lia. rewrite <- Z.mul_assoc, <- Z.pow_add_r by lia. f_equal. f_equal. lia.
  - destruct Qlo as [|Q]; [lia|]. pose proof (Near (2 ^ fb)) as N.
    assert (n / d * d <= n) by (pose proof (Z.mul_div_le n d Hd); lia).
    assert (mag_of fb ex fr <= 2 ^ fb * 2 ^ e); [|nia].
    replace (2 ^ fb * 2 ^ e) with (mag_of fb (e + 1) 0); [|unfold mag_of; rewrite (proj2 (Z.eqb_neq _ _)) by lia; do 2 f_equal; lia].
    apply Z.lt_le_incl, mag_of_lt; nia.
Qed.

Lemma ref_round_fields32 s n d :
  0 <= n -> 0 < d -> let r := (ref_round F32 0 s n d).1 in expF32UI r <> 0xFF ->
  let e := Z.max 0 (Z.log2 (n / d) - 23) in
  let u := e * 2 ^ 23 + round_q 0 s n (d * 2 ^ e) in
  signF32UI r = s /\ mag32 r = mag_of 23 (u / 2 ^ 23) (u mod 2 ^ 23).
Proof.
  intros Hn Hd r Fr e u. unfold r, ref_round in Fr |- *. cbn [frac_bits exp_max fwidth F32] in *. cbv zeta in *. fold e u in Fr |- *.
  assert (0 <= e) as He by lia. pose proof (pow2_pos e He).
  assert (0 <= u) as U0.
  { pose proof (round_q_nonneg 0 s n (d * 2 ^ e) Hn ltac:(nia)). unfold u. nia. }
  pose proof (Z.div_mod u (2 ^ 23) ltac:(lia)) as D. pose proof (Z.mod_pos_bound u (2 ^ 23) ltac:(lia)) as M.
  destruct (Z.leb_spec (0xFF * 2 ^ 23) u) as [L|L]; cbn [fst] in *.
  - exfalso. apply Fr. by destruct s.
  - assert (0 <= u / 2 ^ 23 < 0xFF) by (split; [apply Z.div_pos|apply Z.div_lt_upper_bound]; lia).
    destruct (fields32_pack s (u / 2 ^ 23) (u mod 2 ^ 23)) as (_ & S & X & F); [lia|lia|].
    replace (b2z s * 2 ^ (32 - 1) + u) with (b2z s * 2 ^ (32 - 1) + u / 2 ^ 23 * 2 ^ 23 + u mod 2 ^ 23) by lia.
    split; [exact S|]. unfold mag32, mag_of.
    change (2 ^ (32 - 1)) with (2 ^ (31)). by rewrite X, F.
Qed.

Lemma nearest32 s n d c :
  0 <= n -> 0 < d -> finite32 (ref_round F32 0 s n d).1 -> finite32 c ->
  Z.abs (val32 (ref_round F32 0 s n d).1 * d - signed s n) <= Z.abs (val32 c * d - signed s n).
Proof.
  intros Hn Hd [_ Fr] [Hc Fc]. destruct (fields32 c Hc) as (Ec & Gc & _).
  destruct (ref_round_fields32 s n d Hn Hd Fr) as [Sr Mr].
  pose proof (ref_round_nearest 23 s n d (expF32UI c) (fracF32UI c) ltac:(lia) Hn Hd ltac:(lia) Gc) as Rc.
  pose proof (ref_round_nearest 23 s n d 0 0 ltac:(lia) Hn Hd ltac:(lia) ltac:(lia)) as R0. cbv zeta in *.
  rewrite <- Mr in *. unfold val32 at 1. rewrite Sr. change (mag_of 23 0 0) with 0 in R0.
  change (mag_of 23 (expF32UI c) (fracF32UI c)) with (mag32 c) in Rc. unfold val32, signed.
  pose proof (mag32_nonneg c Hc). destruct s, (signF32UI c); nia.
Qed.


Lemma ref_round_fields64 s n d :
  0 <= n -> 0 < d -> let r := (ref_round F64 0 s n d).1 in expF64UI r <> 0x7FF ->
  let e := Z.max 0 (Z.log2 (n / d) - 52) in
  let u := e * 2 ^ 52 + round_q 0 s n (d * 2 ^ e) in
  signF64UI r = s /\ mag64 r = mag_of 52 (u / 2 ^ 52) (u mod 2 ^ 52).
Proof.
  intros Hn Hd r Fr e u. unfold r, ref_round in Fr |- *. cbn [frac_bits exp_max fwidth F64] in *. cbv zeta in *. fold e u in Fr |- *.
  assert (0 <= e) as He by lia. pose proof (pow2_pos e He).
  assert (0 <= u) as U0.
  { pose proof (round_q_nonneg 0 s n (d * 2 ^ e) Hn ltac:(nia)). unfold u. nia. }
  pose proof (Z.div_mod u (2 ^ 52) ltac:(lia)) as D. pose proof (Z.mod_pos_bound u (2 ^ 52) ltac:(lia)) as M.
  destruct (Z.leb_spec (0x7FF * 2 ^ 52) u) as [L|L]; cbn [fst] in *.
  - exfalso. apply Fr. by destruct s.
  - assert (0 <= u / 2 ^ 52 < 0x7FF) by (split; [apply Z.div_pos|apply Z.div_lt_upper_bound]; lia).
    destruct (fields64_pack s (u / 2 ^ 52) (u mod 2 ^ 52)) as (_ & S & X & F); [lia|lia|].
    replace (b2z s * 2 ^ (64 - 1) + u) with (b2z s * 2 ^ (64 - 1) + u / 2 ^ 52 * 2 ^ 52 + u mod 2 ^ 52) by lia.
    split; [exact S|]. unfold mag64, mag_of.
    change (2 ^ (64 - 1)) with (2 ^ (63)). by rewrite X, F.
Qed.

Lemma nearest64 s n d c :
  0 <= n -> 0 < d -> finite64 (ref_round F64 0 s n d).1 -> finite64 c ->
  Z.abs (val64 (ref_round F64 0 s n d).1 * d - signed s n) <= Z.abs (val64 c * d - signed s n).
Proof.
  intros Hn Hd [_ Fr] [Hc Fc]. destruct (fields64 c Hc) as (Ec & Gc & _).
  destruct (ref_round_fields64 s n d Hn Hd Fr) as [Sr Mr].
  pose proof (ref_round_nearest 52 s n d (expF64UI c) (fracF64UI c) ltac:(lia) Hn Hd ltac:(lia) Gc) as Rc.
  pose proof (ref_round_nearest 52 s n d 0 0 ltac:(lia) Hn Hd ltac:(lia) ltac:(lia)) as R0. cbv zeta in *.
  rewrite <- Mr in *. unfold val64 at 1. rewrite Sr. change (mag_of 52 0 0) with 0 in R0.
  change (mag_of 52 (expF64UI c) (fracF64UI c)) with (mag64 c) in Rc. unfold val64, signed.
  pose proof (mag64_nonneg c Hc). destruct s, (signF64UI c); nia.
Qed.


Lemma some_fst {A B} (x r : A) (y f : B) : Some (x, y) = Some (r, f) -> x = r.
Proof. by intros [= -> _]. Qed.

Lemma val_signed_zero32 s : val32 (signed_zero F32 s) = 0.
Proof. by destruct s. Qed.

Lemma add_nearest32 a b c r fl fl' :
  finite32 a -> finite32 b -> finite32 c -> finite32 r -> f32_add a b 0 fl = Some (r, fl') ->
  Z.abs (val32 r - (val32 a + val32 b)) <= Z.abs (val32 c - (val32 a + val32 b)).
Proof.
  intros Fa Fb Fc Fr E. rewrite f32_add_spec in E by (done || lia). apply some_fst in E. set (v := val32 a + val32 b) in *.
  unfold ref_sum in E. destruct (Z.eqb_spec v 0) as [V|V].
  - cbn [fst] in E. rewrite <- E. fold (signed_zero F32 (if eqb (signF32UI a) (signF32UI b) then signF32UI a else 0 =? 2)).
    rewrite val_signed_zero32. lia.
  - rewrite <- E in Fr |- *. pose proof (nearest32 (v <? 0) (Z.abs v) 1 c ltac:(lia) ltac:(lia) Fr Fc) as N.
    rewrite !Z.mul_1_r in N. replace (signed (v <? 0) (Z.abs v)) with v in N; [exact N|].
    unfold signed. destruct (Z.ltb_spec v 0); lia.
Qed.

Lemma signed_xorb32 a b x y :
  (if signF32UI a then - x else x) * (if signF32UI b then - y else y) = signed (xorb (signF32UI a) (signF32UI b)) (x * y).
Proof. unfold signed. destruct (signF32UI a), (signF32UI b); cbn [xorb]; lia. Qed.

Lemma mul_nearest32 a b c r fl fl' :
  finite32 a -> finite32 b -> finite32 c -> finite32 r -> f32_mul a b 0 fl = Some (r, fl') ->
  Z.abs (val32 r * 2 ^ 149 - val32 a * val32 b) <= Z.abs (val32 c * 2 ^ 149 - val32 a * val32 b).
Proof.
  intros Fa Fb Fc Fr E. rewrite (f32_mul_ieee a b 0 fl) in E by (apply Fa || apply Fb || lia). apply some_fst in E.
  destruct (special_or_finite32 a b (proj1 Fa) (proj1 Fb)) as [[X|X]|(_ & _ & Da & Db)]; [by destruct Fa|by destruct Fb|].
  pose proof (mag32_nonneg a (proj1 Fa)). pose proof (mag32_nonneg b (proj1 Fb)).
  unfold val32 at 2 3 5 6. rewrite signed_xorb32. rewrite Da, Db in E. cbn [ieee_mul] in E.
  destruct ((mag32 a =? 0) || (mag32 b =? 0)) eqn:Z0.
  - cbn [fst] in E. rewrite <- E, val_signed_zero32.
    assert (mag32 a * mag32 b = 0) as -> by (apply orb_true_iff in Z0 as [Z0|Z0]; apply Z.eqb_eq in Z0; nia).
    unfold signed. destruct (xorb _ _); lia.
  - rewrite <- E in Fr |- *. apply nearest32; auto; nia || (apply pow2_pos; lia).
Qed.

Lemma div_nearest32 a b c r fl fl' :
  finite32 a -> finite32 b -> finite32 c -> finite32 r -> val32 b <> 0 -> f32_div a b 0 fl = Some (r, fl') ->
  Z.abs (val32 r * val32 b - val32 a * 2 ^ 149) <= Z.abs (val32 c * val32 b - val32 a * 2 ^ 149).
Proof.
  intros Fa Fb Fc Fr Hb E. rewrite (f32_div_ieee a b 0 fl) in E by (apply Fa || apply Fb || lia). apply some_fst in E.
  destruct (special_or_finite32 a b (proj1 Fa) (proj1 Fb)) as [[X|X]|(_ & _ & Da & Db)]; [by destruct Fa|by destruct Fb|].
  pose proof (mag32_nonneg a (proj1 Fa)). pose proof (mag32_nonneg b (proj1 Fb)).
  assert (mag32 b <> 0) as Mb by (unfold val32 in Hb; destruct (signF32UI b); lia).
  rewrite Da, Db in E. cbn [ieee_div] in E. rewrite (proj2 (Z.eqb_neq _ _) Mb) in E.
  destruct (Z.eqb_spec (mag32 a) 0) as [Z0|Z0].
  - cbn [fst] in E. rewrite <- E, val_signed_zero32. unfold val32 at 2 4. rewrite Z0. destruct (signF32UI a); lia.
  - set (s := xorb _ _) in E. rewrite <- E in Fr |- *.
    pose proof (pow2_pos 149 ltac:(lia)) as PU.
    pose proof (nearest32 s (mag32 a * one_mag F32) (mag32 b) c ltac:(change (one_mag F32) with (2 ^ 149); nia) ltac:(lia) Fr Fc) as N.
    change (one_mag F32) with (2 ^ 149) in *. set (R := val32 (_).1) in *. unfold val32 at 1 2 4 5. unfold signed, s in N.
    set (A := mag32 a * 2 ^ 149) in *.
    replace ((if signF32UI a then - mag32 a else mag32 a) * 2 ^ 149) with (if signF32UI a then - A else A) by (unfold A; destruct (signF32UI a); lia).
    clearbody A R. destruct (signF32UI a), (signF32UI b); cbn [xorb] in N; lia.
Qed.


Lemma val_signed_zero64 s : val64 (signed_zero F64 s) = 0.
Proof. by destruct s. Qed.

Lemma add_nearest64 a b c r fl fl' :
  finite64 a -> finite64 b -> finite64 c -> finite64 r -> f64_add a b 0 fl = Some (r, fl') ->
  Z.abs (val64 r - (val64 a + val64 b)) <= Z.abs (val64 c - (val64 a + val64 b)).
Proof.
  intros Fa Fb Fc Fr E. rewrite f64_add_spec in E by (done || lia). apply some_fst in E. set (v := val64 a + val64 b) in *.
  unfold ref_sum in E. destruct (Z.eqb_spec v 0) as [V|V].
  - cbn [fst] in E. rewrite <- E. fold (signed_zero F64 (if eqb (signF64UI a) (signF64UI b) then signF64UI a else 0 =? 2)).
    rewrite val_signed_zero64. lia.
  - rewrite <- E in Fr |- *. pose proof (nearest64 (v <? 0) (Z.abs v) 1 c ltac:(lia) ltac:(lia) Fr Fc) as N.
    rewrite !Z.mul_1_r in N. replace (signed (v <? 0) (Z.abs v)) with v in N; [exact N|].
    unfold signed. destruct (Z.ltb_spec v 0); lia.
Qed.

Lemma signed_xorb64 a b x y :
  (if signF64UI a then - x else x) * (if signF64UI b then - y else y) = signed (xorb (signF64UI a) (signF64UI b)) (x * y).
Proof. unfold signed. destruct (signF64UI a), (signF64UI b); cbn [xorb]; lia. Qed.

Lemma mul_nearest64 a b c r fl fl' :
  finite64 a -> finite64 b -> finite64 c -> finite64 r -> f64_mul a b 0 fl = Some (r, fl') ->
  Z.abs (val64 r * 2 ^ 1074 - val64 a * val64 b) <= Z.abs (val64 c * 2 ^ 1074 - val64 a * val64 b).
Proof.
  intros Fa Fb Fc Fr E. rewrite (f64_mul_ieee a b 0 fl) in E by (apply Fa || apply Fb || lia). apply some_fst in E.
  destruct (special_or_finite64 a b (proj1 Fa) (proj1 Fb)) as [[X|X]|(_ & _ & Da & Db)]; [by destruct Fa|by destruct Fb|].
  pose proof (mag64_nonneg a (proj1 Fa)). pose proof (mag64_nonneg b (proj1 Fb)).
  unfold val64 at 2 3 5 6. rewrite signed_xorb64. rewrite Da, Db in E. cbn [ieee_mul] in E.
  destruct ((mag64 a =? 0) || (mag64 b =? 0)) eqn:Z0.
  - cbn [fst] in E. rewrite <- E, val_signed_zero64.
    assert (mag64 a * mag64 b = 0) as -> by (apply orb_true_iff in Z0 as [Z0|Z0]; apply Z.eqb_eq in Z0; nia).
    unfold signed. destruct (xorb _ _); lia.
  - rewrite <- E in Fr |- *. apply nearest64; auto; nia || (apply pow2_pos; lia).
Qed.

Lemma div_nearest64 a b c r fl fl' :
  finite64 a -> finite64 b -> finite64 c -> finite64 r -> val64 b <> 0 -> f64_div a b 0 fl = Some (r, fl') ->
  Z.abs (val64 r * val64 b - val64 a * 2 ^ 1074) <= Z.abs (val64 c * val64 b - val64 a * 2 ^ 1074).
Proof.
  intros Fa Fb Fc Fr Hb E. rewrite (f64_div_ieee a b 0 fl) in E by (apply Fa || apply Fb || lia). apply some_fst in E.
  destruct (special_or_finite64 a b (proj1 Fa) (proj1 Fb)) as [[X|X]|(_ & _ & Da & Db)]; [by destruct Fa|by destruct Fb|].
  pose proof (mag64_nonneg a (proj1 Fa)). pose proof (mag64_nonneg b (proj1 Fb)).
  assert (mag64 b <> 0) as Mb by (unfold val64 in Hb; destruct (signF64UI b); lia).
  rewrite Da, Db in E. cbn [ieee_div] in E. rewrite (proj2 (Z.eqb_neq _ _) Mb) in E.
  destruct (Z.eqb_spec (mag64 a) 0) as [Z0|Z0].
  - cbn [fst] in E. rewrite <- E, val_signed_zero64. unfold val64 at 2 4. rewrite Z0. destruct (signF64UI a); lia.
  - set (s := xorb _ _) in E. rewrite <- E in Fr |- *.
    pose proof (pow2_pos 1074 ltac:(lia)) as PU.
    pose proof (nearest64 s (mag64 a * one_mag F64) (mag64 b) c ltac:(change (one_mag F64) with (2 ^ 1074); nia) ltac:(lia) Fr Fc) as N.
    change (one_mag F64) with (2 ^ 1074) in *. set (R := val64 (_).1) in *. unfold val64 at 1 2 4 5. unfold signed, s in N.
    set (A := mag64 a * 2 ^ 1074) in *.
    replace ((if signF64UI a then - mag64 a else mag64 a) * 2 ^ 1074) with (if signF64UI a then - A else A) by (unfold A; destruct (signF64UI a); lia).
    clearbody A R. destruct (signF64UI a), (signF64UI b); cbn [xorb] in N; lia.
Qed.


(** C2.  Addition and subtraction of singles and of doubles follow IEEE 754 on every
    pair of operands (NaNs, infinities, zeros and subnormals included) and in every
    rounding mode: the bits are the exact sum or difference correctly rounded, the
    flags raised are exactly those of the operation, and the routine returns. *)
Theorem add_sub_ieee754 a b rm fl :
  0 <= rm <= 4 ->
  (inu 32 a -> inu 32 b ->
   computes (f32_add a b) rm fl (ieee_add F32 rm (decode32 a) (decode32 b)) /\
   computes (f32_sub a b) rm fl (ieee_sub F32 rm (decode32 a) (decode32 b))) /\
  (inu 64 a -> inu 64 b ->
   computes (f64_add a b) rm fl (ieee_add F64 rm (decode64 a) (decode64 b)) /\
   computes (f64_sub a b) rm fl (ieee_sub F64 rm (decode64 a) (decode64 b))).
Proof.
  intros Hrm. split; intros Ha Hb; split.
  - exact (sf_add_ieee (f := F32) a b rm fl Ha Hb Hrm).
  - exact (sf_sub_ieee (f := F32) a b rm fl Ha Hb Hrm).
  - exact (sf_add_ieee (f := F64) a b rm fl Ha Hb Hrm).
  - exact (sf_sub_ieee (f := F64) a b rm fl Ha Hb Hrm).
Qed.

(** C3.  Multiplication of singles and of doubles follows IEEE 754 on every pair of
    operands and in every rounding mode, flags included. *)
Theorem mul_ieee754 a b rm fl :
  0 <= rm <= 4 ->
  (inu 32 a -> inu 32 b -> computes (f32_mul a b) rm fl (ieee_mul F32 rm (decode32 a) (decode32 b))) /\
  (inu 64 a -> inu 64 b -> computes (f64_mul a b) rm fl (ieee_mul F64 rm (decode64 a) (decode64 b))).
Proof. intros Hrm. split; intros Ha Hb; [exact (sf_mul_ieee (f := F32) a b rm fl Ha Hb Hrm)|exact (sf_mul_ieee (f := F64) a b rm fl Ha Hb Hrm)]. Qed.

(** C4.  Division of singles and of doubles follows IEEE 754 on every pair of
    operands and in every rounding mode, flags included; for doubles the quotient
    estimate and its correction loop terminate. *)
Theorem div_ieee754 a b rm fl :
  0 <= rm <= 4 ->
  (inu 32 a -> inu 32 b -> computes (f32_div a b) rm fl (ieee_div F32 rm (decode32 a) (decode32 b))) /\
  (inu 64 a -> inu 64 b -> computes (f64_div a b) rm fl (ieee_div F64 rm (decode64 a) (decode64 b))).
Proof. intros Hrm. split; intros Ha Hb; [exact (sf_div_ieee (f := F32) a b rm fl Ha Hb Hrm)|exact (sf_div_ieee (f := F64) a b rm fl Ha Hb Hrm)]. Qed.

(** Under round-to-nearest the sum, product and quotient of finite operands,
    when finite, are at least as close to the exact real result as any other finite
    number [c] of the format (all values in units of the smallest subnormal). *)
Theorem round_to_nearest a b c r fl fl' :
  (finite32 a -> finite32 b -> finite32 c -> finite32 r ->
   (f32_add a b 0 fl = Some (r, fl') ->
      Z.abs (val32 r - (val32 a + val32 b)) <= Z.abs (val32 c - (val32 a + val32 b))) /\
   (f32_mul a b 0 fl = Some (r, fl') ->
      Z.abs (val32 r * 2 ^ 149 - val32 a * val32 b) <= Z.abs (val32 c * 2 ^ 149 - val32 a * val32 b)) /\
   (val32 b <> 0 -> f32_div a b 0 fl = Some (r, fl') ->
      Z.abs (val32 r * val32 b - val32 a * 2 ^ 149) <= Z.abs (val32 c * val32 b - val32 a * 2 ^ 149))) /\
  (finite64 a -> finite64 b -> finite64 c -> finite64 r ->
   (f64_add a b 0 fl = Some (r, fl') ->
      Z.abs (val64 r - (val64 a + val64 b)) <= Z.abs (val64 c - (val64 a + val64 b))) /\
   (f64_mul a b 0 fl = Some (r, fl') ->
      Z.abs (val64 r * 2 ^ 1074 - val64 a * val64 b) <= Z.abs (val64 c * 2 ^ 1074 - val64 a * val64 b)) /\
   (val64 b <> 0 -> f64_div a b 0 fl = Some (r, fl') ->
      Z.abs (val64 r * val64 b - val64 a * 2 ^ 1074) <= Z.abs (val64 c * val64 b - val64 a * 2 ^ 1074))).
Proof.
  split; intros Fa Fb Fc Fr; split_and!; intros E.
  - by apply (add_nearest32 a b c r fl fl').
  - by apply (mul_nearest32 a b c r fl fl').
  - by apply (div_nearest32 a b c r fl fl').
  - by apply (add_nearest64 a b c r fl fl').
  - by apply (mul_nearest64 a b c r fl fl').
  - by apply (div_nearest64 a b c r fl fl').
Qed.

(** ** Concrete runs *)

Lemma add_sub_ieee754_witness :
  f32_add 0x3F800000 0x40000000 0 0 = Some (0x40400000, 0) /\ f32_sub 0x7F800000 0x7F800000 0 0 = Some (0xFFFFFFFF, 16) /\
  f64_add 0x3FF0000000000000 0x3CA0000000000000 3 0 = Some (0x3FF0000000000001, 1).
Proof.
  split_and!.
  - destruct (add_sub_ieee754 0x3F800000 0x40000000 0 0 ltac:(lia)) as [H _].
    destruct H as [H _]; [vm_decide|vm_decide|vm_cast_no_check H].
  - destruct (add_sub_ieee754 0x7F800000 0x7F800000 0 0 ltac:(lia)) as [H _].
    destruct H as [_ H]; [vm_decide|vm_decide|vm_cast_no_check H].
  - destruct (add_sub_ieee754 0x3FF0000000000000 0x3CA0000000000000 3 0 ltac:(lia)) as [_ H].
    destruct H as [H _]; [vm_decide|vm_decide|vm_cast_no_check H].
Defined.

Lemma mul_ieee754_witness :
  f32_mul 0x00800000 0x3F000001 0 0 = Some (0x00400000, 3) /\
  f64_mul 0x7FE0000000000000 0x4010000000000000 1 0 = Some (0x7FEFFFFFFFFFFFFF, 5).
Proof.
  split.
  - pose proof (proj1 (mul_ieee754 0x00800000 0x3F000001 0 0 ltac:(lia)) ltac:(vm_decide) ltac:(vm_decide)) as H. vm_cast_no_check H.
  - pose proof (proj2 (mul_ieee754 0x7FE0000000000000 0x4010000000000000 1 0 ltac:(lia)) ltac:(vm_decide) ltac:(vm_decide)) as H.
    vm_cast_no_check H.
Defined.

Lemma div_ieee754_witness :
  f32_div 0x3F800000 0x40400000 0 0 = Some (0x3EAAAAAB, 1) /\ f64_div 0x3FF0000000000000 0 0 0 = Some (0x7FF0000000000000, 8).
Proof.
  split.
  - pose proof (proj1 (div_ieee754 0x3F800000 0x40400000 0 0 ltac:(lia)) ltac:(vm_decide) ltac:(vm_decide)) as H. vm_cast_no_check H.
  - pose proof (proj2 (div_ieee754 0x3FF0000000000000 0 0 0 ltac:(lia)) ltac:(vm_decide) ltac:(vm_decide)) as H. vm_cast_no_check H.
Defined.

Lemma finite32_by a : inu 32 a -> (expF32UI a =? 0xFF) = false -> finite32 a.
Proof. intros H E. split; [done|]. by apply Z.eqb_neq. Qed.

Lemma finite64_by a : inu 64 a -> (expF64UI a =? 0x7FF) = false -> finite64 a.
Proof. intros H E. split; [done|]. by apply Z.eqb_neq. Qed.

Lemma round_to_nearest_witness :
  Z.abs (val32 0x3EAAAAAB * val32 0x40400000 - val32 0x3F800000 * 2 ^ 149)
    <= Z.abs (val32 0x3EAAAAAA * val32 0x40400000 - val32 0x3F800000 * 2 ^ 149).
Proof.
  destruct (round_to_nearest 0x3F800000 0x40400000 0x3EAAAAAA 0x3EAAAAAB 0 1) as [H _].
  destruct H as (_ & _ & H); [apply finite32_by; [vm_decide|reflexivity]..|].
  apply H; [vm_decide|vm_compute; reflexivity].
Defined.
