(* ===== verification/SFConvSpec.v ===== *)
(** * SoftFloat: theorems on comparisons, conversions and wide arithmetic

    What the comparison and conversion routines and the multi-word primitives of
    softfloat/ compute, stated on the values of the words, and the round trips
    between the formats and the integers. *)

From Stdlib Require Import ZArith Lia Bool List.
From stdpp Require Import base list.
From S2P Require Import Prelude SFPrim SFRound SFConv SFArith SFSpec.
Open Scope Z_scope.

(** ** Comparisons *)

(** The comparison routines compute equality and order of the values (zeros
    equal), and on a NaN operand answer false with the invalid flag raised by the
    signalling predicates always and by the quiet ones only for signalling NaNs. *)
Theorem comparisons_correct a b rm fl :
  (inu 32 a -> inu 32 b ->
   f32_eq a b rm fl = Some (cmp_spec nanF32 softfloat_isSigNaNF32UI val32 Z.eqb true a b fl) /\
   f32_lt a b rm fl = Some (cmp_spec nanF32 softfloat_isSigNaNF32UI val32 Z.ltb false a b fl) /\
   f32_le a b rm fl = Some (cmp_spec nanF32 softfloat_isSigNaNF32UI val32 Z.leb false a b fl) /\
   f32_eq_signaling a b rm fl = Some (cmp_spec nanF32 softfloat_isSigNaNF32UI val32 Z.eqb false a b fl) /\
   f32_lt_quiet a b rm fl = Some (cmp_spec nanF32 softfloat_isSigNaNF32UI val32 Z.ltb true a b fl) /\
   f32_le_quiet a b rm fl = Some (cmp_spec nanF32 softfloat_isSigNaNF32UI val32 Z.leb true a b fl)) /\
  (inu 64 a -> inu 64 b ->
   f64_eq a b rm fl = Some (cmp_spec nanF64 softfloat_isSigNaNF64UI val64 Z.eqb true a b fl) /\
   f64_lt a b rm fl = Some (cmp_spec nanF64 softfloat_isSigNaNF64UI val64 Z.ltb false a b fl) /\
   f64_le a b rm fl = Some (cmp_spec nanF64 softfloat_isSigNaNF64UI val64 Z.leb false a b fl) /\
   f64_eq_signaling a b rm fl = Some (cmp_spec nanF64 softfloat_isSigNaNF64UI val64 Z.eqb false a b fl) /\
   f64_lt_quiet a b rm fl = Some (cmp_spec nanF64 softfloat_isSigNaNF64UI val64 Z.ltb true a b fl) /\
   f64_le_quiet a b rm fl = Some (cmp_spec nanF64 softfloat_isSigNaNF64UI val64 Z.leb true a b fl)).
Proof. split; [apply f32_compare_spec|apply f64_compare_spec]. Qed.

(** ** Floating point to integer *)

(** C34.  Conversion of a finite single or double to each integer type rounds the
    exact value in the requested mode, saturates with the invalid flag when it does
    not fit, and otherwise raises inexact exactly when asked to and the value is not
    an integer. *)
Theorem float_to_integer a rm exact rm0 fl :
  0 <= rm <= 4 ->
  (finite32 a ->
   computes (f32_to_i32 a rm exact) rm0 fl (ref_to_int (- 2 ^ 31) (2 ^ 31 - 1) rm (signF32UI a) exact (mag32 a) (2 ^ 149)) /\
   computes (f32_to_ui32 a rm exact) rm0 fl (ref_to_uint (2 ^ 32 - 1) rm (signF32UI a) exact (mag32 a) (2 ^ 149)) /\
   computes (f32_to_i64 a rm exact) rm0 fl (ref_to_int (- 2 ^ 63) (2 ^ 63 - 1) rm (signF32UI a) exact (mag32 a) (2 ^ 149)) /\
   computes (f32_to_ui64 a rm exact) rm0 fl (ref_to_uint (2 ^ 64 - 1) rm (signF32UI a) exact (mag32 a) (2 ^ 149))) /\
  (finite64 a ->
   computes (f64_to_i32 a rm exact) rm0 fl (ref_to_int (- 2 ^ 31) (2 ^ 31 - 1) rm (signF64UI a) exact (mag64 a) (2 ^ 1074)) /\
   computes (f64_to_ui32 a rm exact) rm0 fl (ref_to_uint (2 ^ 32 - 1) rm (signF64UI a) exact (mag64 a) (2 ^ 1074)) /\
   computes (f64_to_i64 a rm exact) rm0 fl (ref_to_int (- 2 ^ 63) (2 ^ 63 - 1) rm (signF64UI a) exact (mag64 a) (2 ^ 1074)) /\
   computes (f64_to_ui64 a rm exact) rm0 fl (ref_to_uint (2 ^ 64 - 1) rm (signF64UI a) exact (mag64 a) (2 ^ 1074))).
Proof.
  intros Hrm. split; intros Fa; split_and!.
  - by apply f32_to_i32_spec.
  - by apply f32_to_ui32_spec.
  - by apply f32_to_i64_spec.
  - by apply f32_to_ui64_spec.
  - by apply f64_to_i32_spec.
  - by apply f64_to_ui32_spec.
  - by apply f64_to_i64_spec.
  - by apply f64_to_ui64_spec.
Qed.

(** ** Integer to floating point *)

Lemma ref_round_zero (f : fformat) rm :
  0 <= rm <= 4 -> f = F32 \/ f = F64 -> ref_round f rm false 0 1 = (0, 0).
Proof. intros Hrm [-> | ->]; destruct (rm_cases rm Hrm) as [->|[->|[->|[->| ->]]]]; reflexivity. Qed.

(** The exact conversions as roundings. *)
Lemma exact_is_ref_round64 z v rm :
  0 <= rm <= 4 -> finite64 z -> val64 z = v -> v <> 0 ->
  ref_round F64 rm (v <? 0) (Z.abs v) 1 = (z, 0).
Proof.
  intros Hrm [Hz Fz] Ev Hv. destruct (fields64 z Hz) as (He & Hf & E).
  pose proof (mag64_nonneg z Hz) as M0.
  assert ((v <? 0) = signF64UI z /\ Z.abs v = mag64 z) as [S ->].
  { unfold val64 in Ev. destruct (signF64UI z); destruct (Z.ltb_spec v 0); split; lia || done. }
  rewrite S. unfold mag64. destruct (Z.eqb_spec (expF64UI z) 0) as [E0|E0].
  - rewrite (ref_round_exact F64 rm _ _ 1 0 (fracF64UI z)); cbn [frac_bits exp_max fwidth F64]; try lia.
    f_equal. change (64 - 1) with 63. lia.
  - rewrite (ref_round_exact F64 rm _ _ 1 (expF64UI z - 1) (fracF64UI z + 2 ^ 52)); cbn [frac_bits exp_max fwidth F64]; try lia.
    f_equal. change (64 - 1) with 63. lia.
Qed.

(** C35.  Each integer-to-float conversion returns the correctly rounded value of
    the integer, in every rounding mode and with the flags of the rounding; the
    32-bit to double conversions are therefore exact.  This is so for every
    integer of the argument type with one exception: the most negative [int]
    given to [i32_to_f64], whose signed negation overflows, where the C code is
    undefined. *)
Theorem integer_to_float a rm fl :
  0 <= rm <= 4 ->
  (inu 32 a -> computes (ui32_to_f32 a) rm fl (ref_round F32 rm false (a * 2 ^ 149) 1)) /\
  (inu 64 a -> computes (ui64_to_f32 a) rm fl (ref_round F32 rm false (a * 2 ^ 149) 1)) /\
  (inu 64 a -> computes (ui64_to_f64 a) rm fl (ref_round F64 rm false (a * 2 ^ 1074) 1)) /\
  (inu 32 a -> exists z, computes (ui32_to_f64 a) rm fl (z, 0) /\ finite64 z /\ val64 z = a * 2 ^ 1074) /\
  (- 2 ^ 31 <= a < 2 ^ 31 -> computes (i32_to_f32 a) rm fl (ref_round F32 rm (a <? 0) (Z.abs a * 2 ^ 149) 1)) /\
  (- 2 ^ 63 <= a < 2 ^ 63 -> computes (i64_to_f32 a) rm fl (ref_round F32 rm (a <? 0) (Z.abs a * 2 ^ 149) 1)) /\
  (- 2 ^ 63 <= a < 2 ^ 63 -> computes (i64_to_f64 a) rm fl (ref_round F64 rm (a <? 0) (Z.abs a * 2 ^ 1074) 1)) /\
  (- 2 ^ 31 < a < 2 ^ 31 -> exists z, computes (i32_to_f64 a) rm fl (z, 0) /\ finite64 z /\ val64 z = a * 2 ^ 1074) /\
  i32_to_f64 (- 2 ^ 31) rm fl = None.
Proof.
  intros Hrm. unfold inu. destruct (Z.eq_dec a 0) as [->|H0].
  - change (0 <? 0) with false. change (Z.abs 0) with 0. rewrite !Z.mul_0_l, !ref_round_zero by auto.
    split_and!; last reflexivity; intros _; try (apply computes_fret); exists 0; (split; [apply computes_fret|done]).
  - split_and!; last reflexivity; intros Ha.
    + apply ui32_to_f32_spec; lia.
    + apply ui64_to_f32_spec; lia.
    + apply ui64_to_f64_spec; lia.
    + destruct (ui32_to_f64_spec a rm fl Ha) as (z & E & H). exists z. split; [|done]. unfold computes. by rewrite E, Z.lor_0_r.
    + by apply i32_to_f32_spec.
    + by apply i64_to_f32_spec.
    + by apply i64_to_f64_spec.
    + destruct (i32_to_f64_spec a rm fl Ha) as (z & E & H). exists z. split; [|done]. unfold computes. by rewrite E, Z.lor_0_r.
Qed.

(** ** Round trips *)

(** Rounding the value of a finite single to the single format gives it back. *)
Lemma round_single_exact a rm k :
  0 <= rm <= 4 -> finite32 a -> 0 <= k ->
  ref_round F32 rm (signF32UI a) (mag32 a * 2 ^ k) (2 ^ k) = (a, 0).
Proof.
  intros Hrm [Ha Fa] Hk. destruct (fields32 a Ha) as (He & Hf & E). pose proof (pow2_pos k Hk). unfold mag32.
  destruct (Z.eqb_spec (expF32UI a) 0) as [E0|E0].
  - rewrite (ref_round_exact F32 rm _ _ (2 ^ k) 0 (fracF32UI a)); cbn [frac_bits exp_max fwidth F32]; try lia.
    f_equal. change (32 - 1) with 31. lia.
  - rewrite (ref_round_exact F32 rm _ _ (2 ^ k) (expF32UI a - 1) (fracF32UI a + 2 ^ 23)); cbn [frac_bits exp_max fwidth F32]; try lia.
    f_equal. change (32 - 1) with 31. lia.
Qed.

(** Widening a finite single to double is exact (same sign and value, no
    flag), and narrowing it again, in any rounding mode, gives back the same word
    with no flag; infinities keep their sign both ways. *)
Theorem widen_narrow_roundtrip a rm fl :
  inu 32 a -> expF32UI a <> 0xFF \/ fracF32UI a = 0 -> 0 <= rm <= 4 ->
  exists z, f32_to_f64 a rm fl = Some (z, fl) /\ inu 64 z /\ signF64UI z = signF32UI a /\
    (finite32 a -> finite64 z /\ mag64 z = mag32 a * 2 ^ 925) /\
    f64_to_f32 z rm fl = Some (a, fl).
Proof.
  intros Ha Hn Hrm. destruct (Z.eq_dec (expF32UI a) 0xFF) as [X|X].
  - destruct Hn as [|Hf]; [done|]. destruct (fields32 a Ha) as (_ & _ & E). rewrite X, Hf in E.
    destruct (signF32UI a); cbn [b2z] in E; rewrite E;
      [exists 0xFFF0000000000000|exists 0x7FF0000000000000];
      (split_and!; [reflexivity|vm_decide|reflexivity|by intros []|reflexivity]).
  - destruct (f32_to_f64_spec a rm fl ltac:(done)) as (z & Ez & Fz & Sz & Mz). exists z.
    split_and!; [done|apply Fz|done|by intros _|].
    destruct (Z.eq_dec (mag32 a) 0) as [M0|M0].
    + assert (z = signed_zero F64 (signF32UI a)) as -> by (rewrite <- Sz; apply mag64_zero_word; [apply Fz|lia]).
      rewrite (mag32_zero_word a Ha M0) at 2. by destruct (signF32UI a).
    + rewrite f64_to_f32_spec by (done || rewrite Mz; nia). rewrite Sz, Mz, round_single_exact by (done || lia).
      cbn [fst snd]. by rewrite Z.lor_0_r.
Qed.

Lemma round_q_exact rm sign m d : 0 <= rm <= 4 -> 0 < d -> round_q rm sign (m * d) d = m.
Proof.
  intros Hrm Hd. unfold round_q. rewrite Z.div_mul, Z.mod_mul by lia.
  assert (round_up rm sign (Z.odd m) (2 * 0 ?= d) (nz 0) = false) as ->; [|cbn; lia].
  rewrite (proj2 (Z.compare_lt_iff _ _)) by lia. unfold round_up. by destruct (rm_cases rm Hrm) as [->|[->|[->|[->| ->]]]]; destruct sign.
Qed.

(** A 32-bit integer other than the most negative one converted to double and
    back, in any rounding mode, is unchanged and raises no flag. *)
Theorem int32_double_roundtrip a rm rm' fl :
  - 2 ^ 31 < a < 2 ^ 31 -> 0 <= rm' <= 4 ->
  exists z, i32_to_f64 a rm fl = Some (z, fl) /\ f64_to_i32 z rm' true rm fl = Some (a, fl).
Proof.
  intros Ha Hrm. destruct (i32_to_f64_spec a rm fl Ha) as (z & E & Fz & V). exists z. split; [done|].
  rewrite f64_to_i32_spec by done. unfold ref_to_int.
  assert (mag64 z = Z.abs a * 2 ^ 1074) as M.
  { pose proof (mag64_nonneg z (proj1 Fz)). unfold val64 in V. destruct (signF64UI z); nia. }
  rewrite M, round_q_exact, Z.mod_mul by lia.
  assert ((if signF64UI z then - Z.abs a else Z.abs a) = a) as Ea.
  { pose proof (mag64_nonneg z (proj1 Fz)). unfold val64 in V. pose proof (pow2_pos 1074 ltac:(lia)). destruct (signF64UI z); nia. }
  rewrite Ea, (proj2 (Z.ltb_ge _ _)), (proj2 (Z.ltb_ge _ _)) by lia. cbn. by rewrite Z.lor_0_r.
Qed.

(** ** Wide arithmetic *)

(** The 64x64 and 128x128 products built from 32-bit partial products are
    exact, 128-bit addition and subtraction are arithmetic modulo 2^128, and the
    sticky right shift of a 128-bit value is its quotient with the lost bits
    jammed into the lowest one. *)
Theorem wide_arithmetic_exact a64 a0 b64 b0 n :
  inu 64 a64 -> inu 64 a0 -> inu 64 b64 -> inu 64 b0 -> 0 < n ->
  let a := a64 * 2 ^ 64 + a0 in
  let b := b64 * 2 ^ 64 + b0 in
  val128 (softfloat_mul64To128 a0 b0) = a0 * b0 /\
  val256 (softfloat_mul128To256 a64 a0 b64 b0) = a * b /\
  val128 (softfloat_add128 a64 a0 b64 b0) = (a + b) mod 2 ^ 128 /\
  val128 (softfloat_sub128 a64 a0 b64 b0) = (a - b) mod 2 ^ 128 /\
  val128 (softfloat_shift128RightJam a64 a0 n) = Z.lor (a / 2 ^ n) (if a mod 2 ^ n =? 0 then 0 else 1) /\
  softfloat_lt128 a64 a0 b64 b0 = (a <? b) /\ softfloat_le128 a64 a0 b64 b0 = (a <=? b).
Proof.
  intros Ha Ha0 Hb Hb0 Hn. cbv zeta.
  split_and!; [by apply mul64To128_val|by apply mul128To256_val|by apply add128_val|by apply sub128_val| |by apply lt128_val|by apply le128_val].
  rewrite shift128RightJam_jam by done. unfold jam, nz. by destruct (_ =? 0).
Qed.

(** The quotient estimate of a 128-bit by a normalised 64-bit value
    terminates and is the true quotient or at most two too large. *)
Theorem estimateDiv128To64_within_2 a64 a0 b :
  2 ^ 63 <= b < 2 ^ 64 -> 0 <= a64 < b -> inu 64 a0 ->
  exists z, softfloat_estimateDiv128To64 a64 a0 b = Some z /\ inu 64 z /\
    (a64 * 2 ^ 64 + a0) / b <= z <= (a64 * 2 ^ 64 + a0) / b + 2.
Proof. apply estimateDiv128To64_bound. Qed.

(** ** Concrete runs *)

Lemma comparisons_correct_witness :
  f32_lt 0x80000000 0x00000000 0 0 = Some (false, 0) /\ f64_le 0x7FF8000000000000 0 0 0 = Some (false, 16).
Proof.
  split.
  - destruct (proj1 (comparisons_correct 0x80000000 0 0 0)) as (_ & H & _); [vm_decide|vm_decide|exact H].
  - destruct (proj2 (comparisons_correct 0x7FF8000000000000 0 0 0)) as (_ & _ & H & _); [vm_decide|vm_decide|exact H].
Defined.

Lemma float_to_integer_witness :
  f32_to_i32 0xBFC00000 2 true 0 0 = Some (-2, 1) /\ f64_to_ui64 0xBFF0000000000000 0 true 0 0 = Some (2 ^ 64 - 1, 16).
Proof.
  split.
  - destruct (float_to_integer 0xBFC00000 2 true 0 0 ltac:(lia)) as [H _].
    destruct H as (H & _); [apply finite32_by; [vm_decide|reflexivity]|vm_cast_no_check H].
  - destruct (float_to_integer 0xBFF0000000000000 0 true 0 0 ltac:(lia)) as [_ H].
    destruct H as (_ & _ & _ & H); [apply finite64_by; [vm_decide|reflexivity]|vm_cast_no_check H].
Defined.

Lemma integer_to_float_witness : i64_to_f64 (- (2 ^ 53 + 1)) 2 0 = Some (0xC340000000000001, 1).
Proof. destruct (integer_to_float (- (2 ^ 53 + 1)) 2 0) as (_ & _ & _ & _ & _ & _ & H & _); [lia|]. vm_cast_no_check (H ltac:(lia)). Defined.

Lemma widen_narrow_roundtrip_witness :
  exists z, f32_to_f64 0x00000001 0 0 = Some (z, 0) /\ f64_to_f32 z 0 0 = Some (0x00000001, 0).
Proof.
  destruct (widen_narrow_roundtrip 1 0 0) as (z & E & _ & _ & _ & F); [vm_decide|left; vm_decide|lia|]. exists z. split; [exact E|exact F].
Defined.

Lemma int32_double_roundtrip_witness :
  exists z, i32_to_f64 (1 - 2 ^ 31) 0 0 = Some (z, 0) /\ f64_to_i32 z 4 true 0 0 = Some (1 - 2 ^ 31, 0).
Proof. apply (int32_double_roundtrip (1 - 2 ^ 31) 0 4 0); lia. Defined.

Lemma wide_arithmetic_exact_witness : val256 (softfloat_mul128To256 1 2 3 4) = (2 ^ 64 + 2) * (3 * 2 ^ 64 + 4).
Proof.
  destruct (wide_arithmetic_exact 1 2 3 4 1) as (_ & H & _); [vm_decide..|lia|exact H].
Defined.

Lemma estimateDiv128To64_within_2_witness :
  exists z, softfloat_estimateDiv128To64 1 0 (2 ^ 63) = Some z /\ 2 <= z <= 4.
Proof.
  destruct (estimateDiv128To64_within_2 1 0 (2 ^ 63)) as (z & E & _ & B); [lia|lia|vm_decide|]. exists z. split; [exact E|exact B].
Defined.
