(* ===== verification/Machine.v ===== *)
(** * The hart as the machine-mode handlers see it

    The trap frame, the floating-point registers, the control registers and the
    memory of the interrupted privilege level, with the access macros of
    [bbl/mtrap.h]: operand access ([GET_REG], [IMM_I], ...), unprivileged memory
    access ([unpriv_mem_access], with the nested trap it relies on),
    [restore_mstatus] and [get_insn].  The build is RV64 with hard floating point
    and without compressed instructions. *)

From Stdlib Require Import ZArith Lia Bool List String.
From stdpp Require Import base gmap list.
From S2P Require Import Prelude.
Open Scope Z_scope.
Open Scope word_scope.

(** ** Constants of [bbl/encoding.h] *)
Definition MSTATUS_PRV : Z := 0x6.
Definition MSTATUS_IE1 : Z := 0x8.
Definition MSTATUS_PRV1 : Z := 0x30.
Definition MSTATUS_IE2 : Z := 0x40.
Definition MSTATUS_PRV2 : Z := 0x180.
Definition MSTATUS_IE3 : Z := 0x200.
Definition MSTATUS_PRV3 : Z := 0xC00.
Definition MSTATUS_FS : Z := 0x3000.
Definition MSTATUS_MPRV : Z := 0x10000.
Definition CAUSE_MISALIGNED_LOAD : Z := 4.
Definition CAUSE_FAULT_LOAD : Z := 5.
Definition CAUSE_MISALIGNED_STORE : Z := 6.
Definition CAUSE_FAULT_STORE : Z := 7.

(** ** State *)

(** [regs] is the frame the entry code saves (32 slots, slot 0 zeroed),
    [fregs] the floating-point register file, [umem] the bytes the interrupted
    privilege level can access (an absent address page-faults), [tp] the register
    that carries the static rounding mode to SoftFloat. *)
Record mach := Mach {
  regs : list Z;
  fregs : list Z;
  mstatus : Z;
  mepc : Z;
  mcause : Z;
  frm : Z;
  fflags : Z;
  tp : Z;
  umem : gmap Z Z;
}.

Definition set_regs v m := Mach v (fregs m) (mstatus m) (mepc m) (mcause m) (frm m) (fflags m) (tp m) (umem m).
Definition set_fregs v m := Mach (regs m) v (mstatus m) (mepc m) (mcause m) (frm m) (fflags m) (tp m) (umem m).
Definition set_mstatus v m := Mach (regs m) (fregs m) v (mepc m) (mcause m) (frm m) (fflags m) (tp m) (umem m).
Definition set_mepc v m := Mach (regs m) (fregs m) (mstatus m) v (mcause m) (frm m) (fflags m) (tp m) (umem m).
Definition set_mcause v m := Mach (regs m) (fregs m) (mstatus m) (mepc m) v (frm m) (fflags m) (tp m) (umem m).
Definition set_frm v m := Mach (regs m) (fregs m) (mstatus m) (mepc m) (mcause m) v (fflags m) (tp m) (umem m).
Definition set_fflags v m := Mach (regs m) (fregs m) (mstatus m) (mepc m) (mcause m) (frm m) v (tp m) (umem m).
Definition set_tp v m := Mach (regs m) (fregs m) (mstatus m) (mepc m) (mcause m) (frm m) (fflags m) v (umem m).
Definition set_umem v m := Mach (regs m) (fregs m) (mstatus m) (mepc m) (mcause m) (frm m) (fflags m) (tp m) v.

(** Well-formed machine-mode state: the frame and the register file have their
    32 slots, slot 0 holds zero, and [mstatus] is what Rocket can hold while a
    handler runs (privilege M, no third privilege-stack level, [MPRV] off). *)
Record mach_ok (m : mach) : Prop := {
  ok_regs : length (regs m) = 32%nat;
  ok_x0 : regs m !! 0%nat = Some 0;
  ok_regs64 : Forall (inu 64) (regs m);
  ok_fregs : length (fregs m) = 32%nat;
  ok_mstatus : inu 64 (mstatus m);
  ok_prv : (mstatus m &&& MSTATUS_PRV) = MSTATUS_PRV;
  ok_prv3 : (mstatus m &&& (MSTATUS_PRV3 ||| MSTATUS_IE3)) = 0;
  ok_mprv : (mstatus m &&& MSTATUS_MPRV) = 0;
  ok_mepc : inu 64 (mepc m);
}.

(** ** Operand access *)

Abbreviation uintptr_minus1 := (2 ^ 64 - 1).

(** [GET_REG]: byte offset [(insn >> (pos - 3)) & 0xf8] into the frame of 8-byte
    slots. *)
Definition GET_REG (insn pos : Z) : nat :=
  Z.to_nat (((insn >>> (pos - 3)) &&& ((1 <<< 8) - (1 <<< 3))) / 8).

Definition GET_RS1 (insn : Z) (m : mach) : Z := regs m !!! GET_REG insn 15.
Definition GET_RS2 (insn : Z) (m : mach) : Z := regs m !!! GET_REG insn 20.
Definition SET_RD (insn val : Z) : ST mach unit :=
  modify (fun m => set_regs (<[GET_REG insn 7 := u64 val]> (regs m)) m).

Definition IMM_I (insn : Z) : Z := s32 insn >>> 20.
Definition IMM_S (insn : Z) : Z :=
  ((s32 insn >>> 25) <<< 5) ||| ((insn >>> 7) &&& 0x1f).
Definition MASK_FUNCT3 : Z := 0x7000.
Definition GET_PRECISION (insn : Z) : Z := (insn >>> 25) &&& 3.
Definition GET_RM (insn : Z) : Z := (insn >>> 12) &&& 7.
Definition PRECISION_S : Z := 0.
Definition PRECISION_D : Z := 1.

(** The floating-point registers are only accessible with [mstatus.FS] nonzero: in
    machine mode an access with the FPU off is an illegal instruction, which
    [machine_illegal_instruction] answers with [bad_trap].  The handlers that test
    [FS] before they read a register do so with the plain reads below. *)
Definition fp_access : ST mach unit := fun m =>
  if (mstatus m &&& MSTATUS_FS) =? 0 then Panic "machine mode: unhandlable trap" m else Ret tt m.

Definition SET_FS_DIRTY : ST mach unit :=
  modify (fun m => set_mstatus (mstatus m ||| MSTATUS_FS) m).

Section FPRegs.
(** The upper half the FPU leaves in a register that [fmv.s.x] wrote. *)
Variable fp_hi : Z -> Z.

Definition FREG (insn pos : Z) : nat := Z.to_nat (((insn >>> (pos - 3)) &&& 0xf8) / 8).
Definition GET_F32_REG (insn pos : Z) (m : mach) : Z := s32 (fregs m !!! FREG insn pos).
Definition GET_F64_REG (insn pos : Z) (m : mach) : Z := s64 (fregs m !!! FREG insn pos).
Definition SET_F32_REG (insn pos val : Z) : ST mach unit :=
  fp_access ;; modify (fun m => set_fregs (<[FREG insn pos := u32 (fp_hi (u32 val)) * 2 ^ 32 + u32 val]> (fregs m)) m).
Definition SET_F64_REG (insn pos val : Z) : ST mach unit :=
  fp_access ;; modify (fun m => set_fregs (<[FREG insn pos := u64 val]> (fregs m)) m).
Definition SET_F32_RD (insn val : Z) : ST mach unit := SET_F32_REG insn 7 val ;; SET_FS_DIRTY.
Definition SET_F64_RD (insn val : Z) : ST mach unit := SET_F64_REG insn 7 val ;; SET_FS_DIRTY.
End FPRegs.

(** The result of running a handler: the frame's [a0] tells the exit code whether
    to return or to redirect the trap. *)
Definition advance (pc : Z) : ST mach Z :=
  modify (set_mepc (u64 (pc + 4))) ;; ret 0.

(** ** Memory of the interrupted privilege level *)

Inductive ures (A : Type) : Type := UOk (a : A) | UFault (cause : Z).
Arguments UOk {A} a.
Arguments UFault {A} cause.

(** An assembly fragment run with [MPRV] set: it reads and writes [umem]; stores
    done before a fault stay done. *)
Definition ucode (A : Type) : Type := gmap Z Z -> gmap Z Z * ures A.

Definition uret {A} (a : A) : ucode A := fun m => (m, UOk a).
Definition ubind {A B} (c : ucode A) (k : A -> ucode B) : ucode B := fun m =>
  match c m with
  | (m', UOk a) => k a m'
  | (m', UFault cause) => (m', UFault cause)
  end.

(** The [n] bytes at [a], if all are mapped. *)
Fixpoint read_bytes (mem : gmap Z Z) (a : Z) (n : nat) : option (list Z) :=
  match n with
  | O => Some []
  | S n' =>
      match mem !! u64 a, read_bytes mem (a + 1) n' with
      | Some b, Some bs => Some (b :: bs)
      | _, _ => None
      end
  end.

Fixpoint write_bytes (mem : gmap Z Z) (a : Z) (bs : list Z) : gmap Z Z :=
  match bs with
  | [] => mem
  | b :: bs' => write_bytes (<[u64 a := b]> mem) (a + 1) bs'
  end.

(** Aligned load of [n] bytes, zero-extended. *)
Definition uload (n : nat) (a : Z) : ucode Z := fun mem =>
  if negb (a mod Z.of_nat n =? 0) then (mem, UFault CAUSE_MISALIGNED_LOAD)
  else match read_bytes mem a n with
       | Some bs => (mem, UOk (le_combine bs))
       | None => (mem, UFault CAUSE_FAULT_LOAD)
       end.

(** Aligned store of the [n] low bytes of [v]. *)
Definition ustore (n : nat) (a v : Z) : ucode unit := fun mem =>
  if negb (a mod Z.of_nat n =? 0) then (mem, UFault CAUSE_MISALIGNED_STORE)
  else match read_bytes mem a n with
       | Some _ => (write_bytes mem a (le_split n v), UOk tt)
       | None => (mem, UFault CAUSE_FAULT_STORE)
       end.

(** [lb], [lh], [lw], [ld] and their unsigned forms, on the 64-bit register. *)
Definition lb (a : Z) : ucode Z := ubind (uload 1 a) (fun v => uret (u64 (s8 v))).
Definition lbu (a : Z) : ucode Z := uload 1 a.
Definition lw (a : Z) : ucode Z := ubind (uload 4 a) (fun v => uret (u64 (s32 v))).
Definition lwu (a : Z) : ucode Z := uload 4 a.
Definition ld (a : Z) : ucode Z := uload 8 a.
Definition sb (v a : Z) : ucode unit := ustore 1 (u64 a) v.

(** ** The nested trap of an unprivileged access *)

(** Rocket's update of [mstatus] when a trap is taken: the privilege stack is
    pushed, [MPRV] is cleared and the new level is M with interrupts off. *)
Definition hw_trap (ms : Z) : Z :=
  (bitand_not 64 ms (0x1ff ||| MSTATUS_MPRV)) ||| 0x6 ||| ((ms &&& 0x3f) <<< 3).

(** Rocket's update on [eret]: the stack is popped, the bottom becomes U with
    interrupts on. *)
Definition hw_eret (ms : Z) : Z :=
  (bitand_not 64 ms 0x1ff) ||| ((ms >>> 3) &&& 0x3f) ||| 0x40.

(** The scan of [unprivileged_access_ranges] in [machine_page_fault]. *)
Fixpoint find_range (ranges : list (Z * Z)) (pc : Z) : option Z :=
  match ranges with
  | [] => None
  | (p0, p1) :: rest => if (p0 <=? pc) && (pc <? p1) then Some p1 else find_range rest pc
  end.

(** [machine_page_fault]: inside an unprivileged access, clear [t0] in the frame
    and resume after the access; otherwise [bad_trap]. *)
Definition machine_page_fault (ranges : list (Z * Z)) (pc : Z) : ST mach Z :=
  match find_range ranges pc with
  | Some p1 =>
      modify (fun m => set_regs (<[5%nat := 0]> (regs m)) m) ;;
      modify (set_mepc p1) ;;
      ret 0
  | None => panic "machine mode: unhandlable trap"
  end.

Section Unpriv.
(** The [.unpriv] table of the image, and labels [98] and [99] of an access. *)
Variable ranges : list (Z * Z).
Variable site : Z * Z.

(** A fault inside the access: trap, [trap_from_machine_mode], [eret].  The frame
    of the nested trap is the interrupted register file, in which [t0] is slot 5;
    the value the access sees in [t0] afterwards is returned. *)
Definition nested_fault (cause t0 : Z) : ST mach Z := fun m =>
  let saved := regs m in
  let m1 := set_mcause cause (set_mepc (fst site) (set_mstatus (hw_trap (mstatus m)) m)) in
  let m2 := set_regs (<[5%nat := t0]> saved) m1 in
  (if (cause =? CAUSE_FAULT_LOAD) || (cause =? CAUSE_FAULT_STORE)
   then let! _ := machine_page_fault ranges (fst site) in
        let! t0' := gets (fun m => regs m !!! 5%nat) in
        modify (fun m => set_regs saved (set_mstatus (hw_eret (mstatus m)) m)) ;;
        ret t0'
   else panic "machine mode: unhandlable trap") m2.

(** [unpriv_mem_access]: [None] is the error result. *)
Definition unpriv_mem_access {A} (code : ucode A) : ST mach (option A) :=
  let! result := gets mstatus in
  modify (fun m => set_mstatus (mstatus m ||| MSTATUS_MPRV) m) ;;
  let! r := (fun m => let (mem', r) := code (umem m) in Ret r (set_umem mem' m)) in
  match r with
  | UOk a =>
      modify (fun m => set_mstatus (bitand_not 64 (mstatus m) MSTATUS_MPRV) m) ;;
      ret (if result =? 0 then None else Some a)
  | UFault cause =>
      let! t0 := nested_fault cause result in
      modify (fun m => set_mstatus (bitand_not 64 (mstatus m) MSTATUS_MPRV) m) ;;
      (* the outputs are never written on this path; only a zero [t0] is handled *)
      (if t0 =? 0 then ret None else undef)
  end.

Definition restore_mask : Z :=
  MSTATUS_PRV1 ||| MSTATUS_IE1 ||| MSTATUS_PRV2 ||| MSTATUS_IE2 ||| MSTATUS_PRV3 ||| MSTATUS_IE3.

Definition restore_mstatus (ms pc : Z) : ST mach unit :=
  modify (fun m => set_mstatus (bitand_not 64 (mstatus m) restore_mask) m) ;;
  modify (set_mepc pc) ;;
  modify (fun m => set_mstatus (mstatus m ||| (restore_mask &&& ms)) m).

(** [get_insn]: fetch the trapping instruction; on error the trap state is put
    back. *)
Definition get_insn (cause ms pc : Z) : ST mach (option Z) :=
  let! r := unpriv_mem_access (lw pc) in
  match r with
  | Some insn => ret (Some (u32 insn))
  | None =>
      restore_mstatus ms pc ;;
      modify (set_mcause cause) ;;
      ret None
  end.
End Unpriv.

(** ** Lemmas *)

Ltac mach_simpl :=
  cbn [regs fregs mstatus mepc mcause frm fflags tp umem set_regs set_fregs set_mstatus set_mepc
       set_mcause set_frm set_fflags set_tp set_umem].

(** Prove an equation of control words: the constant masks concern the low 17
    bits, which are checked one by one. *)
Ltac csr_bits :=
  apply Z.bits_inj'; intros ?i ?Hi; autorewrite with testbit;
  destruct (below_cases 17 i ltac:(lia)) as [?C|?C]; simpl in C;
  [ repeat destruct C as [<-|C]; try contradiction; simpl
  | repeat match goal with
      | |- context [Z.testbit (Z.pos ?p) ?j] =>
          let w := eval vm_compute in (Z.succ (Z.log2 (Z.pos p))) in
          rewrite (testbit_inu w (Z.pos p) j) by (unfold inu; lia)
      end ].

Lemma set_clear_mprv ms :
  inu 64 ms -> (ms &&& MSTATUS_MPRV) = 0 ->
  bitand_not 64 (ms ||| MSTATUS_MPRV) MSTATUS_MPRV = ms.
Proof.
  intros H64 Hm. pose proof (testbit_masked_zero _ _ 16 Hm eq_refl) as B16.
  unfold MSTATUS_MPRV in *. csr_bits; rewrite ?andb_true_r, ?andb_false_r, ?orb_false_r; auto.
  repeat split_ltb; kill_bits; by rewrite ?andb_true_r, ?orb_false_r.
Qed.

(** What a nested trap loses of [mstatus], [restore_mstatus] puts back. *)
Lemma restore_after_nested ms :
  inu 64 ms -> (ms &&& (MSTATUS_PRV3 ||| MSTATUS_IE3)) = 0 -> (ms &&& MSTATUS_MPRV) = 0 ->
  bitand_not 64 (bitand_not 64 (hw_eret (hw_trap (ms ||| MSTATUS_MPRV))) MSTATUS_MPRV) restore_mask
    ||| (restore_mask &&& ms) = ms.
Proof.
  intros H64 H3 Hm.
  pose proof (testbit_masked_zero _ _ 16 Hm eq_refl) as B16.
  pose proof (testbit_masked_zero _ _ 9 H3 eq_refl) as B9.
  pose proof (testbit_masked_zero _ _ 10 H3 eq_refl) as B10.
  pose proof (testbit_masked_zero _ _ 11 H3 eq_refl) as B11.
  unfold hw_eret, hw_trap, restore_mask, MSTATUS_PRV1, MSTATUS_IE1, MSTATUS_PRV2, MSTATUS_IE2,
    MSTATUS_PRV3, MSTATUS_IE3, MSTATUS_MPRV in *.
  csr_bits; rewrite ?B16, ?B9, ?B10, ?B11, ?andb_true_r, ?andb_false_r, ?orb_false_r, ?orb_true_r; auto.
  all: repeat split_ltb; kill_bits; rewrite ?andb_true_r, ?andb_false_r, ?orb_false_r; auto.
Qed.

Section UnprivLemmas.
Variable ranges : list (Z * Z).
Variable site : Z * Z.
(** The access site is in the image's table of unprivileged accesses. *)
Hypothesis site_listed : find_range ranges (fst site) = Some (snd site).

Lemma unpriv_ok {A} (code : ucode A) m mem' a :
  mach_ok m -> code (umem m) = (mem', UOk a) ->
  unpriv_mem_access ranges site code m = Ret (Some a) (set_umem mem' m).
Proof.
  intros Hok E. unfold unpriv_mem_access. st_simpl. cbn [umem set_mstatus]. rewrite E.
  assert ((mstatus m =? 0) = false) as ->.
  { apply Z.eqb_neq. intros E0. pose proof (ok_prv m Hok) as P. by rewrite E0 in P. }
  unfold set_mstatus, set_umem. simpl.
  rewrite set_clear_mprv by apply Hok. by destruct m.
Qed.

(** A page fault in the access costs nothing once [restore_mstatus] has run:
    only [mcause] (the cause to report) and the bytes stored before the fault
    differ. *)
Lemma unpriv_fault {A} (code : ucode A) m mem' cause :
  mach_ok m -> code (umem m) = (mem', UFault cause) ->
  cause = CAUSE_FAULT_LOAD \/ cause = CAUSE_FAULT_STORE ->
  exists m1, unpriv_mem_access ranges site code m = Ret None m1 /\
    restore_mstatus (mstatus m) (mepc m) m1 = Ret tt (set_mcause cause (set_umem mem' m)).
Proof.
  intros Hok E Hc. unfold unpriv_mem_access, nested_fault, machine_page_fault, restore_mstatus.
  st_simpl. cbn [umem set_mstatus]. rewrite E.
  replace ((cause =? CAUSE_FAULT_LOAD) || (cause =? CAUSE_FAULT_STORE)) with true
    by (destruct Hc as [-> | ->]; done).
  rewrite site_listed. cbn [set_regs set_mepc set_mstatus set_mcause set_umem regs].
  rewrite list_insert_insert_eq.
  rewrite list_lookup_total_insert_eq by (rewrite (ok_regs m Hok); lia).
  eexists. split; [reflexivity|]. mach_simpl.
  rewrite restore_after_nested by apply Hok. by destruct m.
Qed.

Lemma get_insn_ok cause m insn :
  mach_ok m -> mepc m mod 4 = 0 ->
  read_bytes (umem m) (mepc m) 4 = Some (le_split 4 insn) ->
  get_insn ranges site cause (mstatus m) (mepc m) m = Ret (Some (u32 insn)) m.
Proof.
  intros Hok Ha Hr. unfold get_insn, bind at 1.
  erewrite unpriv_ok; [|done|]; cycle 1.
  { unfold lw, ubind, uload. change (Z.of_nat 4) with 4. rewrite Ha, Hr. reflexivity. }
  unfold ret. rewrite le_combine_split. change (8 * Z.of_nat 4) with 32.
  rewrite wraps_wrapu, wrapu_wrapu, wrapu_wraps by lia. by destruct m.
Qed.

Lemma get_insn_fault cause m :
  mach_ok m -> mepc m mod 4 = 0 -> mcause m = cause ->
  read_bytes (umem m) (mepc m) 4 = None ->
  get_insn ranges site cause (mstatus m) (mepc m) m = Ret None m.
Proof.
  intros Hok Ha Hc Hr. unfold get_insn.
  destruct (unpriv_fault (lw (mepc m)) m (umem m) CAUSE_FAULT_LOAD) as (m1 & E1 & E2); auto.
  { unfold lw, ubind, uload. change (Z.of_nat 4) with 4. rewrite Ha, Hr. reflexivity. }
  unfold bind at 1. rewrite E1. unfold bind at 1. rewrite E2. subst cause. by destruct m.
Qed.
End UnprivLemmas.

(** ** Register fields *)

Lemma GET_REG_index insn pos :
  3 <= pos -> 0 <= insn -> GET_REG insn pos = Z.to_nat ((insn >>> pos) &&& 31).
Proof.
  intros. unfold GET_REG. change ((1 <<< 8) - (1 <<< 3)) with (31 <<< 3).
  replace (insn >>> (pos - 3) &&& (31 <<< 3)) with ((insn >>> pos &&& 31) <<< 3).
  - rewrite Z.shiftl_mul_pow2, Z.div_mul by lia. done.
  - apply Z.bits_inj'. intros i Hi. autorewrite with testbit.
    destruct (Z.lt_ge_cases i 3); kill_bits; [by rewrite !andb_false_r|].
    autorewrite with testbit. do 2 f_equal; lia.
Qed.

Lemma GET_REG_lt insn pos : 3 <= pos -> 0 <= insn -> (GET_REG insn pos < 32)%nat.
Proof.
  intros. rewrite GET_REG_index by done.
  pose proof (land_range 5 (insn >>> pos) 31) as R. unfold inu in R. lia.
Qed.

Lemma GET_RS1_range insn m : mach_ok m -> 0 <= insn -> inu 64 (GET_RS1 insn m).
Proof.
  intros Hok Hi. unfold GET_RS1. apply (Forall_lookup_total_1 (inu 64)); [apply Hok|].
  rewrite (ok_regs m Hok). apply GET_REG_lt; lia.
Qed.

Lemma fp_access_on m : (mstatus m &&& MSTATUS_FS) <> 0 -> fp_access m = Ret tt m.
Proof. intros H. unfold fp_access. by rewrite (proj2 (Z.eqb_neq _ _) H). Qed.

(** ** Byte access *)

Lemma read_bytes_app mem a n1 n2 bs :
  read_bytes mem a (n1 + n2) = Some bs ->
  read_bytes mem a n1 = Some (take n1 bs) /\
  read_bytes mem (a + Z.of_nat n1) n2 = Some (drop n1 bs).
Proof.
  revert a bs. induction n1 as [|n1 IH]; intros a bs H.
  { rewrite Z.add_0_r. by rewrite take_0, drop_0. }
  cbn [Nat.add read_bytes] in *.
  destruct (mem !! u64 a); [|done].
  destruct (read_bytes mem (a + 1) (n1 + n2)) as [bs'|] eqn:E; [|done].
  injection H as <-. destruct (IH (a + 1) bs' E) as [E1 E2]. rewrite E1. split; [done|].
  cbn [drop]. rewrite <- E2. f_equal. lia.
Qed.

Lemma read_bytes_length mem a n bs : read_bytes mem a n = Some bs -> length bs = n.
Proof.
  revert a bs. induction n as [|n IH]; intros a bs H; cbn [read_bytes] in H; [by injection H as <-|].
  destruct (mem !! u64 a); [|done]. destruct (read_bytes mem (a + 1) n) eqn:E; [|done].
  injection H as <-. cbn. f_equal. eauto.
Qed.

Lemma read_bytes_u64 mem a n : read_bytes mem (u64 a) n = read_bytes mem a n.
Proof.
  revert a. induction n as [|n IH]; intros a; [done|]. cbn [read_bytes].
  rewrite wrapu_idem by lia.
  rewrite <- (IH (u64 a + 1)), <- (IH (a + 1)), wrapu_add_l by lia. done.
Qed.

(** All bytes of the memory are bytes. *)
Definition bytes_ok (mem : gmap Z Z) : Prop := map_Forall (fun _ b => inu 8 b) mem.

Lemma read_bytes_ok mem a n bs :
  bytes_ok mem -> read_bytes mem a n = Some bs -> Forall (inu 8) bs.
Proof.
  intros Hm. revert a bs. induction n as [|n IH]; intros a bs H; cbn [read_bytes] in H.
  { injection H as <-. constructor. }
  destruct (mem !! u64 a) eqn:Ea; [|done]. destruct (read_bytes mem (a + 1) n) eqn:E; [|done].
  injection H as <-. constructor; eauto.
Qed.

(** Reading at [a + k] a window of what was read at [a]. *)
Lemma read_bytes_window mem a k n rest bs :
  read_bytes mem a (k + (n + rest)) = Some bs ->
  read_bytes mem (a + Z.of_nat k) n = Some (take n (drop k bs)).
Proof.
  intros H. apply read_bytes_app in H as [_ H]. by apply read_bytes_app in H as [H _].
Qed.

Lemma read_bytes_join mem a n1 n2 l1 l2 :
  read_bytes mem a n1 = Some l1 -> read_bytes mem (a + Z.of_nat n1) n2 = Some l2 ->
  read_bytes mem a (n1 + n2) = Some (l1 ++ l2).
Proof.
  revert a l1. induction n1 as [|n1 IH]; intros a l1 H1 H2; cbn [Nat.add read_bytes] in *.
  { injection H1 as <-. by rewrite Z.add_0_r in H2. }
  destruct (mem !! u64 a); [|done]. destruct (read_bytes mem (a + 1) n1) as [l|] eqn:E; [|done].
  injection H1 as <-. rewrite (IH (a + 1) l E); [done|]. rewrite <- H2. f_equal. lia.
Qed.

Lemma read_bytes_some_insert mem a n k b bs :
  read_bytes mem a n = Some bs -> exists bs', read_bytes (<[k := b]> mem) a n = Some bs'.
Proof.
  revert a bs. induction n as [|n IH]; intros a bs H; cbn [read_bytes] in *; [by exists []|].
  destruct (mem !! u64 a) as [x|] eqn:Ea; [|done].
  destruct (read_bytes mem (a + 1) n) as [l|] eqn:E; [|done].
  destruct (IH _ _ E) as [l' ->].
  destruct (decide (k = u64 a)) as [->|]; simplify_map_eq; eauto.
Qed.

Lemma write_bytes_other bs mem a k :
  (forall i, (i < length bs)%nat -> k <> u64 (a + Z.of_nat i)) ->
  write_bytes mem a bs !! k = mem !! k.
Proof.
  revert mem a. induction bs as [|b bs IH]; intros mem a H; [done|]. cbn [write_bytes].
  rewrite IH.
  - apply lookup_insert_ne. pose proof (H 0%nat) as H0. rewrite Z.add_0_r in H0.
    symmetry. apply H0. simpl. lia.
  - intros i Hi. specialize (H (S i)). simpl in H.
    replace (a + 1 + Z.of_nat i) with (a + Z.of_nat (S i)) by lia. apply H. lia.
Qed.

(** Bytes just written are read back. *)
Lemma read_write_bytes bs mem a :
  Z.of_nat (length bs) <= 2 ^ 64 -> read_bytes (write_bytes mem a bs) a (length bs) = Some bs.
Proof.
  revert mem a. induction bs as [|b bs IH]; intros mem a H; [done|].
  cbn [length read_bytes write_bytes] in *. rewrite IH by lia.
  rewrite write_bytes_other; [by rewrite lookup_insert_eq|].
  intros i Hi E. unfold wrapu in E. Z.div_mod_to_equations. lia.
Qed.
