(* ===== verification/Emulation.v ===== *)
(** * Emulation of integer, load/store and CSR instructions

    [bbl/emulation.c]: misaligned loads and stores, floating-point loads and
    stores, multiplication and division, and the floating-point CSRs.  The
    floating-point computations are in [EmulationFP]. *)

From Stdlib Require Import ZArith Lia Bool List String.
From stdpp Require Import base gmap list.
From S2P Require Import Prelude.
From S2P Require Import Machine.
Open Scope Z_scope.
Open Scope word_scope.

(** ** Instruction encodings of [bbl/encoding.h] *)
Definition MATCH_LW : Z := 0x2003.
Definition MATCH_LD : Z := 0x3003.
Definition MATCH_LWU : Z := 0x6003.
Definition MATCH_LH : Z := 0x1003.
Definition MATCH_LHU : Z := 0x5003.
Definition MATCH_FLD : Z := 0x3007.
Definition MATCH_FLW : Z := 0x2007.
Definition MATCH_SW : Z := 0x2023.
Definition MATCH_SD : Z := 0x3023.
Definition MATCH_SH : Z := 0x1023.
Definition MATCH_FSD : Z := 0x3027.
Definition MATCH_FSW : Z := 0x2027.
(** All loads and stores are matched on opcode and [funct3]. *)
Definition MASK_LS : Z := 0x707f.
Definition MATCH_MUL : Z := 0x2000033.
Definition MATCH_MULH : Z := 0x2001033.
Definition MATCH_MULHSU : Z := 0x2002033.
Definition MATCH_MULHU : Z := 0x2003033.
Definition MATCH_DIV : Z := 0x2004033.
Definition MATCH_DIVU : Z := 0x2005033.
Definition MATCH_REM : Z := 0x2006033.
Definition MATCH_REMU : Z := 0x2007033.
Definition MATCH_MULW : Z := 0x200003b.
Definition MASK_MUL : Z := 0xfe00707f.
Definition CSR_FFLAGS : Z := 1.
Definition CSR_FRM : Z := 2.
Definition CSR_FCSR : Z := 3.

Definition is_insn (insn mask mtch : Z) : bool := (insn &&& mask) =? mtch.

(** [truly_illegal_insn] *)
Definition truly_illegal_insn : ST mach Z := ret uintptr_minus1.

Section Emulation.
(** The table of unprivileged accesses, the labels of the access, and the upper
    half of single-precision registers. *)
Variable ranges : list (Z * Z).
Variable site : Z * Z.
Variable fp_hi : Z -> Z.

Abbreviation unpriv := (unpriv_mem_access ranges site).

(** ** Misaligned loads *)

(** [DO_LOAD]: two aligned loads of [sz] bytes combined by shifts.  The shift
    amounts are [addr * 8] and [(sz - addr) * 8] with the whole address in them:
    [masked_addr] reduces it only for types narrower than an [int].  ISO C leaves
    such over-wide shifts undefined; the macro is written for the target, whose
    [srl]/[sll] and [srlw]/[sllw] take the amount modulo the operand width, and
    that reading is modelled.  [load] is the pair of instructions and [sgn] says
    whether [type_hi] is signed. *)
Definition DO_LOAD (sz : Z) (sgn : bool) (load : Z -> ucode Z) (addr : Z) : ST mach (option Z) :=
  let addr_lo := addr &&& (2 ^ 64 - sz) in
  let addr_hi := u64 (addr_lo + sz) in
  let! res := unpriv (ubind (load addr_lo) (fun lo => ubind (load addr_hi) (fun hi => uret (lo, hi)))) in
  match res with
  | None => ret None
  | Some (lo, hi) =>
      let bits := 8 * sz in
      let val_lo := wrapu bits lo >>> (u64 (addr * 8) mod bits) in
      let val_hi := wrapu bits (wrapu bits hi <<< (u64 ((sz - addr) * 8) mod bits)) in
      let v := val_lo ||| val_hi in
      ret (Some (if sgn then u64 (wraps bits v) else v))
  end.

(** [misaligned_load_trap], after the fetch. *)
Definition misaligned_load (ms pc insn : Z) : ST mach Z :=
  let! base := gets (GET_RS1 insn) in
  let addr := u64 (base + IMM_I insn) in
  let finish (res : option Z) (write : Z -> ST mach unit) : ST mach Z :=
    match res with
    | Some v => write v ;; advance pc
    | None => restore_mstatus ms pc ;; ret uintptr_minus1
    end in
  if is_insn insn MASK_LS MATCH_LW then
    let! res := DO_LOAD 4 true lw addr in finish res (SET_RD insn)
  else if is_insn insn MASK_LS MATCH_LD then
    let! res := DO_LOAD 8 false ld addr in finish res (SET_RD insn)
  else if is_insn insn MASK_LS MATCH_LWU then
    let! res := DO_LOAD 4 false lwu addr in finish res (SET_RD insn)
  else if is_insn insn MASK_LS MATCH_FLD then
    let! res := DO_LOAD 8 false ld addr in finish res (SET_F64_RD insn)
  else if is_insn insn MASK_LS MATCH_FLW then
    let! res := DO_LOAD 4 false lw addr in finish res (SET_F32_RD fp_hi insn)
  else if is_insn insn MASK_LS MATCH_LH then
    let! res := unpriv (ubind (lbu addr) (fun val => ubind (lb (u64 (addr + 1))) (fun tmp => uret (val, tmp)))) in
    finish (option_map (fun '(val, tmp) => val ||| u64 (tmp <<< 8)) res) (SET_RD insn)
  else if is_insn insn MASK_LS MATCH_LHU then
    let! res := unpriv (ubind (lbu addr) (fun val => ubind (lbu (u64 (addr + 1))) (fun tmp => uret (val, tmp)))) in
    finish (option_map (fun '(val, tmp) => val ||| u64 (tmp <<< 8)) res) (SET_RD insn)
  else ret uintptr_minus1.

Definition misaligned_load_trap (cause : Z) : ST mach Z :=
  let! ms := gets mstatus in
  let! pc := gets mepc in
  let! fetch := get_insn ranges site cause ms pc in
  match fetch with
  | None => ret uintptr_minus1
  | Some insn => misaligned_load ms pc insn
  end.

(** ** Misaligned stores *)

(** [sb val, 0(addr); srl val, val, 8; sb val, 1(addr); ...] for [n] bytes. *)
Fixpoint store_bytewise (n : nat) (val addr : Z) : ucode unit :=
  match n with
  | O => uret tt
  | S n' => ubind (sb val addr) (fun _ => store_bytewise n' (val >>> 8) (addr + 1))
  end.

Definition misaligned_store (ms pc insn : Z) : ST mach Z :=
  let! base := gets (GET_RS1 insn) in
  let addr := u64 (base + IMM_S insn) in
  let! val := gets (GET_RS2 insn) in
  let finish (error : option unit) : ST mach Z :=
    match error with
    | Some _ => advance pc
    | None => restore_mstatus ms pc ;; ret uintptr_minus1
    end in
  let SW (v : Z) := let! error := unpriv (store_bytewise 4 v addr) in finish error in
  let SD (v : Z) := let! error := unpriv (store_bytewise 8 v addr) in finish error in
  if is_insn insn MASK_LS MATCH_SW then SW val
  else if is_insn insn MASK_LS MATCH_SD then SD val
  else if is_insn insn MASK_LS MATCH_SH then
    let! error := unpriv (store_bytewise 2 val addr) in finish error
  else if is_insn insn MASK_LS MATCH_FSD then
    fp_access ;; let! v := gets (GET_F64_REG insn 20) in SD (u64 v)
  else if is_insn insn MASK_LS MATCH_FSW then
    fp_access ;; let! v := gets (GET_F32_REG insn 20) in SW (u64 v)
  else ret uintptr_minus1.

Definition misaligned_store_trap (cause : Z) : ST mach Z :=
  let! ms := gets mstatus in
  let! pc := gets mepc in
  let! fetch := get_insn ranges site cause ms pc in
  match fetch with
  | None => ret uintptr_minus1
  | Some insn => misaligned_store ms pc insn
  end.

(** ** Floating-point loads and stores *)

Definition emulate_float_load (cause insn ms pc : Z) : ST mach Z :=
  let! base := gets (GET_RS1 insn) in
  let addr := u64 (base + IMM_I insn) in
  let f3 := insn &&& MASK_FUNCT3 in
  let fail := restore_mstatus ms pc ;; ret uintptr_minus1 in
  if f3 =? (MATCH_FLW &&& MASK_FUNCT3) then
    if negb (addr mod 4 =? 0) then misaligned_load_trap cause
    else
      let! res := unpriv (lw addr) in
      match res with
      | Some val_lo => SET_F32_RD fp_hi insn val_lo ;; advance pc
      | None => fail
      end
  else if f3 =? (MATCH_FLD &&& MASK_FUNCT3) then
    if negb (addr mod 8 =? 0) then misaligned_load_trap cause
    else
      let! res := unpriv (ld addr) in
      match res with
      | Some val => SET_F64_RD insn val ;; advance pc
      | None => fail
      end
  else fail.

Definition emulate_float_store (cause insn ms pc : Z) : ST mach Z :=
  let! base := gets (GET_RS1 insn) in
  let addr := u64 (base + IMM_S insn) in
  let f3 := insn &&& MASK_FUNCT3 in
  let finish (error : option unit) : ST mach Z :=
    match error with
    | Some _ => advance pc
    | None => restore_mstatus ms pc ;; ret uintptr_minus1
    end in
  if f3 =? (MATCH_FSW &&& MASK_FUNCT3) then
    if negb (addr mod 4 =? 0) then misaligned_store_trap cause
    else
      fp_access ;;
      let! val_lo := gets (GET_F32_REG insn 20) in
      let! error := unpriv (ustore 4 addr (u64 val_lo)) in
      finish error
  else if f3 =? (MATCH_FSD &&& MASK_FUNCT3) then
    if negb (addr mod 8 =? 0) then misaligned_store_trap cause
    else
      fp_access ;;
      let! val := gets (GET_F64_REG insn 20) in
      let! error := unpriv (ustore 8 addr (u64 val)) in
      finish error
  else finish None.
End Emulation.

(** ** Multiplication and division *)

(** Signed multiplication, division and remainder of C: undefined when the
    result overflows, and on a zero divisor. *)
Definition c_mul (w a b : Z) : option Z :=
  if (- 2 ^ (w - 1) <=? a * b) && (a * b <? 2 ^ (w - 1)) then Some (a * b) else None.
Definition c_div (w a b : Z) : option Z :=
  if (b =? 0) || ((a =? - 2 ^ (w - 1)) && (b =? -1)) then None else Some (Z.quot a b).
Definition c_rem (w a b : Z) : option Z :=
  if (b =? 0) || ((a =? - 2 ^ (w - 1)) && (b =? -1)) then None else Some (Z.rem a b).
Definition c_udiv (a b : Z) : option Z := if b =? 0 then None else Some (a / b).
Definition c_urem (a b : Z) : option Z := if b =? 0 then None else Some (a mod b).

(** The [val] of [emulate_mul_div]: [None] when no encoding matches,
    [Some None] when the C expression is undefined. *)
Definition mul_div_val (insn rs1 rs2 : Z) : option (option Z) :=
  if is_insn insn MASK_MUL MATCH_MUL then Some (Some (u64 (rs1 * rs2)))
  else if is_insn insn MASK_MUL MATCH_DIV then Some (c_div 64 (s64 rs1) (s64 rs2))
  else if is_insn insn MASK_MUL MATCH_DIVU then Some (c_udiv rs1 rs2)
  else if is_insn insn MASK_MUL MATCH_REM then Some (c_rem 64 (s64 rs1) (s64 rs2))
  else if is_insn insn MASK_MUL MATCH_REMU then Some (c_urem rs1 rs2)
  else if is_insn insn MASK_MUL MATCH_MULH then
    Some (option_map (fun p => p >>> 64) (c_mul 128 (s64 rs1) (s64 rs2)))
  else if is_insn insn MASK_MUL MATCH_MULHU then
    Some (option_map (fun p => p >>> 64) (c_mul 128 rs1 rs2))
  else if is_insn insn MASK_MUL MATCH_MULHSU then
    Some (option_map (fun p => p >>> 64) (c_mul 128 (s64 rs1) rs2))
  else None.

Definition emulate_mul_div (insn pc : Z) : ST mach Z :=
  let! rs1 := gets (GET_RS1 insn) in
  let! rs2 := gets (GET_RS2 insn) in
  match mul_div_val insn rs1 rs2 with
  | None => ret uintptr_minus1
  | Some None => undef
  | Some (Some val) => SET_RD insn val ;; advance pc
  end.

(** The [val] of [emulate_mul_div32] ([uint32_t] operands, [int32_t] result).
    The tests after the first reuse the encodings of the 64-bit instructions. *)
Definition mul_div32_val (insn rs1 rs2 : Z) : option (option Z) :=
  if is_insn insn MASK_MUL MATCH_MULW then Some (Some (s32 (u32 (rs1 * rs2))))
  else if is_insn insn MASK_MUL MATCH_DIV then Some (option_map s32 (c_div 32 (s32 rs1) (s32 rs2)))
  else if is_insn insn MASK_MUL MATCH_DIVU then Some (option_map s32 (c_udiv rs1 rs2))
  else if is_insn insn MASK_MUL MATCH_REM then Some (option_map s32 (c_rem 32 (s32 rs1) (s32 rs2)))
  else if is_insn insn MASK_MUL MATCH_REMU then Some (option_map s32 (c_urem rs1 rs2))
  else None.

Definition emulate_mul_div32 (insn pc : Z) : ST mach Z :=
  let! rs1 := gets (GET_RS1 insn) in
  let! rs2 := gets (GET_RS2 insn) in
  match mul_div32_val insn (u32 rs1) (u32 rs2) with
  | None => ret uintptr_minus1
  | Some None => undef
  | Some (Some val) => SET_RD insn val ;; advance pc
  end.

(** ** Floating-point CSRs *)

Definition GET_FCSR (m : mach) : Z := (frm m <<< 5) ||| fflags m.

(** The hardware keeps 3 bits of [frm] and 5 bits of [fflags]. *)
Definition SET_FRM (v : Z) : ST mach unit := modify (set_frm (v &&& 7)).
Definition SET_FFLAGS (v : Z) : ST mach unit := modify (set_fflags (v &&& 0x1f)).
Definition SET_FCSR (v : Z) : ST mach unit :=
  modify (fun m => set_fflags (v &&& 0x1f) (set_frm ((v >>> 5) &&& 7) m)).

Definition emulate_read_csr (num ms : Z) : ST mach (option Z) :=
  if num =? CSR_FRM then
    if (ms &&& MSTATUS_FS) =? 0 then ret None else let! v := gets frm in ret (Some v)
  else if num =? CSR_FFLAGS then
    if (ms &&& MSTATUS_FS) =? 0 then ret None else let! v := gets fflags in ret (Some v)
  else if num =? CSR_FCSR then
    if (ms &&& MSTATUS_FS) =? 0 then ret None else let! v := gets GET_FCSR in ret (Some v)
  else ret None.

Definition emulate_write_csr (num value : Z) : ST mach bool :=
  if num =? CSR_FRM then SET_FRM value ;; ret true
  else if num =? CSR_FFLAGS then SET_FFLAGS value ;; ret true
  else if num =? CSR_FCSR then SET_FCSR value ;; ret true
  else ret false.

(** The switch on [GET_RM]: the new value and whether it is written. *)
Definition csr_update (rm rs1_num rs1_val csr_val : Z) : option (Z * bool) :=
  let do_write := negb (rs1_num =? 0) in
  if rm =? 1 then Some (rs1_val, true)
  else if rm =? 2 then Some (csr_val ||| rs1_val, do_write)
  else if rm =? 3 then Some (csr_val &&& u64 (Z.lnot rs1_val), do_write)
  else if rm =? 5 then Some (rs1_num, true)
  else if rm =? 6 then Some (csr_val ||| rs1_num, do_write)
  else if rm =? 7 then Some (csr_val &&& u64 (Z.lnot rs1_num), do_write)
  else None.

Definition emulate_system (insn ms pc : Z) : ST mach Z :=
  let rs1_num := (insn >>> 15) &&& 0x1f in
  let! rs1_val := gets (GET_RS1 insn) in
  let csr_num := insn >>> 20 in
  let! r := emulate_read_csr csr_num ms in
  match r with
  | None => ret uintptr_minus1
  | Some csr_val =>
      match csr_update (GET_RM insn) rs1_num rs1_val csr_val with
      | None => ret uintptr_minus1
      | Some (new_csr_val, do_write) =>
          let! ok := (if do_write then emulate_write_csr csr_num new_csr_val else ret true) in
          if ok : bool then SET_RD insn csr_val ;; advance pc else ret uintptr_minus1
      end
  end.

(** ** Misaligned loads equal byte-wise loads *)

Lemma shift_amount x j : 0 <= j <= 61 -> u64 (x * 8) mod (8 * 2 ^ j) = 8 * (x mod 2 ^ j).
Proof.
  intros. replace (8 * 2 ^ j) with (2 ^ (j + 3)) by (rewrite Z.pow_add_r by lia; lia).
  change (u64 (x * 8) mod 2 ^ (j + 3)) with (wrapu (j + 3) (u64 (x * 8))).
  rewrite wrapu_wrapu by lia. unfold wrapu. rewrite Z.pow_add_r by lia.
  change (2 ^ 3) with 8. rewrite Z.mul_mod_distr_r; lia || (apply Z.pow_nonzero; lia).
Qed.

Section LoadStore.
Variable ranges : list (Z * Z).
Variable site : Z * Z.
Variable fp_hi : Z -> Z.
Hypothesis site_listed : find_range ranges (fst site) = Some (snd site).

(** A load instruction of [n] bytes: on mapped, aligned memory it leaves the bytes
    in the low part of the register, on unmapped memory it faults. *)
Definition load_of (n : nat) (load : Z -> ucode Z) : Prop :=
  forall a mem, a mod Z.of_nat n = 0 ->
    match read_bytes mem a n with
    | Some bs => exists v, load a mem = (mem, UOk v) /\ wrapu (8 * Z.of_nat n) v = wrapu (8 * Z.of_nat n) (le_combine bs)
    | None => load a mem = (mem, UFault CAUSE_FAULT_LOAD)
    end.

Lemma uload_of n : load_of n (uload n).
Proof.
  intros a mem Ha. unfold uload. rewrite Ha. simpl. destruct (read_bytes mem a n); eauto.
Qed.

Lemma lw_of : load_of 4 lw.
Proof.
  intros a mem Ha. pose proof (uload_of 4 a mem Ha) as H. unfold lw, ubind.
  destruct (read_bytes mem a 4); [|by rewrite H].
  destruct H as (v & -> & E). eexists. split; [reflexivity|].
  change (8 * Z.of_nat 4) with 32 in *. rewrite wrapu_wrapu, wrapu_wraps by lia. exact E.
Qed.

Lemma DO_LOAD_ok (n : nat) j sgn load addr m bs :
  Z.of_nat n = 2 ^ j -> 0 <= j <= 3 -> load_of n load -> mach_ok m -> bytes_ok (umem m) ->
  inu 64 addr -> addr mod 2 ^ j <> 0 ->
  read_bytes (umem m) (addr - addr mod 2 ^ j) (n + n) = Some bs ->
  exists bytes, read_bytes (umem m) addr n = Some bytes /\
    DO_LOAD ranges site (Z.of_nat n) sgn load addr m =
      Ret (Some (if sgn then u64 (wraps (8 * Z.of_nat n) (le_combine bytes)) else le_combine bytes)) m.
Proof.
  intros Hn Hj Hl Hok Hb Ha Hmis Hr.
  pose proof (Z.mod_pos_bound addr (2 ^ j) ltac:(apply pow2_pos; lia)) as Hk.
  set (k := Z.to_nat (addr mod 2 ^ j)). assert (0 < k < n)%nat as Hkn by lia.
  destruct (read_bytes_app _ _ _ _ _ Hr) as [Hlo Hhi].
  pose proof (read_bytes_ok _ _ _ _ Hb Hlo) as Blo.
  pose proof (read_bytes_ok _ _ _ _ Hb Hhi) as Bhi.
  pose proof (read_bytes_length _ _ _ _ Hlo) as Llo.
  pose proof (read_bytes_length _ _ _ _ Hhi) as Lhi.
  exists (drop k (take n bs) ++ take k (drop n bs)). split.
  { pose proof (read_bytes_length _ _ _ _ Hr) as Lr.
    replace (n + n)%nat with (k + (n + (n - k)))%nat in Hr by lia.
    apply read_bytes_window in Hr. replace (addr - addr mod 2 ^ j + Z.of_nat k) with addr in Hr by lia.
    rewrite Hr. f_equal. rewrite <- (take_drop n bs) at 1.
    rewrite drop_app_le, take_app_ge by (rewrite ?length_drop; lia).
    rewrite length_drop, Llo. f_equal. f_equal. lia. }
  unfold DO_LOAD. rewrite Hn, align_down by (done || lia).
  assert (Hal : (addr - addr mod 2 ^ j) mod Z.of_nat n = 0).
  { rewrite Hn, Zminus_mod_idemp_r, Z.sub_diag. done. }
  assert (Hah : u64 (addr - addr mod 2 ^ j + 2 ^ j) mod Z.of_nat n = 0).
  { rewrite Hn. change (u64 ?x mod 2 ^ j) with (wrapu j (u64 x)). rewrite wrapu_wrapu by lia.
    unfold wrapu. rewrite <- Hn in *. rewrite Z.add_mod, Hal, Z.mod_same by lia. done. }
  pose proof (Hl _ (umem m) Hal) as L1. rewrite Hlo in L1. destruct L1 as (v1 & E1 & W1).
  pose proof (Hl _ (umem m) Hah) as L2. rewrite Hn in Hhi. rewrite read_bytes_u64, Hhi in L2.
  destruct L2 as (v2 & E2 & W2). rewrite Hn in W1, W2.
  unfold bind at 1. erewrite unpriv_ok; [|done|]; cycle 1.
  { unfold ubind. rewrite E1, E2. reflexivity. }
  replace (set_umem (umem m) m) with m by by destruct m.
  unfold ret. rewrite !W1, !W2, !shift_amount by lia.
  pose proof (le_combine_range _ Blo) as R1. pose proof (le_combine_range _ Bhi) as R2.
  rewrite Llo, Hn in R1. rewrite Lhi, Hn in R2. rewrite (wrapu_small _ _ R1), (wrapu_small _ _ R2).
  pose proof (le_combine_join k _ _ Blo Bhi ltac:(lia) ltac:(lia)) as J.
  rewrite Llo, Hn in J. rewrite <- J.
  replace ((2 ^ j - addr) mod 2 ^ j) with (Z.of_nat (n - k)).
  2: { rewrite Zminus_mod, Z.mod_same by lia. symmetry.
       rewrite <- (Z.mod_add _ 1), Z.mod_small by lia. lia. }
  by replace (8 * (addr mod 2 ^ j)) with (8 * Z.of_nat k) by lia.
Qed.

Lemma DO_LOAD_fault (n : nat) j sgn load addr m :
  Z.of_nat n = 2 ^ j -> 0 <= j <= 3 -> load_of n load -> mach_ok m -> inu 64 addr ->
  read_bytes (umem m) (addr - addr mod 2 ^ j) (n + n) = None ->
  exists m1, DO_LOAD ranges site (Z.of_nat n) sgn load addr m = Ret None m1 /\
    restore_mstatus (mstatus m) (mepc m) m1 = Ret tt (set_mcause CAUSE_FAULT_LOAD m).
Proof.
  intros Hn Hj Hl Hok Ha Hr. unfold DO_LOAD. rewrite Hn, align_down by (done || lia).
  assert (Hal : (addr - addr mod 2 ^ j) mod Z.of_nat n = 0).
  { rewrite Hn, Zminus_mod_idemp_r, Z.sub_diag. done. }
  assert (Hah : u64 (addr - addr mod 2 ^ j + 2 ^ j) mod Z.of_nat n = 0).
  { rewrite Hn. change (u64 ?x mod 2 ^ j) with (wrapu j (u64 x)). rewrite wrapu_wrapu by lia.
    unfold wrapu. rewrite <- Hn in *. rewrite Z.add_mod, Hal, Z.mod_same by lia. done. }
  edestruct (unpriv_fault ranges site site_listed
    (ubind (load (addr - addr mod 2 ^ j)) (fun lo =>
       ubind (load (u64 (addr - addr mod 2 ^ j + 2 ^ j))) (fun hi => uret (lo, hi))))
    m (umem m) CAUSE_FAULT_LOAD Hok) as (m1 & E1 & E2).
  - pose proof (Hl _ (umem m) Hal) as L1. pose proof (Hl _ (umem m) Hah) as L2. unfold ubind.
    rewrite read_bytes_u64 in L2.
    destruct (read_bytes (umem m) (addr - addr mod 2 ^ j) n) eqn:E1; [|by rewrite L1].
    destruct L1 as (v1 & -> & _).
    destruct (read_bytes (umem m) (addr - addr mod 2 ^ j + 2 ^ j) n) eqn:E2; [|by rewrite L2].
    rewrite <- Hn in E1, E2. rewrite <- Hn in Hr.
    by rewrite (read_bytes_join _ _ _ _ _ _ E1 E2) in Hr.
  - by left.
  - unfold bind at 1. rewrite E1. exists m1. split; [done|]. rewrite E2. by destruct m.
Qed.
End LoadStore.

(** What the RISC-V manual says of the integer loads: the number of bytes and
    whether the value is sign-extended. *)
Definition int_load (insn : Z) : option (nat * bool) :=
  if is_insn insn MASK_LS MATCH_LW then Some (4%nat, true)
  else if is_insn insn MASK_LS MATCH_LD then Some (8%nat, true)
  else if is_insn insn MASK_LS MATCH_LWU then Some (4%nat, false)
  else if is_insn insn MASK_LS MATCH_LH then Some (2%nat, true)
  else if is_insn insn MASK_LS MATCH_LHU then Some (2%nat, false)
  else None.

(** The bytes the emulation touches: the two enclosing aligned words, or just the
    two bytes of a halfword. *)
Definition load_window (n : nat) (addr : Z) : Z * nat :=
  if (n =? 2)%nat then (addr, 2%nat) else (addr - addr mod Z.of_nat n, (n + n)%nat).

Definition extend_load (n : nat) (sgn : bool) (v : Z) : Z :=
  u64 (if sgn then wraps (8 * Z.of_nat n) v else v).

(** The trapping instruction is [insn] and can be fetched. *)
Definition fetches (m : mach) (insn : Z) : Prop :=
  inu 32 insn /\ mepc m mod 4 = 0 /\ read_bytes (umem m) (mepc m) 4 = Some (le_split 4 insn).

(** The state a successful handler leaves: [rd] written, [mepc] advanced. *)
Definition wrote_rd (insn v : Z) (m : mach) : mach :=
  set_mepc (u64 (mepc m + 4)) (set_regs (<[GET_REG insn 7 := u64 v]> (regs m)) m).

Lemma is_insn_excl insn mask a b :
  is_insn insn mask a = true -> a <> b -> is_insn insn mask b = false.
Proof. unfold is_insn. intros H Hab. apply Z.eqb_eq in H. apply Z.eqb_neq. congruence. Qed.

(** Case analysis on which load [insn] is, from [Hi : int_load insn = Some _];
    [Hw] speaks of its window. *)
Ltac pick_load Hi Hw :=
  unfold int_load in Hi;
  repeat match type of Hi with
  | (if is_insn ?insn MASK_LS ?x then _ else _) = _ =>
      destruct (is_insn insn MASK_LS x) eqn:?; [injection Hi as <- <-|]
  end; try done; unfold load_window in Hw; cbn [Nat.eqb fst snd Nat.add] in Hw;
  repeat match goal with
  | H : is_insn ?insn MASK_LS ?x = _ |- context [is_insn ?insn MASK_LS ?x] => rewrite H
  | H : is_insn ?insn MASK_LS ?x = true |- context [is_insn ?insn MASK_LS ?y] =>
      rewrite (is_insn_excl _ _ _ y H) by done
  end.

Lemma signed_half b0 b1 :
  inu 8 b0 -> inu 8 b1 ->
  u64 (b0 ||| u64 (u64 (s8 b1) <<< 8)) = u64 (wraps 16 (le_combine [b0; b1])).
Proof.
  intros H0 H1. cbn [le_combine]. unfold inu in *.
  rewrite (wraps_of_unsigned 8 b1) by (unfold inu; lia).
  rewrite (wraps_of_unsigned 16) by (unfold inu; lia).
  replace (u64 (u64 (if b1 <? 2 ^ (8 - 1) then b1 else b1 - 2 ^ 8) <<< 8))
    with (u64 (if b1 <? 2 ^ (8 - 1) then b1 else b1 - 2 ^ 8 + 2 ^ 56) <<< 8).
  2: { unfold wrapu. split_ltb; rewrite !Z.shiftl_mul_pow2 by lia; Z.div_mod_to_equations; lia. }
  rewrite lor_disjoint_add; [|lia|unfold inu; lia|apply wrapu_range; lia].
  unfold wrapu. repeat split_ltb; Z.div_mod_to_equations; lia.
Qed.

Section LoadTrap.
Variable ranges : list (Z * Z).
Variable site : Z * Z.
Variable fp_hi : Z -> Z.
Hypothesis site_listed : find_range ranges (fst site) = Some (snd site).

Lemma fetch_then {B} (k : option Z -> ST mach B) cause m insn :
  mach_ok m -> fetches m insn ->
  bind (get_insn ranges site cause (mstatus m) (mepc m)) k m = k (Some insn) m.
Proof.
  intros Hok (H32 & Ha & Hr). unfold bind.
  erewrite get_insn_ok by eauto. by rewrite (wrapu_small 32).
Qed.

Lemma half_load_ok (load2 : Z -> ucode Z) (sgn : bool) addr m b0 b1 :
  mach_ok m -> inu 8 b0 -> inu 8 b1 -> read_bytes (umem m) addr 2 = Some [b0; b1] ->
  (forall a mem b, read_bytes mem a 1 = Some [b] ->
     load2 a mem = (mem, UOk (if sgn then u64 (s8 b) else b))) ->
  unpriv_mem_access ranges site
    (ubind (lbu addr) (fun val => ubind (load2 (u64 (addr + 1))) (fun tmp => uret (val, tmp)))) m =
  Ret (Some (b0, if sgn then u64 (s8 b1) else b1)) m.
Proof.
  intros Hok H0 H1 Hr Hl. change 2%nat with (1 + 1)%nat in Hr.
  apply read_bytes_app in Hr as [Hr0 Hr1]. cbn [take drop] in Hr0, Hr1.
  erewrite unpriv_ok; [by replace (set_umem (umem m) m) with m by by destruct m|done|].
  unfold ubind, lbu, uload. rewrite Z.mod_1_r, Hr0. cbn [negb Z.eqb le_combine].
  rewrite (Hl _ _ b1) by by rewrite read_bytes_u64. rewrite Z.mul_0_r, Z.add_0_r. done.
Qed.

Lemma lb_byte a mem b : read_bytes mem a 1 = Some [b] -> lb a mem = (mem, UOk (u64 (s8 b))).
Proof.
  intros Hr. unfold lb, ubind, uload. rewrite Z.mod_1_r, Hr. cbn [negb Z.eqb le_combine].
  by rewrite Z.mul_0_r, Z.add_0_r.
Qed.

Lemma lbu_byte a mem b : read_bytes mem a 1 = Some [b] -> lbu a mem = (mem, UOk b).
Proof.
  intros Hr. unfold lbu, uload. rewrite Z.mod_1_r, Hr. cbn [negb Z.eqb le_combine].
  by rewrite Z.mul_0_r, Z.add_0_r.
Qed.

(** A loaded value, written to [rd]: what both [SET_RD] and [extend_load] keep. *)
Lemma set_rd_advance insn v v' m :
  u64 v = u64 v' -> (SET_RD insn v ;; advance (mepc m)) m = Ret 0 (wrote_rd insn v' m).
Proof. intros E. unfold SET_RD, advance. st_simpl. rewrite E. done. Qed.

(** C29.  A misaligned integer load that traps is completed by the handler: if the
    instruction can be fetched and the words around the address are mapped, the
    destination register receives exactly the bytes at the misaligned address,
    extended as the instruction asks, [mepc] moves past the instruction, and
    nothing else (memory, [mstatus], the other registers) changes. *)
Theorem misaligned_load_correct m cause insn n sgn bs :
  mach_ok m -> bytes_ok (umem m) -> fetches m insn -> int_load insn = Some (n, sgn) ->
  let addr := u64 (GET_RS1 insn m + IMM_I insn) in
  addr mod Z.of_nat n <> 0 ->
  read_bytes (umem m) (fst (load_window n addr)) (snd (load_window n addr)) = Some bs ->
  exists bytes, read_bytes (umem m) addr n = Some bytes /\
    misaligned_load_trap ranges site fp_hi cause m =
      Ret 0 (wrote_rd insn (extend_load n sgn (le_combine bytes)) m).
Proof.
  intros Hok Hb Hf Hi addr Hmis Hw.
  assert (inu 64 addr) as Ha by (apply wrapu_range; lia).
  unfold misaligned_load_trap. unfold bind at 1 2, gets. rewrite (fetch_then _ _ _ insn) by done.
  unfold misaligned_load, bind at 1, gets. fold addr.
  pick_load Hi Hw.
  - destruct (DO_LOAD_ok ranges site 4 2 true lw addr m bs) as (l & E1 & E2);
      auto using lw_of; try lia.
    exists l. split; [done|]. unfold bind at 1. change 4 with (Z.of_nat 4). rewrite E2.
    apply set_rd_advance. unfold extend_load. done.
  - destruct (DO_LOAD_ok ranges site 8 3 false ld addr m bs) as (l & E1 & E2);
      auto using uload_of; try lia.
    exists l. split; [done|]. unfold bind at 1. change 8 with (Z.of_nat 8). rewrite E2.
    apply set_rd_advance. unfold extend_load. change (8 * Z.of_nat 8) with 64.
    by rewrite !wrapu_wraps, wrapu_idem by lia.
  - destruct (DO_LOAD_ok ranges site 4 2 false lwu addr m bs) as (l & E1 & E2);
      auto using uload_of; try lia.
    exists l. split; [done|]. unfold bind at 1. change 4 with (Z.of_nat 4). rewrite E2.
    apply set_rd_advance. unfold extend_load. by rewrite wrapu_idem by lia.
  - exists bs. split; [done|].
    pose proof (read_bytes_length _ _ _ _ Hw) as L. pose proof (read_bytes_ok _ _ _ _ Hb Hw) as B.
    destruct bs as [|b0 [|b1 [|]]]; try done. inversion B as [|? ? B0 B']. inversion B' as [|? ? B1 _]. subst.
    unfold bind at 1. rewrite (half_load_ok lb true addr m b0 b1) by auto using lb_byte.
    apply set_rd_advance. rewrite signed_half by done. unfold extend_load. by rewrite wrapu_idem by lia.
  - exists bs. split; [done|].
    pose proof (read_bytes_length _ _ _ _ Hw) as L. pose proof (read_bytes_ok _ _ _ _ Hb Hw) as B.
    destruct bs as [|b0 [|b1 [|]]]; try done. inversion B as [|? ? B0 B']. inversion B' as [|? ? B1 _]. subst.
    unfold bind at 1. rewrite (half_load_ok lbu false addr m b0 b1) by auto using lbu_byte.
    apply set_rd_advance. unfold extend_load. rewrite wrapu_idem by lia. f_equal.
    cbn [le_combine]. unfold inu in *.
    rewrite (wrapu_small 64) by (rewrite Z.shiftl_mul_pow2; unfold inu; lia).
    rewrite lor_disjoint_add by (unfold inu; lia). lia.
Qed.
End LoadTrap.

(** ** Failing loads *)

(** The common failure exit: put the trap state back and return -1. *)
Lemma restore_finish {A} m m1 m2 (c : ST mach (option A)) (k : option A -> ST mach Z) :
  c m = Ret None m1 -> k None = (restore_mstatus (mstatus m) (mepc m) ;; ret uintptr_minus1) ->
  restore_mstatus (mstatus m) (mepc m) m1 = Ret tt m2 ->
  bind c k m = Ret uintptr_minus1 m2.
Proof. intros E1 Ek E2. unfold bind at 1. rewrite E1, Ek. unfold bind. by rewrite E2. Qed.

Section LoadFault.
Variable ranges : list (Z * Z).
Variable site : Z * Z.
Variable fp_hi : Z -> Z.
Hypothesis site_listed : find_range ranges (fst site) = Some (snd site).

Lemma half_load_fault (load2 : Z -> ucode Z) addr m :
  mach_ok m -> load_of 1 load2 -> read_bytes (umem m) addr 2 = None ->
  exists m1, unpriv_mem_access ranges site
    (ubind (lbu addr) (fun val => ubind (load2 (u64 (addr + 1))) (fun tmp => uret (val, tmp)))) m =
    Ret None m1 /\ restore_mstatus (mstatus m) (mepc m) m1 = Ret tt (set_mcause CAUSE_FAULT_LOAD m).
Proof.
  intros Hok Hl Hr.
  destruct (unpriv_fault ranges site site_listed
    (ubind (lbu addr) (fun val => ubind (load2 (u64 (addr + 1))) (fun tmp => uret (val, tmp))))
    m (umem m) CAUSE_FAULT_LOAD Hok) as (m1 & E1 & E2);
    [|by left|exists m1; split; [exact E1|]; rewrite E2; by destruct m].
  unfold ubind. pose proof (uload_of 1 addr (umem m) (Z.mod_1_r _)) as L1.
  pose proof (Hl (u64 (addr + 1)) (umem m) (Z.mod_1_r _)) as L2. rewrite read_bytes_u64 in L2.
  destruct (read_bytes (umem m) addr 1) eqn:R1; [|unfold lbu; by rewrite L1].
  destruct L1 as (v1 & E1 & _). unfold lbu. rewrite E1.
  destruct (read_bytes (umem m) (addr + 1) 1) eqn:R2; [|by rewrite L2].
  pose proof (read_bytes_join _ _ 1 1 _ _ R1 R2) as J. cbn [Nat.add] in J. congruence.
Qed.

Lemma lb_of : load_of 1 lb.
Proof.
  intros a mem Ha. pose proof (uload_of 1 a mem Ha) as H. unfold lb, ubind.
  destruct (read_bytes mem a 1); [|by rewrite H].
  destruct H as (v & -> & E). eexists. split; [reflexivity|].
  change (8 * Z.of_nat 1) with 8 in *. rewrite wrapu_wrapu, wrapu_wraps by lia. exact E.
Qed.

(** C30.  When the memory a misaligned integer load touches is not mapped, the
    handler asks for the trap to be redirected (returns -1) and the interrupted
    state is intact: registers, memory, [mepc] and all of [mstatus] (whose
    privilege stack the nested page fault overwrote) are as at entry, and
    [mcause] is the load page fault the supervisor is to see. *)
Theorem misaligned_load_page_fault m cause insn n sgn :
  mach_ok m -> fetches m insn -> int_load insn = Some (n, sgn) ->
  let addr := u64 (GET_RS1 insn m + IMM_I insn) in
  read_bytes (umem m) (fst (load_window n addr)) (snd (load_window n addr)) = None ->
  misaligned_load_trap ranges site fp_hi cause m =
    Ret uintptr_minus1 (set_mcause CAUSE_FAULT_LOAD m).
Proof.
  intros Hok Hf Hi addr Hw. assert (inu 64 addr) as Ha by (apply wrapu_range; lia).
  unfold misaligned_load_trap. unfold bind at 1 2, gets. rewrite (fetch_then _ _ _ _ _ insn) by done.
  unfold misaligned_load, bind at 1, gets. fold addr.
  pick_load Hi Hw.
  - destruct (DO_LOAD_fault ranges site site_listed 4 2 true lw addr m) as (m1 & E1 & E2); auto using lw_of; try lia.
    by eapply restore_finish.
  - destruct (DO_LOAD_fault ranges site site_listed 8 3 false ld addr m) as (m1 & E1 & E2); auto using uload_of; try lia.
    by eapply restore_finish.
  - destruct (DO_LOAD_fault ranges site site_listed 4 2 false lwu addr m) as (m1 & E1 & E2); auto using uload_of; try lia.
    by eapply restore_finish.
  - destruct (half_load_fault lb addr m) as (m1 & E1 & E2); auto using lb_of. by eapply restore_finish.
  - destruct (half_load_fault lbu addr m) as (m1 & E1 & E2); auto using uload_of. by eapply restore_finish.
Qed.
End LoadFault.

(** ** Misaligned stores *)

Definition int_store (insn : Z) : option nat :=
  if is_insn insn MASK_LS MATCH_SW then Some 4%nat
  else if is_insn insn MASK_LS MATCH_SD then Some 8%nat
  else if is_insn insn MASK_LS MATCH_SH then Some 2%nat
  else None.

Lemma store_bytewise_ok n val addr mem bs :
  read_bytes mem addr n = Some bs ->
  store_bytewise n val addr mem = (write_bytes mem addr (le_split n val), UOk tt).
Proof.
  revert val addr mem bs. induction n as [|n IH]; intros val addr mem bs H; [done|].
  cbn [store_bytewise read_bytes] in *.
  destruct (mem !! u64 addr) as [x|] eqn:Ea; [|done].
  destruct (read_bytes mem (addr + 1) n) as [l|] eqn:E; [|done].
  unfold ubind, sb, ustore. rewrite Z.mod_1_r. cbn [negb Z.eqb read_bytes].
  rewrite wrapu_idem, Ea by lia. cbn [le_split write_bytes]. rewrite wrapu_idem by lia.
  destruct (read_bytes_some_insert _ _ _ (u64 addr) (val mod 2 ^ 8) _ E) as [l' E'].
  rewrite (IH _ _ _ _ E'), Z.shiftr_div_pow2 by lia. done.
Qed.

Section StoreTrap.
Variable ranges : list (Z * Z).
Variable site : Z * Z.
Hypothesis site_listed : find_range ranges (fst site) = Some (snd site).

(** C31.  A misaligned integer store that traps is completed byte by byte: if the
    instruction can be fetched and the bytes at the address are mapped, memory
    receives the low bytes of [rs2] in little-endian order at the misaligned
    address, they are read back from there, [mepc] moves on and nothing else
    changes. *)
Theorem misaligned_store_correct m cause insn n bs :
  mach_ok m -> fetches m insn -> int_store insn = Some n ->
  let addr := u64 (GET_RS1 insn m + IMM_S insn) in
  read_bytes (umem m) addr n = Some bs ->
  let mem' := write_bytes (umem m) addr (le_split n (GET_RS2 insn m)) in
  misaligned_store_trap ranges site cause m =
    Ret 0 (set_mepc (u64 (mepc m + 4)) (set_umem mem' m)) /\
  read_bytes mem' addr n = Some (le_split n (GET_RS2 insn m)).
Proof.
  intros Hok Hf Hi addr Hr mem'. split.
  2: { unfold mem'. rewrite <- (length_le_split n (GET_RS2 insn m)) at 2.
       apply read_write_bytes. rewrite length_le_split. unfold int_store in Hi.
       repeat destruct (is_insn _ _ _); simplify_eq; lia. }
  assert (H : forall k : option unit -> ST mach Z, (let! error := unpriv_mem_access ranges site (store_bytewise n (GET_RS2 insn m) addr) in
     k error) m = k (Some tt) (set_umem mem' m)).
  { intros k. unfold bind at 1. by erewrite unpriv_ok by eauto using store_bytewise_ok. }
  unfold misaligned_store_trap. unfold bind at 1 2, gets. rewrite (fetch_then _ _ _ _ _ insn) by done.
  unfold misaligned_store, bind at 1, gets, bind at 1. fold addr. unfold int_store in Hi.
  destruct (is_insn insn MASK_LS MATCH_SW); [injection Hi as <-; by rewrite H|].
  destruct (is_insn insn MASK_LS MATCH_SD); [injection Hi as <-; by rewrite H|].
  destruct (is_insn insn MASK_LS MATCH_SH); [injection Hi as <-; by rewrite H|done].
Qed.
End StoreTrap.

(** ** Multiplication and division against the instruction-set manual *)

(** The value the M extension defines for each encoding and all operands, on
    unsigned registers: division by zero gives all ones and leaves the dividend
    as remainder, and the quotient that overflows is the dividend. *)
Definition isa_mul_div (insn rs1 rs2 : Z) : Z :=
  let f := (insn >>> 12) &&& 7 in
  if f =? 0 then (u64 (rs1 * rs2))
  else if f =? 1 then (u64 (s64 rs1 * s64 rs2 / 2 ^ 64))
  else if f =? 2 then (u64 (s64 rs1 * rs2 / 2 ^ 64))
  else if f =? 3 then (rs1 * rs2 / 2 ^ 64)
  else if f =? 4 then (if rs2 =? 0 then 2 ^ 64 - 1 else u64 (Z.quot (s64 rs1) (s64 rs2)))
  else if f =? 5 then (if rs2 =? 0 then 2 ^ 64 - 1 else rs1 / rs2)
  else if f =? 6 then (if rs2 =? 0 then rs1 else u64 (Z.rem (s64 rs1) (s64 rs2)))
  else if rs2 =? 0 then rs1 else rs1 mod rs2.

(** The operands on which the C expressions have a value: the divisor is not
    zero, the signed quotient is not [2 ^ 63], and the unsigned product, which
    MULHU computes as a signed [__int128], is below [2 ^ 127]. *)
Definition mul_div_defined (insn rs1 rs2 : Z) : bool :=
  let f := (insn >>> 12) &&& 7 in
  if f =? 3 then rs1 * rs2 <? 2 ^ 127
  else if (f =? 4) || (f =? 6) then negb (rs2 =? 0) && negb ((rs1 =? 2 ^ 63) && (rs2 =? 2 ^ 64 - 1))
  else if (f =? 5) || (f =? 7) then negb (rs2 =? 0)
  else true.

Lemma testbit_small_const (c w i : Z) : 0 <= c < 2 ^ w -> 0 <= w <= i -> Z.testbit c i = false.
Proof. intros. by apply (testbit_inu w). Qed.

(** The MULDIV encodings are told apart by [funct3]. *)
Lemma muldiv_funct3 insn op :
  0 <= insn -> (insn &&& 0xfe00007f) = op ->
  insn &&& MASK_MUL = op ||| (((insn >>> 12) &&& 7) <<< 12).
Proof.
  intros H0 <-. unfold MASK_MUL. change 0xfe00707f with (0xfe00007f ||| (7 <<< 12)).
  rewrite Z.land_lor_distr_r. f_equal.
  apply Z.bits_inj'. intros i Hi. autorewrite with testbit.
  destruct (Z.lt_ge_cases i 12); kill_bits; [by rewrite !andb_false_r|].
  autorewrite with testbit. by replace (i - 12 + 12) with i by lia.
Qed.

Lemma funct3_cases insn : 0 <= insn ->
  let f := (insn >>> 12) &&& 7 in
  f = 0 \/ f = 1 \/ f = 2 \/ f = 3 \/ f = 4 \/ f = 5 \/ f = 6 \/ f = 7.
Proof.
  intros H f. pose proof (land_range 3 (insn >>> 12) 7) as R.
  fold f in R. unfold inu in R. lia.
Qed.

Lemma s64_zero x : inu 64 x -> s64 x = 0 -> x = 0.
Proof. unfold inu. intros H. rewrite wraps_of_unsigned by (unfold inu; lia). split_ltb; lia. Qed.

(** The signed 128-bit product of two registers, one of them signed, fits. *)
Lemma c_mul_128 a b :
  - 2 ^ 63 <= a < 2 ^ 63 -> - 2 ^ 63 <= b < 2 ^ 64 -> c_mul 128 a b = Some (a * b).
Proof.
  intros Ha Hb. unfold c_mul. change (128 - 1) with 127.
  assert (- 2 ^ 127 <= a * b < 2 ^ 127) by nia.
  rewrite (proj2 (Z.leb_le _ _)), (proj2 (Z.ltb_lt _ _)) by lia. done.
Qed.

Lemma s64_range x : - 2 ^ 63 <= s64 x < 2 ^ 63.
Proof. apply (wraps_range 64). lia. Qed.

(** What the C expressions give on every pair of operands. *)
Lemma mul_div_value insn a b :
  0 <= insn -> (insn &&& 0xfe00007f) = 0x2000033 -> inu 64 a -> inu 64 b ->
  exists r, mul_div_val insn a b = Some r /\
    if mul_div_defined insn a b then exists v, r = Some v /\ u64 v = u64 (isa_mul_div insn a b)
    else r = None.
Proof.
  intros Hi Hop Ha Hb.
  assert (Hz : (s64 b =? 0) = (b =? 0)).
  { apply eq_true_iff_eq. rewrite !Z.eqb_eq. split; [by apply s64_zero|by intros ->]. }
  assert (Hm : (s64 a =? - 2 ^ (64 - 1)) = (a =? 2 ^ 63)).
  { apply eq_true_iff_eq. rewrite !Z.eqb_eq, (wraps_of_unsigned 64) by (done || lia). unfold inu in *. split_ltb; lia. }
  assert (Hn : (s64 b =? -1) = (b =? 2 ^ 64 - 1)).
  { apply eq_true_iff_eq. rewrite !Z.eqb_eq, (wraps_of_unsigned 64) by (done || lia). unfold inu in *. split_ltb; lia. }
  pose proof (s64_range a). pose proof (s64_range b). unfold inu in *.
  unfold mul_div_val, is_insn, isa_mul_div, mul_div_defined, c_div, c_rem, c_udiv, c_urem.
  rewrite (muldiv_funct3 insn _ Hi Hop), Hm, Hn, Hz.
  destruct (funct3_cases insn Hi) as [E|[E|[E|[E|[E|[E|[E|E]]]]]]]; rewrite E;
    eexists; (split; [reflexivity|]); cbn [Z.eqb Pos.eqb orb].
  - eexists. split; [reflexivity|]. by rewrite wrapu_idem by lia.
  - rewrite c_mul_128 by lia. eexists. split; [reflexivity|]. by rewrite Z.shiftr_div_pow2, wrapu_idem by lia.
  - rewrite c_mul_128 by lia. eexists. split; [reflexivity|]. by rewrite Z.shiftr_div_pow2, wrapu_idem by lia.
  - unfold c_mul. change (128 - 1) with 127. rewrite (proj2 (Z.leb_le _ _)) by nia. cbn [andb].
    destruct (a * b <? 2 ^ 127); [|done]. eexists. split; [reflexivity|]. by rewrite Z.shiftr_div_pow2 by lia.
  - destruct (b =? 0); [done|]. cbn [orb negb andb]. destruct (_ && _); [done|].
    eexists. split; [reflexivity|]. by rewrite wrapu_idem by lia.
  - destruct (b =? 0); [done|]. eexists. by split.
  - destruct (b =? 0); [done|]. cbn [orb negb andb]. destruct (_ && _); [done|].
    eexists. split; [reflexivity|]. by rewrite wrapu_idem by lia.
  - destruct (b =? 0); [done|]. eexists. by split.
Qed.

(** C33.  [emulate_mul_div], for every encoding with the MULDIV opcode and
    [funct7] and all operands: where the C expression has a value, [rd] receives
    the value the M extension defines and [mepc] advances.  It has none, and the
    handler's behaviour is undefined although the M extension defines a result,
    exactly when the divisor is zero, when the quotient of DIV or REM overflows,
    and when the product of MULHU does not fit a signed [__int128]. *)
Theorem emulate_mul_div_isa m insn :
  inu 32 insn -> (insn &&& 0xfe00007f) = 0x2000033 ->
  inu 64 (GET_RS1 insn m) -> inu 64 (GET_RS2 insn m) ->
  emulate_mul_div insn (mepc m) m =
    if mul_div_defined insn (GET_RS1 insn m) (GET_RS2 insn m)
    then Ret 0 (wrote_rd insn (isa_mul_div insn (GET_RS1 insn m) (GET_RS2 insn m)) m)
    else Undef.
Proof.
  intros [Hi _] Hop H1 H2. unfold emulate_mul_div, bind at 1, gets, bind at 1.
  destruct (mul_div_value insn _ _ Hi Hop H1 H2) as (r & -> & R).
  destruct (mul_div_defined _ _ _); [|by rewrite R]. destruct R as (v & -> & Ev). by apply set_rd_advance.
Qed.

(** The word forms are not all emulated: of the OP-32 encodings
    [emulate_mul_div32] is dispatched on, it completes MULW and refuses every
    other one (DIVW, DIVUW, REMW, REMUW), whatever the operands, because its
    remaining tests compare with the encodings of the 64-bit instructions. *)
Theorem emulate_mul_div32_only_mulw m insn :
  inu 32 insn -> (insn &&& 0xfe00007f) = 0x200003b ->
  emulate_mul_div32 insn (mepc m) m =
    if (insn >>> 12) &&& 7 =? 0
    then Ret 0 (wrote_rd insn (s32 (GET_RS1 insn m * GET_RS2 insn m)) m)
    else Ret uintptr_minus1 m.
Proof.
  intros [Hi _] Hop. unfold emulate_mul_div32, bind at 1, gets, bind at 1.
  unfold mul_div32_val, is_insn. rewrite (muldiv_funct3 insn _ Hi Hop).
  destruct (funct3_cases insn Hi) as [E|[E|[E|[E|[E|[E|[E|E]]]]]]]; rewrite E; try reflexivity.
  cbn [Z.eqb]. apply set_rd_advance. f_equal. rewrite wraps_wrapu by lia.
  rewrite <- (wraps_wrapu 32 (_ * _)), <- (wraps_wrapu 32 (GET_RS1 insn m * _)) by lia.
  unfold wrapu. rewrite <- Z.mul_mod by lia. done.
Qed.

(** ** The floating-point control and status register *)

(** The architectural view: one 8-bit register of which [frm] and [fflags] are
    fields. *)
Definition fcsr_field (num fcsr : Z) : Z :=
  if num =? CSR_FRM then fcsr >>> 5 else if num =? CSR_FFLAGS then fcsr &&& 31 else fcsr.
Definition fcsr_set (num v fcsr : Z) : Z :=
  if num =? CSR_FRM then (fcsr &&& 31) ||| ((v &&& 7) <<< 5)
  else if num =? CSR_FFLAGS then (fcsr &&& 224) ||| (v &&& 31)
  else v &&& 255.

Definition fp_csrs_ok (m : mach) : Prop := inu 3 (frm m) /\ inu 5 (fflags m).

Lemma fcsr_read num m :
  fp_csrs_ok m -> num = CSR_FRM \/ num = CSR_FFLAGS \/ num = CSR_FCSR ->
  fcsr_field num (GET_FCSR m) =
    if num =? CSR_FRM then frm m else if num =? CSR_FFLAGS then fflags m else GET_FCSR m.
Proof.
  intros [H3 H5] [->|[->| ->]]; unfold fcsr_field, GET_FCSR; cbn [Z.eqb CSR_FRM CSR_FFLAGS CSR_FCSR Pos.eqb].
  - apply Z.bits_inj'. intros i Hi. autorewrite with testbit. kill_bits. rewrite orb_false_r. f_equal. lia.
  - change 31 with (Z.ones 5). apply Z.bits_inj'. intros i Hi. autorewrite with testbit.
    split_ltb; kill_bits; rewrite ?orb_false_l; by rewrite ?andb_true_r, ?andb_false_r.
  - done.
Qed.

(** Writing a field through its own register is writing it in the packed one. *)
Lemma fcsr_write num v m :
  fp_csrs_ok m -> num = CSR_FRM \/ num = CSR_FFLAGS \/ num = CSR_FCSR ->
  exists m', emulate_write_csr num v m = Ret true m' /\ fp_csrs_ok m' /\
    GET_FCSR m' = fcsr_set num v (GET_FCSR m) /\
    regs m' = regs m /\ fregs m' = fregs m /\ mstatus m' = mstatus m /\ mepc m' = mepc m /\
    mcause m' = mcause m /\ umem m' = umem m.
Proof.
  intros [H3 H5] Hnum. unfold emulate_write_csr, fcsr_set, SET_FRM, SET_FFLAGS, SET_FCSR, fp_csrs_ok.
  assert (R7 : inu 3 (v &&& 7)) by (apply land_range; unfold inu; lia).
  assert (R31 : inu 5 (v &&& 31)) by (apply land_range; unfold inu; lia).
  assert (R75 : inu 3 (v >>> 5 &&& 7)) by (apply land_range; unfold inu; lia).
  destruct Hnum as [->|[->| ->]]; cbn [Z.eqb CSR_FRM CSR_FFLAGS CSR_FCSR Pos.eqb]; st_simpl;
    eexists; (split; [reflexivity|]); mach_simpl; split_and!; auto; unfold GET_FCSR; mach_simpl.
  - change 31 with (Z.ones 5). apply Z.bits_inj'. intros i Hi. autorewrite with testbit.
    split_ltb; kill_bits; rewrite ?andb_true_r, ?andb_false_r, ?orb_false_r, ?orb_false_l; auto using orb_comm.
  - change 224 with (Z.ones 3 <<< 5). apply Z.bits_inj'. intros i Hi. autorewrite with testbit.
    f_equal. destruct (Z.lt_ge_cases i 5); kill_bits; [by rewrite andb_false_r|].
    autorewrite with testbit. rewrite orb_false_r.
    split_ltb; [by rewrite andb_true_r|]. by rewrite (testbit_inu 3) by (auto; lia).
  - change 255 with (Z.ones 8). change 31 with (Z.ones 5). change 7 with (Z.ones 3).
    apply Z.bits_inj'. intros i Hi. autorewrite with testbit.
    destruct (Z.lt_ge_cases i 5); kill_bits; autorewrite with testbit; repeat split_ltb; try lia;
      rewrite ?andb_true_r, ?andb_false_r, ?orb_false_r; auto. f_equal. lia.
Qed.

(** An emulated CSR instruction on [fflags], [frm] or [fcsr] reads the old
    field into [rd] and, when it writes, leaves the packed register as the
    instruction defines, the two field registers staying views of one [fcsr]; all
    other state is kept and [mepc] advances. *)
Theorem emulate_system_fcsr m insn new wr :
  let num := insn >>> 20 in
  let old := fcsr_field num (GET_FCSR m) in
  fp_csrs_ok m -> num = CSR_FRM \/ num = CSR_FFLAGS \/ num = CSR_FCSR ->
  (mstatus m &&& MSTATUS_FS) <> 0 ->
  csr_update (GET_RM insn) ((insn >>> 15) &&& 0x1f) (GET_RS1 insn m) old = Some (new, wr) ->
  exists m', emulate_system insn (mstatus m) (mepc m) m = Ret 0 m' /\ fp_csrs_ok m' /\
    GET_FCSR m' = (if wr : bool then fcsr_set num new (GET_FCSR m) else GET_FCSR m) /\
    regs m' = <[GET_REG insn 7 := u64 old]> (regs m) /\ mepc m' = u64 (mepc m + 4) /\
    fregs m' = fregs m /\ mstatus m' = mstatus m /\ umem m' = umem m.
Proof.
  intros num old Hok Hnum Hfs Hup. unfold emulate_system. unfold bind at 1, gets. fold num.
  assert (emulate_read_csr num (mstatus m) m = Ret (Some old) m) as E.
  { unfold emulate_read_csr, old. rewrite fcsr_read by done. rewrite (proj2 (Z.eqb_neq _ _) Hfs).
    destruct Hnum as [-> | [-> | ->]]; done. }
  unfold bind at 1. rewrite E, Hup.
  assert (exists m1, (if wr then emulate_write_csr num new else ret true) m = Ret true m1 /\
    fp_csrs_ok m1 /\ GET_FCSR m1 = (if wr then fcsr_set num new (GET_FCSR m) else GET_FCSR m) /\
    regs m1 = regs m /\ fregs m1 = fregs m /\ mstatus m1 = mstatus m /\ mepc m1 = mepc m /\
    mcause m1 = mcause m /\ umem m1 = umem m)
    as (m1 & E1 & Hok1 & Hf & Hr & Hfr & Hms & Hpc & _ & Hm).
  { destruct wr; [by apply fcsr_write|]. exists m. by split_and!. }
  unfold bind at 1. rewrite E1. unfold SET_RD, advance. st_simpl. eexists. split; [reflexivity|].
  unfold fp_csrs_ok, GET_FCSR in *. mach_simpl. rewrite Hr, Hms.
  destruct Hok1. split_and!; auto.
Qed.

(** With the FPU disabled ([mstatus.FS] zero) or another CSR number, the CSR
    emulation refuses the instruction and changes nothing. *)
Theorem emulate_system_refuses m insn :
  (mstatus m &&& MSTATUS_FS) = 0 \/ insn >>> 20 <> CSR_FRM /\ insn >>> 20 <> CSR_FFLAGS /\ insn >>> 20 <> CSR_FCSR ->
  emulate_system insn (mstatus m) (mepc m) m = Ret uintptr_minus1 m.
Proof.
  intros H. unfold emulate_system. unfold bind at 1, gets.
  assert (emulate_read_csr (insn >>> 20) (mstatus m) m = Ret None m) as E.
  { unfold emulate_read_csr. destruct H as [H | (H1 & H2 & H3)].
    - rewrite H. cbn [Z.eqb]. by repeat case_match.
    - by rewrite !(proj2 (Z.eqb_neq _ _)). }
  unfold bind at 1. by rewrite E.
Qed.

(** ** Concrete runs *)

(** A hart that trapped at [pc] on [insn] with [x1] and [x2] given and the bytes
    1 .. 16 mapped at 0x1000. *)
Definition demo (insn x1 x2 : Z) : mach :=
  Mach ([0; x1; x2] ++ replicate 29 0) (replicate 32 0) (MSTATUS_PRV ||| MSTATUS_FS) 0x100 4 0 0 0
    (write_bytes (write_bytes ∅ 0x100 (le_split 4 insn)) 0x1000 (map Z.of_nat (seq 1 16))).

Lemma demo_ok insn x1 x2 : inu 64 x1 -> inu 64 x2 -> mach_ok (demo insn x1 x2).
Proof.
  intros. constructor; try reflexivity.
  - cbn. repeat constructor; unfold inu in *; lia.
  - vm_decide.
  - vm_decide.
Qed.

Lemma misaligned_load_correct_witness :
  exists bytes, read_bytes (umem (demo 0xA103 0x1001 0)) 0x1001 4 = Some bytes /\
    misaligned_load_trap [(0x40, 0x48)] (0x40, 0x48) (fun _ => 0) 4 (demo 0xA103 0x1001 0) =
      Ret 0 (wrote_rd 0xA103 (extend_load 4 true (le_combine bytes)) (demo 0xA103 0x1001 0)).
Proof.
  apply (misaligned_load_correct [(0x40, 0x48)] (0x40, 0x48) (fun _ => 0) (demo 0xA103 0x1001 0) 4
    0xA103 4 true [1; 2; 3; 4; 5; 6; 7; 8]).
  - apply demo_ok; unfold inu; lia.
  - vm_decide.
  - split; [unfold inu; lia|split; reflexivity].
  - reflexivity.
  - vm_compute. discriminate.
  - reflexivity.
Defined.

Lemma misaligned_load_page_fault_witness :
  misaligned_load_trap [(0x40, 0x48)] (0x40, 0x48) (fun _ => 0) 4 (demo 0xA103 0x100D 0) =
    Ret uintptr_minus1 (set_mcause CAUSE_FAULT_LOAD (demo 0xA103 0x100D 0)).
Proof.
  apply (misaligned_load_page_fault [(0x40, 0x48)] (0x40, 0x48) (fun _ => 0) eq_refl
    (demo 0xA103 0x100D 0) 4 0xA103 4 true).
  - apply demo_ok; unfold inu; lia.
  - split; [unfold inu; lia|split; reflexivity].
  - reflexivity.
  - reflexivity.
Defined.

Lemma misaligned_store_correct_witness :
  let m := demo 0x20A023 0x1001 0xAABBCCDD in
  let mem' := write_bytes (umem m) 0x1001 (le_split 4 0xAABBCCDD) in
  misaligned_store_trap [(0x40, 0x48)] (0x40, 0x48) 6 m = Ret 0 (set_mepc 0x104 (set_umem mem' m)) /\
  read_bytes mem' 0x1001 4 = Some (le_split 4 0xAABBCCDD).
Proof.
  apply (misaligned_store_correct [(0x40, 0x48)] (0x40, 0x48) (demo 0x20A023 0x1001 0xAABBCCDD) 6
    0x20A023 4 [2; 3; 4; 5]).
  - apply demo_ok; unfold inu; lia.
  - split; [unfold inu; lia|split; reflexivity].
  - reflexivity.
  - reflexivity.
Defined.

Lemma emulate_mul_div_isa_witness :
  emulate_mul_div 0x0220C1B3 0x100 (demo 0x0220C1B3 (2 ^ 64 - 7) 2) =
    Ret 0 (wrote_rd 0x0220C1B3 (2 ^ 64 - 3) (demo 0x0220C1B3 (2 ^ 64 - 7) 2)) /\
  emulate_mul_div 0x0220C1B3 0x100 (demo 0x0220C1B3 7 0) = Undef.
Proof.
  split.
  - apply (emulate_mul_div_isa (demo 0x0220C1B3 (2 ^ 64 - 7) 2) 0x0220C1B3);
      try reflexivity; vm_compute; split; congruence.
  - apply (emulate_mul_div_isa (demo 0x0220C1B3 7 0) 0x0220C1B3); try reflexivity; vm_compute; split; congruence.
Defined.

Lemma emulate_mul_div32_only_mulw_witness :
  emulate_mul_div32 0x0220C1BB 0x100 (demo 0x0220C1BB 100 7) = Ret uintptr_minus1 (demo 0x0220C1BB 100 7).
Proof.
  apply (emulate_mul_div32_only_mulw (demo 0x0220C1BB 100 7) 0x0220C1BB); [vm_compute; split; congruence|reflexivity].
Defined.

Lemma emulate_system_fcsr_witness :
  exists m', emulate_system 0x00309173 (mstatus (demo 0 0x65 0)) 0x100 (demo 0 0x65 0) = Ret 0 m' /\
    GET_FCSR m' = 0x65.
Proof.
  destruct (emulate_system_fcsr (demo 0 0x65 0) 0x00309173 0x65 true) as (m' & E & _ & F & _).
  - split; vm_compute; split; congruence.
  - right; right; reflexivity.
  - vm_compute. discriminate.
  - reflexivity.
  - exists m'. split; [exact E|exact F].
Defined.

Lemma emulate_system_refuses_witness :
  emulate_system 0x30009173 (mstatus (demo 0 0x65 0)) 0x100 (demo 0 0x65 0) = Ret uintptr_minus1 (demo 0 0x65 0).
Proof.
  apply (emulate_system_refuses (demo 0 0x65 0) 0x30009173). right.
  split_and!; vm_compute; discriminate.
Defined.
