(* ===== verification/EmulationFP.v ===== *)
(** * Floating-point instruction emulation ([bbl/emulation.c])

    The handlers [emulate_fp] dispatches to (arithmetic, sign injection, minimum
    and maximum, conversions, comparisons, moves) and the fused multiply-add
    group, over the hart of [Machine] and the SoftFloat routines, with the
    theorems that relate an emulated instruction to the exact real result. *)

From Stdlib Require Import ZArith Lia Bool List String.
From stdpp Require Import base gmap list.
From S2P Require Import Prelude Machine Emulation SFPrim SFRound SFConv SFArith SFSpec SFConvSpec.
Open Scope Z_scope.
Open Scope word_scope.

(** A SoftFloat routine on the hart: the rounding mode is in [tp], flags accrue in
    [fflags]. *)
Definition fp_call {A} (c : FP A) : ST mach A := fun m =>
  match c (tp m) (fflags m) with
  | Some (a, fl) => Ret a (set_fflags fl m)
  | None => Hang m
  end.

Definition MATCH_FMV_X_S : Z := 0xe0000053.
Definition MATCH_FMV_X_D : Z := 0xe2000053.
Definition MATCH_FMV_S_X : Z := 0xf0000053.
Definition MATCH_FMV_D_X : Z := 0xf2000053.
Definition MASK_FMV : Z := 0xfff0707f.
Definition INT32_MIN : Z := - 2 ^ 31.
Definition INT64_MIN : Z := - 2 ^ 63.

(** [SETUP_STATIC_ROUNDING]: [false] is the [return -1] inside the macro. *)
Definition SETUP_STATIC_ROUNDING (insn : Z) : ST mach bool :=
  let! f := gets frm in
  modify (set_tp f) ;;
  if (insn &&& MASK_FUNCT3) =? MASK_FUNCT3 then ret true
  else if 4 <? GET_RM insn then ret false
  else modify (set_tp (GET_RM insn)) ;; ret true.

(** The rs2 field read as a number. *)
Definition rs2_num (insn : Z) : Z := (insn >>> 20) &&& 0x1f.

Definition DO_FSGNJ (w rs1 rs2 rm : Z) : Z :=
  let rs1_sign := rs1 >>> (w - 1) in
  let rs2_sign := rs2 >>> (w - 1) in
  let rs1_sign := rs1_sign &&& (rm >>> 1) in
  let rs1_sign := rs1_sign ^^^ (rm ^^^ rs2_sign) in
  (shl w rs1 1 >>> 1) ||| shl w rs1_sign (w - 1).

Section EmulationFP.
(** The upper half of single-precision registers. *)
Variable fp_hi : Z -> Z.

Definition emulate_any_fadd (insn pc neg_b : Z) : ST mach Z :=
  if GET_PRECISION insn =? PRECISION_S then
    let! rs1 := gets (fun m => u32 (GET_F32_REG insn 15 m)) in
    let! rs2 := gets (fun m => u32 (u64 (GET_F32_REG insn 20 m) ^^^ neg_b)) in
    let! v := fp_call (f32_add rs1 rs2) in
    SET_F32_RD fp_hi insn v ;; advance pc
  else if GET_PRECISION insn =? PRECISION_D then
    let! rs1 := gets (fun m => u64 (GET_F64_REG insn 15 m)) in
    let! rs2 := gets (fun m => u64 (GET_F64_REG insn 20 m) ^^^ shl 64 neg_b 32) in
    let! v := fp_call (f64_add rs1 rs2) in
    SET_F64_RD insn v ;; advance pc
  else ret uintptr_minus1.

Definition emulate_fadd (insn ms pc : Z) : ST mach Z := emulate_any_fadd insn pc 0.
Definition emulate_fsub (insn ms pc : Z) : ST mach Z := emulate_any_fadd insn pc (u64 INT32_MIN).

Definition emulate_fmul (insn ms pc : Z) : ST mach Z :=
  if GET_PRECISION insn =? PRECISION_S then
    let! rs1 := gets (fun m => u32 (GET_F32_REG insn 15 m)) in
    let! rs2 := gets (fun m => u32 (GET_F32_REG insn 20 m)) in
    let! v := fp_call (f32_mul rs1 rs2) in
    SET_F32_RD fp_hi insn v ;; advance pc
  else if GET_PRECISION insn =? PRECISION_D then
    let! rs1 := gets (fun m => u64 (GET_F64_REG insn 15 m)) in
    let! rs2 := gets (fun m => u64 (GET_F64_REG insn 20 m)) in
    let! v := fp_call (f64_mul rs1 rs2) in
    SET_F64_RD insn v ;; advance pc
  else ret uintptr_minus1.

Definition emulate_fdiv (insn ms pc : Z) : ST mach Z :=
  if GET_PRECISION insn =? PRECISION_S then
    let! rs1 := gets (fun m => u32 (GET_F32_REG insn 15 m)) in
    let! rs2 := gets (fun m => u32 (GET_F32_REG insn 20 m)) in
    let! v := fp_call (f32_div rs1 rs2) in
    SET_F32_RD fp_hi insn v ;; advance pc
  else if GET_PRECISION insn =? PRECISION_D then
    let! rs1 := gets (fun m => u64 (GET_F64_REG insn 15 m)) in
    let! rs2 := gets (fun m => u64 (GET_F64_REG insn 20 m)) in
    let! v := fp_call (f64_div rs1 rs2) in
    SET_F64_RD insn v ;; advance pc
  else ret uintptr_minus1.

Definition emulate_fsqrt (insn ms pc : Z) : ST mach Z :=
  if nz (rs2_num insn) then ret uintptr_minus1
  else if GET_PRECISION insn =? PRECISION_S then
    let! rs1 := gets (fun m => u32 (GET_F32_REG insn 15 m)) in
    let! v := fp_call (f32_sqrt rs1) in
    SET_F32_RD fp_hi insn v ;; advance pc
  else if GET_PRECISION insn =? PRECISION_D then
    let! rs1 := gets (fun m => u64 (GET_F64_REG insn 15 m)) in
    let! v := fp_call (f64_sqrt rs1) in
    SET_F64_RD insn v ;; advance pc
  else ret uintptr_minus1.

Definition emulate_fsgnj (insn ms pc : Z) : ST mach Z :=
  let rm := GET_RM insn in
  if 3 <=? rm then ret uintptr_minus1
  else if GET_PRECISION insn =? PRECISION_S then
    let! rs1 := gets (fun m => u32 (GET_F32_REG insn 15 m)) in
    let! rs2 := gets (fun m => u32 (GET_F32_REG insn 20 m)) in
    SET_F32_RD fp_hi insn (DO_FSGNJ 32 rs1 rs2 rm) ;; advance pc
  else if GET_PRECISION insn =? PRECISION_D then
    let! rs1 := gets (fun m => u64 (GET_F64_REG insn 15 m)) in
    let! rs2 := gets (fun m => u64 (GET_F64_REG insn 20 m)) in
    SET_F64_RD insn (DO_FSGNJ 64 rs1 rs2 rm) ;; advance pc
  else ret uintptr_minus1.

Definition emulate_fmin (insn ms pc : Z) : ST mach Z :=
  let rm := GET_RM insn in
  if 2 <=? rm then ret uintptr_minus1
  else if GET_PRECISION insn =? PRECISION_S then
    let! rs1 := gets (fun m => u32 (GET_F32_REG insn 15 m)) in
    let! rs2 := gets (fun m => u32 (GET_F32_REG insn 20 m)) in
    let arg1 := if nz rm then rs2 else rs1 in
    let arg2 := if nz rm then rs1 else rs2 in
    let! lt := fp_call (f32_lt_quiet arg1 arg2) in
    let use_rs1 := lt || isNaNF32UI rs2 in
    SET_F32_RD fp_hi insn (if use_rs1 then rs1 else rs2) ;; advance pc
  else if GET_PRECISION insn =? PRECISION_D then
    let! rs1 := gets (fun m => u64 (GET_F64_REG insn 15 m)) in
    let! rs2 := gets (fun m => u64 (GET_F64_REG insn 20 m)) in
    let arg1 := if nz rm then rs2 else rs1 in
    let arg2 := if nz rm then rs1 else rs2 in
    let! lt := fp_call (f64_lt_quiet arg1 arg2) in
    let use_rs1 := lt || isNaNF64UI rs2 in
    SET_F64_RD insn (if use_rs1 then rs1 else rs2) ;; advance pc
  else ret uintptr_minus1.

Definition emulate_fcvt_ff (insn ms pc : Z) : ST mach Z :=
  if GET_PRECISION insn =? PRECISION_S then
    if negb (rs2_num insn =? 1) then ret uintptr_minus1
    else
      let! rs1 := gets (fun m => u64 (GET_F64_REG insn 15 m)) in
      let! v := fp_call (f64_to_f32 rs1) in
      SET_F32_RD fp_hi insn v ;; advance pc
  else if GET_PRECISION insn =? PRECISION_D then
    if negb (rs2_num insn =? 0) then ret uintptr_minus1
    else
      let! rs1 := gets (fun m => u32 (GET_F32_REG insn 15 m)) in
      let! v := fp_call (f32_to_f64 rs1) in
      SET_F64_RD insn v ;; advance pc
  else ret uintptr_minus1.

(** The switch of [emulate_fcvt_fi]: sign and magnitude of the source integer.
    [None] is [return -1]; [Some None] the overflow of [-(int32_t)uint_val]. *)
Definition fcvt_fi_source (num uint_val : Z) : option (option (bool * Z)) :=
  if num =? 0 then
    let negative := s32 uint_val <? 0 in
    if negative then
      if s32 uint_val =? INT32_MIN then Some None else Some (Some (true, u64 (- s32 uint_val)))
    else Some (Some (false, u64 (s32 uint_val)))
  else if num =? 1 then Some (Some (false, u32 uint_val))
  else if num =? 2 then
    let negative := s64 uint_val <? 0 in
    Some (Some (negative, if negative then u64 (- uint_val) else uint_val))
  else if num =? 3 then Some (Some (false, uint_val))
  else None.

Definition emulate_fcvt_fi (insn ms pc : Z) : ST mach Z :=
  if negb (GET_PRECISION insn =? PRECISION_S) && negb (GET_PRECISION insn =? PRECISION_D)
  then ret uintptr_minus1
  else
    let! uint_val := gets (GET_RS1 insn) in
    match fcvt_fi_source (rs2_num insn) uint_val with
    | None => ret uintptr_minus1
    | Some None => undef
    | Some (Some (negative, uint_val)) =>
        let! float64 := fp_call (ui64_to_f64 uint_val) in
        let float64 := if negative then float64 ^^^ u64 INT64_MIN else float64 in
        if GET_PRECISION insn =? PRECISION_S then
          let! v := fp_call (f64_to_f32 float64) in
          SET_F32_RD fp_hi insn v ;; advance pc
        else SET_F64_RD insn float64 ;; advance pc
    end.

(** The switch of [emulate_fcvt_if]: (result, limit, limit_result). *)
Definition fcvt_if_result (num : Z) (negative : bool) (uint_val : Z) : Z * Z * Z :=
  if num =? 0 then
    if negative then (u64 (s32 (u64 (- uint_val))), u32 INT32_MIN, u32 INT32_MIN)
    else (u64 (s32 uint_val), 2 ^ 31 - 1, 2 ^ 31 - 1)
  else if num =? 1 then
    if negative then (0, 0, 2 ^ 32 - 1) else (u32 uint_val, 2 ^ 32 - 1, 2 ^ 32 - 1)
  else if num =? 2 then
    if negative then (u64 (- uint_val), u64 INT64_MIN, u64 INT64_MIN)
    else (uint_val, 2 ^ 63 - 1, 2 ^ 63 - 1)
  else
    if negative then (0, 0, 2 ^ 64 - 1) else (uint_val, 2 ^ 64 - 1, 2 ^ 64 - 1).

(** The handler from the sign test on. *)
Definition fcvt_if_finish (insn pc float64 : Z) : ST mach Z :=
  let negative := float64 <? 0 in
  let float64 := if negative then float64 ^^^ INT64_MIN else float64 in
  let! uint_val := fp_call (let% rm := softfloat_roundingMode in f64_to_ui64 (u64 float64) rm true) in
  let '(result, limit, limit_result) := fcvt_if_result (rs2_num insn) negative uint_val in
  let! result :=
    (if limit <? uint_val
     then fp_call (softfloat_raiseFlags softfloat_flag_invalid) ;; ret limit_result
     else ret result) in
  SET_FS_DIRTY ;; SET_RD insn result ;; advance pc.

Definition emulate_fcvt_if (insn ms pc : Z) : ST mach Z :=
  if 4 <=? rs2_num insn then ret uintptr_minus1
  else if GET_PRECISION insn =? PRECISION_S then
    let! rs1 := gets (fun m => u32 (GET_F32_REG insn 15 m)) in
    let! v := fp_call (f32_to_f64 rs1) in
    fcvt_if_finish insn pc (s64 v)
  else if GET_PRECISION insn =? PRECISION_D then
    let! rs1 := gets (GET_F64_REG insn 15) in
    fcvt_if_finish insn pc rs1
  else ret uintptr_minus1.

(** [rm != 1 -> eq]; [rm == 1 || (rm == 0 && !result) -> lt]. *)
Definition fcmp_result (rm : Z) (eq lt : FP bool) : FP bool :=
  if rm =? 1 then lt
  else
    let% result := eq in
    if (rm =? 0) && negb result then lt else fret result.

Definition emulate_fcmp (insn ms pc : Z) : ST mach Z :=
  let rm := GET_RM insn in
  if 3 <=? rm then ret uintptr_minus1
  else if GET_PRECISION insn =? PRECISION_S then
    let! rs1 := gets (fun m => u32 (GET_F32_REG insn 15 m)) in
    let! rs2 := gets (fun m => u32 (GET_F32_REG insn 20 m)) in
    let! result := fp_call (fcmp_result rm (f32_eq rs1 rs2) (f32_lt rs1 rs2)) in
    SET_RD insn (b2z result) ;; advance pc
  else if GET_PRECISION insn =? PRECISION_D then
    let! rs1 := gets (fun m => u64 (GET_F64_REG insn 15 m)) in
    let! rs2 := gets (fun m => u64 (GET_F64_REG insn 20 m)) in
    let! result := fp_call (fcmp_result rm (f64_eq rs1 rs2) (f64_lt rs1 rs2)) in
    SET_RD insn (b2z result) ;; advance pc
  else ret uintptr_minus1.

Definition emulate_fmv_if (insn ms pc : Z) : ST mach Z :=
  if is_insn insn MASK_FMV MATCH_FMV_X_S then
    let! result := gets (GET_F32_REG insn 15) in SET_RD insn result ;; advance pc
  else if is_insn insn MASK_FMV MATCH_FMV_X_D then
    let! result := gets (GET_F64_REG insn 15) in SET_RD insn result ;; advance pc
  else ret uintptr_minus1.

Definition emulate_fmv_fi (insn ms pc : Z) : ST mach Z :=
  let! rs1 := gets (GET_RS1 insn) in
  if is_insn insn MASK_FMV MATCH_FMV_S_X then SET_F32_RD fp_hi insn rs1 ;; advance pc
  else if is_insn insn MASK_FMV MATCH_FMV_D_X then SET_F64_RD insn rs1 ;; advance pc
  else ret uintptr_minus1.

(** [fp_emulation_table], by its word index [((insn >> 25) & 0x7c) / 4]. *)
Definition fp_emulation_table (i : Z) : Z -> Z -> Z -> ST mach Z :=
  if i =? 0 then emulate_fadd
  else if i =? 1 then emulate_fsub
  else if i =? 2 then emulate_fmul
  else if i =? 3 then emulate_fdiv
  else if i =? 4 then emulate_fsgnj
  else if i =? 5 then emulate_fmin
  else if i =? 8 then emulate_fcvt_ff
  else if i =? 11 then emulate_fsqrt
  else if i =? 20 then emulate_fcmp
  else if i =? 24 then emulate_fcvt_if
  else if i =? 26 then emulate_fcvt_fi
  else if i =? 28 then emulate_fmv_if
  else if i =? 30 then emulate_fmv_fi
  else fun _ _ _ => truly_illegal_insn.

Definition emulate_fp (insn ms pc : Z) : ST mach Z :=
  if (ms &&& MSTATUS_FS) =? 0 then ret uintptr_minus1
  else
    let f := fp_emulation_table (((insn >>> 25) &&& 0x7c) / 4) in
    let! ok := SETUP_STATIC_ROUNDING insn in
    if ok : bool then f insn ms pc else ret uintptr_minus1.

(** ** Fused multiply-add *)
Definition emulate_any_fmadd (op insn ms pc : Z) : ST mach Z :=
  if (ms &&& MSTATUS_FS) =? 0 then ret uintptr_minus1
  else
    let! ok := SETUP_STATIC_ROUNDING insn in
    if negb ok then ret uintptr_minus1
    else if GET_PRECISION insn =? PRECISION_S then
      let! rs1 := gets (fun m => u32 (GET_F32_REG insn 15 m)) in
      let! rs2 := gets (fun m => u32 (GET_F32_REG insn 20 m)) in
      let! rs3 := gets (fun m => u32 (GET_F32_REG insn 27 m)) in
      let! v := fp_call (softfloat_mulAddF32 op rs1 rs2 rs3) in
      SET_F32_RD fp_hi insn v ;; advance pc
    else if GET_PRECISION insn =? PRECISION_D then
      let! rs1 := gets (fun m => u64 (GET_F64_REG insn 15 m)) in
      let! rs2 := gets (fun m => u64 (GET_F64_REG insn 20 m)) in
      let! rs3 := gets (fun m => u64 (GET_F64_REG insn 27 m)) in
      let! v := fp_call (softfloat_mulAddF64 op rs1 rs2 rs3) in
      SET_F64_RD insn v ;; advance pc
    else ret uintptr_minus1.

Definition emulate_fmadd (insn ms pc : Z) : ST mach Z := emulate_any_fmadd 0 insn ms pc.
Definition emulate_fmsub (insn ms pc : Z) : ST mach Z :=
  emulate_any_fmadd softfloat_mulAdd_subC insn ms pc.
Definition emulate_fnmadd (insn ms pc : Z) : ST mach Z :=
  emulate_any_fmadd (softfloat_mulAdd_subC ||| softfloat_mulAdd_subProd) insn ms pc.
Definition emulate_fnmsub (insn ms pc : Z) : ST mach Z :=
  emulate_any_fmadd softfloat_mulAdd_subProd insn ms pc.
End EmulationFP.

(** ** Static rounding *)

(** The rounding mode an instruction asks for: its [rm] field, or [frm] for the
    dynamic encoding. *)
Definition eff_rm (insn : Z) (m : mach) : Z :=
  if (insn &&& MASK_FUNCT3) =? MASK_FUNCT3 then frm m else GET_RM insn.

Lemma setup_rounding insn m :
  0 <= eff_rm insn m <= 4 -> SETUP_STATIC_ROUNDING insn m = Ret true (set_tp (eff_rm insn m) m).
Proof.
  unfold eff_rm, SETUP_STATIC_ROUNDING. st_simpl. destruct (_ =? MASK_FUNCT3); intros H; [done|].
  rewrite (proj2 (Z.ltb_ge _ _)) by lia. done.
Qed.

(** The hart after a handler wrote a single (double) result and its flags. *)
Definition wrote_f32 (fp_hi : Z -> Z) (insn v fl : Z) (m : mach) : mach :=
  set_mepc (u64 (mepc m + 4)) (set_mstatus (mstatus m ||| MSTATUS_FS)
    (set_fregs (<[FREG insn 7 := u32 (fp_hi (u32 v)) * 2 ^ 32 + u32 v]> (fregs m)) (set_fflags fl m))).
Definition wrote_f64 (insn v fl : Z) (m : mach) : mach :=
  set_mepc (u64 (mepc m + 4)) (set_mstatus (mstatus m ||| MSTATUS_FS)
    (set_fregs (<[FREG insn 7 := u64 v]> (fregs m)) (set_fflags fl m))).

Lemma fp_call_ok {A} (c : FP A) m a fl : c (tp m) (fflags m) = Some (a, fl) -> fp_call c m = Ret a (set_fflags fl m).
Proof. unfold fp_call. by intros ->. Qed.

Lemma set_f32_advance fp_hi insn v fl m :
  (mstatus m &&& MSTATUS_FS) <> 0 ->
  (SET_F32_RD fp_hi insn v ;; advance (mepc m)) (set_fflags fl m) = Ret 0 (wrote_f32 fp_hi insn v fl m).
Proof.
  intros Hfs. unfold SET_F32_RD, SET_F32_REG. unfold bind at 1 2 3. rewrite fp_access_on by exact Hfs. reflexivity.
Qed.

Lemma set_f64_advance insn v fl m :
  (mstatus m &&& MSTATUS_FS) <> 0 ->
  (SET_F64_RD insn v ;; advance (mepc m)) (set_fflags fl m) = Ret 0 (wrote_f64 insn v fl m).
Proof.
  intros Hfs. unfold SET_F64_RD, SET_F64_REG. unfold bind at 1 2 3. rewrite fp_access_on by exact Hfs. reflexivity.
Qed.

Lemma finish_f32 fp_hi insn c m v fl :
  (mstatus m &&& MSTATUS_FS) <> 0 -> c (tp m) (fflags m) = Some (v, fl) ->
  (let! v := fp_call c in SET_F32_RD fp_hi insn v ;; advance (mepc m)) m = Ret 0 (wrote_f32 fp_hi insn v fl m).
Proof. intros Hfs E. unfold bind at 1. rewrite (fp_call_ok _ _ _ _ E). by apply set_f32_advance. Qed.

Lemma finish_f64 insn c m v fl :
  (mstatus m &&& MSTATUS_FS) <> 0 -> c (tp m) (fflags m) = Some (v, fl) ->
  (let! v := fp_call c in SET_F64_RD insn v ;; advance (mepc m)) m = Ret 0 (wrote_f64 insn v fl m).
Proof. intros Hfs E. unfold bind at 1. rewrite (fp_call_ok _ _ _ _ E). by apply set_f64_advance. Qed.

(** ** Arithmetic *)

Inductive fop := Fadd | Fsub | Fmul | Fdiv.

Definition fop_index (op : fop) : Z := match op with Fadd => 0 | Fsub => 1 | Fmul => 2 | Fdiv => 3 end.
Definition ieee_op (op : fop) : fformat -> Z -> datum -> datum -> Z * Z :=
  match op with Fadd => ieee_add | Fsub => ieee_sub | Fmul => ieee_mul | Fdiv => ieee_div end.

Lemma u32_s32 x : u32 (s32 x) = u32 x.
Proof. by rewrite wrapu_wraps by lia. Qed.

Lemma u64_s64 x : u64 (s64 x) = u64 x.
Proof. by rewrite wrapu_wraps by lia. Qed.

(** The sign flip of [emulate_fsub]. *)
Lemma fsub_flip32 x : u32 (u64 (s32 x) ^^^ u64 INT32_MIN) = u32 x ^^^ 0x80000000.
Proof.
  rewrite wrapu_lxor, !wrapu_wrapu, u32_s32 by lia. done.
Qed.

Lemma fsub_flip64 : shl 64 (u64 INT32_MIN) 32 = 0x8000000000000000.
Proof. reflexivity. Qed.

Section Arith.
Variable fp_hi : Z -> Z.

Lemma emulate_fp_dispatch insn m :
  (mstatus m &&& MSTATUS_FS) <> 0 -> 0 <= eff_rm insn m <= 4 ->
  emulate_fp fp_hi insn (mstatus m) (mepc m) m =
  fp_emulation_table fp_hi (((insn >>> 25) &&& 0x7c) / 4) insn (mstatus m) (mepc m) (set_tp (eff_rm insn m) m).
Proof.
  intros Hfs Hrm. unfold emulate_fp. rewrite (proj2 (Z.eqb_neq _ _) Hfs). unfold bind at 1. by rewrite setup_rounding.
Qed.

Lemma fp_arith_single op insn ms m :
  (mstatus m &&& MSTATUS_FS) <> 0 -> GET_PRECISION insn = PRECISION_S -> 0 <= tp m <= 4 ->
  let R := ieee_op op F32 (tp m) (decode32 (u32 (fregs m !!! FREG insn 15))) (decode32 (u32 (fregs m !!! FREG insn 20))) in
  fp_emulation_table fp_hi (fop_index op) insn ms (mepc m) m = Ret 0 (wrote_f32 fp_hi insn R.1 (fflags m ||| R.2) m).
Proof.
  intros Hfs Hp Hrm. cbv zeta.
  assert (forall x, inu 32 (u32 x)) as U by (intros; apply wrapu_range; lia).
  destruct op; cbn [fop_index fp_emulation_table Z.eqb Pos.eqb ieee_op]; unfold fp_emulation_table; cbn [Z.eqb Pos.eqb];
    unfold emulate_fadd, emulate_fsub, emulate_any_fadd, emulate_fmul, emulate_fdiv; rewrite Hp; cbn [Z.eqb PRECISION_S];
    unfold bind at 1 2, gets, GET_F32_REG; cbv beta iota; rewrite ?fsub_flip32, ?u32_s32.
  - rewrite Z.lxor_0_r, wrapu_wrapu, u32_s32 by lia. by apply finish_f32, f32_add_ieee.
  - unfold ieee_sub. rewrite <- decode32_flip by done. apply finish_f32, f32_add_ieee; auto. by apply flip32.
  - by apply finish_f32, f32_mul_ieee.
  - by apply finish_f32, f32_div_ieee.
Qed.

Lemma fp_arith_double op insn ms m :
  (mstatus m &&& MSTATUS_FS) <> 0 -> GET_PRECISION insn = PRECISION_D -> 0 <= tp m <= 4 ->
  let R := ieee_op op F64 (tp m) (decode64 (u64 (fregs m !!! FREG insn 15))) (decode64 (u64 (fregs m !!! FREG insn 20))) in
  fp_emulation_table fp_hi (fop_index op) insn ms (mepc m) m = Ret 0 (wrote_f64 insn R.1 (fflags m ||| R.2) m).
Proof.
  intros Hfs Hp Hrm. cbv zeta.
  assert (forall x, inu 64 (u64 x)) as U by (intros; apply wrapu_range; lia).
  destruct op; cbn [fop_index fp_emulation_table Z.eqb Pos.eqb ieee_op]; unfold fp_emulation_table; cbn [Z.eqb Pos.eqb];
    unfold emulate_fadd, emulate_fsub, emulate_any_fadd, emulate_fmul, emulate_fdiv; rewrite Hp; cbn [Z.eqb Pos.eqb PRECISION_S PRECISION_D];
    unfold bind at 1 2, gets, GET_F64_REG; cbv beta iota; rewrite ?fsub_flip64, ?u64_s64.
  - change (shl 64 0 32) with 0. rewrite Z.lxor_0_r. by apply finish_f64, f64_add_ieee.
  - unfold ieee_sub. rewrite <- decode64_flip by done. apply finish_f64, f64_add_ieee; auto. by apply flip64.
  - by apply finish_f64, f64_mul_ieee.
  - by apply finish_f64, f64_div_ieee.
Qed.
End Arith.

Section ArithTheorems.
Variable fp_hi : Z -> Z.

(** C1.  With the FPU enabled and a valid rounding mode, an emulated FADD, FSUB,
    FMUL or FDIV, single or double, on any operands writes to [rd] the IEEE 754
    result in the instruction's rounding mode, accrues exactly its exception flags,
    marks the FP state dirty and advances past the instruction. *)
Theorem emulate_fp_arith_ieee op insn m :
  (mstatus m &&& MSTATUS_FS) <> 0 -> 0 <= eff_rm insn m <= 4 ->
  ((insn >>> 25) &&& 0x7c) / 4 = fop_index op ->
  let rs1 := fregs m !!! FREG insn 15 in
  let rs2 := fregs m !!! FREG insn 20 in
  let rm := eff_rm insn m in
  (GET_PRECISION insn = PRECISION_S ->
   let R := ieee_op op F32 rm (decode32 (u32 rs1)) (decode32 (u32 rs2)) in
   emulate_fp fp_hi insn (mstatus m) (mepc m) m =
     Ret 0 (wrote_f32 fp_hi insn R.1 (fflags m ||| R.2) (set_tp rm m))) /\
  (GET_PRECISION insn = PRECISION_D ->
   let R := ieee_op op F64 rm (decode64 (u64 rs1)) (decode64 (u64 rs2)) in
   emulate_fp fp_hi insn (mstatus m) (mepc m) m =
     Ret 0 (wrote_f64 insn R.1 (fflags m ||| R.2) (set_tp rm m))).
Proof.
  intros Hfs Hrm Hop rs1 rs2 rm. rewrite emulate_fp_dispatch, Hop by done.
  split; intros Hp; [exact (fp_arith_single fp_hi op insn _ (set_tp rm m) Hfs Hp Hrm)
                    |exact (fp_arith_double fp_hi op insn _ (set_tp rm m) Hfs Hp Hrm)].
Qed.

(** A floating-point instruction is refused, with no change to registers,
    memory or control state (the scratch register [tp] apart), when the FPU is off,
    when its static rounding mode is reserved, or when no operation has its
    encoding. *)
Theorem emulate_fp_refuses insn m :
  (mstatus m &&& MSTATUS_FS) = 0 \/
  ((insn &&& MASK_FUNCT3) <> MASK_FUNCT3 /\ 4 < GET_RM insn) \/
  (((insn >>> 25) &&& 0x7c) / 4) ∈ [6; 7; 9; 10; 12; 13; 14; 15; 16; 17; 18; 19; 21; 22; 23; 25; 27; 29; 31] ->
  exists t, emulate_fp fp_hi insn (mstatus m) (mepc m) m = Ret uintptr_minus1 (set_tp t m).
Proof.
  intros H. unfold emulate_fp. destruct (Z.eqb_spec (mstatus m &&& MSTATUS_FS) 0).
  { exists (tp m). by destruct m. }
  unfold bind at 1, SETUP_STATIC_ROUNDING. st_simpl. destruct (Z.eqb_spec (insn &&& MASK_FUNCT3) MASK_FUNCT3).
  - destruct H as [|[[? _]|H]]; [done..|]. exists (frm m).
    repeat (apply elem_of_cons in H as [->|H]; [reflexivity|]). by apply elem_of_nil in H.
  - destruct (Z.ltb_spec 4 (GET_RM insn)); [by exists (frm m)|].
    destruct H as [|[[_ ?]|H]]; [done|lia|]. exists (GET_RM insn).
    repeat (apply elem_of_cons in H as [->|H]; [reflexivity|]). by apply elem_of_nil in H.
Qed.
End ArithTheorems.

(** ** Sign injection *)

(** The sign FSGNJ, FSGNJN and FSGNJX give. *)
Definition isa_sgnj (rm : Z) (s1 s2 : bool) : bool :=
  if rm =? 0 then s2 else if rm =? 1 then negb s2 else xorb s1 s2.

Lemma top_bit w x : 0 < w -> inu w x -> x = b2z (2 ^ (w - 1) <=? x) * 2 ^ (w - 1) + x mod 2 ^ (w - 1) /\ x >>> (w - 1) = b2z (2 ^ (w - 1) <=? x).
Proof.
  intros Hw Hx. unfold inu in Hx. pose proof (pow2_pos (w - 1) ltac:(lia)).
  assert (2 ^ w = 2 * 2 ^ (w - 1)) as P by (rewrite <- Z.pow_succ_r by lia; f_equal; lia).
  rewrite Z.shiftr_div_pow2 by lia. pose proof (Z.div_mod x (2 ^ (w - 1)) ltac:(lia)) as D.
  assert (x / 2 ^ (w - 1) = b2z (2 ^ (w - 1) <=? x)) as E; [|rewrite E in D; lia].
  destruct (Z.leb_spec (2 ^ (w - 1)) x); cbn [b2z].
  - symmetry. apply (Z.div_unique _ _ 1 (x - 2 ^ (w - 1))); lia.
  - apply Z.div_small. lia.
Qed.

Lemma do_fsgnj_val w a b rm :
  1 < w -> inu w a -> inu w b -> rm = 0 \/ rm = 1 \/ rm = 2 ->
  DO_FSGNJ w a b rm =
    b2z (isa_sgnj rm (2 ^ (w - 1) <=? a) (2 ^ (w - 1) <=? b)) * 2 ^ (w - 1) + a mod 2 ^ (w - 1).
Proof.
  intros Hw Ha Hb Hrm. destruct (top_bit w a ltac:(lia) Ha) as (Ea & Sa), (top_bit w b ltac:(lia) Hb) as (_ & Sb).
  pose proof (pow2_pos (w - 1) ltac:(lia)).
  assert (2 ^ w = 2 * 2 ^ (w - 1)) as P by (rewrite <- Z.pow_succ_r by lia; f_equal; lia).
  unfold DO_FSGNJ. rewrite Sa, Sb.
  assert (shl w a 1 >>> 1 = a mod 2 ^ (w - 1)) as ->.
  { unfold shl, wrapu. rewrite Z.shiftl_mul_pow2, Z.shiftr_div_pow2, P by lia. change (2 ^ 1) with 2.
    rewrite (Z.mul_comm a), Z.mul_mod_distr_l, Z.mul_comm, Z.div_mul by lia. done. }
  assert (forall k x, x = 0 \/ x = 1 -> shl w (2 * k + x) (w - 1) = x * 2 ^ (w - 1)) as Sh.
  { intros k x Hx. unfold shl, wrapu. rewrite Z.shiftl_mul_pow2 by lia.
    replace ((2 * k + x) * 2 ^ (w - 1)) with (x * 2 ^ (w - 1) + k * 2 ^ w) by lia.
    rewrite Z.mod_add by lia. apply Z.mod_small. lia. }
  set (s := isa_sgnj rm _ _).
  assert (exists k, b2z (2 ^ (w - 1) <=? a) &&& (rm >>> 1) ^^^ (rm ^^^ b2z (2 ^ (w - 1) <=? b)) = 2 * k + b2z s) as [k ->].
  { unfold s. destruct (_ <=? a), (_ <=? b), Hrm as [->|[-> | ->]]; cbn;
      first [by exists 0 | by exists 1]. }
  rewrite Sh by (destruct s; cbn; lia). rewrite <- Z.shiftl_mul_pow2 by lia.
  rewrite lor_disjoint_add; [rewrite Z.shiftl_mul_pow2; lia|lia| |destruct s; cbn; lia].
  apply Z.mod_pos_bound. lia.
Qed.

Lemma funct3_dynamic insn : (insn &&& MASK_FUNCT3) = MASK_FUNCT3 -> GET_RM insn = 7.
Proof.
  unfold MASK_FUNCT3, GET_RM. intros H.
  assert ((insn &&& 0x7000) >>> 12 = 7) as E by by rewrite H.
  by rewrite Z.shiftr_land in E.
Qed.

Lemma eff_rm_static insn m : GET_RM insn <> 7 -> eff_rm insn m = GET_RM insn.
Proof.
  intros H. unfold eff_rm. destruct (Z.eqb_spec (insn &&& MASK_FUNCT3) MASK_FUNCT3) as [E|]; [|done].
  by apply funct3_dynamic in E.
Qed.

Section SgnjMin.
Variable fp_hi : Z -> Z.

(** FSGNJ, FSGNJN and FSGNJX copy the magnitude bits of the first operand
    under the sign of the second, its negation or the product of the two signs,
    raising no flag. *)
Theorem emulate_fsgnj_sign insn m :
  (mstatus m &&& MSTATUS_FS) <> 0 -> ((insn >>> 25) &&& 0x7c) / 4 = 4 ->
  GET_RM insn = 0 \/ GET_RM insn = 1 \/ GET_RM insn = 2 ->
  let rs1 := fregs m !!! FREG insn 15 in
  let rs2 := fregs m !!! FREG insn 20 in
  let sign w := isa_sgnj (GET_RM insn) (2 ^ (w - 1) <=? wrapu w rs1) (2 ^ (w - 1) <=? wrapu w rs2) in
  let r w := b2z (sign w) * 2 ^ (w - 1) + wrapu w rs1 mod 2 ^ (w - 1) in
  (GET_PRECISION insn = PRECISION_S ->
   emulate_fp fp_hi insn (mstatus m) (mepc m) m =
     Ret 0 (wrote_f32 fp_hi insn (r 32) (fflags m) (set_tp (GET_RM insn) m))) /\
  (GET_PRECISION insn = PRECISION_D ->
   emulate_fp fp_hi insn (mstatus m) (mepc m) m =
     Ret 0 (wrote_f64 insn (r 64) (fflags m) (set_tp (GET_RM insn) m))).
Proof.
  intros Hfs Hop Hrm rs1 rs2 sign r.
  assert (eff_rm insn m = GET_RM insn) as Er by (apply eff_rm_static; lia).
  rewrite emulate_fp_dispatch, Hop by (rewrite ?Er; lia || done). rewrite Er.
  unfold fp_emulation_table. cbn [Z.eqb Pos.eqb]. unfold emulate_fsgnj.
  rewrite (proj2 (Z.leb_gt _ _)) by lia.
  split; intros Hp; rewrite Hp; cbn [Z.eqb Pos.eqb PRECISION_S PRECISION_D]; unfold bind at 1 2, gets, GET_F32_REG, GET_F64_REG;
    rewrite ?u32_s32, ?u64_s64.
  - rewrite (do_fsgnj_val 32) by (done || lia || (apply wrapu_range; lia)).
    exact (set_f32_advance fp_hi insn _ (fflags m) (set_tp (GET_RM insn) m) Hfs).
  - rewrite (do_fsgnj_val 64) by (done || lia || (apply wrapu_range; lia)).
    exact (set_f64_advance insn _ (fflags m) (set_tp (GET_RM insn) m) Hfs).
Qed.

Lemma isNaN_nan w fb e f s : 0 < fb -> 0 <= e < 2 ^ (w - 1 - fb) -> 0 <= f < 2 ^ fb -> 0 < w - 1 - fb ->
  let a := b2z s * 2 ^ (w - 1) + e * 2 ^ fb + f in
  ((2 ^ (w - 1 - fb) - 1) * 2 ^ (fb + 1) <? shl w a 1) = (e =? 2 ^ (w - 1 - fb) - 1) && nz f.
Proof.
  intros Hfb He Hf Hw a. pose proof (pow2_pos fb ltac:(lia)) as P1. pose proof (pow2_pos (w - 1 - fb) ltac:(lia)) as P2.
  assert (2 ^ (fb + 1) = 2 * 2 ^ fb) as Q1 by (rewrite Z.pow_add_r by lia; lia).
  assert (2 ^ (w - 1) = 2 ^ (w - 1 - fb) * 2 ^ fb) as Q2 by (rewrite <- Z.pow_add_r by lia; f_equal; lia).
  assert (2 ^ w = 2 * 2 ^ (w - 1)) as Q3 by (rewrite <- Z.pow_succ_r by lia; f_equal; lia).
  assert (shl w a 1 = 2 * (e * 2 ^ fb + f)) as ->.
  { unfold shl, wrapu, a. rewrite Z.shiftl_mul_pow2 by lia. change (2 ^ 1) with 2.
    replace (_ * 2) with (2 * (e * 2 ^ fb + f) + b2z s * 2 ^ w) by lia. rewrite Z.mod_add by lia. apply Z.mod_small. nia. }
  unfold nz. destruct (Z.eqb_spec e (2 ^ (w - 1 - fb) - 1)) as [->|]; cbn [andb].
  - destruct (Z.eqb_spec f 0); cbn [negb]; [apply Z.ltb_ge|apply Z.ltb_lt]; nia.
  - apply Z.ltb_ge. nia.
Qed.

Lemma isNaN_nanF32 a : inu 32 a -> isNaNF32UI a = nanF32 a.
Proof.
  intros Ha. destruct (fields32 a Ha) as (He & Hf & E). unfold isNaNF32UI, nanF32. rewrite E at 1.
  apply (isNaN_nan 32 23); lia.
Qed.

Lemma isNaN_nanF64 a : inu 64 a -> isNaNF64UI a = nanF64 a.
Proof.
  intros Ha. destruct (fields64 a Ha) as (He & Hf & E). unfold isNaNF64UI, nanF64. rewrite E at 1.
  apply (isNaN_nan 64 52); lia.
Qed.

(** What FMIN ([max = false]) and FMAX choose. *)
Definition minmax_choice (isnan : Z -> bool) (val : Z -> Z) (max : bool) (a b r : Z) : Prop :=
  (r = a \/ r = b) /\
  (isnan a = true -> isnan b = false -> r = b) /\
  (isnan b = true -> isnan a = false -> r = a) /\
  (isnan a = false -> isnan b = false -> val r = if max then Z.max (val a) (val b) else Z.min (val a) (val b)).

Lemma minmax_select isnan issig val (max : bool) a b fl c fl' :
  (if max then cmp_spec isnan issig val Z.ltb true b a fl else cmp_spec isnan issig val Z.ltb true a b fl) = (c, fl') ->
  minmax_choice isnan val max a b (if c || isnan b then a else b) /\
  ((isnan a = false -> issig a = false) -> (isnan b = false -> issig b = false) ->
   fl' = Z.lor fl (if issig a || issig b then 16 else 0)).
Proof.
  unfold cmp_spec, minmax_choice. intros H.
  destruct max, (isnan a) eqn:Na, (isnan b) eqn:Nb; cbn [orb andb] in H; injection H as <- <-;
    rewrite ?orb_true_r, ?orb_false_r; (split; [split_and!|]); intros; try done; try tauto.
  all: try (destruct (issig a), (issig b); cbn; rewrite ?Z.lor_0_r; done).
  all: try (repeat match goal with H : ?x = ?x -> _ |- _ => specialize (H eq_refl) end;
            repeat match goal with H : _ = false |- _ => rewrite H end; cbn; by rewrite ?Z.lor_0_r).
  all: match goal with |- context [?x <? ?y] => destruct (Z.ltb_spec x y) end; auto; lia.
Qed.

Lemma sig_nan32 a : inu 32 a -> nanF32 a = false -> softfloat_isSigNaNF32UI a = false.
Proof. intros Ha N. rewrite sig_decode32 by done. unfold decode32, nanF32 in *. destruct (_ =? _); [|done]. by destruct (nz _). Qed.

Lemma sig_nan64 a : inu 64 a -> nanF64 a = false -> softfloat_isSigNaNF64UI a = false.
Proof. intros Ha N. rewrite sig_decode64 by done. unfold decode64, nanF64 in *. destruct (_ =? _); [|done]. by destruct (nz _). Qed.

(** FMIN and FMAX return one of their operands: the smaller (larger) of two
    numbers, the number when the other operand is a NaN; the invalid flag is raised
    exactly when an operand is a signalling NaN. *)
Theorem emulate_fmin_select insn m :
  (mstatus m &&& MSTATUS_FS) <> 0 -> ((insn >>> 25) &&& 0x7c) / 4 = 5 ->
  GET_RM insn = 0 \/ GET_RM insn = 1 ->
  let rs1 := fregs m !!! FREG insn 15 in
  let rs2 := fregs m !!! FREG insn 20 in
  let max := GET_RM insn =? 1 in
  (GET_PRECISION insn = PRECISION_S ->
   exists r, minmax_choice nanF32 val32 max (u32 rs1) (u32 rs2) r /\
     emulate_fp fp_hi insn (mstatus m) (mepc m) m =
       Ret 0 (wrote_f32 fp_hi insn r
         (fflags m ||| if softfloat_isSigNaNF32UI (u32 rs1) || softfloat_isSigNaNF32UI (u32 rs2) then 16 else 0)
         (set_tp (GET_RM insn) m))) /\
  (GET_PRECISION insn = PRECISION_D ->
   exists r, minmax_choice nanF64 val64 max (u64 rs1) (u64 rs2) r /\
     emulate_fp fp_hi insn (mstatus m) (mepc m) m =
       Ret 0 (wrote_f64 insn r
         (fflags m ||| if softfloat_isSigNaNF64UI (u64 rs1) || softfloat_isSigNaNF64UI (u64 rs2) then 16 else 0)
         (set_tp (GET_RM insn) m))).
Proof.
  intros Hfs Hop Hrm rs1 rs2 max.
  assert (eff_rm insn m = GET_RM insn) as Er by (apply eff_rm_static; lia).
  rewrite emulate_fp_dispatch, Hop by (rewrite ?Er; lia || done). rewrite Er.
  unfold fp_emulation_table. cbn [Z.eqb Pos.eqb]. unfold emulate_fmin. rewrite (proj2 (Z.leb_gt _ _)) by lia.
  assert (nz (GET_RM insn) = max) as -> by (unfold max; by destruct Hrm as [-> | ->]).
  split; intros Hp; rewrite Hp; cbn [Z.eqb Pos.eqb PRECISION_S PRECISION_D];
    unfold bind at 1 2, gets, GET_F32_REG, GET_F64_REG; rewrite ?u32_s32, ?u64_s64;
    change (fregs (set_tp (GET_RM insn) m)) with (fregs m); fold rs1 rs2.
  - assert (inu 32 (u32 rs1)) as I1 by (apply wrapu_range; lia). assert (inu 32 (u32 rs2)) as I2 by (apply wrapu_range; lia).
    set (a := u32 rs1) in *. set (b := u32 rs2) in *.
    destruct (if max then cmp_spec nanF32 softfloat_isSigNaNF32UI val32 Z.ltb true b a (fflags m)
              else cmp_spec nanF32 softfloat_isSigNaNF32UI val32 Z.ltb true a b (fflags m)) as [c fl'] eqn:E.
    destruct (minmax_select _ _ _ _ _ _ _ _ _ E) as [Hc Hfl]. rewrite (isNaN_nanF32 b I2).
    exists (if c || nanF32 b then a else b). split; [exact Hc|]. unfold bind at 1. erewrite fp_call_ok; cycle 1.
    { cbn [tp set_tp fflags]. etransitivity; [|exact (f_equal Some E)].
      destruct max; [destruct (f32_compare_spec b a (GET_RM insn) (fflags m) I2 I1) as (_ & _ & _ & _ & L & _)
                    |destruct (f32_compare_spec a b (GET_RM insn) (fflags m) I1 I2) as (_ & _ & _ & _ & L & _)]; exact L. }
    rewrite <- Hfl by auto using sig_nan32. exact (set_f32_advance fp_hi insn _ fl' (set_tp (GET_RM insn) m) Hfs).
  - assert (inu 64 (u64 rs1)) as I1 by (apply wrapu_range; lia). assert (inu 64 (u64 rs2)) as I2 by (apply wrapu_range; lia).
    set (a := u64 rs1) in *. set (b := u64 rs2) in *.
    destruct (if max then cmp_spec nanF64 softfloat_isSigNaNF64UI val64 Z.ltb true b a (fflags m)
              else cmp_spec nanF64 softfloat_isSigNaNF64UI val64 Z.ltb true a b (fflags m)) as [c fl'] eqn:E.
    destruct (minmax_select _ _ _ _ _ _ _ _ _ E) as [Hc Hfl]. rewrite (isNaN_nanF64 b I2).
    exists (if c || nanF64 b then a else b). split; [exact Hc|]. unfold bind at 1. erewrite fp_call_ok; cycle 1.
    { cbn [tp set_tp fflags]. etransitivity; [|exact (f_equal Some E)].
      destruct max; [destruct (f64_compare_spec b a (GET_RM insn) (fflags m) I2 I1) as (_ & _ & _ & _ & L & _)
                    |destruct (f64_compare_spec a b (GET_RM insn) (fflags m) I1 I2) as (_ & _ & _ & _ & L & _)]; exact L. }
    rewrite <- Hfl by auto using sig_nan64. exact (set_f64_advance insn _ fl' (set_tp (GET_RM insn) m) Hfs).
Qed.

(** ** Comparison *)

(** FLE tests equality quietly, then order with the signalling test: together the
    signalling order. *)
Lemma fcmp_result_spec isnan issig val rm a b eq lt rm0 fl :
  rm = 0 \/ rm = 1 \/ rm = 2 ->
  (forall fl, eq rm0 fl = Some (cmp_spec isnan issig val Z.eqb true a b fl)) ->
  (forall fl, lt rm0 fl = Some (cmp_spec isnan issig val Z.ltb false a b fl)) ->
  fcmp_result rm eq lt rm0 fl =
    Some (cmp_spec isnan issig val (if rm =? 0 then Z.leb else if rm =? 1 then Z.ltb else Z.eqb) (rm =? 2) a b fl).
Proof.
  intros Hrm Heq Hlt. unfold fcmp_result, fbind, fret.
  destruct Hrm as [->|[-> | ->]]; cbn [Z.eqb Pos.eqb andb]; [|by rewrite Hlt|].
  - rewrite Heq. unfold cmp_spec. destruct (isnan a || isnan b) eqn:N.
    + cbn [negb]. rewrite Hlt. unfold cmp_spec. rewrite N. cbn [andb].
      destruct (negb _); [done|]. by rewrite <- Z.lor_assoc.
    + destruct (Z.eqb_spec (val a) (val b)) as [V|V]; cbn [negb].
      * rewrite V. by rewrite Z.leb_refl.
      * rewrite Hlt. unfold cmp_spec. rewrite N. f_equal. f_equal. destruct (Z.ltb_spec (val a) (val b)), (Z.leb_spec (val a) (val b)); lia || done.
  - rewrite Heq. by destruct (cmp_spec _ _ _ _ _ _ _ _).
Qed.

(** FEQ, FLT and FLE write 1 or 0 for the relation of the operands' values,
    0 when one is a NaN; FLT and FLE then raise the invalid flag, FEQ only for a
    signalling NaN.  No floating-point register changes. *)
Theorem emulate_fcmp_correct insn m :
  (mstatus m &&& MSTATUS_FS) <> 0 -> ((insn >>> 25) &&& 0x7c) / 4 = 20 ->
  GET_RM insn = 0 \/ GET_RM insn = 1 \/ GET_RM insn = 2 ->
  let rs1 := fregs m !!! FREG insn 15 in
  let rs2 := fregs m !!! FREG insn 20 in
  let rel := if GET_RM insn =? 0 then Z.leb else if GET_RM insn =? 1 then Z.ltb else Z.eqb in
  let done (c : bool * Z) := Ret 0 (set_mepc (u64 (mepc m + 4)) (set_regs (<[GET_REG insn 7 := b2z c.1]> (regs m))
                               (set_fflags c.2 (set_tp (GET_RM insn) m)))) in
  (GET_PRECISION insn = PRECISION_S ->
   emulate_fp fp_hi insn (mstatus m) (mepc m) m =
     done (cmp_spec nanF32 softfloat_isSigNaNF32UI val32 rel (GET_RM insn =? 2) (u32 rs1) (u32 rs2) (fflags m))) /\
  (GET_PRECISION insn = PRECISION_D ->
   emulate_fp fp_hi insn (mstatus m) (mepc m) m =
     done (cmp_spec nanF64 softfloat_isSigNaNF64UI val64 rel (GET_RM insn =? 2) (u64 rs1) (u64 rs2) (fflags m))).
Proof.
  intros Hfs Hop Hrm rs1 rs2 rel fin.
  assert (eff_rm insn m = GET_RM insn) as Er by (apply eff_rm_static; lia).
  rewrite emulate_fp_dispatch, Hop by (rewrite ?Er; lia || done). rewrite Er.
  unfold fp_emulation_table. cbn [Z.eqb Pos.eqb]. unfold emulate_fcmp. rewrite (proj2 (Z.leb_gt _ _)) by lia.
  assert (forall b : bool, u64 (b2z b) = b2z b) as Ub by by intros [].
  split; intros Hp; rewrite Hp; cbn [Z.eqb Pos.eqb PRECISION_S PRECISION_D];
    unfold bind at 1 2, gets, GET_F32_REG, GET_F64_REG; rewrite ?u32_s32, ?u64_s64;
    change (fregs (set_tp (GET_RM insn) m)) with (fregs m); fold rs1 rs2; unfold bind at 1.
  - assert (inu 32 (u32 rs1)) as I1 by (apply wrapu_range; lia). assert (inu 32 (u32 rs2)) as I2 by (apply wrapu_range; lia).
    erewrite fp_call_ok by (rewrite (fcmp_result_spec nanF32 softfloat_isSigNaNF32UI val32 _ (u32 rs1) (u32 rs2)) by
      (done || (intros; by apply f32_compare_spec)); rewrite <- surjective_pairing; reflexivity).
    unfold SET_RD, advance. st_simpl. unfold fin. rewrite Ub. reflexivity.
  - assert (inu 64 (u64 rs1)) as I1 by (apply wrapu_range; lia). assert (inu 64 (u64 rs2)) as I2 by (apply wrapu_range; lia).
    erewrite fp_call_ok by (rewrite (fcmp_result_spec nanF64 softfloat_isSigNaNF64UI val64 _ (u64 rs1) (u64 rs2)) by
      (done || (intros; by apply f64_compare_spec)); rewrite <- surjective_pairing; reflexivity).
    unfold SET_RD, advance. st_simpl. unfold fin. rewrite Ub. reflexivity.
Qed.
End SgnjMin.

(** ** Conversions *)

(** Rounding modes that treat both signs alike. *)
Definition symmetric (rm : Z) : Prop := rm = 0 \/ rm = 1 \/ rm = 4.

Lemma round_q_sign rm s n d : symmetric rm \/ s = false -> round_q rm s n d = round_q rm false n d.
Proof. intros [[->|[-> | ->]]| ->]; done. Qed.

Lemma sign_flip64 x (s : bool) : inu 63 x -> (if s then x ^^^ u64 INT64_MIN else x) = b2z s * 2 ^ 63 + x.
Proof.
  intros Hx. change (u64 INT64_MIN) with (2 ^ 63). destruct s; [|done].
  exact (lxor_top 63 x false ltac:(lia) Hx).
Qed.

(** The magnitude part of a rounding, before the sign is put on. *)
Lemma ref_round_sign rm (s : bool) n d :
  0 <= n -> 0 < d -> symmetric rm \/ s = false ->
  inu 63 (ref_round F64 rm false n d).1 /\
  ref_round F64 rm s n d = (b2z s * 2 ^ 63 + (ref_round F64 rm false n d).1, (ref_round F64 rm false n d).2).
Proof.
  intros Hn Hd Hs. unfold ref_round. cbn [frac_bits exp_max fwidth F64]. cbv zeta.
  set (e := Z.max 0 _). assert (0 <= e) as He by lia. pose proof (pow2_pos e He).
  pose proof (round_q_nonneg rm false n (d * 2 ^ e) Hn ltac:(nia)) as R0.
  rewrite (round_q_sign rm s) by done. set (u := e * 2 ^ 52 + _). assert (0 <= u) by (unfold u; nia).
  assert ((rm =? 1) || (rm =? (if s then 3 else 2)) = (rm =? 1) || (rm =? 2)) as ->.
  { destruct Hs as [[->|[-> | ->]]| ->]; [by destruct s..|done]. }
  change (64 - 1) with 63. destruct (Z.leb_spec (0x7FF * 2 ^ 52) u); cbn [fst snd b2z]; rewrite Z.mul_0_l, Z.add_0_l.
  - split; [|f_equal; lia]. unfold inu. pose proof (b2z_range ((rm =? 1) || (rm =? 2))). lia.
  - split; [unfold inu; lia|done].
Qed.

(** The integer an int-to-float conversion reads. *)
Definition fcvt_value (num x : Z) : Z :=
  if num =? 0 then s32 x else if num =? 1 then u32 x else if num =? 2 then s64 x else x.

Lemma fcvt_fi_source_val num x :
  0 <= num < 4 -> inu 64 x -> (num = 0 -> s32 x <> INT32_MIN) ->
  fcvt_fi_source num x = Some (Some (fcvt_value num x <? 0, Z.abs (fcvt_value num x))).
Proof.
  intros Hn Hx H32. unfold fcvt_fi_source, fcvt_value.
  assert (num = 0 \/ num = 1 \/ num = 2 \/ num = 3) as [->|[->|[-> | ->]]] by lia; cbn [Z.eqb Pos.eqb].
  - pose proof (wraps_range 32 x ltac:(lia)). specialize (H32 eq_refl).
    destruct (Z.ltb_spec (s32 x) 0).
    + rewrite (proj2 (Z.eqb_neq _ _) H32), wrapu_small by (unfold inu; lia). do 3 f_equal. lia.
    + rewrite wrapu_small by (unfold inu; lia). do 3 f_equal. lia.
  - pose proof (wrapu_range 32 x ltac:(lia)) as R. unfold inu in R.
    destruct (Z.ltb_spec (u32 x) 0); [lia|]. do 3 f_equal. lia.
  - unfold inu in Hx. destruct (Z.ltb_spec x (2 ^ 63)).
    + rewrite (wraps_small 64) by lia. destruct (Z.ltb_spec x 0); [lia|]. do 3 f_equal. lia.
    + assert (s64 x = x - 2 ^ 64) as ->.
      { rewrite wraps_of_unsigned by (unfold inu; lia). destruct (Z.ltb_spec x (2 ^ (64 - 1))); lia. }
      rewrite (proj2 (Z.ltb_lt _ _)) by lia. do 3 f_equal. unfold wrapu.
      rewrite (Z.mod_opp_l_nz x) by (rewrite ?Z.mod_small; lia). rewrite Z.mod_small by lia. lia.
  - unfold inu in Hx. destruct (Z.ltb_spec x 0); [lia|]. do 3 f_equal. lia.
Qed.

(** An integer below 2^53 converts to double exactly. *)
Lemma ui64_to_f64_exact a rm fl :
  0 <= rm <= 4 -> 0 <= a < 2 ^ 53 ->
  exists z, ui64_to_f64 a rm fl = Some (z, fl) /\ inu 63 z /\ finite64 z /\ mag64 z = a * 2 ^ 1074.
Proof.
  intros Hrm Ha. destruct (Z.eq_dec a 0) as [->|Hne].
  { exists 0. split; [done|]. split; [vm_decide|]. split; [split; [vm_decide|done]|done]. }
  rewrite ui64_to_f64_spec by lia. set (k := Z.log2 a).
  destruct (Z.log2_spec a ltac:(lia)) as [L1 L2]. fold k in L1, L2. rewrite Z.pow_succ_r in L2 by apply Z.log2_nonneg.
  assert (0 <= k <= 52) as Hk.
  { split; [apply Z.log2_nonneg|]. assert (k < 53); [|lia]. apply Z.log2_lt_pow2; lia. }
  pose proof (pow2_pos (52 - k) ltac:(lia)).
  assert (2 ^ k * 2 ^ (52 - k) = 2 ^ 52) as P by (rewrite <- Z.pow_add_r by lia; f_equal; lia).
  set (m := a * 2 ^ (52 - k)). assert (2 ^ 52 <= m < 2 ^ 53) as Hm by (unfold m; change (2 ^ 53) with (2 * 2 ^ 52); nia).
  assert (a * 2 ^ 1074 = m * 2 ^ (k + 1022)) as En.
  { unfold m. rewrite <- Z.mul_assoc, <- Z.pow_add_r by lia. do 2 f_equal. lia. }
  rewrite (ref_round_exact F64 rm false _ 1 (k + 1022) m); cbn [frac_bits exp_max fwidth F64 fst snd b2z]; try lia.
  rewrite Z.lor_0_r, Z.mul_0_l, Z.add_0_l. eexists. split; [reflexivity|].
  destruct (fields64_pack false (k + 1023) (m - 2 ^ 52)) as (I & S & X & F); [lia|lia|]. cbn [b2z] in *.
  replace (0 * 2 ^ 63 + (k + 1023) * 2 ^ 52 + (m - 2 ^ 52)) with ((k + 1022) * 2 ^ 52 + m) in * by lia.
  split; [unfold inu; lia|]. split; [split; [done|lia]|].
  unfold mag64. rewrite X, F, (proj2 (Z.eqb_neq _ _)) by lia. rewrite En. f_equal; [lia|f_equal; lia].
Qed.

(** The double the handler forms before narrowing, for a small integer. *)
Lemma fcvt_double_exact v rm fl :
  0 <= rm <= 4 -> Z.abs v < 2 ^ 53 ->
  exists z, ui64_to_f64 (Z.abs v) rm fl = Some (z, fl) /\
    let f := if v <? 0 then z ^^^ u64 INT64_MIN else z in
    finite64 f /\ mag64 f = Z.abs v * 2 ^ 1074 /\ signF64UI f = (v <? 0).
Proof.
  intros Hrm Hv. destruct (ui64_to_f64_exact (Z.abs v) rm fl Hrm ltac:(lia)) as (z & E & I63 & [I64 Fz] & M).
  exists z. split; [done|].
  assert (signF64UI z = false) as Sz.
  { destruct (fields64 z I64) as (He & Hf & Ez). unfold inu in I63. destruct (signF64UI z); [cbn [b2z] in Ez; lia|done]. }
  cbv zeta. change (u64 INT64_MIN) with 0x8000000000000000. destruct (flip64 z I64) as (I' & S' & X' & F'). cbv zeta in *.
  destruct (v <? 0); unfold finite64, mag64 in *; rewrite ?S', ?X', ?F', ?Sz; auto.
Qed.

Section Conversions.
Variable fp_hi : Z -> Z.

(** FCVT.D.W[U] and FCVT.D.L[U] write the correctly rounded double of the
    integer and its flags, for every rounding mode when the integer is non-negative
    or below 2^53 in magnitude, for the sign-symmetric modes always; INT32_MIN as a
    W source is excluded. *)
Theorem emulate_fcvt_d_int insn m :
  mach_ok m -> 0 <= insn -> (mstatus m &&& MSTATUS_FS) <> 0 -> 0 <= eff_rm insn m <= 4 ->
  ((insn >>> 25) &&& 0x7c) / 4 = 26 -> GET_PRECISION insn = PRECISION_D -> 0 <= rs2_num insn < 4 ->
  (rs2_num insn = 0 -> s32 (GET_RS1 insn m) <> INT32_MIN) ->
  let v := fcvt_value (rs2_num insn) (GET_RS1 insn m) in
  let rm := eff_rm insn m in
  let R := ref_round F64 rm (v <? 0) (Z.abs v * 2 ^ 1074) 1 in
  0 <= v \/ symmetric rm \/ Z.abs v < 2 ^ 53 ->
  emulate_fp fp_hi insn (mstatus m) (mepc m) m = Ret 0 (wrote_f64 insn R.1 (fflags m ||| R.2) (set_tp rm m)).
Proof.
  intros Hok Hi Hfs Hrm Hop Hp Hnum H32 v rm R Hv. rewrite emulate_fp_dispatch, Hop by done. fold rm.
  unfold fp_emulation_table. cbn [Z.eqb Pos.eqb]. unfold emulate_fcvt_fi. rewrite Hp. cbn [Z.eqb Pos.eqb PRECISION_S PRECISION_D negb andb].
  unfold bind at 1, gets. change (GET_RS1 insn (set_tp rm m)) with (GET_RS1 insn m).
  assert (inu 64 (GET_RS1 insn m)) as Hx by (by apply GET_RS1_range).
  rewrite fcvt_fi_source_val by done. fold v.
  assert (Z.abs v < 2 ^ 64) as Hv64.
  { unfold v, fcvt_value. pose proof (wraps_range 32 (GET_RS1 insn m) ltac:(lia)). pose proof (wraps_range 64 (GET_RS1 insn m) ltac:(lia)).
    pose proof (wrapu_range 32 (GET_RS1 insn m) ltac:(lia)). unfold inu in *. repeat case_match; lia. }
  destruct (decide (Z.abs v < 2 ^ 53)) as [Small|Big].
  - destruct (fcvt_double_exact v rm (fflags m) Hrm Small) as (z & E & Ff & Mf & Sf).
    unfold bind at 1. rewrite (fp_call_ok _ (set_tp rm m) _ _ E). cbv zeta in *.
    set (f := if v <? 0 then _ else z) in *.
    assert (R = (f, 0)) as ->; [|cbn [fst snd]; rewrite Z.lor_0_r;
      exact (set_f64_advance insn f (fflags m) (set_tp rm m) Hfs)].
    unfold R. destruct (Z.eq_dec v 0) as [V0|V0].
    + unfold f in *. rewrite V0 in *. change (0 <? 0) with false in *. cbn [Z.abs] in *. rewrite Z.mul_0_l in *.
      rewrite ref_round_zero by auto. apply pair_equal_spec. split; [|done].
      rewrite (mag64_zero_word z (proj1 Ff) Mf), Sf. done.
    + pose proof (exact_is_ref_round64 f (v * 2 ^ 1074) rm Hrm Ff) as X. pose proof (pow2_pos 1074 ltac:(lia)) as P.
      replace ((v * 2 ^ 1074) <? 0) with (v <? 0) in X by (destruct (Z.ltb_spec v 0), (Z.ltb_spec (v * 2 ^ 1074) 0); nia || done).
      rewrite Z.abs_mul, (Z.abs_eq (2 ^ 1074)) in X by lia. apply X; [|nia].
      unfold val64. rewrite Sf, Mf. destruct (Z.ltb_spec v 0); nia.
  - assert (Hs : symmetric rm \/ (v <? 0) = false) by (destruct Hv as [|[|]]; [right; apply Z.ltb_ge; lia|by left|lia]).
    pose proof (pow2_pos 1074 ltac:(lia)) as P.
    destruct (ref_round_sign rm (v <? 0) (Z.abs v * 2 ^ 1074) 1 ltac:(lia) ltac:(lia) Hs) as [I63 Es].
    unfold bind at 1. erewrite (fp_call_ok _ (set_tp rm m)) by (apply ui64_to_f64_spec; lia || exact Hrm).
    unfold R. rewrite Es, sign_flip64 by done. exact (set_f64_advance insn _ _ (set_tp rm m) Hfs).
Qed.

(** FCVT.S.W[U], and FCVT.S.L[U] on integers below 2^53 in magnitude, write
    the correctly rounded single of the integer and its flags in every rounding
    mode, although the handler goes through the double format; INT32_MIN as a W
    source is excluded. *)
Theorem emulate_fcvt_s_int insn m :
  mach_ok m -> 0 <= insn -> (mstatus m &&& MSTATUS_FS) <> 0 -> 0 <= eff_rm insn m <= 4 ->
  ((insn >>> 25) &&& 0x7c) / 4 = 26 -> GET_PRECISION insn = PRECISION_S -> 0 <= rs2_num insn < 4 ->
  (rs2_num insn = 0 -> s32 (GET_RS1 insn m) <> INT32_MIN) ->
  let v := fcvt_value (rs2_num insn) (GET_RS1 insn m) in
  let rm := eff_rm insn m in
  let R := ref_round F32 rm (v <? 0) (Z.abs v * 2 ^ 149) 1 in
  Z.abs v < 2 ^ 53 ->
  emulate_fp fp_hi insn (mstatus m) (mepc m) m = Ret 0 (wrote_f32 fp_hi insn R.1 (fflags m ||| R.2) (set_tp rm m)).
Proof.
  intros Hok Hi Hfs Hrm Hop Hp Hnum H32 v rm R Hv. rewrite emulate_fp_dispatch, Hop by done. fold rm.
  unfold fp_emulation_table. cbn [Z.eqb Pos.eqb]. unfold emulate_fcvt_fi. rewrite Hp. cbn [Z.eqb Pos.eqb PRECISION_S PRECISION_D negb andb].
  unfold bind at 1, gets. change (GET_RS1 insn (set_tp rm m)) with (GET_RS1 insn m).
  assert (inu 64 (GET_RS1 insn m)) as Hx by (by apply GET_RS1_range).
  rewrite fcvt_fi_source_val by done. fold v.
  destruct (fcvt_double_exact v rm (fflags m) Hrm Hv) as (z & E & Ff & Mf & Sf).
  unfold bind at 1. rewrite (fp_call_ok _ (set_tp rm m) _ _ E). cbv zeta in *. set (f := if v <? 0 then _ else z) in *.
  apply (finish_f32 fp_hi insn (f64_to_f32 f) (set_tp rm m)); [exact Hfs|]. cbn [tp set_tp fflags].
  destruct (Z.eq_dec v 0) as [V0|V0].
  - assert (f = 0) as ->; [rewrite (mag64_zero_word f (proj1 Ff)), Sf by (rewrite Mf, V0; lia); by rewrite V0|].
    unfold R. rewrite V0. change (Z.abs 0 * 2 ^ 149) with 0. change (0 <? 0) with false. rewrite ref_round_zero by auto.
    cbn [fst snd]. by rewrite Z.lor_0_r.
  - pose proof (pow2_pos 1074 ltac:(lia)). pose proof (pow2_pos 925 ltac:(lia)). pose proof (pow2_pos 149 ltac:(lia)).
    rewrite f64_to_f32_spec by (done || nia). rewrite Sf, Mf. unfold R.
    rewrite (ref_round_eq F32 rm _ _ _ (Z.abs v * 2 ^ 149) 1); [done|nia|lia..|]. change (2 ^ 1074) with (2 ^ 149 * 2 ^ 925). lia.
Qed.

(** ** Floating point to integer *)

(** The range of the integer type an FCVT names. *)
Definition fcvt_lo (num : Z) : Z := if num =? 0 then - 2 ^ 31 else if num =? 2 then - 2 ^ 63 else 0.
Definition fcvt_hi (num : Z) : Z :=
  if num =? 0 then 2 ^ 31 - 1 else if num =? 1 then 2 ^ 32 - 1 else if num =? 2 then 2 ^ 63 - 1 else 2 ^ 64 - 1.

(** A double of at least 2^53 is an integer. *)
Lemma large_double_integer a : finite64 a -> 2 ^ 53 * 2 ^ 1074 <= mag64 a -> mag64 a mod 2 ^ 1074 = 0.
Proof.
  intros [Ha Fa] H. destruct (fields64 a Ha) as (He & Hf & _). unfold mag64 in *.
  destruct (Z.eqb_spec (expF64UI a) 0) as [|E0].
  { exfalso. assert (2 ^ 53 * 2 ^ 1074 < 2 ^ 52); [lia|]. pose proof (pow2_pos 52). done. }
  assert (1074 <= expF64UI a - 1) as E.
  { destruct (Z.lt_ge_cases (expF64UI a - 1) 1074) as [L|]; [exfalso|done].
    assert (2 ^ (expF64UI a - 1) <= 2 ^ 1073) as Q by (apply Z.pow_le_mono_r; lia).
    pose proof (pow2_pos (expF64UI a - 1) ltac:(lia)). change (2 ^ 1074) with (2 * 2 ^ 1073) in H. nia. }
  replace (expF64UI a - 1) with (expF64UI a - 1 - 1074 + 1074) by lia.
  rewrite Z.pow_add_r, Z.mul_assoc by lia. apply Z.mod_mul. lia.
Qed.

(** Unfold the sign test on the double as the handler sees it. *)
Lemma fcvt_if_magnitude a :
  finite64 a ->
  let x := s64 a in
  (x <? 0) = signF64UI a /\
  let y := u64 (if x <? 0 then x ^^^ INT64_MIN else x) in
  finite64 y /\ signF64UI y = false /\ mag64 y = mag64 a.
Proof.
  intros [Ha Fa]. destruct (fields64 a Ha) as (He & Hf & E). cbv zeta.
  assert (s64 a = if signF64UI a then a - 2 ^ 64 else a) as ->.
  { rewrite wraps_of_unsigned by (done || lia). change (64 - 1) with 63.
    destruct (signF64UI a); cbn [b2z] in E; [rewrite (proj2 (Z.ltb_ge _ _)) by lia|rewrite (proj2 (Z.ltb_lt _ _)) by lia]; done. }
  assert (((if signF64UI a then a - 2 ^ 64 else a) <? 0) = signF64UI a) as Sg.
  { unfold inu in Ha. destruct (signF64UI a); [apply Z.ltb_lt|apply Z.ltb_ge]; lia. }
  split; [done|]. rewrite Sg. destruct (signF64UI a) eqn:S.
  - assert (u64 (a - 2 ^ 64 ^^^ INT64_MIN) = a ^^^ 0x8000000000000000) as ->.
    { rewrite wrapu_lxor by lia. f_equal. replace (a - 2 ^ 64) with (a + (-1) * 2 ^ 64) by lia.
      rewrite wrapu_shift_period by lia. by apply wrapu_small. }
    destruct (flip64 a Ha) as (I & S' & X & F). cbv zeta in *. unfold finite64, mag64. rewrite S', X, F, S. auto.
  - rewrite wrapu_small by done. unfold finite64. auto.
Qed.

(** The hart after a conversion wrote an integer register. *)
Definition wrote_int (insn v fl : Z) (m : mach) : mach :=
  set_mepc (u64 (mepc m + 4)) (set_regs (<[GET_REG insn 7 := u64 v]> (regs m))
    (set_mstatus (mstatus m ||| MSTATUS_FS) (set_fflags fl m))).

(** The value written and the flags, from the magnitude [q] of the rounded operand
    and its inexactness. *)
Lemma fcvt_if_select num s q ix :
  0 <= num < 4 -> 0 <= q -> (2 ^ 63 <= q -> ix = 0) ->
  let z := signed s q in
  let u := if 2 ^ 64 - 1 <? q then (2 ^ 64 - 1, 16) else (q, ix) in
  num = 2 \/ fcvt_lo num <= z <= fcvt_hi num ->
  let '(result, limit, limit_result) := fcvt_if_result num s u.1 in
  let R := if z <? fcvt_lo num then (fcvt_lo num, 16) else if fcvt_hi num <? z then (fcvt_hi num, 16) else (z, ix) in
  if limit <? u.1 then u64 limit_result = u64 R.1 /\ u.2 ||| 16 = R.2 else u64 result = u64 R.1 /\ u.2 = R.2.
Proof.
  intros Hn Hq Hix z u Hr. unfold u, z, fcvt_if_result, fcvt_lo, fcvt_hi, signed in *. clear u z.
  assert (num = 0 \/ num = 1 \/ num = 2 \/ num = 3) as [->|[->|[-> | ->]]] by lia; cbn [Z.eqb Pos.eqb] in *.
  - destruct Hr as [|Hr]; [lia|]. destruct s; rewrite (proj2 (Z.ltb_ge (2 ^ 64 - 1) q)) by lia; cbn [fst snd].
    + change (u32 INT32_MIN) with (2 ^ 31). rewrite !(proj2 (Z.ltb_ge _ _)) by lia. split; [|done]. cbn [fst].
      rewrite wrapu_wrapu by lia. rewrite <- (wraps_wrapu 32), wrapu_wrapu, wraps_wrapu by lia. by rewrite wraps_small by lia.
    + rewrite !(proj2 (Z.ltb_ge _ _)) by lia. split; [|done]. cbn [fst]. rewrite wrapu_wrapu by lia. by rewrite wraps_small by lia.
  - destruct Hr as [|Hr]; [lia|]. destruct s; rewrite (proj2 (Z.ltb_ge (2 ^ 64 - 1) q)) by lia; cbn [fst snd];
      rewrite !(proj2 (Z.ltb_ge _ _)) by lia; (split; [|done]); cbn [fst]; [by replace q with 0 by lia|].
    by rewrite (wrapu_small 32) by (unfold inu; lia).
  - destruct s; cbn [fst snd].
    + change (u64 INT64_MIN) with (2 ^ 63). rewrite (proj2 (Z.ltb_ge (2 ^ 63 - 1) (- q))) by lia.
      destruct (Z.ltb_spec (2 ^ 64 - 1) q); cbn [fst snd].
      * rewrite (proj2 (Z.ltb_lt (- q) _)) by lia. done.
      * destruct (Z.ltb_spec (2 ^ 63) q).
        -- rewrite (proj2 (Z.ltb_lt (- q) _)), Hix by lia. done.
        -- rewrite (proj2 (Z.ltb_ge _ _)) by lia. cbn [fst snd]. by rewrite wrapu_idem by lia.
    + rewrite (proj2 (Z.ltb_ge q (- 2 ^ 63))) by lia.
      destruct (Z.ltb_spec (2 ^ 64 - 1) q); cbn [fst snd].
      * rewrite (proj2 (Z.ltb_lt (2 ^ 63 - 1) q)) by lia. done.
      * destruct (Z.ltb_spec (2 ^ 63 - 1) q); cbn [fst snd]; [|done]. rewrite Hix by lia. done.
  - destruct Hr as [|Hr]; [lia|]. destruct s; rewrite (proj2 (Z.ltb_ge (2 ^ 64 - 1) q)) by lia; cbn [fst snd];
      rewrite !(proj2 (Z.ltb_ge _ _)) by lia; (split; [|done]); cbn [fst]; [by replace q with 0 by lia|done].
Qed.

Lemma fcvt_if_finish_spec insn m a :
  finite64 a -> 0 <= tp m <= 4 -> 0 <= rs2_num insn < 4 -> symmetric (tp m) \/ signF64UI a = false ->
  let num := rs2_num insn in
  let z := signed (signF64UI a) (round_q (tp m) (signF64UI a) (mag64 a) (2 ^ 1074)) in
  let R := ref_to_int (fcvt_lo num) (fcvt_hi num) (tp m) (signF64UI a) true (mag64 a) (2 ^ 1074) in
  num = 2 \/ fcvt_lo num <= z <= fcvt_hi num ->
  fcvt_if_finish insn (mepc m) (s64 a) m = Ret 0 (wrote_int insn R.1 (fflags m ||| R.2) m).
Proof.
  intros Fa Hrm Hn Hs num z R Hz. destruct (fcvt_if_magnitude a Fa) as (Sg & Fy & Sy & My). cbv zeta in Fy, Sy, My.
  unfold fcvt_if_finish. set (y := if s64 a <? 0 then _ else _) in *. rewrite Sg.
  unfold bind at 1. erewrite fp_call_ok; cycle 1.
  { unfold fbind, softfloat_roundingMode. apply f64_to_ui64_spec; done. }
  cbv zeta. rewrite Sy, My. unfold ref_to_uint. cbn [andb orb].
  fold num. set (q := round_q (tp m) false (mag64 a) (2 ^ 1074)).
  assert (z = signed (signF64UI a) q) as Ez by (unfold z; by rewrite (round_q_sign (tp m))). clearbody z. subst z.
  set (ix := b2z (nz (mag64 a mod 2 ^ 1074))) in *.
  pose proof (pow2_pos 1074 ltac:(lia)) as P. pose proof (mag64_nonneg a (proj1 Fa)) as M0.
  assert (0 <= q) as Q0 by (by apply round_q_nonneg).
  assert (2 ^ 63 <= q -> ix = 0) as Hix.
  { intros Hq. pose proof (round_q_bounds (tp m) false (mag64 a) (2 ^ 1074) M0 P) as B. fold q in B.
    pose proof (Z.mul_div_le (mag64 a) (2 ^ 1074) P).
    unfold ix. rewrite (large_double_integer a Fa); [done|]. nia. }
  assert (R = let z := signed (signF64UI a) q in
    if z <? fcvt_lo num then (fcvt_lo num, 16) else if fcvt_hi num <? z then (fcvt_hi num, 16) else (z, ix)) as ER.
  { unfold R, ref_to_int. rewrite (round_q_sign (tp m)) by done. done. }
  pose proof (fcvt_if_select num (signF64UI a) q ix Hn Q0 Hix Hz) as S. cbv zeta in S, ER. rewrite <- ER in S.
  set (u := if 2 ^ 64 - 1 <? q then _ else _) in *.
  destruct (fcvt_if_result num (signF64UI a) u.1) as [[result limit] limit_result].
  unfold wrote_int, advance, SET_RD, SET_FS_DIRTY, fp_call, softfloat_raiseFlags, softfloat_flag_invalid. st_simpl.
  destruct (limit <? u.1); destruct S as [S1 S2]; st_simpl; rewrite <- S1, <- S2, ?Z.lor_assoc; reflexivity.
Qed.

(** FCVT.W[U] and FCVT.L[U] from single or double write the operand rounded to
    an integer, with the inexact flag exactly when it is not one, whenever the
    rounded value fits the type; FCVT.L also saturates and raises the invalid flag
    alone when it does not fit.  This holds for finite operands, in the
    sign-symmetric rounding modes, and in all modes for non-negative operands. *)
Theorem emulate_fcvt_int_correct insn m :
  (mstatus m &&& MSTATUS_FS) <> 0 -> 0 <= eff_rm insn m <= 4 ->
  ((insn >>> 25) &&& 0x7c) / 4 = 24 -> 0 <= rs2_num insn < 4 ->
  let rs1 := fregs m !!! FREG insn 15 in
  let rm := eff_rm insn m in
  let num := rs2_num insn in
  let ok s n d := (symmetric rm \/ s = false) /\
    (num = 2 \/ fcvt_lo num <= signed s (round_q rm s n d) <= fcvt_hi num) in
  let R s n d := ref_to_int (fcvt_lo num) (fcvt_hi num) rm s true n d in
  (GET_PRECISION insn = PRECISION_S -> finite32 (u32 rs1) ->
   let s := signF32UI (u32 rs1) in let n := mag32 (u32 rs1) in
   ok s n (2 ^ 149) ->
   emulate_fp fp_hi insn (mstatus m) (mepc m) m =
     Ret 0 (wrote_int insn (R s n (2 ^ 149)).1 (fflags m ||| (R s n (2 ^ 149)).2) (set_tp rm m))) /\
  (GET_PRECISION insn = PRECISION_D -> finite64 (u64 rs1) ->
   let s := signF64UI (u64 rs1) in let n := mag64 (u64 rs1) in
   ok s n (2 ^ 1074) ->
   emulate_fp fp_hi insn (mstatus m) (mepc m) m =
     Ret 0 (wrote_int insn (R s n (2 ^ 1074)).1 (fflags m ||| (R s n (2 ^ 1074)).2) (set_tp rm m))).
Proof.
  intros Hfs Hrm Hop Hn rs1 rm num ok R. rewrite emulate_fp_dispatch, Hop by done. fold rm.
  unfold fp_emulation_table. cbn [Z.eqb Pos.eqb]. unfold emulate_fcvt_if. rewrite (proj2 (Z.leb_gt _ _)) by lia.
  split; intros Hp Fa [Hs Hz]; rewrite Hp; cbn [Z.eqb Pos.eqb PRECISION_S PRECISION_D];
    unfold bind at 1, gets, GET_F32_REG, GET_F64_REG; rewrite ?u32_s32;
    change (fregs (set_tp rm m)) with (fregs m); fold rs1.
  - set (s := signF32UI (u32 rs1)) in *. set (n := mag32 (u32 rs1)) in *.
    destruct (f32_to_f64_spec (u32 rs1) rm (fflags m) Fa) as (z & E & Fz & Sz & Mz).
    unfold bind at 1. rewrite (fp_call_ok _ (set_tp rm m) _ _ E).
    assert (same_rounding (mag64 z) (2 ^ 1074) n (2 ^ 149)) as SR.
    { apply same_rounding_eq; try (apply pow2_pos; lia). rewrite Mz. fold n. change (2 ^ 1074) with (2 ^ 149 * 2 ^ 925). lia. }
    change (set_fflags (fflags m) (set_tp rm m)) with (set_tp rm m).
    etransitivity; [apply (fcvt_if_finish_spec insn (set_tp rm m) z)|]; auto; cbn [tp set_tp fflags]; rewrite ?Sz; auto.
    + fold num s. by rewrite (round_q_same _ _ _ _ _ _ SR).
    + fold num s. by rewrite (ref_to_int_same _ _ rm s true _ _ _ _ SR).
  - rewrite <- (wraps_wrapu 64) by lia.
    apply (fcvt_if_finish_spec insn (set_tp rm m) (u64 rs1)); auto.
Qed.
End Conversions.

(** ** Moves *)

Section Moves.
Variable fp_hi : Z -> Z.

Lemma FREG_GET_REG insn pos : FREG insn pos = GET_REG insn pos.
Proof. reflexivity. Qed.

(** Moving an integer register to a floating-point register and back gives the
    register's value: all 64 bits through FMV.D.X / FMV.X.D, the low 32 bits
    sign-extended through FMV.S.X / FMV.X.S whatever the FPU keeps in the upper
    half.  Neither raises a flag. *)
Theorem fmv_roundtrip ms ms' pc pc' i1 i2 m m1 (single : bool) :
  mach_ok m -> (mstatus m &&& MSTATUS_FS) <> 0 -> 0 <= i1 -> 0 <= i2 -> GET_REG i2 15 = GET_REG i1 7 ->
  is_insn i1 MASK_FMV (if single then MATCH_FMV_S_X else MATCH_FMV_D_X) = true ->
  is_insn i2 MASK_FMV (if single then MATCH_FMV_X_S else MATCH_FMV_X_D) = true ->
  emulate_fmv_fi fp_hi i1 ms pc m = Ret 0 m1 ->
  exists m2, emulate_fmv_if i2 ms' pc' m1 = Ret 0 m2 /\ fflags m2 = fflags m /\
    regs m2 = <[GET_REG i2 7 := if single then u64 (s32 (GET_RS1 i1 m)) else GET_RS1 i1 m]> (regs m).
Proof.
  intros Hok Hfs H1 H2 Hr I1 I2. assert (length (fregs m) = 32%nat) as L by apply Hok.
  assert (GET_REG i1 7 < 32)%nat as Lt by (apply GET_REG_lt; lia).
  assert (inu 64 (GET_RS1 i1 m)) as Hx by by apply GET_RS1_range.
  unfold emulate_fmv_fi, emulate_fmv_if. st_simpl. destruct single.
  - rewrite I1, I2. unfold SET_F32_RD, SET_F32_REG, SET_FS_DIRTY, advance, GET_F32_REG, SET_RD. st_simpl.
    rewrite fp_access_on by done. intros [= <-].
    eexists. split; [reflexivity|]. split; [done|]. mach_simpl. rewrite (FREG_GET_REG i2 15), (FREG_GET_REG i1 7), Hr.
    rewrite list_lookup_total_insert_eq by lia. f_equal. f_equal.
    rewrite <- (wraps_wrapu 32) by lia. rewrite (Z.add_comm _ (u32 _)), wrapu_shift_period, wrapu_idem, wraps_wrapu by lia. done.
  - assert (is_insn i1 MASK_FMV MATCH_FMV_S_X = false) as N1.
    { apply Z.eqb_eq in I1. unfold is_insn. by rewrite I1. }
    assert (is_insn i2 MASK_FMV MATCH_FMV_X_S = false) as N2.
    { apply Z.eqb_eq in I2. unfold is_insn. by rewrite I2. }
    rewrite N1, N2, I1, I2. unfold SET_F64_RD, SET_F64_REG, SET_FS_DIRTY, advance, GET_F64_REG, SET_RD. st_simpl.
    rewrite fp_access_on by done. intros [= <-].
    eexists. split; [reflexivity|]. split; [done|]. mach_simpl. rewrite (FREG_GET_REG i2 15), (FREG_GET_REG i1 7), Hr.
    rewrite list_lookup_total_insert_eq by lia. f_equal. rewrite wrapu_wraps, wrapu_idem by lia. by apply wrapu_small.
Qed.
End Moves.

(** ** Where the handlers deviate from the instruction set *)

Section Deviations.
Variable fp_hi : Z -> Z.

Lemma mulAddF32_op3 a b c : softfloat_mulAddF32 3 a b c = softfloat_mulAddF32 0 a b c.
Proof. reflexivity. Qed.

(** FNMADD.S computes what FMADD.S does: the operation code 3 passed for it
    matches neither of the equality tests of [softfloat_mulAddF32], so neither the
    product nor the addend is negated. *)
Theorem emulate_fnmadd_s_is_fmadd_s insn ms pc m :
  GET_PRECISION insn = PRECISION_S ->
  emulate_fnmadd fp_hi insn ms pc m = emulate_fmadd fp_hi insn ms pc m.
Proof.
  intros Hp. unfold emulate_fnmadd, emulate_fmadd, emulate_any_fmadd.
  change (softfloat_mulAdd_subC ||| softfloat_mulAdd_subProd) with 3. rewrite Hp. cbn [Z.eqb PRECISION_S].
  reflexivity.
Qed.

(** When the product is a zero and the addend finite and nonzero, the fused
    multiply-add of doubles returns the addend itself whatever the operation code,
    so FMSUB.D of 0*x - c gives c. *)
Theorem mulAddF64_zero_product op a b c rm fl :
  finite64 a -> finite64 b -> finite64 c -> mag64 a = 0 -> mag64 c <> 0 ->
  softfloat_mulAddF64 op a b c rm fl = Some (c, fl).
Proof.
  intros [Ha Fa] [Hb Fb] [Hc Fc] Ma Mc. unfold softfloat_mulAddF64. cbv zeta.
  rewrite !(proj2 (Z.eqb_neq _ _)) by done. rewrite mag64_zero, Ma, mag64_zero_lor by done. cbn [Z.eqb].
  by rewrite (proj2 (Z.eqb_neq _ _) Mc).
Qed.
End Deviations.

(** ** Concrete runs *)

(** A hart with [x1], [f1], [f2] and [f3] given and the FPU on. *)
Definition fp_demo (x1 f1 f2 f3 : Z) : mach :=
  Mach ([0; x1] ++ replicate 30 0) ([0; f1; f2; f3] ++ replicate 28 0)
    (MSTATUS_PRV ||| MSTATUS_FS) 0x100 2 0 0 0 ∅.

(** Encoding with [rd = 4]. *)
Definition fp_insn (funct5 fmt rs2 rm : Z) : Z :=
  (funct5 <<< 27) ||| (fmt <<< 25) ||| (rs2 <<< 20) ||| (1 <<< 15) ||| (rm <<< 12) ||| (4 <<< 7) ||| 0x53.

Lemma fp_demo_ok x1 f1 f2 f3 : inu 64 x1 -> mach_ok (fp_demo x1 f1 f2 f3).
Proof.
  intros. constructor; try reflexivity.
  - cbn. repeat constructor; unfold inu in *; lia.
  - vm_decide.
  - vm_decide.
Qed.

(** What a handler left: the integer and the floating-point destination, the flags
    and the resume address. *)
Definition fp_seen (r : outcome mach Z) : option (Z * Z * Z * Z * Z) :=
  match r with
  | Ret z m => Some (z, regs m !!! 4%nat, fregs m !!! 4%nat, fflags m, mepc m)
  | _ => None
  end.

(** Conversions round a negative operand as if it were positive and do not
    sign-extend 32-bit results: FCVT.W.D of -1.5 rounding down gives -1, FCVT.D.L of
    -(2^53+1) rounding down gives -2^53, FCVT.S.L of 2^62+2^38+1 is rounded twice,
    FCVT.W.D of -3e9 gives 0x80000000 and FCVT.WU.D of 3e9 gives 0xb2d05e00, both
    zero-extended; FCVT.D.W of INT32_MIN overflows a signed negation. *)
Theorem emulate_fcvt_deviations :
  let run insn m := fp_seen (emulate_fp (fun _ => 0) insn (mstatus m) (mepc m) m) in
  run (fp_insn 24 1 0 2) (fp_demo 0 0xBFF8000000000000 0 0) = Some (0, 2 ^ 64 - 1, 0, 1, 0x104) /\
  run (fp_insn 26 1 2 2) (fp_demo (u64 (- (2 ^ 53 + 1))) 0 0 0) = Some (0, 0, 0xC340000000000000, 1, 0x104) /\
  run (fp_insn 26 0 2 0) (fp_demo (2 ^ 62 + 2 ^ 38 + 1) 0 0 0) = Some (0, 0, 0x5E800000, 1, 0x104) /\
  ref_round F32 0 false ((2 ^ 62 + 2 ^ 38 + 1) * 2 ^ 149) 1 = (0x5E800001, 1) /\
  run (fp_insn 24 1 0 1) (fp_demo 0 0xC1E65A0BC0000000 0 0) = Some (0, 0x80000000, 0, 16, 0x104) /\
  run (fp_insn 24 1 1 1) (fp_demo 0 0x41E65A0BC0000000 0 0) = Some (0, 0xb2d05e00, 0, 0, 0x104) /\
  emulate_fp (fun _ => 0) (fp_insn 26 1 0 0) (MSTATUS_PRV ||| MSTATUS_FS) 0x100 (fp_demo (u64 (- 2 ^ 31)) 0 0 0) = Undef.
Proof. vm_compute. repeat split; reflexivity. Qed.

Lemma emulate_fp_arith_ieee_witness :
  let m := fp_demo 0 0x3FF0000000000000 0x4000000000000000 0 in
  emulate_fp (fun _ => 0) (fp_insn 1 1 2 0) (mstatus m) (mepc m) m =
    Ret 0 (wrote_f64 (fp_insn 1 1 2 0) 0xBFF0000000000000 0 (set_tp 0 m)).
Proof.
  destruct (emulate_fp_arith_ieee (fun _ => 0) Fsub (fp_insn 1 1 2 0)
    (fp_demo 0 0x3FF0000000000000 0x4000000000000000 0)) as [_ H]; [vm_decide|vm_decide|vm_decide|].
  vm_cast_no_check (H eq_refl).
Defined.

Lemma emulate_fp_refuses_witness :
  exists t, emulate_fp (fun _ => 0) (fp_insn 0 0 2 5) (MSTATUS_PRV ||| MSTATUS_FS) 0x100 (fp_demo 0 0 0 0)
    = Ret uintptr_minus1 (set_tp t (fp_demo 0 0 0 0)).
Proof.
  apply (emulate_fp_refuses (fun _ => 0) (fp_insn 0 0 2 5) (fp_demo 0 0 0 0)). right; left. vm_decide.
Defined.

Lemma emulate_fsgnj_sign_witness :
  let m := fp_demo 0 0x3F800000 0xC0000000 0 in
  emulate_fp (fun _ => 0) (fp_insn 4 0 2 0) (mstatus m) (mepc m) m =
    Ret 0 (wrote_f32 (fun _ => 0) (fp_insn 4 0 2 0) 0xBF800000 0 (set_tp 0 m)).
Proof.
  destruct (emulate_fsgnj_sign (fun _ => 0) (fp_insn 4 0 2 0) (fp_demo 0 0x3F800000 0xC0000000 0)) as [H _];
    [vm_decide|vm_decide|left; vm_decide|]. vm_cast_no_check (H eq_refl).
Defined.

Lemma emulate_fmin_select_witness :
  exists r, minmax_choice nanF32 val32 true 0x3F800000 0xC0000000 r /\
    let m := fp_demo 0 0x3F800000 0xC0000000 0 in
    emulate_fp (fun _ => 0) (fp_insn 5 0 2 1) (mstatus m) (mepc m) m =
      Ret 0 (wrote_f32 (fun _ => 0) (fp_insn 5 0 2 1) r 0 (set_tp 1 m)).
Proof.
  destruct (emulate_fmin_select (fun _ => 0) (fp_insn 5 0 2 1) (fp_demo 0 0x3F800000 0xC0000000 0)) as [H _];
    [vm_decide|vm_decide|right; vm_decide|]. exact (H eq_refl).
Defined.

Lemma emulate_fcmp_correct_witness :
  let m := fp_demo 0 0x3F800000 0x7FC00000 0 in
  fp_seen (emulate_fp (fun _ => 0) (fp_insn 20 0 2 1) (mstatus m) (mepc m) m) = Some (0, 0, 0, 16, 0x104).
Proof.
  destruct (emulate_fcmp_correct (fun _ => 0) (fp_insn 20 0 2 1) (fp_demo 0 0x3F800000 0x7FC00000 0)) as [H _];
    [vm_decide|vm_decide|right; left; vm_decide|]. cbv zeta. etransitivity; [exact (f_equal fp_seen (H eq_refl))|vm_compute; reflexivity].
Defined.

Lemma emulate_fcvt_d_int_witness :
  let m := fp_demo (u64 (-3)) 0 0 0 in
  fp_seen (emulate_fp (fun _ => 0) (fp_insn 26 1 0 2) (mstatus m) (mepc m) m) = Some (0, 0, 0xC008000000000000, 0, 0x104).
Proof.
  cbv zeta. rewrite (emulate_fcvt_d_int (fun _ => 0) (fp_insn 26 1 0 2) (fp_demo (u64 (-3)) 0 0 0));
    [vm_compute; reflexivity|apply fp_demo_ok; vm_decide|vm_decide..|intros _; vm_decide|right; right; vm_decide].
Defined.

Lemma emulate_fcvt_s_int_witness :
  let m := fp_demo (2 ^ 24 + 1) 0 0 0 in
  fp_seen (emulate_fp (fun _ => 0) (fp_insn 26 0 3 0) (mstatus m) (mepc m) m) = Some (0, 0, 0x4B800000, 1, 0x104).
Proof.
  cbv zeta. rewrite (emulate_fcvt_s_int (fun _ => 0) (fp_insn 26 0 3 0) (fp_demo (2 ^ 24 + 1) 0 0 0));
    [vm_compute; reflexivity|apply fp_demo_ok; vm_decide|vm_decide..|intros E; vm_compute in E; discriminate|vm_decide].
Defined.

Lemma emulate_fcvt_int_correct_witness :
  let m := fp_demo 0 0xBFF8000000000000 0 0 in
  fp_seen (emulate_fp (fun _ => 0) (fp_insn 24 1 2 0) (mstatus m) (mepc m) m) = Some (0, u64 (-2), 0, 1, 0x104).
Proof.
  destruct (emulate_fcvt_int_correct (fun _ => 0) (fp_insn 24 1 2 0) (fp_demo 0 0xBFF8000000000000 0 0)) as [_ H]; [vm_decide..|].
  cbv zeta. rewrite (H eq_refl); [vm_compute; reflexivity|apply finite64_by; [vm_decide|reflexivity]|].
  split; [left; left; vm_decide|left; vm_decide].
Defined.

Lemma fmv_roundtrip_witness :
  exists m2, emulate_fmv_if 0xE2020153 0 0 (wrote_f64 0xF2008253 7 0 (fp_demo 7 0 0 0)) = Ret 0 m2 /\
    regs m2 = <[2%nat := 7]> (regs (fp_demo 7 0 0 0)).
Proof.
  destruct (fmv_roundtrip (fun _ => 0) 0 0 0x100 0 0xF2008253 0xE2020153 (fp_demo 7 0 0 0)
    (wrote_f64 0xF2008253 7 0 (fp_demo 7 0 0 0)) false) as (m2 & E & _ & R);
    [apply fp_demo_ok; vm_decide|vm_decide|vm_decide|vm_decide|reflexivity..|].
  exists m2. split; [exact E|exact R].
Defined.

Lemma emulate_fnmadd_s_is_fmadd_s_witness :
  let insn := 0x18208253 in
  let m := fp_demo 0 0x3F800000 0x40200000 0x3F800000 in
  fp_seen (emulate_fnmadd (fun _ => 0) insn (mstatus m) (mepc m) m) = Some (0, 0, 0x40600000, 0, 0x104).
Proof.
  cbv zeta. rewrite (emulate_fnmadd_s_is_fmadd_s (fun _ => 0) 0x18208253); vm_decide || reflexivity.
Defined.

Lemma mulAddF64_zero_product_witness :
  softfloat_mulAddF64 softfloat_mulAdd_subC 0 0x3FF0000000000000 0x4000000000000000 0 0 = Some (0x4000000000000000, 0).
Proof.
  apply mulAddF64_zero_product; try (apply finite64_by; [vm_decide|reflexivity]); vm_decide.
Defined.
