(* ===== verification/Trap.v ===== *)
(** * Illegal-instruction traps ([bbl/mtrap.c])

    [illegal_insn_trap] fetches the trapping instruction and dispatches on its major
    opcode to the emulation routines.  The theorems say that a trap is either
    completed or handed to the supervisor with the interrupted state untouched, and
    what happens when the FPU is off. *)

From Stdlib Require Import ZArith Lia Bool List String.
From stdpp Require Import base gmap list.
From S2P Require Import Prelude Machine Emulation SFPrim SFRound SFConv SFArith SFSpec SFConvSpec EmulationFP.
Open Scope Z_scope.
Open Scope word_scope.

Section Trap.
Variable ranges : list (Z * Z).
Variable site : Z * Z.
Variable fp_hi : Z -> Z.

(** [illegal_insn_trap_table], by its word index [(insn & 0x7c) / 4]. *)
Definition illegal_insn_trap_table (i : Z) : Z -> Z -> Z -> Z -> ST mach Z :=
  if i =? 1 then emulate_float_load ranges site fp_hi
  else if i =? 9 then emulate_float_store ranges site
  else if i =? 12 then fun _ insn _ pc => emulate_mul_div insn pc
  else if i =? 14 then fun _ insn _ pc => emulate_mul_div32 insn pc
  else if i =? 16 then fun _ => emulate_fmadd fp_hi
  else if i =? 17 then fun _ => emulate_fmsub fp_hi
  else if i =? 18 then fun _ => emulate_fnmsub fp_hi
  else if i =? 19 then fun _ => emulate_fnmadd fp_hi
  else if i =? 20 then fun _ => emulate_fp fp_hi
  else if i =? 28 then fun _ => emulate_system
  else fun _ _ _ _ => truly_illegal_insn.

Definition illegal_insn_trap (cause : Z) : ST mach Z :=
  let! ms := gets mstatus in
  let! pc := gets mepc in
  let! fetch := get_insn ranges site cause ms pc in
  match fetch with
  | None => ret uintptr_minus1
  | Some insn =>
      if negb ((insn &&& 3) =? 3) then ret uintptr_minus1
      else illegal_insn_trap_table ((insn &&& 0x7c) / 4) cause insn ms pc
  end.

Lemma illegal_insn_dispatch cause insn m :
  mach_ok m -> fetches m insn -> (insn &&& 3) = 3 ->
  illegal_insn_trap cause m =
  illegal_insn_trap_table ((insn &&& 0x7c) / 4) cause insn (mstatus m) (mepc m) m.
Proof.
  intros Hok Hf H3. unfold illegal_insn_trap. unfold bind at 1 2, gets.
  rewrite (fetch_then ranges site _ cause m insn) by done. by rewrite H3.
Qed.

(** ** A refused instruction leaves the interrupted state alone *)

(** The hart is as it was but for the cause register, which holds [c], and the
    scratch register [tp] of the monitor, which the interrupted program and the
    supervisor do not see. *)
Definition same_state (c : Z) (m m' : mach) : Prop := m' = set_mcause c (set_tp (tp m') m).

(** [h] keeps the state when it returns -1, with the cause [c] or the one it
    started with; [h] never returns -1. *)
Definition refuses_as (c : Z) (h : ST mach Z) (m : mach) : Prop :=
  forall m', h m = Ret uintptr_minus1 m' -> same_state c m m'.
Definition refuses_clean (h : ST mach Z) (m : mach) : Prop := refuses_as (mcause m) h m.
Definition never_refuses (h : ST mach Z) : Prop := forall m m', h m <> Ret uintptr_minus1 m'.

Lemma never_advance pc : never_refuses (advance pc).
Proof. intros m m'. unfold advance. st_simpl. intros E. inversion E. Qed.

Lemma never_bind {A} (c : ST mach A) k : (forall a, never_refuses (k a)) -> never_refuses (bind c k).
Proof. intros H m m'. unfold bind. destruct (c m); try congruence. apply H. Qed.

Lemma clean_never h m : never_refuses h -> refuses_clean h m.
Proof. intros H m' E. by apply H in E. Qed.

Lemma clean_ret v m : refuses_clean (ret v) m.
Proof. intros m' [= _ ->]. by destruct m'. Qed.

Lemma clean_gets {A} (f : mach -> A) k m : (forall a, refuses_clean (k a) m) -> refuses_clean (bind (gets f) k) m.
Proof. intros H m' E. exact (H _ m' E). Qed.

Lemma clean_if (b : bool) h1 h2 m :
  refuses_clean h1 m -> refuses_clean h2 m -> refuses_clean (if b then h1 else h2) m.
Proof. by destruct b. Qed.

Lemma clean_undef m : refuses_clean undef m.
Proof. by intros m'. Qed.

(** The scratch register [tp] is not part of the visible state. *)
Lemma clean_setup insn k m :
  (forall m0, refuses_clean (k true) m0) -> refuses_clean (k false) m ->
  (forall t, k false (set_tp t m) = Ret uintptr_minus1 (set_tp t m)) ->
  refuses_clean (bind (SETUP_STATIC_ROUNDING insn) k) m.
Proof.
  intros H1 H2 H3 m'. unfold bind, SETUP_STATIC_ROUNDING. st_simpl.
  destruct (_ =? MASK_FUNCT3); [|destruct (4 <? GET_RM insn)].
  - intros E. by apply (H1 (set_tp (frm m) m)) in E.
  - rewrite H3. intros [= <-]. by destruct m.
  - intros E. by apply (H1 (set_tp (GET_RM insn) m)) in E.
Qed.

Create HintDb clean.
Hint Resolve clean_ret clean_undef clean_if never_advance : clean.

(** The handler ends in [advance] on every path. *)
Ltac never_walk :=
  repeat first
    [ apply never_advance | apply never_bind; intro
    | match goal with
      | |- never_refuses (if ?b then _ else _) => destruct b
      | |- never_refuses (match ?x with _ => _ end) => destruct x
      end ].

(** Walk a handler: every effect is followed by a return of 0. *)
Ltac clean_walk :=
  repeat first
    [ apply clean_ret | apply clean_undef | apply clean_if | apply clean_gets; intro
    | (apply clean_never; solve [never_walk])
    | match goal with
      | |- refuses_clean (match ?x with _ => _ end) _ => destruct x
      end ].

Lemma clean_fp_table i insn ms pc m : refuses_clean (fp_emulation_table fp_hi i insn ms pc) m.
Proof.
  unfold fp_emulation_table.
  repeat (match goal with |- refuses_clean ((if ?b then _ else _) _ _ _) _ => destruct b end);
    unfold emulate_fadd, emulate_fsub, emulate_any_fadd, emulate_fmul, emulate_fdiv, emulate_fsgnj, emulate_fmin,
      emulate_fcvt_ff, emulate_fsqrt, emulate_fcmp, emulate_fcvt_if, fcvt_if_finish, emulate_fcvt_fi, emulate_fmv_if,
      emulate_fmv_fi, truly_illegal_insn; clean_walk.
Qed.

Lemma clean_fp insn ms pc m : refuses_clean (emulate_fp fp_hi insn ms pc) m.
Proof.
  unfold emulate_fp. apply clean_if; [apply clean_ret|].
  apply clean_setup; [intros; apply clean_fp_table|apply clean_ret|done].
Qed.

Lemma clean_fmadd op insn ms pc m : refuses_clean (emulate_any_fmadd fp_hi op insn ms pc) m.
Proof.
  unfold emulate_any_fmadd. apply clean_if; [apply clean_ret|].
  apply clean_setup; [intros m0; cbn [negb]; clean_walk|apply clean_ret|done].
Qed.

Lemma read_csr_pure num ms m : exists r, emulate_read_csr num ms m = Ret r m.
Proof. unfold emulate_read_csr. repeat case_match; eexists; reflexivity. Qed.

Lemma write_csr_false num v m m' : emulate_write_csr num v m = Ret false m' -> m' = m.
Proof.
  unfold emulate_write_csr, SET_FRM, SET_FFLAGS, SET_FCSR.
  destruct (num =? CSR_FRM); [|destruct (num =? CSR_FFLAGS); [|destruct (num =? CSR_FCSR)]]; st_simpl; congruence.
Qed.

Lemma clean_system insn ms pc m : refuses_clean (emulate_system insn ms pc) m.
Proof.
  unfold emulate_system. apply clean_gets. intros rs1_val.
  destruct (read_csr_pure (insn >>> 20) ms m) as [r Er]. intros m'. unfold bind at 1. rewrite Er.
  destruct r as [csr_val|]; [|apply clean_ret]. destruct (csr_update _ _ _ _) as [[v w]|]; [|apply clean_ret].
  unfold bind at 1. destruct w; [|intros E; exfalso; revert E; never_walk].
  destruct (emulate_write_csr _ v m) as [[] m1| | |] eqn:Ew; try congruence.
  - intros E. exfalso. revert E. never_walk.
  - apply write_csr_false in Ew as ->. apply clean_ret.
Qed.

Lemma clean_mul_div insn pc m : refuses_clean (emulate_mul_div insn pc) m.
Proof. unfold emulate_mul_div. clean_walk. Qed.

Lemma clean_mul_div32 insn pc m : refuses_clean (emulate_mul_div32 insn pc) m.
Proof. unfold emulate_mul_div32. clean_walk. Qed.

Lemma mask_split k x : inu 64 k -> inu 64 x -> bitand_not 64 x k ||| (k &&& x) = x.
Proof.
  intros Hk Hx. apply Z.bits_inj'. intros i Hi. unfold bitand_not. autorewrite with testbit.
  destruct (Z.ltb_spec i 64).
  - by destruct (Z.testbit x i), (Z.testbit k i).
  - rewrite (testbit_inu 64 x) by (done || lia). by destruct (Z.testbit k i).
Qed.

Lemma restore_nothing m : mach_ok m -> restore_mstatus (mstatus m) (mepc m) m = Ret tt m.
Proof.
  intros Hok. unfold restore_mstatus. st_simpl. mach_simpl.
  rewrite (mask_split restore_mask (mstatus m)); [by destruct m|vm_decide|apply Hok].
Qed.

Lemma as_fp_access c k m : refuses_as c (k tt) m -> refuses_as c (bind fp_access k) m.
Proof. intros H m'. unfold bind, fp_access. destruct (_ =? 0); [congruence|apply H]. Qed.

Lemma as_gets {A} c (f : mach -> A) k m : (forall a, refuses_as c (k a) m) -> refuses_as c (bind (gets f) k) m.
Proof. intros H m' E. exact (H _ m' E). Qed.

Lemma clean_fail m : mach_ok m -> refuses_clean (restore_mstatus (mstatus m) (mepc m) ;; ret uintptr_minus1) m.
Proof. intros Hok m'. unfold bind. rewrite restore_nothing by done. apply clean_ret. Qed.

(** The access site is in the image's table of unprivileged accesses. *)
Hypothesis site_listed : find_range ranges (fst site) = Some (snd site).

(** An access that completes, or faults before it changes memory. *)
Lemma as_unpriv {A} c (code : ucode A) (k : A -> ST mach Z) m :
  mach_ok m -> (forall a, never_refuses (k a)) ->
  (exists mem' a, code (umem m) = (mem', UOk a)) \/
  (code (umem m) = (umem m, UFault c) /\ (c = CAUSE_FAULT_LOAD \/ c = CAUSE_FAULT_STORE)) ->
  refuses_as c (let! res := unpriv_mem_access ranges site code in
                match res with
                | Some a => k a
                | None => restore_mstatus (mstatus m) (mepc m) ;; ret uintptr_minus1
                end) m.
Proof.
  intros Hok Hk [(mem' & a & E)|(E & Hc)] m'; unfold bind at 1.
  - erewrite unpriv_ok by eauto. intros E'. by apply Hk in E'.
  - destruct (unpriv_fault ranges site site_listed code m _ c Hok E Hc) as (m1 & -> & E2).
    unfold bind. rewrite E2. intros [= <-]. by destruct m.
Qed.

(** Aligned accesses, by whether the bytes are mapped. *)
Definition unmapped (mem : gmap Z Z) (a : Z) (n : nat) : bool :=
  match read_bytes mem a n with Some _ => false | None => true end.

Lemma aligned_load_cases n a (m : mach) : a mod Z.of_nat n = 0 ->
  let c := if unmapped (umem m) a n then CAUSE_FAULT_LOAD else mcause m in
  (exists mem' v, uload n a (umem m) = (mem', UOk v)) \/
  (uload n a (umem m) = (umem m, UFault c) /\ (c = CAUSE_FAULT_LOAD \/ c = CAUSE_FAULT_STORE)).
Proof. intros Ha. unfold uload, unmapped. rewrite Ha. cbn [Z.eqb negb]. destruct (read_bytes _ _ _); eauto 6. Qed.

Lemma aligned_lw_cases a (m : mach) : a mod 4 = 0 ->
  let c := if unmapped (umem m) a 4 then CAUSE_FAULT_LOAD else mcause m in
  (exists mem' v, lw a (umem m) = (mem', UOk v)) \/
  (lw a (umem m) = (umem m, UFault c) /\ (c = CAUSE_FAULT_LOAD \/ c = CAUSE_FAULT_STORE)).
Proof.
  intros Ha. unfold lw, ubind. destruct (aligned_load_cases 4 a m Ha) as [(m' & v & ->)|(-> & Hc)]; [left|right]; eauto.
Qed.

Lemma aligned_store_cases n a v (m : mach) : a mod Z.of_nat n = 0 ->
  let c := if unmapped (umem m) a n then CAUSE_FAULT_STORE else mcause m in
  (exists mem' x, ustore n a v (umem m) = (mem', UOk x)) \/
  (ustore n a v (umem m) = (umem m, UFault c) /\ (c = CAUSE_FAULT_LOAD \/ c = CAUSE_FAULT_STORE)).
Proof. intros Ha. unfold ustore, unmapped. rewrite Ha. cbn [Z.eqb negb]. destruct (read_bytes _ _ _); eauto 6. Qed.

(** Bytes a floating-point load or store touches. *)
Definition fp_size (insn : Z) : Z := if (insn &&& MASK_FUNCT3) =? (MATCH_FLW &&& MASK_FUNCT3) then 4 else 8.

(** An FLW or FLD, FSW or FSD. *)
Definition fp_access_insn (insn : Z) : bool :=
  ((insn &&& MASK_FUNCT3) =? (MATCH_FLW &&& MASK_FUNCT3)) || ((insn &&& MASK_FUNCT3) =? (MATCH_FLD &&& MASK_FUNCT3)).

(** The cause the supervisor is to see for a refused instruction: that of the
    trap, unless a floating-point load or store touches unmapped memory. *)
Definition load_cause (insn : Z) (m : mach) : Z :=
  if fp_access_insn insn && unmapped (umem m) (u64 (GET_RS1 insn m + IMM_I insn)) (Z.to_nat (fp_size insn))
  then CAUSE_FAULT_LOAD else mcause m.
Definition store_cause (insn : Z) (m : mach) : Z :=
  if fp_access_insn insn && unmapped (umem m) (u64 (GET_RS1 insn m + IMM_S insn)) (Z.to_nat (fp_size insn))
  then CAUSE_FAULT_STORE else mcause m.
Definition refusal_cause (insn : Z) (m : mach) : Z :=
  if negb ((insn &&& 3) =? 3) then mcause m
  else if (insn &&& 0x7c) / 4 =? 1 then load_cause insn m
  else if (insn &&& 0x7c) / 4 =? 9 then store_cause insn m
  else mcause m.

Lemma as_float_load cause insn m :
  mach_ok m -> u64 (GET_RS1 insn m + IMM_I insn) mod fp_size insn = 0 ->
  refuses_as (load_cause insn m) (emulate_float_load ranges site fp_hi cause insn (mstatus m) (mepc m)) m.
Proof.
  intros Hok Ha m'. unfold emulate_float_load. unfold bind at 1, gets. revert m'.
  unfold load_cause, fp_access_insn. set (addr := u64 _) in *. unfold fp_size in *. destruct (_ =? MATCH_FLW &&& _).
  - rewrite Ha. cbn [Z.eqb negb]. apply as_unpriv; [done|intros; never_walk|by apply aligned_lw_cases].
  - destruct (_ =? MATCH_FLD &&& _); [|by apply clean_fail]. rewrite Ha. cbn [Z.eqb negb].
    apply as_unpriv; [done|intros; never_walk|by apply (aligned_load_cases 8)].
Qed.

Lemma as_float_store cause insn m :
  mach_ok m -> u64 (GET_RS1 insn m + IMM_S insn) mod fp_size insn = 0 ->
  refuses_as (store_cause insn m) (emulate_float_store ranges site cause insn (mstatus m) (mepc m)) m.
Proof.
  intros Hok Ha m'. unfold emulate_float_store. unfold bind at 1, gets. revert m'.
  unfold store_cause, fp_access_insn. set (addr := u64 _) in *. unfold fp_size in *.
  change (MATCH_FSW &&& MASK_FUNCT3) with (MATCH_FLW &&& MASK_FUNCT3).
  change (MATCH_FSD &&& MASK_FUNCT3) with (MATCH_FLD &&& MASK_FUNCT3). destruct (_ =? MATCH_FLW &&& _).
  - rewrite Ha. cbn [Z.eqb negb]. apply as_fp_access, as_gets. intros v.
    apply as_unpriv; [done|intros; never_walk|by apply (aligned_store_cases 4)].
  - destruct (_ =? MATCH_FLD &&& _); [|by apply clean_fail]. rewrite Ha. cbn [Z.eqb negb].
    apply as_fp_access, as_gets. intros v. apply as_unpriv; [done|intros; never_walk|by apply (aligned_store_cases 8)].
Qed.

(** C32.  When [illegal_insn_trap] returns -1, so that the trap is redirected to the
    supervisor, the hart is exactly as it was at the trap (registers,
    floating-point state, [mstatus], [mepc] and memory), for every instruction but
    a misaligned floating-point load or store.  The cause register too: it holds
    what it held, except that a floating-point load or store of unmapped memory
    leaves there the page fault the supervisor is to see (5 for a load, 7 for a
    store). *)
Theorem illegal_insn_refusal_transparent cause insn m m' :
  mach_ok m -> fetches m insn ->
  ((insn &&& 0x7c) / 4 = 1 -> u64 (GET_RS1 insn m + IMM_I insn) mod fp_size insn = 0) ->
  ((insn &&& 0x7c) / 4 = 9 -> u64 (GET_RS1 insn m + IMM_S insn) mod fp_size insn = 0) ->
  illegal_insn_trap cause m = Ret uintptr_minus1 m' -> same_state (refusal_cause insn m) m m'.
Proof.
  intros Hok Hf H1 H9. unfold refusal_cause. destruct (Z.eqb_spec (insn &&& 3) 3) as [H3|H3]; cbn [negb].
  - rewrite (illegal_insn_dispatch cause insn m) by done. revert m'. unfold illegal_insn_trap_table.
    destruct (Z.eqb_spec ((insn &&& 0x7c) / 4) 1); [by apply as_float_load, H1|].
    destruct (Z.eqb_spec ((insn &&& 0x7c) / 4) 9); [by apply as_float_store, H9|].
    destruct (_ =? 12); [apply clean_mul_div|]. destruct (_ =? 14); [apply clean_mul_div32|].
    destruct (_ =? 16); [apply clean_fmadd|]. destruct (_ =? 17); [apply clean_fmadd|].
    destruct (_ =? 18); [apply clean_fmadd|]. destruct (_ =? 19); [apply clean_fmadd|].
    destruct (_ =? 20); [apply clean_fp|]. destruct (_ =? 28); [apply clean_system|apply clean_ret].
  - unfold illegal_insn_trap. unfold bind at 1 2, gets. rewrite (fetch_then ranges site _ cause m insn) by done.
    rewrite (proj2 (Z.eqb_neq _ _) H3). apply clean_ret.
Qed.

(** With the FPU off, an FLW from mapped, aligned memory stops the machine:
    [emulate_float_load], unlike the other floating-point handlers, does not test
    [mstatus.FS], and its write of the register traps in machine mode. *)
Theorem float_load_fpu_off_panics cause insn m bs :
  mach_ok m -> fetches m insn -> (insn &&& 3) = 3 -> (insn &&& 0x7c) / 4 = 1 ->
  (insn &&& MASK_FUNCT3) = (MATCH_FLW &&& MASK_FUNCT3) ->
  let addr := u64 (GET_RS1 insn m + IMM_I insn) in
  addr mod 4 = 0 -> read_bytes (umem m) addr 4 = Some bs ->
  (mstatus m &&& MSTATUS_FS) = 0 ->
  illegal_insn_trap cause m = Panic "machine mode: unhandlable trap" m.
Proof.
  intros Hok Hf H3 H1 Hf3 addr Ha Hr Hfs. rewrite (illegal_insn_dispatch cause insn m) by done. rewrite H1.
  unfold illegal_insn_trap_table. cbn [Z.eqb Pos.eqb]. unfold emulate_float_load. unfold bind at 1, gets. fold addr.
  rewrite Hf3, Ha. rewrite Z.eqb_refl. cbn [Z.eqb negb].
  assert (lw addr (umem m) = (umem m, UOk (u64 (s32 (le_combine bs))))) as E.
  { unfold lw, ubind, uload, uret. change (Z.of_nat 4) with 4. by rewrite Ha, Hr. }
  unfold bind at 1. rewrite (unpriv_ok ranges site _ m (umem m) _ Hok E).
  unfold SET_F32_RD, SET_F32_REG, fp_access. st_simpl. mach_simpl. rewrite Hfs. cbn [Z.eqb]. by destruct m.
Qed.
End Trap.

(** ** Concrete runs *)

(** DIVW is refused as it came; an FLW of unmapped memory with its page fault. *)
Lemma illegal_insn_refusal_transparent_witness :
  (let m := demo 0x0220C1BB 100 7 in
   exists m', illegal_insn_trap [(0x40, 0x48)] (0x40, 0x48) (fun _ => 0) 2 m = Ret uintptr_minus1 m' /\ same_state (mcause m) m m') /\
  (let m := demo 0x0000A107 0x8000 0 in
   exists m', illegal_insn_trap [(0x40, 0x48)] (0x40, 0x48) (fun _ => 0) 2 m = Ret uintptr_minus1 m' /\ same_state 5 m m').
Proof.
  split; (eexists; split; [vm_compute; reflexivity|]).
  - refine (illegal_insn_refusal_transparent [(0x40, 0x48)] (0x40, 0x48) (fun _ => 0) eq_refl 2 0x0220C1BB
      (demo 0x0220C1BB 100 7) _ _ _ _ _ ltac:(vm_compute; reflexivity)).
    + apply demo_ok; vm_decide.
    + split; [vm_decide|split; reflexivity].
    + intros H. vm_compute in H. discriminate.
    + intros H. vm_compute in H. discriminate.
  - refine (illegal_insn_refusal_transparent [(0x40, 0x48)] (0x40, 0x48) (fun _ => 0) eq_refl 2 0x0000A107
      (demo 0x0000A107 0x8000 0) _ _ _ _ _ ltac:(vm_compute; reflexivity)).
    + apply demo_ok; vm_decide.
    + split; [vm_decide|split; reflexivity].
    + intros _. reflexivity.
    + intros H. vm_compute in H. discriminate.
Defined.

Lemma float_load_fpu_off_panics_witness :
  let m := set_mstatus MSTATUS_PRV (demo 0x0000A107 0x1000 0) in
  illegal_insn_trap [(0x40, 0x48)] (0x40, 0x48) (fun _ => 0) 2 m = Panic "machine mode: unhandlable trap" m.
Proof.
  apply (float_load_fpu_off_panics [(0x40, 0x48)] (0x40, 0x48) (fun _ => 0) 2 0x0000A107
    (set_mstatus MSTATUS_PRV (demo 0x0000A107 0x1000 0)) [1; 2; 3; 4]); try reflexivity.
  - destruct (demo_ok 0x0000A107 0x1000 0 ltac:(vm_decide) ltac:(vm_decide)). constructor; try assumption; vm_decide || reflexivity.
  - split; [vm_decide|split; reflexivity].
Defined.
