(* ===== verification/Memory.v ===== *)
(** * Physical memory and the C string routines ([bbl/string.c])

    Machine mode accesses memory by physical address.  An access that is misaligned
    or outside the address map traps into [trap_from_machine_mode], which ends in
    [bad_trap].  On top of these accesses the file models [memcpy], [memset],
    [strlen], [strcpy] and [atol]; the theorems say that the word-wise fast paths do
    what the byte-wise definitions say. *)

From Stdlib Require Import ZArith Lia Bool List String.
From stdpp Require Import base gmap list.
From S2P Require Import Prelude Machine.
Open Scope Z_scope.
Open Scope word_scope.

(** ** Accesses *)

(** The bytes of the address map, by physical address. *)
Abbreviation memory := (gmap Z Z).

(** A trap taken in machine mode outside an unprivileged access. *)
Definition bad_trap {S A} : ST S A := panic "machine mode: unhandlable trap".

(** A naturally aligned load of [n] bytes, zero-extended. *)
Definition load (n : nat) (a : Z) : ST memory Z := fun m =>
  if a mod Z.of_nat n =? 0 then
    match read_bytes m a n with
    | Some bs => Ret (le_combine bs) m
    | None => bad_trap m
    end
  else bad_trap m.

(** A naturally aligned store of the [n] low bytes of [v]. *)
Definition store (n : nat) (a v : Z) : ST memory unit := fun m =>
  if a mod Z.of_nat n =? 0 then
    match read_bytes m a n with
    | Some _ => Ret tt (write_bytes m a (le_split n v))
    | None => bad_trap m
    end
  else bad_trap m.

(** ** [string.c] *)

(** [while (d < end) *d++ = *s++] over elements of [w] bytes. *)
Fixpoint copy_loop (fuel w : nat) (d s e : Z) : ST memory unit :=
  match fuel with
  | O => hang
  | S fuel' =>
      if d <? e then
        let! x := load w s in
        store w d x ;;
        copy_loop fuel' w (u64 (d + Z.of_nat w)) (u64 (s + Z.of_nat w)) e
      else ret tt
  end.

Definition memcpy (dest src len : Z) : ST memory Z :=
  let e := u64 (dest + len) in
  (if ((dest ||| src ||| len) &&& (8 - 1)) =? 0
   then copy_loop (S (Z.to_nat (len / 8))) 8 dest src e
   else copy_loop (S (Z.to_nat len)) 1 dest src e) ;;
  ret dest.

(** [while (d < end) *d++ = v] over elements of [w] bytes. *)
Fixpoint fill_loop (fuel w : nat) (d e v : Z) : ST memory unit :=
  match fuel with
  | O => hang
  | S fuel' =>
      if d <? e then
        store w d v ;;
        fill_loop fuel' w (u64 (d + Z.of_nat w)) e v
      else ret tt
  end.

(** The byte, repeated in every byte of a word. *)
Definition memset_word (byte : Z) : Z :=
  let word := byte &&& 0xFF in
  let word := word ||| u64 (word <<< 8) in
  let word := word ||| u64 (word <<< 16) in
  word ||| u64 (u64 (word <<< 16) <<< 16).

Definition memset (dest byte len : Z) : ST memory Z :=
  let e := u64 (dest + len) in
  (if ((dest ||| len) &&& (8 - 1)) =? 0
   then fill_loop (S (Z.to_nat (len / 8))) 8 dest e (memset_word byte)
   else fill_loop (S (Z.to_nat len)) 1 dest e byte) ;;
  ret dest.

(** [while ( *p) p++], with the final pointer. *)
Fixpoint strlen_loop (fuel : nat) (p : Z) : ST memory Z :=
  match fuel with
  | O => hang
  | S fuel' =>
      let! c := load 1 p in
      if c =? 0 then ret p else strlen_loop fuel' (u64 (p + 1))
  end.

Definition strlen (s : Z) : ST memory Z := fun m =>
  (let! p := strlen_loop (S (size m)) s in ret (u64 (p - s))) m.

(** [while (( *d++ = *src++))]. *)
Fixpoint strcpy_loop (fuel : nat) (d s : Z) : ST memory unit :=
  match fuel with
  | O => hang
  | S fuel' =>
      let! c := load 1 s in
      store 1 d c ;;
      if c =? 0 then ret tt else strcpy_loop fuel' (u64 (d + 1)) (u64 (s + 1))
  end.

Definition strcpy (dest src : Z) : ST memory Z := fun m =>
  (strcpy_loop (S (size m)) dest src ;; ret dest) m.

(** [while ( *str == ' ') str++]. *)
Fixpoint skip_spaces (fuel : nat) (str : Z) : ST memory Z :=
  match fuel with
  | O => hang
  | S fuel' =>
      let! c := load 1 str in
      if c =? 32 then skip_spaces fuel' (u64 (str + 1)) else ret str
  end.

(** A result of signed [long] arithmetic: overflow is undefined. *)
Definition long (x : Z) : ST memory Z :=
  if (- 2 ^ 63 <=? x) && (x <? 2 ^ 63) then ret x else undef.

Fixpoint atol_digits (fuel : nat) (str res : Z) : ST memory Z :=
  match fuel with
  | O => hang
  | S fuel' =>
      let! c := load 1 str in
      if c =? 0 then ret res
      else let! r := long (res * 10) in
           let! r' := long (r + (c - 48)) in
           atol_digits fuel' (u64 (str + 1)) r'
  end.

Definition atol (str : Z) : ST memory Z := fun m =>
  let fuel := S (size m) in
  (let! str := skip_spaces fuel str in
   let! c := load 1 str in
   let signed := (c =? 45) || (c =? 43) in
   let sign := signed && (c =? 45) in
   let str := if signed then u64 (str + 1) else str in
   let! res := atol_digits fuel str 0 in
   if sign then long (- res) else ret res) m.

(** ** Lemmas on accesses *)

(** The [n] bytes at [a] are in the address map. *)
Definition mapped (m : memory) (a : Z) (n : nat) : Prop := is_Some (read_bytes m a n).

#[export] Instance mapped_dec m a n : Decision (mapped m a n).
Proof. unfold mapped. apply _. Defined.

(** The [n] bytes at [a] and the [k] bytes at [b] do not meet. *)
Definition apart (a : Z) (n : nat) (b : Z) (k : nat) : Prop :=
  a + Z.of_nat n <= b \/ b + Z.of_nat k <= a.

(** The [n] bytes at [a] do not run past the end of the address space. *)
Definition fits (a : Z) (n : nat) : Prop := 0 <= a /\ a + Z.of_nat n <= 2 ^ 64.

#[export] Instance apart_dec a n b k : Decision (apart a n b k).
Proof. unfold apart. apply _. Defined.
#[export] Instance fits_dec a n : Decision (fits a n).
Proof. unfold fits. apply _. Defined.

Lemma write_bytes_app m a l1 l2 :
  write_bytes m a (l1 ++ l2) = write_bytes (write_bytes m a l1) (a + Z.of_nat (length l1)) l2.
Proof.
  revert m a. induction l1 as [|b l1 IH]; intros m a; cbn [app write_bytes length].
  - by rewrite Z.add_0_r.
  - rewrite IH. f_equal. lia.
Qed.

Lemma mapped_write m a n b l : mapped m a n -> mapped (write_bytes m b l) a n.
Proof.
  revert m b. induction l as [|x l IH]; intros m b [bs H]; [by exists bs|]. cbn [write_bytes].
  apply IH. destruct (read_bytes_some_insert m a n (u64 b) x bs H) as [bs' E]. by exists bs'.
Qed.

Lemma mapped_app m a n1 n2 :
  mapped m a (n1 + n2) -> mapped m a n1 /\ mapped m (a + Z.of_nat n1) n2.
Proof. intros [bs H]. apply read_bytes_app in H as [H1 H2]. split; eexists; eauto. Qed.

Lemma read_bytes_ext m m' a n :
  (forall i, (i < n)%nat -> m' !! u64 (a + Z.of_nat i) = m !! u64 (a + Z.of_nat i)) ->
  read_bytes m' a n = read_bytes m a n.
Proof.
  revert a. induction n as [|n IH]; intros a H; [done|]. cbn [read_bytes].
  rewrite (IH (a + 1)).
  - specialize (H 0%nat). rewrite Z.add_0_r in H. by rewrite H by lia.
  - intros i Hi. replace (a + 1 + Z.of_nat i) with (a + Z.of_nat (S i)) by lia. apply H. lia.
Qed.

(** A write leaves the bytes elsewhere alone. *)
Lemma read_write_apart m a n b l :
  fits a n -> fits b (length l) -> apart a n b (length l) ->
  read_bytes (write_bytes m b l) a n = read_bytes m a n.
Proof.
  unfold fits, apart. intros Ha Hb Hd. apply read_bytes_ext. intros i Hi.
  apply write_bytes_other. intros j Hj. rewrite !wrapu_small by (unfold inu; lia). lia.
Qed.

Lemma load_spec n a m bs :
  a mod Z.of_nat n = 0 -> read_bytes m a n = Some bs -> load n a m = Ret (le_combine bs) m.
Proof. intros Ha Hr. unfold load. by rewrite Ha, Hr. Qed.

Lemma store_spec n a v m :
  a mod Z.of_nat n = 0 -> mapped m a n -> store n a v m = Ret tt (write_bytes m a (le_split n v)).
Proof. intros Ha [bs Hr]. unfold store. by rewrite Ha, Hr. Qed.

Lemma bytes_ok_write m a l : bytes_ok m -> Forall (inu 8) l -> bytes_ok (write_bytes m a l).
Proof.
  intros Hm Hl. revert m a Hm. induction Hl as [|b l Hb Hl IH]; intros m a Hm; [done|].
  cbn [write_bytes]. apply IH. by apply map_Forall_insert_2.
Qed.

Lemma le_split_combine_len n l :
  length l = n -> Forall (inu 8) l -> le_split n (le_combine l) = l.
Proof. intros <-. apply le_split_combine. Qed.

Lemma mod_step a w : 0 < w -> a mod w = 0 -> (a + w) mod w = 0.
Proof. intros Hw Ha. replace (a + w) with (a + 1 * w) by lia. by rewrite Z.mod_add by lia. Qed.

(** ** Words *)

(** The aligned word [v] is at [a]. *)
Definition word (m : memory) (a v : Z) : Prop :=
  a mod 8 = 0 /\ fits a 8 /\ inu 64 v /\ read_bytes m a 8 = Some (le_split 8 v).

#[export] Instance word_dec m a v : Decision (word m a v).
Proof. unfold word. apply _. Defined.

Definition write_word (m : memory) (a v : Z) : memory := write_bytes m a (le_split 8 v).

Lemma word_load m a v : word m a v -> load 8 a m = Ret v m.
Proof.
  intros (Ha & _ & Hv & Hr). rewrite (load_spec 8 a m (le_split 8 v)) by done.
  rewrite le_combine_split. change (8 * Z.of_nat 8) with 64. by rewrite wrapu_small.
Qed.

Lemma word_write m a v : a mod 8 = 0 -> fits a 8 -> inu 64 v -> word (write_word m a v) a v.
Proof.
  intros. split_and!; try done. pose proof (read_write_bytes (le_split 8 v) m a) as R.
  rewrite length_le_split in R. apply R. lia.
Qed.

Lemma word_other m a v b w : word m b w -> fits a 8 -> apart b 8 a 8 -> word (write_word m a v) b w.
Proof.
  intros (? & ? & ? & Hr) Hf Hd. split_and!; try done.
  unfold write_word. rewrite read_write_apart; rewrite ?length_le_split; done.
Qed.

(** ** [memcpy] and [memset] *)

Lemma copy_loop_spec k w d s m bs :
  (0 < w)%nat -> d mod Z.of_nat w = 0 -> s mod Z.of_nat w = 0 ->
  0 <= d -> d + Z.of_nat (k * w) < 2 ^ 64 -> 0 <= s -> s + Z.of_nat (k * w) < 2 ^ 64 ->
  apart s (k * w) d (k * w) -> bytes_ok m ->
  read_bytes m s (k * w) = Some bs -> mapped m d (k * w) ->
  copy_loop (S k) w d s (d + Z.of_nat (k * w)) m = Ret tt (write_bytes m d bs).
Proof.
  intros Hw. revert d s m bs. induction k as [|k IH]; intros d s m bs Hd Hs D0 D1 S0 S1 Hx Hm Hr Hp.
  { injection Hr as <-. cbn [copy_loop Nat.mul]. by rewrite Z.add_0_r, Z.ltb_irrefl. }
  rewrite Nat.mul_succ_l, Nat.add_comm, Nat2Z.inj_add in *. unfold apart in Hx.
  apply read_bytes_app in Hr as [R1 R2]. apply mapped_app in Hp as [P1 P2].
  pose proof (read_bytes_ok _ _ _ _ Hm R1) as B1.
  pose proof (read_bytes_length _ _ _ _ R1) as L1.
  cbn [copy_loop]. destruct (Z.ltb_spec d (d + (Z.of_nat w + Z.of_nat (k * w)))); [|lia].
  unfold bind at 1. rewrite (load_spec w s m _ Hs R1).
  unfold bind at 1. rewrite (store_spec w d _ m Hd P1).
  rewrite (le_split_combine_len w _ L1 B1). rewrite !wrapu_small by (unfold inu; lia).
  replace (d + (Z.of_nat w + Z.of_nat (k * w))) with (d + Z.of_nat w + Z.of_nat (k * w)) by lia.
  etrans; [apply (IH _ _ _ (drop w bs))|].
  - by apply mod_step; [lia|].
  - by apply mod_step; [lia|].
  - lia.
  - lia.
  - lia.
  - lia.
  - unfold apart. lia.
  - apply bytes_ok_write; done.
  - rewrite read_write_apart; unfold fits, apart; rewrite ?L1; auto; lia.
  - by apply mapped_write.
  - rewrite <- (take_drop w bs) at 3. by rewrite write_bytes_app, L1.
Qed.

Lemma land7_mod x : (x &&& (8 - 1)) = x mod 8.
Proof. change (8 - 1) with (Z.ones 3). by rewrite Z.land_ones by lia. Qed.

Lemma lor_aligned x y : ((x ||| y) &&& (8 - 1)) = 0 <-> x mod 8 = 0 /\ y mod 8 = 0.
Proof. by rewrite Z.land_lor_distr_l, Z.lor_eq_0_iff, !land7_mod. Qed.

Lemma copy_correct w dest src len m bs :
  (0 < w)%nat -> dest mod Z.of_nat w = 0 -> src mod Z.of_nat w = 0 -> len mod Z.of_nat w = 0 ->
  0 <= dest -> 0 <= src -> 0 <= len -> dest + len < 2 ^ 64 -> src + len < 2 ^ 64 ->
  apart src (Z.to_nat len) dest (Z.to_nat len) -> bytes_ok m ->
  read_bytes m src (Z.to_nat len) = Some bs -> mapped m dest (Z.to_nat len) ->
  copy_loop (S (Z.to_nat (len / Z.of_nat w))) w dest src (u64 (dest + len)) m =
  Ret tt (write_bytes m dest bs).
Proof.
  intros Hw Hd Hs Hl. intros. set (k := Z.to_nat (len / Z.of_nat w)).
  assert (Z.to_nat len = (k * w)%nat) as Ek.
  { unfold k. pose proof (Z.div_mod len (Z.of_nat w)). pose proof (Z.div_pos len (Z.of_nat w)). nia. }
  assert (len = Z.of_nat (k * w)) as El by lia.
  rewrite Ek in *. rewrite wrapu_small by (unfold inu; lia). rewrite El.
  apply copy_loop_spec; auto; lia.
Qed.

Lemma fill_loop_spec k w d m v b :
  (0 < w)%nat -> d mod Z.of_nat w = 0 -> 0 <= d -> d + Z.of_nat (k * w) < 2 ^ 64 ->
  le_split w v = replicate w b -> mapped m d (k * w) ->
  fill_loop (S k) w d (d + Z.of_nat (k * w)) v m = Ret tt (write_bytes m d (replicate (k * w) b)).
Proof.
  intros Hw. revert d m. induction k as [|k IH]; intros d m Hd D0 D1 Hv Hp.
  { cbn [fill_loop Nat.mul]. by rewrite Z.add_0_r, Z.ltb_irrefl. }
  rewrite Nat.mul_succ_l, Nat.add_comm, Nat2Z.inj_add in *. apply mapped_app in Hp as [P1 P2].
  cbn [fill_loop]. destruct (Z.ltb_spec d (d + (Z.of_nat w + Z.of_nat (k * w)))); [|lia].
  unfold bind at 1. rewrite (store_spec w d _ m Hd P1), Hv, wrapu_small by (unfold inu; lia).
  rewrite Z.add_assoc. etrans; [apply IH|].
  - by apply mod_step; [lia|].
  - lia.
  - lia.
  - done.
  - by apply mapped_write.
  - rewrite replicate_add, write_bytes_app, length_replicate. done.
Qed.

Lemma fill_correct w dest len m v b :
  (0 < w)%nat -> dest mod Z.of_nat w = 0 -> len mod Z.of_nat w = 0 ->
  0 <= dest -> 0 <= len -> dest + len < 2 ^ 64 -> le_split w v = replicate w b ->
  mapped m dest (Z.to_nat len) ->
  fill_loop (S (Z.to_nat (len / Z.of_nat w))) w dest (u64 (dest + len)) v m =
  Ret tt (write_bytes m dest (replicate (Z.to_nat len) b)).
Proof.
  intros Hw Hd Hl. intros. set (k := Z.to_nat (len / Z.of_nat w)).
  assert (Z.to_nat len = (k * w)%nat) as Ek.
  { unfold k. pose proof (Z.div_mod len (Z.of_nat w)). pose proof (Z.div_pos len (Z.of_nat w)). nia. }
  assert (len = Z.of_nat (k * w)) as El by lia.
  rewrite Ek in *. rewrite wrapu_small by (unfold inu; lia). rewrite El.
  apply fill_loop_spec; auto; lia.
Qed.

(** Doubling a word of [n] bits into one of [2 * n] bits. *)
Lemma lor_double x n :
  0 <= n -> 2 * n <= 64 -> inu n x ->
  (x ||| u64 (x <<< n)) = x * (1 + 2 ^ n) /\ inu (2 * n) (x ||| u64 (x <<< n)).
Proof.
  intros Hn H64 Hx. assert (inu (2 * n) (x <<< n)) as Hs.
  { unfold inu in *. rewrite Z.shiftl_mul_pow2 by lia. replace (2 * n) with (n + n) by lia. rewrite Z.pow_add_r by lia. nia. }
  rewrite wrapu_small by (eapply inu_weaken; [| |exact Hs]; lia).
  split; [|apply lor_range; [lia| |done]; eapply inu_weaken; [| |exact Hx]; lia].
  rewrite lor_disjoint_add by (unfold inu in *; lia || done). ring.
Qed.

Lemma memset_word_bytes byte : le_split 8 (memset_word byte) = replicate 8 (u8 byte).
Proof.
  assert (memset_word byte = le_combine (replicate 8 (u8 byte))) as ->.
  { unfold memset_word. change 0xFF with (Z.ones 8). rewrite Z.land_ones by lia.
    change (byte mod 2 ^ 8) with (u8 byte). set (b := u8 byte).
    assert (inu 8 b) as Hb by (apply wrapu_range; lia).
    destruct (lor_double b 8) as [E1 R1]; [lia|lia|done|]. cbv zeta.
    destruct (lor_double (b ||| u64 (b <<< 8)) 16) as [E2 R2]; [lia|lia|done|].
    set (w := (b ||| u64 (b <<< 8)) ||| u64 ((b ||| u64 (b <<< 8)) <<< 16)) in *.
    destruct (lor_double w 32) as [E3 _]; [lia|lia|done|].
    replace (u64 (u64 (w <<< 16) <<< 16)) with (u64 (w <<< 32)).
    { rewrite E3, E2, E1. cbn [replicate le_combine]. ring. }
    change (2 * 16) with 32 in R2. rewrite (wrapu_small 64 (w <<< 16)); [by rewrite Z.shiftl_shiftl by lia|].
    unfold inu in *. rewrite Z.shiftl_mul_pow2 by lia. lia. }
  apply le_split_combine_len; [done|]. apply Forall_replicate, wrapu_range. lia.
Qed.

Lemma memcpy_spec dest src len m bs :
  0 <= dest -> 0 <= src -> 0 <= len -> dest + len < 2 ^ 64 -> src + len < 2 ^ 64 ->
  apart src (Z.to_nat len) dest (Z.to_nat len) -> bytes_ok m ->
  read_bytes m src (Z.to_nat len) = Some bs -> mapped m dest (Z.to_nat len) ->
  memcpy dest src len m = Ret dest (write_bytes m dest bs).
Proof.
  intros. unfold memcpy, bind. destruct (Z.eqb_spec ((dest ||| src ||| len) &&& (8 - 1)) 0) as [E|_].
  - apply lor_aligned in E as [E Hl]. rewrite <- land7_mod in E. apply lor_aligned in E as [Hd Hs].
    change (len / 8) with (len / Z.of_nat 8). rewrite (copy_correct 8 dest src len m bs) by (auto; lia). done.
  - rewrite <- (Z.div_1_r len) at 1. change 1 with (Z.of_nat 1) at 1.
    rewrite (copy_correct 1 dest src len m bs) by (auto using Z.mod_1_r; lia). done.
Qed.

Lemma le_split_1 v : le_split 1 v = [u8 v].
Proof. done. Qed.

Lemma memset_spec dest byte len m :
  0 <= dest -> 0 <= len -> dest + len < 2 ^ 64 -> mapped m dest (Z.to_nat len) ->
  memset dest byte len m = Ret dest (write_bytes m dest (replicate (Z.to_nat len) (u8 byte))).
Proof.
  intros. unfold memset, bind. destruct (Z.eqb_spec ((dest ||| len) &&& (8 - 1)) 0) as [E|_].
  - apply lor_aligned in E as [Hd Hl].
    change (len / 8) with (len / Z.of_nat 8). rewrite (fill_correct 8 dest len m _ (u8 byte)) by (auto using memset_word_bytes; lia). done.
  - rewrite <- (Z.div_1_r len) at 1. change 1 with (Z.of_nat 1) at 1.
    rewrite (fill_correct 1 dest len m _ (u8 byte)) by (auto using Z.mod_1_r; lia). done.
Qed.

(** ** C strings *)

(** [s] is the string at [a]: its characters, none of them zero, and the
    terminator. *)
Definition cstring (m : memory) (a : Z) (s : list Z) : Prop :=
  fits a (S (length s)) /\ Forall (fun c => c <> 0) s /\
  read_bytes m a (S (length s)) = Some (s ++ [0]).

#[export] Instance cstring_dec m a s : Decision (cstring m a s).
Proof. unfold cstring. apply _. Defined.

(** The address map holds at least the bytes of any range in it. *)
Lemma mapped_size m a n : fits a n -> mapped m a n -> (n <= size m)%nat.
Proof.
  intros [A0 A1] Hm.
  set (ks := (fun i => u64 (a + Z.of_nat i)) <$> seq 0 n).
  assert (NoDup ks) as Hn.
  { apply NoDup_fmap_2_strong; [|apply NoDup_seq]. intros i j Hi%elem_of_seq Hj%elem_of_seq E.
    rewrite !wrapu_small in E by (unfold inu; lia). lia. }
  assert ((list_to_set ks : gset Z) ⊆ dom m) as Hsub.
  { intros k. rewrite elem_of_list_to_set. unfold ks. rewrite list_elem_of_fmap.
    intros (i & -> & Hi%elem_of_seq). apply elem_of_dom.
    replace n with (i + (1 + (n - i - 1)))%nat in Hm by lia. destruct Hm as [bs Hr].
    apply read_bytes_window in Hr. cbn [read_bytes] in Hr.
    destruct (m !! u64 (a + Z.of_nat i)); [eauto|done]. }
  apply subseteq_size in Hsub. rewrite size_list_to_set in Hsub by done.
  rewrite size_dom in Hsub. unfold ks in Hsub. by rewrite length_fmap, length_seq in Hsub.
Qed.

Lemma cstring_cons m a c s :
  cstring m a (c :: s) ->
  c <> 0 /\ read_bytes m a 1 = Some [c] /\ cstring m (a + 1) s /\ 0 <= a /\ a + 1 < 2 ^ 64.
Proof.
  unfold cstring, fits. cbn [length]. intros ((A0 & A1) & Hz & Hr). apply Forall_cons in Hz as [Hc Hs].
  apply (read_bytes_app m a 1 (S (length s))) in Hr as [R1 R2]. cbn [app take drop] in R1, R2.
  repeat split; auto; lia.
Qed.

Lemma cstring_nil m a : cstring m a [] -> read_bytes m a 1 = Some [0].
Proof. by intros (_ & _ & Hr). Qed.

Lemma load_char m a c : read_bytes m a 1 = Some [c] -> load 1 a m = Ret c m.
Proof.
  intros H. rewrite (load_spec 1 a m [c]) by (auto using Z.mod_1_r). cbn. by rewrite Z.add_0_r.
Qed.

Lemma strlen_loop_spec m s a fuel :
  cstring m a s -> (length s < fuel)%nat -> strlen_loop fuel a m = Ret (a + Z.of_nat (length s)) m.
Proof.
  revert a fuel. induction s as [|c s IH]; intros a fuel Hs Hf; destruct fuel as [|fuel]; cbn in Hf; try lia.
  - cbn. unfold bind. rewrite (load_char m a 0) by (by apply cstring_nil). cbn. by rewrite Z.add_0_r.
  - apply cstring_cons in Hs as (Hc & R & Hs & A0 & A1). cbn [strlen_loop]. unfold bind.
    rewrite (load_char m a c R), (proj2 (Z.eqb_neq _ _) Hc), wrapu_small by (unfold inu; lia).
    rewrite IH by (auto; lia). cbn [length]. f_equal. lia.
Qed.

Lemma strlen_spec m a s : cstring m a s -> strlen a m = Ret (Z.of_nat (length s)) m.
Proof.
  intros Hs. unfold strlen, bind. pose proof Hs as (F & _ & R).
  pose proof (mapped_size m a (S (length s)) F ltac:(by eexists)).
  rewrite (strlen_loop_spec m s) by (auto; lia). unfold ret, fits in *. f_equal.
  replace (a + Z.of_nat (length s) - a) with (Z.of_nat (length s)) by lia.
  apply wrapu_small. unfold inu. lia.
Qed.

Lemma cstring_write m a s b l :
  cstring m a s -> fits b (length l) -> apart a (S (length s)) b (length l) ->
  cstring (write_bytes m b l) a s.
Proof. intros (F & Hz & Hr) Hb Hd. repeat split; auto; try apply F. by rewrite read_write_apart. Qed.

Lemma strcpy_loop_spec s m d a fuel :
  cstring m a s -> bytes_ok m -> fits d (S (length s)) -> mapped m d (S (length s)) ->
  apart a (S (length s)) d (S (length s)) -> (length s < fuel)%nat ->
  strcpy_loop fuel d a m = Ret tt (write_bytes m d (s ++ [0])).
Proof.
  revert m d a fuel. induction s as [|c s IH]; intros m d a fuel Hs Hm Hd Hp Hx Hf;
    destruct fuel as [|fuel]; cbn [length] in Hf; try lia.
  - apply cstring_nil in Hs. cbn [strcpy_loop]. unfold bind. rewrite (load_char m a 0 Hs).
    rewrite (store_spec 1 d 0 m) by (auto using Z.mod_1_r). done.
  - cbn [length] in *. pose proof Hs as Hs0. apply cstring_cons in Hs as (Hc & R & Hs & A0 & A1).
    pose proof (read_bytes_ok _ _ _ _ Hm R) as Bc. apply Forall_cons_1 in Bc as [Bc _].
    apply (mapped_app m d 1) in Hp as [P1 P2]. unfold fits, apart in *.
    cbn [strcpy_loop]. unfold bind. rewrite (load_char m a c R).
    rewrite (store_spec 1 d c m) by (auto using Z.mod_1_r).
    rewrite (proj2 (Z.eqb_neq _ _) Hc), le_split_1, (wrapu_small 8 c Bc), !wrapu_small by (unfold inu; lia).
    rewrite IH.
    + done.
    + apply cstring_write; unfold fits, apart; auto; cbn [length]; lia.
    + apply bytes_ok_write; auto.
    + unfold fits; lia.
    + by apply mapped_write.
    + unfold apart; lia.
    + lia.
Qed.

Lemma strcpy_spec m d a s :
  cstring m a s -> bytes_ok m -> fits d (S (length s)) -> mapped m d (S (length s)) ->
  apart a (S (length s)) d (S (length s)) ->
  strcpy d a m = Ret d (write_bytes m d (s ++ [0])).
Proof.
  intros Hs Hm Hd Hp Hx. unfold strcpy, bind. pose proof Hs as (F & _ & R).
  pose proof (mapped_size m a (S (length s)) F ltac:(by eexists)).
  by rewrite (strcpy_loop_spec s) by (auto; lia).
Qed.

(** ** Decimal numerals *)

(** The value of a digit string, read from the left onto [acc]. *)
Fixpoint dec_value (acc : Z) (s : list Z) : Z :=
  match s with
  | [] => acc
  | c :: s' => dec_value (10 * acc + (c - 48)) s'
  end.

Definition is_digit (c : Z) : Prop := 48 <= c < 58.

Lemma dec_value_ge s acc : Forall is_digit s -> 0 <= acc -> acc <= dec_value acc s.
Proof.
  intros H. revert acc. induction H as [|c s Hc Hs IH]; intros acc Ha; cbn; [lia|].
  unfold is_digit in Hc. etrans; [|apply IH]; lia.
Qed.

Lemma atol_digits_spec m s a acc fuel :
  cstring m a s -> Forall is_digit s -> 0 <= acc -> dec_value acc s < 2 ^ 63 ->
  (length s < fuel)%nat ->
  atol_digits fuel a acc m = Ret (dec_value acc s) m.
Proof.
  revert a acc fuel. induction s as [|c s IH]; intros a acc fuel Hs Hd Ha Hv Hf;
    destruct fuel as [|fuel]; cbn [length] in Hf; try lia; cbn [atol_digits dec_value] in *.
  - unfold bind. by rewrite (load_char m a 0) by (by apply cstring_nil).
  - apply cstring_cons in Hs as (Hc & R & Hs & A0 & A1). apply Forall_cons in Hd as [Hc' Hd].
    pose proof (dec_value_ge s (10 * acc + (c - 48)) Hd) as G. unfold is_digit in Hc'.
    unfold bind, long. rewrite (load_char m a c R), (proj2 (Z.eqb_neq _ _) Hc).
    destruct (Z.leb_spec (- 2 ^ 63) (acc * 10)), (Z.ltb_spec (acc * 10) (2 ^ 63)); try lia. cbn [andb].
    unfold ret. replace (acc * 10 + (c - 48)) with (10 * acc + (c - 48)) by lia.
    destruct (Z.leb_spec (- 2 ^ 63) (10 * acc + (c - 48))), (Z.ltb_spec (10 * acc + (c - 48)) (2 ^ 63));
      try lia. cbn [andb].
    rewrite wrapu_small by (unfold inu; lia). apply IH; auto; lia.
Qed.

Lemma skip_spaces_spec m k s a fuel c :
  cstring m a (replicate k 32 ++ s) -> head (s ++ [0]) = Some c -> c <> 32 -> (k < fuel)%nat ->
  skip_spaces fuel a m = Ret (a + Z.of_nat k) m /\ cstring m (a + Z.of_nat k) s /\
  load 1 (a + Z.of_nat k) m = Ret c m.
Proof.
  revert a fuel. induction k as [|k IH]; intros a fuel Hs Hh Hc Hf; destruct fuel as [|fuel]; try lia.
  - rewrite Z.add_0_r. cbn [replicate app] in Hs.
    assert (read_bytes m a 1 = Some [c]) as R.
    { destruct s as [|c' s]; cbn in Hh; injection Hh as <-;
        [by apply cstring_nil|by apply cstring_cons in Hs as (_ & R & _)]. }
    cbn [skip_spaces]. unfold bind. rewrite !(load_char m a c R), (proj2 (Z.eqb_neq _ _) Hc). done.
  - cbn [replicate app] in Hs. apply cstring_cons in Hs as (_ & R & Hs & A0 & A1).
    cbn [skip_spaces]. unfold bind. rewrite (load_char m a 32 R), wrapu_small by (unfold inu; lia).
    cbn [Z.eqb]. replace (a + Z.of_nat (S k)) with (a + 1 + Z.of_nat k) by lia.
    apply IH; auto. lia.
Qed.

(** [atol] reads an optional sign and digits after leading spaces. *)
Lemma atol_spec m a k (neg : bool) s :
  cstring m a (replicate k 32 ++ (if neg then [45] else []) ++ s) -> Forall is_digit s ->
  dec_value 0 s < 2 ^ 63 ->
  atol a m = Ret (if neg then - dec_value 0 s else dec_value 0 s) m.
Proof.
  intros Hs Hd Hv. pose proof Hs as (F & _ & R).
  pose proof (mapped_size m a _ F ltac:(by eexists)) as Hz. rewrite !length_app, length_replicate in Hz.
  set (c := if neg then 45 else from_option (fun c => c) 0 (head (s ++ [0]))).
  assert (c <> 32 /\ ((c =? 45) || (c =? 43)) = neg) as [Hc Hn].
  { unfold c. destruct neg; [split; [lia|done]|]. destruct Hd as [|x s Hx Hd]; [split; [cbn; lia|done]|].
    cbn [app head from_option]. unfold is_digit in Hx. split; [lia|].
    rewrite !(proj2 (Z.eqb_neq x _)) by lia. done. }
  destruct (skip_spaces_spec m k ((if neg then [45] else []) ++ s) a (S (size m)) c) as (E1 & C1 & E2); auto.
  { unfold c. destruct neg; [done|]. by destruct s. }
  { lia. }
  pose proof (dec_value_ge s 0 Hd ltac:(lia)).
  unfold atol, bind at 1. rewrite E1. unfold bind at 1. rewrite E2, Hn. unfold bind.
  destruct neg; cbn [andb app] in *.
  - apply cstring_cons in C1 as (_ & _ & C1 & A0 & A1). rewrite wrapu_small by (unfold inu; lia).
    rewrite (atol_digits_spec m s) by (auto; cbn in Hz; lia).
    unfold long. destruct (Z.eqb_spec c 45); [|lia].
    destruct (Z.leb_spec (- 2 ^ 63) (- dec_value 0 s)), (Z.ltb_spec (- dec_value 0 s) (2 ^ 63)); try lia. done.
  - rewrite (atol_digits_spec m s) by (auto; cbn in Hz; lia). done.
Qed.

(** ** The routines against their byte-wise meaning *)

(** [len] bytes of the address map at [a]. *)
Definition buffer (m : memory) (a len : Z) : Prop :=
  0 <= a /\ 0 <= len /\ a + len < 2 ^ 64 /\ mapped m a (Z.to_nat len).

#[export] Instance buffer_dec m a len : Decision (buffer m a len).
Proof. unfold buffer. apply _. Defined.

(** C37. For buffers in the address map, the routines of string.c return and do what
    their byte-wise definitions say, whichever of the word and byte loops runs: memcpy
    writes the source bytes to a destination that does not overlap, memset writes the
    low byte of its argument len times, strlen counts the characters before the
    terminator, and strcpy writes the characters and the terminator. *)
Theorem string_routines_bytewise (m : memory) :
  bytes_ok m ->
  (forall dest src len bs, buffer m dest len -> buffer m src len ->
     apart src (Z.to_nat len) dest (Z.to_nat len) ->
     read_bytes m src (Z.to_nat len) = Some bs ->
     memcpy dest src len m = Ret dest (write_bytes m dest bs)) /\
  (forall dest byte len, buffer m dest len ->
     memset dest byte len m = Ret dest (write_bytes m dest (replicate (Z.to_nat len) (u8 byte)))) /\
  (forall a s, cstring m a s -> strlen a m = Ret (Z.of_nat (length s)) m) /\
  (forall dest a s, cstring m a s -> buffer m dest (Z.of_nat (S (length s))) ->
     apart a (S (length s)) dest (S (length s)) ->
     strcpy dest a m = Ret dest (write_bytes m dest (s ++ [0]))).
Proof.
  intros Hm. unfold buffer. split_and!.
  - intros dest src len bs (?&?&?&?) (?&?&?&?) ??. by apply memcpy_spec.
  - intros dest byte len (?&?&?&?). by apply memset_spec.
  - intros. by apply strlen_spec.
  - intros dest a s Hs (?&?&?&?) Hx. rewrite Nat2Z.id in *. apply strcpy_spec; auto. unfold fits. lia.
Qed.

Lemma string_routines_bytewise_witness :
  let m := write_bytes ∅ 0x1000 (map Z.of_nat (seq 1 24) ++ [0]) in
  let m' := write_bytes m 0x1008 (map Z.of_nat (seq 17 8)) in
  memcpy 0x1008 0x1010 8 m = Ret 0x1008 m' /\
  memset 0x1001 (-1) 3 m = Ret 0x1001 (write_bytes m 0x1001 [255; 255; 255]) /\
  strlen 0x1014 m = Ret 4 m /\
  strcpy 0x1000 0x1014 m = Ret 0x1000 (write_bytes m 0x1000 [21; 22; 23; 24; 0]).
Proof.
  intros m m'.
  assert (bytes_ok m) as Hm.
  { apply bytes_ok_write; [apply map_Forall_empty|]. vm_decide. }
  destruct (string_routines_bytewise m Hm) as (H1 & H2 & H3 & H4). split_and!.
  - apply H1; vm_decide.
  - apply H2; vm_decide.
  - apply (H3 0x1014 [21; 22; 23; 24]); vm_decide.
  - apply (H4 0x1000 0x1014 [21; 22; 23; 24]); vm_decide.
Defined.
