(* ===== verification/Uart.v ===== *)
(** * The serial port ([driver/uart.c])

    The driver polls a Xilinx AXI UART 16550, which is not part of the sources: its
    registers are the class [UartDevice], and the documented behaviour the driver
    relies on is the class [UartLaws].  [uart16550] is a device that satisfies the
    laws.  The theorems about the driver are proved against the class. *)

From Stdlib Require Import ZArith Lia Bool List String.
From stdpp Require Import base gmap list.
From S2P Require Import Prelude.
Open Scope Z_scope.
Open Scope word_scope.

(** ** Registers ([driver/uart.h]) *)
Definition UART_RBR : Z := 0x0.
Definition UART_THR : Z := 0x0.
Definition UART_IER : Z := 0x1.
Definition UART_LCR : Z := 0x3.
Definition UART_LSR : Z := 0x5.
Definition UART_DLL : Z := 0x0.
Definition UART_DLM : Z := 0x1.

(** A device that answers 32-bit register accesses.  [tx_bound] bounds the number of
    status reads a character in transmission lasts. *)
Class UartDevice (U : Type) := {
  uart_get : Z -> U -> Z * U;
  uart_put : Z -> Z -> U -> U;
  tx_bound : nat;
}.

(** What the driver relies on: in normal operation (divisor latch closed) bit 6 of
    the status says that the transmitter is empty, which it is after [tx_wait] more
    reads; bit 0 says that a received character waits; a write to the holding
    register of an empty transmitter sends one character.  Characters may arrive at
    any access. *)
Class UartLaws (U : Type) `{UartDevice U} := {
  uart_open : U -> Prop;
  sent : U -> list Z;
  received : U -> list Z;
  tx_wait : U -> nat;
  tx_wait_bound u : (tx_wait u <= tx_bound)%nat;
  received_bytes u : Forall (inu 8) (received u);
  lsr_read u : uart_open u ->
    let (v, u') := uart_get UART_LSR u in
    uart_open u' /\ sent u' = sent u /\ (exists more, received u' = received u ++ more) /\
    tx_wait u' = pred (tx_wait u) /\
    ((v &&& 0x40) = 0 <-> tx_wait u <> 0%nat) /\ ((v &&& 0x01) = 0 <-> received u = []);
  rbr_read u c rest : uart_open u -> received u = c :: rest ->
    let (v, u') := uart_get UART_RBR u in
    u8 v = c /\ uart_open u' /\ sent u' = sent u /\ exists more, received u' = rest ++ more;
  thr_write u c : uart_open u -> tx_wait u = 0%nat ->
    let u' := uart_put UART_THR c u in
    uart_open u' /\ sent u' = sent u ++ [u8 c] /\ exists more, received u' = received u ++ more;
  lcr_close u v : Z.testbit v 7 = false -> uart_open (uart_put UART_LCR v u);
  ier_write u v : uart_open u -> uart_open (uart_put UART_IER v u);
}.

(** ** The driver *)
Section Driver.
Context {U : Type} `{UartDevice U}.

Definition reg_read (r : Z) : ST U Z := fun u => let (v, u') := uart_get r u in Ret (u32 v) u'.
Definition reg_write (r v : Z) : ST U unit := modify (uart_put r (u32 v)).

Definition uart_init : ST U unit :=
  reg_write UART_LCR 0x0080 ;;
  reg_write UART_DLL (50 * 1000 * 1000 / (16 * 115200) mod 0x100) ;;
  reg_write UART_DLM ((50 * 1000 * 1000 / (16 * 115200)) >>> 8) ;;
  reg_write UART_LCR 0x000B ;;
  reg_write UART_IER 0x0001.

(** [while (! ( *(uart_base_ptr + UART_LSR) & mask))]. *)
Definition poll_lsr (fuel : nat) (mask : Z) : ST U unit :=
  while fuel (let! v := reg_read UART_LSR in ret ((v &&& mask) =? 0)) (ret tt).

Definition uart_send (data : Z) : ST U unit :=
  poll_lsr (S (S tx_bound)) 0x40 ;;
  reg_write UART_THR data.

(** A C string argument is the list of its characters. *)
Fixpoint uart_send_string (str : list Z) : ST U unit :=
  match str with
  | [] => ret tt
  | c :: str' =>
      if c =? 0 then ret tt
      else poll_lsr (S (S tx_bound)) 0x40 ;;
           reg_write UART_THR c ;;
           uart_send_string str'
  end.

(** [for (i = 0; i < len; i++)], by the number of iterations left. *)
Fixpoint send_buf_loop (buf : list Z) (i k : nat) : ST U unit :=
  match k with
  | O => ret tt
  | S k' =>
      poll_lsr (S (S tx_bound)) 0x40 ;;
      match buf !! i with
      | Some c => reg_write UART_THR c ;; send_buf_loop buf (S i) k'
      | None => undef
      end
  end.

Definition uart_send_buf (buf : list Z) (len : Z) : ST U unit := send_buf_loop buf 0 (Z.to_nat len).

Definition uart_recv (fuel : nat) : ST U Z :=
  poll_lsr fuel 0x01 ;;
  let! v := reg_read UART_RBR in
  ret (u8 v).

Definition uart_read_irq : ST U Z :=
  let! v := reg_read UART_RBR in ret (u8 v).

Definition uart_check_read_irq : ST U Z :=
  let! v := reg_read UART_LSR in ret (u8 (v &&& 0x01)).

Definition uart_enable_read_irq : ST U unit := reg_write UART_IER 0x0001.
Definition uart_disable_read_irq : ST U unit := reg_write UART_IER 0x0000.
End Driver.

(** ** The driver against the laws *)
Section DriverLaws.
Context {U : Type} `{UartLaws U}.

(** [u'] is [u] after [out] was sent and some characters arrived. *)
Definition advanced (out : list Z) (u u' : U) : Prop :=
  uart_open u' /\ sent u' = sent u ++ out /\ exists more, received u' = received u ++ more.

Lemma advanced_refl u : uart_open u -> advanced [] u u.
Proof. intros. split_and!; [done|by rewrite app_nil_r|exists []; by rewrite app_nil_r]. Qed.

Lemma advanced_trans o1 o2 u1 u2 u3 :
  advanced o1 u1 u2 -> advanced o2 u2 u3 -> advanced (o1 ++ o2) u1 u3.
Proof.
  intros (_ & S1 & m1 & R1) (O & S2 & m2 & R2). split_and!; [done| |exists (m1 ++ m2)].
  - by rewrite S2, S1, app_assoc.
  - by rewrite R2, R1, app_assoc.
Qed.

Lemma land_u32 v k : inu 32 k -> (u32 v &&& k) = (v &&& k).
Proof. intros Hk. apply Z.bits_inj'. intros i Hi. autorewrite with testbit. repeat split_ltb; kill_bits; done || by rewrite !andb_false_r. Qed.

Lemma poll_tx u fuel :
  uart_open u -> (tx_wait u < fuel)%nat ->
  returns (poll_lsr fuel 0x40) u (fun _ u' => advanced [] u u' /\ tx_wait u' = 0%nat).
Proof.
  revert u. induction fuel as [|fuel IH]; intros u Hu Hf; [lia|].
  unfold poll_lsr. cbn [while]. unfold returns, bind, reg_read, ret.
  pose proof (lsr_read u Hu) as L. destruct (uart_get UART_LSR u) as [v u'].
  destruct L as (O & St & R & W & T & _). rewrite land_u32 by vm_decide.
  assert (advanced [] u u') as A by (split_and!; auto; by rewrite app_nil_r).
  destruct (Z.eqb_spec (v &&& 0x40) 0) as [E|E].
  - apply T in E. destruct (IH u' O) as (t & u2 & E2 & A2 & W2); [lia|].
    exists t, u2. split; [done|]. split; [|done]. by apply (advanced_trans [] [] _ u').
  - exists tt, u'. split_and!; [done|done|].
    destruct (decide (tx_wait u = 0%nat)); [lia|]. exfalso. tauto.
Qed.

(** One polled transmission. *)
Lemma poll_send u c :
  uart_open u -> inu 8 c ->
  returns (poll_lsr (S (S tx_bound)) 0x40 ;; reg_write UART_THR c) u (fun _ u' => advanced [c] u u').
Proof.
  intros Hu Hc. eapply returns_bind; [apply poll_tx; [done|pose proof (tx_wait_bound u); lia]|].
  intros _ u1 [A1 W1]. apply returns_modify. pose proof A1 as (O1 & _).
  destruct (thr_write u1 (u32 c) O1 W1) as (O & St & R).
  apply (advanced_trans [] [c] _ u1); [done|]. split_and!; auto.
  rewrite St, wrapu_wrapu, wrapu_small by (lia || done). done.
Qed.

Lemma uart_send_spec u c :
  uart_open u -> inu 8 c -> returns (uart_send c) u (fun _ u' => advanced [c] u u').
Proof. apply poll_send. Qed.

Lemma bind_assoc_poll {B} (m1 m2 : ST U unit) (k : ST U B) u (Q : U -> Prop) P :
  returns (m1 ;; m2) u (fun _ => Q) -> (forall u', Q u' -> returns k u' P) ->
  returns (m1 ;; m2 ;; k) u P.
Proof.
  intros (a & u' & E & HQ) Hk. destruct (Hk u' HQ) as (b & u2 & E2 & HP). exists b, u2. split; [|done].
  unfold bind in *. destruct (m1 u); try done. by rewrite E.
Qed.

Lemma uart_send_string_spec str u :
  uart_open u -> Forall (inu 8) str -> Forall (fun c => c <> 0) str ->
  returns (uart_send_string str) u (fun _ u' => advanced str u u').
Proof.
  intros Hu Hb Hz. revert u Hu Hz. induction Hb as [|c str Hc Hb IH]; intros u Hu Hz.
  { by apply returns_ret, advanced_refl. }
  apply Forall_cons in Hz as [Hc0 Hz]. cbn [uart_send_string]. rewrite (proj2 (Z.eqb_neq _ _) Hc0).
  eapply bind_assoc_poll; [by apply poll_send|]. intros u' A. pose proof A as (O & _).
  eapply returns_mono; [by apply IH|]. intros [] u2 A2. by apply (advanced_trans [c] str _ u').
Qed.

Lemma send_buf_loop_spec buf k i u :
  uart_open u -> Forall (inu 8) buf -> (i + k <= length buf)%nat ->
  returns (send_buf_loop buf i k) u (fun _ u' => advanced (take k (drop i buf)) u u').
Proof.
  revert i u. induction k as [|k IH]; intros i u Hu Hb Hl.
  { by apply returns_ret, advanced_refl. }
  destruct (lookup_lt_is_Some_2 buf i) as [c Hc]; [lia|].
  cbn [send_buf_loop]. rewrite Hc, (drop_S buf c i Hc). cbn [take].
  eapply bind_assoc_poll; [apply poll_send; [done|]; by eapply Forall_lookup_1|].
  intros u' A. pose proof A as (O & _). eapply returns_mono; [apply IH; auto; lia|].
  intros [] u2 A2. by apply (advanced_trans [c] _ _ u').
Qed.

Lemma uart_send_buf_spec buf len u :
  uart_open u -> Forall (inu 8) buf -> len <= Z.of_nat (length buf) ->
  returns (uart_send_buf buf len) u (fun _ u' => advanced (take (Z.to_nat len) buf) u u').
Proof.
  intros Hu Hb Hl. eapply returns_mono; [apply send_buf_loop_spec; auto; lia|]. by rewrite drop_0.
Qed.

(** The receive interrupt is pending exactly when a character waits; the read takes
    the oldest one. *)
Lemma uart_check_read_irq_spec u :
  uart_open u ->
  returns uart_check_read_irq u (fun v u' => advanced [] u u' /\ (v = 0 <-> received u = [])).
Proof.
  intros Hu. unfold uart_check_read_irq, returns, bind, reg_read, ret.
  pose proof (lsr_read u Hu) as L. destruct (uart_get UART_LSR u) as [v u'].
  destruct L as (O & St & R & _ & _ & T). rewrite land_u32 by vm_decide.
  eexists _, u'. split; [done|]. split; [split_and!; auto; by rewrite app_nil_r|].
  rewrite wrapu_small; [done|]. apply (inu_weaken 1); [lia..|]. apply land_range; [lia|vm_decide].
Qed.

Lemma uart_read_irq_spec u c rest :
  uart_open u -> received u = c :: rest ->
  returns uart_read_irq u (fun v u' => v = c /\ uart_open u' /\ sent u' = sent u /\
                                       exists more, received u' = rest ++ more).
Proof.
  intros Hu Hr. unfold uart_read_irq, returns, bind, reg_read, ret.
  pose proof (rbr_read u c rest Hu Hr) as L. destruct (uart_get UART_RBR u) as [v u'].
  destruct L as (E & O & St & R). eexists _, u'. split; [done|]. split_and!; auto.
  by rewrite wrapu_wrapu by lia.
Qed.

Lemma uart_init_opens u : returns uart_init u (fun _ u' => uart_open u').
Proof. eexists tt, _. split; [reflexivity|]. by apply ier_write, lcr_close. Qed.
End DriverLaws.

(** ** A device that satisfies the laws *)

(** Line control and interrupt enable, the divisor latch, the number of status reads
    the character in transmission still lasts, the characters sent and received, and
    what arrives at the next accesses. *)
Record uart16550 := Uart16550 {
  u_lcr : Z; u_ier : Z; u_dll : Z; u_dlm : Z;
  u_busy : nat; u_line : list Z; u_fifo : list Z; u_incoming : list Z;
}.

Definition u_dlab (u : uart16550) : bool := Z.testbit (u_lcr u) 7.

(** Time passes: the next character arrives. *)
Definition u_tick (busy : nat) (line fifo : list Z) (u : uart16550) : uart16550 :=
  match u_incoming u with
  | [] => Uart16550 (u_lcr u) (u_ier u) (u_dll u) (u_dlm u) busy line fifo []
  | c :: inc => Uart16550 (u_lcr u) (u_ier u) (u_dll u) (u_dlm u) busy line (fifo ++ [u8 c]) inc
  end.

Definition u_get (r : Z) (u : uart16550) : Z * uart16550 :=
  if r =? UART_LSR then
    (b2z (negb (bool_decide (u_fifo u = []))) + 0x60 * b2z (u_busy u =? 0)%nat,
     u_tick (pred (u_busy u `min` 10)) (u_line u) (u_fifo u) u)
  else if (r =? UART_RBR) && negb (u_dlab u) then
    (hd 0 (u_fifo u), u_tick (pred (u_busy u `min` 10)) (u_line u) (tl (u_fifo u)) u)
  else (0, u).

Definition u_put (r v : Z) (u : uart16550) : uart16550 :=
  if r =? UART_LCR then
    Uart16550 (u8 v) (u_ier u) (u_dll u) (u_dlm u) (u_busy u) (u_line u) (u_fifo u) (u_incoming u)
  else if r =? UART_THR then
    if u_dlab u
    then Uart16550 (u_lcr u) (u_ier u) (u8 v) (u_dlm u) (u_busy u) (u_line u) (u_fifo u) (u_incoming u)
    else u_tick 10 (u_line u ++ [u8 v]) (u_fifo u) u
  else if r =? UART_IER then
    if u_dlab u
    then Uart16550 (u_lcr u) (u_ier u) (u_dll u) (u8 v) (u_busy u) (u_line u) (u_fifo u) (u_incoming u)
    else Uart16550 (u_lcr u) (u8 v) (u_dll u) (u_dlm u) (u_busy u) (u_line u) (u_fifo u) (u_incoming u)
  else u.

#[export] Instance uart16550_device : UartDevice uart16550 :=
  { uart_get := u_get; uart_put := u_put; tx_bound := 10 }.

Lemma u_tick_fields b l f u :
  u_lcr (u_tick b l f u) = u_lcr u /\ u_busy (u_tick b l f u) = b /\ u_line (u_tick b l f u) = l /\
  exists more, u_fifo (u_tick b l f u) = f ++ more.
Proof.
  unfold u_tick. destruct (u_incoming u) as [|c inc]; cbn; split_and!; try done.
  - exists []. by rewrite app_nil_r.
  - by eexists.
Qed.

#[export] Program Instance uart16550_laws : UartLaws uart16550 := {
  uart_open u := u_dlab u = false;
  sent := u_line;
  received u := map (wrapu 8) (u_fifo u);
  tx_wait u := (u_busy u `min` 10)%nat;
}.
Next Obligation. intros u. cbn. lia. Qed.
Next Obligation. intros u. apply Forall_fmap, Forall_true. intros c. by apply wrapu_range. Qed.
Next Obligation.
  intros u Hu. unfold uart_get, uart16550_device, u_get. cbn [Z.eqb UART_LSR Pos.eqb].
  destruct (u_tick_fields (pred (u_busy u `min` 10)) (u_line u) (u_fifo u) u) as (L & B & Ln & more & F).
  unfold u_dlab in *. rewrite L, B, Ln, F, map_app. split_and!; auto; [by eexists|lia| |].
  - destruct (u_busy u) as [|b]; cbn; [|destruct b; cbn]; destruct (bool_decide _); cbn;
      split; intros X; done || lia.
  - assert (map (wrapu 8) (u_fifo u) = [] <-> u_fifo u = []) as -> by (split; [apply fmap_nil_inv|by intros ->]).
    destruct (bool_decide_reflect (u_fifo u = [])), (u_busy u =? 0)%nat; cbn; split; intros X; done.
Qed.
Next Obligation.
  intros u c rest Hu Hr. unfold uart_get, uart16550_device, u_get. cbn [Z.eqb UART_LSR UART_RBR]. rewrite Hu.
  cbn [andb negb].
  destruct (u_tick_fields (pred (u_busy u `min` 10)) (u_line u) (tl (u_fifo u)) u) as (L & B & Ln & more & F).
  unfold u_dlab in *. rewrite L, Ln, F, map_app. destruct (u_fifo u) as [|c' f]; [done|].
  cbn [map] in Hr. injection Hr as <- <-. split_and!; auto. by eexists.
Qed.
Next Obligation.
  intros u c Hu Hw. unfold uart_put, uart16550_device, u_put. cbn [Z.eqb UART_LCR UART_THR]. rewrite Hu.
  destruct (u_tick_fields 10 (u_line u ++ [u8 c]) (u_fifo u) u) as (L & B & Ln & more & F).
  unfold u_dlab in *. cbv zeta. rewrite L, Ln, F, map_app. split_and!; auto. by eexists.
Qed.
Next Obligation.
  intros u v Hv. unfold uart_put, uart16550_device, u_put, u_dlab. cbn [Z.eqb UART_LCR Pos.eqb u_lcr].
  rewrite testbit_wrapu by lia. by rewrite Hv.
Qed.
Next Obligation.
  intros u v Hu. unfold uart_put, uart16550_device, u_put. cbn [Z.eqb UART_LCR UART_IER UART_THR Pos.eqb].
  rewrite Hu. done.
Qed.

(** C28. On any device with the documented behaviour, once uart_init has run every
    transmission completes whatever characters arrive meanwhile: the polling loops end,
    and uart_send, uart_send_string and uart_send_buf put exactly their bytes on the
    line, in order, after what was sent before. *)
Theorem uart_transmission {U} `{UartLaws U} (u0 : U) :
  returns uart_init u0 (fun _ u =>
    (forall c, inu 8 c -> returns (uart_send c) u (fun _ u' => advanced [c] u u')) /\
    (forall str, Forall (inu 8) str -> Forall (fun c => c <> 0) str ->
       returns (uart_send_string str) u (fun _ u' => advanced str u u')) /\
    (forall buf len, Forall (inu 8) buf -> len <= Z.of_nat (length buf) ->
       returns (uart_send_buf buf len) u (fun _ u' => advanced (take (Z.to_nat len) buf) u u'))).
Proof.
  eapply returns_mono; [apply uart_init_opens|]. intros [] u Hu. split_and!; intros.
  - by apply uart_send_spec.
  - by apply uart_send_string_spec.
  - by apply uart_send_buf_spec.
Qed.

Lemma uart_transmission_witness :
  let u0 := Uart16550 0 0 0 0 7 [] [] [97; 98; 99] in
  exists u, uart_init u0 = Ret tt u /\ u_line u = [] /\
    returns (uart_send_string [72; 105]) u (fun _ u' => u_line u' = [72; 105]).
Proof.
  intros u0. destruct (uart_transmission u0) as (t & u & E & _ & Hs & _). exists u.
  destruct t. split; [done|]. vm_compute in E. injection E as <-. split; [done|].
  eapply returns_mono; [apply (Hs [72; 105]); vm_decide|]. intros [] u' (_ & St & _). exact St.
Defined.
