(* ===== verification/Console.v ===== *)
(** * Console output ([bbl/console.c])

    [vsnprintf] and its callers.  The reference definition [render] gives the text of
    a format; the theorems say that [vsnprintf] writes it with the truncation of
    [snprintf] and never outside its buffer, when it does not return, and what
    [printk] puts on the serial line. *)

From Stdlib Require Import ZArith Lia Bool List String.
From stdpp Require Import base gmap list.
From S2P Require Import Prelude Machine Memory Uart.
Open Scope Z_scope.
Open Scope word_scope.

(** ** State *)

(** A variadic argument: an [int], a [long], or a string given by its characters. *)
Inductive arg := AInt (z : Z) | ALong (z : Z) | AStr (s : list Z).

(** The buffer, the position and the arguments still to read. *)
Record vstate := V { out : list Z; pos : Z; vl : list arg }.

Definition put (i c : Z) : ST vstate unit := fun v =>
  if (0 <=? i) && (i <? Z.of_nat (length (out v)))
  then Ret tt (V (<[Z.to_nat i := u8 c]> (out v)) (pos v) (vl v))
  else Undef.

Definition va_arg_int : ST vstate Z := fun v =>
  match vl v with AInt z :: vl' => Ret (s32 z) (V (out v) (pos v) vl') | _ => Undef end.
Definition va_arg_long : ST vstate Z := fun v =>
  match vl v with ALong z :: vl' => Ret (s64 z) (V (out v) (pos v) vl') | _ => Undef end.
Definition va_arg_str : ST vstate (list Z) := fun v =>
  match vl v with AStr s :: vl' => Ret s (V (out v) (pos v) vl') | _ => Undef end.

Definition va_num (longarg : bool) : ST vstate Z := if longarg then va_arg_long else va_arg_int.

(** ** [vsnprintf] *)
Section Vsnprintf.
(** The buffer size, and a bound on the iterations of the [%s] loop. *)
Variable n : Z.
Variable fuel : nat.

(** [if (++pos < n) out[pos-1] = c]. *)
Definition emit (c : Z) : ST vstate unit :=
  modify (fun v => V (out v) (u64 (pos v + 1)) (vl v)) ;;
  let! p := gets pos in
  if p <? n then put (p - 1) c else ret tt.

Definition hex_digit (d : Z) : Z := if d <? 10 then 48 + d else 97 + d - 10.

(** [for (int i = k-1; i >= 0; i--)]. *)
Fixpoint emit_hex (num : Z) (k : nat) : ST vstate unit :=
  match k with
  | O => ret tt
  | S i => emit (hex_digit ((num >>> (4 * Z.of_nat i)) &&& 0xF)) ;; emit_hex num i
  end.

Definition fmt_x (longarg : bool) : ST vstate unit :=
  let! num := va_num longarg in
  emit_hex num (2 * (if longarg then 8 else 4)).

(** [for (long nn = num; nn /= 10; digits++)]: a [long] has at most 19 digits. *)
Fixpoint count_digits (k : nat) (nn digits : Z) : Z :=
  match k with
  | O => digits
  | S k' => if Z.quot nn 10 =? 0 then digits else count_digits k' (Z.quot nn 10) (digits + 1)
  end.

(** [for (int i = k-1; i >= 0; i--)]. *)
Fixpoint put_digits (num : Z) (k : nat) : ST vstate unit :=
  match k with
  | O => ret tt
  | S i =>
      let! p := gets pos in
      (if u64 (p + Z.of_nat i + 1) <? n
       then put (u64 (p + Z.of_nat i)) (48 + Z.rem num 10) else ret tt) ;;
      put_digits (Z.quot num 10) i
  end.

Definition fmt_d (longarg : bool) : ST vstate unit :=
  let! num := va_num longarg in
  let! num := (if num <? 0 then
                 (* the negation of the least [long] overflows *)
                 (if num =? - 2 ^ 63 then undef else emit 45 ;; ret (- num))
               else ret num) in
  let digits := count_digits 64 num 1 in
  put_digits num (Z.to_nat digits) ;;
  modify (fun v => V (out v) (u64 (pos v + digits)) (vl v)).

(** [while ( *s2) if (++pos < n) out[pos-1] = *s2++]. *)
Fixpoint fmt_s_loop (k : nat) (s2 : list Z) : ST vstate unit :=
  match k with
  | O => hang
  | S k' =>
      match s2 with
      | [] => ret tt
      | c :: s2' =>
          if c =? 0 then ret tt
          else modify (fun v => V (out v) (u64 (pos v + 1)) (vl v)) ;;
               let! p := gets pos in
               if p <? n then put (p - 1) c ;; fmt_s_loop k' s2' else fmt_s_loop k' s2
      end
  end.

Definition fmt_s : ST vstate unit :=
  let! s2 := va_arg_str in fmt_s_loop fuel s2.

Definition fmt_c : ST vstate unit :=
  modify (fun v => V (out v) (u64 (pos v + 1)) (vl v)) ;;
  let! p := gets pos in
  if p <? n then let! c := va_arg_int in put (p - 1) c else ret tt.

Fixpoint fmt_loop (format longarg : bool) (s : list Z) : ST vstate unit :=
  match s with
  | [] => ret tt
  | c :: s' =>
      if format then
        if c =? 108 then fmt_loop true true s'
        else if c =? 112 then emit 48 ;; emit 120 ;; fmt_x true ;; fmt_loop false false s'
        else if c =? 120 then fmt_x longarg ;; fmt_loop false false s'
        else if c =? 100 then fmt_d longarg ;; fmt_loop false false s'
        else if c =? 115 then fmt_s ;; fmt_loop false false s'
        else if c =? 99 then fmt_c ;; fmt_loop false false s'
        else panic "bad fmt"
      else if c =? 37 then fmt_loop true longarg s'
      else emit c ;; fmt_loop false longarg s'
  end.

Definition vsnprintf (s : list Z) : ST vstate Z :=
  fmt_loop false false s ;;
  let! p := gets pos in
  (if p <? n then put p 0 else if negb (n =? 0) then put (n - 1) 0 else ret tt) ;;
  ret (s32 p).
End Vsnprintf.

(** [snprintf(out, n, s, ...)]: the result and the final buffer. *)
Definition snprintf (fuel : nat) (buf : list Z) (s : list Z) (args : list arg) : outcome vstate Z :=
  vsnprintf (Z.of_nat (length buf)) fuel s (V buf 0 args).

(** ** The text of a format *)

Inductive piece := PLit (c : Z) | PHex (longarg : bool) | PPtr | PDec (longarg : bool) | PStr | PChr.

(** The directives of a format string; [None] for an unknown one. *)
Fixpoint parse (format longarg : bool) (s : list Z) : option (list piece) :=
  match s with
  | [] => Some []
  | c :: s' =>
      if format then
        if c =? 108 then parse true true s'
        else let k p := cons p <$> parse false false s' in
             if c =? 112 then k PPtr
             else if c =? 120 then k (PHex longarg)
             else if c =? 100 then k (PDec longarg)
             else if c =? 115 then k PStr
             else if c =? 99 then k PChr
             else None
      else if c =? 37 then parse true longarg s'
      else cons (PLit c) <$> parse false longarg s'
  end.

(** [k] hexadecimal digits of [x], most significant first. *)
Fixpoint hex_text (k : nat) (x : Z) : list Z :=
  match k with
  | O => []
  | S i => hex_digit (x / 16 ^ Z.of_nat i mod 16) :: hex_text i x
  end.

(** Decimal notation of a number below [10 ^ k]. *)
Fixpoint decimal (k : nat) (x : Z) : list Z :=
  match k with
  | O => []
  | S k' => (if x / 10 =? 0 then [] else decimal k' (x / 10)) ++ [48 + x mod 10]
  end.

Definition dec_text (x : Z) : list Z := if x <? 0 then 45 :: decimal 64 (- x) else decimal 64 x.

Definition arg_num (longarg : bool) (a : arg) : option Z :=
  match longarg, a with
  | true, ALong z => Some (s64 z)
  | false, AInt z => Some (s32 z)
  | _, _ => None
  end.

(** The text of a directive with its argument, and whether the code needs it to fit
    the buffer. *)
Definition piece_text (p : piece) (a : arg) : option (bool * list Z) :=
  match p with
  | PLit c => None
  | PHex l => z ← arg_num l a; Some (false, hex_text (if l then 16 else 8) z)
  | PPtr => z ← arg_num true a; Some (false, 48 :: 120 :: hex_text 16 z)
  | PDec l => z ← arg_num l a; if z =? - 2 ^ 63 then None else Some (false, dec_text z)
  | PStr => match a with AStr s => Some (true, s) | _ => None end
  | PChr => match a with AInt z => Some (true, [u8 (s32 z)]) | _ => None end
  end.

(** The texts of all directives; [None] when arguments are missing or of the wrong
    type. *)
Fixpoint texts (ps : list piece) (args : list arg) : option (list (bool * list Z)) :=
  match ps with
  | [] => Some []
  | PLit c :: ps' => cons (false, [u8 c]) <$> texts ps' args
  | p :: ps' =>
      match args with
      | [] => None
      | a :: args' => t ← piece_text p a; cons t <$> texts ps' args'
      end
  end.

Definition render (ts : list (bool * list Z)) : list Z := concat (map snd ts).

(** The arguments the directives take. *)
Fixpoint arg_count (ps : list piece) : nat :=
  match ps with
  | [] => 0
  | PLit _ :: ps' => arg_count ps'
  | _ :: ps' => S (arg_count ps')
  end.

(** The strings and characters fit a buffer of [n] bytes, [len] of them in use. *)
Fixpoint text_fits (n len : nat) (ts : list (bool * list Z)) : bool :=
  match ts with
  | [] => true
  | (b, t) :: ts' => implb b (len + length t <? n)%nat && text_fits n (len + length t) ts'
  end.

(** What [snprintf] leaves in a buffer: as much of the text as fits, and the
    terminator. *)
Definition truncated (buf text : list Z) : list Z :=
  let k := (length text `min` (length buf - 1))%nat in
  take k text ++ 0 :: drop (S k) buf.

(** ** Writing with truncation *)
Section Puts.
Variable n : nat.

(** [c] at position [p], the last byte of the buffer left alone. *)
Definition ins (b : list Z) (p : nat) (c : Z) : list Z := if (p + 1 <? n)%nat then <[p := c]> b else b.

Fixpoint puts (b : list Z) (p : nat) (l : list Z) : list Z :=
  match l with
  | [] => b
  | c :: l' => puts (ins b p c) (p + 1) l'
  end.

Lemma length_ins b p c : length (ins b p c) = length b.
Proof. unfold ins. case_match; [apply length_insert|done]. Qed.

Lemma length_puts b p l : length (puts b p l) = length b.
Proof. revert b p. induction l as [|c l IH]; intros b p; cbn; [done|]. by rewrite IH, length_ins. Qed.

Lemma puts_app b p l1 l2 : puts b p (l1 ++ l2) = puts (puts b p l1) (p + length l1) l2.
Proof.
  revert b p. induction l1 as [|c l1 IH]; intros b p; cbn; [by rewrite Nat.add_0_r|].
  rewrite IH. f_equal. lia.
Qed.

Lemma ins_comm b p q c d : p <> q -> ins (ins b p c) q d = ins (ins b q d) p c.
Proof. intros H. unfold ins. repeat case_match; try done. by apply list_insert_insert_ne. Qed.

Lemma puts_ins b p l q d : (p + length l <= q)%nat -> puts (ins b q d) p l = ins (puts b p l) q d.
Proof.
  revert b p. induction l as [|c l IH]; intros b p H; cbn in *; [done|].
  rewrite ins_comm by lia. apply IH. lia.
Qed.

(** The closed form, for a buffer of [n] bytes written from the start. *)
Lemma puts_closed b l p :
  length b = n -> (0 < n)%nat ->
  puts b p l = take p b ++ take (n - 1 - p) l ++ drop (p + length (take (n - 1 - p) l)) b.
Proof.
  intros Hb Hn. revert b p Hb. induction l as [|c l IH]; intros b p Hb; cbn [puts].
  { rewrite take_nil. cbn. by rewrite Nat.add_0_r, take_drop. }
  rewrite IH by (by rewrite length_ins). unfold ins. destruct (Nat.ltb_spec (p + 1) n) as [H|H].
  - replace (n - 1 - p)%nat with (S (n - 1 - (p + 1))) by lia. cbn [take length].
    rewrite drop_insert_lt by lia. rewrite Nat.add_1_r, (take_S_r _ _ c), take_insert_ge by
      (done || apply list_lookup_insert_eq; lia).
    rewrite <- app_assoc. cbn [app]. by rewrite Nat.add_succ_l, <- Nat.add_succ_r.
  - replace (n - 1 - p)%nat with 0%nat by lia. replace (n - 1 - (p + 1))%nat with 0%nat by lia.
    rewrite !take_0. cbn [length app]. rewrite !Nat.add_0_r, !take_drop. done.
Qed.
End Puts.

(** ** [vsnprintf] writes the text *)
Section VsnprintfSpec.
Variable b : list Z.
Variable fuel : nat.
Abbreviation n := (length b).
Abbreviation N := (Z.of_nat n).

(** The state after the text [R] was written. *)
Definition wrote (R : list Z) (args : list arg) : vstate := V (puts n b 0 R) (Z.of_nat (length R)) args.

Lemma put_ins o p c args q :
  length o = n -> (p + 1 < n)%nat ->
  put (Z.of_nat p) c (V o q args) = Ret tt (V (ins n o p (u8 c)) q args).
Proof.
  intros Ho Hp. unfold put, ins. cbn [out pos vl]. rewrite Ho, Nat2Z.id.
  destruct (Z.leb_spec 0 (Z.of_nat p)), (Z.ltb_spec (Z.of_nat p) N), (Nat.ltb_spec (p + 1) n); lia || done.
Qed.

Lemma ins_past o p c : (n <= p + 1)%nat -> ins n o p c = o.
Proof. intros H. unfold ins. destruct (Nat.ltb_spec (p + 1) n); lia || done. Qed.

Lemma emit_at R args c :
  Z.of_nat (length R) + 1 < 2 ^ 64 -> emit N c (wrote R args) = Ret tt (wrote (R ++ [u8 c]) args).
Proof.
  intros HR. unfold emit, wrote, bind, modify, gets, ret. cbn [out pos vl].
  rewrite wrapu_small by (unfold inu; lia). rewrite puts_app, length_app. cbn [puts length].
  replace (Z.of_nat (length R + 1)) with (Z.of_nat (length R) + 1) by lia.
  destruct (Z.ltb_spec (Z.of_nat (length R) + 1) N).
  - rewrite Z.add_simpl_r. apply put_ins; [by apply length_puts|lia].
  - rewrite ins_past by lia. done.
Qed.

Lemma hex_digit_byte d : 0 <= d < 16 -> u8 (hex_digit d) = hex_digit d.
Proof. intros. apply wrapu_small. unfold inu, hex_digit. destruct (Z.ltb_spec d 10); lia. Qed.

Lemma emit_hex_at num k R args :
  Z.of_nat (length R + k) < 2 ^ 64 ->
  emit_hex N num k (wrote R args) = Ret tt (wrote (R ++ hex_text k num) args).
Proof.
  revert R. induction k as [|k IH]; intros R HR; cbn [emit_hex hex_text].
  { by rewrite app_nil_r. }
  unfold bind. rewrite emit_at by lia. change 0xF with (Z.ones 4).
  rewrite Z.land_ones, Z.shiftr_div_pow2, Z.pow_mul_r by lia. change (2 ^ 4) with 16.
  rewrite hex_digit_byte by (apply Z.mod_pos_bound; lia).
  rewrite IH by (rewrite length_app; cbn; lia). by rewrite <- app_assoc.
Qed.

(** The [k] low decimal digits of [x]. *)
Fixpoint low_digits (k : nat) (x : Z) : list Z :=
  match k with
  | O => []
  | S i => low_digits i (x / 10) ++ [48 + x mod 10]
  end.

Lemma length_low_digits k x : length (low_digits k x) = k.
Proof. revert x. induction k; intros; cbn; [done|]. rewrite length_app, IHk. cbn. lia. Qed.

Lemma put_digits_at num k o p args :
  0 <= num -> length o = n -> Z.of_nat (p + k) < 2 ^ 64 ->
  put_digits N num k (V o (Z.of_nat p) args) = Ret tt (V (puts n o p (low_digits k num)) (Z.of_nat p) args).
Proof.
  intros Hn. revert num o Hn. induction k as [|k IH]; intros num o Hn Ho Hp; [done|].
  cbn [put_digits low_digits]. unfold bind, gets. cbn [pos].
  rewrite Z.rem_mod_nonneg, Z.quot_div_nonneg by lia.
  assert (inu 8 (48 + num mod 10)) as Hb by (unfold inu; pose proof (Z.mod_pos_bound num 10); lia).
  rewrite <- Nat2Z.inj_add, !wrapu_small by (unfold inu; lia).
  rewrite puts_app, length_low_digits. cbn [puts]. rewrite <- puts_ins by (rewrite length_low_digits; lia).
  destruct (Z.ltb_spec (Z.of_nat (p + k) + 1) N).
  - rewrite put_ins, (wrapu_small 8) by (done || lia).
    apply IH; [apply Z.div_pos; lia|by rewrite length_ins|lia].
  - rewrite ins_past by lia. unfold ret. apply IH; [apply Z.div_pos; lia|done|lia].
Qed.

Lemma count_digits_spec k x d :
  0 <= x < 10 ^ Z.of_nat k -> count_digits k x d = d - 1 + Z.max 1 (Z.of_nat (length (decimal k x))).
Proof.
  revert x d. induction k as [|k IH]; intros x d Hx; cbn [count_digits decimal]; [cbn; lia|].
  rewrite Nat2Z.inj_succ, Z.pow_succ_r in Hx by lia.
  rewrite Z.quot_div_nonneg, length_app by lia. cbn [length].
  destruct (Z.eqb_spec (x / 10) 0); [cbn; lia|].
  assert (0 <= x / 10 < 10 ^ Z.of_nat k) as Hq by (split; [apply Z.div_pos|apply Z.div_lt_upper_bound]; lia).
  rewrite IH by done. destruct k; [cbn in Hq; lia|].
  cbn [decimal length]. rewrite length_app. cbn [length]. lia.
Qed.

Lemma decimal_low_digits k x :
  0 <= x -> low_digits (length (decimal k x)) x = decimal k x.
Proof.
  revert x. induction k as [|k IH]; intros x Hx; [done|]. cbn [decimal]. rewrite length_app, Nat.add_1_r.
  cbn [low_digits]. f_equal. destruct (Z.eqb_spec (x / 10) 0); [done|]. apply IH, Z.div_pos; lia.
Qed.

Lemma length_decimal k x : (0 < k)%nat -> (1 <= length (decimal k x) <= k)%nat.
Proof.
  intros Hk. split.
  - destruct k; [lia|]. cbn [decimal]. rewrite length_app. cbn. lia.
  - clear Hk. revert x. induction k as [|k IH]; intros x; [done|]. cbn [decimal]. rewrite length_app. cbn [length].
    destruct (_ =? _); cbn [length]; [lia|]. specialize (IH (x / 10)). lia.
Qed.

Lemma put_decimal_at x R args :
  0 <= x < 2 ^ 63 -> Z.of_nat (length R) < 2 ^ 63 ->
  (put_digits N x (Z.to_nat (count_digits 64 x 1)) ;;
   modify (fun v => V (out v) (u64 (pos v + count_digits 64 x 1)) (vl v))) (wrote R args) =
  Ret tt (wrote (R ++ decimal 64 x) args).
Proof.
  intros Hx HR. pose proof (length_decimal 64 x ltac:(lia)) as [L1 L2].
  rewrite count_digits_spec by lia. set (k := length (decimal 64 x)) in *.
  replace (1 - 1 + Z.max 1 (Z.of_nat k)) with (Z.of_nat k) by lia. rewrite Nat2Z.id.
  unfold bind, modify, wrote. rewrite put_digits_at by (rewrite ?length_puts; lia).
  cbn [out pos vl]. unfold k. rewrite decimal_low_digits by lia. fold k.
  rewrite wrapu_small by (unfold inu; lia). rewrite puts_app, length_app. cbn [Nat.add].
  do 2 f_equal. lia.
Qed.

Lemma va_num_at l a z R args :
  arg_num l a = Some z -> va_num l (wrote R (a :: args)) = Ret z (wrote R args).
Proof. destruct l, a; cbn; intros H; by simplify_eq. Qed.

Lemma arg_num_range l a z : arg_num l a = Some z -> - 2 ^ 63 <= z < 2 ^ 63.
Proof.
  destruct l, a as [y|y|]; cbn; intros H; simplify_eq.
  - pose proof (wraps_range 64 y). lia.
  - pose proof (wraps_range 32 y). lia.
Qed.

Lemma fmt_x_at l a z R args :
  arg_num l a = Some z -> Z.of_nat (length R) < 2 ^ 63 ->
  fmt_x N l (wrote R (a :: args)) = Ret tt (wrote (R ++ hex_text (if l then 16 else 8) z) args).
Proof.
  intros Ha HR. unfold fmt_x, bind. rewrite (va_num_at l a z) by done.
  replace (2 * (if l then 8 else 4))%nat with (if l then 16 else 8)%nat by by destruct l.
  apply emit_hex_at. destruct l; lia.
Qed.

Lemma fmt_d_at l a z R args :
  arg_num l a = Some z -> z <> - 2 ^ 63 -> Z.of_nat (length R) < 2 ^ 62 ->
  fmt_d N l (wrote R (a :: args)) = Ret tt (wrote (R ++ dec_text z) args).
Proof.
  intros Ha Hz HR. pose proof (arg_num_range _ _ _ Ha) as B.
  unfold fmt_d. unfold bind at 1. rewrite (va_num_at l a z) by done.
  unfold dec_text. destruct (Z.ltb_spec z 0).
  - rewrite (proj2 (Z.eqb_neq _ _) Hz). unfold bind at 1 2. rewrite emit_at by lia. unfold ret at 1.
    rewrite put_decimal_at by (rewrite ?length_app; cbn; lia). by rewrite <- app_assoc.
  - unfold bind at 1, ret at 1. by rewrite put_decimal_at by lia.
Qed.

Lemma fmt_s_loop_at s k R args :
  Forall (fun c => 0 < c < 256) s -> (length s < k)%nat -> (length R + length s < n)%nat -> N < 2 ^ 63 ->
  fmt_s_loop N k s (wrote R args) = Ret tt (wrote (R ++ s) args).
Proof.
  intros Hs. revert k R. induction Hs as [|c s Hc Hs IH]; intros k R Hk Hf Hn;
    (destruct k as [|k]; [cbn in Hk; lia|]); cbn [fmt_s_loop length] in *.
  { by rewrite app_nil_r. }
  rewrite (proj2 (Z.eqb_neq c 0)) by lia. pose proof (emit_at R args c ltac:(lia)) as E.
  unfold emit in E. unfold bind, modify, gets, ret in *. cbn [out pos vl wrote] in *.
  rewrite wrapu_small in * by (unfold inu; lia).
  destruct (Z.ltb_spec (Z.of_nat (length R) + 1) N); [|lia].
  rewrite E, (wrapu_small 8) by (unfold inu; lia).
  rewrite IH by (rewrite ?length_app; cbn; lia). by rewrite <- app_assoc.
Qed.

Lemma fmt_c_at z R args :
  (length R + 1 < n)%nat -> N < 2 ^ 63 ->
  fmt_c N (wrote R (AInt z :: args)) = Ret tt (wrote (R ++ [u8 (s32 z)]) args).
Proof.
  intros Hf Hn. unfold fmt_c. pose proof (emit_at R args (s32 z) ltac:(lia)) as E.
  unfold emit in E. unfold bind, modify, gets, ret, va_arg_int in *. cbn [out pos vl wrote] in *.
  rewrite wrapu_small in * by (unfold inu; lia).
  destruct (Z.ltb_spec (Z.of_nat (length R) + 1) N); [done|lia].
Qed.

(** A string argument has no zero byte and is shorter than the loop bound. *)
Definition arg_ok (a : arg) : Prop :=
  match a with AStr s => Forall (fun c => 0 < c < 256) s /\ (length s < fuel)%nat | _ => True end.

(** One directive. *)
Definition fmt_piece (p : piece) : ST vstate unit :=
  match p with
  | PLit c => emit N c
  | PHex l => fmt_x N l
  | PPtr => emit N 48 ;; emit N 120 ;; fmt_x N true
  | PDec l => fmt_d N l
  | PStr => fmt_s N fuel
  | PChr => fmt_c N
  end.

Lemma fmt_piece_at p a bt t R args :
  piece_text p a = Some (bt, t) -> arg_ok a -> implb bt (length R + length t <? n)%nat = true ->
  Z.of_nat (length R) < 2 ^ 31 -> N < 2 ^ 63 ->
  fmt_piece p (wrote R (a :: args)) = Ret tt (wrote (R ++ t) args).
Proof.
  intros Hp Ha Hf HR Hn. destruct p as [c|l| |l| |]; cbn [piece_text fmt_piece] in *; [done|..].
  - destruct (arg_num l a) eqn:E; cbn in Hp; simplify_eq. apply fmt_x_at; [done|lia].
  - destruct (arg_num true a) eqn:E; cbn in Hp; simplify_eq. unfold bind. rewrite !emit_at by (rewrite ?length_app; cbn; lia).
    rewrite (fmt_x_at true _ _ _ _ E) by (rewrite !length_app; cbn; lia). by rewrite <- !app_assoc.
  - destruct (arg_num l a) as [z|] eqn:E; cbn in Hp; [|done].
    destruct (Z.eqb_spec z (- 2 ^ 63)); simplify_eq. apply fmt_d_at; [done|done|lia].
  - destruct a as [| |s]; simplify_eq. cbn [implb] in Hf. apply Nat.ltb_lt in Hf. destruct Ha as [Hs Hk].
    unfold fmt_s, bind, va_arg_str. cbn [vl wrote out pos]. by apply fmt_s_loop_at.
  - destruct a; simplify_eq. cbn [implb length] in Hf. apply Nat.ltb_lt in Hf. by apply fmt_c_at.
Qed.

Fixpoint fmt_pieces (ps : list piece) : ST vstate unit :=
  match ps with
  | [] => ret tt
  | p :: ps' => fmt_piece p ;; fmt_pieces ps'
  end.

Lemma bind_ext {A B} (m : ST vstate A) (k1 k2 : A -> ST vstate B) v :
  (forall a v', k1 a v' = k2 a v') -> bind m k1 v = bind m k2 v.
Proof. intros H. unfold bind. by destruct (m v). Qed.

Lemma bind_bind {A B C} (m : ST vstate A) (k : A -> ST vstate B) (h : B -> ST vstate C) v :
  bind (bind m k) h v = bind m (fun a => bind (k a) h) v.
Proof. unfold bind. by destruct (m v). Qed.

Lemma fmt_loop_pieces f l s ps v :
  parse f l s = Some ps -> fmt_loop N fuel f l s v = fmt_pieces ps v.
Proof.
  revert f l ps v. induction s as [|c s IH]; intros f l ps v Hp; cbn [fmt_loop parse] in *; [by simplify_eq|].
  destruct f.
  - repeat match type of Hp with
      | (if ?b then _ else _) = _ => destruct b; [try (by apply IH)|]
      end; try done; destruct (parse false false s) as [ps'|] eqn:E; try done; cbn in Hp; simplify_eq;
      cbn [fmt_pieces fmt_piece]; rewrite ?bind_bind; repeat (apply bind_ext; intros; rewrite ?bind_bind); eauto.
  - destruct (c =? 37); [by apply IH|].
    destruct (parse false l s) as [ps'|] eqn:E; [|done]. cbn in Hp; simplify_eq.
    cbn [fmt_pieces fmt_piece]. apply bind_ext. intros. eauto.
Qed.

Lemma texts_cons p ps args ts :
  texts (p :: ps) args = Some ts ->
  exists bt t ts', ts = (bt, t) :: ts' /\
    ((exists c, p = PLit c /\ bt = false /\ t = [u8 c] /\ texts ps args = Some ts') \/
     (exists a args', args = a :: args' /\ piece_text p a = Some (bt, t) /\ texts ps args' = Some ts')).
Proof.
  intros H. destruct p as [c|l| |l| |]; cbn [texts] in H.
  1: { destruct (texts ps args) as [ts'|] eqn:E; [|done]. cbn in H. simplify_eq.
       eexists _, _, _. split; [done|]. left. eauto. }
  all: destruct args as [|a args']; [done|];
    match type of H with context [piece_text ?p ?a] => destruct (piece_text p a) as [[bt t]|] eqn:Ep; [|done] end;
    cbn in H; destruct (texts ps args') as [ts'|] eqn:E; [|done]; cbn in H; simplify_eq;
    exists bt, t, ts'; (split; [done|]); right; exists a, args'; done.
Qed.

Lemma fmt_pieces_at ps args ts R :
  texts ps args = Some ts -> Forall arg_ok (take (arg_count ps) args) -> text_fits n (length R) ts = true ->
  Z.of_nat (length (R ++ render ts)) < 2 ^ 31 -> N < 2 ^ 63 ->
  fmt_pieces ps (wrote R args) = Ret tt (wrote (R ++ render ts) (drop (arg_count ps) args)).
Proof.
  revert args ts R. induction ps as [|p ps IH]; intros args ts R Ht Ha Hf HR Hn.
  { cbn in Ht. simplify_eq. cbn. by rewrite app_nil_r. }
  destruct (texts_cons _ _ _ _ Ht) as (bt & t & ts' & -> & Hc). cbn [text_fits] in Hf.
  apply andb_true_iff in Hf as [Hf1 Hf2].
  assert (render ((bt, t) :: ts') = t ++ render ts') as Er by done. rewrite Er, app_assoc in *.
  rewrite !length_app in HR. cbn [fmt_pieces]. unfold bind.
  destruct Hc as [(c & -> & -> & -> & Hr)|(a & args2 & -> & Hp & Hr)].
  - cbn [fmt_piece]. rewrite emit_at by lia. apply IH; auto; rewrite ?length_app; auto; lia.
  - assert (arg_count (p :: ps) = S (arg_count ps)) as Ec by (by destruct p). rewrite Ec in *. cbn [take drop] in *.
    apply Forall_cons in Ha as [Ha1 Ha2].
    rewrite (fmt_piece_at p a bt t R args2 Hp Ha1 Hf1) by lia.
    apply IH; auto; rewrite ?length_app; auto; lia.
Qed.

(** The terminator after the text. *)
Lemma terminate_puts R q :
  (0 < n)%nat -> q = (length R `min` (n - 1))%nat -> <[q := u8 0]> (puts n b 0 R) = truncated b R.
Proof.
  intros Hn Hq. unfold truncated. cbv zeta. rewrite <- Hq, puts_closed by lia.
  rewrite take_0, Nat.sub_0_r. cbn [app Nat.add].
  replace (take (n - 1) R) with (take q R).
  2: { destruct (decide (length R <= n - 1)%nat).
       - rewrite !take_ge by lia. done.
       - f_equal. lia. }
  assert (length (take q R) = q) as L by (rewrite length_take; lia).
  rewrite L, insert_app_r_alt, L, Nat.sub_diag by lia. f_equal.
  destruct (lookup_lt_is_Some_2 b q) as [x Hx]; [lia|]. by rewrite (drop_S b x q Hx).
Qed.

Lemma vsnprintf_at s ps args ts :
  parse false false s = Some ps -> texts ps args = Some ts -> Forall arg_ok args ->
  text_fits n 0 ts = true -> Z.of_nat (length (render ts)) < 2 ^ 31 -> 0 < N < 2 ^ 63 ->
  exists args', vsnprintf N fuel s (V b 0 args) =
    Ret (Z.of_nat (length (render ts))) (V (truncated b (render ts)) (Z.of_nat (length (render ts))) args').
Proof.
  intros Hp Ht Ha Hf HR Hn. set (R := render ts) in *.
  pose proof (fmt_pieces_at ps args ts [] Ht (Forall_take _ _ _ Ha) Hf ltac:(done) ltac:(lia)) as E. cbn [app] in E. fold R in E.
  set (args' := drop _ _) in E. exists args'. unfold vsnprintf. unfold bind at 1.
  change (V b 0 args) with (wrote [] args). rewrite (fmt_loop_pieces _ _ _ ps _ Hp), E.
  unfold bind, gets, ret. cbn [pos wrote]. rewrite wraps_small by lia.
  assert (put_end : forall q c, (q < n)%nat ->
    put (Z.of_nat q) c (wrote R args') = Ret tt (V (<[q := u8 c]> (puts n b 0 R)) (Z.of_nat (length R)) args')).
  { intros q c Hq. unfold put. cbn [wrote out pos vl]. rewrite length_puts, Nat2Z.id.
    destruct (Z.leb_spec 0 (Z.of_nat q)), (Z.ltb_spec (Z.of_nat q) N); lia || done. }
  pose proof (terminate_puts R) as Et.
  destruct (Z.ltb_spec (Z.of_nat (length R)) N).
  - rewrite put_end by lia. rewrite Et by lia. done.
  - rewrite (proj2 (Z.eqb_neq N 0)) by lia. cbn [negb]. replace (N - 1) with (Z.of_nat (n - 1)) by lia.
    rewrite put_end by lia. rewrite Et by lia. done.
Qed.
End VsnprintfSpec.

(** ** [printk] *)
Section Printk.
Context {U : Type} `{UartDevice U}.
(** The bound of the [%s] loop. *)
Variable fuel : nat.

(** [vprintk], with the uninitialised contents of its buffer. *)
Definition vprintk (buf s : list Z) (args : list arg) : ST U unit := fun u =>
  match vsnprintf (Z.of_nat (length buf)) fuel s (V buf 0 args) with
  | Ret res v => uart_send_buf (out v) (if u64 res <? Z.of_nat (length buf) then res
                                        else Z.of_nat (length buf)) u
  | Panic msg _ => Panic msg u
  | Undef => Undef
  | Hang _ => Hang u
  end.

(** [char out[256]] on the stack. *)
Variable stack : list Z.

Definition printk (s : list Z) (args : list arg) : ST U unit := vprintk (take 256 stack) s args.

(** [die] does not return. *)
Definition die : ST U unit := hang.

Definition do_panic (s : list Z) (args : list arg) : ST U unit := vprintk (take 256 stack) s args ;; die.

Definition chars (s : string) : list Z := map (fun c => Z.of_nat (Ascii.nat_of_ascii c)) (list_ascii_of_string s).

Definition kassert_fail (s : list Z) : ST U unit := do_panic (chars "assertion failed: %s" ++ [10]) [AStr s].

Definition regnames : list string :=
  [ "z "; "ra"; "sp"; "gp"; "tp"; "t0"; "t1"; "t2";
    "s0"; "s1"; "a0"; "a1"; "a2"; "a3"; "a4"; "a5";
    "a6"; "a7"; "s2"; "s3"; "s4"; "s5"; "s6"; "s7";
    "s8"; "s9"; "sA"; "sB"; "t3"; "t4"; "t5"; "t6" ]%string.

(** The register lines of [dump_tf]: name, value, and a space or a line end. *)
Fixpoint dump_regs (i : nat) (names : list string) (gpr : list Z) : ST U unit :=
  match names, gpr with
  | name :: names', x :: gpr' =>
      printk (chars "%s %lx%c") [AStr (chars name); ALong x; AInt (if (i mod 4 <? 3)%nat then 32 else 10)] ;;
      dump_regs (S i) names' gpr'
  | _, _ => ret tt
  end.

(** [dump_tf] on the fields of a [trapframe_t]; slot 0 of [gpr] is zeroed first. *)
Definition dump_tf (gpr : list Z) (status epc badvaddr insn : Z) : ST U unit :=
  dump_regs 0 regnames (<[0%nat := 0]> gpr) ;;
  printk (chars "pc %lx va %lx insn       %x sr %lx" ++ [10])
    [ALong epc; ALong badvaddr; AInt (u32 insn); ALong status].
End Printk.

(** The text is made of bytes. *)

Lemma byte_singleton c : Forall (inu 8) [u8 c].
Proof. constructor; [by apply wrapu_range|constructor]. Qed.

Lemma hex_text_bytes k x : Forall (inu 8) (hex_text k x).
Proof.
  induction k; constructor; [|done]. rewrite <- hex_digit_byte by (apply Z.mod_pos_bound; lia).
  apply wrapu_range. lia.
Qed.

Lemma decimal_digits k x : Forall is_digit (decimal k x).
Proof.
  revert x. induction k as [|k IH]; intros x; cbn [decimal]; [constructor|]. apply Forall_app_2.
  - case_match; [constructor|apply IH].
  - repeat constructor; pose proof (Z.mod_pos_bound x 10); lia.
Qed.

Lemma decimal_bytes k x : Forall (inu 8) (decimal k x).
Proof. eapply Forall_impl; [apply decimal_digits|]. unfold is_digit, inu. lia. Qed.

Lemma piece_text_bytes fuel p a bt t :
  piece_text p a = Some (bt, t) -> arg_ok fuel a -> Forall (inu 8) t.
Proof.
  destruct p as [c|l| |l| |]; cbn [piece_text]; intros Hp Ha; [done|..].
  - destruct (arg_num l a); cbn in Hp; simplify_eq. apply hex_text_bytes.
  - destruct (arg_num true a); cbn [mbind option_bind] in Hp; simplify_eq.
    do 2 (constructor; [vm_decide|]). apply (hex_text_bytes 16).
  - destruct (arg_num l a) as [z|]; cbn in Hp; [|done]. case_match; simplify_eq. unfold dec_text.
    case_match; [constructor; [vm_decide|]|]; apply decimal_bytes.
  - destruct a as [| |s]; simplify_eq. destruct Ha as [Hs _]. eapply Forall_impl; [exact Hs|]. unfold inu. lia.
  - destruct a; simplify_eq. apply byte_singleton.
Qed.

Lemma render_bytes fuel ps args ts :
  texts ps args = Some ts -> Forall (arg_ok fuel) args -> Forall (inu 8) (render ts).
Proof.
  revert args ts. induction ps as [|p ps IH]; intros args ts Ht Ha.
  { cbn in Ht. simplify_eq. constructor. }
  destruct (texts_cons _ _ _ _ Ht) as (bt & t & ts' & -> & Hc).
  change (render ((bt, t) :: ts')) with (t ++ render ts'). apply Forall_app_2.
  - destruct Hc as [(c & -> & -> & -> & Hr)|(a & args2 & -> & Hp & Hr)].
    + apply byte_singleton.
    + apply Forall_cons in Ha as [Ha _]. eauto using piece_text_bytes.
  - destruct Hc as [(c & -> & -> & -> & Hr)|(a & args2 & -> & Hp & Hr)]; [eauto|].
    apply Forall_cons in Ha as [_ Ha]. eauto.
Qed.

Section PrintkSpec.
Context {U : Type} `{UartLaws U}.
Variable fuel : nat.
Variable stack : list Z.
Hypothesis stack_size : (256 <= length stack)%nat.
Hypothesis stack_bytes : Forall (inu 8) stack.

(** What a call of [printk] puts on the line: the text, or 255 characters of it and
    the terminator. *)
Definition printed (text : list Z) : list Z :=
  if (length text <? 256)%nat then text else take 255 text ++ [0].

Lemma printk_at u s ps args ts :
  uart_open u -> parse false false s = Some ps -> texts ps args = Some ts ->
  Forall (arg_ok fuel) args -> text_fits 256 0 ts = true -> Z.of_nat (length (render ts)) < 2 ^ 31 ->
  returns (printk fuel stack s args) u (fun _ u' => advanced (printed (render ts)) u u').
Proof.
  intros Hu Hp Ht Ha Hf HR. pose proof (length_take_le stack 256 stack_size) as L.
  assert (Forall (inu 8) (take 256 stack)) as Hb by by apply Forall_take.
  pose proof (render_bytes _ _ _ _ Ht Ha) as Hr. set (R := render ts) in *.
  destruct (vsnprintf_at (take 256 stack) fuel s ps args ts) as [args' E]; auto; try (rewrite L; done || lia).
  fold R in E. unfold printk, vprintk. unfold returns. rewrite E. cbn [out]. rewrite L. change (Z.of_nat 256) with 256.
  rewrite wrapu_small by (unfold inu; lia).
  set (k := if Z.of_nat (length R) <? 256 then Z.of_nat (length R) else 256).
  assert (printed R = take (Z.to_nat k) (truncated (take 256 stack) R)) as ->.
  { unfold printed, truncated, k. rewrite L. change (256 - 1)%nat with 255%nat.
    destruct (Z.ltb_spec (Z.of_nat (length R)) 256), (Nat.ltb_spec (length R) 256); try lia.
    - rewrite Nat2Z.id, Nat.min_l, (take_ge R) by lia. by rewrite take_app_length.
    - rewrite Nat.min_r by lia. rewrite (take_ge (_ ++ _)); [|rewrite length_app, length_take; cbn [length]; rewrite length_drop, L; lia].
      f_equal. f_equal. symmetry. apply drop_ge. lia. }
  apply uart_send_buf_spec; [done| |].
  - unfold truncated. apply Forall_app_2; [by apply Forall_take|]. constructor; [vm_decide|by apply Forall_drop].
  - unfold truncated, k. rewrite length_app, length_take. cbn [length]. rewrite length_drop, L.
    destruct (Z.ltb_spec (Z.of_nat (length R)) 256); lia.
Qed.

(** The text [dump_tf] prints for a register. *)
Definition reg_text (i : nat) (name : string) (x : Z) : list Z :=
  chars name ++ [32] ++ hex_text 16 (s64 x) ++ [if (i mod 4 <? 3)%nat then 32 else 10].

Fixpoint regs_text (i : nat) (names : list string) (gpr : list Z) : list Z :=
  match names, gpr with
  | name :: names', x :: gpr' => reg_text i name x ++ regs_text (S i) names' gpr'
  | _, _ => []
  end.

Definition dump_text (gpr : list Z) (status epc badvaddr insn : Z) : list Z :=
  regs_text 0 regnames (<[0%nat := 0]> gpr) ++
  chars "pc " ++ hex_text 16 (s64 epc) ++ chars " va " ++ hex_text 16 (s64 badvaddr) ++
  chars " insn       " ++ hex_text 8 (s32 insn) ++ chars " sr " ++ hex_text 16 (s64 status) ++ [10].

Hypothesis fuel_names : (2 < fuel)%nat.

(** A register name is two characters. *)
Definition regname_ok (name : string) : Prop :=
  length (chars name) = 2%nat /\ Forall (fun c => 0 < c < 256) (chars name).

Lemma dump_regs_at names gpr i u :
  uart_open u -> Forall regname_ok names ->
  returns (dump_regs fuel stack i names gpr) u (fun _ u' => advanced (regs_text i names gpr) u u').
Proof.
  intros Hu Hn. revert gpr i u Hu. induction Hn as [|name names [Hl Hc] Hn IH]; intros gpr i u Hu;
    [by apply returns_ret, advanced_refl|].
  destruct gpr as [|x gpr]; [by apply returns_ret, advanced_refl|]. cbn [dump_regs regs_text].
  eapply returns_bind.
  - eapply printk_at with (ps := [PStr; PLit 32; PHex true; PChr]); [done|reflexivity|reflexivity| | |].
    + repeat constructor; [done|lia].
    + cbn [text_fits implb length]. rewrite Hl. done.
    + cbn [render map snd concat]. rewrite !length_app, Hl. cbn. lia.
  - intros [] u' A. pose proof A as (O & _). eapply returns_mono; [by apply IH|]. intros [] u2 A2.
    eapply advanced_trans; [|exact A2]. replace (reg_text i name x) with
      (printed (render [(true, chars name); (false, [u8 32]); (false, hex_text 16 (s64 x));
                        (true, [u8 (s32 (if (i mod 4 <? 3)%nat then 32 else 10))])])); [exact A|].
    unfold printed, render, reg_text. cbn [map snd concat]. rewrite !length_app, Hl. cbn [Nat.ltb].
    rewrite app_nil_r. by destruct (i mod 4 <? 3)%nat.
Qed.

Lemma dump_tf_at gpr status epc badvaddr insn u :
  uart_open u ->
  returns (dump_tf fuel stack gpr status epc badvaddr insn) u
    (fun _ u' => advanced (dump_text gpr status epc badvaddr insn) u u').
Proof.
  intros Hu. eapply returns_bind; [apply dump_regs_at; [done|]|].
  - repeat constructor; cbn; lia.
  - intros [] u' A. pose proof A as (O & _). eapply returns_mono.
    + eapply printk_at; [done|reflexivity|reflexivity| |reflexivity|reflexivity]. by repeat constructor.
    + intros [] u2 A2. eapply advanced_trans; [exact A|].
      change (s32 (u32 insn)) with (wraps 32 (wrapu 32 insn)) in A2. rewrite wraps_wrapu in A2 by lia. exact A2.
Qed.
End PrintkSpec.

(** ** Numerals read back *)

Lemma dec_value_snoc s acc c : dec_value acc (s ++ [c]) = 10 * dec_value acc s + (c - 48).
Proof. revert acc. induction s as [|d s IH]; intros acc; cbn; [done|]. apply IH. Qed.

Lemma dec_value_decimal k x : 0 <= x < 10 ^ Z.of_nat k -> dec_value 0 (decimal k x) = x.
Proof.
  revert x. induction k as [|k IH]; intros x Hx; [cbn in *; lia|].
  rewrite Nat2Z.inj_succ, Z.pow_succ_r in Hx by lia. cbn [decimal]. rewrite dec_value_snoc.
  pose proof (Z.div_mod x 10). destruct (Z.eqb_spec (x / 10) 0); [cbn; lia|].
  rewrite IH; [lia|]. split; [apply Z.div_pos|apply Z.div_lt_upper_bound]; lia.
Qed.

Lemma length_decimal_le j k x :
  0 <= x < 10 ^ Z.of_nat (S j) -> (length (decimal k x) <= S j)%nat.
Proof.
  revert j x. induction k as [|k IH]; intros j x Hx; [cbn; lia|]. cbn [decimal].
  rewrite length_app. cbn [length]. destruct (Z.eqb_spec (x / 10) 0) as [|Hq]; [cbn; lia|].
  rewrite Nat2Z.inj_succ, Z.pow_succ_r in Hx by lia.
  assert (0 <= x / 10 < 10 ^ Z.of_nat j) as Hd by (split; [apply Z.div_pos|apply Z.div_lt_upper_bound]; lia).
  destruct j as [|j]; [cbn in Hd; lia|]. specialize (IH j _ Hd). lia.
Qed.

Lemma dec_text_shape z :
  - 2 ^ 63 < z < 2 ^ 63 ->
  exists (neg : bool) ds, dec_text z = (if neg then [45] else []) ++ ds /\ Forall is_digit ds /\
    (length (dec_text z) <= 20)%nat /\ dec_value 0 ds < 2 ^ 63 /\
    (if neg then - dec_value 0 ds else dec_value 0 ds) = z.
Proof.
  intros Hz. exists (z <? 0), (decimal 64 (Z.abs z)). unfold dec_text.
  pose proof (length_decimal_le 18 64 (Z.abs z) ltac:(lia)).
  rewrite dec_value_decimal by lia. destruct (Z.ltb_spec z 0).
  - rewrite Z.abs_neq in * by lia. split_and!; [done|apply decimal_digits|cbn [length]; lia|lia|lia].
  - rewrite Z.abs_eq in * by lia. split_and!; [done|apply decimal_digits|lia|lia|lia].
Qed.

(** A terminated text in a buffer, placed in memory, is the C string. *)
Lemma truncated_cstring m a b R :
  Forall (fun c => c <> 0) R -> (length R < length b)%nat -> fits a (length b) ->
  read_bytes m a (length b) = Some (truncated b R) -> cstring m a R.
Proof.
  intros Hz Hl Hf Hr. unfold truncated in Hr. rewrite Nat.min_l, take_ge in Hr by lia. unfold cstring, fits in *.
  split_and!; [lia|lia|done|].
  replace (length b) with (S (length R) + (length b - S (length R)))%nat in Hr by lia.
  apply read_bytes_app in Hr as [Hr _]. rewrite Hr. f_equal.
  rewrite cons_middle, app_assoc. apply take_app_length'. rewrite length_app. cbn. lia.
Qed.

(** ** Claims *)

(** Numerals survive a round trip through the console's formatting and the string
    routines: what snprintf prints for "%ld" of any long but the least one, read by atol
    from memory, is the number again. *)
Theorem print_atol_roundtrip (fuel : nat) (b : list Z) (z : Z) :
  - 2 ^ 63 < z < 2 ^ 63 -> (21 <= length b)%nat -> Z.of_nat (length b) < 2 ^ 63 ->
  exists len v, snprintf fuel b (chars "%ld") [ALong z] = Ret len v /\
    forall m a, fits a (length b) -> read_bytes m a (length b) = Some (out v) -> atol a m = Ret z m.
Proof.
  intros Hz Hb Hn. destruct (dec_text_shape z Hz) as (neg & ds & E & Hd & Hl & Hv & Ez).
  assert (texts [PDec true] [ALong z] = Some [(false, dec_text z)]) as Ht.
  { cbn [texts piece_text arg_num]. rewrite wraps_small by lia. cbn [mbind option_bind].
    by rewrite (proj2 (Z.eqb_neq _ _)) by lia. }
  assert (render [(false, dec_text z)] = dec_text z) as Er by apply app_nil_r.
  destruct (vsnprintf_at b fuel (chars "%ld") [PDec true] [ALong z] [(false, dec_text z)]) as [args' Ev];
    auto; try lia.
  { by repeat constructor. }
  { rewrite Er. lia. }
  eexists _, _. split; [exact Ev|]. rewrite Er. cbn [out]. intros m a Hf Hr.
  rewrite <- Ez. apply (atol_spec m a 0 neg ds); [|done|done]. cbn [replicate app]. rewrite <- E.
  apply truncated_cstring with b; [|lia|done|done].
  rewrite E. apply Forall_app_2; [destruct neg; repeat constructor; lia|].
  eapply Forall_impl; [exact Hd|]. unfold is_digit. lia.
Qed.

Lemma print_atol_roundtrip_witness :
  exists len v, snprintf 5 (replicate 24 0) (chars "%ld") [ALong (-9223372036854775807)] = Ret len v /\
    atol 0x2000 (write_bytes ∅ 0x2000 (out v)) =
    Ret (-9223372036854775807) (write_bytes ∅ 0x2000 (out v)).
Proof.
  destruct (print_atol_roundtrip 5 (replicate 24 0) (-9223372036854775807)) as (len & v & E & H); [lia|cbn; lia|cbn; lia|].
  exists len, v. split; [done|]. apply H; [vm_decide|]. vm_compute in E. injection E as <- <-. vm_compute. reflexivity.
Defined.

(** Past the end of the buffer the [%s] loop makes no progress. *)
Lemma fmt_s_loop_stuck k n c s o p args :
  0 < c < 256 -> n <= p + 1 -> 0 <= p -> p + Z.of_nat k < 2 ^ 64 ->
  fmt_s_loop n k (c :: s) (V o p args) = Hang (V o (p + Z.of_nat k) args).
Proof.
  revert p. induction k as [|k IH]; intros p Hc Hn Hp Hk; cbn [fmt_s_loop].
  { by rewrite Z.add_0_r. }
  rewrite (proj2 (Z.eqb_neq c 0)) by lia. unfold bind, modify, gets. cbn [out pos vl].
  rewrite wrapu_small by (unfold inu; lia). destruct (Z.ltb_spec (p + 1) n); [lia|].
  rewrite IH by lia. do 2 f_equal. lia.
Qed.

Lemma fmt_s_loop_app b s1 s2 k R args :
  Forall (fun c => 0 < c < 256) s1 -> (length R + length s1 < length b)%nat ->
  Z.of_nat (length b) < 2 ^ 63 ->
  fmt_s_loop (Z.of_nat (length b)) (length s1 + k) (s1 ++ s2) (wrote b R args) =
  fmt_s_loop (Z.of_nat (length b)) k s2 (wrote b (R ++ s1) args).
Proof.
  intros Hs. revert R. induction Hs as [|c s Hc Hs IH]; intros R Hf Hn; [by rewrite app_nil_r|].
  cbn [length] in *. cbn [Nat.add app fmt_s_loop]. rewrite (proj2 (Z.eqb_neq c 0)) by lia.
  pose proof (emit_at b R args c ltac:(lia)) as E. unfold emit in E.
  unfold bind, modify, gets, ret in *. cbn [out pos vl wrote] in *.
  rewrite wrapu_small in * by (unfold inu; lia).
  destruct (Z.ltb_spec (Z.of_nat (length R) + 1) (Z.of_nat (length b))); [|lia].
  rewrite E, (wrapu_small 8) by (unfold inu; lia).
  rewrite IH by (rewrite ?length_app; cbn; lia). by rewrite <- app_assoc.
Qed.

(** A "%s" argument that does not fit makes vsnprintf loop: once the buffer is full
    the loop advances the position but not the string, so for every number of
    iterations below the range of size_t it is still running, the buffer full and the
    terminator not written. *)
Theorem vsnprintf_overlong_string_loops (fuel : nat) (b s : list Z) :
  Forall (fun c => 0 < c < 256) s -> (1 <= length b <= length s)%nat ->
  (length b <= fuel)%nat -> Z.of_nat fuel < 2 ^ 63 ->
  snprintf fuel b (chars "%s") [AStr s] =
  Hang (V (take (length b - 1) s ++ drop (length b - 1) b) (Z.of_nat fuel) []).
Proof.
  intros Hs Hb Hf Hk. unfold snprintf, vsnprintf, bind at 1.
  change (chars "%s") with [37; 115]. cbn [fmt_loop Z.eqb Pos.eqb]. unfold bind, fmt_s, bind, va_arg_str. cbn [vl out pos].
  set (j := (length b - 1)%nat). change (V b 0 []) with (wrote b [] []).
  destruct (lookup_lt_is_Some_2 s j) as [c Hc]; [lia|].
  assert (s = take j s ++ c :: drop (S j) s) as Es by (by rewrite <- (drop_S s c j Hc), take_drop).
  assert (length (take j s) = j) as Lj by (rewrite length_take; lia).
  rewrite Es at 1. replace fuel with (length (take j s) + (fuel - j))%nat at 1 by lia.
  rewrite fmt_s_loop_app; [|by apply Forall_take|cbn; lia|lia]. cbn [app]. unfold wrote.
  rewrite fmt_s_loop_stuck; [|by eapply (Forall_lookup_1 (fun c => 0 < c < 256))|lia|lia|lia].
  do 2 f_equal; [|lia]. rewrite puts_closed by lia. rewrite take_0, Nat.sub_0_r. fold j. cbn [app Nat.add].
  rewrite (take_ge (take j s)) by lia. by rewrite Lj.
Qed.

Lemma vsnprintf_overlong_string_loops_witness :
  snprintf 100 [0; 0; 0; 0] (chars "%s") [AStr (chars "vmlinux")] = Hang (V (chars "vml" ++ [0]) 100 []).
Proof.
  apply (vsnprintf_overlong_string_loops 100 [0; 0; 0; 0] (chars "vmlinux")).
  - repeat constructor; lia.
  - cbn; lia.
  - cbn; lia.
  - cbn; lia.
Defined.

Lemma fmt_s_loop_overlong b k s R args :
  Forall (fun c => 0 < c < 256) s -> s <> [] -> (length b <= length R + length s)%nat ->
  Z.of_nat (length R + k) < 2 ^ 63 -> Z.of_nat (length b) < 2 ^ 63 ->
  exists v, fmt_s_loop (Z.of_nat (length b)) k s (wrote b R args) = Hang v.
Proof.
  intros Hs. revert R k. induction Hs as [|c s Hc Hs IH]; intros R k Hne Hl Hk Hb; [done|].
  destruct (decide (length b <= length R + 1)%nat).
  - unfold wrote. rewrite fmt_s_loop_stuck by lia. eauto.
  - destruct k as [|k]; [by eexists|]. cbn [length] in Hl.
    change (c :: s) with ([c] ++ s). change (S k) with (length [c] + k)%nat.
    rewrite fmt_s_loop_app; [|by apply Forall_singleton|cbn; lia|lia].
    apply IH; rewrite ?length_app; cbn [length]; try lia. intros ->. cbn in *. lia.
Qed.

Lemma fmt_pieces_app fuel b ps qs v : fmt_pieces b fuel (ps ++ qs) v = bind (fmt_pieces b fuel ps) (fun _ => fmt_pieces b fuel qs) v.
Proof.
  revert v. induction ps as [|p ps IH]; intros v; [done|]. cbn [app fmt_pieces]. rewrite bind_bind.
  apply bind_ext. intros [] v'. apply IH.
Qed.

(** C36.  For every format whose directives are known and whose arguments match.
    When each string and character argument ends inside the buffer, vsnprintf
    returns the length of the whole text and leaves in the buffer as much of it as
    fits (literals, numbers and pointers are cut at the end of the buffer) followed
    by the terminator, and no byte outside the buffer is touched.  When a string is
    the first not to fit, it never returns: the loop runs on for as long as it is
    given, up to the range of size_t. *)
Theorem vsnprintf_renders (fuel : nat) (b s : list Z) (args : list arg) :
  0 < Z.of_nat (length b) < 2 ^ 63 ->
  (forall ps ts, parse false false s = Some ps -> texts ps args = Some ts -> Forall (arg_ok fuel) args ->
     text_fits (length b) 0 ts = true -> Z.of_nat (length (render ts)) < 2 ^ 31 ->
     exists v, snprintf fuel b s args = Ret (Z.of_nat (length (render ts))) v /\
               out v = truncated b (render ts) /\ length (out v) = length b) /\
  (forall ps qs ts t rest, parse false false s = Some (ps ++ PStr :: qs) ->
     texts ps args = Some ts -> Forall (arg_ok fuel) (take (arg_count ps) args) ->
     text_fits (length b) 0 ts = true -> Z.of_nat (length (render ts)) < 2 ^ 31 ->
     drop (arg_count ps) args = AStr t :: rest -> Forall (fun c => 0 < c < 256) t -> t <> [] ->
     (length b <= length (render ts) + length t)%nat -> Z.of_nat fuel < 2 ^ 62 ->
     exists v, snprintf fuel b s args = Hang v).
Proof.
  intros Hn. split.
  - intros ps ts Hp Ht Ha Hf HR. destruct (vsnprintf_at b fuel s ps args ts Hp Ht Ha Hf HR Hn) as [args' E].
    eexists. split; [exact E|]. split; [done|]. cbn [out]. unfold truncated.
    rewrite length_app, length_take. cbn [length]. rewrite length_drop. lia.
  - intros ps qs ts t rest Hp Ht Ha Hf HR Hd Hc Hne Hl Hk. unfold snprintf, vsnprintf. unfold bind at 1.
    change (V b 0 args) with (wrote b [] args). rewrite (fmt_loop_pieces _ _ _ _ _ _ _ Hp), fmt_pieces_app. unfold bind at 1.
    rewrite (fmt_pieces_at b fuel ps args ts [] Ht Ha Hf) by (done || lia). rewrite Hd. cbn [app fmt_pieces fmt_piece].
    unfold fmt_s, bind, va_arg_str. cbn [vl wrote out pos].
    destruct (fmt_s_loop_overlong b fuel t (render ts) rest Hc Hne Hl) as [v E]; [lia|lia|].
    unfold wrote in E. rewrite E. eauto.
Qed.

(** A numeral cut at the end of the buffer; a string that does not fit. *)
Lemma vsnprintf_renders_witness :
  (exists v, snprintf 10 (replicate 12 255) (chars "%s=%d!%x") [AStr (chars "abc"); AInt (-42); AInt 0xBEEF]
             = Ret 16 v /\ out v = chars "abc=-42!000" ++ [0]) /\
  (exists v, snprintf 1000 (replicate 6 255) (chars "%d%s") [AInt 1; AStr (chars "vmlinux")] = Hang v).
Proof.
  split.
  - destruct (proj1 (vsnprintf_renders 10 (replicate 12 255) (chars "%s=%d!%x")
      [AStr (chars "abc"); AInt (-42); AInt 0xBEEF] ltac:(done))
      [PStr; PLit 61; PDec false; PLit 33; PHex false]
      [(true, chars "abc"); (false, [61]); (false, chars "-42"); (false, [33]); (false, chars "0000beef")])
      as (v & E & Eo & _).
    + reflexivity.
    + vm_compute. reflexivity.
    + repeat constructor; cbn; lia.
    + reflexivity.
    + reflexivity.
    + exists v. split; [exact E|]. rewrite Eo. reflexivity.
  - apply (proj2 (vsnprintf_renders 1000 (replicate 6 255) (chars "%d%s") [AInt 1; AStr (chars "vmlinux")] ltac:(done))
      [PDec false] [] [(false, [49])] (chars "vmlinux") []).
    + reflexivity.
    + reflexivity.
    + repeat constructor.
    + reflexivity.
    + reflexivity.
    + reflexivity.
    + repeat constructor; lia.
    + discriminate.
    + cbn. lia.
    + lia.
Defined.

(** What reaches the serial line: printk returns and transmits exactly the rendered
    text when it has at most 255 characters, and otherwise its first 255 characters
    followed by the terminating zero byte; dump_tf transmits the 32 named registers in
    hexadecimal, four to a line, and the trap's pc, address, instruction and status. *)
Theorem printk_output {U} `{UartLaws U} (fuel : nat) (stack : list Z) (u : U) :
  (256 <= length stack)%nat -> Forall (inu 8) stack -> uart_open u ->
  (forall s ps args ts, parse false false s = Some ps -> texts ps args = Some ts ->
     Forall (arg_ok fuel) args -> text_fits 256 0 ts = true -> Z.of_nat (length (render ts)) < 2 ^ 31 ->
     returns (printk fuel stack s args) u (fun _ u' => advanced (printed (render ts)) u u')) /\
  (forall gpr status epc badvaddr insn, (2 < fuel)%nat ->
     returns (dump_tf fuel stack gpr status epc badvaddr insn) u
       (fun _ u' => advanced (dump_text gpr status epc badvaddr insn) u u')).
Proof.
  intros Hs Hb Hu. split; intros; [by eapply printk_at|by apply dump_tf_at].
Qed.

Lemma printk_output_witness :
  let u := Uart16550 0 0 0 0 7 [] [] [97; 98; 99] in
  returns (printk 10 (replicate 300 0) (chars "hart %d up") [AInt 3]) u (fun _ u' => u_line u' = chars "hart 3 up") /\
  returns (dump_tf 10 (replicate 300 0) (replicate 32 5) 0 0 0 0) u (fun _ u' => length (u_line u') = 720%nat).
Proof.
  intros u. destruct (printk_output 10 (replicate 300 0) u) as [H1 H2].
  - rewrite length_replicate. lia.
  - apply Forall_replicate. vm_decide.
  - reflexivity.
  - split.
    + eapply returns_mono.
      * eapply (H1 (chars "hart %d up")); [reflexivity|vm_compute; reflexivity| |reflexivity|reflexivity].
        by repeat constructor.
      * intros [] u' (_ & St & _). exact St.
    + eapply returns_mono; [apply H2; lia|]. intros [] u' (_ & St & _). cbn in St. rewrite St. vm_compute. reflexivity.
Defined.
