(* ===== verification/File.v ===== *)
(** * The file layer ([bbl/file.c], [bbl/atomic.h])

    A table of 32 reference-counted handles over FatFs.  FatFs is the class [FatFs]
    of its calls; [FatFsLaws] is the documented behaviour the layer relies on.  The
    theorems follow a handle through its life and say what a read or write does to
    memory, to the file position and to the locks. *)

From Stdlib Require Import ZArith Lia Bool List String.
From stdpp Require Import base gmap list.
From S2P Require Import Prelude Machine Memory.
Open Scope Z_scope.
Open Scope word_scope.

(** ** FatFs *)

(** [F] is the volume, [FIL] the handle a call is given.  A call returns its
    [FRESULT] (0 is success) with its outputs. *)
Class FatFs (F FIL : Type) := {
  f_open : FIL -> list Z -> Z -> F -> Z * FIL * F;
  f_close : FIL -> F -> Z * FIL * F;
  f_lseek : FIL -> Z -> F -> Z * FIL * F;
  f_read : FIL -> Z -> F -> Z * (list Z * Z) * FIL * F;
  f_write : FIL -> list Z -> F -> Z * Z * FIL * F;
  f_stat : list Z -> F -> Z * Z * F;
}.

(** A read stores at most the bytes asked for and counts no more. *)
Class FatFsLaws (F FIL : Type) `{FatFs F FIL} : Prop := {
  f_read_bound fd btr fs : 0 <= btr ->
    match f_read fd btr fs with
    | (_, (data, br), _, _) => Forall (inu 8) data /\ Z.of_nat (length data) <= btr /\ 0 <= br <= btr
    end;
  f_write_bound fd data fs : match f_write fd data fs with (_, bw, _, _) => 0 <= bw <= Z.of_nat (length data) end;
}.

(** ** State *)
Section File.
Context {F FIL : Type} `{FatFs F FIL}.

Record file_t := File { fd : FIL; offset : Z; refcnt : Z }.

(** The handle table, the two spin locks, [sstatus], the volume and memory. *)
Record fsys := Fsys {
  files : list file_t; file_lock : Z; refcnt_lock : Z; sstatus : Z; fat : F; mem : memory;
}.

Definition set_files v s := Fsys v (file_lock s) (refcnt_lock s) (sstatus s) (fat s) (mem s).
Definition set_file_lock v s := Fsys (files s) v (refcnt_lock s) (sstatus s) (fat s) (mem s).
Definition set_refcnt_lock v s := Fsys (files s) (file_lock s) v (sstatus s) (fat s) (mem s).
Definition set_sstatus v s := Fsys (files s) (file_lock s) (refcnt_lock s) v (fat s) (mem s).
Definition set_fat v s := Fsys (files s) (file_lock s) (refcnt_lock s) (sstatus s) v (mem s).
Definition set_mem v s := Fsys (files s) (file_lock s) (refcnt_lock s) (sstatus s) (fat s) v.

(** Run memory code inside the file layer. *)
Definition on_mem {A} : ST memory A -> ST fsys A := zoom mem set_mem.

(** The fields of handle [i]. *)
Definition get_file (i : nat) : ST fsys file_t := fun s =>
  match files s !! i with Some f => Ret f s | None => Undef end.
Definition put_file (i : nat) (f : file_t) : ST fsys unit :=
  modify (fun s => set_files (<[i := f]> (files s)) s).

(** ** [atomic.h] (with [ENABLE_ATOMICS]) *)

Definition SSTATUS_IE : Z := 1.

(** [csrrc] and [csrs] on [sstatus]. *)
Definition disable_irqsave : ST fsys Z :=
  let! flags := gets sstatus in
  modify (set_sstatus (bitand_not 64 flags SSTATUS_IE)) ;; ret flags.
Definition enable_irqrestore (flags : Z) : ST fsys unit :=
  modify (fun s => set_sstatus (sstatus s ||| (flags &&& SSTATUS_IE)) s).

(** On one hart with interrupts off nobody releases a held lock: the wait does not
    end. *)
Definition spinlock_lock {S} (get : S -> Z) (set : Z -> S -> S) : ST S unit :=
  let! l := gets get in
  if l =? 0 then modify (set (-1)) else hang.
Definition spinlock_unlock {S} (set : Z -> S -> S) : ST S unit := modify (set 0).

Definition spinlock_lock_irqsave get set : ST fsys Z :=
  let! flags := disable_irqsave in spinlock_lock get set ;; ret flags.
Definition spinlock_unlock_irqrestore (set : Z -> fsys -> fsys) (flags : Z) : ST fsys unit :=
  spinlock_unlock set ;; enable_irqrestore flags.

(** ** [file.c] *)
Definition MAX_FILES : nat := 32.

Definition file_incref (i : nat) : ST fsys unit :=
  let! flags := spinlock_lock_irqsave refcnt_lock set_refcnt_lock in
  let! f := get_file i in
  let prev := refcnt f in
  put_file i (File (fd f) (offset f) (u32 (prev + 1))) ;;
  spinlock_unlock_irqrestore set_refcnt_lock flags ;;
  kassert (0 <? prev).

Definition file_decref (i : nat) : ST fsys unit :=
  let! flags := spinlock_lock_irqsave refcnt_lock set_refcnt_lock in
  let! f := get_file i in
  let prev := refcnt f in
  put_file i (File (fd f) (offset f) (u32 (prev - 1))) ;;
  (if prev =? 2 then
     let! s := gets (fun s => s) in
     let '(_, fd', fs') := f_close (fd f) (fat s) in
     put_file i (File fd' 0 0) ;; modify (set_fat fs')
   else ret tt) ;;
  spinlock_unlock_irqrestore set_refcnt_lock flags.

(** The scan [for (f = files; f < files + MAX_FILES; f++)] with
    [atomic_cas(&f->refcnt, 0, 2)]. *)
Fixpoint file_scan (i k : nat) : ST fsys nat :=
  match k with
  | O => panic "fail to get a free file"
  | S k' =>
      let! f := get_file i in
      if refcnt f =? 0 then put_file i (File (fd f) (offset f) 2) ;; ret i
      else file_scan (S i) k'
  end.
Definition file_get_free : ST fsys nat := file_scan 0 MAX_FILES.

Fixpoint init_slots (i k : nat) : ST fsys unit :=
  match k with
  | O => ret tt
  | S k' => let! f := get_file i in put_file i (File (fd f) 0 0) ;; init_slots (S i) k'
  end.
Definition file_init : ST fsys unit := init_slots 0 MAX_FILES.

Definition FA_READ : Z := 1.
Definition FA_WRITE : Z := 2.

(** [O_ACCMODE] is 3, [O_RDONLY], [O_WRONLY] and [O_RDWR] are 0, 1 and 2. *)
Definition open_mode (flags : Z) : Z :=
  let acc := flags &&& 3 in
  if acc =? 2 then FA_READ ||| FA_WRITE
  else if acc =? 1 then FA_WRITE
  else if acc =? 0 then FA_READ
  else 0.

Definition file_openat (dirfd : Z) (fn : list Z) (flags : Z) : ST fsys nat :=
  let! i := file_get_free in
  let! f := get_file i in
  let! s := gets (fun s => s) in
  let '(rt, fd', fs') := f_open (fd f) fn (open_mode flags) (fat s) in
  put_file i (File fd' (offset f) (refcnt f)) ;;
  modify (set_fat fs') ;;
  if rt =? 0 then ret i else panic "fail to open file".

Definition file_open (fn : list Z) (flags : Z) : ST fsys nat := file_openat (-100) fn flags.

(** [populate_mapping] of [vm.c]: touch every page of a buffer. *)
Fixpoint touch_pages (fuel : nat) (a e : Z) (wr : bool) : ST memory unit :=
  match fuel with
  | O => hang
  | S fuel' =>
      if a <? e then
        let! x := load 4 a in
        (if wr then store 4 a x else ret tt) ;;
        touch_pages fuel' (u64 (a + 4096)) e wr
      else ret tt
  end.
Definition PROT_READ : Z := 1.
Definition PROT_WRITE : Z := 2.
Definition populate_mapping (start size prot : Z) : ST memory unit :=
  let a0 := start / 4096 * 4096 in
  touch_pages (S (Z.to_nat (size / 4096 + 2))) a0 (u64 (start + size)) (negb ((prot &&& PROT_WRITE) =? 0)).

(** The calls of FatFs on handle [i]. *)
Definition do_lseek (i : nat) (ofs : Z) : ST fsys Z :=
  let! f := get_file i in
  let! s := gets (fun s => s) in
  let '(rt, fd', fs') := f_lseek (fd f) (u32 ofs) (fat s) in
  put_file i (File fd' (offset f) (refcnt f)) ;; modify (set_fat fs') ;; ret rt.

(** The bytes read are stored at [buf]. *)
Definition do_read (i : nat) (buf btr : Z) : ST fsys Z :=
  let! f := get_file i in
  let! s := gets (fun s => s) in
  let '(_, (data, br), fd', fs') := f_read (fd f) (u32 btr) (fat s) in
  put_file i (File fd' (offset f) (refcnt f)) ;; modify (set_fat fs') ;;
  on_mem (fun m => if decide (mapped m buf (length data)) then Ret tt (write_bytes m buf data)
                   else bad_trap m) ;;
  ret br.

Definition do_write (i : nat) (buf btw : Z) : ST fsys Z :=
  let! f := get_file i in
  let! s := gets (fun s => s) in
  match read_bytes (mem s) buf (Z.to_nat (u32 btw)) with
  | None => bad_trap
  | Some data =>
      let '(_, bw, fd', fs') := f_write (fd f) data (fat s) in
      put_file i (File fd' (offset f) (refcnt f)) ;; modify (set_fat fs') ;; ret bw
  end.

(** [f->offset += n]. *)
Definition advance_offset (i : nat) (n : Z) : ST fsys unit :=
  let! f := get_file i in put_file i (File (fd f) (u32 (offset f + n)) (refcnt f)).

Definition file_read (i : nat) (buf size : Z) : ST fsys Z :=
  on_mem (populate_mapping buf size PROT_WRITE) ;;
  let! flags := spinlock_lock_irqsave file_lock set_file_lock in
  let! f := get_file i in
  do_lseek i (offset f) ;;
  let! rsize := do_read i buf size in
  advance_offset i rsize ;;
  spinlock_unlock_irqrestore set_file_lock flags ;;
  ret rsize.

Definition file_pread (i : nat) (buf size ofs : Z) : ST fsys Z :=
  on_mem (populate_mapping buf size PROT_WRITE) ;;
  let! flags := spinlock_lock_irqsave file_lock set_file_lock in
  let! rt := do_lseek i ofs in
  (if rt =? 0 then ret tt else panic "f_lseek() failed!") ;;
  let! rsize := do_read i buf size in
  (* the result of f_read is dropped: the test is on the result of f_lseek *)
  (if rt =? 0 then ret tt else panic "f_read() failed!") ;;
  spinlock_unlock_irqrestore set_file_lock flags ;;
  ret rsize.

Definition file_write (i : nat) (buf size : Z) : ST fsys Z :=
  on_mem (populate_mapping buf size PROT_READ) ;;
  let! flags := spinlock_lock_irqsave file_lock set_file_lock in
  let! f := get_file i in
  do_lseek i (offset f) ;;
  let! wsize := do_write i buf size in
  advance_offset i wsize ;;
  spinlock_unlock_irqrestore set_file_lock flags ;;
  ret wsize.

Definition file_pwrite (i : nat) (buf size ofs : Z) : ST fsys Z :=
  on_mem (populate_mapping buf size PROT_READ) ;;
  let! flags := spinlock_lock_irqsave file_lock set_file_lock in
  do_lseek i ofs ;;
  let! wsize := do_write i buf size in
  spinlock_unlock_irqrestore set_file_lock flags ;;
  ret wsize.

Definition file_truncate (i : nat) (len : Z) : ST fsys Z := panic "file_truncate() not supported!".

Definition SEEK_SET : Z := 0.
Definition SEEK_CUR : Z := 1.

Definition file_lseek (i : nat) (ptr dir : Z) : ST fsys Z :=
  if dir =? SEEK_SET then
    let! rt := do_lseek i ptr in
    ret (if rt =? 0 then s64 ptr else -1)
  else if dir =? SEEK_CUR then
    let! f := get_file i in
    let! rt := do_lseek i (u64 (offset f + ptr)) in
    ret (if rt =? 0 then s64 (offset f + ptr) else -1)
  else panic "lseek SEEK_END not supported!".
End File.
Arguments file_t FIL : clear implicits.
Arguments fsys F FIL : clear implicits.

Ltac fsys_simpl :=
  cbn [files file_lock refcnt_lock sstatus fat mem fd offset refcnt set_files set_file_lock
       set_refcnt_lock set_sstatus set_fat set_mem].

(** ** Lemmas *)

Lemma irq_roundtrip x : inu 64 x -> (bitand_not 64 x SSTATUS_IE ||| (x &&& SSTATUS_IE)) = x.
Proof.
  intros Hx. unfold SSTATUS_IE. apply Z.bits_inj'. intros i Hi. autorewrite with testbit.
  destruct (Z.eq_dec i 0) as [->|].
  - cbn. by destruct (Z.odd x).
  - rewrite (testbit_inu 1 1 i) by (unfold inu; lia). repeat split_ltb; kill_bits; cbn;
      rewrite ?andb_true_r, ?andb_false_r, ?orb_false_r; done.
Qed.

(** Writing back what was read changes nothing. *)
Lemma write_read_same m a n bs : read_bytes m a n = Some bs -> write_bytes m a bs = m.
Proof.
  revert a bs. induction n as [|n IH]; intros a bs H; cbn [read_bytes] in H; [by injection H as <-|].
  destruct (m !! u64 a) as [x|] eqn:Ea; [|done]. destruct (read_bytes m (a + 1) n) eqn:E; [|done].
  injection H as <-. cbn [write_bytes]. rewrite insert_id by done. eauto.
Qed.

(** The first word of every page the buffer touches is in the address map. *)
Definition pages_mapped (m : memory) (start size : Z) : Prop :=
  forall a, a mod 4096 = 0 -> start / 4096 * 4096 <= a < start + size -> mapped m a 4.

Lemma touch_pages_same fuel m a e wr :
  bytes_ok m -> a mod 4096 = 0 -> 0 <= a -> e < 2 ^ 64 - 4096 -> e <= a + 4096 * (Z.of_nat fuel - 1) ->
  (0 < fuel)%nat ->
  (forall p, p mod 4096 = 0 -> a <= p < e -> mapped m p 4) -> touch_pages fuel a e wr m = Ret tt m.
Proof.
  intros Hm. revert a. induction fuel as [|fuel IH]; intros a Ha A0 He Hf Hpos Hp; [lia|].
  cbn [touch_pages]. destruct (Z.ltb_spec a e) as [L|L]; [|done].
  destruct (Hp a) as [bs R]; [done|lia|].
  assert (a mod Z.of_nat 4 = 0) as H4.
  { change (Z.of_nat 4) with 4. apply Z.mod_divide in Ha; [|lia]. apply Z.mod_divide; [lia|].
    destruct Ha as [k ->]. exists (k * 1024). lia. }
  unfold bind. rewrite (load_spec 4 a m bs H4 R).
  assert ((if wr then store 4 a (le_combine bs) else ret tt) m = Ret tt m) as ->.
  { destruct wr; [|done]. rewrite store_spec by (done || by eexists).
    rewrite (le_split_combine_len 4 bs); [|by eapply read_bytes_length|by eapply read_bytes_ok].
    by rewrite (write_read_same m a 4). }
  destruct fuel as [|fuel]; [lia|].
  rewrite wrapu_small by (unfold inu; lia). apply IH; [by apply mod_step|lia|lia|lia|lia|].
  intros p Hpm Hpr. apply Hp; [done|lia].
Qed.

Lemma populate_same m start size prot :
  bytes_ok m -> 0 <= start -> 0 <= size -> start + size < 2 ^ 64 - 4096 -> pages_mapped m start size ->
  populate_mapping start size prot m = Ret tt m.
Proof.
  intros Hm H0 H1 H2 Hp. unfold populate_mapping. rewrite wrapu_small by (unfold inu; lia).
  pose proof (Z.div_mod start 4096). pose proof (Z.mod_pos_bound start 4096).
  pose proof (Z.div_mod size 4096). pose proof (Z.mod_pos_bound size 4096).
  pose proof (Z.div_pos size 4096). pose proof (Z.div_pos start 4096).
  apply touch_pages_same; auto; try lia. apply Z.mod_mul. lia.
Qed.

Section FileSpec.
Context {F FIL : Type} `{FatFsLaws F FIL}.
Implicit Types s : fsys F FIL.

(** No lock is held. *)
Definition idle s : Prop := file_lock s = 0 /\ refcnt_lock s = 0 /\ inu 64 (sstatus s).

Lemma get_file_at i s f : files s !! i = Some f -> get_file i s = Ret f s.
Proof. intros E. unfold get_file. by rewrite E. Qed.

Lemma insert_file i s f g : files s !! i = Some f -> <[i := g]> (files s) !! i = Some g.
Proof. intros E. apply list_lookup_insert_eq. by eapply lookup_lt_Some. Qed.

(** The slot's reference count for [k] users; 0 for a free slot. *)
Definition count_ref (k : Z) : Z := if k =? 0 then 0 else k + 1.

Lemma file_incref_at i s f k :
  idle s -> files s !! i = Some f -> 0 < k < 2 ^ 32 - 2 -> refcnt f = count_ref k ->
  file_incref i s = Ret tt (set_files (<[i := File (fd f) (offset f) (count_ref (k + 1))]> (files s)) s).
Proof.
  intros (L1 & L2 & L3) Hf Hk Hr. unfold file_incref, spinlock_lock_irqsave, spinlock_lock, disable_irqsave,
    spinlock_unlock_irqrestore, spinlock_unlock, enable_irqrestore, put_file. st_simpl. fsys_simpl.
  rewrite L2. cbn [Z.eqb]. unfold get_file. fsys_simpl. rewrite Hf. fsys_simpl.
  unfold count_ref in *. rewrite !(proj2 (Z.eqb_neq _ 0)) in * by lia. rewrite Hr.
  destruct (Z.ltb_spec 0 (k + 1)); [|lia]. rewrite wrapu_small by (unfold inu; lia).
  rewrite irq_roundtrip by done. destruct s; cbn in *. by subst.
Qed.

(** Dropping a reference; the last one closes the file and frees the slot. *)
Definition dropped (i : nat) (f : file_t FIL) (k : Z) s : fsys F FIL :=
  if k =? 1 then
    let '(_, fd', fs') := f_close (fd f) (fat s) in
    set_fat fs' (set_files (<[i := File fd' 0 0]> (files s)) s)
  else set_files (<[i := File (fd f) (offset f) (count_ref (k - 1))]> (files s)) s.

Lemma file_decref_at i s f k :
  idle s -> files s !! i = Some f -> 0 < k < 2 ^ 32 - 2 -> refcnt f = count_ref k ->
  file_decref i s = Ret tt (dropped i f k s).
Proof.
  intros (L1 & L2 & L3) Hf Hk Hr. unfold file_decref, dropped, spinlock_lock_irqsave, spinlock_lock, disable_irqsave,
    spinlock_unlock_irqrestore, spinlock_unlock, enable_irqrestore, put_file. st_simpl. fsys_simpl.
  rewrite L2. cbn [Z.eqb]. unfold get_file. fsys_simpl. rewrite Hf. fsys_simpl.
  unfold count_ref in *. rewrite (proj2 (Z.eqb_neq k 0)) in Hr by lia. rewrite Hr.
  destruct (Z.eqb_spec k 1) as [->|Hk1].
  - change (1 + 1 =? 2) with true. cbv iota. fsys_simpl.
    destruct (f_close (fd f) (fat s)) as [[rt fd'] fs']. fsys_simpl. rewrite irq_roundtrip, list_insert_insert_eq by done.
    destruct s; cbn in *. by subst.
  - rewrite !(proj2 (Z.eqb_neq _ _)) by lia. st_simpl. fsys_simpl.
    rewrite wrapu_small by (unfold inu; lia). rewrite irq_roundtrip by done.
    replace (k + 1 - 1) with (k - 1 + 1) by lia. destruct s; cbn in *. by subst.
Qed.

(** ** The life of a handle *)

Inductive ref_op := Incref | Decref.

Fixpoint run_refs (i : nat) (ops : list ref_op) : ST (fsys F FIL) unit :=
  match ops with
  | [] => ret tt
  | Incref :: ops' => file_incref i ;; run_refs i ops'
  | Decref :: ops' => file_decref i ;; run_refs i ops'
  end.

(** The users left, from [k]; and that every operation is made by a user. *)
Fixpoint users (k : Z) (ops : list ref_op) : Z :=
  match ops with
  | [] => k
  | Incref :: ops' => users (k + 1) ops'
  | Decref :: ops' => users (k - 1) ops'
  end.
Fixpoint held (k : Z) (ops : list ref_op) : bool :=
  match ops with
  | [] => true
  | Incref :: ops' => (0 <? k) && held (k + 1) ops'
  | Decref :: ops' => (0 <? k) && held (k - 1) ops'
  end.

(** Handle [i], opened as [f] on the volume of [s], with [k] users left in [s']. *)
Definition handle_state (i : nat) (f : file_t FIL) s (k : Z) s' : Prop :=
  idle s' /\ mem s' = mem s /\ (forall j, j <> i -> files s' !! j = files s !! j) /\
  if k =? 0 then
    let '(_, fd', fs') := f_close (fd f) (fat s) in
    fat s' = fs' /\ files s' !! i = Some (File fd' 0 0)
  else fat s' = fat s /\ files s' !! i = Some (File (fd f) (offset f) (count_ref k)).

Lemma run_refs_at i f s ops k s1 :
  handle_state i f s k s1 -> 0 < k -> k + Z.of_nat (length ops) < 2 ^ 32 - 2 -> held k ops = true ->
  returns (run_refs i ops) s1 (fun _ s' => handle_state i f s (users k ops) s').
Proof.
  revert k s1. induction ops as [|op ops IH]; intros k s1 Hs Hk Hl Hh; [by apply returns_ret|].
  pose proof Hs as (I1 & M1 & O1 & C1). rewrite (proj2 (Z.eqb_neq k 0)) in C1 by lia. destruct C1 as [Fa Fi].
  cbn [length] in Hl. destruct op; cbn [run_refs users held] in *;
    apply andb_true_iff in Hh as [_ Hh]; unfold returns, bind.
  - rewrite (file_incref_at i s1 (File (fd f) (offset f) (count_ref k)) k) by (done || lia). cbn [fd offset].
    apply IH; [|lia|lia|done]. split_and!; [exact I1|exact M1|..].
    + intros j Hj. fsys_simpl. rewrite list_lookup_insert_ne by done. by apply O1.
    + rewrite (proj2 (Z.eqb_neq (k + 1) 0)) by lia. split; [done|]. by eapply insert_file.
  - rewrite (file_decref_at i s1 (File (fd f) (offset f) (count_ref k)) k) by (done || lia).
    assert (handle_state i f s (k - 1) (dropped i (File (fd f) (offset f) (count_ref k)) k s1)) as Hd.
    { unfold dropped, handle_state. cbn [fd offset]. rewrite Fa. destruct (Z.eqb_spec k 1) as [->|Hk1].
      - destruct (f_close (fd f) (fat s)) as [[rt fd'] fs']. cbn [Z.sub Z.eqb]. split_and!; [exact I1|exact M1|..].
        + intros j Hj. fsys_simpl. rewrite list_lookup_insert_ne by done. by apply O1.
        + change (1 - 1 =? 0) with true. split; [done|]. by eapply insert_file.
      - split_and!; [exact I1|exact M1|..].
        + intros j Hj. fsys_simpl. rewrite list_lookup_insert_ne by done. by apply O1.
        + rewrite (proj2 (Z.eqb_neq (k - 1) 0)) by lia. split; [done|]. by eapply insert_file. }
    destruct (Z.eq_dec k 1) as [->|Hk1].
    + destruct ops as [|op2 ops2]; [by apply returns_ret|]. by destruct op2.
    + apply IH; [done|lia|lia|done].
Qed.

Lemma file_scan_at s i k j :
  (forall q f, (i <= q < j)%nat -> files s !! q = Some f -> refcnt f <> 0) ->
  (i <= j < i + k)%nat -> (i + k <= length (files s))%nat ->
  (forall f, files s !! j = Some f -> refcnt f = 0 ->
   file_scan i k s = Ret j (set_files (<[j := File (fd f) (offset f) 2]> (files s)) s)).
Proof.
  revert i. induction k as [|k IH]; intros i Hq Hj Hk f Hf Hr; [lia|]. cbn [file_scan]. unfold bind.
  destruct (lookup_lt_is_Some_2 (files s) i) as [g Hg]; [lia|]. rewrite (get_file_at _ _ _ Hg).
  destruct (decide (i = j)) as [->|Hne].
  - rewrite Hg in Hf. simplify_eq. by rewrite Hr.
  - rewrite (proj2 (Z.eqb_neq _ _)) by (eapply Hq; [|exact Hg]; lia).
    apply IH; auto; try lia. intros q g' Hq'. apply Hq. lia.
Qed.

(** All 32 handles taken: the scan panics. *)
Lemma file_scan_full s i k :
  (i + k <= length (files s))%nat -> (forall q f, files s !! q = Some f -> refcnt f <> 0) ->
  file_scan i k s = Panic "fail to get a free file" s.
Proof.
  intros Hk Hq. revert i Hk. induction k as [|k IH]; intros i Hk; [done|]. cbn [file_scan]. unfold bind.
  destruct (lookup_lt_is_Some_2 (files s) i) as [g Hg]; [lia|]. rewrite (get_file_at _ _ _ Hg).
  rewrite (proj2 (Z.eqb_neq _ _)) by (by eapply Hq). apply IH. lia.
Qed.

Lemma file_open_at s j f fn flags fd' fs' :
  length (files s) = MAX_FILES -> (j < MAX_FILES)%nat -> files s !! j = Some f -> refcnt f = 0 ->
  (forall q g, (q < j)%nat -> files s !! q = Some g -> refcnt g <> 0) ->
  f_open (fd f) fn (open_mode flags) (fat s) = (0, fd', fs') ->
  file_open fn flags s = Ret j (set_fat fs' (set_files (<[j := File fd' (offset f) 2]> (files s)) s)).
Proof.
  intros Hl Hj Hf Hr Hq E. unfold file_open, file_openat, file_get_free. unfold bind at 1.
  rewrite (file_scan_at s 0 MAX_FILES j) with (f := f); [|intros q g Hi; apply Hq; lia|lia|lia|done|done].
  unfold bind, gets. erewrite get_file_at by (fsys_simpl; by eapply insert_file). fsys_simpl.
  rewrite E. unfold put_file, modify, ret. fsys_simpl. cbn [Z.eqb]. by rewrite list_insert_insert_eq.
Qed.

(** ** Reads and writes *)

(** A buffer of the address map, pages included. *)
Definition io_buffer (m : memory) (buf size : Z) : Prop :=
  0 <= buf /\ 0 <= size < 2 ^ 32 /\ buf + size < 2 ^ 64 - 4096 /\ pages_mapped m buf size /\
  mapped m buf (Z.to_nat size).

Lemma on_mem_populate s buf size prot :
  bytes_ok (mem s) -> io_buffer (mem s) buf size -> on_mem (populate_mapping buf size prot) s = Ret tt s.
Proof.
  intros Hm (B0 & B1 & B2 & B3 & B4). unfold on_mem, zoom. rewrite populate_same by (done || lia). by destruct s.
Qed.

Definition locked s : fsys F FIL :=
  set_file_lock (-1) (set_sstatus (bitand_not 64 (sstatus s) SSTATUS_IE) s).

Lemma file_lock_at s : idle s ->
  spinlock_lock_irqsave file_lock set_file_lock s = Ret (sstatus s) (locked s).
Proof.
  intros (L1 & _). unfold spinlock_lock_irqsave, spinlock_lock, disable_irqsave. st_simpl. fsys_simpl.
  by rewrite L1.
Qed.

(** Releasing the lock of a state that differs from [locked s] in handles, volume and
    memory only. *)
Lemma file_unlock_at s (fl : list (file_t FIL)) (fa : F) m : idle s ->
  spinlock_unlock_irqrestore set_file_lock (sstatus s)
    (Fsys fl (-1) (refcnt_lock s) (bitand_not 64 (sstatus s) SSTATUS_IE) fa m) =
  Ret tt (Fsys fl (file_lock s) (refcnt_lock s) (sstatus s) fa m).
Proof.
  intros (L1 & L2 & L3). unfold spinlock_unlock_irqrestore, spinlock_unlock, enable_irqrestore. st_simpl. fsys_simpl.
  unfold set_sstatus, set_file_lock. fsys_simpl. by rewrite irq_roundtrip, L1.
Qed.

Ltac fsys_norm := unfold locked, set_mem, set_fat, set_files, set_file_lock, set_sstatus; fsys_simpl.

Lemma do_lseek_at s i f ofs rt fd1 fs1 :
  files s !! i = Some f -> f_lseek (fd f) (u32 ofs) (fat s) = (rt, fd1, fs1) ->
  do_lseek i ofs s =
  Ret rt (set_fat fs1 (set_files (<[i := File fd1 (offset f) (refcnt f)]> (files s)) s)).
Proof.
  intros Hf E. unfold do_lseek, bind. rewrite (get_file_at _ _ _ Hf). unfold gets. rewrite E. done.
Qed.

Lemma do_read_at s i f buf size err data br fd1 fs1 :
  files s !! i = Some f -> 0 <= size < 2 ^ 32 -> mapped (mem s) buf (Z.to_nat size) ->
  f_read (fd f) size (fat s) = (err, (data, br), fd1, fs1) ->
  do_read i buf size s =
  Ret br (set_mem (write_bytes (mem s) buf data)
           (set_fat fs1 (set_files (<[i := File fd1 (offset f) (refcnt f)]> (files s)) s))).
Proof.
  intros Hf Hz Hm E. unfold do_read, bind. rewrite (get_file_at _ _ _ Hf). unfold gets.
  rewrite wrapu_small by done. pose proof (f_read_bound (fd f) size (fat s) ltac:(lia)) as B. rewrite E in *.
  unfold put_file, modify, on_mem, zoom. fsys_simpl. rewrite decide_True; [done|].
  replace (Z.to_nat size) with (length data + (Z.to_nat size - length data))%nat in Hm by lia.
  by apply mapped_app in Hm as [Hm _].
Qed.

Lemma do_write_at s i f buf size err data bw fd1 fs1 :
  files s !! i = Some f -> 0 <= size < 2 ^ 32 -> read_bytes (mem s) buf (Z.to_nat size) = Some data ->
  f_write (fd f) data (fat s) = (err, bw, fd1, fs1) ->
  do_write i buf size s =
  Ret bw (set_fat fs1 (set_files (<[i := File fd1 (offset f) (refcnt f)]> (files s)) s)).
Proof.
  intros Hf Hz Hr E. unfold do_write, bind. rewrite (get_file_at _ _ _ Hf). unfold gets.
  rewrite wrapu_small, Hr, E by done. done.
Qed.

Lemma file_pread_at s i f buf size ofs fd1 fs1 err data br fd2 fs2 :
  idle s -> files s !! i = Some f -> bytes_ok (mem s) -> io_buffer (mem s) buf size ->
  f_lseek (fd f) (u32 ofs) (fat s) = (0, fd1, fs1) -> f_read fd1 size fs1 = (err, (data, br), fd2, fs2) ->
  file_pread i buf size ofs s =
  Ret br (set_mem (write_bytes (mem s) buf data)
           (set_fat fs2 (set_files (<[i := File fd2 (offset f) (refcnt f)]> (files s)) s))).
Proof.
  intros Hi Hf Hm Hb E1 E2. pose proof Hb as (_ & Hz & _ & _ & Hp). unfold file_pread.
  unfold bind at 1. rewrite on_mem_populate by done. unfold bind at 1. rewrite file_lock_at by done.
  unfold bind at 1. rewrite (do_lseek_at (locked s) i f _ 0 fd1 fs1) by done. cbn [Z.eqb].
  unfold bind at 1, ret at 1. unfold bind at 1.
  erewrite do_read_at; [|fsys_simpl; by eapply insert_file|done|exact Hp|exact E2].
  unfold bind at 1, ret at 1. fsys_simpl. rewrite list_insert_insert_eq.
  fsys_norm. unfold bind. by rewrite file_unlock_at.
Qed.

Lemma file_pwrite_at s i f buf size ofs rt fd1 fs1 err data bw fd2 fs2 :
  idle s -> files s !! i = Some f -> bytes_ok (mem s) -> io_buffer (mem s) buf size ->
  read_bytes (mem s) buf (Z.to_nat size) = Some data ->
  f_lseek (fd f) (u32 ofs) (fat s) = (rt, fd1, fs1) -> f_write fd1 data fs1 = (err, bw, fd2, fs2) ->
  file_pwrite i buf size ofs s =
  Ret bw (set_fat fs2 (set_files (<[i := File fd2 (offset f) (refcnt f)]> (files s)) s)).
Proof.
  intros Hi Hf Hm Hb Hr E1 E2. pose proof Hb as (_ & Hz & _ & _ & _). unfold file_pwrite.
  unfold bind at 1. rewrite on_mem_populate by done. unfold bind at 1. rewrite file_lock_at by done.
  unfold bind at 1. rewrite (do_lseek_at (locked s) i f _ rt fd1 fs1) by done.
  unfold bind at 1.
  erewrite do_write_at; [|fsys_simpl; by eapply insert_file|done|exact Hr|exact E2].
  fsys_norm. rewrite list_insert_insert_eq. unfold bind. by rewrite file_unlock_at.
Qed.

Lemma advance_offset_at s i f n :
  files s !! i = Some f ->
  advance_offset i n s = Ret tt (set_files (<[i := File (fd f) (u32 (offset f + n)) (refcnt f)]> (files s)) s).
Proof. intros Hf. unfold advance_offset, bind. by rewrite (get_file_at _ _ _ Hf). Qed.

Lemma file_read_at s i f buf size rt fd1 fs1 err data br fd2 fs2 :
  idle s -> files s !! i = Some f -> bytes_ok (mem s) -> io_buffer (mem s) buf size ->
  f_lseek (fd f) (u32 (offset f)) (fat s) = (rt, fd1, fs1) ->
  f_read fd1 size fs1 = (err, (data, br), fd2, fs2) ->
  file_read i buf size s =
  Ret br (set_mem (write_bytes (mem s) buf data)
           (set_fat fs2 (set_files (<[i := File fd2 (u32 (offset f + br)) (refcnt f)]> (files s)) s))).
Proof.
  intros Hi Hf Hm Hb E1 E2. pose proof Hb as (_ & Hz & _ & _ & Hp). unfold file_read.
  unfold bind at 1. rewrite on_mem_populate by done. unfold bind at 1. rewrite file_lock_at by done.
  unfold bind at 1. rewrite (get_file_at i (locked s) f Hf).
  unfold bind at 1. rewrite (do_lseek_at (locked s) i f _ rt fd1 fs1) by done. unfold bind at 1.
  erewrite do_read_at; [|fsys_simpl; by eapply insert_file|done|exact Hp|exact E2].
  fsys_norm. rewrite list_insert_insert_eq. unfold bind at 1.
  erewrite advance_offset_at by (fsys_simpl; by eapply insert_file).
  fsys_norm. rewrite list_insert_insert_eq. unfold bind. by rewrite file_unlock_at.
Qed.

Lemma file_write_at s i f buf size rt fd1 fs1 err data bw fd2 fs2 :
  idle s -> files s !! i = Some f -> bytes_ok (mem s) -> io_buffer (mem s) buf size ->
  read_bytes (mem s) buf (Z.to_nat size) = Some data ->
  f_lseek (fd f) (u32 (offset f)) (fat s) = (rt, fd1, fs1) -> f_write fd1 data fs1 = (err, bw, fd2, fs2) ->
  file_write i buf size s =
  Ret bw (set_fat fs2 (set_files (<[i := File fd2 (u32 (offset f + bw)) (refcnt f)]> (files s)) s)).
Proof.
  intros Hi Hf Hm Hb Hr E1 E2. pose proof Hb as (_ & Hz & _ & _ & _). unfold file_write.
  unfold bind at 1. rewrite on_mem_populate by done. unfold bind at 1. rewrite file_lock_at by done.
  unfold bind at 1. rewrite (get_file_at i (locked s) f Hf).
  unfold bind at 1. rewrite (do_lseek_at (locked s) i f _ rt fd1 fs1) by done. unfold bind at 1.
  erewrite do_write_at; [|fsys_simpl; by eapply insert_file|done|exact Hr|exact E2].
  fsys_norm. rewrite list_insert_insert_eq. unfold bind at 1.
  erewrite advance_offset_at by (fsys_simpl; by eapply insert_file).
  fsys_norm. rewrite list_insert_insert_eq. unfold bind. by rewrite file_unlock_at.
Qed.
End FileSpec.

(** ** A volume that satisfies the laws *)

(** One file: its bytes; a handle is its position. *)
Definition ram_read (p btr : Z) (d : list Z) : list Z := take (Z.to_nat btr) (drop (Z.to_nat p) d).

#[export] Instance ramfs : FatFs (list Z) Z := {
  f_open _ _ _ d := (0, 0, d);
  f_close p d := (0, p, d);
  f_lseek _ ofs d := (0, Z.min ofs (Z.of_nat (length d)), d);
  f_read p btr d := let data := map (wrapu 8) (ram_read p btr d) in
    (0, (data, Z.of_nat (length data)), p + Z.of_nat (length data), d);
  f_write p data d := (0, Z.of_nat (length data), p + Z.of_nat (length data),
    take (Z.to_nat p) d ++ data ++ drop (Z.to_nat p + length data) d);
  f_stat _ d := (0, Z.of_nat (length d), d);
}.

#[export] Instance ramfs_laws : FatFsLaws (list Z) Z.
Proof.
  split.
  - intros p btr d Hb. cbn. rewrite length_map. unfold ram_read. rewrite length_take.
    split_and!; try lia. apply Forall_fmap, Forall_true. intros x. by apply wrapu_range.
  - intros p data d. cbn. lia.
Qed.

(** ** Claims *)

(** C38. The life of a file handle. On a table with no lock held, file_open takes the
    first free slot and gives it one user; from then on any sequence of file_incref and
    file_decref in which every call is made by a user returns, keeps the locks, memory
    and the other handles as they were, and calls f_close exactly when the last user
    has gone, which frees the slot. *)
Theorem file_handle_lifecycle {F FIL} `{FatFsLaws F FIL} (s : fsys F FIL) (j : nat) (f : file_t FIL)
    (fn : list Z) (flags : Z) (fd' : FIL) (fs' : F) :
  idle s -> length (files s) = MAX_FILES -> (j < MAX_FILES)%nat -> files s !! j = Some f -> refcnt f = 0 ->
  (forall q g, (q < j)%nat -> files s !! q = Some g -> refcnt g <> 0) ->
  f_open (fd f) fn (open_mode flags) (fat s) = (0, fd', fs') ->
  exists s0, file_open fn flags s = Ret j s0 /\
    handle_state j (File fd' (offset f) 2) s0 1 s0 /\
    forall ops, held 1 ops = true -> Z.of_nat (length ops) < 2 ^ 32 - 3 ->
      returns (run_refs j ops) s0
        (fun _ s' => handle_state j (File fd' (offset f) 2) s0 (users 1 ops) s').
Proof.
  intros Hi Hl Hj Hf Hr Hq E. pose proof (file_open_at s j f fn flags fd' fs' Hl Hj Hf Hr Hq E) as Eo.
  eexists. split; [exact Eo|].
  assert (handle_state j (File fd' (offset f) 2)
    (set_fat fs' (set_files (<[j := File fd' (offset f) 2]> (files s)) s)) 1
    (set_fat fs' (set_files (<[j := File fd' (offset f) 2]> (files s)) s))) as Hs.
  { split_and!; [exact Hi|done|done|]. cbn [Z.eqb]. split; [done|]. by eapply insert_file. }
  split; [done|]. intros ops Hh Ho. by apply run_refs_at; [|lia|lia|].
Qed.

Definition file_demo : fsys (list Z) Z :=
  Fsys (replicate 32 (File 0 0 0)) 0 0 1 [10; 20; 30; 40] (write_bytes ∅ 0x1000 (replicate 16 0)).

Lemma file_handle_lifecycle_witness :
  exists s0, file_open [118] 0 file_demo = Ret 0%nat s0 /\
    returns (run_refs 0 [Incref; Decref; Decref]) s0 (fun _ s' => files s' !! 0%nat = Some (File 0 0 0)).
Proof.
  destruct (file_handle_lifecycle file_demo 0 (File 0 0 0) [118] 0 0 [10; 20; 30; 40]) as (s0 & E & _ & Hs).
  - split_and!; reflexivity || vm_decide.
  - reflexivity.
  - unfold MAX_FILES; lia.
  - reflexivity.
  - reflexivity.
  - intros; lia.
  - reflexivity.
  - exists s0. split; [done|]. eapply returns_mono; [apply (Hs [Incref; Decref; Decref]); [reflexivity|cbn; lia]|].
    intros [] s' (_ & _ & _ & _ & Hf). exact Hf.
Defined.

(** What the I/O calls do. With no lock held and a buffer in the address map, all
    four return the count FatFs reports and leave the locks and the interrupt-enable
    bit as they were; reads store the bytes at the buffer, writes leave memory alone;
    file_read and file_write start at the handle's position and advance it by the
    count, file_pread and file_pwrite leave it. The error code [err] of f_read and
    f_write is dropped by every call, and that of f_lseek by all but file_pread. *)
Theorem file_io_contract {F FIL} `{FatFsLaws F FIL} (s : fsys F FIL) (i : nat) (f : file_t FIL) (buf size ofs : Z)
    (rt : Z) (fd1 : FIL) (fs1 : F) :
  idle s -> files s !! i = Some f -> bytes_ok (mem s) -> io_buffer (mem s) buf size ->
  (forall err data br fd2 fs2, f_read fd1 size fs1 = (err, (data, br), fd2, fs2) ->
     (f_lseek (fd f) (u32 ofs) (fat s) = (0, fd1, fs1) ->
      file_pread i buf size ofs s =
      Ret br (set_mem (write_bytes (mem s) buf data)
                (set_fat fs2 (set_files (<[i := File fd2 (offset f) (refcnt f)]> (files s)) s)))) /\
     (f_lseek (fd f) (u32 (offset f)) (fat s) = (rt, fd1, fs1) ->
      file_read i buf size s =
      Ret br (set_mem (write_bytes (mem s) buf data)
                (set_fat fs2 (set_files (<[i := File fd2 (u32 (offset f + br)) (refcnt f)]> (files s)) s))))) /\
  (forall data err bw fd2 fs2, read_bytes (mem s) buf (Z.to_nat size) = Some data ->
     f_write fd1 data fs1 = (err, bw, fd2, fs2) ->
     (f_lseek (fd f) (u32 ofs) (fat s) = (rt, fd1, fs1) ->
      file_pwrite i buf size ofs s =
      Ret bw (set_fat fs2 (set_files (<[i := File fd2 (offset f) (refcnt f)]> (files s)) s))) /\
     (f_lseek (fd f) (u32 (offset f)) (fat s) = (rt, fd1, fs1) ->
      file_write i buf size s =
      Ret bw (set_fat fs2 (set_files (<[i := File fd2 (u32 (offset f + bw)) (refcnt f)]> (files s)) s)))).
Proof.
  intros Hi Hf Hm Hb. split; intros; split; intros;
    [by eapply file_pread_at|by eapply file_read_at|by eapply file_pwrite_at|by eapply file_write_at].
Qed.

Lemma file_demo_buffer : bytes_ok (mem file_demo) /\ io_buffer (mem file_demo) 0x1000 2.
Proof.
  split; [apply bytes_ok_write; [apply map_Forall_empty|vm_decide]|].
  unfold io_buffer. split_and!; [lia|lia|lia|lia| |vm_decide].
  intros a Ha Hr. change (4096 / 4096 * 4096) with 4096 in Hr.
  apply Z.mod_divide in Ha as [k ->]; [|lia]. replace (k * 4096) with 4096 by lia. vm_decide.
Qed.

Lemma file_io_contract_witness :
  file_pread 3 0x1000 2 1 file_demo =
  Ret 2 (set_mem (write_bytes (mem file_demo) 0x1000 [20; 30])
          (set_files (<[3%nat := File 3 0 0]> (files file_demo)) file_demo)).
Proof.
  destruct file_demo_buffer as [Hm Hb].
  destruct (file_io_contract file_demo 3 (File 0 0 0) 0x1000 2 1 0 1 [10; 20; 30; 40]) as [H1 _].
  - split_and!; reflexivity || vm_decide.
  - reflexivity.
  - exact Hm.
  - exact Hb.
  - destruct (H1 0 [20; 30] 2 3 [10; 20; 30; 40] eq_refl) as [Hp _]. rewrite Hp by reflexivity. reflexivity.
Defined.
