(* ===== verification/Devices.v ===== *)
(** * Machine calls and device queues ([bbl/mtrap.c], [bbl/mtrap.h], [bbl/mcall.h])

    The supervisor passes messages to the boot loader by machine calls.  A message is
    a block of four words in memory; the boot loader links the messages it holds into
    two lists through their [sbi_private_data] field: reads of the console that wait
    for a character, and answered messages the supervisor has not collected.  A
    software interrupt tells the supervisor that answers wait.  The file models every
    machine call, the console interrupt and the dispatch of machine-mode traps. *)

From Stdlib Require Import ZArith Lia Bool List String.
From stdpp Require Import base gmap list.
From S2P Require Import Prelude Machine Memory Uart Console File.
Open Scope Z_scope.
Open Scope word_scope.

(** ** Constants *)
Definition HTIF_CMD_READ : Z := 0x00.
Definition HTIF_CMD_WRITE : Z := 0x01.
Definition HTIF_CMD_IDENTIFY : Z := 0xFF.
Definition HTIF_MAX_CMD : Z := 256.
Definition HTIF_MAX_ID : Z := 64.
Definition MIP_SSIP : Z := 0x02.
Definition MIP_STIP : Z := 0x20.
Definition MIP_MTIP : Z := 0x80.
Definition PRV_M : Z := 3.
Definition MCALL_HART_ID : Z := 0.
Definition MCALL_CONSOLE_PUTCHAR : Z := 1.
Definition MCALL_SEND_DEVICE_REQUEST : Z := 2.
Definition MCALL_RECEIVE_DEVICE_RESPONSE : Z := 3.
Definition MCALL_SEND_IPI : Z := 4.
Definition MCALL_CLEAR_IPI : Z := 5.
Definition MCALL_SHUTDOWN : Z := 6.
Definition MCALL_SET_TIMER : Z := 7.
(** Error numbers of newlib. *)
Definition EFAULT : Z := 14.
Definition EINVAL : Z := 22.
Definition ENOSYS : Z := 88.
Definition CAUSE_ILLEGAL_INSTRUCTION : Z := 0x2.
Definition CAUSE_MACHINE_ECALL : Z := 0xb.
Definition CAUSE_TAG_TRAP : Z := 0xc.
Definition CAUSE_DEBUG_TAG_TRAP : Z := 0xd.
Definition MENTRY_FRAME_SIZE : Z := 32 * 8 + 0 + 64.

Definition EXTRACT_FIELD (val which : Z) : Z := (val &&& which) / (which &&& bitand_not 64 (2 ^ 64 - 1) (which - 1)).

(** ** State *)

(** [hls_t]; a null pointer is 0. *)
Record hls_t := Hls {
  device_request_queue_head : Z;
  device_request_queue_size : Z;
  device_response_queue_head : Z;
  device_response_queue_tail : Z;
  hart_id : Z;
  ipi_pending : Z;
}.

(** The trap state of the hart, its interrupt registers, the interrupt enable of the
    board (CSR 0x7c0), the page of its hart-local storage, the hart-local storage of all
    harts by page, the serial port, the file layer with physical memory, and the handle
    of the disk image. *)
Record sys (U F FIL : Type) := Sys {
  cpu : mach;
  mip : Z; mie : Z; mtimecmp : Z; mscratch : Z; io_irq : Z;
  self : Z; hlss : gmap Z hls_t;
  uart : U; fsx : fsys F FIL; ramdisk : option nat;
}.
Arguments Sys {U F FIL}.
Arguments cpu {U F FIL}. Arguments mip {U F FIL}. Arguments mie {U F FIL}. Arguments mtimecmp {U F FIL}.
Arguments mscratch {U F FIL}. Arguments io_irq {U F FIL}. Arguments self {U F FIL}.
Arguments hlss {U F FIL}. Arguments uart {U F FIL}. Arguments fsx {U F FIL}. Arguments ramdisk {U F FIL}.

(** The image and the program it loaded: [mem_size], [num_harts], the first address
    of the supervisor, the top of the machine stack and the table of unprivileged
    accesses. *)
Record image := Image {
  mem_size : Z; num_harts : Z; first_user_vaddr : Z; bias : Z; stack_top : Z;
  unpriv_ranges : list (Z * Z);
}.

Section Devices.
Context {U F FIL : Type} `{UartDevice U} `{FatFs F FIL}.
Variable im : image.
(** Bound of the [%s] loop of [snprintf]; the format of the disk name has none. *)
Variable fuel : nat.
(** Contents of the 64 bytes of stack [mcall_dev_req] uses for the disk name. *)
Variable stack : list Z.

Abbreviation state := (sys U F FIL).

Definition set_cpu v (s : state) : state := Sys v (mip s) (mie s) (mtimecmp s) (mscratch s) (io_irq s) (self s) (hlss s) (uart s) (fsx s) (ramdisk s).
Definition set_mip v (s : state) : state := Sys (cpu s) v (mie s) (mtimecmp s) (mscratch s) (io_irq s) (self s) (hlss s) (uart s) (fsx s) (ramdisk s).
Definition set_mie v (s : state) : state := Sys (cpu s) (mip s) v (mtimecmp s) (mscratch s) (io_irq s) (self s) (hlss s) (uart s) (fsx s) (ramdisk s).
Definition set_mtimecmp v (s : state) : state := Sys (cpu s) (mip s) (mie s) v (mscratch s) (io_irq s) (self s) (hlss s) (uart s) (fsx s) (ramdisk s).
Definition set_mscratch v (s : state) : state := Sys (cpu s) (mip s) (mie s) (mtimecmp s) v (io_irq s) (self s) (hlss s) (uart s) (fsx s) (ramdisk s).
Definition set_io_irq v (s : state) : state := Sys (cpu s) (mip s) (mie s) (mtimecmp s) (mscratch s) v (self s) (hlss s) (uart s) (fsx s) (ramdisk s).
Definition set_hlss v (s : state) : state := Sys (cpu s) (mip s) (mie s) (mtimecmp s) (mscratch s) (io_irq s) (self s) v (uart s) (fsx s) (ramdisk s).
Definition set_uart v (s : state) : state := Sys (cpu s) (mip s) (mie s) (mtimecmp s) (mscratch s) (io_irq s) (self s) (hlss s) v (fsx s) (ramdisk s).
Definition set_fsx v (s : state) : state := Sys (cpu s) (mip s) (mie s) (mtimecmp s) (mscratch s) (io_irq s) (self s) (hlss s) (uart s) v (ramdisk s).
Definition set_ramdisk v (s : state) : state := Sys (cpu s) (mip s) (mie s) (mtimecmp s) (mscratch s) (io_irq s) (self s) (hlss s) (uart s) (fsx s) v.

(** Run code of a part on the whole. *)
Definition on_cpu {A} : ST mach A -> ST state A := zoom cpu set_cpu.
Definition on_uart {A} : ST U A -> ST state A := zoom uart set_uart.
Definition on_fs {A} : ST (fsys F FIL) A -> ST state A := zoom fsx set_fsx.
Definition on_memory {A} (c : ST memory A) : ST state A := on_fs (on_mem c).

Definition set_csr_mip (m : Z) : ST state unit := modify (fun s => set_mip (mip s ||| m) s).
Definition clear_csr_mip (m : Z) : ST state unit := modify (fun s => set_mip (bitand_not 64 (mip s) m) s).

(** ** Hart-local storage *)
Definition get_hls (i : Z) : ST state hls_t := fun s =>
  match hlss s !! i with Some h => Ret h s | None => Undef end.
Definition put_hls (i : Z) (h : hls_t) : ST state unit :=
  modify (fun s => set_hlss (<[i := h]> (hlss s)) s).
(** [HLS()]. *)
Definition HLS : ST state hls_t := fun s => get_hls (self s) s.
Definition upd_HLS (f : hls_t -> hls_t) : ST state unit := fun s =>
  (let! h := get_hls (self s) in put_hls (self s) (f h)) s.
(** The page of [OTHER_HLS(id)], relative to this hart's. *)
Definition other_page (id : Z) : ST state Z := fun s =>
  (let! h := get_hls (self s) in ret (self s + (id - hart_id h))) s.

Definition set_req_head v h := Hls v (device_request_queue_size h) (device_response_queue_head h) (device_response_queue_tail h) (hart_id h) (ipi_pending h).
Definition set_req_size v h := Hls (device_request_queue_head h) v (device_response_queue_head h) (device_response_queue_tail h) (hart_id h) (ipi_pending h).
Definition set_resp_head v h := Hls (device_request_queue_head h) (device_request_queue_size h) v (device_response_queue_tail h) (hart_id h) (ipi_pending h).
Definition set_resp_tail v h := Hls (device_request_queue_head h) (device_request_queue_size h) (device_response_queue_head h) v (hart_id h) (ipi_pending h).
Definition set_ipi_pending v h := Hls (device_request_queue_head h) (device_request_queue_size h) (device_response_queue_head h) (device_response_queue_tail h) (hart_id h) v.

(** ** Messages: [sbi_device_message] *)
Definition get_dev (m : Z) : ST state Z := on_memory (load 8 m).
Definition get_cmd (m : Z) : ST state Z := on_memory (load 8 (m + 8)).
Definition get_data (m : Z) : ST state Z := on_memory (load 8 (m + 16)).
Definition get_private (m : Z) : ST state Z := on_memory (load 8 (m + 24)).
Definition set_data (m v : Z) : ST state unit := on_memory (store 8 (m + 16) v).
Definition set_private (m v : Z) : ST state unit := on_memory (store 8 (m + 24) v).
Definition MSG_SIZE : Z := 32.

(** [supervisor_paddr_valid] of [vm.h]. *)
Definition supervisor_paddr_valid (start len : Z) : bool :=
  (u64 (first_user_vaddr im + bias im) <=? start) &&
  (u64 (start + len) <? mem_size im) && (start <=? u64 (start + len)).

(** [EXTRACT_FIELD(read_csr(mstatus), MSTATUS_PRV1) != PRV_M]. *)
Definition not_from_machine : ST state bool :=
  let! ms := gets (fun s => mstatus (cpu s)) in
  ret (negb (EXTRACT_FIELD ms MSTATUS_PRV1 =? PRV_M)).

(** ** Responses *)

(** Append to the response queue. *)
Definition enqueue_response (m : Z) : ST state unit :=
  let! h := HLS in
  (if negb (device_response_queue_tail h =? 0)
   then set_private (device_response_queue_tail h) m
   else upd_HLS (set_resp_head m)) ;;
  upd_HLS (set_resp_tail m).

Definition mcall_respond (m resp : Z) : ST state unit :=
  set_private m 0 ;;
  enqueue_response m ;;
  set_data m resp ;;
  set_csr_mip MIP_SSIP.

(** ** The console interrupt *)

(** Iteration [i] of the loop of [io_irq_service]; [n] is the size read at the start. *)
Fixpoint irq_loop (k : nat) (n m prev : Z) : ST state Z :=
  match k with
  | O => panic "io_irq_service(): no record"
  | S k' =>
      let! nm := not_from_machine in
      if negb (supervisor_paddr_valid m MSG_SIZE) && nm then panic "io_irq_service(): page fault"
      else
        let! next := get_private m in
        let! dev := get_dev m in
        let! cmd := (if dev =? 0 then get_cmd m else ret 1) in
        if (dev =? 0) && (cmd =? HTIF_CMD_READ) then
          let! ch := on_uart uart_read_irq in
          set_data m (0x100 ||| ch) ;;
          (if negb (prev =? 0) then set_private prev next else upd_HLS (set_req_head next)) ;;
          upd_HLS (set_req_size (u64 (n - 1))) ;;
          set_private m 0 ;;
          enqueue_response m ;;
          set_csr_mip MIP_SSIP ;;
          ret 0
        else
          let! m' := get_private m in
          irq_loop k' n m' m
  end.

Definition io_irq_service : ST state Z :=
  let! c := on_uart uart_check_read_irq in
  if c =? 0 then panic "io_irq_service() with no uart recv buf available!"
  else
    let! h := HLS in
    irq_loop (Z.to_nat (device_request_queue_size h)) (device_request_queue_size h)
      (device_request_queue_head h) 0.

Definition htif_interrupt : ST state Z := panic "htif_interrupt(): no record".

(** ** Machine calls *)

Definition mcall_hart_id : ST state Z := let! h := HLS in ret (u64 (hart_id h)).

Definition mcall_console_putchar (ch : Z) : ST state Z := on_uart (uart_send (u8 ch)) ;; ret 0.

(** [strcpy] of a string given by its characters. *)
Fixpoint put_string (a : Z) (s : list Z) : ST memory unit :=
  match s with
  | [] => store 1 a 0
  | c :: s' => store 1 a c ;; put_string (u64 (a + 1)) s'
  end.

Definition handle_identify (payload : Z) (dev_name : list Z) : ST state unit :=
  let what := payload mod HTIF_MAX_CMD in
  let addr := payload / HTIF_MAX_CMD in
  if negb (addr mod HTIF_MAX_ID =? 0) then panic "address for device ID not aligned!"
  else if HTIF_MAX_ID <? Z.of_nat (length dev_name) then panic "device name too long!"
  else on_memory (put_string addr (if what =? HTIF_CMD_IDENTIFY then dev_name else [])).

(** The string a buffer holds: the characters before the first zero. *)
Fixpoint until_nul (b : list Z) : list Z :=
  match b with
  | [] => []
  | c :: b' => if c =? 0 then [] else c :: until_nul b'
  end.

Definition ramdisk_fn : list Z := chars "root.bin".
Definition O_RDWR : Z := 2.

(** [snprintf(buf, sizeof(buf), "disk size=%d", fno.fsize)]. *)
Definition disk_name (fsize : Z) : ST state (list Z) := fun s =>
  match snprintf fuel (take 64 stack) (chars "disk size=%d") [AInt fsize] with
  | Ret _ v => Ret (until_nul (out v)) s
  | Panic msg _ => Panic msg s
  | Undef => Undef
  | Hang _ => Hang s
  end.

Definition disk_identify (m data : Z) : ST state unit :=
  let! st := gets (fun s => f_stat ramdisk_fn (fat (fsx s))) in
  let '(rt, fsize, fs') := st in
  modify (fun s => set_fsx (set_fat fs' (fsx s)) s) ;;
  if negb (rt =? 0) then handle_identify data [] ;; mcall_respond m 1
  else
    let! i := on_fs (file_open ramdisk_fn O_RDWR) in
    modify (set_ramdisk (Some i)) ;;
    let! name := disk_name fsize in
    handle_identify data name ;;
    mcall_respond m 1.

(** The read and write requests of the disk: [disk_request_t] at [req]. *)
Definition disk_transfer (op : nat -> Z -> Z -> Z -> ST (fsys F FIL) Z) (err : string) (m req : Z) : ST state unit :=
  let! rd := gets ramdisk in
  let! addr := on_memory (load 8 req) in
  let! size := on_memory (load 8 (req + 16)) in
  let! ofs := on_memory (load 8 (req + 8)) in
  match rd with
  | None => undef
  | Some i =>
      let! n := on_fs (op i addr size ofs) in
      let! size' := on_memory (load 8 (req + 16)) in
      if negb (u64 n =? size') then panic err
      else
        let! tag := on_memory (load 8 (req + 24)) in
        mcall_respond m tag
  end.

Definition mcall_dev_req (m : Z) : ST state Z :=
  let! nm := not_from_machine in
  if negb (supervisor_paddr_valid m MSG_SIZE) && nm then ret (u64 (- EFAULT))
  else
    let! dev := get_dev m in
    let! cmd := get_cmd m in
    let! data := get_data m in
    if (0xFF <? dev) || (0xFF <? cmd) || (0x0000FFFFFFFFFFFF <? data) then ret (u64 (- EINVAL))
    else
      (if dev =? 0 then
         if cmd =? HTIF_CMD_IDENTIFY then handle_identify data (chars "bcd") ;; mcall_respond m 1
         else if cmd =? HTIF_CMD_READ then
           modify (set_io_irq 0x01) ;;
           let! h := HLS in
           set_private m (device_request_queue_head h) ;;
           upd_HLS (set_req_head m) ;;
           upd_HLS (fun h => set_req_size (u64 (device_request_queue_size h + 1)) h)
         else if cmd =? HTIF_CMD_WRITE then
           on_uart (uart_send (u8 data)) ;;
           mcall_respond m (0x100 ||| u8 data)
         else panic "bcd request with not supported command!"
       else if dev =? 1 then
         if cmd =? HTIF_CMD_IDENTIFY then disk_identify m data
         else if cmd =? HTIF_CMD_READ then disk_transfer file_pread "disk cannot read!" m data
         else if cmd =? HTIF_CMD_WRITE then disk_transfer file_pwrite "disk cannot write!" m data
         else panic "bcd request with not supported command!"
       else
         if cmd =? HTIF_CMD_IDENTIFY then handle_identify data [] ;; mcall_respond m 1
         else panic "unknown device request with non-identity command!") ;;
      ret 0.

Definition mcall_dev_resp : ST state Z :=
  let! h := HLS in
  let m := device_response_queue_head h in
  (if negb (m =? 0) then
     let! next := get_private m in
     upd_HLS (set_resp_head next) ;;
     if next =? 0 then
       upd_HLS (set_resp_tail 0) ;;
       clear_csr_mip MIP_SSIP ;;
       let! h' := HLS in
       if negb (ipi_pending h' =? 0) then set_csr_mip MIP_SSIP else ret tt
     else ret tt
   else ret tt) ;;
  ret m.

(** [write_csr(send_ipi, recipient)]: this hardware has no register [send_ipi] (its line
    in the CSR map of [rocket/src/main/scala/csr.scala] is commented out), so the write
    is an illegal instruction in machine mode, which [trap_from_machine_mode] answers with
    [bad_trap]. *)
Definition write_send_ipi : ST state unit := bad_trap.

Definition mcall_send_ipi (recipient : Z) : ST state Z :=
  if num_harts im <=? recipient then ret (u64 (-1))
  else
    let! p := other_page recipient in
    let! h := get_hls p in
    put_hls p (set_ipi_pending 1 h) ;;
    (if ipi_pending h =? 0 then write_send_ipi else ret tt) ;;
    ret 0.

Definition mcall_clear_ipi : ST state Z :=
  let! h := HLS in
  (if device_response_queue_head h =? 0 then clear_csr_mip MIP_SSIP else ret tt) ;;
  let! h' := HLS in
  upd_HLS (set_ipi_pending 0) ;;
  ret (u64 (ipi_pending h')).

Definition mcall_shutdown : ST state Z := hang.

(** A write of [mtimecmp] also clears the machine timer interrupt. *)
Definition mcall_set_timer (when : Z) : ST state Z :=
  modify (set_mtimecmp when) ;;
  clear_csr_mip MIP_MTIP ;;
  clear_csr_mip MIP_STIP ;;
  modify (fun s => set_mie (mie s ||| MIP_MTIP) s) ;;
  ret 0.

(** The [switch] of [mcall_trap]. *)
Definition mcall_switch (n arg0 : Z) : ST state Z :=
  if n =? MCALL_HART_ID then mcall_hart_id
  else if n =? MCALL_CONSOLE_PUTCHAR then mcall_console_putchar arg0
  else if n =? MCALL_SEND_DEVICE_REQUEST then mcall_dev_req arg0
  else if n =? MCALL_RECEIVE_DEVICE_RESPONSE then mcall_dev_resp
  else if n =? MCALL_SEND_IPI then mcall_send_ipi arg0
  else if n =? MCALL_CLEAR_IPI then mcall_clear_ipi
  else if n =? MCALL_SHUTDOWN then mcall_shutdown
  else if n =? MCALL_SET_TIMER then mcall_set_timer arg0
  else ret (u64 (- ENOSYS)).

Definition mcall_trap : ST state Z :=
  let! n := gets (fun s => regs (cpu s) !!! 17%nat) in
  let! arg0 := gets (fun s => regs (cpu s) !!! 10%nat) in
  let! retval := mcall_switch n arg0 in
  on_cpu (modify (fun c => set_regs (<[10%nat := retval]> (regs c)) c)) ;;
  on_cpu (modify (fun c => set_mepc (u64 (mepc c + 4)) c)) ;;
  ret 0.

(** ** Traps from machine mode *)
Definition machine_illegal_instruction : ST state Z := bad_trap.
Definition tag_trap : ST state Z := panic "machine mode: tag trap triggered".
Definition debug_tag_trap : ST state Z := panic "machine mode: debug tag trap triggered".

Definition trap_from_machine_mode : ST state Z :=
  let! cause := gets (fun s => mcause (cpu s)) in
  let! pc := gets (fun s => mepc (cpu s)) in
  modify (set_mscratch (u64 (stack_top im - MENTRY_FRAME_SIZE))) ;;
  if (cause =? CAUSE_FAULT_LOAD) || (cause =? CAUSE_FAULT_STORE)
  then on_cpu (machine_page_fault (unpriv_ranges im) pc)
  else if cause =? CAUSE_ILLEGAL_INSTRUCTION then machine_illegal_instruction
  else if cause =? CAUSE_MACHINE_ECALL then mcall_trap
  else if cause =? CAUSE_TAG_TRAP then tag_trap
  else if cause =? CAUSE_DEBUG_TAG_TRAP then debug_tag_trap
  else bad_trap.
End Devices.

Ltac sys_simpl :=
  cbn [cpu mip mie mtimecmp mscratch io_irq self hlss uart fsx ramdisk
       set_cpu set_mip set_mie set_mtimecmp set_mscratch set_io_irq set_hlss set_uart set_fsx
       set_ramdisk files file_lock refcnt_lock sstatus fat mem set_mem].

(** ** Messages in memory *)

(** A message at [a]: 32 aligned bytes of memory, not at the null address. *)
Definition msg_at (m : memory) (a : Z) : Prop := a mod 8 = 0 /\ 0 < a /\ a + 32 < 2 ^ 64 /\ mapped m a 32.

#[export] Instance msg_at_dec m a : Decision (msg_at m a).
Proof. unfold msg_at. apply _. Defined.

Lemma msg_at_write m a b l : msg_at m a -> msg_at (write_bytes m b l) a.
Proof. intros (?&?&?&?). split_and!; auto. by apply mapped_write. Qed.

Lemma mod8_add a k : a mod 8 = 0 -> (a + 8 * k) mod 8 = 0.
Proof. intros H. rewrite Z.mul_comm, Z.mod_add by lia. done. Qed.

(** The fields of a message are words of memory. *)
Lemma msg_field m a k :
  msg_at m a -> 0 <= k < 4 ->
  (a + 8 * k) mod 8 = 0 /\ fits (a + 8 * k) 8 /\ mapped m (a + 8 * k) 8 /\ inu 64 a.
Proof.
  intros (Ha & H0 & H1 & Hm) Hk. split; [by apply mod8_add|].
  split; [unfold fits; lia|]. split; [|unfold inu; lia].
  replace 32%nat with (Z.to_nat (8 * k) + (8 + (24 - Z.to_nat (8 * k))))%nat in Hm by lia.
  destruct Hm as [bs Hr]. apply read_bytes_window in Hr. eexists.
  rewrite Z2Nat.id in Hr by lia. exact Hr.
Qed.

(** The messages of a list do not overlap. *)
Fixpoint separated (l : list Z) : Prop :=
  match l with
  | [] => True
  | a :: l' => Forall (fun b => apart a 32 b 32) l' /\ separated l'
  end.

#[export] Instance separated_dec l : Decision (separated l).
Proof. induction l; cbn; apply _. Defined.

Lemma apart_sym a n b k : apart a n b k -> apart b k a n.
Proof. unfold apart. tauto. Qed.

#[export] Instance separated_perm : Proper ((≡ₚ) ==> iff) separated.
Proof.
  assert (forall l l', l ≡ₚ l' -> separated l -> separated l') as H.
  { induction 1 as [|a l l' Hp IH|a b l|l l' l'' _ IH1 _ IH2]; cbn; auto.
    - intros [Hf Hs]. split; [by rewrite <- Hp|auto].
    - intros [Hf [Hg Hs]]. apply Forall_cons in Hf as [Hab Hf]. split; [|done].
      constructor; [by apply apart_sym|done]. }
  intros l l' Hp. split; apply H; [done|by symmetry].
Qed.

Lemma separated_app_2 l1 l2 : separated (l1 ++ l2) -> separated l2.
Proof. induction l1; cbn; [done|]. tauto. Qed.

(** The messages [l], linked from [p] and ended by a null link. *)
Fixpoint chain (m : memory) (p : Z) (l : list Z) : Prop :=
  match l with
  | [] => p = 0
  | a :: l' => p = a /\ exists nxt, word m (a + 24) nxt /\ chain m nxt l'
  end.

Lemma chain_frame m m' p l :
  chain m p l -> (forall a v, a ∈ l -> word m (a + 24) v -> word m' (a + 24) v) -> chain m' p l.
Proof.
  revert p. induction l as [|a l IH]; cbn; [done|]. intros p (-> & nxt & Hw & Hc) Hf. split; [done|].
  exists nxt. split; [apply Hf; [left|done]|]. apply IH; [done|]. intros. apply Hf; [by right|done].
Qed.

(** A write to a message outside the list keeps the list. *)
Lemma chain_write m p l a k v :
  chain m p l -> Forall (fun b => apart a 32 b 32) l -> 0 <= k < 4 -> fits (a + 8 * k) 8 ->
  chain (write_word m (a + 8 * k) v) p l.
Proof.
  intros Hc Hs Hk Hf. eapply chain_frame; [done|]. intros b w Hb Hw. apply word_other; [done|done|].
  rewrite Forall_forall in Hs. specialize (Hs b Hb). unfold apart in *. lia.
Qed.

(** Linking a message behind the last one. *)
Lemma chain_snoc m m' p l t a :
  chain m p (l ++ [t]) -> (forall b v, b ∈ l -> word m (b + 24) v -> word m' (b + 24) v) ->
  word m' (t + 24) a -> word m' (a + 24) 0 -> chain m' p ((l ++ [t]) ++ [a]).
Proof.
  revert p. induction l as [|b l IH]; cbn.
  - intros p (-> & nxt & _ & _) _ Ht Ha. split; [done|]. exists a. split; [done|]. split; [done|]. by exists 0.
  - intros p (-> & nxt & Hw & Hc) Hf Ht Ha. split; [done|]. exists nxt. split; [apply Hf; [left|done]|].
    apply IH; [done| |done|done]. intros. apply Hf; [by right|done].
Qed.

(** ** The queues *)

(** The abstract state: reads that wait for a character, newest first, and answered
    messages, oldest first. *)
Record queues := Queues { requests : list Z; responses : list Z }.

Section Queues.
Context {U F FIL : Type} `{UartLaws U} `{FatFs F FIL}.
Variable im : image.
Abbreviation state := (sys U F FIL).
Implicit Types s : state.

(** Physical memory. *)
Definition pm s : memory := mem (fsx s).
Definition with_mem (m : memory) s : state := set_fsx (set_mem m (fsx s)) s.

(** A console read the supervisor sent. *)
Definition is_read (m : memory) (a : Z) : Prop :=
  word m a 0 /\ word m (a + 8) HTIF_CMD_READ /\ supervisor_paddr_valid im a MSG_SIZE = true.

(** The queues in memory and hart-local storage represent [q]. *)
Record qrep (q : queues) (h : hls_t) s : Prop := {
  q_hls : hlss s !! self s = Some h;
  q_msgs : Forall (msg_at (pm s)) (requests q ++ responses q);
  q_sep : separated (requests q ++ responses q);
  q_req : chain (pm s) (device_request_queue_head h) (requests q);
  q_size : device_request_queue_size h = Z.of_nat (length (requests q));
  q_resp : chain (pm s) (device_response_queue_head h) (responses q);
  q_tail : device_response_queue_tail h = default 0 (last (responses q));
  q_reads : Forall (is_read (pm s)) (requests q);
}.

(** Steps of the model. *)
Lemma with_mem_same s : with_mem (pm s) s = s.
Proof. by destruct s as [?????????[] ?]. Qed.

Lemma on_memory_load a v s : word (pm s) a v -> on_memory (load 8 a) s = Ret v s.
Proof.
  intros Hw. unfold on_memory, on_fs, on_mem, zoom. fold (pm s). rewrite (word_load _ _ _ Hw).
  f_equal. apply with_mem_same.
Qed.

Lemma on_memory_store a v s :
  a mod 8 = 0 -> mapped (pm s) a 8 -> on_memory (store 8 a v) s = Ret tt (with_mem (write_word (pm s) a v) s).
Proof. intros Ha Hm. unfold on_memory, on_fs, on_mem, zoom. fold (pm s). by rewrite store_spec by done. Qed.

Lemma set_private_at a v s :
  msg_at (pm s) a -> set_private a v s = Ret tt (with_mem (write_word (pm s) (a + 8 * 3) v) s).
Proof. intros Ha. destruct (msg_field _ a 3 Ha) as (?&?&?&?); [lia|]. by apply on_memory_store. Qed.

Lemma set_data_at a v s :
  msg_at (pm s) a -> set_data a v s = Ret tt (with_mem (write_word (pm s) (a + 8 * 2) v) s).
Proof. intros Ha. destruct (msg_field _ a 2 Ha) as (?&?&?&?); [lia|]. by apply on_memory_store. Qed.

Lemma HLS_at h s : hlss s !! self s = Some h -> HLS s = Ret h s.
Proof. intros E. unfold HLS, get_hls. by rewrite E. Qed.

Lemma upd_HLS_at f h s :
  hlss s !! self s = Some h -> upd_HLS f s = Ret tt (set_hlss (<[self s := f h]> (hlss s)) s).
Proof. intros E. unfold upd_HLS, bind, get_hls. by rewrite E. Qed.

(** A state that differs from [s] in memory, in its own hart-local storage and in the
    pending interrupts. *)
Definition upd (m : memory) (h : hls_t) (p : Z) s : state :=
  set_mip p (set_hlss (<[self s := h]> (hlss s)) (with_mem m s)).

Lemma upd_id h s : hlss s !! self s = Some h -> upd (pm s) h (mip s) s = s.
Proof.
  intros E. unfold upd. rewrite with_mem_same. rewrite insert_id by done. by destruct s.
Qed.

Lemma st_upd {A} h s (c : ST state A) :
  hlss s !! self s = Some h -> c s = c (upd (pm s) h (mip s) s).
Proof. intros E. by rewrite upd_id. Qed.

Lemma upd_hls m h p s : hlss (upd m h p s) !! self (upd m h p s) = Some h.
Proof. apply lookup_insert_eq. Qed.

Lemma upd_pm m h p s : pm (upd m h p s) = m.
Proof. done. Qed.

Lemma upd_with_mem m m' h p s : with_mem m' (upd m h p s) = upd m' h p s.
Proof. done. Qed.

Lemma upd_set_hls m h h' p s : set_hlss (<[self (upd m h p s) := h']> (hlss (upd m h p s))) (upd m h p s) = upd m h' p s.
Proof. unfold upd. sys_simpl. by rewrite insert_insert_eq. Qed.

Lemma upd_set_mip m h p p' s : set_mip p' (upd m h p s) = upd m h p' s.
Proof. done. Qed.

(** Memory after [m] was appended behind the last answered message [t] (if any). *)
Definition linked (m : memory) (t : option Z) (a : Z) : memory :=
  match t with Some t => write_word m (t + 8 * 3) a | None => m end.

Lemma enqueue_response_at a m h p s t :
  device_response_queue_tail h = default 0 t -> from_option (msg_at m) True t ->
  enqueue_response a (upd m h p s) =
  Ret tt (upd (linked m t a)
    (set_resp_tail a (if t is Some _ then h else set_resp_head a h)) p s).
Proof.
  intros Ht Hm. unfold enqueue_response, bind. rewrite (HLS_at h) by apply upd_hls. rewrite Ht.
  destruct t as [t|]; cbn [from_option id] in *.
  - pose proof Hm as (_ & T0 & _). rewrite (proj2 (Z.eqb_neq t 0)) by lia. cbn [negb].
    rewrite set_private_at by done. rewrite upd_with_mem, upd_pm.
    rewrite (upd_HLS_at _ h) by apply upd_hls. by rewrite upd_set_hls.
  - change (negb (0 =? 0)) with false. cbv iota. rewrite (upd_HLS_at _ h) by apply upd_hls.
    rewrite upd_set_hls, (upd_HLS_at _ (set_resp_head a h)) by apply upd_hls. by rewrite upd_set_hls.
Qed.

(** ** Representation lemmas *)

Definition qmem (q : queues) (h : hls_t) (m : memory) : Prop :=
  Forall (msg_at m) (requests q ++ responses q) /\ separated (requests q ++ responses q) /\
  chain m (device_request_queue_head h) (requests q) /\
  device_request_queue_size h = Z.of_nat (length (requests q)) /\
  chain m (device_response_queue_head h) (responses q) /\
  device_response_queue_tail h = default 0 (last (responses q)) /\
  Forall (is_read m) (requests q).

Lemma qrep_upd q h m p s : qrep q h (upd m h p s) <-> qmem q h m.
Proof.
  split.
  - intros []. by repeat split.
  - intros (?&?&?&?&?&?&?). constructor; try done. apply upd_hls.
Qed.

Lemma qrep_mem q h s : qrep q h s -> qmem q h (pm s).
Proof. intros []. by repeat split. Qed.

Lemma msg_at_write_word m a b v : msg_at m a -> msg_at (write_word m b v) a.
Proof. apply msg_at_write. Qed.

Lemma is_read_write m b a k v :
  is_read m b -> apart a 32 b 32 -> 0 <= k < 4 -> fits (a + 8 * k) 8 -> is_read (write_word m (a + 8 * k) v) b.
Proof.
  intros (W1 & W2 & V) Hd Hk Hf. unfold apart in Hd.
  split_and!; [| |done]; (apply word_other; [done|done|unfold apart; lia]).
Qed.

(** Writing to a message that is not queued. *)
Lemma qmem_write_fresh q h m a k v :
  qmem q h m -> separated (a :: requests q ++ responses q) -> 0 <= k < 4 -> fits (a + 8 * k) 8 ->
  qmem q h (write_word m (a + 8 * k) v).
Proof.
  intros (Q1 & Q2 & Q3 & Q4 & Q5 & Q6 & Q7) [Hs _] Hk Hf. apply Forall_app in Hs as [Hs1 Hs2].
  split_and!; try done.
  - eapply Forall_impl; [exact Q1|]. intros b Hb. by apply msg_at_write_word.
  - by apply chain_write.
  - by apply chain_write.
  - rewrite Forall_forall in *. intros b Hb. apply is_read_write; auto.
Qed.

Lemma separated_last (l : list Z) t : separated (l ++ [t]) -> Forall (fun b => apart b 32 t 32) l.
Proof.
  induction l as [|b l IH]; cbn; [done|]. intros [Hf Hs]. apply Forall_app in Hf as [_ Hf].
  apply Forall_cons in Hf as [Hb _]. constructor; auto.
Qed.

(** Linking a fresh message whose link is null behind the answered ones. *)
Lemma qmem_append q h m a :
  qmem q h m -> msg_at m a -> separated (a :: requests q ++ responses q) -> word m (a + 24) 0 ->
  qmem (Queues (requests q) (responses q ++ [a]))
    (set_resp_tail a (if last (responses q) is Some _ then h else set_resp_head a h))
    (linked m (last (responses q)) a).
Proof.
  intros (Q1 & Q2 & Q3 & Q4 & Q5 & Q6 & Q7) Ha Hs Hw. destruct q as [rq rs]. cbn [requests responses] in *.
  assert (separated (rq ++ rs ++ [a])) as Hs'.
  { rewrite app_assoc. by rewrite <- Permutation_cons_append. }
  pose proof Ha as (A1 & A2 & A3 & A4).
  destruct rs as [|t rs _] using rev_ind.
  - cbn [last linked app] in *. rewrite app_nil_r in *. split_and!; cbn [requests responses] in *; try done.
    + rewrite Forall_app, Forall_singleton. done.
    + cbn. split; [done|]. by exists 0.
  - rewrite last_snoc in *. cbn [linked]. destruct Hs as [Hs _].
    apply Forall_app in Hs as [Hs1 Hs2]. apply Forall_app in Hs2 as [Hs2 Hs3]. apply Forall_cons in Hs3 as [Hat _].
    assert (msg_at m t) as Ht. { rewrite !Forall_app, Forall_cons in Q1. tauto. }
    destruct (msg_field _ t 3 Ht) as (T1 & T2 & T3 & T4); [lia|].
    assert (Forall (fun b => apart b 32 t 32) (rq ++ rs)) as Hst.
    { apply separated_last. by rewrite <- app_assoc. }
    apply Forall_app in Hst as [Hst1 Hst2].
    split_and!; cbn [requests responses] in *; try done.
    + rewrite app_assoc, Forall_app. split; [|apply Forall_singleton, msg_at_write_word, Ha].
      eapply Forall_impl; [exact Q1|]. intros b Hb. by apply msg_at_write_word.
    + apply chain_write; [done| |lia|done]. eapply Forall_impl; [exact Hst1|]. intros b. apply apart_sym.
    + cbn. eapply chain_snoc; [done| | |].
      * intros b v Hb Hwb. apply word_other; [done|done|]. rewrite Forall_forall in Hst2.
        specialize (Hst2 b Hb). unfold apart in *. lia.
      * apply word_write; [done|done|unfold inu; lia].
      * apply word_other; [done|done|]. unfold apart in *. lia.
    + by rewrite last_snoc.
    + rewrite Forall_forall in *. intros b Hb. apply is_read_write; auto; [|lia]. apply apart_sym; auto.
Qed.

(** Words of the new message survive the linking. *)
Lemma linked_word m q h a k v :
  qmem q h m -> separated (a :: requests q ++ responses q) -> 0 <= k < 4 ->
  word m (a + 8 * k) v -> word (linked m (last (responses q)) a) (a + 8 * k) v.
Proof.
  intros (Q1 & _) [Hs _] Hk Hw. destruct (last (responses q)) as [t|] eqn:E; [|done]. cbn [linked].
  apply last_Some in E as [rs E]. rewrite E, !Forall_app, !Forall_cons in *.
  destruct Q1 as (_ & _ & Ht & _), Hs as (_ & _ & Hat & _).
  destruct (msg_field _ t 3 Ht) as (T1 & T2 & T3 & T4); [lia|].
  apply word_other; [done|done|]. unfold apart in *. lia.
Qed.

Lemma linked_mapped m t a b n : mapped m b n -> mapped (linked m t a) b n.
Proof. destruct t; [|done]. apply mapped_write. Qed.

(** The data field of an answered message may change. *)
Lemma qmem_write_data q h m a v :
  qmem q h m -> a ∈ responses q -> qmem q h (write_word m (a + 8 * 2) v).
Proof.
  intros (Q1 & Q2 & Q3 & Q4 & Q5 & Q6 & Q7) Ha. rewrite !Forall_app in Q1. destruct Q1 as [Q1 Q1'].
  pose proof Ha as Ha'. apply list_elem_of_split in Ha' as (l1 & l2 & El).
  assert (Hma : msg_at m a) by (rewrite Forall_forall in Q1'; auto).
  destruct (msg_field _ a 2 Hma) as (T1 & T2 & T3 & T4); [lia|].
  assert (Hs : separated (a :: requests q ++ l1 ++ l2)).
  { rewrite El in Q2. eapply separated_perm; [|exact Q2]. rewrite !app_assoc. by rewrite Permutation_middle. }
  destruct Hs as [Hs _]. rewrite !Forall_app in Hs. destruct Hs as (Hs1 & Hs2 & Hs3).
  split_and!; try done.
  - rewrite Forall_app. split; [eapply Forall_impl; [exact Q1|]|eapply Forall_impl; [exact Q1'|]];
      intros b Hb; by apply msg_at_write_word.
  - apply chain_write; auto; lia.
  - eapply chain_frame; [done|]. intros b w Hb Hw. apply word_other; [done|done|].
    rewrite El in Hb. rewrite !elem_of_app, elem_of_cons in Hb. rewrite !Forall_forall in *.
    destruct Hb as [Hb|[->|Hb]]; [specialize (Hs2 b Hb)|unfold apart; lia|specialize (Hs3 b Hb)]; unfold apart in *; lia.
  - rewrite Forall_forall in *. intros b Hb. apply is_read_write; auto; lia.
Qed.

(** Memory changed within the messages [l] only. *)
Definition frame (l : list Z) (m m' : memory) : Prop :=
  forall b n, fits b n -> Forall (fun x => apart b n x 32) l -> read_bytes m' b n = read_bytes m b n.

Lemma frame_refl l m : frame l m m.
Proof. done. Qed.

Lemma frame_trans l m1 m2 m3 : frame l m1 m2 -> frame l m2 m3 -> frame l m1 m3.
Proof. intros E1 E2 b n Hb Hl. by rewrite E2, E1. Qed.

Lemma frame_write l m a k v : a ∈ l -> msg_at m a -> 0 <= k < 4 -> frame l m (write_word m (a + 8 * k) v).
Proof.
  intros Ha Hm Hk b n Hb Hl. rewrite Forall_forall in Hl. specialize (Hl a Ha).
  destruct (msg_field m a k Hm Hk) as (_ & Hf & _).
  apply read_write_apart; rewrite ?length_le_split; [done|done|]. unfold apart in *. lia.
Qed.

(** Identity and pending interprocessor interrupt are kept. *)
Definition kept (h h' : hls_t) : Prop := hart_id h' = hart_id h /\ ipi_pending h' = ipi_pending h.

(** Append and answer, from any state that holds the message. *)
Lemma append_response_at q h s a m p :
  qmem q h m -> msg_at m a -> separated (a :: requests q ++ responses q) -> word m (a + 24) 0 ->
  exists m' h', enqueue_response a (upd m h p s) = Ret tt (upd m' h' p s) /\
    qmem (Queues (requests q) (responses q ++ [a])) h' m' /\ kept h h' /\
    frame (a :: requests q ++ responses q) m m' /\
    (forall k v, 0 <= k < 4 -> word m (a + 8 * k) v -> word m' (a + 8 * k) v).
Proof.
  intros Q Ha Hs Hw. pose proof Q as (Q1 & Q2 & Q3 & Q4 & Q5 & Q6 & Q7).
  assert (from_option (msg_at m) True (last (responses q))) as Ht.
  { destruct (last (responses q)) as [t|] eqn:E; [|done]. apply last_Some in E as [l E].
    rewrite E, !Forall_app, Forall_cons in Q1. apply Q1. }
  eexists _, _. split; [by apply enqueue_response_at|]. split; [by apply qmem_append|].
  split; [by destruct (last (responses q))|]. split; [|intros; by eapply linked_word].
  destruct (last (responses q)) as [t|] eqn:E; [|done]. cbn [linked]. apply frame_write; [|done|lia].
  apply last_Some in E as [l E]. rewrite E. right. rewrite !elem_of_app. right. right. by left.
Qed.

Lemma mcall_respond_at q h s a resp :
  qrep q h s -> msg_at (pm s) a -> separated (a :: requests q ++ responses q) -> inu 64 resp ->
  exists m' h', mcall_respond a resp s = Ret tt (upd m' h' (mip s ||| MIP_SSIP) s) /\
    qmem (Queues (requests q) (responses q ++ [a])) h' m' /\ kept h h' /\
    frame (a :: requests q ++ responses q) (pm s) m' /\ word m' (a + 16) resp.
Proof.
  intros Q Ha Hs Hr.
  rewrite (st_upd h s) by apply Q. apply qrep_mem in Q.
  destruct (msg_field _ a 3 Ha) as (F1 & F2 & F3 & F4); [lia|].
  unfold mcall_respond, bind. rewrite set_private_at by done. rewrite upd_with_mem, upd_pm.
  set (m1 := write_word (pm s) (a + 8 * 3) 0).
  assert (msg_at m1 a) as Ha1 by by apply msg_at_write_word.
  destruct (append_response_at q h s a m1 (mip s)) as (m2 & h' & E & Q2 & Hk & Hf & Hw); auto.
  { by apply qmem_write_fresh; [..|lia|]. }
  { apply word_write; done. }
  rewrite E. assert (msg_at m2 a) as Ha2.
  { destruct Q2 as (Q2 & _). cbn [requests responses] in Q2. rewrite !Forall_app, Forall_singleton in Q2. apply Q2. }
  rewrite set_data_at by done. rewrite upd_with_mem, upd_pm. unfold set_csr_mip, modify. rewrite upd_set_mip.
  destruct (msg_field _ a 2 Ha2) as (G1 & G2 & G3 & G4); [lia|].
  eexists _, h'. split; [done|]. split; [|split; [done|split]].
  - apply qmem_write_data; [done|]. apply elem_of_app. right. by left.
  - eapply frame_trans; [apply (frame_write _ _ a 3); [by left|done|lia]|].
    eapply frame_trans; [exact Hf|]. apply frame_write; [by left|done|lia].
  - by apply word_write.
Qed.

(** ** Requests *)

Lemma not_from_machine_at s : exists b, not_from_machine s = Ret b s.
Proof. by eexists. Qed.

Lemma on_uart_at {A} (c : ST U A) s P :
  returns c (uart s) P -> exists a u', on_uart c s = Ret a (set_uart u' s) /\ P a u'.
Proof. intros (a & u' & E & HP). exists a, u'. unfold on_uart, zoom. by rewrite E. Qed.

(** A well-formed request of the supervisor: the message, its fields, and the bounds
    [mcall_dev_req] checks. *)
Definition request_ok (s : state) (a dev cmd data : Z) : Prop :=
  msg_at (pm s) a /\ supervisor_paddr_valid im a MSG_SIZE = true /\
  word (pm s) a dev /\ word (pm s) (a + 8) cmd /\ word (pm s) (a + 16) data /\
  dev <= 0xFF /\ cmd <= 0xFF /\ data <= 0x0000FFFFFFFFFFFF.

#[export] Instance request_ok_dec s a dev cmd data : Decision (request_ok s a dev cmd data).
Proof. unfold request_ok. apply _. Defined.

Variable fuel : nat.
Variable stack : list Z.

Lemma dev_req_fields s a dev cmd data :
  request_ok s a dev cmd data ->
  mcall_dev_req im fuel stack a s =
  ((if dev =? 0 then
      if cmd =? HTIF_CMD_IDENTIFY then handle_identify data (chars "bcd") ;; mcall_respond a 1
      else if cmd =? HTIF_CMD_READ then
        modify (set_io_irq 0x01) ;;
        let! h := HLS in
        set_private a (device_request_queue_head h) ;;
        upd_HLS (set_req_head a) ;;
        upd_HLS (fun h => set_req_size (u64 (device_request_queue_size h + 1)) h)
      else if cmd =? HTIF_CMD_WRITE then
        on_uart (uart_send (u8 data)) ;;
        mcall_respond a (0x100 ||| u8 data)
      else panic "bcd request with not supported command!"
    else if dev =? 1 then
      if cmd =? HTIF_CMD_IDENTIFY then disk_identify fuel stack a data
      else if cmd =? HTIF_CMD_READ then disk_transfer file_pread "disk cannot read!" a data
      else if cmd =? HTIF_CMD_WRITE then disk_transfer file_pwrite "disk cannot write!" a data
      else panic "bcd request with not supported command!"
    else
      if cmd =? HTIF_CMD_IDENTIFY then handle_identify data [] ;; mcall_respond a 1
      else panic "unknown device request with non-identity command!") ;;
   ret 0) s.
Proof.
  intros (Ha & Hv & W1 & W2 & W3 & B1 & B2 & B3). unfold mcall_dev_req.
  destruct (not_from_machine_at s) as [b E]. unfold bind at 1. rewrite E, Hv. cbn [negb andb].
  unfold bind at 1, get_dev. rewrite (on_memory_load _ _ _ W1).
  unfold bind at 1, get_cmd. rewrite (on_memory_load _ _ _ W2).
  unfold bind at 1, get_data. rewrite (on_memory_load _ _ _ W3).
  destruct (Z.ltb_spec 0xFF dev), (Z.ltb_spec 0xFF cmd), (Z.ltb_spec 0x0000FFFFFFFFFFFF data); try lia.
  done.
Qed.

Lemma lor_0x100_range c : inu 8 c -> inu 64 (0x100 ||| c).
Proof.
  intros Hc. apply lor_range; [lia|vm_decide|]. eapply inu_weaken; [| |exact Hc]; lia.
Qed.

Lemma dev_write_at q h s a data :
  qrep q h s -> separated (a :: requests q ++ responses q) -> request_ok s a 0 HTIF_CMD_WRITE data ->
  uart_open (uart s) ->
  exists m' h' u', mcall_dev_req im fuel stack a s = Ret 0 (upd m' h' (mip s ||| MIP_SSIP) (set_uart u' s)) /\
    qmem (Queues (requests q) (responses q ++ [a])) h' m' /\ kept h h' /\
    frame (a :: requests q ++ responses q) (pm s) m' /\
    word m' (a + 16) (0x100 ||| u8 data) /\ advanced [u8 data] (uart s) u'.
Proof.
  intros Q Hs Hr Hu. rewrite (dev_req_fields s a 0 HTIF_CMD_WRITE data Hr).
  change (0 =? 0) with true. change (HTIF_CMD_WRITE =? HTIF_CMD_IDENTIFY) with false.
  change (HTIF_CMD_WRITE =? HTIF_CMD_READ) with false. change (HTIF_CMD_WRITE =? HTIF_CMD_WRITE) with true. cbv iota.
  assert (inu 8 (u8 data)) as Hb by (apply wrapu_range; lia).
  destruct (on_uart_at (uart_send (u8 data)) s _ (uart_send_spec (uart s) (u8 data) Hu Hb)) as ([] & u' & E & A).
  unfold bind at 1 2. rewrite E.
  destruct (mcall_respond_at q h (set_uart u' s) a (0x100 ||| u8 data)) as (m' & h' & E' & R); auto.
  { destruct Q. by constructor. }
  { by destruct Hr. }
  { by apply lor_0x100_range. }
  rewrite E'. exists m', h', u'. split; [done|]. destruct R as (R1 & R2 & R3 & R4). by split_and!.
Qed.

(** A console read waits in front of the others. *)
Lemma qmem_push q h m a :
  qmem q h m -> msg_at m a -> separated (a :: requests q ++ responses q) -> is_read m a ->
  word m (a + 24) (device_request_queue_head h) ->
  qmem (Queues (a :: requests q) (responses q))
    (set_req_size (device_request_queue_size h + 1) (set_req_head a h)) m.
Proof.
  intros (Q1 & Q2 & Q3 & Q4 & Q5 & Q6 & Q7) Ha Hs Hr Hw. split_and!; cbn; try done; try apply Hs.
  - by constructor.
  - split; [done|]. by exists (device_request_queue_head h).
  - lia.
  - by constructor.
Qed.

Lemma chain_head_range m p l : chain m p l -> Forall (msg_at m) l -> inu 64 p.
Proof.
  destruct l as [|a l]; cbn; [by intros ->|]. intros [-> _] Hf. apply Forall_cons in Hf as [(_ & ? & ? & _) _].
  unfold inu. lia.
Qed.

(** There are fewer messages than bytes of memory. *)
Lemma dev_read_at q h s a data :
  qrep q h s -> separated (a :: requests q ++ responses q) -> request_ok s a 0 HTIF_CMD_READ data ->
  Z.of_nat (length (requests q)) + 1 < 2 ^ 64 ->
  exists m' h', mcall_dev_req im fuel stack a s = Ret 0 (upd m' h' (mip s) (set_io_irq 1 s)) /\
    qmem (Queues (a :: requests q) (responses q)) h' m' /\ kept h h' /\
    frame (a :: requests q ++ responses q) (pm s) m'.
Proof.
  intros Q Hs Hr Hl. rewrite (dev_req_fields s a 0 HTIF_CMD_READ data Hr).
  change (0 =? 0) with true. change (HTIF_CMD_READ =? HTIF_CMD_IDENTIFY) with false.
  change (HTIF_CMD_READ =? HTIF_CMD_READ) with true. cbv iota.
  destruct Hr as (Ha & Hv & W1 & W2 & W3 & _).
  unfold bind at 1 2, modify. set (s0 := set_io_irq 1 s).
  assert (hlss s0 !! self s0 = Some h) as Eh by apply Q. apply qrep_mem in Q.
  unfold bind at 1. rewrite (HLS_at h s0 Eh).
  unfold bind at 1. rewrite (st_upd h s0 (set_private _ _) Eh), set_private_at by done. rewrite upd_with_mem, upd_pm.
  unfold bind at 1. rewrite (upd_HLS_at _ h) by apply upd_hls. rewrite upd_set_hls.
  rewrite (upd_HLS_at _ (set_req_head a h)) by apply upd_hls. rewrite upd_set_hls.
  destruct (msg_field _ a 3 Ha) as (F1 & F2 & F3 & F4); [lia|].
  pose proof Q as (Q1 & _ & Q3 & Q4 & _). apply Forall_app in Q1 as [Q1 _].
  eexists _, _. split; [unfold ret; reflexivity|]. cbn [device_request_queue_size set_req_head].
  rewrite wrapu_small by (unfold inu; lia). split; [|split; [done|apply frame_write; [by left|done|lia]]].
  apply (qmem_push q h); auto.
  - by apply qmem_write_fresh; [..|lia|].
  - by apply msg_at_write_word.
  - split_and!; [| |done]; (apply word_other; [done|done|unfold apart; lia]).
  - apply word_write; [done|done|]. by eapply chain_head_range.
Qed.

(** ** Collecting answers *)

(** The pending interrupts after an answer was collected. *)
Definition resp_mip (h : hls_t) (more : bool) (p : Z) : Z :=
  if more then p
  else if ipi_pending h =? 0 then bitand_not 64 p MIP_SSIP else bitand_not 64 p MIP_SSIP ||| MIP_SSIP.

Lemma dev_resp_empty h q s : qrep q h s -> responses q = [] -> mcall_dev_resp s = Ret 0 s.
Proof.
  intros Q E. unfold mcall_dev_resp, bind. rewrite (HLS_at h) by apply Q.
  pose proof (q_resp _ _ _ Q) as C. rewrite E in C. cbn in C. by rewrite C.
Qed.

Lemma qmem_pop q h m a rs nxt :
  qmem (Queues (requests q) (a :: rs)) h m -> word m (a + 24) nxt -> chain m nxt rs ->
  qmem (Queues (requests q) rs)
    (set_resp_tail (if rs is [] then 0 else device_response_queue_tail h) (set_resp_head nxt h)) m.
Proof.
  intros (Q1 & Q2 & Q3 & Q4 & Q5 & Q6 & Q7) Hw Hc. cbn [requests responses] in *.
  assert (Permutation (requests q ++ a :: rs) (a :: requests q ++ rs)) as P by by rewrite Permutation_middle.
  rewrite P in Q1. rewrite P in Q2. apply Forall_cons in Q1 as [_ Q1]. destruct Q2 as [_ Q2].
  split_and!; cbn [requests responses]; try done. cbn [device_response_queue_tail set_resp_tail].
  destruct rs as [|b rs]; [done|]. rewrite Q6. by rewrite last_cons_cons.
Qed.

Lemma dev_resp_at q h s a rs :
  qrep q h s -> responses q = a :: rs ->
  exists h', mcall_dev_resp s =
      Ret a (upd (pm s) h' (resp_mip h (negb (bool_decide (rs = []))) (mip s)) s) /\
    qmem (Queues (requests q) rs) h' (pm s) /\ kept h h'.
Proof.
  intros Q E. destruct q as [rq rp]. cbn [requests responses] in *. subst rp.
  unfold mcall_dev_resp. unfold bind at 1. rewrite (HLS_at h) by apply Q.
  pose proof (q_hls _ _ _ Q) as Eh. pose proof (qrep_mem _ _ _ Q) as M.
  pose proof (q_resp _ _ _ Q) as (Eq & nxt & Hw & Hc). rewrite Eq.
  pose proof (q_msgs _ _ _ Q) as Ms. cbn [requests responses] in Ms. apply Forall_app in Ms as [_ Ms].
  apply Forall_cons in Ms as [(A1 & A2 & A3 & A4) Ms].
  rewrite (proj2 (Z.eqb_neq a 0)) by lia. cbn [negb].
  unfold bind at 1 2, get_private. rewrite (on_memory_load _ _ _ Hw).
  unfold bind at 1. rewrite (st_upd h s (upd_HLS _) Eh), (upd_HLS_at _ h) by apply upd_hls. rewrite upd_set_hls.
  pose proof (qmem_pop (Queues rq []) h (pm s) a rs nxt M Hw Hc) as M'. cbn [requests] in M'.
  destruct rs as [|b rs].
  - cbn in Hc. subst nxt. change (0 =? 0) with true. cbv iota.
    unfold bind at 1. rewrite (upd_HLS_at _ (set_resp_head 0 h)) by apply upd_hls. rewrite upd_set_hls.
    unfold bind at 1, clear_csr_mip, modify. rewrite upd_set_mip.
    unfold bind at 1. rewrite (HLS_at (set_resp_tail 0 (set_resp_head 0 h))) by apply upd_hls.
    eexists. split; [|split; [exact M'|done]]. unfold resp_mip. rewrite bool_decide_true by done. cbn [negb ipi_pending set_resp_tail set_resp_head].
    destruct (ipi_pending h =? 0); cbn [negb]; unfold set_csr_mip, modify, ret; by rewrite ?upd_set_mip.
  - cbn in Hc. destruct Hc as (-> & _). apply Forall_cons in Ms as [(B1 & B2 & _) _].
    rewrite (proj2 (Z.eqb_neq b 0)) by lia. eexists. split; [|split; [exact M'|done]].
    unfold resp_mip. rewrite bool_decide_false by done. cbn [negb]. unfold ret.
    done.
Qed.

(** ** The console interrupt *)

Lemma qmem_pop_request rq rs h m a :
  qmem (Queues (a :: rq) rs) h m ->
  exists nxt, word m (a + 24) nxt /\
    qmem (Queues rq rs) (set_req_size (Z.of_nat (length rq)) (set_req_head nxt h)) m /\
    device_request_queue_head h = a /\ msg_at m a /\ separated (a :: rq ++ rs) /\ is_read m a.
Proof.
  intros (Q1 & Q2 & Q3 & Q4 & Q5 & Q6 & Q7). cbn [requests responses] in *.
  destruct Q3 as (E & nxt & Hw & Hc). cbn [app] in *. apply Forall_cons in Q1 as [Ha Q1].
  apply Forall_cons in Q7 as [Hr Q7]. exists nxt. split; [done|]. split; [|done].
  destruct Q2 as [_ Q2]. by split_and!.
Qed.

Lemma kept_req h n v : kept h (set_req_size n (set_req_head v h)).
Proof. done. Qed.

Lemma kept_trans h1 h2 h3 : kept h1 h2 -> kept h2 h3 -> kept h1 h3.
Proof. unfold kept. intros [-> ->] [-> ->]. done. Qed.

Lemma io_irq_at q h s a rq c rest :
  qrep q h s -> requests q = a :: rq -> uart_open (uart s) -> received (uart s) = c :: rest ->
  Z.of_nat (length (requests q)) < 2 ^ 64 ->
  exists m' h' u', io_irq_service im s = Ret 0 (upd m' h' (mip s ||| MIP_SSIP) (set_uart u' s)) /\
    qmem (Queues rq (responses q ++ [a])) h' m' /\ kept h h' /\
    frame (requests q ++ responses q) (pm s) m' /\
    word m' (a + 16) (0x100 ||| c) /\ uart_open u' /\ sent u' = sent (uart s) /\
    exists more, received u' = rest ++ more.
Proof.
  intros Q E Hu Hrx Hl. destruct q as [rq0 rs]. cbn [requests responses] in *. subst rq0.
  pose proof (q_hls _ _ _ Q) as Eh. pose proof (qrep_mem _ _ _ Q) as M.
  destruct (qmem_pop_request _ _ _ _ _ M) as (nxt & Hw & M1 & Ehd & Ha & Hs & (R1 & R2 & R3)).
  destruct (on_uart_at _ s _ (uart_check_read_irq_spec (uart s) Hu)) as (v & u1 & E1 & A1 & Hv).
  unfold io_irq_service. unfold bind at 1. rewrite E1.
  rewrite (proj2 (Z.eqb_neq v 0)) by (intros Hv0; apply Hv in Hv0; congruence).
  set (s1 := set_uart u1 s). unfold bind at 1. rewrite (HLS_at h s1 Eh).
  pose proof (q_size _ _ _ Q) as Esz. cbn [requests length] in Esz. rewrite Esz, Nat2Z.id, Ehd. cbn [irq_loop].
  destruct (not_from_machine_at s1) as [nb En]. unfold bind at 1. rewrite En, R3. cbn [negb andb].
  unfold bind at 1, get_private. rewrite (on_memory_load _ _ s1 Hw).
  unfold bind at 1, get_dev. rewrite (on_memory_load _ _ s1 R1). change (0 =? 0) with true. cbv iota.
  unfold bind at 1, get_cmd. rewrite (on_memory_load _ _ s1 R2).
  change (HTIF_CMD_READ =? HTIF_CMD_READ) with true. cbn [andb].
  destruct A1 as (O1 & S1 & more1 & X1). rewrite app_nil_r in S1. rewrite Hrx in X1. cbn [app] in X1.
  destruct (on_uart_at _ s1 _ (uart_read_irq_spec u1 c (rest ++ more1) O1 X1)) as (v2 & u2 & E2 & -> & O2 & S2 & more2 & X2).
  unfold bind at 1. rewrite E2. change (set_uart u2 s1) with (set_uart u2 s). set (s2 := set_uart u2 s).
  assert (inu 8 c) as Hc by (pose proof (received_bytes (uart s)) as B; rewrite Hrx in B; by apply Forall_cons in B as [B _]).
  unfold bind at 1. rewrite (st_upd h s2 (set_data _ _) Eh), set_data_at by done. rewrite upd_with_mem, upd_pm.
  change (pm s2) with (pm s). change (mip s2) with (mip s).
  destruct (msg_field _ a 2 Ha) as (F1 & F2 & F3 & F4); [lia|].
  set (m1 := write_word (pm s) (a + 8 * 2) (0x100 ||| c)).
  cbn [negb]. unfold bind at 1. rewrite (upd_HLS_at _ h) by apply upd_hls. rewrite upd_set_hls.
  unfold bind at 1. rewrite (upd_HLS_at _ (set_req_head nxt h)) by apply upd_hls. rewrite upd_set_hls.
  replace (u64 (Z.of_nat (S (length rq)) - 1)) with (Z.of_nat (length rq)).
  2: { cbn [length] in Hl. rewrite wrapu_small; [lia|unfold inu; lia]. }
  set (h1 := set_req_size (Z.of_nat (length rq)) (set_req_head nxt h)) in *.
  assert (msg_at m1 a) as Ha1 by by apply msg_at_write_word.
  unfold bind at 1. rewrite set_private_at by done. rewrite upd_with_mem, upd_pm.
  destruct (msg_field _ a 3 Ha1) as (G1 & G2 & G3 & G4); [lia|].
  set (m2 := write_word m1 (a + 8 * 3) 0).
  assert (msg_at m2 a) as Ha2 by by apply msg_at_write_word.
  destruct (append_response_at (Queues rq rs) h1 s2 a m2 (mip s)) as (m3 & h3 & E3 & Q3 & K3 & Fr3 & W3); auto.
  { apply qmem_write_fresh; [apply qmem_write_fresh; [done|done|lia|done]|done|lia|done]. }
  { by apply word_write. }
  unfold bind at 1. rewrite E3. unfold bind, set_csr_mip, modify, ret. rewrite upd_set_mip.
  exists m3, h3, u2. split; [done|]. split; [exact Q3|]. split; [by eapply kept_trans; [apply kept_req|exact K3]|].
  split; [|split; [|split_and!; [done|congruence|exists (more1 ++ more2); by rewrite X2, app_assoc]]].
  - eapply frame_trans; [apply (frame_write _ _ a 2); [by left|done|lia]|].
    eapply frame_trans; [apply (frame_write _ _ a 3); [by left|done|lia]|]. exact Fr3.
  - apply (W3 2); [lia|]. apply word_other; [|done|unfold apart; lia].
    apply word_write; [done|done|by apply lor_0x100_range].
Qed.

(** ** Device identification *)

Lemma put_string_at name m a :
  mapped m a (S (length name)) -> fits a (S (length name)) -> Forall (inu 8) name ->
  put_string a name m = Ret tt (write_bytes m a (name ++ [0])).
Proof.
  revert m a. induction name as [|c name IH]; intros m a Hm Hf Hb.
  { cbn [put_string]. by rewrite store_spec by (done || apply Z.mod_1_r). }
  apply Forall_cons in Hb as [Hc Hb]. cbn [length] in *. apply (mapped_app m a 1) in Hm as [M1 M2].
  unfold fits in *. cbn [put_string]. unfold bind. rewrite store_spec by (done || apply Z.mod_1_r).
  rewrite le_split_1, (wrapu_small 8 c Hc), wrapu_small by (unfold inu; lia).
  rewrite IH; [done|by apply mapped_write|lia|done].
Qed.

(** The name buffer of an identify request: 64-byte aligned, in memory, and outside the
    messages [l]. *)
Definition id_target (m : memory) (data : Z) (n : nat) (l : list Z) : Prop :=
  data / 256 mod 64 = 0 /\ mapped m (data / 256) n /\ Forall (fun b => apart b 32 (data / 256) n) l.

#[export] Instance id_target_dec m data n l : Decision (id_target m data n l).
Proof. unfold id_target. apply _. Defined.

Lemma word_write_bytes m b w a l :
  word m b w -> fits a (length l) -> apart b 8 a (length l) -> word (write_bytes m a l) b w.
Proof. intros (?&?&?&Hr) Hf Hd. split_and!; try done. by rewrite read_write_apart. Qed.

Lemma qmem_write_bytes q h m a l :
  qmem q h m -> fits a (length l) ->
  Forall (fun b => apart b 32 a (length l)) (requests q ++ responses q) -> qmem q h (write_bytes m a l).
Proof.
  intros (Q1 & Q2 & Q3 & Q4 & Q5 & Q6 & Q7) Hf Hs. apply Forall_app in Hs as [Hs1 Hs2].
  rewrite Forall_forall in Hs1, Hs2.
  assert (forall b k v, b ∈ requests q \/ b ∈ responses q -> 0 <= k < 4 ->
    word m (b + 8 * k) v -> word (write_bytes m a l) (b + 8 * k) v) as Hw.
  { intros b k v Hb Hk Hw. apply word_write_bytes; [done|done|].
    assert (apart b 32 a (length l)) by (destruct Hb; auto). unfold apart in *. lia. }
  split_and!; try done.
  - eapply Forall_impl; [exact Q1|]. intros b Hb. by apply msg_at_write.
  - eapply chain_frame; [done|]. intros b v Hb. apply (Hw b 3); [by left|lia].
  - eapply chain_frame; [done|]. intros b v Hb. apply (Hw b 3); [by right|lia].
  - rewrite Forall_forall in *. intros b Hb. destruct (Q7 b Hb) as (W1 & W2 & W3).
    split_and!; [|by apply (Hw b 1); [left|lia|]|done].
    rewrite <- (Z.add_0_r b). change 0 with (8 * 0) at 1. apply (Hw b 0); [by left|lia|]. by rewrite Z.add_0_r.
Qed.

Lemma word_frame m m' b k v :
  read_bytes m' b 32 = read_bytes m b 32 -> 0 <= k < 4 -> word m (b + 8 * k) v ->
  mapped m b 32 -> word m' (b + 8 * k) v.
Proof.
  intros E Hk (?&?&?&Hr) [bs Hm]. split_and!; try done. rewrite <- Hr.
  rewrite Hm in E. replace 32%nat with (Z.to_nat (8 * k) + (8 + (24 - Z.to_nat (8 * k))))%nat in * by lia.
  apply read_bytes_window in E, Hm. rewrite Z2Nat.id in E, Hm by lia. congruence.
Qed.

Lemma qmem_frame q h m m' :
  qmem q h m -> (forall a, a ∈ requests q ++ responses q -> read_bytes m' a 32 = read_bytes m a 32) -> qmem q h m'.
Proof.
  intros (Q1 & Q2 & Q3 & Q4 & Q5 & Q6 & Q7) Hf. rewrite Forall_forall in Q1.
  assert (forall b k v, b ∈ requests q ++ responses q -> 0 <= k < 4 ->
    word m (b + 8 * k) v -> word m' (b + 8 * k) v) as Hw.
  { intros b k v Hb Hk Hw. eapply word_frame; [by apply Hf|done|done|by apply Q1]. }
  split_and!; try done.
  - apply Forall_forall. intros b Hb. destruct (Q1 b Hb) as (?&?&?&?). split_and!; auto. unfold mapped. by rewrite Hf.
  - eapply chain_frame; [done|]. intros b v Hb. apply (Hw b 3); [apply elem_of_app; by left|lia].
  - eapply chain_frame; [done|]. intros b v Hb. apply (Hw b 3); [apply elem_of_app; by right|lia].
  - rewrite Forall_forall in *. intros b Hb. destruct (Q7 b Hb) as (W1 & W2 & W3).
    assert (b ∈ requests q ++ responses q) as Hb' by (apply elem_of_app; by left).
    split_and!; [|by apply (Hw b 1); [|lia|]|done].
    rewrite <- (Z.add_0_r b). change 0 with (8 * 0) at 1. apply (Hw b 0); [done|lia|]. by rewrite Z.add_0_r.
Qed.

(** Storing a name, and the string that is stored. *)
Definition id_text (data : Z) (name : list Z) : list Z := if data mod 256 =? HTIF_CMD_IDENTIFY then name else [].

Lemma identify_at s data name :
  0 <= data < 2 ^ 48 -> Forall (inu 8) name -> (length name <= 64)%nat -> data / 256 mod 64 = 0 ->
  mapped (pm s) (data / 256) (S (length (id_text data name))) ->
  handle_identify data name s = Ret tt (with_mem (write_bytes (pm s) (data / 256) (id_text data name ++ [0])) s).
Proof.
  intros Hp Hb Hl Ha Hm. unfold handle_identify. change HTIF_MAX_CMD with 256. change HTIF_MAX_ID with 64.
  assert (0 <= data / 256 < 2 ^ 40) as Hr by (split; [apply Z.div_pos|apply Z.div_lt_upper_bound]; lia).
  rewrite Ha. cbn [Z.eqb negb]. rewrite (proj2 (Z.ltb_ge _ _)) by lia.
  assert (length (id_text data name) <= length name)%nat by (unfold id_text; case_match; cbn; lia).
  fold (id_text data name). unfold on_memory, on_fs, on_mem, zoom. fold (pm s).
  rewrite put_string_at; [done|done|unfold fits; lia|]. unfold id_text. by case_match.
Qed.

(** An identify request: the name is stored and the message answered with 1. *)
Lemma identify_respond q h s a data name :
  qrep q h s -> separated (a :: requests q ++ responses q) -> msg_at (pm s) a -> 0 <= data < 2 ^ 48 ->
  Forall (fun c => c <> 0) name -> Forall (inu 8) name -> (length name <= 64)%nat ->
  id_target (pm s) data (S (length (id_text data name))) (a :: requests q ++ responses q) ->
  exists m' h', (handle_identify data name ;; mcall_respond a 1) s = Ret tt (upd m' h' (mip s ||| MIP_SSIP) s) /\
    qmem (Queues (requests q) (responses q ++ [a])) h' m' /\ kept h h' /\
    word m' (a + 16) 1 /\ cstring m' (data / 256) (id_text data name).
Proof.
  intros Q Hs Ha Hd Hnz Hnb Hl (T1 & T2 & T3). set (text := id_text data name) in *.
  assert (0 <= data / 256 < 2 ^ 40) as Ht by (split; [apply Z.div_pos|apply Z.div_lt_upper_bound]; lia).
  assert (length text <= 64)%nat as Hn by (unfold text, id_text; case_match; cbn; lia).
  assert (Forall (fun c => c <> 0) text) as Htz by (unfold text, id_text; by case_match).
  assert (fits (data / 256) (S (length text))) as Hf by (unfold fits; lia).
  unfold bind. rewrite (identify_at s data name Hd Hnb Hl T1 T2). fold text. set (m1 := write_bytes (pm s) (data / 256) (text ++ [0])) in *.
  assert (length (text ++ [0]) = S (length text)) as Ln by (rewrite length_app; cbn; lia).
  apply Forall_cons in T3 as [T3 T4].
  destruct (mcall_respond_at q h (with_mem m1 s) a 1) as (m' & h' & E & Q' & K & Fr & Wd); auto.
  { pose proof (qrep_mem _ _ _ Q) as M.
    apply (qmem_write_bytes _ _ _ (data / 256) (text ++ [0])) in M; [|by rewrite Ln|by rewrite Ln].
    destruct M as (?&?&?&?&?&?&?). constructor; try done. apply Q. }
  { by apply msg_at_write. }
  { done. }
  exists m', h'. split; [exact E|]. do 3 (split; [done|]). split; [done|]. split; [done|].
  rewrite Fr; [|done|].
  - unfold pm, with_mem. sys_simpl. unfold m1. rewrite <- Ln. apply read_write_bytes. rewrite Ln. lia.
  - constructor; [by apply apart_sym|]. eapply Forall_impl; [exact T4|]. intros b. apply apart_sym.
Qed.

(** The name a device other than the disk answers with. *)
Definition identity (dev : Z) : list Z := if dev =? 0 then chars "bcd" else [].

Lemma dev_identify_at q h s a dev data :
  qrep q h s -> separated (a :: requests q ++ responses q) -> request_ok s a dev HTIF_CMD_IDENTIFY data ->
  dev <> 1 -> id_target (pm s) data (S (length (id_text data (identity dev)))) (a :: requests q ++ responses q) ->
  exists m' h', mcall_dev_req im fuel stack a s = Ret 0 (upd m' h' (mip s ||| MIP_SSIP) s) /\
    qmem (Queues (requests q) (responses q ++ [a])) h' m' /\ kept h h' /\
    word m' (a + 16) 1 /\ cstring m' (data / 256) (id_text data (identity dev)).
Proof.
  intros Q Hs Hr Hd Ht. rewrite (dev_req_fields s a dev HTIF_CMD_IDENTIFY data Hr).
  pose proof Hr as (Ha & _ & _ & _ & (_ & _ & Hd64 & _) & _ & _ & B3). unfold inu in Hd64.
  destruct (identify_respond q h s a data (identity dev)) as (m' & h' & E & R); try done; try lia.
  { unfold identity. case_match; vm_decide. }
  { unfold identity. case_match; vm_decide. }
  { unfold identity. case_match; cbn; lia. }
  exists m', h'. split; [|exact R]. unfold identity in E. destruct (Z.eqb_spec dev 0) as [->|Hd0].
  - unfold bind at 1. change (HTIF_CMD_IDENTIFY =? HTIF_CMD_IDENTIFY) with true. cbv iota. by rewrite E.
  - rewrite (proj2 (Z.eqb_neq dev 1)) by done. change (HTIF_CMD_IDENTIFY =? HTIF_CMD_IDENTIFY) with true. cbv iota. unfold bind at 1. by rewrite E.
Qed.

(** ** The disk *)

(** The queues do not depend on the file layer, only on the messages in memory. *)
Lemma qrep_fsx q h s fs rd :
  qrep q h s -> (forall b, b ∈ requests q ++ responses q -> read_bytes (mem fs) b 32 = read_bytes (pm s) b 32) ->
  qrep q h (set_ramdisk rd (set_fsx fs s)).
Proof.
  intros Q Hf. destruct (qmem_frame q h (pm s) (mem fs) (qrep_mem _ _ _ Q) Hf) as (?&?&?&?&?&?&?).
  constructor; try done. apply Q.
Qed.

(** The name of the disk. *)
Definition disk_text (fsize : Z) : list Z := chars "disk size=" ++ dec_text (s32 fsize).

Lemma digits_text l : Forall is_digit l -> Forall (inu 8) l /\ Forall (fun c => c <> 0) l.
Proof. intros Hd. split; (eapply Forall_impl; [exact Hd|]); unfold is_digit, inu; lia. Qed.

Lemma disk_text_facts fsize :
  Forall (inu 8) (disk_text fsize) /\ Forall (fun c => c <> 0) (disk_text fsize) /\ (length (disk_text fsize) <= 30)%nat.
Proof.
  pose proof (wraps_range 32 fsize ltac:(lia)) as R. change (32 - 1) with 31 in R.
  destruct (dec_text_shape (s32 fsize) ltac:(lia)) as (neg & ds & E & Hd & Hl & _). destruct (digits_text ds Hd) as [D1 D2].
  unfold disk_text. rewrite length_app. change (length (chars "disk size=")) with 10%nat. split_and!; [..|lia]; apply Forall_app_2.
  1, 3: vm_decide.
  all: rewrite E; destruct neg; [|done]; (constructor; [vm_decide|done]).
Qed.

Lemma until_nul_app l r : Forall (fun c => c <> 0) l -> until_nul (l ++ 0 :: r) = l.
Proof.
  induction 1 as [|c l Hc Hl IH]; [done|]. cbn [app until_nul]. rewrite (proj2 (Z.eqb_neq c 0)) by done. by rewrite IH.
Qed.

Lemma disk_name_at fsize s : (64 <= length stack)%nat -> disk_name fuel stack fsize s = Ret (disk_text fsize) s.
Proof.
  intros Hst. unfold disk_name. destruct (disk_text_facts fsize) as (_ & Hz & Hl). set (b := take 64 stack).
  assert (length b = 64%nat) as Lb by (unfold b; rewrite length_take; lia).
  set (ts := map (fun c => (false, [c])) (chars "disk size=") ++ [(false, dec_text (s32 fsize))]).
  assert (render ts = disk_text fsize) as Er by (unfold ts, render; rewrite map_app, concat_app; cbn; by rewrite app_nil_r).
  destruct (vsnprintf_at b fuel (chars "disk size=%d") (map PLit (chars "disk size=") ++ [PDec false]) [AInt fsize] ts) as [args E].
  - reflexivity.
  - pose proof (wraps_range 32 fsize ltac:(lia)) as R. change (32 - 1) with 31 in R.
    assert ((s32 fsize =? - 2 ^ 63) = false) as N by (apply Z.eqb_neq; lia).
    assert (texts [PDec false] [AInt fsize] = Some [(false, dec_text (s32 fsize))]) as T.
    { cbn [texts piece_text arg_num]. unfold mbind, option_bind. by rewrite N. }
    change (texts (map PLit (chars "disk size=") ++ [PDec false]) [AInt fsize]) with
      (foldr (fun c t => cons (false, [u8 c]) <$> t) (texts [PDec false] [AInt fsize]) (chars "disk size=")).
    rewrite T. reflexivity.
  - by repeat constructor.
  - unfold ts. reflexivity.
  - rewrite Er. lia.
  - rewrite Lb. lia.
  - unfold snprintf. rewrite E. cbn [out]. rewrite Er. unfold truncated. rewrite Lb, Nat.min_l, take_ge by lia.
    by rewrite until_nul_app.
Qed.

Lemma file_scan_mem i k (fs fs' : fsys F FIL) j : file_scan i k fs = Ret j fs' -> mem fs' = mem fs.
Proof.
  revert i. induction k as [|k IH]; intros i; [done|]. cbn [file_scan]. unfold bind, get_file. destruct (files fs !! i); [|done].
  destruct (refcnt _ =? 0); [by intros [= _ <-]|apply IH].
Qed.

Lemma file_open_mem fn flags (fs fs' : fsys F FIL) i : file_open fn flags fs = Ret i fs' -> mem fs' = mem fs.
Proof.
  unfold file_open, file_openat, file_get_free, bind, gets. destruct (file_scan 0 MAX_FILES fs) as [j fs1| | |] eqn:E; try done.
  apply file_scan_mem in E. unfold get_file. destruct (files fs1 !! j); [|done].
  destruct (f_open _ _ _ _) as [[rt fd'] f']. unfold put_file, modify. fsys_simpl. destruct (rt =? 0); [|done]. by intros [= _ <-].
Qed.

(** The steps of an identify request for the disk. *)
Lemma disk_identify_at q h s a data rt fsize fat1 :
  qrep q h s -> separated (a :: requests q ++ responses q) -> request_ok s a 1 HTIF_CMD_IDENTIFY data ->
  (64 <= length stack)%nat -> f_stat ramdisk_fn (fat (fsx s)) = (rt, fsize, fat1) ->
  let fs1 := set_fat fat1 (fsx s) in
  (rt <> 0 -> id_target (pm s) data (S (length (id_text data []))) (a :: requests q ++ responses q) ->
   exists m' h', mcall_dev_req im fuel stack a s = Ret 0 (upd m' h' (mip s ||| MIP_SSIP) (set_fsx fs1 s)) /\
     qmem (Queues (requests q) (responses q ++ [a])) h' m' /\ kept h h' /\
     word m' (a + 16) 1 /\ cstring m' (data / 256) (id_text data [])) /\
  (rt = 0 -> forall i fs2, file_open ramdisk_fn O_RDWR fs1 = Ret i fs2 ->
   id_target (pm s) data (S (length (id_text data (disk_text fsize)))) (a :: requests q ++ responses q) ->
   exists m' h', mcall_dev_req im fuel stack a s = Ret 0 (upd m' h' (mip s ||| MIP_SSIP) (set_ramdisk (Some i) (set_fsx fs2 s))) /\
     qmem (Queues (requests q) (responses q ++ [a])) h' m' /\ kept h h' /\
     word m' (a + 16) 1 /\ cstring m' (data / 256) (id_text data (disk_text fsize))).
Proof.
  intros Q Hs Hr Hst Es fs1. pose proof Hr as (Ha & _ & _ & _ & (_ & _ & Hd64 & _) & _ & _ & B3). unfold inu in Hd64.
  assert (Run : mcall_dev_req im fuel stack a s =
    ((if negb (rt =? 0) then handle_identify data [] ;; mcall_respond a 1
      else let! i := on_fs (file_open ramdisk_fn O_RDWR) in
           modify (set_ramdisk (Some i)) ;;
           let! name := disk_name fuel stack fsize in
           handle_identify data name ;; mcall_respond a 1) ;; ret 0) (set_fsx fs1 s)).
  { rewrite (dev_req_fields s a 1 HTIF_CMD_IDENTIFY data Hr). change (1 =? 0) with false. change (1 =? 1) with true.
    change (HTIF_CMD_IDENTIFY =? HTIF_CMD_IDENTIFY) with true. cbv iota. unfold disk_identify, bind at 1, bind at 1, gets at 1.
    rewrite Es. reflexivity. }
  split.
  - intros Hrt Ht. rewrite Run, (proj2 (Z.eqb_neq rt 0) Hrt). cbn [negb]. unfold bind at 1.
    pose proof (qrep_fsx q h s fs1 (ramdisk s) Q ltac:(done)) as Q1. change (set_ramdisk _ _) with (set_fsx fs1 s) in Q1.
    destruct (identify_respond q h (set_fsx fs1 s) a data []) as (m' & h' & E & R);
      [exact Q1|done|done|lia|constructor|constructor|cbn; lia|done|].
    exists m', h'. split; [by rewrite E|exact R].
  - intros -> i fs2 Eo Ht. rewrite Run. change (negb (0 =? 0)) with false. cbv iota. unfold bind at 1, bind at 1, on_fs, zoom.
    change (fsx (set_fsx fs1 s)) with fs1. rewrite Eo. unfold bind at 1, modify at 1. unfold bind at 1. rewrite disk_name_at by done.
    pose proof (file_open_mem _ _ _ _ _ Eo) as Em. change (mem fs1) with (pm s) in Em.
    pose proof (qrep_fsx q h s fs2 (Some i) Q ltac:(intros; by rewrite Em)) as Q1.
    change (set_fsx fs2 (set_fsx fs1 s)) with (set_fsx fs2 s). set (s1 := set_ramdisk (Some i) (set_fsx fs2 s)) in *.
    assert (Ep : pm s1 = pm s) by exact Em. destruct (disk_text_facts fsize) as (D1 & D2 & D3).
    destruct (identify_respond q h s1 a data (disk_text fsize)) as (m' & h' & E & R);
      [exact Q1|done|by rewrite Ep|lia|done|done|lia|by rewrite Ep|].
    exists m', h'. split; [by rewrite E|exact R].
Qed.

(** A [disk_request_t] at [req]. *)
Definition disk_request_at (m : memory) (req addr ofs size tag : Z) : Prop :=
  word m req addr /\ word m (req + 8) ofs /\ word m (req + 16) size /\ word m (req + 24) tag.

Lemma disk_transfer_at op err q h s a req addr ofs size tag i n fs' :
  qrep q h s -> separated (a :: requests q ++ responses q) -> msg_at (pm s) a -> disk_request_at (pm s) req addr ofs size tag ->
  ramdisk s = Some i -> op i addr size ofs (fsx s) = Ret n fs' -> inu 64 n ->
  (forall b, b ∈ a :: requests q ++ responses q -> read_bytes (mem fs') b 32 = read_bytes (pm s) b 32) ->
  word (mem fs') (req + 16) size -> word (mem fs') (req + 24) tag ->
  (n = size -> exists m' h', disk_transfer op err a req s = Ret tt (upd m' h' (mip s ||| MIP_SSIP) (set_fsx fs' s)) /\
     qmem (Queues (requests q) (responses q ++ [a])) h' m' /\ kept h h' /\
     frame (a :: requests q ++ responses q) (mem fs') m' /\ word m' (a + 16) tag) /\
  (n <> size -> disk_transfer op err a req s = Panic err (set_fsx fs' s)).
Proof.
  intros Q Hs Ha (W1 & W2 & W3 & W4) Hrd Eop Hn Hm W3' W4'. set (s1 := set_fsx fs' s).
  assert (Ha1 : msg_at (pm s1) a).
  { destruct Ha as (?&?&?&?). split_and!; auto. unfold mapped. change (pm s1) with (mem fs'). by rewrite Hm by (by left). }
  pose proof (qrep_fsx q h s fs' (ramdisk s) Q ltac:(intros b Hb; apply Hm; by right)) as Q1. change (set_ramdisk _ _) with s1 in Q1.
  assert (Run : disk_transfer op err a req s = (if negb (n =? size) then panic err else mcall_respond a tag) s1).
  { unfold disk_transfer. unfold bind at 1, gets. unfold bind at 1. rewrite (on_memory_load _ _ _ W1).
    unfold bind at 1. rewrite (on_memory_load _ _ _ W3). unfold bind at 1. rewrite (on_memory_load _ _ _ W2). rewrite Hrd.
    unfold bind at 1, on_fs, zoom. rewrite Eop. fold s1. unfold bind at 1. rewrite (on_memory_load _ _ s1 W3').
    rewrite (wrapu_small 64 n Hn). destruct (negb (n =? size)); [done|]. unfold bind. by rewrite (on_memory_load _ _ s1 W4'). }
  rewrite Run. split.
  - intros ->. rewrite Z.eqb_refl. cbn [negb]. destruct W4 as (_ & _ & Ht & _).
    destruct (mcall_respond_at q h s1 a tag Q1 Ha1 Hs Ht) as (m' & h' & E & R1 & R2 & R3 & R4). exists m', h'. by split_and!.
  - intros Hne. by rewrite (proj2 (Z.eqb_neq _ _) Hne).
Qed.

Context {Laws : FatFsLaws F FIL}.

(** The file layer changes memory in the buffer of a read only. *)
Definition disk_op (cmd : Z) : nat -> Z -> Z -> Z -> ST (fsys F FIL) Z := if cmd =? HTIF_CMD_READ then file_pread else file_pwrite.

Lemma lseek_mem i ofs (fs fs' : fsys F FIL) n : do_lseek i ofs fs = Ret n fs' -> mem fs' = mem fs.
Proof.
  unfold do_lseek, bind, get_file, gets. destruct (files fs !! i); [|done]. destruct (f_lseek _ _ _) as [[rt fd'] f'].
  by intros [= _ <-].
Qed.

Lemma read_mem i buf size (fs fs' : fsys F FIL) n : 0 <= size < 2 ^ 32 -> do_read i buf size fs = Ret n fs' ->
  0 <= n <= size /\ exists data, mem fs' = write_bytes (mem fs) buf data /\ Z.of_nat (length data) <= size.
Proof.
  intros Hsz. unfold do_read, bind, get_file, gets. destruct (files fs !! i) as [f|]; [|done].
  rewrite wrapu_small by (unfold inu; lia). pose proof (f_read_bound (fd f) size (fat fs) ltac:(lia)) as B.
  destruct (f_read _ _ _) as [[[err [data br]] fd'] f']. destruct B as (B1 & B2 & B3).
  unfold put_file, modify, on_mem, zoom. fsys_simpl. destruct (decide _); [|done]. intros [= <- <-].
  split; [done|]. by exists data.
Qed.

Lemma write_mem i buf size (fs fs' : fsys F FIL) n : 0 <= size < 2 ^ 32 -> do_write i buf size fs = Ret n fs' ->
  0 <= n <= size /\ mem fs' = mem fs.
Proof.
  intros Hsz. unfold do_write, bind, get_file, gets. destruct (files fs !! i) as [f|]; [|done].
  rewrite wrapu_small by (unfold inu; lia). destruct (read_bytes _ _ _) as [data|] eqn:Er; [|done].
  pose proof (f_write_bound (fd f) data (fat fs)) as B. apply read_bytes_length in Er.
  destruct (f_write _ _ _) as [[[err bw] fd'] f']. intros [= <- <-]. split; [lia|done].
Qed.

Lemma disk_op_mem cmd i addr size ofs (fs fs' : fsys F FIL) n :
  bytes_ok (mem fs) -> io_buffer (mem fs) addr size -> disk_op cmd i addr size ofs fs = Ret n fs' ->
  0 <= n <= size /\ exists data, mem fs' = write_bytes (mem fs) addr data /\ Z.of_nat (length data) <= size.
Proof.
  intros Hb Hi. pose proof Hi as (_ & Hsz & _). unfold disk_op. destruct (cmd =? HTIF_CMD_READ).
  - unfold file_pread. unfold bind at 1. rewrite on_mem_populate by done. unfold spinlock_lock_irqsave, disable_irqsave, spinlock_lock, bind, gets, modify, ret.
    fsys_simpl. destruct (file_lock fs =? 0); [|done].
    match goal with |- context [do_lseek i ofs ?x] => destruct (do_lseek i ofs x) as [rt fs1| | |] eqn:E1; try done end.
    apply lseek_mem in E1. destruct (rt =? 0); [|done].
    destruct (do_read i addr size fs1) as [br fs2| | |] eqn:E2; try done. apply read_mem in E2 as (B & data & Em & L); [|done].
    intros [= <- <-]. split; [done|]. exists data. fsys_simpl. rewrite Em, E1. done.
  - unfold file_pwrite. unfold bind at 1. rewrite on_mem_populate by done. unfold spinlock_lock_irqsave, disable_irqsave, spinlock_lock, bind, gets, modify, ret.
    fsys_simpl. destruct (file_lock fs =? 0); [|done].
    match goal with |- context [do_lseek i ofs ?x] => destruct (do_lseek i ofs x) as [rt fs1| | |] eqn:E1; try done end.
    apply lseek_mem in E1.
    destruct (do_write i addr size fs1) as [bw fs2| | |] eqn:E2; try done. apply write_mem in E2 as (B & Em); [|done].
    intros [= <- <-]. split; [done|]. exists []. fsys_simpl. rewrite Em, E1. cbn. split; [done|lia].
Qed.

(** A disk request: its buffer is memory, apart from the messages and from the request. *)
Definition disk_buffer (s : state) (req addr size : Z) (l : list Z) : Prop :=
  bytes_ok (pm s) /\ io_buffer (pm s) addr size /\ Forall (fun b => apart b 32 addr (Z.to_nat size)) (req :: l).

Lemma disk_request_spec q h s a cmd req addr ofs size tag i n fs' :
  qrep q h s -> separated (a :: requests q ++ responses q) -> request_ok s a 1 cmd req ->
  cmd = HTIF_CMD_READ \/ cmd = HTIF_CMD_WRITE -> disk_request_at (pm s) req addr ofs size tag ->
  disk_buffer s req addr size (a :: requests q ++ responses q) ->
  ramdisk s = Some i -> disk_op cmd i addr size ofs (fsx s) = Ret n fs' ->
  (n = size -> exists m' h', mcall_dev_req im fuel stack a s = Ret 0 (upd m' h' (mip s ||| MIP_SSIP) (set_fsx fs' s)) /\
     qmem (Queues (requests q) (responses q ++ [a])) h' m' /\ kept h h' /\
     frame (a :: requests q ++ responses q) (mem fs') m' /\ word m' (a + 16) tag) /\
  (n <> size -> exists msg, mcall_dev_req im fuel stack a s = Panic msg (set_fsx fs' s)).
Proof.
  intros Q Hs Hr Hc D (Hb & Hi & Hap) Hrd Eop. pose proof Hr as (Ha & _).
  destruct (disk_op_mem cmd i addr size ofs _ _ _ Hb Hi Eop) as (Bn & data & Em & Ld). pose proof Hi as (Hi0 & Hi1 & Hi2 & _).
  apply Forall_cons in Hap as [Hap0 Hap].
  assert (Hf : fits addr (length data)) by (unfold fits; lia).
  assert (Ew : forall k v, 0 <= k < 4 -> word (pm s) (req + 8 * k) v -> word (mem fs') (req + 8 * k) v).
  { intros k v Hk W. rewrite Em. apply word_write_bytes; [exact W|done|]. unfold apart in *. lia. }
  assert (Hm : forall b, b ∈ a :: requests q ++ responses q -> read_bytes (mem fs') b 32 = read_bytes (pm s) b 32).
  { intros b Hin. rewrite Em. rewrite Forall_forall in Hap. specialize (Hap b Hin).
    assert (msg_at (pm s) b) as (_ & M1 & M2 & _).
    { apply elem_of_cons in Hin as [->|Hin]; [done|]. pose proof (q_msgs _ _ _ Q) as Ms. rewrite Forall_forall in Ms. by apply Ms. }
    apply read_write_apart; [unfold fits; lia|done|unfold apart in *; lia]. }
  pose proof D as (D1 & D2 & D3 & D4).
  rewrite (dev_req_fields s a 1 cmd req Hr). change (1 =? 0) with false. change (1 =? 1) with true. cbv iota.
  assert (Run : forall op err, op i addr size ofs (fsx s) = Ret n fs' ->
    (n = size -> exists m' h', (disk_transfer op err a req ;; ret 0) s = Ret 0 (upd m' h' (mip s ||| MIP_SSIP) (set_fsx fs' s)) /\
     qmem (Queues (requests q) (responses q ++ [a])) h' m' /\ kept h h' /\
     frame (a :: requests q ++ responses q) (mem fs') m' /\ word m' (a + 16) tag) /\
    (n <> size -> exists msg, (disk_transfer op err a req ;; ret 0) s = Panic msg (set_fsx fs' s))).
  { intros op err Eo. destruct (disk_transfer_at op err q h s a req addr ofs size tag i n fs' Q Hs Ha D Hrd Eo) as [R1 R2];
      [unfold inu; lia|done|by apply (Ew 2); [lia|]|by apply (Ew 3); [lia|]|]. unfold bind. split.
    - intros En. destruct (R1 En) as (m' & h' & E & R). exists m', h'. by rewrite E.
    - intros Ne. exists err. by rewrite (R2 Ne). }
  destruct Hc as [-> | ->].
  - change (HTIF_CMD_READ =? HTIF_CMD_IDENTIFY) with false. change (HTIF_CMD_READ =? HTIF_CMD_READ) with true. cbv iota. by apply Run.
  - change (HTIF_CMD_WRITE =? HTIF_CMD_IDENTIFY) with false. change (HTIF_CMD_WRITE =? HTIF_CMD_READ) with false.
    change (HTIF_CMD_WRITE =? HTIF_CMD_WRITE) with true. cbv iota. by apply Run.
Qed.

(** ** Every step keeps the answers signalled *)





Lemma ssip_set p : Z.testbit (p ||| MIP_SSIP) 1 = true.
Proof. rewrite Z.lor_spec. by rewrite orb_true_r. Qed.







Lemma id_target_weaken m data n k l : (k <= n)%nat -> id_target m data n l -> id_target m data k l.
Proof.
  intros Hk (T1 & T2 & T3). split_and!; [done| |].
  - replace n with (k + (n - k))%nat in T2 by lia. by apply mapped_app in T2 as [T2 _].
  - eapply Forall_impl; [exact T3|]. unfold apart. intros b. lia.
Qed.

Lemma id_text_length data name : (length (id_text data name) <= length name)%nat.
Proof. unfold id_text. case_match; cbn; lia. Qed.




(** ** Delivery *)

(** Collect answers until there is none, at most [k] of them. *)
Fixpoint collect (k : nat) : ST state (list Z) :=
  match k with
  | O => ret []
  | S k' => let! m := mcall_dev_resp in
            if m =? 0 then ret [] else let! l := collect k' in ret (m :: l)
  end.

Lemma collect_at k q h s :
  qrep q h s -> (length (responses q) < k)%nat ->
  exists s' h', collect k s = Ret (responses q) s' /\ qrep (Queues (requests q) []) h' s' /\ kept h h' /\
    (responses q <> [] -> Z.testbit (mip s') 1 = negb (ipi_pending h =? 0)).
Proof.
  revert q h s. induction k as [|k IH]; intros q h s Q Hk; [lia|]. cbn [collect]. unfold bind at 1.
  destruct (responses q) as [|a rs] eqn:Er.
  { rewrite (dev_resp_empty h q s Q Er). exists s, h. split; [done|]. split; [|done].
    destruct q as [rq rs]. cbn in *. by subst. }
  destruct (dev_resp_at q h s a rs Q Er) as (h1 & E1 & Q1 & K1). rewrite E1.
  pose proof (q_msgs _ _ _ Q) as Ms. rewrite Er, Forall_app, Forall_cons in Ms.
  destruct Ms as (_ & (_ & A0 & _) & _). rewrite (proj2 (Z.eqb_neq a 0)) by lia.
  set (s1 := upd (pm s) h1 (resp_mip h (negb (bool_decide (rs = []))) (mip s)) s).
  assert (qrep (Queues (requests q) rs) h1 s1) as Q1' by by apply qrep_upd.
  destruct (IH _ h1 s1 Q1') as (s2 & h2 & E2 & Q2 & K2 & P2); [cbn in *; lia|]. cbn [responses requests] in *.
  unfold bind. rewrite E2. exists s2, h2. split; [done|]. split; [done|]. split; [by eapply kept_trans|].
  intros _. destruct K1 as [_ K1]. rewrite <- K1. destruct rs as [|b rs]; [|by apply P2].
  destruct k as [|k]; [cbn in Hk; lia|]. cbn [collect] in E2. unfold bind in E2.
  rewrite (dev_resp_empty h1 _ s1 Q1') in E2 by done. injection E2 as <-.
  unfold s1. cbn [mip upd set_mip]. unfold resp_mip. rewrite bool_decide_true, K1 by done. cbn [negb].
  destruct (ipi_pending h =? 0); cbn [negb]; [|apply ssip_set]. autorewrite with testbit. by rewrite !andb_false_r.
Qed.
End Queues.

(** ** Claims *)
Section QueueClaims.
Context {U F FIL : Type} `{UartLaws U} `{FatFsLaws F FIL}.
Variable im : image.
Variable fuel : nat.
Variable stack : list Z.
Implicit Types s : sys U F FIL.

(** The message [a] is answered with [resp]: it joins the answers as the last one, and of
    the memory [m] only queued messages changed. *)
Definition answered s (q : queues) (h : hls_t) (a resp : Z) (m : memory) s' : Prop :=
  (exists h', qrep im (Queues (requests q) (responses q ++ [a])) h' s' /\ kept h h') /\
  word (pm s') (a + 16) resp /\ Z.testbit (mip s') 1 = true /\ frame (a :: requests q ++ responses q) m (pm s').

(** C26. The device queues implement their abstract specification, a collection of waiting
    console reads and a first-in first-out list of answers, in the linked messages of
    the supervisor's memory. Every well-formed request of a supported command returns 0.
    A console write sends its byte and is answered with it; a console read joins the
    waiting ones; a disk read or write whose transfer is complete is answered with its
    tag (an incomplete transfer panics), a transfer being the file layer's; an identify
    request stores the name of the device, that of the disk giving the size of its file,
    and is answered with 1. Collecting returns the oldest answer, or null when there is
    none, and unlinks it. The console interrupt takes one of the waiting reads and answers
    it with the oldest received character. Memory outside the messages is untouched, but
    for a name and the buffer of a disk read. *)
Theorem device_queue_refinement s (q : queues) (h : hls_t) :
  qrep im q h s -> uart_open (uart s) -> Z.of_nat (length (requests q)) + 1 < 2 ^ 64 -> (64 <= length stack)%nat ->
  (forall a data, separated (a :: requests q ++ responses q) -> request_ok im s a 0 HTIF_CMD_WRITE data ->
     returns (mcall_dev_req im fuel stack a) s (fun r s' => r = 0 /\
       answered s q h a (0x100 ||| u8 data) (pm s) s' /\ advanced [u8 data] (uart s) (uart s'))) /\
  (forall a data, separated (a :: requests q ++ responses q) -> request_ok im s a 0 HTIF_CMD_READ data ->
     returns (mcall_dev_req im fuel stack a) s (fun r s' => r = 0 /\ io_irq s' = 1 /\
       (exists q' h', qrep im q' h' s' /\ kept h h' /\ requests q' ≡ₚ a :: requests q /\ responses q' = responses q) /\
       frame (a :: requests q ++ responses q) (pm s) (pm s') /\ uart s' = uart s)) /\
  (forall a dev data, separated (a :: requests q ++ responses q) ->
     request_ok im s a dev HTIF_CMD_IDENTIFY data -> dev <> 1 ->
     id_target (pm s) data (S (length (id_text data (identity dev)))) (a :: requests q ++ responses q) ->
     returns (mcall_dev_req im fuel stack a) s (fun r s' => r = 0 /\
       (exists h', qrep im (Queues (requests q) (responses q ++ [a])) h' s' /\ kept h h') /\
       word (pm s') (a + 16) 1 /\ cstring (pm s') (data / 256) (id_text data (identity dev)))) /\
  (forall a data rt fsize fat1, separated (a :: requests q ++ responses q) -> request_ok im s a 1 HTIF_CMD_IDENTIFY data ->
     f_stat ramdisk_fn (fat (fsx s)) = (rt, fsize, fat1) -> id_target (pm s) data 65 (a :: requests q ++ responses q) ->
     let fs1 := set_fat fat1 (fsx s) in
     (rt <> 0 -> returns (mcall_dev_req im fuel stack a) s (fun r s' => r = 0 /\ ramdisk s' = ramdisk s /\
       (exists h', qrep im (Queues (requests q) (responses q ++ [a])) h' s' /\ kept h h') /\
       word (pm s') (a + 16) 1 /\ cstring (pm s') (data / 256) [])) /\
     (rt = 0 -> forall i fs2, file_open ramdisk_fn O_RDWR fs1 = Ret i fs2 ->
       returns (mcall_dev_req im fuel stack a) s (fun r s' => r = 0 /\ ramdisk s' = Some i /\
       (exists h', qrep im (Queues (requests q) (responses q ++ [a])) h' s' /\ kept h h') /\
       word (pm s') (a + 16) 1 /\ cstring (pm s') (data / 256) (id_text data (disk_text fsize))))) /\
  (forall a cmd req addr ofs size tag i n fs', separated (a :: requests q ++ responses q) -> request_ok im s a 1 cmd req ->
     cmd = HTIF_CMD_READ \/ cmd = HTIF_CMD_WRITE -> disk_request_at (pm s) req addr ofs size tag ->
     disk_buffer s req addr size (a :: requests q ++ responses q) -> ramdisk s = Some i ->
     (if cmd =? HTIF_CMD_READ then file_pread else file_pwrite) i addr size ofs (fsx s) = Ret n fs' ->
     (n = size -> returns (mcall_dev_req im fuel stack a) s (fun r s' => r = 0 /\
       answered s q h a tag (mem fs') s' /\ fsx s' = set_mem (pm s') fs')) /\
     (n <> size -> exists msg, mcall_dev_req im fuel stack a s = Panic msg (set_fsx fs' s))) /\
  returns mcall_dev_resp s (fun r s' => r = default 0 (head (responses q)) /\
    (exists h', qrep im (Queues (requests q) (tail (responses q))) h' s' /\ kept h h') /\ pm s' = pm s) /\
  (forall c rest, requests q <> [] -> received (uart s) = c :: rest ->
     returns (io_irq_service im) s (fun r s' => r = 0 /\ exists a rq, requests q ≡ₚ a :: rq /\
       (exists h', qrep im (Queues rq (responses q ++ [a])) h' s' /\ kept h h') /\
       frame (requests q ++ responses q) (pm s) (pm s') /\ word (pm s') (a + 16) (0x100 ||| c) /\
       Z.testbit (mip s') 1 = true /\ exists more, received (uart s') = rest ++ more)).
Proof.
  intros Q Hu Hl Hst. split_and!.
  - intros a data Hs Hr. destruct (dev_write_at im fuel stack q h s a data Q Hs Hr Hu)
      as (m' & h' & u' & E & Q' & K & Fr & W & A). eapply returns_intro; [exact E|]. split; [done|]. split; [|exact A].
    unfold answered. split_and!; [exists h'; split; [by apply qrep_upd|done]|done|apply ssip_set|done].
  - intros a data Hs Hr. destruct (dev_read_at im fuel stack q h s a data Q Hs Hr Hl) as (m' & h' & E & Q' & K & Fr).
    eapply returns_intro; [exact E|]. split_and!; [done|done| |done|done].
    exists (Queues (a :: requests q) (responses q)), h'. split_and!; [by apply qrep_upd|done..].
  - intros a dev data Hs Hr Hd Ht.
    destruct (dev_identify_at im fuel stack q h s a dev data Q Hs Hr Hd Ht) as (m' & h' & E & Q' & K & W & C).
    eapply returns_intro; [exact E|]. split_and!; [done|exists h'; split; [by apply qrep_upd|done]|done|exact C].
  - intros a data rt fsize fat1 Hs Hr Es Ht fs1.
    destruct (disk_identify_at im fuel stack q h s a data rt fsize fat1 Q Hs Hr Hst Es) as [R1 R2]. fold fs1 in R1, R2.
    pose proof (id_text_length data []) as L0. pose proof (id_text_length data (disk_text fsize)) as L1.
    destruct (disk_text_facts fsize) as (_ & _ & L2). cbn [length] in L0. split.
    + intros Hrt. destruct (R1 Hrt) as (m' & h' & E & Q' & K & W & C); [eapply id_target_weaken; [|exact Ht]; lia|].
      assert (id_text data [] = []) as En by (unfold id_text; by case_match). rewrite En in C.
      eapply returns_intro; [exact E|]. split_and!; [done|done|exists h'; split; [by apply qrep_upd|done]|done|exact C].
    + intros Hrt i fs2 Eo. destruct (R2 Hrt i fs2 Eo) as (m' & h' & E & Q' & K & W & C); [eapply id_target_weaken; [|exact Ht]; lia|].
      eapply returns_intro; [exact E|]. split_and!; [done|done|exists h'; split; [by apply qrep_upd|done]|done|exact C].
  - intros a cmd req addr ofs size tag i n fs' Hs Hr Hc D B Hrd Eop.
    destruct (disk_request_spec im fuel stack q h s a cmd req addr ofs size tag i n fs' Q Hs Hr Hc D B Hrd Eop) as [R1 R2].
    split; [|exact R2]. intros En. destruct (R1 En) as (m' & h' & E & Q' & K & Fr & W). eapply returns_intro; [exact E|].
    split_and!; [done| |by destruct fs']. unfold answered. split_and!; [exists h'; split; [by apply qrep_upd|done]|done|apply ssip_set|done].
  - destruct (responses q) as [|a rs] eqn:Er.
    + eapply returns_intro; [by eapply dev_resp_empty|]. split_and!; [done| |done]. exists h.
      destruct q as [rq rs]. cbn in *. subst. by split.
    + destruct (dev_resp_at im q h s a rs Q Er) as (h' & E & Q' & K). eapply returns_intro; [exact E|].
      split_and!; [done|exists h'; split; [by apply qrep_upd|done]|done].
  - intros c rest Hne Ex. destruct (requests q) as [|a rq] eqn:Er; [done|].
    destruct (io_irq_at im q h s a rq c rest Q Er Hu Ex) as (m' & h' & u' & E & Q' & K & Fr & W & _ & _ & R); [rewrite Er; lia|].
    eapply returns_intro; [exact E|]. split; [done|]. exists a, rq. rewrite <- Er.
    split_and!; [by rewrite Er|exists h'; split; [by apply qrep_upd|done]|done|done|apply ssip_set|done].
Qed.

(** The waiting console reads are served last-in first-out, although the source calls
    their list a queue: a read is put in front of the others, and the interrupt answers
    the one in front. *)
Theorem console_reads_lifo s (q : queues) (h : hls_t) a rq c rest :
  qrep im q h s -> uart_open (uart s) -> Z.of_nat (length (requests q)) < 2 ^ 64 -> requests q = a :: rq ->
  received (uart s) = c :: rest ->
  returns (io_irq_service im) s (fun r s' => exists h', qrep im (Queues rq (responses q ++ [a])) h' s').
Proof.
  intros Q Hu Hl Er Ex. destruct (io_irq_at im q h s a rq c rest Q Er Hu Ex Hl) as (m' & h' & u' & E & Q' & _).
  eapply returns_intro; [exact E|]. exists h'. by apply qrep_upd.
Qed.


(** Every answer is delivered: a supervisor that collects until it gets null
    receives all waiting answers, oldest first, each once; afterwards the software
    interrupt is pending only if an interprocessor interrupt is. *)
Theorem answers_delivered_in_order s (q : queues) (h : hls_t) (k : nat) :
  qrep im q h s -> (length (responses q) < k)%nat ->
  exists s' h', collect k s = Ret (responses q) s' /\ qrep im (Queues (requests q) []) h' s' /\ kept h h' /\
    (responses q <> [] -> Z.testbit (mip s') 1 = negb (ipi_pending h =? 0)).
Proof. apply collect_at. Qed.
End QueueClaims.

(** ** A concrete hart *)

(** Three messages at 0x1000 (a console write of 0x41), 0x1040 (a console read, queued)
    and 0x1080 (an identify request for the buffer at 0x1100), and a received
    character. *)
Definition demo_image : image := Image 0x10000 1 0x1000 0 0x800 [].
Definition demo_mem : memory :=
  write_word (write_word (write_word (write_word
    (write_bytes ∅ 0x1000 (replicate 512 0)) 0x1008 1) 0x1010 0x41) 0x1088 0xFF) 0x1090 (0x1100 * 256 + 0xFF).
Definition demo_hls : hls_t := Hls 0x1040 1 0 0 0 0.
Definition demo_cpu : mach := Mach (replicate 32 0) (replicate 32 0) 0x16 0x2000 9 0 0 0 ∅.
Definition demo_sys : sys uart16550 (list Z) Z :=
  Sys demo_cpu 0 0 0 0 0 0 {[ 0 := demo_hls ]} (Uart16550 3 1 27 0 5 [] [0x62] [])
    (Fsys (replicate 32 (File 0 0 0)) 0 0 1 [] demo_mem) None.

Lemma demo_qrep : qrep demo_image (Queues [0x1040] []) demo_hls demo_sys.
Proof.
  constructor; try reflexivity.
  - vm_decide.
  - vm_decide.
  - split; [reflexivity|]. exists 0. split; [vm_decide|reflexivity].
  - constructor; [|constructor]. split_and!; [vm_decide|vm_decide|reflexivity].
Qed.

(** The same hart with an open disk of five bytes and, at 0x10C0, a request to read four
    of them: the request block is at 0x1140, the buffer at 0x1180. *)
Definition demo_disk : sys uart16550 (list Z) Z :=
  set_ramdisk (Some 0%nat) (set_fsx (Fsys (File 0 0 2 :: replicate 31 (File 0 0 0)) 0 0 1 [5; 6; 7; 8; 9]
    (write_word (write_word (write_word (write_word (write_word demo_mem 0x10C0 1) 0x10D0 0x1140) 0x1140 0x1180) 0x1150 4) 0x1158 7)) demo_sys).

Lemma demo_disk_qrep : qrep demo_image (Queues [0x1040] []) demo_hls demo_disk.
Proof.
  constructor; try reflexivity.
  - vm_decide.
  - vm_decide.
  - split; [reflexivity|]. exists 0. split; [vm_decide|reflexivity].
  - constructor; [|constructor]. split_and!; [vm_decide|vm_decide|reflexivity].
Qed.

Lemma demo_disk_buffer : disk_buffer demo_disk 0x1140 0x1180 4 [0x10C0; 0x1040].
Proof.
  split; [|split].
  - unfold pm, demo_disk, demo_sys, demo_mem. sys_simpl. unfold write_word.
    repeat (apply bytes_ok_write; [|vm_decide]). apply map_Forall_empty.
  - split_and!; try lia; [|vm_decide]. intros a Ha Hr. change (0x1180 / 4096 * 4096) with 0x1000 in Hr.
    apply Z.mod_divide in Ha as [c ->]; [|lia]. replace (c * 4096) with 0x1000 by lia. vm_decide.
  - vm_decide.
Qed.

Lemma device_queue_refinement_witness :
  returns (mcall_dev_req demo_image 0 (replicate 64 0) 0x1000) demo_sys (fun r s' => r = 0 /\ u_line (uart s') = [0x41]) /\
  returns (mcall_dev_req demo_image 0 (replicate 64 0) 0x1080) demo_sys (fun r s' => r = 0 /\ cstring (pm s') 0x1100 (chars "bcd")) /\
  returns (io_irq_service demo_image) demo_sys (fun r s' => r = 0) /\
  returns (mcall_dev_req demo_image 0 (replicate 64 0) 0x10C0) demo_disk (fun r s' => r = 0 /\ word (pm s') 0x10D0 7).
Proof.
  destruct (device_queue_refinement demo_image 0 (replicate 64 0) demo_sys (Queues [0x1040] []) demo_hls) as (P1 & _ & P3 & _ & _ & _ & P7).
  - exact demo_qrep.
  - reflexivity.
  - reflexivity.
  - rewrite length_replicate. lia.
  - split_and!.
    + eapply returns_mono; [apply (P1 0x1000 0x41); vm_decide|].
      intros r s' (E & _ & (_ & A & _)). split; [exact E|exact A].
    + eapply returns_mono; [apply (P3 0x1080 0 (0x1100 * 256 + 0xFF)); vm_decide || lia|].
      intros r s' (E & _ & _ & C). split; [exact E|exact C].
    + eapply returns_mono; [apply (P7 0x62 []); [discriminate|reflexivity]|]. intros r s' (E & _). exact E.
    + destruct (device_queue_refinement demo_image 0 (replicate 64 0) demo_disk (Queues [0x1040] []) demo_hls) as (_ & _ & _ & _ & P5 & _);
        [exact demo_disk_qrep|reflexivity|reflexivity|rewrite length_replicate; lia|].
      eapply returns_mono; [refine (proj1 (P5 0x10C0 HTIF_CMD_READ 0x1140 0x1180 0 4 7 0%nat 4 _ _ _ _ _ _ _ _) _)|].
      * vm_decide.
      * vm_decide.
      * by left.
      * repeat split; vm_decide.
      * exact demo_disk_buffer.
      * reflexivity.
      * vm_compute. reflexivity.
      * reflexivity.
      * intros r s' (E & (_ & W & _) & _). split; [exact E|exact W].
Defined.



Definition demo_answered : sys uart16550 (list Z) Z :=
  set_mip 2 (set_hlss {[ 0 := Hls 0 0 0x1040 0x1040 0 0 ]} demo_sys).

Lemma answers_delivered_in_order_witness :
  exists s', collect 5 demo_answered = Ret [0x1040] s' /\ Z.testbit (mip s') 1 = false.
Proof.
  destruct (answers_delivered_in_order demo_image demo_answered (Queues [] [0x1040]) (Hls 0 0 0x1040 0x1040 0 0) 5)
    as (s' & h' & E & _ & _ & P).
  - constructor; try reflexivity; try vm_decide; try (by constructor).
    split; [reflexivity|]. exists 0. split; [vm_decide|reflexivity].
  - cbn. lia.
  - exists s'. split; [exact E|]. by apply P.
Defined.

(** ** The calling convention *)
Section Convention.
Context {U F FIL : Type} `{UartDevice U} `{FatFs F FIL}.
Variable im : image.
Variable fuel : nat.
Variable stack : list Z.
Abbreviation state := (sys U F FIL).

(** [c] leaves the trap frame and the trap registers alone. *)
Definition keeps_cpu {A} (c : ST state A) : Prop := forall s a s', c s = Ret a s' -> cpu s' = cpu s.

Lemma keeps_ret {A} (a : A) : keeps_cpu (ret a).
Proof. by intros s b s' [= _ ->]. Qed.
Lemma keeps_gets {A} (f : state -> A) : keeps_cpu (gets f).
Proof. by intros s b s' [= _ ->]. Qed.
Lemma keeps_panic {A} msg : keeps_cpu (@panic state A msg).
Proof. by intros s b s'. Qed.
Lemma keeps_undef {A} : keeps_cpu (@undef state A).
Proof. by intros s b s'. Qed.
Lemma keeps_hang {A} : keeps_cpu (@hang state A).
Proof. by intros s b s'. Qed.
Lemma keeps_modify (f : state -> state) : (forall s, cpu (f s) = cpu s) -> keeps_cpu (modify f).
Proof. intros Hf s b s' [= _ <-]. apply Hf. Qed.
Lemma keeps_bind {A B} (c : ST state A) (k : A -> ST state B) :
  keeps_cpu c -> (forall a, keeps_cpu (k a)) -> keeps_cpu (bind c k).
Proof.
  intros Hc Hk s b s'. unfold bind. destruct (c s) as [a s1| | |] eqn:E; try done. intros E'.
  rewrite (Hk a s1 b s' E'). by eapply Hc.
Qed.
Lemma keeps_on_uart {A} (c : ST U A) : keeps_cpu (on_uart c).
Proof. intros s a s'. unfold on_uart, zoom. destruct (c (uart s)); try done. by intros [= _ <-]. Qed.
Lemma keeps_on_fs {A} (c : ST (fsys F FIL) A) : keeps_cpu (on_fs c).
Proof. intros s a s'. unfold on_fs, zoom. destruct (c (fsx s)); try done. by intros [= _ <-]. Qed.
Lemma keeps_get_hls i : keeps_cpu (get_hls i).
Proof. intros s a s'. unfold get_hls. destruct (hlss s !! i); try done. by intros [= _ <-]. Qed.
Lemma keeps_HLS : keeps_cpu HLS.
Proof. intros s. apply keeps_get_hls. Qed.
Lemma keeps_upd_HLS f : keeps_cpu (upd_HLS f).
Proof.
  intros s a s'. unfold upd_HLS, bind, get_hls. destruct (hlss s !! self s); try done. by intros [= _ <-].
Qed.
Lemma keeps_other_page i : keeps_cpu (other_page i).
Proof. intros s a s'. unfold other_page, get_hls, bind. destruct (hlss s !! self s); try done. by intros [= _ <-]. Qed.
Lemma keeps_disk_name n : keeps_cpu (disk_name fuel stack n).
Proof. intros s a s'. unfold disk_name. destruct (snprintf _ _ _ _); try done. by intros [= _ <-]. Qed.

Ltac keeps_walk :=
  repeat first
    [ apply keeps_ret | apply keeps_gets | apply keeps_panic | apply keeps_undef | apply keeps_hang
    | apply keeps_on_uart | apply keeps_on_fs | apply keeps_HLS | apply keeps_upd_HLS | apply keeps_get_hls
    | apply keeps_other_page | apply keeps_disk_name
    | (apply keeps_modify; intro; reflexivity) | apply keeps_bind; [|intro]
    | match goal with
      | |- keeps_cpu (if ?b then _ else _) => destruct b
      | |- keeps_cpu (match ?x with _ => _ end) => destruct x
      end ].

Lemma keeps_respond m r : keeps_cpu (mcall_respond m r).
Proof. unfold mcall_respond, set_private, enqueue_response, set_data, on_memory, set_csr_mip. keeps_walk. Qed.

Lemma keeps_dev_req a : keeps_cpu (mcall_dev_req im fuel stack a).
Proof.
  unfold mcall_dev_req, not_from_machine, get_dev, get_cmd, get_data, set_private, disk_identify,
    disk_transfer, handle_identify, on_memory.
  repeat first [apply keeps_respond | progress keeps_walk].
Qed.

(** The state after a call that returned [r] with the rest of the system as in [s1]. *)
Definition call_done (r : Z) (s1 : state) : state :=
  set_cpu (set_mepc (u64 (mepc (cpu s1) + 4)) (set_regs (<[10%nat := r]> (regs (cpu s1))) (cpu s1))) s1.

Lemma mcall_trap_switch s n a :
  regs (cpu s) !!! 17%nat = n -> regs (cpu s) !!! 10%nat = a ->
  mcall_trap im fuel stack s =
  match mcall_switch im fuel stack n a s with
  | Ret r s1 => Ret 0 (call_done r s1)
  | Panic m s1 => Panic m s1
  | Undef => Undef
  | Hang s1 => Hang s1
  end.
Proof.
  intros <- <-. unfold mcall_trap, bind, gets. by destruct (mcall_switch _ _ _ _ _ s).
Qed.

End Convention.

(** The commands the devices support. *)
Definition supported (dev cmd : Z) : bool :=
  (cmd =? HTIF_CMD_IDENTIFY) || ((dev <=? 1) && ((cmd =? HTIF_CMD_READ) || (cmd =? HTIF_CMD_WRITE))).

Section ConventionClaims.
Context {U F FIL : Type} `{UartLaws U} `{FatFs F FIL}.
Variable im : image.
Variable fuel : nat.
Variable stack : list Z.
Implicit Types s : sys U F FIL.

Lemma dev_req_unsupported s a dev cmd data :
  request_ok im s a dev cmd data -> supported dev cmd = false -> exists msg, mcall_dev_req im fuel stack a s = Panic msg s.
Proof.
  intros Hr Hs. rewrite (dev_req_fields im fuel stack s a dev cmd data Hr). unfold supported in Hs.
  pose proof Hr as (_ & _ & (_ & _ & Hd & _) & _). unfold inu in Hd. apply orb_false_iff in Hs as [S1 S2]. rewrite S1.
  destruct (Z.eqb_spec dev 0) as [->|]; [|destruct (Z.eqb_spec dev 1) as [->|]].
  - change (0 <=? 1) with true in S2. cbn [andb] in S2. apply orb_false_iff in S2 as [-> ->]. by eexists.
  - change (1 <=? 1) with true in S2. cbn [andb] in S2. apply orb_false_iff in S2 as [-> ->]. by eexists.
  - by eexists.
Qed.

Lemma dev_req_result s a dev cmd data r s1 :
  request_ok im s a dev cmd data -> mcall_dev_req im fuel stack a s = Ret r s1 -> r = 0.
Proof.
  intros Hr. rewrite (dev_req_fields im fuel stack s a dev cmd data Hr). unfold bind at 1.
  match goal with |- match ?c with _ => _ end = _ -> _ => destruct c end; try done. by intros [= <- _].
Qed.

Lemma clear_ipi_any s (h : hls_t) :
  hlss s !! self s = Some h ->
  mcall_clear_ipi s = Ret (u64 (ipi_pending h)) (set_hlss (<[self s := set_ipi_pending 0 h]> (hlss s))
    (if device_response_queue_head h =? 0 then set_mip (bitand_not 64 (mip s) MIP_SSIP) s else s)).
Proof.
  intros Eh. unfold mcall_clear_ipi. unfold bind at 1. rewrite (HLS_at h s Eh). unfold bind at 1.
  destruct (device_response_queue_head h =? 0); cbn [clear_csr_mip modify ret].
  - unfold clear_csr_mip, modify. unfold bind at 1. rewrite (HLS_at h) by exact Eh. unfold bind. by rewrite (upd_HLS_at _ h) by exact Eh.
  - unfold ret at 1. unfold bind at 1. rewrite (HLS_at h) by exact Eh. unfold bind. by rewrite (upd_HLS_at _ h) by exact Eh.
Qed.

(** C40. The convention of machine calls, call by call.  The result goes to a0, mepc
    advances by 4 and nothing else of the trap frame changes; beyond that: [hart_id]
    gives the hart's number; [console_putchar] sends the low byte of its argument and
    gives 0; a device request gives -EFAULT for a message outside the supervisor's memory,
    -EINVAL for a field out of range, panics on a command its device does not support and
    otherwise gives 0 when it returns; [receive_device_response] gives the oldest answer,
    or null, and unlinks it; [send_ipi] gives -1 for an unknown recipient and otherwise
    sets the recipient's pending flag, giving 0 if that was set and trapping fatally on
    the missing register if not; [clear_ipi] gives the pending flag and clears it, and
    SSIP with it if no answer waits; [set_timer] programs the timer and gives 0;
    [shutdown] does not return; any other number gives -ENOSYS. *)
Theorem mcall_trap_convention s (n a : Z) (h : hls_t) :
  regs (cpu s) !! 17%nat = Some n -> regs (cpu s) !! 10%nat = Some a -> hlss s !! self s = Some h ->
  let trap := mcall_trap im fuel stack s in
  (n = MCALL_HART_ID -> trap = Ret 0 (call_done (u64 (hart_id h)) s)) /\
  (n = MCALL_CONSOLE_PUTCHAR -> uart_open (uart s) ->
   exists u', trap = Ret 0 (call_done 0 (set_uart u' s)) /\ advanced [u8 a] (uart s) u') /\
  (n = MCALL_SEND_DEVICE_REQUEST ->
   (supervisor_paddr_valid im a MSG_SIZE = false -> EXTRACT_FIELD (mstatus (cpu s)) MSTATUS_PRV1 <> PRV_M ->
    trap = Ret 0 (call_done (2 ^ 64 - 14) s)) /\
   (supervisor_paddr_valid im a MSG_SIZE = true ->
    forall dev cmd data, word (pm s) a dev -> word (pm s) (a + 8) cmd -> word (pm s) (a + 16) data ->
    255 < dev \/ 255 < cmd \/ 2 ^ 48 <= data -> trap = Ret 0 (call_done (2 ^ 64 - 22) s)) /\
   (forall dev cmd data, request_ok im s a dev cmd data ->
    (supported dev cmd = false -> exists msg, trap = Panic msg s) /\
    (forall r s1, mcall_dev_req im fuel stack a s = Ret r s1 -> trap = Ret 0 (call_done 0 s1) /\ cpu s1 = cpu s))) /\
  (n = MCALL_RECEIVE_DEVICE_RESPONSE -> forall q, qrep im q h s ->
   (responses q = [] -> trap = Ret 0 (call_done 0 s)) /\
   (forall x rs, responses q = x :: rs -> exists h',
    trap = Ret 0 (call_done x (upd (pm s) h' (resp_mip h (negb (bool_decide (rs = []))) (mip s)) s)) /\
    qmem im (Queues (requests q) rs) h' (pm s) /\ kept h h')) /\
  (n = MCALL_SEND_IPI ->
   (num_harts im <= a -> trap = Ret 0 (call_done (2 ^ 64 - 1) s)) /\
   (a < num_harts im -> forall hp, let p := self s + (a - hart_id h) in hlss s !! p = Some hp ->
    let s1 := set_hlss (<[p := set_ipi_pending 1 hp]> (hlss s)) s in
    trap = if ipi_pending hp =? 0 then Panic "machine mode: unhandlable trap" s1 else Ret 0 (call_done 0 s1))) /\
  (n = MCALL_CLEAR_IPI ->
   trap = Ret 0 (call_done (u64 (ipi_pending h)) (set_hlss (<[self s := set_ipi_pending 0 h]> (hlss s))
     (if device_response_queue_head h =? 0 then set_mip (bitand_not 64 (mip s) MIP_SSIP) s else s)))) /\
  (n = MCALL_SHUTDOWN -> trap = Hang s) /\
  (n = MCALL_SET_TIMER ->
   trap = Ret 0 (call_done 0 (set_mie (mie s ||| MIP_MTIP)
     (set_mip (bitand_not 64 (bitand_not 64 (mip s) MIP_MTIP) MIP_STIP) (set_mtimecmp a s))))) /\
  (n < 0 \/ 8 <= n -> trap = Ret 0 (call_done (2 ^ 64 - 88) s)).
Proof.
  intros En%list_lookup_total_correct Ea%list_lookup_total_correct Eh trap.
  pose proof (mcall_trap_switch im fuel stack s n a En Ea) as Hd. fold trap in Hd. rewrite Hd. clear Hd trap. split_and!.
  - intros ->. change (mcall_switch im fuel stack MCALL_HART_ID a) with (@mcall_hart_id U F FIL).
    unfold mcall_hart_id, bind. by rewrite (HLS_at h s Eh).
  - intros -> Hu. change (mcall_switch im fuel stack MCALL_CONSOLE_PUTCHAR a) with (@mcall_console_putchar U F FIL _ a).
    destruct (on_uart_at (uart_send (u8 a)) s _ (uart_send_spec (uart s) (u8 a) Hu ltac:(apply wrapu_range; lia))) as ([] & u' & E & A).
    exists u'. unfold mcall_console_putchar, bind. by rewrite E.
  - intros ->. change (mcall_switch im fuel stack MCALL_SEND_DEVICE_REQUEST a) with (mcall_dev_req (U := U) im fuel stack a). split_and!.
    + intros Hv Hp. unfold mcall_dev_req, not_from_machine, bind at 1, bind at 1, gets, ret at 1. by rewrite Hv, (proj2 (Z.eqb_neq _ _) Hp).
    + intros Hv dev cmd data W1 W2 W3 Hb. destruct (not_from_machine_at s) as [b Eb]. unfold mcall_dev_req. unfold bind at 1. rewrite Eb, Hv.
      cbn [negb andb]. unfold bind at 1, get_dev. rewrite (on_memory_load _ _ _ W1).
      unfold bind at 1, get_cmd. rewrite (on_memory_load _ _ _ W2). unfold bind at 1, get_data. rewrite (on_memory_load _ _ _ W3).
      destruct (Z.ltb_spec 0xFF dev), (Z.ltb_spec 0xFF cmd), (Z.ltb_spec 0x0000FFFFFFFFFFFF data); try lia; done.
    + intros dev cmd data Hr. split.
      * intros Hs. destruct (dev_req_unsupported s a dev cmd data Hr Hs) as [msg ->]. by eexists.
      * intros r s1 E. rewrite E. rewrite (dev_req_result s a dev cmd data r s1 Hr E). split; [done|]. by eapply (keeps_dev_req im fuel stack a).
  - intros -> q Q. change (mcall_switch im fuel stack MCALL_RECEIVE_DEVICE_RESPONSE a) with (@mcall_dev_resp U F FIL). split.
    + intros Er. by rewrite (dev_resp_empty im h q s Q Er).
    + intros x rs Er. destruct (dev_resp_at im q h s x rs Q Er) as (h' & E & M & K). exists h'. by rewrite E.
  - intros ->. change (mcall_switch im fuel stack MCALL_SEND_IPI a) with (mcall_send_ipi (U := U) (F := F) (FIL := FIL) im a). unfold mcall_send_ipi. split.
    + intros Hr. by rewrite (proj2 (Z.leb_le _ _) Hr).
    + intros Hr hp Ep. cbv zeta in *. rewrite (proj2 (Z.leb_gt _ _)) by lia. unfold other_page, get_hls, bind, ret. rewrite Eh, Ep.
      unfold put_hls, modify. by destruct (ipi_pending hp =? 0).
  - intros ->. change (mcall_switch im fuel stack MCALL_CLEAR_IPI a) with (@mcall_clear_ipi U F FIL). by rewrite (clear_ipi_any s h Eh).
  - intros ->. done.
  - intros ->. done.
  - intros Hn. unfold mcall_switch, MCALL_HART_ID, MCALL_CONSOLE_PUTCHAR, MCALL_SEND_DEVICE_REQUEST, MCALL_RECEIVE_DEVICE_RESPONSE,
      MCALL_SEND_IPI, MCALL_CLEAR_IPI, MCALL_SHUTDOWN, MCALL_SET_TIMER.
    rewrite !(proj2 (Z.eqb_neq n _)) by lia. done.
Qed.
End ConventionClaims.

Definition demo_call (n a : Z) : sys uart16550 (list Z) Z :=
  set_cpu (set_regs (<[17%nat := n]> (<[10%nat := a]> (replicate 32 0))) demo_cpu) demo_sys.

Lemma mcall_trap_convention_witness :
  mcall_trap demo_image 0 [] (demo_call 0 7) = Ret 0 (call_done 0 (demo_call 0 7)) /\
  mcall_trap demo_image 0 [] (demo_call 2 0x800) = Ret 0 (call_done (2 ^ 64 - 14) (demo_call 2 0x800)) /\
  mcall_trap demo_image 0 [] (demo_call 4 1) = Ret 0 (call_done (2 ^ 64 - 1) (demo_call 4 1)) /\
  (exists s, mcall_trap demo_image 0 [] (demo_call 4 0) = Panic "machine mode: unhandlable trap" s) /\
  mcall_trap demo_image 0 [] (demo_call 9 7) = Ret 0 (call_done (2 ^ 64 - 88) (demo_call 9 7)).
Proof.
  split_and!.
  - destruct (mcall_trap_convention demo_image 0 [] (demo_call 0 7) 0 7 demo_hls) as (P & _); [reflexivity..|]. by apply P.
  - destruct (mcall_trap_convention demo_image 0 [] (demo_call 2 0x800) 2 0x800 demo_hls) as (_ & _ & P & _); [reflexivity..|].
    apply (proj1 (P eq_refl)); [reflexivity|]. vm_compute. discriminate.
  - destruct (mcall_trap_convention demo_image 0 [] (demo_call 4 1) 4 1 demo_hls) as (_ & _ & _ & _ & P & _); [reflexivity..|].
    apply (proj1 (P eq_refl)). cbn. lia.
  - destruct (mcall_trap_convention demo_image 0 [] (demo_call 4 0) 4 0 demo_hls) as (_ & _ & _ & _ & P & _); [reflexivity..|].
    pose proof (proj2 (P eq_refl) ltac:(cbn; lia) demo_hls eq_refl) as E. eexists. exact E.
  - destruct (mcall_trap_convention demo_image 0 [] (demo_call 9 7) 9 7 demo_hls) as (_ & _ & _ & _ & _ & _ & _ & _ & P); [reflexivity..|].
    apply P. lia.
Defined.

(** The footprint of an identify answer. A buffer address that is not 64-byte aligned
    or a name of more than 64 characters panics; otherwise exactly the name (or the
    empty string, when the low byte of the payload is not the identify command) and its
    terminator are written at payload / 256, at most 65 bytes. The address is any
    aligned address below 2^40: unlike the message itself it is not checked against
    the supervisor's memory. *)
Theorem handle_identify_footprint {U F FIL} `{UartDevice U} `{FatFs F FIL} (s : sys U F FIL)
    (payload : Z) (name : list Z) :
  0 <= payload < 2 ^ 48 -> Forall (inu 8) name ->
  let addr := payload / 256 in
  let text := if payload mod 256 =? HTIF_CMD_IDENTIFY then name else [] in
  (addr mod 64 <> 0 -> handle_identify payload name s = Panic "address for device ID not aligned!" s) /\
  (addr mod 64 = 0 -> (64 < length name)%nat -> handle_identify payload name s = Panic "device name too long!" s) /\
  (addr mod 64 = 0 -> (length name <= 64)%nat -> mapped (pm s) addr (S (length text)) ->
   handle_identify payload name s = Ret tt (with_mem (write_bytes (pm s) addr (text ++ [0])) s) /\
   (length (text ++ [0%Z]) <= 65)%nat).
Proof.
  intros Hp Hb addr text. unfold handle_identify. change HTIF_MAX_CMD with 256. change HTIF_MAX_ID with 64. fold addr.
  assert (0 <= addr < 2 ^ 40) as Ha by (unfold addr; split; [apply Z.div_pos|apply Z.div_lt_upper_bound]; lia).
  split_and!.
  - intros Hn. by rewrite (proj2 (Z.eqb_neq _ _) Hn).
  - intros -> Hl. cbn [Z.eqb negb]. by rewrite (proj2 (Z.ltb_lt _ _)) by lia.
  - intros -> Hl Hm. cbn [Z.eqb negb]. rewrite (proj2 (Z.ltb_ge _ _)) by lia.
    assert (length text <= length name)%nat by (unfold text; case_match; cbn; lia).
    split; [|rewrite length_app; cbn; lia].
    fold text. unfold on_memory, on_fs, on_mem, zoom. fold (pm s).
    rewrite put_string_at; [done|done|unfold fits; lia|]. unfold text. by case_match.
Qed.

Lemma handle_identify_footprint_witness :
  supervisor_paddr_valid demo_image 0xFC0 4 = false /\
  let s := with_mem (write_bytes (pm demo_sys) 0xFC0 (replicate 65 0)) demo_sys in
  handle_identify (0xFC0 * 256 + 0xFF) (replicate 64 0x41) s =
  Ret tt (with_mem (write_bytes (pm s) 0xFC0 (replicate 64 0x41 ++ [0])) s).
Proof.
  split; [reflexivity|]. intros s.
  destruct (handle_identify_footprint s (0xFC0 * 256 + 0xFF) (replicate 64 0x41)) as (_ & _ & P); [lia|vm_decide|].
  destruct P as [E _]; [reflexivity|rewrite length_replicate; lia|vm_decide|exact E].
Defined.
