(* ===== verification/VM.v ===== *)
(** * Virtual memory of the boot loader ([bbl/vm.c], [bbl/vm.h], start-up of [bbl/minit.c])

    The page allocator, page-table entries, the table walk, and the page tables the
    boot loader builds for the supervisor before it enters it.  The hardware's table
    walk is modelled after Rocket's [ptw.scala]; the main theorem says what it finds in
    the tables [supervisor_vm_init] leaves. *)

From Stdlib Require Import ZArith Lia Bool List String.
From stdpp Require Import base gmap list.
From S2P Require Import Prelude Machine Memory File.
Open Scope Z_scope.
Open Scope word_scope.

(** ** Constants ([bbl/encoding.h], [bbl/vm.h]) *)
Definition RISCV_PGSHIFT : Z := 12.
Definition RISCV_PGSIZE : Z := 4096.
Definition RISCV_PGLEVEL_BITS : Z := 9.
Definition VA_BITS : Z := 39.
Definition SUPERPAGE_SIZE : Z := 2 ^ 21.
Definition MEGAPAGE_SIZE : Z := 2 ^ 30.
Definition PROT_NONE : Z := 0.
Definition PROT_EXEC : Z := 4.
Definition PTE_V : Z := 0x001.
Definition PTE_TYPE_TABLE : Z := 0x00.
Definition PTE_TYPE_UR_SR : Z := 0x08.
Definition PTE_TYPE_URW_SRW : Z := 0x0A.
Definition PTE_TYPE_URX_SRX : Z := 0x0C.
Definition PTE_TYPE_URWX_SRWX : Z := 0x0E.
Definition PTE_TYPE_SR : Z := 0x10.
Definition PTE_TYPE_SRW : Z := 0x12.
Definition PTE_TYPE_SRX : Z := 0x14.
Definition PTE_TYPE_SRWX : Z := 0x16.
Definition PTE_PPN_SHIFT : Z := 10.

(** [PTE_TABLE], [PTE_UR], [PTE_UW], [PTE_UX], [PTE_SR], [PTE_SW] and [PTE_SX]: a bit of a
    constant, by the low five bits of the entry. *)
Definition pte_attr (table pte : Z) : bool := negb (((table >>> (pte &&& 0x1F)) &&& 1) =? 0).
Definition PTE_TABLE : Z -> bool := pte_attr 0x0000000A.
Definition PTE_UR : Z -> bool := pte_attr 0x0000AAA0.
Definition PTE_UW : Z -> bool := pte_attr 0x00008880.
Definition PTE_UX : Z -> bool := pte_attr 0x0000A0A0.
Definition PTE_SR : Z -> bool := pte_attr 0xAAAAAAA0.
Definition PTE_SW : Z -> bool := pte_attr 0x88888880.
Definition PTE_SX : Z -> bool := pte_attr 0xA0A0A000.

(** Macros of [bbl.h] on unsigned 64-bit values. *)
Definition ROUNDUP (a b : Z) : Z := u64 ((u64 (a - 1) / b + 1) * b).
Definition ROUNDDOWN (a b : Z) : Z := a / b * b.

(** ** State *)

(** [elf_info]: what [load_elf] found out about the program, and its address space. *)
Record elf_info := ElfInfo {
  elf64 : Z; phent : Z; phnum : Z; is_supervisor : Z;
  phdr : Z; phdr_size : Z;
  first_free_paddr : Z; first_user_vaddr : Z; first_vaddr_after_user : Z; bias : Z; entry : Z;
  brk_min : Z; brk : Z; brk_max : Z; mmap_max : Z; stack_bottom : Z; stack_top : Z; t0 : Z;
}.

(** The variables of [vm.c] with [current], [mem_size], the page-table register and the
    file layer with memory. *)
Record vm (F FIL : Type) := Vm {
  current : elf_info; mem_size : Z;
  vmrs : Z; root_page_table : Z; first_free_page : Z; next_free_page : Z; free_pages : Z;
  vm_lock : Z; sptbr : Z; have_vm : Z;
  vfs : fsys F FIL;
}.
Arguments Vm {F FIL}.
Arguments current {F FIL}. Arguments mem_size {F FIL}. Arguments vmrs {F FIL}.
Arguments root_page_table {F FIL}. Arguments first_free_page {F FIL}. Arguments next_free_page {F FIL}.
Arguments free_pages {F FIL}. Arguments vm_lock {F FIL}. Arguments sptbr {F FIL}. Arguments have_vm {F FIL}.
Arguments vfs {F FIL}.

(** ** Page-table entries *)
Definition pte_ppn (pte : Z) : Z := pte >>> PTE_PPN_SHIFT.
Definition ptd_create (ppn : Z) : Z := u64 (ppn <<< PTE_PPN_SHIFT) ||| PTE_V ||| PTE_TYPE_TABLE.

(** The type field of [pte_create]; [None] is the failing assertion. *)
Definition pte_type (prot : Z) (user : bool) : option Z :=
  let prot := prot &&& (PROT_READ ||| PROT_WRITE ||| PROT_EXEC) in
  if user then
    Some (if prot =? PROT_NONE then PTE_TYPE_SR
          else if prot =? PROT_READ then PTE_TYPE_UR_SR
          else if prot =? PROT_WRITE then PTE_TYPE_URW_SRW
          else if prot =? PROT_EXEC then PTE_TYPE_URX_SRX
          else if prot =? (PROT_READ ||| PROT_WRITE) then PTE_TYPE_URW_SRW
          else if prot =? (PROT_READ ||| PROT_EXEC) then PTE_TYPE_URX_SRX
          else if prot =? (PROT_WRITE ||| PROT_EXEC) then PTE_TYPE_URWX_SRWX
          else PTE_TYPE_URWX_SRWX)
  else
    if prot =? PROT_NONE then None
    else Some (if prot =? PROT_READ then PTE_TYPE_SR
          else if prot =? PROT_WRITE then PTE_TYPE_SRW
          else if prot =? PROT_EXEC then PTE_TYPE_SRX
          else if prot =? (PROT_READ ||| PROT_WRITE) then PTE_TYPE_SRW
          else if prot =? (PROT_READ ||| PROT_EXEC) then PTE_TYPE_SRX
          else if prot =? (PROT_WRITE ||| PROT_EXEC) then PTE_TYPE_SRWX
          else PTE_TYPE_SRWX).

Definition pte_create {S} (ppn prot : Z) (user : bool) : ST S Z :=
  match pte_type prot user with
  | Some t => ret (u64 (ppn <<< PTE_PPN_SHIFT) ||| PTE_V ||| t)
  | None => panic "assertion failed"
  end.

Definition ppn (addr : Z) : Z := addr >>> RISCV_PGSHIFT.
Definition pt_idx (addr level : Z) : Z :=
  (addr >>> (RISCV_PGLEVEL_BITS * level + RISCV_PGSHIFT)) &&& ((1 <<< RISCV_PGLEVEL_BITS) - 1).

(** ** Start-up *)
Section Boot.
Context {F FIL : Type} `{FatFs F FIL}.
Abbreviation state := (vm F FIL).

Definition set_current v (s : state) : state := Vm v (mem_size s) (vmrs s) (root_page_table s) (first_free_page s) (next_free_page s) (free_pages s) (vm_lock s) (sptbr s) (have_vm s) (vfs s).
Definition set_mem_size v (s : state) : state := Vm (current s) v (vmrs s) (root_page_table s) (first_free_page s) (next_free_page s) (free_pages s) (vm_lock s) (sptbr s) (have_vm s) (vfs s).
Definition set_vmrs v (s : state) : state := Vm (current s) (mem_size s) v (root_page_table s) (first_free_page s) (next_free_page s) (free_pages s) (vm_lock s) (sptbr s) (have_vm s) (vfs s).
Definition set_root_page_table v (s : state) : state := Vm (current s) (mem_size s) (vmrs s) v (first_free_page s) (next_free_page s) (free_pages s) (vm_lock s) (sptbr s) (have_vm s) (vfs s).
Definition set_first_free_page v (s : state) : state := Vm (current s) (mem_size s) (vmrs s) (root_page_table s) v (next_free_page s) (free_pages s) (vm_lock s) (sptbr s) (have_vm s) (vfs s).
Definition set_next_free_page v (s : state) : state := Vm (current s) (mem_size s) (vmrs s) (root_page_table s) (first_free_page s) v (free_pages s) (vm_lock s) (sptbr s) (have_vm s) (vfs s).
Definition set_free_pages v (s : state) : state := Vm (current s) (mem_size s) (vmrs s) (root_page_table s) (first_free_page s) (next_free_page s) v (vm_lock s) (sptbr s) (have_vm s) (vfs s).
Definition set_vm_lock v (s : state) : state := Vm (current s) (mem_size s) (vmrs s) (root_page_table s) (first_free_page s) (next_free_page s) (free_pages s) v (sptbr s) (have_vm s) (vfs s).
Definition set_sptbr v (s : state) : state := Vm (current s) (mem_size s) (vmrs s) (root_page_table s) (first_free_page s) (next_free_page s) (free_pages s) (vm_lock s) v (have_vm s) (vfs s).
Definition set_vfs v (s : state) : state := Vm (current s) (mem_size s) (vmrs s) (root_page_table s) (first_free_page s) (next_free_page s) (free_pages s) (vm_lock s) (sptbr s) (have_vm s) v.

Definition on_memory {A} (c : ST memory A) : ST state A := zoom vfs set_vfs (on_mem c).

(** [t[idx]] of an array of words. *)
Definition get_word (t idx : Z) : ST state Z := on_memory (load 8 (u64 (t + 8 * idx))).
Definition put_word (t idx v : Z) : ST state unit := on_memory (store 8 (u64 (t + 8 * idx)) v).

Definition __page_alloc : ST state Z :=
  let! n := gets next_free_page in
  let! k := gets free_pages in
  kassert (negb (n =? k)) ;;
  let! first := gets first_free_page in
  let addr := u64 (first + RISCV_PGSIZE * n) in
  modify (set_next_free_page (u64 (n + 1))) ;;
  on_memory (memset addr 0 RISCV_PGSIZE) ;;
  ret addr.

(** [mem_size] is a parameter of the board: 956 MB of the 1 GB, the rest holds tags. *)
Definition memory_init (num_harts : Z) : ST state unit :=
  let mem_mb := 956 in
  modify (set_mem_size (u64 (mem_mb <<< 20))) ;;
  let! n := gets mem_size in
  (if (n >>> 20) <? mem_mb then modify (set_mem_size (u64 (-1) &&& u64 (- RISCV_PGSIZE))) else ret tt) ;;
  let! n := gets mem_size in
  (if n =? 0 then panic "could not determine memory capacity" else ret tt) ;;
  if num_harts =? 0 then panic "could not determine number of harts" else ret tt.

(** [_end] is the end of the boot loader's image. *)
Definition sbi_top_paddr (_end : Z) : Z := ROUNDUP _end RISCV_PGSIZE.
Definition first_free_paddr_of (_end num_harts : Z) : Z :=
  u64 (sbi_top_paddr _end + num_harts * RISCV_PGSIZE).

Definition set_cur_first_free_paddr v c := ElfInfo (elf64 c) (phent c) (phnum c) (is_supervisor c) (phdr c) (phdr_size c) v (first_user_vaddr c) (first_vaddr_after_user c) (bias c) (entry c) (brk_min c) (brk c) (brk_max c) (mmap_max c) (stack_bottom c) (stack_top c) (t0 c).
Definition set_cur_first_vaddr_after_user v c := ElfInfo (elf64 c) (phent c) (phnum c) (is_supervisor c) (phdr c) (phdr_size c) (first_free_paddr c) (first_user_vaddr c) v (bias c) (entry c) (brk_min c) (brk c) (brk_max c) (mmap_max c) (stack_bottom c) (stack_top c) (t0 c).
Definition set_cur_mmap_max v c := ElfInfo (elf64 c) (phent c) (phnum c) (is_supervisor c) (phdr c) (phdr_size c) (first_free_paddr c) (first_user_vaddr c) (first_vaddr_after_user c) (bias c) (entry c) (brk_min c) (brk c) (brk_max c) v (stack_bottom c) (stack_top c) (t0 c).
Definition set_cur_brk_max v c := ElfInfo (elf64 c) (phent c) (phnum c) (is_supervisor c) (phdr c) (phdr_size c) (first_free_paddr c) (first_user_vaddr c) (first_vaddr_after_user c) (bias c) (entry c) (brk_min c) (brk c) v (mmap_max c) (stack_bottom c) (stack_top c) (t0 c).

Definition vm_init (_end num_harts : Z) : ST state unit :=
  modify (fun s => set_current (set_cur_first_free_paddr (first_free_paddr_of _end num_harts) (current s)) s) ;;
  let! n := gets mem_size in
  let mem_pages := n >>> RISCV_PGSHIFT in
  let fp := Z.max 8 (mem_pages >>> (RISCV_PGLEVEL_BITS - 1)) in
  modify (set_free_pages fp) ;;
  modify (set_first_free_page (u64 (n - fp * RISCV_PGSIZE))) ;;
  let! first := gets first_free_page in
  modify (fun s => set_current (set_cur_mmap_max first (set_cur_brk_max first (current s))) s).

(** [for (i = 0; i < n; i++) t[off + i] = f(i)], by the iterations left. *)
Fixpoint put_words (t off : Z) (f : Z -> ST state Z) (i : Z) (k : nat) : ST state unit :=
  match k with
  | O => ret tt
  | S k' => let! v := f i in put_word t (off + i) v ;; put_words t off f (i + 1) k'
  end.

(** The loop over superpages: [vaddr] and [paddr] advance together. *)
Fixpoint map_superpages (k : nat) (middle_pt vaddr paddr : Z) : ST state unit :=
  match k with
  | O => hang
  | S k' =>
      let! n := gets mem_size in
      if paddr <? n then
        let! fuv := gets (fun s => first_user_vaddr (current s)) in
        let l2_shift := RISCV_PGLEVEL_BITS + RISCV_PGSHIFT in
        let l2_idx := (fuv >>> l2_shift) &&& ((1 <<< RISCV_PGLEVEL_BITS) - 1) in
        let l2_idx := l2_idx + (u64 (vaddr - fuv) >>> l2_shift) in
        let! pte := pte_create (paddr >>> RISCV_PGSHIFT) (PROT_READ ||| PROT_WRITE ||| PROT_EXEC) false in
        put_word middle_pt l2_idx pte ;;
        map_superpages k' middle_pt (u64 (vaddr + SUPERPAGE_SIZE)) (u64 (paddr + SUPERPAGE_SIZE))
      else ret tt
  end.

Definition supervisor_vm_init (_end : Z) : ST state unit :=
  let! c := gets current in
  let highest_va := u64 (- first_free_paddr c) in
  modify (fun s => set_mem_size (Z.min (mem_size s) (u64 (highest_va - first_user_vaddr c)) &&& u64 (- SUPERPAGE_SIZE)) s) ;;
  let sbi_pt := u64 (first_vaddr_after_user c + bias c) in
  on_memory (memset sbi_pt 0 RISCV_PGSIZE) ;;
  let middle_pt := u64 (sbi_pt + RISCV_PGSIZE) in
  let num_middle_pts := u64 (u64 (- first_user_vaddr c) - 1) / MEGAPAGE_SIZE + 1 in
  let root_pt := u64 (middle_pt + num_middle_pts * RISCV_PGSIZE) in
  on_memory (memset middle_pt 0 (u64 ((num_middle_pts + 1) * RISCV_PGSIZE))) ;;
  put_words root_pt ((1 <<< RISCV_PGLEVEL_BITS) - num_middle_pts)
    (fun i => ret (ptd_create (u64 ((middle_pt >>> RISCV_PGSHIFT) + i)))) 0 (Z.to_nat num_middle_pts) ;;
  let! n := gets mem_size in
  let paddr := u64 (first_user_vaddr c + bias c) in
  map_superpages (S (Z.to_nat (n / SUPERPAGE_SIZE + 1))) middle_pt (first_user_vaddr c) paddr ;;
  modify (fun s => set_current (set_cur_first_vaddr_after_user
    (u64 (first_vaddr_after_user c + (root_pt + RISCV_PGSIZE - sbi_pt))) (current s)) s) ;;
  let num_sbi_pages := sbi_top_paddr _end / RISCV_PGSIZE in
  put_words sbi_pt ((1 <<< RISCV_PGLEVEL_BITS) - num_sbi_pages)
    (fun i => pte_create i (PROT_READ ||| PROT_EXEC) false) 0 (Z.to_nat num_sbi_pages) ;;
  let sbi_pte := u64 (num_middle_pts <<< RISCV_PGLEVEL_BITS) - 1 in
  let! old := get_word middle_pt sbi_pte in
  kassert (old =? 0) ;;
  put_word middle_pt sbi_pte (ptd_create (sbi_pt >>> RISCV_PGSHIFT)) ;;
  let! nf := gets next_free_page in
  kassert (nf =? 0) ;;
  modify (set_free_pages 0) ;;
  modify (set_root_page_table root_pt) ;;
  modify (set_sptbr root_pt).

(** [__sbi_query_memory] of [sbi_impl.c]; [p] is a [memory_block_info]. *)
Definition __sbi_query_memory (id p : Z) : ST state Z :=
  if id =? 0 then
    let! base := gets (fun s => first_free_paddr (current s)) in
    put_word p 0 base ;;
    let! n := gets mem_size in
    let! b := get_word p 0 in
    put_word p 1 (u64 (n - b)) ;;
    ret 0
  else ret (u64 (-1)).
End Boot.

(** ** The hardware's table walk ([rocket/src/main/scala/ptw.scala]) *)

Definition hw_table (pte : Z) : bool := Z.testbit pte 0 && ((pte >>> 1) &&& 0xF <? 2).
Definition hw_leaf (pte : Z) : bool := Z.testbit pte 0 && (2 <=? (pte >>> 1) &&& 0xF).

(** From the table at [base], [lvl] levels above the last: the entry that maps [va] and
    the physical address, or [None] for a page fault. *)
Fixpoint ptw (lvl : nat) (m : memory) (base va : Z) : option (Z * Z) :=
  let shift := 12 + 9 * Z.of_nat lvl in
  match read_bytes m (base + 8 * ((va >>> shift) &&& 511)) 8 with
  | None => None
  | Some bs =>
      let pte := le_combine bs in
      if hw_leaf pte then Some (pte, ((pte >>> 10 >>> (9 * Z.of_nat lvl)) <<< shift) + va mod 2 ^ shift)
      else if hw_table pte then
        match lvl with
        | O => None
        | S lvl' => ptw lvl' m ((pte >>> 10) <<< 12) va
        end
      else None
  end.

(** Sv39: three levels, the virtual address sign-extended from 39 bits. *)
Definition sv39 (m : memory) (root va : Z) : option (Z * Z) :=
  if u64 (wraps 39 va) =? va then ptw 2 m root va else None.

(** ** Arrays of words *)

(** The [n] words at [t] are [f 0], ..., [f (n - 1)]. *)
Definition table (m : memory) (t n : Z) (f : Z -> Z) : Prop :=
  t mod 8 = 0 /\ 0 <= t /\ t + 8 * n < 2 ^ 64 /\ forall j, 0 <= j < n -> word m (t + 8 * j) (f j).

(** Memory outside the [len] bytes at [t] is the same. *)
Definition same_outside (t len : Z) (m m' : memory) : Prop :=
  forall b k, fits b k -> apart b k t (Z.to_nat len) -> read_bytes m' b k = read_bytes m b k.

Lemma same_outside_refl t len m : same_outside t len m m.
Proof. by intros b k _ _. Qed.

Lemma same_outside_trans t len m1 m2 m3 : same_outside t len m1 m2 -> same_outside t len m2 m3 -> same_outside t len m1 m3.
Proof. intros A B b k Hb Ha. by rewrite (B b k Hb Ha), (A b k Hb Ha). Qed.

Lemma same_outside_write t len m a l :
  0 <= t -> t <= a -> a + Z.of_nat (length l) <= t + len -> t + len <= 2 ^ 64 -> same_outside t len m (write_bytes m a l).
Proof. intros H0 H1 H2 H3 b k Hb Ha. apply read_write_apart; [done|unfold fits; lia|unfold apart in *; lia]. Qed.

Lemma same_outside_word t n m i v f :
  table m t n f -> 0 <= i < n -> same_outside t (8 * n) m (write_word m (t + 8 * i) v).
Proof. intros (_ & H0 & H1 & _) Hi. apply same_outside_write; rewrite ?length_le_split; lia. Qed.

(** [f] changed at the [k] indices from [i0] on. *)
Definition patch (f : Z -> Z) (i0 k : Z) (g : Z -> Z) : Z -> Z :=
  fun j => if (i0 <=? j) && (j <? i0 + k) then g (j - i0) else f j.

Lemma table_ext m t n f g : table m t n f -> (forall j, 0 <= j < n -> f j = g j) -> table m t n g.
Proof. intros (A & B & C & T) E. split_and!; try done. intros j Hj. rewrite <- E by done. by apply T. Qed.

Lemma table_word m t n f j : table m t n f -> 0 <= j < n -> word m (t + 8 * j) (f j).
Proof. intros (_ & _ & _ & T). apply T. Qed.

Lemma table_write m t n f i v :
  table m t n f -> 0 <= i < n -> inu 64 v -> table (write_word m (t + 8 * i) v) t n (patch f i 1 (fun _ => v)).
Proof.
  intros (A & B & C & T) Hi Hv. split_and!; try done. intros j Hj. unfold patch.
  destruct (T i Hi) as (W1 & W2 & _).
  destruct (Z.leb_spec i j), (Z.ltb_spec j (i + 1)); cbn [andb]; try lia.
  - replace j with i by lia. by apply word_write.
  - apply word_other; [by apply T|done|unfold apart; lia].
  - apply word_other; [by apply T|done|unfold apart; lia].
Qed.

(** Zeroed memory is a table of zeros. *)
Lemma table_zero m a n :
  a mod 8 = 0 -> 0 <= a -> 0 <= n -> a + 8 * n < 2 ^ 64 ->
  table (write_bytes m a (replicate (Z.to_nat (8 * n)) (u8 0))) a n (fun _ => 0).
Proof.
  intros Ha H0 Hn Hb. split_and!; try done. intros j Hj.
  split; [rewrite Z.mul_comm, Z.mod_add by lia; done|]. split; [unfold fits; lia|]. split; [done|].
  pose proof (read_write_bytes (replicate (Z.to_nat (8 * n)) (u8 0)) m a) as R. rewrite length_replicate in R.
  specialize (R ltac:(lia)).
  replace (Z.to_nat (8 * n)) with (Z.to_nat (8 * j) + (8 + Z.to_nat (8 * (n - j - 1))))%nat in R at 2 by lia.
  apply read_bytes_window in R. rewrite Z2Nat.id in R by lia. rewrite R. f_equal.
  rewrite drop_replicate, take_replicate. rewrite Nat.min_l by lia. done.
Qed.

(** Zeroing what follows a table extends it. *)
Lemma table_append m t n k f :
  table m t n f -> 0 <= n -> 0 <= k -> t + 8 * (n + k) < 2 ^ 64 ->
  table (write_bytes m (t + 8 * n) (replicate (Z.to_nat (8 * k)) (u8 0))) t (n + k)
    (fun j => if j <? n then f j else 0).
Proof.
  intros (A & B & C & T) Hn Hk Hb. split_and!; try done.
  assert ((t + 8 * n) mod 8 = 0) as A' by (rewrite Z.mul_comm, Z.mod_add by lia; done).
  destruct (table_zero m (t + 8 * n) k A' ltac:(lia) Hk ltac:(lia)) as (_ & _ & _ & Z0).
  intros j Hj. destruct (Z.ltb_spec j n).
  - destruct (T j ltac:(lia)) as (W1 & W2 & W3 & W4). split_and!; try done.
    rewrite read_write_apart; [done|done|unfold fits; rewrite length_replicate; lia|].
    unfold apart. rewrite length_replicate. lia.
  - replace (t + 8 * j) with (t + 8 * n + 8 * (j - n)) by lia. apply Z0. lia.
Qed.

(** ** Values of page-table entries *)

Lemma pte_value p t : 0 <= p < 2 ^ 50 -> inu 10 t -> (u64 (p <<< PTE_PPN_SHIFT) ||| PTE_V ||| t) = p * 1024 + (1 ||| t).
Proof.
  intros Hp Ht. unfold PTE_PPN_SHIFT, PTE_V. rewrite <- Z.lor_assoc, wrapu_small.
  - rewrite Z.lor_comm, lor_disjoint_add; [lia|lia|by apply lor_range; [lia|vm_decide|]|lia].
  - unfold inu. rewrite Z.shiftl_mul_pow2 by lia. lia.
Qed.

Lemma pte_value_range p e : 0 <= p < 2 ^ 50 -> inu 10 e -> inu 64 (p * 1024 + e).
Proof. unfold inu. lia. Qed.

Lemma pte_value_ppn p e : inu 10 e -> (p * 1024 + e) >>> 10 = p.
Proof. intros He. rewrite Z.shiftr_div_pow2 by lia. unfold inu in He. change (2 ^ 10) with 1024 in *. by rewrite div_mul_shift by lia. Qed.

Lemma low5 p e : (p * 1024 + e) &&& 0x1F = e &&& 0x1F.
Proof.
  change 0x1F with (Z.ones 5). rewrite !Z.land_ones by lia. change (2 ^ 5) with 32.
  replace (p * 1024 + e) with (e + p * 32 * 32) by lia. by rewrite Z.mod_add by lia.
Qed.

Lemma hw_value p e : hw_leaf (p * 1024 + e) = hw_leaf e /\ hw_table (p * 1024 + e) = hw_table e.
Proof.
  assert (Z.testbit (p * 1024 + e) 0 = Z.testbit e 0) as E0.
  { rewrite !Z.bit0_odd. replace (p * 1024 + e) with (e + 2 * (p * 512)) by lia. apply Z.odd_add_mul_2. }
  assert (((p * 1024 + e) >>> 1) &&& 0xF = (e >>> 1) &&& 0xF) as E1.
  { change 0xF with (Z.ones 4). rewrite !Z.land_ones, !Z.shiftr_div_pow2 by lia. change (2 ^ 1) with 2. change (2 ^ 4) with 16.
    replace (p * 1024 + e) with (e + p * 512 * 2) by lia. rewrite Z.div_add by lia.
    replace (e / 2 + p * 512) with (e / 2 + p * 32 * 16) by lia. by rewrite Z.mod_add by lia. }
  unfold hw_leaf, hw_table. by rewrite E0, E1.
Qed.

Lemma pte_attr_value k p e : pte_attr k (p * 1024 + e) = pte_attr k e.
Proof. unfold pte_attr. by rewrite low5. Qed.

Lemma idx_value va s : 0 <= s -> (va >>> s) &&& 511 = va / 2 ^ s mod 512.
Proof. intros. change 511 with (Z.ones 9). rewrite Z.land_ones, Z.shiftr_div_pow2 by lia. done. Qed.

(** ** Loops over tables *)
Section Loops.
Context {F FIL : Type} `{FatFs F FIL}.
Abbreviation state := (vm F FIL).
Implicit Types s : state.

Definition vmem s : memory := mem (vfs s).
Definition with_mem (m : memory) s : state := set_vfs (set_mem m (vfs s)) s.

Lemma word_mapped m a v : word m a v -> a mod 8 = 0 /\ mapped m a 8.
Proof. intros (? & _ & _ & Hr). split; [done|]. by eexists. Qed.

Lemma on_memory_ret {A} (c : ST memory A) s a m :
  c (vmem s) = Ret a m -> on_memory c s = Ret a (with_mem m s).
Proof. intros E. unfold on_memory, on_mem, zoom. fold (vmem s). by rewrite E. Qed.

Lemma put_word_at s t n f o i v :
  table (vmem s) t n f -> 0 <= o + i < n ->
  put_word (t + 8 * o) i v s = Ret tt (with_mem (write_word (vmem s) (t + 8 * (o + i)) v) s).
Proof.
  intros T Hi. pose proof T as (_ & T0 & T1 & _). apply on_memory_ret.
  replace (t + 8 * o + 8 * i) with (t + 8 * (o + i)) by lia. rewrite wrapu_small by (unfold inu; lia).
  destruct (word_mapped _ _ _ (table_word _ _ _ _ (o + i) T Hi)) as [W1 W2]. by apply store_spec.
Qed.

Lemma get_word_at s t n f o i :
  table (vmem s) t n f -> 0 <= o + i < n -> get_word (t + 8 * o) i s = Ret (f (o + i)) s.
Proof.
  intros T Hi. pose proof T as (_ & T0 & T1 & _). unfold get_word.
  replace (t + 8 * o + 8 * i) with (t + 8 * (o + i)) by lia. rewrite wrapu_small by (unfold inu; lia).
  rewrite (on_memory_ret _ _ _ _ (word_load _ _ _ (table_word _ _ _ _ (o + i) T Hi))).
  f_equal. unfold with_mem, vmem. by destruct s as [??????????[]].
Qed.

Lemma put_words_at s t n f o off c g i k :
  table (vmem s) t n f -> 0 <= o + off + i -> o + off + i + Z.of_nat k <= n ->
  (forall j s', i <= j < i + Z.of_nat k -> c j s' = Ret (g j) s' /\ inu 64 (g j)) ->
  exists m, put_words (t + 8 * o) off c i k s = Ret tt (with_mem m s) /\
    table m t n (patch f (o + off + i) (Z.of_nat k) (fun j => g (i + j))) /\ same_outside t (8 * n) (vmem s) m.
Proof.
  revert s f i. induction k as [|k IH]; intros s f i T H0 Hn Hc.
  { exists (vmem s). split; [unfold with_mem, vmem; by destruct s as [??????????[]]|]. split; [|apply same_outside_refl].
    eapply table_ext; [exact T|]. intros j Hj. unfold patch.
    destruct (Z.leb_spec (o + off + i) j), (Z.ltb_spec j (o + off + i + Z.of_nat 0)); cbn [andb]; lia || done. }
  destruct (Hc i s ltac:(lia)) as [E1 Hv]. cbn [put_words]. unfold bind. rewrite E1.
  rewrite (put_word_at s t n f) by (done || lia). set (m1 := write_word _ _ _).
  destruct (IH (with_mem m1 s) (patch f (o + (off + i)) 1 (fun _ => g i)) (i + 1)) as (m & E & T' & K).
  - apply table_write; [done|lia|done].
  - lia.
  - lia.
  - intros j s' Hj. apply Hc. lia.
  - exists m. split; [exact E|]. split; [|eapply same_outside_trans; [apply (same_outside_word t n (vmem s) (o + (off + i)) (g i) f T); lia|exact K]].
    eapply table_ext; [exact T'|]. intros j Hj. unfold patch.
    repeat match goal with
    | |- context [Z.leb ?a ?b] => destruct (Z.leb_spec a b)
    | |- context [Z.ltb ?a ?b] => destruct (Z.ltb_spec a b)
    end; cbn [andb]; try lia; try done; f_equal; lia.
Qed.

(** The superpage loop, from superpage [i] on: the entry of superpage [j] holds its page
    number. *)
Definition srwx (p : Z) : Z := p * 1024 + 0x17.

Lemma kernel_pte p prot t {S} (s : S) :
  0 <= p < 2 ^ 50 -> pte_type prot false = Some t -> inu 10 t -> pte_create p prot false s = Ret (p * 1024 + (1 ||| t)) s.
Proof. intros Hp E Ht. unfold pte_create. rewrite E. unfold ret. by rewrite pte_value. Qed.

Lemma map_superpages_at s t n f o i k fuv pa0 :
  table (vmem s) t n f -> first_user_vaddr (current s) = fuv -> 0 <= i -> (0 < k)%nat ->
  fuv mod 2 ^ 21 = 0 -> pa0 mod 2 ^ 21 = 0 -> 0 <= fuv -> 0 <= pa0 ->
  (mem_size s) mod 2 ^ 21 = 0 -> mem_size s < 2 ^ 40 -> mem_size s <= pa0 + 2 ^ 21 * (i + Z.of_nat k - 1) ->
  pa0 + 2 ^ 21 * i <= Z.max pa0 (mem_size s) -> fuv + (Z.max pa0 (mem_size s) - pa0) <= 2 ^ 64 - 2 ^ 21 ->
  let i0 := fuv / 2 ^ 21 mod 512 in
  let cnt := (Z.max pa0 (mem_size s) - pa0) / 2 ^ 21 in
  0 <= o -> o + i0 + cnt <= n ->
  exists m, map_superpages k (t + 8 * o) (fuv + 2 ^ 21 * i) (pa0 + 2 ^ 21 * i) s = Ret tt (with_mem m s) /\
    table m t n (patch f (o + i0 + i) (cnt - i) (fun j => srwx (pa0 / 2 ^ 12 + 512 * (i + j)))) /\
    same_outside t (8 * n) (vmem s) m.
Proof.
  intros T Ef Hi Hk Af Ap F0 P0 An Bn Hfuel Hpa Hva i0 cnt O0 On.
  assert (0 <= i0 < 512) as Bi0 by (apply Z.mod_pos_bound; lia).
  assert (Ecnt : Z.max pa0 (mem_size s) - pa0 = 2 ^ 21 * cnt).
  { unfold cnt. pose proof (Z.div_mod (Z.max pa0 (mem_size s) - pa0) (2 ^ 21)) as D.
    assert ((Z.max pa0 (mem_size s) - pa0) mod 2 ^ 21 = 0) as M; [|lia].
    rewrite Zminus_mod, Ap. destruct (Z.max_spec pa0 (mem_size s)) as [[_ ->]|[_ ->]]; rewrite ?An, ?Ap; done. }
  clearbody cnt. revert s f i T Ef Hi Hk An Bn Hfuel Hpa Hva Ecnt. induction k as [|k IH]; intros; [lia|].
  cbn [map_superpages]. unfold bind at 1, gets. destruct (Z.ltb_spec (pa0 + 2 ^ 21 * i) (mem_size s)) as [L|L].
  - unfold bind at 1. rewrite Ef. unfold bind at 1.
    assert (exists p, pa0 + 2 ^ 21 * i = p * 2 ^ 12 /\ pa0 / 2 ^ 12 + 512 * i = p) as (p & Ep & Ep').
    { apply Z.mod_divide in Ap as [q ->]; [|lia]. exists (q * 512 + 512 * i). split; [lia|].
      replace (q * 2 ^ 21) with (q * 512 * 2 ^ 12) by lia. rewrite Z.div_mul by lia. lia. }
    unfold RISCV_PGSHIFT, RISCV_PGLEVEL_BITS. change (9 + 12) with 21. change ((1 <<< 9) - 1) with 511.
    rewrite (Z.shiftr_div_pow2 _ 12), Ep, Z.div_mul by lia.
    rewrite (kernel_pte p _ PTE_TYPE_SRWX) by (lia || done || vm_decide).
    rewrite idx_value by lia. fold i0. rewrite wrapu_small by (unfold inu; lia).
    replace (fuv + 2 ^ 21 * i - fuv) with (i * 2 ^ 21) by lia. rewrite Z.shiftr_div_pow2, Z.div_mul by lia.
    unfold bind at 1. rewrite (put_word_at s t n f) by (done || lia).
    set (m1 := write_word _ _ _). rewrite <- Ep.
    assert (u64 (fuv + 2 ^ 21 * i + SUPERPAGE_SIZE) = fuv + 2 ^ 21 * (i + 1)) as ->.
    { unfold SUPERPAGE_SIZE. rewrite wrapu_small by (unfold inu; lia). lia. }
    assert (u64 (pa0 + 2 ^ 21 * i + SUPERPAGE_SIZE) = pa0 + 2 ^ 21 * (i + 1)) as ->.
    { unfold SUPERPAGE_SIZE. rewrite wrapu_small by (unfold inu; lia). lia. }
    destruct k as [|k].
    { lia. }
    destruct (IH (with_mem m1 s) (patch f (o + (i0 + i)) 1 (fun _ => srwx p)) (i + 1)) as (m & E & T' & K);
      try done; try (cbn [mem_size with_mem set_vfs]; lia).
    { apply table_write; [done|lia|]. apply pte_value_range; [lia|vm_decide]. }
    exists m. split; [exact E|]. split; [|eapply same_outside_trans; [apply (same_outside_word t n (vmem s) (o + (i0 + i)) (srwx p) f T); lia|exact K]].
    eapply table_ext; [exact T'|]. intros j Hj. unfold patch.
    repeat match goal with
    | |- context [Z.leb ?a ?b] => destruct (Z.leb_spec a b)
    | |- context [Z.ltb ?a ?b] => destruct (Z.ltb_spec a b)
    end; cbn [andb]; try lia; try done; f_equal; lia.
  - exists (vmem s). split; [unfold ret, with_mem, vmem; by destruct s as [??????????[]]|]. split; [|apply same_outside_refl].
    eapply table_ext; [exact T|]. intros j Hj. unfold patch.
    destruct (Z.leb_spec (o + i0 + i) j), (Z.ltb_spec j (o + i0 + i + (cnt - i))); cbn [andb]; lia || done.
Qed.
End Loops.

(** ** Walking the supervisor's tables *)

Definition srx (p : Z) : Z := p * 1024 + 0x15.
Definition ptd (p : Z) : Z := p * 1024 + 0x01.

(** The tables [supervisor_vm_init] builds at [B], word by word: the page of the SBI, the
    [num] middle tables, the root.  [cnt] superpages of physical memory from [pa0] are
    mapped from middle entry [i0] on, [nsbi] pages of the SBI at the end. *)
Definition boot_tables (B num i0 cnt pa0 nsbi j : Z) : Z :=
  if j <? 512 then
    if 512 - nsbi <=? j then srx (j - (512 - nsbi)) else 0
  else if j <? 512 * (1 + num) then
    let k := j - 512 in
    if k =? 512 * num - 1 then ptd (B / 4096)
    else if (i0 <=? k) && (k <? i0 + cnt) then srwx (pa0 / 2 ^ 12 + 512 * (k - i0))
    else 0
  else
    let k := j - 512 * (1 + num) in
    if 512 - num <=? k then ptd (B / 4096 + 1 + (k - (512 - num))) else 0.

Lemma ptw_word lvl m base va v :
  word m (base + 8 * (va / 2 ^ (12 + 9 * Z.of_nat lvl) mod 512)) v ->
  ptw lvl m base va =
  if hw_leaf v then Some (v, ((v >>> 10 >>> (9 * Z.of_nat lvl)) <<< (12 + 9 * Z.of_nat lvl)) + va mod 2 ^ (12 + 9 * Z.of_nat lvl))
  else if hw_table v then match lvl with O => None | S l => ptw l m ((v >>> 10) <<< 12) va end
  else None.
Proof.
  intros (_ & _ & Hv & Hr). destruct lvl; cbn [ptw]; rewrite idx_value by lia; rewrite Hr, le_combine_split;
    change (8 * Z.of_nat 8) with 64; by rewrite wrapu_small.
Qed.

Lemma ptw_unmapped lvl m base va :
  word m (base + 8 * (va / 2 ^ (12 + 9 * Z.of_nat lvl) mod 512)) 0 -> ptw lvl m base va = None.
Proof. intros W. by rewrite (ptw_word _ _ _ _ _ W). Qed.

Lemma ptw_table lvl m base va p :
  word m (base + 8 * (va / 2 ^ (12 + 9 * Z.of_nat (S lvl)) mod 512)) (ptd p) ->
  ptw (S lvl) m base va = ptw lvl m (p * 4096) va.
Proof.
  intros W. rewrite (ptw_word _ _ _ _ _ W). unfold ptd.
  destruct (hw_value p 0x01) as [-> ->]. change (hw_leaf 0x01) with false. change (hw_table 0x01) with true. cbv iota.
  rewrite pte_value_ppn by vm_decide. rewrite Z.shiftl_mul_pow2 by lia. done.
Qed.

Lemma ptw_leaf lvl m base va p e :
  word m (base + 8 * (va / 2 ^ (12 + 9 * Z.of_nat lvl) mod 512)) (p * 1024 + e) -> inu 10 e -> hw_leaf e = true ->
  ptw lvl m base va =
  Some (p * 1024 + e, p / 2 ^ (9 * Z.of_nat lvl) * 2 ^ (12 + 9 * Z.of_nat lvl) + va mod 2 ^ (12 + 9 * Z.of_nat lvl)).
Proof.
  intros W He Hl. rewrite (ptw_word _ _ _ _ _ W). destruct (hw_value p e) as [-> _]. rewrite Hl.
  rewrite pte_value_ppn by done. rewrite Z.shiftr_div_pow2, Z.shiftl_mul_pow2 by lia. done.
Qed.

(** The fields of an Sv39 address. *)
Lemma va_split V : 0 <= V < 2 ^ 39 ->
  exists a b c d, V = a * 2 ^ 30 + b * 2 ^ 21 + c * 2 ^ 12 + d /\
    0 <= a < 512 /\ 0 <= b < 512 /\ 0 <= c < 512 /\ 0 <= d < 4096.
Proof.
  intros HV. exists (V / 2 ^ 30), (V / 2 ^ 21 mod 512), (V / 2 ^ 12 mod 512), (V mod 4096).
  pose proof (Z.mod_pos_bound (V / 2 ^ 21) 512). pose proof (Z.mod_pos_bound (V / 2 ^ 12) 512).
  pose proof (Z.mod_pos_bound V 4096). pose proof (Z.div_mod V 4096) as D0.
  pose proof (Z.div_mod (V / 2 ^ 12) 512) as D1. pose proof (Z.div_mod (V / 2 ^ 21) 512) as D2.
  rewrite Z.div_div in D1 by lia. rewrite Z.div_div in D2 by lia.
  change (2 ^ 12 * 512) with (2 ^ 21) in D1. change (2 ^ 21 * 512) with (2 ^ 30) in D2. change 4096 with (2 ^ 12) in *.
  split_and!; try lia.
Qed.

Lemma va_fields va K a b c d :
  va = K * 2 ^ 39 + a * 2 ^ 30 + b * 2 ^ 21 + c * 2 ^ 12 + d ->
  0 <= a < 512 -> 0 <= b < 512 -> 0 <= c < 512 -> 0 <= d < 4096 ->
  va / 2 ^ 30 mod 512 = a /\ va / 2 ^ 21 mod 512 = b /\ va / 2 ^ 12 mod 512 = c /\
  va mod 2 ^ 12 = d /\ va mod 2 ^ 21 = c * 2 ^ 12 + d /\ va mod 2 ^ 30 = b * 2 ^ 21 + c * 2 ^ 12 + d.
Proof.
  intros E Ha Hb Hc Hd.
  assert (va / 2 ^ 30 = K * 512 + a) as D2 by (symmetry; apply (Z.div_unique _ _ _ (b * 2 ^ 21 + c * 2 ^ 12 + d)); lia).
  assert (va / 2 ^ 21 = (K * 512 + a) * 512 + b) as D1 by (symmetry; apply (Z.div_unique _ _ _ (c * 2 ^ 12 + d)); lia).
  assert (va / 2 ^ 12 = ((K * 512 + a) * 512 + b) * 512 + c) as D0 by (symmetry; apply (Z.div_unique _ _ _ d); lia).
  rewrite D2, D1, D0, !mod_mul_shift, !Z.mod_small by lia. split_and!; try done.
  - symmetry. apply (Z.mod_unique _ _ (va / 2 ^ 12)); lia.
  - symmetry. apply (Z.mod_unique _ _ (va / 2 ^ 21)); lia.
  - symmetry. apply (Z.mod_unique _ _ (va / 2 ^ 30)); lia.
Qed.

(** What the tables map: [cnt] superpages from [fuv] to [pa0], read, write and execute;
    [nsbi] pages at the end of the address space to physical 0, read and execute. *)
Definition boot_map (fuv cnt pa0 nsbi va : Z) : option (Z * Z) :=
  if (fuv <=? va) && (va <? fuv + 2 ^ 21 * cnt) then
    Some (srwx (pa0 / 2 ^ 12 + 512 * ((va - fuv) / 2 ^ 21)), pa0 + (va - fuv))
  else if 2 ^ 64 - 4096 * nsbi <=? va then
    Some (srx ((va - (2 ^ 64 - 4096 * nsbi)) / 4096), va - (2 ^ 64 - 4096 * nsbi))
  else None.

(** The canonical addresses of Sv39. *)
Lemma canonical_iff va : inu 64 va -> (u64 (wraps 39 va) =? va) = true <-> va < 2 ^ 38 \/ 2 ^ 64 - 2 ^ 38 <= va.
Proof.
  intros Hva. unfold inu in Hva. rewrite Z.eqb_eq. unfold wraps, wrapu.
  change (39 - 1) with 38. pose proof (Z.mod_pos_bound (va + 2 ^ 38) (2 ^ 39)). pose proof (Z.div_mod (va + 2 ^ 38) (2 ^ 39)).
  destruct (Z.ltb_spec ((va + 2 ^ 38) mod 2 ^ 39) (2 ^ 38)).
  - rewrite <- (Z.mod_unique ((va + 2 ^ 38) mod 2 ^ 39 - 2 ^ 38) (2 ^ 64) (-1) ((va + 2 ^ 38) mod 2 ^ 39 - 2 ^ 38 + 2 ^ 64)) by lia. lia.
  - rewrite Z.mod_small by lia. lia.
Qed.

Section Walk.
Variables (m : memory) (B fa fb cnt pa0 nsbi : Z).
(** The first virtual address: entry [fa] of the root, entry [fb] of its middle table. *)
Definition walk_fuv : Z := 2 ^ 64 - 2 ^ 39 + fa * 2 ^ 30 + fb * 2 ^ 21.
Let num := 512 - fa.
Hypothesis tables : table m B (512 * (num + 2)) (boot_tables B num fb cnt pa0 nsbi).
Hypothesis Bfa : 256 <= fa < 512.
Hypothesis Bfb : 0 <= fb < 512.
Hypothesis Bcnt : 0 <= cnt /\ fb + cnt < 512 * num.
Hypothesis Bpa : pa0 mod 2 ^ 21 = 0 /\ 0 <= pa0.
Hypothesis Bsbi : 0 <= nsbi <= 512.
Hypothesis BB : B mod 4096 = 0 /\ 0 <= B.

Lemma walk_root a :
  0 <= a < 512 -> word m (B + 4096 * (1 + num) + 8 * a) (if fa <=? a then ptd (B / 4096 + 1 + (a - fa)) else 0).
Proof.
  intros Ha. pose proof (table_word _ _ _ _ (512 * (1 + num) + a) tables ltac:(unfold num in *; lia)) as W.
  replace (B + 8 * (512 * (1 + num) + a)) with (B + 4096 * (1 + num) + 8 * a) in W by lia.
  unfold boot_tables in W. rewrite (proj2 (Z.ltb_ge _ _)) in W by (unfold num in *; lia).
  rewrite (proj2 (Z.ltb_ge _ _)) in W by lia. cbv zeta in W.
  replace (512 * (1 + num) + a - 512 * (1 + num)) with a in W by lia.
  unfold num in W at 2 3. replace (512 - (512 - fa)) with fa in W by lia. exact W.
Qed.

Lemma walk_middle q b :
  0 <= q < num -> 0 <= b < 512 ->
  word m (B + 4096 * (1 + q) + 8 * b)
    (if 512 * q + b =? 512 * num - 1 then ptd (B / 4096)
     else if (fb <=? 512 * q + b) && (512 * q + b <? fb + cnt) then srwx (pa0 / 2 ^ 12 + 512 * (512 * q + b - fb))
     else 0).
Proof.
  intros Hq Hb. pose proof (table_word _ _ _ _ (512 * (1 + q) + b) tables ltac:(lia)) as W.
  replace (B + 8 * (512 * (1 + q) + b)) with (B + 4096 * (1 + q) + 8 * b) in W by lia.
  unfold boot_tables in W. rewrite (proj2 (Z.ltb_ge _ _)) in W by lia.
  rewrite (proj2 (Z.ltb_lt _ _)) in W by lia. cbv zeta in W.
  replace (512 * (1 + q) + b - 512) with (512 * q + b) in W by lia. exact W.
Qed.

Lemma walk_sbi c :
  0 <= c < 512 -> word m (B + 8 * c) (if 512 - nsbi <=? c then srx (c - (512 - nsbi)) else 0).
Proof.
  intros Hc. pose proof (table_word _ _ _ _ c tables ltac:(unfold num in *; lia)) as W.
  unfold boot_tables in W. rewrite (proj2 (Z.ltb_lt _ _)) in W by lia. exact W.
Qed.

(** A walk of an address in the upper half, by its fields. *)
Lemma walk_upper va a b c d :
  va = 2 ^ 64 - 2 ^ 39 + a * 2 ^ 30 + b * 2 ^ 21 + c * 2 ^ 12 + d ->
  256 <= a < 512 -> 0 <= b < 512 -> 0 <= c < 512 -> 0 <= d < 4096 ->
  ptw 2 m (B + 4096 * (1 + num)) va = boot_map walk_fuv cnt pa0 nsbi va.
Proof.
  intros Eva Ha Hb Hc Hd.
  destruct (va_fields va (2 ^ 25 - 1) a b c d) as (F2 & F1 & F0 & _ & M1 & _); [lia|lia|lia|lia|lia|].
  unfold boot_map, walk_fuv. destruct BB as [Hdiv HB0].
  assert (EB : B / 4096 * 4096 = B) by (pose proof (Z.div_mod B 4096); lia).
  pose proof (walk_root a ltac:(lia)) as W2. destruct (Z.leb_spec fa a) as [Lr|Lr].
  2: { rewrite ptw_unmapped by (change (12 + 9 * Z.of_nat 2) with 30; by rewrite F2).
       destruct (Z.leb_spec (2 ^ 64 - 2 ^ 39 + fa * 2 ^ 30 + fb * 2 ^ 21) va); [lia|].
       destruct (Z.leb_spec (2 ^ 64 - 4096 * nsbi) va); [lia|done]. }
  rewrite (ptw_table 1 _ _ _ (B / 4096 + 1 + (a - fa))) by (change (12 + 9 * Z.of_nat 2) with 30; by rewrite F2).
  replace ((B / 4096 + 1 + (a - fa)) * 4096) with (B + 4096 * (1 + (a - fa))) by lia.
  pose proof (walk_middle (a - fa) b ltac:(unfold num; lia) Hb) as W1.
  destruct (Z.eqb_spec (512 * (a - fa) + b) (512 * num - 1)) as [Es|Es].
  - unfold num in *. assert (a = 511 /\ b = 511) as [-> ->] by lia.
    rewrite (ptw_table 0 _ _ _ (B / 4096)) by (change (12 + 9 * Z.of_nat 1) with 21; by rewrite F1).
    rewrite EB. pose proof (walk_sbi c Hc) as W0.
    destruct (Z.ltb_spec va (2 ^ 64 - 2 ^ 39 + fa * 2 ^ 30 + fb * 2 ^ 21 + 2 ^ 21 * cnt)); [lia|]. rewrite andb_false_r.
    destruct (Z.leb_spec (512 - nsbi) c), (Z.leb_spec (2 ^ 64 - 4096 * nsbi) va); try lia.
    + unfold srx in *. rewrite (ptw_leaf 0 _ _ _ _ 0x15 ltac:(change (12 + 9 * Z.of_nat 0) with 12; rewrite F0; exact W0)) by
        (done || vm_decide). change (12 + 9 * Z.of_nat 0) with 12. change (9 * Z.of_nat 0) with 0.
      assert ((va - (2 ^ 64 - 4096 * nsbi)) / 4096 = c - (512 - nsbi)) as ->.
      { symmetry. apply (Z.div_unique _ _ _ d); lia. }
      do 2 f_equal. rewrite Z.div_1_r. pose proof (va_fields va (2 ^ 25 - 1) 511 511 c d). lia.
    + apply ptw_unmapped. change (12 + 9 * Z.of_nat 0) with 12. by rewrite F0.
  - destruct (Z.leb_spec (2 ^ 64 - 4096 * nsbi) va); [unfold num in *; lia|].
    destruct (Z.leb_spec fb (512 * (a - fa) + b)), (Z.ltb_spec (512 * (a - fa) + b) (fb + cnt));
      destruct (Z.leb_spec (2 ^ 64 - 2 ^ 39 + fa * 2 ^ 30 + fb * 2 ^ 21) va),
        (Z.ltb_spec va (2 ^ 64 - 2 ^ 39 + fa * 2 ^ 30 + fb * 2 ^ 21 + 2 ^ 21 * cnt)); cbn [andb] in *; try lia.
    all: try (apply ptw_unmapped; change (12 + 9 * Z.of_nat 1) with 21; by rewrite F1).
    unfold srwx in *.
    rewrite (ptw_leaf 1 _ _ _ _ 0x17 ltac:(change (12 + 9 * Z.of_nat 1) with 21; rewrite F1; exact W1)) by (done || vm_decide).
    change (12 + 9 * Z.of_nat 1) with 21. change (9 * Z.of_nat 1) with 9. rewrite M1.
    assert ((va - (2 ^ 64 - 2 ^ 39 + fa * 2 ^ 30 + fb * 2 ^ 21)) / 2 ^ 21 = 512 * (a - fa) + b - fb) as ->.
    { symmetry. apply (Z.div_unique _ _ _ (c * 2 ^ 12 + d)); lia. }
    destruct Bpa as [Hpa Hp0]. apply Z.mod_divide in Hpa as [k Ek]; [|lia]. rewrite Ek.
    replace (k * 2 ^ 21) with (k * 512 * 2 ^ 12) by lia. rewrite Z.div_mul by lia. change (2 ^ 9) with 512.
    replace (k * 512 + 512 * (512 * (a - fa) + b - fb)) with ((k + (512 * (a - fa) + b - fb)) * 512) by lia.
    rewrite Z.div_mul by lia. do 2 f_equal. lia.
Qed.

(** Every other address faults: the lower half and the non-canonical addresses. *)
Lemma walk_lower va : 0 <= va < 2 ^ 38 -> ptw 2 m (B + 4096 * (1 + num)) va = None.
Proof.
  intros Hva. destruct (va_split va ltac:(lia)) as (a & b & c & d & E & Ha & Hb & Hc & Hd).
  destruct (va_fields va 0 a b c d) as (F2 & _); [lia|lia|lia|lia|lia|].
  pose proof (walk_root a ltac:(lia)) as W. destruct (Z.leb_spec fa a); [lia|].
  apply ptw_unmapped. change (12 + 9 * Z.of_nat 2) with 30. by rewrite F2.
Qed.

Lemma walk_sv39 va : inu 64 va -> sv39 m (B + 4096 * (1 + num)) va = boot_map walk_fuv cnt pa0 nsbi va.
Proof.
  intros Hva. unfold sv39. pose proof (canonical_iff va Hva) as C. unfold inu in Hva.
  destruct (u64 (wraps 39 va) =? va) eqn:E.
  - destruct (proj1 C eq_refl) as [L|U].
    + rewrite walk_lower by lia. unfold boot_map, walk_fuv.
      destruct (Z.leb_spec (2 ^ 64 - 2 ^ 39 + fa * 2 ^ 30 + fb * 2 ^ 21) va); [lia|].
      destruct (Z.leb_spec (2 ^ 64 - 4096 * nsbi) va); [lia|done].
    + destruct (va_split (va - (2 ^ 64 - 2 ^ 39)) ltac:(lia)) as (a & b & c & d & Ev & Ha & Hb & Hc & Hd).
      apply (walk_upper va a b c d); lia.
  - assert (~ (va < 2 ^ 38 \/ 2 ^ 64 - 2 ^ 38 <= va)) as N by (intros X; apply C in X; done).
    unfold boot_map, walk_fuv.
    destruct (Z.leb_spec (2 ^ 64 - 2 ^ 39 + fa * 2 ^ 30 + fb * 2 ^ 21) va); [lia|].
    destruct (Z.leb_spec (2 ^ 64 - 4096 * nsbi) va); [lia|done].
Qed.
End Walk.

(** ** Running [supervisor_vm_init] *)

(** What [load_elf] leaves for a supervisor image: both its first virtual address and its
    first physical one are superpage-aligned, the image ends on a page, and there is room
    behind it for the tables. *)
Definition num_middle (fuv : Z) : Z := (2 ^ 64 - fuv - 1) / 2 ^ 30 + 1.
Definition table_base (c : elf_info) : Z := u64 (first_vaddr_after_user c + bias c).

Record supervisor_loaded {F FIL} (_end : Z) (s : vm F FIL) : Prop := {
  sl_fuv : first_user_vaddr (current s) mod 2 ^ 21 = 0;
  sl_fuv_range : 2 ^ 64 - 2 ^ 38 <= first_user_vaddr (current s) < 2 ^ 64;
  sl_ffp : first_free_paddr (current s) mod 2 ^ 21 = 0;
  sl_ffp_range : 0 < first_free_paddr (current s) < 2 ^ 64 - first_user_vaddr (current s);
  sl_bias : bias (current s) = u64 (first_free_paddr (current s) - first_user_vaddr (current s));
  sl_mem : 0 <= mem_size s < 2 ^ 40;
  sl_page : table_base (current s) mod 4096 = 0;
  sl_room : table_base (current s) + 4096 * (num_middle (first_user_vaddr (current s)) + 2) < 2 ^ 40;
  sl_mapped : mapped (mem (vfs s)) (table_base (current s))
                (Z.to_nat (4096 * (num_middle (first_user_vaddr (current s)) + 2)));
  sl_sbi : 0 <= _end - 1 /\ _end <= 512 * 4096;
  sl_alloc : next_free_page s = 0;
}.

(** The memory that is left to the supervisor: what lies below [-first_free_paddr] when
    mapped, in whole superpages. *)
Definition left_memory (c : elf_info) (n : Z) : Z :=
  ROUNDDOWN (Z.min n (2 ^ 64 - first_free_paddr c - first_user_vaddr c)) (2 ^ 21).
Definition superpages (c : elf_info) (n : Z) : Z :=
  (Z.max (first_free_paddr c) (left_memory c n) - first_free_paddr c) / 2 ^ 21.

Lemma num_middle_range fuv : 2 ^ 64 - 2 ^ 38 <= fuv < 2 ^ 64 -> 1 <= num_middle fuv <= 256.
Proof. intros Hf. unfold num_middle. pose proof (Z.div_mod (2 ^ 64 - fuv - 1) (2 ^ 30)). pose proof (Z.mod_pos_bound (2 ^ 64 - fuv - 1) (2 ^ 30)). lia. Qed.

(** The first virtual address by its fields. *)
Lemma fuv_fields fuv :
  2 ^ 64 - 2 ^ 38 <= fuv < 2 ^ 64 -> fuv mod 2 ^ 21 = 0 ->
  fuv = walk_fuv (512 - num_middle fuv) (fuv / 2 ^ 21 mod 512).
Proof.
  intros Hf Ha. unfold walk_fuv. destruct (va_split (fuv - (2 ^ 64 - 2 ^ 39)) ltac:(lia)) as (a & b & c & d & E & Ba & Bb & Bc & Bd).
  destruct (va_fields fuv (2 ^ 25 - 1) a b c d) as (F2 & F1 & _ & _ & M1 & _); [lia..|].
  rewrite F1. rewrite Ha in M1. assert (num_middle fuv = 512 - a) as ->; [|lia].
  unfold num_middle. enough ((2 ^ 64 - fuv - 1) / 2 ^ 30 = 511 - a) by lia.
  symmetry. apply (Z.div_unique _ _ _ (2 ^ 30 - 1 - (b * 2 ^ 21))); lia.
Qed.

Lemma left_memory_spec c n :
  0 <= n -> 0 < first_free_paddr c < 2 ^ 64 - first_user_vaddr c ->
  0 <= left_memory c n <= n /\ left_memory c n mod 2 ^ 21 = 0 /\
  left_memory c n <= 2 ^ 64 - first_free_paddr c - first_user_vaddr c.
Proof.
  intros Hn Hf. unfold left_memory, ROUNDDOWN. set (x := Z.min _ _).
  pose proof (Z.div_mod x (2 ^ 21)). pose proof (Z.mod_pos_bound x (2 ^ 21)).
  split; [|split]; [|apply Z.mod_mul; lia|]; lia.
Qed.

(** The size of the SBI in pages. *)
Lemma sbi_pages _end : 0 <= _end - 1 -> _end <= 512 * 4096 -> 1 <= sbi_top_paddr _end / 4096 <= 512.
Proof.
  intros H0 H1. unfold sbi_top_paddr, ROUNDUP, RISCV_PGSIZE.
  rewrite (wrapu_small _ (_end - 1)) by (unfold inu; lia).
  pose proof (Z.div_mod (_end - 1) 4096). pose proof (Z.mod_pos_bound (_end - 1) 4096).
  rewrite wrapu_small by (unfold inu; lia). rewrite Z.div_mul by lia. lia.
Qed.

(** The memory size as the code computes it. *)
Lemma left_memory_code c n :
  0 <= n -> 0 < first_free_paddr c < 2 ^ 64 - first_user_vaddr c -> 0 <= first_user_vaddr c ->
  Z.min n (u64 (u64 (- first_free_paddr c) - first_user_vaddr c)) &&& u64 (- SUPERPAGE_SIZE) = left_memory c n.
Proof.
  intros Hn Hf Hu. assert (u64 (- first_free_paddr c) = 2 ^ 64 - first_free_paddr c) as ->.
  { unfold wrapu. symmetry. apply (Z.mod_unique _ _ (-1)); lia. }
  rewrite wrapu_small by (unfold inu; lia). change (u64 (- SUPERPAGE_SIZE)) with (2 ^ 64 - 2 ^ 21).
  rewrite align_down by (unfold inu; lia). unfold left_memory, ROUNDDOWN. set (x := Z.min _ _).
  pose proof (Z.div_mod x (2 ^ 21)). lia.
Qed.

(** The words of the tables once the loops have run, but for the entry of the SBI's page. *)
Lemma boot_tables_patch B num i0 cnt pa0 nsbi j :
  0 <= j < 512 * (num + 2) -> 1 <= num <= 256 -> 0 <= i0 < 512 -> 0 <= cnt -> i0 + cnt < 512 * num -> 1 <= nsbi <= 512 ->
  patch (patch (patch (patch (fun _ => 0) (512 * (1 + num) + (512 - num)) num (fun k => ptd (B / 4096 + 1 + k)))
    (512 + i0) cnt (fun k => srwx (pa0 / 2 ^ 12 + 512 * k))) (512 - nsbi) nsbi srx)
    (512 + (512 * num - 1)) 1 (fun _ => ptd (B / 4096)) j = boot_tables B num i0 cnt pa0 nsbi j.
Proof.
  intros Hj Hn Hi Hc Hic Hs. unfold patch, boot_tables. cbv zeta.
  repeat match goal with
  | |- context [Z.leb ?a ?b] => destruct (Z.leb_spec a b); try lia
  | |- context [Z.ltb ?a ?b] => destruct (Z.ltb_spec a b); try lia
  | |- context [Z.eqb ?a ?b] => destruct (Z.eqb_spec a b); try lia
  end; cbn [andb]; try done; do 2 f_equal; lia.
Qed.

Section Run.
Context {F FIL : Type} `{FatFs F FIL}.
Implicit Types s : vm F FIL.

(** Clearing the pages: all tables are zero. *)
Lemma clear_tables s B num :
  0 <= num -> B mod 4096 = 0 -> 0 <= B -> B + 4096 * (num + 2) < 2 ^ 64 ->
  mapped (vmem s) B (Z.to_nat (4096 * (num + 2))) ->
  exists m1 m2,
    on_memory (memset B 0 RISCV_PGSIZE) s = Ret B (with_mem m1 s) /\
    on_memory (memset (B + 4096) 0 (4096 * (num + 1))) (with_mem m1 s) = Ret (B + 4096) (with_mem m2 s) /\
    table m2 B (512 * (num + 2)) (fun _ => 0) /\ same_outside B (4096 * (num + 2)) (vmem s) m2.
Proof.
  intros Hn Ha H0 Hb Hm.
  replace (Z.to_nat (4096 * (num + 2))) with (Z.to_nat 4096 + Z.to_nat (4096 * (num + 1)))%nat in Hm by lia.
  apply mapped_app in Hm as [M1 M2]. change (Z.of_nat (Z.to_nat 4096)) with 4096 in M2.
  assert (A8 : B mod 8 = 0).
  { apply Z.mod_divide in Ha as [k ->]; [|lia]. replace (k * 4096) with (k * 512 * 8) by lia. apply Z.mod_mul. lia. }
  do 2 eexists. split; [|split; [|split]].
  - apply on_memory_ret, memset_spec; unfold RISCV_PGSIZE; (lia || done).
  - rewrite (on_memory_ret _ _ (B + 4096) (write_bytes (vmem (with_mem (write_bytes (vmem s) B (replicate (Z.to_nat RISCV_PGSIZE) (u8 0))) s))
      (B + 4096) (replicate (Z.to_nat (4096 * (num + 1))) (u8 0)))); [done|].
    apply memset_spec; [lia|lia|lia|]. by apply mapped_write.
  - cbn [vmem with_mem set_vfs set_mem vfs mem].
    pose proof (table_zero (vmem s) B 512 A8 H0 ltac:(lia) ltac:(lia)) as T. change (8 * 512) with RISCV_PGSIZE in T.
    pose proof (table_append _ _ _ (512 * (num + 1)) _ T ltac:(lia) ltac:(lia) ltac:(lia)) as T2.
    replace (512 + 512 * (num + 1)) with (512 * (num + 2)) in T2 by lia.
    replace (8 * (512 * (num + 1))) with (4096 * (num + 1)) in T2 by lia.
    eapply table_ext; [exact T2|]. intros j _. cbv beta. destruct (Z.ltb j 512); reflexivity.
  - cbn [vmem with_mem set_vfs set_mem vfs mem]. unfold RISCV_PGSIZE.
    eapply same_outside_trans; apply same_outside_write; rewrite ?length_replicate; lia.
Qed.

(** The tables, the registers and the memory size [supervisor_vm_init] leaves. *)
Definition boot_result (_end : Z) s s' : Prop :=
  let c := current s in
  let B := table_base c in
  let num := num_middle (first_user_vaddr c) in
  table (vmem s') B (512 * (num + 2))
    (boot_tables B num (first_user_vaddr c / 2 ^ 21 mod 512) (superpages c (mem_size s)) (first_free_paddr c)
       (sbi_top_paddr _end / 4096)) /\
  sptbr s' = B + 4096 * (1 + num) /\ root_page_table s' = sptbr s' /\
  mem_size s' = left_memory c (mem_size s) /\ free_pages s' = 0 /\
  current s' = set_cur_first_vaddr_after_user (u64 (first_vaddr_after_user c + 4096 * (num + 2))) c /\
  same_outside B (4096 * (num + 2)) (vmem s) (vmem s').

Lemma ptd_create_value p : 0 <= p < 2 ^ 50 -> ptd_create p = ptd p.
Proof. intros Hp. unfold ptd_create. rewrite pte_value by (exact Hp || (unfold inu, PTE_TYPE_TABLE; lia)). done. Qed.

Lemma page_number B k : B mod 4096 = 0 -> (B + 4096 * k) >>> RISCV_PGSHIFT = B / 4096 + k.
Proof.
  intros Ha. unfold RISCV_PGSHIFT. rewrite Z.shiftr_div_pow2 by lia. change (2 ^ 12) with 4096.
  rewrite Z.mul_comm, Z.div_add by lia. done.
Qed.

(** The tables after each loop. *)
Definition tables_root (B num : Z) : Z -> Z :=
  patch (fun _ => 0) (512 * (1 + num) + (512 - num)) num (fun k => ptd (B / 4096 + 1 + k)).
Definition tables_mem (B num i0 cnt pa0 : Z) : Z -> Z :=
  patch (tables_root B num) (512 + i0) cnt (fun k => srwx (pa0 / 2 ^ 12 + 512 * k)).
Definition tables_sbi (B num i0 cnt pa0 nsbi : Z) : Z -> Z :=
  patch (tables_mem B num i0 cnt pa0) (512 - nsbi) nsbi srx.

Lemma root_loop s B num :
  1 <= num <= 256 -> B mod 4096 = 0 -> 0 <= B < 2 ^ 40 -> table (vmem s) B (512 * (num + 2)) (fun _ => 0) ->
  exists m, put_words (B + 8 * (512 * (1 + num))) ((1 <<< RISCV_PGLEVEL_BITS) - num)
      (fun i => ret (ptd_create (u64 (((B + 4096) >>> RISCV_PGSHIFT) + i)))) 0 (Z.to_nat num) s = Ret tt (with_mem m s) /\
    table m B (512 * (num + 2)) (tables_root B num) /\ same_outside B (4096 * (num + 2)) (vmem s) m.
Proof.
  intros Hn Pg HB T. change ((1 <<< RISCV_PGLEVEL_BITS) - num) with (512 - num).
  destruct (put_words_at s B (512 * (num + 2)) (fun _ => 0) (512 * (1 + num)) (512 - num)
    (fun i => ret (ptd_create (u64 (((B + 4096) >>> RISCV_PGSHIFT) + i)))) (fun i => ptd (B / 4096 + 1 + i)) 0 (Z.to_nat num))
    as (m & R & T' & K); [done|lia|lia| |].
  - intros j s' Hj. change (B + 4096) with (B + 4096 * 1). rewrite page_number by done.
    assert (0 <= B / 4096 < 2 ^ 28) by (split; [apply Z.div_pos; lia|apply Z.div_lt_upper_bound; lia]).
    rewrite wrapu_small by (unfold inu; lia). rewrite ptd_create_value by lia.
    split; [done|]. apply pte_value_range; [lia|vm_decide].
  - exists m. split; [exact R|]. rewrite Z2Nat.id, Z.add_0_r in T' by lia. split; [exact T'|].
    by replace (4096 * (num + 2)) with (8 * (512 * (num + 2))) by lia.
Qed.

Lemma superpage_loop s B num fuv pa0 :
  let i0 := fuv / 2 ^ 21 mod 512 in
  let cnt := (Z.max pa0 (mem_size s) - pa0) / 2 ^ 21 in
  table (vmem s) B (512 * (num + 2)) (tables_root B num) -> first_user_vaddr (current s) = fuv ->
  fuv mod 2 ^ 21 = 0 -> pa0 mod 2 ^ 21 = 0 -> 0 <= fuv -> 0 <= pa0 ->
  (mem_size s) mod 2 ^ 21 = 0 -> 0 <= mem_size s < 2 ^ 40 ->
  fuv + (Z.max pa0 (mem_size s) - pa0) <= 2 ^ 64 - 2 ^ 21 -> i0 + cnt < 512 * num ->
  exists m, map_superpages (S (Z.to_nat (mem_size s / SUPERPAGE_SIZE + 1))) (B + 4096) fuv pa0 s = Ret tt (with_mem m s) /\
    table m B (512 * (num + 2)) (tables_mem B num i0 cnt pa0) /\ same_outside B (4096 * (num + 2)) (vmem s) m.
Proof.
  intros i0 cnt T Ef Af Ap F0 P0 An [N0 N1] Hva Hc.
  destruct (map_superpages_at s B (512 * (num + 2)) (tables_root B num) 512 0
    (S (Z.to_nat (mem_size s / SUPERPAGE_SIZE + 1))) fuv pa0) as (m & R & T' & K); try done; try lia.
  - change SUPERPAGE_SIZE with (2 ^ 21). pose proof (Z.div_mod (mem_size s) (2 ^ 21)).
    pose proof (Z.mod_pos_bound (mem_size s) (2 ^ 21)). lia.
  - exists m. fold i0 cnt in T'. rewrite Z.add_0_r, Z.sub_0_r in T'. change (2 ^ 21 * 0) with 0 in R. rewrite !Z.add_0_r in R.
    split; [exact R|]. split; [exact T'|]. by replace (4096 * (num + 2)) with (8 * (512 * (num + 2))) by lia.
Qed.

Lemma sbi_loop s B num i0 cnt pa0 nsbi :
  1 <= nsbi <= 512 -> 1 <= num -> table (vmem s) B (512 * (num + 2)) (tables_mem B num i0 cnt pa0) ->
  exists m, put_words B ((1 <<< RISCV_PGLEVEL_BITS) - nsbi) (fun i => pte_create i (PROT_READ ||| PROT_EXEC) false) 0
      (Z.to_nat nsbi) s = Ret tt (with_mem m s) /\
    table m B (512 * (num + 2)) (tables_sbi B num i0 cnt pa0 nsbi) /\ same_outside B (4096 * (num + 2)) (vmem s) m.
Proof.
  intros Hs Hn T. change ((1 <<< RISCV_PGLEVEL_BITS) - nsbi) with (512 - nsbi).
  destruct (put_words_at s B (512 * (num + 2)) _ 0 (512 - nsbi) (fun i => pte_create i (PROT_READ ||| PROT_EXEC) false)
    srx 0 (Z.to_nat nsbi) T) as (m & R & T' & K); [lia|lia| |].
  - intros j s' Hj. rewrite (kernel_pte j _ PTE_TYPE_SRX) by (lia || done || vm_decide).
    split; [done|]. apply pte_value_range; [lia|vm_decide].
  - exists m. replace (B + 8 * 0) with B in R by lia. split; [exact R|].
    rewrite Z2Nat.id, Z.add_0_r in T' by lia. split; [exact T'|]. by replace (4096 * (num + 2)) with (8 * (512 * (num + 2))) by lia.
Qed.

(** The entry for the SBI is free when it is filled. *)
Lemma sbi_entry_free B num i0 cnt pa0 nsbi :
  1 <= num <= 256 -> 0 <= i0 -> i0 + cnt < 512 * num -> 1 <= nsbi <= 512 ->
  tables_sbi B num i0 cnt pa0 nsbi (512 + (512 * num - 1)) = 0.
Proof.
  intros. unfold tables_sbi, tables_mem, tables_root, patch.
  repeat match goal with
  | |- context [Z.leb ?a ?b] => destruct (Z.leb_spec a b); try lia
  | |- context [Z.ltb ?a ?b] => destruct (Z.ltb_spec a b); try lia
  end; cbn [andb]; reflexivity.
Qed.

(** The numbers the code computes. *)
Lemma num_middle_code fuv : 0 < fuv < 2 ^ 64 -> u64 (u64 (- fuv) - 1) / MEGAPAGE_SIZE + 1 = num_middle fuv.
Proof.
  intros Hf. assert (u64 (- fuv) = 2 ^ 64 - fuv) as -> by (unfold wrapu; symmetry; apply (Z.mod_unique _ _ (-1)); lia).
  rewrite wrapu_small by (unfold inu; lia). done.
Qed.

Lemma sbi_index num : 1 <= num <= 256 -> u64 (num <<< RISCV_PGLEVEL_BITS) - 1 = 512 * num - 1.
Proof.
  intros Hn. rewrite Z.shiftl_mul_pow2 by (unfold RISCV_PGLEVEL_BITS; lia). change (2 ^ RISCV_PGLEVEL_BITS) with 512.
  rewrite wrapu_small by (unfold inu; lia). lia.
Qed.

Lemma image_start c :
  bias c = u64 (first_free_paddr c - first_user_vaddr c) -> 0 < first_free_paddr c < 2 ^ 64 ->
  u64 (first_user_vaddr c + bias c) = first_free_paddr c.
Proof.
  intros -> Hp. unfold wrapu. rewrite Zplus_mod_idemp_r.
  replace (_ + (_ - _)) with (first_free_paddr c) by lia. apply Z.mod_small. lia.
Qed.

(** The superpages end before the last entry of the middle tables. *)
Lemma superpages_bound c n :
  let fuv := first_user_vaddr c in
  0 <= n -> 2 ^ 64 - 2 ^ 38 <= fuv < 2 ^ 64 -> fuv mod 2 ^ 21 = 0 ->
  first_free_paddr c mod 2 ^ 21 = 0 -> 0 < first_free_paddr c < 2 ^ 64 - fuv ->
  0 <= superpages c n /\ fuv / 2 ^ 21 mod 512 + superpages c n < 512 * num_middle fuv.
Proof.
  intros fuv Hn Hf Af Ap Hp. destruct (left_memory_spec c n Hn Hp) as (_ & _ & L3). fold fuv in L3.
  pose proof (fuv_fields fuv ltac:(lia) Af) as Ef. unfold walk_fuv in Ef. unfold superpages.
  set (x := Z.max (first_free_paddr c) (left_memory c n) - first_free_paddr c).
  pose proof (Z.div_mod x (2 ^ 21)). pose proof (Z.mod_pos_bound x (2 ^ 21)).
  pose proof (Z.div_mod (first_free_paddr c) (2 ^ 21)). pose proof (Z.mod_pos_bound (fuv / 2 ^ 21) 512).
  unfold x in *. lia.
Qed.

Lemma supervisor_vm_init_runs _end s :
  supervisor_loaded _end s -> returns (supervisor_vm_init _end) s (fun _ s' => boot_result _end s s').
Proof.
  intros [Af [Uf1 Uf2] Ap [Bp1 Bp2] Ebias [N0 N1] Pg Room Map [E0 E1] Nf].
  unfold supervisor_vm_init, boot_result. cbv zeta. set (c := current s) in *.
  eapply returns_step; [reflexivity|]. fold c.
  set (fuv := first_user_vaddr c) in *. set (ffp := first_free_paddr c) in *. set (B := table_base c) in *.
  pose proof (num_middle_range fuv ltac:(lia)) as Bnum. pose proof (sbi_pages _end E0 E1) as Bsbi.
  change (u64 (first_vaddr_after_user c + bias c)) with B.
  assert (B0 : 0 <= B) by (unfold B, table_base; apply wrapu_range; lia).
  destruct (left_memory_spec c (mem_size s) N0 ltac:(lia)) as ([L0 L1] & L2 & L3). fold fuv ffp in L3.
  eapply returns_step; [reflexivity|].
  unfold fuv, ffp. rewrite left_memory_code by lia. fold fuv ffp. set (left := left_memory c (mem_size s)) in *.
  set (s1 := set_mem_size left s).
  rewrite num_middle_code by lia. unfold RISCV_PGSIZE.
  set (num := num_middle fuv) in *. set (nsbi := sbi_top_paddr _end / 4096) in *.
  rewrite (wrapu_small _ (B + 4096)), (wrapu_small _ (B + 4096 + num * 4096)), (wrapu_small _ ((num + 1) * 4096)) by (unfold inu; lia).
  replace (B + 4096 + num * 4096) with (B + 8 * (512 * (1 + num))) by lia. rewrite (Z.mul_comm (num + 1)).
  destruct (clear_tables s1 B num ltac:(lia) Pg B0 ltac:(lia) Map) as (m1 & m2 & R1 & R2 & T2 & K2).
  eapply returns_step; [exact R1|]. eapply returns_step; [exact R2|].
  destruct (root_loop (with_mem m2 s1) B num Bnum Pg ltac:(lia) T2) as (m3 & R3 & T3 & K3).
  eapply returns_step; [exact R3|]. eapply returns_step; [reflexivity|].
  pose proof (image_start c Ebias ltac:(lia)) as Es. fold fuv ffp in Es. rewrite Es.
  set (i0 := fuv / 2 ^ 21 mod 512) in *. assert (Bi0 : 0 <= i0 < 512) by (apply Z.mod_pos_bound; lia).
  assert (Bcnt : 0 <= superpages c (mem_size s) /\ i0 + superpages c (mem_size s) < 512 * num)
    by (apply superpages_bound; lia || done).
  set (cnt := superpages c (mem_size s)) in *.
  destruct (superpage_loop (with_mem m3 s1) B num fuv ffp T3) as (m4 & R4 & T4 & K4);
    try done; change (mem_size (with_mem m3 s1)) with left; try (fold i0; change ((Z.max ffp left - ffp) / 2 ^ 21) with cnt; lia).
  { pose proof (Z.div_mod fuv (2 ^ 21)). pose proof (Z.div_mod ffp (2 ^ 21)). lia. }
  eapply returns_step; [exact R4|]. eapply returns_step; [reflexivity|].
  match goal with |- returns _ ?x _ => set (s2 := x) end.
  destruct (sbi_loop s2 B num i0 cnt ffp nsbi Bsbi ltac:(lia) T4) as (m5 & R5 & T5 & K5).
  eapply returns_step; [exact R5|].
  rewrite (sbi_index num) by lia. change (B + 4096) with (B + 8 * 512).
  eapply returns_step; [eapply get_word_at; [exact T5|lia]|]. rewrite sbi_entry_free by lia.
  eapply returns_step; [reflexivity|]. eapply returns_step; [eapply put_word_at; [exact T5|lia]|].
  eapply returns_step; [reflexivity|]. eapply returns_step; [change (next_free_page _) with (next_free_page s); rewrite Nf; reflexivity|].
  do 2 (eapply returns_step; [reflexivity|]). apply returns_modify.
  assert (Pb : 0 <= B / 4096 < 2 ^ 28) by (split; [apply Z.div_pos; lia|apply Z.div_lt_upper_bound; lia]).
  assert (EP : ptd_create (B >>> RISCV_PGSHIFT) = ptd (B / 4096)).
  { replace B with (B + 4096 * 0) at 1 by lia. rewrite page_number, Z.add_0_r by done. apply ptd_create_value. lia. }
  split; [|split_and!; try done; [cbn; lia| |]].
  - cbn. rewrite EP. eapply table_ext; [apply table_write; [exact T5|lia|apply pte_value_range; [lia|vm_decide]]|].
    intros j Hj. apply boot_tables_patch; lia.
  - cbn. do 2 f_equal. unfold table_base in *. lia.
  - replace (4096 * (num + 2)) with (8 * (512 * (num + 2))) in * by lia.
    refine (same_outside_trans _ _ _ m5 _ _ (same_outside_word _ _ _ (512 + (512 * num - 1)) _ _ T5 _)); [|lia].
    do 3 (eapply same_outside_trans; [eassumption|]). exact K5.
Qed.
End Run.

(** ** The supervisor's address space *)

(** A mapping of the boot tables: never for user mode, always readable and executable, and
    writable only inside the memory left to the supervisor. *)
Lemma boot_map_access c n nsbi va pte pa :
  0 <= n -> 0 < first_free_paddr c < 2 ^ 64 - first_user_vaddr c -> first_free_paddr c mod 2 ^ 21 = 0 ->
  boot_map (first_user_vaddr c) (superpages c n) (first_free_paddr c) nsbi va = Some (pte, pa) ->
  PTE_UR pte = false /\ PTE_UW pte = false /\ PTE_UX pte = false /\ PTE_SR pte = true /\ PTE_SX pte = true /\
  (PTE_SW pte = true -> first_free_paddr c <= pa < left_memory c n).
Proof.
  intros Hn Hp Ap. destruct (left_memory_spec c n Hn Hp) as (_ & L2 & _).
  unfold boot_map. destruct (_ && _) eqn:E.
  - apply andb_true_iff in E as [E1%Z.leb_le E2%Z.ltb_lt]. intros [= <- <-].
    unfold PTE_UR, PTE_UW, PTE_UX, PTE_SR, PTE_SX, PTE_SW, srwx. rewrite !pte_attr_value.
    split_and!; try done. intros _. unfold superpages in E2.
    set (x := Z.max _ _ - _) in *. pose proof (Z.div_mod x (2 ^ 21)). pose proof (Z.mod_pos_bound x (2 ^ 21)). unfold x in *. lia.
  - destruct (Z.leb_spec (2 ^ 64 - 4096 * nsbi) va); [|done]. intros [= <- <-].
    unfold PTE_UR, PTE_UW, PTE_UX, PTE_SR, PTE_SX, PTE_SW, srx. rewrite !pte_attr_value. split_and!; done.
Qed.

(** The walk over the tables [supervisor_vm_init] leaves. *)
Lemma boot_walk {F FIL} `{FatFs F FIL} _end (s s' : vm F FIL) :
  supervisor_loaded _end s -> boot_result _end s s' ->
  let c := current s in
  forall va, inu 64 va -> sv39 (vmem s') (sptbr s') va =
    boot_map (first_user_vaddr c) (superpages c (mem_size s)) (first_free_paddr c) (sbi_top_paddr _end / 4096) va.
Proof.
  intros L (T & Er & _) c va Hva. pose proof L as [Af Uf Ap Bp _ [N0 _] Pg Room _ [E0 E1] _]. fold c in Af, Uf, Ap, Bp, Pg, Room, T, Er.
  pose proof (num_middle_range _ Uf) as Bnum. pose proof (sbi_pages _end E0 E1) as Bs.
  destruct (superpages_bound c (mem_size s) N0 Uf Af Ap Bp) as [S0 S1].
  pose proof (walk_sv39 (vmem s') (table_base c) (512 - num_middle (first_user_vaddr c))
    (first_user_vaddr c / 2 ^ 21 mod 512) (superpages c (mem_size s)) (first_free_paddr c) (sbi_top_paddr _end / 4096)) as W.
  replace (512 - (512 - num_middle (first_user_vaddr c))) with (num_middle (first_user_vaddr c)) in W by lia.
  rewrite <- (fuv_fields _ Uf Af) in W. rewrite Er. apply W; try lia; try done.
  - apply Z.mod_pos_bound. lia.
  - split; [done|]. unfold table_base. apply wrapu_range. lia.
Qed.

(** C5. The page tables [supervisor_vm_init] builds for a loaded supervisor image are the
    address space it means to give: it always finishes, and the hardware's Sv39 walk from
    the register it writes maps every virtual address as [boot_map] says (the image and the
    memory behind it from the image's first address, superpage by superpage; the pages of
    the SBI at the top of the address space; nothing else), no page is accessible to user
    mode, and only the memory [mem_size] leaves to the supervisor is writable. *)
Theorem supervisor_address_space {F FIL} `{FatFs F FIL} _end (s : vm F FIL) :
  supervisor_loaded _end s ->
  returns (supervisor_vm_init _end) s (fun _ s' =>
    let c := current s in
    mem_size s' = left_memory c (mem_size s) /\ free_pages s' = 0 /\ root_page_table s' = sptbr s' /\
    (forall va, inu 64 va ->
      sv39 (vmem s') (sptbr s') va =
      boot_map (first_user_vaddr c) (superpages c (mem_size s)) (first_free_paddr c) (sbi_top_paddr _end / 4096) va) /\
    (forall va pte pa, inu 64 va -> sv39 (vmem s') (sptbr s') va = Some (pte, pa) ->
      PTE_UR pte = false /\ PTE_UW pte = false /\ PTE_UX pte = false /\ PTE_SR pte = true /\ PTE_SX pte = true /\
      (PTE_SW pte = true -> first_free_paddr c <= pa < mem_size s'))).
Proof.
  intros L. pose proof L as [_ _ Ap Bp _ [N0 _] _ _ _ _ _].
  eapply returns_mono; [by apply supervisor_vm_init_runs|].
  intros [] s' Br. pose proof (boot_walk _end s s' L Br) as W. destruct Br as (_ & _ & Ert & Em & Ef & _). cbv zeta in *.
  split_and!; try done. intros va pte pa Hva Hw. rewrite W in Hw by done. rewrite Em.
  eapply boot_map_access; eauto.
Qed.

(** A one-page image linked at [-2^31], loaded at 2 MB of 16 MB, under a 32 KB boot loader. *)
Definition boot_demo_info : elf_info :=
  ElfInfo 1 56 1 1 0 0 (2 ^ 21) (2 ^ 64 - 2 ^ 31) (2 ^ 64 - 2 ^ 31 + 4096) (u64 (2 ^ 21 - (2 ^ 64 - 2 ^ 31)))
    (2 ^ 64 - 2 ^ 31) 0 0 0 0 0 0 0.
Definition boot_demo : vm (list Z) Z :=
  Vm boot_demo_info (2 ^ 24) 0 0 0 0 4096 0 0 0
    (Fsys [] 0 0 0 [] (write_bytes ∅ 0x201000 (replicate (Z.to_nat 16384) 0xEE))).

Lemma supervisor_address_space_witness :
  supervisor_loaded 0x8000 boot_demo /\
  returns (supervisor_vm_init 0x8000) boot_demo (fun _ s' =>
    mem_size s' = 2 ^ 24 /\
    sv39 (vmem s') (sptbr s') (2 ^ 64 - 2 ^ 31 + 0x212345) = Some (srwx 1024, 2 ^ 21 + 0x212345) /\
    sv39 (vmem s') (sptbr s') (2 ^ 64 - 1) = Some (srx 7, 0x7FFF) /\
    sv39 (vmem s') (sptbr s') (2 ^ 64 - 2 ^ 31 - 1) = None).
Proof.
  assert (L : supervisor_loaded 0x8000 boot_demo).
  { constructor; try (vm_compute; repeat split; congruence).
    change (table_base (current boot_demo)) with 0x201000. eexists.
    pose proof (read_write_bytes (replicate (Z.to_nat 16384) 0xEE) ∅ 0x201000) as R. rewrite length_replicate in R.
    apply R. lia. }
  split; [exact L|]. eapply returns_mono; [exact (supervisor_address_space 0x8000 boot_demo L)|].
  intros [] s' (Em & _ & _ & W & _). cbv zeta in W. split; [exact Em|].
  split_and!; rewrite W by (unfold inu; lia); reflexivity.
Defined.

(** ** The page allocator *)
Section Allocator.
Context {F FIL : Type} `{FatFs F FIL}.
Implicit Types s : vm F FIL.

(** The pool is whole, mapped pages; [next_free_page] of them are handed out. *)
Record allocator_ok s : Prop := {
  ao_count : 0 <= next_free_page s <= free_pages s;
  ao_page : first_free_page s mod 4096 = 0;
  ao_range : 0 <= first_free_page s /\ first_free_page s + 4096 * free_pages s < 2 ^ 64;
  ao_mapped : mapped (vmem s) (first_free_page s) (Z.to_nat (4096 * free_pages s));
}.

(** [n] calls in a row. *)
Fixpoint alloc_pages (n : nat) : ST (vm F FIL) (list Z) :=
  match n with
  | O => ret []
  | S n' => let! a := __page_alloc in let! l := alloc_pages n' in ret (a :: l)
  end.

Definition pool_page s (i : Z) : Z := first_free_page s + 4096 * i.
Definition zero_page (m : memory) (a : Z) : Prop := read_bytes m a (Z.to_nat 4096) = Some (replicate (Z.to_nat 4096) 0).

Lemma mapped_window m a k n total :
  (k + n <= total)%nat -> mapped m a total -> mapped m (a + Z.of_nat k) n.
Proof.
  intros Hle [bs Hm]. replace total with (k + (n + (total - k - n)))%nat in Hm by lia.
  apply read_bytes_window in Hm. eexists. exact Hm.
Qed.

Lemma page_alloc_runs s :
  allocator_ok s -> next_free_page s < free_pages s ->
  let a := pool_page s (next_free_page s) in
  let s' := with_mem (write_bytes (vmem s) a (replicate (Z.to_nat 4096) 0)) (set_next_free_page (next_free_page s + 1) s) in
  __page_alloc s = Ret a s' /\ allocator_ok s'.
Proof.
  intros [[C0 C1] Pg [R0 R1] M] Hn a s'. unfold __page_alloc, RISCV_PGSIZE. unfold bind at 1 2, gets at 1 2.
  unfold bind at 1, kassert. rewrite (proj2 (Z.eqb_neq _ _)) by lia. cbn [negb]. unfold ret at 1.
  unfold bind at 1, gets. rewrite (wrapu_small _ (first_free_page s + 4096 * next_free_page s)) by (unfold inu; lia).
  rewrite (wrapu_small _ (next_free_page s + 1)) by (unfold inu; lia).
  change (first_free_page s + 4096 * next_free_page s) with a.
  unfold bind at 1, modify. unfold bind. split.
  - rewrite (on_memory_ret _ _ a (write_bytes (vmem s) a (replicate (Z.to_nat 4096) (u8 0)))); [reflexivity|].
    apply memset_spec; unfold a, pool_page; try lia. change (vmem (set_next_free_page _ s)) with (vmem s).
    replace (first_free_page s + 4096 * next_free_page s) with (first_free_page s + Z.of_nat (Z.to_nat (4096 * next_free_page s))) by lia.
    apply (mapped_window _ _ _ _ (Z.to_nat (4096 * free_pages s))); [lia|exact M].
  - constructor; [change (0 <= next_free_page s + 1 <= free_pages s); lia|exact Pg|exact (conj R0 R1)|]. exact (mapped_write _ _ _ _ _ M).
Qed.

Lemma alloc_pages_runs n : forall s,
  allocator_ok s -> next_free_page s + Z.of_nat n <= free_pages s ->
  exists m, alloc_pages n s = Ret ((fun i => pool_page s (next_free_page s + Z.of_nat i)) <$> seq 0 n)
      (with_mem m (set_next_free_page (next_free_page s + Z.of_nat n) s)) /\
    allocator_ok (with_mem m (set_next_free_page (next_free_page s + Z.of_nat n) s)) /\
    (forall i, next_free_page s <= i < next_free_page s + Z.of_nat n -> zero_page m (pool_page s i)) /\
    (forall b k, fits b k -> apart b k (pool_page s (next_free_page s)) (Z.to_nat (4096 * Z.of_nat n)) ->
       read_bytes m b k = read_bytes (vmem s) b k).
Proof.
  induction n as [|n IH]; intros s Hok Hn.
  { exists (vmem s). rewrite Z.add_0_r. split_and!; try lia; try done.
    - by destruct s as [??????????[]].
    - by destruct s as [??????????[]]. }
  pose proof Hok as [C Pg [R0 R1] _].
  destruct (page_alloc_runs s Hok ltac:(lia)) as [E1 Ok1]. set (m1 := write_bytes _ _ _) in *.
  set (s1 := with_mem m1 _) in *. assert (N1 : next_free_page s1 = next_free_page s + 1) by reflexivity.
  destruct (IH s1 Ok1) as (m & E & Hok' & Hz & Hf); [rewrite N1; cbn [free_pages s1 with_mem set_vfs set_next_free_page]; lia|].
  change (pool_page s1) with (pool_page s) in *. rewrite N1 in *.
  replace (next_free_page s + 1 + Z.of_nat n) with (next_free_page s + Z.of_nat (S n)) in * by lia.
  exists m. split_and!.
  - cbn [alloc_pages]. unfold bind at 1. rewrite E1. unfold bind. rewrite E. unfold ret. f_equal.
    change (seq 0 (S n)) with (0%nat :: seq 1 n). rewrite fmap_cons, Z.add_0_r. f_equal.
    rewrite <- fmap_S_seq, <- list_fmap_compose. apply list_fmap_ext. intros i x _. cbn. f_equal. lia.
  - exact Hok'.
  - intros i Hi. destruct (Z.eq_dec i (next_free_page s)) as [->|Hne]; [|apply Hz; lia].
    unfold zero_page, pool_page in *. rewrite Hf.
    + change (vmem s1) with m1. unfold m1. pose proof (read_write_bytes (replicate (Z.to_nat 4096) 0) (vmem s)) as R.
      rewrite length_replicate in R. apply R. lia.
    + unfold fits. lia.
    + unfold apart. lia.
  - intros b k Hb Ha. rewrite Hf; [|done|unfold apart, pool_page in *; lia]. change (vmem s1) with m1. unfold m1.
    apply read_write_apart; [done| |]; rewrite length_replicate; unfold fits, apart, pool_page in *; lia.
Qed.

(** The board's memory: 956 MB, a page of the pool for every megabyte. *)
Definition board_memory : Z := 956 * 2 ^ 20.
Definition pool_start : Z := board_memory - 956 * 4096.

Lemma start_up_runs _end num_harts s :
  num_harts <> 0 -> next_free_page s = 0 -> mapped (vmem s) pool_start (Z.to_nat (956 * 4096)) ->
  returns (memory_init num_harts ;; vm_init _end num_harts) s (fun _ s1 =>
    allocator_ok s1 /\ next_free_page s1 = 0 /\ free_pages s1 = 956 /\ mem_size s1 = board_memory /\
    first_free_page s1 = pool_start /\ brk_max (current s1) = pool_start /\ mmap_max (current s1) = pool_start).
Proof.
  intros Hh Hn Hm. assert (memory_init num_harts s = Ret tt (set_mem_size board_memory s)) as E.
  { unfold memory_init. rewrite (proj2 (Z.eqb_neq num_harts 0)) by done. reflexivity. }
  eapply returns_step; [exact E|]. unfold vm_init.
  repeat (eapply returns_step; [reflexivity|]). apply returns_modify.
  split; [|split_and!; (exact Hn || reflexivity)].
  constructor; [|reflexivity| |exact Hm].
  - change (0 <= next_free_page s <= 956). lia.
  - change (0 <= pool_start /\ pool_start + 4096 * 956 < 2 ^ 64). vm_decide.
Qed.
End Allocator.

(** C39. The page allocator as start-up sets it up ([memory_init], [vm_init]): any number of
    calls up to the 956 pages of the pool returns that many distinct pages, each
    page-aligned, zeroed, above the limit given to the program break and mappings and inside
    the memory; nothing outside the pool changes; the allocator's invariant is kept; and the
    call after the last page stops in the assertion with the state unchanged. *)
Theorem page_allocator_sound {F FIL} `{FatFs F FIL} _end num_harts (s : vm F FIL) :
  num_harts <> 0 -> next_free_page s = 0 -> mapped (vmem s) pool_start (Z.to_nat (956 * 4096)) ->
  returns (memory_init num_harts ;; vm_init _end num_harts) s (fun _ s1 =>
    allocator_ok s1 /\
    forall n, (n <= 956)%nat ->
    returns (alloc_pages n) s1 (fun l s2 =>
      allocator_ok s2 /\ length l = n /\ NoDup l /\
      Forall (fun a => a mod 4096 = 0 /\ brk_max (current s2) <= a /\ a + 4096 <= mem_size s2 /\ zero_page (vmem s2) a) l /\
      (forall b k, fits b k -> apart b k pool_start (Z.to_nat (956 * 4096)) ->
         read_bytes (vmem s2) b k = read_bytes (vmem s1) b k) /\
      (n = 956%nat -> exists msg, __page_alloc s2 = Panic msg s2))).
Proof.
  intros Hh Hn Hm. eapply returns_mono; [by apply start_up_runs|].
  intros [] s1 (Hok & N0 & Fp & Ms & Ff & Bm & _). split; [done|]. intros n Hle.
  destruct (alloc_pages_runs n s1 Hok ltac:(lia)) as (m & E & Hok2 & Hz & Hf). rewrite N0 in *.
  eapply returns_intro; [exact E|]. unfold pool_page in *. split_and!.
  - exact Hok2.
  - by rewrite length_fmap, length_seq.
  - apply NoDup_fmap_2_strong; [|apply NoDup_seq]. intros i j _ _. lia.
  - apply Forall_fmap, Forall_forall. intros i Hi. apply elem_of_seq in Hi.
    change (brk_max _) with (brk_max (current s1)). change (mem_size _) with (mem_size s1).
    cbn [compose]. rewrite Bm, Ms, Ff in *. split_and!.
    + replace (pool_start + _) with ((pool_start / 4096 + (0 + Z.of_nat i)) * 4096).
      * by apply Z.mod_mul.
      * change pool_start with (pool_start / 4096 * 4096) at 2. lia.
    + lia.
    + unfold pool_start. lia.
    + change (vmem (with_mem m _)) with m. apply Hz. lia.
  - intros b k Hb Ha. change (vmem (with_mem m _)) with m. apply Hf; [done|]. rewrite Ff. unfold apart, pool_start in *. lia.
  - intros ->. eexists. unfold __page_alloc. unfold bind at 1 2, gets at 1 2. unfold bind at 1, kassert.
    change (next_free_page _) with (0 + Z.of_nat 956). change (free_pages _) with (free_pages s1). rewrite Fp. reflexivity.
Qed.

Lemma page_allocator_sound_witness :
  let s : vm (list Z) Z := Vm boot_demo_info 0 0 0 0 0 0 0 0 0
    (Fsys [] 0 0 0 [] (write_bytes ∅ pool_start (replicate (Z.to_nat (956 * 4096)) 0xEE))) in
  returns (memory_init 1 ;; vm_init 0x8000 1) s (fun _ s1 =>
    returns (alloc_pages 3) s1 (fun l _ => length l = 3%nat /\ NoDup l)).
Proof.
  intros s. eapply returns_mono; [apply (page_allocator_sound 0x8000 1 s)|].
  - lia.
  - reflexivity.
  - eexists. pose proof (read_write_bytes (replicate (Z.to_nat (956 * 4096)) 0xEE) ∅ pool_start) as R.
    rewrite length_replicate in R. apply R. lia.
  - intros [] s1 [_ Hs]. eapply returns_mono; [apply (Hs 3%nat); lia|]. intros l s2 (_ & A & B & _). done.
Defined.
