(* ===== verification/Mmap.v ===== *)
(** * Mappings of the boot loader ([bbl/vm.c])

    The second half of [vm.c]: regions ([vmr_t]), the software walk that creates page
    tables on the way, page faults, [mmap], [munmap], [brk], [mprotect] and the kernel's
    own ranges.  The tables and the region array are words of memory; a page table is
    abstracted to the function from virtual pages to entries, and the theorems say what
    the calls do to that function and to what the hardware walk finds. *)

From Stdlib Require Import ZArith Lia Bool List String.
From stdpp Require Import base gmap list.
From S2P Require Import Prelude Machine Memory File VM.
Open Scope Z_scope.
Open Scope word_scope.

Definition MAP_PRIVATE : Z := 0x2.
Definition MAP_FIXED : Z := 0x10.
Definition MAP_ANONYMOUS : Z := 0x20.
Definition MAP_POPULATE : Z := 0x8000.
(** Error numbers of newlib's errno.h. *)
Definition ENOMEM : Z := 12.
Definition EACCES : Z := 13.
Definition EBADF : Z := 9.
Definition EINVAL : Z := 22.
Definition ENOSYS : Z := 88.

(** [sizeof(vmr_t)] and the number of regions in a page. *)
Definition VMR_SIZE : Z := 40.
Definition MAX_VMR : Z := RISCV_PGSIZE / VMR_SIZE.

(** Where the handle table of [file.c] lies and the size of its entries, which contain
    FatFs objects. *)
Record layout := Layout { files_base : Z; sizeof_file_t : Z }.

Section Mmap.
Context {F FIL : Type} `{FatFs F FIL}.
Abbreviation state := (vm F FIL).
Variable lay : layout.

Definition on_files {A} : ST (fsys F FIL) A -> ST state A := zoom vfs set_vfs.

(** The handle a [file_t*] points to. *)
Definition file_index (p : Z) : nat := Z.to_nat ((p - files_base lay) / sizeof_file_t lay).

(** ** Regions: the fields of a [vmr_t] *)
Definition vmr_addr (v : Z) : ST state Z := on_memory (load 8 v).
Definition vmr_length (v : Z) : ST state Z := on_memory (load 8 (u64 (v + 8))).
Definition vmr_file (v : Z) : ST state Z := on_memory (load 8 (u64 (v + 16))).
Definition vmr_offset (v : Z) : ST state Z := on_memory (load 8 (u64 (v + 24))).
Definition vmr_refcnt (v : Z) : ST state Z := on_memory (load 4 (u64 (v + 32))).
Definition vmr_prot (v : Z) : ST state Z := let! p := on_memory (load 4 (u64 (v + 36))) in ret (s32 p).
Definition set_vmr_addr (v x : Z) : ST state unit := on_memory (store 8 v x).
Definition set_vmr_length (v x : Z) : ST state unit := on_memory (store 8 (u64 (v + 8)) x).
Definition set_vmr_file (v x : Z) : ST state unit := on_memory (store 8 (u64 (v + 16)) x).
Definition set_vmr_offset (v x : Z) : ST state unit := on_memory (store 8 (u64 (v + 24)) x).
Definition set_vmr_refcnt (v x : Z) : ST state unit := on_memory (store 4 (u64 (v + 32)) x).
Definition set_vmr_prot (v x : Z) : ST state unit := on_memory (store 4 (u64 (v + 36)) x).

(** [for (v = vmrs; v < vmrs + MAX_VMR; v++)], by the regions left; 0 is [NULL]. *)
Fixpoint vmr_scan (k : nat) (v addr length file offset refcnt prot : Z) : ST state Z :=
  match k with
  | O => ret 0
  | S k' =>
      let! n := vmr_refcnt v in
      if n =? 0 then
        (if negb (file =? 0) then on_files (file_incref (file_index file)) else ret tt) ;;
        set_vmr_addr v addr ;;
        set_vmr_length v length ;;
        set_vmr_file v file ;;
        set_vmr_offset v offset ;;
        set_vmr_refcnt v refcnt ;;
        set_vmr_prot v prot ;;
        ret v
      else vmr_scan k' (u64 (v + VMR_SIZE)) addr length file offset refcnt prot
  end.

Definition __vmr_alloc (addr length file offset refcnt prot : Z) : ST state Z :=
  let! v0 := gets vmrs in
  (if v0 =? 0 then
     spinlock_lock vm_lock set_vm_lock ;;
     let! v1 := gets vmrs in
     (if v1 =? 0 then let! p := __page_alloc in modify (set_vmrs p) else ret tt) ;;
     spinlock_unlock set_vm_lock
   else ret tt) ;;
  let! v := gets vmrs in
  vmr_scan (Z.to_nat MAX_VMR) v addr length file offset refcnt prot.

Definition __vmr_decref (v dec : Z) : ST state unit :=
  let! n := vmr_refcnt v in
  let n' := u32 (n - dec) in
  set_vmr_refcnt v n' ;;
  if n' =? 0 then
    let! f := vmr_file v in
    if negb (f =? 0) then on_files (file_decref (file_index f)) else ret tt
  else ret tt.

(** ** The software walk *)
Definition __maybe_create_root_page_table : ST state unit :=
  let! r := gets root_page_table in
  if negb (r =? 0) then ret tt
  else
    let! p := __page_alloc in
    modify (set_root_page_table p) ;;
    let! h := gets have_vm in
    if negb (h =? 0) then modify (set_sptbr p) else ret tt.

(** [for (i = levels-1; i > 0; i--)]; the address of the last-level entry, or 0. *)
Fixpoint walk_loop (i : nat) (t addr : Z) (create : bool) : ST state Z :=
  match i with
  | O => ret (u64 (t + 8 * pt_idx addr 0))
  | S i' =>
      let idx := pt_idx addr (Z.of_nat i) in
      let! e := get_word t idx in
      let descend := let! e := get_word t idx in walk_loop i' (u64 (pte_ppn e <<< RISCV_PGSHIFT)) addr create in
      if (e &&& PTE_V) =? 0 then
        if negb create then ret 0
        else
          let! page := __page_alloc in
          put_word t idx (ptd_create (ppn page)) ;;
          descend
      else
        kassert (PTE_TABLE e) ;;
        descend
  end.

Definition __walk_internal (addr : Z) (create : bool) : ST state Z :=
  __maybe_create_root_page_table ;;
  let! t := gets root_page_table in
  walk_loop (Z.to_nat ((VA_BITS - RISCV_PGSHIFT) / RISCV_PGLEVEL_BITS - 1)) t addr create.
Definition __walk (addr : Z) : ST state Z := __walk_internal addr false.
Definition __walk_create (addr : Z) : ST state Z := __walk_internal addr true.

(** [*pte]. *)
Definition get_pte (pte : Z) : ST state Z := on_memory (load 8 pte).
Definition set_pte (pte v : Z) : ST state unit := on_memory (store 8 pte v).

(** ** Address ranges *)
Definition __va_avail (vaddr : Z) : ST state bool :=
  let! pte := __walk vaddr in
  if pte =? 0 then ret true else let! e := get_pte pte in ret (e =? 0).

(** [for (a = last; a > first && __va_avail(a); a -= RISCV_PGSIZE)]: where it stops. *)
Fixpoint vm_alloc_back (k : nat) (a first : Z) : ST state Z :=
  match k with
  | O => hang
  | S k' =>
      if first <? a then
        let! free := __va_avail a in
        if free then vm_alloc_back k' (u64 (a - RISCV_PGSIZE)) first else ret a
      else ret a
  end.

Fixpoint vm_alloc_loop (k : nat) (a e npage : Z) : ST state Z :=
  match k with
  | O => hang
  | S k' =>
      if a <=? e then
        let! free := __va_avail a in
        if negb free then vm_alloc_loop k' (u64 (a + RISCV_PGSIZE)) e npage
        else
          let first := a in
          let last := u64 (a + u64 (npage - 1) * RISCV_PGSIZE) in
          let! a := vm_alloc_back (S (Z.to_nat npage)) last first in
          if first <? a then vm_alloc_loop k' (u64 (a + RISCV_PGSIZE)) e npage
          else ret a
      else ret 0
  end.

Definition __vm_alloc (npage : Z) : ST state Z :=
  let! c := gets current in
  let start := brk c in
  let e := u64 (mmap_max c - npage * RISCV_PGSIZE) in
  vm_alloc_loop (Z.to_nat ((e - start) / RISCV_PGSIZE + 2)) start e npage.

Definition __valid_user_range (vaddr len : Z) : ST state bool :=
  if u64 (vaddr + len) <? vaddr then ret false
  else
    let! c := gets current in
    ret ((first_free_paddr c <=? vaddr) && (u64 (vaddr + len) <=? mmap_max c)).

(** ** Page faults *)

(** Fill the page at [vaddr] of the region [v] and give it to the user. *)
Definition resolve_fault (pte vpn vaddr : Z) : ST state unit :=
  let! v := get_pte pte in
  let! e := pte_create vpn (PROT_READ ||| PROT_WRITE) false in
  set_pte pte e ;;
  let! f := vmr_file v in
  (if negb (f =? 0) then
     let! len := vmr_length v in
     let! base := vmr_addr v in
     let flen := Z.min RISCV_PGSIZE (u64 (len - (vaddr - base))) in
     let! ofs := vmr_offset v in
     let! r := on_files (file_pread (file_index f) vaddr flen (u64 (vaddr - base + ofs))) in
     kassert (0 <? r) ;;
     if r <? RISCV_PGSIZE then on_memory (memset (u64 (vaddr + r)) 0 (RISCV_PGSIZE - r)) ;; ret tt else ret tt
   else on_memory (memset vaddr 0 RISCV_PGSIZE) ;; ret tt) ;;
  __vmr_decref v 1 ;;
  let! prot := vmr_prot v in
  let! e := pte_create vpn prot true in
  set_pte pte e.

Definition __handle_page_fault (vaddr prot : Z) : ST state Z :=
  let vpn := vaddr >>> RISCV_PGSHIFT in
  let vaddr := u64 (vpn <<< RISCV_PGSHIFT) in
  let! pte := __walk vaddr in
  if pte =? 0 then ret (-1)
  else
    let! e := get_pte pte in
    let! ok := __valid_user_range vaddr 1 in
    if (e =? 0) || negb ok then ret (-1)
    else
      (if (e &&& PTE_V) =? 0 then resolve_fault pte vpn vaddr else ret tt) ;;
      let! perms := pte_create 0 prot true in
      let! e := get_pte pte in
      if negb ((e &&& perms) =? perms) then ret (-1) else ret 0.

Definition handle_page_fault (vaddr prot : Z) : ST state Z :=
  spinlock_lock vm_lock set_vm_lock ;;
  let! r := __handle_page_fault vaddr prot in
  spinlock_unlock set_vm_lock ;;
  ret r.

(** ** Mapping and unmapping *)

(** [for (a = addr; a < e; a += RISCV_PGSIZE)]. *)
Fixpoint for_pages (k : nat) (a e : Z) (body : Z -> ST state unit) : ST state unit :=
  match k with
  | O => hang
  | S k' => if a <? e then body a ;; for_pages k' (u64 (a + RISCV_PGSIZE)) e body else ret tt
  end.
Definition pages_fuel (len : Z) : nat := Z.to_nat (len / RISCV_PGSIZE + 2).

Definition munmap_page (a : Z) : ST state unit :=
  let! pte := __walk a in
  if pte =? 0 then ret tt
  else
    let! e := get_pte pte in
    if e =? 0 then ret tt
    else
      (if (e &&& PTE_V) =? 0 then __vmr_decref e 1 else ret tt) ;;
      set_pte pte 0.

Definition __do_munmap (addr len : Z) : ST state unit :=
  for_pages (pages_fuel len) addr (u64 (addr + len)) munmap_page.

Definition mmap_page (v a : Z) : ST state unit :=
  let! pte := __walk_create a in
  kassert (negb (pte =? 0)) ;;
  let! e := get_pte pte in
  (if negb (e =? 0) then __do_munmap a RISCV_PGSIZE else ret tt) ;;
  set_pte pte v.

Definition __do_mmap (addr length prot flags file offset : Z) : ST state Z :=
  let npage := u64 (length - 1) / RISCV_PGSIZE + 1 in
  let! where_ :=
    (if negb ((flags &&& MAP_FIXED) =? 0) then
       let! ok := __valid_user_range addr length in
       ret (if negb ((addr &&& (RISCV_PGSIZE - 1)) =? 0) || negb ok then None else Some addr)
     else
       let! a := __vm_alloc npage in
       ret (if a =? 0 then None else Some a)) in
  match where_ with
  | None => ret (u64 (-1))
  | Some addr =>
      let! v := __vmr_alloc addr length file offset (u32 npage) (u32 prot) in
      if v =? 0 then ret (u64 (-1))
      else
        for_pages (pages_fuel length) addr (u64 (addr + length)) (mmap_page v) ;;
        let! h := gets have_vm in
        (if (h =? 0) || negb ((flags &&& MAP_POPULATE) =? 0) then
           for_pages (pages_fuel length) addr (u64 (addr + length))
             (fun a => let! r := __handle_page_fault a prot in kassert (r =? 0))
         else ret tt) ;;
        ret addr
  end.

Definition do_munmap (addr length : Z) : ST state Z :=
  let! ok := __valid_user_range addr length in
  if negb ((addr &&& (RISCV_PGSIZE - 1)) =? 0) || negb ok then ret (- EINVAL)
  else
    spinlock_lock vm_lock set_vm_lock ;;
    __do_munmap addr length ;;
    spinlock_unlock set_vm_lock ;;
    ret 0.

Definition do_mmap (addr length prot flags file offset : Z) : ST state Z :=
  if ((flags &&& MAP_PRIVATE) =? 0) || (length =? 0) || negb ((offset &&& (RISCV_PGSIZE - 1)) =? 0) then ret (u64 (- EINVAL))
  else if ((flags &&& MAP_ANONYMOUS) =? 0) && (file =? 0) then ret (u64 (- EBADF))
  else
    spinlock_lock vm_lock set_vm_lock ;;
    let! addr := __do_mmap addr length prot flags file offset in
    let! c := gets current in
    (if addr <? brk_max c then modify (fun s => set_current (set_cur_brk_max addr (current s)) s) else ret tt) ;;
    spinlock_unlock set_vm_lock ;;
    ret addr.

(** ** The program break *)
Definition set_cur_brk v c := ElfInfo (elf64 c) (phent c) (phnum c) (is_supervisor c) (phdr c) (phdr_size c) (first_free_paddr c) (first_user_vaddr c) (first_vaddr_after_user c) (bias c) (entry c) (brk_min c) v (brk_max c) (mmap_max c) (stack_bottom c) (stack_top c) (t0 c).
Definition set_cur_stack v w c := ElfInfo (elf64 c) (phent c) (phnum c) (is_supervisor c) (phdr c) (phdr_size c) (first_free_paddr c) (first_user_vaddr c) (first_vaddr_after_user c) (bias c) (entry c) (brk_min c) (brk c) (brk_max c) (mmap_max c) v w (t0 c).
Definition upd_current (f : elf_info -> elf_info) : ST state unit := modify (fun s => set_current (f (current s)) s).

Definition __do_brk (addr : Z) : ST state Z :=
  let! c := gets current in
  let newbrk := if addr <? brk_min c then brk_min c else if brk_max c <? addr then brk_max c else addr in
  (if brk c =? 0 then upd_current (set_cur_brk (ROUNDUP (brk_min c) RISCV_PGSIZE)) else ret tt) ;;
  let newbrk_page := ROUNDUP newbrk RISCV_PGSIZE in
  let! b := gets (fun s => brk (current s)) in
  (if newbrk_page <? b then __do_munmap newbrk_page (b - newbrk_page)
   else if b <? newbrk_page then
     let! a := __do_mmap b (newbrk_page - b) (-1) (MAP_FIXED ||| MAP_PRIVATE ||| MAP_ANONYMOUS) 0 0 in
     let! b' := gets (fun s => brk (current s)) in
     kassert (a =? b')
   else ret tt) ;;
  upd_current (set_cur_brk newbrk_page) ;;
  ret newbrk.

Definition do_brk (addr : Z) : ST state Z :=
  spinlock_lock vm_lock set_vm_lock ;;
  let! addr := __do_brk addr in
  spinlock_unlock set_vm_lock ;;
  ret addr.

Definition do_mremap (addr old_size new_size flags : Z) : ST state Z := ret (u64 (- ENOSYS)).

(** ** Protection *)

(** The loop of [do_mprotect]; leaving it early gives the error. *)
Fixpoint mprotect_loop (k : nat) (a e prot : Z) : ST state Z :=
  match k with
  | O => hang
  | S k' =>
      if a <? e then
        let! pte := __walk a in
        if pte =? 0 then ret (u64 (- ENOMEM))
        else
          let! x := get_pte pte in
          if x =? 0 then ret (u64 (- ENOMEM))
          else if (x &&& PTE_V) =? 0 then
            let! vp := vmr_prot x in
            if negb (((vp ^^^ prot) &&& Z.lnot vp) =? 0) then ret (u64 (- EACCES))
            else set_vmr_prot x (u32 prot) ;; mprotect_loop k' (u64 (a + RISCV_PGSIZE)) e prot
          else if (negb ((prot &&& PROT_WRITE) =? 0) && negb (PTE_UW x))
               || (negb ((prot &&& PROT_EXEC) =? 0) && negb (PTE_UX x)) then ret (u64 (- EACCES))
          else
            let! y := pte_create (pte_ppn x) prot true in
            set_pte pte y ;; mprotect_loop k' (u64 (a + RISCV_PGSIZE)) e prot
      else ret 0
  end.

Definition do_mprotect (addr length prot : Z) : ST state Z :=
  if negb ((addr &&& (RISCV_PGSIZE - 1)) =? 0) then ret (u64 (- EINVAL))
  else
    spinlock_lock vm_lock set_vm_lock ;;
    let! res := mprotect_loop (pages_fuel length) addr (u64 (addr + length)) prot in
    spinlock_unlock set_vm_lock ;;
    ret res.

(** ** The kernel's own ranges *)

(** [for (a = vaddr, i = 0; i < n; i++, a += RISCV_PGSIZE)], by the iterations left. *)
Fixpoint map_kernel_loop (k : nat) (a vaddr paddr prot : Z) : ST state unit :=
  match k with
  | O => ret tt
  | S k' =>
      let! pte := __walk_create a in
      kassert (negb (pte =? 0)) ;;
      let! e := pte_create (u64 (a - vaddr + paddr) >>> RISCV_PGSHIFT) prot false in
      set_pte pte e ;;
      map_kernel_loop k' (u64 (a + RISCV_PGSIZE)) vaddr paddr prot
  end.

Definition __map_kernel_range (vaddr paddr len prot : Z) : ST state unit :=
  let n := ROUNDUP len RISCV_PGSIZE / RISCV_PGSIZE in
  map_kernel_loop (Z.to_nat n) vaddr vaddr paddr prot.

Definition CLAMP (a lo hi : Z) : Z := Z.min (Z.max a lo) hi.

Definition pk_vm_init : ST state Z :=
  let! c := gets current in
  (if elf64 c =? 0 then upd_current (fun c => set_cur_mmap_max (Z.min (mmap_max c) 0x80000000) c) else ret tt) ;;
  __map_kernel_range 0 0 (first_free_paddr c) (PROT_READ ||| PROT_WRITE ||| PROT_EXEC) ;;
  let! first := gets first_free_page in
  let! k := gets free_pages in
  __map_kernel_range first first (u64 (k * RISCV_PGSIZE)) (PROT_READ ||| PROT_WRITE) ;;
  let! n := gets mem_size in
  let stack_size := RISCV_PGSIZE * CLAMP (n / (RISCV_PGSIZE * 32)) 1 256 in
  let! top := gets (fun s => mmap_max (current s)) in
  let! a := __do_mmap (u64 (top - stack_size)) stack_size (PROT_READ ||| PROT_WRITE ||| PROT_EXEC)
              (MAP_PRIVATE ||| MAP_ANONYMOUS ||| MAP_FIXED) 0 0 in
  upd_current (set_cur_stack a (u64 (a + stack_size))) ;;
  kassert (negb (a =? u64 (-1))) ;;
  let! p := __page_alloc in
  ret (u64 (p + RISCV_PGSIZE)).
End Mmap.

(** ** Page tables as trees *)

(** The ghost description of the tables: which pages are tables, of which level and for
    which prefix of the page number ([own]), and their entries ([tab]). *)
Record tree := Tree { own : Z -> option (nat * Z); tab : Z -> Z -> Z }.

Definition vidx (l : nat) (vpn : Z) : Z := vpn / 2 ^ (9 * Z.of_nat l) mod 512.
Definition vprefix (l : nat) (vpn : Z) : Z := vpn / 2 ^ (9 * Z.of_nat (S l)).
(** The table an intermediate entry points to. *)
Definition child (e : Z) : Z := e / 1024 * 4096.

(** The last-level entry of a page, 0 where a table is missing. *)
Fixpoint pget (T : tree) (l : nat) (t vpn : Z) : Z :=
  let e := tab T t (vidx l vpn) in
  match l with
  | O => e
  | S l' => if e =? 0 then 0 else pget T l' (child e) vpn
  end.
(** The last-level table of a page. *)
Fixpoint pleaf (T : tree) (l : nat) (t vpn : Z) : option Z :=
  match l with
  | O => Some t
  | S l' => let e := tab T t (vidx l vpn) in if e =? 0 then None else pleaf T l' (child e) vpn
  end.

Record tree_ok (T : tree) : Prop := {
  tree_page p l x : own T p = Some (l, x) -> p mod 4096 = 0 /\ 0 < p < 2 ^ 50;
  tree_child p l x i : own T p = Some (S l, x) -> 0 <= i < 512 ->
    tab T p i = 0 \/ exists q, tab T p i = ptd (q / 4096) /\ own T q = Some (l, x * 512 + i);
}.

Lemma vidx_range l vpn : 0 <= vidx l vpn < 512.
Proof. apply Z.mod_pos_bound. lia. Qed.

Lemma vprefix_step l vpn : vprefix (S l) vpn * 512 + vidx (S l) vpn = vprefix l vpn.
Proof.
  unfold vprefix, vidx. set (q := vpn / 2 ^ (9 * Z.of_nat (S l))).
  assert (vpn / 2 ^ (9 * Z.of_nat (S (S l))) = q / 512) as ->.
  { unfold q. rewrite Z.div_div by lia. f_equal. replace (9 * Z.of_nat (S (S l))) with (9 * Z.of_nat (S l) + 9) by lia.
    rewrite Z.pow_add_r by lia. done. }
  pose proof (Z.div_mod q 512). lia.
Qed.

Lemma vprefix_idx0 vpn : vprefix 0 vpn * 512 + vidx 0 vpn = vpn.
Proof.
  unfold vprefix, vidx. change (2 ^ (9 * Z.of_nat 1)) with 512. change (2 ^ (9 * Z.of_nat 0)) with 1.
  rewrite Z.div_1_r. pose proof (Z.div_mod vpn 512). lia.
Qed.

Section Tree.
Variable T : tree.
Hypothesis ok : tree_ok T.

Lemma ptd_child q : 0 <= q -> q mod 4096 = 0 -> child (ptd (q / 4096)) = q /\ ptd (q / 4096) <> 0.
Proof.
  intros H0 Hq. unfold child, ptd. change 1 with (1 + 0). rewrite Z.div_add_l by lia. change ((1 + 0) / 1024) with 0.
  pose proof (Z.div_mod q 4096). pose proof (Z.div_pos q 4096). lia.
Qed.

(** The two ways an intermediate entry can be. *)
Lemma tree_step t l vpn :
  own T t = Some (S l, vprefix (S l) vpn) ->
  (tab T t (vidx (S l) vpn) = 0) \/
  (tab T t (vidx (S l) vpn) <> 0 /\ exists q, tab T t (vidx (S l) vpn) = ptd (q / 4096) /\ child (ptd (q / 4096)) = q /\
     own T q = Some (l, vprefix l vpn)).
Proof.
  intros Ho. destruct (tree_child _ ok _ _ _ (vidx (S l) vpn) Ho (vidx_range _ _)) as [E|(q & E & Hq)]; [by left|].
  rewrite vprefix_step in Hq. destruct (tree_page _ ok _ _ _ Hq) as [A B]. destruct (ptd_child q) as [C1 C2]; [lia|done|].
  right. split; [by rewrite E|]. by exists q.
Qed.

Lemma pleaf_own l : forall t vpn t0,
  own T t = Some (l, vprefix l vpn) -> pleaf T l t vpn = Some t0 -> own T t0 = Some (0%nat, vprefix 0 vpn).
Proof.
  induction l as [|l IH]; intros t vpn t0 Ho; cbn [pleaf]; [by intros [= <-]|].
  destruct (tree_step t l vpn Ho) as [E|(N & q & E & C & Hq)].
  - by rewrite E.
  - rewrite (proj2 (Z.eqb_neq _ _)) by done. rewrite E, C. by apply IH.
Qed.

Lemma pget_leaf l : forall t vpn,
  pget T l t vpn = match pleaf T l t vpn with Some t0 => tab T t0 (vidx 0 vpn) | None => 0 end.
Proof. induction l as [|l IH]; intros t vpn; cbn [pget pleaf]; [done|]. destruct (_ =? 0); [done|]. apply IH. Qed.
End Tree.

(** Writing a last-level entry. *)
Definition set_leaf (T : tree) (t i v : Z) : tree :=
  Tree (own T) (fun p j => if (p =? t) && (j =? i) then v else tab T p j).

(** A new, empty table [p] under entry [i] of [t]. *)
Definition add_table (T : tree) (t i : Z) (l : nat) (x p : Z) : tree :=
  Tree (fun q => if q =? p then Some (l, x * 512 + i) else own T q)
       (fun q j => if q =? p then 0 else if (q =? t) && (j =? i) then ptd (p / 4096) else tab T q j).

Section Updates.
Variable T : tree.
Hypothesis ok : tree_ok T.

Lemma set_leaf_other t x i v p l y j :
  own T t = Some (0%nat, x) -> own T p = Some (S l, y) -> tab (set_leaf T t i v) p j = tab T p j.
Proof.
  intros Ht Hp. cbn. destruct (Z.eqb_spec p t) as [->|]; [|done]. rewrite Ht in Hp. done.
Qed.

Lemma set_leaf_ok t x i v : own T t = Some (0%nat, x) -> tree_ok (set_leaf T t i v).
Proof.
  intros Ht. split; [apply (tree_page _ ok)|]. intros p l y j Hp Hj.
  rewrite (set_leaf_other t x) with (l := l) (y := y) by done. by apply (tree_child _ ok).
Qed.

Lemma set_leaf_pleaf t x i v l : own T t = Some (0%nat, x) -> forall r vpn,
  own T r = Some (l, vprefix l vpn) -> pleaf (set_leaf T t i v) l r vpn = pleaf T l r vpn.
Proof.
  intros Ht. induction l as [|l IH]; intros r vpn Hr; cbn [pleaf]; [done|].
  rewrite (set_leaf_other t x _ _ _ l (vprefix (S l) vpn)) by done.
  destruct (tree_step T ok r l vpn Hr) as [E|(N & q & E & C & Hq)]; [by rewrite E|].
  rewrite (proj2 (Z.eqb_neq _ _)) by done. rewrite E, C. by apply IH.
Qed.

Lemma set_leaf_pget l r vpn t v vpn' :
  own T r = Some (l, vprefix l vpn) -> pleaf T l r vpn = Some t ->
  own T r = Some (l, vprefix l vpn') ->
  pget (set_leaf T t (vidx 0 vpn) v) l r vpn' = if vpn' =? vpn then v else pget T l r vpn'.
Proof.
  intros Hr Hl Hr'. pose proof (pleaf_own T ok l r vpn t Hr Hl) as Ht. rewrite !pget_leaf.
  rewrite (set_leaf_pleaf t (vprefix 0 vpn)) by done.
  destruct (Z.eqb_spec vpn' vpn) as [->|N].
  - rewrite Hl. cbn. by rewrite !Z.eqb_refl.
  - destruct (pleaf T l r vpn') as [t'|] eqn:E; [|done]. cbn.
    destruct (Z.eqb_spec t' t) as [->|]; [|done]. destruct (Z.eqb_spec (vidx 0 vpn') (vidx 0 vpn)) as [Ei|]; [|done].
    pose proof (pleaf_own T ok l r vpn' t Hr' E) as Ht'. rewrite Ht in Ht'. injection Ht' as Ep.
    pose proof (vprefix_idx0 vpn). pose proof (vprefix_idx0 vpn'). lia.
Qed.

Lemma add_table_ok t i l x p :
  own T t = Some (S l, x) -> own T p = None -> p mod 4096 = 0 -> 0 < p < 2 ^ 50 -> tree_ok (add_table T t i l x p).
Proof.
  intros Ht Hp Hm Hb. split.
  - intros q l' y. cbn. destruct (Z.eqb_spec q p) as [->|]; [done|]. apply (tree_page _ ok).
  - intros q l' y j. cbn. destruct (Z.eqb_spec q p) as [->|N]; [by left|]. intros Hq Hj.
    destruct (Z.eqb_spec q t) as [->|]; cbn [andb].
    + rewrite Ht in Hq. injection Hq as <- <-. destruct (Z.eqb_spec j i) as [->|].
      * right. exists p. by rewrite Z.eqb_refl.
      * destruct (tree_child _ ok _ _ _ _ Ht Hj) as [E|(c & E & Hc)]; [by left|]. right. exists c. split; [done|].
        destruct (Z.eqb_spec c p) as [->|]; [congruence|done].
    + destruct (tree_child _ ok _ _ _ _ Hq Hj) as [E|(c & E & Hc)]; [by left|]. right. exists c. split; [done|].
      destruct (Z.eqb_spec c p) as [->|]; [congruence|done].
Qed.

Lemma pget_empty (U : tree) l : forall p vpn, (forall j, tab U p j = 0) -> pget U l p vpn = 0.
Proof. destruct l; intros p vpn Hz; cbn [pget]; by rewrite Hz. Qed.

Lemma add_table_pget t i l x p :
  own T t = Some (S l, x) -> own T p = None -> 0 <= p -> p mod 4096 = 0 -> tab T t i = 0 ->
  forall l' r vpn, own T r = Some (l', vprefix l' vpn) -> pget (add_table T t i l x p) l' r vpn = pget T l' r vpn.
Proof.
  intros Ht Hp H0 Hm Hz l'. induction l' as [|l' IH]; intros r vpn Hr.
  - cbn. destruct (Z.eqb_spec r p) as [->|]; [congruence|]. destruct (Z.eqb_spec r t) as [->|]; [congruence|done].
  - cbn [pget]. cbn [tab add_table]. destruct (Z.eqb_spec r p) as [->|]; [congruence|].
    destruct (Z.eqb_spec r t) as [->|]; cbn [andb].
    + rewrite Ht in Hr. injection Hr as <- ->. destruct (Z.eqb_spec (vidx (S l) vpn) i) as [<-|].
      * rewrite Hz. change (0 =? 0) with true. cbv iota. destruct (ptd_child p H0 Hm) as [C N].
        rewrite (proj2 (Z.eqb_neq _ _)) by done. rewrite C. apply pget_empty. intros j. cbn. by rewrite Z.eqb_refl.
      * destruct (tree_step T ok t l vpn Ht) as [E|(N & q & E & C & Hq)]; [by rewrite E|].
        rewrite (proj2 (Z.eqb_neq _ _)) by done. rewrite E, C. by apply IH.
    + destruct (tree_step T ok r l' vpn Hr) as [E|(N & q & E & C & Hq)]; [by rewrite E|].
      rewrite (proj2 (Z.eqb_neq _ _)) by done. rewrite E, C. by apply IH.
Qed.

Lemma add_table_pleaf t i l x p :
  own T t = Some (S l, x) -> own T p = None -> tab T t i = 0 ->
  forall l' r vpn t0, own T r = Some (l', vprefix l' vpn) -> pleaf T l' r vpn = Some t0 ->
  pleaf (add_table T t i l x p) l' r vpn = Some t0.
Proof.
  intros Ht Hp Hz l'. induction l' as [|l' IH]; intros r vpn t0 Hr; cbn [pleaf]; [done|]. cbn [tab add_table].
  destruct (tree_step T ok r l' vpn Hr) as [E|(N & q & E & C & Hq)]; [by rewrite E|].
  destruct (Z.eqb_spec r p) as [->|]; [congruence|].
  destruct (Z.eqb_spec r t) as [->|]; cbn [andb].
  - destruct (Z.eqb_spec (vidx (S l') vpn) i) as [<-|]; [congruence|].
    rewrite (proj2 (Z.eqb_neq _ _)) by done. rewrite E, C. by apply IH.
  - rewrite (proj2 (Z.eqb_neq _ _)) by done. rewrite E, C. by apply IH.
Qed.
End Updates.

(** ** The tables in memory *)
Section Walks.
Context {F FIL : Type} `{FatFs F FIL}.
Implicit Types s : vm F FIL.

(** The tables are pages of the pool that have been handed out, and hold the tree. *)
Record vm_tree (T : tree) s : Prop := {
  vt_ok : tree_ok T;
  vt_root : own T (root_page_table s) = Some (2%nat, 0);
  vt_alloc : allocator_ok s;
  vt_pool : 0 < first_free_page s /\ first_free_page s + 4096 * free_pages s < 2 ^ 50;
  vt_own p l x : own T p = Some (l, x) -> exists k, p = pool_page s k /\ 0 <= k < next_free_page s;
  vt_mem p l x : own T p = Some (l, x) -> table (vmem s) p 512 (tab T p);
}.

(** The entry of a page, and where it is. *)
Definition pte_of (T : tree) s (vpn : Z) : Z := pget T 2 (root_page_table s) vpn.

Lemma pt_idx_vidx addr l : pt_idx addr (Z.of_nat l) = vidx l (addr / 4096).
Proof.
  unfold pt_idx, vidx, RISCV_PGLEVEL_BITS, RISCV_PGSHIFT. change ((1 <<< 9) - 1) with 511. rewrite idx_value by lia.
  rewrite Z.div_div by lia. do 2 f_equal. rewrite Z.pow_add_r by lia. change (2 ^ 12) with 4096. lia.
Qed.

Lemma entry_word s p i f : table (vmem s) p 512 f -> 0 <= i < 512 ->
  get_word p i s = Ret (f i) s /\ forall v, put_word p i v s = Ret tt (with_mem (write_word (vmem s) (p + 8 * i) v) s).
Proof.
  intros Tb Hi. pose proof (get_word_at s p 512 f 0 i Tb ltac:(lia)) as G.
  replace (p + 8 * 0) with p in G by lia. split; [exact G|]. intros v.
  pose proof (put_word_at s p 512 f 0 i v Tb ltac:(lia)) as P. replace (p + 8 * 0) with p in P by lia. exact P.
Qed.

(** What the walk tests of an intermediate entry. *)
Lemma ptd_tests q : 0 <= q < 2 ^ 50 -> q mod 4096 = 0 ->
  (ptd (q / 4096) &&& PTE_V) = 1 /\ PTE_TABLE (ptd (q / 4096)) = true /\
  u64 (pte_ppn (ptd (q / 4096)) <<< RISCV_PGSHIFT) = q.
Proof.
  intros Hq Hm. pose proof (Z.div_mod q 4096). split; [|split].
  - unfold ptd, PTE_V. change 1 with (Z.ones 1) at 2. rewrite Z.land_ones by lia. change (2 ^ 1) with 2.
    replace (q / 4096 * 1024 + 1) with (1 + q / 4096 * 512 * 2) by lia. by rewrite Z.mod_add by lia.
  - unfold ptd, PTE_TABLE. by rewrite pte_attr_value.
  - unfold pte_ppn, ptd, PTE_PPN_SHIFT, RISCV_PGSHIFT. rewrite pte_value_ppn by vm_decide.
    rewrite Z.shiftl_mul_pow2 by lia. change (2 ^ 12) with 4096. rewrite wrapu_small by (unfold inu; lia). lia.
Qed.

Lemma walk_loop_find T s l : forall t addr,
  vm_tree T s -> own T t = Some (l, vprefix l (addr / 4096)) ->
  walk_loop l t addr false s =
  Ret (match pleaf T l t (addr / 4096) with Some t0 => t0 + 8 * vidx 0 (addr / 4096) | None => 0 end) s.
Proof.
  induction l as [|l IH]; intros t addr V Ht; cbn [walk_loop pleaf].
  - destruct (tree_page _ (vt_ok _ _ V) _ _ _ Ht) as [_ B]. pose proof (vidx_range 0 (addr / 4096)).
    change 0 with (Z.of_nat 0) at 1. rewrite pt_idx_vidx. rewrite wrapu_small by (unfold inu; lia). done.
  - rewrite pt_idx_vidx. destruct (entry_word s t (vidx (S l) (addr / 4096)) (tab T t)) as [G _];
      [by eapply vt_mem|apply vidx_range|].
    unfold bind at 1. rewrite G. destruct (tree_step T (vt_ok _ _ V) t l _ Ht) as [E|(N & q & E & C & Hq)].
    + rewrite E. done.
    + destruct (tree_page _ (vt_ok _ _ V) _ _ _ Hq) as [Qm Qb]. destruct (ptd_tests q ltac:(lia) Qm) as (P1 & P2 & P3).
      rewrite (proj2 (Z.eqb_neq (tab T t _) 0)) by done. rewrite E in G |- *. rewrite P1. change (1 =? 0) with false. cbv iota.
      unfold bind at 1, kassert. rewrite P2. unfold ret at 1. unfold bind. rewrite G, P3, C. by apply IH.
Qed.

Lemma vprefix_top vpn : 0 <= vpn < 2 ^ 27 -> vprefix 2 vpn = 0.
Proof. intros Hv. unfold vprefix. change (9 * Z.of_nat 3) with 27. by apply Z.div_small. Qed.

(** The address of an entry: 0 or the word that holds it. *)
Lemma walk_find T s addr :
  vm_tree T s -> 0 <= addr < 2 ^ 39 ->
  __walk addr s = Ret (match pleaf T 2 (root_page_table s) (addr / 4096) with
                       | Some t0 => t0 + 8 * vidx 0 (addr / 4096) | None => 0 end) s.
Proof.
  intros V Ha. pose proof (vt_root _ _ V) as Hr. pose proof (tree_page _ (vt_ok _ _ V) _ _ _ Hr) as [_ Rb].
  unfold __walk, __walk_internal, __maybe_create_root_page_table. unfold bind at 1, bind at 1, gets at 1.
  rewrite (proj2 (Z.eqb_neq (root_page_table s) 0)) by lia. cbn [negb]. unfold ret at 1. unfold bind, gets.
  apply walk_loop_find; [done|]. rewrite vprefix_top; [done|].
  split; [apply Z.div_pos; lia|apply Z.div_lt_upper_bound; lia].
Qed.

(** *** Changing a word of a table *)
Lemma table_word_other m p n f t i v :
  table m p n f -> fits (t + 8 * i) 8 -> apart p (Z.to_nat (8 * n)) (t + 8 * i) 8 -> table (write_word m (t + 8 * i) v) p n f.
Proof.
  intros (A & B & C & Tb) Hf Ha. split_and!; try done. intros j Hj. apply word_other; [by apply Tb|done|].
  unfold apart in *. lia.
Qed.

Lemma pages_apart p t : p mod 4096 = 0 -> t mod 4096 = 0 -> p <> t -> p + 4096 <= t \/ t + 4096 <= p.
Proof. intros Hp Ht N. pose proof (Z.div_mod p 4096). pose proof (Z.div_mod t 4096). lia. Qed.

Lemma with_mem_self s : with_mem (vmem s) s = s.
Proof. by destruct s as [??????????[]]. Qed.

Lemma alloc_with_word m s a v : allocator_ok (with_mem m s) -> allocator_ok (with_mem (write_word m a v) s).
Proof. intros [C Pg R M]. constructor; try assumption. exact (mapped_write _ _ _ _ _ M). Qed.

Lemma vm_tree_set_leaf T s t x i v :
  vm_tree T s -> own T t = Some (0%nat, x) -> 0 <= i < 512 -> inu 64 v ->
  vm_tree (set_leaf T t i v) (with_mem (write_word (vmem s) (t + 8 * i) v) s).
Proof.
  intros V Ht Hi Hv. pose proof (tree_page _ (vt_ok _ _ V) _ _ _ Ht) as [Tm Tb].
  constructor.
  - eapply set_leaf_ok; [apply V|exact Ht].
  - apply (vt_root _ _ V).
  - apply alloc_with_word. rewrite with_mem_self. apply (vt_alloc _ _ V).
  - apply (vt_pool _ _ V).
  - apply (vt_own _ _ V).
  - intros p l y Hp. change (own (set_leaf T t i v) p) with (own T p) in Hp.
    pose proof (vt_mem _ _ V _ _ _ Hp) as Pt. change (vmem (with_mem ?m s)) with m.
    destruct (Z.eq_dec p t) as [->|N].
    + eapply table_ext; [apply (table_write _ _ _ _ i v Pt Hi Hv)|]. intros j Hj. cbn. unfold patch. rewrite Z.eqb_refl. cbn [andb].
      destruct (Z.leb_spec i j), (Z.ltb_spec j (i + 1)), (Z.eqb_spec j i); cbn [andb]; lia || done.
    + pose proof (tree_page _ (vt_ok _ _ V) _ _ _ Hp) as [Pm Pb].
      eapply table_ext; [apply table_word_other; [exact Pt| |]|].
      * unfold fits. lia.
      * destruct (pages_apart p t Pm Tm N); unfold apart; lia.
      * intros j Hj. cbn. by rewrite (proj2 (Z.eqb_neq p t)).
Qed.

(** *** Growing the tree by a page *)
Lemma pool_page_facts T s k :
  vm_tree T s -> 0 <= k < free_pages s ->
  let p := pool_page s k in p mod 4096 = 0 /\ 0 < p < 2 ^ 50 /\ p + 4096 <= first_free_page s + 4096 * free_pages s.
Proof.
  intros V Hk p. destruct (vt_pool _ _ V) as [P0 P1]. pose proof (ao_page _ (vt_alloc _ _ V)) as Pm. unfold p, pool_page.
  split; [|lia]. rewrite Z.mul_comm, Z.mod_add by lia. done.
Qed.

(** Memory that no table of [T] occupies is the same. *)
Definition outside_tables (T : tree) (m m' : memory) : Prop :=
  forall b k, fits b k -> (forall p y, own T p = Some y -> apart b k p (Z.to_nat 4096)) -> read_bytes m' b k = read_bytes m b k.

Lemma fresh_page T s : vm_tree T s -> own T (pool_page s (next_free_page s)) = None.
Proof.
  intros V. destruct (own T _) as [[l x]|] eqn:E; [|done].
  destruct (vt_own _ _ V _ _ _ E) as (k & Ek & Bk). unfold pool_page in Ek. lia.
Qed.

(** The state after a table [p] is allocated and linked at entry [i] of [t]. *)
Definition grown s (t i : Z) : vm F FIL :=
  let p := pool_page s (next_free_page s) in
  with_mem (write_word (write_bytes (vmem s) p (replicate (Z.to_nat 4096) 0)) (t + 8 * i) (ptd (p / 4096)))
    (set_next_free_page (next_free_page s + 1) s).

Lemma grow_runs {A} T s t l x i (k : ST (vm F FIL) A) :
  vm_tree T s -> own T t = Some (S l, x) -> 0 <= i < 512 -> next_free_page s < free_pages s ->
  (let! page := __page_alloc in put_word t i (ptd_create (ppn page)) ;; k) s = k (grown s t i).
Proof.
  intros V Ht Hi Hn. destruct (page_alloc_runs s (vt_alloc _ _ V) Hn) as [E Ok1].
  pose proof (ao_count _ (vt_alloc _ _ V)) as C.
  destruct (pool_page_facts T s (next_free_page s) V ltac:(lia)) as (Pm & Pb & _).
  unfold bind at 1. rewrite E. set (p := pool_page s (next_free_page s)) in *. set (s1 := with_mem _ _).
  pose proof (vt_mem _ _ V _ _ _ Ht) as Tt. pose proof (tree_page _ (vt_ok _ _ V) _ _ _ Ht) as [Tm Tb].
  assert (N : t <> p) by (intros ->; pose proof (fresh_page T s V); unfold p in *; congruence).
  assert (T1 : table (vmem s1) t 512 (tab T t)).
  { destruct Tt as (A1 & A2 & A3 & A4). split_and!; try done. intros j Hj. destruct (A4 j Hj) as (W1 & W2 & W3 & W4).
    split_and!; try done. change (vmem s1) with (write_bytes (vmem s) p (replicate (Z.to_nat 4096) 0)).
    rewrite read_write_apart; [done|done| |]; rewrite length_replicate; unfold fits, apart; [lia|].
    destruct (pages_apart t p Tm Pm N); lia. }
  destruct (entry_word s1 t i (tab T t) T1 Hi) as [_ P]. unfold bind. rewrite P.
  unfold ppn, RISCV_PGSHIFT. rewrite Z.shiftr_div_pow2 by lia. change (2 ^ 12) with 4096.
  rewrite ptd_create_value; [done|]. split; [apply Z.div_pos; lia|apply Z.div_lt_upper_bound; lia].
Qed.

Lemma table_pool_other m p f q :
  table m p 512 f -> p mod 4096 = 0 -> q mod 4096 = 0 -> 0 <= q -> q + 4096 < 2 ^ 64 -> p <> q ->
  table (write_bytes m q (replicate (Z.to_nat 4096) 0)) p 512 f.
Proof.
  intros (A1 & A2 & A3 & A4) Pm Qm Q0 Q1 N. split_and!; try done. intros j Hj. destruct (A4 j Hj) as (W1 & W2 & W3 & W4).
  split_and!; try done. rewrite read_write_apart; [done|done| |]; rewrite length_replicate; unfold fits, apart; [lia|].
  destruct (pages_apart p q Pm Qm N); lia.
Qed.

Lemma vm_tree_grown T s t l x i :
  vm_tree T s -> own T t = Some (S l, x) -> 0 <= i < 512 -> next_free_page s < free_pages s ->
  vm_tree (add_table T t i l x (pool_page s (next_free_page s))) (grown s t i).
Proof.
  intros V Ht Hi Hn. pose proof (ao_count _ (vt_alloc _ _ V)) as C.
  destruct (pool_page_facts T s (next_free_page s) V ltac:(lia)) as (Pm & Pb & Pe).
  destruct (page_alloc_runs s (vt_alloc _ _ V) Hn) as [_ Ok1]. pose proof (fresh_page T s V) as Fr.
  unfold grown. set (p := pool_page s (next_free_page s)) in *. set (m1 := write_bytes _ _ _) in *.
  pose proof (tree_page _ (vt_ok _ _ V) _ _ _ Ht) as [Tm Tb].
  assert (N : t <> p) by congruence.
  constructor.
  - by apply add_table_ok; [apply V| | | |].
  - cbn. destruct (Z.eqb_spec (root_page_table s) p) as [E|]; [|apply (vt_root _ _ V)].
    pose proof (vt_root _ _ V). congruence.
  - apply alloc_with_word. exact Ok1.
  - apply (vt_pool _ _ V).
  - intros q l' y. cbn. change (pool_page (with_mem _ _)) with (pool_page s). destruct (Z.eqb_spec q p) as [->|].
    + intros _. exists (next_free_page s). split; [done|]. cbn. lia.
    + intros Hq. destruct (vt_own _ _ V _ _ _ Hq) as (k & Ek & Bk). exists k. split; [done|]. cbn. lia.
  - intros q l' y. cbn [own add_table]. change (vmem (with_mem ?m _)) with m.
    destruct (Z.eqb_spec q p) as [->|Nq]; intros Hq.
    + eapply table_ext; [apply table_word_other|].
      * unfold m1. change (Z.to_nat 4096) with (Z.to_nat (8 * 512)). apply (table_zero _ p 512); [|lia|lia|lia].
        apply Z.mod_divide in Pm as [c ->]; [|lia]. replace (c * 4096) with (c * 512 * 8) by lia. apply Z.mod_mul. lia.
      * unfold fits. lia.
      * destruct (pages_apart p t Pm Tm) as [|]; [congruence|unfold apart; lia..].
      * intros j Hj. cbn. by rewrite Z.eqb_refl.
    + pose proof (tree_page _ (vt_ok _ _ V) _ _ _ Hq) as [Qm Qb].
      assert (T1 : table m1 q 512 (tab T q)) by (apply table_pool_other; [by eapply vt_mem|lia..]).
      destruct (Z.eq_dec q t) as [->|Nt].
      * eapply table_ext; [apply (table_write _ _ _ _ i _ T1 Hi)|].
        { apply pte_value_range; [|vm_decide]. split; [apply Z.div_pos; lia|apply Z.div_lt_upper_bound; lia]. }
        intros j Hj. cbn. unfold patch. rewrite Z.eqb_refl. rewrite (proj2 (Z.eqb_neq t p)) by done. cbn [andb].
        destruct (Z.leb_spec i j), (Z.ltb_spec j (i + 1)), (Z.eqb_spec j i); cbn [andb]; lia || done.
      * eapply table_ext; [apply table_word_other; [exact T1| |]|].
        { unfold fits. lia. } { destruct (pages_apart q t Qm Tm Nt); unfold apart; lia. }
        intros j Hj. cbn. rewrite (proj2 (Z.eqb_neq q p)), (proj2 (Z.eqb_neq q t)) by done. done.
Qed.

Lemma grown_outside T s t l x i :
  vm_tree T s -> own T t = Some (S l, x) -> 0 <= i < 512 -> next_free_page s < free_pages s ->
  outside_tables (add_table T t i l x (pool_page s (next_free_page s))) (vmem s) (vmem (grown s t i)).
Proof.
  intros V Ht Hi Hn b k Hb Ha. pose proof (ao_count _ (vt_alloc _ _ V)) as C.
  destruct (pool_page_facts T s (next_free_page s) V ltac:(lia)) as (Pm & Pb & Pe).
  pose proof (tree_page _ (vt_ok _ _ V) _ _ _ Ht) as [Tm Tb]. pose proof (fresh_page T s V) as Fr.
  set (p := pool_page s (next_free_page s)) in *.
  assert (Hp : own (add_table T t i l x p) p = Some (l, x * 512 + i)) by (cbn; by rewrite Z.eqb_refl).
  assert (Ho : own (add_table T t i l x p) t = Some (S l, x)) by (cbn; destruct (Z.eqb_spec t p); [congruence|done]).
  apply Ha in Hp, Ho. unfold grown. fold p. change (vmem (with_mem ?m _)) with m. unfold write_word.
  rewrite read_write_apart; [|done|rewrite length_le_split; unfold fits; lia|rewrite length_le_split; unfold apart in *; lia].
  rewrite read_write_apart; [done|done| |]; rewrite length_replicate; unfold fits, apart in *; lia.
Qed.

(** *** Growth: more tables, the same entries *)

(** The pages the walk distinguishes. *)
Definition upage (vpn : Z) : Prop := 0 <= vpn < 2 ^ 27.

(** From [T] in [s] to [T'] in [s']: at most [k] new tables, from the pool, and nothing but
    tables written. *)
Record moved (k : Z) (T : tree) s (T' : tree) s' : Prop := {
  mv_tree : vm_tree T' s';
  mv_own p y : own T p = Some y -> own T' p = Some y;
  mv_fresh p y : own T' p = Some y -> own T p = Some y \/ exists j, p = pool_page s j /\ next_free_page s <= j;
  mv_outside : outside_tables T' (vmem s) (vmem s');
  mv_leaf x t : upage x -> pleaf T 2 (root_page_table s) x = Some t -> pleaf T' 2 (root_page_table s) x = Some t;
  mv_state : s' = with_mem (vmem s') (set_next_free_page (next_free_page s') s);
  mv_next : next_free_page s <= next_free_page s' <= next_free_page s + k;
}.

Record extends (k : Z) (T T' : tree) s s' : Prop := {
  ex_moved : moved k T s T' s';
  ex_link p l x i : own T p = Some (S l, x) -> tab T p i <> 0 -> tab T' p i = tab T p i;
  ex_pget l r vpn : own T r = Some (l, vprefix l vpn) -> pget T' l r vpn = pget T l r vpn;
}.

Lemma with_mem_next s : with_mem (vmem s) (set_next_free_page (next_free_page s) s) = s.
Proof. by destruct s as [??????????[]]. Qed.

Lemma state_norm (m : memory) k s :
  with_mem m (set_next_free_page k s) =
  with_mem (vmem (with_mem m (set_next_free_page k s))) (set_next_free_page (next_free_page (with_mem m (set_next_free_page k s))) s).
Proof. reflexivity. Qed.

Lemma moved_refl T s : vm_tree T s -> moved 0 T s T s.
Proof. intros V. constructor; try done; [by left|by rewrite with_mem_next|lia]. Qed.

Lemma moved_trans k1 k2 T1 T2 T3 s1 s2 s3 :
  moved k1 T1 s1 T2 s2 -> moved k2 T2 s2 T3 s3 -> moved (k1 + k2) T1 s1 T3 s3.
Proof.
  intros A B. constructor.
  - apply (mv_tree _ _ _ _ _ B).
  - intros p y Hp. apply (mv_own _ _ _ _ _ B), (mv_own _ _ _ _ _ A), Hp.
  - intros p y Hp. pose proof (mv_next _ _ _ _ _ A). destruct (mv_fresh _ _ _ _ _ B p y Hp) as [Q|(j & E & L)].
    + by apply (mv_fresh _ _ _ _ _ A).
    + right. exists j. rewrite E, (mv_state _ _ _ _ _ A). split; [done|lia].
  - intros b k Hb Ha. rewrite (mv_outside _ _ _ _ _ B b k Hb Ha). apply (mv_outside _ _ _ _ _ A b k Hb).
    intros p y Hp. apply (Ha p y), (mv_own _ _ _ _ _ B), Hp.
  - intros x t Hx L. pose proof (mv_leaf _ _ _ _ _ B x t Hx) as LB. rewrite (mv_state _ _ _ _ _ A) in LB.
    apply LB, (mv_leaf _ _ _ _ _ A x t Hx L).
  - rewrite (mv_state _ _ _ _ _ B) at 1. rewrite (mv_state _ _ _ _ _ A) at 1. done.
  - pose proof (mv_next _ _ _ _ _ A). pose proof (mv_next _ _ _ _ _ B). lia.
Qed.

Lemma moved_weaken k k' T T' s s' : moved k T s T' s' -> k <= k' -> moved k' T s T' s'.
Proof. intros [? ? ? ? ? ? ?] Hk. constructor; try assumption. lia. Qed.

Lemma mv_root k T s T' s' : moved k T s T' s' -> root_page_table s' = root_page_table s.
Proof. intros R. rewrite (mv_state _ _ _ _ _ R). done. Qed.

Lemma mv_free k T s T' s' : moved k T s T' s' -> free_pages s' = free_pages s.
Proof. intros R. rewrite (mv_state _ _ _ _ _ R). done. Qed.

Lemma extends_refl T s : vm_tree T s -> extends 0 T T s s.
Proof. intros V. constructor; try done. by apply moved_refl. Qed.

Lemma extends_trans k1 k2 T1 T2 T3 s1 s2 s3 :
  extends k1 T1 T2 s1 s2 -> extends k2 T2 T3 s2 s3 -> extends (k1 + k2) T1 T3 s1 s3.
Proof.
  intros A B. pose proof (mv_own _ _ _ _ _ (ex_moved _ _ _ _ _ A)) as O. constructor.
  - exact (moved_trans _ _ _ _ _ _ _ _ (ex_moved _ _ _ _ _ A) (ex_moved _ _ _ _ _ B)).
  - intros p l x i Hp Hz. pose proof (ex_link _ _ _ _ _ A p l x i Hp Hz) as E.
    rewrite <- E. apply (ex_link _ _ _ _ _ B p l x); [by apply O|congruence].
  - intros l r vpn Hr. rewrite (ex_pget _ _ _ _ _ B) by (by apply O). by apply (ex_pget _ _ _ _ _ A).
Qed.

Lemma extends_grown T s t l x i :
  vm_tree T s -> own T t = Some (S l, x) -> 0 <= i < 512 -> tab T t i = 0 -> next_free_page s < free_pages s ->
  extends 1 T (add_table T t i l x (pool_page s (next_free_page s))) s (grown s t i).
Proof.
  intros V Ht Hi Hz Hn. pose proof (fresh_page T s V) as Fr. pose proof (ao_count _ (vt_alloc _ _ V)) as C.
  destruct (pool_page_facts T s (next_free_page s) V ltac:(lia)) as (Pm & Pb & _). constructor.
  - constructor.
    + by apply vm_tree_grown.
    + intros p y Hp. cbn. destruct (Z.eqb_spec p (pool_page s (next_free_page s))); [congruence|done].
    + intros p y. cbn. destruct (Z.eqb_spec p (pool_page s (next_free_page s))) as [->|]; [|by left].
      intros _. right. by exists (next_free_page s).
    + by eapply grown_outside.
    + intros y t0 Hy L. apply add_table_pleaf; [apply V|done|done|done| |done]. rewrite vprefix_top by done. apply V.
    + apply state_norm.
    + cbn. lia.
  - intros p l' y j Hp Hj. cbn. destruct (Z.eqb_spec p (pool_page s (next_free_page s))); [congruence|].
    destruct (Z.eqb_spec p t) as [->|], (Z.eqb_spec j i) as [->|]; cbn [andb]; try done.
  - intros l' r vpn Hr. apply add_table_pget; try done; [apply V|lia].
Qed.

(** The walk that creates tables: it returns the entry's address, and only adds tables. *)
Lemma walk_loop_create l : forall T s t addr,
  vm_tree T s -> own T t = Some (l, vprefix l (addr / 4096)) -> next_free_page s + Z.of_nat l <= free_pages s ->
  exists T' s' t0, walk_loop l t addr true s = Ret (t0 + 8 * vidx 0 (addr / 4096)) s' /\
    extends (Z.of_nat l) T T' s s' /\ pleaf T' l t (addr / 4096) = Some t0.
Proof.
  induction l as [|l IH]; intros T s t addr V Ht Hn.
  { exists T, s, t. split; [|split; [by apply extends_refl|done]]. cbn [walk_loop].
    destruct (tree_page _ (vt_ok _ _ V) _ _ _ Ht) as [_ B]. pose proof (vidx_range 0 (addr / 4096)).
    change 0 with (Z.of_nat 0) at 1. rewrite pt_idx_vidx. rewrite wrapu_small by (unfold inu; lia). done. }
  set (vpn := addr / 4096) in *. set (i := vidx (S l) vpn).
  assert (Hi : 0 <= i < 512) by apply vidx_range.
  (* from a state whose entry links to [q], the walk goes on *)
  assert (Descend : forall T1 s1 q, vm_tree T1 s1 -> own T1 t = Some (S l, vprefix (S l) vpn) ->
    tab T1 t i = ptd (q / 4096) -> own T1 q = Some (l, vprefix l vpn) -> next_free_page s1 + Z.of_nat l <= free_pages s1 ->
    exists T' s' t0,
      (let! e := get_word t i in walk_loop l (u64 (pte_ppn e <<< RISCV_PGSHIFT)) addr true) s1 = Ret (t0 + 8 * vidx 0 vpn) s' /\
      extends (Z.of_nat l) T1 T' s1 s' /\ pleaf T' (S l) t vpn = Some t0).
  { intros T1 s1 q V1 Ht1 E Hq Hn1. destruct (tree_page _ (vt_ok _ _ V1) _ _ _ Hq) as [Qm Qb].
    destruct (ptd_tests q ltac:(lia) Qm) as (_ & _ & P3). destruct (ptd_child q ltac:(lia) Qm) as [C N].
    destruct (entry_word s1 t i (tab T1 t)) as [G _]; [by eapply vt_mem|done|].
    destruct (IH T1 s1 q addr V1 Hq Hn1) as (T' & s' & t0 & R & X & L).
    exists T', s', t0. split; [|split; [done|]].
    - unfold bind. by rewrite G, E, P3.
    - cbn [pleaf]. fold i. rewrite (ex_link _ _ _ _ _ X t l _ i Ht1) by congruence.
      rewrite E, (proj2 (Z.eqb_neq _ _)) by done. by rewrite C. }
  destruct (entry_word s t i (tab T t)) as [G _]; [by eapply vt_mem|done|].
  cbn [walk_loop]. rewrite pt_idx_vidx. fold vpn i. unfold bind at 1. rewrite G.
  destruct (tree_step T (vt_ok _ _ V) t l _ Ht) as [E|(N & q & E & C & Hq)]; fold i in E.
  - rewrite E. change ((0 &&& PTE_V) =? 0) with true. cbn [negb].
    rewrite (grow_runs T s t l (vprefix (S l) vpn) i) by (done || lia).
    pose proof (extends_grown T s t l (vprefix (S l) vpn) i V Ht Hi E ltac:(lia)) as X1.
    set (p := pool_page s (next_free_page s)) in *.
    destruct (Descend _ (grown s t i) p (mv_tree _ _ _ _ _ (ex_moved _ _ _ _ _ X1))) as (T' & s' & t0 & R & X & L).
    + by apply (mv_own _ _ _ _ _ (ex_moved _ _ _ _ _ X1)).
    + cbn. rewrite (proj2 (Z.eqb_neq t p)) by (intros ->; pose proof (fresh_page T s V); unfold p in *; congruence).
      by rewrite !Z.eqb_refl.
    + cbn. rewrite Z.eqb_refl. do 2 f_equal. apply vprefix_step.
    + cbn [next_free_page free_pages grown with_mem set_vfs set_next_free_page]. lia.
    + exists T', s', t0. split; [exact R|]. split; [|done].
      pose proof (extends_trans _ _ _ _ _ _ _ _ X1 X) as XX. by replace (1 + Z.of_nat l) with (Z.of_nat (S l)) in XX by lia.
  - destruct (tree_page _ (vt_ok _ _ V) _ _ _ Hq) as [Qm Qb]. destruct (ptd_tests q ltac:(lia) Qm) as (P1 & P2 & _).
    rewrite E, P1. change (1 =? 0) with false. cbv iota. unfold bind at 1, kassert. rewrite P2. unfold ret at 1.
    destruct (Descend T s q V Ht E Hq ltac:(lia)) as (T' & s' & t0 & R & X & L).
    exists T', s', t0. split; [exact R|]. split; [|done].
    destruct X as [M Lk Pg]. constructor; [|assumption..]. eapply moved_weaken; [exact M|lia].
Qed.

Lemma walk_create T s addr :
  vm_tree T s -> 0 <= addr < 2 ^ 39 -> next_free_page s + 2 <= free_pages s ->
  exists T' s' t0, __walk_create addr s = Ret (t0 + 8 * vidx 0 (addr / 4096)) s' /\
    extends 2 T T' s s' /\ pleaf T' 2 (root_page_table s) (addr / 4096) = Some t0.
Proof.
  intros V Ha Hn. pose proof (vt_root _ _ V) as Hr. pose proof (tree_page _ (vt_ok _ _ V) _ _ _ Hr) as [_ Rb].
  unfold __walk_create, __walk_internal, __maybe_create_root_page_table. unfold bind at 1, bind at 1, gets at 1.
  rewrite (proj2 (Z.eqb_neq (root_page_table s) 0)) by lia. cbn [negb]. unfold ret at 1. unfold bind, gets.
  apply (walk_loop_create 2); [done| |done]. rewrite vprefix_top; [done|].
  split; [apply Z.div_pos; lia|apply Z.div_lt_upper_bound; lia].
Qed.

(** *** The page table as a function *)
(** As [moved], and the entries are now [f]. *)
Record remapped (k : Z) (T : tree) s (T' : tree) s' (f : Z -> Z) : Prop := {
  rm_moved : moved k T s T' s';
  rm_pte vpn : upage vpn -> pte_of T' s' vpn = f vpn;
}.

Definition put_entry (f : Z -> Z) (vpn v : Z) : Z -> Z := fun x => if x =? vpn then v else f x.

Lemma rm_tree k T s T' s' f : remapped k T s T' s' f -> vm_tree T' s'.
Proof. intros [M _]. apply M. Qed.

Lemma remapped_refl T s : vm_tree T s -> remapped 0 T s T s (pte_of T s).
Proof. intros V. constructor; [by apply moved_refl|done]. Qed.

Lemma remapped_trans k1 k2 T1 s1 T2 s2 f2 T3 s3 f3 :
  remapped k1 T1 s1 T2 s2 f2 -> remapped k2 T2 s2 T3 s3 f3 -> remapped (k1 + k2) T1 s1 T3 s3 f3.
Proof. intros [A _] [B P]. constructor; [exact (moved_trans _ _ _ _ _ _ _ _ A B)|exact P]. Qed.

Lemma remapped_ext k k' T s T' s' f g :
  remapped k T s T' s' f -> k <= k' -> (forall vpn, upage vpn -> f vpn = g vpn) -> remapped k' T s T' s' g.
Proof.
  intros [M P] Hk E. constructor; [by eapply moved_weaken|]. intros vpn Hv. rewrite <- E by done. by apply P.
Qed.

Lemma extends_remapped k T T' s s' : vm_tree T s -> extends k T T' s s' -> remapped k T s T' s' (pte_of T s).
Proof.
  intros V [M L P]. constructor; [done|]. intros vpn Hv.
  unfold pte_of. rewrite (mv_root _ _ _ _ _ M). apply P. rewrite (vt_root _ _ V). by rewrite vprefix_top.
Qed.

(** Reading and writing the entry the walk found. *)
Lemma leaf_facts T s vpn t0 :
  vm_tree T s -> upage vpn -> pleaf T 2 (root_page_table s) vpn = Some t0 ->
  own T t0 = Some (0%nat, vprefix 0 vpn) /\ 0 < t0 + 8 * vidx 0 vpn /\ table (vmem s) t0 512 (tab T t0) /\
  pte_of T s vpn = tab T t0 (vidx 0 vpn).
Proof.
  intros V Hv L. assert (Hr : own T (root_page_table s) = Some (2%nat, vprefix 2 vpn)) by (rewrite vprefix_top by done; apply V).
  pose proof (pleaf_own T (vt_ok _ _ V) 2 _ _ _ Hr L) as Ho. destruct (tree_page _ (vt_ok _ _ V) _ _ _ Ho) as [_ B].
  pose proof (vidx_range 0 vpn). split_and!; try done; try lia.
  - by eapply vt_mem.
  - unfold pte_of. by rewrite pget_leaf, L.
Qed.

Lemma get_pte_at T s vpn t0 :
  vm_tree T s -> upage vpn -> pleaf T 2 (root_page_table s) vpn = Some t0 ->
  get_pte (t0 + 8 * vidx 0 vpn) s = Ret (pte_of T s vpn) s.
Proof.
  intros V Hv L. destruct (leaf_facts T s vpn t0 V Hv L) as (_ & _ & Tb & ->). unfold get_pte.
  rewrite (on_memory_ret _ _ _ _ (word_load _ _ _ (table_word _ _ _ _ _ Tb (vidx_range 0 vpn)))). by rewrite with_mem_self.
Qed.

Lemma set_pte_at T s vpn t0 v :
  vm_tree T s -> upage vpn -> pleaf T 2 (root_page_table s) vpn = Some t0 -> inu 64 v ->
  exists T' s', set_pte (t0 + 8 * vidx 0 vpn) v s = Ret tt s' /\
    remapped 0 T s T' s' (put_entry (pte_of T s) vpn v) /\ pleaf T' 2 (root_page_table s) vpn = Some t0.
Proof.
  intros V Hv L Hi. destruct (leaf_facts T s vpn t0 V Hv L) as (Ho & Ha & Tb & _).
  pose proof (vidx_range 0 vpn) as Bi. set (i := vidx 0 vpn) in *.
  exists (set_leaf T t0 i v), (with_mem (write_word (vmem s) (t0 + 8 * i) v) s). split; [|split].
  - apply on_memory_ret. destruct (word_mapped _ _ _ (table_word _ _ _ _ _ Tb Bi)) as [W1 W2]. by apply store_spec.
  - constructor; [constructor|].
    + by eapply vm_tree_set_leaf.
    + done.
    + by left.
    + intros b k Hb Hp. apply (Hp t0 _) in Ho as Ha'. destruct (tree_page _ (vt_ok _ _ V) _ _ _ Ho) as [_ Tbd].
      change (vmem (with_mem ?m s)) with m. unfold write_word.
      rewrite read_write_apart; [done|done| |]; rewrite length_le_split; unfold fits, apart in *; lia.
    + intros y t1 Hy L1. rewrite (set_leaf_pleaf T (vt_ok _ _ V) t0 (vprefix 0 vpn)); [done|done|].
      rewrite vprefix_top by done. apply V.
    + by destruct s as [??????????[]].
    + cbn. lia.
    + intros vpn' Hv'. unfold pte_of. cbn [root_page_table with_mem set_vfs]. unfold i.
      apply set_leaf_pget; [apply V| |done|]; rewrite vprefix_top by done; apply V.
  - rewrite (set_leaf_pleaf T (vt_ok _ _ V) t0 (vprefix 0 vpn)); [done|done|]. rewrite vprefix_top by done. apply V.
Qed.

Lemma page_of vpn : 0 <= vpn -> vpn * 4096 / 4096 = vpn.
Proof. intros. by rewrite Z.div_mul by lia. Qed.

Lemma st_bind_ext {S A B} (c : ST S A) (k1 k2 : A -> ST S B) (st : S) :
  (forall a st', k1 a st' = k2 a st') -> bind c k1 st = bind c k2 st.
Proof. intros E. unfold bind. destruct (c st); auto. Qed.

(** A walk that creates, then a write: the entry of one page. *)
Lemma write_page {A} T s vpn v (k : ST (vm F FIL) A) :
  vm_tree T s -> upage vpn -> next_free_page s + 2 <= free_pages s -> inu 64 v ->
  exists T' s', (let! pte := __walk_create (vpn * 4096) in kassert (negb (pte =? 0)) ;; set_pte pte v ;; k) s = k s' /\
    remapped 2 T s T' s' (put_entry (pte_of T s) vpn v).
Proof.
  intros V Hv Hn Hi. unfold upage in Hv. destruct (walk_create T s (vpn * 4096) V ltac:(lia) Hn) as (T1 & s1 & t0 & R & X & L).
  rewrite page_of in * by lia. pose proof (extends_remapped 2 T T1 s s1 V X) as X1.
  rewrite <- (mv_root _ _ _ _ _ (rm_moved _ _ _ _ _ _ X1)) in L. pose proof (rm_tree _ _ _ _ _ _ X1) as V1.
  destruct (leaf_facts T1 s1 vpn t0 V1 Hv L) as (_ & P & _ & _).
  destruct (set_pte_at T1 s1 vpn t0 v V1 Hv L Hi) as (T' & s' & W & X2 & _).
  exists T', s'. split.
  - unfold bind at 1. rewrite R. unfold bind at 1, kassert. rewrite (proj2 (Z.eqb_neq _ 0)) by lia. cbn [negb]. unfold ret at 1.
    unfold bind. by rewrite W.
  - eapply remapped_ext; [exact (remapped_trans _ _ _ _ _ _ _ _ _ _ X1 X2)|lia|].
    intros x Hx. unfold put_entry. destruct (x =? vpn); [done|]. by apply (rm_pte _ _ _ _ _ _ X1).
Qed.

(** The entries of a mapped range of the kernel. *)
Definition kernel_range (f : Z -> Z) (vpn0 n ppn0 t : Z) : Z -> Z := fun x =>
  if (vpn0 <=? x) && (x <? vpn0 + n) then (ppn0 + (x - vpn0)) * 1024 + (1 ||| t) else f x.

Lemma map_kernel_loop_at n : forall T s vpn0 i ppn0 prot t,
  vm_tree T s -> 0 <= i -> 0 <= vpn0 -> vpn0 + i + Z.of_nat n <= 2 ^ 27 -> 0 <= ppn0 -> ppn0 + i + Z.of_nat n < 2 ^ 50 ->
  next_free_page s + 2 * Z.of_nat n <= free_pages s -> pte_type prot false = Some t -> inu 10 t ->
  exists T' s', map_kernel_loop n ((vpn0 + i) * 4096) (vpn0 * 4096) (ppn0 * 4096) prot s = Ret tt s' /\
    remapped (2 * Z.of_nat n) T s T' s' (kernel_range (pte_of T s) (vpn0 + i) (Z.of_nat n) (ppn0 + i) t).
Proof.
  induction n as [|n IH]; intros T s vpn0 i ppn0 prot t V Hi Hv Hvn Hp Hpn Hn Ht Bt.
  { exists T, s. split; [done|]. eapply remapped_ext; [by apply remapped_refl|lia|]. intros x _. unfold kernel_range.
    destruct (Z.leb_spec (vpn0 + i) x), (Z.ltb_spec x (vpn0 + i + Z.of_nat 0)); cbn [andb]; lia || done. }
  assert (Hu : upage (vpn0 + i)) by (unfold upage; lia).
  assert (B1 : inu 10 (1 ||| t)) by (apply lor_range; [lia|vm_decide|done]).
  destruct (write_page T s (vpn0 + i) ((ppn0 + i) * 1024 + (1 ||| t))
    (map_kernel_loop n ((vpn0 + (i + 1)) * 4096) (vpn0 * 4096) (ppn0 * 4096) prot) V Hu ltac:(lia)) as (T1 & s1 & R1 & X1).
  { apply pte_value_range; [lia|done]. }
  destruct (IH T1 s1 vpn0 (i + 1) ppn0 prot t) as (T' & s' & R & X); try lia; try done.
  { apply (rm_tree _ _ _ _ _ _ X1). }
  { pose proof (mv_next _ _ _ _ _ (rm_moved _ _ _ _ _ _ X1)). rewrite (mv_free _ _ _ _ _ (rm_moved _ _ _ _ _ _ X1)). lia. }
  exists T', s'. split.
  - rewrite <- R, <- R1. cbn [map_kernel_loop]. apply st_bind_ext. intros pte s2. apply st_bind_ext. intros [] s3.
    unfold bind at 1.
    replace ((vpn0 + i) * 4096 - vpn0 * 4096 + ppn0 * 4096) with ((ppn0 + i) * 4096) by lia.
    rewrite (wrapu_small _ ((ppn0 + i) * 4096)) by (unfold inu; lia).
    unfold RISCV_PGSHIFT. rewrite Z.shiftr_div_pow2 by lia. change (2 ^ 12) with 4096. rewrite page_of by lia.
    rewrite (kernel_pte _ _ t) by (done || lia). unfold RISCV_PGSIZE.
    rewrite wrapu_small by (unfold inu; lia). by replace ((vpn0 + i) * 4096 + 4096) with ((vpn0 + (i + 1)) * 4096) by lia.
  - eapply remapped_ext; [exact (remapped_trans _ _ _ _ _ _ _ _ _ _ X1 X)|lia|]. intros x Hx. unfold kernel_range.
    rewrite (rm_pte _ _ _ _ _ _ X1) by done. unfold put_entry.
    destruct (Z.leb_spec (vpn0 + (i + 1)) x), (Z.ltb_spec x (vpn0 + (i + 1) + Z.of_nat n)), (Z.leb_spec (vpn0 + i) x),
      (Z.ltb_spec x (vpn0 + i + Z.of_nat (S n))), (Z.eqb_spec x (vpn0 + i)); cbn [andb]; try lia; try done; f_equal; lia.
Qed.

(** *** What the hardware finds *)
Lemma hw_walk T s l : forall t va,
  vm_tree T s -> own T t = Some (l, vprefix l (va / 4096)) ->
  ptw l (vmem s) t va =
  let e := pget T l t (va / 4096) in if hw_leaf e then Some (e, e / 1024 * 4096 + va mod 4096) else None.
Proof.
  induction l as [|l IH]; intros t va V Ht.
  - pose proof (table_word _ _ _ _ _ (vt_mem _ _ V _ _ _ Ht) (vidx_range 0 (va / 4096))) as W.
    assert (Ei : va / 2 ^ (12 + 9 * Z.of_nat 0) mod 512 = vidx 0 (va / 4096)).
    { unfold vidx. change (2 ^ (9 * Z.of_nat 0)) with 1. by rewrite Z.div_1_r. }
    rewrite <- Ei in W. rewrite (ptw_word _ _ _ _ _ W). cbn [pget]. rewrite <- Ei. set (e := tab T t _). destruct (hw_leaf e).
    + change (9 * Z.of_nat 0) with 0. rewrite !Z.shiftr_div_pow2, Z.shiftl_mul_pow2 by lia.
      change (2 ^ 0) with 1. by rewrite Z.div_1_r.
    + by destruct (hw_table e).
  - pose proof (table_word _ _ _ _ _ (vt_mem _ _ V _ _ _ Ht) (vidx_range (S l) (va / 4096))) as W.
    assert (Ei : va / 2 ^ (12 + 9 * Z.of_nat (S l)) mod 512 = vidx (S l) (va / 4096)).
    { unfold vidx. rewrite Z.div_div by lia. do 2 f_equal. rewrite Z.pow_add_r by lia. done. }
    rewrite <- Ei in W. cbn [pget]. rewrite <- Ei.
    destruct (tree_step T (vt_ok _ _ V) t l (va / 4096) Ht) as [E|(N & q & E & C & Hq)]; rewrite <- Ei in E.
    + rewrite E in W |- *. rewrite (ptw_unmapped _ _ _ _ W). done.
    + rewrite <- Ei in N. rewrite (proj2 (Z.eqb_neq _ _)) by done. rewrite E in W |- *. rewrite (ptw_table _ _ _ _ _ W), C.
      destruct (tree_page _ (vt_ok _ _ V) _ _ _ Hq) as [Qm Qb].
      replace (q / 4096 * 4096) with q by (pose proof (Z.div_mod q 4096); lia). by apply IH.
Qed.

(** The translation of an address by a page table as a function. *)
Definition translate (f : Z -> Z) (va : Z) : option (Z * Z) :=
  let e := f (va / 4096) in if hw_leaf e then Some (e, e / 1024 * 4096 + va mod 4096) else None.

Lemma hw_translate T s va :
  vm_tree T s -> 0 <= va < 2 ^ 38 -> sv39 (vmem s) (root_page_table s) va = translate (pte_of T s) va.
Proof.
  intros V Hv. unfold sv39. rewrite (proj2 (canonical_iff va ltac:(unfold inu; lia))) by lia.
  apply hw_walk; [done|]. rewrite vprefix_top; [apply V|]. split; [apply Z.div_pos; lia|apply Z.div_lt_upper_bound; lia].
Qed.

Lemma allocator_same s s' :
  allocator_ok s -> next_free_page s' = next_free_page s -> free_pages s' = free_pages s ->
  first_free_page s' = first_free_page s -> vmem s' = vmem s -> allocator_ok s'.
Proof. intros [C Pg R M] E1 E2 E3 E4. constructor; rewrite ?E1, ?E2, ?E3, ?E4; assumption. Qed.

(** *** The first table *)
Definition root_only (p : Z) : tree := Tree (fun q => if q =? p then Some (2%nat, 0) else None) (fun _ _ => 0).

Lemma root_tree s k :
  allocator_ok s -> 0 < first_free_page s /\ first_free_page s + 4096 * free_pages s < 2 ^ 50 ->
  0 <= k < next_free_page s -> root_page_table s = pool_page s k -> table (vmem s) (pool_page s k) 512 (fun _ => 0) ->
  vm_tree (root_only (pool_page s k)) s.
Proof.
  intros Ok Hp Hk Er Tz. pose proof (ao_count _ Ok). constructor; cbn [own tab root_only].
  - split; [|intros q l x i _ _; left; reflexivity]. intros q l x. cbn [own root_only].
    destruct (Z.eqb_spec q (pool_page s k)) as [->|]; [|done]. intros _. unfold pool_page. split; [|lia].
    rewrite Z.mul_comm, Z.mod_add by lia. apply Ok.
  - by rewrite Er, Z.eqb_refl.
  - exact Ok.
  - exact Hp.
  - intros q l x. destruct (Z.eqb_spec q (pool_page s k)) as [->|]; [|done]. intros _. by exists k.
  - intros q l x. destruct (Z.eqb_spec q (pool_page s k)) as [->|]; [|done]. intros _. exact Tz.
Qed.

Lemma zero_page_table (m : memory) p : p mod 4096 = 0 -> 0 <= p -> p + 4096 < 2 ^ 64 ->
  table (write_bytes m p (replicate (Z.to_nat 4096) 0)) p 512 (fun _ => 0).
Proof.
  intros Pm P0 P1. change (Z.to_nat 4096) with (Z.to_nat (8 * 512)). apply (table_zero _ p 512); [|lia..].
  apply Z.mod_divide in Pm as [c ->]; [|lia]. replace (c * 4096) with (c * 512 * 8) by lia. apply Z.mod_mul. lia.
Qed.

Lemma root_created s :
  allocator_ok s -> root_page_table s = 0 -> next_free_page s < free_pages s ->
  0 < first_free_page s /\ first_free_page s + 4096 * free_pages s < 2 ^ 50 ->
  exists T s', __maybe_create_root_page_table s = Ret tt s' /\ vm_tree T s' /\
    next_free_page s' = next_free_page s + 1 /\ free_pages s' = free_pages s /\ forall vpn, pte_of T s' vpn = 0.
Proof.
  intros Ok Hr Hn Hp. destruct (page_alloc_runs s Ok Hn) as [E Ok1]. pose proof (ao_count _ Ok) as C.
  set (p := pool_page s (next_free_page s)) in *.
  assert (Pm : p mod 4096 = 0) by (unfold p, pool_page; rewrite Z.mul_comm, Z.mod_add by lia; apply Ok).
  pose proof (zero_page_table (vmem s) p Pm ltac:(unfold p, pool_page; lia) ltac:(unfold p, pool_page; lia)) as Tz.
  revert E Ok1 Tz. generalize (write_bytes (vmem s) p (replicate (Z.to_nat 4096) 0)). intros m1 E Ok1 Tz.
  set (s1 := with_mem m1 _) in *.
  exists (root_only p), (let s2 := set_root_page_table p s1 in if have_vm s =? 0 then s2 else set_sptbr p s2). split.
  - unfold __maybe_create_root_page_table. unfold bind at 1, gets at 1. rewrite Hr. change (0 =? 0) with true. cbn [negb].
    unfold bind at 1. rewrite E. unfold bind, modify, gets. change (have_vm (set_root_page_table p s1)) with (have_vm s).
    by destruct (have_vm s =? 0).
  - cbv zeta. destruct (have_vm s =? 0).
    all: match goal with |- vm_tree _ ?x /\ _ => split; [apply (root_tree x (next_free_page s)); [by apply (allocator_same s1)|exact Hp|cbn; lia|reflexivity|exact Tz]|] end.
    all: split_and!; reflexivity.
Qed.

(** *** Regions in memory *)

(** The [n]-byte variable at [a] holds [v]. *)
Definition cell (n : nat) (m : memory) (a v : Z) : Prop :=
  a mod Z.of_nat n = 0 /\ fits a n /\ inu (8 * Z.of_nat n) v /\ read_bytes m a n = Some (le_split n v).

Lemma cell_load n m a v : cell n m a v -> load n a m = Ret v m.
Proof.
  intros (Ha & _ & Hv & Hr). rewrite (load_spec _ _ _ _ Ha Hr), le_combine_split. by rewrite wrapu_small.
Qed.

Lemma cell_store n m a v w :
  cell n m a v -> inu (8 * Z.of_nat n) w ->
  store n a w m = Ret tt (write_bytes m a (le_split n w)) /\ cell n (write_bytes m a (le_split n w)) a w.
Proof.
  intros (Ha & Hf & _ & Hr) Hw. split; [apply store_spec; [done|by eexists]|]. split_and!; try done.
  pose proof (read_write_bytes (le_split n w) m a) as R. rewrite length_le_split in R. apply R. unfold fits in Hf. lia.
Qed.

Lemma cell_frame n m m' a v : cell n m a v -> read_bytes m' a n = read_bytes m a n -> cell n m' a v.
Proof. intros (Ha & Hf & Hv & Hr) E. split_and!; try done. by rewrite E. Qed.

Lemma cell_other n m a v b l :
  cell n m a v -> fits b (length l) -> apart a n b (length l) -> cell n (write_bytes m b l) a v.
Proof. intros C Hb Ha. eapply cell_frame; [exact C|]. apply read_write_apart; [apply C|done|done]. Qed.

Record region := Region { r_addr : Z; r_length : Z; r_file : Z; r_offset : Z; r_refcnt : Z; r_prot : Z }.
Definition set_refcount (n : Z) (r : region) : region := Region (r_addr r) (r_length r) (r_file r) (r_offset r) n (r_prot r).

(** The [vmr_t] at [v]; [prot] by its bits. *)
Record region_at (m : memory) (v : Z) (r : region) : Prop := {
  ra_addr : cell 8 m v (r_addr r);
  ra_length : cell 8 m (v + 8) (r_length r);
  ra_file : cell 8 m (v + 16) (r_file r);
  ra_offset : cell 8 m (v + 24) (r_offset r);
  ra_refcnt : cell 4 m (v + 32) (r_refcnt r);
  ra_prot : cell 4 m (v + 36) (r_prot r);
}.

Lemma region_other m v r b l :
  region_at m v r -> fits b (length l) -> apart v 40 b (length l) -> region_at (write_bytes m b l) v r.
Proof. intros [A B C D E G] Hb Ha. constructor; (apply cell_other; [done|done|unfold apart in *; lia]). Qed.

Lemma region_frame m m' v r :
  region_at m v r -> (forall b k, v <= b -> b + Z.of_nat k <= v + 40 -> read_bytes m' b k = read_bytes m b k) -> region_at m' v r.
Proof. intros [A B C D E G] Hf. constructor; (eapply cell_frame; [eassumption|]; apply Hf; lia). Qed.

(** A cell of the state's memory through the accessors. *)
Lemma on_cell n a v s : cell n (vmem s) a v -> on_memory (load n a) s = Ret v s.
Proof. intros C. rewrite (on_memory_ret _ _ _ _ (cell_load _ _ _ _ C)). by rewrite with_mem_self. Qed.

Lemma on_cell_set n a v w s : cell n (vmem s) a v -> inu (8 * Z.of_nat n) w ->
  on_memory (store n a w) s = Ret tt (with_mem (write_bytes (vmem s) a (le_split n w)) s).
Proof. intros C Hw. apply on_memory_ret. by eapply cell_store. Qed.

(** The region array: a page of the pool that is not a table. *)
Definition vmr_ptr s (j : nat) : Z := vmrs s + 40 * Z.of_nat j.

Record vmr_ok (T : tree) s (rs : list region) : Prop := {
  vr_len : length rs = Z.to_nat MAX_VMR;
  vr_page : exists k, vmrs s = pool_page s k /\ 0 <= k < next_free_page s;
  vr_unowned : own T (vmrs s) = None;
  vr_at j r : rs !! j = Some r -> region_at (vmem s) (vmr_ptr s j) r;
}.

Lemma vmr_bounds T s rs j r :
  vm_tree T s -> vmr_ok T s rs -> rs !! j = Some r ->
  vmrs s mod 4096 = 0 /\ 0 < vmrs s /\ vmrs s <= vmr_ptr s j /\ vmr_ptr s j + 40 <= vmrs s + 4096 /\ vmrs s + 4096 < 2 ^ 50 /\
  first_free_page s <= vmrs s /\ vmrs s + 4096 <= first_free_page s + 4096 * free_pages s.
Proof.
  intros V R Hj. destruct (vr_page _ _ _ R) as (k & Ek & Bk). pose proof (ao_count _ (vt_alloc _ _ V)).
  destruct (pool_page_facts T s k V ltac:(lia)) as (Pm & Pb & Pe). rewrite <- Ek in *. pose proof (vt_pool _ _ V).
  apply lookup_lt_Some in Hj. rewrite (vr_len _ _ _ R) in Hj. change (Z.to_nat MAX_VMR) with 102%nat in Hj.
  unfold vmr_ptr. split_and!; try done; try lia. rewrite Ek. unfold pool_page. lia.
Qed.

(** Memory in the array's page is apart from every table. *)
Lemma vmr_apart T s rs b k p y :
  vm_tree T s -> vmr_ok T s rs -> vmrs s <= b -> b + Z.of_nat k <= vmrs s + 4096 -> own T p = Some y ->
  apart b k p (Z.to_nat 4096).
Proof.
  intros V R H1 H2 Hp. destruct (vr_page _ _ _ R) as (kv & Ek & Bk). pose proof (ao_count _ (vt_alloc _ _ V)).
  destruct (pool_page_facts T s kv V ltac:(lia)) as (Pm & _ & _). rewrite <- Ek in *. destruct y as [l x].
  destruct (tree_page _ (vt_ok _ _ V) _ _ _ Hp) as [Qm _].
  destruct (pages_apart p (vmrs s) Qm Pm) as [|]; [intros ->; pose proof (vr_unowned _ _ _ R); congruence|unfold apart; lia..].
Qed.

Lemma vmr_moved k T s T' s' rs : vm_tree T s -> moved k T s T' s' -> vmr_ok T s rs -> vmr_ok T' s' rs.
Proof.
  intros V M R. pose proof (mv_state _ _ _ _ _ M) as St. pose proof (mv_next _ _ _ _ _ M) as Nx.
  assert (Ev : vmrs s' = vmrs s) by (rewrite St; done).
  assert (U : own T' (vmrs s) = None).
  { destruct (own T' (vmrs s)) as [y|] eqn:E; [|done]. destruct (mv_fresh _ _ _ _ _ M _ _ E) as [Q|(j & Ej & Bj)].
    - rewrite (vr_unowned _ _ _ R) in Q. done.
    - destruct (vr_page _ _ _ R) as (kv & Ek & Bk). rewrite Ek in Ej. unfold pool_page in Ej. lia. }
  constructor.
  - apply R.
  - destruct (vr_page _ _ _ R) as (kv & Ek & Bk). exists kv. rewrite Ev. split; [|lia]. rewrite Ek, St. done.
  - by rewrite Ev.
  - intros j r Hj. unfold vmr_ptr. rewrite Ev. fold (vmr_ptr s j).
    destruct (vmr_bounds T s rs j r V R Hj) as (Vm & V0 & B1 & B2 & B3 & _).
    eapply region_frame; [by apply (vr_at _ _ _ R)|]. intros b n Hb1 Hb2. apply (mv_outside _ _ _ _ _ M).
    + unfold fits. lia.
    + intros p [l x] Hp. destruct (tree_page _ (vt_ok _ _ (mv_tree _ _ _ _ _ M)) _ _ _ Hp) as [Qm _].
      destruct (pages_apart p (vmrs s) Qm Vm) as [|]; [congruence|unfold apart; lia..].
Qed.

(** Writing memory that holds no table keeps the tree. *)
Lemma vm_tree_write T s a l :
  vm_tree T s -> fits a (length l) -> (forall p y, own T p = Some y -> apart a (length l) p (Z.to_nat 4096)) ->
  vm_tree T (with_mem (write_bytes (vmem s) a l) s).
Proof.
  intros V Hf Ha. constructor.
  - apply V.
  - apply (vt_root _ _ V).
  - destruct (vt_alloc _ _ V) as [C Pg R M]. constructor; try assumption. exact (mapped_write _ _ _ _ _ M).
  - apply (vt_pool _ _ V).
  - apply (vt_own _ _ V).
  - intros p n x Hp. change (vmem (with_mem ?m s)) with m. destruct (vt_mem _ _ V _ _ _ Hp) as (A1 & A2 & A3 & A4).
    split_and!; try done. intros j Hj. destruct (A4 j Hj) as (W1 & W2 & W3 & W4). split_and!; try done.
    rewrite read_write_apart; [done|done|done|]. pose proof (Ha _ _ Hp). unfold apart in *. lia.
Qed.

(** Memory outside the pool is the same. *)
Definition user_same s (m m' : memory) : Prop :=
  forall b k, fits b k -> apart b k (first_free_page s) (Z.to_nat (4096 * free_pages s)) -> read_bytes m' b k = read_bytes m b k.

Lemma moved_user k T s T' s' : vm_tree T s -> moved k T s T' s' -> user_same s (vmem s) (vmem s').
Proof.
  intros V M b n Hb Ha. apply (mv_outside _ _ _ _ _ M b n Hb). intros p [l x] Hp. pose proof (mv_tree _ _ _ _ _ M) as V'.
  destruct (vt_own _ _ V' _ _ _ Hp) as (j & Ej & Bj). pose proof (ao_count _ (vt_alloc _ _ V')).
  destruct (pool_page_facts T' s' j V' ltac:(lia)) as (_ & _ & Pe). rewrite <- Ej in Pe. pose proof (vt_pool _ _ V).
  rewrite (mv_state _ _ _ _ _ M) in Ej, Pe. unfold pool_page in Ej. cbn in Ej, Pe. unfold apart in *. lia.
Qed.

(** A new value of a region, written in one of its fields. *)
Lemma region_write T s rs j r r' off n w :
  vm_tree T s -> vmr_ok T s rs -> rs !! j = Some r -> 0 <= off -> off + Z.of_nat n <= 40 ->
  let m' := write_bytes (vmem s) (vmr_ptr s j + off) (le_split n w) in
  region_at m' (vmr_ptr s j) r' ->
  vm_tree T (with_mem m' s) /\ vmr_ok T (with_mem m' s) (<[j := r']> rs) /\ user_same s (vmem s) m'.
Proof.
  intros V R Hj H0 H1 m' Hr. destruct (vmr_bounds T s rs j r V R Hj) as (Vm & V0 & B1 & B2 & B3 & B4 & B5).
  pose proof (vt_pool _ _ V). split_and!.
  - apply vm_tree_write; [done|rewrite length_le_split; unfold fits; lia|]. rewrite length_le_split. intros p y Hp.
    eapply vmr_apart; [exact V|exact R|lia|lia|exact Hp].
  - constructor.
    + rewrite length_insert. apply R.
    + apply (vr_page _ _ _ R).
    + apply (vr_unowned _ _ _ R).
    + intros i q Hi. change (vmr_ptr (with_mem m' s)) with (vmr_ptr s). change (vmem (with_mem m' s)) with m'.
      destruct (decide (i = j)) as [->|N].
      * rewrite list_lookup_insert_eq in Hi by (eapply lookup_lt_Some; exact Hj). by injection Hi as <-.
      * rewrite list_lookup_insert_ne in Hi by done. unfold m'.
        apply region_other; [by apply (vr_at _ _ _ R)|rewrite length_le_split; unfold fits; lia|].
        rewrite length_le_split. unfold apart, vmr_ptr. lia.
  - intros b k Hb Ha. unfold m'. apply read_write_apart; [done| |]; rewrite length_le_split; unfold fits, apart in *; lia.
Qed.

(** Setting the reference count. *)
Lemma set_refcnt_at T s rs j r n :
  vm_tree T s -> vmr_ok T s rs -> rs !! j = Some r -> inu 32 n ->
  exists m', set_vmr_refcnt (vmr_ptr s j) n s = Ret tt (with_mem m' s) /\
    vm_tree T (with_mem m' s) /\ vmr_ok T (with_mem m' s) (<[j := set_refcount n r]> rs) /\ user_same s (vmem s) m'.
Proof.
  intros V R Hj Hn. destruct (vmr_bounds T s rs j r V R Hj) as (Vm & V0 & B1 & B2 & B3 & _).
  pose proof (vr_at _ _ _ R _ _ Hj) as [A B C D E G]. pose proof (cell_store _ _ _ _ n E Hn) as [_ E'].
  exists (write_bytes (vmem s) (vmr_ptr s j + 32) (le_split 4 n)). split.
  - unfold set_vmr_refcnt. rewrite wrapu_small by (unfold inu; lia). by eapply on_cell_set.
  - apply (region_write T s rs j r); try done; try lia.
    assert (Hf : fits (vmr_ptr s j + 32) (length (le_split 4 n))) by (rewrite length_le_split; unfold fits; lia).
    constructor; cbn [set_refcount r_addr r_length r_file r_offset r_refcnt r_prot]; try exact E'; (apply cell_other; [assumption|exact Hf|rewrite length_le_split; unfold apart; lia]).
Qed.

(** Dropping a reference of an anonymous region. *)
Lemma vmr_decref_at lay T s rs j r :
  vm_tree T s -> vmr_ok T s rs -> rs !! j = Some r -> 0 < r_refcnt r -> r_file r = 0 ->
  exists m', __vmr_decref lay (vmr_ptr s j) 1 s = Ret tt (with_mem m' s) /\
    vm_tree T (with_mem m' s) /\ vmr_ok T (with_mem m' s) (<[j := set_refcount (r_refcnt r - 1) r]> rs) /\
    user_same s (vmem s) m'.
Proof.
  intros V R Hj Hr Hf. destruct (vmr_bounds T s rs j r V R Hj) as (Vm & V0 & B1 & B2 & B3 & _).
  pose proof (vr_at _ _ _ R _ _ Hj) as Q. pose proof (ra_refcnt _ _ _ Q) as (_ & _ & Bn & _). change (8 * Z.of_nat 4) with 32 in Bn.
  destruct (set_refcnt_at T s rs j r (r_refcnt r - 1) V R Hj ltac:(unfold inu in *; lia)) as (m' & E & V' & R' & U).
  exists m'. split; [|done]. unfold __vmr_decref. unfold bind at 1, vmr_refcnt. rewrite (wrapu_small _ (vmr_ptr s j + 32)) by (unfold inu; lia).
  rewrite (on_cell _ _ _ _ (ra_refcnt _ _ _ Q)). rewrite (wrapu_small _ (r_refcnt r - 1)) by (unfold inu in *; lia).
  unfold bind at 1. rewrite E. destruct (r_refcnt r - 1 =? 0); [|done].
  assert (Hj' : <[j := set_refcount (r_refcnt r - 1) r]> rs !! j = Some (set_refcount (r_refcnt r - 1) r))
    by (apply list_lookup_insert_eq; eapply lookup_lt_Some; exact Hj).
  pose proof (vr_at _ _ _ R' _ _ Hj') as Q'. unfold bind, vmr_file. change (vmr_ptr (with_mem m' s) j) with (vmr_ptr s j) in Q'.
  rewrite wrapu_small by (unfold inu; lia). rewrite (on_cell _ _ _ _ (ra_file _ _ _ Q')). cbn [r_file set_refcount]. by rewrite Hf.
Qed.
End Walks.

(** ** Reference counts *)

(** [n] pages have the entry [ptr]. *)
Definition refs (f : Z -> Z) (ptr n : Z) : Prop :=
  exists ps, NoDup ps /\ (forall x, x ∈ ps <-> upage x /\ f x = ptr) /\ n = Z.of_nat (length ps).

Lemma refs_ext f g ptr n : (forall x, upage x -> f x = g x) -> refs f ptr n -> refs g ptr n.
Proof.
  intros E (ps & N & Hps & L). exists ps. split_and!; try done. intros x. rewrite Hps.
  split; intros [Hu Hx]; (split; [done|]); [by rewrite <- E|by rewrite E].
Qed.

Lemma refs_other f ptr n x v : f x <> ptr -> v <> ptr -> refs f ptr n -> refs (put_entry f x v) ptr n.
Proof.
  intros Hx Hv (ps & N & Hps & L). exists ps. split_and!; try done. intros y. rewrite Hps. unfold put_entry.
  destruct (Z.eqb_spec y x) as [->|]; [|done]. split; intros [_ ?]; congruence.
Qed.

Lemma refs_away f ptr n x v : upage x -> f x = ptr -> v <> ptr -> refs f ptr n -> 0 < n /\ refs (put_entry f x v) ptr (n - 1).
Proof.
  intros Hu Hx Hv (ps & N & Hps & L). assert (x ∈ ps) as Hin by (by apply Hps).
  apply elem_of_Permutation in Hin as [ps' P]. rewrite P in N. apply NoDup_cons in N as [Nx N].
  rewrite P in L. cbn [length] in L. split; [lia|]. exists ps'. split_and!; [done| |lia].
  intros y. unfold put_entry. destruct (Z.eqb_spec y x) as [->|Ny].
  - split; [done|]. intros [_ ?]. congruence.
  - rewrite <- Hps, P, elem_of_cons. split; [tauto|intros [?|?]; [congruence|done]].
Qed.

Lemma refs_in f ptr n x : upage x -> f x <> ptr -> refs f ptr n -> refs (put_entry f x ptr) ptr (n + 1).
Proof.
  intros Hu Hx (ps & N & Hps & L). exists (x :: ps). split_and!; [|intros y; unfold put_entry|cbn [length]; lia].
  - apply NoDup_cons. split; [|done]. rewrite Hps. tauto.
  - rewrite elem_of_cons, Hps. destruct (Z.eqb_spec y x) as [->|]; intuition congruence.
Qed.

(** An entry that is empty or valid, not a pointer to a region. *)
Definition plain (v : Z) : Prop := v = 0 \/ (v &&& PTE_V) <> 0.

(** The entries are plain or point to regions of the array at [base], whose counts are the
    numbers of their pages; [adj] counts references still to be installed. *)
Record book (adj : nat -> Z) (f : Z -> Z) (base : Z) (rs : list region) : Prop := {
  bk_base : base mod 8 = 0 /\ 0 < base;
  bk_ref j r : rs !! j = Some r -> refs f (base + 40 * Z.of_nat j) (r_refcnt r - adj j);
  bk_entry x : upage x -> plain (f x) \/ exists j, (j < length rs)%nat /\ f x = base + 40 * Z.of_nat j;
  bk_anon j r : rs !! j = Some r -> r_file r = 0;
  bk_adj j : 0 <= adj j;
}.

Lemma pointer_not_plain base j v : base mod 8 = 0 -> 0 < base -> plain v -> v <> base + 40 * Z.of_nat j.
Proof.
  intros Hb H0 [->|Hv] E; [lia|]. apply Hv. rewrite E. unfold PTE_V. change 1 with (Z.ones 1). rewrite Z.land_ones by lia.
  apply Z.mod_divide in Hb as [c ->]; [|lia]. replace (c * 8 + 40 * Z.of_nat j) with ((c * 4 + 20 * Z.of_nat j) * 2) by lia.
  by apply Z.mod_mul.
Qed.

Lemma book_put_plain adj f base rs x v :
  book adj f base rs -> plain (f x) -> plain v -> book adj (put_entry f x v) base rs.
Proof.
  intros [[Bb B0] Br Be Ba Bj] Hx Hv. constructor; try done.
  - intros j r Hj. apply refs_other; [by apply pointer_not_plain|by apply pointer_not_plain|by apply Br].
  - intros y Hy. unfold put_entry. destruct (y =? x); [by left|by apply Be].
Qed.

Lemma book_drop adj f base rs x v j r :
  book adj f base rs -> upage x -> f x = base + 40 * Z.of_nat j -> rs !! j = Some r -> plain v ->
  0 < r_refcnt r /\ book adj (put_entry f x v) base (<[j := set_refcount (r_refcnt r - 1) r]> rs).
Proof.
  intros [[Bb B0] Br Be Ba Bj] Hu Hx Hj Hv.
  destruct (refs_away f _ _ x v Hu Hx (pointer_not_plain _ _ _ Bb B0 Hv) (Br j r Hj)) as [P R].
  pose proof (Bj j) as Aj. split; [lia|]. constructor; try done.
  - intros i q Hi. destruct (decide (i = j)) as [->|N].
    + rewrite list_lookup_insert_eq in Hi by (eapply lookup_lt_Some; exact Hj). injection Hi as <-. cbn.
      by replace (r_refcnt r - 1 - adj j) with (r_refcnt r - adj j - 1) by lia.
    + rewrite list_lookup_insert_ne in Hi by done.
      apply refs_other; [rewrite Hx; lia|by apply pointer_not_plain|by apply Br].
  - intros y Hy. rewrite length_insert. unfold put_entry. destruct (y =? x); [by left|by apply Be].
  - intros i q Hi. destruct (decide (i = j)) as [->|N].
    + rewrite list_lookup_insert_eq in Hi by (eapply lookup_lt_Some; exact Hj). injection Hi as <-. exact (Ba j r Hj).
    + rewrite list_lookup_insert_ne in Hi by done. by apply (Ba i).
Qed.

Lemma book_install adj f base rs x j :
  book adj f base rs -> upage x -> plain (f x) -> (j < length rs)%nat -> 0 < adj j ->
  book (fun i => if decide (i = j) then adj i - 1 else adj i) (put_entry f x (base + 40 * Z.of_nat j)) base rs.
Proof.
  intros [[Bb B0] Br Be Ba Bj] Hu Hx Hj Ha. constructor; try done.
  - intros i r Hi. destruct (decide (i = j)) as [->|N].
    + replace (r_refcnt r - (adj j - 1)) with (r_refcnt r - adj j + 1) by lia.
      apply refs_in; [done|by apply pointer_not_plain|by apply Br].
    + apply refs_other; [by apply pointer_not_plain|lia|by apply Br].
  - intros y Hy. unfold put_entry. destruct (y =? x); [right; by exists j|by apply Be].
  - intros i. pose proof (Bj i). destruct (decide (i = j)) as [->|]; lia.
Qed.

(** ** The calls *)
Section Calls.
Context {F FIL : Type} `{FatFs F FIL}.
Implicit Types s : vm F FIL.
Variable lay : layout.

(** Tables, region array and reference counts agree. *)
Record vm_ok (adj : nat -> Z) (T : tree) s (rs : list region) : Prop := {
  vo_tree : vm_tree T s;
  vo_vmr : vmr_ok T s rs;
  vo_book : book adj (pte_of T s) (vmrs s) rs;
}.

Definition same_region (r r' : region) : Prop := set_refcount 0 r = set_refcount 0 r'.

(** From [s] to [s'] with the entries now [f]: only counts of regions change, at most [k]
    pages of the pool are taken, and memory outside the pool is the same. *)
Record vstep (k : Z) (T : tree) s (rs : list region) (T' : tree) s' (rs' : list region) (f : Z -> Z) : Prop := {
  vs_pte x : upage x -> pte_of T' s' x = f x;
  vs_regions : Forall2 same_region rs rs';
  vs_user : user_same s (vmem s) (vmem s');
  vs_leaf x t : upage x -> pleaf T 2 (root_page_table s) x = Some t -> pleaf T' 2 (root_page_table s) x = Some t;
  vs_state : s' = with_mem (vmem s') (set_next_free_page (next_free_page s') s);
  vs_next : next_free_page s <= next_free_page s' <= next_free_page s + k;
}.

Lemma same_regions_refl rs : Forall2 same_region rs rs.
Proof. apply Forall_Forall2_diag, Forall_true. done. Qed.

Lemma same_regions_trans r1 r2 r3 : Forall2 same_region r1 r2 -> Forall2 same_region r2 r3 -> Forall2 same_region r1 r3.
Proof.
  intros A. revert r3. induction A as [|x y l1 l2 E A IH]; intros r3 B; inversion B as [|? z ? l3 E' B']; subst; constructor; [|auto].
  unfold same_region in *. congruence.
Qed.

Lemma same_regions_count rs j r n : rs !! j = Some r -> Forall2 same_region rs (<[j := set_refcount n r]> rs).
Proof.
  intros Hj. rewrite <- (list_insert_id rs j r Hj) at 1. apply Forall2_insert; [apply same_regions_refl|done].
Qed.

Lemma vstep_refl T s rs : vstep 0 T s rs T s rs (pte_of T s).
Proof. constructor; try done; [apply same_regions_refl|by rewrite with_mem_next|lia]. Qed.

Lemma vstep_trans k1 k2 T1 s1 r1 T2 s2 r2 f2 T3 s3 r3 f3 :
  vstep k1 T1 s1 r1 T2 s2 r2 f2 -> vstep k2 T2 s2 r2 T3 s3 r3 f3 -> vstep (k1 + k2) T1 s1 r1 T3 s3 r3 f3.
Proof.
  intros A B. constructor.
  - apply (vs_pte _ _ _ _ _ _ _ _ B).
  - apply (same_regions_trans _ _ _ (vs_regions _ _ _ _ _ _ _ _ A) (vs_regions _ _ _ _ _ _ _ _ B)).
  - intros b k Hb Ha. rewrite (vs_user _ _ _ _ _ _ _ _ B b k Hb).
    + by apply (vs_user _ _ _ _ _ _ _ _ A).
    + rewrite (vs_state _ _ _ _ _ _ _ _ A). exact Ha.
  - intros x t Hx L. pose proof (vs_leaf _ _ _ _ _ _ _ _ B x t Hx) as LB. rewrite (vs_state _ _ _ _ _ _ _ _ A) in LB.
    apply LB, (vs_leaf _ _ _ _ _ _ _ _ A x t Hx L).
  - rewrite (vs_state _ _ _ _ _ _ _ _ B) at 1. rewrite (vs_state _ _ _ _ _ _ _ _ A) at 1. done.
  - pose proof (vs_next _ _ _ _ _ _ _ _ A). pose proof (vs_next _ _ _ _ _ _ _ _ B). lia.
Qed.

Lemma vstep_ext k k' T s rs T' s' rs' f g :
  vstep k T s rs T' s' rs' f -> k <= k' -> (forall x, upage x -> f x = g x) -> vstep k' T s rs T' s' rs' g.
Proof.
  intros [P R U L S N] Hk E. constructor; try done; [|lia]. intros x Hx. rewrite <- E by done. by apply P.
Qed.

Lemma remapped_vstep k T s T' s' rs f : vm_tree T s -> remapped k T s T' s' f -> vstep k T s rs T' s' rs f.
Proof.
  intros V [M P]. constructor; [done|apply same_regions_refl| | | |].
  - by eapply moved_user.
  - apply (mv_leaf _ _ _ _ _ M).
  - apply (mv_state _ _ _ _ _ M).
  - apply (mv_next _ _ _ _ _ M).
Qed.

Lemma book_ext adj f g base rs : book adj f base rs -> (forall x, upage x -> f x = g x) -> book adj g base rs.
Proof.
  intros [Bb Br Be Ba Bj] E. constructor; try done.
  - intros j r Hj. eapply refs_ext; [exact E|by apply Br].
  - intros x Hx. rewrite <- E by done. by apply Be.
Qed.

Lemma vs_vmrs k T s rs T' s' rs' f : vstep k T s rs T' s' rs' f -> vmrs s' = vmrs s.
Proof. intros A. rewrite (vs_state _ _ _ _ _ _ _ _ A). done. Qed.

(** A remapping keeps the invariant when the books agree. *)
Lemma vm_ok_remapped adj adj' k T s T' s' rs f :
  vm_ok adj T s rs -> remapped k T s T' s' f -> book adj' f (vmrs s) rs -> vm_ok adj' T' s' rs.
Proof.
  intros [V R B] X B'. pose proof (rm_moved _ _ _ _ _ _ X) as M. constructor.
  - apply M.
  - by eapply vmr_moved.
  - assert (vmrs s' = vmrs s) as -> by (rewrite (mv_state _ _ _ _ _ M); done).
    eapply book_ext; [exact B'|]. intros x Hx. symmetry. by apply (rm_pte _ _ _ _ _ _ X).
Qed.

(** Dropping the reference of a page about to be rewritten. *)
Lemma drop_page adj T s rs vpn v j :
  vm_ok adj T s rs -> upage vpn -> pte_of T s vpn = vmr_ptr s j -> (j < length rs)%nat -> plain v ->
  exists m' rs', __vmr_decref lay (vmr_ptr s j) 1 s = Ret tt (with_mem m' s) /\
    vm_tree T (with_mem m' s) /\ vmr_ok T (with_mem m' s) rs' /\
    book adj (put_entry (pte_of T s) vpn v) (vmrs s) rs' /\ Forall2 same_region rs rs' /\ user_same s (vmem s) m'.
Proof.
  intros [V R B] Hu Hp Hj Hv. destruct (lookup_lt_is_Some_2 rs j Hj) as [r Er].
  destruct (book_drop adj _ _ _ vpn v j r B Hu Hp Er Hv) as [Pos B'].
  destruct (vmr_decref_at lay T s rs j r V R Er Pos (bk_anon _ _ _ _ B j r Er)) as (m' & E & V' & R' & U).
  exists m', (<[j := set_refcount (r_refcnt r - 1) r]> rs). split_and!; try done. by apply same_regions_count.
Qed.

(** The three kinds of entry. *)
Lemma entry_cases adj T s rs vpn :
  vm_ok adj T s rs -> upage vpn ->
  pte_of T s vpn = 0 \/ ((pte_of T s vpn &&& PTE_V) <> 0 /\ pte_of T s vpn <> 0) \/
  ((pte_of T s vpn &&& PTE_V) = 0 /\ pte_of T s vpn <> 0 /\ exists j, (j < length rs)%nat /\ pte_of T s vpn = vmr_ptr s j).
Proof.
  intros [V R B] Hu. destruct (bk_base _ _ _ _ B) as [Bb B0]. destruct (bk_entry _ _ _ _ B vpn Hu) as [[E|E]|(j & Hj & E)].
  - by left.
  - right; left. split; [done|]. intros E0. rewrite E0 in E. done.
  - right; right. split; [|split].
    + destruct (Z.eq_dec (pte_of T s vpn &&& PTE_V) 0) as [|N]; [done|].
      exfalso. eapply (pointer_not_plain (vmrs s) j (pte_of T s vpn)); [done|done|by right|done].
    + intros E0. eapply (pointer_not_plain (vmrs s) j (pte_of T s vpn)); [done|done|by left|done].
    + by exists j.
Qed.

Lemma pleaf_none T s vpn : pleaf T 2 (root_page_table s) vpn = None -> pte_of T s vpn = 0.
Proof. intros L. unfold pte_of. by rewrite pget_leaf, L. Qed.

Lemma put_entry_same f x y : f x = y -> forall z, put_entry f x y z = f z.
Proof. intros E z. unfold put_entry. destruct (Z.eqb_spec z x) as [->|]; congruence. Qed.

(** Overwriting the entry of a page with a plain value, its region released. *)
Lemma rewrite_page adj T s rs vpn t0 v :
  vm_ok adj T s rs -> upage vpn -> pleaf T 2 (root_page_table s) vpn = Some t0 -> plain v -> inu 64 v ->
  exists T' s' rs',
    ((if (pte_of T s vpn &&& PTE_V) =? 0 then
        if pte_of T s vpn =? 0 then ret tt else __vmr_decref lay (pte_of T s vpn) 1
      else ret tt) ;; set_pte (t0 + 8 * vidx 0 vpn) v) s = Ret tt s' /\
    vm_ok adj T' s' rs' /\ vstep 0 T s rs T' s' rs' (put_entry (pte_of T s) vpn v) /\
    pleaf T' 2 (root_page_table s) vpn = Some t0.
Proof.
  intros Ok Hu L Hv Hi. pose proof Ok as [V R B].
  assert (Plain : plain (pte_of T s vpn) -> exists T' s' rs', set_pte (t0 + 8 * vidx 0 vpn) v s = Ret tt s' /\
    vm_ok adj T' s' rs' /\ vstep 0 T s rs T' s' rs' (put_entry (pte_of T s) vpn v) /\ pleaf T' 2 (root_page_table s) vpn = Some t0).
  { intros Hp. destruct (set_pte_at T s vpn t0 v V Hu L Hi) as (T' & s' & E & X & L').
    exists T', s', rs. split; [done|]. split; [|split; [by apply remapped_vstep|done]].
    eapply vm_ok_remapped; [exact Ok|exact X|]. by apply book_put_plain. }
  unfold bind. destruct (entry_cases adj T s rs vpn Ok Hu) as [E|[[E N]|(E & N & j & Hj & Ej)]].
  - rewrite E in *. apply Plain. by left.
  - rewrite (proj2 (Z.eqb_neq _ 0) E). apply Plain. by right.
  - rewrite E, (proj2 (Z.eqb_neq _ 0) N). change (0 =? 0) with true. cbv iota.
    destruct (drop_page adj T s rs vpn v j Ok Hu Ej Hj Hv) as (m' & rs' & D & V' & R' & B' & S' & U').
    rewrite Ej, D. destruct (set_pte_at T (with_mem m' s) vpn t0 v V' Hu L Hi) as (T' & s' & W & X & L').
    exists T', s', rs'. split; [done|]. split; [|split; [|exact L']].
    + pose proof (rm_moved _ _ _ _ _ _ X) as M. constructor; [apply M|by eapply vmr_moved|].
      assert (vmrs s' = vmrs s) as -> by (rewrite (mv_state _ _ _ _ _ M); done).
      eapply book_ext; [exact B'|]. intros x Hx. symmetry. by apply (rm_pte _ _ _ _ _ _ X).
    + pose proof (remapped_vstep 0 T (with_mem m' s) T' s' rs' _ V' X) as Y. constructor.
      * apply (vs_pte _ _ _ _ _ _ _ _ Y).
      * done.
      * intros b k Hb Ha. rewrite (vs_user _ _ _ _ _ _ _ _ Y b k Hb Ha). by apply U'.
      * apply (vs_leaf _ _ _ _ _ _ _ _ Y).
      * rewrite (vs_state _ _ _ _ _ _ _ _ Y). done.
      * apply (vs_next _ _ _ _ _ _ _ _ Y).
Qed.

Lemma munmap_page_at adj T s rs vpn :
  vm_ok adj T s rs -> upage vpn ->
  exists T' s' rs', munmap_page lay (vpn * 4096) s = Ret tt s' /\
    vm_ok adj T' s' rs' /\ vstep 0 T s rs T' s' rs' (put_entry (pte_of T s) vpn 0).
Proof.
  intros Ok Hu. pose proof Ok as [V R B]. unfold upage in Hu. unfold munmap_page, bind at 1.
  rewrite (walk_find T s (vpn * 4096) V) by lia. rewrite page_of by lia.
  assert (Same : pte_of T s vpn = 0 -> exists T' s' rs', Ret tt s = Ret tt s' /\
    vm_ok adj T' s' rs' /\ vstep 0 T s rs T' s' rs' (put_entry (pte_of T s) vpn 0)).
  { intros E. exists T, s, rs. split_and!; try done. eapply vstep_ext; [apply vstep_refl|lia|].
    intros x _. by rewrite put_entry_same. }
  destruct (pleaf T 2 (root_page_table s) vpn) as [t0|] eqn:L; [|by apply Same, pleaf_none].
  destruct (leaf_facts T s vpn t0 V Hu L) as (_ & P & _ & _). rewrite (proj2 (Z.eqb_neq (t0 + _) 0)) by lia.
  unfold bind at 1. rewrite (get_pte_at T s vpn t0 V Hu L). destruct (Z.eqb_spec (pte_of T s vpn) 0) as [E|N]; [by apply Same|].
  destruct (rewrite_page adj T s rs vpn t0 0 Ok Hu L (or_introl eq_refl) ltac:(unfold inu; lia)) as (T' & s' & rs' & E & Ok' & S' & _).
  exists T', s', rs'. split; [|done]. rewrite <- E. rewrite (proj2 (Z.eqb_neq _ 0) N). done.
Qed.

(** A loop over the [n] pages from [v0] on, by its invariant. *)
Lemma for_pages_loop (body : Z -> ST (vm F FIL) unit) (I : Z -> vm F FIL -> Prop) v0 n e :
  0 <= v0 -> (v0 + n) * 4096 < 2 ^ 64 -> (v0 + n - 1) * 4096 < e <= (v0 + n) * 4096 ->
  (forall i s, 0 <= i < n -> I i s -> returns (body ((v0 + i) * 4096)) s (fun _ s' => I (i + 1) s')) ->
  forall k i s, 0 <= i <= n -> n - i < Z.of_nat k -> I i s ->
  returns (for_pages k ((v0 + i) * 4096) e body) s (fun _ s' => I n s').
Proof.
  intros H0 H1 He Hb k. induction k as [|k IH]; intros i s Hi Hk HI; [lia|]. cbn [for_pages].
  destruct (Z.ltb_spec ((v0 + i) * 4096) e) as [L|L].
  - eapply returns_bind; [apply Hb; [lia|exact HI]|]. intros [] s' HI'. unfold RISCV_PGSIZE.
    rewrite wrapu_small by (unfold inu; lia). replace ((v0 + i) * 4096 + 4096) with ((v0 + (i + 1)) * 4096) by lia.
    apply IH; [lia|lia|exact HI'].
  - replace n with i by lia. by apply returns_ret.
Qed.

(** The pages of a range. *)
Definition npages (len : Z) : Z := (len - 1) / 4096 + 1.
Definition over_range (f : Z -> Z) (v0 n v : Z) : Z -> Z := fun x => if (v0 <=? x) && (x <? v0 + n) then v else f x.

Lemma npages_spec len : 0 < len -> 0 < npages len /\ 4096 * (npages len - 1) < len <= 4096 * npages len.
Proof. intros Hl. unfold npages. pose proof (Z.div_mod (len - 1) 4096). pose proof (Z.mod_pos_bound (len - 1) 4096). lia. Qed.

Lemma pages_fuel_enough len : 0 < len -> npages len < Z.of_nat (pages_fuel len).
Proof.
  intros Hl. unfold pages_fuel, RISCV_PGSIZE. pose proof (npages_spec len Hl). pose proof (Z.div_mod len 4096).
  pose proof (Z.mod_pos_bound len 4096). lia.
Qed.

Lemma over_range_0 f v0 v x : over_range f v0 0 v x = f x.
Proof. unfold over_range. destruct (Z.leb_spec v0 x), (Z.ltb_spec x (v0 + 0)); cbn [andb]; lia || done. Qed.

Lemma over_range_S f v0 i v x : 0 <= i -> put_entry (over_range f v0 i v) (v0 + i) v x = over_range f v0 (i + 1) v x.
Proof.
  intros Hi. unfold put_entry, over_range.
  destruct (Z.eqb_spec x (v0 + i)), (Z.leb_spec v0 x), (Z.ltb_spec x (v0 + i)), (Z.ltb_spec x (v0 + (i + 1))); cbn [andb]; lia || done.
Qed.

Lemma put_entry_ext f g x v : (forall y, upage y -> f y = g y) -> forall y, upage y -> put_entry f x v y = put_entry g x v y.
Proof. intros E y Hy. unfold put_entry. destruct (y =? x); [done|by apply E]. Qed.

Lemma munmap_range adj T s rs v0 len :
  vm_ok adj T s rs -> 0 <= v0 -> 0 < len -> v0 + npages len <= 2 ^ 27 ->
  returns (__do_munmap lay (v0 * 4096) len) s (fun _ s' => exists T' rs', vm_ok adj T' s' rs' /\
    vstep 0 T s rs T' s' rs' (over_range (pte_of T s) v0 (npages len) 0)).
Proof.
  intros Ok H0 Hl Hr. pose proof (npages_spec len Hl) as [Pn Bn]. unfold __do_munmap.
  rewrite wrapu_small by (unfold inu; lia).
  pose proof (for_pages_loop (munmap_page lay) (fun i s' => exists T' rs', vm_ok adj T' s' rs' /\
    vstep 0 T s rs T' s' rs' (over_range (pte_of T s) v0 i 0)) v0 (npages len) (v0 * 4096 + len)) as Loop.
  replace (v0 * 4096) with ((v0 + 0) * 4096) at 1 by lia. apply Loop; try lia.
  - intros i s1 Hi (T1 & rs1 & Ok1 & S1).
    destruct (munmap_page_at adj T1 s1 rs1 (v0 + i) Ok1 ltac:(unfold upage; lia)) as (T2 & s2 & rs2 & E & Ok2 & S2).
    eapply returns_intro; [exact E|]. exists T2, rs2. split; [done|].
    eapply vstep_ext; [exact (vstep_trans _ _ _ _ _ _ _ _ _ _ _ _ _ S1 S2)|lia|]. intros x Hx.
    rewrite <- over_range_S by lia. apply put_entry_ext; [|done]. apply (vs_pte _ _ _ _ _ _ _ _ S1).
  - pose proof (pages_fuel_enough len Hl). lia.
  - exists T, rs. split; [done|]. eapply vstep_ext; [apply vstep_refl|lia|]. intros x _. by rewrite over_range_0.
Qed.

Definition less (adj : nat -> Z) (j : nat) : nat -> Z := fun i => if decide (i = j) then adj i - 1 else adj i.

Lemma vptr_range adj T s rs j : vm_ok adj T s rs -> (j < length rs)%nat -> inu 64 (vmr_ptr s j) /\ 0 < vmr_ptr s j.
Proof.
  intros [V R _] Hj. destruct (lookup_lt_is_Some_2 rs j Hj) as [r Er].
  destruct (vmr_bounds T s rs j r V R Er) as (_ & B0 & B1 & B2 & B3 & _). unfold inu. lia.
Qed.

(** Emptying a page that may be mapped. *)
Lemma clear_page adj T s rs vpn :
  vm_ok adj T s rs -> upage vpn ->
  exists T' s' rs',
    (if negb (pte_of T s vpn =? 0) then __do_munmap lay (vpn * 4096) RISCV_PGSIZE else ret tt) s = Ret tt s' /\
    vm_ok adj T' s' rs' /\ vstep 0 T s rs T' s' rs' (put_entry (pte_of T s) vpn 0).
Proof.
  intros Ok Hu. unfold upage in Hu. destruct (Z.eqb_spec (pte_of T s vpn) 0) as [E|N]; cbn [negb].
  - exists T, s, rs. split_and!; try done. eapply vstep_ext; [apply vstep_refl|lia|]. intros x _. by rewrite put_entry_same.
  - destruct (munmap_range adj T s rs vpn 4096 Ok ltac:(lia) ltac:(lia)) as ([] & s' & E & T' & rs' & Ok' & S').
    { change (npages 4096) with 1. lia. }
    exists T', s', rs'. split_and!; try done. eapply vstep_ext; [exact S'|lia|]. intros x _. change (npages 4096) with 1.
    replace vpn with (vpn + 0) at 2 by lia. change 1 with (0 + 1). rewrite <- over_range_S by lia. unfold put_entry.
    destruct (x =? vpn + 0); [done|]. by rewrite over_range_0.
Qed.

Lemma mmap_page_at adj T s rs vpn j :
  vm_ok adj T s rs -> upage vpn -> (j < length rs)%nat -> 0 < adj j -> next_free_page s + 2 <= free_pages s ->
  exists T' s' rs', mmap_page lay (vmr_ptr s j) (vpn * 4096) s = Ret tt s' /\
    vm_ok (less adj j) T' s' rs' /\ vstep 2 T s rs T' s' rs' (put_entry (pte_of T s) vpn (vmr_ptr s j)).
Proof.
  intros Ok Hu Hj Ha Hn. pose proof Ok as [V R B]. pose proof Hu as Hu'. unfold upage in Hu'.
  destruct (walk_create T s (vpn * 4096) V ltac:(lia) Hn) as (T1 & s1 & t0 & E1 & X & L). rewrite page_of in * by lia.
  pose proof (extends_remapped 2 T T1 s s1 V X) as X1. pose proof (rm_moved _ _ _ _ _ _ X1) as M1.
  pose proof (vm_ok_remapped adj adj _ _ _ _ _ _ _ Ok X1 B) as Ok1. pose proof (vo_tree _ _ _ _ Ok1) as V1.
  pose proof (remapped_vstep 2 T s T1 s1 rs _ V X1) as S1.
  assert (L1 : pleaf T1 2 (root_page_table s1) vpn = Some t0) by (rewrite (mv_root _ _ _ _ _ M1); exact L).
  destruct (leaf_facts T1 s1 vpn t0 V1 Hu L1) as (_ & P & _ & _).
  destruct (clear_page adj T1 s1 rs vpn Ok1 Hu) as (T2 & s2 & rs2 & E2 & Ok2 & S2).
  pose proof (vs_leaf _ _ _ _ _ _ _ _ S2 vpn t0 Hu L1) as L2. pose proof (vstep_trans _ _ _ _ _ _ _ _ _ _ _ _ _ S1 S2) as S12.
  assert (Er : root_page_table s2 = root_page_table s1) by (rewrite (vs_state _ _ _ _ _ _ _ _ S2); done).
  assert (Ep : vmr_ptr s2 j = vmr_ptr s j) by (unfold vmr_ptr; by rewrite (vs_vmrs _ _ _ _ _ _ _ _ S12)).
  assert (Hj2 : (j < length rs2)%nat) by (rewrite <- (Forall2_length _ _ _ (vs_regions _ _ _ _ _ _ _ _ S2)); done).
  assert (Z2 : pte_of T2 s2 vpn = 0).
  { rewrite (vs_pte _ _ _ _ _ _ _ _ S2) by done. unfold put_entry. by rewrite Z.eqb_refl. }
  rewrite <- Er in L2. rewrite <- Ep.
  destruct (set_pte_at T2 s2 vpn t0 (vmr_ptr s2 j) (vo_tree _ _ _ _ Ok2) Hu L2 (proj1 (vptr_range _ _ _ _ _ Ok2 Hj2))) as (T3 & s3 & E3 & X3 & _).
  exists T3, s3, rs2. split; [|split].
  - unfold mmap_page. unfold bind at 1. rewrite E1. unfold bind at 1, kassert. rewrite (proj2 (Z.eqb_neq (t0 + _) 0)) by lia. cbn [negb].
    unfold ret at 1. unfold bind at 1. rewrite (get_pte_at T1 s1 vpn t0 V1 Hu L1). unfold bind. by rewrite E2.
  - eapply vm_ok_remapped; [exact Ok2|exact X3|]. apply book_install; [apply Ok2|done|by left|done|done].
  - eapply vstep_ext; [exact (vstep_trans _ _ _ _ _ _ _ _ _ _ _ _ _ S12 (remapped_vstep 0 T2 s2 T3 s3 rs2 _ (vo_tree _ _ _ _ Ok2) X3))|lia|].
    intros x Hx. unfold put_entry. destruct (Z.eqb_spec x vpn) as [->|N]; [done|]. rewrite (vs_pte _ _ _ _ _ _ _ _ S2) by done.
    unfold put_entry. rewrite (proj2 (Z.eqb_neq x vpn)) by done. by apply (vs_pte _ _ _ _ _ _ _ _ S1).
Qed.

(** *** Filling in a region *)
Lemma store_field T s rs j r r' off n old w :
  vm_tree T s -> vmr_ok T s rs -> rs !! j = Some r -> 0 <= off -> off + Z.of_nat n <= 40 ->
  cell n (vmem s) (vmr_ptr s j + off) old -> inu (8 * Z.of_nat n) w ->
  (forall m', m' = write_bytes (vmem s) (vmr_ptr s j + off) (le_split n w) -> cell n m' (vmr_ptr s j + off) w ->
     (forall k b v, cell k (vmem s) b v -> apart b k (vmr_ptr s j + off) n -> cell k m' b v) -> region_at m' (vmr_ptr s j) r') ->
  exists m', on_memory (store n (u64 (vmr_ptr s j + off)) w) s = Ret tt (with_mem m' s) /\
    vm_tree T (with_mem m' s) /\ vmr_ok T (with_mem m' s) (<[j := r']> rs) /\ user_same s (vmem s) m'.
Proof.
  intros V R Hj H0 H1 C Hw Hr. destruct (vmr_bounds T s rs j r V R Hj) as (_ & V0 & B1 & B2 & B3 & _).
  destruct (cell_store _ _ _ _ w C Hw) as [_ C'].
  exists (write_bytes (vmem s) (vmr_ptr s j + off) (le_split n w)). split.
  - rewrite wrapu_small by (unfold inu; lia). by eapply on_cell_set.
  - apply (region_write T s rs j r); try done. apply Hr; [done|done|]. intros k b v Cb Ab.
    apply cell_other; [done|rewrite length_le_split; unfold fits; lia|by rewrite length_le_split].
Qed.

(** One store after another, each changing a field of slot [j]. *)
Lemma store_step T s j off n old w r1 r2 :
  0 <= off -> off + Z.of_nat n <= 40 -> inu (8 * Z.of_nat n) w ->
  (forall m, region_at m (vmr_ptr s j) r1 -> cell n m (vmr_ptr s j + off) old) ->
  (forall m m', region_at m (vmr_ptr s j) r1 -> cell n m' (vmr_ptr s j + off) w ->
     (forall k b v, cell k m b v -> apart b k (vmr_ptr s j + off) n -> cell k m' b v) -> region_at m' (vmr_ptr s j) r2) ->
  forall m rs1, vm_tree T (with_mem m s) -> vmr_ok T (with_mem m s) rs1 -> rs1 !! j = Some r1 -> user_same s (vmem s) m ->
  exists m', on_memory (store n (u64 (vmr_ptr s j + off)) w) (with_mem m s) = Ret tt (with_mem m' s) /\
    vm_tree T (with_mem m' s) /\ vmr_ok T (with_mem m' s) (<[j := r2]> rs1) /\ user_same s (vmem s) m'.
Proof.
  intros O0 O1 Hw Hc Hr m rs1 V1 R1 Hj1 U1. pose proof (vr_at _ _ _ R1 _ _ Hj1) as Q.
  destruct (store_field T (with_mem m s) rs1 j r1 r2 off n old w V1 R1 Hj1 O0 O1 (Hc _ Q) Hw) as (m' & E & V' & R' & U').
  - intros m' Em' C Oth. eapply Hr; [exact Q|exact C|exact Oth].
  - exists m'. split_and!; try done. intros b k' Hb Hab. rewrite (U' b k' Hb Hab). by apply U1.
Qed.

(** The fields of a region after a store: the one written, and the others. *)
Ltac region_field C O :=
  constructor; cbn [r_addr r_length r_file r_offset r_refcnt r_prot] in *;
  first [exact C | apply O; [assumption|unfold apart; lia]].

Lemma set_region_at T s rs j r addr length offset refcnt prot {A} (k : ST (vm F FIL) A) :
  vm_tree T s -> vmr_ok T s rs -> rs !! j = Some r ->
  inu 64 addr -> inu 64 length -> inu 64 offset -> inu 32 refcnt -> inu 32 prot ->
  exists m', (set_vmr_addr (vmr_ptr s j) addr ;; set_vmr_length (vmr_ptr s j) length ;; set_vmr_file (vmr_ptr s j) 0 ;;
      set_vmr_offset (vmr_ptr s j) offset ;; set_vmr_refcnt (vmr_ptr s j) refcnt ;; set_vmr_prot (vmr_ptr s j) prot ;; k) s
      = k (with_mem m' s) /\
    vm_tree T (with_mem m' s) /\ vmr_ok T (with_mem m' s) (<[j := Region addr length 0 offset refcnt prot]> rs) /\
    user_same s (vmem s) m'.
Proof.
  intros V R Hj Ha Hl Ho Hn Hp. pose proof (lookup_lt_Some _ _ _ Hj) as Lt.
  assert (H0 : inu 64 0) by (unfold inu; lia).
  destruct (vmr_bounds T s rs j r V R Hj) as (_ & V0 & B1 & B2 & B3 & _).
  assert (Ep : u64 (vmr_ptr s j + 0) = vmr_ptr s j) by (rewrite Z.add_0_r; apply wrapu_small; unfold inu; lia).
  destruct r as [a0 l0 f0 o0 n0 p0].
  assert (Hs : with_mem (vmem s) s = s) by apply with_mem_self.
  destruct (store_step T s j 0 8%nat a0 addr (Region a0 l0 f0 o0 n0 p0) (Region addr l0 f0 o0 n0 p0) ltac:(lia) ltac:(lia) Ha
    ltac:(intros m []; by rewrite Z.add_0_r) ltac:(intros m m' [] C O; rewrite ?Z.add_0_r in *; region_field C O)
    (vmem s) rs) as (m1 & E1 & V1 & R1 & U1); [by rewrite Hs|by rewrite Hs|done|done|].
  destruct (store_step T s j 8 8%nat l0 length (Region addr l0 f0 o0 n0 p0) (Region addr length f0 o0 n0 p0) ltac:(lia) ltac:(lia) Hl
    ltac:(intros m []; done) ltac:(intros m m' [] C O; region_field C O) m1 _ V1 R1) as (m2 & E2 & V2 & R2 & U2);
    [by apply list_lookup_insert_eq|done|].
  rewrite list_insert_insert_eq in R2.
  destruct (store_step T s j 16 8%nat f0 0 (Region addr length f0 o0 n0 p0) (Region addr length 0 o0 n0 p0) ltac:(lia) ltac:(lia) H0
    ltac:(intros m []; done) ltac:(intros m m' [] C O; region_field C O) m2 _ V2 R2) as (m3 & E3 & V3 & R3 & U3);
    [by apply list_lookup_insert_eq|done|].
  rewrite list_insert_insert_eq in R3.
  destruct (store_step T s j 24 8%nat o0 offset (Region addr length 0 o0 n0 p0) (Region addr length 0 offset n0 p0) ltac:(lia) ltac:(lia) Ho
    ltac:(intros m []; done) ltac:(intros m m' [] C O; region_field C O) m3 _ V3 R3) as (m4 & E4 & V4 & R4 & U4);
    [by apply list_lookup_insert_eq|done|].
  rewrite list_insert_insert_eq in R4.
  destruct (store_step T s j 32 4%nat n0 refcnt (Region addr length 0 offset n0 p0) (Region addr length 0 offset refcnt p0) ltac:(lia) ltac:(lia) Hn
    ltac:(intros m []; done) ltac:(intros m m' [] C O; region_field C O) m4 _ V4 R4) as (m5 & E5 & V5 & R5 & U5);
    [by apply list_lookup_insert_eq|done|].
  rewrite list_insert_insert_eq in R5.
  destruct (store_step T s j 36 4%nat p0 prot (Region addr length 0 offset refcnt p0) (Region addr length 0 offset refcnt prot) ltac:(lia) ltac:(lia) Hp
    ltac:(intros m []; done) ltac:(intros m m' [] C O; region_field C O) m5 _ V5 R5) as (m6 & E6 & V6 & R6 & U6);
    [by apply list_lookup_insert_eq|done|].
  rewrite list_insert_insert_eq in R6. rewrite Hs, Ep in E1.
  exists m6. split; [|done].
  unfold set_vmr_addr, set_vmr_length, set_vmr_file, set_vmr_offset, set_vmr_refcnt, set_vmr_prot, bind.
  by rewrite E1, E2, E3, E4, E5, E6.
Qed.

(** The first free slot is taken. *)
Lemma vmr_scan_at T s rs j r addr length offset refcnt prot :
  vm_tree T s -> vmr_ok T s rs -> rs !! j = Some r -> r_refcnt r = 0 ->
  inu 64 addr -> inu 64 length -> inu 64 offset -> inu 32 refcnt -> inu 32 prot ->
  exists m', vm_tree T (with_mem m' s) /\ vmr_ok T (with_mem m' s) (<[j := Region addr length 0 offset refcnt prot]> rs) /\
    user_same s (vmem s) m' /\
    forall k i, (i <= j)%nat -> (j < i + k)%nat -> (forall q x, (i <= q < j)%nat -> rs !! q = Some x -> r_refcnt x <> 0) ->
    vmr_scan lay k (vmr_ptr s i) addr length 0 offset refcnt prot s = Ret (vmr_ptr s j) (with_mem m' s).
Proof.
  intros V R Hj Hz Ha Hl Ho Hn Hp.
  destruct (set_region_at T s rs j r addr length offset refcnt prot (ret (vmr_ptr s j)) V R Hj Ha Hl Ho Hn Hp) as (m' & E & V' & R' & U').
  exists m'. split_and!; try done. intros k. induction k as [|k IH]; intros i Hi Hk Hq; [lia|].
  assert (exists x, rs !! i = Some x) as [x Ex] by (apply lookup_lt_is_Some; apply lookup_lt_Some in Hj; lia).
  destruct (vmr_bounds T s rs i x V R Ex) as (_ & V0 & B1 & B2 & B3 & _).
  cbn [vmr_scan]. unfold bind at 1, vmr_refcnt. rewrite wrapu_small by (unfold inu; lia).
  rewrite (on_cell _ _ _ _ (ra_refcnt _ _ _ (vr_at _ _ _ R _ _ Ex))). destruct (decide (i = j)) as [->|N].
  - rewrite Ex in Hj. injection Hj as ->. rewrite Hz. change (0 =? 0) with true. cbv iota. cbn [negb]. unfold bind at 1, ret at 1. exact E.
  - rewrite (proj2 (Z.eqb_neq _ 0)) by (apply (Hq i x); [lia|done]). rewrite wrapu_small by (unfold inu, VMR_SIZE; lia).
    replace (vmr_ptr s i + VMR_SIZE) with (vmr_ptr s (S i)) by (unfold vmr_ptr, VMR_SIZE; lia).
    apply IH; [lia|lia|]. intros q y Hy. apply Hq. lia.
Qed.

Definition only (j : nat) (n : Z) : nat -> Z := fun i => if decide (i = j) then n else 0.
Definition settled : nat -> Z := fun _ => 0.

Lemma book_adj adj adj' f base rs : (forall i, adj i = adj' i) -> book adj f base rs -> book adj' f base rs.
Proof.
  intros E [Bb Br Be Ba Bj]. constructor; try done; [|intros j; rewrite <- E; apply Bj].
  intros j r Hj. rewrite <- E. by apply Br.
Qed.

Lemma vm_ok_adj adj adj' T s rs : (forall i, adj i = adj' i) -> vm_ok adj T s rs -> vm_ok adj' T s rs.
Proof. intros E [V R B]. constructor; try done. by eapply book_adj. Qed.

(** A new region, all of its references still to be installed. *)
Lemma book_alloc f base rs j r addr length offset n prot :
  book settled f base rs -> rs !! j = Some r -> r_refcnt r = 0 -> 0 <= n ->
  book (only j n) f base (<[j := Region addr length 0 offset n prot]> rs).
Proof.
  intros [Bb Br Be Ba Bj] Hj Hz Hn. constructor; try done.
  - intros i q Hi. unfold only. destruct (decide (i = j)) as [->|N].
    + rewrite list_lookup_insert_eq in Hi by (eapply lookup_lt_Some; exact Hj). injection Hi as <-. cbn.
      pose proof (Br j r Hj) as Rj. rewrite Hz in Rj. by replace (n - n) with (0 - settled j) by (unfold settled; lia).
    + rewrite list_lookup_insert_ne in Hi by done. exact (Br i q Hi).
  - intros x Hx. rewrite length_insert. by apply Be.
  - intros i q Hi. destruct (decide (i = j)) as [->|N].
    + rewrite list_lookup_insert_eq in Hi by (eapply lookup_lt_Some; exact Hj). by injection Hi as <-.
    + rewrite list_lookup_insert_ne in Hi by done. by apply (Ba i).
  - intros i. unfold only. destruct (decide (i = j)); lia.
Qed.

(** The slot [__vmr_alloc] takes. *)
Definition first_free (rs : list region) (j : nat) : Prop :=
  (exists r, rs !! j = Some r /\ r_refcnt r = 0) /\ forall q x, (q < j)%nat -> rs !! q = Some x -> r_refcnt x <> 0.

Lemma vmr_alloc_at T s rs j addr length offset n prot :
  vm_ok settled T s rs -> first_free rs j ->
  inu 64 addr -> inu 64 length -> inu 64 offset -> inu 32 n -> inu 32 prot ->
  exists m', __vmr_alloc lay addr length 0 offset n prot s = Ret (vmr_ptr s j) (with_mem m' s) /\
    vm_ok (only j n) T (with_mem m' s) (<[j := Region addr length 0 offset n prot]> rs) /\ user_same s (vmem s) m'.
Proof.
  intros [V R B] [(r & Hj & Hz) Hq] Ha Hl Ho Hn Hp.
  destruct (vmr_scan_at T s rs j r addr length offset n prot V R Hj Hz Ha Hl Ho Hn Hp) as (m' & V' & R' & U' & E).
  exists m'. split; [|split; [|done]].
  - destruct (vmr_bounds T s rs j r V R Hj) as (_ & V0 & _). unfold __vmr_alloc. unfold bind at 1, gets at 1.
    rewrite (proj2 (Z.eqb_neq (vmrs s) 0)) by lia. unfold bind at 1, ret at 1. unfold bind, gets.
    replace (vmrs s) with (vmr_ptr s 0) by (unfold vmr_ptr; lia). apply E; [lia| |].
    + apply lookup_lt_Some in Hj. rewrite (vr_len _ _ _ R) in Hj. lia.
    + intros q x Hqj. apply Hq. lia.
  - constructor; [done|done|]. apply (book_alloc _ _ _ _ r); [exact B|done|done|]. unfold inu in Hn. lia.
Qed.

Lemma mmap_range T s rs v0 len j :
  vm_ok (only j (npages len)) T s rs -> (j < length rs)%nat -> 0 <= v0 -> 0 < len -> v0 + npages len <= 2 ^ 27 ->
  next_free_page s + 2 * npages len <= free_pages s ->
  returns (for_pages (pages_fuel len) (v0 * 4096) (u64 (v0 * 4096 + len)) (mmap_page lay (vmr_ptr s j))) s
    (fun _ s' => exists T' rs', vm_ok settled T' s' rs' /\
       vstep (2 * npages len) T s rs T' s' rs' (over_range (pte_of T s) v0 (npages len) (vmr_ptr s j))).
Proof.
  intros Ok Hj H0 Hl Hr Hn. pose proof (npages_spec len Hl) as [Pn Bn]. rewrite wrapu_small by (unfold inu; lia).
  set (n := npages len) in *.
  pose proof (for_pages_loop (mmap_page lay (vmr_ptr s j)) (fun i s' => exists T' rs', vm_ok (only j (n - i)) T' s' rs' /\
    vstep (2 * i) T s rs T' s' rs' (over_range (pte_of T s) v0 i (vmr_ptr s j))) v0 n (v0 * 4096 + len)) as Loop.
  replace (v0 * 4096) with ((v0 + 0) * 4096) at 1 by lia.
  eapply returns_mono; [apply Loop; try lia|].
  - intros i s1 Hi (T1 & rs1 & Ok1 & S1). pose proof (vs_next _ _ _ _ _ _ _ _ S1).
    assert (Ep : vmr_ptr s1 j = vmr_ptr s j) by (unfold vmr_ptr; by rewrite (vs_vmrs _ _ _ _ _ _ _ _ S1)).
    assert (Hj1 : (j < length rs1)%nat) by (rewrite <- (Forall2_length _ _ _ (vs_regions _ _ _ _ _ _ _ _ S1)); done).
    destruct (mmap_page_at (only j (n - i)) T1 s1 rs1 (v0 + i) j Ok1) as (T2 & s2 & rs2 & E & Ok2 & S2).
    + unfold upage. lia.
    + done.
    + unfold only. rewrite decide_True by done. lia.
    + assert (free_pages s1 = free_pages s) as -> by (rewrite (vs_state _ _ _ _ _ _ _ _ S1); done). lia.
    + rewrite Ep in E, S2. eapply returns_intro; [exact E|]. exists T2, rs2. split.
      * eapply vm_ok_adj; [|exact Ok2]. intros q. unfold less, only. destruct (decide (q = j)); lia.
      * eapply vstep_ext; [exact (vstep_trans _ _ _ _ _ _ _ _ _ _ _ _ _ S1 S2)|lia|]. intros x Hx.
        rewrite <- over_range_S by lia. apply put_entry_ext; [|done]. apply (vs_pte _ _ _ _ _ _ _ _ S1).
  - pose proof (pages_fuel_enough len Hl). unfold n. lia.
  - exists T, rs. split; [by rewrite Z.sub_0_r|]. eapply vstep_ext; [apply vstep_refl|lia|]. intros x _. by rewrite over_range_0.
  - intros [] s' (T' & rs' & Ok' & S'). exists T', rs'. split; [|done].
    eapply vm_ok_adj; [|exact Ok']. intros q. unfold only, settled. destruct (decide (q = j)); lia.
Qed.

(** The range check of the fixed mappings. *)
Definition user_range s (addr len : Z) : Prop :=
  0 <= addr /\ addr mod 4096 = 0 /\ 0 < len /\ first_free_paddr (current s) <= addr /\ addr + len <= mmap_max (current s) /\
  mmap_max (current s) <= 2 ^ 38.

Lemma valid_range_at s addr len : user_range s addr len -> __valid_user_range addr len s = Ret true s.
Proof.
  intros (H0 & _ & Hl & H1 & H2 & H3). unfold __valid_user_range. rewrite wrapu_small by (unfold inu; lia).
  rewrite (proj2 (Z.ltb_ge _ _)) by lia. unfold bind, gets, ret.
  rewrite (proj2 (Z.leb_le _ _)), (proj2 (Z.leb_le _ _)) by lia. done.
Qed.

Lemma page_aligned addr : 0 <= addr -> addr mod 4096 = 0 -> (addr &&& (RISCV_PGSIZE - 1)) = 0.
Proof. intros _ Hm. unfold RISCV_PGSIZE. change (4096 - 1) with (Z.ones 12). rewrite Z.land_ones by lia. exact Hm. Qed.

Lemma do_mmap_at T s rs addr len prot flags offset j :
  vm_ok settled T s rs -> first_free rs j -> user_range s addr len ->
  (flags &&& MAP_FIXED) <> 0 -> (flags &&& MAP_POPULATE) = 0 -> have_vm s <> 0 -> inu 64 offset ->
  next_free_page s + 2 * npages len <= free_pages s ->
  returns (__do_mmap lay addr len prot flags 0 offset) s (fun a s' => a = addr /\ exists T' rs', vm_ok settled T' s' rs' /\
    vstep (2 * npages len) T s (<[j := Region addr len 0 offset (npages len) (u32 prot)]> rs) T' s' rs'
      (over_range (pte_of T s) (addr / 4096) (npages len) (vmr_ptr s j))).
Proof.
  intros Ok Hf Hu Hfix Hpop Hvm Ho Hn. pose proof Hu as (H0 & Hm & Hl & H1 & H2 & H3). pose proof (npages_spec len Hl) as [Pn Bn].
  pose proof (Z.div_mod addr 4096) as Dv.
  destruct (vmr_alloc_at T s rs j addr len offset (npages len) (u32 prot) Ok Hf) as (m' & E & Ok1 & U1);
    [unfold inu; lia|unfold inu; lia|done|unfold inu; lia|apply wrapu_range; lia|].
  set (s1 := with_mem m' s) in *. set (rs1 := <[j := _]> rs) in *.
  assert (Hj : (j < length rs1)%nat).
  { unfold rs1. rewrite length_insert. destruct Hf as [(r & Er & _) _]. by eapply lookup_lt_Some. }
  pose proof (mmap_range T s1 rs1 (addr / 4096) len j Ok1 Hj ltac:(lia) Hl ltac:(lia) Hn) as Loop.
  replace (addr / 4096 * 4096) with addr in Loop by lia.
  unfold __do_mmap. rewrite (proj2 (Z.eqb_neq (flags &&& MAP_FIXED) 0)) by done. cbn [negb].
  eapply returns_step; [unfold bind; rewrite (valid_range_at s addr len Hu); rewrite page_aligned by done; reflexivity|]. cbv beta iota.
  assert (Enp : u32 (u64 (len - 1) / RISCV_PGSIZE + 1) = npages len).
  { rewrite (wrapu_small _ (len - 1)) by (unfold inu; lia). apply wrapu_small. change ((len - 1) / RISCV_PGSIZE + 1) with (npages len). unfold inu. lia. }
  rewrite Enp. eapply returns_step; [exact E|].
  rewrite (proj2 (Z.eqb_neq (vmr_ptr s j) 0)) by (pose proof (vptr_range _ _ _ _ _ Ok1 Hj) as [_ P]; change (vmr_ptr s1 j) with (vmr_ptr s j) in P; lia).
  eapply returns_bind; [exact Loop|]. intros [] s2 (T2 & rs2 & Ok2 & S2).
  eapply returns_step; [reflexivity|].
  assert (have_vm s2 = have_vm s) as -> by (rewrite (vs_state _ _ _ _ _ _ _ _ S2); done).
  rewrite (proj2 (Z.eqb_neq (have_vm s) 0)) by done. rewrite Hpop. cbn [orb negb]. change (0 =? 0) with true. cbn [negb].
  eapply returns_step; [reflexivity|]. apply returns_ret. split; [done|]. exists T2, rs2. split; [done|].
  destruct S2 as [P2 R2 U2 L2 St2 N2]. constructor; try done.
  intros b k Hb Ha. rewrite (U2 b k Hb Ha). by apply U1.
Qed.

(** *** Page faults *)

(** The type bits [pte_create] gives a user page. *)
Definition user_bits (prot : Z) : Z := match pte_type prot true with Some t => 1 ||| t | None => 0 end.
Definition user_pte (vpn prot : Z) : Z := vpn * 1024 + user_bits prot.

(** A property of protections, checked on the eight of them. *)
Lemma prot_all (P : Z -> bool) prot : forallb P [0; 1; 2; 3; 4; 5; 6; 7] = true -> P (prot &&& 7) = true.
Proof.
  intros HP. apply (proj1 (forallb_forall P _) HP). change 7 with (Z.ones 3) at 1. rewrite Z.land_ones by lia. change (2 ^ 3) with 8.
  pose proof (Z.mod_pos_bound prot 8 ltac:(lia)) as B. cbn [In]. lia.
Qed.

Lemma pte_type_mask prot user : pte_type (prot &&& 7) user = pte_type prot user.
Proof.
  unfold pte_type. change (PROT_READ ||| PROT_WRITE ||| PROT_EXEC) with 7. by rewrite <- Z.land_assoc.
Qed.

Lemma user_bits_mask prot : user_bits (prot &&& 7) = user_bits prot.
Proof. unfold user_bits. by rewrite pte_type_mask. Qed.

Lemma user_pte_create {S} vpn prot (s : S) : 0 <= vpn < 2 ^ 50 ->
  pte_create vpn prot true s = Ret (user_pte vpn prot) s /\ inu 10 (user_bits prot) /\ (user_bits prot &&& PTE_V) = 1.
Proof.
  intros Hv. assert (T : exists t, pte_type prot true = Some t) by (eexists; reflexivity). destruct T as [t Et].
  assert (B : inu 10 t /\ inu 10 (user_bits prot) /\ (user_bits prot &&& PTE_V) = 1).
  { rewrite <- pte_type_mask in Et. rewrite <- user_bits_mask.
    pose proof (prot_all (fun p => match pte_type p true with
      | Some t => (0 <=? t) && (t <? 1024) && (0 <=? user_bits p) && (user_bits p <? 1024) && ((user_bits p &&& PTE_V) =? 1)
      | None => false end) prot ltac:(vm_compute; reflexivity)) as C. cbv beta in C. rewrite Et in C.
    unfold inu. change (2 ^ 10) with 1024. repeat rewrite andb_true_iff in C. rewrite !Z.leb_le, !Z.ltb_lt, Z.eqb_eq in C. lia. }
  destruct B as (B1 & B2 & B3). split_and!; try done. unfold pte_create, user_pte, user_bits. rewrite Et. unfold ret.
  by rewrite pte_value.
Qed.

(** What the final test of the handler grants: a request is a subset of the page's
    protection, where writing and execution include reading, and no access at all is only
    granted by a page without access. *)
Definition access (p : Z) : Z := let p := p &&& 7 in if p =? 0 then 0 else p ||| 1.
Definition granted (p q : Z) : bool :=
  if (q &&& 7) =? 0 then (p &&& 7) =? 0 else (access q &&& access p) =? access q.

Lemma access_mask p : access (p &&& 7) = access p.
Proof. unfold access. by rewrite <- Z.land_assoc. Qed.

Lemma granted_mask p q : granted (p &&& 7) (q &&& 7) = granted p q.
Proof. unfold granted. rewrite !access_mask, <- !Z.land_assoc. done. Qed.

Lemma low_mask vpn e e' : inu 10 e' -> ((vpn * 1024 + e) &&& e') = (e &&& e').
Proof.
  intros He. assert (X : e' = (Z.ones 10 &&& e')) by (rewrite Z.land_comm, Z.land_ones by lia; unfold inu in He; by rewrite Z.mod_small).
  rewrite X, !Z.land_assoc, !Z.land_ones by lia. change (2 ^ 10) with 1024. by rewrite Z.add_comm, Z.mod_add by lia.
Qed.

Lemma perms_check vpn p q : ((user_pte vpn p &&& user_pte 0 q) =? user_pte 0 q) = granted p q.
Proof.
  destruct (user_pte_create 0 q tt ltac:(lia)) as (_ & Bq & _). unfold user_pte. change (0 * 1024) with 0. rewrite Z.add_0_l.
  rewrite low_mask by done. rewrite <- granted_mask, <- (user_bits_mask p), <- (user_bits_mask q).
  pose proof (prot_all (fun p => forallb (fun q => Bool.eqb ((user_bits p &&& user_bits q) =? user_bits q) (granted p q))
    [0; 1; 2; 3; 4; 5; 6; 7]) p ltac:(vm_compute; reflexivity)) as C. cbv beta in C.
  pose proof (prot_all _ q C) as C'. cbv beta in C'. by apply Bool.eqb_prop in C'.
Qed.

(** What the hardware allows user code on such a page. *)
Lemma user_pte_hw vpn p :
  hw_leaf (user_pte vpn p) = true /\ PTE_UR (user_pte vpn p) = negb ((p &&& 7) =? 0) /\
  PTE_UW (user_pte vpn p) = Z.testbit p 1 /\ PTE_UX (user_pte vpn p) = Z.testbit p 2.
Proof.
  unfold user_pte, PTE_UR, PTE_UW, PTE_UX. rewrite !pte_attr_value. destruct (hw_value vpn (user_bits p)) as [-> _].
  rewrite <- (user_bits_mask p).
  assert (forall i, 0 <= i < 3 -> Z.testbit p i = Z.testbit (p &&& 7) i) as Tb.
  { intros i Hi. rewrite Z.land_spec. change 7 with (Z.ones 3). rewrite Z.ones_spec_low by lia. by rewrite andb_true_r. }
  rewrite !Tb by lia.
  pose proof (prot_all (fun p => hw_leaf (user_bits p) && Bool.eqb (pte_attr 0x0000AAA0 (user_bits p)) (negb (p =? 0)) &&
    Bool.eqb (pte_attr 0x00008880 (user_bits p)) (Z.testbit p 1) && Bool.eqb (pte_attr 0x0000A0A0 (user_bits p)) (Z.testbit p 2))
    p ltac:(vm_compute; reflexivity)) as C. cbv beta in C. rewrite !andb_true_iff in C. destruct C as [[[C1 C2] C3] C4].
  apply Bool.eqb_prop in C2, C3, C4. done.
Qed.

Lemma user_bits_s32 p : user_bits (s32 p) = user_bits p.
Proof.
  rewrite <- (user_bits_mask (s32 p)), <- (user_bits_mask p). f_equal. change 7 with (Z.ones 3). rewrite !Z.land_ones by lia.
  change (wrapu 3 (s32 p) = wrapu 3 p). rewrite <- (wrapu_wrapu 3 32 (s32 p)), wrapu_wraps, wrapu_wrapu by lia. done.
Qed.

Lemma user_pte_range vpn p : upage vpn -> inu 64 (user_pte vpn p) /\ plain (user_pte vpn p).
Proof.
  intros Hu. unfold upage in Hu. destruct (user_pte_create vpn p tt ltac:(lia)) as (_ & B & V). split.
  - apply pte_value_range; [lia|done].
  - right. unfold user_pte. rewrite low_mask by vm_decide. by rewrite V.
Qed.

(** Memory outside the pool and outside the page at [a] is the same. *)
Definition user_same_but s (a : Z) (m m' : memory) : Prop :=
  forall b k, fits b k -> apart b k (first_free_page s) (Z.to_nat (4096 * free_pages s)) -> apart b k a (Z.to_nat 4096) ->
    read_bytes m' b k = read_bytes m b k.

Lemma zero_fill T s rs a :
  vm_tree T s -> vmr_ok T s rs -> 0 <= a -> a + 4096 <= first_free_page s -> mapped (vmem s) a (Z.to_nat 4096) ->
  exists m', on_memory (memset a 0 RISCV_PGSIZE) s = Ret a (with_mem m' s) /\ vm_tree T (with_mem m' s) /\
    vmr_ok T (with_mem m' s) rs /\ zero_page m' a /\ user_same_but s a (vmem s) m'.
Proof.
  intros V R H0 H1 Hm. pose proof (vt_pool _ _ V) as Pool. pose proof (ao_count _ (vt_alloc _ _ V)) as Cnt. set (z := replicate (Z.to_nat 4096) (u8 0)).
  assert (Lz : length z = Z.to_nat 4096) by apply length_replicate.
  assert (Fz : fits a (length z)) by (rewrite Lz; unfold fits; lia).
  exists (write_bytes (vmem s) a z). split_and!.
  - apply on_memory_ret. apply memset_spec; unfold RISCV_PGSIZE; (lia || done).
  - apply vm_tree_write; [done|done|]. intros p [l x] Hp. destruct (vt_own _ _ V _ _ _ Hp) as (k & Ek & Bk).
    rewrite Lz, Ek. unfold apart, pool_page. pose proof (ao_count _ (vt_alloc _ _ V)). left. rewrite Z2Nat.id by lia. lia.
  - constructor; try apply R. intros j r Hj. change (vmr_ptr (with_mem _ s)) with (vmr_ptr s). change (vmem (with_mem ?m s)) with m.
    destruct (vmr_bounds T s rs j r V R Hj) as (_ & _ & B1 & _ & _ & B4 & _).
    apply region_other; [by apply (vr_at _ _ _ R)|done|]. rewrite Lz. unfold apart. right. rewrite Z2Nat.id by lia. lia.
  - unfold zero_page. pose proof (read_write_bytes z (vmem s) a) as Rz. rewrite Lz in Rz. apply Rz. lia.
  - intros b k Hb _ Ha. apply read_write_apart; [done|done|by rewrite Lz].
Qed.

(** The result of resolving a fault on page [vpn] of an anonymous region. *)
Record resolved (T : tree) s (rs : list region) (vpn prot : Z) (T' : tree) s' (rs' : list region) : Prop := {
  rv_ok : vm_ok settled T' s' rs';
  rv_pte x : upage x -> pte_of T' s' x = put_entry (pte_of T s) vpn (user_pte vpn prot) x;
  rv_regions : Forall2 same_region rs rs';
  rv_zero : zero_page (vmem s') (vpn * 4096);
  rv_user : user_same_but s (vpn * 4096) (vmem s) (vmem s');
  rv_state : s' = with_mem (vmem s') s;
}.

(** A page of memory below the pool. *)
Definition user_frame s (vpn : Z) : Prop :=
  vpn * 4096 + 4096 <= first_free_page s /\ mapped (vmem s) (vpn * 4096) (Z.to_nat 4096).

Lemma moved_0_state T s T' s' : moved 0 T s T' s' -> s' = with_mem (vmem s') s.
Proof.
  intros M. pose proof (mv_next _ _ _ _ _ M) as N. pose proof (mv_state _ _ _ _ _ M) as E.
  rewrite E at 1. assert (next_free_page s' = next_free_page s) as -> by lia. by destruct s as [??????????[]].
Qed.

Lemma user_apart T s vpn k n :
  vm_tree T s -> 0 <= vpn -> vpn * 4096 + 4096 <= first_free_page s -> 0 <= k -> k + Z.of_nat n <= 4096 ->
  fits (vpn * 4096 + k) n /\ apart (vpn * 4096 + k) n (first_free_page s) (Z.to_nat (4096 * free_pages s)).
Proof. intros V H0 H1 Hk Hn. pose proof (vt_pool _ _ V). pose proof (ao_count _ (vt_alloc _ _ V)). unfold fits, apart. lia. Qed.

Lemma frame_kept T s m' vpn :
  vm_tree T s -> 0 <= vpn -> user_frame s vpn -> user_same s (vmem s) m' -> mapped m' (vpn * 4096) (Z.to_nat 4096).
Proof.
  intros V H0 [H1 [bs Hm]] U. destruct (user_apart T s vpn 0 (Z.to_nat 4096) V H0 H1 ltac:(lia) ltac:(lia)) as [Fb Ab].
  rewrite Z.add_0_r in *. exists bs. by rewrite (U _ _ Fb Ab).
Qed.

(** The steps of a resolution put together. *)
Lemma resolved_intro T s rs vpn j r T1 s1 k m2 m3 T4 s4 rs3 :
  vm_tree T s -> upage vpn -> rs !! j = Some r -> user_frame s vpn ->
  remapped 0 T s T1 s1 (put_entry (pte_of T s) vpn k) -> zero_page m2 (vpn * 4096) -> user_same_but s1 (vpn * 4096) (vmem s1) m2 ->
  user_same (with_mem m2 s1) m2 m3 -> vm_tree T1 (with_mem m3 (with_mem m2 s1)) -> vmr_ok T1 (with_mem m3 (with_mem m2 s1)) rs3 ->
  rs3 = <[j := set_refcount (r_refcnt r - 1) r]> rs -> book settled (put_entry (pte_of T s) vpn (user_pte vpn (r_prot r))) (vmrs s) rs3 ->
  remapped 0 T1 (with_mem m3 (with_mem m2 s1)) T4 s4 (put_entry (pte_of T1 (with_mem m3 (with_mem m2 s1))) vpn (user_pte vpn (r_prot r))) ->
  resolved T s rs vpn (r_prot r) T4 s4 rs3.
Proof.
  intros V Hu Hj Fr X1 Z2 U2 U3 V3 R3 Ers B' X4. pose proof (rm_moved _ _ _ _ _ _ X1) as M1. pose proof (rm_moved _ _ _ _ _ _ X4) as M4.
  pose proof (moved_0_state _ _ _ _ M1) as St1. pose proof (moved_0_state _ _ _ _ M4) as St4.
  pose proof (moved_user _ _ _ _ _ V M1) as U1. pose proof (moved_user _ _ _ _ _ V3 M4) as U4. unfold upage in Hu.
  assert (F1 : first_free_page s1 = first_free_page s) by (rewrite St1; done).
  assert (F2 : free_pages s1 = free_pages s) by (rewrite St1; done).
  assert (P : forall x, upage x -> pte_of T4 s4 x = put_entry (pte_of T s) vpn (user_pte vpn (r_prot r)) x).
  { intros x Hx. rewrite (rm_pte _ _ _ _ _ _ X4) by done. unfold put_entry. destruct (Z.eqb_spec x vpn) as [->|N]; [done|].
    change (pte_of T1 (with_mem m3 (with_mem m2 s1)) x) with (pte_of T1 s1 x). rewrite (rm_pte _ _ _ _ _ _ X1) by done.
    unfold put_entry. by rewrite (proj2 (Z.eqb_neq x vpn)). }
  constructor.
  - constructor; [apply M4|by eapply vmr_moved|]. assert (vmrs s4 = vmrs s) as -> by (rewrite St4, St1; done).
    eapply book_ext; [exact B'|]. intros x Hx. symmetry. by apply P.
  - exact P.
  - rewrite Ers. by apply same_regions_count.
  - destruct (user_apart T s vpn 0 (Z.to_nat 4096) V ltac:(lia) (proj1 Fr) ltac:(lia) ltac:(lia)) as [Fb Ab]. rewrite Z.add_0_r in *.
    rewrite <- F1, <- F2 in Ab. unfold zero_page. rewrite (U4 _ _ Fb Ab). change (vmem (with_mem m3 _)) with m3.
    rewrite (U3 _ _ Fb Ab). exact Z2.
  - intros b n Hb Ha Hc. rewrite <- (U1 b n Hb Ha). rewrite <- F1, <- F2 in Ha. rewrite (U4 b n Hb Ha).
    change (vmem (with_mem m3 _)) with m3. rewrite (U3 b n Hb Ha). by apply U2.
  - rewrite St4, St1. done.
Qed.

Lemma resolve_fault_at T s rs vpn t0 j r :
  vm_ok settled T s rs -> upage vpn -> pleaf T 2 (root_page_table s) vpn = Some t0 ->
  pte_of T s vpn = vmr_ptr s j -> rs !! j = Some r -> user_frame s vpn ->
  exists T' s' rs', resolve_fault lay (t0 + 8 * vidx 0 vpn) vpn (vpn * 4096) s = Ret tt s' /\
    resolved T s rs vpn (r_prot r) T' s' rs' /\ pleaf T' 2 (root_page_table s) vpn = Some t0.
Proof.
  intros Ok Hu L Hp Hj Fr. pose proof Ok as [V R B]. pose proof Hu as Hu'. unfold upage in Hu'.
  destruct (user_pte_range vpn (r_prot r) Hu) as [Ru Pu].
  assert (Hk : inu 64 (vpn * 1024 + (1 ||| PTE_TYPE_SRW))) by (apply pte_value_range; [lia|vm_decide]).
  (* the kernel's entry *)
  destruct (set_pte_at T s vpn t0 _ V Hu L Hk) as (T1 & s1 & E1 & X1 & L1).
  pose proof (rm_moved _ _ _ _ _ _ X1) as M1. pose proof (mv_tree _ _ _ _ _ M1) as V1. pose proof (vmr_moved _ _ _ _ _ _ V M1 R) as R1.
  pose proof (moved_0_state _ _ _ _ M1) as St1.
  assert (P1 : vmr_ptr s1 j = vmr_ptr s j) by (rewrite St1; done).
  destruct (vmr_bounds T s rs j r V R Hj) as (_ & V0 & B1 & B2 & B3 & _).
  (* the page *)
  pose proof (frame_kept T s (vmem s1) vpn V ltac:(lia) Fr (moved_user _ _ _ _ _ V M1)) as Mp.
  destruct (zero_fill T1 s1 rs (vpn * 4096) V1 R1 ltac:(lia)) as (m2 & E2 & V2 & R2 & Z2 & U2); [by rewrite St1; apply Fr|done|].
  set (s2 := with_mem m2 s1) in *.
  (* the region *)
  destruct (book_drop settled _ _ _ vpn (user_pte vpn (r_prot r)) j r B Hu Hp Hj Pu) as [Pos B'].
  destruct (vmr_decref_at lay T1 s2 rs j r V2 R2 Hj Pos (bk_anon _ _ _ _ B j r Hj)) as (m3 & E3 & V3 & R3 & U3).
  set (s3 := with_mem m3 s2) in *. set (rs3 := <[j := _]> rs) in *.
  assert (L3 : pleaf T1 2 (root_page_table s3) vpn = Some t0) by (change (root_page_table s3) with (root_page_table s1); rewrite (mv_root _ _ _ _ _ M1); done).
  (* the user's entry *)
  destruct (set_pte_at T1 s3 vpn t0 _ V3 Hu L3 Ru) as (T4 & s4 & E4 & X4 & L4).
  pose proof (rm_moved _ _ _ _ _ _ X4) as M4. pose proof (moved_0_state _ _ _ _ M4) as St4.
  exists T4, s4, rs3. split; [|split].
  - unfold resolve_fault. unfold bind at 1. rewrite (get_pte_at T s vpn t0 V Hu L), Hp.
    unfold bind at 1. rewrite (kernel_pte vpn _ PTE_TYPE_SRW) by (lia || done || vm_decide). unfold bind at 1. rewrite E1.
    unfold bind at 1, vmr_file. rewrite (wrapu_small _ (vmr_ptr s j + 16)) by (unfold inu; lia).
    pose proof (vr_at _ _ _ R1 _ _ Hj) as Q1. rewrite P1 in Q1. rewrite (on_cell _ _ _ _ (ra_file _ _ _ Q1)).
    rewrite (bk_anon _ _ _ _ B j r Hj). change (0 =? 0) with true. cbn [negb]. unfold bind at 1, bind at 1. rewrite E2. unfold ret at 1.
    unfold bind at 1. change (vmr_ptr s2 j) with (vmr_ptr s1 j) in E3. rewrite P1 in E3. rewrite E3.
    assert (Hj3 : rs3 !! j = Some (set_refcount (r_refcnt r - 1) r)) by (apply list_lookup_insert_eq; by eapply lookup_lt_Some).
    pose proof (vr_at _ _ _ R3 _ _ Hj3) as Q3. change (vmr_ptr s3 j) with (vmr_ptr s1 j) in Q3. rewrite P1 in Q3.
    unfold bind at 1, vmr_prot, bind at 1. rewrite (wrapu_small _ (vmr_ptr s j + 36)) by (unfold inu; lia).
    rewrite (on_cell _ _ _ _ (ra_prot _ _ _ Q3)). cbn [r_prot set_refcount]. unfold ret at 1.
    unfold bind. destruct (user_pte_create vpn (s32 (r_prot r)) s3 ltac:(lia)) as (-> & _). unfold user_pte. by rewrite user_bits_s32.
  - apply (resolved_intro T s rs vpn j r T1 s1 (vpn * 1024 + (1 ||| PTE_TYPE_SRW)) m2 m3); done.
  - rewrite <- L4. by rewrite <- (mv_root _ _ _ _ _ M1).
Qed.
End Calls.

(** ** A fresh address space *)
Definition zero_region : region := Region 0 0 0 0 0 0.

Lemma zero_window (m : memory) a total k n :
  read_bytes m a total = Some (replicate total 0) -> (k + n <= total)%nat -> read_bytes m (a + Z.of_nat k) n = Some (replicate n 0).
Proof.
  intros Hr Hk. replace total with (k + (n + (total - k - n)))%nat in Hr by lia. apply read_bytes_window in Hr. rewrite Hr.
  f_equal. rewrite drop_replicate, take_replicate. f_equal. lia.
Qed.

Lemma zero_cell (m : memory) a total k n :
  read_bytes m a total = Some (replicate total 0) -> (k + n <= total)%nat -> 0 <= a -> a + Z.of_nat total <= 2 ^ 64 ->
  (a + Z.of_nat k) mod Z.of_nat n = 0 -> (n = 4 \/ n = 8)%nat -> cell n m (a + Z.of_nat k) 0.
Proof.
  intros Hr Hk H0 H1 Hm Hn. split_and!; [done|unfold fits; lia|unfold inu; destruct Hn as [-> | ->]; vm_decide|].
  rewrite (zero_window _ _ _ _ _ Hr Hk). by destruct Hn as [-> | ->].
Qed.

(** With the first page of the pool as the root and the second for the regions, all zero,
    nothing is mapped and the invariant holds. *)
Lemma fresh_vm_ok {F FIL} `{FatFs F FIL} (s : vm F FIL) :
  allocator_ok s -> 0 < first_free_page s /\ first_free_page s + 4096 * free_pages s < 2 ^ 50 ->
  next_free_page s = 2 -> root_page_table s = pool_page s 0 -> vmrs s = pool_page s 1 ->
  read_bytes (vmem s) (first_free_page s) (Z.to_nat 8192) = Some (replicate (Z.to_nat 8192) 0) ->
  vm_ok settled (root_only (pool_page s 0)) s (replicate (Z.to_nat MAX_VMR) zero_region).
Proof.
  intros Ok Pool Nx Er Ev Hz. pose proof (ao_count _ Ok) as C. pose proof (ao_page _ Ok) as Pg.
  set (a := first_free_page s) in *.
  assert (A8 : a mod 8 = 0).
  { apply Z.mod_divide in Pg as [c Ec]; [|lia]. rewrite Ec. replace (c * 4096) with (c * 512 * 8) by lia. apply Z.mod_mul. lia. }
  assert (Cell : forall k n, 0 <= k -> k + Z.of_nat n <= 8192 -> k mod Z.of_nat n = 0 -> (n = 4 \/ n = 8)%nat -> cell n (vmem s) (a + k) 0).
  { intros k n K0 Hk Hm Hn. replace k with (Z.of_nat (Z.to_nat k)) by lia.
    apply (zero_cell _ _ (Z.to_nat 8192)); [done|lia|lia|lia| |done]. rewrite Z2Nat.id, Z.add_mod, Hm, Z.add_0_r, Z.mod_mod by lia.
    destruct Hn as [-> | ->]; [|done]. apply Z.mod_divide in A8 as [c Ec]; [|lia]. rewrite Ec.
    change (Z.of_nat 4) with 4. replace (c * 8) with (c * 2 * 4) by lia. apply Z.mod_mul. lia. }
  assert (V : vm_tree (root_only (pool_page s 0)) s).
  { apply root_tree; [done|done|lia|done|]. unfold pool_page. fold a. rewrite Z.add_0_r. split_and!; try lia; try done. intros j Hj.
    destruct (Cell (8 * j) 8%nat) as (D1 & D2 & D3 & D4); [lia|lia|change (Z.of_nat 8) with 8; rewrite Z.mul_comm, Z.mod_mul by lia; done|by right|].
    split_and!; try done. }
  constructor; [done| |].
  - constructor.
    + apply length_replicate.
    + exists 1. split; [done|lia].
    + cbn. rewrite Ev. destruct (Z.eqb_spec (pool_page s 1) (pool_page s 0)) as [E|]; [unfold pool_page in E; lia|done].
    + intros j r Hj. apply lookup_replicate in Hj as [-> Hj]. change (Z.to_nat MAX_VMR) with 102%nat in Hj.
      assert (Zc : forall off n, 0 <= off -> off + Z.of_nat n <= 40 -> off mod Z.of_nat n = 0 -> (n = 4 \/ n = 8)%nat ->
        cell n (vmem s) (vmr_ptr s j + off) 0).
      { intros off n O0 O1 Hm Hn. unfold vmr_ptr. rewrite Ev. unfold pool_page. fold a.
        replace (a + 4096 * 1 + 40 * Z.of_nat j + off) with (a + (off + (512 + 5 * Z.of_nat j) * 8)) by lia.
        apply Cell; [lia|lia| |done]. destruct Hn as [-> | ->]; change (Z.of_nat 4) with 4 in *; change (Z.of_nat 8) with 8 in *.
        - replace ((512 + 5 * Z.of_nat j) * 8) with ((512 + 5 * Z.of_nat j) * 2 * 4) by lia. by rewrite Z.mod_add.
        - by rewrite Z.mod_add. }
      constructor; cbn [zero_region r_addr r_length r_file r_offset r_refcnt r_prot]; [rewrite <- (Z.add_0_r (vmr_ptr s j))|..];
        apply Zc; try lia; try done; (by right) || (by left).
  - constructor.
    + rewrite Ev. unfold pool_page. fold a. split; [|lia]. by rewrite Z.add_mod, A8 by lia.
    + intros j r Hj. apply lookup_replicate in Hj as [-> Hj]. exists []. split_and!; [constructor| |done]. intros x.
      split; [by intros ?%elem_of_nil|]. intros [_ Hx]. unfold pte_of in Hx. cbn in Hx. exfalso. revert Hx. rewrite Ev. unfold pool_page. fold a. lia.
    + intros x _. left. by left.
    + intros j r Hj. by apply lookup_replicate in Hj as [-> _].
    + done.
Qed.

(** ** What the calls do *)

Lemma kernel_type prot : 1 <= prot < 8 ->
  exists t, pte_type prot false = Some t /\ inu 10 t /\ inu 10 (1 ||| t) /\ hw_leaf (1 ||| t) = true /\
    PTE_UR (1 ||| t) = false /\ PTE_UW (1 ||| t) = false /\ PTE_UX (1 ||| t) = false /\ PTE_SR (1 ||| t) = true /\
    PTE_SW (1 ||| t) = Z.testbit prot 1 /\ PTE_SX (1 ||| t) = Z.testbit prot 2.
Proof.
  intros Hp. assert (prot = 1 \/ prot = 2 \/ prot = 3 \/ prot = 4 \/ prot = 5 \/ prot = 6 \/ prot = 7) as C by lia.
  destruct C as [-> | [-> | [-> | [-> | [-> | [-> | ->]]]]]];
    (eexists; split; [reflexivity|]; split_and!; reflexivity || vm_decide).
Qed.

Lemma kernel_pages len : 0 < len <= 2 ^ 38 -> ROUNDUP len RISCV_PGSIZE / RISCV_PGSIZE = npages len.
Proof.
  intros Hl. pose proof (npages_spec len ltac:(lia)). unfold ROUNDUP, RISCV_PGSIZE, npages in *.
  rewrite (wrapu_small _ (len - 1)) by (unfold inu; lia). rewrite wrapu_small by (unfold inu; lia). by rewrite Z.div_mul by lia.
Qed.

(** C12. Mapping a range of the kernel, tables created on the way: [__map_kernel_range]
    returns, and the hardware then translates every address of the range's pages to the
    physical range with the protection asked for and no access for user mode, and every
    other address exactly as before; the tables stay well formed, and memory outside the
    page pool is untouched. *)
Theorem kernel_range_mapped {F FIL} `{FatFs F FIL} T (s : vm F FIL) vpn0 ppn0 len prot :
  vm_tree T s -> 1 <= prot < 8 -> 0 < len <= 2 ^ 38 -> 0 <= vpn0 -> vpn0 + npages len <= 2 ^ 26 ->
  0 <= ppn0 -> ppn0 + npages len < 2 ^ 50 -> next_free_page s + 2 * npages len <= free_pages s ->
  returns (__map_kernel_range (vpn0 * 4096) (ppn0 * 4096) len prot) s (fun _ s' =>
    (exists T', vm_tree T' s') /\ root_page_table s' = root_page_table s /\ user_same s (vmem s) (vmem s') /\
    forall va, 0 <= va < 2 ^ 38 ->
      if (vpn0 <=? va / 4096) && (va / 4096 <? vpn0 + npages len) then
        exists e, sv39 (vmem s') (root_page_table s') va = Some (e, va - vpn0 * 4096 + ppn0 * 4096) /\
          PTE_UR e = false /\ PTE_UW e = false /\ PTE_UX e = false /\ PTE_SR e = true /\
          PTE_SW e = Z.testbit prot 1 /\ PTE_SX e = Z.testbit prot 2
      else sv39 (vmem s') (root_page_table s') va = sv39 (vmem s) (root_page_table s) va).
Proof.
  intros V Hp Hl H0 Hv Q0 Hq Hn. destruct (kernel_type prot Hp) as (t & Et & Bt & Bt' & Hw & Attr).
  pose proof (npages_spec len ltac:(lia)) as [Pn _].
  destruct (map_kernel_loop_at (Z.to_nat (npages len)) T s vpn0 0 ppn0 prot t) as (T' & s' & R & X); try lia; try done.
  rewrite !Z.add_0_r, Z2Nat.id in * by lia. unfold __map_kernel_range. rewrite kernel_pages by done.
  eapply returns_intro; [exact R|]. pose proof (rm_moved _ _ _ _ _ _ X) as M. split_and!.
  - exists T'. apply M.
  - by apply (mv_root _ _ _ _ _ M).
  - by eapply moved_user.
  - intros va Hva. rewrite (hw_translate T' s' va) by (apply M || done). rewrite (hw_translate T s va V Hva). unfold translate.
    assert (Hx : upage (va / 4096)) by (split; [apply Z.div_pos; lia|apply Z.div_lt_upper_bound; lia]).
    rewrite (rm_pte _ _ _ _ _ _ X) by done. unfold kernel_range. destruct (_ && _) eqn:E; [|done].
    apply andb_true_iff in E as [E1%Z.leb_le E2%Z.ltb_lt]. set (p := ppn0 + (va / 4096 - vpn0)).
    destruct (hw_value p (1 ||| t)) as [-> _]. rewrite Hw. exists (p * 1024 + (1 ||| t)). split.
    + do 2 f_equal. unfold inu in Bt'. rewrite Z.div_add_l by lia. rewrite (Z.div_small (1 ||| t)) by lia.
      pose proof (Z.div_mod va 4096). unfold p. lia.
    + unfold PTE_UR, PTE_UW, PTE_UX, PTE_SR, PTE_SW, PTE_SX. rewrite !pte_attr_value. exact Attr.
Qed.

(** *** The calls under the lock *)
Section Public.
Context {F FIL : Type} `{FatFs F FIL}.
Implicit Types s : vm F FIL.
Variable lay : layout.

(** The invariant does not depend on the lock, on the file handles or on the description
    of the program. *)
Lemma vm_tree_same T s s' :
  vm_tree T s -> vmem s' = vmem s -> root_page_table s' = root_page_table s ->
  next_free_page s' = next_free_page s -> free_pages s' = free_pages s -> first_free_page s' = first_free_page s ->
  vm_tree T s'.
Proof.
  intros V Em Er En Ef Ep. constructor; rewrite ?Em, ?Er, ?Ef, ?Ep; try apply V; [by eapply allocator_same; [apply V|..]|].
  intros p l x Hp. unfold pool_page. rewrite Ep, En. by apply (vt_own _ _ V _ l x).
Qed.

Lemma vmr_ok_same T s s' rs :
  vmr_ok T s rs -> vmem s' = vmem s -> vmrs s' = vmrs s -> next_free_page s' = next_free_page s ->
  first_free_page s' = first_free_page s -> vmr_ok T s' rs.
Proof.
  intros R Em Ev En Ep. constructor; rewrite ?Ev; try apply R.
  - unfold pool_page. rewrite Ep, En. apply (vr_page _ _ _ R).
  - intros j r Hj. unfold vmr_ptr. rewrite Em, Ev. by apply (vr_at _ _ _ R).
Qed.

Lemma vm_ok_same adj T s s' rs :
  vm_ok adj T s rs -> vmem s' = vmem s -> root_page_table s' = root_page_table s -> vmrs s' = vmrs s ->
  next_free_page s' = next_free_page s -> free_pages s' = free_pages s -> first_free_page s' = first_free_page s ->
  vm_ok adj T s' rs.
Proof.
  intros [V R B] Em Er Ev En Ef Ep. constructor.
  - by eapply vm_tree_same.
  - by eapply vmr_ok_same.
  - unfold pte_of. rewrite Er, Ev. exact B.
Qed.

(** The last reference of a file-backed region gives up the region's reference of the
    file; the others leave the file alone. *)
Definition after_decref (h : nat) (f : file_t FIL) (k : Z) (r : region) (fs : fsys F FIL) : fsys F FIL :=
  if r_refcnt r =? 1 then dropped h f k fs else fs.

Lemma vmr_decref_file T s rs j r h f k :
  vm_tree T s -> vmr_ok T s rs -> rs !! j = Some r -> 0 < r_refcnt r -> r_file r <> 0 -> file_index lay (r_file r) = h ->
  idle (vfs s) -> files (vfs s) !! h = Some f -> 0 < k < 2 ^ 32 - 2 -> refcnt f = count_ref k ->
  exists s', __vmr_decref lay (vmr_ptr s j) 1 s = Ret tt s' /\ vm_tree T s' /\
    vmr_ok T s' (<[j := set_refcount (r_refcnt r - 1) r]> rs) /\ user_same s (vmem s) (vmem s') /\
    s' = with_mem (vmem s') (set_vfs (after_decref h f k r (vfs s)) s).
Proof.
  intros V R Hj Hr Hf Hh Hi Hl Hk Hc. destruct (vmr_bounds T s rs j r V R Hj) as (Vm & V0 & B1 & B2 & B3 & _).
  pose proof (vr_at _ _ _ R _ _ Hj) as Q. pose proof (ra_refcnt _ _ _ Q) as (_ & _ & Bn & _). change (8 * Z.of_nat 4) with 32 in Bn.
  destruct (set_refcnt_at T s rs j r (r_refcnt r - 1) V R Hj ltac:(unfold inu in *; lia)) as (m' & E & V' & R' & U).
  unfold __vmr_decref. unfold bind at 1, vmr_refcnt. rewrite (wrapu_small _ (vmr_ptr s j + 32)) by (unfold inu; lia).
  rewrite (on_cell _ _ _ _ (ra_refcnt _ _ _ Q)). rewrite (wrapu_small _ (r_refcnt r - 1)) by (unfold inu in *; lia).
  unfold bind at 1. rewrite E. unfold after_decref. destruct (Z.eqb_spec (r_refcnt r) 1) as [E1|N1].
  - rewrite E1. change (1 - 1 =? 0) with true. cbv iota. rewrite E1 in R'. change (1 - 1) with 0 in *.
    assert (Hj' : <[j := set_refcount 0 r]> rs !! j = Some (set_refcount 0 r))
      by (apply list_lookup_insert_eq; eapply lookup_lt_Some; exact Hj).
    pose proof (vr_at _ _ _ R' _ _ Hj') as Q'. unfold bind, vmr_file. change (vmr_ptr (with_mem m' s) j) with (vmr_ptr s j) in Q'.
    rewrite wrapu_small by (unfold inu; lia). rewrite (on_cell _ _ _ _ (ra_file _ _ _ Q')). cbn [r_file set_refcount].
    rewrite (proj2 (Z.eqb_neq _ 0) Hf). cbn [negb]. rewrite Hh.
    pose proof (file_decref_at h (vfs (with_mem m' s)) f k Hi Hl Hk Hc) as D. unfold on_files, zoom. rewrite D.
    assert (Ed : dropped h f k (vfs (with_mem m' s)) = set_mem m' (dropped h f k (vfs s))).
    { unfold dropped. destruct (k =? 1); [|done]. change (fat (vfs (with_mem m' s))) with (fat (vfs s)).
      by destruct (f_close (fd f) (fat (vfs s))) as [[? ?] ?]. }
    rewrite Ed. eexists. split; [reflexivity|]. set (s' := set_vfs _ _).
    assert (Em : vmem s' = vmem (with_mem m' s)) by reflexivity.
    split_and!; [by eapply vm_tree_same|by eapply vmr_ok_same|exact U|by destruct s].
  - rewrite (proj2 (Z.eqb_neq _ 0)) by lia. eexists. split; [reflexivity|]. split_and!; [done|done|done|by destruct s].
Qed.

(** A page that waits for a file-backed region is unmapped. *)
Lemma munmap_page_file T s rs vpn j r h f k :
  vm_tree T s -> vmr_ok T s rs -> upage vpn -> pte_of T s vpn = vmr_ptr s j -> rs !! j = Some r -> 0 < r_refcnt r ->
  r_file r <> 0 -> file_index lay (r_file r) = h -> idle (vfs s) -> files (vfs s) !! h = Some f -> 0 < k < 2 ^ 32 - 2 ->
  refcnt f = count_ref k ->
  exists T' s', munmap_page lay (vpn * 4096) s = Ret tt s' /\ vm_tree T' s' /\
    vmr_ok T' s' (<[j := set_refcount (r_refcnt r - 1) r]> rs) /\ user_same s (vmem s) (vmem s') /\
    (forall x, upage x -> pte_of T' s' x = put_entry (pte_of T s) vpn 0 x) /\
    s' = with_mem (vmem s') (set_vfs (after_decref h f k r (vfs s)) s).
Proof.
  intros V R Hu Hp Hj Hr Hf Hh Hi Hl Hk Hc. pose proof Hu as Hu'. unfold upage in Hu'. unfold munmap_page, bind at 1.
  rewrite (walk_find T s (vpn * 4096) V) by lia. rewrite page_of by lia.
  destruct (vmr_bounds T s rs j r V R Hj) as (Vm & V0 & B1 & _).
  destruct (pleaf T 2 (root_page_table s) vpn) as [t0|] eqn:L; [|apply pleaf_none in L; lia].
  destruct (leaf_facts T s vpn t0 V Hu L) as (_ & P & _ & _). rewrite (proj2 (Z.eqb_neq (t0 + _) 0)) by lia.
  unfold bind at 1. rewrite (get_pte_at T s vpn t0 V Hu L), Hp, (proj2 (Z.eqb_neq _ 0)) by lia.
  assert (Rv : (vmr_ptr s j &&& PTE_V) = 0).
  { unfold PTE_V. change 1 with (Z.ones 1). rewrite Z.land_ones by lia. unfold vmr_ptr. apply Z.mod_divide in Vm as [c Ec]; [|lia].
    rewrite Ec. replace (c * 4096 + 40 * Z.of_nat j) with ((c * 2048 + 20 * Z.of_nat j) * 2) by lia. by apply Z.mod_mul. }
  rewrite Rv. change (0 =? 0) with true. cbv iota.
  destruct (vmr_decref_file T s rs j r h f k) as (s1 & E1 & V1 & R1 & U1 & St1); try done.
  unfold bind. rewrite E1. assert (Er : root_page_table s1 = root_page_table s) by (rewrite St1; done).
  destruct (set_pte_at T s1 vpn t0 0 V1 Hu ltac:(by rewrite Er) ltac:(unfold inu; lia)) as (T' & s' & W & X & _).
  exists T', s'. split; [exact W|]. pose proof (rm_moved _ _ _ _ _ _ X) as M.
  pose proof (remapped_vstep 0 T s1 T' s' (<[j := set_refcount (r_refcnt r - 1) r]> rs) _ V1 X) as Y.
  assert (Sn : next_free_page s' = next_free_page s1) by (pose proof (mv_next _ _ _ _ _ M); lia).
  split_and!; [apply M|by eapply vmr_moved| | |].
  - intros b n Hb Ha. rewrite (vs_user _ _ _ _ _ _ _ _ Y b n Hb); [by apply U1|]. rewrite St1. exact Ha.
  - intros x Hx. rewrite (rm_pte _ _ _ _ _ _ X x Hx). unfold pte_of. by rewrite Er.
  - rewrite (mv_state _ _ _ _ _ M), Sn, St1. by destruct s.
Qed.

Lemma translate_ext f g va : f (va / 4096) = g (va / 4096) -> translate f va = translate g va.
Proof. unfold translate. by intros ->. Qed.

Lemma va_page va : 0 <= va < 2 ^ 38 -> upage (va / 4096).
Proof. intros Hv. split; [apply Z.div_pos; lia|apply Z.div_lt_upper_bound; lia]. Qed.

(** A pointer to a region is not an entry the hardware takes. *)
Lemma pointer_no_leaf base j : base mod 8 = 0 -> hw_leaf (base + 40 * Z.of_nat j) = false.
Proof.
  intros Hb. unfold hw_leaf. apply Z.mod_divide in Hb as [c ->]; [|lia].
  replace (c * 8 + 40 * Z.of_nat j) with (2 * (c * 4 + 20 * Z.of_nat j)) by lia. by rewrite Z.testbit_even_0.
Qed.

(** What a step of the calls means for the hardware. *)
Lemma vstep_hardware adj adj' k T s rs T' s' rs0 rs' f va :
  vm_ok adj T s rs0 -> vm_ok adj' T' s' rs' -> vstep k T s rs T' s' rs' f -> 0 <= va < 2 ^ 38 ->
  sv39 (vmem s') (root_page_table s') va = translate f va.
Proof.
  intros Ok Ok' S Hv. rewrite (hw_translate T') by (apply Ok' || done). apply translate_ext.
  apply (vs_pte _ _ _ _ _ _ _ _ S). by apply va_page.
Qed.

Lemma over_range_hw T s v0 n v va :
  vm_tree T s -> 0 <= va < 2 ^ 38 -> hw_leaf v = false ->
  translate (over_range (pte_of T s) v0 n v) va =
  if (v0 <=? va / 4096) && (va / 4096 <? v0 + n) then None else sv39 (vmem s) (root_page_table s) va.
Proof.
  intros V Hv Hl. rewrite (hw_translate T s va V Hv). unfold translate, over_range. destruct (_ && _); [by rewrite Hl|done].
Qed.
End Public.

(** C9. [do_mmap] of an anonymous region at a fixed address, on any state in which tables,
    regions and reference counts agree: it returns the address with the lock released, the
    agreement kept and the region recorded in the first free slot; every page of the range
    now holds the region's pointer, so that the hardware faults on it, and every other
    address is translated as before; memory outside the page pool is untouched and the
    limit of the program break comes down to the mapping. *)
Theorem mmap_anonymous {F FIL} `{FatFs F FIL} lay T (s : vm F FIL) rs addr len prot flags offset j :
  vm_ok settled T s rs -> vm_lock s = 0 -> have_vm s <> 0 -> first_free rs j -> user_range s addr len ->
  (flags &&& MAP_PRIVATE) <> 0 -> (flags &&& MAP_ANONYMOUS) <> 0 -> (flags &&& MAP_FIXED) <> 0 -> (flags &&& MAP_POPULATE) = 0 ->
  inu 64 offset -> offset mod 4096 = 0 -> next_free_page s + 2 * npages len <= free_pages s ->
  returns (do_mmap lay addr len prot flags 0 offset) s (fun a s' =>
    a = addr /\ vm_lock s' = 0 /\ brk_max (current s') = Z.min addr (brk_max (current s)) /\
    user_same s (vmem s) (vmem s') /\ next_free_page s' <= next_free_page s + 2 * npages len /\
    exists T' rs', vm_ok settled T' s' rs' /\
      Forall2 same_region (<[j := Region addr len 0 offset (npages len) (u32 prot)]> rs) rs' /\
      (forall x, upage x -> pte_of T' s' x = over_range (pte_of T s) (addr / 4096) (npages len) (vmr_ptr s j) x) /\
      forall va, 0 <= va < 2 ^ 38 ->
        sv39 (vmem s') (root_page_table s') va =
        if (addr / 4096 <=? va / 4096) && (va / 4096 <? addr / 4096 + npages len) then None
        else sv39 (vmem s) (root_page_table s) va).
Proof.
  intros Ok Lk Hv Hf Hu Fp Fa Ff Fo Ho Hom Hn. pose proof Hu as (H0 & _ & Hl & _). unfold do_mmap.
  rewrite (proj2 (Z.eqb_neq _ _) Fp), (proj2 (Z.eqb_neq _ _) Fa), (proj2 (Z.eqb_neq len 0)) by lia.
  rewrite page_aligned by (unfold inu in Ho; lia || done). cbn [orb andb negb]. change (0 =? 0) with true. cbn [negb].
  set (s1 := set_vm_lock (-1) s).
  assert (Ok1 : vm_ok settled T s1 rs) by (by eapply vm_ok_same).
  eapply returns_step; [unfold spinlock_lock, bind, gets; rewrite Lk; reflexivity|].
  eapply returns_bind; [exact (do_mmap_at lay T s1 rs addr len prot flags offset j Ok1 Hf Hu Ff Fo Hv Ho Hn)|].
  intros a s2 (-> & T' & rs' & Ok2 & S2). eapply returns_step; [reflexivity|].
  set (c := current s2). assert (Ec : c = current s) by (unfold c; rewrite (vs_state _ _ _ _ _ _ _ _ S2); done).
  set (s3 := if addr <? brk_max c then set_current (set_cur_brk_max addr c) s2 else s2).
  eapply returns_step; [instantiate (1 := s3); instantiate (1 := tt); unfold s3; by destruct (addr <? brk_max c)|].
  eapply returns_step; [reflexivity|]. apply returns_ret.
  assert (Sm : vmem s3 = vmem s2 /\ root_page_table s3 = root_page_table s2 /\ vmrs s3 = vmrs s2 /\ next_free_page s3 = next_free_page s2 /\
    free_pages s3 = free_pages s2 /\ first_free_page s3 = first_free_page s2) by (unfold s3; by destruct (addr <? brk_max c)).
  destruct Sm as (Sm & Sr & Sv & Sn & Sf & Sp). set (s4 := set_vm_lock 0 s3).
  assert (Em : vmem s4 = vmem s2) by exact Sm. assert (Er : root_page_table s4 = root_page_table s2) by exact Sr.
  split_and!; [done|done| | | |].
  - change (brk_max (current s4)) with (brk_max (current s3)). unfold s3. destruct (Z.ltb_spec addr (brk_max c)) as [L|L];
      cbn [current set_current brk_max set_cur_brk_max]; rewrite <- Ec; unfold c in *; lia.
  - rewrite Em. exact (vs_user _ _ _ _ _ _ _ _ S2).
  - change (next_free_page s4) with (next_free_page s3). rewrite Sn. apply (vs_next _ _ _ _ _ _ _ _ S2).
  - exists T', rs'. split_and!; [by eapply vm_ok_same|exact (vs_regions _ _ _ _ _ _ _ _ S2)| |].
    + intros x Hx. unfold pte_of at 1. rewrite Er. exact (vs_pte _ _ _ _ _ _ _ _ S2 x Hx).
    + intros va Hva. rewrite Em, Er. rewrite (vstep_hardware _ _ _ _ _ _ _ _ _ _ _ _ Ok1 Ok2 S2 Hva).
      rewrite (over_range_hw T s1) by (apply Ok1 || done || apply pointer_no_leaf, (bk_base _ _ _ _ (vo_book _ _ _ _ Ok))). done.
Qed.

(** The checks and the lock around the loop. *)
Lemma do_munmap_around {F FIL} `{FatFs F FIL} lay (s : vm F FIL) addr len (Q : vm F FIL -> Prop) :
  vm_lock s = 0 -> user_range s addr len ->
  returns (__do_munmap lay addr len) (set_vm_lock (-1) s) (fun _ s' => Q (set_vm_lock 0 s')) ->
  returns (do_munmap lay addr len) s (fun r s' => r = 0 /\ vm_lock s' = 0 /\ Q s').
Proof.
  intros Lk Hu Loop. pose proof Hu as (Ha & Hm & _). unfold do_munmap.
  eapply returns_step; [exact (valid_range_at s addr len Hu)|]. rewrite page_aligned by done. change (0 =? 0) with true. cbn [negb orb].
  eapply returns_step; [unfold spinlock_lock, bind, gets; rewrite Lk; reflexivity|].
  eapply returns_bind; [exact Loop|]. intros [] s2 HQ. eapply returns_step; [reflexivity|]. by apply returns_ret.
Qed.

(** C11. [do_munmap] of a page-aligned range.  In an address space whose regions are all
    anonymous and in which tables, regions and reference counts agree: it returns 0 with
    the lock released; no page of the range is mapped or waits for a fault any more, so the
    hardware faults on it, and every other address is translated as before; the agreement
    of tables, regions and counts is kept; memory outside the page pool and the number of
    pages handed out do not change.  On one page that waits for a region backed by a file,
    whatever the other regions are: the page is cleared, the region loses one reference, and
    exactly when it was the last one the file loses exactly one (and is closed when that was
    its last); nothing else of the state changes but memory of the page pool. *)
Theorem munmap_clears {F FIL} `{FatFs F FIL} lay T (s : vm F FIL) rs addr len :
  vm_lock s = 0 -> user_range s addr len ->
  (vm_ok settled T s rs ->
   returns (do_munmap lay addr len) s (fun r s' =>
     r = 0 /\ vm_lock s' = 0 /\ next_free_page s' = next_free_page s /\ user_same s (vmem s) (vmem s') /\
     exists T' rs', vm_ok settled T' s' rs' /\ Forall2 same_region rs rs' /\
       (forall x, upage x -> pte_of T' s' x = over_range (pte_of T s) (addr / 4096) (npages len) 0 x) /\
       forall va, 0 <= va < 2 ^ 38 ->
         sv39 (vmem s') (root_page_table s') va =
         if (addr / 4096 <=? va / 4096) && (va / 4096 <? addr / 4096 + npages len) then None
         else sv39 (vmem s) (root_page_table s) va)) /\
  (forall j r h f k, vm_tree T s -> vmr_ok T s rs -> npages len = 1 ->
   pte_of T s (addr / 4096) = vmr_ptr s j -> rs !! j = Some r -> 0 < r_refcnt r ->
   r_file r <> 0 -> file_index lay (r_file r) = h ->
   idle (vfs s) -> files (vfs s) !! h = Some f -> 0 < k < 2 ^ 32 - 2 -> refcnt f = count_ref k ->
   returns (do_munmap lay addr len) s (fun res s' =>
     res = 0 /\ vm_lock s' = 0 /\ user_same s (vmem s) (vmem s') /\
     s' = with_mem (vmem s') (set_vfs (if r_refcnt r =? 1 then dropped h f k (vfs s) else vfs s) s) /\
     exists T', vm_tree T' s' /\ vmr_ok T' s' (<[j := set_refcount (r_refcnt r - 1) r]> rs) /\
       forall x, upage x -> pte_of T' s' x = put_entry (pte_of T s) (addr / 4096) 0 x)).
Proof.
  intros Lk Hu. pose proof Hu as (H0 & Hm & Hl & _ & H2 & H3). pose proof (npages_spec len Hl) as [Pn Bn].
  pose proof (Z.div_mod addr 4096) as Dv. set (s1 := set_vm_lock (-1) s). split.
  - intros Ok. assert (Ok1 : vm_ok settled T s1 rs) by (by eapply vm_ok_same).
    apply do_munmap_around; [done|done|].
    pose proof (munmap_range lay settled T s1 rs (addr / 4096) len Ok1 ltac:(lia) Hl ltac:(lia)) as Loop.
    replace (addr / 4096 * 4096) with addr in Loop by lia. eapply returns_mono; [exact Loop|]. intros [] s2 (T' & rs' & Ok2 & S2).
    split_and!.
    + pose proof (vs_next _ _ _ _ _ _ _ _ S2) as N. change (next_free_page s1) with (next_free_page s) in N.
      change (next_free_page (set_vm_lock 0 s2)) with (next_free_page s2). lia.
    + exact (vs_user _ _ _ _ _ _ _ _ S2).
    + exists T', rs'. split_and!; [by eapply vm_ok_same|exact (vs_regions _ _ _ _ _ _ _ _ S2)|exact (vs_pte _ _ _ _ _ _ _ _ S2)|].
      intros va Hva. change (vmem (set_vm_lock 0 s2)) with (vmem s2). change (root_page_table (set_vm_lock 0 s2)) with (root_page_table s2).
      rewrite (vstep_hardware _ _ _ _ _ _ _ _ _ _ _ _ Ok1 Ok2 S2 Hva). by rewrite (over_range_hw T s1) by (apply Ok1 || done).
  - intros j r h f k V R P1 Hp Hj Hr Hf Hh Hi Hfl Hk Hc. apply do_munmap_around; [done|done|].
    assert (V1 : vm_tree T s1) by (by eapply vm_tree_same). assert (R1 : vmr_ok T s1 rs) by (by eapply vmr_ok_same).
    destruct (munmap_page_file lay T s1 rs (addr / 4096) j r h f k V1 R1 ltac:(unfold upage; lia) Hp Hj Hr Hf Hh Hi Hfl Hk Hc)
      as (T' & s2 & E & V2 & R2 & U2 & P2 & St2). replace (addr / 4096 * 4096) with addr in E by lia.
    unfold __do_munmap. assert (exists n, pages_fuel len = S (S n)) as (n & ->).
    { exists (pages_fuel len - 2)%nat. pose proof (pages_fuel_enough len Hl). lia. }
    cbn [for_pages]. rewrite (wrapu_small _ (addr + len)), (wrapu_small _ (addr + RISCV_PGSIZE)) by (unfold inu, RISCV_PGSIZE; lia).
    rewrite (proj2 (Z.ltb_lt addr (addr + len))) by lia. eapply returns_step; [exact E|].
    unfold RISCV_PGSIZE. rewrite (proj2 (Z.ltb_ge (addr + 4096) (addr + len))) by lia. apply returns_ret.
    split_and!; [exact U2| |].
    { etransitivity; [exact (f_equal (set_vm_lock 0) St2)|]. destruct s. cbn in Lk. by subst. }
    exists T'. split_and!; [by eapply vm_tree_same|by eapply vmr_ok_same|exact P2].
Qed.

(** The checks at the start and at the end of the fault handler. *)
Definition fault_range {F FIL} (s : vm F FIL) (vpn : Z) : Prop :=
  first_free_paddr (current s) <= vpn * 4096 /\ vpn * 4096 + 1 <= mmap_max (current s).

Lemma fault_end {F FIL} `{FatFs F FIL} T (s : vm F FIL) vpn t0 p q :
  vm_tree T s -> upage vpn -> pleaf T 2 (root_page_table s) vpn = Some t0 -> pte_of T s vpn = user_pte vpn p ->
  (let! perms := pte_create 0 q true in
   let! e := get_pte (t0 + 8 * vidx 0 vpn) in
   if negb ((e &&& perms) =? perms) then ret (-1) else ret 0) s = Ret (if granted p q then 0 else -1) s.
Proof.
  intros V Hu L E. unfold bind at 1. destruct (user_pte_create 0 q s ltac:(lia)) as (-> & _). unfold bind.
  rewrite (get_pte_at T s vpn t0 V Hu L), E. rewrite perms_check. by destruct (granted p q).
Qed.

(** The handler up to its case distinction. *)
Lemma fault_begin {F FIL} `{FatFs F FIL} lay T (s : vm F FIL) va q t0 :
  vm_tree T s -> 0 <= va < 2 ^ 39 -> pleaf T 2 (root_page_table s) (va / 4096) = Some t0 -> pte_of T s (va / 4096) <> 0 ->
  let vpn := va / 4096 in let pte := t0 + 8 * vidx 0 vpn in
  __handle_page_fault lay va q s =
  (let! ok := __valid_user_range (vpn * 4096) 1 in
   if negb ok then ret (-1)
   else
     (if (pte_of T s vpn &&& PTE_V) =? 0 then resolve_fault lay pte vpn (vpn * 4096) else ret tt) ;;
     let! perms := pte_create 0 q true in
     let! e := get_pte pte in
     if negb ((e &&& perms) =? perms) then ret (-1) else ret 0) s.
Proof.
  intros V Hva L N vpn pte. unfold __handle_page_fault, RISCV_PGSHIFT.
  assert (Hv : 0 <= vpn < 2 ^ 27) by (split; [apply Z.div_pos; lia|apply Z.div_lt_upper_bound; lia]).
  rewrite Z.shiftr_div_pow2 by lia. change (2 ^ 12) with 4096. fold vpn. rewrite Z.shiftl_mul_pow2 by lia. change (2 ^ 12) with 4096.
  rewrite wrapu_small by (unfold inu; lia). unfold bind at 1. rewrite (walk_find T s (vpn * 4096) V) by lia. rewrite page_of by lia.
  unfold vpn in *. rewrite L. destruct (leaf_facts T s _ t0 V Hv L) as (_ & P & _ & _). fold pte in P |- *.
  rewrite (proj2 (Z.eqb_neq pte 0)) by lia. unfold bind at 1. unfold pte at 1. rewrite (get_pte_at T s _ t0 V Hv L).
  rewrite (proj2 (Z.eqb_neq _ 0) N). cbn [orb]. done.
Qed.

Lemma fault_range_at {F FIL} (s : vm F FIL) vpn :
  upage vpn -> fault_range s vpn -> __valid_user_range (vpn * 4096) 1 s = Ret true s.
Proof.
  intros Hu [H1 H2]. unfold upage in Hu. unfold __valid_user_range. rewrite wrapu_small by (unfold inu; lia).
  rewrite (proj2 (Z.ltb_ge _ _)) by lia. unfold bind, gets, ret. by rewrite (proj2 (Z.leb_le _ _) H1), (proj2 (Z.leb_le _ _) H2).
Qed.

(** C10. A fault on a page that waits for its anonymous region: [handle_page_fault] fills the
    page with zeros, takes the page's reference off its region and maps the page to itself
    with the region's protection; the hardware then gives user mode exactly that access
    and translates every other page as before.  It answers 0 if that protection covers
    the access, else -1; tables, regions and counts still agree, the lock is released and
    memory outside the page and the pool is untouched. *)
Theorem page_fault_anonymous {F FIL} `{FatFs F FIL} lay T (s : vm F FIL) rs va q j r :
  vm_ok settled T s rs -> vm_lock s = 0 -> 0 <= va < 2 ^ 38 -> pte_of T s (va / 4096) = vmr_ptr s j -> rs !! j = Some r ->
  fault_range s (va / 4096) -> user_frame s (va / 4096) ->
  returns (handle_page_fault lay va q) s (fun res s' =>
    res = (if granted (r_prot r) q then 0 else -1) /\ vm_lock s' = 0 /\
    zero_page (vmem s') (va / 4096 * 4096) /\ user_same_but s (va / 4096 * 4096) (vmem s) (vmem s') /\
    (exists T' rs', vm_ok settled T' s' rs' /\ Forall2 same_region rs rs' /\
      forall x, upage x -> pte_of T' s' x = put_entry (pte_of T s) (va / 4096) (user_pte (va / 4096) (r_prot r)) x) /\
    (exists e, sv39 (vmem s') (root_page_table s') va = Some (e, va) /\
      PTE_UR e = negb ((r_prot r &&& 7) =? 0) /\ PTE_UW e = Z.testbit (r_prot r) 1 /\ PTE_UX e = Z.testbit (r_prot r) 2) /\
    forall va', 0 <= va' < 2 ^ 38 -> va' / 4096 <> va / 4096 ->
      sv39 (vmem s') (root_page_table s') va' = sv39 (vmem s) (root_page_table s) va').
Proof.
  intros Ok Lk Hva Hp Hj Hr Fr. set (vpn := va / 4096) in *. pose proof (va_page va Hva : upage vpn) as Hu.
  set (s1 := set_vm_lock (-1) s). assert (Ok1 : vm_ok settled T s1 rs) by (by eapply vm_ok_same). pose proof Ok1 as [V R B].
  assert (P0 : 0 < vmr_ptr s j) by (eapply vptr_range; [exact Ok|by eapply lookup_lt_Some]).
  destruct (pleaf T 2 (root_page_table s1) vpn) as [t0|] eqn:L; [|apply pleaf_none in L; change (pte_of T s1 vpn) with (pte_of T s vpn) in L; lia].
  destruct (resolve_fault_at lay T s1 rs vpn t0 j r Ok1 Hu L Hp Hj Fr) as (T' & s2 & rs' & E & [Ok2 Pt Rg Zp Us St] & L2).
  assert (Epte : pte_of T' s2 vpn = user_pte vpn (r_prot r)) by (rewrite Pt by done; unfold put_entry; by rewrite Z.eqb_refl).
  assert (L3 : pleaf T' 2 (root_page_table s2) vpn = Some t0) by (rewrite St; exact L2).
  assert (Rv : (vmr_ptr s j &&& PTE_V) = 0).
  { unfold PTE_V. change 1 with (Z.ones 1). rewrite Z.land_ones by lia. unfold vmr_ptr. destruct (bk_base _ _ _ _ B) as [Bm _].
    change (vmrs s1) with (vmrs s) in Bm. apply Z.mod_divide in Bm as [c Ec]; [|lia].
    replace (vmrs s + 40 * Z.of_nat j) with ((c * 4 + 20 * Z.of_nat j) * 2) by lia. by apply Z.mod_mul. }
  assert (Run : __handle_page_fault lay va q s1 = Ret (if granted (r_prot r) q then 0 else -1) s2).
  { rewrite (fault_begin lay T s1 va q t0 V) by (unfold vpn in *; lia || done || (change (pte_of T s1) with (pte_of T s); lia)).
    cbv zeta. fold vpn. unfold bind at 1. rewrite (fault_range_at s1 vpn Hu Hr). cbn [negb].
    change (pte_of T s1 vpn) with (pte_of T s vpn). rewrite Hp, Rv. change (0 =? 0) with true. cbv iota. unfold bind at 1. rewrite E.
    apply (fault_end T' s2 vpn t0); [apply Ok2|done|done|done]. }
  unfold handle_page_fault. eapply returns_step; [unfold spinlock_lock, bind, gets; rewrite Lk; reflexivity|].
  eapply returns_step; [exact Run|]. eapply returns_step; [reflexivity|]. apply returns_ret.
  set (s3 := set_vm_lock 0 s2). change (vmem s3) with (vmem s2). change (root_page_table s3) with (root_page_table s2).
  assert (Hw : forall va', 0 <= va' < 2 ^ 38 -> sv39 (vmem s2) (root_page_table s2) va' =
    translate (put_entry (pte_of T s) vpn (user_pte vpn (r_prot r))) va').
  { intros va' Hv'. rewrite (hw_translate T') by (apply Ok2 || done). apply translate_ext. apply Pt. by apply va_page. }
  destruct (user_pte_hw vpn (r_prot r)) as (Hl & A1 & A2 & A3).
  split_and!; [done|done|exact Zp|exact Us| | |].
  - exists T', rs'. split_and!; [by eapply vm_ok_same|done|exact Pt].
  - exists (user_pte vpn (r_prot r)). split; [|done]. rewrite Hw by done. unfold translate, put_entry. fold vpn. rewrite Z.eqb_refl, Hl.
    do 2 f_equal. unfold user_pte. rewrite Z.div_add_l by lia. destruct (user_pte_create vpn (r_prot r) tt) as (_ & Bu & _); [unfold upage in Hu; lia|].
    unfold inu in Bu. rewrite (Z.div_small (user_bits _)) by lia. pose proof (Z.div_mod va 4096). unfold vpn. lia.
  - intros va' Hv' N. rewrite Hw by done. rewrite (hw_translate T s) by (apply Ok || done). unfold translate, put_entry.
    by rewrite (proj2 (Z.eqb_neq _ _) N).
Qed.

(** The other faults leave everything as it is: where no region was mapped the handler
    answers -1, and on a page that is resident it answers by the page's protection. *)
Theorem page_fault_unchanged {F FIL} `{FatFs F FIL} lay T (s : vm F FIL) va q :
  vm_tree T s -> vm_lock s = 0 -> 0 <= va < 2 ^ 39 ->
  (pte_of T s (va / 4096) = 0 -> handle_page_fault lay va q s = Ret (-1) s) /\
  (forall p, pte_of T s (va / 4096) = user_pte (va / 4096) p -> fault_range s (va / 4096) ->
    handle_page_fault lay va q s = Ret (if granted p q then 0 else -1) s).
Proof.
  intros V Lk Hva. set (vpn := va / 4096). set (s1 := set_vm_lock (-1) s).
  assert (V1 : vm_tree T s1) by (constructor; try apply V; by eapply allocator_same; [apply V|..]).
  assert (Hu : upage vpn) by (split; [apply Z.div_pos; lia|apply Z.div_lt_upper_bound; lia]).
  assert (Undo : set_vm_lock 0 s1 = s) by (unfold s1; destruct s; cbn in *; by rewrite Lk).
  assert (Fin : forall r, __handle_page_fault lay va q s1 = Ret r s1 -> handle_page_fault lay va q s = Ret r s).
  { intros r E. unfold handle_page_fault, spinlock_lock. unfold bind at 1, bind at 1, gets. rewrite Lk. change (0 =? 0) with true. unfold modify at 1.
    fold s1. unfold bind. rewrite E. unfold spinlock_unlock, modify. by rewrite Undo. }
  split.
  - intros E. apply Fin. unfold __handle_page_fault, RISCV_PGSHIFT. rewrite Z.shiftr_div_pow2 by lia. change (2 ^ 12) with 4096. fold vpn.
    unfold upage in Hu. rewrite Z.shiftl_mul_pow2 by lia. change (2 ^ 12) with 4096. rewrite wrapu_small by (unfold inu; lia).
    unfold bind at 1. rewrite (walk_find T s1 (vpn * 4096) V1) by lia. rewrite page_of by lia.
    destruct (pleaf T 2 (root_page_table s1) vpn) as [t0|] eqn:L; [|done].
    destruct (leaf_facts T s1 vpn t0 V1 Hu L) as (_ & P & _ & _). rewrite (proj2 (Z.eqb_neq _ 0)) by lia.
    unfold bind at 1. rewrite (get_pte_at T s1 vpn t0 V1 Hu L). change (pte_of T s1 vpn) with (pte_of T s vpn). unfold vpn in *. rewrite E.
    unfold __valid_user_range. by destruct (_ <? _).
  - intros p E Hr. apply Fin. destruct (user_pte_range vpn p Hu) as [_ [N|N]].
    + destruct (user_pte_hw vpn p) as [Hl _]. unfold vpn in *. by rewrite N in Hl.
    + assert (Nz : pte_of T s1 vpn <> 0) by (change (pte_of T s1 vpn) with (pte_of T s vpn); unfold vpn in *; rewrite E; intros Z0; by rewrite Z0 in N).
      destruct (pleaf T 2 (root_page_table s1) vpn) as [t0|] eqn:L; [|by apply pleaf_none in L].
      rewrite (fault_begin lay T s1 va q t0) by done. cbv zeta. fold vpn. unfold bind at 1. rewrite (fault_range_at s1 vpn Hu Hr). cbn [negb].
      assert (pte_of T s1 vpn = user_pte vpn p) as E1 by exact E. rewrite E1. rewrite (proj2 (Z.eqb_neq _ 0) N). unfold bind at 1, ret at 1.
      by apply (fault_end T s1 vpn t0).
Qed.

(** *** The hypotheses hold in a machine with 64 pages above the first megabyte *)
Definition mmap_demo_info : elf_info :=
  ElfInfo 1 56 2 0 0 0 0x10000 0 0 0 0 0x18000 0x18000 0x100000 0x100000 0 0 0.
Definition mmap_demo : vm (list Z) Z :=
  Vm mmap_demo_info 0x140000 0x101000 0x100000 0x100000 2 64 0 0 1
    (Fsys [] 0 0 0 [] (write_bytes ∅ 0 (replicate (Z.to_nat 0x140000) 0))).
Ltac demo_decide :=
  try change (first_free_page mmap_demo) with 0x100000; try change (next_free_page mmap_demo) with 2;
  try change (free_pages mmap_demo) with 64; try change (have_vm mmap_demo) with 1; try change (current mmap_demo) with mmap_demo_info;
  vm_decide.
Definition demo_layout : layout := Layout 0x8000 600.
Definition demo_tree : tree := root_only (pool_page mmap_demo 0).
Definition demo_regions : list region := replicate (Z.to_nat MAX_VMR) zero_region.

Lemma demo_zero k n : 0 <= k -> 0 <= n -> k + n <= 0x140000 -> read_bytes (vmem mmap_demo) k (Z.to_nat n) = Some (replicate (Z.to_nat n) 0).
Proof.
  intros H0 Hn H1. pose proof (read_write_bytes (replicate (Z.to_nat 0x140000) 0) ∅ 0) as R. rewrite length_replicate in R.
  replace k with (0 + Z.of_nat (Z.to_nat k)) by lia. eapply zero_window; [apply R; lia|lia].
Qed.

Lemma demo_vm_ok : vm_ok settled demo_tree mmap_demo demo_regions.
Proof.
  apply (fresh_vm_ok mmap_demo); [|demo_decide|reflexivity|reflexivity|reflexivity|].
  - constructor; [demo_decide|reflexivity|demo_decide|]. eexists. apply demo_zero; demo_decide.
  - apply demo_zero; demo_decide.
Qed.

Lemma demo_free : first_free demo_regions 0.
Proof. split; [|intros; lia]. exists zero_region. split; reflexivity. Qed.

Lemma demo_pte x : pte_of demo_tree mmap_demo x = 0.
Proof. reflexivity. Qed.

Lemma kernel_range_mapped_witness :
  returns (__map_kernel_range 0x400000 0x800000 0x1800 3) mmap_demo (fun _ s' =>
    exists e, sv39 (vmem s') (root_page_table s') 0x401234 = Some (e, 0x801234) /\ PTE_SW e = true /\ PTE_SX e = false).
Proof.
  eapply returns_mono; [apply (kernel_range_mapped demo_tree mmap_demo 0x400 0x800 0x1800 3 (vo_tree _ _ _ _ demo_vm_ok)); demo_decide|].
  intros [] s' (_ & _ & _ & Hw). destruct (Hw 0x401234 ltac:(lia)) as (e & E & _ & _ & _ & _ & Ew & Ex).
  exists e. split; [exact E|]. split; [exact Ew|exact Ex].
Defined.

Lemma mmap_anonymous_witness :
  returns (do_mmap demo_layout 0x20000 0x2800 3 0x32 0 0) mmap_demo (fun a s' =>
    a = 0x20000 /\ brk_max (current s') = 0x20000 /\ sv39 (vmem s') (root_page_table s') 0x22000 = None).
Proof.
  eapply returns_mono; [apply (mmap_anonymous demo_layout demo_tree mmap_demo demo_regions 0x20000 0x2800 3 0x32 0 0 demo_vm_ok);
    [reflexivity|demo_decide|exact demo_free|unfold user_range; demo_decide|demo_decide..]|].
  intros a s' (-> & _ & Eb & _ & _ & T' & rs' & _ & _ & _ & Hw). split; [done|]. split; [exact Eb|]. apply (Hw 0x22000). lia.
Defined.

(** A machine with one open file, its first handle, and a page waiting for it. *)
Definition with_handle (s : vm (list Z) Z) : vm (list Z) Z := set_vfs (Fsys [File 0 0 (count_ref 2)] 0 0 1 [7] (vmem s)) s.
Definition file_region : region := Region 0 0 0x8000 0 1 0.

Lemma file_page T (s : vm (list Z) Z) : vm_tree T s -> vmr_ok T s demo_regions -> next_free_page s + 2 <= free_pages s ->
  exists T' s', vm_tree T' s' /\ vmr_ok T' s' (<[0%nat := file_region]> (<[0%nat := Region 0 0 0x8000 0 0 0]> demo_regions)) /\
  pte_of T' s' 0x20 = vmr_ptr s' 0 /\ vfs s' = set_mem (vmem s') (vfs (with_handle s)) /\ vm_lock s' = vm_lock s /\ current s' = current s.
Proof.
  intros V R Hn. set (s0 := with_handle s).
  assert (V0 : vm_tree T s0) by (by eapply vm_tree_same). assert (R0 : vmr_ok T s0 demo_regions) by (by eapply vmr_ok_same).
  pose proof (vr_at _ _ _ R0 0%nat zero_region eq_refl) as Q0.
  destruct (store_field T s0 demo_regions 0 zero_region (Region 0 0 0x8000 0 0 0) 16 8 0 0x8000 V0 R0 eq_refl
    ltac:(lia) ltac:(lia) (ra_file _ _ _ Q0) ltac:(vm_decide)) as (m1 & _ & V1 & R1 & _).
  { intros m' _ C Oth. destruct Q0. constructor; try exact C; (apply Oth; [assumption|unfold apart; lia]). }
  destruct (set_refcnt_at T (with_mem m1 s0) _ 0 (Region 0 0 0x8000 0 0 0) 1 V1 R1 eq_refl ltac:(vm_decide)) as (m2 & _ & V2 & R2 & _).
  destruct (vmr_bounds T s0 _ 0%nat zero_region V0 R0 eq_refl) as (_ & B0 & B1 & B2 & B3 & _).
  destruct (write_page T _ 0x20 (vmr_ptr s0 0) (ret tt) V2 ltac:(unfold upage; lia) Hn ltac:(unfold inu; lia)) as (T' & s' & _ & X).
  pose proof (rm_moved _ _ _ _ _ _ X) as M. pose proof (mv_state _ _ _ _ _ M) as St.
  exists T', s'. split_and!; [apply M|eapply vmr_moved; [exact V2|exact M|exact R2]| |..].
  - rewrite (rm_pte _ _ _ _ _ _ X) by vm_decide. unfold vmr_ptr. rewrite St. reflexivity.
  - rewrite St at 1. reflexivity.
  - rewrite St. reflexivity.
  - rewrite St. reflexivity.
Qed.

(** An anonymous range, and the page of a file open twice: one reference is left. *)
Lemma munmap_clears_witness :
  returns (do_munmap demo_layout 0x20000 0x3000) mmap_demo (fun r s' => r = 0 /\ next_free_page s' = 2) /\
  exists s, returns (do_munmap demo_layout 0x20000 4096) s (fun r s' => r = 0 /\ files (vfs s') = [File 0 0 (count_ref 1)]).
Proof.
  split.
  - eapply returns_mono; [exact (proj1 (munmap_clears demo_layout demo_tree mmap_demo demo_regions 0x20000 0x3000 eq_refl
      ltac:(unfold user_range; demo_decide)) demo_vm_ok)|].
    intros r s' (-> & _ & En & _). split; [done|exact En].
  - destruct (file_page demo_tree mmap_demo (vo_tree _ _ _ _ demo_vm_ok) (vo_vmr _ _ _ _ demo_vm_ok) ltac:(demo_decide))
      as (T & s & V & R & Hp & Hv & Hl & Hc). exists s.
    eapply returns_mono; [apply (proj2 (munmap_clears demo_layout T s _ 0x20000 4096 Hl
      ltac:(unfold user_range; rewrite Hc; vm_decide)) 0%nat file_region 0%nat (File 0 0 (count_ref 2)) 2 V R)|].
    + reflexivity.
    + exact Hp.
    + reflexivity.
    + cbn. lia.
    + discriminate.
    + reflexivity.
    + rewrite Hv. vm_decide.
    + rewrite Hv. reflexivity.
    + lia.
    + reflexivity.
    + intros r s' (-> & _ & _ & E & _). split; [done|]. rewrite E, Hv. reflexivity.
Defined.

Lemma page_fault_anonymous_witness :
  returns (__do_mmap demo_layout 0x20000 0x2800 3 0x32 0 0 ;; handle_page_fault demo_layout 0x21234 PROT_WRITE) mmap_demo (fun res s' =>
    res = 0 /\ exists e, sv39 (vmem s') (root_page_table s') 0x21234 = Some (e, 0x21234) /\ PTE_UW e = true /\ PTE_UX e = false).
Proof.
  eapply returns_bind; [apply (do_mmap_at demo_layout demo_tree mmap_demo demo_regions 0x20000 0x2800 3 0x32 0 0 demo_vm_ok demo_free);
    [unfold user_range; demo_decide|demo_decide..]|].
  intros a s1 (_ & T1 & rs1 & Ok1 & [Pt Rg Us _ St _]).
  assert (Hf : free_pages s1 = 64 /\ first_free_page s1 = 0x100000 /\ vm_lock s1 = 0 /\ vmrs s1 = 0x101000 /\ current s1 = mmap_demo_info)
    by (rewrite St; split_and!; reflexivity).
  destruct Hf as (Hf & Hp & Hl & Hv & Hc).
  destruct (Forall2_lookup_l _ _ _ 0%nat (Region 0x20000 0x2800 0 0 (npages 0x2800) (u32 3)) Rg eq_refl) as (r & Hr & Hs).
  assert (Ep : r_prot r = 3) by (destruct r; unfold same_region, set_refcount in Hs; cbn [r_addr r_length r_file r_offset r_prot] in Hs |- *; by inversion Hs).
  eapply returns_mono; [apply (page_fault_anonymous demo_layout T1 s1 rs1 0x21234 PROT_WRITE 0%nat r Ok1 Hl); [lia| |exact Hr|..]|].
  - change (0x21234 / 4096) with 0x21. rewrite Pt by vm_decide. unfold vmr_ptr. rewrite Hv. reflexivity.
  - unfold fault_range. rewrite Hc. vm_decide.
  - split; [rewrite Hp; vm_decide|]. exists (replicate (Z.to_nat 4096) 0).
    transitivity (read_bytes (vmem mmap_demo) (0x21234 / 4096 * 4096) (Z.to_nat 4096)).
    + apply Us; [unfold fits; vm_decide|unfold apart; demo_decide].
    + apply demo_zero; demo_decide.
  - intros res s' (-> & _ & _ & _ & _ & (e & E & _ & Ew & Ex) & _). rewrite Ep in *. split; [reflexivity|].
    exists e. split; [exact E|]. split; [exact Ew|exact Ex].
Defined.

Lemma page_fault_unchanged_witness : handle_page_fault demo_layout 0x21234 PROT_READ mmap_demo = Ret (-1) mmap_demo.
Proof.
  apply (page_fault_unchanged demo_layout demo_tree mmap_demo 0x21234 PROT_READ (vo_tree _ _ _ _ demo_vm_ok)); [reflexivity|lia|apply demo_pte].
Defined.

(** *** Protection *)
Definition set_protection (p : Z) (r : region) : region := Region (r_addr r) (r_length r) (r_file r) (r_offset r) (r_refcnt r) p.

Lemma set_prot_at {F FIL} `{FatFs F FIL} T (s : vm F FIL) rs j r p :
  vm_ok settled T s rs -> rs !! j = Some r -> inu 32 p ->
  exists m', set_vmr_prot (vmr_ptr s j) p s = Ret tt (with_mem m' s) /\
    vm_ok settled T (with_mem m' s) (<[j := set_protection p r]> rs) /\ user_same s (vmem s) m'.
Proof.
  intros [V R B] Hj Hp. pose proof (vr_at _ _ _ R _ _ Hj) as Q.
  destruct (store_field T s rs j r (set_protection p r) 36 4%nat (r_prot r) p V R Hj) as (m' & E & V' & R' & U');
    [lia|lia|apply Q|done| |].
  - intros m' _ C Oth. constructor; cbn [set_protection r_addr r_length r_file r_offset r_refcnt r_prot]; try exact C;
      (apply Oth; [apply Q|unfold apart; lia]).
  - exists m'. split; [exact E|]. split; [|done]. constructor; [done|done|]. destruct B as [Bb Br Be Ba Bj].
    assert (L : forall i q, <[j := set_protection p r]> rs !! i = Some q ->
      exists q0, rs !! i = Some q0 /\ r_refcnt q = r_refcnt q0 /\ r_file q = r_file q0).
    { intros i q Hi. destruct (decide (i = j)) as [->|N].
      - rewrite list_lookup_insert_eq in Hi by (eapply lookup_lt_Some; exact Hj). injection Hi as <-. by exists r.
      - rewrite list_lookup_insert_ne in Hi by done. by exists q. }
    constructor; try done.
    + intros i q Hi. destruct (L i q Hi) as (q0 & Hq & -> & _). by apply Br.
    + intros x Hx. rewrite length_insert. by apply Be.
    + intros i q Hi. destruct (L i q Hi) as (q0 & Hq & _ & ->). by eapply Ba.
Qed.

(** [do_mprotect] of a single page that waits for its region: with a protection within
    the region's it answers 0 and replaces the protection of the whole region, so every page
    of the region still to be faulted in gets the new protection, not only the page
    asked for; with more access it answers -EACCES and nothing changes. *)
Theorem mprotect_pending_page {F FIL} `{FatFs F FIL} T (s : vm F FIL) rs vpn prot j r :
  vm_ok settled T s rs -> vm_lock s = 0 -> 0 <= vpn < 2 ^ 27 -> pte_of T s vpn = vmr_ptr s j -> rs !! j = Some r -> 0 <= prot < 8 ->
  let old := s32 (r_prot r) in
  if ((old ^^^ prot) &&& Z.lnot old) =? 0 then
    returns (do_mprotect (vpn * 4096) 4096 prot) s (fun res s' =>
      res = 0 /\ vm_lock s' = 0 /\ user_same s (vmem s) (vmem s') /\
      vm_ok settled T s' (<[j := set_protection prot r]> rs) /\ forall x, pte_of T s' x = pte_of T s x)
  else do_mprotect (vpn * 4096) 4096 prot s = Ret (u64 (- EACCES)) s.
Proof.
  intros Ok Lk Hu Hp Hj Hprot old. set (s1 := set_vm_lock (-1) s). assert (Ok1 : vm_ok settled T s1 rs) by (by eapply vm_ok_same).
  pose proof Ok1 as [V R B]. assert (P0 : 0 < vmr_ptr s j) by (eapply vptr_range; [exact Ok|by eapply lookup_lt_Some]).
  destruct (vmr_bounds T s1 rs j r V R Hj) as (Vm & _ & B1 & B2 & B3 & _). change (vmr_ptr s1 j) with (vmr_ptr s j) in *.
  destruct (pleaf T 2 (root_page_table s1) vpn) as [t0|] eqn:L; [|apply pleaf_none in L; change (pte_of T s1 vpn) with (pte_of T s vpn) in L; lia].
  destruct (leaf_facts T s1 vpn t0 V Hu L) as (_ & Pt & _ & _).
  assert (Rv : (vmr_ptr s j &&& PTE_V) = 0).
  { unfold PTE_V. change 1 with (Z.ones 1). rewrite Z.land_ones by lia.
    unfold vmr_ptr. destruct (bk_base _ _ _ _ B) as [Bm _]. change (vmrs s1) with (vmrs s) in Bm. apply Z.mod_divide in Bm as [c Ec]; [|lia].
    replace (vmrs s + 40 * Z.of_nat j) with ((c * 4 + 20 * Z.of_nat j) * 2) by lia. by apply Z.mod_mul. }
  assert (Run : mprotect_loop (pages_fuel 4096) (vpn * 4096) (u64 (vpn * 4096 + 4096)) prot s1 =
    if negb (((old ^^^ prot) &&& Z.lnot old) =? 0) then Ret (u64 (- EACCES)) s1
    else (set_vmr_prot (vmr_ptr s j) (u32 prot) ;; ret 0) s1).
  { change (pages_fuel 4096) with 3%nat. rewrite wrapu_small by (unfold inu; lia). cbn [mprotect_loop].
    rewrite (proj2 (Z.ltb_lt _ _)) by lia. unfold bind at 1. rewrite (walk_find T s1 (vpn * 4096) V) by lia. rewrite page_of by lia. rewrite L.
    rewrite (proj2 (Z.eqb_neq (t0 + _) 0)) by lia. unfold bind at 1. rewrite (get_pte_at T s1 vpn t0 V Hu L).
    change (pte_of T s1 vpn) with (pte_of T s vpn). rewrite Hp, (proj2 (Z.eqb_neq (vmr_ptr s j) 0)), Rv by lia. change (0 =? 0) with true. cbv iota.
    unfold bind at 1, vmr_prot, bind at 1. rewrite (wrapu_small _ (vmr_ptr s j + 36)) by (unfold inu; lia).
    pose proof (ra_prot _ _ _ (vr_at _ _ _ R _ _ Hj)) as Cp. change (vmr_ptr s1 j) with (vmr_ptr s j) in Cp.
    rewrite (on_cell _ _ _ _ Cp). unfold ret at 1. fold old. destruct (negb _); [done|].
    unfold bind. destruct (set_vmr_prot _ _ _) as [[]| | |]; try done. unfold RISCV_PGSIZE. rewrite wrapu_small by (unfold inu; lia).
    by rewrite Z.ltb_irrefl. }
  assert (Al : ((vpn * 4096) &&& (RISCV_PGSIZE - 1)) = 0) by (apply page_aligned; [lia|by apply Z.mod_mul]).
  unfold do_mprotect. rewrite Al. change (0 =? 0) with true. cbn [negb].
  destruct (_ =? 0); cbn [negb] in Run.
  - destruct (set_prot_at T s1 rs j r prot Ok1 Hj ltac:(unfold inu; lia)) as (m' & E & Ok2 & U2). change (vmr_ptr s1 j) with (vmr_ptr s j) in E.
    eapply returns_step; [unfold spinlock_lock, bind, gets; rewrite Lk; reflexivity|].
    rewrite (wrapu_small _ prot) in Run by (unfold inu; lia). unfold bind in Run at 1. rewrite E in Run.
    eapply returns_step; [exact Run|].
    eapply returns_step; [reflexivity|]. apply returns_ret. split_and!; try done. by eapply vm_ok_same.
  - unfold spinlock_lock. unfold bind at 1, bind at 1, gets. rewrite Lk. change (0 =? 0) with true. unfold modify at 1. fold s1.
    unfold bind. rewrite Run. unfold spinlock_unlock, modify, ret. f_equal. unfold s1. destruct s; cbn in *; by rewrite Lk.
Qed.

Lemma mprotect_pending_page_witness :
  returns (__do_mmap demo_layout 0x20000 0x2800 3 0x32 0 0 ;; do_mprotect 0x21000 4096 PROT_READ) mmap_demo (fun res s' =>
    res = 0 /\ exists T rs r, vm_ok settled T s' rs /\ rs !! 0%nat = Some r /\ r_prot r = PROT_READ /\ pte_of T s' 0x22 = 0x101000).
Proof.
  eapply returns_bind; [apply (do_mmap_at demo_layout demo_tree mmap_demo demo_regions 0x20000 0x2800 3 0x32 0 0 demo_vm_ok demo_free);
    [unfold user_range; demo_decide|demo_decide..]|].
  intros a s1 (_ & T1 & rs1 & Ok1 & [Pt Rg Us _ St _]).
  assert (Hf : vm_lock s1 = 0 /\ vmrs s1 = 0x101000) by (rewrite St; split; reflexivity). destruct Hf as (Hl & Hv).
  destruct (Forall2_lookup_l _ _ _ 0%nat (Region 0x20000 0x2800 0 0 (npages 0x2800) (u32 3)) Rg eq_refl) as (r & Hr & Hs).
  assert (Ep : r_prot r = 3) by (destruct r; unfold same_region, set_refcount in Hs; cbn [r_addr r_length r_file r_offset r_prot] in Hs |- *; by inversion Hs).
  assert (Pg : forall x, 0x20 <= x < 0x23 -> pte_of T1 s1 x = 0x101000).
  { intros x Hx. rewrite Pt by (unfold upage; lia). unfold over_range. change (0x20000 / 4096) with 0x20. change (npages 0x2800) with 3.
    rewrite (proj2 (Z.leb_le _ _)), (proj2 (Z.ltb_lt _ _)) by lia. reflexivity. }
  pose proof (mprotect_pending_page T1 s1 rs1 0x21 PROT_READ 0%nat r Ok1 Hl ltac:(lia) ltac:(rewrite Pg by lia; unfold vmr_ptr; by rewrite Hv) Hr ltac:(vm_decide)) as M.
  rewrite Ep in M. eapply returns_mono; [exact M|]. intros res s' (-> & _ & _ & Ok' & Px). split; [done|].
  exists T1, (<[0%nat := set_protection PROT_READ r]> rs1), (set_protection PROT_READ r). split_and!; [done| |done|].
  - apply list_lookup_insert_eq. by eapply lookup_lt_Some.
  - rewrite Px. by apply Pg.
Defined.
