(* ===== verification/Loader.v ===== *)
(** * The program loader ([bbl/elf.c])

    [load_elf] reads the ELF headers of the kernel through the file layer, decides between
    a supervisor image and a user program, places the segments and records the layout in
    [current].  The header and the program headers are read into memory and their fields
    are loads from there.  The theorems follow a supervisor image from the file into
    memory, up to the state [supervisor_vm_init] starts from. *)

From Stdlib Require Import ZArith Lia Bool List String.
From stdpp Require Import base gmap list.
From S2P Require Import Prelude Machine Memory File VM Mmap.
Open Scope Z_scope.
Open Scope word_scope.

(** ** ELF ([bbl/elf.h]) *)
Definition ET_DYN : Z := 3.
Definition PT_LOAD : Z := 1.
(** [sizeof(Elf64_Ehdr)] and [sizeof(Elf64_Phdr)]. *)
Definition EHDR_SIZE : Z := 64.
Definition PHDR_SIZE : Z := 56.

Record Elf64_Phdr := Phdr {
  p_type : Z; p_flags : Z; p_offset : Z; p_vaddr : Z; p_paddr : Z; p_filesz : Z; p_memsz : Z; p_align : Z;
}.

(** The fields of [current] that [load_elf] sets. *)
Definition set_cur_elf64 v c := ElfInfo v (phent c) (phnum c) (is_supervisor c) (phdr c) (phdr_size c) (first_free_paddr c) (first_user_vaddr c) (first_vaddr_after_user c) (bias c) (entry c) (brk_min c) (brk c) (brk_max c) (mmap_max c) (stack_bottom c) (stack_top c) (t0 c).
Definition set_cur_phnum v c := ElfInfo (elf64 c) (phent c) v (is_supervisor c) (phdr c) (phdr_size c) (first_free_paddr c) (first_user_vaddr c) (first_vaddr_after_user c) (bias c) (entry c) (brk_min c) (brk c) (brk_max c) (mmap_max c) (stack_bottom c) (stack_top c) (t0 c).
Definition set_cur_phent v c := ElfInfo (elf64 c) v (phnum c) (is_supervisor c) (phdr c) (phdr_size c) (first_free_paddr c) (first_user_vaddr c) (first_vaddr_after_user c) (bias c) (entry c) (brk_min c) (brk c) (brk_max c) (mmap_max c) (stack_bottom c) (stack_top c) (t0 c).
Definition set_cur_is_supervisor v c := ElfInfo (elf64 c) (phent c) (phnum c) v (phdr c) (phdr_size c) (first_free_paddr c) (first_user_vaddr c) (first_vaddr_after_user c) (bias c) (entry c) (brk_min c) (brk c) (brk_max c) (mmap_max c) (stack_bottom c) (stack_top c) (t0 c).
Definition set_cur_first_user_vaddr v c := ElfInfo (elf64 c) (phent c) (phnum c) (is_supervisor c) (phdr c) (phdr_size c) (first_free_paddr c) v (first_vaddr_after_user c) (bias c) (entry c) (brk_min c) (brk c) (brk_max c) (mmap_max c) (stack_bottom c) (stack_top c) (t0 c).
Definition set_cur_bias v c := ElfInfo (elf64 c) (phent c) (phnum c) (is_supervisor c) (phdr c) (phdr_size c) (first_free_paddr c) (first_user_vaddr c) (first_vaddr_after_user c) v (entry c) (brk_min c) (brk c) (brk_max c) (mmap_max c) (stack_bottom c) (stack_top c) (t0 c).
Definition set_cur_entry v c := ElfInfo (elf64 c) (phent c) (phnum c) (is_supervisor c) (phdr c) (phdr_size c) (first_free_paddr c) (first_user_vaddr c) (first_vaddr_after_user c) (bias c) v (brk_min c) (brk c) (brk_max c) (mmap_max c) (stack_bottom c) (stack_top c) (t0 c).
Definition set_cur_brk_min v c := ElfInfo (elf64 c) (phent c) (phnum c) (is_supervisor c) (phdr c) (phdr_size c) (first_free_paddr c) (first_user_vaddr c) (first_vaddr_after_user c) (bias c) (entry c) v (brk c) (brk_max c) (mmap_max c) (stack_bottom c) (stack_top c) (t0 c).
Definition set_cur_phdr a n c := ElfInfo (elf64 c) (phent c) (phnum c) (is_supervisor c) a n (first_free_paddr c) (first_user_vaddr c) (first_vaddr_after_user c) (bias c) (entry c) (brk_min c) (brk c) (brk_max c) (mmap_max c) (stack_bottom c) (stack_top c) (t0 c).

Section Loader.
Context {F FIL : Type} `{FatFs F FIL}.
Abbreviation state := (vm F FIL).
Variable lay : layout.
(** Where the local variable [eh64] lies. *)
Variable eh64 : Z.

Definition pread (i : nat) (buf size ofs : Z) : ST state Z := on_files (file_pread i buf size ofs).

(** Fields of [eh64]. *)
Definition e_ident (i : Z) : ST state Z := on_memory (load 1 (u64 (eh64 + i))).
Definition e_type : ST state Z := on_memory (load 2 (u64 (eh64 + 16))).
Definition e_entry : ST state Z := on_memory (load 8 (u64 (eh64 + 24))).
Definition e_phoff : ST state Z := on_memory (load 8 (u64 (eh64 + 32))).
Definition e_phnum : ST state Z := on_memory (load 2 (u64 (eh64 + 56))).

Definition IS_ELF64 : ST state bool :=
  let! b0 := e_ident 0 in
  if negb (b0 =? 0x7F) then ret false
  else let! b1 := e_ident 1 in
  if negb (b1 =? 69) then ret false
  else let! b2 := e_ident 2 in
  if negb (b2 =? 76) then ret false
  else let! b3 := e_ident 3 in
  if negb (b3 =? 70) then ret false
  else let! b4 := e_ident 4 in ret (b4 =? 2).

(** [ph[i]]. *)
Definition get_phdr (ph i : Z) : ST state Elf64_Phdr :=
  let p := u64 (ph + PHDR_SIZE * i) in
  let! a := on_memory (load 4 p) in
  let! b := on_memory (load 4 (u64 (p + 4))) in
  let! c := on_memory (load 8 (u64 (p + 8))) in
  let! d := on_memory (load 8 (u64 (p + 16))) in
  let! e := on_memory (load 8 (u64 (p + 24))) in
  let! f := on_memory (load 8 (u64 (p + 32))) in
  let! g := on_memory (load 8 (u64 (p + 40))) in
  let! h := on_memory (load 8 (u64 (p + 48))) in
  ret (Phdr a b c d e f g h).

Definition loadable (p : Elf64_Phdr) : bool := (p_type p =? PT_LOAD) && negb (p_memsz p =? 0).

(** [for (i = 0; i < eh->e_phnum; i++)], by the headers left: the lowest address. *)
Fixpoint min_vaddr_loop (k : nat) (ph i min_vaddr : Z) : ST state Z :=
  match k with
  | O => ret min_vaddr
  | S k' =>
      let! p := get_phdr ph i in
      min_vaddr_loop k' ph (i + 1) (if loadable p && (p_vaddr p <? min_vaddr) then p_vaddr p else min_vaddr)
  end.

(** A segment of a supervisor image: read in place, with the head of its first page and
    its uninitialised end cleared. *)
Definition load_supervisor_segment (file : nat) (ph i vaddr prepad : Z) (p : Elf64_Phdr) : ST state unit :=
  let! ok := __valid_user_range (u64 (vaddr - prepad)) (u64 (vaddr + p_memsz p)) in
  (if ok then ret tt else panic "ELF: invalid user addr range!") ;;
  let! r := pread file vaddr (p_filesz p) (p_offset p) in
  let! p := get_phdr ph i in
  (if r <? s64 (p_filesz p) then panic "ELF: fail to read a physical section header!" else ret tt) ;;
  on_memory (memset (u64 (vaddr - prepad)) 0 prepad) ;;
  let! p := get_phdr ph i in
  on_memory (memset (u64 (vaddr + p_filesz p)) 0 (u64 (p_memsz p - p_filesz p))) ;;
  ret tt.

(** A segment of a user program: mapped from the file, the rest anonymous. *)
Definition map_user_segment (file : nat) (ph i vaddr prepad flags : Z) (p : Elf64_Phdr) : ST state unit :=
  let flags2 := flags ||| (if prepad =? 0 then 0 else MAP_POPULATE) in
  let! a := __do_mmap lay (u64 (vaddr - prepad)) (u64 (p_filesz p + prepad)) (-1) flags2
              (u64 (files_base lay + Z.of_nat file * sizeof_file_t lay)) (u64 (p_offset p - prepad)) in
  (if a =? u64 (vaddr - prepad) then ret tt else panic "ELF: fail to memory map a section header!") ;;
  on_memory (memset (u64 (vaddr - prepad)) 0 prepad) ;;
  let! p := get_phdr ph i in
  let mapped := u64 (ROUNDUP (u64 (p_filesz p + prepad)) RISCV_PGSIZE - prepad) in
  if mapped <? p_memsz p then
    let! a := __do_mmap lay (u64 (vaddr + mapped)) (u64 (p_memsz p - mapped)) (-1) (flags ||| MAP_ANONYMOUS) 0 0 in
    if a =? u64 (vaddr + mapped) then ret tt else panic "ELF: fail to memory map a section!"
  else ret tt.

(** [for (i = eh->e_phnum - 1; i >= 0; i--)], by the headers left: the highest address. *)
Fixpoint segment_loop (k : nat) (file : nat) (ph bias flags max_vaddr : Z) : ST state Z :=
  match k with
  | O => ret max_vaddr
  | S k' =>
      let i := Z.of_nat k' in
      let! p := get_phdr ph i in
      let! m :=
        (if loadable p then
           let prepad := p_vaddr p mod RISCV_PGSIZE in
           let vaddr := u64 (p_vaddr p + bias) in
           let last := u64 (vaddr + p_memsz p) in
           let! c := gets current in
           (if negb (is_supervisor c =? 0) then load_supervisor_segment file ph i vaddr prepad p
            else map_user_segment file ph i vaddr prepad flags p) ;;
           ret (if max_vaddr <? last then last else max_vaddr)
         else ret max_vaddr) in
      segment_loop k' file ph bias flags m
  end.

Definition load_elf (fn : list Z) : ST state unit :=
  (* file_open panics itself when it fails and never returns NULL *)
  let! file := on_files (file_open fn 0) in
  let! ehdr_size := pread file eh64 EHDR_SIZE 0 in
  let! ok := (if ehdr_size <? EHDR_SIZE then ret false else IS_ELF64) in
  (if ok then ret tt else panic "Not ELF64!") ;;
  upd_current (set_cur_elf64 1) ;;
  let! num := e_phnum in
  let size := u64 (num * PHDR_SIZE) in
  let! room := gets (fun s => phdr_size (current s)) in
  (if room <? size then panic "ELF: phdr_size too large!" else ret tt) ;;
  let! ph := gets (fun s => phdr (current s)) in
  let! phoff := e_phoff in
  let! r := pread file ph size phoff in
  (if r <? s64 size then panic "ELF: fail to read the whole phdr!" else ret tt) ;;
  let! num := e_phnum in
  upd_current (set_cur_phnum num) ;;
  upd_current (set_cur_phent PHDR_SIZE) ;;
  let! ph := gets (fun s => phdr (current s)) in
  let! en := e_entry in
  let sup := negb ((en >>> 63) =? 0) in
  upd_current (set_cur_is_supervisor (b2z sup)) ;;
  (if sup then upd_current (fun c => set_cur_first_free_paddr (ROUNDUP (first_free_paddr c) SUPERPAGE_SIZE) c) else ret tt) ;;
  let! min_vaddr := min_vaddr_loop (Z.to_nat num) ph 0 (u64 (-1)) in
  let min_vaddr := ROUNDDOWN min_vaddr (if sup then SUPERPAGE_SIZE else RISCV_PGSIZE) in
  let! ty := e_type in
  let! ffp := gets (fun s => first_free_paddr (current s)) in
  let bias := if sup || (ty =? ET_DYN) then u64 (ffp - min_vaddr) else 0 in
  let! en := e_entry in
  upd_current (set_cur_entry (if sup then en else u64 (en + bias))) ;;
  let min_vaddr := if sup then min_vaddr else u64 (min_vaddr + bias) in
  upd_current (set_cur_bias bias) ;;
  let flags := MAP_FIXED ||| MAP_PRIVATE ||| (if sup then MAP_POPULATE else 0) in
  let! num := e_phnum in
  let! max_vaddr := segment_loop (Z.to_nat num) file ph bias flags 0 in
  upd_current (set_cur_first_user_vaddr min_vaddr) ;;
  let! b := gets (fun s => VM.bias (current s)) in
  upd_current (set_cur_first_vaddr_after_user (ROUNDUP (u64 (max_vaddr - b)) RISCV_PGSIZE)) ;;
  upd_current (set_cur_brk_min max_vaddr) ;;
  on_files (file_decref file).
End Loader.

(** ** Reading a file of the volume *)

(** What [load_elf] relies on of FatFs: opening the name for reading succeeds where the
    volume holds the file, a seek inside the file is exact, and a read delivers the bytes
    at the position, as many as there are. *)
Class VolumeFile (F FIL : Type) `{FatFs F FIL} (fn content : list Z) := {
  holds : F -> Prop;
  opened : FIL -> F -> Z -> Prop;
  vf_bytes : Forall (inu 8) content;
  vf_open fd fs : holds fs -> exists fd' fs', f_open fd fn FA_READ fs = (0, fd', fs') /\ opened fd' fs' 0;
  vf_seek fd fs p ofs : opened fd fs p -> 0 <= ofs <= Z.of_nat (length content) ->
    exists fd' fs', f_lseek fd ofs fs = (0, fd', fs') /\ opened fd' fs' ofs;
  vf_read fd fs p n : opened fd fs p -> 0 <= n ->
    let data := take (Z.to_nat n) (drop (Z.to_nat p) content) in
    exists fd' fs', f_read fd n fs = (0, (data, Z.of_nat (length data)), fd', fs') /\ opened fd' fs' (p + Z.of_nat (length data));
}.

Lemma bytes_wrap l : Forall (inu 8) l -> map (wrapu 8) l = l.
Proof. induction 1 as [|x l Hx Hl IH]; [done|]. cbn [map]. rewrite IH. f_equal. by apply wrapu_small. Qed.

(** The one-file volume. *)
#[export] Instance ramfs_file fn content (Hb : Forall (inu 8) content) : VolumeFile (list Z) Z fn content.
Proof.
  refine {| holds d := d = content; opened p d q := d = content /\ p = q /\ 0 <= p |}.
  - done.
  - intros fd fs ->. by exists 0, content.
  - intros fd fs p ofs (-> & _) Ho. exists ofs, content. cbn. split; [|split_and!; (done || lia)]. do 2 f_equal. lia.
  - intros fd fs p n (-> & -> & Hp) Hn data. exists (p + Z.of_nat (length data)), content.
    assert (E : map (wrapu 8) (ram_read p n content) = data) by (unfold ram_read; apply bytes_wrap; by apply Forall_take, Forall_drop).
    cbn. rewrite E. split; [done|]. split_and!; (done || lia).
Defined.

Lemma mapped_ram m n a k : mapped m 0 (Z.to_nat n) -> 0 <= a -> 0 <= k -> a + k <= n -> mapped m a (Z.to_nat k).
Proof.
  intros Hm Ha Hk Hn. replace a with (0 + Z.of_nat (Z.to_nat a)) by lia.
  apply (mapped_window _ _ _ _ (Z.to_nat n)); [lia|exact Hm].
Qed.

Lemma ram_buffer m n buf size :
  mapped m 0 (Z.to_nat n) -> n < 2 ^ 40 -> 0 <= buf -> 0 <= size < 2 ^ 32 -> buf + size + 4 <= n -> io_buffer m buf size.
Proof.
  intros Hm Hn H0 H1 H2. split_and!; try lia.
  - intros a Ha Hr. apply (mapped_ram m n a 4); [done| |lia|lia]. pose proof (Z.div_pos buf 4096). lia.
  - apply (mapped_ram m n); (done || lia).
Qed.

(** An aligned load from a known stretch of memory. *)
Lemma load_window m a bs off n :
  read_bytes m a (length bs) = Some bs -> (off + n <= length bs)%nat -> (a + Z.of_nat off) mod Z.of_nat n = 0 ->
  load n (a + Z.of_nat off) m = Ret (le_combine (take n (drop off bs))) m.
Proof.
  intros Hr Hl Ha. apply load_spec; [done|]. replace (length bs) with (off + (n + (length bs - off - n)))%nat in Hr by lia.
  by apply read_bytes_window in Hr.
Qed.

Section Reading.
Context {F FIL : Type} {Fs : FatFs F FIL} {Laws : FatFsLaws F FIL} (fn content : list Z) {Vol : VolumeFile F FIL fn content}.
Implicit Types s : vm F FIL.
Hypothesis Hsize : Z.of_nat (length content) < 2 ^ 32.

(** Handle [i] is open on the file, with one user, and no lock is held. *)
Definition reading (i : nat) s : Prop :=
  idle (vfs s) /\ bytes_ok (vmem s) /\
  exists f p, files (vfs s) !! i = Some f /\ refcnt f = 2 /\ opened (fd f) (fat (vfs s)) p.

Lemma pread_at i s buf size ofs :
  reading i s -> io_buffer (vmem s) buf size -> 0 <= ofs -> ofs + size <= Z.of_nat (length content) ->
  exists s', pread i buf size ofs s = Ret size s' /\ reading i s' /\ s' = set_vfs (vfs s') s /\
    vmem s' = write_bytes (vmem s) buf (take (Z.to_nat size) (drop (Z.to_nat ofs) content)).
Proof.
  intros (Hi & Hb & f & p & Hf & Hr & Ho) Hbuf H0 H1. pose proof Hbuf as (_ & Hz & _).
  destruct (vf_seek (fd f) (fat (vfs s)) p ofs Ho ltac:(lia)) as (fd1 & fs1 & E1 & O1).
  destruct (vf_read fd1 fs1 ofs size O1 ltac:(lia)) as (fd2 & fs2 & E2 & O2). cbv zeta in E2, O2.
  set (data := take _ _) in *.
  assert (Ld : Z.of_nat (length data) = size) by (unfold data; rewrite length_take, length_drop; lia). rewrite Ld in E2.
  pose proof (file_pread_at (vfs s) i f buf size ofs fd1 fs1 0 data size fd2 fs2 Hi Hf Hb Hbuf) as E.
  rewrite wrapu_small in E by (unfold inu; lia). specialize (E E1 E2).
  eexists. split; [unfold pread, on_files, zoom; rewrite E; reflexivity|]. split; [|split; [by destruct s|done]].
  split_and!; [exact Hi|apply bytes_ok_write; [exact Hb|by apply Forall_take, Forall_drop, vf_bytes]|].
  exists (File fd2 (offset f) (refcnt f)), (ofs + Z.of_nat (length data)). split; [|done]. by eapply insert_file.
Qed.
End Reading.

(** ** What an ELF file says *)

(** The [n]-byte field at offset [off]. *)
Definition field (content : list Z) (off : Z) (n : nat) : Z := le_combine (take n (drop (Z.to_nat off) content)).
Definition elf_entry (c : list Z) : Z := field c 24 8.
Definition elf_phoff (c : list Z) : Z := field c 32 8.
Definition elf_phnum (c : list Z) : Z := field c 56 2.
Definition elf_phdr (c : list Z) (i : Z) : Elf64_Phdr :=
  let o := elf_phoff c + PHDR_SIZE * i in
  Phdr (field c o 4) (field c (o + 4) 4) (field c (o + 8) 8) (field c (o + 16) 8) (field c (o + 24) 8)
       (field c (o + 32) 8) (field c (o + 40) 8) (field c (o + 48) 8).

(** The memory image of a segment. *)
Definition segment_bytes (c : list Z) (p : Elf64_Phdr) : list Z :=
  take (Z.to_nat (p_filesz p)) (drop (Z.to_nat (p_offset p)) c) ++ replicate (Z.to_nat (p_memsz p - p_filesz p)) 0.

(** The lowest address of a segment. *)
Definition lowest (c : list Z) (i : Z) (v : Z) : Z :=
  let p := elf_phdr c i in if loadable p && (p_vaddr p <? v) then p_vaddr p else v.
Fixpoint lowest_of (c : list Z) (k : nat) : Z :=
  match k with O => u64 (-1) | S k' => lowest c (Z.of_nat k') (lowest_of c k') end.
Fixpoint highest_of (c : list Z) (bias : Z) (k : nat) (v : Z) : Z :=
  match k with
  | O => v
  | S k' =>
      let p := elf_phdr c (Z.of_nat k') in
      let last := u64 (u64 (p_vaddr p + bias) + p_memsz p) in
      highest_of c bias k' (if loadable p && (v <? last) then last else v)
  end.

Lemma field_window c p off n total :
  0 <= p -> (off + n <= total)%nat ->
  le_combine (take n (drop off (take total (drop (Z.to_nat p) c)))) = field c (p + Z.of_nat off) n.
Proof.
  intros Hp Hn. unfold field. f_equal. rewrite take_drop_commute, take_take, Nat.min_l by lia.
  rewrite <- take_drop_commute, drop_drop. do 2 f_equal. lia.
Qed.

Lemma field_range c off n : Forall (inu 8) c -> (Z.to_nat off + n <= length c)%nat -> inu (8 * Z.of_nat n) (field c off n).
Proof.
  intros Hc Hl. unfold field.
  pose proof (le_combine_range (take n (drop (Z.to_nat off) c))) as R. rewrite length_take, length_drop, Nat.min_l in R by lia.
  apply R. by apply Forall_take, Forall_drop.
Qed.

Section Image.
Context {F FIL : Type} {Fs : FatFs F FIL} {Laws : FatFsLaws F FIL} (fn content : list Z) {Vol : VolumeFile F FIL fn content}.
Implicit Types s : vm F FIL.
Variable lay : layout.
Variable eh64 ph : Z.

Lemma on_load n a v s : load n a (vmem s) = Ret v (vmem s) -> on_memory (load n a) s = Ret v s.
Proof. intros E. rewrite (on_memory_ret _ _ _ _ E). by rewrite with_mem_self. Qed.

(** The program headers of the file are in memory at [ph]. *)
Definition headers_at (m : memory) : Prop :=
  let tb := take (Z.to_nat (PHDR_SIZE * elf_phnum content)) (drop (Z.to_nat (elf_phoff content)) content) in
  read_bytes m ph (length tb) = Some tb.

Record headers_ok : Prop := {
  ho_num : 0 <= elf_phnum content < 2 ^ 16;
  ho_off : 0 <= elf_phoff content;
  ho_len : elf_phoff content + PHDR_SIZE * elf_phnum content <= Z.of_nat (length content);
  ho_align : ph mod 8 = 0;
  ho_range : 0 <= ph /\ ph + PHDR_SIZE * elf_phnum content < 2 ^ 63;
}.

Lemma header_field s i off n :
  headers_ok -> headers_at (vmem s) -> 0 <= i < elf_phnum content -> 0 <= off -> off + Z.of_nat n <= PHDR_SIZE ->
  off mod Z.of_nat n = 0 -> (n = 4 \/ n = 8)%nat ->
  on_memory (load n (u64 (u64 (ph + PHDR_SIZE * i) + off))) s = Ret (field content (elf_phoff content + PHDR_SIZE * i + off) n) s.
Proof.
  intros [Hn Ho Hl Ha [R0 R1]] Hm Hi H0 Hoff Hmod Hw. unfold headers_at in Hm. set (tb := take _ _) in Hm.
  unfold PHDR_SIZE in *. rewrite (wrapu_small _ (ph + 56 * i)) by (unfold inu; lia). rewrite wrapu_small by (unfold inu; lia).
  assert (Lt : length tb = Z.to_nat (56 * elf_phnum content)) by (unfold tb; rewrite length_take, length_drop; lia).
  apply on_load. replace (ph + 56 * i + off) with (ph + Z.of_nat (Z.to_nat (56 * i + off))) by lia.
  rewrite (load_window _ _ _ _ _ Hm); [|lia|].
  - unfold tb. rewrite field_window by lia. do 2 f_equal. lia.
  - rewrite Z2Nat.id by lia. replace (ph + (56 * i + off)) with (off + (ph + 7 * i * 8)) by lia.
    assert (Q : (ph + 7 * i * 8) mod 8 = 0) by (by rewrite Z.mod_add by lia). apply Z.mod_divide in Q as [q ->]; [|lia].
    destruct Hw as [-> | ->].
    + change (Z.of_nat 4) with 4 in *. replace (off + q * 8) with (off + q * 2 * 4) by lia. by rewrite Z.mod_add.
    + change (Z.of_nat 8) with 8 in *. by rewrite Z.mod_add.
Qed.

Lemma get_phdr_at s i :
  headers_ok -> headers_at (vmem s) -> 0 <= i < elf_phnum content -> get_phdr ph i s = Ret (elf_phdr content i) s.
Proof.
  intros Ho Hm Hi. unfold get_phdr, bind.
  pose proof (header_field s i 0 4 Ho Hm Hi) as E0. rewrite !Z.add_0_r, wrapu_idem in E0 by lia.
  rewrite E0 by (lia || done || by left).
  rewrite (header_field s i 4 4) by (lia || done || by left || by right).
  do 6 (rewrite (header_field s i) by (unfold PHDR_SIZE; lia || done || by left || by right)). done.
Qed.

Lemma min_vaddr_at s : headers_ok -> headers_at (vmem s) ->
  min_vaddr_loop (Z.to_nat (elf_phnum content)) ph 0 (u64 (-1)) s = Ret (lowest_of content (Z.to_nat (elf_phnum content))) s.
Proof.
  intros Ho Hm. enough (G : forall k j, (j + k = Z.to_nat (elf_phnum content))%nat ->
    min_vaddr_loop k ph (Z.of_nat j) (lowest_of content j) s = Ret (lowest_of content (j + k)) s).
  { apply (G (Z.to_nat (elf_phnum content)) 0%nat). lia. }
  induction k as [|k IH]; intros j Hj; cbn [min_vaddr_loop]; [by rewrite Nat.add_0_r|].
  unfold bind. rewrite get_phdr_at by (done || lia). replace (Z.of_nat j + 1) with (Z.of_nat (S j)) by lia.
  rewrite <- Nat.add_succ_comm. apply (IH (S j)). lia.
Qed.

(** *** One segment *)
Variable lo ffp : Z.
Definition paddr (p : Elf64_Phdr) : Z := p_vaddr p - lo + ffp.
Definition prepad (p : Elf64_Phdr) : Z := p_vaddr p mod 4096.

(** Where the image goes: a superpage-aligned place above the boot loader. *)
Record place_ok (top : Z) : Prop := {
  pl_lo : lo mod 2 ^ 21 = 0 /\ 2 ^ 64 - 2 ^ 38 <= lo < 2 ^ 64;
  pl_ffp : ffp mod 2 ^ 21 = 0 /\ 0 < ffp;
  pl_top : ffp < top /\ top < 2 ^ 39;
  pl_head : ph + PHDR_SIZE * elf_phnum content <= ffp;
}.

(** A segment that [load_elf] accepts: it lies in the file and, by the check in the code,
    twice its address and its size together are below the limit. *)
Record segment_ok (top : Z) (p : Elf64_Phdr) : Prop := {
  sg_size : 0 <= p_filesz p <= p_memsz p;
  sg_file : 0 <= p_offset p /\ p_offset p + p_filesz p <= Z.of_nat (length content);
  sg_addr : lo <= p_vaddr p /\ p_vaddr p + p_memsz p <= 2 ^ 64;
  sg_check : (paddr p - prepad p) + (paddr p + p_memsz p) <= top;
}.

Record image_state (i : nat) (top : Z) s : Prop := {
  is_reading : reading fn content i s;
  is_headers : headers_at (vmem s);
  is_ram : mapped (vmem s) 0 (Z.to_nat (mem_size s)) /\ top + 4 <= mem_size s < 2 ^ 40;
  is_current : is_supervisor (current s) <> 0 /\ first_free_paddr (current s) = ffp /\ mmap_max (current s) = top;
}.

Lemma aligned_page x q : 0 <= q -> x mod 2 ^ 21 = 0 -> x <= q -> x <= q - q mod 4096.
Proof.
  intros Hq Hx Hle. apply Z.mod_divide in Hx as [c ->]; [|lia]. pose proof (Z.div_mod q 4096). pose proof (Z.mod_pos_bound q 4096).
  replace (c * 2 ^ 21) with (4096 * (c * 512)) in * by lia. assert (c * 512 <= q / 4096) by (apply Z.div_le_lower_bound; lia). lia.
Qed.

Lemma place_segment top p : place_ok top -> segment_ok top p ->
  u64 (p_vaddr p + u64 (ffp - lo)) = paddr p /\ 0 <= prepad p < 4096 /\ ffp <= paddr p - prepad p /\ paddr p + p_memsz p < top /\
  p_memsz p < 2 ^ 39.
Proof.
  intros [[L0 L1] [F0 F1] [T0 T1] _] [Sz Fl [A0 A1] Ck]. assert (0 <= prepad p < 4096) by (unfold prepad; apply Z.mod_pos_bound; lia).
  assert (Hlo : lo <= p_vaddr p - prepad p) by (apply aligned_page; lia).
  assert (E : u64 (p_vaddr p + u64 (ffp - lo)) = paddr p).
  { rewrite wrapu_add_r by lia. unfold paddr in *. rewrite <- (wrapu_small 64 (p_vaddr p - lo + ffp)) by (unfold inu; lia). f_equal. lia. }
  unfold paddr in *. split_and!; try done; lia.
Qed.

Lemma headers_kept top t len m m' :
  place_ok top -> headers_ok -> ffp <= t -> 0 <= len -> headers_at m -> same_outside t len m m' -> headers_at m'.
Proof.
  intros P [Hn Ho Hl Ha [R0 R1]] Ht Hlen Hh Hs. unfold headers_at in *. set (tb := take _ _) in *.
  assert (Lt : length tb = Z.to_nat (PHDR_SIZE * elf_phnum content)) by (unfold tb; rewrite length_take, length_drop; unfold PHDR_SIZE in *; lia).
  pose proof (pl_head _ P). unfold PHDR_SIZE in *. rewrite Hs; [done|unfold fits; lia|unfold apart; lia].
Qed.

(** Filling memory keeps the file open. *)
Lemma reading_memset i s a n :
  reading fn content i s -> mapped (vmem s) a (Z.to_nat n) -> 0 <= a -> 0 <= n -> a + n < 2 ^ 64 ->
  let m' := write_bytes (vmem s) a (replicate (Z.to_nat n) 0) in
  on_memory (memset a 0 n) s = Ret a (with_mem m' s) /\ reading fn content i (with_mem m' s).
Proof.
  intros (Hi & Hb & Hf) Hm H0 H1 H2 m'. split.
  - apply on_memory_ret. by apply memset_spec.
  - split_and!; [exact Hi| |exact Hf]. apply bytes_ok_write; [exact Hb|]. apply Forall_replicate. vm_decide.
Qed.

(** The three writes of a segment leave its image. *)
Lemma segment_written m a pre data zeros :
  let m1 := write_bytes m a data in
  let m2 := write_bytes m1 (a - Z.of_nat pre) (replicate pre 0) in
  let m3 := write_bytes m2 (a + Z.of_nat (length data)) (replicate zeros 0) in
  0 <= a - Z.of_nat pre -> a + Z.of_nat (length data + zeros) <= 2 ^ 64 ->
  same_outside (a - Z.of_nat pre) (Z.of_nat (pre + length data + zeros)) m m3 /\
  read_bytes m3 a (length data + zeros) = Some (data ++ replicate zeros 0) /\
  read_bytes m3 (a - Z.of_nat pre) pre = Some (replicate pre 0).
Proof.
  intros m1 m2 m3 H0 H1. split; [|split].
  - eapply same_outside_trans; [|eapply same_outside_trans]; apply same_outside_write; rewrite ?length_replicate; lia.
  - apply read_bytes_join.
    + unfold m3. rewrite read_write_apart by (rewrite ?length_replicate; unfold fits, apart; lia).
      unfold m2. rewrite read_write_apart by (rewrite ?length_replicate; unfold fits, apart; lia).
      apply read_write_bytes. lia.
    + pose proof (read_write_bytes (replicate zeros 0) m2 (a + Z.of_nat (length data))) as R. rewrite length_replicate in R. apply R. lia.
  - unfold m3. rewrite read_write_apart by (rewrite ?length_replicate; unfold fits, apart; lia).
    pose proof (read_write_bytes (replicate pre 0) m1 (a - Z.of_nat pre)) as R. rewrite length_replicate in R. apply R. lia.
Qed.

Lemma load_segment_at top h k s :
  let p := elf_phdr content k in
  place_ok top -> headers_ok -> Z.of_nat (length content) < 2 ^ 32 -> 0 <= k < elf_phnum content -> segment_ok top p -> image_state h top s ->
  exists s', load_supervisor_segment h ph k (paddr p) (prepad p) p s = Ret tt s' /\ image_state h top s' /\ s' = set_vfs (vfs s') s /\
    same_outside (paddr p - prepad p) (prepad p + p_memsz p) (vmem s) (vmem s') /\
    read_bytes (vmem s') (paddr p) (length (segment_bytes content p)) = Some (segment_bytes content p) /\
    read_bytes (vmem s') (paddr p - prepad p) (Z.to_nat (prepad p)) = Some (replicate (Z.to_nat (prepad p)) 0).
Proof.
  intros p P Ho Hc Hk Sg [Rd Hh [Ram Mem] [Sup [Ff Mm]]]. pose proof (place_segment top p P Sg) as (_ & Hp & Hlow & Htop & Hms).
  pose proof P as [_ [_ F1] [_ T1] _]. pose proof Sg as [Sz Fl _ Ck].
  set (a := paddr p) in *. set (pre := prepad p) in *. set (fsz := p_filesz p) in *. set (msz := p_memsz p) in *.
  (* the read *)
  destruct (pread_at fn content Hc h s a fsz (p_offset p) Rd) as (s1 & E1 & Rd1 & St1 & M1);
    [apply (ram_buffer _ (mem_size s)); (done || lia)|lia|unfold fsz; lia|].
  set (data := take _ _) in M1.
  assert (Ld : Z.of_nat (length data) = fsz) by (unfold data; rewrite length_take, length_drop; unfold fsz in *; lia).
  assert (Ram1 : forall b n, 0 <= b -> 0 <= n -> b + n <= top -> mapped (vmem s1) b (Z.to_nat n)).
  { intros b n B0 B1 B2. rewrite M1. apply mapped_write. apply (mapped_ram _ (mem_size s)); (done || lia). }
  (* the head of the page and the end *)
  destruct (reading_memset h s1 (a - pre) pre Rd1 (Ram1 (a - pre) pre ltac:(lia) ltac:(lia) ltac:(lia)) ltac:(lia) ltac:(lia) ltac:(lia)) as [E2 Rd2].
  set (m2 := write_bytes (vmem s1) _ _) in *. set (s2 := with_mem m2 s1) in *.
  destruct (reading_memset h s2 (a + fsz) (msz - fsz) Rd2) as [E3 Rd3];
    [change (vmem s2) with m2; apply mapped_write, Ram1; lia|lia|lia|lia|].
  change (vmem s2) with m2 in *. set (m3 := write_bytes m2 _ _) in *. set (s3 := with_mem m3 s2) in *.
  pose proof (segment_written (vmem s) a (Z.to_nat pre) data (Z.to_nat (msz - fsz))) as W. cbv zeta in W.
  rewrite !Z2Nat.id, Ld, <- M1 in W by lia. fold m2 m3 in W.
  destruct W as (So & Wr & Wh); [lia|lia|]. replace (Z.of_nat (Z.to_nat pre + length data + Z.to_nat (msz - fsz))) with (pre + msz) in So by lia.
  assert (So1 : same_outside (a - pre) (pre + msz) (vmem s) (vmem s1)) by (rewrite M1; apply same_outside_write; lia).
  assert (So2 : same_outside (a - pre) (pre + msz) (vmem s) m2).
  { eapply same_outside_trans; [exact So1|]. apply same_outside_write; rewrite ?length_replicate; lia. }
  assert (Hk1 : forall m', same_outside (a - pre) (pre + msz) (vmem s) m' -> headers_at m').
  { intros m' So'. eapply (headers_kept top); [done|done| | |exact Hh|exact So']; lia. }
  exists s3. split_and!.
  - unfold load_supervisor_segment. fold a pre msz fsz. rewrite (wrapu_small _ (a - pre)), (wrapu_small _ (a + msz)) by (unfold inu; lia).
    unfold bind at 1. unfold __valid_user_range. rewrite (wrapu_small _ (a - pre + (a + msz))) by (unfold inu; lia).
    rewrite (proj2 (Z.ltb_ge _ _)) by lia. unfold bind at 1, gets at 1. rewrite Ff, Mm, (proj2 (Z.leb_le _ _)), (proj2 (Z.leb_le _ _)) by lia.
    unfold ret at 1. cbn [andb]. unfold bind at 1, ret at 1. unfold bind at 1. rewrite E1.
    unfold bind at 1. rewrite get_phdr_at by (done || (apply Hk1; exact So1)). fold p fsz. rewrite wraps_small by lia.
    rewrite Z.ltb_irrefl. unfold bind at 1, ret at 1. unfold bind at 1. rewrite E2.
    unfold bind at 1. rewrite get_phdr_at by (done || (apply Hk1; exact So2)). fold p fsz msz.
    rewrite (wrapu_small _ (a + fsz)), (wrapu_small _ (msz - fsz)) by (unfold inu; lia). unfold bind. by rewrite E3.
  - constructor; [exact Rd3|apply Hk1; exact So| |].
    + change (mem_size s3) with (mem_size s1). assert (mem_size s1 = mem_size s) as -> by (rewrite St1; done).
      split; [|exact Mem]. change (vmem s3) with m3. unfold m3, m2. rewrite M1. by do 3 apply mapped_write.
    + change (current s3) with (current s1). assert (current s1 = current s) as -> by (rewrite St1; done). done.
  - unfold s3, s2. rewrite St1. by destruct s as [??????????[]].
  - exact So.
  - unfold segment_bytes. fold msz fsz data. rewrite length_app, length_replicate. exact Wr.
  - exact Wh.
Qed.

(** *** All segments *)
Definition seg (k : nat) : Elf64_Phdr := elf_phdr content (Z.of_nat k).

(** The segments of the file are acceptable and in ascending order, without overlap. *)
Record segments_ok (top : Z) (n : nat) : Prop := {
  ss_each k : (k < n)%nat -> loadable (seg k) = true -> segment_ok top (seg k);
  ss_order i j : (i < j < n)%nat -> loadable (seg i) = true -> loadable (seg j) = true ->
    p_vaddr (seg i) + p_memsz (seg i) <= p_vaddr (seg j);
}.

Definition placed (m : memory) (k : nat) : Prop :=
  loadable (seg k) = true ->
  read_bytes m (paddr (seg k)) (length (segment_bytes content (seg k))) = Some (segment_bytes content (seg k)).

(** What loading a segment writes: its image and the page head in front of it. *)
Definition outside_segments (n : nat) (b : Z) (m : nat) : Prop :=
  forall k, (k < n)%nat -> loadable (seg k) = true ->
    apart b m (paddr (seg k) - prepad (seg k)) (Z.to_nat (prepad (seg k) + p_memsz (seg k))).

(** The page head in front of a segment is zero above the segments below it. *)
Definition head_clear (m : memory) (k : nat) : Prop :=
  loadable (seg k) = true -> forall b n,
  paddr (seg k) - prepad (seg k) <= b -> b + Z.of_nat n <= paddr (seg k) ->
  (forall i, (i < k)%nat -> loadable (seg i) = true -> paddr (seg i) + p_memsz (seg i) <= b) ->
  read_bytes m b n = Some (replicate n 0).

Lemma segment_length top p : segment_ok top p -> length (segment_bytes content p) = Z.to_nat (p_memsz p).
Proof. intros [Sz Fl _ _]. unfold segment_bytes. rewrite length_app, length_take, length_drop, length_replicate. lia. Qed.

Lemma segment_loop_at top h flags n : forall s v,
  place_ok top -> headers_ok -> Z.of_nat (length content) < 2 ^ 32 -> Z.of_nat n <= elf_phnum content -> segments_ok top n -> image_state h top s ->
  exists s', segment_loop lay n h ph (u64 (ffp - lo)) flags v s = Ret (highest_of content (u64 (ffp - lo)) n v) s' /\
    image_state h top s' /\ s' = set_vfs (vfs s') s /\ same_outside ffp (top - ffp) (vmem s) (vmem s') /\
    (forall k, (k < n)%nat -> placed (vmem s') k /\ head_clear (vmem s') k) /\
    (forall b m, fits b m -> outside_segments n b m -> read_bytes (vmem s') b m = read_bytes (vmem s) b m).
Proof.
  induction n as [|n IH]; intros s v P Ho Hc Hn [Se Sord] Is.
  { exists s. split_and!; try done; [by destruct s|]. intros k Hk. lia. }
  assert (Sn : segments_ok top n) by (constructor; [intros k Hk; apply Se; lia|intros i j Hij; apply Sord; lia]).
  pose proof (is_headers _ _ _ Is) as Hh. cbn [segment_loop highest_of]. unfold bind at 1. rewrite get_phdr_at by (done || lia).
  fold (seg n). destruct (loadable (seg n)) eqn:Ld; cbn [andb].
  - pose proof (Se n ltac:(lia) Ld) as Sg. destruct (place_segment top (seg n) P Sg) as (Ea & Hp & Hlow & Htop & _).
    pose proof P as [_ [_ F1] [_ T1] _]. pose proof (sg_size _ _ Sg) as Sz.
    destruct (load_segment_at top h (Z.of_nat n) s P Ho Hc ltac:(lia) Sg Is) as (s1 & E1 & Is1 & St1 & So1 & Pl1 & Hd1). fold (seg n) in *.
    set (v' := if v <? _ then _ else v).
    destruct (IH s1 v' P Ho Hc ltac:(lia) Sn Is1) as (s2 & E2 & Is2 & St2 & So2 & Pl2 & Fr2).
    exists s2. split_and!; [|done| | | |].
    + unfold bind at 1, bind at 1, gets at 1. rewrite (proj2 (Z.eqb_neq _ _) (proj1 (is_current _ _ _ Is))). cbn [negb].
      rewrite Ea. change (p_vaddr (seg n) mod RISCV_PGSIZE) with (prepad (seg n)). unfold bind at 1. rewrite E1. unfold ret at 1.
      exact E2.
    + rewrite St2, St1. done.
    + eapply same_outside_trans; [|exact So2]. intros b m Hb Ha. apply So1; [done|]. unfold apart in *. lia.
    + intros k Hk. destruct (decide (k = n)) as [->|N]; [|apply Pl2; lia]. split.
      * intros _. rewrite Fr2; [exact Pl1| |].
        -- rewrite (segment_length top) by done. unfold fits. lia.
        -- intros i Hi Li. pose proof (Sord i n ltac:(lia) Li Ld). pose proof (sg_size _ _ (Se i ltac:(lia) Li)).
           destruct (place_segment top (seg i) P (Se i ltac:(lia) Li)) as (_ & Hpi & _). unfold apart, paddr. lia.
      * intros _ b m B1 B2 Bl. rewrite Fr2; [|unfold fits; lia|].
        -- replace b with (paddr (seg n) - prepad (seg n) + Z.of_nat (Z.to_nat (b - (paddr (seg n) - prepad (seg n))))) by lia.
           apply (zero_window _ _ _ _ _ Hd1). lia.
        -- intros i Hi Li. specialize (Bl i Hi Li). pose proof (sg_size _ _ (Se i ltac:(lia) Li)).
           destruct (place_segment top (seg i) P (Se i ltac:(lia) Li)) as (_ & Hpi & _). unfold apart. lia.
    + intros b m Hb Ha. rewrite Fr2; [|done|intros k Hk; apply Ha; lia].
      pose proof (Ha n ltac:(lia) Ld) as An. apply So1; [done|]. unfold apart in *. lia.
  - destruct (IH s v P Ho Hc ltac:(lia) Sn Is) as (s2 & E2 & Is2 & St2 & So2 & Pl2 & Fr2).
    exists s2. split_and!; try done.
    + intros k Hk. destruct (decide (k = n)) as [->|N]; [split; intros L'; congruence|apply Pl2; lia].
    + intros b m Hb Ha. apply Fr2; [done|]. intros k Hk. apply Ha. lia.
Qed.

(** *** The headers *)
Definition header_at (m : memory) : Prop := read_bytes m eh64 (Z.to_nat EHDR_SIZE) = Some (take (Z.to_nat EHDR_SIZE) content).

Record ehdr_ok : Prop := {
  eo_len : EHDR_SIZE <= Z.of_nat (length content) < 2 ^ 32;
  eo_align : eh64 mod 8 = 0;
  eo_range : 0 <= eh64 /\ eh64 + EHDR_SIZE < 2 ^ 63;
}.

Lemma ehdr_field s off n :
  ehdr_ok -> header_at (vmem s) -> 0 <= off -> off + Z.of_nat n <= EHDR_SIZE -> (0 < n)%nat -> (Z.of_nat n | 8) -> off mod Z.of_nat n = 0 ->
  on_memory (load n (u64 (eh64 + off))) s = Ret (field content off n) s.
Proof.
  intros [Hl Ha [R0 R1]] Hm H0 Hoff Hn [c Hc] Hmod. unfold header_at, EHDR_SIZE in *. rewrite wrapu_small by (unfold inu; lia).
  assert (Lt : length (take (Z.to_nat 64) content) = Z.to_nat 64) by (rewrite length_take; lia).
  rewrite <- Lt in Hm at 1. apply on_load. replace off with (Z.of_nat (Z.to_nat off)) at 1 by lia.
  rewrite (load_window _ _ _ _ _ Hm); [|lia|].
  - replace (take (Z.to_nat 64) content) with (take (Z.to_nat 64) (drop (Z.to_nat 0) content)) by done. rewrite field_window by lia.
    do 2 f_equal. lia.
  - rewrite Z2Nat.id by lia. apply Z.mod_divide in Ha as [q ->]; [|lia]. apply Z.mod_divide in Hmod as [r ->]; [|lia].
    replace (q * 8 + r * Z.of_nat n) with ((q * c + r) * Z.of_nat n) by (rewrite Z.mul_add_distr_r, <- Z.mul_assoc, <- Hc; done). apply Z.mod_mul. lia.
Qed.

Definition magic : list Z := [0x7F; 69; 76; 70; 2].

Lemma is_elf64_at s : ehdr_ok -> header_at (vmem s) -> take 5 content = magic -> IS_ELF64 eh64 s = Ret true s.
Proof.
  intros Ho Hm Hg. destruct content as [|b0 [|b1 [|b2 [|b3 [|b4 rest]]]]] eqn:Ec; try (by cbn in Hg).
  cbn in Hg. injection Hg as -> -> -> -> ->. rewrite <- Ec in *.
  assert (E : forall i b, 0 <= i < 5 -> content !! Z.to_nat i = Some b -> e_ident eh64 i s = Ret b s).
  { intros i b Hi Hb. unfold e_ident. rewrite ehdr_field; try done; try (unfold EHDR_SIZE; lia); [|by exists 8|by apply Z.mod_1_r].
    unfold field. rewrite (drop_S _ _ _ Hb). cbn [take le_combine]. rewrite take_0. cbn [le_combine]. f_equal. lia. }
  unfold IS_ELF64.
  unfold bind at 1. rewrite (E 0 0x7F) by (lia || rewrite Ec; reflexivity). change (negb (0x7F =? 0x7F)) with false. cbv iota.
  unfold bind at 1. rewrite (E 1 69) by (lia || rewrite Ec; reflexivity). change (negb (69 =? 69)) with false. cbv iota.
  unfold bind at 1. rewrite (E 2 76) by (lia || rewrite Ec; reflexivity). change (negb (76 =? 76)) with false. cbv iota.
  unfold bind at 1. rewrite (E 3 70) by (lia || rewrite Ec; reflexivity). change (negb (70 =? 70)) with false. cbv iota.
  unfold bind. rewrite (E 4 2) by (lia || rewrite Ec; reflexivity). reflexivity.
Qed.

(** *** The whole load *)

(** Only [current], the file layer and memory differ. *)
Definition only_loaded s s' : Prop := s' = set_current (current s') (set_vfs (vfs s') s).

Lemma only_loaded_refl s : only_loaded s s.
Proof. by destruct s. Qed.
Lemma only_loaded_trans s1 s2 s3 : only_loaded s1 s2 -> only_loaded s2 s3 -> only_loaded s1 s3.
Proof. intros E1 E2. unfold only_loaded in *. rewrite E2 at 1. rewrite E1. done. Qed.
Lemma only_loaded_vfs s s' : s' = set_vfs (vfs s') s -> only_loaded s s'.
Proof. intros E. unfold only_loaded. rewrite E. by destruct s. Qed.
Lemma only_loaded_current c s : only_loaded s (set_current c s).
Proof. by destruct s. Qed.

(** A supervisor image on the volume, and a machine with room for it. *)
Record bootable (h : nat) (top : Z) s : Prop := {
  bt_ehdr : ehdr_ok;
  bt_headers : headers_ok;
  bt_magic : take 5 content = magic;
  bt_super : 2 ^ 63 <= elf_entry content;
  bt_lo : lo = ROUNDDOWN (lowest_of content (Z.to_nat (elf_phnum content))) SUPERPAGE_SIZE;
  bt_ffp : ffp = ROUNDUP (first_free_paddr (current s)) SUPERPAGE_SIZE;
  bt_place : place_ok top;
  bt_segments : segments_ok top (Z.to_nat (elf_phnum content));
  bt_room : phdr (current s) = ph /\ PHDR_SIZE * elf_phnum content <= phdr_size (current s);
  bt_locals : eh64 + EHDR_SIZE <= ffp /\ apart eh64 (Z.to_nat EHDR_SIZE) ph (Z.to_nat (PHDR_SIZE * elf_phnum content));
  bt_mem : bytes_ok (vmem s) /\ mapped (vmem s) 0 (Z.to_nat (mem_size s)) /\ top + 4 <= mem_size s < 2 ^ 40 /\ mmap_max (current s) = top;
  bt_files : idle (vfs s) /\ length (files (vfs s)) = MAX_FILES /\ holds (fat (vfs s)) /\ (h < MAX_FILES)%nat /\
    (exists f, files (vfs s) !! h = Some f /\ refcnt f = 0) /\
    (forall q g, (q < h)%nat -> files (vfs s) !! q = Some g -> refcnt g <> 0);
}.

Lemma open_at h top s : bootable h top s ->
  exists s', on_files (file_open fn 0) s = Ret h s' /\ reading fn content h s' /\ s' = set_vfs (vfs s') s /\ vmem s' = vmem s.
Proof.
  intros B. destruct (bt_files _ _ _ B) as (Hi & Hl & Hf & Hh & (f & Ef & Er) & Hq).
  destruct (vf_open (fd f) (fat (vfs s)) Hf) as (fd' & fs' & E & O).
  pose proof (file_open_at (vfs s) h f fn 0 fd' fs' Hl Hh Ef Er Hq E) as Eo.
  eexists. split; [unfold on_files, zoom; rewrite Eo; reflexivity|]. split; [|split; [by destruct s|done]].
  split_and!; [exact Hi|apply (bt_mem _ _ _ B)|]. exists (File fd' (offset f) 2), 0. split; [|done]. by eapply insert_file.
Qed.

(** What [load_elf] leaves in [current]. *)
Definition loaded_info (c : elf_info) : elf_info :=
  let bias := u64 (ffp - lo) in
  let hi := highest_of content bias (Z.to_nat (elf_phnum content)) 0 in
  set_cur_brk_min hi (set_cur_first_vaddr_after_user (ROUNDUP (u64 (hi - bias)) RISCV_PGSIZE)
    (set_cur_first_user_vaddr lo (set_cur_bias bias (set_cur_entry (elf_entry content)
      (set_cur_first_free_paddr ffp (set_cur_is_supervisor 1 (set_cur_phent PHDR_SIZE
        (set_cur_phnum (elf_phnum content) (set_cur_elf64 1 c))))))))).

(** Reading both headers. *)
Lemma headers_read h top s s0 :
  bootable h top s -> reading fn content h s0 -> s0 = set_vfs (vfs s0) s -> vmem s0 = vmem s ->
  exists s1 s2, pread h eh64 EHDR_SIZE 0 s0 = Ret EHDR_SIZE s1 /\ header_at (vmem s1) /\ only_loaded s s1 /\ current s1 = current s /\
    let c1 := set_cur_elf64 1 (current s) in
    pread h ph (PHDR_SIZE * elf_phnum content) (elf_phoff content) (set_current c1 s1) = Ret (PHDR_SIZE * elf_phnum content) s2 /\
    header_at (vmem s2) /\ headers_at (vmem s2) /\ reading fn content h s2 /\ only_loaded s s2 /\ current s2 = c1 /\
    mapped (vmem s2) 0 (Z.to_nat (mem_size s)) /\
    (forall b k, fits b k -> apart b k eh64 (Z.to_nat EHDR_SIZE) -> apart b k ph (Z.to_nat (PHDR_SIZE * elf_phnum content)) ->
       read_bytes (vmem s2) b k = read_bytes (vmem s) b k).
Proof.
  intros B Rd St Em. pose proof B as [[El Ea [E0 E1]] [Hn Ho Hl Ha [R0 R1]] _ _ _ _ [_ _ [P0 P1] Pr] _ _ [Le Lap] (_ & Ram & Mem & _) _].
  unfold EHDR_SIZE, PHDR_SIZE in *.
  destruct (pread_at fn content ltac:(lia) h s0 eh64 64 0 Rd) as (s1 & Er1 & Rd1 & St1 & M1); [rewrite Em; apply (ram_buffer _ (mem_size s)); (done || lia)|lia|lia|].
  set (tb := take (Z.to_nat (56 * elf_phnum content)) (drop (Z.to_nat (elf_phoff content)) content)).
  assert (Lt : length tb = Z.to_nat (56 * elf_phnum content)) by (unfold tb; rewrite length_take, length_drop; lia).
  rewrite drop_0 in M1. set (eb := take (Z.to_nat 64) content) in *.
  assert (Lb : length eb = Z.to_nat 64) by (unfold eb; rewrite length_take; lia).
  assert (C1 : current s1 = current s) by (rewrite St1, St; done).
  assert (O1 : only_loaded s s1) by (eapply only_loaded_trans; [by apply only_loaded_vfs|by apply only_loaded_vfs]).
  set (c1 := set_cur_elf64 1 (current s)). set (s1' := set_current c1 s1).
  assert (Ram1 : mapped (vmem s1) 0 (Z.to_nat (mem_size s))) by (rewrite M1, Em; by apply mapped_write).
  destruct (pread_at fn content ltac:(lia) h s1' ph (56 * elf_phnum content) (elf_phoff content) Rd1) as (s2 & Er2 & Rd2 & St2 & M2);
    [apply (ram_buffer _ (mem_size s)); (done || lia)|lia|lia|]. fold tb in M2. change (vmem s1') with (vmem s1) in M2.
  exists s1, s2. split_and!; [exact Er1| |done|done|exact Er2| | |done| | | |].
  - unfold header_at, EHDR_SIZE. rewrite M1. fold eb. rewrite <- Lb at 1. apply read_write_bytes. lia.
  - unfold header_at, EHDR_SIZE. rewrite M2, read_write_apart; [|unfold fits; lia|rewrite Lt; unfold fits; lia|by rewrite Lt].
    rewrite M1. fold eb. rewrite <- Lb at 1. apply read_write_bytes. lia.
  - unfold headers_at, PHDR_SIZE. cbv zeta. fold tb. rewrite M2. apply read_write_bytes. lia.
  - eapply only_loaded_trans; [exact O1|]. eapply only_loaded_trans; [apply (only_loaded_current c1)|by apply only_loaded_vfs].
  - rewrite St2. done.
  - rewrite M2. by apply mapped_write.
  - intros b k Hb A1 A2. rewrite M2, read_write_apart; [|done|rewrite Lt; unfold fits; lia|by rewrite Lt].
    rewrite M1, read_write_apart; [by rewrite Em|done|rewrite Lb; unfold fits; lia|by rewrite Lb].
Qed.

Lemma entry_bit : ehdr_ok -> 2 ^ 63 <= elf_entry content -> elf_entry content < 2 ^ 64 /\ (elf_entry content >>> 63) = 1.
Proof.
  intros [El _ _] Hs. pose proof (field_range content 24 8 vf_bytes) as R. unfold EHDR_SIZE in El. fold (elf_entry content) in R.
  specialize (R ltac:(lia)). unfold inu in R. change (2 ^ (8 * Z.of_nat 8)) with (2 ^ 64) in R. split; [lia|].
  rewrite Z.shiftr_div_pow2 by lia. symmetry. apply (Z.div_unique _ _ _ (elf_entry content - 2 ^ 63)); lia.
Qed.

Lemma load_elf_at h top s : bootable h top s ->
  returns (load_elf lay eh64 fn) s (fun _ s' =>
    only_loaded s s' /\ current s' = loaded_info (current s) /\ idle (vfs s') /\ bytes_ok (vmem s') /\
    mapped (vmem s') 0 (Z.to_nat (mem_size s)) /\ (exists f, files (vfs s') !! h = Some f /\ refcnt f = 0) /\
    (forall k, (k < Z.to_nat (elf_phnum content))%nat -> placed (vmem s') k /\ head_clear (vmem s') k) /\
    (forall b k, fits b k -> apart b k eh64 (Z.to_nat EHDR_SIZE) -> apart b k ph (Z.to_nat (PHDR_SIZE * elf_phnum content)) ->
       outside_segments (Z.to_nat (elf_phnum content)) b k -> read_bytes (vmem s') b k = read_bytes (vmem s) b k)).
Proof.
  intros B. pose proof B as [Eo Ho Mg Su Elo Effp Pl Sg [Eph Room] [Le Lap] (_ & _ & Mem & Mm) _].
  pose proof (ho_num Ho) as Hn. pose proof (ho_off Ho) as Hoff. pose proof (eo_len Eo) as El. pose proof (entry_bit Eo Su) as [_ Eb].
  unfold load_elf. destruct (open_at h top s B) as (s0 & E0 & Rd0 & St0 & M0). eapply returns_step; [exact E0|].
  destruct (headers_read h top s s0 B Rd0 St0 M0) as (s1 & s2 & E1 & H1 & O1 & C1 & E2 & H2 & H2' & Rd2 & O2 & C2 & Ram2 & Fr2).
  set (c1 := set_cur_elf64 1 (current s)) in *.
  eapply returns_step; [exact E1|]. change (EHDR_SIZE <? EHDR_SIZE) with false. cbv iota.
  eapply returns_step; [by apply is_elf64_at|]. eapply returns_step; [reflexivity|].
  eapply returns_step; [reflexivity|]. rewrite C1. fold c1. set (s1' := set_current c1 s1) in *.
  assert (Fld : forall sx off n, header_at (vmem sx) -> 0 <= off -> off + Z.of_nat n <= EHDR_SIZE -> (0 < n)%nat -> (Z.of_nat n | 8) -> off mod Z.of_nat n = 0 ->
    on_memory (load n (u64 (eh64 + off))) sx = Ret (field content off n) sx) by (intros; by apply ehdr_field).
  assert (D2 : (Z.of_nat 2 | 8)) by (by exists 4). assert (D8 : (Z.of_nat 8 | 8)) by (by exists 1).
  eapply returns_step; [apply (Fld s1' 56 2%nat); (done || unfold EHDR_SIZE; lia)|]. fold (elf_phnum content).
  eapply returns_step; [reflexivity|]. change (phdr_size (current s1')) with (phdr_size (current s)). unfold PHDR_SIZE in *.
  rewrite (Z.mul_comm _ 56), (wrapu_small _ (56 * elf_phnum content)) by (unfold inu; lia). rewrite (proj2 (Z.ltb_ge _ _)) by lia.
  eapply returns_step; [reflexivity|]. eapply returns_step; [reflexivity|]. change (phdr (current s1')) with (phdr (current s)). rewrite Eph.
  eapply returns_step; [apply (Fld s1' 32 8%nat); (done || unfold EHDR_SIZE; lia)|]. fold (elf_phoff content).
  eapply returns_step; [exact E2|]. rewrite wraps_small, Z.ltb_irrefl by lia. eapply returns_step; [reflexivity|].
  eapply returns_step; [apply (Fld s2 56 2%nat); (done || unfold EHDR_SIZE; lia)|]. fold (elf_phnum content).
  do 3 (eapply returns_step; [reflexivity|]). rewrite C2. set (c2 := set_cur_phent 56 _). set (s3 := set_current c2 _).
  change (phdr (current s3)) with (phdr (current s)). rewrite Eph.
  eapply returns_step; [apply (Fld s3 24 8%nat); (done || unfold EHDR_SIZE; lia)|]. fold (elf_entry content). rewrite Eb. change (negb (1 =? 0)) with true. cbv iota.
  eapply returns_step; [reflexivity|]. eapply returns_step; [reflexivity|]. 
  match goal with |- returns _ ?x _ => set (s4 := x) end.
  eapply returns_step; [exact (min_vaddr_at s4 Ho H2')|]. rewrite <- Elo.
  eapply returns_step; [apply (Fld s4 16 2%nat); (done || unfold EHDR_SIZE; lia)|]. eapply returns_step; [reflexivity|]. cbn [orb].
  assert (first_free_paddr (current s4) = ffp) as -> by (rewrite Effp; reflexivity).
  eapply returns_step; [apply (Fld s4 24 8%nat); (done || unfold EHDR_SIZE; lia)|]. fold (elf_entry content).
  do 2 (eapply returns_step; [reflexivity|]). match goal with |- returns _ ?x _ => set (s5 := x) end.
  eapply returns_step; [apply (Fld s5 56 2%nat); (done || unfold EHDR_SIZE; lia)|]. fold (elf_phnum content).
  assert (Is : image_state h top s5).
  { constructor; [exact Rd2|exact H2'| |].
    - assert (mem_size s5 = mem_size s) as -> by (change (mem_size s5) with (mem_size s2); rewrite O2; done). split; [exact Ram2|exact Mem].
    - split_and!; [done|by rewrite Effp|exact Mm]. }
  destruct (segment_loop_at top h (MAP_FIXED ||| MAP_PRIVATE ||| MAP_POPULATE) (Z.to_nat (elf_phnum content)) s5 0 Pl Ho ltac:(lia) ltac:(lia) Sg Is) as (s6 & E6 & Is6 & St6 & _ & Pl6 & So6).
  eapply returns_step; [exact E6|]. do 4 (eapply returns_step; [reflexivity|]). match goal with |- returns _ ?x _ => set (s7 := x) end.
  assert (C6 : current s6 = current s5) by (rewrite St6; done).
  destruct Is6 as [(Hi & Hb & f & p & Hf & Hr & _) _ [Ram6 _] _].
  pose proof (file_decref_at h (vfs s7) f 1 Hi Hf ltac:(lia) Hr) as Ed. unfold dropped in Ed. change (1 =? 1) with true in Ed. cbv iota in Ed.
  destruct (f_close (fd f) (fat (vfs s7))) as [[rc fd'] fs'] eqn:Ec.
  eapply returns_intro; [unfold on_files, zoom; rewrite Ed; reflexivity|].
  match goal with |- only_loaded s ?x /\ _ => set (s8 := x) end.
  assert (M8 : vmem s8 = vmem s6) by reflexivity. rewrite M8.
  assert (Ms : mem_size s6 = mem_size s) by (transitivity (mem_size s5); [by rewrite St6|]; change (mem_size s5) with (mem_size s2); by rewrite O2).
  split_and!.
  - eapply only_loaded_trans; [exact O2|]. unfold only_loaded, s8, s7, s5, s4. rewrite St6. done.
  - change (current s8) with (current s7). unfold s7, loaded_info. cbv zeta. cbn [current set_current]. rewrite C6. unfold s5, s4, s3, c2, c1. rewrite Effp. reflexivity.
  - exact Hi.
  - exact Hb.
  - by rewrite <- Ms.
  - exists (File fd' 0 0). split; [|done]. by eapply insert_file.
  - exact Pl6.
  - intros b k Hbk A1 A2 A3. rewrite (So6 b k Hbk A3). by apply Fr2.
Qed.
End Image.

(** ** The loaded image as [supervisor_vm_init] expects it *)
Section Ready.
Context {F FIL : Type} {Fs : FatFs F FIL} {Laws : FatFsLaws F FIL} (fn content : list Z) {Vol : VolumeFile F FIL fn content}.
Implicit Types s : vm F FIL.
Variable eh64 ph lo ffp top : Z.
Let num := Z.to_nat (elf_phnum content).
Let hi := highest_of content (u64 (ffp - lo)) num 0.
Abbreviation endof k := (paddr lo ffp (seg content k) + p_memsz (seg content k)).

Lemma highest_spec n : forall v, place_ok content ph lo ffp top -> segments_ok content lo ffp top n ->
  let x := highest_of content (u64 (ffp - lo)) n v in
  v <= x /\ (forall k, (k < n)%nat -> loadable (seg content k) = true -> endof k <= x) /\
  (x = v \/ exists k, (k < n)%nat /\ loadable (seg content k) = true /\ x = endof k).
Proof.
  induction n as [|n IH]; intros v P [Se So] x.
  { split_and!; [done|intros k Hk; lia|by left]. }
  assert (Sn : segments_ok content lo ffp top n) by (constructor; [intros k Hk; apply Se; lia|intros i j Hij; apply So; lia]).
  subst x. cbn [highest_of]. fold (seg content n). destruct (loadable (seg content n)) eqn:Ld; cbn [andb].
  - pose proof (Se n ltac:(lia) Ld) as Sg. destruct (place_segment content ph lo ffp top (seg content n) P Sg) as (Ea & Hp & Hl & Ht & _).
    pose proof (pl_top _ _ _ _ _ P). pose proof (pl_ffp _ _ _ _ _ P). pose proof (sg_size _ _ _ _ _ Sg). rewrite Ea. rewrite (wrapu_small 64 (endof n)) by (unfold inu; lia).
    set (v' := if v <? _ then _ else v). destruct (IH v' P Sn) as (I1 & I2 & I3). unfold v' in *.
    destruct (Z.ltb_spec v (endof n)); (split_and!; [lia| |]).
    + intros k Hk Lk. destruct (decide (k = n)) as [->|]; [lia|apply I2; (lia || done)].
    + right. destruct I3 as [->|(k & Hk & Lk & ->)]; [exists n|exists k]; split_and!; (lia || done).
    + intros k Hk Lk. destruct (decide (k = n)) as [->|]; [lia|apply I2; (lia || done)].
    + destruct I3 as [->|(k & Hk & Lk & ->)]; [by left|right; exists k; split_and!; (lia || done)].
  - destruct (IH v P Sn) as (I1 & I2 & I3). split_and!; [done| |].
    + intros k Hk Lk. destruct (decide (k = n)) as [->|]; [congruence|apply I2; (lia || done)].
    + destruct I3 as [->|(k & Hk & Lk & ->)]; [by left|right; exists k; split_and!; (lia || done)].
Qed.

(** Room for the tables behind the image, and the image inside what the tables map. *)
Record kernel_fits (_end mem : Z) : Prop := {
  kf_some : exists k, (k < num)%nat /\ loadable (seg content k) = true;
  kf_below k : (k < num)%nat -> loadable (seg content k) = true -> p_vaddr (seg content k) + p_memsz (seg content k) <= 2 ^ 64 - 4096;
  kf_ffp : ffp < 2 ^ 64 - lo;
  kf_tables : hi + 4096 * (num_middle lo + 3) <= mem;
  kf_mapped : hi <= ROUNDDOWN (Z.min mem (2 ^ 64 - ffp - lo)) (2 ^ 21);
  kf_sbi : 1 <= _end <= 512 * 4096;
}.

(** The tables start at the page behind the image. *)
Lemma table_base_after _end mem c :
  place_ok content ph lo ffp top -> segments_ok content lo ffp top num -> kernel_fits _end mem ->
  let B := table_base (loaded_info content lo ffp c) in B mod 4096 = 0 /\ hi <= B < hi + 4096 /\ 0 <= B.
Proof.
  intros P Sg K B. pose proof (highest_spec num 0 P Sg) as (H0 & _ & H1). fold hi in H0, H1.
  assert (exists k, (k < num)%nat /\ loadable (seg content k) = true /\ hi = endof k) as (k & Hk & Lk & Eh).
  { destruct H1 as [E|]; [|done]. destruct (kf_some _ _ K) as (k & Hk & Lk). exfalso.
    pose proof (highest_spec num 0 P Sg) as (_ & I & _). specialize (I k Hk Lk). fold hi in I.
    destruct (place_segment content ph lo ffp top (seg content k) P (ss_each _ _ _ _ _ Sg k Hk Lk)) as (_ & Hp & Hl & _).
    pose proof (pl_ffp _ _ _ _ _ P). pose proof (sg_size _ _ _ _ _ (ss_each _ _ _ _ _ Sg k Hk Lk)). lia. }
  pose proof (ss_each _ _ _ _ _ Sg k Hk Lk) as S. pose proof (sg_size _ _ _ _ _ S). pose proof (kf_below _ _ K k Hk Lk).
  pose proof P as [[L0 L1] [F0 F1] [T0 T1] _]. pose proof (sg_addr _ _ _ _ _ S) as [A0 A1].
  destruct (place_segment content ph lo ffp top (seg content k) P S) as (_ & Hp & Hl & Ht & _).
  set (v := p_vaddr (seg content k) + p_memsz (seg content k)) in *.
  assert (Ev : u64 (hi - u64 (ffp - lo)) = v).
  { unfold wrapu at 1 2. rewrite Zminus_mod_idemp_r. change (wrapu 64 (hi - (ffp - lo)) = v). rewrite Eh. unfold paddr. rewrite <- (wrapu_small 64 v) by (unfold inu, v; lia). f_equal. unfold v. lia. }
  unfold B, table_base, loaded_info. cbv zeta. fold num hi.
  cbn [first_vaddr_after_user bias set_cur_brk_min set_cur_first_vaddr_after_user set_cur_first_user_vaddr set_cur_bias].
  rewrite Ev, wrapu_add_r by lia. unfold ROUNDUP, RISCV_PGSIZE.
  rewrite (wrapu_small _ (v - 1)) by (unfold inu, v; lia).
  pose proof (Z.div_mod (v - 1) 4096) as D. pose proof (Z.mod_pos_bound (v - 1) 4096) as M.
  rewrite (wrapu_small _ (((v - 1) / 4096 + 1) * 4096)) by (unfold inu, v in *; lia).
  unfold paddr in *. rewrite wrapu_small by (unfold inu, v in *; lia). split_and!; [|unfold v in *; lia..].
  apply Z.mod_divide in L0 as [l El]; [|lia]. apply Z.mod_divide in F0 as [f Ef]; [|lia]. rewrite El, Ef.
  replace (_ + _) with (((v - 1) / 4096 + 1 + (f - l) * 512) * 4096) by lia. apply Z.mod_mul. lia.
Qed.

Lemma loaded_ready h s s' _end :
  bootable fn content eh64 ph lo ffp h top s -> kernel_fits _end (mem_size s) -> next_free_page s = 0 -> only_loaded s s' ->
  current s' = loaded_info content lo ffp (current s) -> mapped (vmem s') 0 (Z.to_nat (mem_size s)) -> supervisor_loaded _end s'.
Proof.
  intros Bt K Nx O Ec Ram. pose proof (bt_place _ _ _ _ _ _ _ _ _ Bt) as P. pose proof (bt_segments _ _ _ _ _ _ _ _ _ Bt) as Sg. fold num in Sg.
  destruct (table_base_after _end (mem_size s) (current s) P Sg K) as (B1 & B2 & B3). destruct (bt_mem _ _ _ _ _ _ _ _ _ Bt) as (_ & _ & Mem & _).
  pose proof P as [[L0 L1] [F0 F1] [T0 T1] _]. pose proof (kf_ffp _ _ K). pose proof (kf_tables _ _ K) as Kt. pose proof (kf_sbi _ _ K).
  pose proof (num_middle_range lo L1) as Nm.
  assert (Ems : mem_size s' = mem_size s) by (rewrite O; done). assert (Enx : next_free_page s' = next_free_page s) by (rewrite O; done).
  constructor; rewrite ?Ec, ?Ems, ?Enx; try done; try lia.
  - change (first_user_vaddr (loaded_info content lo ffp (current s))) with lo. fold hi in Kt. lia.
  - change (first_user_vaddr (loaded_info content lo ffp (current s))) with lo.
    apply (mapped_ram _ (mem_size s)); (done || lia).
Qed.
End Ready.

(** ** Claims *)

(** C8. Loading a supervisor kernel.  For an ELF64 file on the volume whose loadable
    segments ascend without overlap, lie in the file and pass the code's range check
    (which adds the segment's start and end, so that only images in the lower half of
    the memory pass; on others the code panics), [load_elf] returns with every loadable
    segment in memory at the superpage-aligned place chosen for the image, its bytes from
    the file followed by zeros, also where segments share a page; the page head in front
    of a segment is zero; [current] describes the image; the file is closed and its handle
    free; and no other byte of memory changes but the two header buffers, not even in the
    image area between or behind the segments. *)
Theorem kernel_loaded {F FIL} {Fs : FatFs F FIL} {Laws : FatFsLaws F FIL} fn content {Vol : VolumeFile F FIL fn content}
    lay eh64 ph lo ffp h top (s : vm F FIL) :
  bootable fn content eh64 ph lo ffp h top s ->
  returns (load_elf lay eh64 fn) s (fun _ s' =>
    (forall k, (k < Z.to_nat (elf_phnum content))%nat -> let p := elf_phdr content (Z.of_nat k) in loadable p = true ->
       read_bytes (vmem s') (p_vaddr p - lo + ffp) (Z.to_nat (p_memsz p)) = Some (segment_bytes content p)) /\
    (forall k, (k < Z.to_nat (elf_phnum content))%nat -> head_clear content lo ffp (vmem s') k) /\
    current s' = loaded_info content lo ffp (current s) /\ only_loaded s s' /\ idle (vfs s') /\
    (exists f, files (vfs s') !! h = Some f /\ refcnt f = 0) /\
    (forall b k, fits b k -> apart b k eh64 (Z.to_nat EHDR_SIZE) -> apart b k ph (Z.to_nat (PHDR_SIZE * elf_phnum content)) ->
       outside_segments content lo ffp (Z.to_nat (elf_phnum content)) b k ->
       read_bytes (vmem s') b k = read_bytes (vmem s) b k)).
Proof.
  intros B. eapply returns_mono; [by apply (load_elf_at fn content lay eh64 ph lo ffp h top)|].
  intros [] s' (O & C & I & _ & _ & Hf & Pl & Fr). split_and!; try done.
  - intros k Hk p Lp. destruct (Pl k Hk) as [Pk _]. specialize (Pk Lp).
    rewrite (segment_length content lo ffp top) in Pk; [exact Pk|]. by apply (ss_each _ _ _ _ _ (bt_segments _ _ _ _ _ _ _ _ _ B)).
  - intros k Hk. apply Pl, Hk.
Qed.

(** A kernel of two segments that share a page, linked at [-2^31]. *)
Definition kernel_base : Z := 2 ^ 64 - 2 ^ 31.
Definition demo_phdr (off vaddr fsz msz : Z) : list Z :=
  le_split 4 PT_LOAD ++ le_split 4 7 ++ le_split 8 off ++ le_split 8 vaddr ++ le_split 8 0 ++ le_split 8 fsz ++ le_split 8 msz ++ le_split 8 4096.
Definition demo_kernel : list Z :=
  magic ++ replicate 11 0 ++ le_split 2 2 ++ le_split 2 0xF3 ++ le_split 4 1 ++ le_split 8 kernel_base ++ le_split 8 64 ++ le_split 8 0 ++
  le_split 4 0 ++ le_split 2 64 ++ le_split 2 56 ++ le_split 2 2 ++ le_split 2 0 ++ le_split 2 0 ++ le_split 2 0 ++
  demo_phdr 176 kernel_base 8 16 ++ demo_phdr 184 (kernel_base + 32) 4 32 ++ [1; 2; 3; 4; 5; 6; 7; 8] ++ [11; 12; 13; 14].
(** 8 MB of memory, the boot loader and its stack in the first 64 KB. *)
Definition loader_demo : vm (list Z) Z :=
  Vm (ElfInfo 0 0 0 0 0xA000 1024 0x10000 0 0 0 0 0 0 0x7F8000 0x7F8000 0 0 0) 0x800000 0 0 0x7F8000 0 8 0 0 1
    (Fsys (replicate 32 (File 0 0 0)) 0 0 1 demo_kernel (write_bytes ∅ 0 (replicate (Z.to_nat 0x800000) 0))).

#[export] Instance demo_volume fn : VolumeFile (list Z) Z fn demo_kernel.
Proof. apply ramfs_file. vm_decide. Defined.

Lemma demo_segments : segments_ok demo_kernel kernel_base (2 ^ 21) 0x7F8000 2.
Proof.
  constructor.
  - intros k Hk _. destruct k as [|[|k]]; [| |lia]; (constructor; vm_decide).
  - intros i j Hij _ _. destruct i as [|i], j as [|[|j]]; try lia. vm_decide.
Qed.

Lemma demo_bootable fn : bootable fn demo_kernel 0x9000 0xA000 kernel_base (2 ^ 21) 0 0x7F8000 loader_demo.
Proof.
  constructor.
  - constructor; vm_decide.
  - constructor; vm_decide.
  - reflexivity.
  - vm_decide.
  - vm_compute. reflexivity.
  - reflexivity.
  - constructor; vm_decide.
  - exact demo_segments.
  - change (current loader_demo) with (ElfInfo 0 0 0 0 0xA000 1024 0x10000 0 0 0 0 0 0 0x7F8000 0x7F8000 0 0 0). vm_decide.
  - vm_decide.
  - split; [|split; [|split]].
    + apply bytes_ok_write; [apply map_Forall_empty|apply Forall_replicate; vm_decide].
    + eexists. pose proof (read_write_bytes (replicate (Z.to_nat 0x800000) 0) ∅ 0) as R. rewrite length_replicate in R. apply R. lia.
    + change (mem_size loader_demo) with 0x800000. lia.
    + reflexivity.
  - change (files (vfs loader_demo)) with (replicate 32 (File 0 0 0)). change (fat (vfs loader_demo)) with demo_kernel.
    split; [split; [|split]; [reflexivity|reflexivity|change (sstatus (vfs loader_demo)) with 1; vm_decide]|].
    split; [reflexivity|]. split; [reflexivity|]. split; [unfold MAX_FILES; lia|]. split; [exists (File 0 0 0); split; reflexivity|].
    intros q g Hq. lia.
Qed.

Lemma kernel_loaded_witness :
  returns (load_elf demo_layout 0x9000 [118]) loader_demo (fun _ s' =>
    read_bytes (vmem s') (2 ^ 21) 16 = Some [1; 2; 3; 4; 5; 6; 7; 8; 0; 0; 0; 0; 0; 0; 0; 0] /\
    read_bytes (vmem s') (2 ^ 21 + 32) 6 = Some [11; 12; 13; 14; 0; 0] /\ entry (current s') = kernel_base).
Proof.
  eapply returns_mono; [exact (kernel_loaded [118] demo_kernel demo_layout 0x9000 0xA000 kernel_base (2 ^ 21) 0 0x7F8000 loader_demo (demo_bootable _))|].
  intros [] s' (Pl & _ & C & _). split_and!.
  - exact (Pl 0%nat ltac:(vm_decide) eq_refl).
  - pose proof (Pl 1%nat ltac:(vm_decide) eq_refl) as R. cbv zeta in R. change (read_bytes (vmem s') (2 ^ 21 + 32) (6 + 26) = Some ([11; 12; 13; 14; 0; 0] ++ replicate 26 0)) in R.
    by apply read_bytes_app in R as [R _].
  - rewrite C. change (elf_entry demo_kernel = kernel_base). vm_compute. reflexivity.
Defined.

(** The range check of a segment is given the end address where it expects a length: a
    segment wholly inside the free memory is refused as soon as its two ends together
    exceed the limit. *)
Theorem segment_check_doubled {F FIL} `{FatFs F FIL} (s : vm F FIL) file ph i vaddr prepad p :
  0 <= prepad <= vaddr -> 0 < p_memsz p -> vaddr + p_memsz p <= mmap_max (current s) < 2 ^ 62 ->
  first_free_paddr (current s) <= vaddr - prepad -> mmap_max (current s) < (vaddr - prepad) + (vaddr + p_memsz p) ->
  __valid_user_range (vaddr - prepad) (prepad + p_memsz p) s = Ret true s /\
  load_supervisor_segment file ph i vaddr prepad p s = Panic "ELF: invalid user addr range!" s.
Proof.
  intros Hp Hm Ht Hf Hc. split.
  - unfold __valid_user_range. rewrite wrapu_small by (unfold inu; lia). rewrite (proj2 (Z.ltb_ge _ _)) by lia. unfold bind, gets, ret.
    by rewrite (proj2 (Z.leb_le _ _)), (proj2 (Z.leb_le _ _)) by lia.
  - unfold load_supervisor_segment. unfold bind at 1, __valid_user_range.
    rewrite (wrapu_small _ (vaddr - prepad)), (wrapu_small _ (vaddr + p_memsz p)) by (unfold inu; lia).
    rewrite wrapu_small by (unfold inu; lia). rewrite (proj2 (Z.ltb_ge _ _)) by lia. unfold bind at 1, gets at 1, ret at 1.
    rewrite (proj2 (Z.leb_gt _ (mmap_max (current s)))) by lia. by rewrite andb_false_r.
Qed.
