(* ===== verification/Boot.v ===== *)
(** * Start-up ([bbl/minit.c], [bbl/init.c], [bbl/bbl.c])

    What runs between reset and the kernel: [machine_init] sets up the serial port, the
    status register, the hart's storage and the file layer, sizes memory, loads the kernel
    and leaves machine mode with [eret].  The state puts together the parts the other files
    model.  The writes to CSRs go through Rocket's legalisation ([csr.scala]).  The theorem
    follows the first hart from reset to the first instruction of the kernel. *)

From Stdlib Require Import ZArith Lia Bool List String Ascii.
From stdpp Require Import base gmap list.
From S2P Require Import Prelude Machine Memory Uart Console File Devices VM Mmap Loader.
Open Scope Z_scope.
Open Scope word_scope.

(** ** CSRs ([bbl/encoding.h], [rocket/src/main/scala/csr.scala]) *)
Definition MSTATUS_XS : Z := 0xC000.
Definition MSTATUS_VM : Z := 0x3E0000.
Definition PRV_U : Z := 0.
Definition PRV_S : Z := 1.
Definition VM_SV39 : Z := 9.
Definition MIP_MSIP : Z := 0x08.
Definition INSERT_FIELD (val which fieldval : Z) : Z :=
  bitand_not 64 val which ||| u64 (fieldval * (which &&& bitand_not 64 (2 ^ 64 - 1) (which - 1))).

(** The bits of a register that a write replaces. *)
Definition write_bits (mask old new : Z) : Z := bitand_not 64 old mask ||| (new &&& mask).

(** A privilege field keeps its value when the new one is the missing hypervisor mode. *)
Definition write_prv (field old new : Z) : Z :=
  if EXTRACT_FIELD new field =? 2 then old else write_bits field old new.

(** A write to [mstatus] on a core with supervisor mode; [rocc] says whether there is an
    accelerator, whose state [XS] describes. *)
Definition hw_write_mstatus (rocc : bool) (old new : Z) : Z :=
  let r := write_bits (SSTATUS_IE ||| MSTATUS_IE1 ||| MSTATUS_MPRV ||| MSTATUS_IE2 ||| MSTATUS_FS) old new in
  let r := write_prv MSTATUS_PRV r new in
  let r := write_prv MSTATUS_PRV1 r new in
  let r := write_prv MSTATUS_PRV2 r new in
  let vm := EXTRACT_FIELD new MSTATUS_VM in
  let r := if (vm =? 0) || (vm =? VM_SV39) then write_bits MSTATUS_VM r new else r in
  if rocc then write_bits MSTATUS_XS r new else r.

(** Reading shows [FS] and [XS] as off or dirty, and the summary bit. *)
Definition hw_read_mstatus (ms : Z) : Z :=
  let fs := if (ms &&& MSTATUS_FS) =? 0 then 0 else MSTATUS_FS in
  let xs := if (ms &&& MSTATUS_XS) =? 0 then 0 else MSTATUS_XS in
  let sd := if (fs =? 0) && (xs =? 0) then 0 else 2 ^ 63 in
  bitand_not 64 ms (MSTATUS_FS ||| MSTATUS_XS ||| 2 ^ 63) ||| fs ||| xs ||| sd.

(** The value after reset: machine mode, interrupts off. *)
Definition reset_mstatus : Z := 0x36.

(** Writable bits of [mip] and [mie]; [mepc] is a multiple of 4. *)
Definition hw_write_mip (old new : Z) : Z := write_bits (MIP_SSIP ||| MIP_STIP ||| MIP_MSIP) old new.
Definition hw_write_mie (old new : Z) : Z := write_bits (MIP_SSIP ||| MIP_STIP ||| MIP_MSIP ||| MIP_MTIP) old new.
Definition hw_write_mepc (v : Z) : Z := bitand_not 64 v 3.

(** ** The machine *)
Record boot (F FIL U : Type) := BootState {
  b_vm : vm F FIL; b_uart : U; b_cpu : mach;
  mtimecmp : Z; b_mip : Z; mie : Z; tag_ctrl : Z;
  elf_loaded : Z; b_hls : hls_t;
}.
Arguments BootState {F FIL U}. Arguments b_vm {F FIL U}. Arguments b_uart {F FIL U}. Arguments b_cpu {F FIL U}.
Arguments mtimecmp {F FIL U}. Arguments b_mip {F FIL U}. Arguments mie {F FIL U}. Arguments tag_ctrl {F FIL U}.
Arguments elf_loaded {F FIL U}. Arguments b_hls {F FIL U}.

Section Boot.
Context {F FIL U : Type} `{FatFs F FIL} `{UartDevice U}.
Abbreviation state := (boot F FIL U).
(** Outside the sources: [mcpuid], the accelerator, the unused half of a single in a
    register, [f_mount], the end of the image and where the locals lie. *)
Variable cpuid : Z.
Variable rocc : bool.
Variable fp_hi : Z -> Z.
Variable f_mount : F -> F.
Variable lay : layout.
Variable _end eh64 phdrs : Z.

Definition set_b_vm v (b : state) : state := BootState v (b_uart b) (b_cpu b) (mtimecmp b) (b_mip b) (mie b) (tag_ctrl b) (elf_loaded b) (b_hls b).
Definition set_b_uart v (b : state) : state := BootState (b_vm b) v (b_cpu b) (mtimecmp b) (b_mip b) (mie b) (tag_ctrl b) (elf_loaded b) (b_hls b).
Definition set_b_cpu v (b : state) : state := BootState (b_vm b) (b_uart b) v (mtimecmp b) (b_mip b) (mie b) (tag_ctrl b) (elf_loaded b) (b_hls b).
Definition set_mtimecmp v (b : state) : state := BootState (b_vm b) (b_uart b) (b_cpu b) v (b_mip b) (mie b) (tag_ctrl b) (elf_loaded b) (b_hls b).
Definition set_b_mip v (b : state) : state := BootState (b_vm b) (b_uart b) (b_cpu b) (mtimecmp b) v (mie b) (tag_ctrl b) (elf_loaded b) (b_hls b).
Definition set_mie v (b : state) : state := BootState (b_vm b) (b_uart b) (b_cpu b) (mtimecmp b) (b_mip b) v (tag_ctrl b) (elf_loaded b) (b_hls b).
Definition set_tag_ctrl v (b : state) : state := BootState (b_vm b) (b_uart b) (b_cpu b) (mtimecmp b) (b_mip b) (mie b) v (elf_loaded b) (b_hls b).
Definition set_elf_loaded v (b : state) : state := BootState (b_vm b) (b_uart b) (b_cpu b) (mtimecmp b) (b_mip b) (mie b) (tag_ctrl b) v (b_hls b).
Definition set_b_hls v (b : state) : state := BootState (b_vm b) (b_uart b) (b_cpu b) (mtimecmp b) (b_mip b) (mie b) (tag_ctrl b) (elf_loaded b) v.

Definition on_vm {A} : ST (vm F FIL) A -> ST state A := zoom b_vm set_b_vm.
Definition on_uart {A} : ST U A -> ST state A := zoom b_uart set_b_uart.
Definition on_cpu {A} : ST mach A -> ST state A := zoom b_cpu set_b_cpu.
Definition message (text : list Z) : ST state unit := on_uart (uart_send_string text).

(** [supports_extension(ext)]. *)
Definition supports_extension (ext : Ascii.ascii) : bool :=
  negb ((cpuid &&& (1 <<< (Z.of_nat (Ascii.nat_of_ascii ext) - 65))) =? 0).

(** ** [minit.c] *)
Definition initial_mstatus : Z :=
  let ms := 0 in
  let ms := INSERT_FIELD ms MSTATUS_PRV PRV_M in
  let ms := INSERT_FIELD ms MSTATUS_PRV1 PRV_S in
  let ms := INSERT_FIELD ms MSTATUS_PRV2 PRV_U in
  let ms := INSERT_FIELD ms MSTATUS_IE2 1 in
  let ms := INSERT_FIELD ms MSTATUS_VM VM_SV39 in
  let ms := INSERT_FIELD ms MSTATUS_FS 3 in
  INSERT_FIELD ms MSTATUS_XS 3.

Definition set_have_vm (v : Z) (s : vm F FIL) : vm F FIL :=
  Vm (current s) (mem_size s) (vmrs s) (root_page_table s) (first_free_page s) (next_free_page s) (free_pages s) (vm_lock s) (sptbr s) v (vfs s).

Definition mstatus_init : ST state unit :=
  (if supports_extension "S"%char then ret tt else panic "supervisor support is required") ;;
  on_cpu (modify (fun m => set_mstatus (hw_write_mstatus rocc (mstatus m) initial_mstatus) m)) ;;
  let! ms := gets (fun b => hw_read_mstatus (mstatus (b_cpu b))) in
  (if negb (EXTRACT_FIELD ms MSTATUS_VM =? VM_SV39) then on_vm (modify (set_have_vm 0)) else ret tt) ;;
  (* the write to mtimecmp also clears the timer interrupt *)
  modify (fun b => set_mtimecmp 0 (set_b_mip (bitand_not 64 (b_mip b) MIP_MTIP) b)) ;;
  modify (fun b => set_b_mip (hw_write_mip (b_mip b) (bitand_not 64 (b_mip b) MIP_MSIP)) b) ;;
  modify (fun b => set_mie (hw_write_mie (mie b) (mie b ||| MIP_MSIP)) b).

(** [for (i = 0; i < 32; i++) init_fp_reg(i)]. *)
Fixpoint init_fp_regs (k : nat) (i : Z) : ST mach unit :=
  match k with
  | O => ret tt
  | S k' => SET_F32_REG fp_hi (i <<< 3) 3 0 ;; init_fp_regs k' (i + 1)
  end.

Definition fp_init : ST state unit :=
  let! ms := gets (fun b => hw_read_mstatus (mstatus (b_cpu b))) in
  kassert (negb ((ms &&& MSTATUS_FS) =? 0)) ;;
  (if supports_extension "D"%char then ret tt else panic "FPU not found; recompile pk with -msoft-float") ;;
  on_cpu (init_fp_regs 32 0) ;;
  on_cpu (modify (fun m => set_frm 0 (set_fflags 0 m))).

Definition hls_init (id : Z) : ST state unit := modify (set_b_hls (Hls 0 0 0 0 (s32 id) 0)).

Definition num_harts : Z := 1.

(** ** [bbl.c] *)

(** Leaves machine mode; the result is the address the hart goes on at. *)
Definition enter_entry_point : ST state Z :=
  let! e := gets (fun b => entry (current (b_vm b))) in
  on_cpu (modify (set_mepc (hw_write_mepc e))) ;;
  modify (set_tag_ctrl 0x7) ;;
  message (chars "Start Linux" ++ [10]) ;;
  on_cpu (modify (fun m => set_mstatus (hw_eret (mstatus m)) m)) ;;
  gets (fun b => mepc (b_cpu b)).

Definition run_loaded_program : ST state Z :=
  message (chars "Running loaded program" ++ [10]) ;;
  let! sup := gets (fun b => is_supervisor (current (b_vm b))) in
  (if sup =? 0 then panic "bbl can't run user binaries" else ret tt) ;;
  on_vm (supervisor_vm_init _end) ;;
  modify (set_elf_loaded 1) ;;
  enter_entry_point.

(** Nobody else sets [elf_loaded] while this hart waits. *)
Definition boot_other_hart : ST state Z :=
  let! l := gets elf_loaded in
  if l =? 0 then hang else enter_entry_point.

(** ** [init.c] *)
Definition boot_loader : ST state Z :=
  on_vm (upd_current (set_cur_phdr phdrs (8 * 128))) ;;
  message (chars "Loadng linux ELF" ++ [10]) ;;
  on_vm (load_elf lay eh64 (chars "vmlinux")) ;;
  message (chars "Linux ELF loaded" ++ [10]) ;;
  run_loaded_program.

(** ** The harts *)
Definition init_first_hart : ST state Z :=
  on_vm (on_files file_init) ;;
  on_vm (memory_init num_harts) ;;
  on_vm (vm_init _end num_harts) ;;
  boot_loader.

Definition init_other_hart : ST state Z :=
  let! r := gets (fun b => root_page_table (b_vm b)) in
  if r =? 0 then hang
  else
    on_vm (modify (set_sptbr r)) ;;
    let! id := gets (fun b => hart_id (b_hls b)) in
    if num_harts <=? u32 id then hang else boot_other_hart.

Definition machine_init (id : Z) : ST state Z :=
  on_uart uart_init ;;
  mstatus_init ;;
  on_vm (on_files (modify (fun s => set_fat (f_mount (fat s)) s))) ;;
  hls_init id ;;
  mstatus_init ;;
  fp_init ;;
  if id =? 0 then init_first_hart else init_other_hart.
End Boot.

(** ** Lemmas *)

(** What [mstatus_init] writes, and what [eret] makes of it. *)
Lemma mstatus_values rocc :
  let m1 := hw_write_mstatus rocc reset_mstatus initial_mstatus in
  hw_write_mstatus rocc m1 initial_mstatus = m1 /\ EXTRACT_FIELD (hw_read_mstatus m1) MSTATUS_VM = VM_SV39 /\
  (hw_read_mstatus m1 &&& MSTATUS_FS) = MSTATUS_FS /\ (m1 &&& MSTATUS_FS) = MSTATUS_FS /\
  EXTRACT_FIELD (hw_eret m1) MSTATUS_PRV = PRV_S /\ (hw_eret m1 &&& SSTATUS_IE) = 0 /\
  EXTRACT_FIELD (hw_eret m1) MSTATUS_VM = VM_SV39 /\ (hw_eret m1 &&& MSTATUS_FS) = MSTATUS_FS.
Proof. destruct rocc; vm_compute; done. Qed.

Definition cleared {FIL} (f : file_t FIL) : file_t FIL := File (fd f) 0 0.

Lemma init_slots_at {F FIL} k : forall (s : fsys F FIL) i,
  (i + k <= length (files s))%nat ->
  exists fs, init_slots i k s = Ret tt (set_files fs s) /\ length fs = length (files s) /\
    forall j, fs !! j = if decide (i <= j < i + k)%nat then cleared <$> files s !! j else files s !! j.
Proof.
  induction k as [|k IH]; intros s i Hi.
  { exists (files s). split_and!; [by destruct s|done|]. intros j. by rewrite decide_False by lia. }
  destruct (lookup_lt_is_Some_2 (files s) i ltac:(lia)) as [f Hf]. cbn [init_slots]. unfold bind, get_file. rewrite Hf.
  unfold put_file, modify. set (s1 := set_files _ s).
  assert (L1 : length (files s1) = length (files s)) by apply length_insert.
  destruct (IH s1 (S i) ltac:(lia)) as (fs & E & Lf & Hfs). exists fs. split_and!; [exact E|by rewrite Lf|]. intros j.
  rewrite Hfs. change (files s1) with (<[i := cleared f]> (files s)). destruct (decide (j = i)) as [->|N].
  - rewrite decide_False, decide_True by lia. rewrite list_lookup_insert_eq by lia. by rewrite Hf.
  - rewrite list_lookup_insert_ne by done. destruct (decide (S i <= j < S i + k)%nat); [by rewrite decide_True by lia|by rewrite decide_False by lia].
Qed.

Lemma file_init_at {F FIL} (s : fsys F FIL) : length (files s) = MAX_FILES ->
  exists fs, file_init s = Ret tt (set_files fs s) /\ length fs = MAX_FILES /\ forall j f, fs !! j = Some f -> refcnt f = 0.
Proof.
  intros L. destruct (init_slots_at MAX_FILES s 0 ltac:(lia)) as (fs & E & Lf & Hfs). exists fs. split_and!; [exact E|by rewrite Lf|].
  intros j f Hj. assert (j < MAX_FILES)%nat by (rewrite <- L, <- Lf; by eapply lookup_lt_Some). rewrite Hfs, decide_True in Hj by lia.
  apply fmap_Some in Hj as (g & _ & ->). done.
Qed.

(** Every byte of the loaded segments is where the hardware looks for it. *)
Section Visible.
Context {F FIL : Type} {Fs : FatFs F FIL} {Laws : FatFsLaws F FIL} (fn content : list Z) {Vol : VolumeFile F FIL fn content}.
Implicit Types s : vm F FIL.
Variable eh64 ph lo ffp top _end : Z.

Definition visible (m : memory) (root va x : Z) : Prop :=
  exists pte pa, sv39 m root va = Some (pte, pa) /\ read_bytes m pa 1 = Some [x] /\
    PTE_SR pte = true /\ PTE_SW pte = true /\ PTE_SX pte = true /\ PTE_UR pte = false /\ PTE_UW pte = false /\ PTE_UX pte = false.

Lemma read_byte m a l i x : read_bytes m a (length l) = Some l -> l !! i = Some x -> read_bytes m (a + Z.of_nat i) 1 = Some [x].
Proof.
  intros R Hx. pose proof (lookup_lt_Some _ _ _ Hx). replace (length l) with (i + (1 + (length l - i - 1)))%nat in R by lia.
  apply read_bytes_window in R. rewrite R. by rewrite (drop_S _ _ _ Hx).
Qed.

Lemma segment_visible h s s2 s3 k i x :
  bootable fn content eh64 ph lo ffp h top s -> kernel_fits content lo ffp _end (mem_size s) -> next_free_page s = 0 ->
  only_loaded s s2 -> current s2 = loaded_info content lo ffp (current s) -> mapped (vmem s2) 0 (Z.to_nat (mem_size s)) ->
  placed content lo ffp (vmem s2) k -> boot_result _end s2 s3 ->
  (k < Z.to_nat (elf_phnum content))%nat -> loadable (seg content k) = true ->
  segment_bytes content (seg content k) !! i = Some x ->
  visible (vmem s3) (sptbr s3) (p_vaddr (seg content k) + Z.of_nat i) x.
Proof.
  intros Bt K Nx O C Ram Pl Br Hk Lk Hx. pose proof (bt_place _ _ _ _ _ _ _ _ _ Bt) as P. pose proof (bt_segments _ _ _ _ _ _ _ _ _ Bt) as Sg.
  pose proof (loaded_ready fn content eh64 ph lo ffp top h s s2 _end Bt K Nx O C Ram) as L.
  pose proof (ss_each _ _ _ _ _ Sg k Hk Lk) as S. pose proof (segment_length _ _ _ _ _ S) as Ln. pose proof (lookup_lt_Some _ _ _ Hx) as Li. rewrite Ln in Li.
  destruct (place_segment content ph lo ffp top (seg content k) P S) as (_ & Hp & Hl & Ht & _).
  pose proof P as [[L0 L1] [F0 F1] [T0 T1] _]. pose proof (sg_addr _ _ _ _ _ S) as [A0 A1]. pose proof (kf_below _ _ _ _ _ K k Hk Lk) as Kb.
  destruct (highest_spec content ph lo ffp top _ 0 P Sg) as (_ & Hh & _). specialize (Hh k Hk Lk).
  destruct (table_base_after content ph lo ffp top _end (mem_size s) (current s) P Sg K) as (_ & B2 & B3). rewrite <- C in B2, B3.
  pose proof (kf_mapped _ _ _ _ _ K) as Km. set (hi := highest_of _ _ _ _) in *.
  assert (Ems : mem_size s2 = mem_size s) by (rewrite O; done).
  assert (Pa : read_bytes (vmem s3) (paddr lo ffp (seg content k) + Z.of_nat i) 1 = Some [x]).
  { destruct Br as (_ & _ & _ & _ & _ & _ & So). rewrite So; [|unfold fits; lia|unfold apart; lia]. exact (read_byte _ _ _ _ _ (Pl Lk) Hx). }
  pose proof (boot_walk _end s2 s3 L Br (p_vaddr (seg content k) + Z.of_nat i) ltac:(unfold inu; lia)) as W. cbv zeta in W.
  assert (Cf : first_user_vaddr (current s2) = lo /\ first_free_paddr (current s2) = ffp) by (rewrite C; done). destruct Cf as [Cu Cf].
  rewrite Cu, Cf, Ems in W. set (cnt := superpages _ _) in W.
  assert (Hc : ffp + 2 ^ 21 * cnt >= hi).
  { unfold cnt, superpages, left_memory. rewrite Cu, Cf. set (lm := ROUNDDOWN _ _) in *. assert (Em : lm mod 2 ^ 21 = 0) by (apply Z.mod_mul; lia).
    pose proof (Z.div_mod (Z.max ffp lm - ffp) (2 ^ 21)). assert ((Z.max ffp lm - ffp) mod 2 ^ 21 = 0) as M0.
    { rewrite Zminus_mod, F0. destruct (Z.max_spec ffp lm) as [[_ ->]|[_ ->]]; rewrite ?Em, ?F0; done. }
    lia. }
  unfold boot_map in W. unfold paddr in *. rewrite (proj2 (Z.leb_le _ _)), (proj2 (Z.ltb_lt _ _)) in W by lia. cbn [andb] in W.
  do 2 eexists. split; [exact W|]. split.
  - rewrite <- Pa. f_equal. lia.
  - unfold PTE_SR, PTE_SW, PTE_SX, PTE_UR, PTE_UW, PTE_UX, srwx. rewrite !pte_attr_value. done.
Qed.
End Visible.

(** ** From reset to the kernel *)
Section Start.
Context {F FIL U : Type} {Fs : FatFs F FIL} {Laws : FatFsLaws F FIL} {Dev : UartDevice U} {Ul : UartLaws U}.
Context (content : list Z) {Vol : VolumeFile F FIL (chars "vmlinux") content}.
Variable cpuid : Z.
Variable rocc : bool.
Variable fp_hi : Z -> Z.
Variable f_mount : F -> F.
Variable lay : layout.
Variable _end eh64 phdrs lo ffp : Z.
Abbreviation state := (boot F FIL U).
Implicit Types b : state.

(** A kernel the boot loader can start. *)
Record kernel_image : Prop := {
  ki_ehdr : ehdr_ok content eh64;
  ki_headers : headers_ok content phdrs;
  ki_magic : take 5 content = magic;
  ki_super : 2 ^ 63 <= elf_entry content;
  ki_aligned : elf_entry content mod 4 = 0;
  ki_lo : lo = ROUNDDOWN (lowest_of content (Z.to_nat (elf_phnum content))) SUPERPAGE_SIZE;
  ki_ffp : ffp = ROUNDUP (first_free_paddr_of _end num_harts) SUPERPAGE_SIZE;
  ki_place : place_ok content phdrs lo ffp pool_start;
  ki_segments : segments_ok content lo ffp pool_start (Z.to_nat (elf_phnum content));
  ki_room : PHDR_SIZE * elf_phnum content <= 1024;
  ki_locals : eh64 + EHDR_SIZE <= ffp /\ apart eh64 (Z.to_nat EHDR_SIZE) phdrs (Z.to_nat (PHDR_SIZE * elf_phnum content));
  ki_fits : kernel_fits content lo ffp _end board_memory;
}.

(** A hart out of reset: machine mode, no lock held, the volume there, memory present. *)
Record out_of_reset b : Prop := {
  or_mstatus : mstatus (b_cpu b) = reset_mstatus;
  or_cpuid : supports_extension cpuid "S"%char = true /\ supports_extension cpuid "D"%char = true;
  or_files : idle (vfs (b_vm b)) /\ length (files (vfs (b_vm b))) = MAX_FILES;
  or_volume : holds (f_mount (fat (vfs (b_vm b))));
  or_mem : bytes_ok (vmem (b_vm b)) /\ mapped (vmem (b_vm b)) 0 (Z.to_nat board_memory);
  or_alloc : next_free_page (b_vm b) = 0;
}.

Lemma message_at b text : uart_open (b_uart b) -> Forall (fun c => 0 < c < 256) text ->
  returns (message text) b (fun _ b' => exists u, b' = set_b_uart u b /\ advanced text (b_uart b) u).
Proof.
  intros Ho Ht. apply returns_zoom, uart_send_string_spec; [done| |]; eapply Forall_impl; try exact Ht; cbv beta; unfold inu; lia.
Qed.

Lemma init_fp_regs_at k : forall i m, (mstatus m &&& MSTATUS_FS) <> 0 ->
  exists fr, init_fp_regs fp_hi k i m = Ret tt (set_fregs fr m).
Proof.
  induction k as [|k IH]; intros i m Hf; cbn [init_fp_regs]; [exists (fregs m); by destruct m|].
  unfold bind, SET_F32_REG, bind, fp_access. rewrite (proj2 (Z.eqb_neq _ _) Hf). unfold modify.
  destruct (IH (i + 1) (set_fregs (<[FREG (i <<< 3) 3 := u32 (fp_hi (u32 0)) * 2 ^ 32 + u32 0]> (fregs m)) m)) as [fr E]; [done|].
  exists fr. exact E.
Qed.

(** The file layer, memory size and allocator once set up, and the kernel's headers. *)
Lemma prepare_at (s : vm F FIL) :
  kernel_image -> idle (vfs s) -> length (files (vfs s)) = MAX_FILES -> holds (fat (vfs s)) ->
  bytes_ok (vmem s) -> mapped (vmem s) 0 (Z.to_nat board_memory) -> next_free_page s = 0 ->
  exists s1 s2 s3, on_files file_init s = Ret tt s1 /\ memory_init num_harts s1 = Ret tt s2 /\ vm_init _end num_harts s2 = Ret tt s3 /\
    let s4 := set_current (set_cur_phdr phdrs (8 * 128) (current s3)) s3 in
    bootable (chars "vmlinux") content eh64 phdrs lo ffp 0 pool_start s4 /\ mem_size s4 = board_memory /\ next_free_page s4 = 0 /\
    vmem s4 = vmem s.
Proof.
  intros [E1 E2 E3 E4 _ E5 E6 E7 E8 E9 E10 _] Hi Hl Hh Hb Hm Hn. destruct (file_init_at (vfs s) Hl) as (fs & Ef & Lf & Hf).
  set (s1 := set_vfs (set_files fs (vfs s)) s). set (s2 := set_mem_size board_memory s1).
  assert (Em : memory_init num_harts s1 = Ret tt s2) by reflexivity.
  destruct (vm_init _end num_harts s2) as [[] s3| | |] eqn:Ev; try done. exists s1, s2, s3.
  split; [unfold on_files, zoom; by rewrite Ef|]. split; [exact Em|]. split; [exact Ev|].
  unfold vm_init in Ev. cbv zeta in Ev. injection Ev as <-. cbv zeta. split; [|split_and!; done].
  constructor; try done.
  split_and!; [apply Hi..|exact Lf|exact Hh|unfold MAX_FILES; lia| |intros q g Hq; lia].
  change (files _) with fs. destruct (lookup_lt_is_Some_2 fs 0 ltac:(rewrite Lf; unfold MAX_FILES; lia)) as [f Hf0].
  exists f. split; [exact Hf0|]. by eapply Hf.
Qed.

Abbreviation status1 := (hw_write_mstatus rocc reset_mstatus initial_mstatus).

(** Only registers that the rest does not look at differ. *)
Record same_boot b b' : Prop := {
  sb_vm : b_vm b' = b_vm b; sb_uart : b_uart b' = b_uart b; sb_tag : tag_ctrl b' = tag_ctrl b; sb_loaded : elf_loaded b' = elf_loaded b;
}.

Lemma mstatus_init_at b : supports_extension cpuid "S"%char = true ->
  mstatus (b_cpu b) = reset_mstatus \/ mstatus (b_cpu b) = status1 ->
  returns (mstatus_init cpuid rocc) b (fun _ b' => same_boot b b' /\ b_cpu b' = set_mstatus status1 (b_cpu b) /\ b_hls b' = b_hls b).
Proof.
  intros Hs Hm. destruct (mstatus_values rocc) as (V1 & V2 & _).
  assert (Em : hw_write_mstatus rocc (mstatus (b_cpu b)) initial_mstatus = status1) by (destruct Hm as [-> | ->]; done).
  unfold mstatus_init. rewrite Hs. eapply returns_step; [reflexivity|]. eapply returns_step; [reflexivity|].
  eapply returns_step; [reflexivity|]. cbn [b_cpu set_b_cpu mstatus set_mstatus]. rewrite Em, V2. change (VM_SV39 =? VM_SV39) with true. cbn [negb].
  eapply returns_step; [reflexivity|]. eapply returns_step; [reflexivity|]. eapply returns_step; [reflexivity|]. apply returns_modify.
  split; [constructor; reflexivity|]. split; reflexivity.
Qed.

(** The supervisor's messages on the serial line. *)
Definition banner : list Z :=
  chars "Loadng linux ELF" ++ [10] ++ chars "Linux ELF loaded" ++ [10] ++ chars "Running loaded program" ++ [10] ++ chars "Start Linux" ++ [10].

(** What the kernel finds when it starts. *)
Record kernel_running (u : U) (pc : Z) b : Prop := {
  kr_pc : pc = elf_entry content;
  kr_prv : EXTRACT_FIELD (mstatus (b_cpu b)) MSTATUS_PRV = PRV_S /\ (mstatus (b_cpu b) &&& SSTATUS_IE) = 0;
  kr_vm : EXTRACT_FIELD (mstatus (b_cpu b)) MSTATUS_VM = VM_SV39 /\ (mstatus (b_cpu b) &&& MSTATUS_FS) = MSTATUS_FS;
  kr_tag : tag_ctrl b = 0x7 /\ elf_loaded b = 1;
  kr_line : advanced banner u (b_uart b);
  kr_mem : mem_size (b_vm b) = ROUNDDOWN (Z.min board_memory (2 ^ 64 - ffp - lo)) (2 ^ 21);
  kr_segments k i x : (k < Z.to_nat (elf_phnum content))%nat -> loadable (seg content k) = true ->
    segment_bytes content (seg content k) !! i = Some x ->
    visible (vmem (b_vm b)) (sptbr (b_vm b)) (p_vaddr (seg content k) + Z.of_nat i) x;
}.

Lemma mepc_aligned v : inu 64 v -> v mod 4 = 0 -> hw_write_mepc v = v.
Proof.
  intros Hv Hm. unfold hw_write_mepc. change (bitand_not 64 v 3) with (v &&& (2 ^ 64 - 2 ^ 2)). rewrite align_down by (done || lia).
  pose proof (Z.div_mod v (2 ^ 2)). change (2 ^ 2) with 4 in *. lia.
Qed.

Lemma boot_loader_at b s (u : U) :
  kernel_image -> b_vm b = s -> mstatus (b_cpu b) = status1 -> uart_open (b_uart b) -> b_uart b = u ->
  let s4 := set_current (set_cur_phdr phdrs (8 * 128) (current s)) s in
  bootable (chars "vmlinux") content eh64 phdrs lo ffp 0 pool_start s4 -> mem_size s4 = board_memory -> next_free_page s4 = 0 ->
  returns (boot_loader lay _end eh64 phdrs) b (fun pc b' => kernel_running u pc b' /\ b_hls b' = b_hls b).
Proof.
  intros K Es Em Ho Eu s4 Bt Ms Nx. destruct (mstatus_values rocc) as (_ & _ & _ & _ & V5 & V6 & V7 & V8).
  unfold boot_loader. eapply returns_step; [unfold on_vm, zoom; rewrite Es; reflexivity|]. fold s4. set (b1 := set_b_vm s4 b).
  eapply returns_bind; [apply message_at; [exact Ho|vm_decide]|]. intros [] b2 (u2 & -> & A2).
  eapply returns_bind; [apply returns_zoom; exact (load_elf_at _ content lay eh64 phdrs lo ffp 0 pool_start s4 Bt)|].
  intros [] b3 (s5 & -> & O & C & _ & _ & Ram & _ & Pl & _).
  eapply returns_bind; [apply message_at; [apply A2|vm_decide]|]. intros [] b4 (u4 & -> & A4).
  unfold run_loaded_program. eapply returns_bind; [apply message_at; [apply A4|vm_decide]|]. intros [] b5 (u5 & -> & A5).
  eapply returns_step; [reflexivity|]. cbn [b_vm set_b_vm set_b_uart]. rewrite C. cbn [is_supervisor loaded_info set_cur_brk_min set_cur_first_vaddr_after_user set_cur_first_user_vaddr set_cur_bias set_cur_entry set_cur_first_free_paddr set_cur_is_supervisor].
  change (1 =? 0) with false. cbv iota. eapply returns_step; [reflexivity|].
  pose proof (ki_fits K) as Kf. rewrite <- Ms in Kf.
  pose proof (loaded_ready _ content eh64 phdrs lo ffp pool_start 0 s4 s5 _end Bt Kf Nx O C Ram) as L.
  eapply returns_bind; [apply returns_zoom; exact (supervisor_vm_init_runs _end s5 L)|]. intros [] b6 (s6 & -> & Br).
  eapply returns_step; [reflexivity|]. unfold enter_entry_point. do 3 (eapply returns_step; [reflexivity|]).
  assert (C6 : entry (current s6) = elf_entry content) by (destruct Br as (_ & _ & _ & _ & _ & -> & _); rewrite C; done).
  eapply returns_bind; [apply message_at; [apply A5|vm_decide]|]. intros [] b7 (u7 & -> & A7).
  eapply returns_step; [reflexivity|]. apply returns_gets. split; [|reflexivity].
  constructor; cbn [b_vm b_uart b_cpu tag_ctrl elf_loaded set_b_vm set_b_uart set_b_cpu set_tag_ctrl set_elf_loaded mepc mstatus set_mepc set_mstatus].
  - rewrite C6. apply mepc_aligned; [|apply K]. destruct (entry_bit (chars "vmlinux") content eh64 (ki_ehdr K) (ki_super K)). pose proof (ki_super K). unfold inu. lia.
  - rewrite Em. split; [exact V5|exact V6].
  - rewrite Em. split; [exact V7|exact V8].
  - done.
  - subst u. unfold banner. eapply advanced_trans in A4; [|exact A2]. eapply advanced_trans in A5; [|exact A4]. eapply advanced_trans in A7; [|exact A5].
    rewrite <- !app_assoc in A7. exact A7.
  - destruct Br as (_ & _ & _ & -> & _). unfold left_memory. rewrite C. assert (mem_size s5 = mem_size s4) as -> by (rewrite O; done). rewrite Ms. done.
  - intros k i x Hk Lk Hx. exact (segment_visible _ content eh64 phdrs lo ffp pool_start _end 0 s4 s5 s6 k i x Bt Kf Nx O C Ram (proj1 (Pl k Hk)) Br Hk Lk Hx).
Qed.

Lemma machine_init_at b :
  kernel_image -> out_of_reset b ->
  returns uart_init (b_uart b) (fun _ u =>
    returns (machine_init cpuid rocc fp_hi f_mount lay _end eh64 phdrs 0) b (fun pc b' =>
      kernel_running u pc b' /\ b_hls b' = Hls 0 0 0 0 0 0)).
Proof.
  intros K [Rm [Rs Rd] [Ri Rl] Rv [Rb Rr] Rn]. destruct (uart_init_opens (b_uart b)) as (t & u & Eu & Ho). destruct t.
  eapply returns_intro; [exact Eu|]. unfold machine_init. eapply returns_step; [unfold on_uart, zoom; rewrite Eu; reflexivity|].
  set (b1 := set_b_uart u b).
  eapply returns_bind; [apply (mstatus_init_at b1 Rs); by left|]. intros [] b2 ([Sv Su _ _] & Cp & _).
  eapply returns_step; [reflexivity|]. eapply returns_step; [reflexivity|]. match goal with |- returns _ ?x _ => set (b3 := x) end.
  eapply returns_bind; [apply (mstatus_init_at b3 Rs); right; change (b_cpu b3) with (b_cpu b2); by rewrite Cp|].
  intros [] b4 ([Sv4 Su4 _ _] & Cp4 & Hl4).
  destruct (mstatus_values rocc) as (_ & _ & V3 & V4 & _).
  (* the floating-point registers *)
  unfold fp_init. eapply returns_bind with (Q := fun _ b' => b_vm b' = b_vm b4 /\ b_uart b' = b_uart b4 /\ mstatus (b_cpu b') = status1 /\ b_hls b' = b_hls b4).
  { eapply returns_step; [reflexivity|]. rewrite Cp4. cbn [mstatus set_mstatus]. rewrite V3. change (negb (MSTATUS_FS =? 0)) with true.
    eapply returns_step; [reflexivity|]. rewrite Rd. eapply returns_step; [reflexivity|].
    destruct (init_fp_regs_at 32 0 (b_cpu b4)) as [fr Ef]; [rewrite Cp4; cbn [mstatus set_mstatus]; by rewrite V4|].
    eapply returns_step; [unfold on_cpu, zoom; rewrite Ef; reflexivity|]. eapply returns_intro; [reflexivity|].
    split_and!; try reflexivity. cbn. by rewrite Cp4. }
  intros [] b5 (Sv5 & Su5 & Cp5 & Hl5). change (0 =? 0) with true. cbv iota.
  set (s0 := set_vfs (set_fat (f_mount (fat (vfs (b_vm b)))) (vfs (b_vm b))) (b_vm b)).
  assert (Es : b_vm b5 = s0) by (rewrite Sv5, Sv4; unfold b3; cbn [b_vm set_b_hls set_b_vm]; rewrite Sv; reflexivity).
  destruct (prepare_at s0 K Ri Rl Rv Rb Rr Rn) as (s1 & s2 & s3 & E1 & E2 & E3 & Bt & Ms & Nx & _).
  unfold init_first_hart. eapply returns_step; [unfold on_vm, zoom; rewrite Es, E1; reflexivity|].
  eapply returns_step; [unfold on_vm, zoom; cbn [b_vm set_b_vm]; rewrite E2; reflexivity|].
  eapply returns_step; [unfold on_vm, zoom; cbn [b_vm set_b_vm]; rewrite E3; reflexivity|].
  match goal with |- returns _ ?x _ => set (b6 := x) end.
  assert (Hu : b_uart b6 = u) by (change (b_uart b6) with (b_uart b5); rewrite Su5, Su4; change (b_uart b3) with (b_uart b2); rewrite Su; reflexivity).
  eapply returns_mono; [apply (boot_loader_at b6 s3 u K); try done; by rewrite Hu|].
  intros pc b' [Kr Hls']. split; [exact Kr|]. rewrite Hls'. change (b_hls b6) with (b_hls b5). rewrite Hl5, Hl4. reflexivity.
Qed.
End Start.

(** ** Claims *)

(** C6. From reset to the kernel.  On a machine out of reset, with a supervisor kernel on
    the volume that fits the memory, the first hart's [machine_init] always reaches the
    kernel: it leaves machine mode at the kernel's entry point, in supervisor mode with
    interrupts off, paging on and the FPU enabled, tag checks switched on, and the four
    messages on the serial line; and every byte of every loadable segment of the file is
    what the hardware's translation finds at its virtual address, for supervisor access
    only. *)
Theorem kernel_started {F FIL U} {Fs : FatFs F FIL} {Laws : FatFsLaws F FIL} {Dev : UartDevice U} {Ul : UartLaws U}
    (content : list Z) {Vol : VolumeFile F FIL (chars "vmlinux") content}
    cpuid rocc fp_hi f_mount lay _end eh64 phdrs lo ffp (b : boot F FIL U) :
  kernel_image content _end eh64 phdrs lo ffp -> out_of_reset content cpuid f_mount b ->
  returns uart_init (b_uart b) (fun _ u =>
    returns (machine_init cpuid rocc fp_hi f_mount lay _end eh64 phdrs 0) b (fun pc b' =>
      kernel_running content lo ffp u pc b' /\ b_hls b' = Hls 0 0 0 0 0 0)).
Proof. intros K R. exact (machine_init_at content cpuid rocc fp_hi f_mount lay _end eh64 phdrs lo ffp b K R). Qed.

(** The kernel of two segments on a machine with the board's memory; the boot loader ends
    at 64 KB. *)
Definition boot_machine : boot (list Z) Z uart16550 :=
  BootState
    (Vm (ElfInfo 0 0 0 0 0 0 0 0 0 0 0 0 0 0 0 0 0 0) 0 0 0 0 0 0 0 0 1
      (Fsys (replicate 32 (File 0 0 0)) 0 0 1 demo_kernel (write_bytes ∅ 0 (replicate (Z.to_nat board_memory) 0))))
    (Uart16550 0 0 0 0 7 [] [] []) (Mach [] (replicate 32 0) reset_mstatus 0 0 0 0 0 ∅) 0 0 0 0 0 (Hls 1 1 1 1 1 1).

Lemma boot_image : kernel_image demo_kernel 0x10000 0x9000 0xA000 kernel_base (2 ^ 21).
Proof.
  constructor; try vm_decide; try reflexivity.
  - constructor; vm_decide.
  - constructor; vm_decide.
  - constructor; vm_decide.
  - constructor.
    + intros k Hk _. change (Z.to_nat (elf_phnum demo_kernel)) with 2%nat in Hk. destruct k as [|[|k]]; [| |lia]; (constructor; vm_decide).
    + intros i j Hij _ _. change (Z.to_nat (elf_phnum demo_kernel)) with 2%nat in Hij. destruct i as [|i], j as [|[|j]]; try lia. vm_decide.
  - constructor; try vm_decide.
    + exists 0%nat. vm_decide.
    + intros k Hk _. change (Z.to_nat (elf_phnum demo_kernel)) with 2%nat in Hk. destruct k as [|[|k]]; [| |lia]; vm_decide.
Qed.

Definition demo_cpuid : Z := 2 ^ 63 + 2 ^ 18 + 2 ^ 12 + 2 ^ 8 + 2 ^ 5 + 2 ^ 3 + 1.

Lemma boot_reset : out_of_reset demo_kernel demo_cpuid (fun d => d) boot_machine.
Proof.
  constructor.
  - reflexivity.
  - split; reflexivity.
  - split; [split; [|split]; [reflexivity|reflexivity|change (sstatus (vfs (b_vm boot_machine))) with 1; vm_decide]|reflexivity].
  - reflexivity.
  - split.
    + apply bytes_ok_write; [apply map_Forall_empty|apply Forall_replicate; vm_decide].
    + eexists. pose proof (read_write_bytes (replicate (Z.to_nat board_memory) 0) ∅ 0) as R. rewrite length_replicate in R. apply R. unfold board_memory. lia.
  - reflexivity.
Qed.

Lemma kernel_started_witness :
  returns uart_init (b_uart boot_machine) (fun _ u =>
    returns (machine_init demo_cpuid false (fun _ => 0) (fun d => d) demo_layout 0x10000 0x9000 0xA000 0) boot_machine (fun pc b' =>
      pc = kernel_base /\ visible (vmem (b_vm b')) (sptbr (b_vm b')) (kernel_base + 33) 12 /\
      visible (vmem (b_vm b')) (sptbr (b_vm b')) (kernel_base + 8) 0)).
Proof.
  eapply returns_mono; [exact (kernel_started demo_kernel demo_cpuid false (fun _ => 0) (fun d => d) demo_layout 0x10000 0x9000 0xA000 kernel_base (2 ^ 21)
    boot_machine boot_image boot_reset)|].
  intros [] u Hr. eapply returns_mono; [exact Hr|]. intros pc b' [[Pc _ _ _ _ _ Sg] _]. split_and!.
  - rewrite Pc. vm_compute. reflexivity.
  - exact (Sg 1%nat 1%nat 12 ltac:(vm_decide) eq_refl eq_refl).
  - exact (Sg 0%nat 8%nat 0 ltac:(vm_decide) eq_refl eq_refl).
Defined.
