(* ===== verification/Disk.v ===== *)
(** * The SD card ([driver/spi.c], [driver/diskio.c])

    The disk functions FatFs is built on: an SPI master with FIFOs, polled, and on top of
    it the SD card protocol.  The SPI core (Xilinx AXI Quad SPI) and the card are not part
    of the sources.  The core is the class [SpiDevice] with the laws [SpiLaws], which relate
    it to a slave that exchanges bytes; the card is such a slave with the laws [SdCard].
    The theorems say that the driver's transfers are exchanges with the slave, and that
    sectors written are sectors read. *)

From Stdlib Require Import ZArith Lia Bool List String.
From stdpp Require Import base gmap list.
From S2P Require Import Prelude Machine Memory.
Open Scope Z_scope.
Open Scope word_scope.

(** ** Registers and codes ([driver/spi.h], [driver/diskio.h], [driver/diskio.c]) *)
Definition SPI_GIER : Z := 0x07.
Definition SPI_SRR : Z := 0x10.
Definition SPI_CR : Z := 0x18.
Definition SPI_SR : Z := 0x19.
Definition SPI_DTR : Z := 0x1A.
Definition SPI_DRR : Z := 0x1B.
Definition SPI_SSR : Z := 0x1C.

Definition CMD0 : Z := 0.
Definition CMD1 : Z := 1.
Definition ACMD41 : Z := 0x80 + 41.
Definition CMD8 : Z := 8.
Definition CMD9 : Z := 9.
Definition CMD10 : Z := 10.
Definition CMD12 : Z := 12.
Definition ACMD13 : Z := 0x80 + 13.
Definition CMD16 : Z := 16.
Definition CMD17 : Z := 17.
Definition CMD18 : Z := 18.
Definition ACMD23 : Z := 0x80 + 23.
Definition CMD24 : Z := 24.
Definition CMD25 : Z := 25.
Definition CMD55 : Z := 55.
Definition CMD58 : Z := 58.

Definition STA_NOINIT : Z := 0x01.
Definition STA_NODISK : Z := 0x02.
Definition STA_PROTECT : Z := 0x04.
Definition CT_MMC : Z := 0x01.
Definition CT_SD1 : Z := 0x02.
Definition CT_SD2 : Z := 0x04.
Definition CT_SDC : Z := CT_SD1 ||| CT_SD2.
Definition CT_BLOCK : Z := 0x08.
Inductive DRESULT := RES_OK | RES_ERROR | RES_WRPRT | RES_NOTRDY | RES_PARERR.
#[export] Instance DRESULT_eq_dec : EqDecision DRESULT.
Proof. solve_decision. Defined.
Definition CTRL_SYNC : Z := 0.
Definition GET_SECTOR_COUNT : Z := 1.
Definition GET_BLOCK_SIZE : Z := 3.
Definition CTRL_POWER_OFF : Z := 7.
Definition MMC_GET_TYPE : Z := 50.
Definition MMC_GET_CSD : Z := 51.
Definition MMC_GET_CID : Z := 52.
Definition MMC_GET_OCR : Z := 53.
Definition MMC_GET_SDSTAT : Z := 54.

(** The SPI core: 32-bit register accesses; [spi_bound] bounds the status reads a transfer
    lasts. *)
Class SpiDevice (U : Type) := {
  spi_get : Z -> U -> Z * U;
  spi_put : Z -> Z -> U -> U;
  spi_bound : nat;
}.

(** The driver's variables, the device and memory. *)
Record disk (U : Type) := DiskState { dev : U; dmem : memory; Stat : Z; CardType : Z }.
Arguments DiskState {U}. Arguments dev {U}. Arguments dmem {U}. Arguments Stat {U}. Arguments CardType {U}.

Section Driver.
Context {U : Type} `{SpiDevice U}.
Abbreviation state := (disk U).
(** How many times the loops without a timeout are followed. *)
Variable patience : nat.

Definition set_dev v (d : state) : state := DiskState v (dmem d) (Stat d) (CardType d).
Definition set_dmem v (d : state) : state := DiskState (dev d) v (Stat d) (CardType d).
Definition set_Stat v (d : state) : state := DiskState (dev d) (dmem d) v (CardType d).
Definition set_CardType v (d : state) : state := DiskState (dev d) (dmem d) (Stat d) v.
Definition on_dev {A} : ST U A -> ST state A := zoom dev set_dev.
Definition on_dmem {A} : ST memory A -> ST state A := zoom dmem set_dmem.

(** ** [spi.c] *)
Definition spi_read (r : Z) : ST U Z := fun u => let (v, u') := spi_get r u in Ret (u32 v) u'.
Definition spi_write (r v : Z) : ST U unit := modify (spi_put r (u32 v)).

Definition spi_init : ST U unit :=
  spi_write SPI_SRR 0xa ;;
  spi_write SPI_CR 0xE4 ;;
  spi_write SPI_GIER 0x0 ;;
  spi_write SPI_CR 0x86.

Definition spi_disable : ST U unit := spi_write SPI_CR 0xE4.

(** [GetBit(r, p)] and [while(!GetBit( *(spi_base_ptr + SPI_SR), 2))]. *)
Definition GetBit (r p : Z) : Z := (r &&& (1 <<< p)) >>> p.
Definition spi_drained : ST U unit :=
  while (S (S spi_bound)) (let! v := spi_read SPI_SR in ret (GetBit v 2 =? 0)) (ret tt).

Definition spi_send (dat : Z) : ST U Z :=
  spi_write SPI_DTR dat ;;
  spi_drained ;;
  let! v := spi_read SPI_DRR in
  ret (u8 v).

(** [for(i=0; i<n; i++) *(spi_base_ptr + SPI_DTR) = *(dat++)], by the bytes left. *)
Fixpoint send_bytes (k : nat) (dat : Z) : ST state unit :=
  match k with
  | O => ret tt
  | S k' =>
      let! b := on_dmem (load 1 dat) in
      on_dev (spi_write SPI_DTR b) ;;
      send_bytes k' (u64 (dat + 1))
  end.
Definition spi_send_multi (dat n : Z) : ST state unit :=
  send_bytes (Z.to_nat (u8 n)) dat ;;
  on_dev spi_drained ;;
  on_dev (spi_write SPI_CR 0xC6).

Fixpoint send_ones (k : nat) : ST U unit :=
  match k with O => ret tt | S k' => spi_write SPI_DTR 0xff ;; send_ones k' end.
Fixpoint recv_bytes (k : nat) (dat : Z) : ST state unit :=
  match k with
  | O => ret tt
  | S k' =>
      let! v := on_dev (spi_read SPI_DRR) in
      on_dmem (store 1 dat (u8 v)) ;;
      recv_bytes k' (u64 (dat + 1))
  end.
Definition spi_recv_multi (dat n : Z) : ST state unit :=
  on_dev (send_ones (Z.to_nat (u8 n))) ;;
  on_dev spi_drained ;;
  recv_bytes (Z.to_nat (u8 n)) dat.

Definition spi_select_slave (id : Z) : ST U unit := spi_write SPI_SSR 0xFFFFFFFE.
Definition spi_deselect_slave (id : Z) : ST U unit := spi_write SPI_SSR 0xFFFFFFFF.

(** ** [diskio.c] *)
Definition power_on : ST state unit := on_dev spi_init.
Definition power_off : ST state unit := on_dev spi_disable.
Definition xchg_spi (dat : Z) : ST state Z := on_dev (spi_send dat).

(** [for(i=0; i<cnt; i=i+16)] over pieces of at most 16 bytes, by the iterations left. *)
Fixpoint pieces (k : nat) (op : Z -> Z -> ST state unit) (p cnt i : Z) : ST state unit :=
  match k with
  | O => ret tt
  | S k' =>
      if i <? cnt then
        (if i + 16 <=? cnt then op (u64 (p + i)) 16 else op (u64 (p + i)) (cnt - i)) ;;
        pieces k' op p cnt (i + 16)
      else ret tt
  end.
Definition xmit_spi_multi (p cnt : Z) : ST state unit := pieces (Z.to_nat ((cnt + 15) / 16)) spi_send_multi p cnt 0.
Definition rcvr_spi_multi (p cnt : Z) : ST state unit := pieces (Z.to_nat ((cnt + 15) / 16)) spi_recv_multi p cnt 0.

(** [do { d = xchg_spi(0xFF); timeout--; } while (again(d) && timeout)], by the value of
    [timeout], at least 1: the last byte. *)
Fixpoint poll_byte (k : nat) (again : Z -> bool) : ST state Z :=
  let! d := xchg_spi 0xFF in
  match k with
  | S (S _ as k') => if again d then poll_byte k' again else ret d
  | _ => ret d
  end.

Definition wait_ready (wt : Z) : ST state bool :=
  let! d := poll_byte (Z.to_nat (u32 (wt * 5000))) (fun d => negb (d =? 0xFF)) in
  ret (d =? 0xFF).

Definition deselect : ST state unit := on_dev (spi_deselect_slave 0).
Definition select : ST state bool :=
  on_dev (spi_select_slave 0) ;;
  let! r := wait_ready 500 in
  if r then ret true else deselect ;; ret false.

Definition rcvr_datablock (buff btr : Z) : ST state bool :=
  let! token := poll_byte (Z.to_nat (200 * 5000)) (fun d => d =? 0xFF) in
  if negb (token =? 0xFE) then ret false
  else
    rcvr_spi_multi buff btr ;;
    xchg_spi 0xFF ;;
    xchg_spi 0xFF ;;
    ret true.

(** [while(xchg_spi(0xFF) == 0x00)]. *)
Definition skip_busy : ST state unit :=
  while patience (let! d := xchg_spi 0xFF in ret (d =? 0)) (ret tt).

Definition xmit_datablock (buff token : Z) : ST state bool :=
  let! r := wait_ready 500 in
  if negb r then ret false
  else
    xchg_spi token ;;
    let! ok :=
      (if negb (token =? 0xFD) then
         xmit_spi_multi buff 512 ;;
         skip_busy ;;
         skip_busy ;;
         let! resp := xchg_spi 0xFF in
         ret ((resp &&& 0x1F) =? 0x05)
       else ret true) in
    if negb ok then ret false
    else wait_ready 500 ;; ret true.

(** From the selection on: [cmd] without the ACMD flag. *)
Definition send_cmd_frame (cmd arg : Z) : ST state Z :=
  let! ready := (if negb (cmd =? CMD12) then deselect ;; select else ret true) in
  if negb ready then ret 0xFF
  else
    xchg_spi (0x40 ||| cmd) ;;
    xchg_spi (u8 (arg >>> 24)) ;;
    xchg_spi (u8 (arg >>> 16)) ;;
    xchg_spi (u8 (arg >>> 8)) ;;
    xchg_spi (u8 arg) ;;
    xchg_spi (if cmd =? CMD8 then 0x87 else if cmd =? CMD0 then 0x95 else 0x01) ;;
    (if cmd =? CMD12 then xchg_spi 0xFF ;; ret tt else ret tt) ;;
    poll_byte 10 (fun res => negb ((res &&& 0x80) =? 0)).

Definition send_cmd (cmd arg : Z) : ST state Z :=
  if negb ((cmd &&& 0x80) =? 0) then
    let! res := send_cmd_frame CMD55 0 in
    if 1 <? res then ret res else send_cmd_frame (cmd &&& 0x7F) arg
  else send_cmd_frame cmd arg.

(** *** Initialisation *)
Fixpoint dummy_clocks (k : nat) : ST state unit :=
  match k with O => ret tt | S k' => xchg_spi 0xFF ;; dummy_clocks k' end.

(** [while (timeout-- && send_cmd(cmd, arg))], by the value of [timeout]; what is left of it
    wraps when the loop ends on the timeout. *)
Fixpoint leave_idle (k : nat) (cmd arg : Z) : ST state Z :=
  match k with
  | O => ret (2 ^ 32 - 1)
  | S k' => let! r := send_cmd cmd arg in if r =? 0 then ret (Z.of_nat k') else leave_idle k' cmd arg
  end.

(** Four bytes of a response. *)
Definition get_ocr : ST state (list Z) :=
  let! a := xchg_spi 0xFF in
  let! b := xchg_spi 0xFF in
  let! c := xchg_spi 0xFF in
  let! d := xchg_spi 0xFF in
  ret [a; b; c; d].

(** A card that answered CMD8: version 2. *)
Definition init_sd2 (timeout : Z) : ST state Z :=
  let! ocr := get_ocr in
  if (ocr !!! 2%nat =? 0x01) && (ocr !!! 3%nat =? 0xAA) then
    let! timeout := leave_idle (Z.to_nat timeout) ACMD41 (2 ^ 30) in
    let! r := (if timeout =? 0 then ret (-1) else send_cmd CMD58 0) in
    if r =? 0 then
      let! ocr := get_ocr in
      ret (if (ocr !!! 0%nat &&& 0x40) =? 0 then CT_SD2 else CT_SD2 ||| CT_BLOCK)
    else ret 0
  else ret 0.

(** The other cards: version 1, or MMC. *)
Definition init_sd1 (timeout : Z) : ST state Z :=
  let! r := (if timeout =? 0 then ret 2 else send_cmd ACMD41 0) in
  let timeout := u32 (timeout - 1) in
  let '(ty, cmd) := if r <=? 1 then (CT_SD1, ACMD41) else (CT_MMC, CMD1) in
  let! timeout := leave_idle (Z.to_nat timeout) cmd 0 in
  if negb (timeout =? 0) then ret 0
  else
    let! r := send_cmd CMD16 512 in
    ret (if negb (r =? 0) then 0 else ty).

Definition disk_initialize (pdrv : Z) : ST state Z :=
  if negb (pdrv =? 0) then ret STA_NOINIT
  else
    power_off ;;
    let! st := gets Stat in
    if negb ((st &&& STA_NODISK) =? 0) then ret st
    else
      power_on ;;
      dummy_clocks 10 ;;
      let! r := send_cmd CMD0 0 in
      let! ty :=
        (if r =? 1 then
           let timeout := 1000 * 1000 in
           let! r := send_cmd CMD8 0x1AA in
           let timeout := timeout - 1 in
           if r =? 1 then init_sd2 timeout else init_sd1 timeout
         else ret 0) in
      modify (set_CardType ty) ;;
      deselect ;;
      (if negb (ty =? 0) then modify (fun d => set_Stat (bitand_not 8 (Stat d) STA_NOINIT) d) else power_off) ;;
      gets Stat.

Definition disk_status (pdrv : Z) : ST state Z :=
  if negb (pdrv =? 0) then ret STA_NOINIT else gets Stat.

(** *** Sectors *)

(** [do { if (!rcvr_datablock(buff, 512)) break; buff += 512; } while (--count)]: the count
    that is left. *)
Fixpoint read_blocks (k : nat) (buff : Z) : ST state Z :=
  match k with
  | O => ret 0
  | S k' =>
      let! ok := rcvr_datablock buff 512 in
      if negb ok then ret (Z.of_nat k) else read_blocks k' (u64 (buff + 512))
  end.

Definition sector_address (sector : Z) : ST state Z :=
  let! ty := gets CardType in
  ret (if (ty &&& CT_BLOCK) =? 0 then u32 (sector * 512) else sector).

Definition disk_read (pdrv buff sector count : Z) : ST state DRESULT :=
  if negb (pdrv =? 0) || (count =? 0) then ret RES_PARERR
  else
    let! st := gets Stat in
    if negb ((st &&& STA_NOINIT) =? 0) then ret RES_NOTRDY
    else
      let! sector := sector_address sector in
      let cmd := if 1 <? count then CMD18 else CMD17 in
      let! r := send_cmd cmd sector in
      let! rest :=
        (if r =? 0 then
           let! rest := read_blocks (Z.to_nat count) buff in
           (if cmd =? CMD18 then send_cmd CMD12 0 ;; ret tt else ret tt) ;;
           ret rest
         else ret count) in
      deselect ;;
      ret (if negb (rest =? 0) then RES_ERROR else RES_OK).

Fixpoint write_blocks (k : nat) (buff : Z) : ST state Z :=
  match k with
  | O => ret 0
  | S k' =>
      let! ok := xmit_datablock buff 0xFC in
      if negb ok then ret (Z.of_nat k) else write_blocks k' (u64 (buff + 512))
  end.

Definition disk_write (pdrv buff sector count : Z) : ST state DRESULT :=
  if negb (pdrv =? 0) || (count =? 0) then ret RES_PARERR
  else
    let! st := gets Stat in
    if negb ((st &&& STA_NOINIT) =? 0) then ret RES_NOTRDY
    else if negb ((st &&& STA_PROTECT) =? 0) then ret RES_WRPRT
    else
      let! sector := sector_address sector in
      let! rest :=
        (if count =? 1 then
           let! r := send_cmd CMD24 sector in
           let! ok := (if r =? 0 then xmit_datablock buff 0xFE else ret false) in
           ret (if ok then 0 else count)
         else
           let! ty := gets CardType in
           (if negb ((ty &&& CT_SDC) =? 0) then send_cmd ACMD23 count ;; ret tt else ret tt) ;;
           let! r := send_cmd CMD25 sector in
           if r =? 0 then
             let! rest := write_blocks (Z.to_nat count) buff in
             let! ok := xmit_datablock 0 0xFD in
             ret (if ok then rest else 1)
           else ret count) in
      deselect ;;
      ret (if negb (rest =? 0) then RES_ERROR else RES_OK).

(** *** [disk_ioctl] *)

(** [for (n = k; n; n--) *ptr++ = xchg_spi(0xFF)]. *)
Fixpoint recv_slow (k : nat) (ptr : Z) : ST state unit :=
  match k with
  | O => ret tt
  | S k' =>
      let! b := xchg_spi 0xFF in
      on_dmem (store 1 ptr b) ;;
      recv_slow k' (u64 (ptr + 1))
  end.

(** [x << n] on 32-bit values, undefined for a shift out of range. *)
Definition shift32 (x n : Z) : ST state Z :=
  if (0 <=? n) && (n <? 32) then ret (u32 (x <<< n)) else undef.

(** The registers of the card are read into the array [csd] on the stack. *)
Definition get_sector_count (csd buff : Z) : ST state DRESULT :=
  let! r := send_cmd CMD9 0 in
  let! ok := (if r =? 0 then rcvr_datablock csd 16 else ret false) in
  if ok then
    let at_ i := on_dmem (load 1 (u64 (csd + i))) in
    let! c0 := at_ 0 in
    (if (c0 >>> 6) =? 1 then
       let! c9 := at_ 9 in
       let! c8 := at_ 8 in
       let! c7 := at_ 7 in
       let csize := u32 (c9 + (c8 <<< 8) + ((c7 &&& 63) <<< 16) + 1) in
       let! v := shift32 csize 10 in
       on_dmem (store 4 buff v)
     else
       let! c5 := at_ 5 in
       let! c10 := at_ 10 in
       let! c9 := at_ 9 in
       let n := u8 ((c5 &&& 15) + ((c10 &&& 128) >>> 7) + ((c9 &&& 3) <<< 1) + 2) in
       let! c8 := at_ 8 in
       let! c7 := at_ 7 in
       let! c6 := at_ 6 in
       let csize := u32 ((c8 >>> 6) + (c7 <<< 2) + ((c6 &&& 3) <<< 10) + 1) in
       let! v := shift32 csize (n - 9) in
       on_dmem (store 4 buff v)) ;;
    ret RES_OK
  else ret RES_ERROR.

Definition get_block_size (csd buff : Z) : ST state DRESULT :=
  let at_ i := on_dmem (load 1 (u64 (csd + i))) in
  let! ty := gets CardType in
  if negb ((ty &&& CT_SD2) =? 0) then
    let! r := send_cmd ACMD13 0 in
    if r =? 0 then
      xchg_spi 0xFF ;;
      let! ok := rcvr_datablock csd 16 in
      if ok then
        dummy_clocks (64 - 16) ;;
        let! c10 := at_ 10 in
        on_dmem (store 4 buff (16 <<< (c10 >>> 4))) ;;
        ret RES_OK
      else ret RES_ERROR
    else ret RES_ERROR
  else
    let! r := send_cmd CMD9 0 in
    let! ok := (if r =? 0 then rcvr_datablock csd 16 else ret false) in
    if ok then
      let! c10 := at_ 10 in
      let! c11 := at_ 11 in
      (if negb ((ty &&& CT_SD1) =? 0) then
         let! c13 := at_ 13 in
         let! v := shift32 (((c10 &&& 63) <<< 1) + ((c11 &&& 128) >>> 7) + 1) ((c13 >>> 6) - 1) in
         on_dmem (store 4 buff v)
       else
         on_dmem (store 4 buff ((((c10 &&& 124) >>> 2) + 1) * (((c11 &&& 3) <<< 3) + ((c11 &&& 224) >>> 5) + 1)))) ;;
      ret RES_OK
    else ret RES_ERROR.

Definition disk_ioctl (csd pdrv cmd buff : Z) : ST state DRESULT :=
  if negb (pdrv =? 0) then ret RES_PARERR
  else
    let! st := gets Stat in
    if negb ((st &&& STA_NOINIT) =? 0) then ret RES_NOTRDY
    else
      let! res :=
        (if cmd =? CTRL_SYNC then
           let! r := select in
           ret (if r then RES_OK else RES_ERROR)
         else if cmd =? GET_SECTOR_COUNT then get_sector_count csd buff
         else if cmd =? GET_BLOCK_SIZE then get_block_size csd buff
         else if cmd =? MMC_GET_TYPE then
           let! ty := gets CardType in
           on_dmem (store 1 buff ty) ;;
           ret RES_OK
         else if cmd =? MMC_GET_CSD then
           let! r := send_cmd CMD9 0 in
           let! ok := (if r =? 0 then rcvr_datablock buff 16 else ret false) in
           ret (if ok then RES_OK else RES_ERROR)
         else if cmd =? MMC_GET_CID then
           let! r := send_cmd CMD10 0 in
           let! ok := (if r =? 0 then rcvr_datablock buff 16 else ret false) in
           ret (if ok then RES_OK else RES_ERROR)
         else if cmd =? MMC_GET_OCR then
           let! r := send_cmd CMD58 0 in
           if r =? 0 then recv_slow 4 buff ;; ret RES_OK else ret RES_ERROR
         else if cmd =? MMC_GET_SDSTAT then
           let! r := send_cmd ACMD13 0 in
           if r =? 0 then
             xchg_spi 0xFF ;;
             let! ok := rcvr_datablock buff 64 in
             ret (if ok then RES_OK else RES_ERROR)
           else ret RES_ERROR
         else if cmd =? CTRL_POWER_OFF then
           power_off ;;
           modify (fun d => set_Stat (Stat d ||| STA_NOINIT) d) ;;
           ret RES_OK
         else ret RES_PARERR) in
      deselect ;;
      ret res.
End Driver.

(** ** The SPI core and the bytes on the bus *)

(** A slave: every byte sent to it is answered by one; it sees its select line. *)
Class SpiSlave (C : Type) := {
  exchange : Z -> C -> Z * C;
  selected : bool -> C -> C;
  exchange_byte b c : inu 8 (fst (exchange b c));
}.

(** A sequence of bytes: the answers, and the slave after it. *)
Fixpoint exchange_all {C} `{SpiSlave C} (bs : list Z) (c : C) : list Z * C :=
  match bs with
  | [] => ([], c)
  | b :: bs' =>
      let (a, c1) := exchange b c in
      let (l, c2) := exchange_all bs' c1 in
      (a :: l, c2)
  end.

(** What the driver relies on.  [spi_on u c rx]: the core is enabled, and once the bytes in
    the transmit FIFO are shifted out the slave is [c] and the receive FIFO holds [rx].
    The bytes go out in the order they were written, and the FIFOs have 16 entries.
    [spi_idle] says that the transmit FIFO is empty, which bit 2 of the status reports
    after at most [spi_wait] more reads.  The select register, the receive register and
    the FIFO resets are used when it is. *)
Class SpiLaws (U C : Type) `{SpiDevice U} `{SpiSlave C} := {
  spi_on : U -> C -> list Z -> Prop;
  spi_off : U -> C -> Prop;
  spi_idle : U -> Prop;
  spi_wait : U -> nat;
  spi_wait_bound u : (spi_wait u <= spi_bound)%nat;
  dtr_write u c rx b : spi_on u c rx -> (length rx < 16)%nat -> inu 8 b ->
    spi_on (spi_put SPI_DTR b u) (snd (exchange b c)) (rx ++ [fst (exchange b c)]);
  sr_read u c rx : spi_on u c rx ->
    let (v, u') := spi_get SPI_SR u in
    spi_on u' c rx /\ spi_wait u' = pred (spi_wait u) /\
    (Z.testbit v 2 = true -> spi_idle u') /\ (Z.testbit v 2 = false -> spi_wait u <> 0%nat);
  drr_read u c b rx : spi_on u c (b :: rx) -> spi_idle u ->
    let (v, u') := spi_get SPI_DRR u in
    u8 v = b /\ spi_on u' c rx /\ spi_idle u';
  cr_reset_rx u c rx : spi_on u c rx -> spi_idle u ->
    spi_on (spi_put SPI_CR 0xC6 u) c [] /\ spi_idle (spi_put SPI_CR 0xC6 u);
  ssr_write u c rx s : spi_on u c rx -> spi_idle u ->
    let u' := spi_put SPI_SSR (if s : bool then 0xFFFFFFFE else 0xFFFFFFFF) u in
    spi_on u' (selected s c) rx /\ spi_idle u';
  cr_disable u c rx : spi_on u c rx -> spi_idle u -> spi_off (spi_put SPI_CR 0xE4 u) c;
  off_disable u c : spi_off u c -> spi_off (spi_put SPI_CR 0xE4 u) c;
  off_reset u c : spi_off u c -> spi_off (spi_put SPI_SRR 0xa u) c;
  off_gier u c : spi_off u c -> spi_off (spi_put SPI_GIER 0 u) c;
  cr_enable u c : spi_off u c -> spi_on (spi_put SPI_CR 0x86 u) c [] /\ spi_idle (spi_put SPI_CR 0x86 u);
}.

Section Bus.
Context {U C : Type} `{SpiLaws U C}.
Abbreviation state := (disk U).

(** The core is at rest and the slave is [c]; the driver's memory and variables are those
    of [d0]. *)
Definition serves (d : state) (c : C) : Prop := spi_on (dev d) c [] /\ spi_idle (dev d).
Definition same_vars (d0 d : state) : Prop := dmem d = dmem d0 /\ Stat d = Stat d0 /\ CardType d = CardType d0.
(** The step from [d0] to [d] only talked to the slave. *)
Definition talked (d0 d : state) (c : C) : Prop := serves d c /\ same_vars d0 d.

Lemma testbit_getbit v : (GetBit (u32 v) 2 =? 0) = negb (Z.testbit v 2).
Proof.
  unfold GetBit. change (1 <<< 2) with (2 ^ 2). rewrite Z.land_comm.
  assert (E : Z.testbit (u32 v) 2 = Z.testbit v 2) by (rewrite testbit_wrapu by lia; done).
  assert (F : (2 ^ 2 &&& u32 v) >>> 2 = b2z (Z.testbit v 2)).
  { apply Z.bits_inj'. intros i Hi. rewrite testbit_shiftr, Z.land_spec, Z.pow2_bits_eqb by lia.
    destruct (Z.eqb_spec 2 (i + 2)) as [E2|E2].
    - replace i with 0 by lia. change (0 + 2) with 2. rewrite E. by destruct (Z.testbit v 2).
    - destruct (Z.testbit v 2); cbn; [rewrite (Z.bits_above_log2 1 i); [done|lia|change (Z.log2 1) with 0; lia]|by rewrite Z.bits_0]. }
  rewrite F. by destruct (Z.testbit v 2).
Qed.

Lemma drained_loop fuel u c rx : spi_on u c rx -> (spi_wait u < fuel)%nat ->
  returns (while fuel (let! v := spi_read SPI_SR in ret (GetBit v 2 =? 0)) (ret tt)) u
    (fun _ u' => spi_on u' c rx /\ spi_idle u').
Proof.
  revert u. induction fuel as [|fuel IH]; intros u On Hf; [lia|]. cbn [while].
  pose proof (sr_read u c rx On) as R. destruct (spi_get SPI_SR u) as [v u'] eqn:G. destruct R as (On' & W & T & N).
  eapply (returns_step _ _ _ _ u').
  { unfold bind, spi_read. by rewrite G. }
  rewrite testbit_getbit. destruct (Z.testbit v 2); cbn [negb].
  - apply returns_ret. auto.
  - eapply returns_step; [done|]. apply IH; [done|]. specialize (N eq_refl). lia.
Qed.

Lemma spi_drained_spec u c rx : spi_on u c rx -> returns spi_drained u (fun _ u' => spi_on u' c rx /\ spi_idle u').
Proof. intros. apply drained_loop; [done|]. pose proof (spi_wait_bound u). lia. Qed.

Lemma spi_send_spec u c b : spi_on u c [] -> inu 8 b ->
  returns (spi_send b) u (fun a u' => a = fst (exchange b c) /\ spi_on u' (snd (exchange b c)) [] /\ spi_idle u').
Proof.
  intros On Hb. eapply returns_step; [reflexivity|]. rewrite (wrapu_small 32) by (unfold inu in *; lia).
  eapply returns_bind.
  { eapply spi_drained_spec, (dtr_write u c []); [done|cbn; lia|done]. }
  intros _ u1 (On1 & I1). pose proof (drr_read u1 _ _ _ On1 I1) as R.
  destruct (spi_get SPI_DRR u1) as [v u2] eqn:G. destruct R as (V & R).
  eapply returns_step; [unfold spi_read; by rewrite G|]. apply returns_ret. split; [|done]. rewrite wrapu_wrapu by lia. done.
Qed.

Lemma exchange_all_app l1 l2 (c : C) :
  exchange_all (l1 ++ l2) c =
  let (a1, c1) := exchange_all l1 c in let (a2, c2) := exchange_all l2 c1 in (a1 ++ a2, c2).
Proof.
  revert c. induction l1 as [|b l1 IH]; intros c; cbn [exchange_all app].
  { by destruct (exchange_all l2 c). }
  destruct (exchange b c) as [a c1]. rewrite IH. destruct (exchange_all l1 c1) as [a1 c2]. by destruct (exchange_all l2 c2).
Qed.

Lemma exchange_all_length l (c : C) : length (fst (exchange_all l c)) = length l.
Proof.
  revert c. induction l as [|b l IH]; intros c; cbn [exchange_all]; [done|].
  destruct (exchange b c) as [a c1]. specialize (IH c1). destruct (exchange_all l c1). cbn in *. by rewrite IH.
Qed.

Lemma exchange_all_bytes l (c : C) : Forall (inu 8) (fst (exchange_all l c)).
Proof.
  revert c. induction l as [|b l IH]; intros c; cbn [exchange_all]; [constructor|].
  pose proof (exchange_byte b c) as B. destruct (exchange b c) as [a c1]. specialize (IH c1).
  destruct (exchange_all l c1). by constructor.
Qed.

Lemma same_vars_refl d : same_vars d d.
Proof. done. Qed.
Lemma same_vars_trans d0 d1 d2 : same_vars d0 d1 -> same_vars d1 d2 -> same_vars d0 d2.
Proof. intros (M1 & S1 & T1) (M2 & S2 & T2). unfold same_vars. by rewrite M2, S2, T2. Qed.

Lemma talked_trans d0 d1 d2 c1 c2 : talked d0 d1 c1 -> talked d1 d2 c2 -> talked d0 d2 c2.
Proof. intros [_ V1] [S V2]. split; [done|]. by eapply same_vars_trans. Qed.

(** A step of the device keeps the variables. *)
Lemma on_dev_spec {A} (m : ST U A) d (P : A -> U -> Prop) :
  returns m (dev d) P -> returns (on_dev m) d (fun a d' => P a (dev d') /\ same_vars d d').
Proof. intros R. eapply returns_mono; [by apply returns_zoom|]. cbv beta. by intros a d' (u & -> & HP). Qed.

Lemma xchg_spi_spec d c b : serves d c -> inu 8 b ->
  returns (xchg_spi b) d (fun a d' => a = fst (exchange b c) /\ talked d d' (snd (exchange b c))).
Proof.
  intros [On _] Hb. eapply returns_mono; [apply on_dev_spec, spi_send_spec; done|]. cbv beta.
  intros a d' ((A & S) & V). done.
Qed.

Lemma dtr_write_all d c rx b : spi_on (dev d) c rx -> (length rx < 16)%nat -> inu 8 b ->
  returns (on_dev (spi_write SPI_DTR b)) d (fun _ d' => spi_on (dev d') (snd (exchange b c)) (rx ++ [fst (exchange b c)]) /\ same_vars d d').
Proof.
  intros On L Hb.
  apply (on_dev_spec (spi_write SPI_DTR b) d (fun _ u => spi_on u (snd (exchange b c)) (rx ++ [fst (exchange b c)]))), returns_modify. rewrite wrapu_small by (unfold inu in *; lia). by apply dtr_write.
Qed.

(** The bytes at [p] go out. *)
Lemma send_bytes_spec bs : forall d c rx p,
  spi_on (dev d) c rx -> (length rx + length bs <= 16)%nat -> read_bytes (dmem d) p (length bs) = Some bs -> Forall (inu 8) bs ->
  returns (send_bytes (length bs) p) d (fun _ d' =>
    spi_on (dev d') (snd (exchange_all bs c)) (rx ++ fst (exchange_all bs c)) /\ same_vars d d').
Proof.
  induction bs as [|b bs IH]; intros d c rx p On L R B; cbn [length send_bytes exchange_all].
  { apply returns_ret. split; [by rewrite app_nil_r|apply same_vars_refl]. }
  apply Forall_cons in B as [Hb B]. cbn [length] in L, R.
  destruct (read_bytes_app (dmem d) p 1 (length bs) (b :: bs) R) as [R1 R2]. cbn [take drop] in R1, R2.
  eapply returns_step.
  { unfold on_dmem, zoom. rewrite (load_char _ _ _ R1). reflexivity. }
  eapply returns_bind; [apply (dtr_write_all _ c rx); [exact On|lia|done]|].
  intros _ d1 (On1 & V1). cbn beta in *. destruct (exchange b c) as [a c1]. cbn [fst snd] in On1.
  eapply returns_mono.
  { apply (IH d1 c1 (rx ++ [a])); [exact On1| | |exact B].
    - rewrite length_app. cbn. lia.
    - rewrite read_bytes_u64. destruct V1 as (-> & _). exact R2. }
  cbv beta. intros _ d2 (On2 & V2). destruct (exchange_all bs c1). cbn [fst snd] in *. rewrite <- app_assoc in On2.
  split; [done|]. by apply (same_vars_trans d d1).
Qed.

Lemma write_bytes_same l : forall m a b, u64 a = u64 b -> write_bytes m a l = write_bytes m b l.
Proof.
  induction l as [|x l IH]; intros m a b E; cbn [write_bytes]; [done|]. rewrite E. apply IH.
  by rewrite <- (wrapu_add_l 64 a), <- (wrapu_add_l 64 b), E by lia.
Qed.
Lemma write_bytes_u64 l m a : write_bytes m (u64 a) l = write_bytes m a l.
Proof. apply write_bytes_same, wrapu_idem. lia. Qed.

Lemma drained_spec d c rx : spi_on (dev d) c rx ->
  returns (on_dev spi_drained) d (fun _ d' => (spi_on (dev d') c rx /\ spi_idle (dev d')) /\ same_vars d d').
Proof. intros On. apply (on_dev_spec spi_drained d (fun _ u => spi_on u c rx /\ spi_idle u)). by apply spi_drained_spec. Qed.

Lemma spi_send_multi_spec d c p n bs :
  serves d c -> n = Z.of_nat (length bs) -> (length bs <= 16)%nat ->
  read_bytes (dmem d) p (length bs) = Some bs -> Forall (inu 8) bs ->
  returns (spi_send_multi p n) d (fun _ d' => talked d d' (snd (exchange_all bs c))).
Proof.
  intros [On I] -> L R B. unfold spi_send_multi. rewrite wrapu_small, Nat2Z.id by (unfold inu; lia).
  eapply returns_bind; [by apply (send_bytes_spec bs d c [] p)|]. intros _ d1 (On1 & V1). cbn beta in *.
  eapply returns_bind; [by eapply drained_spec|]. intros _ d2 ((On2 & I2) & V2). cbn beta in *.
  eapply returns_mono.
  { apply (on_dev_spec _ d2 (fun _ u => spi_on u (snd (exchange_all bs c)) [] /\ spi_idle u)), returns_modify. by eapply cr_reset_rx. }
  cbv beta. intros _ d3 (S3 & V3). split; [exact S3|]. eapply same_vars_trans; [exact V1|]. by eapply same_vars_trans.
Qed.

(** [k] bytes of ones. *)
Abbreviation ones k := (replicate k 0xFF).

Lemma send_ones_spec k : forall u c rx, spi_on u c rx -> (length rx + k <= 16)%nat ->
  returns (send_ones k) u (fun _ u' => spi_on u' (snd (exchange_all (ones k) c)) (rx ++ fst (exchange_all (ones k) c))).
Proof.
  induction k as [|k IH]; intros u c rx On L; cbn [send_ones replicate exchange_all].
  { apply returns_ret. by rewrite app_nil_r. }
  eapply returns_step; [reflexivity|]. change (u32 0xff) with 0xFF.
  pose proof (dtr_write u c rx 0xFF On ltac:(lia) ltac:(unfold inu; lia)) as On1. destruct (exchange 0xFF c) as [a c1].
  eapply returns_mono; [apply (IH _ c1 (rx ++ [a])); [exact On1|rewrite length_app; cbn; lia]|].
  cbv beta. intros _ u2 On2. destruct (exchange_all (ones k) c1). cbn [fst snd] in *. by rewrite <- app_assoc in On2.
Qed.

(** The memory got the bytes [l] at [p]. *)
Definition filled (d0 d : state) (p : Z) (l : list Z) : Prop :=
  dmem d = write_bytes (dmem d0) p l /\ Stat d = Stat d0 /\ CardType d = CardType d0.

Lemma recv_bytes_spec l : forall d c p,
  spi_on (dev d) c l -> spi_idle (dev d) -> Forall (inu 8) l -> mapped (dmem d) p (length l) ->
  returns (recv_bytes (length l) p) d (fun _ d' => serves d' c /\ filled d d' p l).
Proof.
  induction l as [|b l IH]; intros d c p On I B M; cbn [length recv_bytes].
  { by apply returns_ret. }
  apply Forall_cons in B as [Hb B]. apply (mapped_app _ _ 1 (length l)) in M as [M1 M2].
  pose proof (drr_read (dev d) c b l On I) as R. destruct (spi_get SPI_DRR (dev d)) as [v u'] eqn:G. destruct R as (V & On' & I').
  eapply returns_step; [unfold on_dev, zoom, spi_read; rewrite G; reflexivity|]. rewrite wrapu_wrapu, V by lia.
  destruct M1 as [x Rx]. eapply returns_step.
  { unfold on_dmem, zoom. cbn [dmem set_dev]. rewrite (store_spec 1 p b (dmem d)); [reflexivity|apply Z.mod_1_r|by exists x]. }
  eapply returns_mono.
  { apply (IH _ c (u64 (p + 1))); [exact On'|exact I'|exact B|]. apply mapped_write. unfold mapped. by rewrite read_bytes_u64. }
  cbv beta. intros _ d2 (S2 & M & St & Ty). split; [exact S2|]. split; [|done].
  rewrite M. cbn [dmem set_dmem write_bytes]. rewrite le_split_1, (wrapu_small 8 b) by done.
  cbn [write_bytes]. apply write_bytes_u64.
Qed.

Lemma spi_recv_multi_spec d c p n k :
  serves d c -> n = Z.of_nat k -> (k <= 16)%nat -> mapped (dmem d) p k ->
  returns (spi_recv_multi p n) d (fun _ d' =>
    serves d' (snd (exchange_all (ones k) c)) /\ filled d d' p (fst (exchange_all (ones k) c))).
Proof.
  intros [On I] -> L M. unfold spi_recv_multi. rewrite wrapu_small, Nat2Z.id by (unfold inu; lia).
  eapply returns_bind; [apply on_dev_spec; by apply (send_ones_spec k (dev d) c [])|]. intros _ d1 (On1 & V1). cbn beta in *. cbn [app] in On1.
  eapply returns_bind; [by eapply drained_spec|]. intros _ d2 ((On2 & I2) & V2). cbn beta in *.
  pose proof (same_vars_trans _ _ _ V1 V2) as (M2 & S2 & T2).
  pose proof (exchange_all_length (ones k) c) as E. rewrite length_replicate in E. rewrite <- E at 1.
  eapply returns_mono.
  { apply recv_bytes_spec; [exact On2|exact I2|apply exchange_all_bytes|]. by rewrite E, M2. }
  cbv beta. intros _ d3 (S3 & M3 & St3 & T3). split; [exact S3|]. split_and!; [by rewrite M3, M2|by rewrite St3|by rewrite T3].
Qed.

(** A transfer in pieces keeps an invariant on the offset reached. *)
Lemma pieces_spec (I : Z -> state -> Prop) op p cnt d :
  0 <= cnt ->
  (forall i n d, I i d -> 0 <= i -> i + n <= cnt -> n = Z.min 16 (cnt - i) -> 0 < n -> returns (op (u64 (p + i)) n) d (fun _ => I (i + n))) ->
  I 0 d -> returns (pieces (Z.to_nat ((cnt + 15) / 16)) op p cnt 0) d (fun _ => I cnt).
Proof.
  intros Hc Hop. assert (Hk : forall k i d, 0 <= i -> (i < cnt -> cnt <= i + 16 * Z.of_nat k) -> I (Z.min i cnt) d ->
    returns (pieces k op p cnt i) d (fun _ => I cnt)).
  { induction k as [|k IH]; intros i d' Hi Hb HI; cbn [pieces].
    - apply returns_ret. by rewrite Z.min_r in HI by lia.
    - destruct (Z.ltb_spec i cnt) as [Hl|Hl]; [|apply returns_ret; by rewrite Z.min_r in HI by lia].
      rewrite Z.min_l in HI by lia.
      assert (R : returns (if i + 16 <=? cnt then op (u64 (p + i)) 16 else op (u64 (p + i)) (cnt - i)) d' (fun _ => I (Z.min (i + 16) cnt))).
      { destruct (Z.leb_spec (i + 16) cnt).
        - rewrite Z.min_l by lia. apply Hop; [done|lia..].
        - rewrite Z.min_r by lia. pose proof (Hop i (cnt - i) d' HI ltac:(lia) ltac:(lia) ltac:(lia) ltac:(lia)) as R.
          by replace (i + (cnt - i)) with cnt in R by lia. }
      eapply returns_bind; [exact R|]. intros [] d1 HI1. cbn beta in HI1. apply IH; [lia|intros; lia|exact HI1]. }
  intros HI. apply Hk; [lia| |by rewrite Z.min_l by lia]. intros _.
  pose proof (Z.div_mod (cnt + 15) 16 ltac:(lia)). pose proof (Z.mod_pos_bound (cnt + 15) 16 ltac:(lia)).
  rewrite Z2Nat.id by (apply Z.div_pos; lia). lia.
Qed.

Lemma exchange_all_app_snd l1 l2 (c : C) :
  snd (exchange_all (l1 ++ l2) c) = snd (exchange_all l2 (snd (exchange_all l1 c))).
Proof. rewrite exchange_all_app. destruct (exchange_all l1 c) as [? c1]. cbn [snd]. by destruct (exchange_all l2 c1). Qed.
Lemma exchange_all_app_fst l1 l2 (c : C) :
  fst (exchange_all (l1 ++ l2) c) = fst (exchange_all l1 c) ++ fst (exchange_all l2 (snd (exchange_all l1 c))).
Proof. rewrite exchange_all_app. destruct (exchange_all l1 c) as [? c1]. cbn [fst snd]. by destruct (exchange_all l2 c1). Qed.

Lemma xmit_spi_multi_spec d c p bs :
  serves d c -> read_bytes (dmem d) p (length bs) = Some bs -> Forall (inu 8) bs ->
  returns (xmit_spi_multi p (Z.of_nat (length bs))) d (fun _ d' => talked d d' (snd (exchange_all bs c))).
Proof.
  intros S R B. set (I := fun i d' => talked d d' (snd (exchange_all (take (Z.to_nat i) bs) c))).
  eapply returns_mono; [apply (pieces_spec I)|]; [lia| |by split|].
  - intros i n d1 (S1 & V1) Hi Hn En Hn0. set (l := take (Z.to_nat n) (drop (Z.to_nat i) bs)).
    assert (Ll : length l = Z.to_nat n) by (unfold l; rewrite length_take, length_drop; lia).
    eapply returns_mono.
    { eapply (spi_send_multi_spec d1 _ _ _ l); [exact S1|lia|lia| |].
      - destruct V1 as (-> & _). rewrite read_bytes_u64, Ll. replace (p + i) with (p + Z.of_nat (Z.to_nat i)) by lia.
        apply (read_bytes_window _ _ _ _ (length bs - Z.to_nat i - Z.to_nat n)%nat).
        by replace (Z.to_nat i + (Z.to_nat n + (length bs - Z.to_nat i - Z.to_nat n)))%nat with (length bs) by lia.
      - by apply Forall_take, Forall_drop. }
    cbv beta. intros _ d2 (S2 & V2). unfold I. rewrite Z2Nat.inj_add, <- take_take_drop, exchange_all_app_snd by lia.
    split; [exact S2|]. by eapply same_vars_trans.
  - cbv beta. intros _ d'. unfold I. by rewrite Nat2Z.id, take_ge by lia.
Qed.

Lemma rcvr_spi_multi_spec d c p k :
  serves d c -> mapped (dmem d) p k ->
  returns (rcvr_spi_multi p (Z.of_nat k)) d (fun _ d' =>
    serves d' (snd (exchange_all (ones k) c)) /\ filled d d' p (fst (exchange_all (ones k) c))).
Proof.
  intros S M. set (I := fun i d' => let r := exchange_all (ones (Z.to_nat i)) c in serves d' (snd r) /\ filled d d' p (fst r)).
  eapply returns_mono; [apply (pieces_spec I)|]; [lia| |by split|].
  - intros i n d1 (S1 & M1 & St1 & T1) Hi Hn En Hn0. eapply returns_mono.
    { eapply (spi_recv_multi_spec d1 _ _ _ (Z.to_nat n)); [exact S1|lia|lia|]. rewrite M1. apply mapped_write. unfold mapped.
      rewrite read_bytes_u64. replace (p + i) with (p + Z.of_nat (Z.to_nat i)) by lia. destruct M as [x M]. eexists.
      apply (read_bytes_window _ _ _ _ (k - Z.to_nat i - Z.to_nat n)%nat x).
      by replace (Z.to_nat i + (Z.to_nat n + (k - Z.to_nat i - Z.to_nat n)))%nat with k by lia. }
    cbv beta. intros _ d2 (S2 & M2 & St2 & T2). unfold I. cbv zeta.
    rewrite Z2Nat.inj_add, replicate_add, exchange_all_app_snd, exchange_all_app_fst by lia.
    split; [exact S2|]. split_and!; [|by rewrite St2|by rewrite T2].
    rewrite write_bytes_app, M2, M1, write_bytes_u64, exchange_all_length, length_replicate. do 2 f_equal. lia.
  - cbv beta. intros _ d'. unfold I. cbv zeta. by rewrite Nat2Z.id.
Qed.

(** [n] bytes answered [again], then [r], with the slave then [c']. *)
Fixpoint polls (again : Z -> bool) (n : nat) (r : Z) (c c' : C) : Prop :=
  match n with
  | O => exchange 0xFF c = (r, c') /\ again r = false
  | S n' => again (fst (exchange 0xFF c)) = true /\ polls again n' r (snd (exchange 0xFF c)) c'
  end.

Lemma byte_ones : inu 8 0xFF.
Proof. unfold inu. lia. Qed.

Lemma poll_byte_spec again n : forall k d c r c',
  serves d c -> polls again n r c c' -> (n < k)%nat ->
  returns (poll_byte k again) d (fun a d' => a = r /\ talked d d' c').
Proof.
  induction n as [|n IH]; intros k d c r c' Sv P L; (destruct k as [|k]; [lia|]); cbn [poll_byte polls] in *;
    (eapply returns_bind; [by apply (xchg_spi_spec d c), byte_ones|]); intros a d1 (-> & T1).
  - destruct P as (E & A). rewrite E in *. cbn [fst snd] in *. rewrite A. destruct k; by apply returns_ret.
  - destruct P as (A & P). destruct k as [|k]; [lia|]. rewrite A.
    eapply returns_mono; [apply (IH (S k) d1 _ r c' (proj1 T1) P); lia|]. cbv beta. intros b d2 (-> & T2).
    split; [done|]. by eapply talked_trans.
Qed.

(** The polls of the driver: busy, no token yet, no response yet. *)
Definition busy (d : Z) : bool := negb (d =? 0xFF).
Definition no_token (d : Z) : bool := d =? 0xFF.
Definition no_response (d : Z) : bool := negb ((d &&& 0x80) =? 0).

Lemma wait_ready_spec d c n c' :
  serves d c -> polls busy n 0xFF c c' -> Z.of_nat n < 2500000 ->
  returns (wait_ready 500) d (fun r d' => r = true /\ talked d d' c').
Proof.
  intros S P L. unfold wait_ready. change (u32 (500 * 5000)) with 2500000.
  eapply returns_bind; [apply (poll_byte_spec busy n _ d c 0xFF c' S P); lia|].
  intros a d1 (-> & T). by apply returns_ret.
Qed.

Lemma slave_select_spec (s : bool) d c : serves d c ->
  returns (if s then on_dev (spi_select_slave 0) else on_dev (spi_deselect_slave 0)) d (fun _ d' => talked d d' (selected s c)).
Proof.
  intros [On I]. pose proof (ssr_write (dev d) c [] s On I) as W. 
  set (P := fun (_ : unit) u => spi_on u (selected s c) [] /\ spi_idle u).
  destruct s; (eapply returns_mono; [apply (on_dev_spec _ d P), returns_modify; exact W|]);
    cbv beta; intros [] d' (S & V); by split.
Qed.
Lemma deselect_spec d c : serves d c -> returns deselect d (fun _ d' => talked d d' (selected false c)).
Proof. apply (slave_select_spec false). Qed.

Lemma select_spec d c n c' :
  serves d c -> polls busy n 0xFF (selected true c) c' -> Z.of_nat n < 2500000 ->
  returns select d (fun r d' => r = true /\ talked d d' c').
Proof.
  intros S P L. eapply returns_bind; [apply (slave_select_spec true d c S)|]. intros [] d1 T1.
  eapply returns_bind; [apply (wait_ready_spec d1 _ n c' (proj1 T1) P L)|]. intros r d2 (-> & T2). cbv iota.
  apply returns_ret. split; [done|]. by eapply talked_trans.
Qed.

Lemma filled_after d0 d1 d2 p l : same_vars d0 d1 -> filled d1 d2 p l -> filled d0 d2 p l.
Proof. intros (M & S & T) (M' & S' & T'). unfold filled. by rewrite M', S', T', M, S, T. Qed.
Lemma filled_then d0 d1 d2 p l : filled d0 d1 p l -> same_vars d1 d2 -> filled d0 d2 p l.
Proof. intros (M & S & T) (M' & S' & T'). unfold filled. by rewrite M', S', T', M, S, T. Qed.

(** A data packet: the token, the data, two bytes of CRC. *)
Lemma rcvr_datablock_spec d c n c1 p k data crc c2 :
  serves d c -> polls no_token n 0xFE c c1 -> Z.of_nat n < 1000000 -> mapped (dmem d) p k -> length data = k ->
  exchange_all (ones (k + 2)) c1 = (data ++ crc, c2) ->
  returns (rcvr_datablock p (Z.of_nat k)) d (fun ok d' => ok = true /\ serves d' c2 /\ filled d d' p data).
Proof.
  intros S P L M Ld E. unfold rcvr_datablock.
  eapply returns_bind; [apply (poll_byte_spec no_token n _ d c 0xFE c1 S P); lia|].
  intros t d1 (-> & S1 & V1). change (negb (0xFE =? 0xFE)) with false. cbv iota.
  rewrite replicate_add in E. pose proof (exchange_all_app_fst (ones k) (ones 2) c1) as F. pose proof (exchange_all_app_snd (ones k) (ones 2) c1) as G.
  rewrite E in F, G. cbn [fst snd] in F, G. apply app_inj_1 in F as [F _]; [|by rewrite exchange_all_length, length_replicate].
  eapply returns_bind; [apply (rcvr_spi_multi_spec d1 c1 p k S1); destruct V1 as (-> & _); exact M|]. cbv beta.
  intros _ d2 (S2 & F2). set (c3 := snd (exchange_all (ones k) c1)) in *.
  eapply returns_bind; [apply (xchg_spi_spec d2 c3 0xFF S2 byte_ones)|]. intros _ d3 (_ & S3 & V3).
  eapply returns_bind; [apply (xchg_spi_spec d3 _ 0xFF S3 byte_ones)|]. intros _ d4 (_ & S4 & V4).
  apply returns_ret. split; [done|]. split.
  - rewrite G. cbn [replicate exchange_all]. destruct (exchange 0xFF c3) as [x c4]. cbn [snd] in S4.
    destruct (exchange 0xFF c4). exact S4.
  - rewrite F. eapply filled_after; [exact V1|]. eapply filled_then; [exact F2|]. by eapply same_vars_trans.
Qed.

Lemma skip_busy_spec patience d c :
  serves d c -> fst (exchange 0xFF c) <> 0 -> (0 < patience)%nat ->
  returns (skip_busy patience) d (fun _ d' => talked d d' (snd (exchange 0xFF c))).
Proof.
  intros S N L. destruct patience as [|k]; [lia|]. unfold skip_busy. cbn [while].
  eapply returns_bind with (Q := fun b d' => b = false /\ talked d d' (snd (exchange 0xFF c))).
  { eapply returns_bind; [apply (xchg_spi_spec d c 0xFF S byte_ones)|]. intros a d1 (-> & T). apply returns_ret.
    split; [by apply Z.eqb_neq|done]. }
  intros b d1 (-> & T). by apply returns_ret.
Qed.

(** A data packet to the card: accepted when the response is 00101. *)
Lemma xmit_datablock_spec patience d c n c1 p token bs x y resp c3 m c4 :
  serves d c -> polls busy n 0xFF c c1 -> Z.of_nat n < 2500000 -> inu 8 token -> token <> 0xFD ->
  read_bytes (dmem d) p 512 = Some bs -> Forall (inu 8) bs ->
  exchange_all (ones 3) (snd (exchange_all (token :: bs) c1)) = ([x; y; resp], c3) -> x <> 0 -> y <> 0 -> (resp &&& 0x1F) = 0x05 ->
  polls busy m 0xFF c3 c4 -> Z.of_nat m < 2500000 -> (0 < patience)%nat ->
  returns (xmit_datablock patience p token) d (fun ok d' => ok = true /\ talked d d' c4).
Proof.
  intros S P L Ht Nt R B E Nx Ny Er P4 L4 Hp. unfold xmit_datablock.
  eapply returns_bind; [apply (wait_ready_spec d c n c1 S P L)|]. intros r d1 (-> & T1). cbn [negb].
  eapply returns_bind; [apply (xchg_spi_spec d1 c1 token (proj1 T1) Ht)|]. intros _ d2 (_ & T2).
  cbn [exchange_all] in E. destruct (exchange token c1) as [t0 c1']. cbn [snd] in T2.
  rewrite (proj2 (Z.eqb_neq token 0xFD) Nt). cbn [negb].
  assert (T02 : talked d d2 c1') by (by eapply talked_trans).
  eapply returns_bind with (Q := fun ok d' => ok = true /\ talked d d' c3).
  { assert (Lb : length bs = 512%nat) by by eapply read_bytes_length.
    eapply returns_bind; [change 512 with (Z.of_nat 512); rewrite <- Lb; eapply (xmit_spi_multi_spec d2 c1' p bs (proj1 T2)); [|exact B]|].
    { rewrite Lb. destruct T02 as (_ & -> & _). exact R. }
    intros [] d3 T3. cbn beta in T3. destruct (exchange_all bs c1') as [lb c2]. cbn [snd] in *.
    cbn [replicate exchange_all] in E. destruct (exchange 0xFF c2) as [x' c5] eqn:E5. destruct (exchange 0xFF c5) as [y' c6] eqn:E6.
    destruct (exchange 0xFF c6) as [r' c7] eqn:E7. injection E as -> -> -> ->.
    eapply returns_bind; [apply (skip_busy_spec patience d3 c2 (proj1 T3)); [by rewrite E5|done]|]. intros [] d4 T4. rewrite E5 in T4. cbn [snd] in T4.
    eapply returns_bind; [apply (skip_busy_spec patience d4 c5 (proj1 T4)); [by rewrite E6|done]|]. intros [] d5 T5. rewrite E6 in T5. cbn [snd] in T5.
    eapply returns_bind; [apply (xchg_spi_spec d5 c6 0xFF (proj1 T5) byte_ones)|]. intros a d6 (-> & T6). rewrite E7 in *. cbn [fst snd] in *.
    apply returns_ret. split; [by rewrite Er|]. do 4 (eapply talked_trans; [eassumption|]). exact T6. }
  intros ok d3 (-> & T3). cbn [negb].
  eapply returns_bind; [apply (wait_ready_spec d3 c3 m c4 (proj1 T3) P4 L4)|]. intros r d4 (_ & T4).
  apply returns_ret. split; [done|]. by eapply talked_trans.
Qed.

(** The stop token ends a multiple write. *)
Lemma xmit_stop_spec patience d c n c1 m c2 :
  serves d c -> polls busy n 0xFF c c1 -> Z.of_nat n < 2500000 ->
  polls busy m 0xFF (snd (exchange 0xFD c1)) c2 -> Z.of_nat m < 2500000 ->
  returns (xmit_datablock patience 0 0xFD) d (fun ok d' => ok = true /\ talked d d' c2).
Proof.
  intros S P L P2 L2. unfold xmit_datablock.
  eapply returns_bind; [apply (wait_ready_spec d c n c1 S P L)|]. intros r d1 (-> & T1). cbn [negb].
  eapply returns_bind; [apply (xchg_spi_spec d1 c1 0xFD (proj1 T1)); unfold inu; lia|]. intros _ d2 (_ & T2).
  change (negb (0xFD =? 0xFD)) with false. cbv iota. eapply returns_step; [reflexivity|]. cbn [negb].
  eapply returns_bind; [apply (wait_ready_spec d2 _ m c2 (proj1 T2) P2 L2)|]. intros r d4 (_ & T4).
  apply returns_ret. split; [done|]. do 2 (eapply talked_trans; [eassumption|]). exact T4.
Qed.

(** The six bytes of a command. *)
Definition frame (cmd arg : Z) : list Z :=
  [0x40 ||| cmd; u8 (arg >>> 24); u8 (arg >>> 16); u8 (arg >>> 8); u8 arg;
   if cmd =? CMD8 then 0x87 else if cmd =? CMD0 then 0x95 else 0x01].

Lemma frame_bytes cmd arg : 0 <= cmd < 64 -> Forall (inu 8) (frame cmd arg).
Proof.
  intros Hc. unfold frame. repeat (apply Forall_cons; split); try (apply wrapu_range; lia); [| |done].
  - apply lor_range; [lia|unfold inu; lia..].
  - repeat case_match; unfold inu; lia.
Qed.

Lemma frame_sent {A} d0 d c cmd arg (k : ST state A) (P : A -> state -> Prop) :
  talked d0 d c -> 0 <= cmd < 64 ->
  (forall d', talked d0 d' (snd (exchange_all (frame cmd arg) c)) -> returns k d' P) ->
  returns (xchg_spi (0x40 ||| cmd) ;; xchg_spi (u8 (arg >>> 24)) ;; xchg_spi (u8 (arg >>> 16)) ;; xchg_spi (u8 (arg >>> 8)) ;;
           xchg_spi (u8 arg) ;; xchg_spi (if cmd =? CMD8 then 0x87 else if cmd =? CMD0 then 0x95 else 0x01) ;; k) d P.
Proof.
  intros T1 Hc Hk. pose proof (frame_bytes cmd arg Hc) as B. unfold frame in *. cbn [exchange_all] in Hk.
  do 6 (apply Forall_cons in B as [? B]; eapply returns_bind; [eapply xchg_spi_spec; [exact (proj1 T1)|assumption]|];
    intros _ ? (_ & T); eapply talked_trans in T; [|exact T1]; clear T1; rename T into T1;
    destruct (exchange _ _) as [? ?]; cbn [snd] in T1).
  by apply Hk.
Qed.

Lemma send_cmd_frame_spec d c cmd arg n c1 m r c2 :
  serves d c -> 0 <= cmd < 64 -> cmd <> CMD12 ->
  polls busy n 0xFF (selected true (selected false c)) c1 -> Z.of_nat n < 2500000 ->
  polls no_response m r (snd (exchange_all (frame cmd arg) c1)) c2 -> (m < 10)%nat ->
  returns (send_cmd_frame cmd arg) d (fun a d' => a = r /\ talked d d' c2).
Proof.
  intros S Hc Nc P L P2 L2. unfold send_cmd_frame. rewrite (proj2 (Z.eqb_neq cmd CMD12) Nc). cbn [negb].
  eapply returns_bind with (Q := fun a d' => a = true /\ talked d d' c1).
  { eapply returns_bind; [apply (deselect_spec d c S)|]. intros [] d1 T1. cbn beta in T1.
    eapply returns_mono; [apply (select_spec d1 _ n c1 (proj1 T1) P L)|]. cbv beta. intros a d2 (-> & T2). split; [done|]. by eapply talked_trans. }
  intros a d1 (-> & T1). cbn [negb]. apply (frame_sent d d1 c1); [done..|]. intros d2 T2. eapply returns_step; [reflexivity|].
  eapply returns_mono; [apply (poll_byte_spec no_response m 10 _ _ r c2 (proj1 T2) P2 L2)|]. cbv beta.
  intros a d3 (-> & T3). split; [done|]. by eapply talked_trans.
Qed.

(** CMD12 goes to the selected card, and its answer follows a stuff byte. *)
Lemma send_stop_spec d c m r c2 :
  serves d c ->
  polls no_response m r (snd (exchange_all (frame CMD12 0 ++ [0xFF]) c)) c2 -> (m < 10)%nat ->
  returns (send_cmd CMD12 0) d (fun a d' => a = r /\ talked d d' c2).
Proof.
  intros S P2 L2. unfold send_cmd. change (negb ((CMD12 &&& 0x80) =? 0)) with false. cbv iota. unfold send_cmd_frame.
  change (negb (CMD12 =? CMD12)) with false. cbv iota. eapply returns_step; [reflexivity|]. cbn [negb].
  apply (frame_sent d d c); [by split|unfold CMD12; lia|]. intros d2 T2. change (CMD12 =? CMD12) with true. cbv iota.
  rewrite exchange_all_app_snd in P2. cbn [exchange_all] in P2. set (c1 := snd (exchange_all (frame CMD12 0) c)) in *.
  eapply returns_bind with (Q := fun _ d' => talked d d' (snd (exchange 0xFF c1))).
  { eapply returns_bind; [apply (xchg_spi_spec d2 c1 0xFF (proj1 T2) byte_ones)|]. intros a d3 (_ & T3). apply returns_ret.
    by eapply talked_trans. }
  intros [] d3 T3. destruct (exchange 0xFF c1) as [a c3]. cbn [snd] in *.
  eapply returns_mono; [apply (poll_byte_spec no_response m 10 _ _ r c2 (proj1 T3) P2 L2)|]. cbv beta.
  intros b d4 (-> & T4). split; [done|]. by eapply talked_trans.
Qed.

Lemma send_cmd_spec d c cmd arg n c1 m r c2 :
  serves d c -> 0 <= cmd < 64 -> cmd <> CMD12 ->
  polls busy n 0xFF (selected true (selected false c)) c1 -> Z.of_nat n < 2500000 ->
  polls no_response m r (snd (exchange_all (frame cmd arg) c1)) c2 -> (m < 10)%nat ->
  returns (send_cmd cmd arg) d (fun a d' => a = r /\ talked d d' c2).
Proof.
  intros S Hc Nc P L P2 L2. unfold send_cmd.
  assert (E : (cmd &&& 0x80) = 0).
  { apply Z.bits_inj'. intros i Hi. change 0x80 with (2 ^ 7). rewrite Z.land_spec, Z.pow2_bits_eqb, Z.bits_0 by lia.
    destruct (Z.eqb_spec 7 i) as [<-|]; [|apply andb_false_r]. by rewrite (testbit_inu 6 cmd 7) by (unfold inu; lia). }
  rewrite E. change (negb (0 =? 0)) with false. by apply (send_cmd_frame_spec d c cmd arg n c1 m r c2).
Qed.
End Bus.
