(* ===== verification/SdCard.v ===== *)
(** * Sectors on the card

    The theorems of the disk functions of [driver/diskio.c] (modelled in [Disk.v]), against
    the protocol of an SD card in SPI mode.  The protocol is an abstract machine: the
    phases of a card, the table [sd_answer] of the answers to the commands, and the class
    [SdCard] of the slaves that follow it.  [sdhc] is a card that does, behind [fifo_core],
    an SPI core that follows the laws of [Disk.v]. *)

From Stdlib Require Import ZArith Lia Bool List String.
From stdpp Require Import base gmap list.
From S2P Require Import Prelude Machine Memory Disk.
Open Scope Z_scope.
Open Scope word_scope.

(** ** The protocol *)

(** Between commands a card is powered up, idle, or ready; [tries] counts the ACMD41 it still
    answers with "in idle state", and [app] says that the last command was CMD55.  It then
    owes the rest of a response, or sends or takes data packets, from sector [s] on. *)
Inductive phase :=
| Powered (tries : nat)
| Idle (tries : nat) (app : bool)
| Ready (app : bool)
| Reply (bytes : list Z) (next : phase)
| Sending (s : Z) (multi : bool)
| Taking (s : Z) (multi : bool).

Abbreviation sectors := (gmap Z (list Z)).

(** A sector's address: its number, or its first byte on a card of standard capacity. *)
Definition sd_address (hc : bool) (s : Z) : Z := if hc then s else s * 512.
Definition addressed (hc : bool) (st : sectors) (a : Z) : option Z :=
  let s := if hc then a else a / 512 in
  if (sd_address hc s =? a) && bool_decide (is_Some (st !! s)) then Some s else None.

(** A command with an address: a parameter error when there is no such sector. *)
Definition data_command (mk : Z -> phase) (s : option Z) : Z * phase :=
  match s with Some s => (0, mk s) | None => (0x40, Ready false) end.

(** The first byte of the response (R1) to a command and the next phase, for the commands
    the driver relies on. *)
Definition sd_answer (hc : bool) (st : sectors) (ph : phase) (cmd arg : Z) : option (Z * phase) :=
  match ph with
  | Powered tries => if (cmd =? CMD0) && (arg =? 0) then Some (1, Idle tries false) else None
  | Idle tries false =>
      if (cmd =? CMD8) && (arg =? 0x1AA) then Some (1, Reply [0; 0; 0x01; 0xAA] (Idle tries false))
      else if (cmd =? CMD55) && (arg =? 0) then Some (1, Idle tries true)
      else None
  | Idle tries true =>
      if (cmd =? 41) && (arg =? 2 ^ 30) then
        match tries with O => Some (0, Ready false) | S tries' => Some (1, Idle tries' false) end
      else None
  | Ready false =>
      if (cmd =? CMD58) && (arg =? 0) then Some (0, Reply [if hc then 0xC0 else 0x80; 0xFF; 0x80; 0] (Ready false))
      else if (cmd =? CMD55) && (arg =? 0) then Some (0, Ready true)
      else if cmd =? CMD17 then Some (data_command (fun s => Sending s false) (addressed hc st arg))
      else if cmd =? CMD18 then Some (data_command (fun s => Sending s true) (addressed hc st arg))
      else if cmd =? CMD24 then Some (data_command (fun s => Taking s false) (addressed hc st arg))
      else if cmd =? CMD25 then Some (data_command (fun s => Taking s true) (addressed hc st arg))
      else None
  | Ready true => if cmd =? 23 then Some (0, Ready false) else None
  | _ => None
  end.

(** The card takes commands. *)
Definition between_commands (ph : phase) : bool :=
  match ph with Powered _ | Idle _ _ | Ready _ => true | _ => false end.

(** Sectors have 512 bytes. *)
Definition sectors_ok (st : sectors) : Prop := map_Forall (fun _ b => length b = 512%nat /\ Forall (inu 8) b) st.

(** The next phase after a data packet of sector [s]. *)
Definition after_packet (mk : Z -> bool -> phase) (s : Z) (multi : bool) : phase :=
  if multi then mk (s + 1) true else Ready false.

(** A slave that follows the protocol: [sd_at c st ph] says that it is in phase [ph] with
    contents [st], and [sd_awake] that it is selected and not busy.  It is busy for fewer
    bytes than the driver waits, answers a command within 8 bytes, and starts a data packet
    with the token 0xFE, in place of which an error token comes after the last sector. *)
Class SdCard (C : Type) `{SpiSlave C} := {
  sd_hc : bool;
  sd_at : C -> sectors -> phase -> Prop;
  sd_awake : C -> sectors -> phase -> Prop;
  sd_wake c st ph : sd_at c st ph -> between_commands ph = true ->
    exists n c', polls busy n 0xFF (selected true (selected false c)) c' /\ Z.of_nat n < 2500000 /\ sd_awake c' st ph;
  sd_deselected c st : sd_at c st (Ready false) -> sd_at (selected false c) st (Ready false);
  sd_polled c st : sd_at c st (Ready false) ->
    exists n c', polls busy n 0xFF (selected true c) c' /\ Z.of_nat n < 2500000 /\ sd_at c' st (Ready false);
  sd_clocks c st tries : sd_at c st (Powered tries) -> sd_at (snd (exchange_all (replicate 10 0xFF) c)) st (Powered tries);
  sd_command c st ph cmd arg r ph' : sd_awake c st ph -> inu 32 arg -> sd_answer sd_hc st ph cmd arg = Some (r, ph') ->
    exists m c', polls no_response m r (snd (exchange_all (frame cmd arg) c)) c' /\ (m < 8)%nat /\ sd_at c' st ph';
  sd_reply c st l ph : sd_at c st (Reply l ph) ->
    exists c', exchange_all (replicate (length l) 0xFF) c = (l, c') /\ sd_at c' st ph;
  sd_packet c st s multi data : sd_at c st (Sending s multi) -> st !! s = Some data ->
    exists n c1 crc c2, polls no_token n 0xFE c c1 /\ Z.of_nat n < 1000000 /\
      exchange_all (replicate (512 + 2) 0xFF) c1 = (data ++ crc, c2) /\ sd_at c2 st (after_packet Sending s multi);
  sd_beyond c st s : sd_at c st (Sending s true) -> st !! s = None ->
    exists n t c1, polls no_token n t c c1 /\ Z.of_nat n < 1000000 /\ t <> 0xFE /\ sd_at c1 st (Sending s true);
  sd_stop c st s : sd_at c st (Sending s true) ->
    exists m r c', polls no_response m r (snd (exchange_all (frame CMD12 0 ++ [0xFF]) c)) c' /\ (m < 8)%nat /\ sd_at c' st (Ready false);
  sd_accept c st s multi data : sd_at c st (Taking s multi) -> is_Some (st !! s) -> length data = 512%nat -> Forall (inu 8) data ->
    exists n c1 x y resp c2 m c3, polls busy n 0xFF c c1 /\ Z.of_nat n < 2500000 /\
      exchange_all (replicate 3 0xFF) (snd (exchange_all ((if multi then 0xFC else 0xFE) :: data) c1)) = ([x; y; resp], c2) /\
      x <> 0 /\ y <> 0 /\ (resp &&& 0x1F) = 0x05 /\
      polls busy m 0xFF c2 c3 /\ Z.of_nat m < 2500000 /\ sd_at c3 (<[s := data]> st) (after_packet Taking s multi);
  sd_stop_token c st s : sd_at c st (Taking s true) ->
    exists n c1 m c2, polls busy n 0xFF c c1 /\ Z.of_nat n < 2500000 /\
      polls busy m 0xFF (snd (exchange 0xFD c1)) c2 /\ Z.of_nat m < 2500000 /\ sd_at c2 st (Ready false);
}.

(** ** The driver against the protocol *)
Section Card.
Context {U C : Type} `{SpiLaws U C} `{!SdCard C}.
Abbreviation state := (disk U).
Implicit Types (d : state) (st : sectors).

(** The disk: the core serves a card in phase [ph] with contents [st]. *)
Definition holds d st ph : Prop := exists c, serves d c /\ sd_at c st ph.

(** A command that the protocol answers. *)
Lemma frame_answered d st ph cmd arg r ph' :
  holds d st ph -> between_commands ph = true -> 0 <= cmd < 64 -> cmd <> CMD12 -> inu 32 arg ->
  sd_answer sd_hc st ph cmd arg = Some (r, ph') ->
  returns (send_cmd_frame cmd arg) d (fun a d' => a = r /\ holds d' st ph' /\ same_vars d d').
Proof.
  intros (c & S & A) B Hc Nc Ha E. destruct (sd_wake c st ph A B) as (n & c1 & P & Ln & W).
  destruct (sd_command c1 st ph cmd arg r ph' W Ha E) as (m & c2 & P2 & Lm & A2).
  eapply returns_mono; [apply (send_cmd_frame_spec d c cmd arg n c1 m r c2 S Hc Nc P Ln P2); lia|].
  cbv beta. intros a d' (-> & T). split; [done|]. split; [|apply T]. exists c2. split; [apply T|done].
Qed.

Lemma command_answered d st ph cmd arg r ph' :
  holds d st ph -> between_commands ph = true -> 0 <= cmd < 64 /\ cmd <> CMD12 /\ (cmd &&& 0x80) = 0 -> inu 32 arg ->
  sd_answer sd_hc st ph cmd arg = Some (r, ph') ->
  returns (send_cmd cmd arg) d (fun a d' => a = r /\ holds d' st ph' /\ same_vars d d').
Proof. intros Hd B (Hc & Nc & E) Ha An. unfold send_cmd. rewrite E. cbn [Z.eqb negb]. by apply (frame_answered d st ph cmd arg r ph'). Qed.

(** An application command is CMD55 and the command. *)
Lemma app_command_answered d st ph ph1 r1 acmd cmd arg r ph' :
  holds d st ph -> between_commands ph = true -> 0 <= cmd < 64 /\ cmd <> CMD12 /\ (acmd &&& 0x80) <> 0 /\ (acmd &&& 0x7F) = cmd ->
  inu 32 arg -> sd_answer sd_hc st ph CMD55 0 = Some (r1, ph1) -> r1 <= 1 -> between_commands ph1 = true ->
  sd_answer sd_hc st ph1 cmd arg = Some (r, ph') ->
  returns (send_cmd acmd arg) d (fun a d' => a = r /\ holds d' st ph' /\ same_vars d d').
Proof.
  intros Hd B (Hc & Nc & F80 & F7F) Ha E1 L1 B1 E2. unfold send_cmd. rewrite (proj2 (Z.eqb_neq _ _) F80), F7F. cbn [negb].
  eapply returns_bind; [apply (frame_answered d st ph CMD55 0 r1 ph1 Hd B); [unfold CMD55; lia|done|unfold inu; lia|exact E1]|].
  intros a d1 (-> & Hd1 & V1). rewrite (proj2 (Z.ltb_ge 1 r1) L1).
  eapply returns_mono; [apply (frame_answered d1 st ph1 cmd arg r ph' Hd1 B1 Hc Nc Ha E2)|].
  cbv beta. intros a d2 (-> & Hd2 & V2). split_and!; [done|done|]. by eapply same_vars_trans.
Qed.

(** ** Reading *)

(** A data packet of the card goes to the buffer. *)
Lemma packet_received d st s multi data p :
  holds d st (Sending s multi) -> st !! s = Some data -> length data = 512%nat -> mapped (dmem d) p 512 ->
  returns (rcvr_datablock p 512) d (fun ok d' => ok = true /\ holds d' st (after_packet Sending s multi) /\ filled d d' p data).
Proof.
  intros (c & S & A) L Ld M. destruct (sd_packet c st s multi data A L) as (n & c1 & crc & c2 & P & Ln & E & A2).
  eapply returns_mono; [apply (rcvr_datablock_spec d c n c1 p 512 data crc c2 S P Ln M Ld E)|].
  cbv beta. intros ok d' (-> & S2 & F). split_and!; [done| |done]. by exists c2.
Qed.

(** The sectors from [s] on. *)
Fixpoint sector_run (st : sectors) (s : Z) (l : list (list Z)) : Prop :=
  match l with
  | [] => True
  | b :: l' => st !! s = Some b /\ sector_run st (s + 1) l'
  end.

Lemma filled_app d0 d1 d2 p l1 l2 q : filled d0 d1 p l1 -> filled d1 d2 q l2 -> u64 q = u64 (p + Z.of_nat (length l1)) -> filled d0 d2 p (l1 ++ l2).
Proof.
  intros (M & S & T) (M' & S' & T') E. unfold filled. rewrite M', S', T', M, S, T, write_bytes_app. split; [|done].
  by apply write_bytes_same.
Qed.

Lemma read_blocks_run l : forall d st s p,
  sectors_ok st -> holds d st (Sending s true) -> sector_run st s l -> mapped (dmem d) p (512 * length l) ->
  returns (read_blocks (length l) p) d (fun n d' => n = 0 /\ holds d' st (Sending (s + Z.of_nat (length l)) true) /\ filled d d' p (concat l)).
Proof.
  induction l as [|b l IH]; intros d st s p Ok Hd R M; cbn [length read_blocks sector_run concat] in *.
  { apply returns_ret. rewrite Z.add_0_r. done. }
  destruct R as [Lb R]. destruct (Ok s b Lb) as [L512 _].
  replace (512 * S (length l))%nat with (512 + 512 * length l)%nat in M by lia. apply mapped_app in M as [M1 M2].
  eapply returns_bind; [apply (packet_received d st s true b p Hd Lb L512 M1)|]. intros ok d1 (-> & Hd1 & F1). cbn [negb].
  eapply returns_mono.
  { apply (IH d1 st (s + 1) (u64 (p + 512)) Ok Hd1 R). destruct F1 as (-> & _). apply mapped_write. unfold mapped. by rewrite read_bytes_u64. }
  cbv beta. intros n d2 (-> & Hd2 & F2). split_and!; [done|by replace (s + Z.of_nat (S (length l))) with (s + 1 + Z.of_nat (length l)) by lia|].
  eapply filled_app; [exact F1|exact F2|]. rewrite L512, wrapu_idem by lia. done.
Qed.

(** The disk is initialised, for the kind of card there is, and the card is ready. *)
Definition mounted d st : Prop :=
  holds d st (Ready false) /\ sectors_ok st /\ (Stat d &&& STA_NOINIT) = 0 /\ ((CardType d &&& CT_BLOCK) =? 0) = negb sd_hc.

Lemma mounted_vars d d' st st' : mounted d st -> holds d' st' (Ready false) -> sectors_ok st' -> Stat d' = Stat d -> CardType d' = CardType d -> mounted d' st'.
Proof. intros (_ & _ & E & T) Hd Ok Es Et. unfold mounted. by rewrite Es, Et. Qed.

Lemma sector_address_spec d st s : mounted d st -> inu 32 (sd_address sd_hc s) -> sector_address s d = Ret (sd_address sd_hc s) d.
Proof.
  intros (_ & _ & _ & T) Hs. unfold sector_address, gets, bind, ret, sd_address in *. rewrite T.
  destruct sd_hc; cbn [negb]; [done|]. by rewrite wrapu_small.
Qed.

Lemma addressed_sector hc st s : addressed hc st (sd_address hc s) = if bool_decide (is_Some (st !! s)) then Some s else None.
Proof.
  unfold addressed, sd_address. destruct hc; [by rewrite Z.eqb_refl|]. by rewrite Z.div_mul, Z.eqb_refl by lia.
Qed.

(** The end of a transfer: the card is deselected. *)
Lemma released d st : holds d st (Ready false) ->
  returns deselect d (fun _ d' => holds d' st (Ready false) /\ same_vars d d').
Proof.
  intros (c & S & A). eapply returns_mono; [apply (deselect_spec d c S)|]. cbv beta. intros [] d' T.
  split; [|apply T]. exists (selected false c). split; [apply T|by apply sd_deselected].
Qed.

Lemma reading_stopped d st s : holds d st (Sending s true) ->
  returns (send_cmd CMD12 0) d (fun _ d' => holds d' st (Ready false) /\ same_vars d d').
Proof.
  intros (c & S & A). destruct (sd_stop c st s A) as (m & r & c' & P & L & A'). eapply returns_mono; [apply (send_stop_spec d c m r c' S P); lia|].
  cbv beta. intros a d' (_ & T). split; [|apply T]. exists c'. split; [apply T|done].
Qed.

(** What a read does up to the data: the parameters are accepted and the command is sent. *)
Lemma disk_read_start d st s count buff (P : DRESULT -> state -> Prop) :
  mounted d st -> inu 32 (sd_address sd_hc s) -> 1 <= count ->
  (forall d1, same_vars d d1 ->
     holds d1 st (if bool_decide (is_Some (st !! s)) then Sending s (1 <? count) else Ready false) ->
     returns
       (let! rest :=
          (if bool_decide (is_Some (st !! s)) then
             let! rest := read_blocks (Z.to_nat count) buff in
             (if 1 <? count then send_cmd CMD12 0 ;; ret tt else ret tt) ;; ret rest
           else ret count) in
        deselect ;; ret (if negb (rest =? 0) then RES_ERROR else RES_OK)) d1 P) ->
  returns (disk_read 0 buff s count) d P.
Proof.
  intros Hm Hs Hc Hk. unfold disk_read. rewrite (proj2 (Z.eqb_neq count 0)) by lia. cbn [Z.eqb negb orb].
  eapply returns_step; [reflexivity|]. destruct Hm as (Hd & Ok & E & T). rewrite E. cbn [Z.eqb negb].
  eapply returns_step; [by eapply sector_address_spec|].
  set (ph := if bool_decide (is_Some (st !! s)) then Sending s (1 <? count) else Ready false) in *.
  eapply returns_bind.
  { apply (command_answered d st (Ready false) _ _ (if bool_decide (is_Some (st !! s)) then 0 else 0x40) ph); [exact Hd|done|destruct (1 <? count); vm_compute; intuition congruence|exact Hs|].
    subst ph. cbn [sd_answer]. destruct (1 <? count); cbn -[addressed data_command]; rewrite addressed_sector; by destruct (bool_decide _). }
  intros r d1 (-> & Hd1 & V1). specialize (Hk d1 V1).
  replace ((if 1 <? count then CMD18 else CMD17) =? CMD18) with (1 <? count) by (by destruct (1 <? count)).
  specialize (Hk Hd1). by destruct (bool_decide (is_Some (st !! s))).
Qed.

Lemma disk_read_ok d st s l buff :
  mounted d st -> sector_run st s l -> l <> [] -> inu 32 (sd_address sd_hc s) -> mapped (dmem d) buff (512 * length l) ->
  returns (disk_read 0 buff s (Z.of_nat (length l))) d (fun r d' =>
    r = RES_OK /\ mounted d' st /\ filled d d' buff (concat l)).
Proof.
  intros Hm R Nl Hs M. destruct l as [|b l]; [done|]. pose proof Hm as (_ & Ok & _). pose proof R as [Lb R']. destruct (Ok s b Lb) as [L512 _].
  apply (disk_read_start d st s); [done|done|cbn; lia|]. rewrite bool_decide_true by eauto. intros d1 V1 Hd1.
  eapply returns_bind with (Q := fun n d' => n = 0 /\ holds d' st (Ready false) /\ filled d d' buff (concat (b :: l))).
  { pose proof V1 as (M1 & _). destruct (Z.ltb_spec 1 (Z.of_nat (length (b :: l)))) as [L|L].
    - rewrite Nat2Z.id. eapply returns_bind; [apply (read_blocks_run (b :: l) d1 st s buff Ok Hd1 R); by rewrite M1|].
      intros n d2 (-> & Hd2 & F2).
      eapply returns_bind with (Q := fun _ d' => holds d' st (Ready false) /\ same_vars d2 d').
      { eapply returns_bind; [apply (reading_stopped d2 st _ Hd2)|]. intros a d3 Q3. by apply returns_ret. }
      intros [] d3 (Hd3 & V3). apply returns_ret. split_and!; [done|done|]. eapply filled_after; [exact V1|]. by eapply filled_then.
    - destruct l; [|cbn in L; lia]. change (Z.to_nat (Z.of_nat (length [b]))) with 1%nat. cbn [read_blocks concat]. rewrite app_nil_r.
      eapply returns_bind with (Q := fun n d' => n = 0 /\ holds d' st (Ready false) /\ filled d1 d' buff b).
      { eapply returns_bind; [apply (packet_received d1 st s false b buff Hd1 Lb L512); by rewrite M1|].
        intros ok d2 (-> & Hd2 & F2). cbn [negb]. by apply returns_ret. }
      intros n d2 (-> & Hd2 & F2). eapply returns_step; [reflexivity|]. apply returns_ret. split_and!; [done|done|]. by eapply filled_after. }
  intros n d2 (-> & Hd2 & F2). eapply returns_bind; [apply (released d2 st Hd2)|]. intros [] d3 (Hd3 & V3). apply returns_ret.
  pose proof (filled_then _ _ _ _ _ F2 V3) as F3. split_and!; [done| |done]. by apply (mounted_vars d d3 st st); try apply F3.
Qed.

(** A read that leaves the card: the sectors there are, and an error. *)
Lemma read_blocks_beyond l : forall d st s p k,
  sectors_ok st -> holds d st (Sending s true) -> sector_run st s l -> st !! (s + Z.of_nat (length l)) = None ->
  mapped (dmem d) p (512 * length l) ->
  returns (read_blocks (length l + S k) p) d (fun n d' => n = Z.of_nat (S k) /\
    holds d' st (Sending (s + Z.of_nat (length l)) true) /\ filled d d' p (concat l)).
Proof.
  induction l as [|b l IH]; intros d st s p k Ok Hd R N M; cbn [length Nat.add read_blocks sector_run concat] in *.
  { rewrite Z.add_0_r in *. destruct Hd as (c & Sv & A). destruct (sd_beyond c st s A N) as (n & t & c1 & P & Ln & Nt & A1).
    unfold rcvr_datablock. eapply returns_bind with (Q := fun ok d' => ok = false /\ talked d d' c1).
    { eapply returns_bind; [apply (poll_byte_spec no_token n _ d c t c1 Sv P); lia|]. intros a d1 (-> & T1).
      rewrite (proj2 (Z.eqb_neq t 0xFE) Nt). by apply returns_ret. }
    intros ok d1 (-> & Sv1 & V1). cbn [negb]. apply returns_ret. split_and!; [done|by exists c1|exact V1]. }
  destruct R as [Lb R]. destruct (Ok s b Lb) as [L512 _].
  replace (512 * S (length l))%nat with (512 + 512 * length l)%nat in M by lia. apply mapped_app in M as [M1 M2].
  eapply returns_bind; [apply (packet_received d st s true b p Hd Lb L512 M1)|]. intros ok d1 (-> & Hd1 & F1). cbn [negb].
  eapply returns_mono.
  { apply (IH d1 st (s + 1) (u64 (p + 512)) k Ok Hd1 R).
    - by replace (s + 1 + Z.of_nat (length l)) with (s + Z.of_nat (S (length l))) by lia.
    - destruct F1 as (-> & _). apply mapped_write. unfold mapped. by rewrite read_bytes_u64. }
  cbv beta. intros n d2 (-> & Hd2 & F2). split_and!; [done|by replace (s + Z.of_nat (S (length l))) with (s + 1 + Z.of_nat (length l)) by lia|].
  eapply filled_app; [exact F1|exact F2|]. rewrite L512, wrapu_idem by lia. done.
Qed.

Lemma disk_read_short d st s l k buff :
  mounted d st -> sector_run st s l -> st !! (s + Z.of_nat (length l)) = None -> inu 32 (sd_address sd_hc s) ->
  mapped (dmem d) buff (512 * length l) ->
  returns (disk_read 0 buff s (Z.of_nat (length l + S k))) d (fun r d' =>
    r = RES_ERROR /\ mounted d' st /\ filled d d' buff (concat l)).
Proof.
  intros Hm R N Hs M. pose proof Hm as (_ & Ok & _).
  apply (disk_read_start d st s); [done|done|lia|]. intros d1 V1 Hd1.
  eapply returns_bind with (Q := fun n d' => n <> 0 /\ holds d' st (Ready false) /\ filled d d' buff (concat l)).
  { destruct l as [|b l].
    - rewrite Z.add_0_r in N. rewrite N in *. cbn [bool_decide] in *. apply returns_ret. split_and!; [lia|exact Hd1|exact V1].
    - pose proof V1 as (M1 & _). rewrite bool_decide_true in * by (destruct R; eauto).
      rewrite (proj2 (Z.ltb_lt 1 (Z.of_nat _))) in * by (cbn [length]; lia).
      rewrite Nat2Z.id. eapply returns_bind; [apply (read_blocks_beyond (b :: l) d1 st s buff k Ok Hd1 R N); by rewrite M1|].
      intros n d2 (-> & Hd2 & F2).
      eapply returns_bind with (Q := fun _ d' => holds d' st (Ready false) /\ same_vars d2 d').
      { eapply returns_bind; [apply (reading_stopped d2 st _ Hd2)|]. intros a d3 Q3. by apply returns_ret. }
      intros [] d3 (Hd3 & V3). apply returns_ret. split_and!; [lia|done|]. eapply filled_after; [exact V1|]. by eapply filled_then. }
  intros n d2 (Nn & Hd2 & F2). eapply returns_bind; [apply (released d2 st Hd2)|]. intros [] d3 (Hd3 & V3).
  rewrite (proj2 (Z.eqb_neq n 0) Nn). cbn [negb]. apply returns_ret.
  pose proof (filled_then _ _ _ _ _ F2 V3) as F3. split_and!; [done| |done]. by apply (mounted_vars d d3 st st); try apply F3.
Qed.

(** ** Writing *)
Definition blocks_ok (l : list (list Z)) : Prop := Forall (fun b => length b = 512%nat /\ Forall (inu 8) b) l.
Definition present (st : sectors) (s : Z) (n : nat) : Prop := forall i, s <= i < s + Z.of_nat n -> is_Some (st !! i).

(** The contents after the blocks [l] are written from sector [s] on. *)
Fixpoint write_run (st : sectors) (s : Z) (l : list (list Z)) : sectors :=
  match l with [] => st | b :: l' => write_run (<[s := b]> st) (s + 1) l' end.

Lemma write_run_other l : forall st s i, ~ s <= i < s + Z.of_nat (length l) -> write_run st s l !! i = st !! i.
Proof.
  induction l as [|b l IH]; intros st s i N; cbn [write_run length] in *; [done|].
  rewrite IH, lookup_insert_ne by lia. done.
Qed.

Lemma write_run_reads l : forall st s, sector_run (write_run st s l) s l.
Proof.
  induction l as [|b l IH]; intros st s; cbn [write_run sector_run]; [done|]. split; [|apply IH].
  rewrite write_run_other by lia. apply lookup_insert_eq.
Qed.

Lemma write_run_ok l : forall st s, sectors_ok st -> blocks_ok l -> sectors_ok (write_run st s l).
Proof.
  induction l as [|b l IH]; intros st s Ok B; cbn [write_run]; [done|]. apply Forall_cons in B as [Hb B]. apply IH; [|done].
  by apply map_Forall_insert_2.
Qed.

(** How often the busy loops are followed. *)
Section Writing.
Variable patience : nat.
Hypothesis patient : (0 < patience)%nat.

(** A block of the buffer becomes a sector. *)
Lemma packet_accepted d st s multi p data :
  holds d st (Taking s multi) -> is_Some (st !! s) -> read_bytes (dmem d) p 512 = Some data -> Forall (inu 8) data ->
  returns (xmit_datablock patience p (if multi then 0xFC else 0xFE)) d (fun ok d' =>
    ok = true /\ holds d' (<[s := data]> st) (after_packet Taking s multi) /\ same_vars d d').
Proof.
  intros (c & S & A) Hs R B. pose proof (read_bytes_length _ _ _ _ R) as L.
  destruct (sd_accept c st s multi data A Hs L B) as (n & c1 & x & y & resp & c2 & m & c3 & P & Ln & E & Nx & Ny & Er & P3 & Lm & A3).
  eapply returns_mono.
  { eapply (xmit_datablock_spec patience d c n c1 p _ data x y resp c2 m c3); try eassumption; destruct multi; unfold inu; lia. }
  cbv beta. intros ok d' (-> & T). split_and!; [done| |apply T]. exists c3. split; [apply T|done].
Qed.

Lemma write_blocks_run l : forall d st s p,
  holds d st (Taking s true) -> present st s (length l) -> blocks_ok l -> read_bytes (dmem d) p (512 * length l) = Some (concat l) ->
  returns (write_blocks patience (length l) p) d (fun n d' => n = 0 /\
    holds d' (write_run st s l) (Taking (s + Z.of_nat (length l)) true) /\ same_vars d d').
Proof.
  induction l as [|b l IH]; intros d st s p Hd Pr B R; cbn [length write_blocks write_run concat] in *.
  { apply returns_ret. by rewrite Z.add_0_r. }
  apply Forall_cons in B as [[L512 Hb] B].
  replace (512 * S (length l))%nat with (512 + 512 * length l)%nat in R by lia. apply read_bytes_app in R as [R1 R2].
  rewrite (take_app_length' b _ 512) in R1 by done. rewrite (drop_app_length' b _ 512) in R2 by done.
  eapply returns_bind; [apply (packet_accepted d st s true p b Hd); [apply Pr; lia|exact R1|exact Hb]|]. intros ok d1 (-> & Hd1 & V1). cbn [negb].
  eapply returns_mono.
  { apply (IH d1 (<[s := b]> st) (s + 1) (u64 (p + 512)) Hd1); [|exact B|].
    - intros i Hi. rewrite lookup_insert_ne by lia. apply Pr. lia.
    - destruct V1 as (-> & _). rewrite read_bytes_u64. exact R2. }
  cbv beta. intros n d2 (-> & Hd2 & V2). split_and!; [done|by replace (s + Z.of_nat (S (length l))) with (s + 1 + Z.of_nat (length l)) by lia|].
  by eapply same_vars_trans.
Qed.

Lemma writing_stopped d st s : holds d st (Taking s true) ->
  returns (xmit_datablock patience 0 0xFD) d (fun ok d' => ok = true /\ holds d' st (Ready false) /\ same_vars d d').
Proof.
  intros (c & S & A). destruct (sd_stop_token c st s A) as (n & c1 & m & c2 & P & Ln & P2 & Lm & A2).
  eapply returns_mono; [apply (xmit_stop_spec patience d c n c1 m c2 S P Ln P2 Lm)|].
  cbv beta. intros ok d' (-> & T). split_and!; [done| |apply T]. exists c2. split; [apply T|done].
Qed.

(** The erase hint of a multiple write. *)
Lemma erase_hint d st n : holds d st (Ready false) -> inu 32 n ->
  returns (if negb ((CardType d &&& CT_SDC) =? 0) then send_cmd ACMD23 n ;; ret tt else ret tt) d
    (fun _ d' => holds d' st (Ready false) /\ same_vars d d').
Proof.
  intros Hd Hn. destruct (negb _); [|by apply returns_ret].
  eapply returns_bind; [apply (app_command_answered d st (Ready false) (Ready true) 0 ACMD23 23 n 0 (Ready false) Hd); try done; vm_compute; intuition congruence|].
  intros a d1 (_ & Q). by apply returns_ret.
Qed.

Lemma disk_write_ok d st s l buff :
  mounted d st -> (Stat d &&& STA_PROTECT) = 0 -> present st s (length l) -> l <> [] -> blocks_ok l ->
  Z.of_nat (length l) < 2 ^ 32 -> inu 32 (sd_address sd_hc s) -> read_bytes (dmem d) buff (512 * length l) = Some (concat l) ->
  returns (disk_write patience 0 buff s (Z.of_nat (length l))) d (fun r d' =>
    r = RES_OK /\ mounted d' (write_run st s l) /\ same_vars d d').
Proof.
  intros Hm Np Pr Nl B L32 Hs R. pose proof Hm as (Hd & Ok & E & T).
  assert (L0 : (0 < length l)%nat) by (destruct l; [done|cbn; lia]).
  assert (Ad : addressed sd_hc st (sd_address sd_hc s) = Some s) by (rewrite addressed_sector, bool_decide_true by (apply Pr; lia); done).
  unfold disk_write. rewrite (proj2 (Z.eqb_neq (Z.of_nat (length l)) 0)) by lia. cbn [Z.eqb negb orb].
  eapply returns_step; [reflexivity|]. rewrite E, Np. cbn [Z.eqb negb].
  eapply returns_step; [by eapply sector_address_spec|].
  eapply returns_bind with (Q := fun n d' => n = 0 /\ holds d' (write_run st s l) (Ready false) /\ same_vars d d').
  { destruct (Z.eqb_spec (Z.of_nat (length l)) 1) as [L1|L1].
    - destruct l as [|b [|? ?]]; [done| |cbn in L1; lia]. apply Forall_cons in B as [[L512 Hb] _]. cbn [concat length] in R. rewrite app_nil_r in R.
      eapply returns_bind; [apply (command_answered d st (Ready false) CMD24 _ 0 (Taking s false) Hd); [done|vm_compute; intuition congruence|done|cbn -[addressed]; by rewrite Ad]|].
      intros r d1 (-> & Hd1 & V1). cbn [Z.eqb].
      eapply returns_bind; [apply (packet_accepted d1 st s false buff b Hd1); [apply Pr; cbn; lia| |exact Hb]; destruct V1 as (-> & _); exact R|].
      intros ok d2 (-> & Hd2 & V2). apply returns_ret. split_and!; [done|exact Hd2|by eapply same_vars_trans].
    - eapply returns_step; [reflexivity|]. eapply returns_bind; [apply (erase_hint d st _ Hd); unfold inu; lia|]. intros [] d1 (Hd1 & V1).
      eapply returns_bind; [apply (command_answered d1 st (Ready false) CMD25 _ 0 (Taking s true) Hd1); [done|vm_compute; intuition congruence|done|cbn -[addressed]; by rewrite Ad]|].
      intros r d2 (-> & Hd2 & V2). cbn [Z.eqb]. rewrite Nat2Z.id. pose proof (same_vars_trans _ _ _ V1 V2) as V02.
      eapply returns_bind; [apply (write_blocks_run l d2 st s buff Hd2 Pr B); destruct V02 as (-> & _); exact R|].
      intros n d3 (-> & Hd3 & V3). eapply returns_bind; [apply (writing_stopped d3 _ _ Hd3)|]. intros ok d4 (-> & Hd4 & V4).
      apply returns_ret. split_and!; [done|exact Hd4|]. eapply same_vars_trans; [exact V02|]. by eapply same_vars_trans. }
  intros n d2 (-> & Hd2 & V2). eapply returns_bind; [apply (released d2 _ Hd2)|]. intros [] d3 (Hd3 & V3). apply returns_ret.
  pose proof (same_vars_trans _ _ _ V2 V3) as V. split_and!; [done| |done].
  apply (mounted_vars d d3 st _ Hm Hd3); [by apply write_run_ok|apply V..].
Qed.

End Writing.

(** ** Initialisation *)

Lemma ocr_received d st l ph : length l = 4%nat -> holds d st (Reply l ph) ->
  returns get_ocr d (fun r d' => r = l /\ holds d' st ph /\ same_vars d d').
Proof.
  intros L (c & S & A). destruct (sd_reply c st l ph A) as (c4 & E & A4). rewrite L in E. cbn [replicate exchange_all] in E.
  destruct (exchange 0xFF c) as [x c1] eqn:E1. destruct (exchange 0xFF c1) as [y c2] eqn:E2.
  destruct (exchange 0xFF c2) as [z c3] eqn:E3. destruct (exchange 0xFF c3) as [w c5] eqn:E4. injection E as <- ->.
  unfold get_ocr.
  eapply returns_bind; [apply (xchg_spi_spec d c 0xFF S byte_ones)|]. rewrite E1. intros a1 d1 (-> & T1).
  eapply returns_bind; [apply (xchg_spi_spec d1 c1 0xFF (proj1 T1) byte_ones)|]. rewrite E2. intros a2 d2 (-> & T2).
  eapply returns_bind; [apply (xchg_spi_spec d2 c2 0xFF (proj1 T2) byte_ones)|]. rewrite E3. intros a3 d3 (-> & T3).
  eapply returns_bind; [apply (xchg_spi_spec d3 c3 0xFF (proj1 T3) byte_ones)|]. rewrite E4. intros a4 d4 (-> & T4).
  cbn [fst snd] in *. apply returns_ret. assert (T : talked d d4 c4) by (do 3 (eapply talked_trans; [eassumption|]); exact T4).
  split_and!; [done| |apply T]. exists c4. split; [apply T|done].
Qed.

Lemma leave_idle_ready n : forall k d st, holds d st (Idle n false) -> (n < k)%nat ->
  returns (leave_idle k ACMD41 (2 ^ 30)) d (fun t d' => t = Z.of_nat k - 1 - Z.of_nat n /\ holds d' st (Ready false) /\ same_vars d d').
Proof.
  induction n as [|n IH]; intros k d st Hd L; (destruct k as [|k]; [lia|]); cbn [leave_idle].
  - eapply returns_bind.
    { apply (app_command_answered d st (Idle 0 false) (Idle 0 true) 1 ACMD41 41 (2 ^ 30) 0 (Ready false) Hd); try done; vm_compute; intuition congruence. }
    intros r d1 (-> & Hd1 & V1). cbn [Z.eqb]. apply returns_ret. split_and!; [lia|done|done].
  - eapply returns_bind.
    { apply (app_command_answered d st (Idle (S n) false) (Idle (S n) true) 1 ACMD41 41 (2 ^ 30) 1 (Idle n false) Hd); try done; vm_compute; intuition congruence. }
    intros r d1 (-> & Hd1 & V1). cbn [Z.eqb]. eapply returns_mono; [apply (IH k d1 st Hd1); lia|].
    cbv beta. intros t d2 (-> & Hd2 & V2). split_and!; [lia|done|]. by eapply same_vars_trans.
Qed.

Lemma init_sd2_ready d st n : holds d st (Reply [0; 0; 0x01; 0xAA] (Idle n false)) -> Z.of_nat n < 999998 ->
  returns (init_sd2 999999) d (fun ty d' => ty = (if sd_hc then CT_SD2 ||| CT_BLOCK else CT_SD2) /\ holds d' st (Ready false) /\ same_vars d d').
Proof.
  intros Hd L. unfold init_sd2. eapply returns_bind; [exact (ocr_received d st [0; 0; 0x01; 0xAA] _ eq_refl Hd)|]. intros l d1 (-> & Hd1 & V1).
  change (_ && _) with true. cbv iota.
  eapply returns_bind; [apply (leave_idle_ready n _ d1 st Hd1); lia|]. intros t d2 (Et & Hd2 & V2).
  rewrite (proj2 (Z.eqb_neq t 0)) by lia. clear Et t.
  eapply returns_bind.
  { apply (command_answered d2 st (Ready false) CMD58 0 0 (Reply [if sd_hc then 0xC0 else 0x80; 0xFF; 0x80; 0] (Ready false)) Hd2); try done; vm_compute; intuition congruence. }
  intros r d3 (-> & Hd3 & V3). cbn [Z.eqb].
  eapply returns_bind; [exact (ocr_received d3 st [_; 0xFF; 0x80; 0] _ eq_refl Hd3)|]. intros l d4 (-> & Hd4 & V4). apply returns_ret.
  split_and!; [by destruct sd_hc|done|]. do 3 (eapply same_vars_trans; [eassumption|]). exact V4.
Qed.

(** The core before initialisation, with the slave [c] behind it. *)
Definition attached d (c : C) : Prop := spi_off (dev d) c \/ serves d c.

Lemma power_off_spec d c : attached d c -> returns power_off d (fun _ d' => spi_off (dev d') c /\ same_vars d d').
Proof.
  intros A. apply (on_dev_spec spi_disable d (fun _ u => spi_off u c)), returns_modify.
  destruct A as [A|[On I]]; [by apply off_disable|by eapply cr_disable].
Qed.

Lemma power_on_spec d c : spi_off (dev d) c -> returns power_on d (fun _ d' => talked d d' c).
Proof.
  intros A. eapply returns_mono; [apply (on_dev_spec spi_init d (fun _ u => spi_on u c [] /\ spi_idle u))|].
  - unfold spi_init. do 3 (eapply returns_step; [reflexivity|]). apply returns_modify.
    change (u32 0x86) with 0x86. by apply cr_enable, off_gier, off_disable, off_reset.
  - cbv beta. intros [] d' (S & V). by split.
Qed.

Lemma dummy_clocks_spec k : forall d c, serves d c ->
  returns (dummy_clocks k) d (fun _ d' => talked d d' (snd (exchange_all (replicate k 0xFF) c))).
Proof.
  induction k as [|k IH]; intros d c S; cbn [dummy_clocks replicate exchange_all]; [by apply returns_ret|].
  eapply returns_bind; [apply (xchg_spi_spec d c 0xFF S byte_ones)|]. intros a d1 (_ & T1). destruct (exchange 0xFF c) as [x c1]. cbn [snd] in T1.
  eapply returns_mono; [apply (IH d1 c1 (proj1 T1))|]. cbv beta. intros [] d2 T2. destruct (exchange_all _ c1). by eapply talked_trans.
Qed.


(** A card of version 2 that leaves the idle state in time. *)
Lemma disk_initialize_ok d c st n :
  attached d c -> sd_at c st (Powered n) -> Z.of_nat n < 999998 -> sectors_ok st -> (Stat d &&& STA_NODISK) = 0 ->
  returns (disk_initialize 0) d (fun r d' =>
    r = bitand_not 8 (Stat d) STA_NOINIT /\ Stat d' = r /\ CardType d' = (if sd_hc then CT_SD2 ||| CT_BLOCK else CT_SD2) /\
    dmem d' = dmem d /\ mounted d' st).
Proof.
  intros At A L Ok Nd. unfold disk_initialize. cbn [Z.eqb negb].
  eapply returns_bind; [apply (power_off_spec d c At)|]. intros [] d1 (Off & V1).
  eapply returns_step; [reflexivity|]. destruct V1 as (M1 & S1 & T1). rewrite S1, Nd. cbn [Z.eqb negb].
  eapply returns_bind; [apply (power_on_spec d1 c Off)|]. intros [] d2 (Sv2 & V2).
  eapply returns_bind; [apply (dummy_clocks_spec 10 d2 c Sv2)|]. intros [] d3 (Sv3 & V3).
  assert (H3 : holds d3 st (Powered n)) by (eexists; split; [exact Sv3|by apply sd_clocks]).
  eapply returns_bind; [apply (command_answered d3 st (Powered n) CMD0 0 1 (Idle n false) H3); [done|vm_compute; intuition congruence|unfold inu; lia|done]|].
  intros r d4 (-> & H4 & V4). cbn [Z.eqb Pos.eqb].
  eapply returns_bind with (Q := fun ty d' => ty = (if sd_hc then CT_SD2 ||| CT_BLOCK else CT_SD2) /\ holds d' st (Ready false) /\ same_vars d4 d').
  { eapply returns_bind; [apply (command_answered d4 st (Idle n false) CMD8 0x1AA 1 (Reply [0; 0; 0x01; 0xAA] (Idle n false)) H4); [done|vm_compute; intuition congruence|unfold inu; lia|done]|].
    intros r d5 (-> & H5 & V5). cbn [Z.eqb Pos.eqb]. change (1000 * 1000 - 1) with 999999.
    eapply returns_mono; [apply (init_sd2_ready d5 st n H5 L)|]. cbv beta. intros ty d6 (-> & H6 & V6). split_and!; [done|done|]. by eapply same_vars_trans. }
  intros ty d5 (-> & H5 & V5). eapply returns_step; [reflexivity|]. set (d6 := set_CardType _ d5).
  assert (H6 : holds d6 st (Ready false)) by exact H5.
  eapply returns_bind; [apply (released d6 st H6)|]. intros [] d7 (H7 & V7).
  assert (V47 : dmem d7 = dmem d /\ Stat d7 = Stat d /\ CardType d7 = if sd_hc then CT_SD2 ||| CT_BLOCK else CT_SD2).
  { destruct V2 as (M2 & S2 & _), V3 as (M3 & S3 & _), V4 as (M4 & S4 & _), V5 as (M5 & S5 & _), V7 as (M7 & S7 & T7).
    change (dmem d6) with (dmem d5) in M7. change (Stat d6) with (Stat d5) in S7. split_and!; [congruence|congruence|exact T7]. }
  destruct V47 as (M & St & Ty).
  replace (negb _) with true by (by destruct sd_hc). cbv iota. eapply returns_step; [reflexivity|]. apply returns_gets.
  split_and!; [by rewrite <- St|done|exact Ty|exact M|]. split; [exact H7|]. split; [exact Ok|]. split.
  - change (Stat (set_Stat ?v ?d)) with v. unfold bitand_not. rewrite <- Z.land_assoc. change (u8 (Z.lnot STA_NOINIT) &&& STA_NOINIT) with 0. apply Z.land_0_r.
  - change (CardType (set_Stat ?v d7)) with (CardType d7). rewrite Ty. by destruct sd_hc.
Qed.

(** Nothing on the bus: every byte reads as ones. *)
Section Absent.
Hypothesis absent : forall b (c : C), fst (exchange b c) = 0xFF.

Lemma poll_absent k again : forall d c, serves d c -> (0 < k)%nat -> returns (poll_byte k again) d (fun a d' => a = 0xFF /\ exists c', talked d d' c').
Proof.
  induction k as [|k IH]; intros d c S L; [lia|]. cbn [poll_byte].
  eapply returns_bind; [apply (xchg_spi_spec d c 0xFF S byte_ones)|]. intros a d1 (-> & T1). rewrite absent.
  destruct k as [|k]; [apply returns_ret; eauto|]. destruct (again 0xFF); [|apply returns_ret; eauto].
  eapply returns_mono; [apply (IH d1 _ (proj1 T1)); lia|]. cbv beta. intros b d2 (-> & c' & T2). split; [done|]. exists c'. by eapply talked_trans.
Qed.

Lemma no_response_absent d c cmd arg : serves d c -> 0 <= cmd < 64 -> cmd <> CMD12 ->
  returns (send_cmd_frame cmd arg) d (fun a d' => a = 0xFF /\ exists c', talked d d' c').
Proof.
  intros S Hc Nc. unfold send_cmd_frame. rewrite (proj2 (Z.eqb_neq cmd CMD12) Nc). cbn [negb].
  eapply returns_bind with (Q := fun ok d' => ok = true /\ exists c', talked d d' c').
  { eapply returns_bind; [apply (deselect_spec d c S)|]. intros [] d1 T1. set (c1 := selected true (selected false c)).
    eapply returns_mono; [apply (select_spec d1 (selected false c) 0 (snd (exchange 0xFF c1)) (proj1 T1)); [|lia]|].
    - cbn [polls]. fold c1. split; [|done]. pose proof (absent 0xFF c1) as E. destruct (exchange 0xFF c1). cbn [fst] in E. by subst.
    - cbv beta. intros ok d2 (-> & T2). split; [done|]. eexists. by eapply talked_trans. }
  intros ok d1 (-> & c1 & T1). cbn [negb]. apply (frame_sent d d1 c1); [done..|]. intros d2 T2. eapply returns_step; [reflexivity|].
  eapply returns_mono; [apply (poll_absent 10 _ d2 _ (proj1 T2)); lia|]. cbv beta. intros a d3 (-> & c' & T3). split; [done|].
  exists c'. by eapply talked_trans.
Qed.

Lemma disk_initialize_fails d c : attached d c -> (Stat d &&& STA_NODISK) = 0 ->
  returns (disk_initialize 0) d (fun r d' =>
    r = Stat d /\ Stat d' = Stat d /\ CardType d' = 0 /\ dmem d' = dmem d /\ exists c', spi_off (dev d') c').
Proof.
  intros At Nd. unfold disk_initialize. cbn [Z.eqb negb].
  eapply returns_bind; [apply (power_off_spec d c At)|]. intros [] d1 (Off & V1).
  eapply returns_step; [reflexivity|]. destruct V1 as (M1 & S1 & T1). rewrite S1, Nd. cbn [Z.eqb negb].
  eapply returns_bind; [apply (power_on_spec d1 c Off)|]. intros [] d2 (Sv2 & V2).
  eapply returns_bind; [apply (dummy_clocks_spec 10 d2 c Sv2)|]. intros [] d3 (Sv3 & V3).
  unfold send_cmd at 1. change (negb ((CMD0 &&& 0x80) =? 0)) with false. cbv iota.
  eapply returns_bind; [apply (no_response_absent d3 _ CMD0 0 Sv3); [unfold CMD0; lia|done]|]. intros r d4 (-> & c4 & Sv4 & V4).
  change (0xFF =? 1) with false. cbv iota. eapply returns_step; [reflexivity|]. eapply returns_step; [reflexivity|].
  set (d5 := set_CardType 0 d4). assert (Sv5 : serves d5 c4) by exact Sv4.
  eapply returns_bind; [apply (deselect_spec d5 c4 Sv5)|]. intros [] d6 (Sv6 & V6). cbn [Z.eqb negb].
  eapply returns_bind; [apply (power_off_spec d6 (selected false c4)); by right|]. intros [] d7 (Off7 & V7). apply returns_gets.
  destruct V2 as (M2 & S2 & _), V3 as (M3 & S3 & _), V4 as (M4 & S4 & _), V6 as (M6 & S6 & T6), V7 as (M7 & S7 & T7).
  change (dmem d5) with (dmem d4) in M6. change (Stat d5) with (Stat d4) in S6. change (CardType d5) with 0 in T6.
  split_and!; [congruence..|]. eauto.
Qed.
End Absent.

End Card.

(** ** A core and a card that follow the laws *)
Section Core.
Context {C : Type} `{SpiSlave C}.

(** The core shifts one byte out at every read of its status. *)
Record fifo := Fifo { f_on : bool; f_tx : list Z; f_rx : list Z; f_slave : C }.

Definition fifo_get (r : Z) (u : fifo) : Z * fifo :=
  if r =? SPI_SR then
    match f_tx u with
    | [] => (4, u)
    | b :: tx =>
        let (a, c) := exchange b (f_slave u) in
        (match tx with [] => 4 | _ => 0 end, Fifo (f_on u) tx (f_rx u ++ [a]) c)
    end
  else if r =? SPI_DRR then
    match f_rx u with [] => (0, u) | a :: rx => (a, Fifo (f_on u) (f_tx u) rx (f_slave u)) end
  else (0, u).

Definition fifo_put (r v : Z) (u : fifo) : fifo :=
  if r =? SPI_DTR then Fifo (f_on u) (f_tx u ++ [u8 v]) (f_rx u) (f_slave u)
  else if r =? SPI_CR then
    Fifo (Z.testbit v 1) (if Z.testbit v 5 then [] else f_tx u) (if Z.testbit v 6 then [] else f_rx u) (f_slave u)
  else if r =? SPI_SRR then Fifo false [] [] (f_slave u)
  else if r =? SPI_SSR then Fifo (f_on u) (f_tx u) (f_rx u) (selected (negb (Z.testbit v 0)) (f_slave u))
  else u.

#[export] Instance fifo_core : SpiDevice fifo := { spi_get := fifo_get; spi_put := fifo_put; spi_bound := 16 }.

Definition fifo_holds (u : fifo) (c : C) (rx : list Z) : Prop :=
  f_on u = true /\ f_rx u ++ fst (exchange_all (f_tx u) (f_slave u)) = rx /\ snd (exchange_all (f_tx u) (f_slave u)) = c /\ (length rx <= 16)%nat /\ Forall (inu 8) rx.

#[export] Program Instance fifo_laws : SpiLaws fifo C := {
  spi_on := fifo_holds;
  spi_off u c := f_tx u = [] /\ f_rx u = [] /\ f_slave u = c;
  spi_idle u := f_tx u = [];
  spi_wait u := Nat.min 16 (length (f_tx u));
}.
Next Obligation. intros u. apply Nat.le_min_l. Qed.
Next Obligation.
  intros [on tx rx c0] c rx' b (On & R & Sl & L & By) Hl Hb. unfold fifo_holds. cbn -[exchange_all Z.testbit wrapu] in *.
  rewrite wrapu_small by done. rewrite exchange_all_app. destruct (exchange_all tx c0) as [a c1]. cbn [fst snd] in *. subst c1 rx'.
  cbn [exchange_all]. destruct (exchange b c) as [x c2] eqn:E. cbn [fst snd]. 
  split_and!; [done|by rewrite app_assoc|done|rewrite length_app; cbn; lia|]. apply Forall_app. split; [done|]. constructor; [|done].
  pose proof (exchange_byte b c) as B. by rewrite E in B.
Qed.
Next Obligation.
  intros [on tx rx c0] c rx' (On & R & Sl & L & By). unfold fifo_holds. cbn -[exchange_all Z.testbit Nat.min] in *.
  destruct tx as [|b tx]; cbn -[exchange_all Z.testbit Nat.min].
  { cbn in R, Sl. split_and!; cbn; try done. }
  cbn [exchange_all] in R, Sl. destruct (exchange b c0) as [a c1]. cbn -[exchange_all Z.testbit Nat.min].
  pose proof (exchange_all_length tx c1) as Lt.
  destruct (exchange_all tx c1) as [l c2] eqn:E. cbn [fst snd] in *. subst. rewrite length_app in L. cbn [length] in L.
  split_and!; [done|by rewrite <- app_assoc|done|rewrite length_app; cbn; lia|done|lia| |]; destruct tx; cbn -[Nat.min]; try done; lia.
Qed.
Next Obligation.
  intros [on tx rx c0] c b rx' (On & R & Sl & L & By) I. unfold fifo_holds. cbn in I. subst tx. cbn in *. rewrite app_nil_r in R. subst rx.
  cbn. apply Forall_cons in By as [Hb By]. split_and!; [by apply wrapu_small|done|by rewrite app_nil_r|done|lia|done|done].
Qed.
Next Obligation. intros [on tx rx c0] c rx' (On & R & Sl & L & By) I. cbn in I. subst tx. unfold fifo_holds. cbn in *. split_and!; try done; lia. Qed.
Next Obligation. intros [on tx rx c0] c rx' [] (On & R & Sl & L & By) I; cbn in I; subst tx; unfold fifo_holds; cbn in *; subst; done. Qed.
Next Obligation. intros [on tx rx c0] c rx' (On & R & Sl & L & By) I. cbn in *. by subst. Qed.
Next Obligation. intros [on tx rx c0] c (E1 & E2 & E3). cbn in *. by subst. Qed.
Next Obligation. intros [on tx rx c0] c (E1 & E2 & E3). cbn in *. by subst. Qed.
Next Obligation. intros [on tx rx c0] c (E1 & E2 & E3). cbn in *. by subst. Qed.
Next Obligation. intros [on tx rx c0] c (E1 & E2 & E3). cbn in *. subst. unfold fifo_holds. cbn. split_and!; try done; lia. Qed.
End Core.
Arguments fifo C : clear implicits.

(** A card of high capacity: the bytes it will answer, the command and the data packet it
    is taking in, its phase and its contents. *)
Record sdhc := Sdhc { k_out : list Z; k_cmd : list Z; k_data : option (list Z); k_ph : phase; k_st : sectors }.

Definition packet (st : sectors) (s : Z) : list Z :=
  match st !! s with Some data => [0xFF; 0xFE] ++ data ++ [0x12; 0x34] | None => [0xFF; 0x09] end.

(** The response to a command, and what follows it. *)
Definition respond (st : sectors) (cmd arg : Z) (ph : phase) : sdhc :=
  if cmd =? CMD12 then Sdhc [0xFF; 0xFF; 0] [] None (Ready false) st
  else
    match sd_answer true st ph cmd arg with
    | Some (r, Reply l next) => Sdhc ([0xFF; r] ++ l) [] None next st
    | Some (r, Sending s false) => Sdhc ([0xFF; r] ++ packet st s) [] None (Ready false) st
    | Some (r, ph') => Sdhc [0xFF; r] [] None ph' st
    | None => Sdhc [0xFF; 0x04] [] None ph st
    end.

(** The next packet of a multiple read. *)
Definition refill (c : sdhc) : sdhc :=
  match k_out c, k_ph c with
  | [], Sending s true =>
      Sdhc (packet (k_st c) s) (k_cmd c) (k_data c) (Sending (match k_st c !! s with Some _ => s + 1 | None => s end) true) (k_st c)
  | _, _ => c
  end.

(** A byte of a command. *)
Definition command_byte (b : Z) (c : sdhc) : sdhc :=
  match k_cmd c with
  | [] => if (b >>> 6) =? 1 then Sdhc (k_out c) [b] None (k_ph c) (k_st c) else c
  | [h; b3; b2; b1; b0] => respond (k_st c) (h &&& 0x3F) (((b3 * 256 + b2) * 256 + b1) * 256 + b0) (k_ph c)
  | l => Sdhc (k_out c) (l ++ [b]) None (k_ph c) (k_st c)
  end.

Definition take_byte (b : Z) (c : sdhc) : sdhc :=
  match k_ph c with
  | Taking s multi =>
      match k_data c with
      | None =>
          if b =? (if multi then 0xFC else 0xFE) then Sdhc (k_out c) [] (Some []) (k_ph c) (k_st c)
          else if multi && (b =? 0xFD) then Sdhc [0] [] None (Ready false) (k_st c)
          else c
      | Some l =>
          if (length l =? 513)%nat then Sdhc [0xE5; 0; 0] [] None (after_packet Taking s multi) (<[s := take 512 l]> (k_st c))
          else Sdhc (k_out c) [] (Some (l ++ [b])) (k_ph c) (k_st c)
      end
  | _ => command_byte b c
  end.

Definition sdhc_exchange (b : Z) (c : sdhc) : Z * sdhc :=
  let c := refill c in
  let c' := Sdhc (tail (k_out c)) (k_cmd c) (k_data c) (k_ph c) (k_st c) in
  (match k_out c with [] => 0xFF | a :: _ => u8 a end, take_byte b c').

#[export] Program Instance sdhc_slave : SpiSlave sdhc := {
  exchange := sdhc_exchange;
  selected s c := if s : bool then c else Sdhc (k_out c) [] (k_data c) (k_ph c) (k_st c);
}.
Next Obligation. intros b c. cbn. destruct (k_out (refill c)); [unfold inu; lia|apply wrapu_range; lia]. Qed.

(** The phases as the states of this card. *)
Definition sdhc_at (c : sdhc) (st : sectors) (ph : phase) : Prop :=
  sectors_ok st /\
  match ph with
  | Reply l next => c = Sdhc l [] None next st /\ Forall (inu 8) l /\ between_commands next = true
  | Sending s false => c = Sdhc (packet st s) [] None (Ready false) st
  | _ => c = Sdhc [] [] None ph st
  end.

(** Bytes waiting to be sent go out one by one. *)
Lemma sdhc_pop l : forall out ph st, Forall (inu 8) l -> match ph with Taking _ _ => False | _ => True end ->
  exchange_all (replicate (length l) 0xFF) (Sdhc (l ++ out) [] None ph st) = (l, Sdhc out [] None ph st).
Proof.
  induction l as [|a l IH]; intros out ph st B N; cbn [length replicate exchange_all app]; [done|]. apply Forall_cons in B as [Ha B].
  assert (E : exchange 0xFF (Sdhc (a :: l ++ out) [] None ph st) = (a, Sdhc (l ++ out) [] None ph st)).
  { change (exchange 0xFF) with (sdhc_exchange 0xFF). unfold sdhc_exchange, refill. cbn [k_out k_ph k_data k_st k_cmd tail].
    rewrite (wrapu_small 8 a Ha). by destruct ph. }
  rewrite E, IH by done. done.
Qed.

(** Data bytes are collected. *)
Lemma sdhc_collect l : forall acc s multi st, (length acc + length l <= 513)%nat ->
  snd (exchange_all l (Sdhc [] [] (Some acc) (Taking s multi) st)) = Sdhc [] [] (Some (acc ++ l)) (Taking s multi) st.
Proof.
  induction l as [|b l IH]; intros acc s multi st L; cbn [exchange_all]; [by rewrite app_nil_r|]. cbn [length] in L.
  assert (E : exchange b (Sdhc [] [] (Some acc) (Taking s multi) st) = (0xFF, Sdhc [] [] (Some (acc ++ [b])) (Taking s multi) st)).
  { change (exchange b) with (sdhc_exchange b). unfold sdhc_exchange, refill, take_byte. cbn [k_out k_ph k_data k_st k_cmd tail].
    by rewrite (proj2 (Nat.eqb_neq (length acc) 513)) by lia. }
  rewrite E. specialize (IH (acc ++ [b]) s multi st). rewrite <- app_assoc in IH. cbn [app] in IH. rewrite <- IH by (rewrite length_app; cbn; lia).
  by destruct (exchange_all l _).
Qed.

(** The argument of a command, from its bytes. *)
Lemma argument_bytes arg : inu 32 arg ->
  ((u8 (arg >>> 24) * 256 + u8 (arg >>> 16)) * 256 + u8 (arg >>> 8)) * 256 + u8 arg = arg.
Proof.
  unfold inu, wrapu. intros H. rewrite !Z.shiftr_div_pow2 by lia. change (2 ^ 24) with (256 * 256 * 256). change (2 ^ 16) with (256 * 256).
  change (2 ^ 8) with 256. rewrite <- !Z.div_div by lia. pose proof (Z.div_mod arg 256). pose proof (Z.div_mod (arg / 256) 256).
  pose proof (Z.div_mod (arg / 256 / 256) 256). pose proof (Z.div_lt_upper_bound arg 256 16777216).
  pose proof (Z.div_lt_upper_bound (arg / 256) 256 65536). pose proof (Z.div_lt_upper_bound (arg / 256 / 256) 256 256).
  rewrite (Z.mod_small (arg / 256 / 256 / 256)) by (split; [repeat apply Z.div_pos|]; lia). lia.
Qed.

Lemma sd_answer_command hc st ph cmd arg r ph' : sd_answer hc st ph cmd arg = Some (r, ph') ->
  (cmd =? CMD12) = false /\ ((0x40 ||| cmd) >>> 6 =? 1) = true /\ ((0x40 ||| cmd) &&& 0x3F) = cmd /\ 0 <= r < 128.
Proof.
  assert (D : forall mk o, 0 <= fst (data_command mk o) < 128) by (intros mk []; cbn; lia).
  destruct ph as [k|k []|[]|l n|s m|s m]; cbn -[addressed data_command Z.lor]; try discriminate; intros E;
    repeat (match type of E with context [cmd =? ?k] => destruct (Z.eqb_spec cmd k) as [->|]; cbn [andb] in E end);
    try discriminate; (split_and!; [reflexivity|reflexivity|reflexivity|..]);
    repeat case_match; simplify_eq; try lia;
    match type of E with data_command ?mk ?o = _ => pose proof (D mk o) as D'; rewrite E in D'; apply D' end.
Qed.

(** The phase while a command comes in: only a multiple read moves on. *)
Definition moves_to (ph ph' : phase) : Prop :=
  match ph with
  | Sending _ true => match ph' with Sending _ true => True | _ => False end
  | Taking _ _ => False
  | _ => ph' = ph
  end.

Lemma moves_trans ph1 ph2 ph3 : moves_to ph1 ph2 -> moves_to ph2 ph3 -> moves_to ph1 ph3.
Proof. destruct ph1 as [| | | |? []|]; cbn; intros M1; subst; try done. by destruct ph2 as [| | | |? []|]. Qed.

Lemma sdhc_command_step b out cmd ph st : moves_to ph ph ->
  exists out' ph', snd (exchange b (Sdhc out cmd None ph st)) = command_byte b (Sdhc out' cmd None ph' st) /\ moves_to ph ph'.
Proof.
  intros M. change (exchange b) with (sdhc_exchange b). unfold sdhc_exchange, refill, take_byte. cbn [k_out k_ph k_data k_st k_cmd snd].
  destruct ph as [k|k a|a|l n|s []|s m]; [..|done]; destruct out as [|x out]; cbn [k_out k_ph k_data k_st k_cmd tail];
    do 2 eexists; (split; [reflexivity|done]).
Qed.

Lemma sdhc_command cmd arg out ph st : moves_to ph ph -> ((0x40 ||| cmd) >>> 6 =? 1) = true -> ((0x40 ||| cmd) &&& 0x3F) = cmd -> inu 32 arg ->
  exists ph', snd (exchange_all (frame cmd arg) (Sdhc out [] None ph st)) = respond st cmd arg ph' /\ moves_to ph ph'.
Proof.
  intros M E1 E2 Ha. unfold frame. set (x := if cmd =? CMD8 then 0x87 else if cmd =? CMD0 then 0x95 else 0x01).
  assert (St : forall b cmd l out ph, moves_to ph ph -> exists out' ph',
    snd (exchange_all (b :: l) (Sdhc out cmd None ph st)) = snd (exchange_all l (command_byte b (Sdhc out' cmd None ph' st))) /\ moves_to ph ph').
  { intros b cm l o p Mp. destruct (sdhc_command_step b o cm p st Mp) as (o' & p' & E & Mp'). exists o', p'. split; [|done].
    cbn [exchange_all]. destruct (exchange b _) as [a c]. cbn [snd] in E. subst c. by destruct (exchange_all l _). }
  assert (Rf : forall p p', moves_to p p' -> moves_to p' p') by (intros [| | | |? []|] p'; cbn; intros Q; subst; try done; by destruct p' as [| | | |? []|]).
  destruct (St (0x40 ||| cmd) [] [u8 (arg >>> 24); u8 (arg >>> 16); u8 (arg >>> 8); u8 arg; x] out ph M) as (o1 & p1 & -> & M1).
  cbn [command_byte k_cmd k_out k_ph k_st]. rewrite E1.
  destruct (St (u8 (arg >>> 24)) [0x40 ||| cmd] [u8 (arg >>> 16); u8 (arg >>> 8); u8 arg; x] o1 p1 ltac:(eauto)) as (o2 & p2 & -> & M2).
  cbn [command_byte k_cmd k_out k_ph k_st app].
  destruct (St (u8 (arg >>> 16)) [0x40 ||| cmd; u8 (arg >>> 24)] [u8 (arg >>> 8); u8 arg; x] o2 p2 ltac:(eauto)) as (o3 & p3 & -> & M3).
  cbn [command_byte k_cmd k_out k_ph k_st app].
  destruct (St (u8 (arg >>> 8)) [0x40 ||| cmd; u8 (arg >>> 24); u8 (arg >>> 16)] [u8 arg; x] o3 p3 ltac:(eauto)) as (o4 & p4 & -> & M4).
  cbn [command_byte k_cmd k_out k_ph k_st app].
  destruct (St (u8 arg) [0x40 ||| cmd; u8 (arg >>> 24); u8 (arg >>> 16); u8 (arg >>> 8)] [x] o4 p4 ltac:(eauto)) as (o5 & p5 & -> & M5).
  cbn [command_byte k_cmd k_out k_ph k_st app].
  destruct (St x [0x40 ||| cmd; u8 (arg >>> 24); u8 (arg >>> 16); u8 (arg >>> 8); u8 arg] [] o5 p5 ltac:(eauto)) as (o6 & p6 & -> & M6).
  cbn [command_byte k_cmd k_out k_ph k_st app exchange_all snd]. rewrite E2, argument_bytes by done. exists p6. split; [done|].
  do 5 (eapply moves_trans; [eassumption|]). exact M6.
Qed.

Lemma between_moves ph ph' : between_commands ph = true -> moves_to ph ph' -> ph' = ph.
Proof. by destruct ph. Qed.
Lemma between_self ph : between_commands ph = true -> moves_to ph ph.
Proof. by destruct ph. Qed.

Lemma packet_bytes st s : sectors_ok st -> Forall (inu 8) (packet st s).
Proof.
  intros Ok. unfold packet. destruct (st !! s) as [data|] eqn:E; [|repeat constructor; unfold inu; lia].
  destruct (Ok s data E) as [_ B]. repeat (apply Forall_cons; split; [unfold inu; lia|]). apply Forall_app. split; [done|]. repeat constructor; unfold inu; lia.
Qed.

(** One byte that waits to be sent. *)
Lemma sdhc_pop1 a out ph st : inu 8 a -> exchange 0xFF (Sdhc (a :: out) [] None ph st) = (a, Sdhc out [] None ph st).
Proof.
  intros Ha. change (exchange 0xFF) with (sdhc_exchange 0xFF). unfold sdhc_exchange, refill, take_byte. cbn [k_out k_ph k_data k_st k_cmd tail].
  rewrite (wrapu_small 8 a Ha). destruct ph as [| | | |? []|? []]; reflexivity.
Qed.

(** A card with nothing to send. *)
Lemma sdhc_quiet ph st : match ph with Sending _ _ => False | _ => True end ->
  exchange 0xFF (Sdhc [] [] None ph st) = (0xFF, Sdhc [] [] None ph st).
Proof. intros N. destruct ph as [| | | |? ?|? []]; done. Qed.

Lemma sd_answer_shape hc st ph cmd arg r l next : sd_answer hc st ph cmd arg = Some (r, Reply l next) -> Forall (inu 8) l /\ between_commands next = true.
Proof.
  intros E. destruct ph as [k|[|k] []|[]|l' n'|s m|s m]; cbn -[addressed] in E; repeat case_match; simplify_eq;
    try (unfold data_command in *; repeat case_match; simplify_eq); (split; [repeat constructor; try (destruct hc); unfold inu; lia|done]).
Qed.

Lemma no_response_valid r : 0 <= r < 128 -> no_response r = false.
Proof.
  intros Hr. unfold no_response. assert (E : (r &&& 0x80) = 0); [|by rewrite E].
  apply Z.bits_inj'. intros i Hi. change 0x80 with (2 ^ 7). rewrite Z.land_spec, Z.pow2_bits_eqb, Z.bits_0 by lia.
  destruct (Z.eqb_spec 7 i) as [<-|]; [|apply andb_false_r]. by rewrite (testbit_inu 7 r 7) by (unfold inu; lia).
Qed.

(** The response comes after one byte of ones. *)
Lemma sdhc_response r out ph st : 0 <= r < 128 -> polls no_response 1 r (Sdhc (0xFF :: r :: out) [] None ph st) (Sdhc out [] None ph st).
Proof.
  intros Hr. cbn [polls]. rewrite sdhc_pop1 by (unfold inu; lia). cbn [fst snd]. split; [done|]. rewrite sdhc_pop1 by (unfold inu; lia).
  split; [done|by apply no_response_valid].
Qed.

(** The token comes after one byte of ones, and then the data. *)
Lemma sdhc_packet_sent st s data out ph : sectors_ok st -> st !! s = Some data -> match ph with Taking _ _ => False | _ => True end ->
  exchange_all (replicate (512 + 2) 0xFF) (Sdhc (data ++ [0x12; 0x34] ++ out) [] None ph st) = (data ++ [0x12; 0x34], Sdhc out [] None ph st).
Proof.
  intros Ok L N. destruct (Ok s data L) as [Ld B].
  replace (512 + 2)%nat with (length (data ++ [0x12; 0x34])) by (rewrite length_app, Ld; done).
  rewrite app_assoc. apply sdhc_pop; [|done]. apply Forall_app. split; [done|]. repeat constructor; unfold inu; lia.
Qed.

Lemma sdhc_refilled s st :
  exchange 0xFF (Sdhc [] [] None (Sending s true) st) =
  (0xFF, Sdhc (tail (packet st s)) [] None (Sending (match st !! s with Some _ => s + 1 | None => s end) true) st).
Proof.
  change (exchange 0xFF) with (sdhc_exchange 0xFF). unfold sdhc_exchange, refill, packet. cbn [k_out k_ph k_data k_st k_cmd tail].
  destruct (st !! s); reflexivity.
Qed.

#[export] Program Instance sdhc_card : SdCard sdhc := {
  sd_hc := true;
  sd_at := sdhc_at;
  sd_awake c st ph := sdhc_at c st ph /\ between_commands ph = true;
}.
Next Obligation.
  intros c st ph [Ok A] B. exists 0%nat, (Sdhc [] [] None ph st). assert (Ec : c = Sdhc [] [] None ph st) by (by destruct ph). subst c. cbn [polls].
  split_and!; [|done|lia|split; [done|by destruct ph]|done]. cbn [selected sdhc_slave k_out k_data k_ph k_st]. apply sdhc_quiet. by destruct ph.
Qed.
Next Obligation. by intros c st [Ok ->]. Qed.
Next Obligation.
  intros c st [Ok ->]. exists 0%nat, (Sdhc [] [] None (Ready false) st). split; [|split; [lia|done]]. cbn [polls selected sdhc_slave]. split; [by apply sdhc_quiet|done].
Qed.
Next Obligation. intros c st n [Ok ->]. split; [done|reflexivity]. Qed.
Next Obligation.
  intros c st ph cmd arg r ph' [[Ok A] B] Ha E. assert (Ec : c = Sdhc [] [] None ph st) by (by destruct ph). subst c.
  destruct (sd_answer_command _ _ _ _ _ _ _ E) as (N12 & E1 & E2 & Hr).
  destruct (sdhc_command cmd arg [] ph st (between_self ph B) E1 E2 Ha) as (ph2 & -> & M). rewrite (between_moves _ _ B M).
  unfold respond. rewrite N12, E. exists 1%nat.
  destruct ph' as [k|k a|a|l next|s []|s m]; (eexists; split; [by apply sdhc_response|]); (split; [lia|]); (split; [exact Ok|]); try reflexivity.
  destruct (sd_answer_shape _ _ _ _ _ _ _ _ E). by split_and!.
Qed.
Next Obligation.
  intros c st l ph [Ok (-> & B & Bt)]. exists (Sdhc [] [] None ph st). split; [|split; [done|by destruct ph]].
  pose proof (sdhc_pop l [] ph st B) as P. rewrite app_nil_r in P. apply P. by destruct ph.
Qed.
Next Obligation.
  intros c st s multi data [Ok A] L. exists 1%nat.
  exists (Sdhc (data ++ [0x12; 0x34] ++ []) [] None (after_packet Sending s multi) st), [0x12; 0x34], (Sdhc [] [] None (after_packet Sending s multi) st).
  split; [|split; [lia|split; [apply (sdhc_packet_sent st s data [] _ Ok L); by destruct multi|split; [done|by destruct multi]]]].
  destruct multi; subst c.
  - cbn [polls]. rewrite sdhc_refilled. unfold packet. rewrite L. cbn [fst snd tail app]. rewrite sdhc_pop1 by (unfold inu; lia). done.
  - unfold packet. rewrite L. cbn [polls app]. rewrite !sdhc_pop1 by (unfold inu; lia). cbn [fst snd]. rewrite sdhc_pop1 by (unfold inu; lia). done.
Qed.
Next Obligation.
  intros c st s [Ok ->] L. exists 1%nat, 0x09. eexists. split; [|split; [lia|split; [done|split; [done|reflexivity]]]].
  cbn [polls]. rewrite sdhc_refilled. unfold packet. rewrite L. cbn [fst snd tail]. rewrite sdhc_pop1 by (unfold inu; lia). done.
Qed.
Next Obligation.
  intros c st s [Ok ->]. exists 1%nat, 0. eexists. split; [|split; [lia|split; [done|reflexivity]]].
  rewrite exchange_all_app_snd.
  destruct (sdhc_command CMD12 0 [] (Sending s true) st) as (ph2 & -> & M); [done|done|done|unfold inu; lia|].
  cbn [exchange_all]. unfold respond. change (CMD12 =? CMD12) with true. cbv iota. rewrite sdhc_pop1 by (unfold inu; lia). apply sdhc_response. lia.
Qed.
Next Obligation.
  intros c st s multi data [Ok ->] Hs L B. exists 0%nat, (Sdhc [] [] None (Taking s multi) st), 0xFF, 0xFF, 0xE5.
  eexists _, 2%nat, _. split; [cbn [polls]; by rewrite sdhc_quiet|]. split; [lia|].
  set (c1 := Sdhc [] [] (Some data) (Taking s multi) st).
  assert (E1 : snd (exchange_all ((if multi then 0xFC else 0xFE) :: data) (Sdhc [] [] None (Taking s multi) st)) = c1).
  { cbn [exchange_all]. assert (E : exchange (if multi then 0xFC else 0xFE) (Sdhc [] [] None (Taking s multi) st) = (0xFF, Sdhc [] [] (Some []) (Taking s multi) st)) by (by destruct multi).
    rewrite E. pose proof (sdhc_collect data [] s multi st ltac:(cbn; lia)) as Cl. destruct (exchange_all data _). exact Cl. }
  rewrite E1. unfold c1.
  assert (E2 : exchange 0xFF (Sdhc [] [] (Some data) (Taking s multi) st) = (0xFF, Sdhc [] [] (Some (data ++ [0xFF])) (Taking s multi) st)).
  { change (exchange 0xFF) with (sdhc_exchange 0xFF). unfold sdhc_exchange, refill, take_byte. cbn [k_out k_ph k_data k_st k_cmd tail]. by rewrite L. }
  assert (E3 : exchange 0xFF (Sdhc [] [] (Some (data ++ [0xFF])) (Taking s multi) st) =
    (0xFF, Sdhc [0xE5; 0; 0] [] None (after_packet Taking s multi) (<[s := data]> st))).
  { change (exchange 0xFF) with (sdhc_exchange 0xFF). unfold sdhc_exchange, refill, take_byte. cbn [k_out k_ph k_data k_st k_cmd tail].
    rewrite length_app, L. change ((512 + length [0xFF] =? 513)%nat) with true. cbv iota. by rewrite take_app_length' by done. }
  cbn [replicate exchange_all]. rewrite E2, E3, sdhc_pop1 by (unfold inu; lia).
  split; [reflexivity|]. split; [done|]. split; [done|]. split; [done|]. split; [|split; [lia|]].
  - cbn [polls]. rewrite !sdhc_pop1 by (unfold inu; lia). cbn [fst snd]. rewrite sdhc_pop1 by (unfold inu; lia). cbn [fst snd].
    split_and!; [done..| |done]. apply sdhc_quiet. by destruct multi.
  - split; [by apply map_Forall_insert_2|]. by destruct multi.
Qed.
Next Obligation.
  intros c st s [Ok ->]. exists 0%nat, (Sdhc [] [] None (Taking s true) st), 1%nat. eexists.
  split; [cbn [polls]; by rewrite sdhc_quiet|]. split; [lia|]. split; [|split; [lia|split; [done|reflexivity]]].
  change (snd (exchange 0xFD (Sdhc [] [] None (Taking s true) st))) with (Sdhc [0] [] None (Ready false) st). cbn [polls].
  rewrite sdhc_pop1 by (unfold inu; lia). cbn [fst snd]. by rewrite sdhc_quiet.
Qed.

(** ** The theorems *)
Section Theorems.
Context {U C : Type} `{SpiLaws U C} `{!SdCard C}.
Implicit Types (d : disk U).

(** C13. Sectors written to the card are the sectors read back: [disk_write] of any number of
    blocks and then [disk_read] of the same sectors both succeed, the destination buffer
    holds the bytes of the source buffer, the rest of memory is as it was, the card holds
    the blocks, and every other sector is unchanged. *)
Theorem disk_write_read (patience : nat) d st s l src dst :
  (0 < patience)%nat -> mounted d st -> (Stat d &&& STA_PROTECT) = 0 -> present st s (length l) -> l <> [] -> blocks_ok l ->
  Z.of_nat (length l) < 2 ^ 32 -> inu 32 (sd_address sd_hc s) ->
  read_bytes (dmem d) src (512 * length l) = Some (concat l) -> mapped (dmem d) dst (512 * length l) ->
  let n := Z.of_nat (length l) in
  returns (let! w := disk_write patience 0 src s n in let! r := disk_read 0 dst s n in ret (w, r)) d (fun '(w, r) d' =>
    w = RES_OK /\ r = RES_OK /\ dmem d' = write_bytes (dmem d) dst (concat l) /\
    exists st', mounted d' st' /\ sector_run st' s l /\ forall i, ~ s <= i < s + n -> st' !! i = st !! i).
Proof.
  intros Hp Hm Np Pr Nl B L32 Hs R M n.
  eapply returns_bind; [by eapply (disk_write_ok patience)|]. intros w d1 (-> & Hm1 & V1).
  eapply returns_bind; [eapply (disk_read_ok d1 _ s l dst Hm1); [apply write_run_reads|done|done|by destruct V1 as (-> & _)]|].
  intros r d2 (-> & Hm2 & F2). apply returns_ret. destruct V1 as (M1 & _), F2 as (M2 & _).
  split_and!; [done|done|by rewrite M2, M1|]. exists (write_run st s l). split_and!; [done|apply write_run_reads|]. intros i Hi. by apply write_run_other.
Qed.

(** From power-up to data: with a version 2 card that leaves the idle state within the
    driver's timeout, [disk_initialize] reports an initialised drive and sets the card
    type, and [disk_read] then delivers the sectors of the card into the buffer. *)
Theorem disk_power_up_read d c st tries s l buff :
  attached d c -> sd_at c st (Powered tries) -> Z.of_nat tries < 999998 -> sectors_ok st -> (Stat d &&& STA_NODISK) = 0 ->
  sector_run st s l -> l <> [] -> inu 32 (sd_address sd_hc s) -> mapped (dmem d) buff (512 * length l) ->
  returns (let! i := disk_initialize 0 in let! r := disk_read 0 buff s (Z.of_nat (length l)) in ret (i, r)) d (fun '(i, r) d' =>
    (i &&& STA_NOINIT) = 0 /\ CardType d' = (if sd_hc then CT_SD2 ||| CT_BLOCK else CT_SD2) /\ r = RES_OK /\
    dmem d' = write_bytes (dmem d) buff (concat l) /\ mounted d' st).
Proof.
  intros At A L Ok Nd R Nl Hs M.
  eapply returns_bind; [by apply (disk_initialize_ok d c st tries)|]. intros i d1 (Ei & Es & Ty & M1 & Hm1).
  eapply returns_bind; [apply (disk_read_ok d1 st s l buff Hm1 R Nl Hs); by rewrite M1|]. intros r d2 (-> & Hm2 & M2 & S2 & T2). apply returns_ret.
  split_and!; [|by rewrite T2|done|by rewrite M2, M1|done]. rewrite <- Es. apply Hm1.
Qed.

(** C14. A read that runs past the last sector fails and does no harm: [disk_read] returns
    [RES_ERROR], the buffer got the sectors there are and not one byte more, and the card
    is ready for the next command. *)
Theorem disk_read_past_end d st s l k buff :
  mounted d st -> sector_run st s l -> st !! (s + Z.of_nat (length l)) = None -> inu 32 (sd_address sd_hc s) ->
  mapped (dmem d) buff (512 * length l) ->
  returns (disk_read 0 buff s (Z.of_nat (length l + S k))) d (fun r d' =>
    r = RES_ERROR /\ dmem d' = write_bytes (dmem d) buff (concat l) /\ mounted d' st).
Proof.
  intros Hm R N Hs M. eapply returns_mono; [by apply (disk_read_short d st s l k buff)|]. cbv beta.
  intros r d' (-> & Hm' & F). split_and!; [done|apply F|done].
Qed.

(** An empty socket: [disk_initialize] ends, switches the core off and forgets the card, and
    returns the status it found.  A status without [STA_NOINIT], left by an earlier
    initialisation, is so reported as success. *)
Theorem disk_initialize_absent d c :
  (forall b (c : C), fst (exchange b c) = 0xFF) -> attached d c -> (Stat d &&& STA_NODISK) = 0 ->
  returns (disk_initialize 0) d (fun r d' => r = Stat d /\ Stat d' = Stat d /\ CardType d' = 0 /\ exists c', spi_off (dev d') c').
Proof.
  intros Ab At Nd. eapply returns_mono; [by apply (disk_initialize_fails Ab d c)|]. cbv beta. intros r d' (-> & S & T & _ & Q). done.
Qed.
End Theorems.

(** A version 1 card is refused: when it leaves the idle state with time left, the type is
    cleared (the test reads [timeout-- ||] for [!timeout-- ||]). *)
Theorem init_sd1_refused {U} `{SpiDevice U} timeout (d : disk U) r d1 t d2 :
  timeout <> 0 -> send_cmd ACMD41 0 d = Ret r d1 ->
  leave_idle (Z.to_nat (u32 (timeout - 1))) (if r <=? 1 then ACMD41 else CMD1) 0 d1 = Ret t d2 -> t <> 0 ->
  init_sd1 timeout d = Ret 0 d2.
Proof.
  intros Nt E L N. unfold init_sd1. rewrite (proj2 (Z.eqb_neq timeout 0) Nt). unfold bind at 1. rewrite E.
  destruct (r <=? 1); unfold bind; rewrite L, (proj2 (Z.eqb_neq t 0) N); reflexivity.
Qed.

(** ** Concrete runs *)
Definition demo_block (b : Z) : list Z := replicate 512 b.
Definition demo_sectors : sectors := <[7 := demo_block 70]> (<[8 := demo_block 80]> (<[9 := demo_block 90]> ∅)).
Definition demo_dmem : memory := write_bytes (write_bytes ∅ 0x1000 (demo_block 1 ++ demo_block 2)) 0x8000 (replicate 1536 0).
Definition demo_disk : disk (fifo sdhc) :=
  DiskState (Fifo true [] [] (Sdhc [] [] None (Ready false) demo_sectors)) demo_dmem 0 (CT_SD2 ||| CT_BLOCK).
Definition demo_fresh : disk (fifo sdhc) :=
  DiskState (Fifo false [] [] (Sdhc [] [] None (Powered 3) demo_sectors)) demo_dmem STA_NOINIT 0.

Lemma demo_sectors_ok : sectors_ok demo_sectors.
Proof. unfold sectors_ok, demo_sectors, demo_block. vm_decide. Qed.

Lemma demo_mounted : mounted demo_disk demo_sectors.
Proof.
  split; [|split; [exact demo_sectors_ok|done]]. exists (Sdhc [] [] None (Ready false) demo_sectors).
  split; [|split; [exact demo_sectors_ok|reflexivity]]. split; [|reflexivity]. unfold spi_on, fifo_laws, fifo_holds. cbn. split_and!; try done. lia.
Qed.

Lemma demo_present : present demo_sectors 7 2.
Proof. intros i Hi. assert (i = 7 \/ i = 8) as [-> | ->] by lia; vm_compute; eauto. Qed.

Lemma disk_write_read_witness : exists d st, mounted d st /\
  returns (let! w := disk_write 1 0 0x1000 7 2 in let! r := disk_read 0 0x8000 7 2 in ret (w, r)) d (fun '(w, r) d' =>
    w = RES_OK /\ r = RES_OK /\ dmem d' = write_bytes (dmem d) 0x8000 (demo_block 1 ++ demo_block 2)).
Proof.
  exists demo_disk, demo_sectors. split; [exact demo_mounted|].
  eapply returns_mono; [apply (disk_write_read 1 demo_disk demo_sectors 7 [demo_block 1; demo_block 2] 0x1000 0x8000)|].
  - lia.
  - exact demo_mounted.
  - reflexivity.
  - exact demo_present.
  - done.
  - unfold blocks_ok. vm_decide.
  - reflexivity.
  - vm_decide.
  - vm_compute. reflexivity.
  - vm_decide.
  - intros [w r] d' (-> & -> & E & _). split_and!; [done|done|]. exact E.
Defined.

Lemma disk_power_up_read_witness : exists d c, attached d c /\
  returns (let! i := disk_initialize 0 in let! r := disk_read 0 0x8000 8 2 in ret (i, r)) d (fun '(i, r) d' =>
    (i &&& STA_NOINIT) = 0 /\ CardType d' = CT_SD2 ||| CT_BLOCK /\ r = RES_OK /\
    dmem d' = write_bytes (dmem d) 0x8000 (demo_block 80 ++ demo_block 90)).
Proof.
  assert (At : attached demo_fresh (Sdhc [] [] None (Powered 3) demo_sectors)) by (left; done).
  exists demo_fresh, (Sdhc [] [] None (Powered 3) demo_sectors). split; [exact At|].
  eapply returns_mono; [apply (disk_power_up_read demo_fresh (Sdhc [] [] None (Powered 3) demo_sectors) demo_sectors 3 8 [demo_block 80; demo_block 90] 0x8000)|].
  - exact At.
  - split; [exact demo_sectors_ok|reflexivity].
  - reflexivity.
  - exact demo_sectors_ok.
  - reflexivity.
  - cbn [sector_run]. split; [|split; [|done]]; vm_compute; reflexivity.
  - done.
  - vm_decide.
  - vm_decide.
  - intros [i r] d' (Ei & Ty & -> & E & _). split; [exact Ei|]. split; [exact Ty|]. split; [done|]. exact E.
Defined.

Lemma disk_read_past_end_witness : exists d st, mounted d st /\
  returns (disk_read 0 0x8000 8 3) d (fun r d' =>
    r = RES_ERROR /\ dmem d' = write_bytes (dmem d) 0x8000 (demo_block 80 ++ demo_block 90)).
Proof.
  exists demo_disk, demo_sectors. split; [exact demo_mounted|].
  eapply returns_mono; [apply (disk_read_past_end demo_disk demo_sectors 8 [demo_block 80; demo_block 90] 0 0x8000)|].
  - exact demo_mounted.
  - cbn [sector_run]. split; [|split; [|done]]; vm_compute; reflexivity.
  - vm_compute. reflexivity.
  - vm_decide.
  - vm_decide.
  - intros r d' (-> & E & _). split; [done|]. exact E.
Defined.

(** The absent card, as a slave. *)
Definition pulled_up := unit.
#[export] Program Instance pulled_up_slave : SpiSlave pulled_up := { exchange b c := (0xFF, c); selected s c := c }.
Next Obligation. intros. cbn. unfold inu. lia. Qed.

Lemma disk_initialize_absent_witness : exists (d : disk (fifo pulled_up)) c, attached d c /\ Stat d = 0 /\
  returns (disk_initialize 0) d (fun r d' => r = 0 /\ CardType d' = 0 /\ exists c' : pulled_up, spi_off (dev d') c').
Proof.
  set (d := DiskState (Fifo false [] [] (tt : pulled_up)) ∅ 0 (CT_SD2 ||| CT_BLOCK)).
  assert (At : attached d (tt : pulled_up)) by (left; done). exists d, tt. split; [exact At|]. split; [done|].
  eapply returns_mono; [apply (disk_initialize_absent d (tt : pulled_up)); [done|exact At|done]|].
  cbv beta. intros r d' (-> & _ & T & Q). done.
Defined.
