(* ===== verification/Fat.v ===== *)
(** * The FAT layer of FatFs ([driver/ff.c])

    The sector window and the file allocation table: [sync_window], [move_window],
    [sync_fs], [clust2sect], [get_fat], [put_fat], [remove_chain] and [create_chain], in the
    configuration of [driver/ffconf.h] (512-byte sectors, write access).  The disk
    functions are the class [BlockDevice] with the laws [BlockLaws].

    The window is a write-back cache of one sector, and the FAT is kept in one or two
    copies.  The theorems say that the layer behaves as one disk with a table of cluster
    numbers ([vol_rep], [fat_entry]), whatever the window holds, for the three widths of
    entries. *)

From Stdlib Require Import ZArith Lia Bool List String.
From stdpp Require Import base gmap list.
From S2P Require Import Prelude Machine Memory Disk SdCard.
Open Scope Z_scope.
Open Scope word_scope.

(** ** Constants ([driver/ff.h], [driver/ff.c]) *)
Definition FR_OK : Z := 0.
Definition FR_DISK_ERR : Z := 1.
Definition FR_INT_ERR : Z := 2.
Definition FS_FAT12 : Z := 1.
Definition FS_FAT16 : Z := 2.
Definition FS_FAT32 : Z := 3.
Definition SS : Z := 512.
Definition BS_55AA : Z := 510.
Definition FSI_LeadSig : Z := 0.
Definition FSI_StrucSig : Z := 484.
Definition FSI_Free_Count : Z := 488.
Definition FSI_Nxt_Free : Z := 492.

(** ** The disk functions *)

(** [blk_read drv sector count]: the result and what is then in the buffer;
    [blk_write drv data sector count]; [blk_sync] is [disk_ioctl(drv, CTRL_SYNC, 0)]. *)
Class BlockDevice (D : Type) := {
  blk_read : Z -> Z -> Z -> D -> DRESULT * list Z * D;
  blk_write : Z -> list Z -> Z -> Z -> D -> DRESULT * D;
  blk_sync : Z -> D -> DRESULT * D;
  blk_status : Z -> D -> Z;
  blk_initialize : Z -> D -> Z * D;
}.

(** ** State *)

(** [FATFS] *)
Record FATFS := Fatfs {
  fs_type : Z; drv : Z; csize : Z; n_fats : Z; wflag : Z; fsi_flag : Z; fs_id : Z; n_rootdir : Z;
  last_clust : Z; free_clust : Z; cdir : Z; n_fatent : Z; fsize : Z;
  volbase : Z; fatbase : Z; dirbase : Z; database : Z; winsect : Z; win : list Z;
}.
Definition set_win w f := Fatfs (fs_type f) (drv f) (csize f) (n_fats f) (wflag f) (fsi_flag f) (fs_id f) (n_rootdir f)
  (last_clust f) (free_clust f) (cdir f) (n_fatent f) (fsize f) (volbase f) (fatbase f) (dirbase f) (database f) (winsect f) w.
Definition set_winsect s f := Fatfs (fs_type f) (drv f) (csize f) (n_fats f) (wflag f) (fsi_flag f) (fs_id f) (n_rootdir f)
  (last_clust f) (free_clust f) (cdir f) (n_fatent f) (fsize f) (volbase f) (fatbase f) (dirbase f) (database f) s (win f).
Definition set_wflag x f := Fatfs (fs_type f) (drv f) (csize f) (n_fats f) x (fsi_flag f) (fs_id f) (n_rootdir f)
  (last_clust f) (free_clust f) (cdir f) (n_fatent f) (fsize f) (volbase f) (fatbase f) (dirbase f) (database f) (winsect f) (win f).
Definition set_fsi_flag x f := Fatfs (fs_type f) (drv f) (csize f) (n_fats f) (wflag f) x (fs_id f) (n_rootdir f)
  (last_clust f) (free_clust f) (cdir f) (n_fatent f) (fsize f) (volbase f) (fatbase f) (dirbase f) (database f) (winsect f) (win f).
Definition set_last_clust x f := Fatfs (fs_type f) (drv f) (csize f) (n_fats f) (wflag f) (fsi_flag f) (fs_id f) (n_rootdir f)
  x (free_clust f) (cdir f) (n_fatent f) (fsize f) (volbase f) (fatbase f) (dirbase f) (database f) (winsect f) (win f).
Definition set_free_clust x f := Fatfs (fs_type f) (drv f) (csize f) (n_fats f) (wflag f) (fsi_flag f) (fs_id f) (n_rootdir f)
  (last_clust f) x (cdir f) (n_fatent f) (fsize f) (volbase f) (fatbase f) (dirbase f) (database f) (winsect f) (win f).

(** A mounted volume: its file system object and the drive. *)
Record volume (D : Type) := Volume { fs : FATFS; dsk : D }.
Arguments Volume {D}. Arguments fs {D}. Arguments dsk {D}.

(** Bytes of a buffer; indices are below its size. *)
Definition byte_at (l : list Z) (i : Z) : Z := l !!! Z.to_nat i.
Definition put_byte (i b : Z) (l : list Z) : list Z := <[Z.to_nat i := b]> l.
Definition LD_WORD (l : list Z) (i : Z) : Z := (byte_at l (i + 1) <<< 8) ||| byte_at l i.
Definition LD_DWORD (l : list Z) (i : Z) : Z :=
  (byte_at l (i + 3) <<< 24) ||| (byte_at l (i + 2) <<< 16) ||| (byte_at l (i + 1) <<< 8) ||| byte_at l i.
Definition ST_WORD (i v : Z) (l : list Z) : list Z :=
  put_byte (i + 1) (u8 (u16 v >>> 8)) (put_byte i (u8 v) l).
Definition ST_DWORD (i v : Z) (l : list Z) : list Z :=
  put_byte (i + 3) (u8 (u32 v >>> 24)) (put_byte (i + 2) (u8 (u32 v >>> 16)) (put_byte (i + 1) (u8 (u16 v >>> 8)) (put_byte i (u8 v) l))).

Section Fat.
Context {D : Type} `{BlockDevice D}.
Abbreviation state := (volume D).

Definition set_fs f (v : state) : state := Volume f (dsk v).
Definition set_dsk d (v : state) : state := Volume (fs v) d.
Definition get_fs : ST state FATFS := gets fs.
Definition upd_fs (g : FATFS -> FATFS) : ST state unit := modify (fun v => set_fs (g (fs v)) v).

Definition disk_write_at (data : list Z) (sector count : Z) : ST state DRESULT := fun v =>
  let (r, d) := blk_write (drv (fs v)) data sector count (dsk v) in Ret r (set_dsk d v).
Definition disk_read_at (sector count : Z) : ST state (DRESULT * list Z) := fun v =>
  let '(r, data, d) := blk_read (drv (fs v)) sector count (dsk v) in Ret (r, data) (set_dsk d v).

(** ** The window *)

(** [for (nf = fs->n_fats; nf >= 2; nf--)], by the iterations left. *)
Fixpoint reflect_copies (k : nat) (wsect : Z) : ST state unit :=
  match k with
  | O => ret tt
  | S k' =>
      let! f := get_fs in
      let wsect := u32 (wsect + fsize f) in
      disk_write_at (win f) wsect 1 ;;
      reflect_copies k' wsect
  end.

Definition sync_window : ST state Z :=
  let! f := get_fs in
  if negb (wflag f =? 0) then
    let wsect := winsect f in
    let! r := disk_write_at (win f) wsect 1 in
    if negb (bool_decide (r = RES_OK)) then ret FR_DISK_ERR
    else
      upd_fs (set_wflag 0) ;;
      (if u32 (wsect - fatbase f) <? fsize f then reflect_copies (Z.to_nat (n_fats f - 1)) wsect else ret tt) ;;
      ret FR_OK
  else ret FR_OK.

Definition move_window (sector : Z) : ST state Z :=
  let! f := get_fs in
  if negb (sector =? winsect f) then
    let! res := sync_window in
    if res =? FR_OK then
      let! rd := disk_read_at sector 1 in
      let (r, data) := rd : DRESULT * list Z in
      upd_fs (set_win data) ;;
      if negb (bool_decide (r = RES_OK)) then
        upd_fs (set_winsect 0xFFFFFFFF) ;; ret FR_DISK_ERR
      else upd_fs (set_winsect sector) ;; ret FR_OK
    else ret res
  else ret FR_OK.

(** Create the FSInfo structure and write it into its sector. *)
Definition write_fsinfo : ST state unit :=
  upd_fs (set_win (replicate 512 0)) ;;
  upd_fs (fun f => set_win (ST_WORD BS_55AA 0xAA55 (win f)) f) ;;
  upd_fs (fun f => set_win (ST_DWORD FSI_LeadSig 0x41615252 (win f)) f) ;;
  upd_fs (fun f => set_win (ST_DWORD FSI_StrucSig 0x61417272 (win f)) f) ;;
  upd_fs (fun f => set_win (ST_DWORD FSI_Free_Count (free_clust f) (win f)) f) ;;
  upd_fs (fun f => set_win (ST_DWORD FSI_Nxt_Free (last_clust f) (win f)) f) ;;
  upd_fs (fun f => set_winsect (u32 (volbase f + 1)) f) ;;
  let! f := get_fs in
  disk_write_at (win f) (winsect f) 1 ;;
  upd_fs (set_fsi_flag 0).

Definition sync_fs : ST state Z :=
  let! res := sync_window in
  if res =? FR_OK then
    let! f := get_fs in
    (if (fs_type f =? FS_FAT32) && (fsi_flag f =? 1) then write_fsinfo else ret tt) ;;
    let! v := gets (fun v => v) in
    let (r, d) := blk_sync (drv (fs v)) (dsk v) in
    modify (set_dsk d) ;;
    ret (if bool_decide (r = RES_OK) then res else FR_DISK_ERR)
  else ret res.

(** ** The allocation table *)
Definition clust2sect (f : FATFS) (clst : Z) : Z :=
  let clst := u32 (clst - 2) in
  if u32 (n_fatent f - 2) <=? clst then 0 else u32 (clst * csize f + database f).

(** A byte of the window after [move_window(fs, fs->fatbase + ...)]. *)
Definition get_fat (clst : Z) : ST state Z :=
  let! f := get_fs in
  if (clst <? 2) || (n_fatent f <=? clst) then ret 1
  else if fs_type f =? FS_FAT12 then
    let bc := u32 (clst + clst / 2) in
    let! r := move_window (u32 (fatbase f + bc / SS)) in
    if negb (r =? FR_OK) then ret 0xFFFFFFFF
    else
      let! wc := gets (fun v => byte_at (win (fs v)) (bc mod SS)) in
      let bc := u32 (bc + 1) in
      let! r := move_window (u32 (fatbase f + bc / SS)) in
      if negb (r =? FR_OK) then ret 0xFFFFFFFF
      else
        let! b := gets (fun v => byte_at (win (fs v)) (bc mod SS)) in
        let wc := wc ||| (b <<< 8) in
        ret (if negb ((clst &&& 1) =? 0) then wc >>> 4 else wc &&& 0xFFF)
  else if fs_type f =? FS_FAT16 then
    let! r := move_window (u32 (fatbase f + clst / (SS / 2))) in
    if negb (r =? FR_OK) then ret 0xFFFFFFFF
    else gets (fun v => LD_WORD (win (fs v)) (u32 (clst * 2) mod SS))
  else if fs_type f =? FS_FAT32 then
    let! r := move_window (u32 (fatbase f + clst / (SS / 4))) in
    if negb (r =? FR_OK) then ret 0xFFFFFFFF
    else gets (fun v => LD_DWORD (win (fs v)) (u32 (clst * 4) mod SS) &&& 0x0FFFFFFF)
  else ret 1.

(** Change the window and mark it. *)
Definition edit_win (g : list Z -> list Z) : ST state unit :=
  upd_fs (fun f => set_win (g (win f)) f) ;; upd_fs (set_wflag 1).

Definition put_fat (clst val : Z) : ST state Z :=
  let! f := get_fs in
  if (clst <? 2) || (n_fatent f <=? clst) then ret FR_INT_ERR
  else
    let odd := negb ((clst &&& 1) =? 0) in
    if fs_type f =? FS_FAT12 then
      let bc := u32 (clst + clst / 2) in
      let! r := move_window (u32 (fatbase f + bc / SS)) in
      if negb (r =? FR_OK) then ret r
      else
        edit_win (fun w =>
          let i := bc mod SS in
          put_byte i (if odd then u8 ((byte_at w i &&& 0x0F) ||| (u8 val <<< 4)) else u8 val) w) ;;
        let bc := u32 (bc + 1) in
        let! r := move_window (u32 (fatbase f + bc / SS)) in
        if negb (r =? FR_OK) then ret r
        else
          edit_win (fun w =>
            let i := bc mod SS in
            put_byte i (if odd then u8 (val >>> 4) else u8 ((byte_at w i &&& 0xF0) ||| (u8 (val >>> 8) &&& 0x0F))) w) ;;
          ret r
    else if fs_type f =? FS_FAT16 then
      let! r := move_window (u32 (fatbase f + clst / (SS / 2))) in
      if negb (r =? FR_OK) then ret r
      else edit_win (ST_WORD (u32 (clst * 2) mod SS) (u16 val)) ;; ret r
    else if fs_type f =? FS_FAT32 then
      let! r := move_window (u32 (fatbase f + clst / (SS / 4))) in
      if negb (r =? FR_OK) then ret r
      else
        edit_win (fun w =>
          let i := u32 (clst * 4) mod SS in
          ST_DWORD i (val ||| (LD_DWORD w i &&& 0xF0000000)) w) ;;
        ret r
    else ret FR_INT_ERR.

(** ** Chains *)

(** One more free cluster, or one less. *)
Definition count_free (k : Z) : ST state unit :=
  let! f := get_fs in
  if negb (free_clust f =? 0xFFFFFFFF) then
    upd_fs (set_free_clust (u32 (free_clust f + k))) ;;
    upd_fs (fun f => set_fsi_flag (fsi_flag f ||| 1) f)
  else ret tt.

(** [while (clst < fs->n_fatent)], with [fuel] tests of the condition. *)
Fixpoint remove_loop (fuel : nat) (clst : Z) : ST state Z :=
  match fuel with
  | O => hang
  | S fuel' =>
      let! f := get_fs in
      if clst <? n_fatent f then
        let! nxt := get_fat clst in
        if nxt =? 0 then ret FR_OK
        else if nxt =? 1 then ret FR_INT_ERR
        else if nxt =? 0xFFFFFFFF then ret FR_DISK_ERR
        else
          let! res := put_fat clst 0 in
          if negb (res =? FR_OK) then ret res
          else count_free 1 ;; remove_loop fuel' nxt
      else ret FR_OK
  end.

Definition remove_chain (clst : Z) : ST state Z :=
  let! f := get_fs in
  if (clst <? 2) || (n_fatent f <=? clst) then ret FR_INT_ERR
  else remove_loop (S (Z.to_nat (n_fatent f))) clst.

(** The search for a free cluster: [inl] returns from [create_chain], [inr] leaves the loop
    with the cluster found. *)
Fixpoint find_free (fuel : nat) (scl ncl : Z) : ST state (Z + Z) :=
  match fuel with
  | O => hang
  | S fuel' =>
      let! f := get_fs in
      let ncl := u32 (ncl + 1) in
      let wrapped := n_fatent f <=? ncl in
      let ncl := if wrapped then 2 else ncl in
      if wrapped && (scl <? ncl) then ret (inl 0)
      else
        let! cs := get_fat ncl in
        if cs =? 0 then ret (inr ncl)
        else if (cs =? 0xFFFFFFFF) || (cs =? 1) then ret (inl cs)
        else if ncl =? scl then ret (inl 0)
        else find_free fuel' scl ncl
  end.

(** From the start point on: take a free cluster and link it. *)
Definition create_from (clst scl : Z) : ST state Z :=
  let! f := get_fs in
  let! found := find_free (S (Z.to_nat (n_fatent f))) scl scl in
  match found with
  | inl r => ret r
  | inr ncl =>
      let! res := put_fat ncl 0x0FFFFFFF in
      let! res := (if (res =? FR_OK) && negb (clst =? 0) then put_fat clst ncl else ret res) in
      if res =? FR_OK then
        upd_fs (set_last_clust ncl) ;;
        count_free (-1) ;;
        ret ncl
      else ret (if res =? FR_DISK_ERR then 0xFFFFFFFF else 1)
  end.

Definition create_chain (clst : Z) : ST state Z :=
  let! f := get_fs in
  if clst =? 0 then
    let scl := last_clust f in
    create_from clst (if (scl =? 0) || (n_fatent f <=? scl) then 1 else scl)
  else
    let! cs := get_fat clst in
    if cs <? 2 then ret 1
    else if cs =? 0xFFFFFFFF then ret cs
    else if cs <? n_fatent f then ret cs
    else create_from clst clst.
End Fat.

(** ** The disk behind the window *)

(** What the layer relies on: a drive that holds [st] reads and writes its sectors. *)
Class BlockLaws (D : Type) `{BlockDevice D} := {
  blk_holds : D -> sectors -> Prop;
  blk_sectors d st : blk_holds d st -> sectors_ok st;
  blk_limit d st s : blk_holds d st -> is_Some (st !! s) -> 0 <= s < 0xFFFFFFFF;
  blk_read_ok d st s l : blk_holds d st -> l <> [] -> sector_run st s l ->
    exists d', blk_read 0 s (Z.of_nat (length l)) d = (RES_OK, concat l, d') /\ blk_holds d' st;
  blk_write_ok d st s l : blk_holds d st -> l <> [] -> blocks_ok l -> present st s (length l) ->
    exists d', blk_write 0 (concat l) s (Z.of_nat (length l)) d = (RES_OK, d') /\ blk_holds d' (write_run st s l);
  blk_sync_ok d st : blk_holds d st -> exists d', blk_sync 0 d = (RES_OK, d') /\ blk_holds d' st;
  blk_ready d st : blk_holds d st -> (blk_status 0 d &&& (STA_NOINIT ||| STA_PROTECT)) = 0;
}.

(** The table fits the FAT area, the areas follow each other, and the marks of the end of
    a chain are not cluster numbers. *)
Record geom_ok (f : FATFS) : Prop := {
  g_drv : drv f = 0;
  g_copies : n_fats f = 1 \/ n_fats f = 2;
  g_fatbase : 0 <= fatbase f;
  g_fsize : 0 < fsize f;
  g_clusters : 2 <= n_fatent f;
  g_csize : 1 <= csize f <= 128;
  g_data : fatbase f + n_fats f * fsize f <= database f;
  g_end : database f + (n_fatent f - 2) * csize f < 0xFFFFFFFF;
  g_type :
    fs_type f = FS_FAT12 /\ n_fatent f <= 0xFF7 /\ 3 * n_fatent f <= 2 * (512 * fsize f) \/
    fs_type f = FS_FAT16 /\ n_fatent f <= 0xFFF7 /\ 2 * n_fatent f <= 512 * fsize f \/
    fs_type f = FS_FAT32 /\ n_fatent f <= 0x0FFFFFF7 /\ 4 * n_fatent f <= 512 * fsize f;
}.

(** The second FAT. *)
Definition in_copy (f : FATFS) (s : Z) : Prop := fatbase f + fsize f <= s < fatbase f + n_fats f * fsize f.
#[export] Instance in_copy_dec f s : Decision (in_copy f s).
Proof. unfold in_copy. apply _. Defined.

(** The window holds a sector that differs from the drive's. *)
Definition dirty_at (f : FATFS) (s : Z) : Prop := wflag f = 1 /\ winsect f = s.
#[export] Instance dirty_at_dec f s : Decision (dirty_at f s).
Proof. unfold dirty_at. apply _. Defined.

(** The drive's contents [st] and the window make up the disk [L]; the second FAT follows
    the first. *)
Record coherent (f : FATFS) (st L : sectors) : Prop := {
  co_win : length (win f) = 512%nat /\ Forall (inu 8) (win f);
  co_flag : wflag f = 0 /\ (winsect f = 0xFFFFFFFF \/ st !! winsect f = Some (win f)) \/
            wflag f = 1 /\ is_Some (st !! winsect f) /\ ~ in_copy f (winsect f);
  co_disk s : ~ in_copy f s -> L !! s = if decide (dirty_at f s) then Some (win f) else st !! s;
  co_fat s : fatbase f <= s < fatbase f + n_fats f * fsize f -> is_Some (st !! s);
  co_mirror s : n_fats f = 2 -> fatbase f <= s < fatbase f + fsize f -> ~ dirty_at f s -> st !! (s + fsize f) = st !! s;
}.

Section Layer.
Context {D : Type} `{BlockLaws D}.
Abbreviation state := (volume D).
Implicit Types (v : state) (L : sectors).

(** The volume is the disk [L]. *)
Definition vol_rep v L : Prop := geom_ok (fs v) /\ sectors_ok L /\ exists st, blk_holds (dsk v) st /\ coherent (fs v) st L.

Lemma write_one v st s b : drv (fs v) = 0 -> blk_holds (dsk v) st -> is_Some (st !! s) -> length b = 512%nat -> Forall (inu 8) b ->
  exists d', disk_write_at b s 1 v = Ret RES_OK (set_dsk d' v) /\ blk_holds d' (<[s := b]> st).
Proof.
  intros Hd Hb Hs L B. destruct (blk_write_ok (dsk v) st s [b] Hb) as (d' & E & Hd'); [done|by repeat constructor| |].
  - intros i Hi. cbn [length] in Hi. by replace i with s by lia.
  - exists d'. split; [|exact Hd']. unfold disk_write_at. rewrite Hd. cbn [concat length] in E. rewrite app_nil_r in E. change (Z.of_nat 1) with 1 in E. by rewrite E.
Qed.

Lemma read_one v st s b : drv (fs v) = 0 -> blk_holds (dsk v) st -> st !! s = Some b ->
  exists d', disk_read_at s 1 v = Ret (RES_OK, b) (set_dsk d' v) /\ blk_holds d' st.
Proof.
  intros Hd Hb Hs. destruct (blk_read_ok (dsk v) st s [b] Hb) as (d' & E & Hd'); [done|by cbn|].
  exists d'. split; [|exact Hd']. unfold disk_read_at. rewrite Hd. cbn [concat length] in E. rewrite app_nil_r in E. change (Z.of_nat 1) with 1 in E. by rewrite E.
Qed.

Lemma set_wflag_eta f : wflag f = 0 -> set_wflag 0 f = f.
Proof. intros E. destruct f. cbn in *. by subst. Qed.

(** The window is written back, to both FATs where it is part of the first. *)
Lemma sync_window_spec v L : vol_rep v L ->
  returns sync_window v (fun r v' => r = FR_OK /\ vol_rep v' L /\ fs v' = set_wflag 0 (fs v)).
Proof.
  intros (G & Ok & st & Hb & Co). pose proof Co as [Cw Cf Cd Ct Cm]. unfold sync_window. eapply returns_step; [reflexivity|].
  destruct Cf as [(F0 & Cv)|(F1 & Hs & Nc)].
  { rewrite F0. cbn [Z.eqb negb]. apply returns_ret. split_and!; [done|by split_and!; [| |exists st]|by rewrite set_wflag_eta]. }
  rewrite F1. cbn [Z.eqb negb].
  destruct (write_one v st (winsect (fs v)) (win (fs v)) (g_drv _ G) Hb Hs (proj1 Cw) (proj2 Cw)) as (d1 & E1 & Hb1).
  eapply returns_step; [exact E1|]. rewrite bool_decide_true by done. cbn [negb]. eapply returns_step; [reflexivity|].
  set (f := fs v) in *. set (v1 := set_fs (set_wflag 0 f) (set_dsk d1 v)). set (st1 := <[winsect f := win f]> st) in *.
  change (set_fs _ _) with v1. pose proof (blk_limit _ _ _ Hb Hs) as Ls. destruct G as [Gd Gc Gb Gs Gn Gz Gt Ge Gy].
  assert (Geo : geom_ok (set_wflag 0 f)) by done.
  assert (Bnd : fatbase f + fsize f < 2 ^ 32 /\ (n_fats f = 2 -> fatbase f + 2 * fsize f < 2 ^ 32)).
  { assert (0 <= (n_fatent f - 2) * csize f) by nia. destruct Gc as [N|N]; rewrite N in *; lia. }
  assert (Disk1 : forall s, ~ in_copy f s -> L !! s = st1 !! s).
  { intros s Ns. rewrite Cd by done. unfold st1. destruct (decide (dirty_at f s)) as [[_ <-]|N]; [by rewrite lookup_insert_eq|].
    rewrite lookup_insert_ne; [done|]. intros E. by apply N. }
  assert (Pres1 : forall s, is_Some (st !! s) -> is_Some (st1 !! s)).
  { intros s Hp. unfold st1. destruct (decide (winsect f = s)) as [->|]; [by rewrite lookup_insert_eq|by rewrite lookup_insert_ne]. }
  assert (Nd : forall s, ~ dirty_at (set_wflag 0 f) s) by (intros s [? _]; done).
  destruct (Z.ltb_spec (u32 (winsect f - fatbase f)) (fsize f)) as [Lt|Ge'].
  - (* in the first FAT *)
    assert (In : fatbase f <= winsect f < fatbase f + fsize f).
    { assert (0 <= winsect f < 2 ^ 32) by lia. unfold wrapu in Lt. destruct (Z.lt_ge_cases (winsect f) (fatbase f)); [|rewrite Z.mod_small in Lt by lia; lia].
      exfalso. rewrite <- (Z.mod_add _ 1), Z.mod_small in Lt by lia. lia. }
    destruct Gc as [N1|N2].
    + change (n_fats (fs v)) with (n_fats f). rewrite N1. eapply returns_step; [reflexivity|]. apply returns_ret. split_and!; [done| |done].
      split; [exact Geo|]. split; [exact Ok|]. exists st1. split; [exact Hb1|]. constructor; [exact Cw|..].
      * left. split; [done|right]. by unfold st1; cbn; rewrite lookup_insert_eq.
      * intros s Ns. rewrite decide_False by done. by apply Disk1.
      * intros s Hs'. apply Pres1. by apply Ct.
      * intros s N2. cbn in N2. lia.
    + change (n_fats (fs v)) with (n_fats f). rewrite N2. set (s2 := u32 (winsect f + fsize f)).
      assert (E2 : s2 = winsect f + fsize f) by (apply wrapu_small; unfold inu; lia).
      destruct (write_one v1 st1 s2 (win f)) as (d2 & E3 & Hb2); [exact Gd|exact Hb1|apply Pres1, Ct; fold f; rewrite E2, N2; lia|apply Cw..|].
      eapply returns_bind with (Q := fun _ v' => v' = set_dsk d2 v1).
      { change (Z.to_nat (2 - 1)) with 1%nat. cbn [reflect_copies]. eapply returns_step; [reflexivity|]. fold f. 
        eapply returns_step; [exact E3|]. by apply returns_ret. }
      intros [] ? ->. apply returns_ret. split_and!; [done| |done]. split; [exact Geo|]. split; [exact Ok|]. exists (<[s2 := win f]> st1). split; [exact Hb2|].
      assert (Nw : s2 <> winsect f) by lia.
      constructor; [exact Cw|..].
      * left. split; [done|right]. cbn. rewrite lookup_insert_ne by done. unfold st1. by rewrite lookup_insert_eq.
      * intros s Ns. rewrite decide_False by done. rewrite lookup_insert_ne; [by apply Disk1|]. intros <-. apply Ns. unfold in_copy. cbn. rewrite E2, N2. lia.
      * intros s Hs'. destruct (decide (s2 = s)) as [->|]; [by rewrite lookup_insert_eq|]. rewrite lookup_insert_ne by done. apply Pres1. by apply Ct.
      * intros s _ Hs' _. cbn in Hs' |- *. destruct (decide (s = winsect f)) as [->|Ne].
        -- rewrite E2, lookup_insert_eq, lookup_insert_ne by lia. unfold st1. by rewrite lookup_insert_eq.
        -- rewrite !lookup_insert_ne by lia. unfold st1. rewrite !lookup_insert_ne by lia. apply Cm; [done|done|]. by intros [_ ?].
  - eapply returns_step; [reflexivity|]. apply returns_ret. split_and!; [done| |done]. split; [exact Geo|]. split; [exact Ok|]. exists st1. split; [exact Hb1|].
    assert (Out : ~ fatbase f <= winsect f < fatbase f + fsize f).
    { intros I. rewrite wrapu_small in Ge' by (unfold inu; lia). lia. }
    constructor; [exact Cw|..].
    + left. split; [done|right]. cbn. unfold st1. by rewrite lookup_insert_eq.
    + intros s Ns. rewrite decide_False by done. by apply Disk1.
    + intros s Hs'. apply Pres1. by apply Ct.
    + intros s N2 Hs' _. cbn in N2, Hs' |- *. unfold st1. unfold in_copy in Nc. fold f in Nc. rewrite N2 in Nc.
      rewrite !lookup_insert_ne by lia. apply Cm; [done|done|]. intros [_ E]. fold f in E. lia.
Qed.

(** What the window functions change: the window, its flag and the hints on free clusters. *)
Definition rest_same (f f' : FATFS) : Prop :=
  fs_type f' = fs_type f /\ drv f' = drv f /\ csize f' = csize f /\ n_fats f' = n_fats f /\ fs_id f' = fs_id f /\ n_rootdir f' = n_rootdir f /\
  cdir f' = cdir f /\ n_fatent f' = n_fatent f /\ fsize f' = fsize f /\ volbase f' = volbase f /\ fatbase f' = fatbase f /\
  dirbase f' = dirbase f /\ database f' = database f.
(** Only the window moved. *)
Definition window_moved (f f' : FATFS) : Prop :=
  rest_same f f' /\ last_clust f' = last_clust f /\ free_clust f' = free_clust f /\ fsi_flag f' = fsi_flag f.

Lemma rest_same_refl f : rest_same f f.
Proof. done. Qed.
Lemma rest_same_trans f1 f2 f3 : rest_same f1 f2 -> rest_same f2 f3 -> rest_same f1 f3.
Proof. unfold rest_same. intros H1 H2. decompose [and] H1. decompose [and] H2. split_and!; congruence. Qed.
Lemma window_moved_refl f : window_moved f f.
Proof. done. Qed.
Lemma window_moved_trans f1 f2 f3 : window_moved f1 f2 -> window_moved f2 f3 -> window_moved f1 f3.
Proof. intros (R1 & A1 & B1 & C1) (R2 & A2 & B2 & C2). split; [by eapply rest_same_trans|]. split_and!; congruence. Qed.
Lemma window_moved_rest f f' : window_moved f f' -> rest_same f f'.
Proof. by intros [? _]. Qed.

Lemma in_copy_same f f' s : rest_same f f' -> in_copy f' s <-> in_copy f s.
Proof. intros (_ & _ & _ & E1 & _ & _ & _ & _ & E2 & _ & E3 & _). unfold in_copy. by rewrite E1, E2, E3. Qed.

Lemma geom_same f f' : rest_same f f' -> geom_ok f -> geom_ok f'.
Proof.
  intros (E1 & E2 & E3 & E4 & _ & _ & _ & E8 & E9 & _ & E11 & _ & E13) [Gd Gc Gb Gs Gn Gz Gt Ge Gy].
  constructor; rewrite ?E1, ?E2, ?E3, ?E4, ?E8, ?E9, ?E11, ?E13; done.
Qed.

(** The sector asked for comes into the window. *)
Lemma move_window_spec v L s b : vol_rep v L -> L !! s = Some b -> ~ in_copy (fs v) s ->
  returns (move_window s) v (fun r v' => r = FR_OK /\ vol_rep v' L /\ window_moved (fs v) (fs v') /\ winsect (fs v') = s /\ win (fs v') = b).
Proof.
  intros R Hs Nc. unfold move_window. eapply returns_step; [reflexivity|]. destruct (Z.eqb_spec s (winsect (fs v))) as [E|E]; cbn [negb].
  - apply returns_ret. split_and!; [done|done|apply window_moved_refl|done|]. destruct R as (G & Ok & st & Hb & [Cw Cf Cd _ _]). rewrite Cd in Hs by done.
    destruct (decide (dirty_at (fs v) s)) as [_|N]; [congruence|]. destruct Cf as [(F0 & [Cv|Cv])|(F1 & _)]; [|congruence|].
    + exfalso. pose proof (blk_limit _ _ _ Hb (ex_intro _ b Hs)). lia.
    + exfalso. by apply N.
  - eapply returns_bind; [by apply (sync_window_spec v L)|]. intros r v1 (-> & (G1 & Ok & st & Hb & Co) & E1). cbn [Z.eqb].
    assert (Nc1 : ~ in_copy (fs v1) s) by (by rewrite E1). pose proof Co as [Cw Cf Cd Ct Cm].
    assert (Hst : st !! s = Some b).
    { rewrite Cd in Hs by done. destruct (decide (dirty_at (fs v1) s)) as [[F _]|_]; [|done]. rewrite E1 in F. done. }
    destruct (read_one v1 st s b (g_drv _ G1) Hb Hst) as (d' & E2 & Hb'). eapply returns_step; [exact E2|]. cbv beta iota.
    eapply returns_step; [reflexivity|]. rewrite bool_decide_true by done. cbn [negb]. eapply returns_step; [reflexivity|]. apply returns_ret.
    cbn [fs set_fs set_dsk]. rewrite E1. split; [done|]. split; [|done].
    split; [apply (geom_same (fs v1)); [by rewrite E1|exact G1]|]. split; [exact Ok|]. exists st. split; [exact Hb'|].
    destruct (blk_sectors _ _ Hb s b Hst) as [Lb Bb]. rewrite E1 in Cd, Ct, Cm. constructor; [done| | |exact Ct|].
    + left. split; [done|]. by right.
    + intros s' Ns. rewrite decide_False by (intros [? _]; done). rewrite Cd by done. by rewrite decide_False by (intros [? _]; done).
    + intros s' N2 Hs' _. apply Cm; [done|done|]. by intros [? _].
Qed.

(** A change to the sector in the window is a change to the disk. *)
Lemma edit_win_spec v L g : vol_rep v L -> L !! winsect (fs v) = Some (win (fs v)) -> ~ in_copy (fs v) (winsect (fs v)) ->
  length (g (win (fs v))) = 512%nat -> Forall (inu 8) (g (win (fs v))) ->
  returns (edit_win g) v (fun _ v' => vol_rep v' (<[winsect (fs v) := g (win (fs v))]> L) /\ window_moved (fs v) (fs v') /\
    winsect (fs v') = winsect (fs v) /\ win (fs v') = g (win (fs v))).
Proof.
  intros (G & Ok & st & Hb & [Cw Cf Cd Ct Cm]) Hw Nc Lg Bg. eapply returns_step; [reflexivity|]. apply returns_modify. cbn [fs set_fs].
  split; [|done]. split; [by apply (geom_same (fs v))|].
  split; [by apply map_Forall_insert_2|]. exists st. split; [exact Hb|].
  assert (Hs : is_Some (st !! winsect (fs v))).
  { destruct Cf as [(F0 & [Cv|Cv])|(_ & Hs & _)]; [|eauto|done]. rewrite Cd in Hw by done. rewrite decide_False in Hw by (intros [? _]; congruence). eauto. }
  constructor.
  - by split.
  - right. split; [done|]. by split.
  - intros s Ns. destruct (decide (winsect (fs v) = s)) as [<-|Ne].
    + by rewrite lookup_insert_eq, decide_True by done.
    + rewrite lookup_insert_ne by done. rewrite decide_False by (by intros [_ ?]). rewrite Cd by done. by rewrite decide_False by (by intros [_ ?]).
  - exact Ct.
  - intros s N2 Hs' Nd. apply Cm; [done|done|]. intros [_ E]. by apply Nd.
Qed.

End Layer.

(** ** The table *)

(** The bytes of the first FAT, and the entry of cluster [c]: three nibbles, two bytes, or
    28 bits of four bytes. *)
Definition fat_byte (f : FATFS) (L : sectors) (i : Z) : Z := byte_at (default [] (L !! (fatbase f + i / 512))) (i mod 512).
Definition entry (ty : Z) (bs : Z -> Z) (c : Z) : Z :=
  if ty =? FS_FAT12 then
    let w := bs (c + c / 2) + 256 * bs (c + c / 2 + 1) in if Z.odd c then w / 16 else w mod 4096
  else if ty =? FS_FAT16 then bs (2 * c) + 256 * bs (2 * c + 1)
  else (bs (4 * c) + 256 * bs (4 * c + 1) + 65536 * bs (4 * c + 2) + 16777216 * bs (4 * c + 3)) mod 2 ^ 28.
Definition fat_entry (f : FATFS) (L : sectors) (c : Z) : Z := entry (fs_type f) (fat_byte f L) c.

(** The bits of an entry. *)
Definition entry_bits (ty : Z) : Z := if ty =? FS_FAT12 then 12 else if ty =? FS_FAT16 then 16 else 28.

Lemma byte_at_put i b w j : 0 <= i < Z.of_nat (length w) -> 0 <= j ->
  byte_at (put_byte i b w) j = if j =? i then b else byte_at w j.
Proof.
  intros Hi Hj. unfold byte_at, put_byte. destruct (Z.eqb_spec j i) as [->|Ne].
  - by rewrite list_lookup_total_insert_eq by lia.
  - by rewrite list_lookup_total_insert_ne by lia.
Qed.

Lemma put_byte_length i b w : length (put_byte i b w) = length w.
Proof. apply length_insert. Qed.
Lemma put_byte_bytes i b w : inu 8 b -> Forall (inu 8) w -> Forall (inu 8) (put_byte i b w).
Proof. intros Hb Hw. by apply Forall_insert. Qed.

Lemma byte_at_range w i : Forall (inu 8) w -> inu 8 (byte_at w i).
Proof.
  intros B. unfold byte_at. destruct (w !! Z.to_nat i) as [x|] eqn:E.
  - rewrite (list_lookup_total_correct _ _ _ E). by eapply Forall_lookup_1.
  - rewrite list_lookup_total_alt, E. cbn. unfold inu. lia.
Qed.

Lemma lor_bytes a b n : 0 <= n -> inu n a -> 0 <= b -> (b <<< n ||| a) = a + 2 ^ n * b.
Proof. intros. rewrite Z.lor_comm, lor_disjoint_add by done. lia. Qed.

Lemma LD_WORD_value w i : Forall (inu 8) w -> LD_WORD w i = byte_at w i + 256 * byte_at w (i + 1).
Proof.
  intros B. unfold LD_WORD. pose proof (byte_at_range w i B). pose proof (byte_at_range w (i + 1) B). unfold inu in *.
  by rewrite lor_bytes by (unfold inu; lia).
Qed.

Lemma LD_DWORD_value w i : Forall (inu 8) w ->
  LD_DWORD w i = byte_at w i + 256 * byte_at w (i + 1) + 65536 * byte_at w (i + 2) + 16777216 * byte_at w (i + 3).
Proof.
  intros B. unfold LD_DWORD. pose proof (byte_at_range w i B). pose proof (byte_at_range w (i + 1) B).
  pose proof (byte_at_range w (i + 2) B). pose proof (byte_at_range w (i + 3) B). unfold inu in *.
  rewrite <- !Z.lor_assoc. rewrite (lor_bytes _ (byte_at w (i + 1)) 8) by (unfold inu; lia).
  rewrite (lor_bytes _ (byte_at w (i + 2)) 16) by (unfold inu; lia). rewrite (lor_bytes _ (byte_at w (i + 3)) 24) by (unfold inu; lia). lia.
Qed.

(** The bytes of a table with one sector replaced. *)
Lemma fat_byte_sector f L k w j : 0 <= j -> fat_byte f (<[fatbase f + k := w]> L) j = if j / 512 =? k then byte_at w (j mod 512) else fat_byte f L j.
Proof.
  intros Hj. unfold fat_byte. destruct (Z.eqb_spec (j / 512) k) as [->|Ne]; [by rewrite lookup_insert_eq|]. by rewrite lookup_insert_ne by lia.
Qed.

Lemma fat_byte_range f L i : sectors_ok L -> inu 8 (fat_byte f L i).
Proof.
  intros Ok. unfold fat_byte. apply byte_at_range. destruct (L !! _) as [b|] eqn:E; [by apply (Ok _ b E)|constructor].
Qed.

Lemma entry_ext ty bs bs' c : (forall i, 0 <= i -> bs' i = bs i) -> 0 <= c -> entry ty bs' c = entry ty bs c.
Proof. intros E Hc. unfold entry. assert (0 <= c / 2) by (apply Z.div_pos; lia). by rewrite !E by lia. Qed.

Lemma land_1_odd c : ((c &&& 1) =? 0) = negb (Z.odd c).
Proof. change 1 with (Z.ones 1). rewrite Z.land_ones by lia. change (2 ^ 1) with 2. rewrite Zmod_odd. by destruct (Z.odd c). Qed.

(** One byte of the FAT is changed. *)
Definition set_byte (bs : Z -> Z) (p b : Z) : Z -> Z := fun j => if j =? p then b else bs j.

(** *** Twelve bits *)
Lemma odd_half c : c / 2 + c / 2 + b2z (Z.odd c) = c.
Proof. pose proof (Z.div_mod c 2 ltac:(lia)). rewrite Zmod_odd in H. destruct (Z.odd c); cbn; lia. Qed.

(** The two bytes [put_fat] writes for an entry of twelve bits. *)
Definition fat12_low (odd : bool) (old val : Z) : Z := if odd then old mod 16 + 16 * (val mod 16) else val mod 256.
Definition fat12_high (odd : bool) (old val : Z) : Z := if odd then val / 16 mod 256 else old / 16 * 16 + val / 256 mod 16.

Lemma entry12_put bs c val : 0 <= c -> (forall i, inu 8 (bs i)) -> 0 <= val ->
  let p := c + c / 2 in
  let bs' := set_byte (set_byte bs p (fat12_low (Z.odd c) (bs p) val)) (p + 1) (fat12_high (Z.odd c) (bs (p + 1)) val) in
  entry FS_FAT12 bs' c = val mod 4096 /\ forall c', 0 <= c' -> c' <> c -> entry FS_FAT12 bs' c' = entry FS_FAT12 bs c'.
Proof.
  intros Hc B Hv p bs'. assert (Op := odd_half c). unfold entry. change (FS_FAT12 =? FS_FAT12) with true. cbv iota zeta. fold p. split.
  - unfold bs', set_byte. rewrite (proj2 (Z.eqb_neq p (p + 1))), !Z.eqb_refl by lia. unfold fat12_low, fat12_high.
    pose proof (B p). pose proof (B (p + 1)). unfold inu in *. destruct (Z.odd c).
    + pose proof (Z.mod_pos_bound (bs p) 16). pose proof (Z.div_mod val 16). pose proof (Z.div_mod (val / 16) 256).
      replace (bs p mod 16 + 16 * (val mod 16) + 256 * (val / 16 mod 256)) with (bs p mod 16 + (val mod 16 + 16 * (val / 16 mod 256)) * 16) by lia.
      rewrite Z.div_add, (Z.div_small (bs p mod 16)) by lia. change 4096 with (16 * 256). rewrite Z.rem_mul_r by lia. lia.
    + pose proof (Z.mod_pos_bound (bs (p + 1) / 16) 16). change 4096 with (256 * 16). rewrite !Z.rem_mul_r by lia.
      rewrite (Z.mul_comm 256), Z.mod_add, Z.mod_mod by lia. f_equal. f_equal.
      replace (val mod 256 + (bs (p + 1) / 16 * 16 + val / 256 mod 16) * 256) with (val mod 256 + (bs (p + 1) / 16 * 16 + val / 256 mod 16) * 256) by lia.
      pose proof (Z.mod_pos_bound val 256). rewrite Z.div_add, Z.div_small by lia. rewrite Z.add_0_l, Z.add_comm, Z.mod_add, Z.mod_mod by lia. done.
  - intros c' Hc' Ne. assert (Op' := odd_half c'). set (p' := c' + c' / 2). unfold bs', set_byte. pose proof (B p) as Bp. pose proof (B (p + 1)) as Bp1. pose proof (B (p + 2)) as Bp2. pose proof (B (p - 1)) as Bm.
    unfold inu in *. unfold p, p' in *. unfold fat12_low, fat12_high.
    repeat match goal with |- context [?x =? ?y] => destruct (Z.eqb_spec x y) end; try done;
    destruct (Z.odd c) eqn:Oc, (Z.odd c') eqn:Oc'; cbn [b2z] in *; try lia.
    + rewrite e. set (x := bs (c + c / 2 + 1)) in *. set (y := bs (c + c / 2 + 1 + 1)). pose proof (Z.mod_pos_bound (val / 256) 16).
      replace (x / 16 * 16 + (val / 256) mod 16 + 256 * y) with ((val / 256) mod 16 + (x / 16 + 16 * y) * 16) by lia.
      replace (x + 256 * y) with (x + 16 * y * 16) by lia. rewrite !Z.div_add, (Z.div_small ((val / 256) mod 16)) by lia. lia.
    + replace (c' + c' / 2 + 1) with (c + c / 2) by lia. set (x := bs (c + c / 2)) in *. set (y := bs (c' + c' / 2)).
      pose proof (Z.div_mod x 16). replace (y + 256 * (x mod 16 + 16 * (val mod 16))) with (y + 256 * x + (val mod 16 - x / 16) * 4096) by lia.
      by rewrite Z.mod_add by lia.
Qed.

(** Decide the comparisons of the goal. *)
Ltac eval_eqb :=
  repeat match goal with |- context [?x =? ?y] =>
    first [rewrite (proj2 (Z.eqb_neq x y)) by lia | rewrite (proj2 (Z.eqb_eq x y)) by lia] end.

(** *** Sixteen bits, and twenty-eight *)
Lemma entry16_put bs c val : 0 <= c -> 0 <= val ->
  let bs' := set_byte (set_byte bs (2 * c) (val mod 256)) (2 * c + 1) (val / 256 mod 256) in
  entry FS_FAT16 bs' c = val mod 65536 /\ forall c', 0 <= c' -> c' <> c -> entry FS_FAT16 bs' c' = entry FS_FAT16 bs c'.
Proof.
  intros Hc Hv bs'. unfold entry. change (FS_FAT16 =? FS_FAT12) with false. change (FS_FAT16 =? FS_FAT16) with true. cbv iota. unfold bs', set_byte. split.
  - eval_eqb. change 65536 with (256 * 256). by rewrite Z.rem_mul_r by lia.
  - intros c' Hc' Ne. by eval_eqb.
Qed.

Lemma entry32_put bs c val old : 0 <= c -> 0 <= val < 2 ^ 28 -> 0 <= old ->
  let v := val + 2 ^ 28 * old in
  let bs' := set_byte (set_byte (set_byte (set_byte bs (4 * c) (v mod 256)) (4 * c + 1) (v / 256 mod 256)) (4 * c + 2) (v / 65536 mod 256))
               (4 * c + 3) (v / 16777216 mod 256) in
  entry FS_FAT32 bs' c = val /\ forall c', 0 <= c' -> c' <> c -> entry FS_FAT32 bs' c' = entry FS_FAT32 bs c'.
Proof.
  intros Hc Hv Ho v bs'. unfold entry. change (FS_FAT32 =? FS_FAT12) with false. change (FS_FAT32 =? FS_FAT16) with false. cbv iota. unfold bs', set_byte. split.
  - eval_eqb.
    assert (E : v mod 256 + 256 * (v / 256 mod 256) + 65536 * (v / 65536 mod 256) + 16777216 * (v / 16777216 mod 256) = v mod 2 ^ 32).
    { change (2 ^ 32) with (256 * (256 * (256 * 256))). change 65536 with (256 * 256) at 2. change 16777216 with (256 * 256 * 256) at 2.
      rewrite <- !Z.div_div by lia. rewrite !(Z.rem_mul_r _ 256) by lia. lia. }
    rewrite E. pose proof (wrapu_wrapu 28 32 v ltac:(lia)) as W. unfold wrapu in W. rewrite W. unfold v.
    rewrite (Z.mul_comm (2 ^ 28) old), Z.mod_add by lia. apply Z.mod_small. lia.
  - intros c' Hc' Ne. by eval_eqb.
Qed.


Section Table.
Context {D : Type} `{BlockLaws D}.
Abbreviation state := (volume D).
Implicit Types (v : state) (L : sectors).

Lemma fat_entry_same f f' L c : rest_same f f' -> fat_entry f' L c = fat_entry f L c.
Proof. intros (E1 & _ & _ & _ & _ & _ & _ & _ & _ & _ & E2 & _). unfold fat_entry, fat_byte. by rewrite E1, E2. Qed.

Lemma window_moved_sym f f' : window_moved f f' -> window_moved f' f.
Proof. unfold window_moved, rest_same. intros W. decompose [and] W. split_and!; congruence. Qed.

(** Byte [i] of the FAT is on a sector of the disk. *)
Lemma fat_sector v L i : vol_rep v L -> 0 <= i < 512 * fsize (fs v) ->
  let s := fatbase (fs v) + i / 512 in
  exists b, L !! s = Some b /\ length b = 512%nat /\ Forall (inu 8) b /\ ~ in_copy (fs v) s /\ u32 s = s /\ fatbase (fs v) <= s < fatbase (fs v) + fsize (fs v).
Proof.
  intros (G & Ok & st & Hb & [Cw Cf Cd Ct Cm]) Hi s. destruct G as [Gd Gc Gb Gs Gn Gz Gt Ge Gy].
  assert (Hq : 0 <= i / 512 < fsize (fs v)) by (split; [apply Z.div_pos; lia|apply Z.div_lt_upper_bound; lia]).
  assert (Nc : ~ in_copy (fs v) s) by (unfold in_copy, s; lia).
  assert (Hst : is_Some (st !! s)) by (apply Ct; unfold s; destruct Gc as [-> | ->]; lia).
  assert (HL : is_Some (L !! s)) by (rewrite Cd by done; destruct (decide _); eauto). destruct HL as [b HL]. exists b.
  destruct (Ok s b HL). pose proof (blk_limit _ _ _ Hb Hst). split_and!; try done; [|unfold s in *; lia..]. apply wrapu_small. unfold inu. lia.
Qed.

Lemma fetch_fat v L i : vol_rep v L -> 0 <= i < 512 * fsize (fs v) ->
  returns (move_window (u32 (fatbase (fs v) + i / SS))) v (fun r v' =>
    r = FR_OK /\ vol_rep v' L /\ window_moved (fs v) (fs v') /\ winsect (fs v') = fatbase (fs v) + i / 512 /\ 
    L !! winsect (fs v') = Some (win (fs v')) /\ ~ in_copy (fs v') (winsect (fs v')) /\
    length (win (fs v')) = 512%nat /\ Forall (inu 8) (win (fs v')) /\
    forall j, j / 512 = i / 512 -> byte_at (win (fs v')) (j mod SS) = fat_byte (fs v) L j).
Proof.
  intros R Hi. destruct (fat_sector v L i R Hi) as (b & Hb & Lb & Bb & Nc & Eu & Hr). change SS with 512. rewrite Eu.
  eapply returns_mono; [by apply (move_window_spec v L _ b)|]. cbv beta. intros r v' (-> & R' & W & Es & Ew). rewrite Es, Ew.
  split_and!; [done|exact R'|exact W|done|done| |done|done|].
  - intros Hc. apply Nc. by apply (in_copy_same _ _ _ (proj1 W)).
  - intros j Ej. unfold fat_byte. by rewrite Ej, Hb.
Qed.

(** Where the bytes of an entry are. *)
Lemma entry_in_fat f c : geom_ok f -> 2 <= c < n_fatent f ->
  (fs_type f = FS_FAT12 -> c + c / 2 + 1 < 512 * fsize f) /\ (fs_type f = FS_FAT16 -> 2 * c + 1 < 512 * fsize f) /\
  (fs_type f = FS_FAT32 -> 4 * c + 3 < 512 * fsize f).
Proof.
  intros [_ _ _ _ _ _ _ _ Gy] Hc. pose proof (Z.div_mod c 2 ltac:(lia)). pose proof (Z.mod_pos_bound c 2 ltac:(lia)).
  split_and!; intros E; rewrite E in Gy; destruct Gy as [(F & ? & ?)|[(F & ? & ?)|(F & ? & ?)]]; try discriminate F; lia.
Qed.

(** The bytes of an entry are in one sector. *)
Lemma entry_offset w c k : w = 2 \/ w = 4 -> 0 <= c -> 0 <= k < w ->
  (w * c + k) / 512 = w * c / 512 /\ (w * c + k) mod 512 = (w * c) mod 512 + k /\ (w * c) mod 512 + w <= 512 /\ c / (512 / w) = w * c / 512.
Proof.
  intros Hw Hc Hk. assert (Hm : (w * c) mod 512 + w <= 512).
  { destruct Hw as [-> | ->]; [change 512 with (2 * 256)|change 512 with (4 * 128)]; rewrite Zmult_mod_distr_l.
    - pose proof (Z.mod_pos_bound c 256). lia.
    - pose proof (Z.mod_pos_bound c 128). lia. }
  pose proof (Z.div_mod (w * c) 512 ltac:(lia)) as Dm. pose proof (Z.mod_pos_bound (w * c) 512 ltac:(lia)). split_and!; [| |exact Hm|].
  - symmetry. apply (Z.div_unique _ _ _ ((w * c) mod 512 + k)); lia.
  - symmetry. apply (Z.mod_unique _ _ (w * c / 512)); lia.
  - destruct Hw as [-> | ->]; [change 512 with (2 * 256)|change 512 with (4 * 128)]; rewrite Z.div_mul_cancel_l; done || lia.
Qed.

(** [get_fat] is the entry. *)
Lemma get_fat_spec v L c : vol_rep v L -> 2 <= c < n_fatent (fs v) ->
  returns (get_fat c) v (fun x v' => x = fat_entry (fs v) L c /\ vol_rep v' L /\ window_moved (fs v) (fs v')).
Proof.
  intros R Hc. pose proof (proj1 R) as G. destruct (entry_in_fat (fs v) c G Hc) as (In12 & In16 & In32).
  unfold get_fat. eapply returns_step; [reflexivity|]. rewrite (proj2 (Z.ltb_ge c 2)), (proj2 (Z.leb_gt (n_fatent (fs v)) c)) by lia. cbn [orb].
  pose proof (g_end _ G) as Ge. pose proof (g_csize _ G) as Gz. pose proof (g_data _ G) as Gt. pose proof (g_fatbase _ G) as Gb.
  assert (Hc32 : c < 2 ^ 28) by (destruct (g_type _ G) as [(_ & ? & _)|[(_ & ? & _)|(_ & ? & _)]]; lia).
  unfold fat_entry, entry. destruct (g_type _ G) as [(T & _)|[(T & _)|(T & _)]]; rewrite T in *; clear T; cbn [Z.eqb Pos.eqb FS_FAT12 FS_FAT16 FS_FAT32] in *.
  - specialize (In12 eq_refl). assert (0 <= c / 2 <= c) by (pose proof (Z.div_mod c 2); pose proof (Z.mod_pos_bound c 2); lia).
    rewrite (wrapu_small 32 (c + c / 2)) by (unfold inu; lia).
    eapply returns_bind; [apply (fetch_fat v L (c + c / 2) R); lia|]. intros r v1 (-> & R1 & W1 & _ & _ & _ & _ & B1 & V1). cbn [Z.eqb negb].
    eapply returns_step; [reflexivity|]. rewrite (wrapu_small 32 (c + c / 2 + 1)) by (unfold inu; lia).
    assert (Ef : fatbase (fs v) = fatbase (fs v1)) by (symmetry; apply W1). assert (Es : fsize (fs v) = fsize (fs v1)) by (symmetry; apply W1).
    rewrite Ef. eapply returns_bind; [apply (fetch_fat v1 L (c + c / 2 + 1) R1); lia|]. intros r v2 (-> & R2 & W2 & _ & _ & _ & _ & B2 & V2). cbn [Z.eqb negb].
    eapply returns_step; [reflexivity|]. apply returns_ret. split; [|split; [exact R2|by eapply window_moved_trans]].
    rewrite V1, V2 by done. assert (Ew : fat_byte (fs v1) L (c + c / 2 + 1) = fat_byte (fs v) L (c + c / 2 + 1)) by (unfold fat_byte; by rewrite Ef).
    rewrite Ew. pose proof (fat_byte_range (fs v) L (c + c / 2) (proj1 (proj2 R))) as F1. pose proof (fat_byte_range (fs v) L (c + c / 2 + 1) (proj1 (proj2 R))) as F2.
    rewrite Z.lor_comm, lor_bytes by (unfold inu in *; lia). change (2 ^ 8) with 256. rewrite land_1_odd, negb_involutive. change 0xFFF with (Z.ones 12).
    rewrite Z.shiftr_div_pow2, Z.land_ones by lia. done.
  - specialize (In16 eq_refl). change (SS / 2) with (512 / 2). destruct (entry_offset 2 c 1) as (Q1 & M1 & _ & ->); [lia..|].
    change (2 * c / 512) with (2 * c / SS). eapply returns_bind; [apply (fetch_fat v L (2 * c) R); lia|].
    intros r v1 (-> & R1 & W1 & _ & _ & _ & _ & B1 & V1). cbn [Z.eqb negb]. apply returns_gets. split; [|by split].
    rewrite (wrapu_small 32 (c * 2)) by (unfold inu; lia). rewrite (Z.mul_comm c 2), LD_WORD_value by done.
    rewrite <- (V1 (2 * c)), <- (V1 (2 * c + 1)) by done. change SS with 512. by rewrite M1.
  - specialize (In32 eq_refl). change (SS / 4) with (512 / 4). destruct (entry_offset 4 c 1) as (Q1 & M1 & _ & ->); [lia..|].
    destruct (entry_offset 4 c 2) as (Q2 & M2 & _ & _); [lia..|]. destruct (entry_offset 4 c 3) as (Q3 & M3 & _ & _); [lia..|].
    change (4 * c / 512) with (4 * c / SS). eapply returns_bind; [apply (fetch_fat v L (4 * c) R); lia|].
    intros r v1 (-> & R1 & W1 & _ & _ & _ & _ & B1 & V1). cbn [Z.eqb negb]. apply returns_gets. split; [|by split].
    rewrite (wrapu_small 32 (c * 4)) by (unfold inu; lia). rewrite (Z.mul_comm c 4), LD_DWORD_value by done.
    change 0x0FFFFFFF with (Z.ones 28). rewrite Z.land_ones by lia.
    rewrite <- (V1 (4 * c)), <- (V1 (4 * c + 1)), <- (V1 (4 * c + 2)), <- (V1 (4 * c + 3)) by done. change SS with 512. by rewrite M1, M2, M3.
Qed.

(** The entry of [c] is [x], and the rest of the disk is as before. *)
Definition fat_changed (f : FATFS) (L L' : sectors) (c x : Z) : Prop :=
  fat_entry f L' c = x /\ (forall c', 0 <= c' -> c' <> c -> fat_entry f L' c' = fat_entry f L c') /\
  (forall s, ~ fatbase f <= s < fatbase f + fsize f -> L' !! s = L !! s).

(** A byte of the window is a byte of the table. *)
Lemma fat_edit f L k w i b j : length w = 512%nat -> L !! (fatbase f + k) = Some w -> 0 <= i < 512 -> 0 <= k -> 0 <= j ->
  fat_byte f (<[fatbase f + k := put_byte i b w]> L) j = set_byte (fat_byte f L) (512 * k + i) b j.
Proof.
  intros Lw Hw Hi Hk Hj. rewrite fat_byte_sector by done. unfold set_byte. pose proof (Z.mod_pos_bound j 512 ltac:(lia)). pose proof (Z.div_mod j 512 ltac:(lia)).
  destruct (Z.eqb_spec (j / 512) k) as [Ej|Ne].
  - rewrite byte_at_put by lia. destruct (Z.eqb_spec (j mod 512) i) as [Em|Nm].
    + by rewrite (proj2 (Z.eqb_eq _ _)) by lia.
    + rewrite (proj2 (Z.eqb_neq j _)) by lia. unfold fat_byte. by rewrite Ej, Hw.
  - rewrite (proj2 (Z.eqb_neq j _)); [done|]. intros E. apply Ne. rewrite E. symmetry. apply (Z.div_unique _ _ _ i); lia.
Qed.

(** Change of one byte of the table, through the window. *)
Lemma put_fat_byte v L p (g : list Z -> list Z) b : vol_rep v L -> 0 <= p < 512 * fsize (fs v) -> inu 8 b ->
  winsect (fs v) = fatbase (fs v) + p / 512 -> L !! winsect (fs v) = Some (win (fs v)) -> ~ in_copy (fs v) (winsect (fs v)) ->
  length (win (fs v)) = 512%nat -> Forall (inu 8) (win (fs v)) -> g (win (fs v)) = put_byte (p mod SS) b (win (fs v)) ->
  returns (edit_win g) v (fun _ v' => exists L', vol_rep v' L' /\ window_moved (fs v) (fs v') /\
    (forall j, 0 <= j -> fat_byte (fs v) L' j = set_byte (fat_byte (fs v) L) p b j) /\
    (forall s, ~ fatbase (fs v) <= s < fatbase (fs v) + fsize (fs v) -> L' !! s = L !! s)).
Proof.
  intros R Hp Hb Ew HL Nc Lw Bw Eg. assert (0 <= p / 512 < fsize (fs v)) by (split; [apply Z.div_pos; lia|apply Z.div_lt_upper_bound; lia]).
  eapply returns_mono; [apply (edit_win_spec v L g R HL Nc); rewrite Eg; [by rewrite put_byte_length|by apply put_byte_bytes]|].
  cbv beta. intros _ v' (R' & W & _). exists (<[winsect (fs v) := g (win (fs v))]> L). split; [exact R'|]. split; [exact W|]. split.
  - intros j Hj. rewrite Eg, Ew. rewrite fat_edit; [|done|by rewrite <- Ew|apply Z.mod_pos_bound; lia|lia|done].
    change SS with 512. by rewrite <- Z.div_mod by lia.
  - intros s Hs. apply lookup_insert_ne. lia.
Qed.

(** The nibbles of the code. *)
Lemma low_nibble x val : 0 <= x -> u8 ((x &&& 0x0F) ||| (u8 val <<< 4)) = x mod 16 + 16 * (val mod 16).
Proof.
  intros Hx. change 0x0F with (Z.ones 4). rewrite Z.land_ones by lia. pose proof (Z.mod_pos_bound x (2 ^ 4) ltac:(lia)).
  pose proof (wrapu_range 8 val ltac:(lia)) as Hu. rewrite lor_disjoint_add by (unfold inu in *; lia). unfold wrapu. change (2 ^ 8) with (16 * 16). change (2 ^ 4) with 16 in *.
  rewrite !Z.rem_mul_r, Z.mod_add, Z.div_add, Z.mod_mod, (Z.div_small (x mod 16)), Z.add_0_l by lia.
  rewrite (Z.mul_comm 16 (val / 16 mod 16)), Z.mod_add, Z.mod_mod by lia. done.
Qed.

Lemma high_nibble x val : inu 8 x -> 0 <= val -> u8 ((x &&& 0xF0) ||| (u8 (val >>> 8) &&& 0x0F)) = x / 16 * 16 + val / 256 mod 16.
Proof.
  intros Hx Hv. assert (E : (x &&& 0xF0) = (x >>> 4) <<< 4).
  { apply Z.bits_inj'. intros i Hi. change 0xF0 with (Z.ones 4 <<< 4). rewrite Z.land_spec, !Z.shiftl_spec by lia.
    destruct (Z.lt_ge_cases i 4); [by rewrite !(Z.testbit_neg_r _ (i - 4)), andb_false_r by lia|].
    rewrite testbit_ones, Z.shiftr_spec by lia. replace (i - 4 + 4) with i by lia. destruct (Z.ltb_spec (i - 4) 4); [by rewrite andb_true_r|].
    by rewrite (testbit_inu 8 x i) by (done || lia). }
  rewrite E, Z.lor_comm. change 0x0F with (Z.ones 4). rewrite Z.land_ones, !Z.shiftr_div_pow2 by lia. unfold inu in Hx.
  pose proof (Z.mod_pos_bound (u8 (val / 2 ^ 8)) (2 ^ 4) ltac:(lia)). assert (0 <= x / 2 ^ 4 < 16) by (split; [apply Z.div_pos; lia|apply Z.div_lt_upper_bound; lia]).
  rewrite lor_disjoint_add by (unfold inu in *; lia). rewrite (wrapu_wrapu 4 8 (val / 2 ^ 8) ltac:(lia) : u8 (val / 2 ^ 8) mod 2 ^ 4 = _) in *. unfold wrapu in *.
  rewrite Z.mod_small by lia. change (2 ^ 8) with 256. change (2 ^ 4) with 16. lia.
Qed.

(** [put_fat] changes one entry, of each width. *)
Definition put_done (c val : Z) (f : FATFS) (L : sectors) (r : Z) (v' : state) : Prop :=
  r = FR_OK /\ exists L', vol_rep v' L' /\ window_moved f (fs v') /\ fat_changed f L L' c (val mod 2 ^ entry_bits (fs_type f)).

Lemma put_fat12 v L c val : vol_rep v L -> fs_type (fs v) = FS_FAT12 -> 2 <= c < n_fatent (fs v) -> 0 <= val < 2 ^ 28 ->
  returns (put_fat c val) v (put_done c val (fs v) L).
Proof.
  intros R T Hc Hv. pose proof (proj1 R) as G. destruct (entry_in_fat (fs v) c G Hc) as (In12 & _). specialize (In12 T).
  unfold put_fat. eapply returns_step; [reflexivity|]. rewrite (proj2 (Z.ltb_ge c 2)), (proj2 (Z.leb_gt (n_fatent (fs v)) c)) by lia. cbn [orb].
  assert (Hc32 : c < 2 ^ 28) by (destruct (g_type _ G) as [(_ & ? & _)|[(_ & ? & _)|(_ & ? & _)]]; lia).
  assert (Bt : forall i, inu 8 (fat_byte (fs v) L i)) by (intros; apply fat_byte_range, R).
  unfold put_done, fat_changed, fat_entry, entry_bits. rewrite T. change (FS_FAT12 =? FS_FAT12) with true. cbv iota.
  assert (0 <= c / 2 <= c) by (pose proof (Z.div_mod c 2); pose proof (Z.mod_pos_bound c 2); lia).
  rewrite (wrapu_small 32 (c + c / 2)) by (unfold inu; lia).
  destruct (entry12_put (fat_byte (fs v) L) c val) as [P1 P2]; [lia|done|lia|]. set (p := c + c / 2) in *. rewrite land_1_odd, negb_involutive.
  eapply returns_bind; [apply (fetch_fat v L p R); lia|]. intros r v1 (-> & R1 & W1 & Ws1 & HL1 & Nc1 & Lw1 & B1 & V1). cbn [Z.eqb negb].
  assert (Ef : fatbase (fs v1) = fatbase (fs v)) by apply W1. assert (Es : fsize (fs v1) = fsize (fs v)) by apply W1.
  eapply returns_bind.
  { apply (put_fat_byte v1 L p _ (fat12_low (Z.odd c) (fat_byte (fs v) L p) val)); try done; [lia| |by rewrite Ef|].
    - unfold fat12_low, inu. destruct (Z.odd c); [pose proof (Z.mod_pos_bound (fat_byte (fs v) L p) 16); pose proof (Z.mod_pos_bound val 16); lia|apply Z.mod_pos_bound; lia].
    - cbv beta zeta. f_equal. rewrite V1 by done. unfold fat12_low. destruct (Z.odd c); [|done].
      apply low_nibble, Bt. }
  intros [] v2 (L2 & R2 & W2 & F2 & O2). rewrite Ef in O2. rewrite Es in O2.
  assert (Ff : forall M j, fat_byte (fs v1) M j = fat_byte (fs v) M j) by (intros; unfold fat_byte; by rewrite Ef).
  rewrite (wrapu_small 32 (p + 1)) by (unfold inu; unfold p; lia).
  assert (Ef2 : fatbase (fs v2) = fatbase (fs v)) by (rewrite <- Ef; apply W2). assert (Es2 : fsize (fs v2) = fsize (fs v)) by (rewrite <- Es; apply W2).
  rewrite <- Ef2. eapply returns_bind; [apply (fetch_fat v2 L2 (p + 1) R2); lia|].
  intros r v3 (-> & R3 & W3 & Ws3 & HL3 & Nc3 & Lw3 & B3 & V3). cbn [Z.eqb negb].
  assert (Ef3 : fatbase (fs v3) = fatbase (fs v)) by (rewrite <- Ef2; apply W3). assert (Es3 : fsize (fs v3) = fsize (fs v)) by (rewrite <- Es2; apply W3).
  assert (F3 : fat_byte (fs v2) L2 (p + 1) = fat_byte (fs v) L (p + 1)).
  { transitivity (fat_byte (fs v1) L2 (p + 1)); [unfold fat_byte; by rewrite Ef2, Ef|]. rewrite F2 by lia. unfold set_byte. eval_eqb. apply Ff. }
  eapply returns_bind.
  { apply (put_fat_byte v3 L2 (p + 1) _ (fat12_high (Z.odd c) (fat_byte (fs v) L (p + 1)) val)); try done; [lia| |by rewrite Ef3, <- Ef2|].
    - unfold fat12_high, inu. pose proof (Bt (p + 1)) as Bp. unfold inu in Bp. destruct (Z.odd c); [apply Z.mod_pos_bound; lia|].
      pose proof (Z.mod_pos_bound (val / 256) 16). pose proof (Z.div_mod (fat_byte (fs v) L (p + 1)) 16). pose proof (Z.mod_pos_bound (fat_byte (fs v) L (p + 1)) 16). lia.
    - cbv beta zeta. f_equal. rewrite V3, F3 by done. unfold fat12_high. destruct (Z.odd c); [by rewrite Z.shiftr_div_pow2 by lia|].
      apply high_nibble; [apply Bt|lia]. }
  intros [] v4 (L4 & R4 & W4 & F4 & O4). apply returns_ret. split; [done|]. exists L4. split; [exact R4|].
  split; [do 3 (eapply window_moved_trans; [eassumption|]); exact W4|].
  assert (F : forall j, 0 <= j -> fat_byte (fs v) L4 j =
    set_byte (set_byte (fat_byte (fs v) L) p (fat12_low (Z.odd c) (fat_byte (fs v) L p) val)) (p + 1) (fat12_high (Z.odd c) (fat_byte (fs v) L (p + 1)) val) j).
  { intros j Hj. transitivity (fat_byte (fs v3) L4 j); [unfold fat_byte; by rewrite Ef3|]. rewrite F4 by done. unfold set_byte at 1 2.
    destruct (j =? p + 1); [done|]. transitivity (fat_byte (fs v1) L2 j); [unfold fat_byte; by rewrite Ef3, Ef|]. rewrite F2 by done. unfold set_byte. by rewrite Ff. }
  split_and!.
  + rewrite (entry_ext _ _ _ c F) by lia. exact P1.
  + intros c' Hc' Ne. rewrite (entry_ext _ _ _ c' F) by lia. by apply P2.
  + intros s Hs. rewrite Ef2 in Hs. rewrite O4 by (rewrite Ef3, Es3; exact Hs). by apply O2.
Qed.

(** A byte more, in a sector that is already replaced. *)
Lemma fat_edit_more f L k w i b j : length w = 512%nat -> 0 <= i < 512 -> 0 <= k -> 0 <= j ->
  fat_byte f (<[fatbase f + k := put_byte i b w]> L) j = set_byte (fat_byte f (<[fatbase f + k := w]> L)) (512 * k + i) b j.
Proof. intros. rewrite <- (fat_edit f (<[fatbase f + k := w]> L) k w i b j); try done; [by rewrite insert_insert_eq|by rewrite lookup_insert_eq]. Qed.

Lemma ST_WORD_bytes i x w : Forall (inu 8) w -> length (ST_WORD i x w) = length w /\ Forall (inu 8) (ST_WORD i x w).
Proof. intros B. unfold ST_WORD. rewrite !put_byte_length. split; [done|]. repeat (apply put_byte_bytes; [apply wrapu_range; lia|]). done. Qed.
Lemma ST_DWORD_bytes i x w : Forall (inu 8) w -> length (ST_DWORD i x w) = length w /\ Forall (inu 8) (ST_DWORD i x w).
Proof. intros B. unfold ST_DWORD. rewrite !put_byte_length. split; [done|]. repeat (apply put_byte_bytes; [apply wrapu_range; lia|]). done. Qed.

Lemma put_fat16 v L c val : vol_rep v L -> fs_type (fs v) = FS_FAT16 -> 2 <= c < n_fatent (fs v) -> 0 <= val < 2 ^ 28 ->
  returns (put_fat c val) v (put_done c val (fs v) L).
Proof.
  intros R T Hc Hv. pose proof (proj1 R) as G. destruct (entry_in_fat (fs v) c G Hc) as (_ & In16 & _). specialize (In16 T).
  unfold put_fat. eapply returns_step; [reflexivity|]. rewrite (proj2 (Z.ltb_ge c 2)), (proj2 (Z.leb_gt (n_fatent (fs v)) c)) by lia. cbn [orb].
  assert (Hc32 : c < 2 ^ 28) by (destruct (g_type _ G) as [(_ & ? & _)|[(_ & ? & _)|(_ & ? & _)]]; lia).
  unfold put_done, fat_changed, fat_entry, entry_bits. rewrite T. change (FS_FAT16 =? FS_FAT12) with false. change (FS_FAT16 =? FS_FAT16) with true. cbv iota.
  change (SS / 2) with (512 / 2). destruct (entry_offset 2 c 1) as (Q1 & M1 & Lm & ->); [lia..|]. change (2 * c / 512) with (2 * c / SS).
  rewrite (wrapu_small 32 (c * 2)), (Z.mul_comm c 2) by (unfold inu; lia).
  eapply returns_bind; [apply (fetch_fat v L (2 * c) R); lia|]. intros r v1 (-> & R1 & W1 & Ws & HL & Nc & Lw & B1 & V1). cbn [Z.eqb negb].
  destruct (ST_WORD_bytes ((2 * c) mod SS) (u16 val) (win (fs v1)) B1) as [Lg Bg].
  eapply returns_bind; [apply (edit_win_spec v1 L _ R1 HL Nc); [by rewrite Lg|exact Bg]|]. intros [] v2 (R2 & W2 & _).
  apply returns_ret. split; [done|]. eexists. split; [exact R2|]. split; [by eapply window_moved_trans|].
  rewrite Ws. assert (Hq : 0 <= 2 * c / 512) by (apply Z.div_pos; lia). pose proof (Z.mod_pos_bound (2 * c) 512 ltac:(lia)). rewrite Ws in HL.
  assert (F : forall j, 0 <= j -> fat_byte (fs v) (<[fatbase (fs v) + 2 * c / 512 := ST_WORD ((2 * c) mod SS) (u16 val) (win (fs v1))]> L) j =
    set_byte (set_byte (fat_byte (fs v) L) (2 * c) (val mod 256)) (2 * c + 1) (val / 256 mod 256) j).
  { intros j Hj. unfold ST_WORD. change SS with 512. rewrite fat_edit_more by (rewrite ?put_byte_length; lia). unfold set_byte at 1 2.
    rewrite (wrapu_wrapu 8 16), wrapu_idem, Z.shiftr_div_pow2 by lia.
    replace (512 * (2 * c / 512) + ((2 * c) mod 512 + 1)) with (2 * c + 1) by (pose proof (Z.div_mod (2 * c) 512); lia).
    destruct (j =? 2 * c + 1).
    - unfold wrapu. change (2 ^ 16) with (256 * 256). change (2 ^ 8) with 256.
      rewrite Z.rem_mul_r, (Z.mul_comm 256 (val / 256 mod 256)), Z.div_add, (Z.div_small (val mod 256)) by (try apply Z.mod_pos_bound; lia).
      rewrite Z.add_0_l, Z.mod_mod by lia. done.
    - rewrite fat_edit by (done || lia). rewrite <- Z.div_mod by lia. done. }
  destruct (entry16_put (fat_byte (fs v) L) c val) as [P1 P2]; [lia..|]. split_and!.
  - rewrite (entry_ext _ _ _ c F) by lia. exact P1.
  - intros c' Hc' Ne. rewrite (entry_ext _ _ _ c' F) by lia. by apply P2.
  - intros s Hs. apply lookup_insert_ne. assert (2 * c / 512 < fsize (fs v)) by (apply Z.div_lt_upper_bound; lia). lia.
Qed.

Lemma top_nibble x : inu 32 x -> (x &&& 0xF0000000) = (x / 2 ^ 28) <<< 28.
Proof.
  intros Hx. apply Z.bits_inj'. intros i Hi. change 0xF0000000 with (Z.ones 4 <<< 28). rewrite <- Z.shiftr_div_pow2 by lia. rewrite Z.land_spec, !Z.shiftl_spec by lia.
  destruct (Z.lt_ge_cases i 28); [by rewrite !(Z.testbit_neg_r _ (i - 28)), andb_false_r by lia|].
  rewrite testbit_ones, Z.shiftr_spec by lia. replace (i - 28 + 28) with i by lia. destruct (Z.ltb_spec (i - 28) 4); [by rewrite andb_true_r|].
  by rewrite (testbit_inu 32 x i) by (done || lia).
Qed.

Lemma LD_DWORD_range w i : Forall (inu 8) w -> inu 32 (LD_DWORD w i).
Proof.
  intros B. rewrite LD_DWORD_value by done. pose proof (byte_at_range w i B). pose proof (byte_at_range w (i + 1) B).
  pose proof (byte_at_range w (i + 2) B). pose proof (byte_at_range w (i + 3) B). unfold inu in *. lia.
Qed.

(** The bytes [ST_DWORD] stores. *)
Lemma fat_dword f L k w i x j : length w = 512%nat -> L !! (fatbase f + k) = Some w -> 0 <= i -> i + 4 <= 512 -> 0 <= k -> 0 <= j -> inu 32 x ->
  fat_byte f (<[fatbase f + k := ST_DWORD i x w]> L) j =
  set_byte (set_byte (set_byte (set_byte (fat_byte f L) (512 * k + i) (x mod 256)) (512 * k + i + 1) (x / 256 mod 256)) (512 * k + i + 2) (x / 65536 mod 256))
    (512 * k + i + 3) (x / 16777216 mod 256) j.
Proof.
  intros Lw HL Hi Hi4 Hk Hj Hx. unfold ST_DWORD. rewrite (wrapu_small 32 x Hx), !Z.shiftr_div_pow2 by lia.
  assert (E8 : u8 (u16 x / 2 ^ 8) = x / 256 mod 256).
  { unfold wrapu. change (2 ^ 16) with (256 * 256). change (2 ^ 8) with 256. pose proof (Z.mod_pos_bound x 256).
    rewrite Z.rem_mul_r, (Z.mul_comm 256 (x / 256 mod 256)), Z.div_add, (Z.div_small (x mod 256)) by lia. rewrite Z.add_0_l, Z.mod_mod by lia. done. }
  rewrite E8. unfold set_byte.
  rewrite fat_edit_more by (rewrite ?put_byte_length; lia). unfold set_byte at 1. replace (512 * k + (i + 3)) with (512 * k + i + 3) by lia.
  destruct (j =? 512 * k + i + 3); [done|].
  rewrite fat_edit_more by (rewrite ?put_byte_length; lia). unfold set_byte at 1. replace (512 * k + (i + 2)) with (512 * k + i + 2) by lia.
  destruct (j =? 512 * k + i + 2); [done|].
  rewrite fat_edit_more by (rewrite ?put_byte_length; lia). unfold set_byte at 1. replace (512 * k + (i + 1)) with (512 * k + i + 1) by lia.
  destruct (j =? 512 * k + i + 1); [done|]. by rewrite fat_edit by (done || lia).
Qed.

Lemma put_fat32 v L c val : vol_rep v L -> fs_type (fs v) = FS_FAT32 -> 2 <= c < n_fatent (fs v) -> 0 <= val < 2 ^ 28 ->
  returns (put_fat c val) v (put_done c val (fs v) L).
Proof.
  intros R T Hc Hv. pose proof (proj1 R) as G. destruct (entry_in_fat (fs v) c G Hc) as (_ & _ & In32). specialize (In32 T).
  unfold put_fat. eapply returns_step; [reflexivity|]. rewrite (proj2 (Z.ltb_ge c 2)), (proj2 (Z.leb_gt (n_fatent (fs v)) c)) by lia. cbn [orb].
  assert (Hc32 : c < 2 ^ 28) by (destruct (g_type _ G) as [(_ & ? & _)|[(_ & ? & _)|(_ & ? & _)]]; lia).
  unfold put_done, fat_changed, fat_entry, entry_bits. rewrite T. change (FS_FAT32 =? FS_FAT12) with false. change (FS_FAT32 =? FS_FAT16) with false. change (FS_FAT32 =? FS_FAT32) with true. cbv iota.
  change (SS / 4) with (512 / 4). destruct (entry_offset 4 c 1) as (Q1 & M1 & Lm & ->); [lia..|]. change (4 * c / 512) with (4 * c / SS).
  rewrite (wrapu_small 32 (c * 4)), (Z.mul_comm c 4) by (unfold inu; lia).
  eapply returns_bind; [apply (fetch_fat v L (4 * c) R); lia|]. intros r v1 (-> & R1 & W1 & Ws & HL & Nc & Lw & B1 & V1). cbn [Z.eqb negb].
  set (i := (4 * c) mod SS) in *. set (old := LD_DWORD (win (fs v1)) i / 2 ^ 28).
  assert (Ho : 0 <= old < 16) by (pose proof (LD_DWORD_range (win (fs v1)) i B1) as O; unfold inu in O; split; [apply Z.div_pos; lia|apply Z.div_lt_upper_bound; lia]).
  assert (Ex : (val ||| (LD_DWORD (win (fs v1)) i &&& 0xF0000000)) = val + 2 ^ 28 * old).
  { rewrite top_nibble by (by apply LD_DWORD_range). fold old. rewrite lor_disjoint_add by (unfold inu; lia). lia. }
  destruct (ST_DWORD_bytes i (val + 2 ^ 28 * old) (win (fs v1)) B1) as [Lg Bg].
  eapply returns_bind; [apply (edit_win_spec v1 L _ R1 HL Nc); cbv beta zeta; rewrite Ex; [by rewrite Lg|exact Bg]|]. cbv beta zeta. rewrite Ex. intros [] v2 (R2 & W2 & _).
  apply returns_ret. split; [done|]. eexists. split; [exact R2|]. split; [by eapply window_moved_trans|].
  rewrite Ws in *. assert (Hq : 0 <= 4 * c / 512) by (apply Z.div_pos; lia). pose proof (Z.mod_pos_bound (4 * c) 512 ltac:(lia)). change SS with 512 in *.
  assert (Ei : 512 * (4 * c / 512) + i = 4 * c) by (pose proof (Z.div_mod (4 * c) 512 ltac:(lia)) as Dm; unfold i; lia).
  pose proof (fun j Hj => fat_dword (fs v) L (4 * c / 512) (win (fs v1)) i (val + 2 ^ 28 * old) j Lw HL ltac:(unfold i; lia) ltac:(unfold i; lia) Hq Hj ltac:(unfold inu; lia)) as F.
  destruct (entry32_put (fat_byte (fs v) L) c val old) as [P1 P2]; [lia..|]. split_and!.
  - rewrite (entry_ext _ _ _ c F) by lia. rewrite Ei. rewrite (Z.mod_small val) by lia. exact P1.
  - intros c' Hc' Ne. rewrite (entry_ext _ _ _ c' F) by lia. rewrite Ei. by apply P2.
  - intros s Hs. apply lookup_insert_ne. assert (4 * c / 512 < fsize (fs v)) by (apply Z.div_lt_upper_bound; lia). lia.
Qed.

Lemma put_fat_spec v L c val : vol_rep v L -> 2 <= c < n_fatent (fs v) -> 0 <= val < 2 ^ 28 ->
  returns (put_fat c val) v (put_done c val (fs v) L).
Proof.
  intros R Hc Hv. destruct (g_type _ (proj1 R)) as [(T & _)|[(T & _)|(T & _)]]; [by apply put_fat12|by apply put_fat16|by apply put_fat32].
Qed.

(** *** Chains *)

(** The clusters of a chain, each followed by its entry up to a mark of the end. *)
Fixpoint is_chain (ent : Z -> Z) (n : Z) (l : list Z) : Prop :=
  match l with
  | [] => False
  | c :: l' => 2 <= c < n /\ match l' with [] => n <= ent c | c' :: _ => ent c = c' /\ is_chain ent n l' end
  end.

Lemma is_chain_head ent n c l : is_chain ent n (c :: l) -> 2 <= c < n.
Proof. by destruct l; intros [? _]. Qed.

Lemma chain_unique ent n l1 : forall l2, is_chain ent n l1 -> is_chain ent n l2 -> head l1 = head l2 -> l1 = l2.
Proof.
  induction l1 as [|c l1 IH]; intros [|c2 l2] C1 C2 E; [done|done|done|]. cbn in E. injection E as <-.
  destruct l1 as [|c1 l1], l2 as [|c3 l2]; [done| | |].
  - destruct C1 as [_ C1], C2 as (_ & E & C2). apply is_chain_head in C2. lia.
  - destruct C2 as [_ C2], C1 as (_ & E & C1). apply is_chain_head in C1. lia.
  - destruct C1 as (_ & E1 & C1), C2 as (_ & E2 & C2). f_equal. apply IH; [done|done|]. cbn. congruence.
Qed.

Lemma chain_suffix ent n l1 c l2 : is_chain ent n (l1 ++ c :: l2) -> is_chain ent n (c :: l2).
Proof.
  induction l1 as [|c1 l1 IH]; intros C; [done|]. apply IH. cbn [app is_chain] in C. destruct C as [_ C].
  destruct (l1 ++ c :: l2) as [|x l] eqn:E; [by destruct l1|]. apply C.
Qed.

Lemma chain_NoDup ent n l : is_chain ent n l -> NoDup l.
Proof.
  induction l as [|c l IH]; intros C; [constructor|]. constructor.
  - intros Hin. apply list_elem_of_split in Hin as (l1 & l2 & ->).
    assert (E : c :: l1 ++ c :: l2 = c :: l2) by (eapply chain_unique; [exact C|by apply (chain_suffix ent n (c :: l1))|done]).
    apply (f_equal length) in E. cbn in E. rewrite length_app in E. cbn in E. lia.
  - destruct l as [|c' l]; [constructor|]. apply IH, C.
Qed.

Lemma chain_ext ent ent' n l : (forall c, c ∈ l -> ent' c = ent c) -> is_chain ent n l -> is_chain ent' n l.
Proof.
  induction l as [|c l IH]; intros E C; [done|]. destruct C as [Hc C]. split; [exact Hc|]. destruct l as [|c' l].
  - rewrite E; [done|]. apply list_elem_of_here.
  - destruct C as [Ec C]. split; [rewrite E; [done|apply list_elem_of_here]|]. apply IH; [|done]. intros x Hx. apply E. by apply list_elem_of_further.
Qed.

Lemma entry_range ty bs c : (forall i, inu 8 (bs i)) -> ty = FS_FAT12 \/ ty = FS_FAT16 \/ ty = FS_FAT32 -> 0 <= entry ty bs c < 2 ^ 28.
Proof.
  intros B Ht. unfold entry. pose proof (B (c + c / 2)). pose proof (B (c + c / 2 + 1)). pose proof (B (2 * c)). pose proof (B (2 * c + 1)). unfold inu in *.
  destruct Ht as [-> | [-> | ->]]; cbn [Z.eqb Pos.eqb FS_FAT12 FS_FAT16 FS_FAT32]; [|lia|apply Z.mod_pos_bound; lia].
  destruct (Z.odd c); [split; [apply Z.div_pos; lia|apply Z.div_lt_upper_bound; lia]|]. pose proof (Z.mod_pos_bound (bs (c + c / 2) + 256 * bs (c + c / 2 + 1)) 4096). lia.
Qed.

Lemma fat_entry_range v L c : vol_rep v L -> 0 <= fat_entry (fs v) L c < 2 ^ 28.
Proof.
  intros (G & Ok & _). apply entry_range; [intros; by apply fat_byte_range|]. destruct (g_type _ G) as [(T & _)|[(T & _)|(T & _)]]; rewrite T; [by left|by right; left|by right; right].
Qed.

(** The mark of the end of a chain that [create_chain] writes is no cluster. *)
Lemma end_mark f : geom_ok f -> n_fatent f <= 0x0FFFFFFF mod 2 ^ entry_bits (fs_type f).
Proof. intros G. unfold entry_bits. destruct (g_type _ G) as [(-> & ? & _)|[(-> & ? & _)|(-> & ? & _)]]; [change (_ mod _) with 0xFFF|change (_ mod _) with 0xFFFF|change (_ mod _) with 0x0FFFFFFF]; lia. Qed.

(** The hints on free clusters are not part of the disk. *)
Lemma vol_rep_hints v L x y z : vol_rep v L -> vol_rep (set_fs (set_last_clust x (set_free_clust y (set_fsi_flag z (fs v)))) v) L.
Proof.
  intros (G & Ok & st & Hb & [Cw Cf Cd Ct Cm]). split; [by apply (geom_same (fs v))|]. split; [done|]. exists st. split; [done|].
  constructor; [exact Cw|exact Cf|exact Cd|exact Ct|exact Cm].
Qed.

(** The number of free clusters, where it is known. *)
Definition free_after (n k : Z) : Z := if n =? 0xFFFFFFFF then n else u32 (n + k).

Lemma count_free_spec v L k : vol_rep v L ->
  returns (count_free k) v (fun _ v' => vol_rep v' L /\ rest_same (fs v) (fs v') /\
    free_clust (fs v') = free_after (free_clust (fs v)) k /\ last_clust (fs v') = last_clust (fs v)).
Proof.
  intros R. unfold count_free, free_after. eapply returns_step; [reflexivity|]. destruct (free_clust (fs v) =? 0xFFFFFFFF); cbn [negb].
  - by apply returns_ret.
  - eapply returns_step; [reflexivity|]. apply returns_modify. split; [|done].
    pose proof (vol_rep_hints v L (last_clust (fs v)) (u32 (free_clust (fs v) + k)) (fsi_flag (fs v) ||| 1) R) as R'. by destruct v as [[]].
Qed.

(** The entries in use. *)
Definition clusters (n : Z) : list Z := seqZ 2 (n - 2).
Definition used (ent : Z -> Z) (n : Z) : nat := length (filter (fun c => ent c <> 0) (clusters n)).

Lemma filter_one_less (ent ent' : Z -> Z) c l : NoDup l -> c ∈ l -> ent c <> 0 -> ent' c = 0 -> (forall x, x ∈ l -> x <> c -> ent' x = ent x) ->
  length (filter (fun x => ent x <> 0) l) = S (length (filter (fun x => ent' x <> 0) l)).
Proof.
  intros Nd Hin Hc Hc' E. induction l as [|x l IH]; [by apply not_elem_of_nil in Hin|]. apply NoDup_cons in Nd as [Nx Nd].
  assert (Ex : forall l : list Z, (forall y, y ∈ l -> ent' y = ent y) -> filter (fun x => ent' x <> 0) l = filter (fun x => ent x <> 0) l).
  { clear. induction l as [|y l IH]; intros E; [done|]. rewrite !filter_cons, (E y), IH; [done| |apply list_elem_of_here].
    intros z Hz. apply E. by apply list_elem_of_further. }
  rewrite !filter_cons. apply elem_of_cons in Hin as [<-|Hin].
  - rewrite decide_True by done. rewrite decide_False by (intros N; by apply N). cbn [length]. f_equal. rewrite Ex; [done|].
    intros y Hy. apply E; [by apply list_elem_of_further|]. intros ->. done.
  - assert (Ne : x <> c) by (intros ->; done). rewrite (E x) by (done || apply list_elem_of_here).
    specialize (IH Nd Hin ltac:(intros y Hy; apply E; by apply list_elem_of_further)). destruct (decide (ent x <> 0)); cbn [length]; by rewrite IH.
Qed.

Lemma clusters_elem n c : c ∈ clusters n <-> 2 <= c < n.
Proof. unfold clusters. rewrite elem_of_seqZ. lia. Qed.

Lemma used_bound ent n : (used ent n <= Z.to_nat (n - 2))%nat.
Proof. unfold used, clusters. etransitivity; [apply length_filter|]. by rewrite length_seqZ. Qed.

(** Two disks that differ in the FAT at most. *)
Definition same_outside_fat (f : FATFS) (L L' : sectors) : Prop := forall s, ~ fatbase f <= s < fatbase f + fsize f -> L' !! s = L !! s.

Lemma fat_bounds_same f f' : rest_same f f' -> fatbase f' = fatbase f /\ fsize f' = fsize f /\ n_fatent f' = n_fatent f.
Proof. unfold rest_same. intros R. decompose [and] R. done. Qed.

Lemma put_zero v L c : vol_rep v L -> 2 <= c < n_fatent (fs v) ->
  returns (put_fat c 0) v (fun r v' => r = FR_OK /\ exists L', vol_rep v' L' /\ window_moved (fs v) (fs v') /\ fat_changed (fs v) L L' c 0).
Proof. intros R Hc. eapply returns_mono; [apply (put_fat_spec v L c 0 R Hc); lia|]. cbv beta. intros r v' (-> & L' & R' & W & F). rewrite Z.mod_0_l in F; [eauto 6|]. unfold entry_bits. repeat case_match; lia. Qed.

(** Removing ends whatever the table holds, also when it has a cycle. *)
Lemma remove_loop_total k : forall v L c, vol_rep v L -> 2 <= c -> (used (fat_entry (fs v) L) (n_fatent (fs v)) <= k)%nat ->
  returns (remove_loop (S k) c) v (fun r v' => (r = FR_OK \/ r = FR_INT_ERR) /\ exists L', vol_rep v' L' /\ rest_same (fs v) (fs v') /\ same_outside_fat (fs v) L L').
Proof.
  induction k as [|k IH]; intros v L c R Hc Hu; cbn [remove_loop]; (eapply returns_step; [reflexivity|]);
    (destruct (Z.ltb_spec c (n_fatent (fs v))) as [Lt|Ge]; [|apply returns_ret; split; [by left|]; exists L; by split_and!]);
    (eapply returns_bind; [apply (get_fat_spec v L c R); lia|]); intros x v1 (-> & R1 & W1);
    pose proof (fat_entry_range v L c R) as Hx;
    assert (Done : forall r, r = FR_OK \/ r = FR_INT_ERR -> returns (ret r) v1 (fun r v' => (r = FR_OK \/ r = FR_INT_ERR) /\ exists L', vol_rep v' L' /\ rest_same (fs v) (fs v') /\ same_outside_fat (fs v) L L'))
      by (intros r Hr; apply returns_ret; split; [exact Hr|]; exists L; split_and!; [exact R1|apply W1|done]);
    (destruct (Z.eqb_spec (fat_entry (fs v) L c) 0) as [E0|N0]; [apply Done; by left|]);
    (destruct (Z.eqb_spec (fat_entry (fs v) L c) 1) as [E1|N1]; [apply Done; by right|]).
  - exfalso. unfold used in Hu. assert (In : c ∈ filter (fun c => fat_entry (fs v) L c <> 0) (clusters (n_fatent (fs v)))).
    { apply list_elem_of_filter. split; [done|]. apply clusters_elem. lia. }
    destruct (filter _ _); [by apply not_elem_of_nil in In|]. cbn in Hu. lia.
  - rewrite (proj2 (Z.eqb_neq _ 0xFFFFFFFF)) by lia. destruct (fat_bounds_same _ _ (proj1 W1)) as (Eb & Es & En).
    eapply returns_bind; [apply (put_zero v1 L c R1); lia|]. intros r v2 (-> & L2 & R2 & W2 & Fc & Fo & Fs). cbn [Z.eqb negb].
    eapply returns_bind; [apply (count_free_spec v2 L2 1 R2)|]. intros [] v3 (R3 & W3 & _).
    pose proof (rest_same_trans _ _ _ (proj1 W1) (rest_same_trans _ _ _ (proj1 W2) W3)) as W13. destruct (fat_bounds_same _ _ W13) as (Eb3 & Es3 & En3).
    assert (Ent : forall x, fat_entry (fs v3) L2 x = fat_entry (fs v1) L2 x) by (intros; apply fat_entry_same; eapply rest_same_trans; [apply W2|exact W3]).
    eapply returns_mono.
    { apply (IH v3 L2 (fat_entry (fs v) L c) R3); [lia|]. rewrite En3.
      assert (Eu : used (fat_entry (fs v) L) (n_fatent (fs v)) = S (used (fat_entry (fs v3) L2) (n_fatent (fs v)))); [|lia].
      apply (filter_one_less _ _ c); [apply NoDup_seqZ|apply clusters_elem; lia|done|by rewrite Ent|].
      intros x Hx' Ne. apply clusters_elem in Hx'. rewrite Ent, Fo by lia. by apply fat_entry_same, W1. }
    cbv beta. intros r v4 (Hr & L4 & R4 & W4 & O4). split; [exact Hr|]. exists L4. split; [exact R4|]. split; [by eapply rest_same_trans|].
    intros s Hs. rewrite O4 by (by rewrite Eb3, Es3). apply Fs. by rewrite Eb, Es.
Qed.

Lemma chain_length ent n l : is_chain ent n l -> (length l <= Z.to_nat (n - 2))%nat.
Proof.
  intros C. rewrite <- (length_seqZ 2 (n - 2)). apply submseteq_length, NoDup_submseteq; [by eapply chain_NoDup|].
  intros x Hx. apply list_elem_of_split in Hx as (l1 & l2 & ->). apply chain_suffix, is_chain_head in C. by apply clusters_elem.
Qed.

(** The entries of [l] are free, the others as before. *)
Definition freed (f : FATFS) (L L' : sectors) (l : list Z) : Prop :=
  (forall c, c ∈ l -> fat_entry f L' c = 0) /\ (forall c, 0 <= c -> c ∉ l -> fat_entry f L' c = fat_entry f L c) /\ same_outside_fat f L L'.

Lemma remove_loop_chain l : forall k v L c, vol_rep v L -> is_chain (fat_entry (fs v) L) (n_fatent (fs v)) (c :: l) -> (S (length l) < k)%nat ->
  returns (remove_loop k c) v (fun r v' => r = FR_OK /\ exists L', vol_rep v' L' /\ rest_same (fs v) (fs v') /\ last_clust (fs v') = last_clust (fs v) /\
    freed (fs v) L L' (c :: l)).
Proof.
  induction l as [|c' l IH]; intros k v L c R C Hk; (destruct k as [|k]; [cbn in Hk; lia|]); cbn [remove_loop]; pose proof (is_chain_head _ _ _ _ C) as Hc;
    (eapply returns_step; [reflexivity|]); rewrite (proj2 (Z.ltb_lt c _)) by lia;
    (eapply returns_bind; [apply (get_fat_spec v L c R); lia|]); intros x v1 (-> & R1 & W1); pose proof (fat_entry_range v L c R) as Hx;
    destruct (fat_bounds_same _ _ (proj1 W1)) as (Eb & Es & En);
    (assert (N1 : 2 <= fat_entry (fs v) L c) by (destruct C as [_ C]; first [destruct C as [-> C]; apply is_chain_head in C; lia|lia]));
    rewrite !(fun y Hy => proj2 (Z.eqb_neq (fat_entry (fs v) L c) y) Hy) by lia;
    (eapply returns_bind; [apply (put_zero v1 L c R1); lia|]); intros r v2 (-> & L2 & R2 & W2 & Fc & Fo & Fs); cbn [Z.eqb negb];
    (eapply returns_bind; [apply (count_free_spec v2 L2 1 R2)|]); intros [] v3 (R3 & W3 & _ & Lc3);
    pose proof (rest_same_trans _ _ _ (proj1 W1) (rest_same_trans _ _ _ (proj1 W2) W3)) as W13; destruct (fat_bounds_same _ _ W13) as (Eb3 & Es3 & En3);
    assert (E1 : forall M x, fat_entry (fs v1) M x = fat_entry (fs v) M x) by (intros; apply fat_entry_same, W1);
    assert (E3 : forall M x, fat_entry (fs v3) M x = fat_entry (fs v) M x) by (intros; by apply fat_entry_same);
    assert (Lc : last_clust (fs v3) = last_clust (fs v)) by (rewrite Lc3; etransitivity; [apply W2|apply W1]);
    assert (O2 : same_outside_fat (fs v) L L2) by (intros s Hs; apply Fs; by rewrite Eb, Es).
  - destruct C as [_ C]. destruct k as [|k]; [cbn in Hk; lia|]. cbn [remove_loop]. eapply returns_step; [reflexivity|].
    rewrite (proj2 (Z.ltb_ge _ _)) by (rewrite En3; lia). apply returns_ret. split; [done|]. exists L2. split_and!; [exact R3|exact W13|exact Lc|].
    split_and!; [|intros x Hx' Ni; apply not_elem_of_cons in Ni as [Ne _]; rewrite <- !E1; by apply Fo|exact O2].
    intros x Hx'. apply list_elem_of_singleton in Hx' as ->. by rewrite <- E1.
  - destruct C as (_ & Ec & C). pose proof (chain_NoDup _ _ (c :: c' :: l) (conj Hc (conj Ec C))) as Nd. apply NoDup_cons in Nd as [Nc Nd]. rewrite Ec.
    eapply returns_mono.
    { apply (IH k v3 L2 c' R3); [|cbn in Hk; lia]. rewrite En3. apply (chain_ext (fat_entry (fs v) L)); [|exact C].
      intros x Hx'. rewrite E3, <- !E1. apply Fo; [|intros ->; done].
      apply list_elem_of_split in Hx' as (l1 & l2 & Eq). rewrite Eq in C. apply chain_suffix, is_chain_head in C. lia. }
    cbv beta. intros r v4 (-> & L4 & R4 & W4 & Lc4 & F0 & Fo4 & O4). split; [done|]. exists L4. split_and!; [exact R4|by eapply rest_same_trans|by rewrite Lc4|].
    assert (E4 : forall x, fat_entry (fs v) L4 x = fat_entry (fs v3) L4 x) by done || (intros; by rewrite E3).
    split_and!.
    + intros x Hx'. apply elem_of_cons in Hx' as [->|Hx']; [|rewrite <- E3; by apply F0]. rewrite <- E3, Fo4, E3 by (done || lia). by rewrite <- E1.
    + intros x Hx' Ni. apply not_elem_of_cons in Ni as [Ne Ni]. rewrite <- E3, Fo4, E3 by done. rewrite <- !E1. by apply Fo.
    + intros s Hs. rewrite O4 by (by rewrite Eb3, Es3). by apply O2.
Qed.

Lemma remove_chain_frees v L c l : vol_rep v L -> is_chain (fat_entry (fs v) L) (n_fatent (fs v)) (c :: l) ->
  returns (remove_chain c) v (fun r v' => r = FR_OK /\ exists L', vol_rep v' L' /\ rest_same (fs v) (fs v') /\ last_clust (fs v') = last_clust (fs v) /\
    freed (fs v) L L' (c :: l)).
Proof.
  intros R C. pose proof (is_chain_head _ _ _ _ C) as Hc. unfold remove_chain. eapply returns_step; [reflexivity|].
  rewrite (proj2 (Z.ltb_ge c 2)), (proj2 (Z.leb_gt (n_fatent (fs v)) c)) by lia. cbn [orb]. apply remove_loop_chain; [done|done|].
  pose proof (chain_length _ _ _ C) as Lc. cbn [length] in Lc. lia.
Qed.

(** What the search for a free cluster finds. *)
Definition search_result (ent : Z -> Z) (n : Z) (r : Z + Z) : Prop :=
  match r with
  | inr k => 2 <= k < n /\ ent k = 0
  | inl x => x = 0 /\ (forall k, 2 <= k < n -> ent k <> 0) \/ x = 1 /\ exists k, 2 <= k < n /\ ent k = 1
  end.

(** The clusters after [scl] up to [ncl], around the end, are in use; [d] bounds those left. *)
Definition searched (ent : Z -> Z) (n scl ncl d : Z) : Prop :=
  scl <= ncl < n /\ (forall k, scl < k <= ncl -> ent k <> 0) /\ n - 1 - ncl + scl <= d \/
  2 <= ncl < scl /\ (forall k, scl < k < n \/ 2 <= k <= ncl -> ent k <> 0) /\ scl - ncl <= d.

Lemma find_free_spec fuel : forall v L scl ncl, vol_rep v L -> 1 <= scl < n_fatent (fs v) ->
  searched (fat_entry (fs v) L) (n_fatent (fs v)) scl ncl (Z.of_nat fuel - 1) ->
  returns (find_free fuel scl ncl) v (fun r v' => vol_rep v' L /\ window_moved (fs v) (fs v') /\ search_result (fat_entry (fs v) L) (n_fatent (fs v)) r).
Proof.
  induction fuel as [|fuel IH]; intros v L scl ncl R Hs Sd.
  { exfalso. destruct Sd as [(? & _ & ?)|(? & _ & ?)]; lia. }
  cbn [find_free]. eapply returns_step; [reflexivity|]. set (n := n_fatent (fs v)) in *.
  assert (Hn : n <= 0x0FFFFFF7) by (destruct (g_type _ (proj1 R)) as [(_ & ? & _)|[(_ & ? & _)|(_ & ? & _)]]; unfold n; lia).
  rewrite (wrapu_small 32 (ncl + 1)) by (unfold inu; destruct Sd as [(? & _)|(? & _)]; lia).
  set (w := n <=? ncl + 1). set (ncl' := if w then 2 else ncl + 1).
  assert (Hw : w && (scl <? ncl') = true -> scl = 1 /\ n <= ncl + 1).
  { intros E. apply andb_true_iff in E as [Ew El]. unfold ncl' in El. rewrite Ew in El. apply Z.ltb_lt in El. apply Z.leb_le in Ew. lia. }
  destruct (w && (scl <? ncl')) eqn:Ew.
  { destruct (Hw eq_refl) as [-> Hle]. apply returns_ret. split_and!; [exact R|apply window_moved_refl|]. left. split; [done|]. intros k Hk.
    destruct Sd as [(? & Hb & _)|(? & _)]; [apply Hb; lia|lia]. }
  assert (Hr : 2 <= ncl' < n).
  { unfold ncl', w in *. destruct (Z.leb_spec n (ncl + 1)); cbn [andb] in Ew; [apply Z.ltb_ge in Ew; lia|]. destruct Sd as [(? & _)|(? & _)]; lia. }
  eapply returns_bind; [apply (get_fat_spec v L ncl' R Hr)|]. intros x v1 (-> & R1 & W1). pose proof (fat_entry_range v L ncl' R) as Hx.
  destruct (Z.eqb_spec (fat_entry (fs v) L ncl') 0) as [E0|N0]; [by apply returns_ret|].
  rewrite (proj2 (Z.eqb_neq _ 0xFFFFFFFF)) by lia. cbn [orb]. destruct (Z.eqb_spec (fat_entry (fs v) L ncl') 1) as [E1|N1].
  { apply returns_ret. split_and!; [exact R1|exact W1|]. right. eauto. }
  assert (Sd' : ncl' = scl \/ searched (fat_entry (fs v) L) n scl ncl' (Z.of_nat fuel - 1)).
  { unfold ncl', w in *. destruct (Z.leb_spec n (ncl + 1)) as [Hl|Hl]; cbn [andb] in Ew.
    - apply Z.ltb_ge in Ew. destruct (Z.eq_dec 2 scl) as [->|Ne]; [by left|]. right. right. split_and!; [lia|lia| |].
      + intros k [Hk|Hk]; [|by replace k with 2 by lia]. destruct Sd as [(? & Hb & _)|(? & Hb & _)]; [apply Hb; lia|apply Hb; by left].
      + destruct Sd as [(? & _ & ?)|(? & _ & ?)]; lia.
    - destruct Sd as [(? & Hb & ?)|(? & Hb & ?)].
      + right. left. split_and!; [lia|lia| |lia]. intros k Hk. destruct (Z.eq_dec k (ncl + 1)) as [->|]; [done|]. apply Hb. lia.
      + destruct (Z.eq_dec (ncl + 1) scl) as [|Ne]; [by left|]. right. right. split_and!; [lia|lia| |lia].
        intros k [Hk|Hk]; [apply Hb; by left|]. destruct (Z.eq_dec k (ncl + 1)) as [->|]; [done|]. apply Hb. right. lia. }
  destruct (Z.eqb_spec ncl' scl) as [Es|Ns].
  - apply returns_ret. split_and!; [exact R1|exact W1|]. left. split; [done|]. intros k Hk. subst scl. unfold ncl', w in *.
    destruct (Z.eq_dec k (if n <=? ncl + 1 then 2 else ncl + 1)) as [->|Nk]; [done|]. destruct (Z.leb_spec n (ncl + 1)).
    + destruct Sd as [(? & Hb & _)|(? & Hb & _)]; apply Hb; lia.
    + destruct Sd as [(? & Hb & _)|(? & Hb & _)]; [lia|]. apply Hb. lia.
  - destruct Sd' as [|Sd']; [done|]. assert (Ee : forall y, fat_entry (fs v1) L y = fat_entry (fs v) L y) by (intros; apply fat_entry_same, W1).
    assert (En : n_fatent (fs v1) = n) by apply (fat_bounds_same _ _ (proj1 W1)).
    eapply returns_mono.
    { apply (IH v1 L scl ncl' R1); [by rewrite En|]. rewrite En. destruct Sd' as [(? & Hb & ?)|(? & Hb & ?)]; [left|right]; (split_and!; [lia|lia| |lia]); intros k Hk; rewrite Ee; by apply Hb. }
    cbv beta. intros r v2 (R2 & W2 & Sr). split_and!; [exact R2|by eapply window_moved_trans|]. rewrite En in Sr. destruct r as [y|k]; cbn in Sr |- *.
    + destruct Sr as [(-> & Hb)|(-> & k & Hk & E)]; [left; split; [done|]; intros k Hk; rewrite <- Ee; by apply Hb|right; split; [done|]; exists k; by rewrite <- Ee].
    + by rewrite <- Ee.
Qed.

(** A cluster was taken: its entry marks the end, the entry of [clst] names it, and all other
    entries stay. *)
Definition taken (f : FATFS) (L L' : sectors) (clst k : Z) : Prop :=
  2 <= k < n_fatent f /\ fat_entry f L k = 0 /\ n_fatent f <= fat_entry f L' k /\ (clst <> 0 -> fat_entry f L' clst = k) /\
  (forall c, 0 <= c -> c <> k -> c <> clst -> fat_entry f L' c = fat_entry f L c) /\ same_outside_fat f L L'.

(** What [create_chain] returns: a cluster, 0 when there is none free, 1 when the search met
    an entry that cannot be. *)
Definition created (v : state) (L : sectors) (clst r : Z) (v' : state) : Prop :=
  rest_same (fs v) (fs v') /\
  ((exists L', vol_rep v' L' /\ taken (fs v) L L' clst r /\ last_clust (fs v') = r /\ free_clust (fs v') = free_after (free_clust (fs v)) (-1)) \/
   r = 0 /\ vol_rep v' L /\ (forall k, 2 <= k < n_fatent (fs v) -> fat_entry (fs v) L k <> 0) \/
   r = 1 /\ vol_rep v' L /\ exists k, 2 <= k < n_fatent (fs v) /\ fat_entry (fs v) L k = 1).

Lemma entry_fits f x : geom_ok f -> 0 <= x < n_fatent f -> x mod 2 ^ entry_bits (fs_type f) = x.
Proof.
  intros G Hx. apply Z.mod_small. unfold entry_bits. destruct (g_type _ G) as [(-> & ? & _)|[(-> & ? & _)|(-> & ? & _)]];
  [change (2 ^ _) with 4096|change (2 ^ _) with 65536|change (2 ^ _) with (2 ^ 28)]; lia.
Qed.

Lemma create_from_spec v L clst scl : vol_rep v L -> 1 <= scl < n_fatent (fs v) ->
  (clst <> 0 -> 2 <= clst < n_fatent (fs v) /\ fat_entry (fs v) L clst <> 0) ->
  returns (create_from clst scl) v (created v L clst).
Proof.
  intros R Hs Hcl. unfold create_from. eapply returns_step; [reflexivity|]. pose proof (proj1 R) as G.
  assert (Hn : n_fatent (fs v) <= 0x0FFFFFF7) by (destruct (g_type _ G) as [(_ & ? & _)|[(_ & ? & _)|(_ & ? & _)]]; lia).
  eapply returns_bind; [apply (find_free_spec _ v L scl scl R Hs); left; split_and!; [lia|lia|intros; lia|lia]|].
  intros [x|k] v1 (R1 & W1 & Sr); cbn [search_result] in Sr.
  { apply returns_ret. split; [apply W1|]. right. destruct Sr as [(-> & Hb)|(-> & Hb)]; [by left|by right]. }
  destruct Sr as [Hk E0]. destruct (fat_bounds_same _ _ (proj1 W1)) as (Eb & Es & En).
  assert (E1 : forall M x, fat_entry (fs v1) M x = fat_entry (fs v) M x) by (intros; apply fat_entry_same, W1).
  eapply returns_bind; [apply (put_fat_spec v1 L k 0x0FFFFFFF R1); lia|]. intros r v2 (-> & L2 & R2 & W2 & Fk & Fo & Fs).
  pose proof (rest_same_trans _ _ _ (proj1 W1) (proj1 W2)) as W12. destruct (fat_bounds_same _ _ W12) as (Eb2 & Es2 & En2).
  assert (E2 : forall M x, fat_entry (fs v2) M x = fat_entry (fs v) M x) by (intros; by apply fat_entry_same).
  pose proof (end_mark _ (proj1 R1)) as Em. rewrite <- Fk, En, E1 in Em.
  eapply returns_bind with (Q := fun r v' => r = FR_OK /\ rest_same (fs v) (fs v') /\ free_clust (fs v') = free_clust (fs v) /\
    exists L', vol_rep v' L' /\ taken (fs v) L L' clst k).
  { assert (F2 : free_clust (fs v2) = free_clust (fs v)) by (etransitivity; [apply W2|apply W1]).
    assert (O2 : same_outside_fat (fs v) L L2) by (intros s Hs'; apply Fs; by rewrite Eb, Es).
    assert (Ot : forall c, 0 <= c -> c <> k -> fat_entry (fs v) L2 c = fat_entry (fs v) L c) by (intros c Hc Ne; rewrite <- !E1; by apply Fo).
    change (FR_OK =? FR_OK) with true. cbn [andb]. destruct (Z.eqb_spec clst 0) as [->|Nz]; cbn [negb].
    - apply returns_ret. split_and!; [done|done|done|]. exists L2. split; [exact R2|]. split_and!; [lia|lia|done|exact Em|done|intros; by apply Ot|exact O2].
    - destruct (Hcl Nz) as [Hc Nc]. assert (Nk : clst <> k) by (intros ->; done).
      eapply returns_mono; [apply (put_fat_spec v2 L2 clst k R2); lia|]. cbv beta. intros r v3 (-> & L3 & R3 & W3 & Fc & Fo3 & Fs3).
      rewrite entry_fits in Fc; [|exact (proj1 R2)|lia]. split_and!; [done|eapply rest_same_trans; [exact W12|apply W3]|rewrite <- F2; apply W3|].
      exists L3. split; [exact R3|]. rewrite E2 in Fc.
      assert (O3 : forall c, 0 <= c -> c <> clst -> fat_entry (fs v) L3 c = fat_entry (fs v) L2 c) by (intros c Hc' Ne; rewrite <- !E2; by apply Fo3).
      split_and!; [lia|lia|done|by rewrite O3 by (done || lia)|done| |].
      + intros c Hc' Ne1 Ne2. by rewrite O3, Ot by done.
      + intros s Hs'. rewrite Fs3 by (by rewrite Eb2, Es2). by apply O2. }
  intros r v3 (-> & W3 & F3 & L3 & R3 & Tk). cbn [Z.eqb]. eapply returns_step; [reflexivity|].
  set (v4 := set_fs (set_last_clust k (fs v3)) v3).
  assert (R4 : vol_rep v4 L3) by (pose proof (vol_rep_hints v3 L3 k (free_clust (fs v3)) (fsi_flag (fs v3)) R3) as R4; by destruct v3 as [[]]).
  eapply returns_bind; [apply (count_free_spec v4 L3 (-1) R4)|]. intros [] v5 (R5 & W5 & F5 & L5). apply returns_ret.
  split; [by eapply rest_same_trans; [exact W3|]|]. left. exists L3. split_and!; [exact R5|exact Tk|by rewrite L5|by rewrite F5; cbn; rewrite F3].
Qed.

Lemma create_chain_new v L : vol_rep v L -> 3 <= n_fatent (fs v) -> 0 <= last_clust (fs v) -> returns (create_chain 0) v (created v L 0).
Proof.
  intros R Hn Hl. unfold create_chain. eapply returns_step; [reflexivity|]. cbn [Z.eqb]. apply create_from_spec; [done| |done].
  destruct (Z.eqb_spec (last_clust (fs v)) 0); cbn [orb]; [lia|]. destruct (Z.leb_spec (n_fatent (fs v)) (last_clust (fs v))); lia.
Qed.

(** A cluster with a successor: that one. *)
Lemma create_chain_follow v L c : vol_rep v L -> 2 <= c < n_fatent (fs v) -> 2 <= fat_entry (fs v) L c < n_fatent (fs v) ->
  returns (create_chain c) v (fun r v' => r = fat_entry (fs v) L c /\ vol_rep v' L /\ window_moved (fs v) (fs v')).
Proof.
  intros R Hc He. unfold create_chain. eapply returns_step; [reflexivity|]. rewrite (proj2 (Z.eqb_neq c 0)) by lia.
  assert (Hn : n_fatent (fs v) <= 0x0FFFFFF7) by (destruct (g_type _ (proj1 R)) as [(_ & ? & _)|[(_ & ? & _)|(_ & ? & _)]]; lia).
  eapply returns_bind; [apply (get_fat_spec v L c R Hc)|]. intros x v1 (-> & R1 & W1).
  rewrite (proj2 (Z.ltb_ge _ 2)), (proj2 (Z.eqb_neq _ 0xFFFFFFFF)), (proj2 (Z.ltb_lt _ _)) by lia. by apply returns_ret.
Qed.

(** The last cluster of a chain: the chain grows by a free one. *)
Lemma create_chain_stretch v L c : vol_rep v L -> 2 <= c < n_fatent (fs v) -> n_fatent (fs v) <= fat_entry (fs v) L c ->
  returns (create_chain c) v (created v L c).
Proof.
  intros R Hc He. unfold create_chain. eapply returns_step; [reflexivity|]. rewrite (proj2 (Z.eqb_neq c 0)) by lia.
  pose proof (fat_entry_range v L c R). eapply returns_bind; [apply (get_fat_spec v L c R Hc)|]. intros x v1 (-> & R1 & W1).
  rewrite (proj2 (Z.ltb_ge _ 2)), (proj2 (Z.eqb_neq _ 0xFFFFFFFF)), (proj2 (Z.ltb_ge _ (n_fatent _))) by lia.
  destruct (fat_bounds_same _ _ (proj1 W1)) as (Eb & Es & En).
  assert (E1 : forall M x, fat_entry (fs v1) M x = fat_entry (fs v) M x) by (intros; apply fat_entry_same, W1).
  eapply returns_mono; [apply (create_from_spec v1 L c c R1); [lia|intros _; rewrite E1; lia]|].
  intros r v2 (W2 & Cr). split; [eapply rest_same_trans; [apply W1|exact W2]|]. unfold taken, same_outside_fat in *. setoid_rewrite E1 in Cr. rewrite En, Eb, Es in Cr.
  destruct Cr as [(L' & R' & Tk & Ll & Lf)|Cr]; [left|by right]. exists L'. split_and!; [exact R'|apply Tk..|exact Ll|]. rewrite Lf. f_equal. apply W1.
Qed.

Lemma chain_grows f L L' l c k : 2 <= c < n_fatent f -> is_chain (fat_entry f L) (n_fatent f) (l ++ [c]) -> taken f L L' c k ->
  is_chain (fat_entry f L') (n_fatent f) (l ++ [c; k]).
Proof.
  intros Hc C (Hk & E0 & Ek & Ec & Eo & _). assert (Ec' : fat_entry f L' c = k) by (apply Ec; lia). clear Ec.
  assert (Nd : NoDup (l ++ [c])) by (by eapply chain_NoDup).
  assert (Nk : forall x, x ∈ l ++ [c] -> x <> k).
  { intros x Hx ->. apply list_elem_of_split in Hx as (l1 & l2 & Eq). rewrite Eq in C. apply chain_suffix in C. destruct C as [_ C].
    rewrite E0 in C. destruct l2 as [|c2 l2]; [lia|]. destruct C as [<- C]. apply is_chain_head in C. lia. }
  induction l as [|x l IH]; cbn [app] in *.
  - cbn. split_and!; [lia|lia|done|lia|lia|exact Ek].
  - destruct C as [Hx C]. apply NoDup_cons in Nd as [Nx Nd].
    assert (Ex : fat_entry f L' x = fat_entry f L x).
    { apply Eo; [lia|apply Nk, list_elem_of_here|]. intros ->. apply Nx. apply elem_of_app. right. apply list_elem_of_here. }
    split; [exact Hx|]. destruct l as [|y l]; cbn [app] in *.
    + destruct C as [E C]. rewrite Ex, E. split; [done|]. apply IH; [done|done|]. intros z Hz. apply Nk. by apply list_elem_of_further.
    + destruct C as [E C]. rewrite Ex, E. split; [done|]. apply IH; [done|done|]. intros z Hz. apply Nk. by apply list_elem_of_further.
Qed.

(** ** The theorems *)

(** The allocation table behaves as a table of numbers: after [put_fat] of a value,
    [get_fat] returns the value, cut to the width of the entries (12, 16 or 28 bits), for
    the entry written, and for every other entry what it returned before, also where two
    12-bit entries share a byte or an entry straddles two sectors. *)
Theorem fat_put_get v L c val c' : vol_rep v L -> 2 <= c < n_fatent (fs v) -> 2 <= c' < n_fatent (fs v) -> 0 <= val < 2 ^ 28 ->
  returns (let! old := get_fat c' in let! r := put_fat c val in let! new := get_fat c' in ret (old, r, new)) v (fun '(old, r, new) v' =>
    r = FR_OK /\ new = (if c' =? c then val mod 2 ^ entry_bits (fs_type (fs v)) else old) /\ exists L', vol_rep v' L' /\ same_outside_fat (fs v) L L').
Proof.
  intros R Hc Hc' Hv. eapply returns_bind; [apply (get_fat_spec v L c' R Hc')|]. intros old v1 (-> & R1 & W1).
  destruct (fat_bounds_same _ _ (proj1 W1)) as (Eb & Es & En). assert (Et : fs_type (fs v1) = fs_type (fs v)) by apply W1.
  assert (E1 : forall M x, fat_entry (fs v1) M x = fat_entry (fs v) M x) by (intros; apply fat_entry_same, W1).
  eapply returns_bind; [apply (put_fat_spec v1 L c val R1); lia|]. intros r v2 (-> & L2 & R2 & W2 & Fc & Fo & Fs).
  assert (E2 : forall M x, fat_entry (fs v2) M x = fat_entry (fs v1) M x) by (intros; apply fat_entry_same, W2).
  eapply returns_bind; [apply (get_fat_spec v2 L2 c' R2); rewrite (proj2 (proj2 (fat_bounds_same _ _ (proj1 W2)))); lia|]. intros new v3 (-> & R3 & W3).
  apply returns_ret. rewrite E2. split; [done|]. split; [|exists L2; split; [exact R3|intros s Hs; apply Fs; by rewrite Eb, Es]].
  destruct (Z.eqb_spec c' c) as [->|Ne]; [by rewrite Fc, Et|]. by rewrite Fo, E1 by (done || lia).
Qed.

(** C24. Removing a chain always ends, whatever the table holds, also when the entries form a
    cycle: [remove_chain] returns, and touches nothing outside the FAT. *)
Theorem remove_chain_terminates v L c : vol_rep v L ->
  returns (remove_chain c) v (fun r v' => (r = FR_OK \/ r = FR_INT_ERR) /\ exists L', vol_rep v' L' /\ same_outside_fat (fs v) L L').
Proof.
  intros R. unfold remove_chain. eapply returns_step; [reflexivity|]. destruct (Z.ltb_spec c 2); cbn [orb]; [apply returns_ret; split; [by right|]; by exists L|].
  destruct (n_fatent (fs v) <=? c); [apply returns_ret; split; [by right|]; by exists L|].
  eapply returns_mono; [apply (remove_loop_total _ v L c R); [lia|]|].
  - pose proof (used_bound (fat_entry (fs v) L) (n_fatent (fs v))). lia.
  - cbv beta. intros r v' (Hr & L' & R' & _ & O). split; [exact Hr|]. by exists L'.
Qed.

(** [remove_chain] frees exactly the clusters of the chain: their entries are 0, all
    others are as before, and nothing outside the FAT changes. *)
Theorem chain_removed v L c l : vol_rep v L -> is_chain (fat_entry (fs v) L) (n_fatent (fs v)) (c :: l) ->
  returns (remove_chain c) v (fun r v' => r = FR_OK /\ exists L', vol_rep v' L' /\ freed (fs v) L L' (c :: l)).
Proof. intros R C. eapply returns_mono; [by apply (remove_chain_frees v L c l)|]. cbv beta. intros r v' (-> & L' & R' & _ & _ & F). eauto. Qed.

(** C23. [create_chain] at the end of a chain takes a free cluster wherever there is one and
    appends it: the chain grows by one cluster that was free, no other entry changes, and
    the free count goes down by one.  It returns 0 only when no cluster is free, and 1 only
    when the table holds the impossible entry 1. *)
Theorem chain_extended v L l c : vol_rep v L -> is_chain (fat_entry (fs v) L) (n_fatent (fs v)) (l ++ [c]) ->
  returns (create_chain c) v (fun r v' =>
    (exists L', vol_rep v' L' /\ is_chain (fat_entry (fs v') L') (n_fatent (fs v')) (l ++ [c; r]) /\ taken (fs v) L L' c r /\
       free_clust (fs v') = free_after (free_clust (fs v)) (-1)) \/
    r = 0 /\ vol_rep v' L /\ (forall k, 2 <= k < n_fatent (fs v) -> fat_entry (fs v) L k <> 0) \/
    r = 1 /\ vol_rep v' L /\ exists k, 2 <= k < n_fatent (fs v) /\ fat_entry (fs v) L k = 1).
Proof.
  intros R C. pose proof (chain_suffix _ _ _ _ _ C) as [Hc He]. eapply returns_mono; [by apply (create_chain_stretch v L c R Hc)|].
  intros r v' (W & [(L' & R' & Tk & _ & Lf)|Cr]); [left|by right]. exists L'. split_and!; [exact R'| |apply Tk..|exact Lf].
  destruct (fat_bounds_same _ _ W) as (_ & _ & ->). apply (chain_ext (fat_entry (fs v) L')); [intros; by apply fat_entry_same|]. by eapply chain_grows.
Qed.

(** The sector [sync_fs] writes for FAT32. *)
Definition writes_fsinfo (f : FATFS) : bool := (fs_type f =? FS_FAT32) && (fsi_flag f =? 1).
Definition fsinfo_sector (f : FATFS) : list Z :=
  ST_DWORD FSI_Nxt_Free (last_clust f) (ST_DWORD FSI_Free_Count (free_clust f)
    (ST_DWORD FSI_StrucSig 0x61417272 (ST_DWORD FSI_LeadSig 0x41615252 (ST_WORD BS_55AA 0xAA55 (replicate 512 0))))).

Lemma fsinfo_bytes f : length (fsinfo_sector f) = 512%nat /\ Forall (inu 8) (fsinfo_sector f).
Proof.
  unfold fsinfo_sector. assert (B0 : Forall (inu 8) (replicate 512 0)) by (apply Forall_replicate; unfold inu; lia).
  destruct (ST_WORD_bytes BS_55AA 0xAA55 _ B0) as [L1 B1]. destruct (ST_DWORD_bytes FSI_LeadSig 0x41615252 _ B1) as [L2 B2].
  destruct (ST_DWORD_bytes FSI_StrucSig 0x61417272 _ B2) as [L3 B3]. destruct (ST_DWORD_bytes FSI_Free_Count (free_clust f) _ B3) as [L4 B4].
  destruct (ST_DWORD_bytes FSI_Nxt_Free (last_clust f) _ B4) as [L5 B5]. split; [|exact B5]. by rewrite L5, L4, L3, L2, L1, length_replicate.
Qed.

Lemma write_fsinfo_run v :
  write_fsinfo v =
  let f := set_winsect (u32 (volbase (fs v) + 1)) (set_win (fsinfo_sector (fs v)) (fs v)) in
  let (r, d) := blk_write (drv f) (win f) (winsect f) 1 (dsk v) in Ret tt (Volume (set_fsi_flag 0 f) d).
Proof.
  unfold write_fsinfo, bind, upd_fs, modify, get_fs, gets, disk_write_at. cbn -[ST_WORD ST_DWORD wrapu fsinfo_sector].
  change (ST_DWORD FSI_Nxt_Free _ _) with (fsinfo_sector (fs v)). by destruct (blk_write _ _ _ _ _).
Qed.

(** The information sector is in place. *)
Lemma write_fsinfo_spec v st L : geom_ok (fs v) -> wflag (fs v) = 0 -> blk_holds (dsk v) st -> (forall s, ~ in_copy (fs v) s -> L !! s = st !! s) ->
  (forall s, fatbase (fs v) <= s < fatbase (fs v) + n_fats (fs v) * fsize (fs v) -> is_Some (st !! s)) ->
  (n_fats (fs v) = 2 -> forall s, fatbase (fs v) <= s < fatbase (fs v) + fsize (fs v) -> st !! (s + fsize (fs v)) = st !! s) ->
  let s1 := volbase (fs v) + 1 in 0 <= volbase (fs v) -> s1 < fatbase (fs v) -> is_Some (L !! s1) ->
  returns write_fsinfo v (fun _ v' => rest_same (fs v) (fs v') /\ wflag (fs v') = 0 /\ winsect (fs v') = s1 /\ win (fs v') = fsinfo_sector (fs v) /\ 
    blk_holds (dsk v') (<[s1 := fsinfo_sector (fs v)]> st)).
Proof.
  intros G F0 Hb Ds Ct Cm s1 Hv Hf Hp. destruct (fsinfo_bytes (fs v)) as [Lf Bf].
  assert (Nc1 : ~ in_copy (fs v) s1) by (unfold in_copy; pose proof (g_fsize _ G); lia). rewrite Ds in Hp by done. pose proof (blk_limit _ _ _ Hb Hp) as Lim.
  destruct (write_one v st s1 (fsinfo_sector (fs v)) (g_drv _ G) Hb Hp Lf Bf) as (d2 & E2 & Hb2). unfold disk_write_at in E2.
  eapply returns_intro.
  { rewrite write_fsinfo_run. cbv zeta. cbn [drv win winsect set_winsect set_win]. rewrite (wrapu_small 32) by (unfold inu; unfold s1 in Lim; lia). fold s1.
    destruct (blk_write (drv (fs v)) (fsinfo_sector (fs v)) s1 1 (dsk v)) as [r d]. injection E2 as _ <-. reflexivity. }
  cbn [fs dsk]. done.
Qed.

(** [sync_fs]: the drive holds the disk. *)
Lemma sync_fs_spec v L : vol_rep v L ->
  (writes_fsinfo (fs v) = true -> 0 <= volbase (fs v) /\ volbase (fs v) + 1 < fatbase (fs v) /\ is_Some (L !! (volbase (fs v) + 1))) ->
  returns sync_fs v (fun r v' => r = FR_OK /\ rest_same (fs v) (fs v') /\ (winsect (fs v') = winsect (fs v) \/ writes_fsinfo (fs v) = true /\ winsect (fs v') = volbase (fs v) + 1) /\
    let L' := if writes_fsinfo (fs v) then <[volbase (fs v) + 1 := fsinfo_sector (fs v)]> L else L in
    vol_rep v' L' /\ exists st, blk_holds (dsk v') st /\ (forall s, ~ in_copy (fs v) s -> st !! s = L' !! s) /\
      (n_fats (fs v) = 2 -> forall s, fatbase (fs v) <= s < fatbase (fs v) + fsize (fs v) -> st !! (s + fsize (fs v)) = st !! s)).
Proof.
  intros R Hi. unfold sync_fs. eapply returns_bind; [by apply (sync_window_spec v L)|]. intros r v1 (-> & (G1 & Ok1 & st & Hb & Co) & E1). cbn [Z.eqb].
  pose proof Co as [Cw Cf Cd Ct Cm]. rewrite E1 in Cf, Cd, Ct, Cm. cbn in Cf, Ct, Cm. pose proof (proj1 R) as G.
  assert (Nd : forall s, ~ dirty_at (set_wflag 0 (fs v)) s) by (intros s [? _]; done).
  assert (Ds : forall s, ~ in_copy (fs v) s -> L !! s = st !! s) by (intros s Ns; rewrite Cd by done; by rewrite decide_False by apply Nd).
  assert (Cm' : n_fats (fs v) = 2 -> forall s, fatbase (fs v) <= s < fatbase (fs v) + fsize (fs v) -> st !! (s + fsize (fs v)) = st !! s) by (intros N2 s Hs; apply Cm; [done|done|apply Nd]).
  eapply returns_step; [reflexivity|]. rewrite E1. change (fs_type (set_wflag 0 (fs v))) with (fs_type (fs v)). change (fsi_flag (set_wflag 0 (fs v))) with (fsi_flag (fs v)).
  change (_ && _) with (writes_fsinfo (fs v)).
  set (L' := if writes_fsinfo (fs v) then <[volbase (fs v) + 1 := fsinfo_sector (fs v)]> L else L).
  eapply returns_bind with (Q := fun _ v' => (rest_same (fs v) (fs v') /\ (winsect (fs v') = winsect (fs v) \/ writes_fsinfo (fs v) = true /\ winsect (fs v') = volbase (fs v) + 1)) /\ vol_rep v' L' /\ exists st', blk_holds (dsk v') st' /\ (forall s, ~ in_copy (fs v) s -> st' !! s = L' !! s) /\
    (n_fats (fs v) = 2 -> forall s, fatbase (fs v) <= s < fatbase (fs v) + fsize (fs v) -> st' !! (s + fsize (fs v)) = st' !! s)).
  - unfold L'. destruct (writes_fsinfo (fs v)) eqn:Ei; [|apply returns_ret; split; [by rewrite E1; split; [done|left]|]; split; [split; [exact G1|split; [exact Ok1|by exists st]]|]; exists st; split_and!; [exact Hb|intros; symmetry; by apply Ds|exact Cm']].
    destruct (Hi eq_refl) as (Hv & Hf & Hp). destruct (fsinfo_bytes (fs v)) as [Lf Bf]. pose proof (g_fsize _ G) as Gs. pose proof (g_copies _ G) as Gc.
    eapply returns_mono; [apply (write_fsinfo_spec v1 st L G1); rewrite ?E1; done|]. rewrite E1. cbv beta zeta. set (s1 := volbase _ + 1).
    change (fsinfo_sector (set_wflag 0 (fs v))) with (fsinfo_sector (fs v)). intros _ v2 (W & F0 & Ew & Ewin & Hb2).
    assert (W2 : rest_same (fs v) (fs v2)) by exact W. clear W. assert (W2' := W2). destruct W2' as (_ & _ & _ & En & _ & _ & _ & _ & Es & _ & Eb & _).
    assert (Ins : forall s, ~ in_copy (fs v) s -> <[s1 := fsinfo_sector (fs v)]> st !! s = <[s1 := fsinfo_sector (fs v)]> L !! s).
    { intros s Ns. destruct (decide (s1 = s)) as [<-|Ne]; [by rewrite !lookup_insert_eq|]. rewrite !lookup_insert_ne by done. symmetry. by apply Ds. }
    assert (Mir : n_fats (fs v) = 2 -> forall s, fatbase (fs v) <= s < fatbase (fs v) + fsize (fs v) ->
      <[s1 := fsinfo_sector (fs v)]> st !! (s + fsize (fs v)) = <[s1 := fsinfo_sector (fs v)]> st !! s).
    { intros N2 s Hs. rewrite !lookup_insert_ne by (unfold s1; cbn; lia). by apply Cm'. }
    split; [split; [exact W2|right; by rewrite Ew]|]. split; [|exists (<[s1 := fsinfo_sector (fs v)]> st); by split_and!].
    split; [by apply (geom_same (fs v))|]. split; [by apply map_Forall_insert_2|]. exists (<[s1 := fsinfo_sector (fs v)]> st). split; [exact Hb2|]. constructor.
    + by rewrite Ewin.
    + left. split; [exact F0|]. right. rewrite Ew, Ewin. apply lookup_insert_eq.
    + intros s Ns. rewrite decide_False by (intros [? _]; congruence). symmetry. apply Ins. intros Hc. apply Ns. by apply (in_copy_same _ _ _ W2).
    + intros s Hs. rewrite En, Es, Eb in Hs. destruct (decide (s1 = s)) as [<-|Ne]; [by rewrite lookup_insert_eq|]. rewrite lookup_insert_ne by done. by apply Ct.
    + intros s N2 Hs _. rewrite Es, Eb in *. rewrite En in N2. by apply Mir.
  - intros [] v2 ((W2 & Ww) & (G2 & Ok2 & st2 & Hb2 & Co2) & st3 & Hb3 & D3 & M3). eapply returns_step; [reflexivity|]. rewrite (g_drv _ G2).
    destruct (blk_sync_ok (dsk v2) st2 Hb2) as (d & E & Hd). destruct (blk_sync_ok (dsk v2) st3 Hb3) as (d' & E' & Hd'). rewrite E in E'. injection E' as <-.
    rewrite E. eapply returns_step; [reflexivity|]. rewrite bool_decide_true by done. apply returns_ret. split; [done|]. split; [done|]. split; [done|]. split; [|by exists st3].
    split; [exact G2|]. split; [exact Ok2|]. by exists st2.
Qed.

(** C25. After [sync_fs] the drive holds the disk: every sector is on the drive as the layer
    saw it, the second FAT equals the first, and on FAT32 the information sector carries
    the current hints when they had changed. *)
Theorem fat_synced v L : vol_rep v L ->
  (writes_fsinfo (fs v) = true -> 0 <= volbase (fs v) /\ volbase (fs v) + 1 < fatbase (fs v) /\ is_Some (L !! (volbase (fs v) + 1))) ->
  returns sync_fs v (fun r v' => r = FR_OK /\
    let L' := if writes_fsinfo (fs v) then <[volbase (fs v) + 1 := fsinfo_sector (fs v)]> L else L in
    vol_rep v' L' /\ exists st, blk_holds (dsk v') st /\ (forall s, ~ in_copy (fs v) s -> st !! s = L' !! s) /\
      (n_fats (fs v) = 2 -> forall s, fatbase (fs v) <= s < fatbase (fs v) + fsize (fs v) -> st !! (s + fsize (fs v)) = st !! s)).
Proof.
  intros R Hi. eapply returns_mono; [by apply (sync_fs_spec v L)|]. cbv beta zeta. intros r v' (-> & _ & _ & Q). by split.
Qed.
End Table.

(** ** A drive in memory, and concrete runs *)
Fixpoint ram_sectors (st : sectors) (s : Z) (k : nat) : option (list Z) :=
  match k with
  | O => Some []
  | S k' => b ← st !! s; l ← ram_sectors st (s + 1) k'; Some (b ++ l)
  end.
Fixpoint chunks (k : nat) (data : list Z) : list (list Z) :=
  match k with O => [] | S k' => take 512 data :: chunks k' (drop 512 data) end.

#[export] Instance ram_disk : BlockDevice sectors := {
  blk_read drv s n st := match ram_sectors st s (Z.to_nat n) with Some l => (RES_OK, l, st) | None => (RES_ERROR, [], st) end;
  blk_write drv data s n st :=
    match ram_sectors st s (Z.to_nat n) with Some _ => (RES_OK, write_run st s (chunks (Z.to_nat n) data)) | None => (RES_ERROR, st) end;
  blk_sync drv st := (RES_OK, st);
  blk_status drv st := 0;
  blk_initialize drv st := (0, st);
}.

Definition small (st : sectors) : Prop := map_Forall (fun s _ => 0 <= s < 0xFFFFFFFF) st.

Lemma ram_sectors_run l : forall st s, sector_run st s l -> ram_sectors st s (length l) = Some (concat l).
Proof. induction l as [|b l IH]; intros st s R; [done|]. destruct R as [E R]. cbn. rewrite E. cbn. by rewrite (IH _ _ R). Qed.

Lemma present_sectors k : forall st s, present st s k -> is_Some (ram_sectors st s k).
Proof.
  induction k as [|k IH]; intros st s P; [by eexists|]. destruct (P s ltac:(lia)) as [b E]. destruct (IH st (s + 1)) as [l El]; [intros i Hi; apply P; lia|].
  cbn. rewrite E. cbn. rewrite El. by eexists.
Qed.

Lemma chunks_concat l : blocks_ok l -> chunks (length l) (concat l) = l.
Proof.
  induction 1 as [|b l [Lb _] B IH]; [done|]. cbn [length chunks concat]. by rewrite take_app_length', drop_app_length', IH by done.
Qed.

Lemma write_run_small l : forall st s, small st -> present st s (length l) -> small (write_run st s l).
Proof.
  induction l as [|b l IH]; intros st s Sm P; [done|]. cbn [write_run length] in *. destruct (P s ltac:(lia)) as [x E]. apply IH.
  - apply map_Forall_insert_2; [exact (Sm s x E)|done].
  - intros i Hi. rewrite lookup_insert_ne by lia. apply P. lia.
Qed.

#[export] Program Instance ram_laws : BlockLaws sectors := { blk_holds d st := d = st /\ sectors_ok st /\ small st }.
Next Obligation. by intros d st (_ & Ok & _). Qed.
Next Obligation. intros d st s (_ & _ & Sm) [b E]. exact (Sm s b E). Qed.
Next Obligation. intros d st s l (-> & Hd) Nl R. exists st. cbn [blk_read ram_disk]. by rewrite Nat2Z.id, (ram_sectors_run l st s R). Qed.
Next Obligation.
  intros d st s l (-> & Ok & Sm) Nl B P. exists (write_run st s l). cbn [blk_write ram_disk]. destruct (present_sectors _ _ _ P) as [x E].
  rewrite Nat2Z.id, E, chunks_concat by done. split; [done|]. split_and!; [done|by apply write_run_ok|by apply write_run_small].
Qed.
Next Obligation. intros d st Hd. by exists d. Qed.
Next Obligation. done. Qed.

(** A small FAT12 volume: one chain of three clusters, one of one, two free clusters. *)
Definition demo_fat : list Z := [0xF8; 0xFF; 0xFF; 0x03; 0x40; 0x00; 0xFF; 0xFF; 0xFF; 0; 0; 0] ++ replicate 500 0.
Definition demo_vol_sectors : sectors :=
  list_to_map ((1, demo_fat) :: (2, demo_fat) :: map (fun s => (s, replicate 512 s)) [0; 3; 4; 5; 6; 7; 8; 9]).
Definition demo_fatfs : FATFS :=
  Fatfs FS_FAT12 0 1 2 0 0x80 1 16 0xFFFFFFFF 2 0 8 1 0 1 3 4 0xFFFFFFFF (replicate 512 0).
Definition demo_volume : volume sectors := Volume demo_fatfs demo_vol_sectors.

Lemma demo_vol_rep : vol_rep demo_volume demo_vol_sectors.
Proof.
  assert (Ok : sectors_ok demo_vol_sectors) by (unfold sectors_ok; vm_decide). assert (Sm : small demo_vol_sectors) by (unfold small; vm_decide).
  split; [|split; [exact Ok|]].
  - constructor; cbn; [done|by right|lia..|left; split; [done|lia]].
  - exists demo_vol_sectors. split; [done|]. constructor.
    + split; [done|]. apply Forall_replicate. unfold inu. lia.
    + left. split; [done|by left].
    + intros s Ns. by rewrite decide_False by (intros [? _]; done).
    + intros s Hs. cbn in Hs. assert (s = 1 \/ s = 2) as [-> | ->] by lia; vm_compute; eauto.
    + intros s _ Hs _. cbn in Hs. replace s with 1 by lia. vm_compute. reflexivity.
Qed.

Lemma demo_chain : is_chain (fat_entry demo_fatfs demo_vol_sectors) 8 [2; 3; 4].
Proof. vm_compute. intuition (done || lia). Qed.

Lemma fat_put_get_witness : exists v L, vol_rep v L /\
  returns (let! old := get_fat 3 in let! r := put_fat 4 6 in let! new := get_fat 3 in ret (old, r, new)) v (fun '(old, r, new) v' => r = FR_OK /\ new = old).
Proof.
  exists demo_volume, demo_vol_sectors. split; [exact demo_vol_rep|].
  eapply returns_mono; [apply (fat_put_get demo_volume demo_vol_sectors 4 6 3 demo_vol_rep); cbn; lia|]. intros [[old r] new] v' (-> & E & _). done.
Defined.

Lemma remove_chain_terminates_witness : exists v L, vol_rep v L /\ returns (remove_chain 2) v (fun r _ => r = FR_OK \/ r = FR_INT_ERR).
Proof.
  exists demo_volume, demo_vol_sectors. split; [exact demo_vol_rep|].
  eapply returns_mono; [apply (remove_chain_terminates demo_volume demo_vol_sectors 2 demo_vol_rep)|]. intros r v' [Hr _]. exact Hr.
Defined.

Lemma chain_removed_witness : exists v L, vol_rep v L /\
  returns (remove_chain 2) v (fun r v' => r = FR_OK /\ exists L', vol_rep v' L' /\ fat_entry (fs v) L' 3 = 0 /\ fat_entry (fs v) L' 5 = 0xFFF).
Proof.
  exists demo_volume, demo_vol_sectors. split; [exact demo_vol_rep|].
  eapply returns_mono; [apply (chain_removed demo_volume demo_vol_sectors 2 [3; 4] demo_vol_rep); exact demo_chain|].
  intros r v' (-> & L' & R' & F0 & Fo & _). split; [done|]. exists L'. split; [exact R'|]. split; [apply F0; set_solver|].
  rewrite Fo; [vm_compute; reflexivity|lia|]. rewrite !not_elem_of_cons. split_and!; [lia..|apply not_elem_of_nil].
Defined.

Lemma chain_extended_witness : exists v L, vol_rep v L /\
  returns (create_chain 4) v (fun r v' => exists L', vol_rep v' L' /\ is_chain (fat_entry (fs v') L') (n_fatent (fs v')) [2; 3; 4; r]).
Proof.
  exists demo_volume, demo_vol_sectors. split; [exact demo_vol_rep|].
  eapply returns_mono; [apply (chain_extended demo_volume demo_vol_sectors [2; 3] 4 demo_vol_rep); exact demo_chain|].
  intros r v' [(L' & R' & C & _)|[(_ & _ & N)|(_ & _ & k & Hk & E)]]; [by exists L'| |].
  - exfalso. apply (N 6); [cbn; lia|]. vm_compute. reflexivity.
  - exfalso. cbn [fs demo_volume demo_fatfs n_fatent] in Hk. assert (k = 2 \/ k = 3 \/ k = 4 \/ k = 5 \/ k = 6 \/ k = 7) as Hc by lia.
    decompose [or] Hc; subst k; vm_compute in E; done.
Defined.

Lemma fat_synced_witness : exists v L, vol_rep v L /\
  returns (put_fat 6 7 ;; sync_fs) v (fun r v' => r = FR_OK /\ exists st, blk_holds (dsk v') st /\ st !! 2 = st !! 1).
Proof.
  exists demo_volume, demo_vol_sectors. split; [exact demo_vol_rep|].
  eapply returns_bind; [apply (put_fat_spec demo_volume demo_vol_sectors 6 7 demo_vol_rep); cbn; lia|]. intros r v1 (-> & L1 & R1 & W1 & _).
  assert (Nf : writes_fsinfo (fs v1) = false) by (unfold writes_fsinfo; by rewrite (proj1 (proj1 W1))).
  eapply returns_mono; [apply (fat_synced v1 L1 R1); by rewrite Nf|]. cbv beta zeta. rewrite Nf. intros r v' (-> & _ & st & Hb & _ & Mi). split; [done|].
  exists st. split; [exact Hb|]. destruct (fat_bounds_same _ _ (proj1 W1)) as (Eb & Es & _). rewrite Eb, Es in Mi. apply (Mi ltac:(apply W1) 1). cbn. lia.
Defined.
