(* ===== verification/FatFile.v ===== *)
(** * File objects of FatFs ([driver/ff.c])

    [f_read], [f_write], [f_lseek], [f_truncate], [f_sync] and [f_close] on a file object
    ([FIL]) over the allocation table of [Fat].

    A file object keeps one sector of the file in a private buffer ([FIL.buf]); whole
    sectors go past it, and past the window of the volume, directly between the drive and
    the caller's buffer.  The theorems say that in spite of this an open file is an array
    of bytes with a position ([file_rep], [contents]): reads return the bytes, writes
    replace or append them, seeking moves the position, and other files and free space
    change only by the clusters the file takes. *)

From Stdlib Require Import ZArith Lia Bool List String.
From stdpp Require Import base gmap list.
From S2P Require Import Prelude Machine Memory Disk SdCard Fat.
Open Scope Z_scope.
Open Scope word_scope.

(** ** Constants ([driver/ff.h], [driver/ff.c]) *)
Definition FR_DENIED : Z := 7.
Definition FR_INVALID_OBJECT : Z := 9.
Definition FA_READ : Z := 0x01.
Definition FA_WRITE : Z := 0x02.
Definition FA__WRITTEN : Z := 0x20.
Definition FA__DIRTY : Z := 0x40.
Definition AM_ARC : Z := 0x20.
Definition DIR_Attr : Z := 11.
Definition DIR_LstAccDate : Z := 18.
Definition DIR_FstClusHI : Z := 20.
Definition DIR_WrtTime : Z := 22.
Definition DIR_FstClusLO : Z := 26.
Definition DIR_FileSize : Z := 28.
Definition _NORTC_MON : Z := 1.
Definition _NORTC_MDAY : Z := 1.
Definition _NORTC_YEAR : Z := 2015.
Definition GET_FATTIME : Z := ((_NORTC_YEAR - 1980) <<< 25) ||| (_NORTC_MON <<< 21) ||| (_NORTC_MDAY <<< 16).

(** ** State *)

(** [FIL]: [fil_fs] says that the pointer to the volume is not null, [dir_ptr] is the offset
    of the directory entry in the window. *)
Record FIL := Fil {
  fil_fs : bool; fil_id : Z; flag : Z; err : Z; fptr : Z; fil_size : Z; sclust : Z; clust : Z; dsect : Z;
  dir_sect : Z; dir_ptr : Z; buf : list Z;
}.
Definition set_fil_fs x p := Fil x (fil_id p) (flag p) (err p) (fptr p) (fil_size p) (sclust p) (clust p) (dsect p) (dir_sect p) (dir_ptr p) (buf p).
Definition set_flag x p := Fil (fil_fs p) (fil_id p) x (err p) (fptr p) (fil_size p) (sclust p) (clust p) (dsect p) (dir_sect p) (dir_ptr p) (buf p).
Definition set_err x p := Fil (fil_fs p) (fil_id p) (flag p) x (fptr p) (fil_size p) (sclust p) (clust p) (dsect p) (dir_sect p) (dir_ptr p) (buf p).
Definition set_fptr x p := Fil (fil_fs p) (fil_id p) (flag p) (err p) x (fil_size p) (sclust p) (clust p) (dsect p) (dir_sect p) (dir_ptr p) (buf p).
Definition set_fil_size x p := Fil (fil_fs p) (fil_id p) (flag p) (err p) (fptr p) x (sclust p) (clust p) (dsect p) (dir_sect p) (dir_ptr p) (buf p).
Definition set_sclust x p := Fil (fil_fs p) (fil_id p) (flag p) (err p) (fptr p) (fil_size p) x (clust p) (dsect p) (dir_sect p) (dir_ptr p) (buf p).
Definition set_clust x p := Fil (fil_fs p) (fil_id p) (flag p) (err p) (fptr p) (fil_size p) (sclust p) x (dsect p) (dir_sect p) (dir_ptr p) (buf p).
Definition set_dsect x p := Fil (fil_fs p) (fil_id p) (flag p) (err p) (fptr p) (fil_size p) (sclust p) (clust p) x (dir_sect p) (dir_ptr p) (buf p).
Definition set_buf x p := Fil (fil_fs p) (fil_id p) (flag p) (err p) (fptr p) (fil_size p) (sclust p) (clust p) (dsect p) (dir_sect p) (dir_ptr p) x.

(** A call: the volume, the file object, the caller's buffer and the counter the caller gets
    ([*br], [*bw]). *)
Record io (D : Type) := Io { vol : volume D; fil : FIL; rbuff : list Z; count : Z }.
Arguments Io {D}. Arguments vol {D}. Arguments fil {D}. Arguments rbuff {D}. Arguments count {D}.

(** [mem_cpy] of [b] to offset [i]. *)
Definition copy_to (i : Z) (b l : list Z) : list Z := take (Z.to_nat i) l ++ b ++ drop (Z.to_nat i + length b) l.
(** [n] bytes from offset [i]. *)
Definition slice (i n : Z) (l : list Z) : list Z := take (Z.to_nat n) (drop (Z.to_nat i) l).

(** Code with early returns: [inl res] is [return res]. *)
Definition try_in {S A B} (m : ST S (Z + A)) (k : A -> ST S (Z + B)) : ST S (Z + B) :=
  let! x := m in match x with inl res => ret (inl res) | inr a => k a end.
Notation "'let?' x ':=' c 'in' k" := (try_in c (fun x => k))
  (at level 10, x pattern, c at level 100, k at level 200, format "'[v' 'let?'  x  ':='  c  'in'  '/' k ']'") : st_scope.
Definition go {S} : ST S (Z + unit) := ret (inr tt).

Section FileObject.
Context {D : Type} `{BlockDevice D}.
Abbreviation state := (io D).

Definition set_vol v (s : state) : state := Io v (fil s) (rbuff s) (count s).
Definition set_fil p (s : state) : state := Io (vol s) p (rbuff s) (count s).
Definition set_rbuff b (s : state) : state := Io (vol s) (fil s) b (count s).
Definition set_count n (s : state) : state := Io (vol s) (fil s) (rbuff s) n.
Definition on_vol {A} (m : ST (volume D) A) : ST state A := zoom vol set_vol m.
Definition get_fil : ST state FIL := gets fil.
Definition upd_fil (g : FIL -> FIL) : ST state unit := modify (fun s => set_fil (g (fil s)) s).
Definition the_fs : ST state FATFS := gets (fun s => fs (vol s)).
Definition abort {A} (res : Z) : ST state (Z + A) := upd_fil (set_err (u8 res)) ;; ret (inl res).

Definition validate : ST state Z := gets (fun s =>
  let f := fs (vol s) in
  if negb (fil_fs (fil s)) || (fs_type f =? 0) || negb (fs_id f =? fil_id (fil s)) || negb ((blk_status (drv f) (dsk (vol s)) &&& STA_NOINIT) =? 0)
  then FR_INVALID_OBJECT else FR_OK).

(** ** Sectors of the file *)

(** Write-back of the dirty sector buffer. *)
Definition write_back : ST state (Z + unit) :=
  let! p := get_fil in
  if negb ((flag p &&& FA__DIRTY) =? 0) then
    let! r := on_vol (disk_write_at (buf p) (dsect p) 1) in
    if negb (bool_decide (r = RES_OK)) then abort FR_DISK_ERR
    else upd_fil (fun p => set_flag (bitand_not 8 (flag p) FA__DIRTY) p) ;; go
  else go.

(** Fill the sector buffer. *)
Definition fill_buf (sect : Z) : ST state (Z + unit) :=
  let! rd := on_vol (disk_read_at sect 1) in
  let (r, data) := rd : DRESULT * list Z in
  upd_fil (set_buf data) ;;
  if negb (bool_decide (r = RES_OK)) then abort FR_DISK_ERR else go.

(** The sector of the pointer: the cluster and the offset in it. *)
Definition current_sector (csect : Z) : ST state (Z + Z) :=
  let! p := get_fil in
  let! f := the_fs in
  let sect := clust2sect f (clust p) in
  if sect =? 0 then abort FR_INT_ERR else ret (inr (u32 (sect + csect))).

Definition cluster_offset (f : FATFS) (p : FIL) : Z := u8 ((fptr p / SS) &&& u32 (csize f - 1)).

(** ** Reading *)

(** On the cluster boundary. *)
Definition read_cluster : ST state (Z + unit) :=
  let! p := get_fil in
  let! clst := (if fptr p =? 0 then ret (sclust p) else on_vol (get_fat (clust p))) in
  if clst <? 2 then abort FR_INT_ERR
  else if clst =? 0xFFFFFFFF then abort FR_DISK_ERR
  else upd_fil (set_clust clst) ;; go.

(** Read maximum contiguous sectors directly. *)
Definition read_direct (sect cc : Z) : ST state (Z + Z) :=
  let! rd := on_vol (disk_read_at sect cc) in
  let (r, data) := rd : DRESULT * list Z in
  modify (fun s => set_rbuff (copy_to (count s) data (rbuff s)) s) ;;
  if negb (bool_decide (r = RES_OK)) then abort FR_DISK_ERR
  else
    let! p := get_fil in
    (if negb ((flag p &&& FA__DIRTY) =? 0) && (u32 (dsect p - sect) <? cc) then
       modify (fun s => set_rbuff (copy_to (count s + u32 (u32 (dsect p - sect) * SS)) (slice 0 SS (buf p)) (rbuff s)) s)
     else ret tt) ;;
    ret (inr (u32 (SS * cc))).

(** Pick a partial sector. *)
Definition read_partial (btr : Z) : ST state (Z + Z) :=
  let! p := get_fil in
  let rcnt := u32 (SS - fptr p mod SS) in
  let rcnt := if btr <? rcnt then btr else rcnt in
  modify (fun s => set_rbuff (copy_to (count s) (slice (fptr p mod SS) rcnt (buf p)) (rbuff s)) s) ;;
  ret (inr rcnt).

(** The body of the loop: [inr rcnt] continues. *)
Definition read_step (btr : Z) : ST state (Z + Z) :=
  let! p := get_fil in
  let! f := the_fs in
  if fptr p mod SS =? 0 then
    let csect := cluster_offset f p in
    let? _ := (if csect =? 0 then read_cluster else go) in
    let? sect := current_sector csect in
    let cc := btr / SS in
    if negb (cc =? 0) then
      read_direct sect (if csize f <? u32 (csect + cc) then u32 (csize f - csect) else cc)
    else
      let? _ := (if negb (dsect p =? sect) then let? _ := write_back in fill_buf sect else go) in
      upd_fil (set_dsect sect) ;;
      read_partial btr
  else read_partial btr.

Definition advance (n : Z) : ST state unit :=
  upd_fil (fun p => set_fptr (u32 (fptr p + n)) p) ;; modify (fun s => set_count (u32 (count s + n)) s).

(** [for ( ; btr; ...)] *)
Fixpoint read_loop (fuel : nat) (btr : Z) : ST state Z :=
  match fuel with
  | O => hang
  | S fuel' =>
      if btr =? 0 then ret FR_OK
      else
        let! step := read_step btr in
        match step with
        | inl res => ret res
        | inr rcnt => advance rcnt ;; read_loop fuel' (u32 (btr - rcnt))
        end
  end.

Definition f_read (btr : Z) : ST state Z :=
  modify (set_count 0) ;;
  let! res := validate in
  if negb (res =? FR_OK) then ret res
  else
    let! p := get_fil in
    if negb (err p =? 0) then ret (err p)
    else if (flag p &&& FA_READ) =? 0 then ret FR_DENIED
    else
      let remain := u32 (fil_size p - fptr p) in
      let btr := if remain <? btr then remain else btr in
      read_loop (S (Z.to_nat btr)) btr.

(** ** Writing *)

(** On the cluster boundary: [inr false] when the volume is full. *)
Definition write_cluster : ST state (Z + bool) :=
  let! p := get_fil in
  let! clst := (if fptr p =? 0 then
                  if sclust p =? 0 then on_vol (create_chain 0) else ret (sclust p)
                else on_vol (create_chain (clust p))) in
  if clst =? 0 then ret (inr false)
  else if clst =? 1 then abort FR_INT_ERR
  else if clst =? 0xFFFFFFFF then abort FR_DISK_ERR
  else
    upd_fil (set_clust clst) ;;
    (if sclust p =? 0 then upd_fil (set_sclust clst) else ret tt) ;;
    ret (inr true).

(** Write maximum contiguous sectors directly; the buffer follows. *)
Definition write_direct (wbuff : list Z) (sect cc : Z) : ST state (Z + Z) :=
  let! r := on_vol (disk_write_at (slice 0 (SS * cc) wbuff) sect cc) in
  if negb (bool_decide (r = RES_OK)) then abort FR_DISK_ERR
  else
    let! p := get_fil in
    (if u32 (dsect p - sect) <? cc then
       upd_fil (set_buf (slice (u32 (u32 (dsect p - sect) * SS)) SS wbuff)) ;;
       upd_fil (fun p => set_flag (bitand_not 8 (flag p) FA__DIRTY) p)
     else ret tt) ;;
    ret (inr (u32 (SS * cc))).

(** Fit a partial sector. *)
Definition write_partial (wbuff : list Z) (btw : Z) : ST state (Z + Z) :=
  let! p := get_fil in
  let wcnt := u32 (SS - fptr p mod SS) in
  let wcnt := if btw <? wcnt then btw else wcnt in
  upd_fil (fun p => set_buf (copy_to (fptr p mod SS) (slice 0 wcnt wbuff) (buf p)) p) ;;
  upd_fil (fun p => set_flag (flag p ||| FA__DIRTY) p) ;;
  ret (inr wcnt).

(** The rest of a turn on a sector boundary, once the cluster is known; [p] is the file
    object before. *)
Definition write_sectors (f : FATFS) (p : FIL) (wbuff : list Z) (btw csect : Z) : ST state (Z + option Z) :=
  let? _ := write_back in
  let? sect := current_sector csect in
  let cc := btw / SS in
  if negb (cc =? 0) then
    let? wcnt := write_direct wbuff sect (if csize f <? u32 (csect + cc) then u32 (csize f - csect) else cc) in
    ret (inr (Some wcnt))
  else
    let? _ := (if negb (dsect p =? sect) then if fptr p <? fil_size p then fill_buf sect else go else go) in
    upd_fil (set_dsect sect) ;;
    let? wcnt := write_partial wbuff btw in
    ret (inr (Some wcnt)).

(** The body of the loop: [inr (Some wcnt)] continues, [inr None] is [break]. *)
Definition write_step (wbuff : list Z) (btw : Z) : ST state (Z + option Z) :=
  let! p := get_fil in
  let! f := the_fs in
  if fptr p mod SS =? 0 then
    let csect := cluster_offset f p in
    let? room := (if csect =? 0 then write_cluster else ret (inr true)) in
    if negb room then ret (inr None) else write_sectors f p wbuff btw csect
  else
    let? wcnt := write_partial wbuff btw in
    ret (inr (Some wcnt)).

(** [for ( ; btw; ...)]; [inr tt] leaves the loop. *)
Fixpoint write_loop (fuel : nat) (wbuff : list Z) (btw : Z) : ST state (Z + unit) :=
  match fuel with
  | O => hang
  | S fuel' =>
      if btw =? 0 then go
      else
        let? step := write_step wbuff btw in
        match step with
        | None => go
        | Some wcnt => advance wcnt ;; write_loop fuel' (drop (Z.to_nat wcnt) wbuff) (u32 (btw - wcnt))
        end
  end.

Definition f_write (buff : list Z) (btw : Z) : ST state Z :=
  modify (set_count 0) ;;
  let! res := validate in
  if negb (res =? FR_OK) then ret res
  else
    let! p := get_fil in
    if negb (err p =? 0) then ret (err p)
    else if (flag p &&& FA_WRITE) =? 0 then ret FR_DENIED
    else
      let btw := if u32 (fptr p + btw) <? fptr p then 0 else btw in
      let! r := write_loop (S (Z.to_nat btw)) buff btw in
      match r with
      | inl res => ret res
      | inr _ =>
          upd_fil (fun p => if fil_size p <? fptr p then set_fil_size (fptr p) p else p) ;;
          upd_fil (fun p => set_flag (flag p ||| FA__WRITTEN) p) ;;
          ret FR_OK
      end.

(** ** Seeking *)

(** [while (ofs > bcs)]: the offset left. *)
Fixpoint seek_loop (fuel : nat) (clst ofs bcs : Z) : ST state (Z + Z * Z) :=
  match fuel with
  | O => hang
  | S fuel' =>
      if bcs <? ofs then
        let! p := get_fil in
        let! f := the_fs in
        let writing := negb ((flag p &&& FA_WRITE) =? 0) in
        let! clst := on_vol (if writing then create_chain clst else get_fat clst) in
        if writing && (clst =? 0) then ret (inr (clst, bcs))
        else if clst =? 0xFFFFFFFF then abort FR_DISK_ERR
        else if (clst <=? 1) || (n_fatent f <=? clst) then abort FR_INT_ERR
        else
          upd_fil (set_clust clst) ;;
          upd_fil (fun p => set_fptr (u32 (fptr p + bcs)) p) ;;
          seek_loop fuel' clst (u32 (ofs - bcs)) bcs
      else ret (inr (clst, ofs))
  end.

(** Where the walk starts: the cluster and the offset from its beginning. *)
Definition seek_start (ifptr ofs bcs : Z) : ST state (Z + Z * Z) :=
  if (0 <? ifptr) && ((ifptr - 1) / bcs <=? (ofs - 1) / bcs) then
    upd_fil (set_fptr (bitand_not 32 (ifptr - 1) (bcs - 1))) ;;
    let! p := get_fil in
    ret (inr (clust p, u32 (ofs - fptr p)))
  else
    let! p := get_fil in
    let? clst :=
      (if sclust p =? 0 then
         let! clst := on_vol (create_chain 0) in
         if clst =? 1 then abort FR_INT_ERR
         else if clst =? 0xFFFFFFFF then abort FR_DISK_ERR
         else upd_fil (set_sclust clst) ;; ret (inr clst)
       else ret (inr (sclust p))) in
    upd_fil (set_clust clst) ;;
    ret (inr (clst, ofs)).

(** [if (ofs) ...]: move the pointer, return the sector of a partial one. *)
Definition seek_to (ifptr ofs : Z) : ST state (Z + Z) :=
  if negb (ofs =? 0) then
    let! f := the_fs in
    let bcs := u32 (csize f * SS) in
    let? start := seek_start ifptr ofs bcs in
    let (clst, ofs) := start : Z * Z in
    if negb (clst =? 0) then
      let? last := seek_loop (S (Z.to_nat (ofs / bcs))) clst ofs bcs in
      let (clst, ofs) := last : Z * Z in
      upd_fil (fun p => set_fptr (u32 (fptr p + ofs)) p) ;;
      if negb (ofs mod SS =? 0) then
        let nsect := clust2sect f clst in
        if nsect =? 0 then abort FR_INT_ERR
        else ret (inr (u32 (nsect + ofs / SS)))
      else ret (inr 0)
    else ret (inr 0)
  else ret (inr 0).

(** Fill the sector cache if needed. *)
Definition seek_fill (nsect : Z) : ST state (Z + unit) :=
  let! p := get_fil in
  if negb (fptr p mod SS =? 0) && negb (nsect =? dsect p) then
    let? _ := (let? _ := write_back in fill_buf nsect) in
    upd_fil (set_dsect nsect) ;; go
  else go.

Definition f_lseek (ofs : Z) : ST state Z :=
  let! res := validate in
  if negb (res =? FR_OK) then ret res
  else
    let! p := get_fil in
    if negb (err p =? 0) then ret (err p)
    else
      let ofs := if (fil_size p <? ofs) && ((flag p &&& FA_WRITE) =? 0) then fil_size p else ofs in
      upd_fil (set_fptr 0) ;;
      let! r :=
        (let? nsect := seek_to (fptr p) ofs in
         let? _ := seek_fill nsect in
         let! p := get_fil in
         (if fil_size p <? fptr p then
            upd_fil (fun p => set_fil_size (fptr p) p) ;; upd_fil (fun p => set_flag (flag p ||| FA__WRITTEN) p)
          else ret tt) ;;
         go) in
      ret (match r with inl res' => res' | inr _ => res end).

(** ** Truncating, flushing and closing *)
Definition f_truncate : ST state Z :=
  let! res := validate in
  let! p := get_fil in
  let res :=
    if res =? FR_OK then
      if negb (err p =? 0) then err p else if (flag p &&& FA_WRITE) =? 0 then FR_DENIED else res
    else res in
  if res =? FR_OK then
    let! res :=
      (if fptr p <? fil_size p then
         upd_fil (set_fil_size (fptr p)) ;;
         upd_fil (fun p => set_flag (flag p ||| FA__WRITTEN) p) ;;
         let! res :=
           (if fptr p =? 0 then
              let! res := on_vol (remove_chain (sclust p)) in
              upd_fil (set_sclust 0) ;; ret res
            else
              let! ncl := on_vol (get_fat (clust p)) in
              let! f := the_fs in
              let res := if ncl =? 1 then FR_INT_ERR else if ncl =? 0xFFFFFFFF then FR_DISK_ERR else FR_OK in
              if (res =? FR_OK) && (ncl <? n_fatent f) then
                let! res := on_vol (put_fat (clust p) 0x0FFFFFFF) in
                if res =? FR_OK then on_vol (remove_chain ncl) else ret res
              else ret res) in
         let! p := get_fil in
         if (res =? FR_OK) && negb ((flag p &&& FA__DIRTY) =? 0) then
           let! r := on_vol (disk_write_at (buf p) (dsect p) 1) in
           if negb (bool_decide (r = RES_OK)) then ret FR_DISK_ERR
           else upd_fil (fun p => set_flag (bitand_not 8 (flag p) FA__DIRTY) p) ;; ret res
         else ret res
       else ret res) in
    (if negb (res =? FR_OK) then upd_fil (set_err (u8 res)) else ret tt) ;;
    ret res
  else ret res.

Definition st_clust (dir cl : Z) (w : list Z) : list Z :=
  ST_WORD (dir + DIR_FstClusHI) (cl >>> 16) (ST_WORD (dir + DIR_FstClusLO) cl w).

(** The directory entry of the file, brought up to date. *)
Definition dir_entry (p : FIL) (w : list Z) : list Z :=
  let dir := dir_ptr p in
  let w := put_byte (dir + DIR_Attr) (byte_at w (dir + DIR_Attr) ||| AM_ARC) w in
  let w := ST_DWORD (dir + DIR_FileSize) (fil_size p) w in
  let w := st_clust dir (sclust p) w in
  let w := ST_DWORD (dir + DIR_WrtTime) GET_FATTIME w in
  ST_WORD (dir + DIR_LstAccDate) 0 w.

(** Write-back cached data if needed. *)
Definition sync_buf : ST state (Z + unit) :=
  let! p := get_fil in
  if negb ((flag p &&& FA__DIRTY) =? 0) then
    let! r := on_vol (disk_write_at (buf p) (dsect p) 1) in
    if negb (bool_decide (r = RES_OK)) then ret (inl FR_DISK_ERR)
    else upd_fil (fun p => set_flag (bitand_not 8 (flag p) FA__DIRTY) p) ;; go
  else go.

Definition f_sync : ST state Z :=
  let! res := validate in
  let! p := get_fil in
  if (res =? FR_OK) && negb ((flag p &&& FA__WRITTEN) =? 0) then
    let! r := sync_buf in
    match r with
    | inl res => ret res
    | inr _ =>
        let! res := on_vol (move_window (dir_sect p)) in
        if res =? FR_OK then
          on_vol (upd_fs (fun f => set_win (dir_entry p (win f)) f)) ;;
          upd_fil (fun p => set_flag (bitand_not 8 (flag p) FA__WRITTEN) p) ;;
          on_vol (upd_fs (set_wflag 1)) ;;
          on_vol sync_fs
        else ret res
    end
  else ret res.

Definition f_close : ST state Z :=
  let! res := f_sync in
  if res =? FR_OK then
    let! res := validate in
    (if res =? FR_OK then upd_fil (set_fil_fs false) else ret tt) ;;
    ret res
  else ret res.
End FileObject.

(** ** Sectors of a chain *)

(** The size of a cluster is a power of two. *)
Definition pow2_csize (f : FATFS) : Prop := exists k, 0 <= k <= 7 /\ csize f = 2 ^ k.
Definition all_clusters (f : FATFS) (l : list Z) : Prop := forall c, c ∈ l -> 2 <= c < n_fatent f.
(** The number of sectors of the clusters [l], and the [i]-th of them. *)
Definition nsects (f : FATFS) (l : list Z) : Z := Z.of_nat (length l) * csize f.
Definition csect (f : FATFS) (c : Z) : Z := database f + (c - 2) * csize f.
Definition fsect (f : FATFS) (l : list Z) (i : Z) : Z := csect f (l !!! Z.to_nat (i / csize f)) + i mod csize f.

Lemma cluster_offset_mod f p : pow2_csize f -> 0 <= fptr p -> cluster_offset f p = (fptr p / 512) mod csize f.
Proof.
  intros (k & Hk & E) Hp. unfold cluster_offset. change SS with 512. rewrite E. assert (1 <= 2 ^ k <= 2 ^ 7).
  { split; [pose proof (Z.pow_pos_nonneg 2 k); lia|apply Z.pow_le_mono_r; lia]. }
  rewrite (wrapu_small 32) by (unfold inu; lia). replace (2 ^ k - 1) with (Z.ones k) by (rewrite Z.ones_equiv; lia). rewrite Z.land_ones by lia.
  apply wrapu_small. unfold inu. pose proof (Z.mod_pos_bound (fptr p / 512) (2 ^ k)). lia.
Qed.

Lemma csect_range f c : geom_ok f -> 2 <= c < n_fatent f -> database f <= csect f c /\ csect f c + csize f <= database f + (n_fatent f - 2) * csize f.
Proof. intros G Hc. pose proof (g_csize _ G). unfold csect. nia. Qed.

Lemma data_area f : geom_ok f -> 0 < database f /\ database f + (n_fatent f - 2) * csize f < 0xFFFFFFFF.
Proof. intros [Gd Gc Gb Gs Gn Gz Gt Ge Gy]. split; [|exact Ge]. destruct Gc as [E|E]; rewrite E in Gt; lia. Qed.

Lemma clust2sect_spec f c : geom_ok f -> 2 <= c < n_fatent f -> clust2sect f c = csect f c.
Proof.
  intros G Hc. pose proof (csect_range f c G Hc). pose proof (data_area f G). pose proof (g_csize _ G). unfold clust2sect.
  assert (n_fatent f <= 0x0FFFFFF7) by (destruct (g_type _ G) as [(_ & ? & _)|[(_ & ? & _)|(_ & ? & _)]]; lia).
  rewrite !(wrapu_small 32 (_ - 2)) by (unfold inu; lia). rewrite (proj2 (Z.leb_gt _ _)) by lia.
  unfold csect in *. rewrite wrapu_small by (unfold inu; lia). lia.
Qed.

Lemma chain_clusters f L l : is_chain (fat_entry f L) (n_fatent f) l -> all_clusters f l.
Proof. intros C c Hc. apply list_elem_of_split in Hc as (l1 & l2 & ->). by apply chain_suffix, is_chain_head in C. Qed.

Section Sectors.
Context (f : FATFS) (l : list Z).
Hypothesis G : geom_ok f.
Hypothesis Hl : all_clusters f l.

Lemma sector_cluster i : 0 <= i < nsects f l -> 0 <= i / csize f < Z.of_nat (length l) /\ 0 <= i mod csize f < csize f /\
  exists c, l !! Z.to_nat (i / csize f) = Some c /\ 2 <= c < n_fatent f /\ fsect f l i = csect f c + i mod csize f.
Proof.
  intros Hi. pose proof (g_csize _ G). unfold nsects in Hi. assert (Hq : 0 <= i / csize f < Z.of_nat (length l)).
  { split; [apply Z.div_pos; lia|apply Z.div_lt_upper_bound; lia]. }
  pose proof (Z.mod_pos_bound i (csize f)). split_and!; [lia..|]. destruct (lookup_lt_is_Some_2 l (Z.to_nat (i / csize f)) ltac:(lia)) as [c Ec].
  exists c. split; [done|]. split; [apply Hl; by eapply list_elem_of_lookup_2|]. unfold fsect. by rewrite (list_lookup_total_correct _ _ _ Ec).
Qed.

Lemma fsect_range i : 0 <= i < nsects f l -> database f <= fsect f l i < database f + (n_fatent f - 2) * csize f.
Proof. intros Hi. destruct (sector_cluster i Hi) as (_ & Hm & c & _ & Hc & ->). pose proof (csect_range f c G Hc). lia. Qed.

Lemma fsect_inj i j : NoDup l -> 0 <= i < nsects f l -> 0 <= j < nsects f l -> fsect f l i = fsect f l j -> i = j.
Proof.
  intros Nd Hi Hj E. destruct (sector_cluster i Hi) as (Qi & Mi & c & Lc & Hc & Ei). destruct (sector_cluster j Hj) as (Qj & Mj & c' & Lc' & Hc' & Ej).
  pose proof (g_csize _ G). rewrite Ei, Ej in E. unfold csect in E. assert (c = c') as <- by nia.
  assert (Em : i mod csize f = j mod csize f) by lia. pose proof (NoDup_lookup l _ _ _ Nd Lc Lc').
  rewrite (Z.div_mod i (csize f)), (Z.div_mod j (csize f)) by lia. rewrite Em. f_equal. f_equal. lia.
Qed.

(** The sectors of one cluster follow each other. *)
Lemma fsect_next i k : 0 <= i < nsects f l -> 0 <= k -> i mod csize f + k < csize f ->
  i + k < nsects f l /\ fsect f l (i + k) = fsect f l i + k /\ (i + k) / csize f = i / csize f /\ (i + k) mod csize f = i mod csize f + k.
Proof.
  intros Hi Hk Hm. pose proof (g_csize _ G). destruct (sector_cluster i Hi) as (Qi & Mi & _).
  pose proof (Z.div_mod i (csize f) ltac:(lia)) as Dm.
  assert (Eq : (i + k) / csize f = i / csize f) by (symmetry; apply (Z.div_unique _ _ _ (i mod csize f + k)); lia).
  assert (Er : (i + k) mod csize f = i mod csize f + k) by (symmetry; apply (Z.mod_unique _ _ (i / csize f)); lia).
  split_and!; [unfold nsects in *; nia| |done|done]. unfold fsect. rewrite Eq, Er. lia.
Qed.
End Sectors.

Lemma fsect_app f l l' i : geom_ok f -> 0 <= i < nsects f l -> fsect f (l ++ l') i = fsect f l i.
Proof.
  intros G Hi. pose proof (g_csize _ G). unfold nsects in Hi. assert (i / csize f < Z.of_nat (length l)) by (apply Z.div_lt_upper_bound; lia).
  pose proof (Z.div_pos i (csize f)). unfold fsect. by rewrite lookup_total_app_l by lia.
Qed.

Lemma nsects_same f f' l : rest_same f f' -> nsects f' l = nsects f l.
Proof. intros (_ & _ & E & _). unfold nsects. by rewrite E. Qed.
Lemma fsect_same f f' l i : rest_same f f' -> fsect f' l i = fsect f l i.
Proof. intros (_ & _ & E & _ & _ & _ & _ & _ & _ & _ & _ & _ & E'). unfold fsect, csect. by rewrite E, E'. Qed.

(** ** The drive behind the window *)

(** Where the window may be after a function of the table. *)
Definition near (f f' : FATFS) : Prop :=
  rest_same f f' /\ (winsect f' = winsect f \/ winsect f' = 0xFFFFFFFF \/ fatbase f <= winsect f' < fatbase f + fsize f).

Lemma near_refl f : near f f.
Proof. split; [apply rest_same_refl|by left]. Qed.
Lemma near_trans f1 f2 f3 : near f1 f2 -> near f2 f3 -> near f1 f3.
Proof.
  intros [R1 W1] [R2 W2]. split; [by eapply rest_same_trans|]. destruct (fat_bounds_same _ _ R1) as (Eb & Es & _).
  destruct W2 as [-> | [-> | W2]]; [done|by right; left|]. right; right. by rewrite <- Eb, <- Es.
Qed.

(** [m] leaves the window where it was or in the table. *)
Definition keeps_near {D A} (f : FATFS) (m : ST (volume D) A) : Prop :=
  forall v r v', near f (fs v) -> m v = Ret r v' -> near f (fs v').

Section Near.
Context {D : Type} `{BlockDevice D} (f : FATFS).
Hypothesis G : geom_ok f.
Abbreviation state := (volume D).

Lemma near_ret {A} (a : A) : keeps_near f (ret a : ST state A).
Proof. intros v r v' N E. injection E as _ <-. done. Qed.
Lemma near_hang {A} : keeps_near f (hang : ST state A).
Proof. intros v r v' N E. discriminate E. Qed.
Lemma near_gets {A} (g : state -> A) : keeps_near f (gets g).
Proof. intros v r v' N E. injection E as _ <-. done. Qed.
Lemma near_bind {A B} (m : ST state A) (k : A -> ST state B) : keeps_near f m -> (forall a, keeps_near f (k a)) -> keeps_near f (bind m k).
Proof. intros Hm Hk v r v' N E. unfold bind in E. destruct (m v) as [a v1| | |] eqn:Em; try discriminate. eapply Hk; [|exact E]. by eapply Hm. Qed.
Lemma near_fs {B} (k : FATFS -> ST state B) : (forall g, near f g -> keeps_near f (k g)) -> keeps_near f (bind get_fs k).
Proof. intros Hk v r v' N E. cbn in E. by apply (Hk (fs v) N v r v' N). Qed.
Lemma near_upd (g : FATFS -> FATFS) : (forall f', rest_same f' (g f') /\ (winsect (g f') = winsect f' \/ winsect (g f') = 0xFFFFFFFF)) -> keeps_near f (upd_fs (D:=D) g).
Proof. intros Hg v r v' N E. injection E as _ <-. cbn. eapply near_trans; [exact N|]. destruct (Hg (fs v)) as [R W]. split; [exact R|]. tauto. Qed.
Lemma near_upd_sector s : fatbase f <= s < fatbase f + fsize f -> keeps_near f (upd_fs (D:=D) (set_winsect s)).
Proof. intros Hs v r v' N E. injection E as _ <-. cbn. split; [exact (rest_same_trans _ _ _ (proj1 N) (rest_same_refl _))|]. by right; right. Qed.
Lemma near_write data s n : keeps_near f (disk_write_at (D:=D) data s n).
Proof. intros v r v' N E. unfold disk_write_at in E. destruct (blk_write _ _ _ _ _) as [x d]. injection E as _ <-. done. Qed.
Lemma near_read s n : keeps_near f (disk_read_at (D:=D) s n).
Proof. intros v r v' N E. unfold disk_read_at in E. destruct (blk_read _ _ _ _) as [[x data] d]. injection E as _ <-. done. Qed.
End Near.

Create HintDb near.
#[export] Hint Resolve near_ret near_hang near_gets near_write near_read : near.
(** Walk through a function of the table. *)
Ltac near_step := first
  [ solve [auto with near]
  | apply near_fs; intros ? ?
  | apply near_upd; intros ?; split; [done|cbn; tauto]
  | apply near_bind; [|intros ?]
  | case_match ].
Ltac near_walk := repeat near_step.

Section Tables.
Context {D : Type} `{BlockDevice D} (f : FATFS).
Hypothesis G : geom_ok f.
Abbreviation state := (volume D).

Lemma near_reflect k : forall s, keeps_near f (reflect_copies (D:=D) k s).
Proof. induction k as [|k IH]; intros s; cbn [reflect_copies]; near_walk. Qed.
#[local] Hint Resolve near_reflect : near.
Lemma near_sync : keeps_near f (sync_window (D:=D)).
Proof. unfold sync_window. near_walk. Qed.
#[local] Hint Resolve near_sync : near.
Lemma near_move s : fatbase f <= s < fatbase f + fsize f -> keeps_near f (move_window (D:=D) s).
Proof. intros Hs. unfold move_window. near_walk. by apply near_upd_sector. Qed.

(** The sectors of an entry are in the table. *)
Lemma table_sector g q : near f g -> 0 <= q < fsize f -> keeps_near f (move_window (D:=D) (u32 (fatbase g + q))).
Proof.
  intros [R _] Hq. apply near_move. destruct (fat_bounds_same _ _ R) as (-> & _ & _). pose proof (g_fatbase _ G). pose proof (g_data _ G). pose proof (data_area f G).
  pose proof (g_csize _ G). pose proof (g_clusters _ G). pose proof (g_fsize _ G). assert (fsize f <= n_fats f * fsize f) by (destruct (g_copies _ G) as [-> | ->]; lia).
  rewrite wrapu_small by (unfold inu; nia). lia.
Qed.

Lemma entry_guard g c : near f g -> ((c <? 2) || (n_fatent g <=? c)) = false -> 2 <= c < n_fatent f /\ fs_type g = fs_type f /\ c < 2 ^ 28.
Proof.
  intros [R _] Hc. apply orb_false_iff in Hc as [H1 H2]. apply Z.ltb_ge in H1. apply Z.leb_gt in H2. destruct (fat_bounds_same _ _ R) as (_ & _ & E).
  split_and!; [lia|lia|apply R|]. destruct (g_type _ G) as [(_ & ? & _)|[(_ & ? & _)|(_ & ? & _)]]; lia.
Qed.

Lemma near_entry12 g c k : near f g -> ((c <? 2) || (n_fatent g <=? c)) = false -> fs_type g = FS_FAT12 -> k = 0 \/ k = 1 ->
  keeps_near f (move_window (D:=D) (u32 (fatbase g + (c + c / 2 + k) / SS))).
Proof.
  intros N Hc T Hk. destruct (entry_guard g c N Hc) as (Hr & Et & Hb). destruct (entry_in_fat f c G Hr) as (I & _). specialize (I ltac:(congruence)).
  pose proof (Z.div_pos c 2). apply table_sector; [done|]. change SS with 512. split; [apply Z.div_pos; lia|apply Z.div_lt_upper_bound; lia].
Qed.
Lemma near_entry16 g c : near f g -> ((c <? 2) || (n_fatent g <=? c)) = false -> fs_type g = FS_FAT16 ->
  keeps_near f (move_window (D:=D) (u32 (fatbase g + c / (SS / 2)))).
Proof.
  intros N Hc T. destruct (entry_guard g c N Hc) as (Hr & Et & Hb). destruct (entry_in_fat f c G Hr) as (_ & I & _). specialize (I ltac:(congruence)).
  apply table_sector; [done|]. change (SS / 2) with 256. split; [apply Z.div_pos; lia|apply Z.div_lt_upper_bound; lia].
Qed.
Lemma near_entry32 g c : near f g -> ((c <? 2) || (n_fatent g <=? c)) = false -> fs_type g = FS_FAT32 ->
  keeps_near f (move_window (D:=D) (u32 (fatbase g + c / (SS / 4)))).
Proof.
  intros N Hc T. destruct (entry_guard g c N Hc) as (Hr & Et & Hb). destruct (entry_in_fat f c G Hr) as (_ & _ & I). specialize (I ltac:(congruence)).
  apply table_sector; [done|]. change (SS / 4) with 128. split; [apply Z.div_pos; lia|apply Z.div_lt_upper_bound; lia].
Qed.

Lemma bc_small g c : near f g -> ((c <? 2) || (n_fatent g <=? c)) = false -> u32 (c + c / 2) = c + c / 2 + 0 /\ u32 (u32 (c + c / 2) + 1) = c + c / 2 + 1.
Proof.
  intros N Hc. destruct (entry_guard g c N Hc) as (Hr & _ & Hb). pose proof (Z.div_pos c 2). pose proof (Z.div_le_upper_bound c 2 c).
  rewrite (wrapu_small 32 (c + c / 2)) by (unfold inu; lia). rewrite wrapu_small by (unfold inu; lia). lia.
Qed.

Lemma near_edit g : keeps_near f (edit_win (D:=D) g).
Proof. unfold edit_win. near_walk. Qed.
#[local] Hint Resolve near_edit : near.

Ltac near_table g Ng c E := first
  [ apply near_entry12; [exact Ng|exact E|by apply Z.eqb_eq|tauto]
  | apply near_entry16; [exact Ng|exact E|by apply Z.eqb_eq]
  | apply near_entry32; [exact Ng|exact E|by apply Z.eqb_eq] ].

Lemma near_get_fat c : keeps_near f (get_fat (D:=D) c).
Proof.
  unfold get_fat. apply near_fs. intros g Ng. case_match eqn:E; [near_walk|]. destruct (bc_small g c Ng E) as [E1 E2]. cbv zeta. rewrite E2, E1.
  repeat first [near_table g Ng c E | near_step].
Qed.
Lemma near_put_fat c x : keeps_near f (put_fat (D:=D) c x).
Proof.
  unfold put_fat. apply near_fs. intros g Ng. case_match eqn:E; [near_walk|]. destruct (bc_small g c Ng E) as [E1 E2]. cbv zeta. rewrite E2, E1.
  repeat first [near_table g Ng c E | near_step].
Qed.
Lemma near_count k : keeps_near f (count_free (D:=D) k).
Proof. unfold count_free. near_walk. Qed.
#[local] Hint Resolve near_get_fat near_put_fat near_count : near.
Lemma near_remove_loop n : forall c, keeps_near f (remove_loop (D:=D) n c).
Proof. induction n as [|n IH]; intros c; cbn [remove_loop]; near_walk. Qed.
#[local] Hint Resolve near_remove_loop : near.
Lemma near_remove c : keeps_near f (remove_chain (D:=D) c).
Proof. unfold remove_chain. near_walk. Qed.
Lemma near_find n : forall s c, keeps_near f (find_free (D:=D) n s c).
Proof. induction n as [|n IH]; intros s c; cbn [find_free]; near_walk. Qed.
#[local] Hint Resolve near_find : near.
Lemma near_create c : keeps_near f (create_chain (D:=D) c).
Proof. unfold create_chain, create_from. near_walk. Qed.
End Tables.

Lemma sector_run_ext b : forall (L L' : sectors) s, (forall i, s <= i < s + Z.of_nat (length b) -> L' !! i = L !! i) -> sector_run L s b -> sector_run L' s b.
Proof.
  induction b as [|x b IH]; intros L L' s He; cbn [sector_run length] in *; [done|]. intros [E R]. split; [by rewrite He by lia|].
  apply (IH L); [|done]. intros i Hi. apply He. lia.
Qed.

Lemma write_run_same b : forall (L L' : sectors) s i, L' !! i = L !! i -> write_run L' s b !! i = write_run L s b !! i.
Proof.
  induction b as [|x b IH]; intros L L' s i E; cbn [write_run]; [done|]. apply IH.
  destruct (decide (s = i)) as [->|Ne]; [by rewrite !lookup_insert_eq|by rewrite !lookup_insert_ne].
Qed.

Lemma write_run_at b : forall (L : sectors) s j x, b !! j = Some x -> write_run L s b !! (s + Z.of_nat j) = Some x.
Proof.
  induction b as [|y b IH]; intros L s [|j] x E; cbn [write_run] in *; try discriminate.
  - injection E as ->. rewrite Z.add_0_r, write_run_other by lia. apply lookup_insert_eq.
  - replace (s + Z.of_nat (S j)) with (s + 1 + Z.of_nat j) by lia. by apply IH.
Qed.

Section Direct.
Context {D : Type} `{BlockLaws D}.
Implicit Types (v : volume D) (L : sectors).

Lemma data_not_copy f s : geom_ok f -> database f <= s -> ~ in_copy f s.
Proof. intros G Hs [_ Hc]. pose proof (g_data _ G). lia. Qed.

(** Sectors of the data area that are not in the window are read and written past it. *)
Lemma data_read v L s b : vol_rep v L -> database (fs v) <= s -> sector_run L s b -> b <> [] ->
  ~ s <= winsect (fs v) < s + Z.of_nat (length b) ->
  exists v', disk_read_at s (Z.of_nat (length b)) v = Ret (RES_OK, concat b) v' /\ vol_rep v' L /\ fs v' = fs v.
Proof.
  intros (G & Ok & st & Hb & Co) Hs Rn Ne Nw. destruct (blk_read_ok (dsk v) st s b Hb Ne) as (d & E & Hd).
  { apply (sector_run_ext b L); [|done]. intros i Hi. rewrite (co_disk _ _ _ Co i) by (apply data_not_copy; [done|lia]).
    rewrite decide_False; [done|]. intros [_ Ei]. lia. }
  exists (set_dsk d v). unfold disk_read_at. rewrite (g_drv _ G), E. split; [done|]. split; [|done]. split; [done|]. split; [done|]. by exists st.
Qed.

Lemma data_write v L s b : vol_rep v L -> database (fs v) <= s -> present L s (length b) -> blocks_ok b -> b <> [] ->
  ~ s <= winsect (fs v) < s + Z.of_nat (length b) ->
  exists v', disk_write_at (concat b) s (Z.of_nat (length b)) v = Ret RES_OK v' /\ vol_rep v' (write_run L s b) /\ fs v' = fs v.
Proof.
  intros (G & Ok & st & Hb & Co) Hs Pr Bk Ne Nw. pose proof Co as [Cw Cf Cd Ct Cm].
  destruct (blk_write_ok (dsk v) st s b Hb Ne Bk) as (d & E & Hd).
  { intros i Hi. specialize (Pr i Hi). rewrite Cd in Pr by (apply data_not_copy; [done|lia]). rewrite decide_False in Pr; [done|]. intros [_ Ei]. lia. }
  exists (set_dsk d v). unfold disk_write_at. rewrite (g_drv _ G), E. split; [done|]. split; [|done]. split; [done|].
  split; [by apply write_run_ok|]. exists (write_run st s b). split; [exact Hd|].
  assert (Out : forall i, i < database (fs v) \/ i = winsect (fs v) -> write_run st s b !! i = st !! i) by (intros i Hi; apply write_run_other; lia).
  pose proof (g_data _ G) as Gt. pose proof (g_fsize _ G) as Gs. constructor; cbn [fs set_dsk].
  - exact Cw.
  - destruct Cf as [(F & W)|(F & W & Nc)]; [left|right]; (split; [done|]); rewrite Out by lia; done.
  - intros i Ni. destruct (decide (dirty_at (fs v) i)) as [[F <-]|Nd].
    + rewrite write_run_other by lia. rewrite Cd by done. by rewrite decide_True by done.
    + apply write_run_same. rewrite Cd by done. by rewrite decide_False.
  - intros i Hi. rewrite Out by lia. by apply Ct.
  - intros i N2 Hi Nd. rewrite !Out by (rewrite ?N2 in *; lia). by apply Cm.
Qed.

(** The window, too, after a function of the table. *)
Lemma returns_near {A} v (m : ST (volume D) A) P : geom_ok (fs v) -> keeps_near (fs v) m -> returns m v P -> returns m v (fun r v' => P r v' /\ near (fs v) (fs v')).
Proof. intros G K (r & v' & E & HP). exists r, v'. split; [done|]. split; [done|]. by apply (K v r v' (near_refl _)). Qed.
End Direct.

(** ** An open file *)

Definition dirty (p : FIL) : bool := negb ((flag p &&& FA__DIRTY) =? 0).
(** The sector [s] of the file as the file object has it. *)
Definition view (p : FIL) (L : sectors) (s : Z) : list Z := if dirty p && (dsect p =? s) then buf p else default [] (L !! s).
(** Byte [i] of the clusters [l], and the bytes of the file. *)
Definition fbyte (f : FATFS) (p : FIL) (L : sectors) (l : list Z) (i : Z) : Z := byte_at (view p L (fsect f l (i / 512))) (i mod 512).
Definition contents (f : FATFS) (p : FIL) (L : sectors) (l : list Z) : list Z := map (fbyte f p L l) (seqZ 0 (fil_size p)).

(** The sectors of the first FAT. *)
Definition in_table (f : FATFS) (s : Z) : Prop := fatbase f <= s < fatbase f + fsize f.

Section Open.
Context {D : Type} `{BlockLaws D}.
Implicit Types (v : volume D) (p : FIL) (L : sectors) (l : list Z).

(** The clusters [l] are a chain of the volume, their sectors are on the drive and not in
    the window. *)
Record chain_rep v L l : Prop := {
  ch_vol : vol_rep v L;
  ch_pow : pow2_csize (fs v);
  ch_data : forall s, database (fs v) <= s < database (fs v) + (n_fatent (fs v) - 2) * csize (fs v) -> is_Some (L !! s);
  ch_chain : l = [] \/ is_chain (fat_entry (fs v) L) (n_fatent (fs v)) l;
  ch_win : forall i, 0 <= i < nsects (fs v) l -> winsect (fs v) <> fsect (fs v) l i;
}.

(** The file object: the buffer differs from the drive only when it is dirty. *)
Record fil_mem (f : FATFS) L l p : Prop := {
  fo_open : fil_fs p = true /\ fil_id p = fs_id f /\ err p = 0;
  fo_first : sclust p = default 0 (head l);
  fo_size : 0 <= fil_size p < 2 ^ 32 /\ fil_size p <= 512 * nsects f l;
  fo_buf : length (buf p) = 512%nat /\ Forall (inu 8) (buf p);
  fo_dirty : dirty p = true -> exists i, 0 <= i < nsects f l /\ dsect p = fsect f l i;
  fo_clean : dirty p = false -> dsect p = 0 \/ database f <= dsect p /\ L !! dsect p = Some (buf p);
  fo_flag : inu 8 (flag p);
  fo_dsect : inu 32 (dsect p);
}.

(** Its pointer is in the clusters, and inside a sector the buffer holds that sector. *)
Record fil_base (f : FATFS) L l p : Prop := {
  fo_mem :> fil_mem f L l p;
  fo_pos : 0 <= fptr p < 2 ^ 32 /\ fptr p <= 512 * nsects f l;
  fo_cache : fptr p mod 512 <> 0 -> dsect p = fsect f l (fptr p / 512);
}.

(** Its current cluster is that of the byte before the pointer. *)
Definition fil_ok (f : FATFS) L l p : Prop :=
  fil_base f L l p /\ (0 < fptr p -> l !! Z.to_nat ((fptr p - 1) / (512 * csize f)) = Some (clust p)).

(** The file open on [l], with its pointer in the file. *)
Definition file_rep v p L l : Prop := chain_rep v L l /\ fil_ok (fs v) L l p /\ fptr p <= fil_size p.

Definition in_file (f : FATFS) l (s : Z) : Prop := exists i, 0 <= i < nsects f l /\ s = fsect f l i.

Lemma chain_all v L l : chain_rep v L l -> all_clusters (fs v) l /\ NoDup l.
Proof.
  intros [_ _ _ Ch _]. destruct Ch as [->|Ch]; [split; [intros c Hc; by apply elem_of_nil in Hc|apply NoDup_nil_2]|].
  split; [by eapply chain_clusters|by eapply chain_NoDup].
Qed.

(** Sector [i] of the file. *)
Lemma chain_sector v L l i : chain_rep v L l -> 0 <= i < nsects (fs v) l ->
  exists b, L !! fsect (fs v) l i = Some b /\ length b = 512%nat /\ Forall (inu 8) b /\
    database (fs v) <= fsect (fs v) l i < database (fs v) + (n_fatent (fs v) - 2) * csize (fs v) /\ 0 < fsect (fs v) l i < 0xFFFFFFFF.
Proof.
  intros C Hi. destruct (chain_all v L l C) as [Al _]. destruct C as [(G & Ok & R) _ Da _ _]. pose proof (fsect_range _ l G Al i Hi) as Hr.
  destruct (Da _ Hr) as [b Eb]. exists b. destruct (Ok _ _ Eb). pose proof (data_area _ G). split_and!; (done || lia).
Qed.

(** The table decides the entries; the sectors of a file are not in it. *)
Lemma fat_entry_table f L L' c : (forall s, in_table f s -> L' !! s = L !! s) -> geom_ok f -> 2 <= c < n_fatent f -> fat_entry f L' c = fat_entry f L c.
Proof.
  intros E G Hc. destruct (entry_in_fat f c G Hc) as (I12 & I16 & I32). pose proof (Z.div_pos c 2).
  assert (Eb : forall i, 0 <= i < 512 * fsize f -> fat_byte f L' i = fat_byte f L i).
  { intros i Hi. unfold fat_byte. rewrite E; [done|]. pose proof (Z.div_pos i 512). assert (i / 512 < fsize f) by (apply Z.div_lt_upper_bound; lia). unfold in_table. lia. }
  unfold fat_entry, entry. destruct (g_type _ G) as [(T & _)|[(T & _)|(T & _)]]; rewrite T in *; cbn [Z.eqb Pos.eqb FS_FAT12 FS_FAT16 FS_FAT32].
  - specialize (I12 eq_refl). by rewrite !Eb by lia.
  - specialize (I16 eq_refl). by rewrite !Eb by lia.
  - specialize (I32 eq_refl). by rewrite !Eb by lia.
Qed.

Lemma fat_entry_ext f L L' c : (forall s, s < database f -> L' !! s = L !! s) -> geom_ok f -> 2 <= c < n_fatent f -> fat_entry f L' c = fat_entry f L c.
Proof.
  intros E G Hc. apply fat_entry_table; [|done|done]. intros s Hs. apply E. unfold in_table in Hs. pose proof (g_data _ G). pose proof (g_fsize _ G).
  assert (fsize f <= n_fats f * fsize f) by (destruct (g_copies _ G) as [-> | ->]; lia). lia.
Qed.

Lemma chain_rep_disk v v' L L' l : chain_rep v L l -> vol_rep v' L' -> fs v' = fs v -> (forall s, s < database (fs v) -> L' !! s = L !! s) ->
  (forall s, is_Some (L !! s) -> is_Some (L' !! s)) -> chain_rep v' L' l.
Proof.
  intros C R' E Es Ep. destruct (chain_all v L l C) as [Al _]. destruct C as [(G & _) Po Da Ch Wi]. constructor; rewrite ?E; try done.
  - intros s Hs. by apply Ep, Da.
  - destruct Ch as [->|Ch]; [by left|right]. apply (chain_ext (fat_entry (fs v) L)); [|done]. intros c Hc. apply fat_entry_ext; [done|done|by apply Al].
Qed.

(** Some sectors of one cluster of the file. *)
Lemma chain_window v L l i n : chain_rep v L l -> 0 <= i < nsects (fs v) l -> i mod csize (fs v) + n <= csize (fs v) ->
  ~ fsect (fs v) l i <= winsect (fs v) < fsect (fs v) l i + n.
Proof.
  intros C Hi Hn Hw. destruct (chain_all v L l C) as [Al _]. pose proof (proj1 (ch_vol _ _ _ C)) as G. pose proof (ch_win _ _ _ C) as Wi.
  set (k := winsect (fs v) - fsect (fs v) l i). destruct (fsect_next _ l G Al i k Hi ltac:(lia) ltac:(lia)) as (Hk & Ek & _).
  apply (Wi (i + k)); [lia|]. rewrite Ek. lia.
Qed.
End Open.

(** ** Bytes of sectors *)

Lemma sector_run_lookup b : forall (L : sectors) s, (forall j x, b !! j = Some x -> L !! (s + Z.of_nat j) = Some x) -> sector_run L s b.
Proof.
  induction b as [|y b IH]; intros L s Hb; cbn [sector_run]; [done|]. split.
  - rewrite <- (Z.add_0_r s). by apply (Hb 0%nat).
  - apply IH. intros j x E. replace (s + 1 + Z.of_nat j) with (s + Z.of_nat (S j)) by lia. by apply Hb.
Qed.

Lemma sector_bytes (g : Z -> Z) x q : length x = 512%nat -> (forall j, 0 <= j < 512 -> g (512 * q + j) = byte_at x j) -> map g (seqZ (512 * q) 512) = x.
Proof.
  intros Hx Hg. apply list_eq. intros i. change (map g ?l !! i) with ((g <$> l) !! i). rewrite list_lookup_fmap.
  destruct (decide (i < 512)%nat) as [Hi|Hi].
  - rewrite lookup_seqZ_lt by lia. cbn. rewrite Hg by lia. unfold byte_at. rewrite Nat2Z.id. symmetry. apply list_lookup_lookup_total_lt. lia.
  - rewrite lookup_seqZ_ge by lia. cbn. symmetry. apply lookup_ge_None_2. lia.
Qed.

Lemma map_seqZ_app (g : Z -> Z) a m n : 0 <= m -> 0 <= n -> map g (seqZ a (m + n)) = map g (seqZ a m) ++ map g (seqZ (a + m) n).
Proof. intros. rewrite seqZ_app by lia. apply map_app. Qed.

Lemma map_seqZ_ext (g h : Z -> Z) a n : (forall j, a <= j < a + n -> h j = g j) -> map h (seqZ a n) = map g (seqZ a n).
Proof. intros E. apply map_ext_in. intros j Hj. apply E. apply list_elem_of_In, elem_of_seqZ in Hj. lia. Qed.

Lemma concat_sectors (g : Z -> Z) (b : list (list Z)) : forall q, Forall (fun x => length x = 512%nat) b ->
  (forall k x j, b !! k = Some x -> 0 <= j < 512 -> g (512 * (q + Z.of_nat k) + j) = byte_at x j) ->
  concat b = map g (seqZ (512 * q) (512 * Z.of_nat (length b))).
Proof.
  induction b as [|x b IH]; intros q Hl Hg; [done|]. apply Forall_cons in Hl as [Hx Hl]. cbn [concat length].
  replace (512 * Z.of_nat (S (length b))) with (512 + 512 * Z.of_nat (length b)) by lia. rewrite map_seqZ_app by lia. f_equal.
  - symmetry. apply sector_bytes; [done|]. intros j Hj. rewrite <- (Hg 0%nat x j) by done. f_equal. lia.
  - replace (512 * q + 512) with (512 * (q + 1)) by lia. apply IH; [done|]. intros k y j Ey Hj. rewrite <- (Hg (S k) y j) by done. f_equal. lia.
Qed.

Lemma length_concat_512 (b : list (list Z)) : Forall (fun x => length x = 512%nat) b -> length (concat b) = (512 * length b)%nat.
Proof. induction 1 as [|x b Hx _ IH]; [done|]. cbn [concat length]. rewrite length_app, Hx, IH. lia. Qed.

Lemma copy_to_end rb b : copy_to (Z.of_nat (length rb)) b rb = rb ++ b.
Proof. unfold copy_to. rewrite Nat2Z.id, take_ge, drop_ge by lia. by rewrite app_nil_r. Qed.

Lemma copy_to_app rb b i x : 0 <= i -> copy_to (Z.of_nat (length rb) + i) x (rb ++ b) = rb ++ copy_to i x b.
Proof.
  intros Hi. unfold copy_to. rewrite Z2Nat.inj_add, Nat2Z.id by lia. rewrite take_app_add, <- app_assoc. f_equal.
  rewrite <- Nat.add_assoc, drop_app_add. done.
Qed.

Lemma copy_to_sector (b : list (list Z)) : forall k x, Forall (fun x => length x = 512%nat) b -> (k < length b)%nat -> length x = 512%nat ->
  copy_to (512 * Z.of_nat k) x (concat b) = concat (<[k := x]> b).
Proof.
  induction b as [|y b IH]; intros k x Hb Hk Hx; [cbn in Hk; lia|]. apply Forall_cons in Hb as [Hy Hb]. destruct k as [|k].
  - unfold copy_to. cbn [concat insert list_insert]. rewrite drop_app_length' by lia. done.
  - cbn [concat insert list_insert]. replace (512 * Z.of_nat (S k)) with (Z.of_nat (length y) + 512 * Z.of_nat k) by lia. rewrite copy_to_app by lia.
    f_equal. apply IH; [done|cbn in Hk; lia|done].
Qed.

Lemma slice_0 n (b : list Z) : n = Z.of_nat (length b) -> slice 0 n b = b.
Proof. intros ->. unfold slice. by rewrite Nat2Z.id, drop_0, take_ge by lia. Qed.

Lemma length_slice i n (b : list Z) : 0 <= i -> 0 <= n -> i + n <= Z.of_nat (length b) -> length (slice i n b) = Z.to_nat n.
Proof. intros. unfold slice. rewrite length_take, length_drop. lia. Qed.

Lemma byte_at_slice i n b j : 0 <= i -> 0 <= j < n -> byte_at (slice i n b) j = byte_at b (i + j).
Proof.
  intros Hi Hj. unfold byte_at, slice. rewrite !list_lookup_total_alt. f_equal. rewrite lookup_take_lt by lia. rewrite lookup_drop. f_equal. lia.
Qed.

Lemma map_slice (g : Z -> Z) b a i n : 0 <= i -> 0 <= n -> i + n <= Z.of_nat (length b) -> (forall j, 0 <= j < n -> g (a + j) = byte_at b (i + j)) ->
  slice i n b = map g (seqZ a n).
Proof.
  intros Hi Hn Hl Hg. apply list_eq. intros k. change (map g ?l !! k) with ((g <$> l) !! k). rewrite list_lookup_fmap.
  destruct (decide (Z.of_nat k < n)) as [Hk|Hk].
  - rewrite lookup_seqZ_lt by lia. cbn. rewrite Hg by lia. unfold slice, byte_at. rewrite lookup_take_lt, lookup_drop by lia.
    replace (Z.to_nat (i + Z.of_nat k)) with (Z.to_nat i + k)%nat by lia. apply list_lookup_lookup_total_lt. lia.
  - rewrite lookup_seqZ_ge by lia. cbn. apply lookup_ge_None_2. rewrite length_slice by lia. lia.
Qed.

Lemma near_sector a s n : 0 <= a < 2 ^ 32 -> 0 <= s -> 0 <= n -> s + n < 2 ^ 32 -> (u32 (a - s) <? n) = true <-> s <= a < s + n.
Proof.
  intros Ha Hs Hn Hb. rewrite Z.ltb_lt. destruct (Z_lt_le_dec a s) as [Hlt|Hge].
  - split; [|lia]. unfold wrapu. rewrite <- (Z.mod_add (a - s) 1) by lia. rewrite Z.mod_small by lia. lia.
  - rewrite wrapu_small by (unfold inu; lia). lia.
Qed.

(** ** The steps of an operation *)

Lemma flag_test x k : 0 <= k -> ((x &&& 2 ^ k) =? 0) = negb (Z.testbit x k).
Proof.
  intros Hk. destruct (Z.testbit x k) eqn:E; cbn [negb].
  - apply Z.eqb_neq. intros F. apply (f_equal (fun y => Z.testbit y k)) in F. rewrite Z.land_spec, E, Z.pow2_bits_true, Z.bits_0 in F by lia. discriminate F.
  - apply Z.eqb_eq. apply Z.bits_inj_iff'. intros i Hi. rewrite Z.land_spec, Z.pow2_bits_eqb, Z.bits_0 by lia. destruct (Z.eqb_spec k i) as [<-|]; [by rewrite E|by rewrite andb_false_r].
Qed.

Lemma dirty_bit p : dirty p = Z.testbit (flag p) 6.
Proof. unfold dirty. change FA__DIRTY with (2 ^ 6). by rewrite flag_test, negb_involutive by lia. Qed.

Lemma clear_bit x k i : inu 8 x -> 0 <= k < 8 -> 0 <= i -> Z.testbit (bitand_not 8 x (2 ^ k)) i = Z.testbit x i && negb (i =? k).
Proof.
  intros Hx Hk Hi. rewrite testbit_bitand_not, Z.pow2_bits_eqb by lia. rewrite (Z.eqb_sym k i).
  destruct (Z.ltb_spec i 8); [done|]. by rewrite (testbit_inu 8 x i) by (done || lia).
Qed.

(** What a file object keeps, the dirty flag apart, and how the disk may change below it. *)
Record quiet (f : FATFS) (l : list Z) (p : FIL) (L : sectors) (p' : FIL) (L' : sectors) : Prop := {
  q_same : fil_fs p' = fil_fs p /\ fil_id p' = fil_id p /\ err p' = err p /\ fil_size p' = fil_size p /\ sclust p' = sclust p /\
           dir_sect p' = dir_sect p /\ dir_ptr p' = dir_ptr p;
  q_flag : forall i, 0 <= i -> i <> 6 -> Z.testbit (flag p') i = Z.testbit (flag p) i;
  q_view : forall i, 0 <= i < nsects f l -> view p' L' (fsect f l i) = view p L (fsect f l i);
  q_disk : forall s, ~ in_file f l s -> L' !! s = L !! s;
}.

Lemma quiet_refl f l p L : quiet f l p L p L.
Proof. by constructor. Qed.
Lemma quiet_trans f l p L p1 L1 p2 L2 : quiet f l p L p1 L1 -> quiet f l p1 L1 p2 L2 -> quiet f l p L p2 L2.
Proof.
  intros [S1 F1 V1 D1] [S2 F2 V2 D2]. constructor.
  - decompose [and] S1. decompose [and] S2. split_and!; congruence.
  - intros. by rewrite F2, F1.
  - intros. by rewrite V2, V1.
  - intros. by rewrite D2, D1.
Qed.
Lemma quiet_same f f' l p L p' L' : rest_same f f' -> quiet f' l p L p' L' -> quiet f l p L p' L'.
Proof.
  intros R [S1 F1 V1 D1]. constructor; [done|done| |].
  - intros i Hi. rewrite <- !(fsect_same f f') by done. apply V1. by rewrite (nsects_same f f').
  - intros s Ns. apply D1. intros (i & Hi & Es). apply Ns. exists i. by rewrite <- (nsects_same f f'), <- (fsect_same f f').
Qed.
Lemma quiet_fbyte f l p L p' L' i : geom_ok f -> quiet f l p L p' L' -> 0 <= i < 512 * nsects f l -> fbyte f p' L' l i = fbyte f p L l i.
Proof. intros G Q Hi. unfold fbyte. rewrite (q_view _ _ _ _ _ _ Q); [done|]. split; [apply Z.div_pos; lia|apply Z.div_lt_upper_bound; lia]. Qed.

Lemma fbyte_same f f' p L l i : rest_same f f' -> fbyte f' p L l i = fbyte f p L l i.
Proof. intros R. unfold fbyte. by rewrite (fsect_same f f'). Qed.

Lemma fil_mem_same f f' L l p : rest_same f f' -> fil_mem f L l p -> fil_mem f' L l p.
Proof.
  intros R [O1 O2 O3 O6 O7 O8 O10 O11]. pose proof (nsects_same f f' l R) as En. pose proof (fun i => fsect_same f f' l i R) as Ef.
  assert (Ei : fs_id f' = fs_id f) by apply R. assert (Eda : database f' = database f) by apply R.
  constructor; rewrite ?Ei, ?Eda, ?Ef; try (rewrite En; done); try done. intros Hd. destruct (O7 Hd) as (i & Hi & E). exists i. by rewrite En, Ef.
Qed.
Lemma fil_base_same f f' L l p : rest_same f f' -> fil_base f L l p -> fil_base f' L l p.
Proof. intros R [M P K]. constructor; [by apply (fil_mem_same f)| |]; rewrite ?(nsects_same f f' l R), ?(fsect_same f f' l _ R); done.
Qed.

Lemma fil_ok_same f f' L l p : rest_same f f' -> fil_ok f L l p -> fil_ok f' L l p.
Proof. intros R [O Oc]. split; [by apply (fil_base_same f)|]. replace (csize f') with (csize f) by (symmetry; apply R). done. Qed.

Section Steps.
Context {D : Type} `{BlockLaws D}.
Implicit Types (v : volume D) (p : FIL) (L : sectors) (l : list Z).

Lemma chain_rep_near v v' L l : chain_rep v L l -> vol_rep v' L -> near (fs v) (fs v') -> chain_rep v' L l.
Proof.
  intros C R' [R W]. destruct (chain_all v L l C) as [Al _]. pose proof (fun i Hi => chain_sector v L l i C Hi) as Sc. destruct C as [(G & _) Po Da Ch Wi].
  assert (Ec : csize (fs v') = csize (fs v)) by apply R. assert (Ed : database (fs v') = database (fs v)) by apply R.
  destruct (fat_bounds_same _ _ R) as (_ & _ & En). constructor; [done| | | |].
  - destruct Po as (k & Hk & E). exists k. by rewrite Ec.
  - rewrite Ed, En, Ec. done.
  - destruct Ch as [->|Ch]; [by left|right]. rewrite En. apply (chain_ext (fat_entry (fs v) L)); [|done]. intros c _. by apply fat_entry_same.
  - intros i Hi. rewrite (nsects_same _ _ _ R) in Hi. rewrite (fsect_same _ _ _ _ R). specialize (Wi i Hi). destruct (Sc i Hi) as (_ & _ & _ & _ & Hr & Hr2).
    pose proof (g_data _ G). pose proof (g_fsize _ G). assert (fsize (fs v) <= n_fats (fs v) * fsize (fs v)) by (destruct (g_copies _ G) as [-> | ->]; lia).
    destruct W as [-> | [-> | W]]; [done|lia|lia].
Qed.

(** The buffer is on the drive. *)
Lemma write_back_spec v p L l rb c : chain_rep v L l -> fil_mem (fs v) L l p ->
  returns write_back (Io v p rb c) (fun r s' => r = inr tt /\ exists v' p' L', s' = Io v' p' rb c /\ fs v' = fs v /\ chain_rep v' L' l /\
    fil_mem (fs v) L' l p' /\ quiet (fs v) l p L p' L' /\ dirty p' = false /\ p' = set_flag (flag p') p).
Proof.
  intros C O. unfold write_back. eapply returns_step; [reflexivity|]. cbn [fil]. change (negb ((flag p &&& FA__DIRTY) =? 0)) with (dirty p).
  destruct (dirty p) eqn:Ed.
  2: { apply returns_ret. split; [done|]. exists v, p, L. split_and!; first [done | by destruct p | apply quiet_refl]. }
  destruct (fo_dirty _ _ _ _ O Ed) as (i & Hi & Ei). destruct (fo_buf _ _ _ _ O) as [Lb Bb]. destruct (chain_sector v L l i C Hi) as (b0 & Eb0 & _ & _ & Hr & Hr2).
  destruct (data_write v L (dsect p) [buf p] (ch_vol _ _ _ C)) as (v' & Ew & R' & Ef).
  { rewrite Ei. lia. } { intros s Hs. cbn in Hs. assert (s = dsect p) as -> by lia. rewrite Ei. by exists b0. } { by repeat constructor. } { done. }
  { cbn [length]. rewrite Ei. intros Hw. apply (ch_win _ _ _ C i Hi). lia. }
  cbn [length] in Ew. change (concat [buf p]) with (buf p ++ []) in Ew. rewrite app_nil_r in Ew. change (Z.of_nat 1) with 1 in Ew. change (write_run L (dsect p) [buf p]) with (<[dsect p := buf p]> L) in R'.
  eapply returns_step; [unfold on_vol, zoom; cbn [vol]; rewrite Ew; reflexivity|]. rewrite bool_decide_true by done. cbn [negb].
  eapply returns_step; [reflexivity|]. apply returns_ret. split; [done|]. set (x := bitand_not 8 (flag p) FA__DIRTY). exists v', (set_flag x p), (<[dsect p := buf p]> L).
  cbn [set_vol set_fil vol fil rbuff count]. assert (Hx : forall j, 0 <= j -> Z.testbit x j = Z.testbit (flag p) j && negb (j =? 6)) by (intros; apply (clear_bit _ 6); [apply O|lia|lia]).
  assert (Dx : dirty (set_flag x p) = false) by (rewrite dirty_bit; cbn [flag set_flag]; rewrite Hx by lia; apply andb_false_r).
  assert (Hne : forall s, s <> dsect p -> <[dsect p:=buf p]> L !! s = L !! s) by (intros s Ns; by rewrite lookup_insert_ne).
  split_and!; [done|done| | | |exact Dx|done].
  - apply (chain_rep_disk v v' L); [done|done|done| |].
    + intros s Hs. apply Hne. lia.
    + intros s Hs. destruct (decide (s = dsect p)) as [->|Ns]; [rewrite lookup_insert_eq; eauto|by rewrite Hne].
  - destruct O as [O1 O2 O3 O6 O7 O8 O10 O11]. constructor; try done.
    + rewrite Dx. discriminate.
    + intros _. right. cbn. rewrite lookup_insert_eq. split; [lia|done].
    + cbn. apply inu_bitand_not. lia.
  - constructor; [done| | |].
    + intros j Hj Nj. cbn [flag set_flag]. rewrite Hx by done. rewrite (proj2 (Z.eqb_neq j 6)) by done. apply andb_true_r.
    + intros j Hj. unfold view. rewrite Dx, Ed. cbn [andb]. destruct (Z.eqb_spec (dsect p) (fsect (fs v) l j)) as [<-|Ns]; [by rewrite lookup_insert_eq|]. by rewrite Hne.
    + intros s Ns. apply Hne. intros ->. apply Ns. by exists i.
Qed.

(** A sector comes into the buffer. *)
Lemma fill_buf_spec v p L l rb c i : chain_rep v L l -> 0 <= i < nsects (fs v) l ->
  returns (fill_buf (fsect (fs v) l i)) (Io v p rb c) (fun r s' => r = inr tt /\ exists v' b, s' = Io v' (set_buf b p) rb c /\ fs v' = fs v /\ chain_rep v' L l /\
    L !! fsect (fs v) l i = Some b).
Proof.
  intros C Hi. destruct (chain_sector v L l i C Hi) as (b & Eb & Lb & Bb & Hr & Hr2).
  destruct (data_read v L (fsect (fs v) l i) [b] (ch_vol _ _ _ C)) as (v' & Er & R' & Ef); [lia|by split|done| |].
  { cbn [length]. intros Hw. apply (ch_win _ _ _ C i Hi). lia. }
  cbn [length] in Er. change (concat [b]) with (b ++ []) in Er. rewrite app_nil_r in Er. change (Z.of_nat 1) with 1 in Er.
  unfold fill_buf. eapply returns_step; [unfold on_vol, zoom; cbn [vol]; rewrite Er; reflexivity|]. cbv beta iota. eapply returns_step; [reflexivity|].
  rewrite bool_decide_true by done. cbn [negb]. apply returns_ret. split; [done|]. exists v', b. split_and!; [done|done| |done].
  apply (chain_rep_near v); [done|done|]. rewrite Ef. apply near_refl.
Qed.
End Steps.

(** *** The cluster of the pointer *)

Lemma chain_next ent n l : forall k c, is_chain ent n l -> l !! k = Some c -> ent c = default (ent c) (l !! S k) /\ (l !! S k = None -> n <= ent c).
Proof.
  induction l as [|x l IH]; intros k c C E; [done|]. destruct C as [Hx C]. destruct k as [|k].
  - injection E as ->. destruct l as [|y l]; [by split|]. by split; [apply C|].
  - cbn in E. destruct l as [|y l]; [done|]. destruct C as [_ C]. by apply (IH k c).
Qed.

Definition at_cluster (f : FATFS) (l : list Z) (p : FIL) : Prop := l !! Z.to_nat (fptr p / (512 * csize f)) = Some (clust p).

Section Position.
Context (f : FATFS) (L : sectors) (l : list Z) (p : FIL).
Hypothesis G : geom_ok f.
Hypothesis O : fil_base f L l p.

Lemma pos_div : fptr p / (512 * csize f) = fptr p / 512 / csize f.
Proof. pose proof (g_csize _ G). rewrite Z.div_div by lia. done. Qed.

Lemma pos_decomp : fptr p = 512 * csize f * (fptr p / (512 * csize f)) + 512 * ((fptr p / 512) mod csize f) + fptr p mod 512 /\
  0 <= fptr p / (512 * csize f) /\ 0 <= (fptr p / 512) mod csize f < csize f /\ 0 <= fptr p mod 512 < 512.
Proof.
  pose proof (g_csize _ G). pose proof (fo_pos _ _ _ _ O). rewrite pos_div. pose proof (Z.div_mod (fptr p) 512 ltac:(lia)). pose proof (Z.div_mod (fptr p / 512) (csize f) ltac:(lia)).
  pose proof (Z.mod_pos_bound (fptr p) 512 ltac:(lia)). pose proof (Z.mod_pos_bound (fptr p / 512) (csize f) ltac:(lia)).
  pose proof (Z.div_pos (fptr p) 512). pose proof (Z.div_pos (fptr p / 512) (csize f)). split_and!; nia.
Qed.

Lemma pos_sector : fptr p < 512 * nsects f l -> 0 <= fptr p / 512 < nsects f l.
Proof. pose proof (fo_pos _ _ _ _ O). intros Hp. split; [apply Z.div_pos; lia|apply Z.div_lt_upper_bound; lia]. Qed.

Lemma pos_cluster : fil_ok f L l p -> fptr p mod 512 <> 0 \/ (fptr p / 512) mod csize f <> 0 -> at_cluster f l p.
Proof.
  intros [_ Oc] Hp. pose proof (g_csize _ G). destruct pos_decomp as (Ed & Hq & Hc & Hm). unfold at_cluster.
  rewrite <- Oc by nia. f_equal. f_equal. apply (Z.div_unique _ _ _ (512 * ((fptr p / 512) mod csize f) + fptr p mod 512 - 1)); nia.
Qed.

Lemma pos_moved n : at_cluster f l p -> 0 < n -> 512 * ((fptr p / 512) mod csize f) + fptr p mod 512 + n <= 512 * csize f ->
  l !! Z.to_nat ((fptr p + n - 1) / (512 * csize f)) = Some (clust p).
Proof.
  intros A Hn Hb. destruct pos_decomp as (Ed & Hq & Hc & Hm). rewrite <- A. f_equal. f_equal. symmetry.
  apply (Z.div_unique _ _ _ (512 * ((fptr p / 512) mod csize f) + fptr p mod 512 + n - 1)); nia.
Qed.

Lemma pos_room : fptr p < 512 * nsects f l -> fptr p + (512 * csize f - 512 * ((fptr p / 512) mod csize f) - fptr p mod 512) <= 512 * nsects f l.
Proof.
  intros Hp. pose proof (g_csize _ G). destruct pos_decomp as (Ed & Hq & Hc & Hm). unfold nsects in *.
  assert (fptr p / (512 * csize f) < Z.of_nat (length l)) by (apply Z.div_lt_upper_bound; nia). nia.
Qed.
End Position.

Section Steps.
Context {D : Type} `{BlockLaws D}.
Implicit Types (v : volume D) (p : FIL) (L : sectors) (l : list Z).

Lemma on_vol_near {A} v p rb c (m : ST (volume D) A) P : geom_ok (fs v) -> keeps_near (fs v) m -> returns m v P ->
  returns (on_vol m) (Io v p rb c) (fun r s' => exists v', s' = Io v' p rb c /\ P r v' /\ near (fs v) (fs v')).
Proof. intros G K R. eapply returns_mono; [apply (returns_zoom vol set_vol m (Io v p rb c)), (returns_near v m P G K R)|]. intros r s' (v' & -> & HP). by exists v'. Qed.

Lemma current_sector_spec v p L l rb c : chain_rep v L l -> 0 <= fptr p -> at_cluster (fs v) l p ->
  returns (current_sector ((fptr p / 512) mod csize (fs v))) (Io v p rb c) (fun r s' => r = inr (fsect (fs v) l (fptr p / 512)) /\ s' = Io v p rb c).
Proof.
  intros C Hp A. pose proof (proj1 (ch_vol _ _ _ C)) as G. destruct (chain_all v L l C) as [Al _]. pose proof (g_csize _ G). unfold at_cluster in A.
  assert (Hc : 2 <= clust p < n_fatent (fs v)) by (apply Al; by eapply list_elem_of_lookup_2). pose proof (csect_range _ _ G Hc). pose proof (data_area _ G).
  assert (Eq : fptr p / 512 / csize (fs v) = fptr p / (512 * csize (fs v))) by (rewrite Z.div_div by lia; done).
  unfold current_sector. eapply returns_step; [reflexivity|]. eapply returns_step; [reflexivity|]. cbn [fil vol]. rewrite clust2sect_spec by done.
  rewrite (proj2 (Z.eqb_neq _ 0)) by lia. apply returns_ret. split; [|done]. f_equal. pose proof (Z.mod_pos_bound (fptr p / 512) (csize (fs v)) ltac:(lia)).
  rewrite wrapu_small by (unfold inu; lia). unfold fsect. rewrite Eq, (list_lookup_total_correct _ _ _ A). done.
Qed.

Lemma read_cluster_spec v p L l rb c : chain_rep v L l -> fil_ok (fs v) L l p -> fptr p < 512 * nsects (fs v) l ->
  (fptr p / 512) mod csize (fs v) = 0 -> fptr p mod 512 = 0 ->
  returns read_cluster (Io v p rb c) (fun r s' => r = inr tt /\ exists v' x, s' = Io v' (set_clust x p) rb c /\ rest_same (fs v) (fs v') /\ chain_rep v' L l /\
    at_cluster (fs v) l (set_clust x p)).
Proof.
  intros C [O Oc] Hp Hc Hm. pose proof (proj1 (ch_vol _ _ _ C)) as G. pose proof (g_csize _ G). destruct (chain_all v L l C) as [Al _].
  destruct (pos_decomp (fs v) L l p G O) as (Ed & Hq & _). rewrite Hc, Hm in Ed. pose proof (pos_sector _ _ _ _ O Hp) as Hs.
  destruct (sector_cluster _ l G Al _ Hs) as (Hr & _ & x & Ex & Hx & _). rewrite <- (pos_div _ _ G) in *.
  assert (Hn : n_fatent (fs v) <= 0x0FFFFFF7) by (destruct (g_type _ G) as [(_ & ? & _)|[(_ & ? & _)|(_ & ? & _)]]; lia).
  unfold read_cluster. eapply returns_step; [reflexivity|]. cbn [fil].
  eapply returns_bind with (Q := fun y s' => y = x /\ exists v', s' = Io v' p rb c /\ rest_same (fs v) (fs v') /\ chain_rep v' L l).
  - destruct (Z.eqb_spec (fptr p) 0) as [E0|E0].
    + apply returns_ret. split; [|by exists v]. rewrite (fo_first _ _ _ _ O). rewrite E0 in Ex. destruct l as [|y l']; [done|]. cbn in Ex. by injection Ex as ->.
    + assert (Hq1 : 1 <= fptr p / (512 * csize (fs v))) by nia.
      assert (Eq : (fptr p - 1) / (512 * csize (fs v)) = fptr p / (512 * csize (fs v)) - 1) by (symmetry; apply (Z.div_unique _ _ _ (512 * csize (fs v) - 1)); nia).
      pose proof (Oc ltac:(lia)) as Ec. rewrite Eq in Ec. destruct (ch_chain _ _ _ C) as [->|Ch]; [done|].
      destruct (chain_next _ _ _ _ _ Ch Ec) as [En _]. replace (S (Z.to_nat (fptr p / (512 * csize (fs v)) - 1))) with (Z.to_nat (fptr p / (512 * csize (fs v)))) in En by lia.
      rewrite Ex in En. cbn in En. assert (Hcl : 2 <= clust p < n_fatent (fs v)) by (apply Al; by eapply list_elem_of_lookup_2).
      eapply returns_mono; [apply (on_vol_near v p rb c _ _ G (near_get_fat _ G _) (get_fat_spec v L _ (ch_vol _ _ _ C) Hcl))|].
      cbv beta. intros y s' (v' & -> & (-> & R' & W') & N'). split; [done|]. exists v'. split; [done|]. split; [apply W'|]. by apply (chain_rep_near v).
  - intros y s' (-> & v' & -> & R' & C'). rewrite (proj2 (Z.ltb_ge _ _)), (proj2 (Z.eqb_neq _ _)) by lia. eapply returns_step; [reflexivity|]. apply returns_ret.
    split; [done|]. exists v', x. split_and!; done.
Qed.
End Steps.

Lemma returns_try {S A B} (m : ST S (Z + A)) (k : A -> ST S (Z + B)) s (Q : A -> S -> Prop) P :
  returns m s (fun r s' => exists a, r = inr a /\ Q a s') -> (forall a s', Q a s' -> returns (k a) s' P) -> returns (try_in m k) s P.
Proof. intros Hm Hk. eapply returns_bind; [exact Hm|]. intros r s' (a & -> & HQ). by apply Hk. Qed.

Lemma returns_try_at {S A B} (m : ST S (Z + A)) (k : A -> ST S (Z + B)) s a (Q : S -> Prop) P :
  returns m s (fun r s' => r = inr a /\ Q s') -> (forall s', Q s' -> returns (k a) s' P) -> returns (try_in m k) s P.
Proof. intros Hm Hk. eapply returns_bind; [exact Hm|]. intros r s' (-> & HQ). by apply Hk. Qed.

(** *** Reading *)

Lemma fil_base_move f L l p q : fil_base f L l p -> 0 <= q < 2 ^ 32 -> q <= 512 * nsects f l -> (q mod 512 <> 0 -> dsect p = fsect f l (q / 512)) -> fil_base f L l (set_fptr q p).
Proof. intros [[O1 O2 O3 O6 O7 O8 O10 O11] O4 O9] H1 H2 H3. by constructor. Qed.

(** The sectors [s], ..., [s + n - 1]. *)
Definition blocks (g : Z -> list Z) (s n : Z) : list (list Z) := map (fun k => g (s + k)) (seqZ 0 n).

Lemma length_blocks g s n : length (blocks g s n) = Z.to_nat n.
Proof. unfold blocks. by rewrite length_map, length_seqZ. Qed.

Lemma lookup_blocks g s n k : (k < Z.to_nat n)%nat -> blocks g s n !! k = Some (g (s + Z.of_nat k)).
Proof. intros Hk. unfold blocks. change (map ?h ?l !! k) with ((h <$> l) !! k). rewrite list_lookup_fmap, lookup_seqZ_lt by lia. cbn. by rewrite Z.add_0_l. Qed.

Lemma lookup_blocks_Some g s n k x : blocks g s n !! k = Some x -> (k < Z.to_nat n)%nat /\ x = g (s + Z.of_nat k).
Proof. intros E. pose proof (lookup_lt_Some _ _ _ E) as Hk. rewrite length_blocks in Hk. rewrite lookup_blocks in E by done. by injection E as <-. Qed.

Lemma blocks_ext g h s n : (forall k, s <= k < s + n -> h k = g k) -> blocks h s n = blocks g s n.
Proof. intros E. apply map_ext_in. intros k Hk. apply list_elem_of_In, elem_of_seqZ in Hk. apply E. lia. Qed.

Lemma blocks_insert g h s n d : s <= d < s + n -> (forall k, k <> d -> h k = g k) -> <[Z.to_nat (d - s) := h d]> (blocks g s n) = blocks h s n.
Proof.
  intros Hd E. apply list_eq. intros k. destruct (decide (k < Z.to_nat n)%nat) as [Hk|Hk].
  - rewrite (lookup_blocks h) by done. destruct (decide (k = Z.to_nat (d - s))) as [->|Ne].
    + rewrite list_lookup_insert_eq by (rewrite length_blocks; lia). do 2 f_equal. lia.
    + rewrite list_lookup_insert_ne by done. rewrite lookup_blocks, E by (done || lia). done.
  - rewrite !lookup_ge_None_2; [done|rewrite length_blocks; lia|rewrite length_insert, length_blocks; lia].
Qed.

Section Reading.
Context {D : Type} `{BlockLaws D}.
Implicit Types (v : volume D) (p : FIL) (L : sectors) (l : list Z).

Lemma view_sector v p L l i : chain_rep v L l -> fil_mem (fs v) L l p -> 0 <= i < nsects (fs v) l ->
  length (view p L (fsect (fs v) l i)) = 512%nat /\ Forall (inu 8) (view p L (fsect (fs v) l i)).
Proof.
  intros C O Hi. unfold view. destruct (dirty p && _); [apply O|]. destruct (chain_sector v L l i C Hi) as (b & -> & Lb & Bb & _). by split.
Qed.

Lemma dsect_range v p L l : chain_rep v L l -> fil_mem (fs v) L l p -> dirty p = true -> 0 < dsect p < 0xFFFFFFFF.
Proof. intros C O Hd. destruct (fo_dirty _ _ _ _ O Hd) as (i & Hi & ->). by destruct (chain_sector v L l i C Hi) as (_ & _ & _ & _ & _ & Hr). Qed.

(** The sectors of one cluster, from the [i]-th of the file on. *)
Lemma cluster_run v L l i n : chain_rep v L l -> 0 <= i < nsects (fs v) l -> 0 < n -> i mod csize (fs v) + n <= csize (fs v) ->
  let s := fsect (fs v) l i in
  (forall k, 0 <= k < n -> 0 <= i + k < nsects (fs v) l /\ fsect (fs v) l (i + k) = s + k) /\ database (fs v) <= s /\ 0 < s /\ s + n < 2 ^ 32 /\
  sector_run L s (blocks (fun k => default [] (L !! k)) s n) /\ ~ s <= winsect (fs v) < s + n.
Proof.
  intros C Hi Hn Hc s. pose proof (proj1 (ch_vol _ _ _ C)) as G. destruct (chain_all v L l C) as [Al _].
  assert (Nx : forall k, 0 <= k < n -> 0 <= i + k < nsects (fs v) l /\ fsect (fs v) l (i + k) = s + k).
  { intros k Hk. destruct (fsect_next _ l G Al i k Hi) as (? & ? & _); [lia|lia|]. split; [lia|done]. }
  destruct (chain_sector v L l i C Hi) as (_ & _ & _ & _ & Hr1 & Hr2). fold s in Hr1, Hr2.
  destruct (Nx (n - 1) ltac:(lia)) as [Hk Ek]. destruct (chain_sector v L l _ C Hk) as (_ & _ & _ & _ & _ & Hr3). rewrite Ek in Hr3.
  split; [exact Nx|]. split_and!; [lia|lia|lia| |by apply (chain_window v L l i n)].
  apply sector_run_lookup. intros k x E. apply lookup_blocks_Some in E as [Hkn ->]. destruct (Nx (Z.of_nat k) ltac:(lia)) as [Hk2 <-].
  by destruct (chain_sector v L l _ C Hk2) as (x & -> & _).
Qed.

(** As the file object sees them they are bytes of the file. *)
Lemma cluster_bytes v p L l i n : chain_rep v L l -> fil_mem (fs v) L l p -> 0 <= i < nsects (fs v) l -> 0 < n -> i mod csize (fs v) + n <= csize (fs v) ->
  concat (blocks (view p L) (fsect (fs v) l i) n) = map (fbyte (fs v) p L l) (seqZ (512 * i) (512 * n)).
Proof.
  intros C O Hi Hn Hc. destruct (cluster_run v L l i n C Hi Hn Hc) as (Nx & _). rewrite <- (Z2Nat.id n) at 2 by lia.
  rewrite <- (length_blocks (view p L) (fsect (fs v) l i) n). apply concat_sectors.
  - apply Forall_lookup. intros k x E. apply lookup_blocks_Some in E as [Hk ->]. destruct (Nx (Z.of_nat k) ltac:(lia)) as [Hk2 <-]. by apply view_sector.
  - intros k x j E Hj. apply lookup_blocks_Some in E as [Hk ->]. destruct (Nx (Z.of_nat k) ltac:(lia)) as [_ <-]. unfold fbyte.
    replace ((512 * (i + Z.of_nat k) + j) / 512) with (i + Z.of_nat k) by (apply (Z.div_unique _ _ _ j); lia).
    by replace ((512 * (i + Z.of_nat k) + j) mod 512) with j by (apply (Z.mod_unique _ _ (i + Z.of_nat k)); lia).
Qed.

Lemma read_direct_spec v p L l rb c n : chain_rep v L l -> fil_base (fs v) L l p -> fptr p < 512 * nsects (fs v) l -> fptr p mod 512 = 0 ->
  0 < n -> (fptr p / 512) mod csize (fs v) + n <= csize (fs v) -> c = Z.of_nat (length rb) -> 
  returns (read_direct (fsect (fs v) l (fptr p / 512)) n) (Io v p rb c) (fun r s' => r = inr (512 * n) /\
    exists v', s' = Io v' p (rb ++ map (fbyte (fs v) p L l) (seqZ (fptr p) (512 * n))) c /\ fs v' = fs v /\ chain_rep v' L l).
Proof.
  intros C O Hp Hm Hn Hc Ec. pose proof (pos_sector _ _ _ _ O Hp) as Hi. set (i := fptr p / 512) in *. pose proof (g_csize _ (proj1 (ch_vol _ _ _ C))) as Gz.
  pose proof (Z.mod_pos_bound i (csize (fs v)) ltac:(lia)) as Hmc. set (s := fsect (fs v) l i).
  destruct (cluster_run v L l i n C Hi Hn Hc) as (Nx & Hs1 & Hs2 & Hend & Run & Nw). fold s in Nx, Hs1, Hs2, Hend, Run, Nw. set (b := blocks _ s n) in Run.
  assert (Lb : length b = Z.to_nat n) by apply length_blocks.
  assert (F5 : Forall (fun x : list Z => length x = 512%nat) b).
  { apply Forall_lookup. intros k x E. apply lookup_blocks_Some in E as [Hk ->]. destruct (Nx (Z.of_nat k) ltac:(lia)) as [Hk2 <-].
    by destruct (chain_sector v L l _ C Hk2) as (x & -> & ? & _). }
  destruct (data_read v L s b (ch_vol _ _ _ C)) as (v' & Er & R' & Ef); [lia|done|intros E; rewrite E in Lb; cbn in Lb; lia|by rewrite Lb, Z2Nat.id by lia|].
  rewrite Lb, Z2Nat.id in Er by lia. unfold read_direct. eapply returns_step; [unfold on_vol, zoom; cbn [vol]; rewrite Er; reflexivity|]. cbv beta iota.
  eapply returns_step; [reflexivity|]. rewrite bool_decide_true by done. cbn [negb]. eapply returns_step; [reflexivity|].
  cbn [fil vol set_vol set_rbuff rbuff count]. change (negb ((flag p &&& FA__DIRTY) =? 0)) with (dirty p). rewrite Ec, copy_to_end.
  eapply returns_bind with (Q := fun _ s' => s' = Io v' p (rb ++ concat (blocks (view p L) s n)) (Z.of_nat (length rb))).
  - destruct (dirty p) eqn:Ed; cbn [andb]; [|apply returns_ret; unfold set_rbuff, set_vol; cbn [vol fil rbuff count]; do 3 f_equal; apply blocks_ext; intros k _; unfold view; by rewrite Ed].
    pose proof (dsect_range v p L l C O Ed) as Hd. pose proof (near_sector (dsect p) s n ltac:(lia) ltac:(lia) ltac:(lia) Hend) as Ns.
    destruct (u32 (dsect p - s) <? n) eqn:Et.
    + assert (Hk : s <= dsect p < s + n) by (by apply Ns). clear Ns Et. apply returns_modify. unfold set_rbuff, set_vol. cbn [vol fil rbuff count]. f_equal.
      rewrite (wrapu_small 32 (dsect p - s)) by (unfold inu; lia). change SS with 512. rewrite wrapu_small by (unfold inu; lia).
      rewrite slice_0 by (rewrite (proj1 (fo_buf _ _ _ _ O)); done). rewrite copy_to_app by lia. f_equal.
      replace ((dsect p - s) * 512) with (512 * Z.of_nat (Z.to_nat (dsect p - s))) by lia. rewrite copy_to_sector; [|done|lia|apply O]. f_equal.
      rewrite <- (blocks_insert (fun k => default [] (L !! k)) (view p L) s n (dsect p) Hk); [unfold view; by rewrite Ed, Z.eqb_refl|].
      intros k Nk. unfold view. by rewrite (proj2 (Z.eqb_neq (dsect p) k)), andb_false_r by done.
    + apply returns_ret. unfold set_rbuff, set_vol. cbn [vol fil rbuff count]. do 3 f_equal. apply blocks_ext. intros k Hk. unfold view. rewrite (proj2 (Z.eqb_neq _ _)), andb_false_r; [done|].
      intros E. assert (false = true) by (apply Ns; lia). done.
  - intros _ s' ->. apply returns_ret. change SS with 512. rewrite wrapu_small by (unfold inu; lia). split; [done|]. exists v'.
    pose proof (cluster_bytes v p L l i n C O Hi Hn Hc) as Eb. fold s in Eb. rewrite Eb. replace (512 * i) with (fptr p) by (pose proof (Z.div_mod (fptr p) 512); lia).
    split_and!; [done|done|]. apply (chain_rep_near v); [done|done|]. rewrite Ef. apply near_refl.
Qed.
End Reading.

Section ReadSteps.
Context {D : Type} `{BlockLaws D}.
Implicit Types (v : volume D) (p : FIL) (L : sectors) (l : list Z).

(** The sector [i] is in the buffer. *)
Definition buffered (f : FATFS) L l p (i : Z) : Prop := dsect p = fsect f l i /\ view p L (dsect p) = buf p.

Lemma fil_mem_load v L l p i b : chain_rep v L l -> fil_mem (fs v) L l p -> dirty p = false -> 0 <= i < nsects (fs v) l -> L !! fsect (fs v) l i = Some b ->
  let p' := set_dsect (fsect (fs v) l i) (set_buf b p) in
  fil_mem (fs v) L l p' /\ buffered (fs v) L l p' i /\ quiet (fs v) l p L p' L.
Proof.
  intros C O Hd Hi Eb p'. assert (Hb : length b = 512%nat /\ Forall (inu 8) b) by (destruct (chain_sector v L l i C Hi) as (x & Ex & ? & ? & _); by simplify_eq).
  assert (Hd' : dirty p' = false) by done. destruct O as [O1 O2 O3 O6 O7 O8 O10 O11]. split_and!.
  - constructor; try done.
    + intros F. rewrite Hd' in F. discriminate F.
    + intros _. right. destruct (chain_sector v L l i C Hi) as (_ & _ & _ & _ & Hr & _). split; [cbn; lia|done].
    + cbn. destruct (chain_sector v L l i C Hi) as (_ & _ & _ & _ & _ & Hr). unfold inu. lia.
  - split; [done|]. unfold view. rewrite Hd'. cbn. by rewrite Eb.
  - constructor; [done|done| |done]. intros j Hj. unfold view. by rewrite Hd, Hd'.
Qed.

Lemma buffered_hit v L l p i : chain_rep v L l -> fil_mem (fs v) L l p -> 0 <= i < nsects (fs v) l -> dsect p = fsect (fs v) l i -> buffered (fs v) L l p i.
Proof.
  intros C O Hi Ed. destruct (chain_sector v L l i C Hi) as (b & Eb & _ & _ & _ & Hr). split; [done|]. unfold view. rewrite Z.eqb_refl.
  destruct (dirty p) eqn:E; [done|]. destruct (fo_clean _ _ _ _ O E) as [E0|[_ ->]]; [lia|done].
Qed.

(** Write the buffer back and fill it with sector [i]. *)
Lemma refill v p L l rb c i : chain_rep v L l -> fil_mem (fs v) L l p -> 0 <= i < nsects (fs v) l ->
  let sect := fsect (fs v) l i in
  returns (let? _ := write_back in fill_buf sect) (Io v p rb c) (fun r s' => r = inr tt /\
    exists v' p' L', s' = Io v' p' rb c /\ fs v' = fs v /\ chain_rep v' L' l /\ fil_mem (fs v) L' l (set_dsect sect p') /\
      buffered (fs v) L' l (set_dsect sect p') i /\ quiet (fs v) l p L (set_dsect sect p') L' /\ fptr p' = fptr p /\ clust p' = clust p).
Proof.
  intros C O Hi sect. eapply returns_bind; [by apply (write_back_spec v p L l rb c)|]. intros r s' (-> & v1 & p1 & L1 & -> & F1 & C1 & O1 & Q1 & D1 & P1).
  assert (Hi1 : 0 <= i < nsects (fs v1) l) by (by rewrite F1). unfold sect. rewrite <- F1.
  eapply returns_mono; [by apply (fill_buf_spec v1 p1 L1 l rb c i C1)|]. cbv beta. intros r s' (-> & v2 & b & -> & F2 & C2 & Eb). split; [done|].
  rewrite <- F1 in O1, Q1. destruct (fil_mem_load v1 L1 l p1 i b C1 O1 D1 Hi1 Eb) as (O3 & B3 & Q3).
  exists v2, (set_buf b p1), L1. rewrite F1, F2 in *. split_and!; [done|done|done|exact O3|exact B3|by eapply quiet_trans|by rewrite P1|by rewrite P1].
Qed.

(** [if (fp->dsect != sect)] *)
Lemma load_sector v p L l rb c i : chain_rep v L l -> fil_mem (fs v) L l p -> 0 <= i < nsects (fs v) l ->
  let sect := fsect (fs v) l i in
  returns (if negb (dsect p =? sect) then let? _ := write_back in fill_buf sect else go) (Io v p rb c) (fun r s' => r = inr tt /\
    exists v' p' L', s' = Io v' p' rb c /\ fs v' = fs v /\ chain_rep v' L' l /\ fil_mem (fs v) L' l (set_dsect sect p') /\
      buffered (fs v) L' l (set_dsect sect p') i /\ quiet (fs v) l p L (set_dsect sect p') L' /\ fptr p' = fptr p /\ clust p' = clust p).
Proof.
  intros C O Hi sect. destruct (Z.eqb_spec (dsect p) sect) as [E|E]; cbn [negb]; [|by apply refill].
  apply returns_ret. split; [done|]. exists v, p, L. replace (set_dsect sect p) with p by (rewrite <- E; by destruct p).
  split_and!; first [done|by apply buffered_hit|apply quiet_refl].
Qed.

Lemma read_partial_spec v p L l rb c btr : fil_mem (fs v) L l p -> buffered (fs v) L l p (fptr p / 512) -> 0 < btr -> c = Z.of_nat (length rb) ->
  let n := Z.min btr (512 - fptr p mod 512) in
  returns (read_partial btr) (Io v p rb c) (fun r s' => r = inr n /\ s' = Io v p (rb ++ map (fbyte (fs v) p L l) (seqZ (fptr p) n)) c).
Proof.
  intros O [Ed Ev] Hb Ec n. pose proof (Z.mod_pos_bound (fptr p) 512 ltac:(lia)) as Hm. pose proof (Z.div_mod (fptr p) 512 ltac:(lia)) as Dm.
  unfold read_partial. eapply returns_step; [reflexivity|]. cbn [fil]. change SS with 512. rewrite wrapu_small by (unfold inu; lia).
  replace (if btr <? 512 - fptr p mod 512 then btr else 512 - fptr p mod 512) with n by (unfold n; destruct (Z.ltb_spec btr (512 - fptr p mod 512)); lia).
  eapply returns_step; [reflexivity|]. apply returns_ret. split; [done|]. unfold set_rbuff. cbn [vol fil rbuff count]. f_equal. rewrite Ec, copy_to_end. f_equal.
  apply map_slice; [lia|lia|rewrite (proj1 (fo_buf _ _ _ _ O)); lia|]. intros j Hj. unfold fbyte.
  replace ((fptr p + j) / 512) with (fptr p / 512) by (apply (Z.div_unique _ _ _ (fptr p mod 512 + j)); lia).
  replace ((fptr p + j) mod 512) with (fptr p mod 512 + j) by (apply (Z.mod_unique _ _ (fptr p / 512)); lia). by rewrite <- Ed, Ev.
Qed.

(** What one turn of a loop that moves the pointer by [n] leaves. *)
Definition moved_on v p L l (n : Z) v' p' L' : Prop :=
  rest_same (fs v) (fs v') /\ chain_rep v' L' l /\ fil_ok (fs v') L' l (set_fptr (fptr p + n) p') /\ fptr p' = fptr p /\ quiet (fs v) l p L p' L'.

Lemma moved_in_sector f L l p n : fil_base f L l p -> buffered f L l p (fptr p / 512) -> at_cluster f l p -> geom_ok f -> fptr p < 512 * nsects f l ->
  fptr p + n < 2 ^ 32 -> 0 < n <= 512 - fptr p mod 512 -> fil_ok f L l (set_fptr (fptr p + n) p).
Proof.
  intros O [Ed Ev] A G Hp Hw Hn. pose proof (pos_room f L l p G O Hp) as Hr. destruct (pos_decomp f L l p G O) as (E & Hq & Hc & Hm). pose proof (g_csize _ G).
  split; [|cbn; intros _; apply (pos_moved f L l p G O n A); nia]. pose proof (fo_pos _ _ _ _ O).
  apply fil_base_move; [done|lia|nia|]. intros Hne. rewrite Ed. f_equal. pose proof (Z.div_mod (fptr p) 512 ltac:(lia)).
  destruct (Z.eq_dec n (512 - fptr p mod 512)) as [En|En].
  - exfalso. apply Hne. symmetry. apply (Z.mod_unique _ _ (fptr p / 512 + 1)); lia.
  - apply (Z.div_unique _ _ _ (fptr p mod 512 + n)); lia.
Qed.

(** Whole sectors leave the pointer on a sector boundary. *)
Lemma moved_sectors f L l p n : fil_base f L l p -> at_cluster f l p -> geom_ok f -> fptr p < 512 * nsects f l -> fptr p mod 512 = 0 ->
  fptr p + 512 * n < 2 ^ 32 -> 0 < n -> (fptr p / 512) mod csize f + n <= csize f -> fil_ok f L l (set_fptr (fptr p + 512 * n) p).
Proof.
  intros O A G Hp Hz Hw Hn Hcn. pose proof (pos_room f L l p G O Hp) as Hr. destruct (pos_decomp f L l p G O) as (E & Hq & Hc & Hm). pose proof (g_csize _ G).
  split; [|cbn; intros _; apply (pos_moved f L l p G O (512 * n) A); nia]. pose proof (fo_pos _ _ _ _ O).
  apply fil_base_move; [done|lia|nia|]. intros Hne. exfalso. apply Hne. rewrite Z.mul_comm, Z.mod_add by lia. done.
Qed.

(** The cluster of the pointer is the current one, followed on a boundary. *)
Lemma enter_cluster v p L l rb c : chain_rep v L l -> fil_ok (fs v) L l p -> fptr p < 512 * nsects (fs v) l -> fptr p mod 512 = 0 ->
  returns (if (fptr p / 512) mod csize (fs v) =? 0 then read_cluster else go) (Io v p rb c) (fun r s' => r = inr tt /\
    exists v' x, s' = Io v' (set_clust x p) rb c /\ rest_same (fs v) (fs v') /\ chain_rep v' L l /\ at_cluster (fs v) l (set_clust x p)).
Proof.
  intros C O Hp Hm. destruct (Z.eqb_spec ((fptr p / 512) mod csize (fs v)) 0) as [E|E].
  - by apply (read_cluster_spec v p L l rb c).
  - apply returns_ret. split; [done|]. exists v, (clust p). replace (set_clust (clust p) p) with p by (by destruct p).
    split_and!; [done|done|done|]. apply (pos_cluster _ L); [apply C|apply O|done|by right].
Qed.

Lemma direct_count f q cc : 1 <= csize f <= 128 -> 0 <= q < csize f -> 0 < cc < 2 ^ 24 ->
  (if csize f <? u32 (q + cc) then u32 (csize f - q) else cc) = Z.min cc (csize f - q).
Proof. intros H1 H2 H3. rewrite !wrapu_small by (unfold inu; lia). destruct (Z.ltb_spec (csize f) (q + cc)); lia. Qed.

Lemma read_step_spec v p L l rb c btr : chain_rep v L l -> fil_ok (fs v) L l p -> 0 < btr -> fptr p + btr <= fil_size p -> c = Z.of_nat (length rb) ->
  returns (read_step btr) (Io v p rb c) (fun r s' => exists n v' p' L', r = inr n /\ 0 < n <= btr /\
    s' = Io v' p' (rb ++ map (fbyte (fs v) p L l) (seqZ (fptr p) n)) c /\ moved_on v p L l n v' p' L').
Proof.
  intros C [O Oc] Hb Hsz Ec. pose proof (proj1 (ch_vol _ _ _ C)) as G. pose proof (g_csize _ G) as Gz. pose proof (fo_size _ _ _ _ O) as Os. pose proof (fo_pos _ _ _ _ O) as Op.
  assert (Hp : fptr p < 512 * nsects (fs v) l) by lia. pose proof (pos_sector _ _ _ _ O Hp) as Hi.
  destruct (pos_decomp (fs v) L l p G O) as (Dp & Hq & Hcs & Hms).
  unfold read_step. eapply returns_step; [reflexivity|]. eapply returns_step; [reflexivity|]. cbn [fil vol]. change (fptr p mod SS) with (fptr p mod 512).
  destruct (Z.eqb_spec (fptr p mod 512) 0) as [Hm|Hm].
  - rewrite cluster_offset_mod by (lia || apply C). eapply returns_try_at; [by apply (enter_cluster v p L l rb c)|]. intros s' (v1 & x & -> & R1 & C1 & A1).
    set (p1 := set_clust x p) in *. assert (E1 : csize (fs v1) = csize (fs v)) by apply R1. assert (G1 : geom_ok (fs v1)) by apply C1.
    assert (O1 : fil_base (fs v1) L l p1) by (apply (fil_base_same (fs v)); [done|by destruct O as [[] ? ?]]).
    assert (A1' : at_cluster (fs v1) l p1) by (unfold at_cluster in *; by rewrite E1). pose proof (nsects_same _ _ l R1) as En.
    assert (Hp1 : fptr p1 < 512 * nsects (fs v1) l) by (by rewrite En).
    eapply returns_try_at; [rewrite <- E1; apply (current_sector_spec v1 p1 L l rb c C1 ltac:(cbn; lia) A1')|]. intros s' ->. change (btr / SS) with (btr / 512). destruct (Z.eqb_spec (btr / 512) 0) as [Z0|Z0]; cbn [negb].
    + eapply returns_try_at; [apply (load_sector v1 p1 L l rb _ (fptr p / 512) C1 O1); by rewrite En|].
      intros s' (v2 & p2 & L2 & -> & F2 & C2 & O2 & B2 & Q2 & P2 & P3). set (p3 := set_dsect _ p2) in *. eapply returns_step; [reflexivity|]. unfold set_fil. cbn [vol fil rbuff count]. fold p3.
      change (fptr p1) with (fptr p) in P2. assert (Ep : fptr p3 = fptr p) by done.
      rewrite <- F2 in O2, B2. eapply returns_mono; [apply (read_partial_spec v2 p3 L2 l rb _ btr O2 ltac:(by rewrite Ep) Hb Ec)|]. cbv beta zeta. rewrite Ep, Hm. intros r s' (-> & ->).
      exists (Z.min btr (512 - 0)), v2, p3, L2. split; [done|]. split; [lia|]. split; [f_equal; f_equal; apply map_seqZ_ext; intros j Hj|].
      { rewrite F2, (quiet_fbyte _ _ p1 L) by (done || (rewrite En; lia)). by rewrite (fbyte_same (fs v)). }
      split; [by rewrite F2|]. split; [done|]. split; [|split; [done|by apply (quiet_same _ (fs v1)); [done|]; eapply quiet_trans; [|exact Q2]]].
      rewrite <- Ep. apply moved_in_sector; [constructor; [done|rewrite F2, En, Ep; lia|rewrite Ep; done]|by rewrite Ep| |apply C2|rewrite F2, Ep; lia|lia|rewrite Ep, Hm; lia].
      unfold at_cluster in *. rewrite F2, Ep. cbn [clust p3 set_dsect]. rewrite P3. exact A1'.
    + assert (Hcc : 0 < btr / 512 < 2 ^ 24) by (pose proof (Z.div_pos btr 512); split; [lia|apply Z.div_lt_upper_bound; lia]).
      rewrite (direct_count (fs v)) by lia. set (n := Z.min _ _).
      eapply returns_mono; [apply (read_direct_spec v1 p1 L l rb _ n C1 O1 Hp1 Hm); [lia|rewrite E1; cbn; lia|done]|]. cbv beta. intros r s' (-> & v2 & -> & F2 & C2).
      pose proof (Z.div_mod btr 512 ltac:(lia)). pose proof (Z.mod_pos_bound btr 512 ltac:(lia)).
      exists (512 * n), v2, p1, L. split; [done|]. split; [lia|]. split; [f_equal; f_equal; apply map_seqZ_ext; intros j Hj; by rewrite (fbyte_same (fs v))|].
      split; [by rewrite F2|]. split; [done|]. split; [|done]. rewrite F2. change (fptr p) with (fptr p1).
      apply moved_sectors; [done|done|done|done|done|cbn; lia|lia|rewrite E1; cbn; lia].
  - assert (A : at_cluster (fs v) l p) by (apply (pos_cluster _ L); [done|done|done|by left]).
    assert (B : buffered (fs v) L l p (fptr p / 512)) by (apply buffered_hit; [done|exact O|lia|by apply (fo_cache _ _ _ _ O)]).
    eapply returns_mono; [by apply (read_partial_spec v p L l rb c btr O B)|]. cbv beta zeta. intros r s' (-> & ->). exists (Z.min btr (512 - fptr p mod 512)), v, p, L.
    split; [done|]. split; [lia|]. split; [done|]. split; [done|]. split; [done|]. split; [|split; [done|apply quiet_refl]]. apply moved_in_sector; (done || lia).
Qed.

(** The position moved by [n]; the file is as it was. *)
Definition at_rest v p L l (n : Z) v' p' L' : Prop :=
  rest_same (fs v) (fs v') /\ chain_rep v' L' l /\ fil_ok (fs v') L' l p' /\ fptr p' = fptr p + n /\ quiet (fs v) l p L p' L'.

Lemma quiet_fptr f l p L p' L' q : quiet f l p L p' L' -> quiet f l p L (set_fptr q p') L'.
Proof. intros [S F V E]. by constructor. Qed.

Lemma read_loop_spec k : forall v p L l rb c btr, chain_rep v L l -> fil_ok (fs v) L l p -> 0 <= btr -> fptr p + btr <= fil_size p ->
  c = Z.of_nat (length rb) -> c + btr < 2 ^ 32 -> (Z.to_nat btr < k)%nat ->
  returns (read_loop k btr) (Io v p rb c) (fun r s' => r = FR_OK /\ exists v' p' L',
    s' = Io v' p' (rb ++ map (fbyte (fs v) p L l) (seqZ (fptr p) btr)) (c + btr) /\ at_rest v p L l btr v' p' L').
Proof.
  induction k as [|k IH]; intros v p L l rb c btr C O Hb Hsz Ec Hc Hk; [lia|]. cbn [read_loop]. destruct (Z.eqb_spec btr 0) as [->|Nb].
  - apply returns_ret. split; [done|]. exists v, p, L. cbn. rewrite app_nil_r, Z.add_0_r. split; [done|]. split_and!; [done|done|exact O|lia|apply quiet_refl].
  - eapply returns_bind; [apply (read_step_spec v p L l rb c btr C O); (done || lia)|].
    intros r s' (n & v1 & p1 & L1 & -> & Hn & -> & R1 & C1 & O1 & P1 & Q1). pose proof (proj1 (ch_vol _ _ _ C)) as G.
    destruct (fo_pos _ _ _ _ (proj1 O)) as [Hp _]. destruct (fo_size _ _ _ _ (proj1 O)) as [Hs Hs2].
    eapply returns_step; [reflexivity|]. unfold set_fil, set_count. cbn [fil vol rbuff count]. rewrite P1, !wrapu_small by (unfold inu; lia).
    set (p2 := set_fptr (fptr p + n) p1) in *. assert (Q2 : quiet (fs v) l p L p2 L1) by (by apply quiet_fptr).
    eapply returns_mono; [apply (IH v1 p2 L1 l (rb ++ map (fbyte (fs v) p L l) (seqZ (fptr p) n)) (c + n) (btr - n)); [done|done|lia| |rewrite length_app, length_map, length_seqZ; lia|lia|lia]|].
    { destruct (q_same _ _ _ _ _ _ Q2) as (_ & _ & _ & -> & _). cbn. lia. }
    cbv beta. intros r s' (-> & v3 & p3 & L3 & -> & R3 & C3 & O3 & P3 & Q3). split; [done|]. exists v3, p3, L3. cbn [fptr p2 set_fptr] in *. split.
    + replace (c + n + (btr - n)) with (c + btr) by lia. f_equal. rewrite <- app_assoc. f_equal. replace btr with (n + (btr - n)) at 2 by lia. rewrite map_seqZ_app by lia. f_equal.
      apply map_seqZ_ext. intros j Hj. rewrite (fbyte_same _ _ _ _ _ _ R1). apply quiet_fbyte; [done|done|]. lia.
    + split_and!; [by eapply rest_same_trans|done|exact O3|lia|]. eapply quiet_trans; [exact Q2|]. by apply (quiet_same _ (fs v1)).
Qed.

Lemma validate_spec v p L l rb c : chain_rep v L l -> fil_mem (fs v) L l p -> validate (Io v p rb c) = Ret FR_OK (Io v p rb c).
Proof.
  intros C O. unfold validate, gets. cbn [vol fil]. destruct (fo_open _ _ _ _ O) as (-> & -> & _). pose proof (ch_vol _ _ _ C) as (G & _ & st & Hb & _).
  rewrite (g_drv _ G), Z.eqb_refl. assert (E : (blk_status 0 (dsk v) &&& STA_NOINIT) = 0).
  { pose proof (blk_ready _ _ Hb) as E. rewrite Z.land_lor_distr_r in E. by apply Z.lor_eq_0_iff in E as [? _]. }
  rewrite E. rewrite (proj2 (Z.eqb_neq (fs_type (fs v)) 0)); [done|]. destruct (g_type _ G) as [(-> & _)|[(-> & _)|(-> & _)]]; done.
Qed.

Lemma contents_slice f p L l a n : 0 <= a -> 0 <= n -> a + n <= fil_size p -> map (fbyte f p L l) (seqZ a n) = slice a n (contents f p L l).
Proof.
  intros Ha Hn Hs. unfold contents, slice. replace (fil_size p) with (a + (n + (fil_size p - a - n))) by lia. rewrite !map_seqZ_app by lia. cbn [Z.add].
  rewrite drop_app_length' by (rewrite length_map, length_seqZ; lia). by rewrite take_app_length' by (rewrite length_map, length_seqZ; lia).
Qed.

Lemma contents_length f p L l : length (contents f p L l) = Z.to_nat (fil_size p).
Proof. unfold contents. by rewrite length_map, length_seqZ. Qed.

Lemma quiet_contents v v' p L p' L' l : chain_rep v L l -> fil_mem (fs v) L l p -> rest_same (fs v) (fs v') -> quiet (fs v) l p L p' L' ->
  contents (fs v') p' L' l = contents (fs v) p L l.
Proof.
  intros C O R Q. unfold contents. destruct (q_same _ _ _ _ _ _ Q) as (_ & _ & _ & -> & _). apply map_seqZ_ext. intros j Hj. rewrite (fbyte_same _ _ _ _ _ _ R).
  destruct (fo_size _ _ _ _ O). apply quiet_fbyte; [apply C|done|lia].
Qed.

(** [f_read]: the bytes from the pointer on, as many as asked for and there are. *)
Lemma f_read_spec v p L l btr c0 : file_rep v p L l -> Z.testbit (flag p) 0 = true -> 0 <= btr ->
  let n := Z.min btr (fil_size p - fptr p) in
  returns (f_read btr) (Io v p [] c0) (fun r s' => r = FR_OK /\ exists v' p' L',
    s' = Io v' p' (slice (fptr p) n (contents (fs v) p L l)) n /\ at_rest v p L l n v' p' L').
Proof.
  intros (C & O & Hp) Hf Hb n. destruct (fo_pos _ _ _ _ (proj1 O)) as [Op _]. destruct (fo_size _ _ _ _ (proj1 O)) as [Os _].
  unfold f_read. eapply returns_step; [reflexivity|]. eapply returns_step; [apply (validate_spec v p L l [] 0 C (proj1 O))|]. cbn [Z.eqb negb].
  eapply returns_step; [reflexivity|]. cbn [fil]. destruct (fo_open _ _ _ _ (proj1 O)) as (_ & _ & ->). cbn [Z.eqb negb].
  change FA_READ with (2 ^ 0). rewrite flag_test, Hf by lia. cbn [negb]. rewrite wrapu_small by (unfold inu; lia).
  replace (if fil_size p - fptr p <? btr then fil_size p - fptr p else btr) with n by (unfold n; destruct (Z.ltb_spec (fil_size p - fptr p) btr); lia).
  eapply returns_mono; [apply (read_loop_spec _ v p L l [] 0 n C O); [lia|lia|done|lia|lia]|]. cbv beta. intros r s' (-> & v' & p' & L' & -> & A). split; [done|].
  exists v', p', L'. split; [|exact A]. cbn [app]. by rewrite contents_slice by lia.
Qed.
End ReadSteps.

(** *** Seeking *)
Section Seeking.
Context {D : Type} `{BlockLaws D}.
Implicit Types (v : volume D) (p : FIL) (L : sectors) (l : list Z).

Lemma fat_limit f : geom_ok f -> n_fatent f <= 0x0FFFFFF7.
Proof. intros G. destruct (g_type _ G) as [(_ & ? & _)|[(_ & ? & _)|(_ & ? & _)]]; lia. Qed.

(** The next cluster of the chain, with or without write access. *)
Lemma next_cluster v p L l rb c (w : bool) q x y : chain_rep v L l -> l !! q = Some x -> l !! S q = Some y ->
  returns (on_vol (if w then create_chain x else get_fat x)) (Io v p rb c) (fun r s' => r = y /\ 2 <= y < n_fatent (fs v) /\
    exists v', s' = Io v' p rb c /\ rest_same (fs v) (fs v') /\ chain_rep v' L l).
Proof.
  intros C Ex Ey. pose proof (proj1 (ch_vol _ _ _ C)) as G. destruct (chain_all v L l C) as [Al _]. destruct (ch_chain _ _ _ C) as [->|Ch]; [done|].
  destruct (chain_next _ _ _ _ _ Ch Ex) as [En _]. rewrite Ey in En. cbn in En.
  assert (Hx : 2 <= x < n_fatent (fs v)) by (apply Al; by eapply list_elem_of_lookup_2). assert (Hy : 2 <= y < n_fatent (fs v)) by (apply Al; by eapply list_elem_of_lookup_2).
  assert (Hc : returns (if w then create_chain x else get_fat x) v (fun r v' => r = fat_entry (fs v) L x /\ vol_rep v' L /\ window_moved (fs v) (fs v'))).
  { destruct w; [apply create_chain_follow; [apply C|done|by rewrite En]|apply get_fat_spec; [apply C|done]]. }
  assert (Kn : keeps_near (fs v) (if w then create_chain (D:=D) x else get_fat x)) by (destruct w; [apply near_create, G|apply near_get_fat, G]).
  eapply returns_mono; [apply (on_vol_near v p rb c _ _ G Kn Hc)|].
  cbv beta. intros r s' (v' & -> & (-> & R' & W') & N'). split; [done|]. split; [done|]. exists v'. split; [done|]. split; [apply W'|]. by apply (chain_rep_near v).
Qed.

Lemma seek_loop_spec k : forall v p L l rb c q x ofs, chain_rep v L l -> let B := 512 * csize (fs v) in fptr p = B * Z.of_nat q -> l !! q = Some x -> clust p = x -> 0 < ofs ->
  fptr p + ofs <= 512 * nsects (fs v) l -> fptr p + ofs < 2 ^ 32 -> ofs / B < Z.of_nat k ->
  returns (seek_loop k x ofs B) (Io v p rb c) (fun r s' => exists v' x' ofs' q', r = inr (x', ofs') /\ 0 < ofs' <= B /\ l !! q' = Some x' /\ B * Z.of_nat q' + ofs' = fptr p + ofs /\
    rest_same (fs v) (fs v') /\ chain_rep v' L l /\ s' = Io v' (set_fptr (B * Z.of_nat q') (set_clust x' p)) rb c).
Proof.
  induction k as [|k IH]; intros v p L l rb c q x ofs C B Hp Ex Ecl Ho Hn Hw Hk; pose proof (proj1 (ch_vol _ _ _ C)) as G; pose proof (g_csize _ G) as Gz.
  { pose proof (Z.div_pos ofs B). lia. }
  cbn [seek_loop]. destruct (Z.ltb_spec B ofs) as [Hlt|Hle].
  - assert (Hq : (S q < length l)%nat) by (unfold nsects in Hn; nia). destruct (lookup_lt_is_Some_2 l (S q) Hq) as [y Ey].
    eapply returns_step; [reflexivity|]. eapply returns_step; [reflexivity|]. cbn [fil vol]. set (w := negb _). pose proof (fat_limit _ G).
    eapply returns_bind; [by apply (next_cluster v p L l rb c w q x y)|]. intros r s' (-> & Hy & v1 & -> & R1 & C1).
    rewrite (proj2 (Z.eqb_neq y 0)), andb_false_r, (proj2 (Z.eqb_neq y _)), (proj2 (Z.leb_gt y 1)), (proj2 (Z.leb_gt _ y)) by lia. cbn [orb].
    eapply returns_step; [reflexivity|]. eapply returns_step; [reflexivity|]. unfold set_fil. cbn [vol fil rbuff count set_clust fptr].
    rewrite !wrapu_small by (unfold inu; lia). assert (E1 : csize (fs v1) = csize (fs v)) by apply R1.
    set (p1 := set_fptr (fptr p + B) (set_clust y p)). pose proof (IH v1 p1 L l rb c (S q) y (ofs - B) C1) as IH1. cbv zeta in IH1. rewrite E1 in IH1. fold B in IH1.
    rewrite (nsects_same _ _ _ R1) in IH1. eapply returns_mono; [apply IH1; cbn [fptr p1 set_fptr]; (done || lia || idtac)|].
    { replace (ofs - B) with (ofs + (-1) * B) by lia. rewrite Z.div_add by lia. lia. }
    cbv beta. intros r s' (v2 & x' & ofs' & q' & -> & Ho' & Eq' & Es & R2 & C2 & ->). exists v2, x', ofs', q'. cbn [fptr p1 set_fptr] in Es.
    split_and!; [done|lia|lia|done|lia|by eapply rest_same_trans|done|done].
  - apply returns_ret. exists v, x, ofs, q. split_and!; [done|lia|lia|done|lia|done|done|]. f_equal. rewrite <- Hp, <- Ecl. by destruct p.
Qed.

Lemma cluster_base f a : pow2_csize f -> inu 32 a -> bitand_not 32 a (512 * csize f - 1) = 512 * csize f * (a / (512 * csize f)).
Proof.
  intros (k & Hk & ->) Ha. replace (512 * 2 ^ k) with (2 ^ (9 + k)) by (rewrite Z.pow_add_r by lia; done).
  replace (2 ^ (9 + k) - 1) with (Z.ones (9 + k)) by (rewrite Z.ones_equiv; lia). rewrite (Z.mul_comm (2 ^ _)), <- Z.shiftr_div_pow2, <- Z.shiftl_mul_pow2 by lia.
  apply Z.bits_inj'. intros i Hi. rewrite testbit_bitand_not, testbit_ones by lia. rewrite Z.shiftl_spec by lia. destruct (Z.ltb_spec i (9 + k)).
  - cbn [negb]. rewrite !andb_false_r. by rewrite Z.testbit_neg_r by lia.
  - rewrite Z.shiftr_spec by lia. replace (i - (9 + k) + (9 + k)) with i by lia. cbn [negb]. rewrite andb_true_r. destruct (Z.ltb_spec i 32); [apply andb_true_r|].
    by rewrite (testbit_inu 32 a i) by (done || lia).
Qed.

Lemma seek_start_spec v p L l rb c ofs : chain_rep v L l -> fil_ok (fs v) L l p -> 0 < ofs <= fil_size p -> let B := 512 * csize (fs v) in
  returns (seek_start (fptr p) ofs B) (Io v (set_fptr 0 p) rb c) (fun r s' => exists x ofs' q, r = inr (x, ofs') /\ 0 < ofs' /\ l !! q = Some x /\ B * Z.of_nat q + ofs' = ofs /\
    s' = Io v (set_fptr (B * Z.of_nat q) (set_clust x p)) rb c).
Proof.
  intros C [O Oc] Ho B. pose proof (proj1 (ch_vol _ _ _ C)) as G. pose proof (g_csize _ G) as Gz. destruct (chain_all v L l C) as [Al _].
  destruct (fo_size _ _ _ _ O) as [Os1 Os2]. destruct (fo_pos _ _ _ _ O) as [Op1 Op2]. unfold seek_start. destruct ((0 <? fptr p) && _) eqn:E.
  - apply andb_true_iff in E as [E1 E2]. apply Z.ltb_lt in E1. apply Z.leb_le in E2. unfold B. rewrite cluster_base by (apply C || (unfold inu; lia)). fold B in E2 |- *.
    set (q := (fptr p - 1) / B) in *. assert (Hq : 0 <= q) by (apply Z.div_pos; lia). assert (Hb : B * q < ofs) by (pose proof (Z.mul_div_le (ofs - 1) B); nia).
    eapply returns_step; [reflexivity|]. eapply returns_step; [reflexivity|]. apply returns_ret. unfold set_fil. cbn [vol fil rbuff count clust set_fptr fptr].
    exists (clust p), (ofs - B * q), (Z.to_nat q). rewrite wrapu_small by (unfold inu; nia). rewrite Z2Nat.id by lia. split_and!; [done|lia|by apply Oc|lia|]. by destruct p.
  - clear E. eapply returns_step; [reflexivity|]. cbn [fil sclust set_fptr]. destruct l as [|x l']; [unfold nsects in Os2; cbn in Os2; lia|].
    pose proof (fo_first _ _ _ _ O) as Ef. cbn in Ef. assert (Hx : 2 <= x < n_fatent (fs v)) by (apply Al; apply list_elem_of_here).
    rewrite Ef, (proj2 (Z.eqb_neq x 0)) by lia. eapply returns_step; [reflexivity|]. eapply returns_step; [reflexivity|]. apply returns_ret.
    exists x, ofs, 0%nat. split_and!; [done|lia|done|lia|]. unfold set_fil. cbn. by rewrite Z.mul_0_r.
Qed.

(** The pointer at [ofs], in the file. *)
Lemma seek_to_spec v p L l rb c ofs : chain_rep v L l -> fil_ok (fs v) L l p -> 0 <= ofs <= fil_size p ->
  returns (seek_to (fptr p) ofs) (Io v (set_fptr 0 p) rb c) (fun r s' => exists nsect v' x, r = inr nsect /\ s' = Io v' (set_fptr ofs (set_clust x p)) rb c /\
    rest_same (fs v) (fs v') /\ chain_rep v' L l /\ (ofs mod 512 <> 0 -> nsect = fsect (fs v) l (ofs / 512)) /\
    (0 < ofs -> l !! Z.to_nat ((ofs - 1) / (512 * csize (fs v))) = Some x)).
Proof.
  intros C O Ho. pose proof (proj1 (ch_vol _ _ _ C)) as G. pose proof (g_csize _ G) as Gz. destruct (chain_all v L l C) as [Al _].
  destruct (fo_size _ _ _ _ (proj1 O)) as [Os1 Os2]. unfold seek_to. destruct (Z.eqb_spec ofs 0) as [->|No]; cbn [negb].
  { apply returns_ret. exists 0, v, (clust p). split_and!; [done|by destruct p|done|done|done|lia]. }
  eapply returns_step; [reflexivity|]. cbn [vol]. set (B := 512 * csize (fs v)). replace (u32 (csize (fs v) * SS)) with B by (rewrite wrapu_small by (unfold inu, SS; lia); unfold B, SS; lia).
  eapply returns_bind; [apply (seek_start_spec v p L l rb c ofs C O); lia|]. cbv beta zeta. fold B. intros r s' (x & o & q & -> & Ho1 & Ex & Eo & ->). cbv beta iota.
  assert (Hx : 2 <= x < n_fatent (fs v)) by (apply Al; by eapply list_elem_of_lookup_2). rewrite (proj2 (Z.eqb_neq x 0)) by lia. cbn [negb].
  set (p1 := set_fptr _ _). eapply returns_bind; [apply (seek_loop_spec _ v p1 L l rb c q x o C); [done|done|done|lia|change (fptr p1) with (B * Z.of_nat q); lia|change (fptr p1) with (B * Z.of_nat q); lia|]|].
  { fold B. pose proof (Z.div_pos o B). lia. }
  cbv beta. fold B. intros r s' (v2 & x' & o' & q' & -> & Ho' & Ex' & Es & R2 & C2 & ->). change (fptr p1) with (B * Z.of_nat q) in Es. cbv beta iota.
  eapply returns_step; [reflexivity|]. unfold set_fil. cbn [vol fil rbuff count fptr set_fptr set_clust]. rewrite (wrapu_small 32 (B * Z.of_nat q' + o')) by (unfold inu; lia).
  replace (B * Z.of_nat q' + o') with ofs by lia.
  assert (Hx' : 2 <= x' < n_fatent (fs v)) by (apply Al; by eapply list_elem_of_lookup_2). pose proof (csect_range _ _ G Hx') as Hr. pose proof (data_area _ G) as Hd.
  assert (Hq' : (ofs - 1) / B = Z.of_nat q') by (symmetry; apply (Z.div_unique _ _ _ (o' - 1)); lia).
  assert (Pick : forall nsect, (ofs mod 512 <> 0 -> nsect = fsect (fs v) l (ofs / 512)) -> exists nsect0 v' x0, (inr nsect : Z + Z) = inr nsect0 /\
    Io v2 (set_fptr ofs (set_clust x' p1)) rb c = Io v' (set_fptr ofs (set_clust x0 p)) rb c /\ rest_same (fs v) (fs v') /\ chain_rep v' L l /\
    (ofs mod 512 <> 0 -> nsect0 = fsect (fs v) l (ofs / 512)) /\ (0 < ofs -> l !! Z.to_nat ((ofs - 1) / B) = Some x0)).
  { intros nsect Hn. exists nsect, v2, x'. split_and!; try done. intros _. by rewrite Hq', Nat2Z.id. }
  assert (Em : o' mod SS = ofs mod 512) by (replace ofs with (o' + csize (fs v) * Z.of_nat q' * 512) by lia; by rewrite Z.mod_add by lia). rewrite Em.
  destruct (Z.eqb_spec (ofs mod 512) 0) as [Z0|N0]; cbn [negb]; [by apply returns_ret, Pick|].
  rewrite clust2sect_spec, (proj2 (Z.eqb_neq (csect _ _) 0)) by (done || lia). apply returns_ret, Pick. intros _. change SS with 512.
  assert (Hm : o' mod 512 <> 0) by (change SS with 512 in Em; lia).
  assert (Hlt : o' / 512 < csize (fs v)) by (apply Z.div_lt_upper_bound; [lia|]; assert (o' <> B) by (intros ->; apply Hm; unfold B; rewrite Z.mul_comm; apply Z.mod_mul; lia); lia).
  pose proof (Z.div_pos o' 512). rewrite wrapu_small by (unfold inu; lia). unfold fsect.
  assert (Eq : ofs / 512 = csize (fs v) * Z.of_nat q' + o' / 512) by (replace ofs with (o' + csize (fs v) * Z.of_nat q' * 512) by lia; rewrite Z.div_add by lia; lia).
  rewrite Eq. replace ((csize (fs v) * Z.of_nat q' + o' / 512) / csize (fs v)) with (Z.of_nat q') by (apply (Z.div_unique _ _ _ (o' / 512)); lia).
  replace ((csize (fs v) * Z.of_nat q' + o' / 512) mod csize (fs v)) with (o' / 512) by (apply (Z.mod_unique _ _ (Z.of_nat q')); lia).
  by rewrite Nat2Z.id, (list_lookup_total_correct _ _ _ Ex').
Qed.

(** The buffer follows the pointer. *)
Lemma seek_fill_spec v p L l rb c nsect : chain_rep v L l -> fil_mem (fs v) L l p -> 0 <= fptr p < 2 ^ 32 -> fptr p <= 512 * nsects (fs v) l ->
  (fptr p mod 512 <> 0 -> nsect = fsect (fs v) l (fptr p / 512)) ->
  returns (seek_fill nsect) (Io v p rb c) (fun r s' => r = inr tt /\ exists v' p' L', s' = Io v' p' rb c /\ fs v' = fs v /\ chain_rep v' L' l /\
    fil_base (fs v) L' l p' /\ quiet (fs v) l p L p' L' /\ fptr p' = fptr p /\ clust p' = clust p).
Proof.
  intros C O Hp Hn Hs. unfold seek_fill. eapply returns_step; [reflexivity|]. cbn [fil]. change (fptr p mod SS) with (fptr p mod 512).
  destruct (Z.eqb_spec (fptr p mod 512) 0) as [E|E]; cbn [negb andb].
  { apply returns_ret. split; [done|]. exists v, p, L. split_and!; [done|done|done|by constructor|apply quiet_refl|done|done]. }
  specialize (Hs E). destruct (Z.eqb_spec nsect (dsect p)) as [Ed|Ed]; cbn [negb].
  { apply returns_ret. split; [done|]. exists v, p, L. split_and!; [done|done|done|constructor; [done|done|congruence]|apply quiet_refl|done|done]. }
  assert (Hi : 0 <= fptr p / 512 < nsects (fs v) l).
  { pose proof (Z.div_mod (fptr p) 512 ltac:(lia)). pose proof (Z.mod_pos_bound (fptr p) 512 ltac:(lia)). split; [apply Z.div_pos; lia|apply Z.div_lt_upper_bound; lia]. }
  rewrite Hs. eapply returns_try_at; [by apply (refill v p L l rb c (fptr p / 512))|]. intros s' (v' & p' & L' & -> & F' & C' & O' & B' & Q' & P1 & P2).
  eapply returns_step; [reflexivity|]. apply returns_ret. split; [done|]. exists v', (set_dsect (fsect (fs v) l (fptr p / 512)) p'), L'.
  split_and!; [done|done|done| |done|done|done]. constructor; [done|cbn; by rewrite P1|cbn; by rewrite P1].
Qed.

(** [f_lseek] to a place in the file, or past the end of a file that cannot grow. *)
Lemma f_lseek_spec v p L l rb c ofs : file_rep v p L l -> 0 <= ofs -> ofs <= fil_size p \/ Z.testbit (flag p) 1 = false ->
  returns (f_lseek ofs) (Io v p rb c) (fun r s' => r = FR_OK /\ exists v' p' L', s' = Io v' p' rb c /\
    at_rest v p L l (Z.min ofs (fil_size p) - fptr p) v' p' L').
Proof.
  intros (C & O & Hp) Ho Hf. destruct (fo_size _ _ _ _ (proj1 O)) as [Os1 Os2].
  unfold f_lseek. eapply returns_step; [apply (validate_spec v p L l rb c C (proj1 O))|]. cbn [Z.eqb negb]. eapply returns_step; [reflexivity|]. cbn [fil].
  destruct (fo_open _ _ _ _ (proj1 O)) as (_ & _ & ->). cbn [Z.eqb negb]. change FA_WRITE with (2 ^ 1). rewrite flag_test by lia.
  set (q := Z.min ofs (fil_size p)). replace (if (fil_size p <? ofs) && negb (Z.testbit (flag p) 1) then fil_size p else ofs) with q.
  2: { unfold q. destruct (Z.ltb_spec (fil_size p) ofs); cbn [andb]; [|lia]. destruct Hf as [?| ->]; [lia|]. cbn [negb]. lia. }
  assert (Hq : 0 <= q <= fil_size p) by lia. eapply returns_step; [reflexivity|]. unfold set_fil. cbn [vol fil rbuff count].
  eapply returns_bind with (Q := fun r s' => r = inr tt /\ exists v' p' L', s' = Io v' p' rb c /\ at_rest v p L l (q - fptr p) v' p' L').
  2: { intros r s' (-> & Q). apply returns_ret. split; [done|]. exact Q. }
  eapply returns_bind; [by apply (seek_to_spec v p L l rb c q C O)|]. intros r s' (nsect & v1 & x & -> & -> & R1 & C1 & Hs & Hx). cbv beta iota.
  set (p1 := set_fptr q (set_clust x p)). assert (O1 : fil_mem (fs v1) L l p1) by (apply (fil_mem_same (fs v)); [done|]; destruct (fo_mem _ _ _ _ (proj1 O)); by constructor).
  eapply returns_try_at; [apply (seek_fill_spec v1 p1 L l rb c nsect C1 O1); [cbn; lia|rewrite (nsects_same _ _ _ R1); cbn; lia|rewrite (fsect_same _ _ _ _ R1); exact Hs]|].
  intros s' (v2 & p2 & L2 & -> & F2 & C2 & O2 & Q2 & P2 & P3). eapply returns_step; [reflexivity|]. cbn [fil].
  assert (Ez : fil_size p2 = fil_size p) by apply Q2. change (fptr p1) with q in P2. rewrite P2, Ez, (proj2 (Z.ltb_ge _ _)) by lia. eapply returns_step; [reflexivity|]. apply returns_ret. split; [done|].
  exists v2, p2, L2. split; [done|]. split; [by rewrite F2|]. split; [done|]. split; [|split; [lia|apply (quiet_same _ (fs v1)); [done|]; by destruct Q2; constructor]].
  split; [by rewrite F2|]. rewrite P2, P3, F2. replace (csize (fs v1)) with (csize (fs v)) by (symmetry; apply R1). exact Hx.
Qed.
End Seeking.

(** *** Writing *)

Lemma bind_Ret {S A B} (m : ST S A) (k : A -> ST S B) s b s2 : bind m k s = Ret b s2 -> exists a s1, m s = Ret a s1 /\ k a s1 = Ret b s2.
Proof. unfold bind. destruct (m s) as [a s1| | |] eqn:E; intros F; try discriminate. by exists a, s1. Qed.

(** Invert a run, one statement at a time. *)
Ltac run_inv E :=
  let a := fresh "a" in let s := fresh "s" in let E1 := fresh "E" in
  apply bind_Ret in E as (a & s & E1 & E).

Section Landing.
Context {D : Type} `{BlockDevice D} (f : FATFS).
Hypothesis G : geom_ok f.
Implicit Types v : volume D.

Lemma move_window_at s v v' : move_window s v = Ret FR_OK v' -> winsect (fs v') = s.
Proof.
  unfold move_window. intros E. run_inv E. injection E0 as <- <-. destruct (Z.eqb_spec s (winsect (fs v))) as [Es|Es]; cbn [negb] in E.
  - by injection E as <-.
  - run_inv E. destruct (Z.eqb_spec a FR_OK) as [->|Na]; [|by injection E as ->]. run_inv E. destruct a as [r data]. run_inv E. destruct (bool_decide (r = RES_OK)); cbn [negb] in E.
    + run_inv E. injection E3 as <- <-. by injection E as <-.
    + run_inv E. discriminate E.
Qed.

(** A table sector read successfully is the window. *)
Lemma landed g q v v' : near f g -> 0 <= q < fsize f -> move_window (u32 (fatbase g + q)) v = Ret FR_OK v' -> in_table f (winsect (fs v')).
Proof.
  intros [R _] Hq E. apply move_window_at in E. rewrite E. destruct (fat_bounds_same _ _ R) as (-> & _ & _). pose proof (g_fatbase _ G). pose proof (g_data _ G). pose proof (data_area f G).
  pose proof (g_csize _ G). pose proof (g_clusters _ G). pose proof (g_fsize _ G). assert (fsize f <= n_fats f * fsize f) by (destruct (g_copies _ G) as [-> | ->]; lia).
  unfold in_table. rewrite wrapu_small by (unfold inu; nia). lia.
Qed.

Lemma edit_win_at g v v' u : edit_win g v = Ret u v' -> winsect (fs v') = winsect (fs v).
Proof. unfold edit_win. intros E. run_inv E. injection E0 as <- <-. by injection E as _ <-. Qed.

Lemma put_fat_at c x v v' : near f (fs v) -> put_fat c x v = Ret FR_OK v' -> in_table f (winsect (fs v')).
Proof.
  intros N E. unfold put_fat in E. run_inv E. injection E0 as <- <-. destruct ((c <? 2) || (n_fatent (fs v) <=? c)) eqn:Eg; [discriminate E|].
  destruct (entry_guard f G _ c N Eg) as (Hr & Et & Hb). destruct (entry_in_fat f c G Hr) as (I12 & I16 & I32). destruct (bc_small f G _ c N Eg) as [B1 B2]. cbv zeta in E. rewrite B2 in E.
  pose proof (Z.div_pos c 2). rewrite Et in E. destruct (Z.eqb_spec (fs_type f) FS_FAT12) as [T|_].
  { specialize (I12 T). run_inv E. destruct (Z.eqb_spec a FR_OK) as [->|Na]; cbn [negb] in E; [|by injection E as ->]. run_inv E. run_inv E.
    destruct (Z.eqb_spec a0 FR_OK) as [->|Na]; cbn [negb] in E; [|by injection E as ->]. run_inv E. injection E as <-. apply edit_win_at in E3. rewrite E3. eapply landed; [exact N| |exact E2].
    change SS with 512. split; [apply Z.div_pos; lia|apply Z.div_lt_upper_bound; lia]. }
  destruct (Z.eqb_spec (fs_type f) FS_FAT16) as [T|_].
  { specialize (I16 T). run_inv E. destruct (Z.eqb_spec a FR_OK) as [->|Na]; cbn [negb] in E; [|by injection E as ->]. run_inv E. injection E as <-. apply edit_win_at in E1. rewrite E1.
    eapply landed; [exact N| |exact E0]. change (SS / 2) with 256. split; [apply Z.div_pos; lia|apply Z.div_lt_upper_bound; lia]. }
  destruct (Z.eqb_spec (fs_type f) FS_FAT32) as [T|_]; [|discriminate E].
  specialize (I32 T). run_inv E. destruct (Z.eqb_spec a FR_OK) as [->|Na]; cbn [negb] in E; [|by injection E as ->]. run_inv E. injection E as <-. apply edit_win_at in E1. rewrite E1.
  eapply landed; [exact N| |exact E0]. change (SS / 4) with 128. split; [apply Z.div_pos; lia|apply Z.div_lt_upper_bound; lia].
Qed.

Lemma count_free_at k v v' u : count_free k v = Ret u v' -> winsect (fs v') = winsect (fs v).
Proof.
  unfold count_free. intros E. run_inv E. injection E0 as <- <-. destruct (negb _); [|by injection E as _ <-]. run_inv E. injection E0 as <- <-. by injection E as _ <-.
Qed.

Lemma find_free_err n : forall s c v v' r, find_free n s c v = Ret (inl r) v' -> r = 0 \/ r = 1 \/ r = 0xFFFFFFFF.
Proof.
  induction n as [|n IH]; intros s c v v' r E; [discriminate E|]. cbn [find_free] in E. run_inv E. destruct (_ && _); [injection E as <- _; by left|].
  run_inv E. destruct (a0 =? 0); [discriminate E|]. destruct (Z.eqb_spec a0 0xFFFFFFFF) as [->|_]; [injection E as <- _; tauto|].
  destruct (Z.eqb_spec a0 1) as [->|_]; cbn [orb] in E; [injection E as <- _; tauto|]. destruct (_ =? s); [injection E as <- _; by left|]. by eapply IH.
Qed.

(** A cluster taken leaves the window in the table. *)
Lemma create_from_at c s v v' r : near f (fs v) -> create_from c s v = Ret r v' -> 2 <= r -> r <> 0xFFFFFFFF -> in_table f (winsect (fs v')).
Proof.
  intros N E Hr Nr. unfold create_from in E. run_inv E. injection E0 as <- <-. run_inv E. destruct a as [x|k].
  { apply find_free_err in E0. injection E as -> ->. lia. }
  assert (N1 : near f (fs s0)) by (eapply near_find; [exact G|exact N|exact E0]). run_inv E. run_inv E. destruct (Z.eqb_spec a0 FR_OK) as [->|Na].
  2: { injection E as <- <-. destruct (a0 =? FR_DISK_ERR); lia. }
  run_inv E. injection E3 as <- <-. run_inv E. injection E as <- <-. apply count_free_at in E3. rewrite E3. cbn.
  destruct (Z.eqb_spec a FR_OK) as [->|Na]; cbn [andb] in E2; [|by injection E2 as ->]. destruct (negb _).
  - eapply put_fat_at; [|exact E2]. eapply near_put_fat; [exact G|exact N1|exact E1].
  - injection E2 as <-. by eapply put_fat_at.
Qed.
End Landing.

(** No entry holds the number 1, which no cluster has. *)
Definition sane (f : FATFS) (L : sectors) : Prop := forall c, 2 <= c < n_fatent f -> fat_entry f L c <> 1.
Definition full (f : FATFS) (L : sectors) : Prop := forall c, 2 <= c < n_fatent f -> fat_entry f L c <> 0.

(** What writing to the file on [l] may change: the file takes free clusters; other entries
    and other sectors are as before. *)
Record wrote (f : FATFS) (L : sectors) (l : list Z) (L' : sectors) (l' : list Z) : Prop := {
  w_more : exists k, l' = l ++ k /\ forall c, c ∈ k -> fat_entry f L c = 0;
  w_fat : forall c, 2 <= c < n_fatent f -> c ∉ l' -> fat_entry f L' c = fat_entry f L c;
  w_disk : forall s, ~ in_table f s -> ~ in_file f l' s -> L' !! s = L !! s;
}.

Lemma in_file_app f l k s : geom_ok f -> in_file f l s -> in_file f (l ++ k) s.
Proof.
  intros G (i & Hi & ->). exists i. rewrite fsect_app by done. split; [|done]. pose proof (g_csize _ G). unfold nsects in *. rewrite length_app. nia.
Qed.

Lemma wrote_refl f L l : wrote f L l L l.
Proof. constructor; [|done|done]. exists []. rewrite app_nil_r. split; [done|]. intros c Hc. by apply elem_of_nil in Hc. Qed.

Lemma wrote_trans f L l L1 l1 L2 l2 : geom_ok f -> NoDup l2 -> all_clusters f l2 -> wrote f L l L1 l1 -> wrote f L1 l1 L2 l2 -> wrote f L l L2 l2.
Proof.
  intros G Nd Al [(k1 & -> & F1) A1 D1] [(k2 & -> & F2) A2 D2]. assert (N1 : forall c, c ∉ (l ++ k1) ++ k2 -> c ∉ l ++ k1) by (intros c Hc Hi; apply Hc, elem_of_app; by left).
  constructor.
  - exists (k1 ++ k2). rewrite app_assoc. split; [done|]. intros c Hc. apply elem_of_app in Hc as [Hc|Hc]; [by apply F1|].
    rewrite <- A1; [by apply F2|apply Al, elem_of_app; by right|]. apply NoDup_app in Nd as (_ & Nd & _). intros Hi. by apply (Nd c).
  - intros c Hc Ni. rewrite A2, A1 by auto. done.
  - intros s Ns Ni. rewrite D2 by done. apply D1; [done|]. intros Hi. apply Ni. by apply in_file_app.
Qed.

Lemma wrote_same f f' L l L' l' : rest_same f f' -> wrote f' L l L' l' -> wrote f L l L' l'.
Proof.
  intros R [M A E]. destruct (fat_bounds_same _ _ R) as (Eb & Es & En). assert (Ee : forall M c, fat_entry f' M c = fat_entry f M c) by (intros; by apply fat_entry_same).
  constructor.
  - destruct M as (k & -> & F). exists k. split; [done|]. intros c Hc. rewrite <- Ee. by apply F.
  - intros c Hc Ni. rewrite <- !Ee. apply A; [by rewrite En|done].
  - intros s Ns Ni. apply E; [unfold in_table in *; by rewrite Eb, Es|]. intros (i & Hi & Ei). apply Ni. exists i. by rewrite <- (nsects_same f f'), <- (fsect_same f f').
Qed.

Section Growing.
Context {D : Type} `{BlockLaws D}.
Implicit Types (v : volume D) (p : FIL) (L : sectors) (l : list Z).

Lemma create_chain_at f c v v' r : geom_ok f -> near f (fs v) -> create_chain c v = Ret r v' -> 2 <= r -> r <> 0xFFFFFFFF ->
  in_table f (winsect (fs v')) \/ get_fat c v = Ret r v'.
Proof.
  intros G N E Hr Nr. unfold create_chain in E. run_inv E. injection E0 as <- <-. destruct (c =? 0); [left; by eapply create_from_at|].
  run_inv E. destruct (Z.ltb_spec a 2); [injection E as <- _; lia|]. destruct (Z.eqb_spec a 0xFFFFFFFF) as [->|_]; [injection E as <- _; lia|].
  destruct (a <? n_fatent (fs v)); [injection E as <- <-; by right|]. left. eapply create_from_at; [exact G| |exact E|done|done]. eapply near_get_fat; [exact G|exact N|exact E0].
Qed.

(** A longer chain. *)
Lemma chain_rep_grow v v' L L' l c k : chain_rep v L l -> vol_rep v' L' -> near (fs v) (fs v') -> in_table (fs v) (winsect (fs v')) -> taken (fs v) L L' c k ->
  l = [] /\ c = 0 \/ (exists l0, l = l0 ++ [c]) -> chain_rep v' L' (l ++ [k]).
Proof.
  intros C R' [R _] W T Hl. destruct (chain_all v L l C) as [Al _]. destruct C as [(G & _) Po Da Ch _]. assert (G' : geom_ok (fs v')) by apply R'.
  assert (Ec : csize (fs v') = csize (fs v)) by apply R. assert (Ed : database (fs v') = database (fs v)) by apply R. destruct (fat_bounds_same _ _ R) as (Eb & Es & En).
  pose proof T as (Hk & E0 & Ek & Ekc & Eo & Os). pose proof (g_data _ G). pose proof (g_fsize _ G).
  assert (Hfs : fsize (fs v) <= n_fats (fs v) * fsize (fs v)) by (destruct (g_copies _ G) as [-> | ->]; lia).
  assert (Ch' : is_chain (fat_entry (fs v) L') (n_fatent (fs v)) (l ++ [k])).
  { destruct Hl as [(-> & ->)|(l0 & ->)]; [by split|]. destruct Ch as [Ch|Ch]; [by destruct l0|]. rewrite <- app_assoc. apply (chain_grows _ L); [|done|done].
    apply Al, elem_of_app. right. apply list_elem_of_here. }
  constructor; [done| | | |].
  - destruct Po as (j & Hj & E). exists j. by rewrite Ec.
  - rewrite Ed, En, Ec. intros s Hs. rewrite Os by lia. by apply Da.
  - right. rewrite En. apply (chain_ext (fat_entry (fs v) L')); [|done]. intros x _. by apply fat_entry_same.
  - intros i Hi Ei. apply chain_clusters in Ch'. assert (Al' : all_clusters (fs v') (l ++ [k])) by (intros x Hx; rewrite En; by apply Ch').
    pose proof (fsect_range _ _ G' Al' i Hi). unfold in_table in W. rewrite Ei in W. lia.
Qed.

Lemma wrote_taken f L L' l c k : taken f L L' c k -> l = [] /\ c = 0 \/ (exists l0, l = l0 ++ [c]) -> wrote f L l L' (l ++ [k]).
Proof.
  intros (Hk & E0 & Ek & Ekc & Eo & Os) Hl. constructor.
  - exists [k]. split; [done|]. intros x Hx. by apply list_elem_of_singleton in Hx as ->.
  - intros x Hx Ni. apply not_elem_of_app in Ni as [N1 N2]. apply Eo; [lia|by intros ->; apply N2, list_elem_of_here|].
    intros ->. destruct Hl as [(_ & ->)|(l0 & ->)]; [lia|]. apply N1, elem_of_app. right. apply list_elem_of_here.
  - intros s Ns _. by apply Os.
Qed.

Lemma sane_taken f L L' c k : sane f L -> taken f L L' c k -> c = 0 \/ 2 <= c < n_fatent f -> sane f L'.
Proof.
  intros Sa (Hk & E0 & Ek & Ekc & Eo & Os) Hc x Hx. destruct (decide (x = k)) as [->|Nk]; [lia|]. destruct (decide (x = c)) as [->|Nc]; [rewrite Ekc; lia|].
  rewrite Eo by (done || lia). by apply Sa.
Qed.

(** The file takes a cluster, or the volume is full. *)
Definition grew v L l (r : Z) v' : Prop :=
  rest_same (fs v) (fs v') /\
  ((exists L', chain_rep v' L' (l ++ [r]) /\ wrote (fs v) L l L' (l ++ [r]) /\ same_outside_fat (fs v) L L' /\ sane (fs v) L' /\ 2 <= r < n_fatent (fs v)) \/
   r = 0 /\ chain_rep v' L l /\ full (fs v) L).

Lemma grow_chain v p L l rb cn c : chain_rep v L l -> sane (fs v) L -> l = [] /\ c = 0 /\ 3 <= n_fatent (fs v) /\ 0 <= last_clust (fs v) \/ (exists l0, l = l0 ++ [c]) ->
  returns (on_vol (create_chain c)) (Io v p rb cn) (fun r s' => exists v', s' = Io v' p rb cn /\ grew v L l r v').
Proof.
  intros C Sa Hl. pose proof (proj1 (ch_vol _ _ _ C)) as G. destruct (chain_all v L l C) as [Al _]. pose proof (fat_limit _ G) as Hlim.
  assert (Hl' : l = [] /\ c = 0 \/ (exists l0, l = l0 ++ [c])) by tauto.
  assert (Hc : c <> 0 -> 2 <= c < n_fatent (fs v) /\ n_fatent (fs v) <= fat_entry (fs v) L c).
  { intros Nc. destruct Hl' as [(_ & ->)|(l0 & El)]; [done|]. destruct (ch_chain _ _ _ C) as [->|Ch]; [by destruct l0|]. rewrite El in Ch. apply chain_suffix in Ch. exact Ch. }
  assert (Hc0 : c = 0 \/ 2 <= c < n_fatent (fs v)) by (destruct (Z.eq_dec c 0) as [->|Nc]; [by left|right; by apply Hc]).
  assert (Hr : returns (create_chain c) v (created v L c)).
  { destruct (Z.eq_dec c 0) as [->|Nc]; [|by apply create_chain_stretch; [apply C|apply Hc..]]. destruct Hl as [(_ & _ & H1 & H2)|(l0 & ->)]; [by apply create_chain_new; [apply C|..]|].
    exfalso. assert (2 <= 0 < n_fatent (fs v)) by (apply Al, elem_of_app; right; apply list_elem_of_here). lia. }
  destruct Hr as (r & v' & E & R' & Cr). exists r, (Io v' p rb cn). split; [unfold on_vol, zoom; cbn [vol]; by rewrite E|]. exists v'. split; [done|]. split; [done|].
  assert (N' : near (fs v) (fs v')) by (eapply near_create; [exact G|apply near_refl|exact E]).
  destruct Cr as [(L' & V' & T & _)|[(-> & V' & F)|(-> & _ & k & Hk & E1)]]; [|right; split; [done|]; split; [by apply (chain_rep_near v)|exact F]|by destruct (Sa k Hk)].
  left. pose proof T as (Hk & E0 & _ & _ & _ & Os). exists L'.
  assert (W : in_table (fs v) (winsect (fs v'))).
  { destruct (create_chain_at _ _ _ _ _ G (near_refl _) E) as [W|Eg]; [lia|lia|done|]. exfalso. destruct Hc0 as [->|Hc2].
    - unfold get_fat, get_fs in Eg. cbn in Eg. injection Eg as <- _. lia.
    - destruct (get_fat_spec v L c (ch_vol _ _ _ C) Hc2) as (x & v1 & Ex & -> & _). rewrite Eg in Ex. injection Ex as -> _. pose proof (Hc ltac:(lia)). lia. }
  split_and!; [by apply (chain_rep_grow v v' L L' l c)|by apply (wrote_taken _ _ _ _ c)|done|by apply (sane_taken _ L _ c r)|lia|lia].
Qed.
End Growing.

Lemma file_not_table f l s : geom_ok f -> all_clusters f l -> in_file f l s -> ~ in_table f s.
Proof.
  intros G Al (i & Hi & ->) Ht. pose proof (fsect_range f l G Al i Hi). pose proof (g_data _ G). pose proof (g_fsize _ G). unfold in_table in Ht.
  assert (fsize f <= n_fats f * fsize f) by (destruct (g_copies _ G) as [-> | ->]; lia). lia.
Qed.

Lemma nsects_app f l k : nsects f (l ++ k) = nsects f l + nsects f k.
Proof. unfold nsects. rewrite length_app. lia. Qed.
Lemma nsects_pos f l : geom_ok f -> 0 <= nsects f l.
Proof. intros G. pose proof (g_csize _ G). unfold nsects. lia. Qed.

Lemma fbyte_grow f p L L' l k i : geom_ok f -> all_clusters f l -> same_outside_fat f L L' -> 0 <= i < 512 * nsects f l -> fbyte f p L' (l ++ k) i = fbyte f p L l i.
Proof.
  intros G Al Os Hi. assert (Hq : 0 <= i / 512 < nsects f l) by (split; [apply Z.div_pos; lia|apply Z.div_lt_upper_bound; lia]).
  unfold fbyte, view. rewrite fsect_app by done. rewrite Os; [done|]. apply (file_not_table f l _ G Al). by exists (i / 512).
Qed.

(** The file object on the longer chain; the first cluster of an empty file is its start. *)
Lemma fil_mem_grow f L L' l k p : geom_ok f -> fil_mem f L l p -> same_outside_fat f L L' -> fil_mem f L' (l ++ [k]) (set_sclust (default k (head l)) p).
Proof.
  intros G [O1 O2 O3 O6 O7 O8 O10 O11] Os. pose proof (nsects_app f l [k]) as En. pose proof (nsects_pos f [k] G). constructor; try done.
  - by destruct l.
  - cbn [fil_size set_sclust]. lia.
  - intros Hd. destruct (O7 Hd) as (i & Hi & E). exists i. split; [lia|]. by rewrite fsect_app.
  - intros Hd. destruct (O8 Hd) as [E|[Hs E]]; [by left|right]. split; [done|]. cbn. rewrite Os; [done|]. pose proof (g_data _ G). pose proof (g_fsize _ G).
    assert (fsize f <= n_fats f * fsize f) by (destruct (g_copies _ G) as [-> | ->]; lia). lia.
Qed.

Lemma fil_mem_clust f L l p x : fil_mem f L l p -> fil_mem f L l (set_clust x p).
Proof. intros [O1 O2 O3 O6 O7 O8 O10 O11]. by constructor. Qed.

Section Writing.
Context {D : Type} `{BlockLaws D}.
Implicit Types (v : volume D) (p : FIL) (L : sectors) (l : list Z).

(** What entering a cluster for writing leaves: the file may have one cluster more. *)
Definition entered v p L l v' p' L' l' : Prop :=
  rest_same (fs v) (fs v') /\ chain_rep v' L' l' /\ fil_mem (fs v) L' l' p' /\ at_cluster (fs v) l' p' /\ fptr p < 512 * nsects (fs v) l' /\
  wrote (fs v) L l L' l' /\ same_outside_fat (fs v) L L' /\ sane (fs v) L' /\ p' = set_clust (clust p') (set_sclust (sclust p') p).

Lemma entered_same v v' p L l x : chain_rep v L l -> chain_rep v' L l -> rest_same (fs v) (fs v') -> fil_mem (fs v) L l p -> sane (fs v) L ->
  0 <= fptr p -> l !! Z.to_nat (fptr p / (512 * csize (fs v))) = Some x -> entered v p L l v' (set_clust x p) L l.
Proof.
  intros C C' R O Sa Hp Ex. pose proof (proj1 (ch_vol _ _ _ C)) as G. pose proof (g_csize _ G). split_and!; first [done|by apply fil_mem_clust|apply wrote_refl|by destruct p|idtac].
  apply lookup_lt_Some in Ex. unfold nsects. pose proof (Z.div_pos (fptr p) (512 * csize (fs v))).
  pose proof (Z.div_mod (fptr p) (512 * csize (fs v)) ltac:(lia)). pose proof (Z.mod_pos_bound (fptr p) (512 * csize (fs v)) ltac:(lia)). nia.
Qed.

Lemma entered_new v v' p L L' l r : chain_rep v L l -> fil_mem (fs v) L l p -> rest_same (fs v) (fs v') -> chain_rep v' L' (l ++ [r]) -> wrote (fs v) L l L' (l ++ [r]) ->
  same_outside_fat (fs v) L L' -> sane (fs v) L' -> fptr p = 512 * nsects (fs v) l -> entered v p L l v' (set_clust r (set_sclust (default r (head l)) p)) L' (l ++ [r]).
Proof.
  intros C O R C' W Os Sa Hp. pose proof (proj1 (ch_vol _ _ _ C)) as G. pose proof (g_csize _ G).
  split_and!; first [done|by apply fil_mem_clust, (fil_mem_grow _ L)|idtac].
  - unfold at_cluster. cbn [fptr clust set_clust set_sclust]. rewrite Hp. unfold nsects. replace (512 * (Z.of_nat (length l) * csize (fs v))) with (Z.of_nat (length l) * (512 * csize (fs v))) by lia.
    rewrite Z.div_mul, Nat2Z.id by lia. by rewrite lookup_app_r, Nat.sub_diag by lia.
  - rewrite nsects_app. unfold nsects at 2. cbn [length]. lia.
Qed.

Lemma write_cluster_spec v p L l rb c : chain_rep v L l -> fil_ok (fs v) L l p -> sane (fs v) L -> (l = [] -> 3 <= n_fatent (fs v) /\ 0 <= last_clust (fs v)) ->
  (fptr p / 512) mod csize (fs v) = 0 -> fptr p mod 512 = 0 ->
  returns write_cluster (Io v p rb c) (fun r s' =>
    (r = inr true /\ exists v' p' L' l', s' = Io v' p' rb c /\ entered v p L l v' p' L' l') \/
    (r = inr false /\ exists v', s' = Io v' p rb c /\ rest_same (fs v) (fs v') /\ chain_rep v' L l /\ full (fs v) L /\ fptr p = 512 * nsects (fs v) l)).
Proof.
  intros C [O Oc] Sa Hroom Hc Hm. pose proof (proj1 (ch_vol _ _ _ C)) as G. pose proof (g_csize _ G) as Gz. destruct (chain_all v L l C) as [Al _].
  destruct (pos_decomp (fs v) L l p G O) as (Ed & Hq & _). rewrite Hc, Hm in Ed. pose proof (fo_pos _ _ _ _ O) as [Op1 Op2]. pose proof (fat_limit _ G) as Hlim.
  set (B := 512 * csize (fs v)) in *. unfold write_cluster. eapply returns_step; [reflexivity|]. cbn [fil].
  assert (Done : forall x v', 2 <= x < n_fatent (fs v) -> (exists L' l', entered v p L l v' (set_clust x (if sclust p =? 0 then set_sclust x p else p)) L' l') ->
    returns (if x =? 0 then ret (inr false) else if x =? 1 then abort FR_INT_ERR else if x =? 0xFFFFFFFF then abort FR_DISK_ERR
      else upd_fil (set_clust x) ;; (if sclust p =? 0 then upd_fil (set_sclust x) else ret tt) ;; ret (inr true)) (Io v' p rb c) (fun r s' =>
      (r = inr true /\ exists v' p' L' l', s' = Io v' p' rb c /\ entered v p L l v' p' L' l') \/
      (r = inr false /\ exists v', s' = Io v' p rb c /\ rest_same (fs v) (fs v') /\ chain_rep v' L l /\ full (fs v) L /\ fptr p = 512 * nsects (fs v) l))).
  { intros x v' Hx (L' & l' & E). rewrite !(fun y Hy => proj2 (Z.eqb_neq x y) Hy) by lia. eapply returns_step; [reflexivity|].
    eapply returns_bind with (Q := fun _ s' => s' = Io v' (set_clust x (if sclust p =? 0 then set_sclust x p else p)) rb c).
    - destruct (sclust p =? 0); [by apply returns_modify|by apply returns_ret].
    - intros _ s' ->. apply returns_ret. left. split; [done|]. exists v', (set_clust x (if sclust p =? 0 then set_sclust x p else p)), L', l'. done. }
  destruct (decide (fptr p = 512 * nsects (fs v) l)) as [Eend|Nend].
  - (* past the last cluster *)
    assert (Grow : returns (if fptr p =? 0 then if sclust p =? 0 then on_vol (create_chain 0) else ret (sclust p) else on_vol (create_chain (clust p))) (Io v p rb c)
      (fun r s' => exists v', s' = Io v' p rb c /\ grew v L l r v')).
    { destruct l as [|x0 l0] eqn:El.
      - rewrite (fo_first _ _ _ _ O). unfold nsects in Eend. cbn in Eend. rewrite Eend. cbn [Z.eqb head default]. apply grow_chain; [done|done|]. left. destruct (Hroom eq_refl). done.
      - rewrite <- El in *. assert (Hl : (0 < length l)%nat) by (rewrite El; cbn; lia). rewrite (proj2 (Z.eqb_neq (fptr p) 0)) by (unfold nsects in Eend; nia).
        apply grow_chain; [done|done|right]. unfold nsects in Eend. specialize (Oc ltac:(nia)).
        replace ((fptr p - 1) / B) with (Z.of_nat (length l) - 1) in Oc by (apply (Z.div_unique _ _ _ (B - 1)); unfold B; nia).
        replace (Z.to_nat (Z.of_nat (length l) - 1)) with (pred (length l)) in Oc by lia. rewrite <- last_lookup in Oc. by apply last_Some in Oc. }
    eapply returns_bind; [exact Grow|]. intros r s' (v' & -> & R' & [(L' & C' & W & Os & Sa' & Hr)|(-> & C' & F)]).
    + apply Done; [done|]. exists L', (l ++ [r]). pose proof (entered_new v v' p L L' l r C O R' C' W Os Sa' Eend) as En.
      destruct l as [|x0 l0]; pose proof (fo_first _ _ _ _ O) as Ef; cbn in Ef; rewrite Ef; [done|].
      assert (2 <= x0 < n_fatent (fs v)) by (apply Al, list_elem_of_here). rewrite (proj2 (Z.eqb_neq x0 0)) by lia.
      change (default r (head (x0 :: l0))) with x0 in En. replace (set_sclust x0 p) with p in En by (rewrite <- Ef; by destruct p). done.
    + cbn [Z.eqb]. apply returns_ret. right. split; [done|]. by exists v'.
  - (* a cluster of the file *)
    assert (Hp : fptr p < 512 * nsects (fs v) l) by lia. pose proof (pos_sector _ _ _ _ O Hp) as Hs. destruct (sector_cluster _ l G Al _ Hs) as (Hr & _ & x & Ex & Hx & _).
    rewrite <- (pos_div _ _ G) in *. fold B in Ex, Hr. assert (Hl0 : sclust p <> 0).
    { rewrite (fo_first _ _ _ _ O). destruct l as [|y l0]; [done|]. cbn. assert (2 <= y < n_fatent (fs v)) by (apply Al, list_elem_of_here). lia. }
    eapply returns_bind with (Q := fun r s' => r = x /\ exists v', s' = Io v' p rb c /\ rest_same (fs v) (fs v') /\ chain_rep v' L l).
    + destruct (Z.eqb_spec (fptr p) 0) as [E0|E0].
      * rewrite (proj2 (Z.eqb_neq _ _)) by done. apply returns_ret. split; [|by exists v]. rewrite (fo_first _ _ _ _ O). rewrite E0 in Ex. destruct l as [|y l0]; [done|]. cbn in Ex. by injection Ex as ->.
      * assert (Hq1 : 1 <= fptr p / B) by nia. specialize (Oc ltac:(lia)).
        assert (HB : 0 < B) by (unfold B; lia). replace ((fptr p - 1) / B) with (fptr p / B - 1) in Oc by (apply (Z.div_unique _ _ _ (B - 1)); lia).
        replace (Z.to_nat (fptr p / B)) with (S (Z.to_nat (fptr p / B - 1))) in Ex by lia.
        eapply returns_mono; [apply (next_cluster v p L l rb c true _ _ _ C Oc Ex)|]. cbv beta. intros r s' (-> & _ & v' & -> & R' & C'). split; [done|]. by exists v'.
    + intros r s' (-> & v' & -> & R' & C'). apply Done; [done|]. exists L, l. rewrite (proj2 (Z.eqb_neq _ _)) by done. apply entered_same; first [done|exact O|lia].
Qed.

(** Sectors of the file alone changed. *)
Lemma file_only f L L' l : geom_ok f -> all_clusters f l -> (forall s, ~ in_file f l s -> L' !! s = L !! s) ->
  wrote f L l L' l /\ (forall c, 2 <= c < n_fatent f -> fat_entry f L' c = fat_entry f L c) /\ (sane f L -> sane f L').
Proof.
  intros G Al Es. assert (Ee : forall c, 2 <= c < n_fatent f -> fat_entry f L' c = fat_entry f L c).
  { intros c Hc. apply fat_entry_ext; [|done|done]. intros s Hs. apply Es. intros (i & Hi & ->). pose proof (fsect_range f l G Al i Hi). lia. }
  split_and!; [|done|intros Sa c Hc; rewrite Ee by done; by apply Sa]. constructor; [exists []; rewrite app_nil_r; split; [done|intros c Hc; by apply elem_of_nil in Hc]| |].
  - intros c Hc _. by apply Ee.
  - intros s _ Ni. by apply Es.
Qed.

(** The bytes [w] from [a] on, [n] of them, over the others. *)
Definition overlay (w : list Z) (a n : Z) (g : Z -> Z) (i : Z) : Z := if (a <=? i) && (i <? a + n) then byte_at w (i - a) else g i.

Lemma data_blocks w s n : 0 < n -> 512 * n <= Z.of_nat (length w) -> Forall (inu 8) w ->
  let b := blocks (fun k => slice (512 * (k - s)) 512 w) s n in blocks_ok b /\ concat b = slice 0 (512 * n) w.
Proof.
  intros Hn Hw Bw b. assert (Bk : forall k x, b !! k = Some x -> (k < Z.to_nat n)%nat /\ x = slice (512 * Z.of_nat k) 512 w).
  { intros k x E. apply lookup_blocks_Some in E as [Hk ->]. split; [done|]. f_equal. lia. }
  assert (Ok : blocks_ok b).
  { apply Forall_lookup. intros k x E. apply Bk in E as [Hk ->]. split; [by rewrite length_slice by lia|]. by apply Forall_take, Forall_drop. }
  split; [exact Ok|]. rewrite (map_slice (byte_at w) w 0 0 (512 * n)) by (done || lia). rewrite (concat_sectors (byte_at w) b 0); [unfold b; rewrite length_blocks; do 2 f_equal; lia| |].
  - eapply Forall_impl; [exact Ok|]. by intros x [? _].
  - intros k x j E Hj. apply Bk in E as [Hk ->]. rewrite byte_at_slice by lia; f_equal; lia.
Qed.

Lemma write_direct_spec v p L l rb c w n : chain_rep v L l -> fil_mem (fs v) L l p -> dirty p = false -> 0 <= fptr p < 512 * nsects (fs v) l -> fptr p mod 512 = 0 ->
  0 < n -> (fptr p / 512) mod csize (fs v) + n <= csize (fs v) -> 512 * n <= Z.of_nat (length w) -> Forall (inu 8) w ->
  returns (write_direct w (fsect (fs v) l (fptr p / 512)) n) (Io v p rb c) (fun r s' => r = inr (512 * n) /\ exists v' p' L', s' = Io v' p' rb c /\ fs v' = fs v /\
    chain_rep v' L' l /\ fil_mem (fs v) L' l p' /\ p' = set_flag (flag p') (set_buf (buf p') p) /\ (forall i, 0 <= i -> i <> 6 -> Z.testbit (flag p') i = Z.testbit (flag p) i) /\
    (forall s, ~ in_file (fs v) l s -> L' !! s = L !! s) /\
    (forall j, 0 <= j < 512 * nsects (fs v) l -> fbyte (fs v) p' L' l j = overlay w (fptr p) (512 * n) (fbyte (fs v) p L l) j)).
Proof.
  intros C O Hd Hp Hm Hn Hc Hw Bw. pose proof (proj1 (ch_vol _ _ _ C)) as G. destruct (chain_all v L l C) as [Al Nd]. pose proof (g_csize _ G) as Gz.
  set (i := fptr p / 512) in *. assert (Hi : 0 <= i < nsects (fs v) l) by (split; [apply Z.div_pos; lia|apply Z.div_lt_upper_bound; lia]).
  assert (Ei : fptr p = 512 * i) by (pose proof (Z.div_mod (fptr p) 512); lia). set (s := fsect (fs v) l i).
  destruct (cluster_run v L l i n C Hi Hn Hc) as (Nx & Hs1 & Hs2 & Hend & _ & Nw). fold s in Nx, Hs1, Hs2, Hend, Nw.
  destruct (data_blocks w s n Hn Hw Bw) as [Bo Eb]. set (b := blocks _ s n) in Bo, Eb. assert (Lb : length b = Z.to_nat n) by apply length_blocks.
  pose proof (Z.mod_pos_bound i (csize (fs v)) ltac:(lia)) as Hmc.
  destruct (data_write v L s b (ch_vol _ _ _ C)) as (v' & Ew & R' & Ef); [lia| |done|intros E; rewrite E in Lb; cbn in Lb; lia|by rewrite Lb, Z2Nat.id by lia|].
  { intros x Hx. rewrite Lb, Z2Nat.id in Hx by lia. destruct (Nx (x - s) ltac:(lia)) as [Hk Ek]. replace (s + (x - s)) with x in Ek by lia. rewrite <- Ek.
    destruct (chain_sector v L l _ C Hk) as (y & -> & _). eauto. }
  rewrite Lb, Z2Nat.id, Eb in Ew by lia. set (L' := write_run L s b) in *.
  assert (In : forall k, 0 <= k < n -> L' !! (s + k) = Some (slice (512 * k) 512 w)).
  { intros k Hk. unfold L'. rewrite <- (Z2Nat.id k) at 1 by lia. apply write_run_at. unfold b. rewrite lookup_blocks by lia. do 2 f_equal. lia. }
  assert (Out : forall x, ~ s <= x < s + n -> L' !! x = L !! x) by (intros x Hx; apply write_run_other; rewrite Lb, Z2Nat.id by lia; done).
  assert (Same : forall x, ~ in_file (fs v) l x -> L' !! x = L !! x).
  { intros x Ni. apply Out. intros Hx. apply Ni. destruct (Nx (x - s) ltac:(lia)) as [Hk Ek]. exists (i + (x - s)). rewrite Ek. split; [done|lia]. }
  set (hit := u32 (dsect p - s) <? n). pose proof (near_sector (dsect p) s n (fo_dsect _ _ _ _ O) ltac:(lia) ltac:(lia) Hend) as Nh. fold hit in Nh.
  set (p' := if hit then set_flag (bitand_not 8 (flag p) FA__DIRTY) (set_buf (slice (u32 (u32 (dsect p - s) * SS)) SS w) p) else p).
  assert (Fl : forall j, 0 <= j -> Z.testbit (flag p') j = Z.testbit (flag p) j && (if hit then negb (j =? 6) else true)).
  { intros j Hj. unfold p'. destruct hit; [apply (clear_bit _ 6); [apply O|lia|lia]|by rewrite andb_true_r]. }
  assert (Hd' : dirty p' = false) by (rewrite dirty_bit, Fl, <- dirty_bit, Hd by lia; done).
  assert (Ed : dsect p' = dsect p) by (unfold p'; by destruct hit).
  assert (Hbuf : hit = true -> buf p' = slice (512 * (dsect p - s)) 512 w).
  { intros Hh. pose proof (proj1 Nh Hh). unfold p'. rewrite Hh. cbn [buf set_flag set_buf]. change SS with 512. rewrite (wrapu_small 32 (dsect p - s)), wrapu_small by (unfold inu; lia). f_equal. lia. }
  unfold write_direct. change (SS * n) with (512 * n). eapply returns_step; [unfold on_vol, zoom; cbn [vol]; rewrite Ew; reflexivity|]. rewrite bool_decide_true by done. cbn [negb].
  eapply returns_step; [reflexivity|]. cbn [fil set_vol]. fold hit. eapply returns_bind with (Q := fun _ s' => s' = Io v' p' rb c).
  { unfold p'. destruct hit; [by exists tt; eexists|by apply returns_ret]. }
  intros _ s' ->. apply returns_ret. change (SS * n) with (512 * n). rewrite wrapu_small by (unfold inu; lia). split; [done|]. exists v', p', L'. split; [done|]. split; [done|]. split.
  { apply (chain_rep_disk v v' L); [done|done|done| |]; intros x Hx; [apply Out; lia|]. destruct (decide (s <= x < s + n)) as [Hxs|Hxs]; [|by rewrite Out].
    replace x with (s + (x - s)) by lia. rewrite In by lia. eauto. }
  split.
  { destruct O as [O1 O2 O3 O6 O7 O8 O10 O11]. constructor; try (unfold p'; by destruct hit).
    - unfold p'. destruct hit eqn:Eh; [|done]. cbn [buf set_flag set_buf]. specialize (Hbuf eq_refl). unfold p' in Hbuf. cbn [buf set_flag set_buf] in Hbuf. rewrite Hbuf. pose proof (proj1 Nh eq_refl).
      split; [by rewrite length_slice by lia|by apply Forall_take, Forall_drop].
    - rewrite Hd'. discriminate.
    - intros _. rewrite Ed. destruct hit eqn:Eh.
      + right. pose proof (proj1 Nh eq_refl). split; [lia|]. rewrite (Hbuf eq_refl). replace (dsect p) with (s + (dsect p - s)) at 1 by lia. apply In. lia.
      + destruct (O8 Hd) as [E|[E1 E2]]; [by left|right]. split; [done|]. replace (buf p') with (buf p) by done. rewrite Out; [done|]. intros Hx. assert (false = true) by by apply Nh. done.
    - unfold p'. destruct hit; [|done]. cbn. apply inu_bitand_not. lia. }
  split; [unfold p'; destruct hit; by destruct p|]. split; [intros j Hj Nj; rewrite Fl by done; destruct hit; [by rewrite (proj2 (Z.eqb_neq j 6)), andb_true_r by done|apply andb_true_r]|].
  split; [exact Same|]. intros j Hj. assert (Hq : 0 <= j / 512 < nsects (fs v) l) by (split; [apply Z.div_pos; lia|apply Z.div_lt_upper_bound; lia]).
  pose proof (Z.div_mod j 512 ltac:(lia)) as Dj. pose proof (Z.mod_pos_bound j 512 ltac:(lia)) as Mj. unfold overlay, fbyte, view. rewrite Hd, Hd'. cbn [andb].
  destruct (Z.leb_spec (fptr p) j); destruct (Z.ltb_spec j (fptr p + 512 * n)); cbn [andb].
  2, 3, 4: rewrite Out; [done|]; intros Hx; destruct (Nx (fsect (fs v) l (j / 512) - s) ltac:(lia)) as [Hk Ek];
    assert (Eq : j / 512 = i + (fsect (fs v) l (j / 512) - s)) by (apply (fsect_inj (fs v) l G Al); (done || lia)); lia.
  destruct (Nx (j / 512 - i) ltac:(lia)) as [_ Ek]. replace (i + (j / 512 - i)) with (j / 512) in Ek by lia. rewrite Ek, In by lia. cbn [default from_option id].
  rewrite byte_at_slice by lia; f_equal; lia.
Qed.

Definition dirtied p : FIL := set_flag (flag p ||| FA__DIRTY) p.

Lemma dirtied_bit p i : 0 <= i -> Z.testbit (flag (dirtied p)) i = Z.testbit (flag p) i || (i =? 6).
Proof. intros Hi. cbn [flag dirtied set_flag]. change FA__DIRTY with (2 ^ 6). rewrite Z.lor_spec, Z.pow2_bits_eqb by lia. by rewrite (Z.eqb_sym 6 i). Qed.
Lemma dirtied_dirty p : dirty (dirtied p) = true.
Proof. rewrite dirty_bit, dirtied_bit by lia. apply orb_true_r. Qed.

(** A buffer for sector [i] that is about to be changed. *)
Lemma fil_mem_dirtied v L l p i b : chain_rep v L l -> fil_mem (fs v) L l p -> 0 <= i < nsects (fs v) l -> length b = 512%nat -> Forall (inu 8) b ->
  fil_mem (fs v) L l (dirtied (set_dsect (fsect (fs v) l i) (set_buf b p))).
Proof.
  intros C [O1 O2 O3 O6 O7 O8 O10 O11] Hi Lb Bb. destruct (chain_sector v L l i C Hi) as (_ & _ & _ & _ & _ & Hr). constructor; try done.
  - intros _. by exists i.
  - rewrite dirtied_dirty. discriminate.
  - cbn. apply lor_range; [lia|done|]. unfold FA__DIRTY, inu. lia.
  - unfold inu. cbn. lia.
Qed.

Lemma byte_at_copy a x b j : 0 <= a -> a + Z.of_nat (length x) <= Z.of_nat (length b) -> 0 <= j ->
  byte_at (copy_to a x b) j = if (a <=? j) && (j <? a + Z.of_nat (length x)) then byte_at x (j - a) else byte_at b j.
Proof.
  intros Ha Hx Hj. unfold byte_at, copy_to. rewrite !list_lookup_total_alt. destruct (Z.leb_spec a j); destruct (Z.ltb_spec j (a + Z.of_nat (length x))); cbn [andb]; f_equal.
  - rewrite lookup_app_r by (rewrite length_take; lia). rewrite length_take. rewrite lookup_app_l by lia. f_equal. lia.
  - rewrite lookup_app_r by (rewrite length_take; lia). rewrite length_take. rewrite lookup_app_r by lia. rewrite lookup_drop. f_equal. lia.
  - rewrite lookup_app_l by (rewrite length_take; lia). by rewrite lookup_take_lt by lia.
  - lia.
Qed.

Lemma copy_to_bytes a x b : 0 <= a -> a + Z.of_nat (length x) <= Z.of_nat (length b) -> Forall (inu 8) x -> Forall (inu 8) b ->
  length (copy_to a x b) = length b /\ Forall (inu 8) (copy_to a x b).
Proof.
  intros Ha Hx Bx Bb. unfold copy_to. split; [rewrite !length_app, length_take, length_drop; lia|].
  apply Forall_app. split; [by apply Forall_take|]. apply Forall_app. split; [done|by apply Forall_drop].
Qed.

Lemma write_partial_spec v p L l rb c w btw : chain_rep v L l -> fil_mem (fs v) L l (dirtied p) -> 0 <= fptr p -> 0 <= fptr p / 512 < nsects (fs v) l ->
  dsect p = fsect (fs v) l (fptr p / 512) -> 0 < btw <= Z.of_nat (length w) -> Forall (inu 8) w ->
  let n := Z.min btw (512 - fptr p mod 512) in
  returns (write_partial w btw) (Io v p rb c) (fun r s' => r = inr n /\ exists p', s' = Io v p' rb c /\ fil_mem (fs v) L l p' /\ dirty p' = true /\
    p' = set_flag (flag p') (set_buf (buf p') p) /\ (forall i, 0 <= i -> i <> 6 -> Z.testbit (flag p') i = Z.testbit (flag p) i) /\
    (forall j, 0 <= j < 512 * nsects (fs v) l -> fbyte (fs v) p' L l j = overlay w (fptr p) n (fbyte (fs v) (dirtied p) L l) j)).
Proof.
  intros C O Hp Hi Ed Hb Bw n. destruct (chain_all v L l C) as [Al Nd]. pose proof (proj1 (ch_vol _ _ _ C)) as G.
  pose proof (Z.mod_pos_bound (fptr p) 512 ltac:(lia)) as Hm. pose proof (Z.div_mod (fptr p) 512 ltac:(lia)) as Dm. destruct (fo_buf _ _ _ _ O) as [Lb Bb]. cbn in Lb, Bb.
  unfold write_partial. eapply returns_step; [reflexivity|]. cbn [fil]. change SS with 512. rewrite wrapu_small by (unfold inu; lia).
  replace (if btw <? 512 - fptr p mod 512 then btw else 512 - fptr p mod 512) with n by (unfold n; destruct (Z.ltb_spec btw (512 - fptr p mod 512)); lia).
  eapply returns_step; [reflexivity|]. eapply returns_step; [reflexivity|]. apply returns_ret. split; [done|]. unfold set_fil. cbn [vol fil rbuff count].
  assert (Ls : length (slice 0 n w) = Z.to_nat n) by (rewrite length_slice by lia; done). set (b := copy_to (fptr p mod 512) (slice 0 n w) (buf p)).
  destruct (copy_to_bytes (fptr p mod 512) (slice 0 n w) (buf p)) as [Lb' Bb']; [lia|rewrite Ls; lia|by apply Forall_take, Forall_drop|done|]. fold b in Lb', Bb'.
  exists (dirtied (set_buf b p)). split; [done|]. split_and!.
  - destruct O as [O1 O2 O3 O6 O7 O8 O10 O11]. constructor; try done; [split; [exact (eq_trans Lb' Lb)|done]|]. rewrite dirtied_dirty. discriminate.
  - apply dirtied_dirty.
  - by destruct p.
  - intros i Hi0 Ni. rewrite dirtied_bit by done. by rewrite (proj2 (Z.eqb_neq i 6)), orb_false_r by done.
  - intros j Hj. pose proof (Z.div_mod j 512 ltac:(lia)) as Dj. pose proof (Z.mod_pos_bound j 512 ltac:(lia)) as Mj.
    assert (Hq : 0 <= j / 512 < nsects (fs v) l) by (split; [apply Z.div_pos; lia|apply Z.div_lt_upper_bound; lia]).
    unfold overlay, fbyte, view. rewrite !dirtied_dirty. cbn [andb dsect dirtied set_flag set_buf buf]. rewrite Ed.
    destruct (Z.eqb_spec (fsect (fs v) l (fptr p / 512)) (fsect (fs v) l (j / 512))) as [E|E].
    + apply (fsect_inj (fs v) l G Al) in E; [|done|done|done]. unfold b. rewrite byte_at_copy by (rewrite ?Ls; lia). rewrite Ls, Z2Nat.id by lia.
      destruct (Z.leb_spec (fptr p mod 512) (j mod 512)), (Z.ltb_spec (j mod 512) (fptr p mod 512 + n)), (Z.leb_spec (fptr p) j), (Z.ltb_spec j (fptr p + n)); cbn [andb]; try lia; try done.
      rewrite byte_at_slice by lia. f_equal. lia.
    + destruct (Z.leb_spec (fptr p) j), (Z.ltb_spec j (fptr p + n)); cbn [andb]; try done. exfalso. apply E. f_equal. apply (Z.div_unique _ _ _ (j - 512 * (fptr p / 512))); lia.
Qed.

(** What a file object keeps while it is written. *)
Definition kept p p' : Prop :=
  fil_fs p' = fil_fs p /\ fil_id p' = fil_id p /\ err p' = err p /\ fil_size p' = fil_size p /\ dir_sect p' = dir_sect p /\ dir_ptr p' = dir_ptr p /\
  forall i, 0 <= i -> i <> 6 -> Z.testbit (flag p') i = Z.testbit (flag p) i.

Lemma kept_fil_trans p p1 p2 : kept p p1 -> kept p1 p2 -> kept p p2.
Proof. intros (A1 & A2 & A3 & A4 & A5 & A6 & A7) (B1 & B2 & B3 & B4 & B5 & B6 & B7). split_and!; try congruence. intros. by rewrite B7, A7. Qed.

Lemma kept_quiet f l p L p' L' : quiet f l p L p' L' -> kept p p'.
Proof. intros [(S1 & S2 & S3 & S4 & S5 & S6 & S7) F _ _]. by split_and!. Qed.

(** What a turn of the loop leaves: [n] bytes of [w] are in the file. *)
Definition wrote_on v p L l w (n : Z) v' p' L' l' : Prop :=
  rest_same (fs v) (fs v') /\ chain_rep v' L' l' /\ fil_ok (fs v') L' l' (set_fptr (fptr p + n) p') /\ fptr p' = fptr p /\ wrote (fs v) L l L' l' /\ sane (fs v) L' /\ kept p p' /\
  forall j, 0 <= j < Z.max (fil_size p) (fptr p + n) -> fbyte (fs v) p' L' l' j = overlay w (fptr p) n (fbyte (fs v) p L l) j.

Lemma fbyte_buffer v L l p i b j : chain_rep v L l -> dirty p = false -> 0 <= i < nsects (fs v) l -> 0 <= j < 512 * nsects (fs v) l ->
  fbyte (fs v) (dirtied (set_dsect (fsect (fs v) l i) (set_buf b p))) L l j = if j / 512 =? i then byte_at b (j mod 512) else fbyte (fs v) p L l j.
Proof.
  intros C Hd Hi Hj. destruct (chain_all v L l C) as [Al Nd]. pose proof (proj1 (ch_vol _ _ _ C)) as G.
  assert (Hq : 0 <= j / 512 < nsects (fs v) l) by (split; [apply Z.div_pos; lia|apply Z.div_lt_upper_bound; lia]).
  unfold fbyte, view. rewrite dirtied_dirty, Hd. cbn [andb dsect dirtied set_flag set_dsect set_buf buf].
  destruct (Z.eqb_spec (fsect (fs v) l i) (fsect (fs v) l (j / 512))) as [E|E].
  - apply (fsect_inj (fs v) l G Al) in E; [|done|done|done]. by rewrite (proj2 (Z.eqb_eq _ _)) by done.
  - rewrite (proj2 (Z.eqb_neq _ _)); [done|]. intros F. apply E. by rewrite F.
Qed.

Lemma fbyte_dirtied f p L l j : view p L (dsect p) = buf p -> fbyte f (dirtied p) L l j = fbyte f p L l j.
Proof.
  intros Ev. unfold fbyte. f_equal. unfold view in *. rewrite dirtied_dirty. cbn [andb dsect dirtied set_flag buf]. destruct (Z.eqb_spec (dsect p) (fsect f l (j / 512))) as [<-|N].
  - rewrite Z.eqb_refl in Ev. by rewrite Ev.
  - by rewrite andb_false_r.
Qed.

(** A partial write into the sector of the pointer. *)
Lemma write_in_sector v p L l rb c w btw : chain_rep v L l -> fil_mem (fs v) L l (dirtied p) -> 0 <= fptr p -> at_cluster (fs v) l p -> fptr p < 512 * nsects (fs v) l ->
  dsect p = fsect (fs v) l (fptr p / 512) -> 0 < btw <= Z.of_nat (length w) -> fptr p + btw < 2 ^ 32 -> Forall (inu 8) w ->
  returns (let? wcnt := write_partial w btw in ret (inr (Some wcnt))) (Io v p rb c) (fun r s' => exists n p', r = inr (Some n) /\ 0 < n <= btw /\ s' = Io v p' rb c /\
    n <= 512 - fptr p mod 512 /\ fil_ok (fs v) L l (set_fptr (fptr p + n) p') /\ fptr p' = fptr p /\ sclust p' = sclust p /\ kept p p' /\
    (forall j, 0 <= j < 512 * nsects (fs v) l -> fbyte (fs v) p' L l j = overlay w (fptr p) n (fbyte (fs v) (dirtied p) L l) j)).
Proof.
  intros C O Hp A Hl Ed Hb Hw Bw. pose proof (proj1 (ch_vol _ _ _ C)) as G. pose proof (Z.mod_pos_bound (fptr p) 512 ltac:(lia)).
  assert (Hi : 0 <= fptr p / 512 < nsects (fs v) l) by (split; [apply Z.div_pos; lia|apply Z.div_lt_upper_bound; lia]).
  eapply returns_try_at; [by apply (write_partial_spec v p L l rb c w btw)|]. cbv beta zeta. intros s' (p' & -> & O' & Hd & Ep & Fl & Fb). apply returns_ret.
  set (n := Z.min btw (512 - fptr p mod 512)) in *. exists n, p'. assert (Hn : 0 < n <= btw /\ n <= 512 - fptr p mod 512) by (unfold n; lia).
  assert (E1 : fptr p' = fptr p) by (by rewrite Ep). assert (E2 : clust p' = clust p) by (by rewrite Ep). assert (E3 : dsect p' = dsect p) by (by rewrite Ep).
  split_and!; [done|lia|lia|done|lia| |done|by rewrite Ep| |exact Fb].
  - rewrite <- E1. apply moved_in_sector; [constructor; [done|rewrite E1; lia|rewrite E1, E3; done]| |unfold at_cluster in *; by rewrite E1, E2|done|by rewrite E1|rewrite E1; lia|rewrite E1; lia].
    split; [by rewrite E1, E3|]. unfold view. by rewrite Hd, Z.eqb_refl.
  - split_and!; first [exact Fl|by rewrite Ep].
Qed.

(** The buffer filled for a partial write; a sector past the end of the file is not read. *)
Lemma prepare_sector v p L l rb c : chain_rep v L l -> fil_mem (fs v) L l p -> dirty p = false -> 0 <= fptr p < 512 * nsects (fs v) l -> fptr p mod 512 = 0 ->
  let sect := fsect (fs v) l (fptr p / 512) in
  returns (if negb (dsect p =? sect) then if fptr p <? fil_size p then fill_buf sect else go else go) (Io v p rb c) (fun r s' => r = inr tt /\ exists v' b,
    s' = Io v' (set_buf b p) rb c /\ fs v' = fs v /\ chain_rep v' L l /\ length b = 512%nat /\ Forall (inu 8) b /\
    forall j, 0 <= j < Z.max (fil_size p) (fptr p) -> j < 512 * nsects (fs v) l -> fbyte (fs v) (dirtied (set_dsect sect (set_buf b p))) L l j = fbyte (fs v) p L l j).
Proof.
  intros C O Hd Hp Hm sect. assert (Hi : 0 <= fptr p / 512 < nsects (fs v) l) by (split; [apply Z.div_pos; lia|apply Z.div_lt_upper_bound; lia]).
  destruct (chain_sector v L l _ C Hi) as (b & Eb & Lb & Bb & _ & Hr). pose proof (Z.div_mod (fptr p) 512 ltac:(lia)) as Dm.
  assert (Keep : forall x, x = buf p \/ x = b -> (x = b \/ fil_size p <= fptr p) -> forall j, 0 <= j < Z.max (fil_size p) (fptr p) -> j < 512 * nsects (fs v) l ->
    fbyte (fs v) (dirtied (set_dsect sect (set_buf x p))) L l j = fbyte (fs v) p L l j).
  { intros x _ Hx j Hj Hj2. unfold sect. rewrite (fbyte_buffer v) by (done || lia). destruct (Z.eqb_spec (j / 512) (fptr p / 512)) as [E|E]; [|done].
    destruct Hx as [->|Hx]; [unfold fbyte, view; by rewrite Hd, E, Eb|]. exfalso. pose proof (Z.div_mod j 512 ltac:(lia)). pose proof (Z.mod_pos_bound j 512 ltac:(lia)). lia. }
  destruct (fo_buf _ _ _ _ O) as [Lp Bp]. assert (Eta : set_buf (buf p) p = p) by (by destruct p). destruct (Z.eqb_spec (dsect p) sect) as [E|E]; cbn [negb].
  - apply returns_ret. split; [done|]. exists v, (buf p). rewrite Eta. split_and!; try done. pose proof (Keep (buf p)) as K. rewrite Eta in K. apply K; [by left|]. left.
    destruct (fo_clean _ _ _ _ O Hd) as [E0|[_ E0]]; [unfold sect in E; lia|]. rewrite E in E0. unfold sect in E0. congruence.
  - destruct (Z.ltb_spec (fptr p) (fil_size p)).
    + eapply returns_mono; [by apply (fill_buf_spec v p L l rb c (fptr p / 512))|]. cbv beta. intros r s' (-> & v' & x & -> & F & C' & Ex). split; [done|]. exists v', x.
      assert (x = b) as -> by congruence. split_and!; try done. apply Keep; [by right|by left].
    + apply returns_ret. split; [done|]. exists v, (buf p). rewrite Eta. split_and!; try done. pose proof (Keep (buf p)) as K. rewrite Eta in K. apply K; [by left|by right].
Qed.

Lemma write_sectors_spec v p0 p L l rb c w btw : chain_rep v L l -> fil_mem (fs v) L l p -> at_cluster (fs v) l p -> 0 <= fptr p < 512 * nsects (fs v) l -> fptr p mod 512 = 0 ->
  0 < btw <= Z.of_nat (length w) -> fptr p + btw < 2 ^ 32 -> Forall (inu 8) w -> dsect p0 = dsect p -> fptr p0 = fptr p -> fil_size p0 = fil_size p ->
  returns (write_sectors (fs v) p0 w btw ((fptr p / 512) mod csize (fs v))) (Io v p rb c) (fun r s' => exists n v' p' L', r = inr (Some n) /\ 0 < n <= btw /\ s' = Io v' p' rb c /\
    fs v' = fs v /\ chain_rep v' L' l /\ fil_ok (fs v) L' l (set_fptr (fptr p + n) p') /\ fptr p' = fptr p /\ (forall s, ~ in_file (fs v) l s -> L' !! s = L !! s) /\ kept p p' /\
    forall j, 0 <= j < Z.max (fil_size p) (fptr p + n) -> fbyte (fs v) p' L' l j = overlay w (fptr p) n (fbyte (fs v) p L l) j).
Proof.
  intros C O A Hp Hm Hb Hw Bw E1 E2 E3. pose proof (proj1 (ch_vol _ _ _ C)) as G. pose proof (g_csize _ G) as Gz. unfold write_sectors. rewrite E1, E2, E3. clear E1 E2 E3 p0.
  eapply returns_try_at; [by apply (write_back_spec v p L l rb c)|]. intros s' (v1 & p1 & L1 & -> & F1 & C1 & O1 & Q1 & D1 & P1).
  assert (Pf : fptr p1 = fptr p /\ dsect p1 = dsect p /\ fil_size p1 = fil_size p /\ clust p1 = clust p) by (by rewrite P1). destruct Pf as (Pf & Pd & Pz & Pc).
  rewrite <- Pf, <- Pd, <- Pz, <- F1 in *. clear P1. assert (A1 : at_cluster (fs v1) l p1) by (unfold at_cluster in *; rewrite Pc; by rewrite Pf in *).
  eapply returns_try_at; [apply (current_sector_spec v1 p1 L1 l rb c C1 ltac:(lia) A1)|]. intros s' ->. cbv beta zeta.
  assert (Bytes : forall j, 0 <= j < 512 * nsects (fs v1) l -> fbyte (fs v1) p1 L1 l j = fbyte (fs v1) p L l j) by (intros j Hj; by apply quiet_fbyte).
  pose proof (fo_size _ _ _ _ O1) as [Os1 Os2]. pose proof (Z.mod_pos_bound (fptr p1 / 512) (csize (fs v1)) ltac:(lia)) as Hmc.
  assert (Hi : 0 <= fptr p1 / 512 < nsects (fs v1) l) by (split; [apply Z.div_pos; lia|apply Z.div_lt_upper_bound; lia]).
  assert (B1 : fil_base (fs v1) L1 l p1) by (constructor; [done|lia|done]). pose proof (pos_room _ _ _ _ G B1 ltac:(lia)) as Room. rewrite Hm in Room.
  change (btw / SS) with (btw / 512). destruct (Z.eqb_spec (btw / 512) 0) as [Z0|Z0]; cbn [negb].
  - eapply returns_try_at; [apply (prepare_sector v1 p1 L1 l rb c C1 O1 D1); lia|]. cbv beta zeta. intros s' (v2 & b & -> & F2 & C2 & Lb & Bb & Kb). rewrite <- F2 in *.
    eapply returns_step; [reflexivity|]. unfold set_fil. cbn [vol fil rbuff count]. set (sect := fsect (fs v2) l (fptr p1 / 512)) in *. set (p2 := set_dsect sect (set_buf b p1)).
    eapply returns_mono; [apply (write_in_sector v2 p2 L1 l rb c w btw C2); [by apply (fil_mem_dirtied v2 L1 l p1 (fptr p1 / 512) b)|cbn; lia|done|cbn; lia|done|lia|cbn; lia|done]|].
    cbv beta. intros r s' (n & p3 & -> & Hn & -> & Hn2 & O3 & Pf3 & _ & K3 & Fb). exists n, v2, p3, L1. change (fptr p2) with (fptr p1) in *. split_and!; try done.
    + lia.
    + lia.
    + intros s Ni. by apply (q_disk _ _ _ _ _ _ Q1).
    + eapply kept_fil_trans; [by eapply kept_quiet|]. exact K3.
    + intros j Hj. rewrite Fb by lia. unfold overlay. destruct ((fptr p1 <=? j) && _) eqn:Eo; [done|]. apply andb_false_iff in Eo. rewrite Z.leb_gt, Z.ltb_ge in Eo.
      rewrite Kb by lia. apply Bytes. lia.
  - assert (Hcc : 0 < btw / 512 < 2 ^ 24) by (pose proof (Z.div_pos btw 512); split; [lia|apply Z.div_lt_upper_bound; lia]).
    rewrite (direct_count (fs v1)) by lia. set (n := Z.min _ _). pose proof (Z.div_mod btw 512 ltac:(lia)). pose proof (Z.mod_pos_bound btw 512 ltac:(lia)).
    eapply returns_try_at; [apply (write_direct_spec v1 p1 L1 l rb c w n C1 O1 D1); (done || lia)|]. cbv beta. intros s' (v2 & p2 & L2 & -> & F2 & C2 & O2 & P2 & Fl & Same & Fb).
    apply returns_ret. exists (512 * n), v2, p2, L2. assert (Pf2 : fptr p2 = fptr p1) by (by rewrite P2). assert (Pc2 : clust p2 = clust p1) by (by rewrite P2).
    split_and!; try done.
    + lia.
    + lia.
    + rewrite <- Pf2. apply moved_sectors; [constructor; [done|rewrite Pf2; lia|rewrite Pf2; done]|unfold at_cluster in *; by rewrite Pf2, Pc2|done|rewrite Pf2; lia|by rewrite Pf2|rewrite Pf2; lia|lia|rewrite Pf2; lia].
    + intros s Ni. rewrite Same by done. by apply (q_disk _ _ _ _ _ _ Q1).
    + eapply kept_fil_trans; [by eapply kept_quiet|]. split_and!; first [exact Fl|by rewrite P2].
    + intros j Hj. rewrite Fb by lia. unfold overlay. destruct ((fptr p1 <=? j) && _) eqn:Eo; [done|]. apply Bytes. lia.
Qed.

Lemma write_step_spec v p L l rb c w btw : chain_rep v L l -> fil_ok (fs v) L l p -> sane (fs v) L -> (l = [] -> 3 <= n_fatent (fs v) /\ 0 <= last_clust (fs v)) ->
  0 < btw <= Z.of_nat (length w) -> fptr p + btw < 2 ^ 32 -> Forall (inu 8) w ->
  returns (write_step w btw) (Io v p rb c) (fun r s' =>
    (exists n v' p' L' l', r = inr (Some n) /\ 0 < n <= btw /\ s' = Io v' p' rb c /\ wrote_on v p L l w n v' p' L' l' /\ l' <> []) \/
    (r = inr None /\ exists v', s' = Io v' p rb c /\ rest_same (fs v) (fs v') /\ chain_rep v' L l /\ full (fs v) L /\ fptr p = 512 * nsects (fs v) l)).
Proof.
  intros C O Sa Hroom Hb Hw Bw. pose proof (proj1 (ch_vol _ _ _ C)) as G. destruct (chain_all v L l C) as [Al Nd]. pose proof (fo_pos _ _ _ _ (proj1 O)) as [Op1 Op2]. pose proof (fo_size _ _ _ _ (proj1 O)) as [Os1 Os2].
  destruct (pos_decomp (fs v) L l p G (proj1 O)) as (Dp & Hq & Hcs & Hms).
  unfold write_step. eapply returns_step; [reflexivity|]. eapply returns_step; [reflexivity|]. cbn [fil vol]. change (fptr p mod SS) with (fptr p mod 512).
  destruct (Z.eqb_spec (fptr p mod 512) 0) as [Hm|Hm].
  - rewrite cluster_offset_mod by (lia || apply C).
    eapply returns_bind with (Q := fun r s' => (r = inr true /\ exists v' p' L' l', s' = Io v' p' rb c /\ entered v p L l v' p' L' l') \/
      (r = inr false /\ exists v', s' = Io v' p rb c /\ rest_same (fs v) (fs v') /\ chain_rep v' L l /\ full (fs v) L /\ fptr p = 512 * nsects (fs v) l)).
    { destruct (Z.eqb_spec ((fptr p / 512) mod csize (fs v)) 0) as [E|E]; [by apply write_cluster_spec|]. apply returns_ret. left. split; [done|]. exists v, p, L, l. split; [done|].
      replace p with (set_clust (clust p) p) at 2 by (by destruct p). apply entered_same; first [done|lia|exact (fo_mem _ _ _ _ (proj1 O))|apply (pos_cluster _ L); [done|apply O|done|by right]]. }
    intros r s' [(-> & v1 & p1 & L1 & l1 & -> & R1 & C1 & O1 & A1 & Hp1 & W1 & Os & Sa1 & P1)|(-> & v1 & -> & Q)]; cbn [negb].
    2: { apply returns_ret. right. split; [done|]. by exists v1. }
    destruct (chain_all v1 L1 l1 C1) as [Al1 Nd1]. assert (E1 : csize (fs v1) = csize (fs v)) by apply R1. pose proof (nsects_same _ _ l1 R1) as En.
    assert (Pf : fptr p1 = fptr p /\ dsect p1 = dsect p /\ fil_size p1 = fil_size p) by (by rewrite P1). destruct Pf as (Pf & Pd & Pz).
    assert (K1 : kept p p1) by (rewrite P1; by split_and!). destruct (fat_bounds_same _ _ R1) as (_ & _ & Enf).
    assert (Al1' : all_clusters (fs v) l1) by (intros x Hx; rewrite <- Enf; by apply Al1).
    rewrite <- Pf, <- E1. replace (csize (fs v)) with (csize (fs v1)) by done.
    assert (Hws : write_sectors (fs v) p w btw ((fptr p1 / 512) mod csize (fs v1)) = write_sectors (fs v1) p w btw ((fptr p1 / 512) mod csize (fs v1))).
    { unfold write_sectors. by rewrite E1. }
    rewrite Hws. eapply returns_mono; [apply (write_sectors_spec v1 p p1 L1 l1 rb c w btw C1); try done; [by apply (fil_mem_same (fs v))|unfold at_cluster in *; by rewrite E1|rewrite En; lia|by rewrite Pf|lia]|].
    cbv beta. intros r s' (n & v2 & p2 & L2 & -> & Hn & -> & F2 & C2 & O2 & Pf2 & Same & K2 & Fb). left. exists n, v2, p2, L2, l1.
    destruct (file_only (fs v1) L1 L2 l1 (proj1 (ch_vol _ _ _ C1)) Al1 Same) as (W2 & Ee & Sa2).
    assert (W2' : wrote (fs v) L1 l1 L2 l1) by (by apply (wrote_same _ (fs v1))).
    split_and!; try done; [lia|lia| |intros ->; unfold nsects in Hp1; cbn in Hp1; lia].
    split; [by rewrite F2|]. split; [done|]. split; [rewrite F2, <- Pf; exact O2|]. split; [congruence|]. split; [by apply (wrote_trans _ _ _ L1 l1)|].
    split; [intros x Hx; rewrite <- (fat_entry_same _ _ _ _ R1), Ee, (fat_entry_same _ _ _ _ R1) by (by rewrite Enf); by apply Sa1|]. split; [by eapply kept_fil_trans|].
    intros j Hj. rewrite <- (fbyte_same _ _ _ _ _ _ R1). rewrite Fb by (rewrite Pf, Pz; lia). unfold overlay. rewrite Pf. destruct ((fptr p <=? j) && _) eqn:Eo; [done|].
    apply andb_false_iff in Eo. rewrite Z.leb_gt, Z.ltb_ge in Eo. rewrite (fbyte_same _ _ _ _ _ _ R1). destruct (w_more _ _ _ _ _ W1) as (k & -> & _).
    rewrite <- (fbyte_grow (fs v) p L L1 l k) by (done || lia). unfold fbyte, view. by rewrite P1.
  - assert (A : at_cluster (fs v) l p) by (apply (pos_cluster _ L); [done|apply O|done|by left]).
    assert (Hlt : fptr p < 512 * nsects (fs v) l).
    { unfold at_cluster in A. apply lookup_lt_Some in A. unfold nsects. pose proof (g_csize _ G). nia. }
    pose proof (pos_sector _ _ _ _ (proj1 O) Hlt) as Hi. pose proof (fo_cache _ _ _ _ (proj1 O) Hm) as Ed. destruct (buffered_hit v L l p _ C (proj1 O) Hi Ed) as [_ Ev].
    assert (Od : fil_mem (fs v) L l (dirtied p)).
    { pose proof (fil_mem_dirtied v L l p (fptr p / 512) (buf p) C (proj1 O) Hi) as Od. rewrite <- Ed in Od. replace (set_dsect (dsect p) (set_buf (buf p) p)) with p in Od by (by destruct p). apply Od; apply (proj1 O). }
    eapply returns_mono; [apply (write_in_sector v p L l rb c w btw C Od); (done || lia)|]. cbv beta. intros r s' (n & p' & -> & Hn & -> & Hn2 & O' & Pf & _ & K & Fb). left.
    exists n, v, p', L, l. split_and!; try done; [lia|lia| |intros ->; unfold nsects in Hlt; cbn in Hlt; lia]. split_and!; try done; [apply wrote_refl|].
    destruct (fo_pos _ _ _ _ (proj1 O')) as [_ Op']. cbn in Op'. intros j Hj. rewrite Fb by lia. unfold overlay. destruct ((fptr p <=? j) && _); [done|]. by apply fbyte_dirtied.
Qed.

Lemma overlay_next w a n m g j : 0 <= n -> 0 <= m -> overlay (drop (Z.to_nat n) w) (a + n) m (overlay w a n g) j = overlay w a (n + m) g j.
Proof.
  intros Hn Hm. unfold overlay. destruct (Z.leb_spec (a + n) j), (Z.ltb_spec j (a + n + m)), (Z.leb_spec a j), (Z.ltb_spec j (a + n)), (Z.ltb_spec j (a + (n + m))); cbn [andb]; try lia; try done.
  unfold byte_at. rewrite !list_lookup_total_alt, lookup_drop. do 2 f_equal. lia.
Qed.

Lemma overlay_ext w a n g h j : (~ a <= j < a + n -> h j = g j) -> overlay w a n h j = overlay w a n g j.
Proof. intros E. unfold overlay. destruct (Z.leb_spec a j), (Z.ltb_spec j (a + n)); cbn [andb]; try done; apply E; lia. Qed.

(** The loop ends with all of [w] in the file, or with a full volume. *)
Definition loop_done v p L l w btw (n : Z) v' p' L' l' : Prop :=
  rest_same (fs v) (fs v') /\ chain_rep v' L' l' /\ fil_ok (fs v') L' l' p' /\ fptr p' = fptr p + n /\ wrote (fs v) L l L' l' /\ sane (fs v) L' /\ kept p p' /\
  (n = btw \/ full (fs v) L' /\ fptr p' = 512 * nsects (fs v) l') /\
  forall j, 0 <= j < Z.max (fil_size p) (fptr p + n) -> fbyte (fs v) p' L' l' j = overlay w (fptr p) n (fbyte (fs v) p L l) j.

Lemma write_loop_spec k : forall v p L l rb c w btw, chain_rep v L l -> fil_ok (fs v) L l p -> sane (fs v) L -> (l = [] -> 3 <= n_fatent (fs v) /\ 0 <= last_clust (fs v)) ->
  0 <= btw <= Z.of_nat (length w) -> fptr p + btw < 2 ^ 32 -> Forall (inu 8) w -> 0 <= c -> c + btw < 2 ^ 32 -> (Z.to_nat btw < k)%nat ->
  returns (write_loop k w btw) (Io v p rb c) (fun r s' => exists n v' p' L' l', r = inr tt /\ 0 <= n <= btw /\ s' = Io v' p' rb (c + n) /\ loop_done v p L l w btw n v' p' L' l').
Proof.
  induction k as [|k IH]; intros v p L l rb c w btw C O Sa Hroom Hb Hw Bw Hc Hcb Hk; [lia|]. cbn [write_loop]. pose proof (fo_pos _ _ _ _ (proj1 O)) as [Op1 Op2].
  assert (None : forall j, overlay w (fptr p) 0 (fbyte (fs v) p L l) j = fbyte (fs v) p L l j).
  { intros j. unfold overlay. destruct (Z.leb_spec (fptr p) j), (Z.ltb_spec j (fptr p + 0)); cbn [andb]; (done || lia). }
  destruct (Z.eqb_spec btw 0) as [->|Nb].
  { apply returns_ret. exists 0, v, p, L, l. unfold loop_done. rewrite !Z.add_0_r. split_and!; first [done|lia|exact O|apply wrote_refl|by left|intros j _; by rewrite None]. }
  eapply returns_bind; [apply (write_step_spec v p L l rb c w btw); (done || lia)|].
  intros r s' [(n & v1 & p1 & L1 & l1 & -> & Hn & -> & (R1 & C1 & O1 & P1 & W1 & Sa1 & K1 & Fb1) & Nl)|(-> & v1 & -> & R1 & C1 & F & E)]; cbv beta iota.
  2: { apply returns_ret. exists 0, v1, p, L, l. unfold loop_done. rewrite !Z.add_0_r. split_and!; first [done|lia|by apply (fil_ok_same (fs v))|apply wrote_refl|by right|intros j _; by rewrite None]. }
  pose proof (proj1 (ch_vol _ _ _ C)) as G. destruct (fat_bounds_same _ _ R1) as (_ & _ & En). assert (Ee : forall M x, fat_entry (fs v1) M x = fat_entry (fs v) M x) by (intros; by apply fat_entry_same).
  eapply returns_step; [reflexivity|]. unfold set_fil, set_count. cbn [fil vol rbuff count]. rewrite P1, !wrapu_small by (unfold inu; lia). set (p2 := set_fptr (fptr p + n) p1) in *.
  eapply returns_mono; [apply (IH v1 p2 L1 l1 rb (c + n) (drop (Z.to_nat n) w) (btw - n) C1 O1)|].
  { intros x Hx. rewrite Ee. apply Sa1. by rewrite <- En. } { done. } { rewrite length_drop. lia. } { cbn. lia. } { by apply Forall_drop. } { lia. } { lia. } { lia. }
  cbv beta. intros r s' (m & v3 & p3 & L3 & l3 & -> & Hm & -> & R3 & C3 & O3 & P3 & W3 & Sa3 & K3 & End & Fb3). destruct (chain_all v3 L3 l3 C3) as [Al3 Nd3].
  pose proof (rest_same_trans _ _ _ R1 R3) as R13. destruct (fat_bounds_same _ _ R13) as (_ & _ & En3). change (fptr p2) with (fptr p + n) in *. change (fil_size p2) with (fil_size p1) in *.
  exists (n + m), v3, p3, L3, l3. split; [done|]. split; [lia|]. split; [f_equal; lia|].
  split; [done|]. split; [done|]. split; [done|]. split; [lia|].
  split; [apply (wrote_trans _ _ _ L1 l1); [done|done|intros x Hx; rewrite <- En3; by apply Al3|done|by apply (wrote_same _ (fs v1))]|].
  split; [intros x Hx; rewrite <- Ee; apply Sa3; by rewrite En|]. split; [by eapply kept_fil_trans; [exact K1|]|].
  split. { destruct End as [->|[F E]]; [left; lia|right]. split; [intros x Hx; rewrite <- Ee; apply F; by rewrite En|]. by rewrite <- (nsects_same _ _ l3 R1). }
  assert (Ez : fil_size p1 = fil_size p) by apply K1. intros j Hj. rewrite <- (fbyte_same _ _ _ _ _ _ R1), Fb3 by (rewrite Ez; lia).
  rewrite <- (overlay_next w (fptr p) n m) by lia. apply overlay_ext. intros Nj. rewrite (fbyte_same _ _ _ _ _ _ R1). change (fbyte (fs v) p2 L1 l1 j) with (fbyte (fs v) p1 L1 l1 j). apply Fb1. lia.
Qed.

Lemma contents_written (g h : Z -> Z) w a n z : 0 <= a <= z -> 0 <= n <= Z.of_nat (length w) -> (forall j, 0 <= j < Z.max z (a + n) -> h j = overlay w a n g j) ->
  map h (seqZ 0 (Z.max z (a + n))) = copy_to a (slice 0 n w) (map g (seqZ 0 z)).
Proof.
  intros Ha Hn E. set (m := Z.max z (a + n)). replace m with (a + (n + (m - a - n))) by lia. rewrite !map_seqZ_app by lia. cbn [Z.add].
  assert (Ls : length (slice 0 n w) = Z.to_nat n) by (by rewrite length_slice by lia). unfold copy_to. f_equal; [|f_equal].
  - replace z with (a + (z - a)) by lia. rewrite map_seqZ_app by lia. rewrite take_app_length' by (rewrite length_map, length_seqZ; lia). apply map_seqZ_ext. intros j Hj. rewrite E by lia.
    unfold overlay. by rewrite (proj2 (Z.leb_gt _ _)) by lia.
  - symmetry. apply map_slice; [lia|lia|lia|]. intros j Hj. rewrite E by lia. unfold overlay. rewrite (proj2 (Z.leb_le _ _)), (proj2 (Z.ltb_lt _ _)) by lia. cbn [andb]. f_equal. lia.
  - rewrite Ls. destruct (Z_le_gt_dec (a + n) z) as [Hz|Hz].
    + replace z with (a + (n + (z - a - n))) by lia. rewrite (map_seqZ_app g), (map_seqZ_app g) by lia. rewrite app_assoc, drop_app_length' by (rewrite length_app, !length_map, !length_seqZ; lia).
      cbn [Z.add]. replace (a + (n + (z - a - n)) - a - n) with (z - a - n) by lia. replace (m - a - n) with (z - a - n) by lia. apply map_seqZ_ext. intros j Hj. rewrite E by lia.
      unfold overlay. rewrite (proj2 (Z.ltb_ge j _)), andb_false_r by lia. done.
    + rewrite drop_ge by (rewrite length_map, length_seqZ; lia). replace (m - a - n) with 0 by lia. done.
Qed.

(** The size and the other flags do not touch the buffer. *)
Lemma fil_ok_sized f L l p z x : fil_ok f L l p -> 0 <= z < 2 ^ 32 -> z <= 512 * nsects f l -> inu 8 x -> Z.testbit x 6 = Z.testbit (flag p) 6 ->
  let p' := set_flag x (set_fil_size z p) in fil_ok f L l p' /\ forall s, view p' L s = view p L s.
Proof.
  intros [[[O1 O2 O3 O6 O7 O8 O10 O11] O4 O9] Oc] Hz Hz2 Hx Hb p'. assert (Ed : dirty p' = dirty p) by (rewrite !dirty_bit; exact Hb).
  split; [split; [constructor; [constructor|..]|]|]; try done.
  - rewrite Ed. exact O7.
  - rewrite Ed. exact O8.
  - intros s. unfold view. by rewrite Ed.
Qed.

Definition written_flag (x : Z) : Z := x ||| FA__WRITTEN.
Lemma written_bit x i : 0 <= i -> Z.testbit (written_flag x) i = Z.testbit x i || (i =? 5).
Proof. intros Hi. unfold written_flag. change FA__WRITTEN with (2 ^ 5). rewrite Z.lor_spec, Z.pow2_bits_eqb by lia. by rewrite (Z.eqb_sym 5 i). Qed.
Lemma written_range x : inu 8 x -> inu 8 (written_flag x).
Proof. intros Hx. apply lor_range; [lia|done|]. unfold FA__WRITTEN, inu. lia. Qed.

(** What a write leaves: [n] bytes of the data are in the file at the old position. *)
Definition written v p L l data (n : Z) v' p' L' l' : Prop :=
  rest_same (fs v) (fs v') /\ file_rep v' p' L' l' /\ fptr p' = fptr p + n /\
  contents (fs v') p' L' l' = copy_to (fptr p) (slice 0 n data) (contents (fs v) p L l) /\
  wrote (fs v) L l L' l' /\ sane (fs v) L' /\ (n = Z.of_nat (length data) \/ full (fs v) L') /\
  dir_sect p' = dir_sect p /\ dir_ptr p' = dir_ptr p /\ Z.testbit (flag p') 5 = true /\ Z.testbit (flag p') 0 = Z.testbit (flag p) 0 /\ Z.testbit (flag p') 1 = Z.testbit (flag p) 1.

Lemma f_write_spec v p L l data rb c : file_rep v p L l -> Z.testbit (flag p) 1 = true -> sane (fs v) L -> (l = [] -> 3 <= n_fatent (fs v) /\ 0 <= last_clust (fs v)) ->
  Forall (inu 8) data -> fptr p + Z.of_nat (length data) < 2 ^ 32 ->
  returns (f_write data (Z.of_nat (length data))) (Io v p rb c) (fun r s' => r = FR_OK /\ exists n v' p' L' l', 0 <= n <= Z.of_nat (length data) /\ s' = Io v' p' rb n /\
    written v p L l data n v' p' L' l').
Proof.
  intros (C & O & Hp) Hf Sa Hroom Bw Hw. destruct (fo_pos _ _ _ _ (proj1 O)) as [Op _]. destruct (fo_size _ _ _ _ (proj1 O)) as [Os1 Os2]. set (btw := Z.of_nat (length data)) in *.
  unfold f_write. eapply returns_step; [reflexivity|]. eapply returns_step; [apply (validate_spec v p L l rb 0 C (proj1 O))|]. cbn [Z.eqb negb].
  eapply returns_step; [reflexivity|]. cbn [fil]. destruct (fo_open _ _ _ _ (proj1 O)) as (_ & _ & Ee). rewrite Ee. cbn [Z.eqb negb].
  change FA_WRITE with (2 ^ 1). rewrite flag_test, Hf by lia. cbn [negb]. rewrite wrapu_small by (unfold inu; lia). rewrite (proj2 (Z.ltb_ge _ (fptr p))) by lia.
  eapply returns_bind; [apply (write_loop_spec (S (Z.to_nat btw)) v p L l rb 0 data btw C O Sa Hroom); (done || lia)|].
  intros r s' (n & v1 & p1 & L1 & l1 & -> & Hn & -> & R1 & C1 & O1 & P1 & W1 & Sa1 & K1 & End & Fb). cbv beta iota.
  eapply returns_step; [reflexivity|]. eapply returns_step; [reflexivity|]. apply returns_ret. split; [done|]. unfold set_fil. cbn [vol fil rbuff count].
  destruct K1 as (K1a & K1b & K1c & Kz & Kd1 & Kd2 & Kf). destruct (fo_pos _ _ _ _ (proj1 O1)) as [Op1 Op2]. destruct (fo_size _ _ _ _ (proj1 O1)) as [Oz1 Oz2].
  set (z := Z.max (fil_size p) (fptr p + n)). set (p2 := set_flag (written_flag (flag p1)) (set_fil_size z p1)).
  assert (Ep : (let p := if fil_size p1 <? fptr p1 then set_fil_size (fptr p1) p1 else p1 in set_flag (flag p ||| FA__WRITTEN) p) = p2).
  { unfold p2, z. rewrite Kz, P1. destruct (Z.ltb_spec (fil_size p) (fptr p + n)); [rewrite Z.max_r by lia; done|]. rewrite Z.max_l by lia. rewrite <- Kz. by destruct p1. }
  cbv zeta in Ep. rewrite Ep. destruct (fil_ok_sized (fs v1) L1 l1 p1 z (written_flag (flag p1)) O1) as [O2 V2]; [lia|lia|apply written_range, (proj1 O1)|by rewrite written_bit, orb_false_r by lia|]. fold p2 in O2, V2.
  exists n, v1, p2, L1, l1. split; [lia|]. split; [done|]. split_and!; try done.
  - split; [done|]. split; [done|]. change (fptr p1 <= z). lia.
  - unfold contents. change (fil_size p2) with z. apply contents_written; [lia|lia|]. intros j Hj. rewrite <- Fb by lia. rewrite (fbyte_same _ _ _ _ _ _ R1). unfold fbyte. by rewrite V2.
  - destruct End as [?|[F _]]; [by left|by right].
  - cbn [flag p2 set_flag]. rewrite written_bit by lia. apply orb_true_r.
  - cbn [flag p2 set_flag]. rewrite written_bit, orb_false_r by lia. apply Kf; lia.
  - cbn [flag p2 set_flag]. rewrite written_bit, orb_false_r by lia. apply Kf; lia.
Qed.
End Writing.

(** *** Flushing *)
Section Flushing.
Context {D : Type} `{BlockLaws D}.
Implicit Types (v : volume D) (p : FIL) (L : sectors) (l : list Z).

Lemma sync_buf_run s s' : write_back s = Ret (inr tt) s' -> sync_buf (D:=D) s = Ret (inr tt) s'.
Proof.
  unfold write_back, sync_buf. intros E. run_inv E. injection E0 as <- <-. unfold bind at 1. change (get_fil s) with (Ret (fil s) s). cbn beta iota.
  destruct (negb _); [|exact E]. run_inv E. unfold bind at 1. rewrite E0. destruct (negb _); [run_inv E; discriminate E|exact E].
Qed.

(** The chain after changes elsewhere on the volume. *)
Lemma chain_rep_other v v' L L' l : chain_rep v L l -> vol_rep v' L' -> rest_same (fs v) (fs v') -> (forall s, in_table (fs v) s \/ database (fs v) <= s -> is_Some (L !! s) -> is_Some (L' !! s)) ->
  (forall s, in_table (fs v) s -> L' !! s = L !! s) -> (forall i, 0 <= i < nsects (fs v) l -> winsect (fs v') <> fsect (fs v) l i) -> chain_rep v' L' l.
Proof.
  intros C R' R Ep Et Wi. destruct (chain_all v L l C) as [Al _]. destruct C as [(G & _) Po Da Ch _]. assert (Ec : csize (fs v') = csize (fs v)) by apply R.
  assert (Ed : database (fs v') = database (fs v)) by apply R. destruct (fat_bounds_same _ _ R) as (Eb & Es & En). constructor; [done| | | |].
  - destruct Po as (k & Hk & E). exists k. by rewrite Ec.
  - rewrite Ed, En, Ec. intros s Hs. apply Ep; [right; lia|]. by apply Da.
  - destruct Ch as [->|Ch]; [by left|right]. rewrite En. apply (chain_ext (fat_entry (fs v) L)); [|done]. intros c Hc. rewrite (fat_entry_same _ _ _ _ R).
    apply fat_entry_table; [done|done|by apply Al].
  - intros i Hi. rewrite (nsects_same _ _ _ R) in Hi. rewrite (fsect_same _ _ _ _ R). by apply Wi.
Qed.

Lemma dir_entry_bytes p w : length w = 512%nat -> Forall (inu 8) w -> length (dir_entry p w) = 512%nat /\ Forall (inu 8) (dir_entry p w).
Proof.
  intros Lw Bw. unfold dir_entry, st_clust. set (w1 := put_byte _ _ w).
  assert (B1 : Forall (inu 8) w1) by (apply put_byte_bytes; [apply lor_range; [lia|by apply byte_at_range|unfold AM_ARC, inu; lia]|done]).
  assert (L1 : length w1 = 512%nat) by (unfold w1; by rewrite put_byte_length).
  destruct (ST_DWORD_bytes (dir_ptr p + DIR_FileSize) (fil_size p) _ B1) as [L2 B2]. destruct (ST_WORD_bytes (dir_ptr p + DIR_FstClusLO) (sclust p) _ B2) as [L3 B3].
  destruct (ST_WORD_bytes (dir_ptr p + DIR_FstClusHI) (sclust p >>> 16) _ B3) as [L4 B4]. destruct (ST_DWORD_bytes (dir_ptr p + DIR_WrtTime) GET_FATTIME _ B4) as [L5 B5].
  destruct (ST_WORD_bytes (dir_ptr p + DIR_LstAccDate) 0 _ B5) as [L6 B6]. split; [|exact B6]. by rewrite L6, L5, L4, L3, L2, L1.
Qed.

(** The bytes a stored word leaves. *)
Lemma byte_of w n x : 0 <= n -> n + 8 <= w -> wrapu 8 (wrapu w x >>> n) = x / 2 ^ n mod 256.
Proof.
  intros Hn Hw. change 256 with (2 ^ 8). rewrite <- Z.shiftr_div_pow2 by lia. change ((x >>> n) mod 2 ^ 8) with (wrapu 8 (x >>> n)).
  unfold wrapu. rewrite <- !Z.land_ones by lia. apply Z.bits_inj'. intros i Hi. rewrite !Z.land_spec, !Z.shiftr_spec, Z.land_spec, !testbit_ones by lia.
  destruct (Z.ltb_spec i 8); [|by rewrite !andb_false_r]. rewrite (proj2 (Z.ltb_lt (i + n) w)) by lia. by rewrite andb_true_r.
Qed.

Lemma ST_WORD_at i x w j : 0 <= i -> i + 1 < Z.of_nat (length w) -> 0 <= j ->
  byte_at (ST_WORD i x w) j = if j =? i then x mod 256 else if j =? i + 1 then x / 256 mod 256 else byte_at w j.
Proof.
  intros Hi Hw Hj. unfold ST_WORD. rewrite !byte_at_put by (rewrite ?put_byte_length; lia). rewrite byte_of by lia.
  destruct (Z.eqb_spec j (i + 1)), (Z.eqb_spec j i); (lia || done).
Qed.

Lemma ST_DWORD_at i x w j : 0 <= i -> i + 3 < Z.of_nat (length w) -> 0 <= j ->
  byte_at (ST_DWORD i x w) j = if (i <=? j) && (j <? i + 4) then x / 256 ^ (j - i) mod 256 else byte_at w j.
Proof.
  intros Hi Hw Hj. unfold ST_DWORD. rewrite !byte_at_put by (rewrite ?put_byte_length; lia). rewrite !byte_of by lia.
  destruct (Z.eqb_spec j (i + 3)) as [->|]; [|destruct (Z.eqb_spec j (i + 2)) as [->|]; [|destruct (Z.eqb_spec j (i + 1)) as [->|]; [|destruct (Z.eqb_spec j i) as [->|]]]].
  1-4: rewrite (proj2 (Z.leb_le _ _)), (proj2 (Z.ltb_lt _ _)) by lia; cbn [andb].
  - by replace (i + 3 - i) with 3 by lia.
  - by replace (i + 2 - i) with 2 by lia.
  - by replace (i + 1 - i) with 1 by lia.
  - rewrite Z.sub_diag. unfold wrapu. by rewrite Z.div_1_r.
  - destruct (Z.leb_spec i j), (Z.ltb_spec j (i + 4)); (lia || done).
Qed.

Lemma bytes_dword x : inu 32 x -> x mod 256 + 256 * (x / 256 mod 256) + 65536 * (x / 65536 mod 256) + 16777216 * (x / 16777216 mod 256) = x.
Proof.
  intros Hx. unfold inu in Hx. change (2 ^ 32) with 4294967296 in Hx. change 65536 with (256 * 256) at 2. change 16777216 with (256 * 256 * 256) at 2. rewrite <- !Z.div_div by lia.
  pose proof (Z.div_mod x 256). pose proof (Z.div_mod (x / 256) 256). pose proof (Z.div_mod (x / 256 / 256) 256). assert (x / 256 / 256 / 256 < 256) by (repeat apply Z.div_lt_upper_bound; lia).
  assert (0 <= x / 256 / 256 / 256) by (repeat apply Z.div_pos; lia). rewrite (Z.mod_small (x / 256 / 256 / 256)) by lia. lia.
Qed.

(** The entry [e] records the file; the rest of its sector is that of [w]. *)
Record entry_of (p : FIL) (w e : list Z) : Prop := {
  en_size : LD_DWORD e (dir_ptr p + DIR_FileSize) = fil_size p;
  en_first : LD_WORD e (dir_ptr p + DIR_FstClusLO) + 65536 * LD_WORD e (dir_ptr p + DIR_FstClusHI) = sclust p;
  en_time : LD_DWORD e (dir_ptr p + DIR_WrtTime) = GET_FATTIME;
  en_attr : byte_at e (dir_ptr p + DIR_Attr) = (byte_at w (dir_ptr p + DIR_Attr) ||| AM_ARC);
  en_rest : forall j, 0 <= j -> j < dir_ptr p + DIR_LstAccDate \/ dir_ptr p + 32 <= j -> j <> dir_ptr p + DIR_Attr -> byte_at e j = byte_at w j;
}.

Lemma dir_entry_at p w j : 0 <= dir_ptr p <= 480 -> length w = 512%nat -> Forall (inu 8) w -> 0 <= j ->
  byte_at (dir_entry p w) j =
    if j =? dir_ptr p + 18 then 0 else if j =? dir_ptr p + 18 + 1 then 0
    else if (dir_ptr p + 22 <=? j) && (j <? dir_ptr p + 22 + 4) then GET_FATTIME / 256 ^ (j - (dir_ptr p + 22)) mod 256
    else if j =? dir_ptr p + 20 then (sclust p >>> 16) mod 256 else if j =? dir_ptr p + 20 + 1 then (sclust p >>> 16) / 256 mod 256
    else if j =? dir_ptr p + 26 then sclust p mod 256 else if j =? dir_ptr p + 26 + 1 then sclust p / 256 mod 256
    else if (dir_ptr p + 28 <=? j) && (j <? dir_ptr p + 28 + 4) then fil_size p / 256 ^ (j - (dir_ptr p + 28)) mod 256
    else if j =? dir_ptr p + 11 then byte_at w (dir_ptr p + 11) ||| AM_ARC else byte_at w j.
Proof.
  intros Hd Lw Bw Hj. unfold dir_entry, st_clust, DIR_Attr, DIR_LstAccDate, DIR_FstClusHI, DIR_WrtTime, DIR_FstClusLO, DIR_FileSize.
  set (w1 := put_byte _ _ w). assert (L1 : length w1 = 512%nat) by (unfold w1; by rewrite put_byte_length).
  set (w2 := ST_DWORD (_ + 28) _ w1). assert (L2 : length w2 = 512%nat) by (unfold w2, ST_DWORD; by rewrite !put_byte_length).
  set (w3 := ST_WORD (_ + 26) _ w2). assert (L3 : length w3 = 512%nat) by (unfold w3, ST_WORD; by rewrite !put_byte_length).
  set (w4 := ST_WORD (_ + 20) _ w3). assert (L4 : length w4 = 512%nat) by (unfold w4, ST_WORD; by rewrite !put_byte_length).
  set (w5 := ST_DWORD (_ + 22) _ w4). assert (L5 : length w5 = 512%nat) by (unfold w5, ST_DWORD; by rewrite !put_byte_length).
  rewrite ST_WORD_at by lia. unfold w5. rewrite ST_DWORD_at by lia. unfold w4. rewrite ST_WORD_at by lia. unfold w3. rewrite ST_WORD_at by lia.
  unfold w2. rewrite ST_DWORD_at by lia. unfold w1. rewrite byte_at_put by lia. done.
Qed.

Lemma shift_eqb d x y : (d + x =? d + y) = (x =? y).
Proof. destruct (Z.eqb_spec (d + x) (d + y)), (Z.eqb_spec x y); lia. Qed.
Lemma shift_leb d x y : (d + x <=? d + y) = (x <=? y).
Proof. destruct (Z.leb_spec (d + x) (d + y)), (Z.leb_spec x y); lia. Qed.
Lemma shift_ltb d x y : (d + x <? d + y) = (x <? y).
Proof. destruct (Z.ltb_spec (d + x) (d + y)), (Z.ltb_spec x y); lia. Qed.
Lemma shift_sub d x y : d + x - (d + y) = x - y.
Proof. lia. Qed.

Lemma dir_entry_of p w : 0 <= dir_ptr p <= 480 -> length w = 512%nat -> Forall (inu 8) w -> inu 32 (fil_size p) -> inu 32 (sclust p) -> entry_of p w (dir_entry p w).
Proof.
  intros Hd Lw Bw Hs Hc. destruct (dir_entry_bytes p w Lw Bw) as [_ Be].
  pose proof (fun j => dir_entry_at p w j Hd Lw Bw) as E. generalize dependent (dir_entry p w). intros e Be E.
  assert (T : forall o, 0 <= o < 32 -> byte_at e (dir_ptr p + o) =
    if o =? 18 then 0 else if o =? 19 then 0 else if (22 <=? o) && (o <? 26) then GET_FATTIME / 256 ^ (o - 22) mod 256
    else if o =? 20 then (sclust p >>> 16) mod 256 else if o =? 21 then (sclust p >>> 16) / 256 mod 256
    else if o =? 26 then sclust p mod 256 else if o =? 27 then sclust p / 256 mod 256
    else if (28 <=? o) && (o <? 32) then fil_size p / 256 ^ (o - 28) mod 256
    else if o =? 11 then byte_at w (dir_ptr p + 11) ||| AM_ARC else byte_at w (dir_ptr p + o)).
  { intros o Ho. rewrite E by lia. rewrite <- !Z.add_assoc, !shift_eqb, !shift_leb, !shift_ltb, !shift_sub. done. }
  constructor; unfold DIR_Attr, DIR_LstAccDate, DIR_FstClusHI, DIR_WrtTime, DIR_FstClusLO, DIR_FileSize.
  - rewrite LD_DWORD_value, <- !Z.add_assoc, !T by (done || lia). 
    change (fil_size p / 1 mod 256 + (256 * (fil_size p / 256 mod 256) + (65536 * (fil_size p / 65536 mod 256) + 16777216 * (fil_size p / 16777216 mod 256))) = fil_size p).
    rewrite Z.div_1_r, !Z.add_assoc. by apply bytes_dword.
  - rewrite !LD_WORD_value, <- !Z.add_assoc, !T by (done || lia).
    change (sclust p mod 256 + (256 * (sclust p / 256 mod 256) + 65536 * ((sclust p >>> 16) mod 256 + 256 * ((sclust p >>> 16) / 256 mod 256))) = sclust p).
    rewrite Z.shiftr_div_pow2, Z.div_div by lia. pose proof (bytes_dword (sclust p) Hc). change (2 ^ 16 * 256) with 16777216. change (2 ^ 16) with 65536. lia.
  - rewrite LD_DWORD_value, <- !Z.add_assoc, !T by (done || lia). reflexivity.
  - by rewrite T by lia.
  - intros j Hj Ho Hn. rewrite E by done. unfold DIR_Attr in Hn.
    rewrite !(proj2 (Z.eqb_neq _ _)) by lia. destruct (Z.leb_spec (dir_ptr p + 22) j), (Z.ltb_spec j (dir_ptr p + 22 + 4)), (Z.leb_spec (dir_ptr p + 28) j), (Z.ltb_spec j (dir_ptr p + 28 + 4)); (lia || done).
Qed.

(** The sector of the directory entry, apart from the table and the file. *)
Record dir_ok (f : FATFS) L l p (w : list Z) : Prop := {
  do_sector : L !! dir_sect p = Some w;
  do_ptr : 0 <= dir_ptr p <= 480;
  do_copy : ~ in_copy f (dir_sect p);
  do_table : ~ in_table f (dir_sect p);
  do_file : ~ in_file f l (dir_sect p);
  do_buf : dsect p <> dir_sect p;
  do_info : fs_type f = FS_FAT32 -> 0 <= volbase f /\ volbase f + 1 < fatbase f /\ is_Some (L !! (volbase f + 1)) /\ dir_sect p <> volbase f + 1;
}.

Lemma fil_ok_disk f L L' l p : fil_ok f L l p -> L' !! dsect p = L !! dsect p -> fil_ok f L' l p.
Proof. intros [[[O1 O2 O3 O6 O7 O8 O10 O11] O4 O9] Oc] E. split; [|done]. constructor; [|done|done]. constructor; try done. by rewrite E. Qed.

(** The directory entry is changed in the window and everything is written. *)
Lemma sync_entry v L l p w : chain_rep v L l -> dir_ok (fs v) L l p w ->
  returns (let! res := move_window (dir_sect p) in if res =? FR_OK then upd_fs (fun f => set_win (dir_entry p (win f)) f) ;; upd_fs (set_wflag 1) ;; sync_fs else ret res) v
    (fun r v' => r = FR_OK /\ rest_same (fs v) (fs v') /\ exists L' st, chain_rep v' L' l /\ L' !! dir_sect p = Some (dir_entry p w) /\
      (forall s, s <> dir_sect p -> (fs_type (fs v) = FS_FAT32 -> s <> volbase (fs v) + 1) -> L' !! s = L !! s) /\
      blk_holds (dsk v') st /\ forall s, ~ in_copy (fs v) s -> st !! s = L' !! s).
Proof.
  intros C Dk. pose proof (proj1 (ch_vol _ _ _ C)) as G. destruct (chain_all v L l C) as [Al _]. pose proof Dk as [Ds Dp Dc Dt Df _ Di].
  eapply returns_bind; [apply (move_window_spec v L (dir_sect p) w (ch_vol _ _ _ C) Ds Dc)|]. intros r v1 (-> & V1 & (W1 & _) & Ews & Ew). cbn [Z.eqb].
  assert (Hw : length w = 512%nat /\ Forall (inu 8) w) by (apply (proj1 (proj2 (ch_vol _ _ _ C)) _ _ Ds)). destruct (dir_entry_bytes p w (proj1 Hw) (proj2 Hw)) as [Le Be].
  destruct (edit_win_spec v1 L (dir_entry p) V1) as (u & v2 & E2 & V2 & (W2 & _) & Ws2 & Ew2); [by rewrite Ews, Ew|rewrite Ews; intros Hc; apply Dc; by apply (in_copy_same _ _ _ W1)|by rewrite Ew|by rewrite Ew|].
  rewrite Ews, Ew in *. pose proof (rest_same_trans _ _ _ W1 W2) as W12. set (L2 := <[dir_sect p := dir_entry p w]> L) in *.
  unfold edit_win in E2. apply bind_Ret in E2 as (u1 & v1' & E1 & E2). eapply returns_step; [exact E1|]. eapply returns_step; [exact E2|].
  assert (Ev : volbase (fs v2) = volbase (fs v)) by apply W12. assert (Et : fs_type (fs v2) = fs_type (fs v)) by apply W12. destruct (fat_bounds_same _ _ W12) as (Eb & Es & _).
  assert (Hinfo : writes_fsinfo (fs v2) = true -> 0 <= volbase (fs v2) /\ volbase (fs v2) + 1 < fatbase (fs v2) /\ is_Some (L2 !! (volbase (fs v2) + 1))).
  { unfold writes_fsinfo. rewrite Ev, Et, Eb. intros Hi. apply andb_true_iff in Hi as [Hi _]. apply Z.eqb_eq in Hi. destruct (Di Hi) as (H1 & H2 & H3 & H4).
    unfold L2. rewrite lookup_insert_ne by done. done. }
  eapply returns_mono; [by apply (sync_fs_spec v2 L2)|]. cbv beta zeta. rewrite Ev. set (L3 := if writes_fsinfo (fs v2) then _ else L2). intros r v3 (-> & W3 & Win & V3 & st & Hst & Hs & _).
  pose proof (rest_same_trans _ _ _ W12 W3) as W13. split; [done|]. split; [done|].
  assert (Info : writes_fsinfo (fs v2) = true -> fs_type (fs v) = FS_FAT32) by (unfold writes_fsinfo; rewrite Et; intros Hi; apply andb_true_iff in Hi as [Hi _]; by apply Z.eqb_eq).
  assert (Oth : forall s, s <> dir_sect p -> (fs_type (fs v) = FS_FAT32 -> s <> volbase (fs v) + 1) -> L3 !! s = L !! s).
  { intros s N1 N2. unfold L3. destruct (writes_fsinfo (fs v2)) eqn:Ei; [rewrite lookup_insert_ne by (intros E; by apply N2; [by apply Info|])|]; unfold L2; by rewrite lookup_insert_ne. }
  exists L3, st. split_and!; [|unfold L3; destruct (writes_fsinfo (fs v2)) eqn:Ei; [rewrite lookup_insert_ne by (intros E; by destruct (Di (Info eq_refl)) as (_ & _ & _ & ?))|]; apply lookup_insert_eq|exact Oth|exact Hst|].
  - apply (chain_rep_other v v3 L); [done|done|done| | |].
    + intros s _ Hp. unfold L3. destruct (writes_fsinfo (fs v2)); [apply lookup_insert_is_Some'; right|]; unfold L2; apply lookup_insert_is_Some'; by right.
    + intros s Ht. apply Oth; [intros ->; done|]. intros H32 ->. destruct (Di H32) as (_ & ? & _). unfold in_table in Ht. lia.
    + intros i Hi Ei. pose proof (fsect_range _ l G Al i Hi). destruct Win as [Wn|[Wi Wn]]; rewrite Wn in Ei.
      * apply Df. exists i. split; [done|]. congruence.
      * pose proof (g_data _ G). pose proof (g_fsize _ G). assert (0 <= n_fats (fs v) * fsize (fs v)) by (destruct (g_copies _ G) as [-> | ->]; lia).
        destruct (Di (Info Wi)) as (_ & ? & _). lia.
  - intros s Ns. apply Hs. intros Hc. apply Ns. by apply (in_copy_same _ _ _ W12).
Qed.

Lemma sync_entry_run v v' p q rb c :
  (let! res := move_window (dir_sect p) in if res =? FR_OK then upd_fs (fun f => set_win (dir_entry p (win f)) f) ;; upd_fs (set_wflag 1) ;; sync_fs else ret res) v = Ret FR_OK v' ->
  (let! res := on_vol (move_window (dir_sect p)) in
   if res =? FR_OK then
     on_vol (upd_fs (fun f => set_win (dir_entry p (win f)) f)) ;; upd_fil (fun p => set_flag (bitand_not 8 (flag p) FA__WRITTEN) p) ;; on_vol (upd_fs (set_wflag 1)) ;; on_vol sync_fs
   else ret res) (Io (D:=D) v q rb c) = Ret FR_OK (Io v' (set_flag (bitand_not 8 (flag q) FA__WRITTEN) q) rb c).
Proof.
  intros E. apply bind_Ret in E as (res & v1 & E1 & E). unfold on_vol, zoom, bind. cbn [vol]. rewrite E1. cbn beta iota. destruct (Z.eqb_spec res FR_OK) as [->|N]; [|by injection E as ->].
  apply bind_Ret in E as (u2 & v2 & E2 & E). apply bind_Ret in E as (u3 & v3 & E3 & E). injection E2 as <- <-. injection E3 as <- <-. cbn -[sync_fs dir_entry bitand_not]. 
  unfold set_vol, set_fil. cbn [vol fil rbuff count] in *. cbn [set_fs fs dsk] in E. rewrite E. done.
Qed.

(** [f_sync] of a changed file: buffer, directory entry, table and information sector are
    on the drive. *)
Lemma f_sync_spec v p L l w rb c : file_rep v p L l -> dir_ok (fs v) L l p w -> Z.testbit (flag p) 5 = true ->
  returns f_sync (Io v p rb c) (fun r s' => r = FR_OK /\ exists v' p' L' st, s' = Io v' p' rb c /\ rest_same (fs v) (fs v') /\ file_rep v' p' L' l /\
    contents (fs v') p' L' l = contents (fs v) p L l /\ fptr p' = fptr p /\ Z.testbit (flag p') 5 = false /\ 
    (forall s, ~ in_file (fs v) l s -> s <> dir_sect p -> (fs_type (fs v) = FS_FAT32 -> s <> volbase (fs v) + 1) -> L' !! s = L !! s) /\
    blk_holds (dsk v') st /\ st !! dir_sect p = Some (dir_entry p w) /\ (forall i, 0 <= i < nsects (fs v) l -> st !! fsect (fs v) l i = Some (view p L (fsect (fs v) l i)))).
Proof.
  intros (C & O & Hp) Dk Hf. pose proof (proj1 (ch_vol _ _ _ C)) as G. destruct (chain_all v L l C) as [Al _]. unfold f_sync. eapply returns_step; [apply (validate_spec v p L l rb c C (proj1 O))|].
  eapply returns_step; [reflexivity|]. cbn [fil Z.eqb andb]. change FA__WRITTEN with (2 ^ 5) at 1. rewrite flag_test, Hf by lia. cbn [negb andb]. change (FR_OK =? FR_OK) with true. cbn [andb].
  destruct (write_back_spec v p L l rb c C (proj1 O)) as (r & s1 & E1 & -> & v1 & p1 & L1 & -> & F1 & C1 & O1 & Q1 & D1 & P1).
  eapply returns_step; [apply sync_buf_run, E1|]. cbv beta iota.
  assert (Ed : dir_sect p1 = dir_sect p /\ dsect p1 = dsect p /\ fptr p1 = fptr p /\ clust p1 = clust p /\ buf p1 = buf p) by (by rewrite P1). destruct Ed as (Ed & Eds & Ef & Ec & Eb).
  destruct Dk as [Ds Dp Dc Dt Df Dbuf Di]. pose proof (g_data _ G) as Gd. pose proof (g_fsize _ G) as Gs. assert (Gf : fsize (fs v) <= n_fats (fs v) * fsize (fs v)) by (destruct (g_copies _ G) as [-> | ->]; lia).
  assert (Low : forall s, s < database (fs v) -> L1 !! s = L !! s) by (intros s Hs; apply (q_disk _ _ _ _ _ _ Q1); intros (i & Hi & ->); pose proof (fsect_range _ l G Al i Hi); lia).
  assert (Dk1 : dir_ok (fs v1) L1 l p w).
  { rewrite F1. constructor; try done; [by rewrite (q_disk _ _ _ _ _ _ Q1)|]. intros H32. destruct (Di H32) as (? & ? & ? & ?). split_and!; try done. by rewrite Low by lia. }
  destruct (sync_entry v1 L1 l p w C1 Dk1) as (r & v2 & E2 & -> & R2 & L2 & st & C2 & Hd & Oth & Hst & Hs). rewrite F1 in *.
  eapply returns_intro; [apply sync_entry_run, E2|]. split; [done|]. set (x := bitand_not 8 (flag p1) FA__WRITTEN).
  assert (Hx : forall j, 0 <= j -> Z.testbit x j = Z.testbit (flag p1) j && negb (j =? 5)) by (intros; apply (clear_bit _ 5); [apply O1|lia|lia]).
  assert (Nd : forall s, in_file (fs v) l s -> L2 !! s = L1 !! s).
  { intros s Hi. apply Oth; [intros ->; done|]. intros H32 ->. destruct (Di H32) as (_ & ? & _). destruct Hi as (i & Hi & Ei). pose proof (fsect_range _ l G Al i Hi). lia. }
  assert (Ok1 : fil_ok (fs v) L1 l p1).
  { split; [constructor; [done|rewrite Ef; apply O|rewrite Ef, Eds; apply O]|rewrite Ef, Ec; apply O]. }
  assert (Ok2 : fil_ok (fs v) L2 l p1).
  { destruct (fo_clean _ _ _ _ (proj1 Ok1) D1) as [E0|[Hdb _]].
    - destruct Ok1 as [[[U1 U2 U3 U4 U5 U6 U7 U8] U9 U10] U11]. split; [|done]. constructor; [|done|done]. constructor; try done. intros _. by left.
    - apply (fil_ok_disk _ L1); [done|]. apply Oth; [by rewrite Eds|]. intros H32 E. destruct (Di H32) as (_ & ? & _). lia. }
  destruct (fo_size _ _ _ _ (proj1 Ok1)) as [Hz1 Hz2].
  destruct (fil_ok_sized (fs v) L2 l p1 (fil_size p1) x Ok2 Hz1 Hz2) as [Ok3 V3]; [apply inu_bitand_not; lia|rewrite Hx by lia; apply andb_true_r|].
  replace (set_flag x (set_fil_size (fil_size p1) p1)) with (set_flag x p1) in Ok3, V3 by (by destruct p1).
  assert (Vs : forall i, 0 <= i < nsects (fs v) l -> view (set_flag x p1) L2 (fsect (fs v) l i) = view p L (fsect (fs v) l i)).
  { intros i Hi. rewrite V3, <- (q_view _ _ _ _ _ _ Q1) by done. unfold view. rewrite D1. cbn [andb]. rewrite Nd; [done|]. by exists i. }
  exists v2, (set_flag x p1), L2, st. split; [done|]. split; [done|].
  split. { split; [done|]. split; [by apply (fil_ok_same (fs v))|]. assert (Ez : fil_size p1 = fil_size p) by apply Q1. cbn [fptr fil_size set_flag]. by rewrite Ef, Ez. }
  split_and!.
  - unfold contents. assert (Ez : fil_size (set_flag x p1) = fil_size p) by apply Q1. rewrite Ez. apply map_seqZ_ext. intros j Hj. rewrite (fbyte_same _ _ _ _ _ _ R2). unfold fbyte. rewrite Vs; [done|].
    destruct (fo_size _ _ _ _ (proj1 O)). split; [apply Z.div_pos; lia|apply Z.div_lt_upper_bound; lia].
  - done.
  - cbn [flag set_flag]. rewrite Hx by lia. apply andb_false_r.
  - intros s N1 N2 N3. rewrite Oth by done. by apply (q_disk _ _ _ _ _ _ Q1).
  - exact Hst.
  - by rewrite Hs by done.
  - intros i Hi. destruct (chain_sector v L l i C Hi) as (b0 & Eb0 & _ & _ & Hr & _). rewrite Hs by (apply data_not_copy; [done|lia]). rewrite <- Vs by done. unfold view.
    assert (Dz : dirty (set_flag x p1) = false) by (rewrite dirty_bit; cbn [flag set_flag]; rewrite Hx, <- dirty_bit, D1 by lia; done). rewrite Dz. cbn [andb].
    rewrite Nd by (by exists i). destruct (chain_sector v1 L1 l i C1) as (b1 & Eb1 & _); [by rewrite F1|]. rewrite F1 in Eb1. by rewrite Eb1.
Qed.
End Flushing.

(** ** The theorems *)

(** An array of bytes with a position, and what the operations do to it; a write may store
    fewer bytes than given. *)
Inductive file_op := OpRead (n : Z) | OpWrite (data : list Z) | OpSeek (ofs : Z).
Inductive file_res := ResRead (data : list Z) | ResWrite (n : Z) | ResSeek.

Inductive array_step : list Z * Z -> file_op -> Z * file_res -> list Z * Z -> Prop :=
| array_read c q n : let d := take (Z.to_nat n) (drop (Z.to_nat q) c) in
    array_step (c, q) (OpRead n) (FR_OK, ResRead d) (c, q + Z.of_nat (length d))
| array_write c q data n : 0 <= n <= Z.of_nat (length data) ->
    array_step (c, q) (OpWrite data) (FR_OK, ResWrite n) (copy_to q (take (Z.to_nat n) data) c, q + n)
| array_seek c q ofs : array_step (c, q) (OpSeek ofs) (FR_OK, ResSeek) (c, ofs).

Inductive array_run : list Z * Z -> list file_op -> list (Z * file_res) -> list Z * Z -> Prop :=
| array_done a : array_run a [] [] a
| array_next a op r a1 ops rs a2 : array_step a op r a1 -> array_run a1 ops rs a2 -> array_run a (op :: ops) (r :: rs) a2.

(** Seeks are in the file of [z] bytes, writes are bytes. *)
Definition op_ok (z : Z) (op : file_op) : Prop :=
  match op with OpRead n => 0 <= n | OpWrite data => Forall (inu 8) data | OpSeek ofs => 0 <= ofs <= z end.
(** A write stored all its bytes. *)
Definition stored (op : file_op) (r : Z * file_res) : Prop := match op, snd r with OpWrite data, ResWrite n => n = Z.of_nat (length data) | _, _ => True end.
Definition op_size (op : file_op) : Z := match op with OpWrite data => Z.of_nat (length data) | _ => 0 end.

Section Theorems.
Context {D : Type} `{BlockLaws D}.
Implicit Types (v : volume D) (p : FIL) (L : sectors) (l : list Z).

(** The calls, each with a buffer of its own. *)
Definition exec (op : file_op) : ST (io D) (Z * file_res) :=
  match op with
  | OpRead n => modify (set_rbuff []) ;; let! r := f_read n in let! s := gets (fun s => s) in ret (r, ResRead (slice 0 (count s) (rbuff s)))
  | OpWrite data => let! r := f_write data (Z.of_nat (length data)) in let! s := gets (fun s => s) in ret (r, ResWrite (count s))
  | OpSeek ofs => let! r := f_lseek ofs in ret (r, ResSeek)
  end.
Fixpoint exec_all (ops : list file_op) : ST (io D) (list (Z * file_res)) :=
  match ops with [] => ret [] | op :: ops' => let! r := exec op in let! rs := exec_all ops' in ret (r :: rs) end.

(** A file open for reading and writing on the disk [L] that is the array [a]. *)
Definition array_file v p L (a : list Z * Z) : Prop := exists l, file_rep v p L l /\ l <> [] /\ sane (fs v) L /\
  Z.testbit (flag p) 0 = true /\ Z.testbit (flag p) 1 = true /\ contents (fs v) p L l = fst a /\ fptr p = snd a.

Lemma chain_used ent n l c : is_chain ent n l -> c ∈ l -> ent c <> 0.
Proof.
  intros C Hc. apply list_elem_of_lookup in Hc as [k Ek]. destruct (chain_next _ _ _ _ _ C Ek) as [E1 E2]. destruct (l !! S k) as [y|] eqn:Ey; cbn in E1.
  - assert (Hy : y ∈ l) by (by eapply list_elem_of_lookup_2). apply list_elem_of_split in Hy as (l1 & l2 & ->). apply chain_suffix, is_chain_head in C. lia.
  - specialize (E2 eq_refl). apply list_elem_of_lookup_2, list_elem_of_split in Ek as (l1 & l2 & ->). apply chain_suffix, is_chain_head in C. lia.
Qed.

Lemma read_slice (c : list Z) q n z : z = Z.of_nat (length c) -> 0 <= q <= z -> 0 <= n ->
  slice q (Z.min n (z - q)) c = take (Z.to_nat n) (drop (Z.to_nat q) c) /\ Z.of_nat (length (take (Z.to_nat n) (drop (Z.to_nat q) c))) = Z.min n (z - q).
Proof.
  intros Hz Hq Hn. split; [|rewrite length_take, length_drop; lia]. unfold slice. destruct (Z_le_gt_dec n (z - q)) as [Hm|Hm]; [by rewrite Z.min_l by lia|].
  rewrite Z.min_r by lia. rewrite !take_ge by (rewrite length_drop; lia). done.
Qed.

Lemma array_file_quiet v p L l v' p' L' n a : file_rep v p L l -> l <> [] -> sane (fs v) L -> Z.testbit (flag p) 0 = true -> Z.testbit (flag p) 1 = true ->
  at_rest v p L l n v' p' L' -> fptr p + n <= fil_size p -> contents (fs v) p L l = a -> array_file v' p' L' (a, fptr p + n) /\ (full (fs v) L -> full (fs v') L').
Proof.
  intros (C & O & Hp) Nl Sa F0 F1 (R & C' & O' & P & Q) Hn Ea. destruct (chain_all v L l C) as [Al _]. pose proof (proj1 (ch_vol _ _ _ C)) as G. destruct (fat_bounds_same _ _ R) as (_ & _ & En).
  destruct (q_same _ _ _ _ _ _ Q) as (_ & _ & _ & Ez & _). destruct (file_only (fs v) L L' l G Al (q_disk _ _ _ _ _ _ Q)) as (_ & Fe & Sa'). split.
  - exists l. split_and!; try done.
    + split; [done|]. split; [done|]. by rewrite Ez, P.
    + intros c Hc. rewrite (fat_entry_same _ _ _ _ R). rewrite En in Hc. by apply Sa'.
    + by rewrite (q_flag _ _ _ _ _ _ Q) by lia.
    + by rewrite (q_flag _ _ _ _ _ _ Q) by lia.
    + rewrite <- Ea. by apply (quiet_contents v v' p L p' L' l C (proj1 O)).
  - intros Fu c Hc. rewrite (fat_entry_same _ _ _ _ R). rewrite En in Hc. rewrite Fe by done. by apply Fu.
Qed.

Lemma full_wrote v p L l v' p' L' l' : rest_same (fs v) (fs v') -> file_rep v' p' L' l' -> l' <> [] -> wrote (fs v) L l L' l' -> full (fs v) L -> full (fs v') L'.
Proof.
  intros R (C & _) Nl W Fu c Hc. destruct (fat_bounds_same _ _ R) as (_ & _ & En). destruct (decide (c ∈ l')) as [Hi|Hi].
  - destruct (ch_chain _ _ _ C) as [->|Ch]; [done|]. by apply (chain_used _ _ _ c Ch).
  - rewrite (fat_entry_same _ _ _ _ R). rewrite En in Hc. rewrite (w_fat _ _ _ _ _ W) by done. by apply Fu.
Qed.

(** One call is one step of the array; a write is short only when it has filled the volume. *)
Lemma exec_step v p L rb c op a : array_file v p L a -> op_ok (Z.of_nat (length (fst a))) op -> Z.of_nat (length (fst a)) + op_size op < 2 ^ 32 ->
  returns (exec op) (Io v p rb c) (fun r s' => exists v' p' rb' c' L' a', s' = Io v' p' rb' c' /\ array_step a op r a' /\ array_file v' p' L' a' /\
    Z.of_nat (length (fst a)) <= Z.of_nat (length (fst a')) <= Z.of_nat (length (fst a)) + op_size op /\
    (stored op r \/ full (fs v') L') /\ (full (fs v) L -> full (fs v') L')).
Proof.
  destruct a as [cs q]. intros (l & R & Nl & Sa & F0 & F1 & Ec & Eq) Hop Hz. cbn [fst snd] in *. pose proof R as (C & O & Hp). destruct (fo_pos _ _ _ _ (proj1 O)) as [Op _].
  assert (Ez : fil_size p = Z.of_nat (length cs)) by (rewrite <- Ec, contents_length; destruct (fo_size _ _ _ _ (proj1 O)); lia). destruct op as [n|data|ofs]; cbn [exec op_size op_ok] in *.
  - eapply returns_step; [reflexivity|]. eapply returns_bind; [apply (f_read_spec v p L l n c R F0 Hop)|]. cbv zeta. intros r s' (-> & v' & p' & L' & -> & A). eapply returns_step; [reflexivity|]. apply returns_ret.
    cbn [rbuff count]. destruct (read_slice cs q n (fil_size p) Ez ltac:(lia) Hop) as [Es El]. rewrite <- Eq in Es, El. rewrite Ec, Es, slice_0 by lia.
    destruct (array_file_quiet v p L l v' p' L' _ cs R Nl Sa F0 F1 A ltac:(lia) Ec) as [Af Fu].
    eexists v', p', _, _, L', (cs, _). split; [done|]. rewrite <- Eq. split; [apply array_read|]. rewrite El. split_and!; [done|cbn; lia..|by left|done].
  - eapply returns_bind; [apply (f_write_spec v p L l data rb c R F1 Sa); (done || lia)|]. intros r s' (-> & n & v' & p' & L' & l' & Hn & -> & W). eapply returns_step; [reflexivity|]. apply returns_ret. cbn [count].
    destruct W as (Rs & R' & P' & Ec' & Wr & Sa' & Short & _ & _ & _ & B0 & B1). destruct (w_more _ _ _ _ _ Wr) as (k & -> & _). destruct (fat_bounds_same _ _ Rs) as (_ & _ & En).
    assert (Nk : l ++ k <> []) by (by destruct l).
    exists v', p', rb, n, L', (copy_to q (take (Z.to_nat n) data) cs, q + n). split; [done|]. split; [by constructor|]. split_and!.
    + exists (l ++ k). split_and!; try done; [intros x Hx; rewrite (fat_entry_same _ _ _ _ Rs); apply Sa'; by rewrite <- En|congruence|congruence| |cbn; lia].
      rewrite Ec', Ec, Eq. unfold slice. by rewrite drop_0.
    + cbn [fst]. unfold copy_to. rewrite !length_app, !length_take, length_drop. lia.
    + cbn [fst]. unfold copy_to. rewrite !length_app, !length_take, length_drop. lia.
    + destruct Short as [->|Fu]; [by left|right]. intros x Hx. rewrite (fat_entry_same _ _ _ _ Rs). apply Fu. by rewrite <- En.
    + by apply (full_wrote v p L l v' p' L' (l ++ k)).
  - eapply returns_bind; [apply (f_lseek_spec v p L l rb c ofs R); [lia|left; lia]|]. intros r s' (-> & v' & p' & L' & -> & A). apply returns_ret. rewrite Z.min_l in A by lia.
    destruct (array_file_quiet v p L l v' p' L' _ cs R Nl Sa F0 F1 A ltac:(lia) Ec) as [Af Fu]. replace (fptr p + (ofs - fptr p)) with ofs in Af by lia.
    exists v', p', rb, c, L', (cs, ofs). split; [done|]. split; [constructor|]. split_and!; [done|cbn; lia..|by left|done].
Qed.

(** C15. A file open for reading and writing is an array of bytes with a position: whatever
    reads, writes and seeks (into the file) a program makes, in any order and of any size,
    every call succeeds and returns what the same operations return on the array.  Reads
    and writes of parts of sectors go through the buffer of the file object, whole sectors
    past it, clusters follow the allocation table and the file grows into free clusters.
    Every write stores all its bytes unless no free cluster is left on the volume. *)
Theorem file_is_array v p L rb c ops a : array_file v p L a -> Forall (op_ok (Z.of_nat (length (fst a)))) ops ->
  Z.of_nat (length (fst a)) + fold_right Z.add 0 (map op_size ops) < 2 ^ 32 ->
  returns (exec_all ops) (Io v p rb c) (fun rs s' => exists L' a', array_run a ops rs a' /\ array_file (vol s') (fil s') L' a' /\
    (Forall2 stored ops rs \/ full (fs (vol s')) L')).
Proof.
  enough (Gen : forall ops v p L rb c a z, array_file v p L a -> z <= Z.of_nat (length (fst a)) -> Forall (op_ok z) ops -> Z.of_nat (length (fst a)) + fold_right Z.add 0 (map op_size ops) < 2 ^ 32 ->
    returns (exec_all ops) (Io v p rb c) (fun rs s' => exists L' a', array_run a ops rs a' /\ array_file (vol s') (fil s') L' a' /\
      (Forall2 stored ops rs \/ full (fs (vol s')) L') /\ (full (fs v) L -> full (fs (vol s')) L'))).
  { intros A F Hs. eapply returns_mono; [by apply (Gen ops v p L rb c a (Z.of_nat (length (fst a))))|]. cbv beta. intros rs s' (L' & a' & R' & A' & St & _). by exists L', a'. }
  clear. induction ops as [|op ops IH]; intros v p L rb c a z A Hz F Hs; cbn [exec_all].
  - apply returns_ret. exists L, a. split; [constructor|]. split_and!; [done|by left|done].
  - apply Forall_cons in F as [Fo F]. cbn [map fold_right] in Hs.
    assert (Hp : 0 <= fold_right Z.add 0 (map op_size ops)) by (clear; induction ops as [|[] ? ?]; cbn in *; lia).
    eapply returns_bind; [apply (exec_step v p L rb c op a A); [destruct op; cbn in *; (done || lia)|lia]|].
    intros r s' (v1 & p1 & rb1 & c1 & L1 & a1 & -> & S1 & A1 & Hl & St1 & Fu1). eapply returns_bind; [apply (IH v1 p1 L1 rb1 c1 a1 z A1); (done || lia)|].
    intros rs s' (L2 & a2 & R2 & A2 & St2 & Fu2). apply returns_ret. exists L2, a2. split; [by econstructor|]. split_and!; [done| |by eauto].
    destruct St1 as [St1|Fx]; [|right; by apply Fu2]. destruct St2 as [St2|Fx]; [left; by constructor|by right].
Qed.

(** Clusters without a common one have no common sector. *)
Lemma clusters_apart f l m i s : geom_ok f -> all_clusters f l -> all_clusters f m -> (forall x, x ∈ m -> x ∉ l) -> 0 <= i < nsects f m -> s = fsect f m i -> ~ in_file f l s.
Proof.
  intros G Al Am Dj Hi -> (j & Hj & E). destruct (sector_cluster f m G Am i Hi) as (_ & Mi & c & Ec & Hc & Ei). destruct (sector_cluster f l G Al j Hj) as (_ & Mj & c' & Ec' & Hc' & Ej).
  rewrite Ei, Ej in E. unfold csect in E. pose proof (g_csize _ G). assert (c = c') as <- by nia. apply (Dj c); by eapply list_elem_of_lookup_2.
Qed.

(** C17. Writing to a file never touches another: for every other chain of clusters of the
    volume (another file, a directory), the chain is still there after [f_write], has no
    cluster in common with the file, which may have grown, and not a byte of its sectors
    has changed. *)
Theorem file_write_keeps_others v p L l data rb c m : file_rep v p L l -> Z.testbit (flag p) 1 = true -> sane (fs v) L -> (l = [] -> 3 <= n_fatent (fs v) /\ 0 <= last_clust (fs v)) ->
  Forall (inu 8) data -> fptr p + Z.of_nat (length data) < 2 ^ 32 ->
  is_chain (fat_entry (fs v) L) (n_fatent (fs v)) m -> (forall x, x ∈ m -> x ∉ l) ->
  returns (f_write data (Z.of_nat (length data))) (Io v p rb c) (fun r s' => r = FR_OK /\ exists L' l', file_rep (vol s') (fil s') L' l' /\
    is_chain (fat_entry (fs (vol s')) L') (n_fatent (fs (vol s'))) m /\ (forall x, x ∈ m -> x ∉ l') /\
    forall i, 0 <= i < nsects (fs v) m -> L' !! fsect (fs v) m i = L !! fsect (fs v) m i).
Proof.
  intros R F1 Sa Hroom Bd Hw Cm Dj. pose proof R as (C & _). pose proof (proj1 (ch_vol _ _ _ C)) as G. destruct (chain_all v L l C) as [Al _]. pose proof (chain_clusters _ _ _ Cm) as Am.
  eapply returns_mono; [by apply (f_write_spec v p L l data rb c)|]. cbv beta. intros r s' (-> & n & v' & p' & L' & l' & Hn & -> & Rs & R' & _ & _ & [(k & -> & Fk) Wf Wd] & _). split; [done|].
  exists L', (l ++ k). cbn [vol fil]. destruct (fat_bounds_same _ _ Rs) as (_ & _ & En). destruct (chain_all v' L' (l ++ k) (proj1 R')) as [Al' _]. assert (Al2 : all_clusters (fs v) (l ++ k)) by (intros x Hx; rewrite <- En; by apply Al').
  assert (Dj' : forall x, x ∈ m -> x ∉ l ++ k).
  { intros x Hx Hi. apply elem_of_app in Hi as [Hi|Hi]; [by apply (Dj x)|]. by apply (chain_used _ _ _ x Cm Hx), Fk. }
  split_and!; [done| |done|].
  - rewrite En. apply (chain_ext (fat_entry (fs v) L)); [|done]. intros x Hx. rewrite (fat_entry_same _ _ _ _ Rs). apply Wf; [by apply Am|by apply Dj'].
  - intros i Hi. apply Wd; [|by apply (clusters_apart (fs v) (l ++ k) m i)]. apply (file_not_table (fs v) m _ G Am). by exists i.
Qed.

Lemma first_range v p L l : chain_rep v L l -> fil_base (fs v) L l p -> inu 32 (fil_size p) /\ inu 32 (sclust p).
Proof.
  intros C O. destruct (fo_size _ _ _ _ O) as [Hz _]. split; [exact Hz|]. rewrite (fo_first _ _ _ _ O). destruct (chain_all v L l C) as [Al _]. pose proof (proj1 (ch_vol _ _ _ C)) as G.
  assert (n_fatent (fs v) < 2 ^ 32) by (destruct (g_type _ G) as [(_ & ? & _)|[(_ & ? & _)|(_ & ? & _)]]; lia).
  destruct l as [|x l]; cbn; unfold inu; [lia|]. pose proof (Al x ltac:(left)). lia.
Qed.

(** C16. After [f_sync] of a changed file everything is on the drive: the sectors of the file
    as the program sees them, buffered bytes included, and the directory entry with the
    size and the first cluster; the file is as before, and apart from its own sectors, the
    sector of the entry and the information sector of FAT32 nothing on the disk changed. *)
Theorem file_synced v p L l w rb c : file_rep v p L l -> dir_ok (fs v) L l p w -> Z.testbit (flag p) 5 = true ->
  returns f_sync (Io v p rb c) (fun r s' => r = FR_OK /\ exists L' st e, file_rep (vol s') (fil s') L' l /\ contents (fs (vol s')) (fil s') L' l = contents (fs v) p L l /\
    blk_holds (dsk (vol s')) st /\ st !! dir_sect p = Some e /\ entry_of p w e /\
    (forall i, 0 <= i < nsects (fs v) l -> st !! fsect (fs v) l i = Some (view p L (fsect (fs v) l i))) /\
    forall s, ~ in_file (fs v) l s -> s <> dir_sect p -> (fs_type (fs v) = FS_FAT32 -> s <> volbase (fs v) + 1) -> L' !! s = L !! s).
Proof.
  intros R Dk Hf. pose proof R as (C & O & _). destruct (proj1 (proj2 (ch_vol _ _ _ C)) _ _ (do_sector _ _ _ _ _ Dk)) as [Lw Bw]. destruct (first_range v p L l C (proj1 O)) as [Zs Zc].
  pose proof (dir_entry_of p w (do_ptr _ _ _ _ _ Dk) Lw Bw Zs Zc) as En.
  eapply returns_mono; [by apply (f_sync_spec v p L l w rb c)|]. cbv beta. intros r s' (-> & v' & p' & L' & st & -> & _ & R' & Ec & _ & _ & Oth & Hst & Hd & Hs).
  split; [done|]. exists L', st, (dir_entry p w). by split_and!.
Qed.
End Theorems.

(** ** Concrete runs *)
Definition demo_fil : FIL := Fil true 1 0x23 0 0 1500 2 0 0 3 0 (replicate 512 0).

Lemma demo_data_present s : 4 <= s < 10 -> is_Some (demo_vol_sectors !! s).
Proof. intros Hs. assert (s = 4 \/ s = 5 \/ s = 6 \/ s = 7 \/ s = 8 \/ s = 9) as Hc by lia. destruct Hc as [->|[->|[->|[->|[->| ->]]]]]; vm_compute; eauto. Qed.

Lemma demo_file_rep : file_rep demo_volume demo_fil demo_vol_sectors [2; 3; 4].
Proof.
  split; [|split; [split|]].
  - constructor; [exact demo_vol_rep|by exists 0|intros s Hs; apply demo_data_present; cbn in Hs; lia|right; exact demo_chain|].
    intros i Hi. unfold nsects in Hi. cbn in Hi. assert (i = 0 \/ i = 1 \/ i = 2) as [->|[->| ->]] by lia; vm_compute; discriminate.
  - constructor; [constructor|cbn; unfold nsects; cbn; lia|done]; try done.
    + split; [done|]. apply Forall_replicate. unfold inu. lia.
    + by left.
  - cbn. lia.
  - cbn. lia.
Qed.

Lemma demo_sane : sane demo_fatfs demo_vol_sectors.
Proof.
  intros c Hc. change (n_fatent demo_fatfs) with 8 in Hc. assert (c = 2 \/ c = 3 \/ c = 4 \/ c = 5 \/ c = 6 \/ c = 7) as H by lia.
  destruct H as [->|[->|[->|[->|[->| ->]]]]]; vm_compute; discriminate.
Qed.

Definition demo_ops : list file_op := [OpRead 700; OpSeek 1490; OpWrite (replicate 600 9); OpSeek 1000; OpRead 2000].

Lemma file_is_array_witness : exists L a, array_file demo_volume demo_fil L a /\
  returns (exec_all demo_ops) (Io demo_volume demo_fil [] 0) (fun rs s' => exists L' a', array_run a demo_ops rs a' /\ array_file (vol s') (fil s') L' a' /\
    (Forall2 stored demo_ops rs \/ full (fs (vol s')) L')).
Proof.
  set (a := (contents demo_fatfs demo_fil demo_vol_sectors [2; 3; 4], 0)). assert (La : length (fst a) = 1500%nat) by (unfold a; cbn [fst]; by rewrite contents_length).
  assert (A : array_file demo_volume demo_fil demo_vol_sectors a) by (exists [2; 3; 4]; split_and!; [exact demo_file_rep|done|exact demo_sane|done..]).
  exists demo_vol_sectors, a. split; [exact A|]. apply (file_is_array demo_volume demo_fil demo_vol_sectors [] 0 demo_ops a A); rewrite La.
  - unfold demo_ops. rewrite !Forall_cons, Forall_nil. cbn [op_ok]. split_and!; first [lia|done|apply Forall_replicate; unfold inu; lia].
  - cbn -[replicate length]. rewrite length_replicate. lia.
Defined.

Lemma file_write_keeps_others_witness : exists v p L, file_rep v p L [2; 3; 4] /\ is_chain (fat_entry (fs v) L) (n_fatent (fs v)) [5] /\
  returns (f_write (replicate 2000 9) 2000) (Io v p [] 0) (fun r s' => r = FR_OK /\ exists L' l', file_rep (vol s') (fil s') L' l' /\
    is_chain (fat_entry (fs (vol s')) L') (n_fatent (fs (vol s'))) [5] /\ (forall x, x ∈ [5] -> x ∉ l') /\
    forall i, 0 <= i < nsects (fs v) [5] -> L' !! fsect (fs v) [5] i = L !! fsect (fs v) [5] i).
Proof.
  exists demo_volume, demo_fil, demo_vol_sectors. assert (C5 : is_chain (fat_entry (fs demo_volume) demo_vol_sectors) (n_fatent (fs demo_volume)) [5]) by (vm_compute; intuition (done || lia)).
  split; [exact demo_file_rep|]. split; [exact C5|].
  apply (file_write_keeps_others demo_volume demo_fil demo_vol_sectors [2; 3; 4] (replicate 2000 9) [] 0 [5]); [exact demo_file_rep|done|exact demo_sane|done| | |exact C5|].
  - apply Forall_replicate. unfold inu. lia.
  - rewrite length_replicate. cbn. lia.
  - intros x Hx. apply list_elem_of_singleton in Hx as ->. vm_decide.
Defined.

Lemma file_synced_witness : exists v p L, file_rep v p L [2; 3; 4] /\
  returns f_sync (Io v p [] 0) (fun r s' => r = FR_OK /\ exists L' st e, file_rep (vol s') (fil s') L' [2; 3; 4] /\ contents (fs (vol s')) (fil s') L' [2; 3; 4] = contents (fs v) p L [2; 3; 4] /\
    blk_holds (dsk (vol s')) st /\ st !! 3 = Some e /\ entry_of p (replicate 512 3) e /\
    (forall i, 0 <= i < nsects (fs v) [2; 3; 4] -> st !! fsect (fs v) [2; 3; 4] i = Some (view p L (fsect (fs v) [2; 3; 4] i))) /\
    forall s, ~ in_file (fs v) [2; 3; 4] s -> s <> 3 -> (fs_type (fs v) = FS_FAT32 -> s <> volbase (fs v) + 1) -> L' !! s = L !! s).
Proof.
  exists demo_volume, demo_fil, demo_vol_sectors. split; [exact demo_file_rep|].
  apply (file_synced demo_volume demo_fil demo_vol_sectors [2; 3; 4] (replicate 512 3) [] 0); [exact demo_file_rep| |done].
  constructor; [vm_compute; reflexivity|cbn; lia|unfold in_copy; cbn; lia|unfold in_table; cbn; lia| |done|done].
  intros (i & Hi & E). unfold nsects in Hi. cbn in Hi. assert (i = 0 \/ i = 1 \/ i = 2) as [->|[->| ->]] by lia; vm_compute in E; discriminate E.
Defined.
