(* ===== verification/Drive.v ===== *)
(** * The SD card as the drive of FatFs

    FatFs calls the disk functions with a buffer in memory; [Fat] and [FatFile] are stated
    over the class [BlockDevice], whose operations take and return the bytes.  Here the
    functions of [driver/diskio.c] ([Disk]) are such a drive: the buffer is put in memory,
    the driver runs over the SPI core, and what it leaves in the buffer is the result.
    With a card that follows the protocol of [SdCard] the drive satisfies [BlockLaws], so
    every theorem on volumes and files holds over the driver and the card. *)

From Stdlib Require Import ZArith Lia Bool List.
From stdpp Require Import base gmap list.
From S2P Require Import Prelude Machine Memory Disk SdCard Fat FatFile.
Open Scope Z_scope.
Open Scope word_scope.

(** ** The drive *)
Section Drive.
Context {U : Type} `{SpiDevice U}.

(** A buffer at address 0 with the bytes [l]. *)
Definition buffer (l : list Z) (d : disk U) : disk U := set_dmem (write_bytes ∅ 0 l) d.

(** The functions of the driver as operations of a drive; a call that does not return has
    no result, and is given as an error. *)
#[export] Instance sd_drive : BlockDevice (disk U) := {
  blk_read drv s n d :=
    match disk_read drv 0 s n (buffer (replicate (Z.to_nat (512 * n)) 0) d) with
    | Ret r d' => (r, default [] (read_bytes (dmem d') 0 (Z.to_nat (512 * n))), d')
    | _ => (RES_ERROR, [], d)
    end;
  blk_write drv data s n d := match disk_write 1 drv 0 s n (buffer data d) with Ret r d' => (r, d') | _ => (RES_ERROR, d) end;
  blk_sync drv d := match disk_ioctl 0 drv CTRL_SYNC 0 d with Ret r d' => (r, d') | _ => (RES_ERROR, d) end;
  blk_status drv d := match disk_status drv d with Ret r _ => r | _ => STA_NOINIT end;
  blk_initialize drv d := match disk_initialize drv d with Ret r d' => (r, d') | _ => (STA_NOINIT, d) end;
}.
End Drive.

(** ** Its laws *)
Section Laws.
Context {U C : Type} `{SpiLaws U C} `{!SdCard C}.
Implicit Types (d : disk U) (st : sectors).

(** The card is mounted and may be written, and its sectors can be addressed. *)
Definition drive_holds d st : Prop :=
  mounted d st /\ (Stat d &&& STA_PROTECT) = 0 /\ map_Forall (fun s _ => 0 <= s < 0xFFFFFFFF /\ inu 32 (sd_address sd_hc s)) st.

Lemma drive_buffer d st l : mounted d st -> mounted (buffer l d) st.
Proof. intros (Hd & Ok & E). split; [exact Hd|]. by split. Qed.

Lemma buffer_bytes l : Z.of_nat (length l) <= 2 ^ 64 -> read_bytes (write_bytes ∅ 0 l) 0 (length l) = Some l.
Proof. intros Hl. apply read_write_bytes. lia. Qed.

Lemma drive_range d st s n : drive_holds d st -> present st s n -> (0 < n)%nat -> Z.of_nat n < 2 ^ 32 /\ inu 32 (sd_address sd_hc s).
Proof.
  intros (_ & _ & Lim) P Hn. destruct (P s ltac:(lia)) as [b Eb]. destruct (P (s + Z.of_nat n - 1) ltac:(lia)) as [b' Eb'].
  destruct (Lim s b Eb) as [Hs Ha]. destruct (Lim _ _ Eb') as [Hs' _]. split; [lia|done].
Qed.

Lemma run_present st l : forall s, sector_run st s l -> present st s (length l).
Proof.
  induction l as [|b l IH]; intros s R i Hi; cbn [length] in Hi; [lia|]. destruct R as [E R]. destruct (decide (i = s)) as [->|Ne]; [by exists b|]. apply (IH (s + 1) R). lia.
Qed.

Lemma concat_length st l : forall s, sectors_ok st -> sector_run st s l -> length (concat l) = (512 * length l)%nat.
Proof.
  induction l as [|b l IH]; intros s Ok R; [done|]. destruct R as [E R]. cbn [concat length]. destruct (Ok s b E) as [Lb _]. rewrite length_app, Lb, (IH _ Ok R). lia.
Qed.

Lemma drive_read d st s l : drive_holds d st -> l <> [] -> sector_run st s l ->
  exists d', blk_read 0 s (Z.of_nat (length l)) d = (RES_OK, concat l, d') /\ drive_holds d' st.
Proof.
  intros Hd Nl R. pose proof Hd as (Hm & Hp & Lim). pose proof Hm as (_ & Ok & _). destruct (drive_range d st s (length l) Hd (run_present _ _ _ R)) as [Hn Ha]; [by destruct l; cbn; [|lia]|].
  cbn [blk_read sd_drive]. replace (Z.to_nat (512 * Z.of_nat (length l))) with (512 * length l)%nat by lia. set (z := replicate (512 * length l) 0).
  assert (Lz : length z = (512 * length l)%nat) by apply length_replicate.
  destruct (disk_read_ok (buffer z d) st s l 0 (drive_buffer d st z Hm) R Nl Ha) as (r & d' & E & -> & M' & F').
  { exists z. rewrite <- Lz. apply buffer_bytes. rewrite Lz. lia. }
  rewrite E. destruct F' as (F1 & F2 & F3). exists d'. split; [|split; [done|]; split; [|done]; by rewrite F2].
  rewrite F1. pose proof (concat_length st l s Ok R) as Lc. rewrite <- Lc, read_write_bytes by lia. done.
Qed.

Lemma drive_write d st s l : drive_holds d st -> l <> [] -> blocks_ok l -> present st s (length l) ->
  exists d', blk_write 0 (concat l) s (Z.of_nat (length l)) d = (RES_OK, d') /\ drive_holds d' (write_run st s l).
Proof.
  intros Hd Nl B P. pose proof Hd as (Hm & Hp & Lim). destruct (drive_range d st s (length l) Hd P) as [Hn Ha]; [by destruct l; cbn; [|lia]|].
  assert (Lc : length (concat l) = (512 * length l)%nat) by (clear -B; induction B as [|b l [Lb _] B IH]; [done|]; cbn [concat length]; rewrite length_app, Lb, IH; lia).
  cbn [blk_write sd_drive]. destruct (disk_write_ok 1 ltac:(lia) (buffer (concat l) d) st s l 0 (drive_buffer d st _ Hm) Hp P Nl B Hn Ha) as (r & d' & E & -> & M' & V1 & V2 & V3).
  { rewrite <- Lc. apply buffer_bytes. rewrite Lc. lia. }
  rewrite E. exists d'. split; [done|]. split; [done|]. split; [by rewrite V2|]. clear -Lim P. revert st s Lim P. induction l as [|b l IH]; intros st s Lim P; [done|]. cbn [write_run length] in *.
  destruct (P s ltac:(lia)) as [x Ex]. apply IH; [apply map_Forall_insert_2; [exact (Lim s x Ex)|done]|].
  intros i Hi. rewrite lookup_insert_ne by lia. apply P. lia.
Qed.

Lemma drive_sync d st : drive_holds d st -> exists d', blk_sync 0 d = (RES_OK, d') /\ drive_holds d' st.
Proof.
  intros (Hm & Hp & Lim). pose proof Hm as ((c & S & A) & Ok & E & T). cbn [blk_sync sd_drive].
  destruct (sd_polled c st A) as (n & c1 & P & Ln & A1).
  assert (R : returns (disk_ioctl 0 0 CTRL_SYNC 0) d (fun r d' => r = RES_OK /\ drive_holds d' st)).
  { unfold disk_ioctl. cbn [Z.eqb negb]. eapply returns_step; [reflexivity|]. rewrite E. cbn [Z.eqb negb].
    eapply (returns_bind _ _ _ (fun r d1 => r = RES_OK /\ talked d d1 c1)); [eapply returns_bind; [apply (select_spec d c n c1 S P Ln)|]|].
    - intros r d1 (-> & T1). by apply returns_ret.
    - cbv beta. intros r d1 (-> & S1 & V1). eapply returns_bind; [apply (released d1 st); by exists c1|].
      intros [] d2 (H2 & V2). apply returns_ret. split; [done|]. destruct V1 as (_ & Es & Et), V2 as (_ & Es2 & Et2).
      split; [apply (mounted_vars d d2 st st); (done || congruence)|]. split; [congruence|done]. }
  destruct R as (r & d' & Er & -> & Hd'). rewrite Er. by exists d'.
Qed.

#[export] Program Instance sd_laws : BlockLaws (disk U) := { blk_holds := drive_holds }.
Next Obligation. by intros d st ((_ & Ok & _) & _). Qed.
Next Obligation. intros d st s (_ & _ & Lim) [b E]. by apply (Lim s b). Qed.
Next Obligation. intros d st s l. apply drive_read. Qed.
Next Obligation. intros d st s l. apply drive_write. Qed.
Next Obligation. intros d st. apply drive_sync. Qed.
Next Obligation.
  intros d st ((_ & _ & E & _) & Hp & _). cbn. rewrite Z.land_lor_distr_r, E, Hp. done.
Qed.
End Laws.
