(* ===== verification/FatDir.v ===== *)
(** * Directories of FatFs ([driver/ff.c])

    The directory object ([DIR]) walks over the 32-byte entries of a directory: the fixed
    root table of FAT12 and FAT16, or the clusters of a chain.  [dir_sdi] and [dir_next]
    move it, [dir_find] looks a name up, [dir_read] finds the next entry to list,
    [dir_alloc], [dir_register] and [dir_remove] create and delete entries; [create_name]
    turns a segment of a path into the name of an entry, [get_fileinfo] turns it back, and
    [follow_path] follows a path through the directories. *)

From Stdlib Require Import ZArith Lia Bool List.
From stdpp Require Import base gmap list.
From S2P Require Import Prelude Machine Memory Disk SdCard Fat FatFile.
Open Scope Z_scope.
Open Scope word_scope.

(** ** Constants *)
Definition FR_NO_FILE : Z := 4.
Definition FR_NO_PATH : Z := 5.
Definition FR_INVALID_NAME : Z := 6.
Definition SZ_DIRE : Z := 32.
Definition DDEM : Z := 0xE5.
Definition RDDEM : Z := 0x05.
Definition NSFLAG : Z := 11.
Definition NS_LAST : Z := 0x04.
Definition NS_BODY : Z := 0x08.
Definition NS_EXT : Z := 0x10.
Definition NS_DOT : Z := 0x20.
Definition AM_RDO : Z := 0x01.
Definition AM_VOL : Z := 0x08.
Definition AM_LFN : Z := 0x0F.
Definition AM_DIR : Z := 0x10.
Definition AM_MASK : Z := 0x3F.
Definition DIR_Name : Z := 0.
Definition DIR_WrtDate : Z := 24.

(** ** The directory object *)

(** [DIR]: [dir] is an offset in the window of the volume, [None] the null pointer. *)
Record DIR := Dir { d_id : Z; index : Z; d_sclust : Z; d_clust : Z; sect : Z; dir : option Z; fn : list Z }.
Definition set_index x p := Dir (d_id p) x (d_sclust p) (d_clust p) (sect p) (dir p) (fn p).
Definition set_d_sclust x p := Dir (d_id p) (index p) x (d_clust p) (sect p) (dir p) (fn p).
Definition set_d_clust x p := Dir (d_id p) (index p) (d_sclust p) x (sect p) (dir p) (fn p).
Definition set_sect x p := Dir (d_id p) (index p) (d_sclust p) (d_clust p) x (dir p) (fn p).
Definition set_dir x p := Dir (d_id p) (index p) (d_sclust p) (d_clust p) (sect p) x (fn p).
Definition set_fn x p := Dir (d_id p) (index p) (d_sclust p) (d_clust p) (sect p) (dir p) x.

(** [FILINFO]; [fname] without its terminator. *)
Record FILINFO := Filinfo { i_fsize : Z; i_fdate : Z; i_ftime : Z; i_fattrib : Z; i_fname : list Z }.

(** ** Names *)

(** [p[0]] of a string. *)
Definition chr (p : list Z) : Z := default 0 (head p).
Definition is_sep (c : Z) : bool := (c =? 47) || (c =? 92).
Definition IsUpper (c : Z) : bool := (65 <=? c) && (c <=? 90).
Definition IsLower (c : Z) : bool := (97 <=? c) && (c <=? 122).
(** [chk_chr] of the illegal characters, as codes. *)
Definition bad_chr (c : Z) : bool := bool_decide (c ∈ [34; 42; 43; 44; 58; 59; 60; 61; 62; 63; 91; 93; 124; 127]).

(** Skip duplicated separators. *)
Fixpoint skip_seps (p : list Z) : list Z :=
  match p with c :: p' => if is_sep c then skip_seps p' else p | [] => [] end.

(** The dots of a dot entry, at most two: the character that ends them, the rest of the path
    and the name. *)
Fixpoint dot_loop (k : nat) (p : list Z) (i : Z) (sfn : list Z) : Z * list Z * list Z :=
  let c := chr p in
  match k with
  | O => (c, tail p, sfn)
  | S k' => if negb (c =? 46) then (c, tail p, sfn) else dot_loop k' (tail p) (i + 1) (put_byte i c sfn)
  end.

(** The characters of a segment: [inl] is [return FR_INVALID_NAME]. *)
Fixpoint name_loop (p : list Z) (i ni b : Z) (sfn : list Z) : list Z + (Z * list Z * Z * Z * Z * list Z) :=
  match p with
  | [] => inr (0, [], i, ni, b, sfn)
  | c :: p' =>
      if (c <=? 32) || is_sep c then inr (c, p', i, ni, b, sfn)
      else if (c =? 46) || (ni <=? i) then
        if negb (ni =? 8) || negb (c =? 46) then inl sfn
        else name_loop p' 8 11 (u8 (b <<< 2)) sfn
      else if 0x80 <=? c then inl sfn
      else if bad_chr c then inl sfn
      else
        let b := if IsUpper c then b ||| 2 else if IsLower c then b ||| 1 else b in
        let c := if IsUpper c then c else if IsLower c then u8 (c - 0x20) else c in
        name_loop p' (i + 1) ni b (put_byte i c sfn)
  end.

(** The result, the name and the rest of the path. *)
Definition create_name (fn path : list Z) : Z * list Z * list Z :=
  let p := skip_seps path in
  let sfn := copy_to 0 (replicate 11 32) fn in
  if chr p =? 46 then
    let '(c, rest, sfn) := dot_loop 2 p 0 sfn in
    if negb (is_sep c) && (32 <? c) then (FR_INVALID_NAME, sfn, path)
    else (FR_OK, put_byte NSFLAG (if c <=? 32 then NS_LAST ||| NS_DOT else NS_DOT) sfn, rest)
  else
    match name_loop p 0 8 0 sfn with
    | inl sfn => (FR_INVALID_NAME, sfn, path)
    | inr (c, rest, i, ni, b, sfn) =>
        let c := if c <=? 32 then NS_LAST else 0 in
        if i =? 0 then (FR_INVALID_NAME, sfn, rest)
        else
          let sfn := if byte_at sfn 0 =? DDEM then put_byte 0 RDDEM sfn else sfn in
          let b := if ni =? 8 then u8 (b <<< 2) else b in
          let c := if (b &&& 0x03) =? 0x01 then c ||| NS_EXT else c in
          let c := if (b &&& 0x0C) =? 0x04 then c ||| NS_BODY else c in
          (FR_OK, put_byte NSFLAG c sfn, rest)
    end.

(** Characters of the printed name: [i] counts the bytes of the entry. *)
Fixpoint name_chars (l : list Z) (i : Z) : list Z :=
  match l with
  | [] => []
  | c :: l' =>
      let i := i + 1 in
      if c =? 32 then name_chars l' i
      else
        let c := if c =? RDDEM then DDEM else c in
        (if i =? 9 then [46] else []) ++ c :: name_chars l' i
  end.

(** What [get_fileinfo] does, with the window [w]. *)
Definition get_fileinfo (w : list Z) (p : DIR) (fno : FILINFO) : FILINFO :=
  match dir p with
  | Some d =>
      if negb (sect p =? 0) then
        Filinfo (LD_DWORD w (d + DIR_FileSize)) (LD_WORD w (d + DIR_WrtDate)) (LD_WORD w (d + DIR_WrtTime)) (byte_at w (d + DIR_Attr)) (name_chars (slice d 11 w) 0)
      else Filinfo (i_fsize fno) (i_fdate fno) (i_ftime fno) (i_fattrib fno) []
  | None => Filinfo (i_fsize fno) (i_fdate fno) (i_ftime fno) (i_fattrib fno) []
  end.

(** ** Moving in a directory *)

(** A directory object on a mounted volume. *)
Record dj_state (D : Type) := Dj { dvol : volume D; dobj : DIR }.
Arguments Dj {D}. Arguments dvol {D}. Arguments dobj {D}.

Definition ld_clust (f : FATFS) (w : list Z) (d : Z) : Z :=
  let cl := LD_WORD w (d + DIR_FstClusLO) in
  if fs_type f =? FS_FAT32 then cl ||| (LD_WORD w (d + DIR_FstClusHI) <<< 16) else cl.

Section Directory.
Context {D : Type} `{BlockDevice D}.
Abbreviation state := (dj_state D).

Definition set_dvol v (s : state) : state := Dj v (dobj s).
Definition on_dvol {A} (m : ST (volume D) A) : ST state A := zoom dvol set_dvol m.
Definition get_dj : ST state DIR := gets dobj.
Definition upd_dj (g : DIR -> DIR) : ST state unit := modify (fun s => Dj (dvol s) (g (dobj s))).
Definition dj_fs : ST state FATFS := gets (fun s => fs (dvol s)).

(** The byte [k] of the current entry in the window. *)
Definition dj_byte (k : Z) : ST state Z := gets (fun s => byte_at (win (fs (dvol s))) (default 0 (dir (dobj s)) + k)).

(** Follow the cluster chain: the cluster of the entry and its index there. *)
Fixpoint sdi_loop (fuel : nat) (clst idx ic : Z) : ST (volume D) (Z + Z * Z) :=
  match fuel with
  | O => hang
  | S fuel' =>
      if ic <=? idx then
        let! clst := get_fat clst in
        let! f := get_fs in
        if clst =? 0xFFFFFFFF then ret (inl FR_DISK_ERR)
        else if (clst <? 2) || (n_fatent f <=? clst) then ret (inl FR_INT_ERR)
        else sdi_loop fuel' clst (idx - ic) ic
      else ret (inr (clst, idx))
  end.

Definition dir_sdi (idx : Z) : ST state Z :=
  upd_dj (set_index (u16 idx)) ;;
  let! p := get_dj in
  let! f := dj_fs in
  let clst := d_sclust p in
  if (clst =? 1) || (n_fatent f <=? clst) then ret FR_INT_ERR
  else
    let clst := if (clst =? 0) && (fs_type f =? FS_FAT32) then dirbase f else clst in
    let! r :=
      (if clst =? 0 then
         if n_rootdir f <=? idx then ret (inl FR_INT_ERR) else ret (inr (clst, dirbase f, idx))
       else
         let! r := on_dvol (sdi_loop (S (Z.to_nat idx)) clst idx (SS / SZ_DIRE * csize f)) in
         match r with
         | inl res => ret (inl res)
         | inr (clst, idx) => ret (inr (clst, clust2sect f clst, idx))
         end) in
    match r with
    | inl res => ret res
    | inr (clst, s, idx) =>
        upd_dj (set_d_clust clst) ;;
        if s =? 0 then ret FR_INT_ERR
        else
          upd_dj (set_sect (u32 (s + idx / (SS / SZ_DIRE)))) ;;
          upd_dj (set_dir (Some (idx mod (SS / SZ_DIRE) * SZ_DIRE))) ;;
          ret FR_OK
    end.

(** Fill the new cluster with 0: [c] sectors are left. *)
Fixpoint clear_sectors (c : nat) : ST (volume D) Z :=
  match c with
  | O => ret FR_OK
  | S c' =>
      upd_fs (set_wflag 1) ;;
      let! r := sync_window in
      if negb (r =? 0) then ret FR_DISK_ERR
      else upd_fs (fun f => set_winsect (u32 (winsect f + 1)) f) ;; clear_sectors c'
  end.

(** Stretch the table by a cleared cluster: [inr] is the cluster. *)
Definition stretch_table (clust : Z) : ST (volume D) (Z + Z) :=
  let! clst := create_chain clust in
  if clst =? 0 then ret (inl FR_DENIED)
  else if clst =? 1 then ret (inl FR_INT_ERR)
  else if clst =? 0xFFFFFFFF then ret (inl FR_DISK_ERR)
  else
    let! r := sync_window in
    if negb (r =? 0) then ret (inl FR_DISK_ERR)
    else
      upd_fs (set_win (replicate 512 0)) ;;
      upd_fs (fun f => set_winsect (clust2sect f clst) f) ;;
      let! f := get_fs in
      let! r := clear_sectors (Z.to_nat (csize f)) in
      if negb (r =? FR_OK) then ret (inl r)
      else upd_fs (fun f => set_winsect (u32 (winsect f - csize f)) f) ;; ret (inr clst).

(** The next cluster of the table. *)
Definition next_cluster (clust : Z) (stretch : bool) : ST (volume D) (Z + Z) :=
  let! clst := get_fat clust in
  let! f := get_fs in
  if clst <=? 1 then ret (inl FR_INT_ERR)
  else if clst =? 0xFFFFFFFF then ret (inl FR_DISK_ERR)
  else if n_fatent f <=? clst then
    if negb stretch then ret (inl FR_NO_FILE) else stretch_table clust
  else ret (inr clst).

Definition dir_next (stretch : bool) : ST state Z :=
  let! p := get_dj in
  let! f := dj_fs in
  let i := index p + 1 in
  if ((i &&& 0xFFFF) =? 0) || (sect p =? 0) then ret FR_NO_FILE
  else
    let! res :=
      (if i mod (SS / SZ_DIRE) =? 0 then
         upd_dj (fun p => set_sect (u32 (sect p + 1)) p) ;;
         if d_clust p =? 0 then
           if n_rootdir f <=? i then ret FR_NO_FILE else ret FR_OK
         else if ((i / (SS / SZ_DIRE)) &&& u32 (csize f - 1)) =? 0 then
           let! r := on_dvol (next_cluster (d_clust p) stretch) in
           match r with
           | inl res => ret res
           | inr clst =>
               upd_dj (set_d_clust clst) ;;
               let! f := dj_fs in
               upd_dj (set_sect (clust2sect f clst)) ;;
               ret FR_OK
           end
         else ret FR_OK
       else ret FR_OK) in
    if negb (res =? FR_OK) then ret res
    else
      upd_dj (set_index (u16 i)) ;;
      upd_dj (set_dir (Some (i mod (SS / SZ_DIRE) * SZ_DIRE))) ;;
      ret FR_OK.

(** ** Finding, listing, creating and deleting entries *)

(** [mem_cmp(dir, dp->fn, 11)] *)
Definition name_matches : ST state bool :=
  gets (fun s => bool_decide (slice (default 0 (dir (dobj s))) 11 (win (fs (dvol s))) = slice 0 11 (fn (dobj s)))).

Fixpoint find_loop (fuel : nat) : ST state Z :=
  match fuel with
  | O => hang
  | S fuel' =>
      let! p := get_dj in
      let! res := on_dvol (move_window (sect p)) in
      if negb (res =? FR_OK) then ret res
      else
        let! c := dj_byte DIR_Name in
        if c =? 0 then ret FR_NO_FILE
        else
          let! a := dj_byte DIR_Attr in
          let! same := name_matches in
          if ((a &&& AM_VOL) =? 0) && same then ret res
          else
            let! res := dir_next false in
            if res =? FR_OK then find_loop fuel' else ret res
  end.

Definition dir_find : ST state Z :=
  let! res := dir_sdi 0 in
  if negb (res =? FR_OK) then ret res else find_loop (Z.to_nat 65536).

Fixpoint read_entries (fuel : nat) (vol : bool) (res : Z) : ST state Z :=
  match fuel with
  | O => hang
  | S fuel' =>
      let! p := get_dj in
      if sect p =? 0 then ret res
      else
        let! res := on_dvol (move_window (sect p)) in
        if negb (res =? FR_OK) then ret res
        else
          let! c := dj_byte DIR_Name in
          if c =? 0 then ret FR_NO_FILE
          else
            let! a := dj_byte DIR_Attr in
            let a := a &&& AM_MASK in
            if negb (c =? DDEM) && negb (a =? AM_LFN) && Bool.eqb (bitand_not 8 a AM_ARC =? AM_VOL) vol then ret res
            else
              let! res := dir_next false in
              if negb (res =? FR_OK) then ret res else read_entries fuel' vol res
  end.

Definition dir_read (vol : bool) : ST state Z :=
  let! res := read_entries (Z.to_nat 65537) vol FR_NO_FILE in
  (if negb (res =? FR_OK) then upd_dj (set_sect 0) else ret tt) ;;
  ret res.

Fixpoint alloc_loop (fuel : nat) (n nent : Z) : ST state Z :=
  match fuel with
  | O => hang
  | S fuel' =>
      let! p := get_dj in
      let! res := on_dvol (move_window (sect p)) in
      if negb (res =? FR_OK) then ret res
      else
        let! c := dj_byte DIR_Name in
        let free := (c =? DDEM) || (c =? 0) in
        let n := if free then n + 1 else 0 in
        if free && (n =? nent) then ret res
        else
          let! res := dir_next true in
          if res =? FR_OK then alloc_loop fuel' n nent else ret res
  end.

Definition dir_alloc (nent : Z) : ST state Z :=
  let! res := dir_sdi 0 in
  let! res := (if res =? FR_OK then alloc_loop (Z.to_nat 65536) 0 nent else ret res) in
  ret (if res =? FR_NO_FILE then FR_DENIED else res).

(** Write to the current entry in the window. *)
Definition edit_entry (g : Z -> list Z -> list Z) : ST state unit :=
  let! p := get_dj in
  on_dvol (upd_fs (fun f => set_win (g (default 0 (dir p)) (win f)) f)).

Definition dir_register : ST state Z :=
  let! res := dir_alloc 1 in
  if res =? FR_OK then
    let! p := get_dj in
    let! res := on_dvol (move_window (sect p)) in
    if res =? FR_OK then
      edit_entry (fun d => copy_to d (replicate 32 0)) ;;
      edit_entry (fun d => copy_to d (slice 0 11 (fn p))) ;;
      on_dvol (upd_fs (set_wflag 1)) ;;
      ret res
    else ret res
  else ret res.

Definition dir_remove : ST state Z :=
  let! p := get_dj in
  let! res := dir_sdi (index p) in
  if res =? FR_OK then
    let! p := get_dj in
    let! res := on_dvol (move_window (sect p)) in
    if res =? FR_OK then
      edit_entry (fun d => copy_to d (replicate 32 0)) ;;
      edit_entry (fun d => put_byte d DDEM) ;;
      on_dvol (upd_fs (set_wflag 1)) ;;
      ret res
    else ret res
  else ret res.

(** ** Paths *)

(** One turn follows one segment. *)
Fixpoint follow_loop (fuel : nat) (path : list Z) : ST state Z :=
  match fuel with
  | O => hang
  | S fuel' =>
      let! p := get_dj in
      let '(res, name, path') := create_name (fn p) path in
      upd_dj (set_fn name) ;;
      if negb (res =? FR_OK) then ret res
      else
        let! res := dir_find in
        let ns := byte_at name NSFLAG in
        if negb (res =? FR_OK) then
          if res =? FR_NO_FILE then
            if negb ((ns &&& NS_DOT) =? 0) then
              upd_dj (set_d_sclust 0) ;;
              upd_dj (set_dir None) ;;
              if (ns &&& NS_LAST) =? 0 then follow_loop fuel' path' else ret FR_OK
            else ret (if (ns &&& NS_LAST) =? 0 then FR_NO_PATH else res)
          else ret res
        else if negb ((ns &&& NS_LAST) =? 0) then ret res
        else
          let! a := dj_byte DIR_Attr in
          if (a &&& AM_DIR) =? 0 then ret FR_NO_PATH
          else
            let! f := dj_fs in
            upd_dj (fun p => set_d_sclust (ld_clust f (win f) (default 0 (dir p))) p) ;;
            follow_loop fuel' path'
  end.

Definition follow_path (path : list Z) : ST state Z :=
  let! f := dj_fs in
  let root := is_sep (chr path) in
  let path := if root then tail path else path in
  upd_dj (set_d_sclust (if root then 0 else cdir f)) ;;
  if chr path <? 32 then
    let! res := dir_sdi 0 in
    upd_dj (set_dir None) ;;
    ret res
  else follow_loop (S (length path)) path.
End Directory.

(** ** The table of a directory *)

(** Where the entries are: the fixed root table, or a chain of clusters. *)
Inductive place := Root | Chain (l : list Z).
Definition t_sectors (f : FATFS) (t : place) : Z := match t with Root => n_rootdir f / 16 | Chain l => nsects f l end.
Definition t_sect (f : FATFS) (t : place) (i : Z) : Z := match t with Root => dirbase f + i | Chain l => fsect f l i end.
Definition t_clust (f : FATFS) (t : place) (i : Z) : Z := match t with Root => 0 | Chain l => l !!! Z.to_nat (i / csize f) end.

(** The entries an index can reach, and the entry with index [i]. *)
Definition t_entries (f : FATFS) (t : place) : Z := Z.min (16 * t_sectors f t) 65536.
Definition dirent (f : FATFS) (L : sectors) (t : place) (i : Z) : list Z := slice (i mod 16 * 32) 32 (default [] (L !! t_sect f t (i / 16))).
Definition dirents (f : FATFS) (L : sectors) (t : place) : list (list Z) := map (dirent f L t) (seqZ 0 (t_entries f t)).

(** The directory that starts at cluster [c] (0: the root directory) is at [t]. *)
Definition placed (f : FATFS) (L : sectors) (c : Z) (t : place) : Prop :=
  match t with
  | Root => c = 0 /\ fs_type f <> FS_FAT32 /\ n_rootdir f mod 16 = 0 /\ 0 < n_rootdir f /\
      fatbase f + n_fats f * fsize f <= dirbase f /\ dirbase f + n_rootdir f / 16 <= database f
  | Chain l => is_chain (fat_entry f L) (n_fatent f) l /\ pow2_csize f /\
      (2 <= c /\ head l = Some c \/ c = 0 /\ fs_type f = FS_FAT32 /\ head l = Some (dirbase f))
  end /\ forall i, 0 <= i < t_sectors f t -> is_Some (L !! t_sect f t i).

(** The directory object is on entry [i]. *)
Definition dir_at (f : FATFS) (t : place) (i : Z) (p : DIR) : Prop :=
  index p = i /\ sect p = t_sect f t (i / 16) /\ d_clust p = t_clust f t (i / 16) /\ dir p = Some (i mod 16 * 32).

Lemma place_same f f' : rest_same f f' -> (forall t, t_sectors f' t = t_sectors f t) /\ (forall t i, t_sect f' t i = t_sect f t i) /\ (forall t i, t_clust f' t i = t_clust f t i) /\
  (forall L c t, placed f L c t -> placed f' L c t) /\ (forall t i p, dir_at f t i p -> dir_at f' t i p) /\ (forall L t, dirents f' L t = dirents f L t).
Proof.
  intros R. pose proof R as (E1 & _ & E3 & E4 & _ & E6 & _ & E8 & E9 & _ & E11 & E12 & E13).
  assert (S1 : forall t, t_sectors f' t = t_sectors f t) by (intros [|l]; cbn; [by rewrite E6|by apply nsects_same]).
  assert (S2 : forall t i, t_sect f' t i = t_sect f t i) by (intros [|l] i; cbn; [by rewrite E12|by apply fsect_same]).
  assert (S3 : forall t i, t_clust f' t i = t_clust f t i) by (intros [|l] i; cbn; [done|by rewrite E3]).
  split_and!; [done..| | |].
  - intros L c [|l] [Hp Hs]; (split; [|intros i; rewrite S1, S2; apply Hs]); [by rewrite E1, E4, E6, E9, E11, E12, E13|].
    destruct Hp as (C & (k & Hk & Ek) & Hc). split_and!; [|by exists k; rewrite E3|by rewrite E1, E12]. rewrite E8.
    apply (chain_ext (fat_entry f L)); [|done]. intros x _. by apply fat_entry_same.
  - intros t i p (A & B & C & E). by split_and!; rewrite ?S2, ?S3.
  - intros L t. unfold dirents, t_entries, dirent. rewrite S1. by setoid_rewrite S2.
Qed.

Section Table.
Context (f : FATFS) (L : sectors) (c : Z) (t : place).
Hypothesis G : geom_ok f.
Hypothesis P : placed f L c t.

Lemma directory_range i : 0 <= i < t_sectors f t -> fatbase f + n_fats f * fsize f <= t_sect f t i < 0xFFFFFFFF.
Proof.
  intros Hi. destruct P as [Hp _]. pose proof (data_area f G) as [Da De]. pose proof (g_data _ G). pose proof (g_csize _ G). pose proof (g_clusters _ G). destruct t as [|l]; cbn in *.
  - destruct Hp as (_ & _ & _ & _ & Hb1 & Hb2). nia.
  - destruct Hp as (C & _). pose proof (fsect_range f l G (chain_clusters _ _ _ C) i Hi). lia.
Qed.

Lemma directory_sector i : 0 <= i < t_sectors f t -> 0 < t_sect f t i < 0xFFFFFFFF /\ ~ in_copy f (t_sect f t i) /\ ~ in_table f (t_sect f t i).
Proof.
  intros Hi. pose proof (directory_range i Hi). pose proof (g_fatbase _ G). pose proof (g_fsize _ G). unfold in_copy, in_table. destruct (g_copies _ G) as [N|N]; rewrite N in *; lia.
Qed.

Lemma table_nonempty : 0 < t_sectors f t.
Proof.
  destruct P as [Hp _]. pose proof (g_csize _ G). destruct t as [|l]; cbn in *.
  - destruct Hp as (_ & _ & M & N & _). apply Z.div_str_pos. pose proof (Z.div_mod (n_rootdir f) 16). lia.
  - destruct Hp as (C & _). destruct l as [|x l]; [done|]. unfold nsects. cbn [length]. nia.
Qed.
End Table.

Section Walk.
Context {D : Type} `{BlockLaws D}.
Implicit Types (v : volume D) (p : DIR) (L : sectors) (t : place).

(** What moving in a directory leaves alone. *)
Definition same_name p p' : Prop := fn p' = fn p /\ d_sclust p' = d_sclust p /\ d_id p' = d_id p.

Lemma on_dvol_spec {A} (m : ST (volume D) A) v p Q : returns m v Q -> returns (on_dvol m) (Dj v p) (fun a s' => exists v', s' = Dj v' p /\ Q a v').
Proof. intros R. eapply returns_mono; [by apply (returns_zoom dvol set_dvol m (Dj v p))|]. intros a s' (v' & -> & HQ). by exists v'. Qed.

Lemma sdi_loop_spec fuel : forall v L l k c idx, vol_rep v L -> is_chain (fat_entry (fs v) L) (n_fatent (fs v)) l -> l !! k = Some c ->
  0 <= idx < 16 * csize (fs v) * Z.of_nat (length l - k) -> idx < Z.of_nat fuel ->
  returns (sdi_loop fuel c idx (16 * csize (fs v))) v (fun r v' => exists c', r = inr (c', idx mod (16 * csize (fs v))) /\
    l !! (k + Z.to_nat (idx / (16 * csize (fs v))))%nat = Some c' /\ vol_rep v' L /\ window_moved (fs v) (fs v')).
Proof.
  induction fuel as [|fuel IH]; intros v L l k c idx R C Ec Hi Hf; [lia|]. pose proof (g_csize _ (proj1 R)) as Gz. set (ic := 16 * csize (fs v)) in *. cbn [sdi_loop].
  pose proof (chain_clusters _ _ _ C) as Al. pose proof (lookup_lt_Some _ _ _ Ec) as Lk.
  destruct (Z.leb_spec ic idx) as [Le|Lt].
  - assert (Hc : 2 <= c < n_fatent (fs v)) by (apply Al; by eapply list_elem_of_lookup_2).
    eapply returns_bind; [by apply (get_fat_spec v L c)|]. intros x v1 (-> & R1 & W1). eapply returns_step; [reflexivity|].
    destruct (lookup_lt_is_Some_2 l (S k)) as [y Ey]; [destruct (Z_lt_le_dec (16 * csize (fs v) * Z.of_nat (length l - k)) (2 * ic)); nia|].
    destruct (chain_next _ _ _ _ _ C Ec) as [En _]. rewrite Ey in En. change (fat_entry (fs v) L c = y) in En. rewrite En.
    assert (Hy : 2 <= y < n_fatent (fs v)) by (apply Al; by eapply list_elem_of_lookup_2). pose proof (proj1 R) as G. 
    assert (Hn : n_fatent (fs v) <= 0x0FFFFFF7) by (destruct (g_type _ G) as [(_ & ? & _)|[(_ & ? & _)|(_ & ? & _)]]; lia).
    destruct W1 as [Rs Wr]. destruct (fat_bounds_same _ _ Rs) as (_ & _ & Nf). rewrite Nf.
    rewrite (proj2 (Z.eqb_neq y _)), (proj2 (Z.ltb_ge y 2)), (proj2 (Z.leb_gt _ y)) by lia. cbn [orb].
    assert (Ez : csize (fs v1) = csize (fs v)) by apply Rs. 
    eapply returns_mono; [unfold ic; rewrite <- Ez; apply (IH v1 L l (S k) y (idx - 16 * csize (fs v1)) R1)|].
    + rewrite Nf. apply (chain_ext (fat_entry (fs v) L)); [|done]. intros x _. by apply fat_entry_same.
    + done.
    + rewrite Ez. fold ic. split; [lia|]. replace (length l - k)%nat with (S (length l - S k))%nat in Hi by (apply lookup_lt_Some in Ey; lia). nia.
    + rewrite Ez. fold ic. lia.
    + cbv beta. rewrite Ez. fold ic. intros r v2 (c' & -> & Ec' & R2 & W2). exists c'.
      replace (idx mod ic) with ((idx - ic) mod ic) by (rewrite <- (Z.mod_add (idx - ic) 1) by lia; f_equal; lia). split; [done|].
      replace (idx / ic) with ((idx - ic) / ic + 1) by (rewrite <- Z.div_add by lia; f_equal; lia).
      pose proof (Z.div_pos (idx - ic) ic). replace (k + Z.to_nat ((idx - ic) / ic + 1))%nat with (S k + Z.to_nat ((idx - ic) / ic))%nat by lia.
      split; [done|]. split; [done|]. by apply (window_moved_trans _ (fs v1)).
  - apply returns_ret. exists c. rewrite Z.mod_small, Z.div_small by lia. rewrite Nat.add_0_r. split_and!; (done || apply window_moved_refl).
Qed.

Lemma on_dvol_ret {A} (m : ST (volume D) A) v p a v' : m v = Ret a v' -> on_dvol m (Dj v p) = Ret a (Dj v' p).
Proof. intros E. unfold on_dvol, zoom. cbn [dvol]. by rewrite E. Qed.

(** Where an entry is in its cluster. *)
Lemma entry_split x s : 0 < s -> x mod (16 * s) / 16 = (x / 16) mod s /\ (x mod (16 * s)) mod 16 = x mod 16 /\ x / (16 * s) = x / 16 / s.
Proof.
  intros Hs. rewrite Z.rem_mul_r, Z.div_div by lia. pose proof (Z.mod_pos_bound x 16 ltac:(lia)). split_and!; [| |done].
  - rewrite (Z.mul_comm 16 (_ mod s)), Z.div_add, Z.div_small by lia. lia.
  - rewrite (Z.mul_comm 16 (_ mod s)), Z.mod_add, Z.mod_small by lia. done.
Qed.

Lemma dir_sdi_spec v p L t idx : vol_rep v L -> placed (fs v) L (d_sclust p) t -> 0 <= idx < t_entries (fs v) t ->
  returns (dir_sdi idx) (Dj v p) (fun r s' => r = FR_OK /\ exists v' p', s' = Dj v' p' /\ vol_rep v' L /\ window_moved (fs v) (fs v') /\ dir_at (fs v) t idx p' /\ same_name p p').
Proof.
  intros R P Hi. pose proof (proj1 R) as G. unfold t_entries in Hi. pose proof (g_csize _ G) as Gz. pose proof (g_clusters _ G) as Gn.
  assert (Hq : 0 <= idx / 16 < t_sectors (fs v) t) by (split; [apply Z.div_pos; lia|apply Z.div_lt_upper_bound; lia]).
  pose proof (directory_sector _ _ _ _ G P (idx / 16) Hq) as [Ts _]. unfold dir_sdi. do 3 (eapply returns_step; [reflexivity|]). cbn [dobj dvol set_index d_sclust].
  change (SS / SZ_DIRE) with 16. rewrite (wrapu_small 16 idx) by (unfold inu; lia). pose proof P as [Hp Hs]. destruct t as [|l].
  - destruct Hp as (Ec & Nt & M & N & _). rewrite Ec. rewrite (proj2 (Z.leb_gt (n_fatent (fs v)) 0)) by lia. cbn [Z.eqb orb andb].
    rewrite (proj2 (Z.eqb_neq (fs_type (fs v)) _)) by done. cbn [Z.eqb]. cbn [t_sectors t_sect] in *.
    rewrite (proj2 (Z.leb_gt (n_rootdir (fs v)) idx)) by (pose proof (Z.div_mod (n_rootdir (fs v)) 16); lia).
    eapply returns_step; [reflexivity|]. eapply returns_step; [reflexivity|]. assert (Eb : (dirbase (fs v) =? 0) = false).
    { apply Z.eqb_neq. pose proof (table_nonempty _ _ _ _ G P). pose proof (directory_sector _ _ _ _ G P 0). cbn in *. lia. }
    rewrite Eb. do 2 (eapply returns_step; [reflexivity|]). apply returns_ret. split; [done|]. eexists v, _. split; [reflexivity|]. cbn [dobj dvol].
    split; [done|]. split; [apply window_moved_refl|]. split; [|done]. unfold dir_at. cbn. split_and!; [done| |done|done]. apply wrapu_small. unfold inu. lia.
  - destruct Hp as (C & Hw & Hc). cbn [t_sectors t_sect] in *. pose proof (chain_clusters _ _ _ C) as Al. unfold nsects in Hi.
    assert (Hcl : exists c, l !! 0%nat = Some c /\ 2 <= c < n_fatent (fs v) /\ ((d_sclust p =? 1) || (n_fatent (fs v) <=? d_sclust p)) = false /\
      (if (d_sclust p =? 0) && (fs_type (fs v) =? FS_FAT32) then dirbase (fs v) else d_sclust p) = c).
    { destruct l as [|x l]; [done|]. assert (Hx : 2 <= x < n_fatent (fs v)) by (apply Al; left). exists x. split; [done|]. split; [done|].
      destruct Hc as [[H2 Eh]|(E0 & Ef & Eh)]; cbn in Eh; injection Eh as Eh.
      - subst x. rewrite (proj2 (Z.eqb_neq _ 1)), (proj2 (Z.leb_gt _ _)), (proj2 (Z.eqb_neq _ 0)) by lia. done.
      - rewrite E0, Ef, (proj2 (Z.leb_gt _ 0)) by lia. by subst x. }
    destruct Hcl as (c & Ec & Hcr & -> & ->). rewrite (proj2 (Z.eqb_neq c 0)) by lia.
    destruct (sdi_loop_spec (S (Z.to_nat idx)) v L l 0 c idx R C Ec ltac:(lia) ltac:(lia)) as (r & v1 & E1 & c' & -> & Ec' & R1 & W1).
    eapply returns_step; [unfold bind; rewrite (on_dvol_ret _ _ _ _ _ E1); reflexivity|]. cbv beta iota. eapply returns_step; [reflexivity|].
    destruct (entry_split idx (csize (fs v)) ltac:(lia)) as (Ed & Em & Eq). rewrite Ed, Em.
    destruct (sector_cluster (fs v) l G Al (idx / 16) Hq) as (Q1 & M1 & c'' & Ec'' & Hc'' & Ei). rewrite Eq in Ec'. cbn [Nat.add] in Ec'. rewrite Ec'' in Ec'. injection Ec' as <-.
    rewrite clust2sect_spec by done. pose proof (csect_range _ _ G Hc''). pose proof (data_area _ G). rewrite (proj2 (Z.eqb_neq (csect _ _) 0)) by lia.
    do 2 (eapply returns_step; [reflexivity|]). apply returns_ret. split; [done|]. eexists v1, _. split; [reflexivity|]. split; [done|]. split; [done|]. split; [|done].
    unfold dir_at. cbn [dobj dvol set_dir set_sect set_d_clust set_index index sect d_clust dir]. split_and!; [done| | |done].
    + cbn [t_sect]. rewrite Ei. apply wrapu_small. unfold inu. lia.
    + cbn [t_clust]. by rewrite (list_lookup_total_correct _ _ _ Ec'').
Qed.

Lemma pow2_land f x : pow2_csize f -> 0 <= x -> (x &&& u32 (csize f - 1)) = x mod csize f.
Proof.
  intros (k & Hk & E) Hx. rewrite E. assert (1 <= 2 ^ k <= 2 ^ 7) by (split; [pose proof (Z.pow_pos_nonneg 2 k); lia|apply Z.pow_le_mono_r; lia]).
  rewrite (wrapu_small 32) by (unfold inu; lia). replace (2 ^ k - 1) with (Z.ones k) by (rewrite Z.ones_equiv; lia). by rewrite Z.land_ones by lia.
Qed.

(** The cluster after the [k]-th of a chain. *)
Lemma next_cluster_spec v L l k c stretch : vol_rep v L -> is_chain (fat_entry (fs v) L) (n_fatent (fs v)) l -> l !! k = Some c -> (l !! S k = None -> stretch = false) ->
  returns (next_cluster c stretch) v (fun r v' => r = match l !! S k with Some c' => inr c' | None => inl FR_NO_FILE end /\ vol_rep v' L /\ window_moved (fs v) (fs v')).
Proof.
  intros R C Ec Hst. pose proof (chain_clusters _ _ _ C) as Al. pose proof (proj1 R) as G. pose proof (g_clusters _ G) as Gn.
  assert (Hc : 2 <= c < n_fatent (fs v)) by (apply Al; by eapply list_elem_of_lookup_2). unfold next_cluster.
  eapply returns_bind; [by apply (get_fat_spec v L c)|]. intros x v1 (-> & R1 & W1). eapply returns_step; [reflexivity|]. destruct (fat_bounds_same _ _ (proj1 W1)) as (_ & _ & Nf). rewrite Nf.
  pose proof (fat_entry_range v L c R) as Rg. destruct (chain_next _ _ _ _ _ C Ec) as [En Ee]. destruct (l !! S k) as [c'|] eqn:Ek.
  - change (fat_entry (fs v) L c = c') in En. rewrite En in *. assert (Hc' : 2 <= c' < n_fatent (fs v)) by (apply Al; by eapply list_elem_of_lookup_2).
    rewrite (proj2 (Z.leb_gt c' 1)), (proj2 (Z.eqb_neq c' _)), (proj2 (Z.leb_gt _ c')) by lia. by apply returns_ret.
  - specialize (Ee eq_refl). rewrite (proj2 (Z.leb_gt _ 1)), (proj2 (Z.eqb_neq _ 0xFFFFFFFF)), (proj2 (Z.leb_le _ _)) by lia. rewrite Hst by done. by apply returns_ret.
Qed.

Lemma succ_div16 i : 0 <= i -> (i + 1) mod 16 <> 0 -> (i + 1) / 16 = i / 16.
Proof. intros Hi Hm. pose proof (Z.div_mod i 16). pose proof (Z.div_mod (i + 1) 16). pose proof (Z.mod_pos_bound i 16). pose proof (Z.mod_pos_bound (i + 1) 16). lia. Qed.
Lemma succ_div16' i : 0 <= i -> (i + 1) mod 16 = 0 -> (i + 1) / 16 = i / 16 + 1.
Proof. intros Hi Hm. pose proof (Z.div_mod i 16). pose proof (Z.div_mod (i + 1) 16). pose proof (Z.mod_pos_bound i 16). lia. Qed.

(** On to the next entry, or [FR_NO_FILE] after the last. *)
Lemma dir_next_spec v p L t i stretch : vol_rep v L -> placed (fs v) L (d_sclust p) t -> dir_at (fs v) t i p -> 0 <= i < t_entries (fs v) t ->
  (t_entries (fs v) t <= i + 1 -> stretch = false) ->
  returns (dir_next stretch) (Dj v p) (fun r s' => exists v' p', s' = Dj v' p' /\ vol_rep v' L /\ window_moved (fs v) (fs v') /\ same_name p p' /\
    if i + 1 <? t_entries (fs v) t then r = FR_OK /\ dir_at (fs v) t (i + 1) p' else r = FR_NO_FILE).
Proof.
  intros R P (Ai & As & Ac & Ad) Hi Hst. pose proof (proj1 R) as G. pose proof P as [Hp Hs]. unfold t_entries in *. pose proof (g_csize _ G) as Gz.
  assert (Hq : 0 <= i / 16 < t_sectors (fs v) t) by (split; [apply Z.div_pos; lia|apply Z.div_lt_upper_bound; lia]).
  pose proof (directory_sector _ _ _ _ G P (i / 16) Hq) as [Ts _]. unfold dir_next. do 2 (eapply returns_step; [reflexivity|]). cbn [dobj dvol].
  rewrite Ai, As. rewrite (proj2 (Z.eqb_neq (t_sect _ _ _) 0)) by lia. change (SS / SZ_DIRE) with 16. rewrite orb_false_r.
  change 0xFFFF with (Z.ones 16). rewrite Z.land_ones by lia. change (2 ^ 16) with 65536.
  destruct (Z.eq_dec (i + 1) 65536) as [E6|N6].
  { rewrite E6, Z.mod_same by lia. cbn [Z.eqb]. apply returns_ret. exists v, p. split_and!; try done. rewrite (proj2 (Z.ltb_ge _ _)) by lia. done. }
  rewrite (Z.mod_small (i + 1) 65536), (proj2 (Z.eqb_neq (i + 1) 0)) by lia.
  assert (Keep : (i + 1) mod 16 <> 0 -> i + 1 < 16 * t_sectors (fs v) t).
  { intros Hm. pose proof (succ_div16 i ltac:(lia) Hm). pose proof (Z.div_mod (i + 1) 16). pose proof (Z.mod_pos_bound (i + 1) 16). lia. }
  destruct (Z.eqb_spec ((i + 1) mod 16) 0) as [Em|Nm].
  2: { eapply returns_step; [reflexivity|]. cbn [Z.eqb negb FR_OK]. do 2 (eapply returns_step; [reflexivity|]). apply returns_ret. eexists v, _. split; [reflexivity|].
    split; [done|]. split; [apply window_moved_refl|]. split; [done|]. specialize (Keep Nm). rewrite (proj2 (Z.ltb_lt _ _)) by lia. split; [done|].
    unfold dir_at. cbn. rewrite (succ_div16 i) by lia. rewrite wrapu_small by (unfold inu; lia). by rewrite As, Ac. }
  pose proof (succ_div16' i ltac:(lia) Em) as Eq. destruct t as [|l]; cbn [t_sectors t_sect t_clust] in *.
  - rewrite Ac. cbn [Z.eqb]. destruct Hp as (_ & _ & M & N & _). pose proof (Z.div_mod (n_rootdir (fs v)) 16 ltac:(lia)) as Dn.
    destruct (Z.leb_spec (n_rootdir (fs v)) (i + 1)) as [Le|Lt].
    + eapply returns_step; [reflexivity|]. cbn [Z.eqb negb FR_OK FR_NO_FILE]. apply returns_ret. eexists v, _. split; [reflexivity|]. split; [done|]. split; [apply window_moved_refl|].
      split; [done|]. by rewrite (proj2 (Z.ltb_ge _ _)) by lia.
    + eapply returns_step; [reflexivity|]. cbn [Z.eqb negb FR_OK]. do 2 (eapply returns_step; [reflexivity|]). apply returns_ret. eexists v, _. split; [reflexivity|].
      split; [done|]. split; [apply window_moved_refl|]. split; [done|]. rewrite (proj2 (Z.ltb_lt _ _)) by lia. split; [done|].
      pose proof (directory_sector _ _ _ _ G P (i / 16 + 1)) as Tn. cbn [t_sectors t_sect] in Tn.
      unfold dir_at. cbn [dobj set_dir set_index set_sect index sect d_clust dir t_sect t_clust]. rewrite Eq, As, !wrapu_small by (unfold inu; lia). split_and!; [done|lia|done|done].
  - destruct Hp as (C & Pw & Hc). pose proof (chain_clusters _ _ _ C) as Al.
    destruct (sector_cluster (fs v) l G Al (i / 16) Hq) as (Q1 & M1 & c & Ec & Hcr & Ei). rewrite (list_lookup_total_correct _ _ _ Ec) in Ac. rewrite Ac, (proj2 (Z.eqb_neq c 0)) by lia.
    rewrite pow2_land by (done || (apply Z.div_pos; lia)). rewrite Eq. pose proof (Z.div_mod (i / 16) (csize (fs v)) ltac:(lia)) as Dq. pose proof (fsect_range (fs v) l G Al (i / 16) Hq) as Fr. pose proof (data_area _ G) as Da.
    destruct (Z.eq_dec ((i / 16) mod csize (fs v) + 1) (csize (fs v))) as [Eb|Nb].
    + assert (Ez : (i / 16 + 1) mod csize (fs v) = 0) by (symmetry; apply (Z.mod_unique _ _ (i / 16 / csize (fs v) + 1)); lia).
      assert (Ew : (i / 16 + 1) / csize (fs v) = i / 16 / csize (fs v) + 1) by (symmetry; apply (Z.div_unique _ _ _ 0); lia). rewrite Ez. cbn [Z.eqb].
      assert (Ei1 : i + 1 = 16 * (csize (fs v) * (i / 16 / csize (fs v) + 1))) by (pose proof (Z.div_mod (i + 1) 16); lia).
      assert (Ends : Z.of_nat (length l) <= i / 16 / csize (fs v) + 1 -> Z.min (16 * nsects (fs v) l) 65536 <= i + 1) by (intros; unfold nsects; nia).
      destruct (next_cluster_spec v L l _ c stretch R C Ec) as (r & v1 & E1 & -> & R1 & W1).
      { intros En. apply Hst. apply lookup_ge_None in En. apply Ends. lia. }
      destruct (l !! S (Z.to_nat (i / 16 / csize (fs v)))) as [c'|] eqn:En.
      * eapply returns_step; [unfold bind at 1, upd_dj, modify; unfold bind at 1; rewrite (on_dvol_ret _ _ _ _ _ E1); reflexivity|].
        cbn [Z.eqb negb FR_OK]. do 2 (eapply returns_step; [reflexivity|]). apply returns_ret. eexists v1, _. split; [reflexivity|]. split; [done|]. split; [done|]. split; [done|].
        apply lookup_lt_Some in En as Ln. assert (Hn : i / 16 + 1 < nsects (fs v) l) by (unfold nsects; nia). rewrite (proj2 (Z.ltb_lt _ _)) by (pose proof (Z.div_mod (i + 1) 16); lia). split; [done|].
        assert (Hc' : 2 <= c' < n_fatent (fs v)) by (apply Al; by eapply list_elem_of_lookup_2). 
        assert (Cs : clust2sect (fs v1) c' = csect (fs v) c').
        { rewrite clust2sect_spec; [|apply R1|destruct (fat_bounds_same _ _ (proj1 W1)) as (_ & _ & ->); done]. unfold csect. destruct W1 as [(_ & _ & -> & _ & _ & _ & _ & _ & _ & _ & _ & _ & ->) _]. done. }
        unfold dir_at. cbn [dobj dvol set_dir set_index set_sect set_d_clust index sect d_clust dir t_sect t_clust]. rewrite Eq, wrapu_small, Cs by (unfold inu; lia). unfold fsect. rewrite Ez, Ew.
        replace (Z.to_nat (i / 16 / csize (fs v) + 1)) with (S (Z.to_nat (i / 16 / csize (fs v)))) by lia. rewrite (list_lookup_total_correct _ _ _ En). split_and!; (done || lia).
      * eapply returns_step; [unfold bind at 1, upd_dj, modify; unfold bind at 1; rewrite (on_dvol_ret _ _ _ _ _ E1); reflexivity|]. cbn [Z.eqb negb FR_OK FR_NO_FILE].
        apply returns_ret. eexists v1, _. split; [reflexivity|]. split; [done|]. split; [done|]. split; [done|].
        rewrite (proj2 (Z.ltb_ge _ _)); [done|]. apply Ends. apply lookup_ge_None in En. lia.
    + destruct (fsect_next (fs v) l G Al (i / 16) 1 Hq) as (Hn & Fn & Dn' & Mn); [lia..|]. rewrite Mn, (proj2 (Z.eqb_neq _ 0)) by lia.
      eapply returns_step; [reflexivity|]. cbn [Z.eqb negb FR_OK]. do 2 (eapply returns_step; [reflexivity|]). apply returns_ret. eexists v, _. split; [reflexivity|].
      split; [done|]. split; [apply window_moved_refl|]. split; [done|]. rewrite (proj2 (Z.ltb_lt _ _)) by (pose proof (Z.div_mod (i + 1) 16); lia). split; [done|].
      unfold dir_at. cbn [dobj set_dir set_index set_sect index sect d_clust dir t_sect t_clust]. rewrite Eq, As, Fn, Dn', !wrapu_small by (unfold inu; lia).
      by rewrite (list_lookup_total_correct _ _ _ Ec).
Qed.

(** ** Looking up a name *)

Definition ent_end (e : list Z) : bool := byte_at e DIR_Name =? 0.
Definition ent_named (name e : list Z) : bool := ((byte_at e DIR_Attr &&& AM_VOL) =? 0) && bool_decide (take 11 e = slice 0 11 name).
(** The first entry with the name before the end of the table. *)
Fixpoint dir_lookup (name : list Z) (es : list (list Z)) : option nat :=
  match es with
  | [] => None
  | e :: es' => if ent_end e then None else if ent_named name e then Some O else option_map S (dir_lookup name es')
  end.

Lemma take_slice o n w : 11 <= n -> take 11 (slice o n w) = slice o 11 w.
Proof. intros Hn. unfold slice. rewrite take_take. by replace (11 `min` Z.to_nat n)%nat with (Z.to_nat 11) by lia. Qed.

Lemma dirents_drop f L t i : 0 <= i < t_entries f t -> drop (Z.to_nat i) (dirents f L t) = dirent f L t i :: drop (Z.to_nat (i + 1)) (dirents f L t).
Proof.
  intros Hi. replace (Z.to_nat (i + 1)) with (S (Z.to_nat i)) by lia. apply drop_S. unfold dirents. rewrite list_lookup_fmap, lookup_seqZ_lt by lia. cbn. do 2 f_equal. lia.
Qed.
Lemma dirents_length f L t : 0 <= t_entries f t -> length (dirents f L t) = Z.to_nat (t_entries f t).
Proof. intros. unfold dirents. by rewrite length_map, length_seqZ. Qed.

(** The entry in the window. *)
Definition shows v t L i : Prop := winsect (fs v) = t_sect (fs v) t (i / 16) /\ L !! t_sect (fs v) t (i / 16) = Some (win (fs v)).

Lemma shown v t L i k : shows v t L i -> 0 <= i -> 0 <= k < 32 -> byte_at (win (fs v)) (i mod 16 * 32 + k) = byte_at (dirent (fs v) L t i) k.
Proof. intros [_ E] Hi Hk. unfold dirent. rewrite E. cbn [default from_option]. pose proof (Z.mod_pos_bound i 16). by rewrite byte_at_slice by lia. Qed.

Lemma show_entry v p L t i : vol_rep v L -> placed (fs v) L (d_sclust p) t -> dir_at (fs v) t i p -> 0 <= i < t_entries (fs v) t ->
  returns (on_dvol (move_window (sect p))) (Dj v p) (fun r s' => r = FR_OK /\ exists v', s' = Dj v' p /\ vol_rep v' L /\ window_moved (fs v) (fs v') /\ shows v' t L i).
Proof.
  intros R P (_ & As & _) Hi. unfold t_entries in Hi. assert (Hq : 0 <= i / 16 < t_sectors (fs v) t) by (split; [apply Z.div_pos; lia|apply Z.div_lt_upper_bound; lia]).
  destruct (directory_sector _ _ _ _ (proj1 R) P (i / 16) Hq) as (_ & Nc & _). destruct (proj2 P (i / 16) Hq) as [b Eb]. rewrite As.
  eapply returns_mono; [apply on_dvol_spec; by apply (move_window_spec v L _ b)|]. cbv beta. intros r s' (v' & -> & -> & R' & W' & Ws & Ew). split; [done|]. exists v'. split_and!; [done..|].
  destruct (place_same _ _ (proj1 W')) as (_ & E2 & _). unfold shows. by rewrite E2, Ws, Eb, Ew.
Qed.

Definition found v t L i p r v' p' : Prop :=
  match dir_lookup (fn p) (drop (Z.to_nat i) (dirents (fs v) L t)) with
  | Some k => r = FR_OK /\ dir_at (fs v) t (i + Z.of_nat k) p' /\ shows v' t L (i + Z.of_nat k)
  | None => r = FR_NO_FILE
  end.

Lemma find_loop_spec fuel : forall v p L t i, vol_rep v L -> placed (fs v) L (d_sclust p) t -> dir_at (fs v) t i p -> 0 <= i < t_entries (fs v) t -> t_entries (fs v) t - i <= Z.of_nat fuel ->
  returns (find_loop fuel) (Dj v p) (fun r s' => exists v' p', s' = Dj v' p' /\ vol_rep v' L /\ window_moved (fs v) (fs v') /\ same_name p p' /\ found v t L i p r v' p').
Proof.
  induction fuel as [|fuel IH]; intros v p L t i R P A Hi Hf; [lia|]. cbn [find_loop]. eapply returns_step; [reflexivity|]. cbn [dobj].
  eapply returns_bind; [by apply (show_entry v p L t i)|]. intros r s' (-> & v1 & -> & R1 & W1 & Sh). cbn [Z.eqb negb FR_OK].
  pose proof (place_same _ _ (proj1 W1)) as (S1 & _ & _ & P1 & D1 & Es).
  assert (Ed : forall k, 0 <= k < 32 -> byte_at (win (fs v1)) (default 0 (dir p) + k) = byte_at (dirent (fs v1) L t i) k).
  { intros k Hk. destruct A as (_ & _ & _ & ->). cbn. apply shown; (done || lia). }
  assert (En : slice (default 0 (dir p)) 11 (win (fs v1)) = take 11 (dirent (fs v1) L t i)).
  { destruct A as (_ & _ & _ & ->). cbn [default from_option id]. destruct Sh as [_ E]. unfold dirent. rewrite E. by rewrite take_slice by lia. }
  assert (Hi1 : 0 <= i < t_entries (fs v1) t) by (unfold t_entries; by rewrite S1). unfold found. rewrite <- (Es L t), dirents_drop by done. cbn [dir_lookup].
  eapply returns_step; [reflexivity|]. cbn [dobj dvol]. rewrite Ed by (unfold DIR_Name; lia). fold (ent_end (dirent (fs v1) L t i)). destruct (ent_end _).
  { apply returns_ret. exists v1, p. by split_and!. }
  do 2 (eapply returns_step; [reflexivity|]). cbn [dobj dvol]. rewrite Ed, En by (unfold DIR_Attr; lia). fold (ent_named (fn p) (dirent (fs v1) L t i)). destruct (ent_named _ _).
  { apply returns_ret. exists v1, p. rewrite Z.add_0_r. by split_and!. }
  eapply returns_bind; [apply (dir_next_spec v1 p L t i false R1 (P1 _ _ _ P) (D1 _ _ _ A) Hi1 ltac:(done))|]. intros r s' (v2 & p2 & -> & R2 & W2 & N2 & Hr).
  destruct (Z.ltb_spec (i + 1) (t_entries (fs v1) t)) as [Lt|Ge].
  - destruct Hr as [-> A2]. cbn [Z.eqb FR_OK]. pose proof (place_same _ _ (proj1 W2)) as (S2 & _ & _ & P2 & D2 & Es2).
    assert (P3 : placed (fs v2) L (d_sclust p2) t) by (destruct N2 as (_ & -> & _); auto).
    eapply returns_mono; [apply (IH v2 p2 L t (i + 1) R2 P3 (D2 _ _ _ A2)); unfold t_entries in *; rewrite S2; [lia|rewrite S1; lia]|].
    cbv beta. intros r s' (v3 & p3 & -> & R3 & W3 & N3 & F3). exists v3, p3. split; [done|]. split; [done|]. split; [eapply window_moved_trans; [exact W1|by eapply window_moved_trans]|].
    split; [destruct N2 as (N21 & N22 & N23), N3 as (N31 & N32 & N33); unfold same_name; split_and!; congruence|].
    unfold found in F3. destruct N2 as (N21 & _). rewrite N21, Es2 in F3. destruct (dir_lookup (fn p) (drop _ _)) as [k|]; cbn [option_map]; [|done].
    destruct F3 as (-> & A3 & Sh3). replace (i + Z.of_nat (S k)) with (i + 1 + Z.of_nat k) by lia. split_and!; [done| |done].
    destruct (place_same _ _ (proj1 (window_moved_sym _ _ (window_moved_trans _ _ _ W1 W2)))) as (_ & _ & _ & _ & D3 & _). by apply D3.
  - rewrite Hr. cbn [Z.eqb FR_OK FR_NO_FILE]. apply returns_ret. exists v2, p2. split_and!; [done|done|by eapply window_moved_trans|done|].
    rewrite drop_ge by (rewrite dirents_length; lia). done.
Qed.

Lemma dir_find_spec v p L t : vol_rep v L -> placed (fs v) L (d_sclust p) t ->
  returns dir_find (Dj v p) (fun r s' => exists v' p', s' = Dj v' p' /\ vol_rep v' L /\ window_moved (fs v) (fs v') /\ same_name p p' /\ found v t L 0 p r v' p').
Proof.
  intros R P. pose proof (table_nonempty _ _ _ _ (proj1 R) P) as Hn. assert (He : 0 < t_entries (fs v) t <= 65536) by (unfold t_entries; lia). unfold dir_find.
  eapply returns_bind; [apply (dir_sdi_spec v p L t 0 R P); lia|]. intros r s' (-> & v1 & p1 & -> & R1 & W1 & A1 & N1). cbn [Z.eqb negb FR_OK].
  pose proof (place_same _ _ (proj1 W1)) as (S1 & _ & _ & P1 & D1 & Es). destruct N1 as (N11 & N12 & N13).
  eapply returns_mono; [apply (find_loop_spec _ v1 p1 L t 0 R1); [rewrite N12; by apply P1|by apply D1|unfold t_entries in *; rewrite S1; lia..]|].
  cbv beta. intros r s' (v2 & p2 & -> & R2 & W2 & (N21 & N22 & N23) & F). exists v2, p2. split_and!; [done|done|by eapply window_moved_trans|unfold same_name; split_and!; congruence|].
  unfold found in *. rewrite N11, Es in F. destruct (dir_lookup _ _) as [k|]; [|done]. destruct F as (-> & A2 & Sh). split_and!; [done| |done].
  destruct (place_same _ _ (proj1 (window_moved_sym _ _ W1))) as (_ & _ & _ & _ & D3 & _). by apply D3.
Qed.
End Walk.

(** ** The name of a path segment *)

(** Two names that differ at most in the status byte. *)
Definition like (a b : list Z) : Prop := length a = 12%nat /\ length b = 12%nat /\ forall j, (j < 11)%nat -> a !! j = b !! j.

Lemma like_put a b i x : like a b -> like (put_byte i x a) (put_byte i x b).
Proof.
  intros (La & Lb & E). unfold like, put_byte. rewrite !length_insert. split_and!; [done..|]. intros j Hj.
  destruct (decide (Z.to_nat i = j)) as [->|Ne]; [by rewrite !list_lookup_insert_eq by lia|by rewrite !list_lookup_insert_ne, E by done].
Qed.

Lemma like_status a b x : like a b -> put_byte NSFLAG x a = put_byte NSFLAG x b.
Proof.
  intros (La & Lb & E). apply list_eq. intros j. unfold put_byte. change (Z.to_nat NSFLAG) with 11%nat.
  destruct (decide (j = 11)%nat) as [->|Ne]; [by rewrite !list_lookup_insert_eq by lia|]. rewrite !list_lookup_insert_ne by lia.
  destruct (decide (j < 11)%nat); [by apply E|]. by rewrite !lookup_ge_None_2 by lia.
Qed.

Lemma like_dot k : forall p i a b, like a b -> let '(c, rest, a') := dot_loop k p i a in exists b', dot_loop k p i b = (c, rest, b') /\ like a' b'.
Proof.
  induction k as [|k IH]; intros p i a b E; cbn [dot_loop]; [by exists b|]. destruct (negb _); [by exists b|]. by apply IH, like_put.
Qed.

Definition like_loop (x y : list Z + (Z * list Z * Z * Z * Z * list Z)) : Prop :=
  match x, y with
  | inl a, inl b => like a b
  | inr (c, rest, i, ni, m, a), inr y => exists b, y = (c, rest, i, ni, m, b) /\ like a b
  | _, _ => False
  end.

Lemma like_name p : forall i ni m a b, like a b -> like_loop (name_loop p i ni m a) (name_loop p i ni m b).
Proof.
  induction p as [|c p IH]; intros i ni m a b E; cbn [name_loop like_loop]; [by exists b|]. destruct (_ || is_sep c); [by exists b|].
  destruct (_ || (ni <=? i)); [destruct (_ || _); [done|by apply IH]|]. destruct (_ <=? c); [done|]. destruct (bad_chr c); [done|]. by apply IH, like_put.
Qed.

(** The name a segment gives, its status and the rest of the path. *)
Definition segment (path : list Z) : Z * list Z * list Z := create_name (replicate 12 0) path.

Lemma create_name_any fn path : length fn = 12%nat ->
  let '(r, name, rest) := segment path in exists name', create_name fn path = (r, name', rest) /\ length name' = 12%nat /\ length name = 12%nat /\ (r = FR_OK -> name' = name).
Proof.
  intros Ln. unfold segment, create_name. assert (E0 : like (copy_to 0 (replicate 11 32) (replicate 12 0)) (copy_to 0 (replicate 11 32) fn)).
  { do 12 (destruct fn as [|? fn]; [done|]). destruct fn; [|done]. split_and!; [done..|]. intros j Hj. do 11 (destruct j as [|j]; [done|]). lia. }
  set (a := copy_to 0 _ (replicate 12 0)) in *. set (b := copy_to 0 _ fn) in *. destruct (chr _ =? 46).
  - pose proof (like_dot 2 (skip_seps path) 0 a b E0) as Ed. destruct (dot_loop 2 _ 0 a) as [[c rest] a']. destruct Ed as (b' & -> & E'). destruct (_ && _).
    + exists b'. destruct E' as (La & Lb & _). by split_and!.
    + eexists. split; [reflexivity|]. rewrite (like_status a' b' _ E'). unfold put_byte. rewrite !length_insert. destruct E' as (La & Lb & _). by split_and!.
  - pose proof (like_name (skip_seps path) 0 8 0 a b E0) as En. destruct (name_loop _ 0 8 0 a) as [a'|[[[[[c rest] i] ni] m] a']], (name_loop _ 0 8 0 b) as [b'|y]; cbn in En; try done.
    + exists b'. destruct En as (La & Lb & _). by split_and!.
    + destruct En as (b' & -> & E'). destruct (i =? 0); [exists b'; destruct E' as (La & Lb & _); by split_and!|]. eexists. split; [reflexivity|].
      assert (Eb : byte_at b' 0 = byte_at a' 0) by (unfold byte_at; change (Z.to_nat 0) with 0%nat; rewrite !list_lookup_total_alt; destruct E' as (_ & _ & E'); by rewrite (E' 0%nat) by lia).
      rewrite Eb. assert (E2 : like (if byte_at a' 0 =? DDEM then put_byte 0 RDDEM a' else a') (if byte_at a' 0 =? DDEM then put_byte 0 RDDEM b' else b')) by (destruct (_ =? DDEM); [by apply like_put|done]).
      rewrite (like_status _ _ _ E2). destruct E2 as (La & Lb & _). unfold put_byte. rewrite !length_insert. unfold put_byte in Lb. by split_and!.
Qed.

(** The segment ended the path. *)
Definition is_last (name : list Z) : bool := Z.testbit (byte_at name NSFLAG) 2.
Definition is_dot (name : list Z) : bool := Z.testbit (byte_at name NSFLAG) 5.

Lemma dot_rest k : forall p i a c rest a', dot_loop k p i a = (c, rest, a') -> length a' = length a /\ (c <= 32 \/ (length rest < length p)%nat).
Proof.
  assert (T : forall p : list Z, chr p <= 32 \/ (length (tail p) < length p)%nat) by (intros [|x p]; cbn; lia).
  induction k as [|k IH]; intros p i a c rest a'; cbn [dot_loop].
  - intros E. injection E as <- <- <-. split; [done|apply T].
  - destruct (Z.eqb_spec (chr p) 46) as [E46|_]; cbn [negb]; [|intros E; injection E as <- <- <-; split; [done|apply T]].
    intros E. apply IH in E as [El Er]. unfold put_byte in El. rewrite length_insert in El. split; [done|]. destruct p; cbn in *; lia.
Qed.

Lemma name_rest p : forall i ni m a c rest i' ni' m' a', name_loop p i ni m a = inr (c, rest, i', ni', m', a') -> length a' = length a /\ (c <= 32 \/ (length rest < length p)%nat).
Proof.
  induction p as [|x p IH]; intros i ni m a c rest i' ni' m' a'; cbn [name_loop].
  - intros E. injection E as <- <- <- <- <- <-. split; [done|lia].
  - destruct (_ || is_sep x); [intros E; injection E as <- <- <- <- <- <-; cbn; split; [done|lia]|].
    destruct (_ || (ni <=? i)); [destruct (_ || _); [done|]; intros E; apply IH in E as [El Er]; cbn; split; [done|lia]|]. destruct (_ <=? x); [done|]. destruct (bad_chr x); [done|].
    intros E. apply IH in E as [El Er]. unfold put_byte in El. rewrite length_insert in El. cbn. split; [done|lia].
Qed.

Lemma skip_seps_length p : (length (skip_seps p) <= length p)%nat.
Proof. induction p as [|c p IH]; cbn; [lia|]. destruct (is_sep c); cbn; lia. Qed.

Lemma status_bit x a : length a = 12%nat -> byte_at (put_byte NSFLAG x a) NSFLAG = x.
Proof. intros La. rewrite byte_at_put by (unfold NSFLAG; lia). by rewrite Z.eqb_refl. Qed.

(** Only the last segment leaves nothing to follow. *)
Lemma segment_shorter path name rest : segment path = (FR_OK, name, rest) -> is_last name = false -> (length rest < length path)%nat.
Proof.
  unfold segment, create_name, is_last. intros E Hl. pose proof (skip_seps_length path). set (a := copy_to 0 _ _) in *. assert (La : length a = 12%nat) by done.
  destruct (chr _ =? 46).
  - destruct (dot_loop 2 _ 0 a) as [[c r] a'] eqn:Ed. apply dot_rest in Ed as [El Er]. destruct (_ && _); [done|]. injection E as <- <-. rewrite status_bit in Hl by lia.
    destruct (Z.leb_spec c 32); [done|lia].
  - destruct (name_loop _ 0 8 0 a) as [|[[[[[c r] i] ni] m] a']] eqn:En; [done|]. apply name_rest in En as [El Er]. destruct (i =? 0); [done|]. injection E as <- <-.
    rewrite status_bit in Hl by (destruct (_ =? DDEM); unfold put_byte; rewrite ?length_insert; lia). destruct (Z.leb_spec c 32); [|lia]. exfalso. by destruct (_ =? 1), (_ =? 4).
Qed.

(** ** Following a path *)
Definition ent_cluster (f : FATFS) (e : list Z) : Z := ld_clust f e 0.

(** The path from the directory at cluster [c] ends at the name [name] in the directory [t],
    which has it at entry [k] or not ([None]): every segment but the last names a directory,
    and dots that have no entry stay at the root. *)
Inductive walk (f : FATFS) (L : sectors) : Z -> list Z -> place -> list Z -> option nat -> Prop :=
| walk_last c path name rest t r : segment path = (FR_OK, name, rest) -> is_last name = true -> placed f L c t ->
    dir_lookup name (dirents f L t) = r -> (r = None -> is_dot name = false) -> walk f L c path t name r
| walk_down c path name rest t k t' n' r' : segment path = (FR_OK, name, rest) -> is_last name = false -> placed f L c t ->
    dir_lookup name (dirents f L t) = Some k -> Z.testbit (byte_at (dirent f L t (Z.of_nat k)) DIR_Attr) 4 = true ->
    walk f L (ent_cluster f (dirent f L t (Z.of_nat k))) rest t' n' r' -> walk f L c path t' n' r'
| walk_dots c path name rest t t' n' r' : segment path = (FR_OK, name, rest) -> is_last name = false -> is_dot name = true -> placed f L c t ->
    dir_lookup name (dirents f L t) = None -> walk f L 0 rest t' n' r' -> walk f L c path t' n' r'.

Lemma walk_same f f' L c path t n r : rest_same f f' -> walk f L c path t n r -> walk f' L c path t n r.
Proof.
  intros R W. pose proof (place_same _ _ R) as (_ & S2 & _ & P1 & _ & Es).
  assert (Ed : forall t i, dirent f' L t i = dirent f L t i) by (intros; unfold dirent; by rewrite S2).
  assert (Ec : forall e, ent_cluster f' e = ent_cluster f e) by (intros; unfold ent_cluster, ld_clust; destruct R as (-> & _); done).
  induction W as [c path name rest t r E1 E2 Hp Hl Hn|c path name rest t k t' n' r' E1 E2 Hp Hl Hd W IH|c path name rest t t' n' r' E1 E2 E3 Hp Hl W IH].
  - eapply walk_last; [done|done|by apply P1|by rewrite Es|done].
  - eapply (walk_down _ _ _ _ name rest t k); [done|done|by apply P1|by rewrite Es|by rewrite Ed|]. by rewrite Ed, Ec.
  - eapply (walk_dots _ _ _ _ name rest t); [done|done|done|by apply P1|by rewrite Es|done].
Qed.

(** Where a path leads, for every path: to an entry; to a name its directory does not have
    ([FR_NO_FILE]); to the directory at a cluster itself, which has no entry (the empty path,
    and dots that end at the root); or nowhere, with the error of the walk. *)
Inductive target := Entry (t : place) (name : list Z) (k : nat) | NoFile (t : place) (name : list Z) | Directory (c : Z) | Fails (r : Z).

Inductive leads (f : FATFS) (L : sectors) : Z -> list Z -> target -> Prop :=
| leads_invalid c path name rest : segment path = (FR_INVALID_NAME, name, rest) -> leads f L c path (Fails FR_INVALID_NAME)
| leads_entry c path name rest t k : segment path = (FR_OK, name, rest) -> is_last name = true -> placed f L c t ->
    dir_lookup name (dirents f L t) = Some k -> leads f L c path (Entry t name k)
| leads_missing c path name rest t : segment path = (FR_OK, name, rest) -> is_last name = true -> placed f L c t ->
    dir_lookup name (dirents f L t) = None -> is_dot name = false -> leads f L c path (NoFile t name)
| leads_origin c path name rest t : segment path = (FR_OK, name, rest) -> is_last name = true -> placed f L c t ->
    dir_lookup name (dirents f L t) = None -> is_dot name = true -> leads f L c path (Directory 0)
| leads_no_path c path name rest t : segment path = (FR_OK, name, rest) -> is_last name = false -> placed f L c t ->
    dir_lookup name (dirents f L t) = None -> is_dot name = false -> leads f L c path (Fails FR_NO_PATH)
| leads_not_dir c path name rest t k : segment path = (FR_OK, name, rest) -> is_last name = false -> placed f L c t ->
    dir_lookup name (dirents f L t) = Some k -> Z.testbit (byte_at (dirent f L t (Z.of_nat k)) DIR_Attr) 4 = false -> leads f L c path (Fails FR_NO_PATH)
| leads_down c path name rest t k x : segment path = (FR_OK, name, rest) -> is_last name = false -> placed f L c t ->
    dir_lookup name (dirents f L t) = Some k -> Z.testbit (byte_at (dirent f L t (Z.of_nat k)) DIR_Attr) 4 = true ->
    leads f L (ent_cluster f (dirent f L t (Z.of_nat k))) rest x -> leads f L c path x
| leads_dots c path name rest t x : segment path = (FR_OK, name, rest) -> is_last name = false -> placed f L c t ->
    dir_lookup name (dirents f L t) = None -> is_dot name = true -> leads f L 0 rest x -> leads f L c path x.

Definition target_of (t : place) (name : list Z) (x : option nat) : target := match x with Some k => Entry t name k | None => NoFile t name end.

Lemma walk_leads f L c path t name x : walk f L c path t name x -> leads f L c path (target_of t name x).
Proof.
  induction 1 as [c path name rest t r E1 E2 Hp Hl Hn|c path name rest t k t' n' r' E1 E2 Hp Hl Hd W IH|c path name rest t t' n' r' E1 E2 E3 Hp Hl W IH].
  - destruct r as [k|]; [by eapply leads_entry|eapply leads_missing; eauto].
  - by eapply leads_down.
  - by eapply leads_dots.
Qed.

Lemma leads_same f f' L c path x : rest_same f f' -> leads f L c path x -> leads f' L c path x.
Proof.
  intros R W. pose proof (place_same _ _ R) as (_ & S2 & _ & P1 & _ & Es).
  assert (Ed : forall t i, dirent f' L t i = dirent f L t i) by (intros; unfold dirent; by rewrite S2).
  assert (Ec : forall e, ent_cluster f' e = ent_cluster f e) by (intros; unfold ent_cluster, ld_clust; destruct R as (-> & _); done).
  induction W as [c path name rest E1|c path name rest t k E1 E2 Hp Hl|c path name rest t E1 E2 Hp Hl Hn|c path name rest t E1 E2 Hp Hl Hn|c path name rest t E1 E2 Hp Hl Hn
    |c path name rest t k E1 E2 Hp Hl Hd|c path name rest t k x E1 E2 Hp Hl Hd W IH|c path name rest t x E1 E2 Hp Hl Hn W IH].
  - by eapply leads_invalid.
  - eapply leads_entry; [done|done|by apply P1|by rewrite Es].
  - eapply leads_missing; [done|done|by apply P1|by rewrite Es|done].
  - eapply leads_origin; [done|done|by apply P1|by rewrite Es|done].
  - eapply leads_no_path; [done|done|by apply P1|by rewrite Es|done].
  - eapply (leads_not_dir _ _ _ _ name rest t k); [done|done|by apply P1|by rewrite Es|by rewrite Ed].
  - eapply (leads_down _ _ _ _ name rest t k); [done|done|by apply P1|by rewrite Es|by rewrite Ed|]. by rewrite Ed, Ec.
  - eapply (leads_dots _ _ _ _ name rest t); [done|done|by apply P1|by rewrite Es|done|done].
Qed.

(** A directory tree: the directories at the clusters [dirs] are well formed, the root among
    them, and so is every directory that one of them has an entry for. *)
Record dir_tree (f : FATFS) (L : sectors) (dirs : Z -> Prop) : Prop := {
  dt_root : dirs 0;
  dt_placed c : dirs c -> exists t, placed f L c t;
  dt_closed c t name k : dirs c -> placed f L c t -> dir_lookup name (dirents f L t) = Some k ->
    Z.testbit (byte_at (dirent f L t (Z.of_nat k)) DIR_Attr) 4 = true -> dirs (ent_cluster f (dirent f L t (Z.of_nat k)));
}.

Lemma segment_result path : fst (fst (segment path)) = FR_OK \/ fst (fst (segment path)) = FR_INVALID_NAME.
Proof.
  unfold segment, create_name. destruct (chr _ =? 46).
  - destruct (dot_loop _ _ _ _) as [[c rest] a]. destruct (_ && _); [by right|by left].
  - destruct (name_loop _ _ _ _ _) as [|[[[[[c rest] i] ni] m] a]]; [by right|]. destruct (i =? 0); [by right|by left].
Qed.

Lemma leads_total f L dirs : dir_tree f L dirs -> forall n c path, (length path < n)%nat -> dirs c -> exists x, leads f L c path x.
Proof.
  intros T n. induction n as [|n IH]; intros c path Hn Hc; [lia|]. destruct (dt_placed _ _ _ T c Hc) as [t Hp].
  destruct (segment path) as [[r name] rest] eqn:Seg. pose proof (segment_result path) as Hr. rewrite Seg in Hr. cbn [fst] in Hr.
  destruct Hr as [-> | ->]; [|by eexists; eapply leads_invalid].
  destruct (is_last name) eqn:El, (dir_lookup name (dirents f L t)) as [k|] eqn:Ek.
  - eexists. by eapply leads_entry.
  - destruct (is_dot name) eqn:Ed; eexists; [by eapply leads_origin|by eapply leads_missing].
  - destruct (Z.testbit (byte_at (dirent f L t (Z.of_nat k)) DIR_Attr) 4) eqn:Ea; [|eexists; by eapply leads_not_dir].
    destruct (IH (ent_cluster f (dirent f L t (Z.of_nat k))) rest) as [x W]; [apply segment_shorter in Seg; [lia|done]|by eapply dt_closed|].
    exists x. by eapply leads_down.
  - destruct (is_dot name) eqn:Ed; [|eexists; by eapply leads_no_path].
    destruct (IH 0 rest) as [x W]; [apply segment_shorter in Seg; [lia|done]|apply T|]. exists x. by eapply leads_dots.
Qed.

Lemma lookup_bound name es k : dir_lookup name es = Some k -> (k < length es)%nat.
Proof.
  revert k. induction es as [|e es IH]; intros k; cbn; [done|]. destruct (ent_end e); [done|]. destruct (ent_named name e); [intros E; injection E as <-; lia|].
  destruct (dir_lookup name es) as [j|]; [|done]. intros E. injection E as <-. specialize (IH j eq_refl). lia.
Qed.

Lemma lookup_name_ext name name' es : slice 0 11 name = slice 0 11 name' -> dir_lookup name es = dir_lookup name' es.
Proof. intros E. induction es as [|e es IH]; [done|]. cbn. unfold ent_named. by rewrite E, IH. Qed.

Lemma placed_unique f L c t t' : placed f L c t -> placed f L c t' -> t = t'.
Proof.
  intros [P _] [P' _]. destruct t as [|l], t' as [|l']; [done|exfalso..|].
  - destruct P as (-> & Nt & _), P' as (_ & _ & [[? _]|(_ & ? & _)]); [lia|done].
  - destruct P as (_ & _ & [[? _]|(_ & ? & _)]), P' as (-> & Nt & _); [lia|done].
  - destruct P as (C & _ & Hc), P' as (C' & _ & Hc'). f_equal. apply (chain_unique _ _ _ _ C C'). destruct Hc as [[? ->]|(-> & _ & ->)], Hc' as [[? ->]|(E & _ & ->)]; (done || lia).
Qed.

Section Follow.
Context {D : Type} `{BlockLaws D}.
Implicit Types (v : volume D) (p : DIR) (L : sectors) (t : place).

(** The start cluster of the entry in the window. *)
Lemma shown_cluster v t L i : shows v t L i -> 0 <= i -> ld_clust (fs v) (win (fs v)) (i mod 16 * 32) = ent_cluster (fs v) (dirent (fs v) L t i).
Proof.
  intros Sh Hi. unfold ent_cluster, ld_clust, LD_WORD. rewrite !Z.add_0_l, <- !Z.add_assoc. rewrite !(shown v t L i) by (done || (unfold DIR_FstClusLO, DIR_FstClusHI; lia)). done.
Qed.

(** The object is at the entry, or in the directory that has no such name. *)
Definition arrived v t L name (x : option nat) (r : Z) v' p' : Prop :=
  match x with
  | Some k => r = FR_OK /\ dir_at (fs v) t (Z.of_nat k) p' /\ shows v' t L (Z.of_nat k) /\ Z.of_nat k < t_entries (fs v) t
  | None => r = FR_NO_FILE
  end /\ placed (fs v) L (d_sclust p') t /\ fn p' = name.

(** The result of following a path, and where the object is. *)
Definition reached v L (x : target) (r : Z) v' p' : Prop :=
  match x with
  | Entry t name k => arrived v t L name (Some k) r v' p'
  | NoFile t name => arrived v t L name None r v' p'
  | Directory c => r = FR_OK /\ dir p' = None /\ d_sclust p' = c
  | Fails e => r = e
  end.

Lemma reached_moved v v1 L x r v' p' : window_moved (fs v) (fs v1) -> reached v1 L x r v' p' -> reached v L x r v' p'.
Proof.
  intros R. destruct (place_same _ _ (proj1 (window_moved_sym _ _ R))) as (S1 & _ & _ & P3 & D3 & _). destruct x as [t name k|t name| |]; [| |done..]; intros (A & P & F).
  - destruct A as (-> & A & Sh & Hk). split; [|split; [by apply P3|done]]. split_and!; [done|by apply D3|done|]. unfold t_entries in *. by rewrite S1.
  - split; [done|split; [by apply P3|done]].
Qed.

Lemma follow_loop_leads fuel : forall v p L path x, vol_rep v L -> leads (fs v) L (d_sclust p) path x -> length (fn p) = 12%nat -> (length path < fuel)%nat ->
  returns (follow_loop fuel path) (Dj v p) (fun r s' => exists v' p', s' = Dj v' p' /\ vol_rep v' L /\ window_moved (fs v) (fs v') /\ reached v L x r v' p').
Proof.
  induction fuel as [|fuel IH]; intros v p L path x R W Lf Hf; [lia|]. cbn [follow_loop]. eapply returns_step; [reflexivity|]. cbn [dobj].
  pose proof (create_name_any (fn p) path Lf) as Cn. pose proof (segment_result path) as Sr. destruct (segment path) as [[r0 name] rest] eqn:Seg. destruct Cn as (name' & -> & _ & Ln & En).
  eapply returns_step; [reflexivity|]. cbn [dobj dvol]. cbn [fst] in Sr. destruct Sr as [-> | ->].
  2: { change (negb (FR_INVALID_NAME =? FR_OK)) with true. cbv iota. apply returns_ret. eexists v, _. split_and!; [done|done|by apply window_moved_refl|].
       inversion W; subst; repeat match goal with E : segment _ = (_, _, _) |- _ => rewrite Seg in E; try discriminate E; clear E end; done. }
  change (negb (FR_OK =? FR_OK)) with false. cbv iota. rewrite (En eq_refl). clear name' En. set (p1 := set_fn name p).
  assert (Pl : exists t0, placed (fs v) L (d_sclust p1) t0) by (inversion W; subst; match goal with E : segment _ = (_, _, _) |- _ => rewrite Seg in E; try discriminate E end; eauto). destruct Pl as [t0 Pl].
  eapply returns_bind; [by apply (dir_find_spec v p1 L t0)|]. intros r s' (v1 & p2 & -> & R1 & W1 & (N1 & N2 & N3) & F). unfold found in F. change (fn p1) with name in F. rewrite drop_0 in F.
  assert (Ln2 : length (fn p2) = 12%nat) by (by rewrite N1). change (d_sclust p) with (d_sclust p1) in W.
  assert (He : 0 <= t_entries (fs v) t0) by (pose proof (table_nonempty _ _ _ _ (proj1 R) Pl); unfold t_entries; lia).
  change NS_LAST with (2 ^ 2). change NS_DOT with (2 ^ 5). change AM_DIR with (2 ^ 4). rewrite !flag_test by lia. fold (is_last name) (is_dot name).
  pose proof (place_same _ _ (proj1 W1)) as (_ & S2 & _ & _ & _ & _). assert (Ed : forall i, dirent (fs v1) L t0 i = dirent (fs v) L t0 i) by (intros; unfold dirent; by rewrite S2).
  assert (Next : forall p3, is_last name = false -> length (fn p3) = 12%nat -> leads (fs v) L (d_sclust p3) rest x -> returns (follow_loop fuel rest) (Dj v1 p3) (fun r s' => exists v' p', s' = Dj v' p' /\
    vol_rep v' L /\ window_moved (fs v) (fs v') /\ reached v L x r v' p')).
  { intros p3 E2 Lp3 Wd. eapply returns_mono; [apply (IH v1 p3 L rest x R1); [by apply (leads_same _ _ _ _ _ _ (proj1 W1))|done|apply segment_shorter in Seg; [lia|done]]|].
    cbv beta. intros r' s' (v2 & p4 & -> & R2 & W2 & A4). exists v2, p4. split_and!; [done|done|by eapply window_moved_trans|]. by apply (reached_moved v v1 _ _ _ _ _ W1). }
  assert (Same : forall t, placed (fs v) L (d_sclust p1) t -> t = t0) by (intros t Hp; by eapply placed_unique).
  inversion W as [c0 pa0 na0 re0 E1|c0 pa0 na0 re0 tt0 k E1 E2 Hp Hl|c0 pa0 na0 re0 tt0 E1 E2 Hp Hl Hn|c0 pa0 na0 re0 tt0 E1 E2 Hp Hl Hn|c0 pa0 na0 re0 tt0 E1 E2 Hp Hl Hn
    |c0 pa0 na0 re0 tt0 k E1 E2 Hp Hl Hd|c0 pa0 na0 re0 tt0 k x0 E1 E2 Hp Hl Hd Wd|c0 pa0 na0 re0 tt0 x0 E1 E2 Hp Hl Hn Wd]; subst;
    rewrite Seg in E1; [done|injection E1 as <- <-..]; pose proof (Same _ Hp) as ->; rewrite Hl in F.
  - destruct F as (-> & A2 & Sh2). rewrite Z.add_0_l in *. change (negb (FR_OK =? FR_OK)) with false. cbv iota. rewrite E2. cbn [negb]. apply returns_ret. exists v1, p2. split_and!; try done.
    split; [split_and!; try done|by rewrite N2]. apply lookup_bound in Hl. rewrite dirents_length in Hl by done. lia.
  - rewrite F, Hn, E2. cbn [Z.eqb negb FR_OK FR_NO_FILE]. apply returns_ret. exists v1, p2. split_and!; try done. split; [done|by rewrite N2].
  - rewrite F, Hn, E2. cbn [Z.eqb negb FR_OK FR_NO_FILE]. do 2 (eapply returns_step; [reflexivity|]). apply returns_ret. cbn [dobj dvol]. eexists v1, _. by split_and!.
  - rewrite F, Hn, E2. cbn [Z.eqb negb FR_OK FR_NO_FILE]. apply returns_ret. exists v1, p2. by split_and!.
  - destruct F as (-> & A2 & Sh2). rewrite Z.add_0_l in *. change (negb (FR_OK =? FR_OK)) with false. cbv iota. rewrite E2. cbn [negb]. eapply returns_step; [reflexivity|]. cbn [dobj dvol].
    destruct A2 as (_ & _ & _ & Edir). rewrite Edir. cbn [default from_option id]. rewrite (shown v1 t0 L _ DIR_Attr Sh2) by (unfold DIR_Attr; lia). rewrite Ed, flag_test, Hd by lia. cbn [negb].
    apply returns_ret. exists v1, p2. by split_and!.
  - destruct F as (-> & A2 & Sh2). rewrite Z.add_0_l in *. change (negb (FR_OK =? FR_OK)) with false. cbv iota. rewrite E2. cbn [negb]. eapply returns_step; [reflexivity|]. cbn [dobj dvol].
    destruct A2 as (_ & _ & _ & Edir). rewrite Edir. cbn [default from_option id]. rewrite (shown v1 t0 L _ DIR_Attr Sh2) by (unfold DIR_Attr; lia). rewrite Ed, flag_test, Hd by lia. cbn [negb].
    eapply returns_step; [reflexivity|]. eapply returns_step; [reflexivity|]. cbn [dobj dvol]. rewrite Edir. cbn [default from_option id]. rewrite (shown_cluster v1 t0 L (Z.of_nat k)) by (done || lia). rewrite Ed.
    apply Next; [done|done|]. cbn [d_sclust set_d_sclust]. unfold ent_cluster, ld_clust in *. destruct W1 as [(-> & _) _]. exact Wd.
  - rewrite F. cbn [Z.eqb negb FR_OK FR_NO_FILE]. rewrite Hn, E2. cbn [negb]. do 2 (eapply returns_step; [reflexivity|]). cbn [dobj dvol]. by apply Next.
Qed.

(** The directory a path starts from, and the path in it. *)
Definition path_start (f : FATFS) (path : list Z) : Z * list Z := if is_sep (chr path) then (0, tail path) else (cdir f, path).
Definition path_to (f : FATFS) (L : sectors) (path : list Z) (t : place) (name : list Z) (x : option nat) : Prop :=
  32 <= chr (snd (path_start f path)) /\ walk f L (fst (path_start f path)) (snd (path_start f path)) t name x.

(** Where a whole path leads; the empty one to the directory it starts from. *)
Definition path_leads (f : FATFS) (L : sectors) (path : list Z) (x : target) : Prop :=
  let '(c, rest) := path_start f path in
  if chr rest <? 32 then (exists t, placed f L c t) /\ x = Directory c else leads f L c rest x.

Lemma follow_path_leads v p L path x : vol_rep v L -> path_leads (fs v) L path x -> length (fn p) = 12%nat ->
  returns (follow_path path) (Dj v p) (fun r s' => exists v' p', s' = Dj v' p' /\ vol_rep v' L /\ window_moved (fs v) (fs v') /\ reached v L x r v' p').
Proof.
  intros R W Lf. unfold follow_path, path_leads, path_start in *. do 2 (eapply returns_step; [reflexivity|]). cbn [dobj dvol].
  set (c := if is_sep (chr path) then 0 else cdir (fs v)) in *. set (rest := if is_sep (chr path) then tail path else path) in *.
  assert (W' : if chr rest <? 32 then (exists t, placed (fs v) L c t) /\ x = Directory c else leads (fs v) L c rest x) by (unfold c, rest; by destruct (is_sep (chr path))).
  destruct (chr rest <? 32).
  - destruct W' as [[t Pl] ->]. set (p1 := set_d_sclust c p). change c with (d_sclust p1) in Pl.
    assert (He : 0 < t_entries (fs v) t) by (pose proof (table_nonempty _ _ _ _ (proj1 R) Pl); unfold t_entries; lia).
    eapply returns_bind; [apply (dir_sdi_spec v p1 L t 0 R Pl); lia|]. intros r s' (-> & v1 & p2 & -> & R1 & W1 & A1 & (N1 & N2 & N3)).
    eapply returns_step; [reflexivity|]. apply returns_ret. cbn [dobj dvol]. eexists v1, _. by split_and!.
  - apply follow_loop_leads; (done || lia).
Qed.

Lemma path_to_leads f L path t name x : path_to f L path t name x -> path_leads f L path (target_of t name x).
Proof.
  intros [Hc W]. unfold path_leads. destruct (path_start f path) as [c rest]. cbn [fst snd] in *. rewrite (proj2 (Z.ltb_ge _ 32)) by lia. by apply walk_leads.
Qed.

Lemma follow_path_spec v p L path t name x : vol_rep v L -> path_to (fs v) L path t name x -> length (fn p) = 12%nat ->
  returns (follow_path path) (Dj v p) (fun r s' => exists v' p', s' = Dj v' p' /\ vol_rep v' L /\ window_moved (fs v) (fs v') /\ arrived v t L name x r v' p').
Proof.
  intros R P Lf. eapply returns_mono; [apply (follow_path_leads v p L path (target_of t name x) R); [by apply path_to_leads|done]|].
  intros r s' (v' & p' & -> & R' & W' & A). exists v', p'. split_and!; try done. by destruct x.
Qed.
End Follow.

(** ** Short names *)

(** Characters of a name: printable ASCII without the separators and illegal ones. *)
Definition name_char (c : Z) : bool := (32 <? c) && (c <? 0x80) && negb (is_sep c) && negb (c =? 46) && negb (bad_chr c).
Definition upper (c : Z) : Z := if IsLower c then c - 0x20 else c.
Definition pad (n : nat) (l : list Z) : list Z := l ++ replicate (n - length l) 32.
(** The name in a directory entry, and as it is written. *)
Definition sfn83 (body ext : list Z) : list Z := pad 8 (map upper body) ++ pad 3 (map upper ext).
Definition written83 (body ext : list Z) : list Z := body ++ match ext with [] => [] | _ => 46 :: ext end.

Lemma copy_to_cons i x l w : 0 <= i -> i + 1 + Z.of_nat (length l) <= Z.of_nat (length w) -> copy_to (i + 1) l (put_byte i x w) = copy_to i (x :: l) w.
Proof.
  intros Hi Hw. unfold copy_to, put_byte. rewrite insert_take_drop by lia. replace (Z.to_nat (i + 1)) with (S (Z.to_nat i)) by lia.
  assert (Lt : length (take (Z.to_nat i) w) = Z.to_nat i) by (rewrite length_take; lia).
  rewrite take_app_ge, drop_app_ge by lia. rewrite Lt. replace (S (Z.to_nat i) - Z.to_nat i)%nat with 1%nat by lia. cbn [take length].
  replace (S (Z.to_nat i) + length l - Z.to_nat i)%nat with (S (length l)) by lia. cbn [drop]. rewrite take_0, drop_drop, <- app_assoc. cbn. do 3 f_equal. f_equal. lia.
Qed.

Lemma name_loop_chars cs : forall rest i ni m sfn, forallb name_char cs = true -> 0 <= i -> i + Z.of_nat (length cs) <= ni -> ni <= 11 -> length sfn = 12%nat ->
  exists m', name_loop (cs ++ rest) i ni m sfn = name_loop rest (i + Z.of_nat (length cs)) ni m' (copy_to i (map upper cs) sfn).
Proof.
  induction cs as [|c cs IH]; intros rest i ni m sfn V Hi Hn Hm Ls; cbn [forallb app length] in *.
  - exists m. rewrite Z.add_0_r. f_equal. unfold copy_to. cbn. rewrite Nat.add_0_r. by rewrite take_drop.
  - apply andb_true_iff in V as [Vc V]. unfold name_char in Vc. rewrite !andb_true_iff, !negb_true_iff in Vc. destruct Vc as ((((V1 & V2) & V3) & V4) & V5).
    cbn [name_loop map]. apply Z.ltb_lt in V1, V2. rewrite (proj2 (Z.leb_gt c 32)), V3, V4, (proj2 (Z.leb_gt ni i)), (proj2 (Z.leb_gt 128 c)), V5 by lia. cbn [orb].
    set (c' := if IsUpper c then c else if IsLower c then u8 (c - 32) else c).
    assert (Ec : c' = upper c).
    { unfold c', upper, IsUpper, IsLower. destruct (Z.leb_spec 65 c), (Z.leb_spec c 90), (Z.leb_spec 97 c), (Z.leb_spec c 122); cbn [andb]; try done; try lia; apply wrapu_small; unfold inu; lia. }
    rewrite Ec. destruct (IH rest (i + 1) ni (if IsUpper c then m ||| 2 else if IsLower c then m ||| 1 else m) (put_byte i (upper c) sfn) V) as (m' & E); [lia..|by rewrite put_byte_length|].
    exists m'. rewrite E, copy_to_cons by (rewrite ?length_map; lia). f_equal. lia.
Qed.

Lemma pad_body B x : (length B <= 8)%nat -> copy_to 0 B (replicate 11 32 ++ [x]) = pad 8 B ++ replicate 3 32 ++ [x].
Proof.
  intros HB. unfold copy_to, pad. change (Z.to_nat 0) with 0%nat. rewrite take_0, Nat.add_0_l, app_nil_l. rewrite drop_app_le, drop_replicate by (rewrite length_replicate; lia).
  replace (11 - length B)%nat with (8 - length B + 3)%nat by lia. by rewrite replicate_add, <- !app_assoc.
Qed.
Lemma pad_ext X E x : length X = 8%nat -> (length E <= 3)%nat -> copy_to 8 E (X ++ replicate 3 32 ++ [x]) = X ++ pad 3 E ++ [x].
Proof.
  intros HX HE. unfold copy_to, pad. change (Z.to_nat 8) with 8%nat. rewrite <- HX, take_app_length, <- drop_drop, drop_app_length.
  rewrite drop_app_le, drop_replicate by (rewrite length_replicate; lia). by rewrite <- !app_assoc.
Qed.
Lemma pad_length n l : (length l <= n)%nat -> length (pad n l) = n.
Proof. intros Hl. unfold pad. rewrite length_app, length_replicate. lia. Qed.
Lemma sfn83_length body ext : (length body <= 8)%nat -> (length ext <= 3)%nat -> length (sfn83 body ext) = 11%nat.
Proof. intros. unfold sfn83. by rewrite length_app, !pad_length by (by rewrite length_map). Qed.

Lemma upper_char c : name_char c = true -> 32 < upper c < 128.
Proof.
  unfold name_char. rewrite !andb_true_iff. intros ((((V1 & V2) & _) & _) & _). apply Z.ltb_lt in V1, V2. unfold upper, IsLower. destruct (Z.leb_spec 97 c), (Z.leb_spec c 122); cbn [andb]; lia.
Qed.

Lemma chars_plain l : forall r i, Forall (fun c => 32 < c < 128) l -> 9 <= i \/ i + Z.of_nat (length l) <= 8 -> name_chars (l ++ r) i = l ++ name_chars r (i + Z.of_nat (length l)).
Proof.
  induction l as [|c l IH]; intros r i F Hi; cbn [app length name_chars] in *; [by rewrite Z.add_0_r|]. apply Forall_cons in F as [Fc F]. unfold RDDEM.
  rewrite (proj2 (Z.eqb_neq c 32)), (proj2 (Z.eqb_neq c 5)), (proj2 (Z.eqb_neq (i + 1) 9)) by lia. cbn [app]. rewrite IH by (done || lia). do 3 f_equal. lia.
Qed.
Lemma chars_spaces n : forall r i, name_chars (replicate n 32 ++ r) i = name_chars r (i + Z.of_nat n).
Proof. induction n as [|n IH]; intros r i; cbn [replicate app name_chars]; [by rewrite Z.add_0_r|]. cbn [Z.eqb Pos.eqb]. rewrite IH. f_equal. lia. Qed.

Lemma printed_name body ext : forallb name_char body = true -> forallb name_char ext = true -> (length body <= 8)%nat -> (length ext <= 3)%nat ->
  name_chars (sfn83 body ext) 0 = map upper (written83 body ext).
Proof.
  intros Vb Ve Hb He. assert (Up : forall l, forallb name_char l = true -> Forall (fun c => 32 < c < 128) (map upper l)).
  { intros l V. apply Forall_map, Forall_forall. intros c Hc. apply upper_char. apply forallb_forall with (x := c) in V; [done|]. by apply list_elem_of_In. }
  unfold sfn83, written83, pad. rewrite <- app_assoc, chars_plain by (auto || (rewrite length_map; lia)). rewrite chars_spaces, !length_map. rewrite map_app. f_equal.
  replace (0 + Z.of_nat (length body) + Z.of_nat (8 - length body)) with 8 by lia. destruct ext as [|c ext].
  - cbn [map app length]. rewrite <- (app_nil_r (replicate _ _)), chars_spaces. done.
  - specialize (Up (c :: ext) Ve). cbn [map] in *. apply Forall_cons in Up as [Uc Ue]. cbn [app name_chars]. unfold RDDEM. rewrite (proj2 (Z.eqb_neq _ 32)), (proj2 (Z.eqb_neq _ 5)) by lia.
    cbn [Z.add Pos.add Z.eqb Pos.eqb app]. f_equal. f_equal. rewrite chars_plain by (done || lia). rewrite <- (app_nil_r (replicate _ _)), chars_spaces. cbn. by rewrite app_nil_r.
Qed.

Lemma name_char_facts c : name_char c = true -> is_sep c = false /\ (c =? 46) = false.
Proof. unfold name_char. rewrite !andb_true_iff, !negb_true_iff. by intros (((_ & V3) & V4) & _). Qed.

(** A written name gives its padded upper-case form, as the last segment of the path. *)
Lemma segment_name body ext : forallb name_char body = true -> forallb name_char ext = true -> (0 < length body <= 8)%nat -> (length ext <= 3)%nat ->
  exists st, segment (written83 body ext) = (FR_OK, sfn83 body ext ++ [st], []) /\ Z.testbit st 2 = true /\ Z.testbit st 5 = false.
Proof.
  intros Vb Ve Hb He. unfold segment, create_name. change (copy_to 0 (replicate 11 32) (replicate 12 0)) with (replicate 11 32 ++ [0]). set (w0 := replicate 11 32 ++ [0]).
  assert (Sk : skip_seps (written83 body ext) = written83 body ext /\ (chr (written83 body ext) =? 46) = false).
  { destruct body as [|c body]; cbn [length] in Hb; [lia|]. cbn [forallb] in Vb. apply andb_true_iff in Vb as [Vc _]. destruct (name_char_facts c Vc) as [E1 E2]. cbn. by rewrite E1. }
  destruct Sk as [-> ->].
  assert (Lp : exists i ni m, name_loop (written83 body ext) 0 8 0 w0 = inr (0, [], i, ni, m, sfn83 body ext ++ [0]) /\ i <> 0).
  { unfold written83. destruct (name_loop_chars body (match ext with [] => [] | _ => 46 :: ext end) 0 8 0 w0 Vb) as (m & ->); [lia..|done|].
    unfold w0. rewrite pad_body by (rewrite length_map; lia). rewrite Z.add_0_l. unfold sfn83. destruct ext as [|c ext].
    - cbn [name_loop]. eexists _, _, _. rewrite <- app_assoc. split; [reflexivity|lia].
    - change (name_loop (46 :: c :: ext) ?i 8 m ?w) with (name_loop (c :: ext) 8 11 (u8 (m <<< 2)) w).
      destruct (name_loop_chars (c :: ext) [] 8 11 (u8 (m <<< 2)) (pad 8 (map upper body) ++ replicate 3 32 ++ [0]) Ve) as (m' & E); [lia|cbn [length] in *; lia|lia|rewrite length_app, pad_length by (rewrite length_map; lia); done|].
      rewrite app_nil_r in E. rewrite E, pad_ext; [|rewrite pad_length; [done|rewrite length_map; lia]|by rewrite length_map]. cbn [name_loop]. eexists _, _, _. rewrite <- app_assoc. split; [reflexivity|lia]. }
  destruct Lp as (i & ni & m & -> & Ni). rewrite (proj2 (Z.eqb_neq i 0)) by done. change (0 <=? 32) with true. cbv iota.
  assert (N5 : (byte_at (sfn83 body ext ++ [0]) 0 =? DDEM) = false).
  { destruct body as [|c body]; cbn [length] in Hb; [lia|]. cbn [forallb] in Vb. apply andb_true_iff in Vb as [Vc _]. pose proof (upper_char c Vc). change (byte_at _ 0) with (upper c). apply Z.eqb_neq. unfold DDEM. lia. }
  rewrite N5. set (st := if (_ &&& 12) =? 4 then _ else _). exists st. split.
  - f_equal. f_equal. unfold put_byte, NSFLAG. pose proof (sfn83_length body ext ltac:(lia) He) as Ls. change (Z.to_nat 11) with 11%nat. rewrite <- Ls at 1. rewrite insert_app_r_alt by lia. by rewrite Nat.sub_diag.
  - unfold st. by destruct (_ =? 1), (_ =? 4).
Qed.

Lemma upper_idem c : name_char c = true -> name_char (upper c) = true /\ upper (upper c) = upper c.
Proof.
  intros Vc. pose proof (upper_char c Vc) as Hu. assert (Hc : 32 < c < 128) by (unfold name_char in Vc; rewrite !andb_true_iff in Vc; lia).
  assert (E : forallb (fun n => let c := Z.of_nat n in negb (name_char c) || name_char (upper c) && (upper (upper c) =? upper c)) (seq 0 128) = true) by (vm_compute; reflexivity).
  apply forallb_forall with (x := Z.to_nat c) in E; [|apply in_seq; lia]. cbv zeta in E. rewrite Z2Nat.id in E by lia. rewrite Vc in E. apply andb_true_iff in E as [E1 E2]. split; [done|lia].
Qed.

Lemma uppers_idem l : forallb name_char l = true -> forallb name_char (map upper l) = true /\ map upper (map upper l) = map upper l.
Proof.
  induction l as [|c l IH]; cbn [map forallb]; [done|]. intros V. apply andb_true_iff in V as [Vc Vl]. destruct (upper_idem c Vc) as [E1 E2], (IH Vl) as [I1 I2]. rewrite E1, E2, I1, I2. done.
Qed.

Lemma written_upper body ext : map upper (written83 body ext) = written83 (map upper body) (map upper ext).
Proof. unfold written83. rewrite map_app. by destruct ext. Qed.

Lemma create_name_written name body ext : length name = 12%nat -> forallb name_char body = true -> forallb name_char ext = true -> (0 < length body <= 8)%nat -> (length ext <= 3)%nat ->
  exists st, create_name name (written83 body ext) = (FR_OK, sfn83 body ext ++ [st], []) /\ Z.testbit st 2 = true /\ Z.testbit st 5 = false.
Proof.
  intros Ln Vb Ve Hb He. destruct (segment_name body ext Vb Ve Hb He) as (st & Sg & S2). exists st. split; [|done].
  pose proof (create_name_any name (written83 body ext) Ln) as Ca. rewrite Sg in Ca. destruct Ca as (n' & -> & _ & _ & E). by rewrite E.
Qed.

(** ** Claims *)

(** C22. Short names.  The name [create_name] makes of a written 8.3 name is its upper-case
    form, padded; [get_fileinfo] shows an entry with it as the upper-case written name; and
    what it shows, given to [create_name] again, names the same entry.  What the buffer held
    before does not matter. *)
Theorem short_name_round_trip name body ext w p d fno :
  length name = 12%nat -> forallb name_char body = true -> forallb name_char ext = true -> (0 < length body <= 8)%nat -> (length ext <= 3)%nat ->
  dir p = Some d -> sect p <> 0 -> slice d 11 w = sfn83 body ext ->
  (exists st, create_name name (written83 body ext) = (FR_OK, sfn83 body ext ++ [st], [])) /\
  i_fname (get_fileinfo w p fno) = map upper (written83 body ext) /\
  (exists st, create_name name (i_fname (get_fileinfo w p fno)) = (FR_OK, slice d 11 w ++ [st], [])).
Proof.
  intros Ln Vb Ve Hb He Ed Hs Ew. assert (En : i_fname (get_fileinfo w p fno) = map upper (written83 body ext)).
  { unfold get_fileinfo. rewrite Ed, (proj2 (Z.eqb_neq _ 0)) by done. cbn [negb i_fname]. rewrite Ew. apply printed_name; (done || lia). }
  destruct (uppers_idem body Vb) as [Ub Ib], (uppers_idem ext Ve) as [Ue Ie].
  split; [destruct (create_name_written name body ext) as (st & E & _); [done..|]; by exists st|]. split; [done|]. rewrite En, Ew, written_upper.
  destruct (create_name_written name (map upper body) (map upper ext)) as (st & E & _); [done..|rewrite length_map; lia|rewrite length_map; lia|]. exists st. rewrite E. unfold sfn83. by rewrite Ib, Ie.
Qed.

(** C20. Following a path.  In a well-formed directory tree every path leads somewhere,
    and on a volume with the disk [L] [follow_path] returns and goes there: each segment is
    looked up, by its short name, up to the end mark of its directory, and the directory of
    its cluster is entered.  It answers [FR_OK] with the object on the entry (its sector in
    the window) or, for the empty path and for dots that end at the root, on the directory
    itself with no entry; [FR_NO_FILE] with the object in the directory that has no such
    name; [FR_NO_PATH] when a segment before the last is missing or is not a directory; and
    [FR_INVALID_NAME] for a segment that is no short name.  The disk is the same. *)
Theorem path_resolved {D} `{BlockLaws D} (v : volume D) p L path :
  vol_rep v L -> length (fn p) = 12%nat ->
  (forall dirs, dir_tree (fs v) L dirs -> dirs (cdir (fs v)) -> exists x, path_leads (fs v) L path x) /\
  (forall x, path_leads (fs v) L path x ->
   returns (follow_path path) (Dj v p) (fun r s' => vol_rep (dvol s') L /\
     match x with
     | Entry t name k => r = FR_OK /\ fn (dobj s') = name /\ placed (fs v) L (d_sclust (dobj s')) t /\
         sect (dobj s') = t_sect (fs v) t (Z.of_nat k / 16) /\
         exists d, dir (dobj s') = Some d /\ slice d 32 (win (fs (dvol s'))) = dirent (fs v) L t (Z.of_nat k)
     | NoFile t name => r = FR_NO_FILE /\ fn (dobj s') = name /\ placed (fs v) L (d_sclust (dobj s')) t
     | Directory c => r = FR_OK /\ dir (dobj s') = None /\ d_sclust (dobj s') = c
     | Fails e => r = e
     end)).
Proof.
  intros R Lf. split.
  - intros dirs T Hs. unfold path_leads, path_start. pose proof (dt_root _ _ _ T).
    assert (C : forall c rest, dirs c -> exists x, if chr rest <? 32 then (exists t, placed (fs v) L c t) /\ x = Directory c else leads (fs v) L c rest x).
    { intros c rest Hc. destruct (chr rest <? 32); [exists (Directory c); split; [by apply (dt_placed _ _ _ T)|done]|]. by apply (leads_total _ _ _ T (S (length rest))); [lia|]. }
    destruct (is_sep (chr path)); by apply C.
  - intros x P. eapply returns_mono; [by apply (follow_path_leads v p L path x)|]. intros r s' (v' & p' & -> & R' & W & A). cbn [dvol dobj]. split; [done|].
    destruct x as [t name k|t name|c|e]; [|by destruct A as (-> & Pl & En)|done|done].
    destruct A as ((-> & (_ & As & _ & Ad) & [Sw Sl] & Hk) & Pl & En). destruct (place_same _ _ (proj1 W)) as (_ & S2 & _).
    split_and!; try done. exists (Z.of_nat k mod 16 * 32). split; [done|]. unfold dirent. by rewrite <- S2, Sl.
Qed.

Lemma short_name_round_trip_witness :
  let body := [118; 109; 108; 105; 110; 117; 120] in let w := sfn83 body [103; 122] ++ replicate 501 0 in let p := Dir 1 0 0 0 3 (Some 0) [] in
  i_fname (get_fileinfo w p (Filinfo 0 0 0 0 [])) = [86; 77; 76; 73; 78; 85; 88; 46; 71; 90].
Proof.
  cbv zeta. destruct (short_name_round_trip (replicate 12 7) [118; 109; 108; 105; 110; 117; 120] [103; 122] (sfn83 [118; 109; 108; 105; 110; 117; 120] [103; 122] ++ replicate 501 0)
    (Dir 1 0 0 0 3 (Some 0) []) 0 (Filinfo 0 0 0 0 [])) as (_ & E & _); [reflexivity|reflexivity|reflexivity|cbn; lia|cbn; lia|reflexivity|done|reflexivity|].
  rewrite E. reflexivity.
Defined.

(** The volume of [Fat] with a root directory that has the directory BOOT, of three clusters;
    the file VMLINUX is the first entry of its second one. *)
Definition entry_bytes (name : list Z) (attr clst : Z) : list Z := name ++ [attr] ++ replicate 14 0 ++ [clst; 0] ++ replicate 4 0.
Definition tree_sectors : sectors :=
  <[3 := entry_bytes [66; 79; 79; 84; 32; 32; 32; 32; 32; 32; 32] AM_DIR 2 ++ replicate 480 0]>
  (<[4 := entry_bytes (46 :: replicate 10 32) AM_DIR 2 ++ entry_bytes (46 :: 46 :: replicate 9 32) AM_DIR 0 ++ replicate 448 DDEM]>
  (<[5 := entry_bytes [86; 77; 76; 73; 78; 85; 88; 32; 32; 32; 32] 0x20 5 ++ replicate 480 0]> demo_vol_sectors)).
Definition tree_volume : volume sectors := Volume demo_fatfs tree_sectors.

Lemma tree_rep : vol_rep tree_volume tree_sectors.
Proof.
  assert (Ok : sectors_ok tree_sectors) by (unfold sectors_ok; vm_decide). assert (Sm : small tree_sectors) by (unfold small; vm_decide).
  split; [|split; [exact Ok|]].
  - apply demo_vol_rep.
  - exists tree_sectors. split; [done|]. constructor.
    + split; [done|]. apply Forall_replicate. unfold inu. lia.
    + left. split; [done|by left].
    + intros s Ns. by rewrite decide_False by (intros [? _]; done).
    + intros s Hs. cbn in Hs. assert (s = 1 \/ s = 2) as [-> | ->] by lia; vm_compute; eauto.
    + intros s _ Hs _. cbn in Hs. replace s with 1 by lia. vm_compute. reflexivity.
Qed.

Lemma tree_root : placed demo_fatfs tree_sectors 0 Root.
Proof. split; [split_and!; vm_decide|]. intros i Hi. assert (i = 0) as -> by (change (t_sectors _ Root) with 1 in Hi; lia). vm_decide. Qed.

Lemma tree_boot : placed demo_fatfs tree_sectors 2 (Chain [2; 3; 4]).
Proof.
  split; [split_and!; [split_and!; vm_decide|by exists 0|left; vm_decide]|].
  intros i Hi. assert (i = 0 \/ i = 1 \/ i = 2) as Hc by (change (t_sectors _ _) with 3 in Hi; lia). decompose [or] Hc; subst i; vm_decide.
Qed.

Lemma tree_path : path_to demo_fatfs tree_sectors [47; 98; 111; 111; 116; 47; 118; 109; 108; 105; 110; 117; 120] (Chain [2; 3; 4])
  [86; 77; 76; 73; 78; 85; 88; 32; 32; 32; 32; 12] (Some 16%nat).
Proof.
  split; [vm_compute; congruence|]. eapply (walk_down _ _ _ _ _ _ Root 0); [vm_compute; reflexivity|reflexivity| |vm_compute; reflexivity|vm_compute; reflexivity|].
  - exact tree_root.
  - eapply walk_last; [vm_compute; reflexivity|reflexivity|exact tree_boot|vm_compute; reflexivity|done].
Qed.

(** The entries of a directory that are directories themselves have their cluster in [cs]. *)
Definition entries_in (t : place) (cs : list Z) : bool :=
  forallb (fun k => implb (Z.testbit (byte_at (dirent demo_fatfs tree_sectors t (Z.of_nat k)) DIR_Attr) 4)
                          (existsb (Z.eqb (ent_cluster demo_fatfs (dirent demo_fatfs tree_sectors t (Z.of_nat k)))) cs)) (seq 0 (length (dirents demo_fatfs tree_sectors t))).

Lemma entries_in_closed t cs name k : entries_in t cs = true -> dir_lookup name (dirents demo_fatfs tree_sectors t) = Some k ->
  Z.testbit (byte_at (dirent demo_fatfs tree_sectors t (Z.of_nat k)) DIR_Attr) 4 = true -> In (ent_cluster demo_fatfs (dirent demo_fatfs tree_sectors t (Z.of_nat k))) cs.
Proof.
  intros E Hk Ha. apply lookup_bound in Hk. unfold entries_in in E. rewrite forallb_forall in E. specialize (E k). cbv beta in E. rewrite Ha in E. cbn [implb] in E.
  destruct (proj1 (existsb_exists _ _) (E ltac:(apply in_seq; lia))) as (c & Hc & Eq). by apply Z.eqb_eq in Eq as ->.
Qed.

Lemma tree_dirs : dir_tree demo_fatfs tree_sectors (fun c => In c [0; 2]).
Proof.
  constructor.
  - by left.
  - intros c [<- | [<- | []]]; [exists Root; exact tree_root|exists (Chain [2; 3; 4]); exact tree_boot].
  - intros c t name k Hc Pl. assert (t = Root \/ t = Chain [2; 3; 4]) as Ht.
    { destruct Hc as [<- | [<- | []]]; [left; exact (placed_unique _ _ _ _ _ Pl tree_root)|right; exact (placed_unique _ _ _ _ _ Pl tree_boot)]. }
    destruct Ht as [-> | ->]; apply entries_in_closed; vm_compute; reflexivity.
Qed.

Lemma path_resolved_witness :
  (exists x, path_leads demo_fatfs tree_sectors [98; 111; 111; 116; 47; 46; 46; 47; 98; 63] x) /\
  returns (follow_path [47; 98; 111; 111; 116; 47; 118; 109; 108; 105; 110; 117; 120]) (Dj tree_volume (Dir 0 0 0 0 0 None (replicate 12 0)))
    (fun r s' => r = FR_OK /\ sect (dobj s') = 5) /\
  returns (follow_path [47; 98; 111; 47; 118]) (Dj tree_volume (Dir 0 0 0 0 0 None (replicate 12 0))) (fun r s' => r = FR_NO_PATH).
Proof.
  split_and!.
  - exact (proj1 (path_resolved tree_volume (Dir 0 0 0 0 0 None (replicate 12 0)) tree_sectors _ tree_rep eq_refl) _ tree_dirs (or_introl eq_refl)).
  - eapply returns_mono; [exact (proj2 (path_resolved tree_volume (Dir 0 0 0 0 0 None (replicate 12 0)) tree_sectors _ tree_rep eq_refl) _ (path_to_leads _ _ _ _ _ _ tree_path))|].
    intros r s' (_ & -> & _ & _ & E & _). split; [done|]. rewrite E. vm_compute. reflexivity.
  - eapply returns_mono; [eapply (proj2 (path_resolved tree_volume (Dir 0 0 0 0 0 None (replicate 12 0)) tree_sectors _ tree_rep eq_refl) (Fails FR_NO_PATH))|by intros r s' [_ ->]].
    eapply (leads_no_path _ _ _ _ _ _ Root); [vm_compute; reflexivity|reflexivity|exact tree_root|vm_compute; reflexivity|reflexivity].
Defined.
