(* ===== verification/FatOpen.v ===== *)
(** * Mounting volumes and opening files ([driver/ff.c])

    [find_volume] finds the volume a path names and mounts it when needed: it initialises
    the drive, looks for a FAT boot sector in sector 0 or in a partition, and fills the file
    system object from it.  [f_mount] registers a file system object, [f_open] opens or
    creates a file, [f_stat] reports on one.

    File system objects are shared: [FatFs] holds pointers to them, and so do open files.
    They are kept in a store ([objs]) and pointers are its keys, 0 the null pointer. *)

From Stdlib Require Import ZArith Lia Bool List String.
From stdpp Require Import base gmap list.
From S2P Require Import Prelude Machine Memory Console Disk SdCard Fat FatFile FatDir.
Open Scope Z_scope.
Open Scope word_scope.

(** ** Constants *)
Definition FR_NOT_READY : Z := 3.
Definition FR_EXIST : Z := 8.
Definition FR_WRITE_PROTECTED : Z := 10.
Definition FR_INVALID_DRIVE : Z := 11.
Definition FR_NOT_ENABLED : Z := 12.
Definition FR_NO_FILESYSTEM : Z := 13.
Definition FA_CREATE_NEW : Z := 0x04.
Definition FA_CREATE_ALWAYS : Z := 0x08.
Definition FA_OPEN_ALWAYS : Z := 0x10.
Definition MIN_FAT16 : Z := 4086.
Definition MIN_FAT32 : Z := 65526.
Definition BPB_BytsPerSec : Z := 11.
Definition BPB_SecPerClus : Z := 13.
Definition BPB_RsvdSecCnt : Z := 14.
Definition BPB_NumFATs : Z := 16.
Definition BPB_RootEntCnt : Z := 17.
Definition BPB_TotSec16 : Z := 19.
Definition BPB_FATSz16 : Z := 22.
Definition BPB_TotSec32 : Z := 32.
Definition BPB_FATSz32 : Z := 36.
Definition BPB_RootClus : Z := 44.
Definition BPB_FSInfo : Z := 48.
Definition BS_FilSysType : Z := 54.
Definition BS_FilSysType32 : Z := 82.
Definition MBR_Table : Z := 446.
Definition SZ_PTE : Z := 16.
Definition DIR_CrtTime : Z := 14.
Definition _VOLUMES : Z := 2.

Definition set_fs_type x f := Fatfs x (drv f) (csize f) (n_fats f) (wflag f) (fsi_flag f) (fs_id f) (n_rootdir f) (last_clust f) (free_clust
  f) (cdir f) (n_fatent f) (fsize f) (volbase f) (fatbase f) (dirbase f) (database f) (winsect f) (win f).
Definition set_drv x f := Fatfs (fs_type f) x (csize f) (n_fats f) (wflag f) (fsi_flag f) (fs_id f) (n_rootdir f) (last_clust f) (free_clust
  f) (cdir f) (n_fatent f) (fsize f) (volbase f) (fatbase f) (dirbase f) (database f) (winsect f) (win f).
Definition set_csize x f := Fatfs (fs_type f) (drv f) x (n_fats f) (wflag f) (fsi_flag f) (fs_id f) (n_rootdir f) (last_clust f) (free_clust
  f) (cdir f) (n_fatent f) (fsize f) (volbase f) (fatbase f) (dirbase f) (database f) (winsect f) (win f).
Definition set_n_fats x f := Fatfs (fs_type f) (drv f) (csize f) x (wflag f) (fsi_flag f) (fs_id f) (n_rootdir f) (last_clust f) (free_clust
  f) (cdir f) (n_fatent f) (fsize f) (volbase f) (fatbase f) (dirbase f) (database f) (winsect f) (win f).
Definition set_fs_id x f := Fatfs (fs_type f) (drv f) (csize f) (n_fats f) (wflag f) (fsi_flag f) x (n_rootdir f) (last_clust f) (free_clust
  f) (cdir f) (n_fatent f) (fsize f) (volbase f) (fatbase f) (dirbase f) (database f) (winsect f) (win f).
Definition set_n_rootdir x f := Fatfs (fs_type f) (drv f) (csize f) (n_fats f) (wflag f) (fsi_flag f) (fs_id f) x (last_clust f) (free_clust
  f) (cdir f) (n_fatent f) (fsize f) (volbase f) (fatbase f) (dirbase f) (database f) (winsect f) (win f).
Definition set_cdir x f := Fatfs (fs_type f) (drv f) (csize f) (n_fats f) (wflag f) (fsi_flag f) (fs_id f) (n_rootdir f) (last_clust f)
  (free_clust f) x (n_fatent f) (fsize f) (volbase f) (fatbase f) (dirbase f) (database f) (winsect f) (win f).
Definition set_n_fatent x f := Fatfs (fs_type f) (drv f) (csize f) (n_fats f) (wflag f) (fsi_flag f) (fs_id f) (n_rootdir f) (last_clust f)
  (free_clust f) (cdir f) x (fsize f) (volbase f) (fatbase f) (dirbase f) (database f) (winsect f) (win f).
Definition set_fsize x f := Fatfs (fs_type f) (drv f) (csize f) (n_fats f) (wflag f) (fsi_flag f) (fs_id f) (n_rootdir f) (last_clust f)
  (free_clust f) (cdir f) (n_fatent f) x (volbase f) (fatbase f) (dirbase f) (database f) (winsect f) (win f).
Definition set_volbase x f := Fatfs (fs_type f) (drv f) (csize f) (n_fats f) (wflag f) (fsi_flag f) (fs_id f) (n_rootdir f) (last_clust f)
  (free_clust f) (cdir f) (n_fatent f) (fsize f) x (fatbase f) (dirbase f) (database f) (winsect f) (win f).
Definition set_fatbase x f := Fatfs (fs_type f) (drv f) (csize f) (n_fats f) (wflag f) (fsi_flag f) (fs_id f) (n_rootdir f) (last_clust f)
  (free_clust f) (cdir f) (n_fatent f) (fsize f) (volbase f) x (dirbase f) (database f) (winsect f) (win f).
Definition set_dirbase x f := Fatfs (fs_type f) (drv f) (csize f) (n_fats f) (wflag f) (fsi_flag f) (fs_id f) (n_rootdir f) (last_clust f)
  (free_clust f) (cdir f) (n_fatent f) (fsize f) (volbase f) (fatbase f) x (database f) (winsect f) (win f).
Definition set_database x f := Fatfs (fs_type f) (drv f) (csize f) (n_fats f) (wflag f) (fsi_flag f) (fs_id f) (n_rootdir f) (last_clust f)
  (free_clust f) (cdir f) (n_fatent f) (fsize f) (volbase f) (fatbase f) (dirbase f) x (winsect f) (win f).

(** ** State *)

(** The file system objects, the static variables of [ff.c] and the drive. *)
Record vols (D : Type) := Vols { objs : gmap Z FATFS; FatFs : list Z; Fsid : Z; CurrVol : Z; drive : D }.
Arguments Vols {D}. Arguments objs {D}. Arguments FatFs {D}. Arguments Fsid {D}. Arguments CurrVol {D}. Arguments drive {D}.

(** An object before it is used. *)
Definition blank_fs : FATFS := Fatfs 0 0 0 0 0 0 0 0 0 0 0 0 0 0 0 0 0 0 (replicate 512 0).

(** ** Mounting *)

(** [for (tt = *path; *tt >= '!' && *tt != ':'; tt++)]: the characters passed. *)
Fixpoint to_colon (p : list Z) : nat :=
  match p with c :: p' => if (33 <=? c) && negb (c =? 58) then S (to_colon p') else O | [] => O end.

(** The drive number (-1: invalid) and the path after it. *)
Definition get_ldnumber (cur : Z) (path : list Z) : Z * list Z :=
  let n := to_colon path in
  let tt := drop n path in
  if chr tt =? 58 then
    let i := u32 (chr path - 48) in
    if (i <? 10) && (n =? 1)%nat then
      if i <? _VOLUMES then (i, tail tt) else (-1, path)
    else (-1, path)
  else (cur, path).

Section Mount.
Context {D : Type} `{BlockDevice D}.
Abbreviation state := (vols D).

Definition check_fs (sect : Z) : ST (volume D) Z :=
  upd_fs (set_wflag 0) ;;
  upd_fs (set_winsect 0xFFFFFFFF) ;;
  let! r := move_window sect in
  if negb (r =? FR_OK) then ret 3
  else
    let! f := get_fs in
    if negb (LD_WORD (win f) BS_55AA =? 0xAA55) then ret 2
    else if (LD_DWORD (win f) BS_FilSysType &&& 0xFFFFFF) =? 0x544146 then ret 0
    else if (LD_DWORD (win f) BS_FilSysType32 &&& 0xFFFFFF) =? 0x544146 then ret 0
    else ret 1.

(** The partition table: the first sector of each partition. *)
Definition partition (w : list Z) (i : Z) : Z :=
  let pt := MBR_Table + i * SZ_PTE in
  if negb (byte_at w (pt + 4) =? 0) then LD_DWORD w (pt + 8) else 0.

(** Find an FAT volume in the partitions [br]. *)
Fixpoint try_partitions (br : list Z) (bsect fmt : Z) : ST (volume D) (Z * Z) :=
  match br with
  | [] => ret (bsect, fmt)
  | b :: br' =>
      let! fmt := (if negb (b =? 0) then check_fs b else ret 2) in
      if negb (fmt =? 0) then try_partitions br' b fmt else ret (b, fmt)
  end.

(** The boot sector of the volume and what it was found to be. *)
Definition find_boot : ST (volume D) (Z * Z) :=
  let! fmt := check_fs 0 in
  if fmt =? 1 then
    let! f := get_fs in
    try_partitions (map (partition (win f)) [0; 1; 2; 3]) 0 fmt
  else ret (0, fmt).

(** The geometry: [inr fmt] goes on. *)
Definition read_geometry (bsect : Z) : ST (volume D) (Z + Z) :=
  let! f := get_fs in
  let w := win f in
  if negb (LD_WORD w BPB_BytsPerSec =? SS) then ret (inl FR_NO_FILESYSTEM)
  else
    let fasize := LD_WORD w BPB_FATSz16 in
    let fasize := if fasize =? 0 then LD_DWORD w BPB_FATSz32 else fasize in
    upd_fs (set_fsize fasize) ;;
    let nfats := byte_at w BPB_NumFATs in
    upd_fs (set_n_fats nfats) ;;
    if negb (nfats =? 1) && negb (nfats =? 2) then ret (inl FR_NO_FILESYSTEM)
    else
      let fatsz := fasize in
      let fasize := u32 (fasize * nfats) in
      let cs := byte_at w BPB_SecPerClus in
      upd_fs (set_csize cs) ;;
      if (cs =? 0) || negb ((cs &&& u32 (cs - 1)) =? 0) then ret (inl FR_NO_FILESYSTEM)
      else
        let nroot := LD_WORD w BPB_RootEntCnt in
        upd_fs (set_n_rootdir nroot) ;;
        if negb (nroot mod (SS / SZ_DIRE) =? 0) then ret (inl FR_NO_FILESYSTEM)
        else
          let tsect := LD_WORD w BPB_TotSec16 in
          let tsect := if tsect =? 0 then LD_DWORD w BPB_TotSec32 else tsect in
          let nrsv := LD_WORD w BPB_RsvdSecCnt in
          if nrsv =? 0 then ret (inl FR_NO_FILESYSTEM)
          else
            let sysect := u32 (u32 (nrsv + fasize) + nroot / (SS / SZ_DIRE)) in
            if tsect <? sysect then ret (inl FR_NO_FILESYSTEM)
            else
              let nclst := (tsect - sysect) / cs in
              if nclst =? 0 then ret (inl FR_NO_FILESYSTEM)
              else
                let fmt := if MIN_FAT32 <=? nclst then FS_FAT32 else if MIN_FAT16 <=? nclst then FS_FAT16 else FS_FAT12 in
                let nent := u32 (nclst + 2) in
                upd_fs (set_n_fatent nent) ;;
                upd_fs (set_volbase bsect) ;;
                upd_fs (set_fatbase (u32 (bsect + nrsv))) ;;
                upd_fs (set_database (u32 (bsect + sysect))) ;;
                let? szbfat :=
                  (if fmt =? FS_FAT32 then
                     if negb (nroot =? 0) then ret (inl FR_NO_FILESYSTEM)
                     else upd_fs (set_dirbase (LD_DWORD w BPB_RootClus)) ;; ret (inr (u32 (nent * 4)))
                   else
                     if nroot =? 0 then ret (inl FR_NO_FILESYSTEM)
                     else
                       upd_fs (set_dirbase (u32 (u32 (bsect + nrsv) + fasize))) ;;
                       ret (inr (if fmt =? FS_FAT16 then u32 (nent * 2) else u32 (u32 (nent * 3) / 2 + (nent &&& 1))))) in
                if fatsz <? u32 (szbfat + (SS - 1)) / SS then ret (inl FR_NO_FILESYSTEM)
                else ret (inr fmt).

(** Initialize cluster allocation information; get fsinfo if available. *)
Definition read_fsinfo (bsect fmt : Z) : ST (volume D) unit :=
  upd_fs (set_free_clust 0xFFFFFFFF) ;;
  upd_fs (set_last_clust 0xFFFFFFFF) ;;
  upd_fs (set_fsi_flag 0x80) ;;
  let! f := get_fs in
  if (fmt =? FS_FAT32) && (LD_WORD (win f) BPB_FSInfo =? 1) then
    let! r := move_window (u32 (bsect + 1)) in
    if r =? FR_OK then
      upd_fs (set_fsi_flag 0) ;;
      let! f := get_fs in
      if (LD_WORD (win f) BS_55AA =? 0xAA55) && (LD_DWORD (win f) FSI_LeadSig =? 0x41615252) && (LD_DWORD (win f) FSI_StrucSig =? 0x61417272) then
        upd_fs (set_free_clust (LD_DWORD (win f) FSI_Free_Count)) ;;
        upd_fs (set_last_clust (LD_DWORD (win f) FSI_Nxt_Free))
      else ret tt
    else ret tt
  else ret tt.

Definition disk_initialize_at (pdrv : Z) : ST (volume D) Z := fun v =>
  let (r, d) := blk_initialize pdrv (dsk v) in Ret r (set_dsk d v).

(** Mount the volume: analyze BPB and initialize the fs object. *)
Definition mount_volume (vol : Z) (wmode fsid : Z) : ST (volume D) Z :=
  upd_fs (set_fs_type 0) ;;
  upd_fs (set_drv (u8 vol)) ;;
  let! stat := disk_initialize_at (u8 vol) in
  if negb ((stat &&& STA_NOINIT) =? 0) then ret FR_NOT_READY
  else if negb (wmode =? 0) && negb ((stat &&& STA_PROTECT) =? 0) then ret FR_WRITE_PROTECTED
  else
    let! bf := find_boot in
    let (bsect, fmt) := bf : Z * Z in
    if fmt =? 3 then ret FR_DISK_ERR
    else if negb (fmt =? 0) then ret FR_NO_FILESYSTEM
    else
      let! g := read_geometry bsect in
      match g with
      | inl res => ret res
      | inr fmt =>
          read_fsinfo bsect fmt ;;
          upd_fs (set_fs_type fmt) ;;
          upd_fs (set_fs_id fsid) ;;
          upd_fs (set_cdir 0) ;;
          ret FR_OK
      end.

(** The volume of object [o]. *)
Definition vol_of (s : state) (o : Z) : volume D := Volume (default blank_fs (objs s !! o)) (drive s).
Definition put_vol (o : Z) (v : volume D) (s : state) : state := Vols (<[o := fs v]> (objs s)) (FatFs s) (Fsid s) (CurrVol s) (dsk v).
Definition on_obj {A} (o : Z) (m : ST (volume D) A) : ST state A := zoom (fun s => vol_of s o) (put_vol o) m.

(** The result, the file system object and the path after the drive number. *)
Definition find_volume (path : list Z) (wmode : Z) : ST state (Z * Z * list Z) :=
  let! s := gets (fun s => s) in
  let (vol, path) := get_ldnumber (CurrVol s) path in
  if vol <? 0 then ret (FR_INVALID_DRIVE, 0, path)
  else
    let o := default 0 (FatFs s !! Z.to_nat vol) in
    if o =? 0 then ret (FR_NOT_ENABLED, 0, path)
    else
      let f := fs (vol_of s o) in
      let stat := blk_status (drv f) (drive s) in
      if negb (fs_type f =? 0) && ((stat &&& STA_NOINIT) =? 0) then
        ret (if negb (wmode =? 0) && negb ((stat &&& STA_PROTECT) =? 0) then FR_WRITE_PROTECTED else FR_OK, o, path)
      else
        let fsid := u16 (Fsid s + 1) in
        let! res := on_obj o (mount_volume vol wmode fsid) in
        (if res =? FR_OK then modify (fun s => Vols (objs s) (FatFs s) fsid (CurrVol s) (drive s)) else ret tt) ;;
        ret (res, o, path).

Definition f_mount (o : Z) (path : list Z) (opt : Z) : ST state Z :=
  let! s := gets (fun s => s) in
  let (vol, _) := get_ldnumber (CurrVol s) path in
  if vol <? 0 then ret FR_INVALID_DRIVE
  else
    let cfs := default 0 (FatFs s !! Z.to_nat vol) in
    (if negb (cfs =? 0) then on_obj cfs (upd_fs (set_fs_type 0)) else ret tt) ;;
    (if negb (o =? 0) then on_obj o (upd_fs (set_fs_type 0)) else ret tt) ;;
    modify (fun s => Vols (objs s) (<[Z.to_nat vol := o]> (FatFs s)) (Fsid s) (CurrVol s) (drive s)) ;;
    if (o =? 0) || negb (opt =? 1) then ret FR_OK
    else
      let! r := find_volume path 0 in
      let '(res, _, _) := r : Z * Z * list Z in
      ret res.

(** ** Opening files *)

(** The new entry of a created or overwritten file, and its old cluster chain. *)
Definition reset_entry (d : Z) (w : list Z) : list Z :=
  let w := ST_DWORD (d + DIR_CrtTime) GET_FATTIME w in
  let w := ST_DWORD (d + DIR_WrtTime) GET_FATTIME w in
  let w := put_byte (d + DIR_Attr) 0 w in
  ST_DWORD (d + DIR_FileSize) 0 w.

Definition truncate_entry (d : Z) : ST (volume D) Z :=
  upd_fs (fun f => set_win (reset_entry d (win f)) f) ;;
  let! f := get_fs in
  let cl := ld_clust f (win f) d in
  upd_fs (fun f => set_win (st_clust d 0 (win f)) f) ;;
  upd_fs (set_wflag 1) ;;
  if negb (cl =? 0) then
    let! f := get_fs in
    let dw := winsect f in
    let! res := remove_chain cl in
    if res =? FR_OK then
      upd_fs (set_last_clust (u32 (cl - 1))) ;;
      move_window dw
    else ret res
  else ret FR_OK.

(** The object of a file on the entry at [d] in the window. *)
Definition open_entry (mode d : Z) (f : FATFS) (fp : FIL) : FIL :=
  Fil true (fs_id f) mode 0 0 (LD_DWORD (win f) (d + DIR_FileSize)) (ld_clust f (win f) d) (clust fp) 0 (winsect f) d (buf fp).

(** Create or open the file that [follow_path] looked for; the result and the mode. *)
Definition open_or_create (mode res : Z) : ST (dj_state D) (Z * Z) :=
  let! p := get_dj in
  if negb ((mode &&& (FA_CREATE_ALWAYS ||| FA_OPEN_ALWAYS ||| FA_CREATE_NEW)) =? 0) then
    let! rm :=
      (if negb (res =? FR_OK) then
         let! res := (if res =? FR_NO_FILE then dir_register else ret res) in
         ret (res, mode ||| FA_CREATE_ALWAYS)
       else
         let! a := dj_byte DIR_Attr in
         ret (if negb ((a &&& (AM_RDO ||| AM_DIR)) =? 0) then FR_DENIED
              else if negb ((mode &&& FA_CREATE_NEW) =? 0) then FR_EXIST else res, mode)) in
    let (res, mode) := rm : Z * Z in
    let! p := get_dj in
    if (res =? FR_OK) && negb ((mode &&& FA_CREATE_ALWAYS) =? 0) then
      let! res := on_dvol (truncate_entry (default 0 (dir p))) in
      ret (res, mode)
    else ret (res, mode)
  else if res =? FR_OK then
    let! a := dj_byte DIR_Attr in
    ret (if negb ((a &&& AM_DIR) =? 0) then FR_NO_FILE
         else if negb ((mode &&& FA_WRITE) =? 0) && negb ((a &&& AM_RDO) =? 0) then FR_DENIED else res, mode)
  else ret (res, mode).

(** A new directory object on the stack: its fields have any value. *)
Definition fresh_dir : DIR := Dir 0 0 0 0 0 None (replicate 12 0).

(** The rest of [f_open] on the volume. *)
Definition open_path (fp : FIL) (path : list Z) (mode : Z) : ST (dj_state D) (Z * FIL) :=
  let! res := follow_path path in
  let! p := get_dj in
  let res := if (res =? FR_OK) && bool_decide (dir p = None) then FR_INVALID_NAME else res in
  let! rm := open_or_create mode res in
  let (res, mode) := rm : Z * Z in
  let! p := get_dj in
  let! f := dj_fs in
  if res =? FR_OK then
    let mode := if negb ((mode &&& FA_CREATE_ALWAYS) =? 0) then mode ||| FA__WRITTEN else mode in
    ret (res, open_entry mode (default 0 (dir p)) f fp)
  else ret (res, fp).

(** Run code with a directory object of its own. *)
Definition with_dir {A} (p : DIR) (m : ST (dj_state D) A) : ST (volume D) A := zoom (fun v => Dj v p) (fun s _ => dvol s) m.

(** The result, the file object and the file system object it is on. *)
Definition f_open (fp : FIL) (path : list Z) (mode : Z) : ST state (Z * FIL * Z) :=
  let fp := set_fil_fs false fp in
  let mode := mode &&& (FA_READ ||| FA_WRITE ||| FA_CREATE_ALWAYS ||| FA_OPEN_ALWAYS ||| FA_CREATE_NEW) in
  let! r := find_volume path (bitand_not 8 mode FA_READ) in
  let '(res, o, path) := r : Z * Z * list Z in
  if res =? FR_OK then
    let! rf := on_obj o (with_dir fresh_dir (open_path fp path mode)) in
    let (res, fp) := rf : Z * FIL in
    ret (res, fp, o)
  else ret (res, fp, o).

(** The result and the file information. *)
Definition f_stat (path : list Z) (fno : FILINFO) : ST state (Z * FILINFO) :=
  let! r := find_volume path 0 in
  let '(res, o, path) := r : Z * Z * list Z in
  if res =? FR_OK then
    on_obj o (with_dir fresh_dir
      (let! res := follow_path path in
       let! p := get_dj in
       let! f := dj_fs in
       if res =? FR_OK then
         if bool_decide (dir p = None) then ret (FR_INVALID_NAME, fno) else ret (res, get_fileinfo (win f) p fno)
       else ret (res, fno)))
  else ret (res, fno).
End Mount.

(** ** Mounting a volume *)

(** What [check_fs] sees in a sector. *)
Definition fs_kind (b : list Z) : Z :=
  if negb (LD_WORD b BS_55AA =? 0xAA55) then 2
  else if (LD_DWORD b BS_FilSysType &&& 0xFFFFFF) =? 0x544146 then 0
  else if (LD_DWORD b BS_FilSysType32 &&& 0xFFFFFF) =? 0x544146 then 0 else 1.

(** The drive has the boot sector [b] of a volume at [bs]: sector 0, or the first partition
    of a partition table that is one. *)
Definition boot_at (st : sectors) (bs : Z) (b : list Z) : Prop :=
  st !! bs = Some b /\ fs_kind b = 0 /\
  (bs = 0 \/ exists m before after, st !! 0 = Some m /\ fs_kind m = 1 /\ map (partition m) [0; 1; 2; 3] = before ++ bs :: after /\ bs <> 0 /\
    Forall (fun s => s = 0 \/ exists x, st !! s = Some x /\ fs_kind x <> 0) before).

Section Mounting.
Context {D : Type} `{BlockLaws D}.
Implicit Types (v : volume D) (st : sectors).

(** The window of an object that is not mounted yet. *)
Definition loaded v st v' (s : Z) (b : list Z) : Prop := blk_holds (dsk v') st /\ fs v' = set_winsect s (set_win b (set_wflag 0 (fs v))).

Lemma load_record v st s b : drv (fs v) = 0 -> blk_holds (dsk v) st -> wflag (fs v) = 0 -> winsect (fs v) <> s -> st !! s = Some b ->
  returns (move_window s) v (fun r v' => r = FR_OK /\ loaded v st v' s b).
Proof.
  intros Hd Hb Hf Nw Hs. unfold move_window. eapply returns_step; [reflexivity|]. rewrite (proj2 (Z.eqb_neq s _)) by congruence. cbn [negb].
  eapply returns_step; [unfold sync_window, bind, get_fs, gets; rewrite Hf; reflexivity|]. cbn [Z.eqb FR_OK].
  destruct (read_one v st s b Hd Hb Hs) as (d' & E & Hb'). eapply returns_step; [exact E|]. cbv beta iota. eapply returns_step; [reflexivity|].
  rewrite bool_decide_true by done. cbn [negb]. eapply returns_step; [reflexivity|]. apply returns_ret. split; [done|]. split; [done|]. cbn. by rewrite set_wflag_eta.
Qed.

Lemma check_fs_spec v st s b : drv (fs v) = 0 -> blk_holds (dsk v) st -> st !! s = Some b ->
  returns (check_fs s) v (fun r v' => r = fs_kind b /\ loaded v st v' s b).
Proof.
  intros Hd Hb Hs. unfold check_fs. do 2 (eapply returns_step; [reflexivity|]). set (v1 := set_fs _ _). pose proof (blk_limit _ _ s Hb ltac:(eauto)).
  eapply returns_bind; [apply (load_record v1 st s b); [done|done|done|cbn; lia|done]|]. intros r v2 (-> & Hb2 & E2). cbn [Z.eqb negb FR_OK].
  eapply returns_step; [reflexivity|]. assert (Ew : win (fs v2) = b) by (by rewrite E2). rewrite Ew. unfold fs_kind.
  assert (Lo : loaded v st v2 s b) by (split; [done|]; by rewrite E2). destruct (negb _); [by apply returns_ret|]. destruct (_ =? _); [by apply returns_ret|]. destruct (_ =? _); by apply returns_ret.
Qed.

Lemma loaded_again v st v1 v2 s1 b1 s2 b2 : loaded v st v1 s1 b1 -> loaded v1 st v2 s2 b2 -> loaded v st v2 s2 b2.
Proof. intros [_ E1] [Hb E2]. split; [done|]. by rewrite E2, E1. Qed.

Lemma try_partitions_spec before : forall v st bs b after bsect fmt, drv (fs v) = 0 -> blk_holds (dsk v) st -> st !! bs = Some b -> fs_kind b = 0 -> bs <> 0 ->
  Forall (fun s => s = 0 \/ exists x, st !! s = Some x /\ fs_kind x <> 0) before ->
  returns (try_partitions (before ++ bs :: after) bsect fmt) v (fun r v' => r = (bs, 0) /\ loaded v st v' bs b).
Proof.
  induction before as [|s before IH]; intros v st bs b after bsect fmt Hd Hb Hs Hk Nz F; cbn [try_partitions app].
  - rewrite (proj2 (Z.eqb_neq bs 0)) by done. cbn [negb]. eapply returns_bind; [by apply (check_fs_spec v st bs b)|]. intros r v' (-> & Lo). rewrite Hk. cbn [Z.eqb negb]. by apply returns_ret.
  - apply Forall_cons in F as [[->|(x & Ex & Nx)] F].
    + cbn [Z.eqb negb]. eapply returns_step; [reflexivity|]. cbn [Z.eqb negb]. by apply IH.
    + assert (Hc : returns (if negb (s =? 0) then check_fs s else ret 2) v (fun r v' => r <> 0 /\ (loaded v st v' s x \/ v' = v))).
      { destruct (negb _); [|apply returns_ret; split; [done|by right]]. eapply returns_mono; [by apply (check_fs_spec v st s x)|]. cbv beta. intros r v' (-> & Lo). split; [done|by left]. }
      eapply returns_bind; [exact Hc|]. intros r v1 (Nr & [Lo| ->]); rewrite (proj2 (Z.eqb_neq r 0) Nr); cbn [negb]; [|by apply IH].
      eapply returns_mono; [apply (IH v1 st bs b after s r); try done; [destruct Lo as [_ ->]; done|apply Lo]|].
      cbv beta. intros r' v2 (-> & Lo2). split; [done|]. by eapply loaded_again.
Qed.

Lemma find_boot_spec v st bs b : drv (fs v) = 0 -> blk_holds (dsk v) st -> boot_at st bs b ->
  returns find_boot v (fun r v' => r = (bs, 0) /\ loaded v st v' bs b).
Proof.
  intros Hd Hb (Hs & Hk & Hw). unfold find_boot. destruct Hw as [->|(m & before & after & Hm & Km & Em & Nz & F)].
  - eapply returns_bind; [by apply (check_fs_spec v st 0 b)|]. intros r v' (-> & Lo). rewrite Hk. cbn [Z.eqb]. by apply returns_ret.
  - eapply returns_bind; [by apply (check_fs_spec v st 0 m)|]. intros r v1 (-> & Lo). rewrite Km. cbn [Z.eqb Pos.eqb]. eapply returns_step; [reflexivity|].
    destruct Lo as [Hb1 E1]. assert (Ew : win (fs v1) = m) by (by rewrite E1). rewrite Ew, Em.
    eapply returns_mono; [apply (try_partitions_spec before v1 st bs b after 0 1); try done; by rewrite E1|].
    cbv beta. intros r v2 (-> & Lo2). split; [done|]. by eapply loaded_again.
Qed.

(** The parameters in a boot sector. *)
Definition b_fatsz (b : list Z) : Z := if LD_WORD b BPB_FATSz16 =? 0 then LD_DWORD b BPB_FATSz32 else LD_WORD b BPB_FATSz16.
Definition b_nfats (b : list Z) : Z := byte_at b BPB_NumFATs.
Definition b_csize (b : list Z) : Z := byte_at b BPB_SecPerClus.
Definition b_nroot (b : list Z) : Z := LD_WORD b BPB_RootEntCnt.
Definition b_tsect (b : list Z) : Z := if LD_WORD b BPB_TotSec16 =? 0 then LD_DWORD b BPB_TotSec32 else LD_WORD b BPB_TotSec16.
Definition b_nrsv (b : list Z) : Z := LD_WORD b BPB_RsvdSecCnt.
(** Sectors before the clusters, clusters, and the type they decide. *)
Definition b_sys (b : list Z) : Z := b_nrsv b + b_fatsz b * b_nfats b + b_nroot b / 16.
Definition b_nclst (b : list Z) : Z := (b_tsect b - b_sys b) / b_csize b.
Definition b_type (b : list Z) : Z := if MIN_FAT32 <=? b_nclst b then FS_FAT32 else if MIN_FAT16 <=? b_nclst b then FS_FAT16 else FS_FAT12.
Definition b_dirbase (bs : Z) (b : list Z) : Z := if b_type b =? FS_FAT32 then LD_DWORD b BPB_RootClus else bs + b_nrsv b + b_fatsz b * b_nfats b.

(** A well-formed boot sector of a volume that starts at [bs]. *)
Record boot_ok (bs : Z) (b : list Z) : Prop := {
  bo_sector : LD_WORD b BPB_BytsPerSec = 512;
  bo_copies : b_nfats b = 1 \/ b_nfats b = 2;
  bo_csize : exists k, 0 <= k <= 7 /\ b_csize b = 2 ^ k;
  bo_root : b_nroot b mod 16 = 0 /\ (b_nroot b = 0 <-> b_type b = FS_FAT32);
  bo_reserved : b_nrsv b <> 0;
  bo_clusters : b_sys b + b_csize b <= b_tsect b;
  bo_limit : b_nclst b + 2 <= 0x0FFFFFF7;
  bo_fat : (b_type b = FS_FAT12 -> 3 * (b_nclst b + 2) <= 2 * (512 * b_fatsz b)) /\ (b_type b = FS_FAT16 -> 2 * (b_nclst b + 2) <= 512 * b_fatsz b) /\
    (b_type b = FS_FAT32 -> 4 * (b_nclst b + 2) <= 512 * b_fatsz b);
  bo_end : 0 <= bs /\ bs + b_tsect b < 0xFFFFFFFF;
}.

(** The file system object after the boot sector is read. *)
Definition geometry (bs : Z) (b : list Z) (f : FATFS) : FATFS :=
  set_dirbase (b_dirbase bs b) (set_database (bs + b_sys b) (set_fatbase (bs + b_nrsv b) (set_volbase bs (set_n_fatent (b_nclst b + 2)
    (set_n_rootdir (b_nroot b) (set_csize (b_csize b) (set_n_fats (b_nfats b) (set_fsize (b_fatsz b) f)))))))).

Lemma LD_WORD_range b i : Forall (inu 8) b -> inu 16 (LD_WORD b i).
Proof. intros B. rewrite LD_WORD_value by done. pose proof (byte_at_range b i B). pose proof (byte_at_range b (i + 1) B). unfold inu in *. lia. Qed.

Lemma boot_ranges b : Forall (inu 8) b -> inu 32 (b_fatsz b) /\ inu 8 (b_csize b) /\ inu 16 (b_nroot b) /\ inu 32 (b_tsect b) /\ inu 16 (b_nrsv b).
Proof.
  intros B. unfold b_fatsz, b_csize, b_nroot, b_tsect, b_nrsv. pose proof (LD_WORD_range b BPB_FATSz16 B). pose proof (LD_WORD_range b BPB_TotSec16 B).
  split_and!; try (by apply LD_WORD_range); try (by apply byte_at_range); destruct (_ =? 0); try (by apply LD_DWORD_range); unfold inu in *; lia.
Qed.

Lemma pow2_test x : (exists k, 0 <= k <= 7 /\ x = 2 ^ k) -> 1 <= x <= 128 /\ (x &&& u32 (x - 1)) = 0.
Proof.
  intros (k & Hk & ->). assert (1 <= 2 ^ k <= 2 ^ 7) by (split; [pose proof (Z.pow_pos_nonneg 2 k); lia|apply Z.pow_le_mono_r; lia]). split; [lia|].
  rewrite (wrapu_small 32) by (unfold inu; lia). replace (2 ^ k - 1) with (Z.ones k) by (rewrite Z.ones_equiv; lia). rewrite Z.land_ones by lia. apply Z.mod_same. lia.
Qed.

Lemma boot_clusters bs b : boot_ok bs b -> Forall (inu 8) b -> 1 <= b_nclst b /\ b_sys b + b_nclst b * b_csize b <= b_tsect b /\ 0 < b_fatsz b /\ 0 <= b_nroot b / 16 /\ 0 < b_sys b.
Proof.
  intros [Bs Bc Bz Br Bv Bk Bl Bf Be] B. destruct (boot_ranges b B) as (R1 & R2 & R3 & R4 & R5). destruct (pow2_test _ Bz) as [Hz _]. unfold inu in *.
  assert (Hn : 1 <= b_nclst b) by (unfold b_nclst; apply Z.div_le_lower_bound; lia).
  assert (Hr : 0 <= b_nroot b / 16) by (apply Z.div_pos; lia). split_and!; [done| | |done|].
  - unfold b_nclst. pose proof (Z.mul_div_le (b_tsect b - b_sys b) (b_csize b)). lia.
  - destruct Bf as (F12 & F16 & F32). unfold b_type in *. destruct (MIN_FAT32 <=? b_nclst b); [specialize (F32 eq_refl); lia|]. destruct (MIN_FAT16 <=? b_nclst b); [specialize (F16 eq_refl)|specialize (F12 eq_refl)]; lia.
  - unfold b_sys. destruct Bc as [-> | ->]; lia.
Qed.

Lemma fat_size_ok ty n z : ty = FS_FAT12 /\ 3 * n <= 2 * (512 * z) \/ ty = FS_FAT16 /\ 2 * n <= 512 * z \/ ty = FS_FAT32 /\ 4 * n <= 512 * z -> 0 <= n <= 0x0FFFFFF7 ->
  (z <? u32 ((if ty =? FS_FAT32 then u32 (n * 4) else if ty =? FS_FAT16 then u32 (n * 2) else u32 (u32 (n * 3) / 2 + (n &&& 1))) + (SS - 1)) / SS) = false.
Proof.
  intros Ht Hn. apply Z.ltb_ge. change SS with 512. assert (H1 : 0 <= (n &&& 1) <= 1) by (change 1 with (Z.ones 1) at 1 2; rewrite Z.land_ones by lia; pose proof (Z.mod_pos_bound n (2 ^ 1)); lia).
  assert (H3 : 0 <= n * 3 / 2 /\ 2 * (n * 3 / 2 + (n &&& 1)) <= n * 3 + 1).
  { split; [apply Z.div_pos; lia|]. pose proof (Z.mul_div_le (n * 3) 2). change (n &&& 1) with (n &&& Z.ones 1) in *. rewrite Z.land_ones in * by lia. change (2 ^ 1) with 2 in *.
    pose proof (Z.div_mod (n * 3) 2). pose proof (Z.mod_pos_bound (n * 3) 2). pose proof (Z.div_mod n 2). assert ((n * 3) mod 2 = n mod 2).
    { rewrite Z.mul_mod by lia. change (3 mod 2) with 1. rewrite Z.mul_1_r. by apply Z.mod_mod. } lia. }
  apply Z.lt_succ_r. apply Z.div_lt_upper_bound; [lia|]. destruct Ht as [[-> Hz]|[[-> Hz]|[-> Hz]]]; cbn [Z.eqb Pos.eqb FS_FAT12 FS_FAT16 FS_FAT32].
  - rewrite (wrapu_small 32 (n * 3)) by (unfold inu; lia). rewrite (wrapu_small 32 (_ / 2 + _)) by (unfold inu; lia). rewrite wrapu_small by (unfold inu; lia). lia.
  - rewrite (wrapu_small 32 (n * 2)), wrapu_small by (unfold inu; lia). lia.
  - rewrite (wrapu_small 32 (n * 4)), wrapu_small by (unfold inu; lia). lia.
Qed.

Lemma read_geometry_spec v bs b : boot_ok bs b -> win (fs v) = b -> Forall (inu 8) b ->
  returns (read_geometry bs) v (fun r v' => r = inr (b_type b) /\ v' = set_fs (geometry bs b (fs v)) v).
Proof.
  intros Bo Ew B. destruct (boot_ranges b B) as (R1 & R2 & R3 & R4 & R5). destruct (boot_clusters bs b Bo B) as (Hn & Hs & Hf & Hr & Hy). pose proof Bo as [Bs Bc Bz [Br1 Br2] Bv Bk Bl Bf [Be1 Be2]].
  destruct (pow2_test _ Bz) as [Hz Hp]. unfold inu in *. pose proof (Z.div_pos (b_nroot b) 16). assert (Hfn : 0 <= b_fatsz b * b_nfats b <= b_sys b) by (unfold b_sys; destruct Bc as [-> | ->]; lia).
  unfold read_geometry. eapply returns_step; [reflexivity|]. rewrite Ew, Bs. change (negb (512 =? SS)) with false. cbv iota zeta.
  fold (b_fatsz b) (b_nfats b) (b_csize b) (b_nroot b) (b_nrsv b) (b_tsect b). do 2 (eapply returns_step; [reflexivity|]).
  assert (Ec : negb (b_nfats b =? 1) && negb (b_nfats b =? 2) = false) by (by destruct Bc as [-> | ->]). rewrite Ec. eapply returns_step; [reflexivity|].
  rewrite (proj2 (Z.eqb_neq (b_csize b) 0)), Hp by lia. cbn [Z.eqb negb orb]. eapply returns_step; [reflexivity|]. change (SS / SZ_DIRE) with 16. rewrite Br1. cbn [Z.eqb negb].
  rewrite (proj2 (Z.eqb_neq (b_nrsv b) 0)) by done. rewrite (wrapu_small 32 (b_fatsz b * b_nfats b)), (wrapu_small 32 (b_nrsv b + _)) by (unfold inu, b_sys in *; lia).
  fold (b_sys b). rewrite (wrapu_small 32 (b_sys b)) by (unfold inu; lia). rewrite (proj2 (Z.ltb_ge (b_tsect b) _)) by lia. fold (b_nclst b). rewrite (proj2 (Z.eqb_neq (b_nclst b) 0)) by lia.
  fold (b_type b). rewrite (wrapu_small 32 (b_nclst b + 2)), (wrapu_small 32 (bs + b_nrsv b)), (wrapu_small 32 (bs + b_sys b)), (wrapu_small 32 (bs + b_nrsv b + _)) by (unfold inu, b_sys in *; lia).
  do 4 (eapply returns_step; [reflexivity|]). set (n := b_nclst b + 2) in *. set (v4 := set_fs _ _).
  assert (Sz := fat_size_ok (b_type b) n (b_fatsz b)). 
  eapply returns_bind with (Q := fun r v' => r = inr (if b_type b =? FS_FAT32 then u32 (n * 4) else if b_type b =? FS_FAT16 then u32 (n * 2) else u32 (u32 (n * 3) / 2 + (n &&& 1))) /\
    v' = set_fs (geometry bs b (fs v)) v).
  - unfold geometry, b_dirbase. destruct (Z.eqb_spec (b_type b) FS_FAT32) as [E32|N32].
    + rewrite (proj2 Br2 E32). cbn [Z.eqb negb]. eapply returns_step; [reflexivity|]. apply returns_ret. split; [done|]. unfold v4, set_fs. cbn. by rewrite (proj2 Br2 E32).
    + assert (Nr : b_nroot b <> 0) by tauto. rewrite (proj2 (Z.eqb_neq _ 0) Nr). eapply returns_step; [reflexivity|]. apply returns_ret. by split.
  - intros r v5 (-> & ->). cbv iota. rewrite Sz; [by apply returns_ret|..|lia].
    destruct Bf as (F12 & F16 & F32). unfold b_type in *. destruct (MIN_FAT32 <=? b_nclst b); [right; right; by auto|]. destruct (MIN_FAT16 <=? b_nclst b); [right; left|left]; by auto.
Qed.

(** The drive holds a volume with boot sector [b] at [bs], and its two FATs agree. *)
Record volume_on (st : sectors) (bs : Z) (b : list Z) : Prop := {
  vo_boot : boot_at st bs b;
  vo_ok : boot_ok bs b;
  vo_present : forall s, bs <= s < bs + b_tsect b -> is_Some (st !! s);
  vo_mirror : b_nfats b = 2 -> forall s, bs + b_nrsv b <= s < bs + b_nrsv b + b_fatsz b -> st !! (s + b_fatsz b) = st !! s;
}.
(** The file system object of the mounted volume, but for the window and the hints. *)
Definition fresh_fs (bs : Z) (b : list Z) (id : Z) : FATFS := set_cdir 0 (set_fs_id id (set_fs_type (b_type b) (geometry bs b (set_drv 0 blank_fs)))).

Lemma fresh_geom bs b id : boot_ok bs b -> Forall (inu 8) b -> geom_ok (fresh_fs bs b id) /\ pow2_csize (fresh_fs bs b id).
Proof.
  intros Bo B. destruct (boot_ranges b B) as (R1 & R2 & R3 & R4 & R5). destruct (boot_clusters bs b Bo B) as (Hn & Hs & Hf & Hr & Hy). pose proof Bo as [Bs Bc Bz [Br1 Br2] Bv Bk Bl Bf [Be1 Be2]].
  destruct (pow2_test _ Bz) as [Hz Hp]. unfold inu in *. split; [|exact Bz]. constructor; cbn [fresh_fs geometry set_cdir set_fs_id set_fs_type set_dirbase set_database set_fatbase set_volbase set_n_fatent
    set_n_rootdir set_csize set_n_fats set_fsize set_drv drv n_fats fatbase fsize n_fatent csize database fs_type]; try done; try lia.
  - unfold b_sys. destruct Bc as [-> | ->]; lia.
  - destruct Bf as (F12 & F16 & F32). unfold b_type in *. unfold MIN_FAT32, MIN_FAT16 in *. destruct (Z.leb_spec 65526 (b_nclst b)); [right; right; split_and!; [done|done|by apply F32]|].
    destruct (Z.leb_spec 4086 (b_nclst b)); [right; left; split_and!; [done|lia|by apply F16]|left; split_and!; [done|lia|by apply F12]].
Qed.

Lemma fresh_rep v st bs b id : volume_on st bs b -> blk_holds (dsk v) st -> rest_same (fresh_fs bs b id) (fs v) -> wflag (fs v) = 0 -> st !! winsect (fs v) = Some (win (fs v)) -> vol_rep v st.
Proof.
  intros Vo Hb R W0 Hw. pose proof (blk_sectors _ _ Hb) as Ok. destruct Vo as [(Eb & _ & _) Bo Pr Mi]. destruct (Ok _ _ Eb) as [_ Bb]. destruct (fresh_geom bs b id Bo Bb) as [G _].
  destruct (boot_clusters bs b Bo Bb) as (Hn & Hs & Hf & Hr & Hy). destruct (boot_ranges b Bb) as (R1 & R2 & R3 & R4 & R5). destruct (pow2_test _ (bo_csize _ _ Bo)) as [Hz _]. unfold inu in *. pose proof (bo_copies _ _ Bo) as Bc.
  split; [by apply (geom_same (fresh_fs bs b id))|]. split; [done|]. exists st. split; [done|]. destruct R as (_ & _ & _ & En & _ & _ & _ & _ & Ez & _ & Ef & _). cbn in En, Ez, Ef.
  assert (Nd : forall s, ~ dirty_at (fs v) s) by (intros s [F _]; congruence). constructor.
  - by apply (Ok (winsect (fs v))).
  - left. by split; [|right].
  - intros s _. by rewrite decide_False.
  - rewrite Ef, En, Ez. intros s Hr'. apply Pr. unfold b_sys in *. destruct Bc as [E|E]; rewrite E in *; nia.
  - rewrite Ef, En, Ez. intros s N2 Hs' _. by apply Mi.
Qed.

Lemma read_fsinfo_spec v st bs b : volume_on st bs b -> blk_holds (dsk v) st -> drv (fs v) = 0 -> wflag (fs v) = 0 -> winsect (fs v) = bs -> win (fs v) = b ->
  returns (read_fsinfo bs (b_type b)) v (fun _ v' => blk_holds (dsk v') st /\ wflag (fs v') = 0 /\ st !! winsect (fs v') = Some (win (fs v')) /\
    rest_same (fs v) (fs v') /\ 0 <= last_clust (fs v')).
Proof.
  intros Vo Hb Hd W0 Ws Ew. pose proof (blk_sectors _ _ Hb) as Ok. pose proof Vo as [(Eb & _ & _) Bo Pr Mi]. destruct (Ok _ _ Eb) as [_ Bb].
  destruct (boot_clusters bs b Bo Bb) as (Hn & Hs & Hf & Hr & Hy). destruct (pow2_test _ (bo_csize _ _ Bo)) as [Hz _]. pose proof (bo_end _ _ Bo) as [Be1 Be2].
  assert (Hsy : 2 <= b_sys b) by (unfold b_sys; pose proof (bo_reserved _ _ Bo); destruct (boot_ranges b Bb) as (_ & _ & _ & _ & R5); unfold inu in R5; destruct (bo_copies _ _ Bo) as [-> | ->]; lia).
  unfold read_fsinfo. do 4 (eapply returns_step; [reflexivity|]). set (v1 := set_fs _ _). destruct (_ && _).
  - rewrite (wrapu_small 32) by (unfold inu; lia). destruct (Pr (bs + 1)) as [x Ex]; [nia|].
    eapply returns_bind; [apply (load_record v1 st (bs + 1) x); [done|done|done|cbn; lia|done]|]. intros r v2 (-> & Hb2 & E2). cbn [Z.eqb FR_OK].
    assert (Ws2 : winsect (fs v2) = bs + 1) by (by rewrite E2). assert (Ew2 : win (fs v2) = x) by (by rewrite E2). assert (R2 : rest_same (fs v) (fs v2)) by (by rewrite E2).
    assert (W2 : wflag (fs v2) = 0) by (by rewrite E2). assert (L2 : last_clust (fs v2) = 0xFFFFFFFF) by (by rewrite E2).
    do 2 (eapply returns_step; [reflexivity|]). destruct (_ && _).
    + eapply returns_step; [reflexivity|]. apply returns_modify. cbn. rewrite Ws2, Ew2. split_and!; try done. destruct (Ok _ _ Ex) as [_ Bx]. apply LD_DWORD_range with (i := FSI_Nxt_Free) in Bx. unfold inu in Bx. lia.
    + apply returns_ret. cbn. rewrite Ws2, Ew2, L2. split_and!; (done || lia).
  - apply returns_ret. cbn. rewrite Ws, Ew. split_and!; (done || lia).
Qed.

(** The drive comes up with the sectors [st], and may be written. *)
Definition comes_up (d : D) (st : sectors) : Prop := exists stat d', blk_initialize 0 d = (stat, d') /\ (stat &&& (STA_NOINIT ||| STA_PROTECT)) = 0 /\ blk_holds d' st.

Lemma status_bits x : (x &&& (STA_NOINIT ||| STA_PROTECT)) = 0 -> (x &&& STA_NOINIT) = 0 /\ (x &&& STA_PROTECT) = 0.
Proof. rewrite Z.land_lor_distr_r. apply Z.lor_eq_0_iff. Qed.

Lemma mount_volume_spec v st bs b wmode id : comes_up (dsk v) st -> volume_on st bs b ->
  returns (mount_volume 0 wmode id) v (fun r v' => r = FR_OK /\ vol_rep v' st /\ rest_same (fresh_fs bs b id) (fs v') /\ 0 <= last_clust (fs v')).
Proof.
  intros (stat & d' & Ei & Hst & Hb) Vo. destruct (status_bits _ Hst) as [S1 S2]. unfold mount_volume. do 2 (eapply returns_step; [reflexivity|]). change (u8 0) with 0. cbv zeta.
  eapply returns_step; [unfold disk_initialize_at; cbn [dsk set_fs]; rewrite Ei; reflexivity|]. rewrite S1, S2. cbn [Z.eqb negb]. rewrite andb_false_r. set (v1 := set_dsk d' _).
  eapply returns_bind; [apply (find_boot_spec v1 st bs b); [done|done|apply Vo]|]. intros r v2 (-> & Hb2 & E2). cbv iota. cbn [Z.eqb negb].
  pose proof (blk_sectors _ _ Hb) as Ok. pose proof Vo as [(Eb & _ & _) Bo Pr Mi]. destruct (Ok _ _ Eb) as [_ Bb].
  eapply returns_bind; [apply (read_geometry_spec v2 bs b Bo); [by rewrite E2|done]|]. intros r v3 (-> & ->). cbv iota. set (v3 := set_fs _ v2).
  eapply returns_bind; [apply (read_fsinfo_spec v3 st bs b Vo); unfold v3; cbn [fs dsk set_fs]; try done; by rewrite E2|].
  intros u v4 (Hb4 & W4 & Hw4 & R4 & L4). do 3 (eapply returns_step; [reflexivity|]). apply returns_ret. split; [done|]. set (v5 := set_fs _ _).
  assert (R5 : rest_same (fresh_fs bs b id) (fs v5)).
  { unfold v5. unfold v3 in R4. cbn [fs set_fs] in *. rewrite E2 in R4. unfold rest_same in *. cbn in R4 |- *. decompose [and] R4. split_and!; done. }
  split; [|by split]. by apply (fresh_rep v5 st bs b id).
Qed.

(** The object of a volume that is not mounted. *)
Definition registered (s : vols D) (path path' : list Z) (o : Z) : Prop :=
  get_ldnumber (CurrVol s) path = (0, path') /\ FatFs s !! 0%nat = Some o /\ o <> 0.

Lemma vol_of_put (s : vols D) o v : vol_of (put_vol o v s) o = v.
Proof. unfold vol_of, put_vol. cbn. rewrite lookup_insert_eq. by destruct v. Qed.

Lemma on_obj_spec {A} (m : ST (volume D) A) s o Q : returns m (vol_of s o) Q -> returns (on_obj o m) s (fun a s' => exists v', s' = put_vol o v' s /\ Q a v').
Proof. intros R. eapply returns_mono; [by apply (returns_zoom (fun s => vol_of s o) (put_vol o) m s)|]. intros a s' (v' & -> & HQ). by exists v'. Qed.

(** The first use of a registered volume mounts it. *)
Lemma find_volume_mounts s path path' o st bs b wmode : registered s path path' o -> fs_type (fs (vol_of s o)) = 0 -> comes_up (drive s) st -> volume_on st bs b ->
  returns (find_volume path wmode) s (fun r s' => r = (FR_OK, o, path') /\ registered s' path path' o /\ vol_rep (vol_of s' o) st /\
    rest_same (fresh_fs bs b (u16 (Fsid s + 1))) (fs (vol_of s' o)) /\ 0 <= last_clust (fs (vol_of s' o))).
Proof.
  intros (El & Ef & No) Ht Up Vo. unfold find_volume. eapply returns_step; [reflexivity|]. rewrite El. change (0 <? 0) with false. cbv iota. change (Z.to_nat 0) with 0%nat. rewrite Ef. cbn [default from_option id].
  rewrite (proj2 (Z.eqb_neq o 0)) by done. rewrite Ht. cbn [Z.eqb negb andb].
  eapply returns_bind; [apply on_obj_spec; by apply (mount_volume_spec (vol_of s o) st bs b wmode)|]. intros r s1 (v1 & -> & -> & R1 & F1 & L1). cbn [Z.eqb FR_OK].
  eapply returns_step; [reflexivity|]. apply returns_ret. split; [done|]. split; [done|]. change (vol_of _ o) with (vol_of (put_vol o v1 s) o). rewrite vol_of_put. by split_and!.
Qed.

(** A mounted volume is used as it is. *)
Lemma find_volume_mounted s path path' o L wmode : registered s path path' o -> vol_rep (vol_of s o) L ->
  returns (find_volume path wmode) s (fun r s' => r = (FR_OK, o, path') /\ s' = s).
Proof.
  intros (El & Ef & No) (G & _ & st & Hb & _). unfold find_volume. eapply returns_step; [reflexivity|]. rewrite El. change (0 <? 0) with false. cbv iota. change (Z.to_nat 0) with 0%nat. rewrite Ef. cbn [default from_option id].
  rewrite (proj2 (Z.eqb_neq o 0)) by done. rewrite (g_drv _ G). destruct (status_bits _ (blk_ready _ _ Hb)) as [S1 S2]. change (dsk (vol_of s o)) with (drive s) in S1, S2. rewrite S1, S2. cbn [Z.eqb negb].
  assert (Nt : (fs_type (fs (vol_of s o)) =? 0) = false) by (apply Z.eqb_neq; destruct (g_type _ G) as [(-> & _)|[(-> & _)|(-> & _)]]; done). rewrite Nt. cbn [negb andb]. rewrite andb_false_r. by apply returns_ret.
Qed.

(** ** Opening a file that exists *)

(** The entry of a file: not a directory, and not read-only when it is to be written. *)
Definition plain_entry (mode : Z) (e : list Z) : Prop :=
  Z.testbit (byte_at e DIR_Attr) 4 = false /\ (Z.testbit mode 1 = true -> Z.testbit (byte_at e DIR_Attr) 0 = false).
(** Modes that create nothing. *)
Definition open_mode (mode : Z) : Prop := (mode &&& (FA_CREATE_ALWAYS ||| FA_OPEN_ALWAYS ||| FA_CREATE_NEW)) = 0.

Lemma create_bit mode : open_mode mode -> ((mode &&& FA_CREATE_ALWAYS) =? 0) = true.
Proof. unfold open_mode. rewrite !Z.land_lor_distr_r, !Z.lor_eq_0_iff. intros [[-> _] _]. done. Qed.

Lemma with_dir_spec {A} (m : ST (dj_state D) A) v p Q : returns m (Dj v p) (fun a s' => Q a (dvol s')) -> returns (with_dir p m) v Q.
Proof. intros R. eapply returns_mono; [by apply (returns_zoom (fun v => Dj v p) (fun s _ => dvol s) m v)|]. by intros a v' (s' & -> & HQ). Qed.

Lemma open_path_spec v L fp path mode t name k : vol_rep v L -> path_to (fs v) L path t name (Some k) -> let e := dirent (fs v) L t (Z.of_nat k) in
  open_mode mode -> plain_entry mode e ->
  returns (with_dir fresh_dir (open_path fp path mode)) v (fun r v' => vol_rep v' L /\ window_moved (fs v) (fs v') /\ winsect (fs v') = t_sect (fs v) t (Z.of_nat k / 16) /\
    r = (FR_OK, Fil true (fs_id (fs v)) mode 0 0 (LD_DWORD e DIR_FileSize) (ent_cluster (fs v) e) (clust fp) 0 (t_sect (fs v) t (Z.of_nat k / 16)) (Z.of_nat k mod 16 * 32) (buf fp))).
Proof.
  intros R P e Hm [Hd Hr]. apply with_dir_spec. unfold open_path. eapply returns_bind; [by apply (follow_path_spec v fresh_dir L path t name (Some k))|].
  intros r s' (v1 & p1 & -> & R1 & W1 & (-> & A1 & Sh1 & Hk) & _ & _). eapply returns_step; [reflexivity|]. cbn [dobj dvol].
  destruct A1 as (_ & As & _ & Ad). rewrite Ad. rewrite bool_decide_false by done. cbn [Z.eqb FR_OK andb].
  pose proof (place_same _ _ (proj1 W1)) as (_ & S2 & _). assert (Ed : dirent (fs v1) L t (Z.of_nat k) = e) by (unfold e, dirent; by rewrite S2).
  assert (Oc : returns (open_or_create mode FR_OK) (Dj v1 p1) (fun r s' => r = (FR_OK, mode) /\ s' = Dj v1 p1)).
  { unfold open_or_create. eapply returns_step; [reflexivity|]. unfold open_mode in Hm. rewrite Hm. cbn [Z.eqb negb FR_OK]. eapply returns_step; [reflexivity|]. cbn [dobj dvol]. rewrite Ad. cbn [default from_option id].
    rewrite (shown v1 t L _ DIR_Attr Sh1), Ed by (unfold DIR_Attr; lia). change AM_DIR with (2 ^ 4). change FA_WRITE with (2 ^ 1). change AM_RDO with (2 ^ 0). rewrite !flag_test, Hd by lia. cbn [negb].
    rewrite !negb_involutive. destruct (Z.testbit mode 1); [rewrite Hr by done|]; by apply returns_ret. }
  eapply returns_bind; [exact Oc|]. intros r s' (-> & ->). cbv iota. do 2 (eapply returns_step; [reflexivity|]). cbn [dobj dvol Z.eqb FR_OK]. rewrite (create_bit mode Hm). cbn [negb].
  apply returns_ret. split; [done|]. split; [done|]. pose proof Sh1 as [Ws _]. rewrite S2 in Ws. split; [done|]. rewrite Ad. unfold open_entry. cbn [default from_option id]. do 2 f_equal; [apply W1| | |done].
  - rewrite <- Ed. unfold LD_DWORD. rewrite <- !Z.add_assoc, !(shown v1 t L _ _ Sh1) by (unfold DIR_FileSize; lia). done.
  - rewrite (shown_cluster v1 t L _ Sh1), Ed by lia. unfold ent_cluster, ld_clust. destruct W1 as [(-> & _) _]. done.
Qed.

(** The clusters of the file with entry [k] of the directory [t]. *)
Record file_entry (f : FATFS) (L : sectors) (t : place) (k : Z) (l : list Z) : Prop := {
  fe_chain : l = [] /\ ent_cluster f (dirent f L t k) = 0 \/ is_chain (fat_entry f L) (n_fatent f) l /\ head l = Some (ent_cluster f (dirent f L t k));
  fe_size : LD_DWORD (dirent f L t k) DIR_FileSize <= 512 * nsects f l;
  fe_apart : forall i, 0 <= i < nsects f l -> t_sect f t (k / 16) <> fsect f l i;
}.
(** Its bytes. *)
Definition file_data (f : FATFS) (L : sectors) (l : list Z) (n : Z) : list Z := map (fun i => byte_at (default [] (L !! fsect f l (i / 512))) (i mod 512)) (seqZ 0 n).

Lemma dirent_bytes f L t k : sectors_ok L -> Forall (inu 8) (dirent f L t k).
Proof.
  intros Ok. unfold dirent, slice. apply Forall_take, Forall_drop. destruct (L !! _) as [x|] eqn:E; cbn; [by apply (Ok _ x E)|constructor].
Qed.

Lemma opened_rep v L fp mode t k l : vol_rep v L -> pow2_csize (fs v) -> (forall s, database (fs v) <= s < database (fs v) + (n_fatent (fs v) - 2) * csize (fs v) -> is_Some (L !! s)) ->
  file_entry (fs v) L t k l -> winsect (fs v) = t_sect (fs v) t (k / 16) -> length (buf fp) = 512%nat -> Forall (inu 8) (buf fp) -> 0 <= mode < 64 ->
  let e := dirent (fs v) L t k in
  let fp' := Fil true (fs_id (fs v)) mode 0 0 (LD_DWORD e DIR_FileSize) (ent_cluster (fs v) e) (clust fp) 0 (winsect (fs v)) (k mod 16 * 32) (buf fp) in
  file_rep v fp' L l /\ contents (fs v) fp' L l = file_data (fs v) L l (LD_DWORD e DIR_FileSize).
Proof.
  intros R Pw Da [Fc Fs Fa] Ws Lb Bb Hm e fp'. pose proof (proj1 R) as G. pose proof (g_csize _ G) as Gz.
  assert (Hd : dirty fp' = false).
  { unfold dirty. change (flag fp') with mode. change FA__DIRTY with (2 ^ 6). rewrite flag_test by lia. rewrite negb_involutive. by rewrite (testbit_inu 6 mode 6) by (unfold inu; lia). }
  assert (Hs : 0 <= LD_DWORD e DIR_FileSize < 2 ^ 32).
  { pose proof (LD_DWORD_range e DIR_FileSize (dirent_bytes _ _ t k (proj1 (proj2 R)))). done. }
  split; [split; [|split]|].
  - constructor; [done|done|done| |].
    + destruct Fc as [[-> _]|[C _]]; [by left|by right].
    + rewrite Ws. exact Fa.
  - split; [constructor; [constructor|..]|]; cbn [fp' fil_fs fil_id err sclust fil_size buf dsect flag fptr] in *; try done; try lia.
    + unfold e. destruct Fc as [[-> ->]|[_ ->]]; done.
    + intros E. rewrite Hd in E. done.
    + unfold inu. lia.
    + unfold nsects. nia.
  - cbn. lia.
  - unfold contents, file_data. apply map_ext. intros i. unfold fbyte, view. by rewrite Hd.
Qed.

(** ** From a card in the slot to an open file *)

(** A file on a drive that is not mounted: the volume, the directory [t] and entry [k] the
    path leads to, and its clusters [l]. *)
Record file_on_drive (s : vols D) (path : list Z) (o mode : Z) (st : sectors) (bs : Z) (b : list Z) (t : place) (k : nat) (l : list Z) : Prop := {
  fd_object : exists path' name, registered s path path' o /\ path_to (fresh_fs bs b (u16 (Fsid s + 1))) st path' t name (Some k);
  fd_fresh : fs_type (fs (vol_of s o)) = 0;
  fd_drive : comes_up (drive s) st;
  fd_volume : volume_on st bs b;
  fd_mode : open_mode mode /\ inu 8 mode;
  fd_entry : plain_entry mode (dirent (fresh_fs bs b (u16 (Fsid s + 1))) st t (Z.of_nat k));
  fd_file : file_entry (fresh_fs bs b (u16 (Fsid s + 1))) st t (Z.of_nat k) l;
}.

Definition mode_mask : Z := FA_READ ||| FA_WRITE ||| FA_CREATE_ALWAYS ||| FA_OPEN_ALWAYS ||| FA_CREATE_NEW.
Lemma masked_mode mode : inu 8 mode -> open_mode mode -> let m := mode &&& mode_mask in
  open_mode m /\ 0 <= m < 64 /\ Z.testbit m 0 = Z.testbit mode 0 /\ Z.testbit m 1 = Z.testbit mode 1.
Proof.
  intros Hm Ho m. unfold open_mode in *. unfold m. change mode_mask with (Z.ones 5). rewrite <- Z.land_assoc, (Z.land_comm (Z.ones 5)), Z.land_assoc, Ho. rewrite Z.land_0_l.
  rewrite !Z.land_spec, !testbit_ones by lia. cbn. rewrite !andb_true_r. rewrite Z.land_ones by lia. pose proof (Z.mod_pos_bound mode (2 ^ 5)). split_and!; (done || lia).
Qed.

Lemma file_entry_same f f' L t k l : rest_same f f' -> file_entry f L t k l -> file_entry f' L t k l.
Proof.
  intros R [Fc Fs Fa]. pose proof (place_same _ _ R) as (_ & S2 & _). assert (Ed : dirent f' L t k = dirent f L t k) by (unfold dirent; by rewrite S2).
  assert (Ec : ent_cluster f' (dirent f L t k) = ent_cluster f (dirent f L t k)) by (unfold ent_cluster, ld_clust; destruct R as (-> & _); done).
  constructor; rewrite ?Ed, ?Ec, ?(nsects_same _ _ _ R), ?S2.
  - destruct Fc as [Fc|[C Eh]]; [by left|right]. split; [|done]. destruct (fat_bounds_same _ _ R) as (_ & _ & ->). apply (chain_ext (fat_entry f L)); [|done]. intros c _. by apply fat_entry_same.
  - done.
  - intros i Hi. rewrite (fsect_same _ _ _ _ R). by apply Fa.
Qed.

Lemma path_to_same f f' L path t name x : rest_same f f' -> path_to f L path t name x -> path_to f' L path t name x.
Proof.
  intros R [Hc W]. pose proof R as (_ & _ & _ & _ & _ & _ & Ec & _). assert (E : path_start f' path = path_start f path) by (unfold path_start; by rewrite Ec).
  split; rewrite E; [done|]. by apply (walk_same f f').
Qed.

Lemma f_open_spec s path o mode st bs b t k l fp : file_on_drive s path o mode st bs b t k l -> length (buf fp) = 512%nat -> Forall (inu 8) (buf fp) ->
  let f := fresh_fs bs b (u16 (Fsid s + 1)) in
  returns (f_open fp path mode) s (fun r s' => exists fp', r = (FR_OK, fp', o) /\ file_rep (vol_of s' o) fp' st l /\
    contents (fs (vol_of s' o)) fp' st l = file_data f st l (LD_DWORD (dirent f st t (Z.of_nat k)) DIR_FileSize) /\ fptr fp' = 0 /\
    Z.testbit (flag fp') 0 = Z.testbit mode 0 /\ Z.testbit (flag fp') 1 = Z.testbit mode 1).
Proof.
  intros [(path' & name & Rg & Pt) Fr Up Vo [Om Im] Pe Fe] Lb Bb f. fold f in Pt, Pe, Fe. destruct (masked_mode mode Im Om) as (Om' & Hm' & M0 & M1). unfold f_open. cbv zeta. fold mode_mask. set (m := mode &&& mode_mask) in *.
  eapply returns_bind; [by apply (find_volume_mounts s path path' o st bs b)|]. intros r s1 (-> & Rg1 & R1 & F1 & L1). fold f in F1. cbv iota. cbn [Z.eqb FR_OK].
  pose proof (place_same _ _ F1) as (_ & S2 & _). assert (Ed : dirent (fs (vol_of s1 o)) st t (Z.of_nat k) = dirent f st t (Z.of_nat k)) by (unfold dirent; by rewrite S2).
  eapply returns_bind.
  { apply on_obj_spec. apply (open_path_spec (vol_of s1 o) st (set_fil_fs false fp) path' m t name k R1 (path_to_same _ _ _ _ _ _ _ F1 Pt) Om').
    rewrite Ed. destruct Pe as [P1 P2]. split; [done|]. by rewrite M1. }
  cbv beta. intros r s2 (v2 & -> & R2 & W2 & Ws2 & ->). cbv iota. apply returns_ret. eexists. split; [reflexivity|]. rewrite vol_of_put.
  pose proof (rest_same_trans _ _ _ F1 (proj1 W2)) as F2.
  pose proof (place_same _ _ F2) as (_ & S3 & _). assert (Ed2 : dirent (fs v2) st t (Z.of_nat k) = dirent f st t (Z.of_nat k)) by (unfold dirent; by rewrite S3).
  assert (Bb' : Forall (inu 8) b) by (destruct Vo as [(Eb & _) _ _ _]; apply (proj1 (proj2 R2) _ _ Eb)).
  destruct (fresh_geom bs b (u16 (Fsid s + 1)) (vo_ok _ _ _ Vo) Bb') as [Gf Pf]. fold f in Gf, Pf.
  assert (Pw2 : pow2_csize (fs v2)) by (destruct Pf as (j & Hj & Ej); exists j; split; [done|]; destruct F2 as (_ & _ & -> & _); done).
  assert (Da2 : forall x, database (fs v2) <= x < database (fs v2) + (n_fatent (fs v2) - 2) * csize (fs v2) -> is_Some (st !! x)).
  { destruct F2 as (_ & _ & -> & _ & _ & _ & _ & -> & _ & _ & _ & _ & ->). cbn. intros x Hx. apply (vo_present _ _ _ Vo). destruct (boot_clusters bs b (vo_ok _ _ _ Vo) Bb') as (Hn & Hs & _ & _ & Hy). nia. }
  destruct (opened_rep v2 st fp m t (Z.of_nat k) l R2 Pw2 Da2 (file_entry_same _ _ _ _ _ _ F2 Fe)) as [Fr2 Ec2]; [by rewrite S3, Ws2, S2|done..|].
  rewrite Ed2, Ws2 in Fr2, Ec2. rewrite Ed. assert (Eid : fs_id (fs v2) = fs_id (fs (vol_of s1 o))) by apply W2. 
  assert (Ecl : forall e, ent_cluster (fs v2) e = ent_cluster (fs (vol_of s1 o)) e) by (intros e; unfold ent_cluster, ld_clust; destruct W2 as [(-> & _) _]; done).
  rewrite Eid, Ecl in Fr2, Ec2. split_and!; [exact Fr2| |done|exact M0|exact M1]. etransitivity; [exact Ec2|]. unfold file_data. apply map_ext. intros i. by rewrite (fsect_same _ _ _ _ F2).
Qed.
End Mounting.

(** ** Refused volumes *)
Section Refused.
Context {D : Type} `{BlockLaws D}.

(** The object registered for the drive of a path, and that [find_volume] has to mount it:
    it is not mounted, or its drive is no longer initialised. *)
Definition object_of (s : vols D) (path : list Z) (vol o : Z) : Prop :=
  fst (get_ldnumber (CurrVol s) path) = vol /\ 0 <= vol /\ FatFs s !! Z.to_nat vol = Some o /\ o <> 0.
Definition needs_mount (s : vols D) (o : Z) : Prop :=
  fs_type (fs (vol_of s o)) = 0 \/ (blk_status (drv (fs (vol_of s o))) (drive s) &&& STA_NOINIT) <> 0.

(** Why the volume of a path cannot be used, the result, and the object that a mount was
    tried on. *)
Inductive refused (s : vols D) (path : list Z) (mode : Z) : Z -> option Z -> Prop :=
| refused_number : fst (get_ldnumber (CurrVol s) path) < 0 -> refused s path mode FR_INVALID_DRIVE None
| refused_unset : 0 <= fst (get_ldnumber (CurrVol s) path) -> default 0 (FatFs s !! Z.to_nat (fst (get_ldnumber (CurrVol s) path))) = 0 -> refused s path mode FR_NOT_ENABLED None
| refused_mounted vol o : object_of s path vol o -> ~ needs_mount s o -> (blk_status (drv (fs (vol_of s o))) (drive s) &&& STA_PROTECT) <> 0 ->
    bitand_not 8 (mode &&& mode_mask) FA_READ <> 0 -> refused s path mode FR_WRITE_PROTECTED None
| refused_drive vol o stat d' : object_of s path vol o -> needs_mount s o -> blk_initialize (u8 vol) (drive s) = (stat, d') ->
    (stat &&& STA_NOINIT) <> 0 -> refused s path mode FR_NOT_READY (Some o)
| refused_write vol o stat d' : object_of s path vol o -> needs_mount s o -> blk_initialize (u8 vol) (drive s) = (stat, d') ->
    (stat &&& STA_NOINIT) = 0 -> (stat &&& STA_PROTECT) <> 0 -> bitand_not 8 (mode &&& mode_mask) FA_READ <> 0 -> refused s path mode FR_WRITE_PROTECTED (Some o)
| refused_volume o st b : object_of s path 0 o -> needs_mount s o -> comes_up (drive s) st ->
    st !! 0 = Some b -> fs_kind b = 2 -> refused s path mode FR_NO_FILESYSTEM (Some o).

(** What is left of the state: the object a mount was tried on is not mounted, whatever it
    was before, and nothing else but the drive has changed. *)
Definition left_as (tried : option Z) (s s' : vols D) : Prop :=
  match tried with
  | None => s' = s
  | Some o => fs_type (fs (vol_of s' o)) = 0 /\ delete o (objs s') = delete o (objs s) /\ FatFs s' = FatFs s /\ Fsid s' = Fsid s /\ CurrVol s' = CurrVol s
  end.

Lemma find_volume_tries s path vol o wmode r : object_of s path vol o -> needs_mount s o -> r <> FR_OK ->
  returns (mount_volume vol wmode (u16 (Fsid s + 1))) (vol_of s o) (fun x v' => x = r /\ fs_type (fs v') = 0) ->
  returns (find_volume path wmode) s (fun x s' => fst (fst x) = r /\ r <> FR_OK /\ left_as (Some o) s s').
Proof.
  intros (El & Hv & Ef & No) Ht Nr Mv. unfold find_volume. eapply returns_step; [reflexivity|]. destruct (get_ldnumber _ path) as [vol' path']. cbn [fst] in El. subst vol'.
  rewrite (proj2 (Z.ltb_ge vol 0)) by done. rewrite Ef. cbn [default from_option id]. rewrite (proj2 (Z.eqb_neq o 0)) by done.
  assert (Hm : negb (fs_type (fs (vol_of s o)) =? 0) && ((blk_status (drv (fs (vol_of s o))) (drive s) &&& STA_NOINIT) =? 0) = false)
    by (destruct Ht as [-> | Hn]; [done|]; rewrite (proj2 (Z.eqb_neq _ 0) Hn); apply andb_false_r).
  rewrite Hm. eapply returns_bind; [by apply on_obj_spec|]. intros x s1 (v1 & -> & -> & T1).
  rewrite (proj2 (Z.eqb_neq r FR_OK)) by done. eapply returns_step; [reflexivity|]. apply returns_ret. split; [done|]. split; [done|].
  split; [by rewrite vol_of_put|]. split; [|done]. cbn. apply delete_insert_eq.
Qed.

(** The steps of [mount_volume] up to the initialised drive. *)
Ltac mount_steps Ei :=
  unfold mount_volume; do 2 (eapply returns_step; [reflexivity|]); 
  eapply returns_step; [unfold disk_initialize_at; cbn [dsk set_fs vol_of]; rewrite Ei; reflexivity|].

Lemma find_volume_refused s path mode r tried : refused s path mode r tried ->
  returns (find_volume path (bitand_not 8 (mode &&& mode_mask) FA_READ)) s (fun x s' => fst (fst x) = r /\ r <> FR_OK /\ left_as tried s s').
Proof.
  intros [Hn|Hn Hz|vol o (El & Hv & Ef & No) Hm Hp Hw|vol o stat d' Rg Ht Ei Hs|vol o stat d' Rg Ht Ei Hs Hp Hw|o st b Rg Ht (stat & d' & Ei & Hst & Hb) Eb Hk].
  - unfold find_volume. eapply returns_step; [reflexivity|]. destruct (get_ldnumber _ path) as [vol path']. cbn [fst] in Hn. rewrite (proj2 (Z.ltb_lt vol 0) Hn). by apply returns_ret.
  - unfold find_volume. eapply returns_step; [reflexivity|]. destruct (get_ldnumber _ path) as [vol path']. cbn [fst] in Hn, Hz. rewrite (proj2 (Z.ltb_ge vol 0) Hn), Hz. by apply returns_ret.
  - unfold find_volume. eapply returns_step; [reflexivity|]. destruct (get_ldnumber _ path) as [vol' path']. cbn [fst] in El. subst vol'. rewrite (proj2 (Z.ltb_ge vol 0) Hv), Ef. cbn [default from_option id].
    rewrite (proj2 (Z.eqb_neq o 0) No). unfold needs_mount in Hm. destruct (Z.eqb_spec (fs_type (fs (vol_of s o))) 0) as [E0|E0]; [tauto|].
    destruct (Z.eqb_spec (blk_status (drv (fs (vol_of s o))) (drive s) &&& STA_NOINIT) 0) as [E1|E1]; [|tauto]. cbn [negb andb]. rewrite (proj2 (Z.eqb_neq _ 0) Hp), (proj2 (Z.eqb_neq _ 0) Hw). by apply returns_ret.
  - eapply find_volume_tries; [done..|]. mount_steps Ei. rewrite (proj2 (Z.eqb_neq _ 0) Hs). cbn [negb]. by apply returns_ret.
  - eapply find_volume_tries; [done..|]. mount_steps Ei. rewrite Hs, (proj2 (Z.eqb_neq _ 0) Hp), (proj2 (Z.eqb_neq _ 0) Hw). cbn [negb andb Z.eqb]. by apply returns_ret.
  - change (blk_initialize 0 (drive s)) with (blk_initialize (u8 0) (drive s)) in Ei. eapply find_volume_tries; [done..|]. mount_steps Ei. destruct (status_bits _ Hst) as [-> ->]. cbn [negb andb Z.eqb]. rewrite andb_false_r.
    set (v1 := set_dsk d' _). eapply (returns_bind _ _ _ (fun x v' => snd x = 2 /\ fs_type (fs v') = 0)).
    { unfold find_boot. eapply returns_bind; [by apply (check_fs_spec v1 st 0 b)|]. intros x v2 (-> & Hb2 & E2). rewrite Hk. cbn [Z.eqb Pos.eqb]. apply returns_ret. split; [done|]. by rewrite E2. }
    intros [bs fmt] v2 [E T2]. cbn [snd] in E. rewrite E. cbn [Z.eqb Pos.eqb negb]. by apply returns_ret.
Qed.
End Refused.

(** ** Claims *)

(** C18. Opening a file.  On a drive that comes up with a FAT volume, in sector 0 or in a
    partition, that is registered but not mounted yet, [f_open] of a path that leads to a file
    mounts the volume and returns [FR_OK] with a file object at position 0, open for the
    modes asked for, that stands for the file: its chain is the one of the entry and its
    contents are the bytes of the sectors of that chain, as many as the entry says.  The disk
    is not changed. *)
Theorem file_opened {D} `{BlockLaws D} (s : vols D) path o mode st bs b t k l fp :
  file_on_drive s path o mode st bs b t k l -> length (buf fp) = 512%nat -> Forall (inu 8) (buf fp) ->
  returns (f_open fp path mode) s (fun '(r, fp', o') s' => r = FR_OK /\ o' = o /\ file_rep (vol_of s' o) fp' st l /\ fptr fp' = 0 /\
    contents (fs (vol_of s' o)) fp' st l =
      (let f := fresh_fs bs b (u16 (Fsid s + 1)) in file_data f st l (LD_DWORD (dirent f st t (Z.of_nat k)) DIR_FileSize)) /\
    Z.testbit (flag fp') 0 = Z.testbit mode 0 /\ Z.testbit (flag fp') 1 = Z.testbit mode 1).
Proof.
  intros Fd Lb Bb. eapply returns_mono; [by apply (f_open_spec s path o mode st bs b t k l fp)|]. cbv beta. intros [[r fp'] o'] s' (fp1 & E & R & C & P & M0 & M1). injection E as -> -> ->. by split_and!.
Qed.

(** C19. Volumes that cannot be used.  [f_open] returns [FR_INVALID_DRIVE] for a drive number
    that does not exist, [FR_NOT_ENABLED] without a registered object, and, on a mounted
    volume whose drive has become write-protected, [FR_WRITE_PROTECTED] for a mode that
    writes; the state is then the one before, a mounted volume still mounted.  Where the
    volume has to be mounted (its object is not mounted, or its drive is not initialised any
    more) it returns [FR_NOT_READY] when the drive does not come up, [FR_WRITE_PROTECTED] for
    a mode that writes on a protected drive, and [FR_NO_FILESYSTEM] when sector 0 of drive 0
    is not a boot record; the object is then not mounted, also when it was mounted before, and
    the other objects and the registrations are the same.  The file object is invalid in every
    case. *)
Theorem open_refused {D} `{BlockLaws D} (s : vols D) path mode fp r tried :
  refused s path mode r tried ->
  returns (f_open fp path mode) s (fun '(x, fp', _) s' => x = r /\ r <> FR_OK /\ fil_fs fp' = false /\ left_as tried s s').
Proof.
  intros Rf. unfold f_open. cbv zeta. fold mode_mask. eapply returns_bind; [by apply find_volume_refused|]. intros [[x o] path'] s1 (E & Nr & U). cbn [fst] in E. subst x.
  rewrite (proj2 (Z.eqb_neq _ _) Nr). by apply returns_ret.
Qed.

(** The size of the table a FAT32 volume needs is computed in 32 bits: a boot sector of a
    volume with [2 ^ 30] entries passes the check with a table of one sector, which holds
    128. *)
Definition oversized_boot : list Z :=
  replicate 11 0 ++ [0; 2; 1; 1; 0; 1; 0; 0; 0; 0; 0xF8; 0; 0] ++ replicate 8 0 ++ [0; 0; 0; 0x40; 1; 0; 0; 0] ++ replicate 470 0 ++ [0x55; 0xAA].
Lemma oversized_volume_accepted : exists f, read_geometry 0 (Volume (set_win oversized_boot blank_fs) (∅ : sectors)) = Ret (inr FS_FAT32) (Volume f ∅) /\
  n_fatent f = 2 ^ 30 /\ fsize f = 1.
Proof. eexists. split; [vm_compute; reflexivity|]. split; reflexivity. Qed.

(** A card of 10 sectors: a partition table in sector 0, and in its first partition, from
    sector 2, a FAT12 volume of one table and a root directory of one sector, with a volume
    label and the file VMLINUX, of at most 255 bytes, in cluster 2. *)
Definition card_table : list Z := replicate 446 0 ++ [0; 0; 0; 0; 1; 0; 0; 0; 2; 0; 0; 0; 8; 0; 0; 0] ++ replicate 48 0 ++ [0x55; 0xAA].
Definition card_boot : list Z := replicate 11 0 ++ [0; 2; 1; 1; 0; 1; 16; 0; 8; 0; 0xF8; 1; 0] ++ replicate 30 0 ++ chars "FAT12   " ++ replicate 448 0 ++ [0x55; 0xAA].
Definition card_fat : list Z := [0xF8; 0xFF; 0xFF; 0xFF; 0x0F; 0] ++ replicate 506 0.
Definition card_root (file : list Z) : list Z :=
  chars "VOLUME     " ++ [8] ++ replicate 20 0 ++ chars "VMLINUX    " ++ [0x20] ++ replicate 14 0 ++ [2; 0] ++ [Z.of_nat (length file); 0; 0; 0] ++ replicate 448 0.
Definition card_image (file : list Z) : sectors :=
  list_to_map [(0, card_table); (1, replicate 512 0); (2, card_boot); (3, card_fat); (4, card_root file); (5, take 512 (file ++ replicate 512 0));
    (6, replicate 512 0); (7, replicate 512 0); (8, replicate 512 0); (9, replicate 512 0)].

Lemma card_volume_on file : volume_on (card_image file) 2 card_boot.
Proof.
  constructor.
  - split; [reflexivity|]. split; [vm_compute; reflexivity|]. right. exists card_table, [], [0; 0; 0]. split_and!; [reflexivity|vm_compute; reflexivity|vm_compute; reflexivity|lia|constructor].
  - constructor; try (vm_compute; reflexivity).
    + left. vm_compute. reflexivity.
    + exists 0. split; [lia|vm_compute; reflexivity].
    + split; [vm_compute; reflexivity|]. change (b_nroot card_boot) with 16. change (b_type card_boot) with FS_FAT12. unfold FS_FAT12, FS_FAT32. lia.
    + vm_decide.
    + vm_decide.
    + vm_decide.
    + split_and!; [intros _; vm_decide|intros E; vm_compute in E; discriminate..].
    + vm_decide.
  - change (b_tsect card_boot) with 8. intros s Hs. assert (s = 2 \/ s = 3 \/ s = 4 \/ s = 5 \/ s = 6 \/ s = 7 \/ s = 8 \/ s = 9) as Hc by lia.
    decompose [or] Hc; subst s; by eexists.
  - change (b_nfats card_boot) with 1. lia.
Qed.

Definition card_demo : list Z := map Z.of_nat (seq 1 100).
Definition card_vols : vols sectors := Vols ∅ [0x8000; 0] 0 0 (card_image card_demo).

Lemma card_file : file_on_drive card_vols (chars "vmlinux") 0x8000 FA_READ (card_image card_demo) 2 card_boot Root 1 [2].
Proof.
  constructor.
  - exists (chars "vmlinux"), (chars "VMLINUX    " ++ [12]). split; [done|]. split; [vm_compute; congruence|].
    eapply walk_last; [vm_compute; reflexivity|reflexivity| |vm_compute; reflexivity|done].
    split; [split_and!; vm_decide|]. intros i Hi. assert (i = 0) as -> by (change (t_sectors _ Root) with 1 in Hi; lia). vm_decide.
  - reflexivity.
  - exists 0, (card_image card_demo). split; [done|]. split; [done|]. split; [done|]. split; [unfold sectors_ok; vm_decide|unfold small; vm_decide].
  - apply card_volume_on.
  - split; vm_decide.
  - split; [vm_compute; reflexivity|]. intros E. vm_compute in E. discriminate.
  - constructor.
    + right. split; [split_and!|]; vm_decide.
    + vm_decide.
    + intros i Hi. assert (i = 0) as -> by (change (nsects _ [2]) with 1 in Hi; lia). vm_decide.
Qed.

Lemma file_opened_witness : returns (f_open (Fil false 0 0 0 0 0 0 0 0 0 0 (replicate 512 0)) (chars "vmlinux") FA_READ) card_vols (fun '(r, fp', o') s' =>
  r = FR_OK /\ contents (fs (vol_of s' 0x8000)) fp' (card_image card_demo) [2] = card_demo).
Proof.
  eapply returns_mono; [apply (file_opened card_vols (chars "vmlinux") 0x8000 FA_READ (card_image card_demo) 2 card_boot Root 1 [2] (Fil false 0 0 0 0 0 0 0 0 0 0 (replicate 512 0)) card_file)|].
  - reflexivity.
  - apply Forall_replicate. unfold inu. lia.
  - intros [[r fp'] o'] s' (-> & _ & _ & _ & E & _). split; [done|]. rewrite E. vm_compute. reflexivity.
Defined.

Lemma open_refused_witness : returns (f_open (Fil false 0 0 0 0 0 0 0 0 0 0 (replicate 512 0)) (chars "vmlinux") FA_READ)
  (Vols ∅ [0x8000; 0] 0 0 (<[0 := replicate 512 0]> (card_image card_demo))) (fun '(r, fp', _) s' => r = FR_NO_FILESYSTEM /\ fs_type (fs (vol_of s' 0x8000)) = 0).
Proof.
  eapply returns_mono; [apply (open_refused (Vols ∅ [0x8000; 0] 0 0 (<[0 := replicate 512 0]> (card_image card_demo))) (chars "vmlinux") FA_READ
    (Fil false 0 0 0 0 0 0 0 0 0 0 (replicate 512 0)) FR_NO_FILESYSTEM (Some 0x8000))|].
  - eapply (refused_volume _ _ _ 0x8000 (<[0 := replicate 512 0]> (card_image card_demo)) (replicate 512 0)); [done|by left| |reflexivity|vm_compute; reflexivity].
    exists 0, (<[0 := replicate 512 0]> (card_image card_demo)). split; [done|]. split; [done|]. split; [done|]. split; [unfold sectors_ok; vm_decide|unfold small; vm_decide].
  - intros [[r fp'] o'] s' (-> & _ & _ & T & _). done.
Defined.
