(* ===== verification/FatName.v ===== *)
(** * Calls on names, directories and the volume ([driver/ff.c])

    The rest of the interface of FatFs: the current drive and directory, directory objects,
    free clusters, deleting, creating directories, renaming, attributes, time stamps and
    labels, each composed of the functions of [Fat], [FatDir] and [FatOpen] the way the code
    does it. *)

From Stdlib Require Import ZArith Lia Bool List.
From stdpp Require Import base gmap list.
From S2P Require Import Prelude Machine Memory Disk SdCard Fat FatFile FatDir FatOpen.
Open Scope Z_scope.
Open Scope word_scope.

(** ** Constants *)
Definition FR_NOT_ENOUGH_CORE : Z := 17.
Definition AM_HID : Z := 0x02.
Definition AM_SYS : Z := 0x04.
Definition BS_VolID : Z := 39.
Definition BS_VolID32 : Z := 67.

(** An open directory: the object and the file system object it points to, 0 when it is not
    valid. *)
Definition dir_handle : Type := DIR * Z.

Section Names.
Context {D : Type} `{BlockDevice D}.
Abbreviation state := (vols D).

(** The body of a call that starts with [find_volume] and a directory object of its own. *)
Definition on_path (path : list Z) (wmode : Z) (m : list Z -> ST (dj_state D) Z) : ST state Z :=
  let! r := find_volume path wmode in
  let '(res, o, path) := r : Z * Z * list Z in
  if res =? FR_OK then on_obj o (with_dir fresh_dir (m path)) else ret res.

(** ** Current drive and directory *)
Definition f_chdrive (path : list Z) : ST state Z :=
  let! s := gets (fun s => s) in
  let (vol, _) := get_ldnumber (CurrVol s) path in
  if vol <? 0 then ret FR_INVALID_DRIVE
  else modify (fun s => Vols (objs s) (FatFs s) (Fsid s) (u8 vol) (drive s)) ;; ret FR_OK.

Definition f_chdir (path : list Z) : ST state Z := on_path path 0 (fun path =>
  let! res := follow_path path in
  let! p := get_dj in
  let! f := dj_fs in
  let! res :=
    (if res =? FR_OK then
       match dir p with
       | None => on_dvol (upd_fs (set_cdir (d_sclust p))) ;; ret res
       | Some d =>
           if negb ((byte_at (win f) (d + DIR_Attr) &&& AM_DIR) =? 0) then on_dvol (upd_fs (set_cdir (ld_clust f (win f) d))) ;; ret res
           else ret FR_NO_PATH
       end
     else ret res) in
  ret (if res =? FR_NO_FILE then FR_NO_PATH else res)).

(** Find the entry that links to the child directory [ccl]. *)
Fixpoint find_child (fuel : nat) (ccl : Z) : ST (dj_state D) Z :=
  match fuel with
  | O => hang
  | S fuel' =>
      let! res := dir_read false in
      if negb (res =? FR_OK) then ret res
      else
        let! p := get_dj in
        let! f := dj_fs in
        if ccl =? ld_clust f (win f) (default 0 (dir p)) then ret res
        else
          let! res := dir_next false in
          if res =? FR_OK then find_child fuel' ccl else ret res
  end.

(** The name of the directory in its parent, where the object ends. *)
Definition parent_name (ccl : Z) : ST (dj_state D) (Z + list Z) :=
  let! res := dir_sdi 1 in
  if negb (res =? FR_OK) then ret (inl res)
  else
    let! res := dir_read false in
    if negb (res =? FR_OK) then ret (inl res)
    else
      let! f := dj_fs in
      upd_dj (fun p => set_d_sclust (ld_clust f (win f) (default 0 (dir p))) p) ;;
      let! res := dir_sdi 0 in
      if negb (res =? FR_OK) then ret (inl res)
      else
        let! res := find_child (Z.to_nat 65536) ccl in
        let res := if res =? FR_NO_FILE then FR_INT_ERR else res in
        if negb (res =? FR_OK) then ret (inl res)
        else
          let! p := get_dj in
          let! f := dj_fs in
          ret (inr (i_fname (get_fileinfo (win f) p (Filinfo 0 0 0 0 [])))).

(** Write bytes to a buffer the caller gave: beyond its end the behaviour is not defined. *)
Definition put_chars {S} (i : Z) (l : list Z) (buff : list Z) : ST S (list Z) :=
  if (0 <=? i) && (i + Z.of_nat (length l) <=? Z.of_nat (length buff)) then ret (copy_to i l buff) else undef.

(** Push the names of the directories up to the root at the end of the buffer: the result, the
    bottom of the stack and the buffer.  A level takes a byte at least. *)
Fixpoint cwd_loop (levels : nat) (i : Z) (buff : list Z) : ST (dj_state D) (Z * Z * list Z) :=
  let! p := get_dj in
  let ccl := d_sclust p in
  if ccl =? 0 then ret (FR_OK, i, buff)
  else
    match levels with
    | O => hang
    | S levels' =>
        let! r := parent_name ccl in
        match r with
        | inl res => ret (res, i, buff)
        | inr name =>
            let n := Z.of_nat (length name) in
            if i <? n + 3 then ret (FR_NOT_ENOUGH_CORE, i, buff)
            else
              let! buff := put_chars (i - n) name buff in
              let! buff := put_chars (i - n - 1) [47] buff in
              cwd_loop levels' (i - n - 1) buff
        end
    end.

(** The result and the buffer; [buff] has the bytes the caller has room for, [len] is the size
    it states. *)
Definition f_getcwd (buff : list Z) (len : Z) : ST state (Z * list Z) :=
  let! buff := put_chars 0 [0] buff in
  let! s := gets (fun s => s) in
  let! r := find_volume [] 0 in
  let '(res, o, _) := r : Z * Z * list Z in
  if res =? FR_OK then
    let! f := gets (fun s => fs (vol_of s o)) in
    let! r := on_obj o (with_dir (set_d_sclust (cdir f) fresh_dir) (cwd_loop (Z.to_nat len) len buff)) in
    let '(res, i, buff) := r : Z * Z * list Z in
    if res =? FR_OK then
      let! buff := put_chars 0 [48 + CurrVol s; 58] buff in
      if i =? len then
        let! buff := put_chars 2 [47; 0] buff in ret (res, buff)
      else
        let! buff := put_chars 2 (slice i (len - i) buff) buff in
        let! buff := put_chars (2 + (len - i)) [0] buff in ret (res, buff)
    else
      let! buff := put_chars 0 [0] buff in ret (res, buff)
  else ret (res, buff).

(** ** Directory objects *)
Definition validate_dir (h : dir_handle) : ST state Z := gets (fun s =>
  let f := fs (vol_of s (snd h)) in
  if (snd h =? 0) || (fs_type f =? 0) || negb (fs_id f =? d_id (fst h)) || negb ((blk_status (drv f) (drive s) &&& STA_NOINIT) =? 0)
  then FR_INVALID_OBJECT else FR_OK).

(** Run code on the object of an open directory and give it back; [INIT_BUF] gives it a name
    buffer on the stack. *)
Definition on_dir {A} (h : dir_handle) (m : ST (dj_state D) A) : ST state (A * DIR) :=
  on_obj (snd h) (with_dir (set_fn (replicate 12 0) (fst h)) (let! a := m in let! p := get_dj in ret (a, p))).

Definition f_opendir (h : dir_handle) (path : list Z) : ST state (Z * dir_handle) :=
  let! r := find_volume path 0 in
  let '(res, o, path) := r : Z * Z * list Z in
  if res =? FR_OK then
    let! rp := on_dir (fst h, o)
      (let! res := follow_path path in
       let! p := get_dj in
       let! f := dj_fs in
       let! res :=
         (if res =? FR_OK then
            let! res :=
              match dir p with
              | Some d =>
                  if negb ((byte_at (win f) (d + DIR_Attr) &&& AM_DIR) =? 0) then upd_dj (set_d_sclust (ld_clust f (win f) d)) ;; ret res
                  else ret FR_NO_PATH
              | None => ret res
              end in
            if res =? FR_OK then
              upd_dj (fun p => Dir (fs_id f) (index p) (d_sclust p) (d_clust p) (sect p) (dir p) (fn p)) ;;
              dir_sdi 0
            else ret res
          else ret res) in
       ret (if res =? FR_NO_FILE then FR_NO_PATH else res)) in
    let (res, p) := rp : Z * DIR in
    ret (res, (p, if res =? FR_OK then o else 0))
  else ret (res, (fst h, 0)).

Definition f_closedir (h : dir_handle) : ST state (Z * dir_handle) :=
  let! res := validate_dir h in
  ret (res, if res =? FR_OK then (fst h, 0) else h).

(** Report the entry [dir_read] stopped at, or the end of the directory, and go on to the
    next. *)
Definition report_item (res : Z) (i : FILINFO) : ST (dj_state D) (Z * option FILINFO) :=
  let! res := (if res =? FR_NO_FILE then upd_dj (set_sect 0) ;; ret FR_OK else ret res) in
  if res =? FR_OK then
    let! p := get_dj in
    let! f := dj_fs in
    let i := get_fileinfo (win f) p i in
    let! res := dir_next false in
    let! res := (if res =? FR_NO_FILE then upd_dj (set_sect 0) ;; ret FR_OK else ret res) in
    ret (res, Some i)
  else ret (res, Some i).

(** With the information to fill in, or [None] to rewind. *)
Definition f_readdir (h : dir_handle) (fno : option FILINFO) : ST state (Z * dir_handle * option FILINFO) :=
  let! res := validate_dir h in
  if res =? FR_OK then
    let! rp := on_dir h
      match fno with
      | None => let! res := dir_sdi 0 in ret (res, fno)
      | Some i => let! res := dir_read false in report_item res i
      end in
    let '(res, fno, p) := rp : Z * option FILINFO * DIR in
    ret (res, (p, snd h), fno)
  else ret (res, h, fno).

(** ** Free clusters *)

(** Search the FAT12 table by the regular routine: [k] clusters from [clst]. *)
Fixpoint scan_entries (k : nat) (clst nfree : Z) : ST (volume D) (Z * Z) :=
  match k with
  | O => ret (FR_OK, nfree)
  | S k' =>
      let! stat := get_fat clst in
      if stat =? 0xFFFFFFFF then ret (FR_DISK_ERR, nfree)
      else if stat =? 1 then ret (FR_INT_ERR, nfree)
      else
        let nfree := if stat =? 0 then u32 (nfree + 1) else nfree in
        scan_entries k' (clst + 1) nfree
  end.

(** Accelerated search: [k] entries left, [p] the offset in the window, [i] bytes of it left. *)
Fixpoint scan_sectors (k : nat) (fat sect i p nfree : Z) : ST (volume D) (Z * Z) :=
  match k with
  | O => ret (FR_OK, nfree)
  | S k' =>
      let! r :=
        (if i =? 0 then
           let! res := move_window sect in
           if negb (res =? FR_OK) then ret (inl res) else ret (inr (u32 (sect + 1), SS, 0))
         else ret (inr (sect, i, p))) in
      match r with
      | inl res => ret (res, nfree)
      | inr (sect, i, p) =>
          let! f := get_fs in
          if fat =? FS_FAT16 then
            scan_sectors k' fat sect (i - 2) (p + 2) (if LD_WORD (win f) p =? 0 then u32 (nfree + 1) else nfree)
          else
            scan_sectors k' fat sect (i - 4) (p + 4) (if (LD_DWORD (win f) p &&& 0x0FFFFFFF) =? 0 then u32 (nfree + 1) else nfree)
      end
  end.

Definition count_clusters : ST (volume D) (Z * Z) :=
  let! f := get_fs in
  if free_clust f <=? u32 (n_fatent f - 2) then ret (FR_OK, free_clust f)
  else
    let! r :=
      (if fs_type f =? FS_FAT12 then scan_entries (Z.to_nat (n_fatent f - 2)) 2 0
       else scan_sectors (Z.to_nat (n_fatent f)) (fs_type f) (fatbase f) 0 0 0) in
    let (res, nfree) := r : Z * Z in
    upd_fs (set_free_clust nfree) ;;
    upd_fs (fun f => set_fsi_flag (fsi_flag f ||| 1) f) ;;
    ret (res, nfree).

(** The result, the number of clusters and the file system object. *)
Definition f_getfree (path : list Z) (nclst : Z) : ST state (Z * Z * Z) :=
  let! r := find_volume path 0 in
  let '(res, o, _) := r : Z * Z * list Z in
  if res =? FR_OK then
    let! rn := on_obj o count_clusters in
    let (res, nclst) := rn : Z * Z in
    ret (res, nclst, o)
  else ret (res, nclst, o).

(** ** Deleting and creating *)

(** The result of [follow_path] when the dot entries are refused. *)
Definition no_dots (res : Z) (p : DIR) : Z :=
  if (res =? FR_OK) && negb ((byte_at (fn p) NSFLAG &&& NS_DOT) =? 0) then FR_INVALID_NAME else res.

(** May the sub-directory at [dclst] be removed? *)
Definition check_empty (dclst : Z) : ST (dj_state D) Z :=
  let! p := get_dj in
  let! f := dj_fs in
  if dclst =? cdir f then ret FR_DENIED
  else on_dvol (with_dir (set_d_sclust dclst p)
    (let! res := dir_sdi 2 in
     if res =? FR_OK then
       let! res := dir_read false in
       let res := if res =? FR_OK then FR_DENIED else res in
       ret (if res =? FR_NO_FILE then FR_OK else res)
     else ret res)).

(** Remove the object the path leads to. *)
Definition unlink_object (path : list Z) : ST (dj_state D) Z :=
  let! res := follow_path path in
  let! p := get_dj in
  let! f := dj_fs in
  let res := no_dots res p in
  if res =? FR_OK then
    match dir p with
    | None => ret FR_INVALID_NAME
    | Some d =>
        let attr := byte_at (win f) (d + DIR_Attr) in
        if negb ((attr &&& AM_RDO) =? 0) then ret FR_DENIED
        else
          let dclst := ld_clust f (win f) d in
          let! res := (if negb (dclst =? 0) && negb ((attr &&& AM_DIR) =? 0) then check_empty dclst else ret FR_OK) in
          if res =? FR_OK then
            let! res := dir_remove in
            let! res := (if (res =? FR_OK) && negb (dclst =? 0) then on_dvol (remove_chain dclst) else ret res) in
            if res =? FR_OK then on_dvol sync_fs else ret res
          else ret res
    end
  else ret res.

Definition f_unlink (path : list Z) : ST state Z := on_path path 1 unlink_object.

(** The first sector of a new directory: the entries . and .. *)
Definition dot_entries (f : FATFS) (dcl pcl : Z) : list Z :=
  let w := replicate 512 0 in
  let w := copy_to DIR_Name (replicate 11 32) w in
  let w := put_byte DIR_Name 46 w in
  let w := put_byte DIR_Attr AM_DIR w in
  let w := ST_DWORD DIR_WrtTime GET_FATTIME w in
  let w := st_clust 0 dcl w in
  let w := copy_to SZ_DIRE (slice 0 SZ_DIRE w) w in
  let w := put_byte (SZ_DIRE + 1) 46 w in
  let pcl := if (fs_type f =? FS_FAT32) && (pcl =? dirbase f) then 0 else pcl in
  st_clust SZ_DIRE pcl w.

(** Write dot entries and clear following sectors: [n] are left. *)
Fixpoint write_table (n : nat) (dsc : Z) : ST (volume D) Z :=
  match n with
  | O => ret FR_OK
  | S n' =>
      upd_fs (set_winsect dsc) ;;
      upd_fs (set_wflag 1) ;;
      let! res := sync_window in
      if negb (res =? FR_OK) then ret res
      else upd_fs (set_win (replicate 512 0)) ;; write_table n' (u32 (dsc + 1))
  end.

(** Allocate the table of a new directory whose parent is at [pcl]: the result and its
    cluster. *)
Definition new_table (pcl : Z) : ST (volume D) (Z * Z) :=
  let! dcl := create_chain 0 in
  let res := if dcl =? 0xFFFFFFFF then FR_DISK_ERR else if dcl =? 1 then FR_INT_ERR else if dcl =? 0 then FR_DENIED else FR_OK in
  let! res := (if res =? FR_OK then sync_window else ret res) in
  let! res :=
    (if res =? FR_OK then
       let! f := get_fs in
       upd_fs (set_win (dot_entries f dcl pcl)) ;;
       write_table (Z.to_nat (csize f)) (clust2sect f dcl)
     else ret res) in
  ret (res, dcl).

Definition f_mkdir (path : list Z) : ST state Z := on_path path 1 (fun path =>
  let! res := follow_path path in
  let! p := get_dj in
  let res := if res =? FR_OK then FR_EXIST else res in
  let res := if (res =? FR_NO_FILE) && negb ((byte_at (fn p) NSFLAG &&& NS_DOT) =? 0) then FR_INVALID_NAME else res in
  if res =? FR_NO_FILE then
    let! rd := on_dvol (new_table (d_sclust p)) in
    let (res, dcl) := rd : Z * Z in
    let! res := (if res =? FR_OK then dir_register else ret res) in
    if negb (res =? FR_OK) then
      on_dvol (remove_chain dcl) ;; ret res
    else
      edit_entry (fun d => put_byte (d + DIR_Attr) AM_DIR) ;;
      edit_entry (fun d => ST_DWORD (d + DIR_WrtTime) GET_FATTIME) ;;
      edit_entry (fun d => st_clust d dcl) ;;
      on_dvol (upd_fs (set_wflag 1)) ;;
      on_dvol sync_fs
  else ret res).

(** ** Attributes, time stamps and renaming *)

(** Change the entry the path leads to, and flush. *)
Definition change_entry (path : list Z) (g : Z -> list Z -> list Z) : ST (dj_state D) Z :=
  let! res := follow_path path in
  let! p := get_dj in
  let res := no_dots res p in
  if res =? FR_OK then
    match dir p with
    | None => ret FR_INVALID_NAME
    | Some d => edit_entry g ;; on_dvol (upd_fs (set_wflag 1)) ;; on_dvol sync_fs
    end
  else ret res.

Definition f_chmod (path : list Z) (attr mask : Z) : ST state Z := on_path path 1 (fun path =>
  let mask := mask &&& (AM_RDO ||| AM_HID ||| AM_SYS ||| AM_ARC) in
  change_entry path (fun d w => put_byte (d + DIR_Attr) ((attr &&& mask) ||| bitand_not 8 (byte_at w (d + DIR_Attr)) mask) w)).

Definition f_utime (path : list Z) (fno : FILINFO) : ST state Z := on_path path 1 (fun path =>
  change_entry path (fun d w => ST_WORD (d + DIR_WrtDate) (i_fdate fno) (ST_WORD (d + DIR_WrtTime) (i_ftime fno) w))).

(** Update the .. entry of a directory that moved: [p] is the object of the new entry. *)
Definition update_parent (p : DIR) : ST (volume D) Z :=
  let! f := get_fs in
  let dw := clust2sect f (ld_clust f (win f) (default 0 (dir p))) in
  if dw =? 0 then ret FR_INT_ERR
  else
    let! res := move_window dw in
    let! f := get_fs in
    if (res =? FR_OK) && (byte_at (win f) (SZ_DIRE * 1 + 1) =? 46) then
      upd_fs (fun f => set_win (st_clust (SZ_DIRE * 1) (d_sclust p) (win f)) f) ;;
      upd_fs (set_wflag 1) ;;
      ret res
    else ret res.

(** The new entry: the saved bytes from the attribute on, except the name. *)
Definition moved_entry (saved : list Z) (d : Z) (w : list Z) : list Z :=
  let w := copy_to (d + 13) (slice 2 19 saved) w in
  put_byte (d + DIR_Attr) (byte_at saved 0 ||| AM_ARC) w.

Definition f_rename (path_old path_new : list Z) : ST state Z :=
  let! cur := gets CurrVol in
  on_path path_old 1 (fun path_old =>
    let! res := follow_path path_old in
    let! djo := get_dj in
    let! f := dj_fs in
    let res := no_dots res djo in
    if res =? FR_OK then
      match dir djo with
      | None => ret FR_NO_FILE
      | Some d =>
          let saved := slice (d + DIR_Attr) 21 (win f) in
          let (vol, path_new) := get_ldnumber cur path_new in
          let! res := (if 0 <=? vol then follow_path path_new else ret FR_INVALID_DRIVE) in
          let res := if res =? FR_OK then FR_EXIST else res in
          if res =? FR_NO_FILE then
            let! res := dir_register in
            if res =? FR_OK then
              edit_entry (moved_entry saved) ;;
              on_dvol (upd_fs (set_wflag 1)) ;;
              let! djn := get_dj in
              let! a := dj_byte DIR_Attr in
              let! res := (if negb ((a &&& AM_DIR) =? 0) && negb (d_sclust djo =? d_sclust djn) then on_dvol (update_parent djn) else ret res) in
              if res =? FR_OK then
                let! res := on_dvol (with_dir djo dir_remove) in
                if res =? FR_OK then on_dvol sync_fs else ret res
              else ret res
            else ret res
          else ret res
      end
    else ret res).

(** ** Labels *)

(** Remove the trailing spaces of the label in the buffer. *)
Fixpoint trim_label (j : nat) (l : list Z) : list Z :=
  let l := put_byte (Z.of_nat j) 0 l in
  match j with
  | O => l
  | S j' => if byte_at l (Z.of_nat j') =? 32 then trim_label j' l else l
  end.

(** The buffer of the label and the serial number, where they are asked for. *)
Definition f_getlabel (path : list Z) (label : option (list Z)) (vsn : option Z) : ST state (Z * option (list Z) * option Z) :=
  let! r := find_volume path 0 in
  let '(res, o, _) := r : Z * Z * list Z in
  if res =? FR_OK then
    on_obj o (with_dir fresh_dir
      (let! rl :=
         match label with
         | None => ret (res, label)
         | Some l =>
             upd_dj (set_d_sclust 0) ;;
             let! res := dir_sdi 0 in
             if res =? FR_OK then
               let! res := dir_read true in
               let! p := get_dj in
               let! f := dj_fs in
               ret (if res =? FR_OK then (res, Some (trim_label 11 (copy_to 0 (slice (default 0 (dir p)) 11 (win f)) l)))
                    else if res =? FR_NO_FILE then (FR_OK, Some (put_byte 0 0 l)) else (res, label))
             else ret (res, label)
         end in
       let (res, label) := rl : Z * option (list Z) in
       match vsn with
       | Some _ =>
           if res =? FR_OK then
             let! f := dj_fs in
             let! res := on_dvol (move_window (volbase f)) in
             let! f := dj_fs in
             ret (res, label, if res =? FR_OK then Some (LD_DWORD (win f) (if fs_type f =? FS_FAT32 then BS_VolID32 else BS_VolID)) else vsn)
           else ret (res, label, vsn)
       | None => ret (res, label, vsn)
       end))
  else ret (res, label, vsn).

(** Illegal characters of a label. *)
Definition bad_label_chr (c : Z) : bool := bool_decide (c ∈ [34; 42; 43; 44; 46; 58; 59; 60; 61; 62; 63; 91; 93; 124; 127]).

(** The characters of the label in directory form, [None] for an invalid one. *)
Fixpoint label_chars (l : list Z) (j : Z) : option (list Z) :=
  match l with
  | [] => Some []
  | w :: l' =>
      let w := if IsLower w then w - 0x20 else w in
      let w := if 0x80 <=? w then 0 else w in
      if (w =? 0) || bad_label_chr w || (11 <=? j) then None
      else match label_chars l' (j + 1) with Some r => Some (w :: r) | None => None end
  end.

(** Remove trailing spaces. *)
Fixpoint trim_spaces (l : list Z) : list Z :=
  match l with
  | [] => []
  | c :: l' => match trim_spaces l' with [] => if c =? 32 then [] else [c] | r => c :: r end
  end.

(** The label in directory form; [vn[0]] is 0 for an empty one. *)
Definition volume_name (label : list Z) : option (list Z) :=
  match trim_spaces label with
  | [] => Some (replicate 11 0)
  | l =>
      match label_chars l 0 with
      | Some r => let vn := r ++ replicate (11 - length r) 32 in if byte_at vn 0 =? DDEM then None else Some vn
      | None => None
      end
  end.

Definition set_label (vn : list Z) : ST (dj_state D) Z :=
  upd_dj (set_d_sclust 0) ;;
  let! res := dir_sdi 0 in
  if res =? FR_OK then
    let! res := dir_read true in
    if res =? FR_OK then
      (if negb (byte_at vn 0 =? 0) then
         edit_entry (fun d => copy_to d vn) ;; edit_entry (fun d => ST_DWORD (d + DIR_WrtTime) GET_FATTIME)
       else edit_entry (fun d => put_byte d DDEM)) ;;
      on_dvol (upd_fs (set_wflag 1)) ;;
      on_dvol sync_fs
    else if res =? FR_NO_FILE then
      if negb (byte_at vn 0 =? 0) then
        let! res := dir_alloc 1 in
        if res =? FR_OK then
          edit_entry (fun d => copy_to d (replicate 32 0)) ;;
          edit_entry (fun d => copy_to d vn) ;;
          edit_entry (fun d => put_byte (d + DIR_Attr) AM_VOL) ;;
          edit_entry (fun d => ST_DWORD (d + DIR_WrtTime) GET_FATTIME) ;;
          on_dvol (upd_fs (set_wflag 1)) ;;
          on_dvol sync_fs
        else ret res
      else ret FR_OK
    else ret res
  else ret res.

Definition f_setlabel (label : list Z) : ST state Z := on_path label 1 (fun label =>
  match volume_name label with Some vn => set_label vn | None => ret FR_INVALID_NAME end).
End Names.

(** ** Reading a directory *)

(** The entries [dir_read] stops at: labels, or files and directories. *)
Definition ent_shown (vol : bool) (e : list Z) : bool :=
  let a := byte_at e DIR_Attr &&& AM_MASK in
  negb (byte_at e DIR_Name =? DDEM) && negb (a =? AM_LFN) && Bool.eqb (bitand_not 8 a AM_ARC =? AM_VOL) vol.
Fixpoint next_shown (vol : bool) (es : list (list Z)) : option nat :=
  match es with
  | [] => None
  | e :: es' => if ent_end e then None else if ent_shown vol e then Some O else option_map S (next_shown vol es')
  end.

Section Listing.
Context {D : Type} `{BlockLaws D}.
Implicit Types (v : volume D) (p : DIR) (L : sectors).

Definition read_to vol v t L i (r : Z) v' p' : Prop :=
  match next_shown vol (drop (Z.to_nat i) (dirents (fs v) L t)) with
  | Some k => r = FR_OK /\ dir_at (fs v) t (i + Z.of_nat k) p' /\ shows v' t L (i + Z.of_nat k) /\ i + Z.of_nat k < t_entries (fs v) t
  | None => r = FR_NO_FILE
  end.

Lemma same_name_trans p p1 p2 : same_name p p1 -> same_name p1 p2 -> same_name p p2.
Proof. intros (A & B & C) (A' & B' & C'). unfold same_name. split_and!; congruence. Qed.

Lemma read_entries_spec vol fuel : forall v p L t i res, vol_rep v L -> placed (fs v) L (d_sclust p) t -> dir_at (fs v) t i p -> 0 <= i < t_entries (fs v) t -> t_entries (fs v) t - i <= Z.of_nat fuel ->
  returns (read_entries fuel vol res) (Dj v p) (fun r s' => exists v' p', s' = Dj v' p' /\ vol_rep v' L /\ window_moved (fs v) (fs v') /\ same_name p p' /\ read_to vol v t L i r v' p').
Proof.
  induction fuel as [|fuel IH]; intros v p L t i res R P A Hi Hf; [lia|]. cbn [read_entries]. eapply returns_step; [reflexivity|]. cbn [dobj].
  assert (Hq : 0 <= i / 16 < t_sectors (fs v) t) by (unfold t_entries in Hi; split; [apply Z.div_pos; lia|apply Z.div_lt_upper_bound; lia]).
  rewrite (proj2 (Z.eqb_neq (sect p) 0)) by (destruct A as (_ & -> & _); destruct (directory_sector _ _ _ _ (proj1 R) P (i / 16) Hq); lia).
  eapply returns_bind; [by apply (show_entry v p L t i)|]. intros r s' (-> & v1 & -> & R1 & W1 & Sh). cbn [Z.eqb negb FR_OK].
  pose proof (place_same _ _ (proj1 W1)) as (S1 & _ & _ & P1 & D1 & Es).
  assert (Ed : forall k, 0 <= k < 32 -> byte_at (win (fs v1)) (default 0 (dir p) + k) = byte_at (dirent (fs v1) L t i) k).
  { intros k Hk. destruct A as (_ & _ & _ & ->). cbn. apply shown; (done || lia). }
  assert (Hi1 : 0 <= i < t_entries (fs v1) t) by (unfold t_entries; by rewrite S1). unfold read_to. rewrite <- (Es L t), dirents_drop by done. cbn [next_shown].
  eapply returns_step; [reflexivity|]. cbn [dobj dvol]. rewrite Ed by (unfold DIR_Name; lia). fold (ent_end (dirent (fs v1) L t i)). destruct (ent_end _).
  { apply returns_ret. exists v1, p. by split_and!. }
  eapply returns_step; [reflexivity|]. cbn [dobj dvol]. rewrite Ed by (unfold DIR_Attr; lia). fold (ent_shown vol (dirent (fs v1) L t i)). destruct (ent_shown _ _).
  { apply returns_ret. exists v1, p. rewrite Z.add_0_r. split_and!; (done || lia). }
  eapply returns_bind; [apply (dir_next_spec v1 p L t i false R1 (P1 _ _ _ P) (D1 _ _ _ A) Hi1 ltac:(done))|]. intros r s' (v2 & p2 & -> & R2 & W2 & N2 & Hr).
  destruct (Z.ltb_spec (i + 1) (t_entries (fs v1) t)) as [Lt|Ge].
  - destruct Hr as [-> A2]. cbn [Z.eqb negb FR_OK]. pose proof (place_same _ _ (proj1 W2)) as (S2 & _ & _ & P2 & D2 & Es2).
    assert (P3 : placed (fs v2) L (d_sclust p2) t) by (destruct N2 as (_ & -> & _); auto).
    eapply returns_mono; [apply (IH v2 p2 L t (i + 1) _ R2 P3 (D2 _ _ _ A2)); unfold t_entries in *; rewrite S2; [lia|rewrite S1; lia]|].
    cbv beta. intros r s' (v3 & p3 & -> & R3 & W3 & N3 & F3). exists v3, p3. split; [done|]. split; [done|]. split; [eapply window_moved_trans; [exact W1|by eapply window_moved_trans]|].
    split; [by eapply same_name_trans|]. unfold read_to in F3. rewrite Es2 in F3. destruct (next_shown vol (drop _ _)) as [k|]; cbn [option_map]; [|done].
    destruct F3 as (-> & A3 & Sh3 & Hk). replace (i + Z.of_nat (S k)) with (i + 1 + Z.of_nat k) by lia. split_and!; [done| |done|unfold t_entries in *; rewrite S2, S1 in Hk; lia].
    destruct (place_same _ _ (proj1 (window_moved_sym _ _ (window_moved_trans _ _ _ W1 W2)))) as (_ & _ & _ & _ & D3 & _). by apply D3.
  - rewrite Hr. cbn [Z.eqb negb FR_OK FR_NO_FILE]. apply returns_ret. exists v2, p2. split_and!; [done|done|by eapply window_moved_trans|done|].
    rewrite drop_ge by (rewrite dirents_length; lia). done.
Qed.

Lemma dir_read_spec vol v p L t i : vol_rep v L -> placed (fs v) L (d_sclust p) t -> dir_at (fs v) t i p -> 0 <= i < t_entries (fs v) t ->
  returns (dir_read vol) (Dj v p) (fun r s' => exists v' p', s' = Dj v' p' /\ vol_rep v' L /\ window_moved (fs v) (fs v') /\ same_name p p' /\ read_to vol v t L i r v' p' /\ (r <> FR_OK -> sect p' = 0)).
Proof.
  intros R P A Hi. unfold dir_read. eapply returns_bind; [apply (read_entries_spec vol (Z.to_nat 65537) v p L t i); try done; unfold t_entries in *; lia|].
  intros r s' (v1 & p1 & -> & R1 & W1 & N1 & F). destruct (Z.eqb_spec r FR_OK) as [->|Nr]; cbn [negb].
  - eapply returns_step; [reflexivity|]. apply returns_ret. exists v1, p1. by split_and!.
  - eapply returns_step; [reflexivity|]. apply returns_ret. eexists v1, _. split; [reflexivity|]. split; [done|]. split; [done|]. split; [done|]. split; [|done].
    unfold read_to in *. destruct (next_shown _ _); [by destruct F|done].
Qed.

(** An object at the end of its directory. *)
Lemma dir_read_end vol v p : sect p = 0 -> returns (dir_read vol) (Dj v p) (fun r s' => r = FR_NO_FILE /\ s' = Dj v (set_sect 0 p)).
Proof.
  intros E. unfold dir_read. assert (exists n, Z.to_nat 65537 = S n) as [n ->] by (exists (Z.to_nat 65536); lia). cbn [read_entries]. eapply returns_step; [unfold bind at 1; cbn; rewrite E; reflexivity|].
  cbn [Z.eqb negb FR_OK FR_NO_FILE]. eapply returns_step; [reflexivity|]. by apply returns_ret.
Qed.
Lemma dir_next_end v p stretch : sect p = 0 -> returns (dir_next stretch) (Dj v p) (fun r s' => r = FR_NO_FILE /\ s' = Dj v p).
Proof. intros E. unfold dir_next. do 2 (eapply returns_step; [reflexivity|]). cbn [dobj]. rewrite E. change (0 =? 0) with true. rewrite orb_true_r. by apply returns_ret. Qed.

(** What an entry tells about its file. *)
Definition ent_info (e : list Z) : FILINFO := Filinfo (LD_DWORD e DIR_FileSize) (LD_WORD e DIR_WrtDate) (LD_WORD e DIR_WrtTime) (byte_at e DIR_Attr) (name_chars (take 11 e) 0).
(** The entries of a directory that are listed, in order. *)
Fixpoint listing (es : list (list Z)) : list FILINFO :=
  match es with
  | [] => []
  | e :: es' => if ent_end e then [] else if ent_shown false e then ent_info e :: listing es' else listing es'
  end.

Lemma listing_next es : match next_shown false es with
  | Some k => exists e, es !! k = Some e /\ listing es = ent_info e :: listing (drop (S k) es)
  | None => listing es = []
  end.
Proof.
  induction es as [|e es IH]; [done|]. cbn [next_shown listing]. destruct (ent_end e); [done|]. destruct (ent_shown false e); [by exists e|].
  destruct (next_shown false es) as [k|]; cbn [option_map]; [|done]. destruct IH as (x & Ex & El). by exists x.
Qed.

Lemma dir_info v p t L i x : shows v t L i -> dir_at (fs v) t i p -> 0 <= i -> sect p <> 0 -> get_fileinfo (win (fs v)) p x = ent_info (dirent (fs v) L t i).
Proof.
  intros Sh (_ & _ & _ & Ed) Hi Hs. unfold get_fileinfo. rewrite Ed, (proj2 (Z.eqb_neq _ 0)) by done. cbn [negb]. unfold ent_info, LD_DWORD, LD_WORD.
  rewrite <- !Z.add_assoc, !(shown v t L i _ Sh) by (unfold DIR_FileSize, DIR_WrtDate, DIR_WrtTime, DIR_Attr; lia). f_equal. f_equal.
  destruct Sh as [_ E]. unfold dirent. rewrite E. by rewrite take_slice by lia.
Qed.

(** On entry [i], or at the end. *)
Definition at_or_end (f : FATFS) (t : place) (i : option Z) p : Prop := match i with Some i => 0 <= i < t_entries f t /\ dir_at f t i p | None => sect p = 0 end.

(** The handle is open on the directory at [t], on entry [i] or at its end. *)
Record dir_open (s : vols D) (h : dir_handle) (L : sectors) (t : place) (i : option Z) : Prop := {
  do_object : snd h <> 0;
  do_rep : vol_rep (vol_of s (snd h)) L;
  do_id : d_id (fst h) = fs_id (fs (vol_of s (snd h)));
  do_place : placed (fs (vol_of s (snd h))) L (d_sclust (fst h)) t;
  do_at : at_or_end (fs (vol_of s (snd h))) t i (fst h);
}.

Lemma validate_open s h L t i : dir_open s h L t i -> returns (validate_dir h) s (fun r s' => r = FR_OK /\ s' = s).
Proof.
  intros [No (G & _ & st & Hb & _) Ei _ _]. unfold validate_dir. apply returns_gets. split; [|done]. rewrite (proj2 (Z.eqb_neq _ 0) No).
  rewrite (proj2 (Z.eqb_neq (fs_type _) 0)) by (destruct (g_type _ G) as [(-> & _)|[(-> & _)|(-> & _)]]; done).
  rewrite Ei, Z.eqb_refl, (g_drv _ G). destruct (status_bits _ (blk_ready _ _ Hb)) as [S1 _]. change (dsk (vol_of s (snd h))) with (drive s) in S1. by rewrite S1.
Qed.

Lemma on_dir_spec {A} (h : dir_handle) (m : ST (dj_state D) A) s Q : returns m (Dj (vol_of s (snd h)) (set_fn (replicate 12 0) (fst h))) Q ->
  returns (on_dir h m) s (fun '(a, p') s' => exists v', s' = put_vol (snd h) v' s /\ Q a (Dj v' p')).
Proof.
  intros R. unfold on_dir. eapply returns_mono; [apply on_obj_spec, with_dir_spec; eapply returns_bind; [exact R|]|].
  - intros a s1 HQ. eapply returns_step; [reflexivity|]. apply returns_ret. instantiate (1 := fun '(a, p) v => Q a (Dj v p)). by destruct s1.
  - by intros [a p'] s' (v' & -> & HQ); exists v'.
Qed.

(** What is left to list. *)
Definition left_of (f : FATFS) L t (i : option Z) : list (list Z) := match i with Some i => drop (Z.to_nat i) (dirents f L t) | None => [] end.

(** What a call of [f_readdir] does on the directory. *)
Definition item_read v p L t i x (r : Z * option FILINFO) (s' : dj_state D) : Prop :=
  exists v' p', s' = Dj v' p' /\ vol_rep v' L /\ window_moved (fs v) (fs v') /\ same_name p p' /\
  match next_shown false (left_of (fs v) L t i) with
  | Some k => exists e i', left_of (fs v) L t i !! k = Some e /\ r = (FR_OK, Some (ent_info e)) /\ at_or_end (fs v') t i' p' /\ left_of (fs v') L t i' = drop (S k) (left_of (fs v) L t i)
  | None => r = (FR_OK, Some (Filinfo (i_fsize x) (i_fdate x) (i_ftime x) (i_fattrib x) [])) /\ at_or_end (fs v') t None p'
  end.

Lemma report_end v p x : returns (report_item FR_NO_FILE x) (Dj v p) (fun r s' => r = (FR_OK, Some (Filinfo (i_fsize x) (i_fdate x) (i_ftime x) (i_fattrib x) [])) /\ s' = Dj v (set_sect 0 p)).
Proof.
  unfold report_item. eapply returns_step; [reflexivity|]. change (FR_OK =? FR_OK) with true. cbv iota. do 2 (eapply returns_step; [reflexivity|]). cbv zeta. cbn [dobj dvol].
  eapply returns_bind; [by apply dir_next_end|]. intros r s' [-> ->]. eapply returns_step; [reflexivity|]. apply returns_ret. unfold get_fileinfo. cbn [sect set_sect dir]. change (0 =? 0) with true. cbn [negb].
  by destruct (dir p).
Qed.

Lemma item_spec v p L t i x : vol_rep v L -> placed (fs v) L (d_sclust p) t -> at_or_end (fs v) t i p ->
  returns (let! res := dir_read false in report_item res x) (Dj v p) (item_read v p L t i x).
Proof.
  intros R P A. destruct i as [i|]; cbn [at_or_end] in A.
  - destruct A as [Hi A]. eapply returns_bind; [by apply (dir_read_spec false v p L t i)|]. intros r s' (v1 & p1 & -> & R1 & W1 & N1 & F & Fe).
    unfold item_read. cbn [left_of]. unfold read_to in F. destruct (next_shown _ _) as [k|] eqn:Ek.
    + destruct F as (-> & A1 & Sh & Hk). unfold report_item. cbn [Z.eqb FR_OK FR_NO_FILE]. eapply returns_step; [reflexivity|]. change (FR_OK =? FR_OK) with true. cbv iota. do 2 (eapply returns_step; [reflexivity|]). cbn [dobj dvol]. cbv zeta.
      pose proof (place_same _ _ (proj1 W1)) as (S1 & S2 & _ & P1 & D1 & Es). assert (Hk1 : 0 <= i + Z.of_nat k < t_entries (fs v1) t) by (unfold t_entries in *; rewrite S1; lia).
      assert (P2 : placed (fs v1) L (d_sclust p1) t) by (destruct N1 as (_ & -> & _); auto).
      assert (Ns : sect p1 <> 0).
      { destruct A1 as (_ & -> & _). destruct (directory_sector _ _ _ _ (proj1 R) P ((i + Z.of_nat k) / 16)); [|lia]. unfold t_entries in Hk1. rewrite S1 in Hk1. split; [apply Z.div_pos; lia|apply Z.div_lt_upper_bound; lia]. }
      rewrite (dir_info v1 p1 t L _ x Sh (D1 _ _ _ A1)) by (done || lia).
      eapply returns_bind; [apply (dir_next_spec v1 p1 L t (i + Z.of_nat k) false R1 P2 (D1 _ _ _ A1) Hk1 ltac:(done))|]. intros r s' (v2 & p2 & -> & R2 & W2 & N2 & Hr).
      pose proof (place_same _ _ (proj1 W2)) as (S3 & _ & _ & _ & D2 & Es2).
      assert (El : drop (Z.to_nat i) (dirents (fs v) L t) !! k = Some (dirent (fs v1) L t (i + Z.of_nat k))).
      { rewrite <- Es, lookup_drop. unfold dirents. rewrite list_lookup_fmap, lookup_seqZ_lt by lia. cbn. do 2 f_equal. lia. }
      assert (Ed : forall j, j = i + Z.of_nat k + 1 -> drop (Z.to_nat j) (dirents (fs v2) L t) = drop (S k) (drop (Z.to_nat i) (dirents (fs v) L t))).
      { intros j ->. rewrite Es2, Es, drop_drop. f_equal. lia. }
      destruct (Z.ltb_spec (i + Z.of_nat k + 1) (t_entries (fs v1) t)) as [Lt|Ge].
      * destruct Hr as [-> A2]. cbn [Z.eqb FR_OK FR_NO_FILE]. eapply returns_step; [reflexivity|]. apply returns_ret. exists v2, p2. split_and!; [done|done|by eapply window_moved_trans|by eapply same_name_trans|].
        eexists _, (Some (i + Z.of_nat k + 1)). split; [exact El|]. split; [done|]. split; [|by apply Ed]. split; [unfold t_entries in *; rewrite S3; lia|by apply D2].
      * rewrite Hr. eapply returns_step; [reflexivity|]. apply returns_ret. eexists v2, _. split; [reflexivity|]. split; [done|]. split; [by eapply window_moved_trans|]. split; [by eapply same_name_trans|].
        eexists _, None. split; [exact El|]. split; [done|]. split; [done|]. cbn [left_of]. rewrite <- (Ed _ eq_refl). symmetry. apply drop_ge. rewrite dirents_length; unfold t_entries in *; rewrite ?S3; lia.
    + rewrite F. eapply returns_mono; [apply report_end|]. intros r' s' [-> ->]. eexists v1, _. split; [reflexivity|]. split_and!; try done; apply N1.
  - eapply returns_bind; [by apply dir_read_end|]. intros r s' [-> ->]. eapply returns_mono; [apply report_end|]. intros r' s' [-> ->]. eexists v, _. split; [reflexivity|].
    split; [done|]. split; [apply window_moved_refl|]. split; [done|]. cbn [left_of next_shown]. done.
Qed.

Lemma readdir_spec s h L t i x : dir_open s h L t i ->
  returns (f_readdir h (Some x)) s (fun '(r, h', y) s' => snd h' = snd h /\ let f := fs (vol_of s (snd h)) in
    match next_shown false (left_of f L t i) with
    | Some k => exists e i', left_of f L t i !! k = Some e /\ r = FR_OK /\ y = Some (ent_info e) /\ dir_open s' h' L t i' /\ left_of (fs (vol_of s' (snd h))) L t i' = drop (S k) (left_of f L t i)
    | None => r = FR_OK /\ y = Some (Filinfo (i_fsize x) (i_fdate x) (i_ftime x) (i_fattrib x) []) /\ dir_open s' h' L t None
    end).
Proof.
  intros Op. unfold f_readdir. eapply returns_bind; [by eapply validate_open|]. intros r s' [-> ->]. change (FR_OK =? FR_OK) with true. cbv iota. destruct Op as [No R Ei P A].
  eapply returns_bind; [apply on_dir_spec; apply (item_spec _ (set_fn (replicate 12 0) (fst h)) L t i x R P); by destruct i|].
  cbv beta. intros [[r y] p1] s' (v1 & -> & v' & p' & E & R' & W & N & F). injection E as <- <-. apply returns_ret. split; [done|]. cbn [fst snd].
  assert (Mk : forall i', at_or_end (fs v1) t i' p1 -> dir_open (put_vol (snd h) v1 s) (p1, snd h) L t i').
  { intros i' A'. destruct N as (_ & N2 & N3). cbn in N2, N3. pose proof (place_same _ _ (proj1 W)) as (_ & _ & _ & P1 & _).
    constructor; cbn [fst snd]; rewrite ?vol_of_put; [done|done| |by rewrite N2; apply P1|done]. rewrite N3, Ei. symmetry. apply W. }
  cbv zeta. rewrite vol_of_put. destruct (next_shown _ _) as [k|].
  - destruct F as (e & i' & E1 & E2 & A' & E3). injection E2 as -> ->. exists e, i'. split_and!; [done..|by apply Mk|done].
  - destruct F as (E & A'). injection E as -> ->. split_and!; [done..|by apply Mk].
Qed.

(** Calls of [f_readdir] one after the other. *)
Fixpoint readdirs (n : nat) (h : dir_handle) : ST (vols D) (list (Z * option FILINFO)) :=
  match n with
  | O => ret []
  | S n' =>
      let! r := f_readdir h (Some (Filinfo 0 0 0 0 [])) in
      let '(res, h, y) := r : Z * dir_handle * option FILINFO in
      let! l := readdirs n' h in
      ret ((res, y) :: l)
  end.

Lemma readdirs_spec n : forall s h L t i, dir_open s h L t i ->
  returns (readdirs n h) s (fun l s' => l = take n (map (fun e => (FR_OK, Some e)) (listing (left_of (fs (vol_of s (snd h))) L t i)) ++ replicate n (FR_OK, Some (Filinfo 0 0 0 0 []))) /\
    vol_rep (vol_of s' (snd h)) L).
Proof.
  induction n as [|n IH]; intros s h L t i Op; cbn [readdirs]; [apply returns_ret; split; [done|apply Op]|].
  eapply returns_bind; [by apply (readdir_spec s h L t i)|]. intros [[r h'] y] s1 (Eh & F). cbv zeta iota in *. pose proof (listing_next (left_of (fs (vol_of s (snd h))) L t i)) as Ln. destruct (next_shown _ _) as [k|].
  - destruct F as (e & i' & E1 & -> & -> & Op' & E2). destruct Ln as (e' & E3 & ->). rewrite E1 in E3. injection E3 as <-.
    eapply returns_bind; [apply (IH s1 h' L t i' Op')|]. cbv beta. intros l s2 (-> & R2). apply returns_ret. rewrite Eh in *. split; [|done]. rewrite E2. cbn [map app take]. f_equal.
    rewrite replicate_S_end, app_assoc. symmetry. apply take_app_le. rewrite length_app, length_replicate. lia.
  - destruct F as (-> & -> & Op'). rewrite Ln. eapply returns_bind; [apply (IH s1 h' L t None Op')|]. cbv beta. intros l s2 (-> & R2). apply returns_ret. rewrite Eh in *. split; [|done].
    cbn [left_of listing map app replicate take]. done.
Qed.

(** The cluster of the directory a path leads to, [None] when it leads to none. *)
Definition target_dir (f : FATFS) (L : sectors) (x : target) : option Z :=
  match x with
  | Directory c => Some c
  | Entry t name k => let e := dirent f L t (Z.of_nat k) in if Z.testbit (byte_at e DIR_Attr) 4 then Some (ent_cluster f e) else None
  | NoFile _ _ | Fails _ => None
  end.
Definition opendir_error (x : target) : Z := match x with Fails e => e | _ => FR_NO_PATH end.

Lemma leads_fails f L c path e : leads f L c path (Fails e) -> e = FR_INVALID_NAME \/ e = FR_NO_PATH.
Proof. remember (Fails e) as x eqn:Ex. induction 1; simplify_eq; auto. Qed.
Lemma path_leads_fails f L path e : path_leads f L path (Fails e) -> e = FR_INVALID_NAME \/ e = FR_NO_PATH.
Proof. unfold path_leads. destruct (path_start f path) as [c rest]. destruct (chr rest <? 32); [by intros [_ ?]|apply leads_fails]. Qed.

(** Following a path: on to a directory, or to its error. *)
Lemma follow_dir v p L path x : vol_rep v L -> path_leads (fs v) L path x -> length (fn p) = 12%nat ->
  returns (follow_path path) (Dj v p) (fun r s' => exists v' p', s' = Dj v' p' /\ vol_rep v' L /\ window_moved (fs v) (fs v') /\
    match x with
    | Directory c => r = FR_OK /\ dir p' = None /\ d_sclust p' = c
    | Entry t name k => r = FR_OK /\ exists d, dir p' = Some d /\ let e := dirent (fs v) L t (Z.of_nat k) in
        Z.testbit (byte_at (win (fs v')) (d + DIR_Attr)) 4 = Z.testbit (byte_at e DIR_Attr) 4 /\ ld_clust (fs v') (win (fs v')) d = ent_cluster (fs v) e
    | NoFile _ _ => r = FR_NO_FILE
    | Fails e => r = e
    end).
Proof.
  intros R P Lf. eapply returns_mono; [by apply (follow_path_leads v p L path x)|]. intros r s' (v1 & p1 & -> & R1 & W1 & A). exists v1, p1. split_and!; [done..|].
  destruct x as [t name k|t name|c|e]; [|by destruct A as [-> _]|done|done]. destruct A as ((-> & A1 & Sh & Hk) & _). split; [done|]. destruct A1 as (_ & _ & _ & Ed). eexists. split; [exact Ed|].
  pose proof (place_same _ _ (proj1 W1)) as (_ & S2 & _). assert (Ee : dirent (fs v1) L t (Z.of_nat k) = dirent (fs v) L t (Z.of_nat k)) by (unfold dirent; by rewrite S2).
  cbv zeta. rewrite (shown v1 t L _ DIR_Attr Sh), (shown_cluster v1 t L _ Sh), Ee by (unfold DIR_Attr; lia). split; [done|]. unfold ent_cluster, ld_clust in *. destruct W1 as [(-> & _) _]. done.
Qed.

(** The code of [f_opendir] after [follow_path]: enter the directory. *)
Lemma enter_dir v p L x c t : vol_rep v L -> target_dir (fs v) L x = Some c -> placed (fs v) L c t ->
  match x with
  | Directory c => dir p = None /\ d_sclust p = c
  | Entry t name k => exists d, dir p = Some d /\ let e := dirent (fs v) L t (Z.of_nat k) in
      Z.testbit (byte_at (win (fs v)) (d + DIR_Attr)) 4 = Z.testbit (byte_at e DIR_Attr) 4 /\ ld_clust (fs v) (win (fs v)) d = ent_cluster (fs v) e
  | _ => False
  end ->
  returns (match dir p with
        | Some d => if negb ((byte_at (win (fs v)) (d + DIR_Attr) &&& AM_DIR) =? 0) then upd_dj (set_d_sclust (ld_clust (fs v) (win (fs v)) d)) ;; ret FR_OK else ret FR_NO_PATH
        | None => ret FR_OK end) (Dj v p) (fun r s' => r = FR_OK /\ exists p2, s' = Dj v p2 /\ placed (fs v) L (d_sclust p2) t).
Proof.
  intros R Et P Hx. destruct x as [t' name k|t' name|c'|e]; cbn [target_dir] in Et; [| |injection Et as ->|]; try done.
  - destruct Hx as (d & -> & Ea & Ec). cbv zeta in *. destruct (Z.testbit (byte_at (dirent _ _ _ _) _) 4); [|done]. injection Et as <-. change AM_DIR with (2 ^ 4). rewrite flag_test, Ea by lia. cbn [negb].
    eapply returns_step; [reflexivity|]. apply returns_ret. split; [done|]. eexists. split; [reflexivity|]. cbn. by rewrite Ec.
  - destruct Hx as [-> <-]. apply returns_ret. eauto.
Qed.

Lemma opendir_spec s h path path' o L x c t : registered s path path' o -> vol_rep (vol_of s o) L -> path_leads (fs (vol_of s o)) L path' x ->
  target_dir (fs (vol_of s o)) L x = Some c -> placed (fs (vol_of s o)) L c t ->
  returns (f_opendir h path) s (fun '(r, h') s' => r = FR_OK /\ snd h' = o /\ rest_same (fs (vol_of s o)) (fs (vol_of s' o)) /\ dir_open s' h' L t (Some 0)).
Proof.
  intros Rg R P Et Pt. unfold f_opendir. eapply returns_bind; [by apply (find_volume_mounted s path path' o L)|]. intros r s' [-> ->]. cbv iota. change (FR_OK =? FR_OK) with true. cbv iota.
  set (v := vol_of s o) in *.
  set (Q := fun (r : Z) (s' : dj_state D) => r = FR_OK /\ exists v' p', s' = Dj v' p' /\ vol_rep v' L /\ window_moved (fs v) (fs v') /\ d_id p' = fs_id (fs v) /\ placed (fs v) L (d_sclust p') t /\ dir_at (fs v) t 0 p').
  eapply returns_bind.
  { apply (on_dir_spec (fst h, o) _ s Q).
    cbn [fst snd]. fold v. eapply returns_bind; [by apply (follow_dir v (set_fn (replicate 12 0) (fst h)) L path' x R P)|]. intros r s' (v1 & p1 & -> & R1 & W1 & Hd).
    do 2 (eapply returns_step; [reflexivity|]). cbn [dobj dvol].
    pose proof (place_same _ _ (proj1 W1)) as (S1 & S2 & _ & P1 & D1 & _).
    assert (Ee : forall t i, dirent (fs v1) L t i = dirent (fs v) L t i) by (intros; unfold dirent; by rewrite S2).
    assert (Ec : forall e, ent_cluster (fs v1) e = ent_cluster (fs v) e) by (intros; unfold ent_cluster, ld_clust; destruct W1 as [(-> & _) _]; done).
    assert (Er : r = FR_OK) by (destruct x; [apply Hd|done|apply Hd|done]). subst r. change (FR_OK =? FR_OK) with true. cbv iota.
    eapply returns_bind; [eapply returns_bind; [apply (enter_dir v1 p1 L x c t R1); [|by apply P1|]|]|].
    - destruct x; cbn [target_dir] in *; by rewrite ?Ee, ?Ec.
    - destruct x as [t' name k|t' name|c'|e]; [|done|apply Hd|done]. destruct Hd as (_ & d & Ed & Ha). exists d. cbv zeta. rewrite Ee, Ec. by split.
    - intros r s' (-> & p2 & -> & P2). change (FR_OK =? FR_OK) with true. cbv iota. eapply returns_step; [reflexivity|].
      assert (He : 0 < t_entries (fs v1) t) by (pose proof (table_nonempty _ _ _ _ (proj1 R1) P2); unfold t_entries; lia).
      eapply returns_mono; [apply (dir_sdi_spec v1 (Dir (fs_id (fs v1)) (index p2) (d_sclust p2) (d_clust p2) (sect p2) (dir p2) (fn p2)) L t 0 R1 P2); lia|].
      cbv beta. intros r s' (-> & v3 & p3 & -> & R3 & W3 & A3 & (N31 & N32 & N33)). cbn in N32, N33. instantiate (1 := Q).
      destruct (place_same _ _ (proj1 (window_moved_sym _ _ W1))) as (_ & _ & _ & P3 & D3 & _).
      split; [done|]. exists v3, p3. split_and!; [done|done|by eapply window_moved_trans|rewrite N33; apply W1|rewrite N32; by apply P3|by apply D3].
    - intros r s' (-> & Hs). change (FR_OK =? FR_NO_FILE) with false. apply returns_ret. by split. }
  cbv beta. cbn [snd]. intros [r p'] s' (v' & -> & -> & v2 & p2 & E & R2 & W2 & Ei & P2 & A2). injection E as <- <-. change (FR_OK =? FR_OK) with true. cbv iota. apply returns_ret. split; [done|]. split; [done|].
  pose proof (place_same _ _ (proj1 W2)) as (S1 & _ & _ & P1 & D1 & _). rewrite vol_of_put. split; [apply W2|].
  assert (He : 0 < t_entries (fs v') t) by (pose proof (table_nonempty _ _ _ _ (proj1 R2) (P1 _ _ _ P2)); unfold t_entries; lia).
  destruct Rg as (_ & _ & No). constructor; cbn [fst snd]; rewrite ?vol_of_put; [done|done|rewrite Ei; symmetry; apply W2|by apply P1|]. split; [lia|by apply D1].
Qed.

Lemma opendir_fails s h path path' o L x : registered s path path' o -> vol_rep (vol_of s o) L -> path_leads (fs (vol_of s o)) L path' x -> target_dir (fs (vol_of s o)) L x = None ->
  returns (f_opendir h path) s (fun '(r, h') s' => r = opendir_error x /\ snd h' = 0 /\ vol_rep (vol_of s' o) L).
Proof.
  intros Rg R P Et. unfold f_opendir. eapply returns_bind; [by apply (find_volume_mounted s path path' o L)|]. intros r s' [-> ->]. cbv iota. change (FR_OK =? FR_OK) with true. cbv iota.
  assert (Ne : opendir_error x <> FR_OK) by (destruct x; try done; destruct (path_leads_fails _ _ _ _ P) as [-> | ->]; done).
  eapply returns_bind.
  { apply (on_dir_spec (fst h, o) _ s (fun r s' => r = opendir_error x /\ vol_rep (dvol s') L)).
    cbn [fst snd]. eapply returns_bind; [by apply (follow_dir _ (set_fn (replicate 12 0) (fst h)) L path' x R P)|]. intros r s' (v1 & p1 & -> & R1 & W1 & Hd).
    do 2 (eapply returns_step; [reflexivity|]). cbn [dobj dvol]. destruct x as [t name k|t name|c|e]; cbn [target_dir] in Et; [| |done|]; cbn [opendir_error].
    - destruct Hd as (-> & d & -> & Ha & _). cbv zeta in *. destruct (Z.testbit (byte_at (dirent _ _ _ _) _) 4); [done|]. change (FR_OK =? FR_OK) with true. cbv iota.
      change AM_DIR with (2 ^ 4). rewrite flag_test, Ha by lia. cbn [negb]. eapply returns_step; [reflexivity|]. by apply returns_ret.
    - rewrite Hd. eapply returns_step; [reflexivity|]. by apply returns_ret.
    - rewrite Hd. destruct (path_leads_fails _ _ _ _ P) as [-> | ->]; (eapply returns_step; [reflexivity|]); by apply returns_ret. }
  cbv beta. intros [r p'] s' (v' & -> & -> & R'). cbn [snd] in *. rewrite (proj2 (Z.eqb_neq _ _) Ne). apply returns_ret. rewrite vol_of_put. by split_and!.
Qed.
End Listing.

(** ** Deviations *)

(** [f_getcwd] checks that two bytes are left below the path but writes the drive number, a
    colon and the terminator: in the directory BOOT, a buffer of seven bytes, one less than
    the path takes, is written past its end instead of being refused. *)
Definition cwd_volume : vols sectors := Vols {[ 0x8000 := set_cdir 2 demo_fatfs ]} [0x8000; 0] 0 0 tree_sectors.
Lemma getcwd_past_end : f_getcwd (replicate 7 0) 7 cwd_volume = Undef /\
  (exists s, f_getcwd (replicate 8 0) 8 cwd_volume = Ret (FR_OK, [48; 58; 47; 66; 79; 79; 84; 0]) s) /\
  (exists s, f_getcwd (replicate 6 0) 6 cwd_volume = Ret (FR_NOT_ENOUGH_CORE, replicate 6 0) s).
Proof. split; [vm_compute; reflexivity|]. split; eexists; vm_compute; reflexivity. Qed.

(** A search for free clusters that ends in a disk error is taken for a result: the next call
    returns the clusters found up to the error, as a success. *)
Definition broken_volume : vols sectors :=
  Vols {[ 0x8000 := Fatfs FS_FAT12 0 1 1 0 0x80 1 16 0xFFFFFFFF 0xFFFFFFFF 0 600 2 0 1 3 4 0xFFFFFFFF (replicate 512 0) ]} [0x8000; 0] 0 0 {[ 1 := demo_fat ]}.
Lemma getfree_keeps_error : exists s,
  (let! first := f_getfree [] 0 in let! second := f_getfree [] 0 in ret (first, second)) broken_volume = Ret ((FR_DISK_ERR, 335, 0x8000), (FR_OK, 335, 0x8000)) s.
Proof. eexists. vm_compute. reflexivity. Qed.

(** ** Claims *)

(** Open a directory and read [n] entries. *)
Definition list_dir {D} `{BlockDevice D} (h : dir_handle) (path : list Z) (n : nat) : ST (vols D) (Z * list (Z * option FILINFO)) :=
  let! r := f_opendir h path in
  let (res, h) := r : Z * dir_handle in
  if res =? FR_OK then let! l := readdirs n h in ret (res, l) else ret (res, []).

(** C21. Listing a directory.  On a mounted volume with the disk [L], for a path that leads
    to a directory, the root or any other: [f_opendir] returns [FR_OK], and the calls of
    [f_readdir] after it give, one by one and in the order of the disk, name, size, time and
    attributes of exactly the entries of the directory before its end mark that are neither
    deleted nor labels nor parts of long names (the dot entries are listed), and from then on
    an empty name, each with [FR_OK].  A path to a file or a missing name is [FR_NO_PATH] and an invalid one its error, with the
    directory object invalid.  The disk is not changed. *)
Theorem directory_listed {D} `{BlockLaws D} (s : vols D) h path path' o L x n :
  registered s path path' o -> vol_rep (vol_of s o) L -> path_leads (fs (vol_of s o)) L path' x ->
  (forall c t, target_dir (fs (vol_of s o)) L x = Some c -> placed (fs (vol_of s o)) L c t ->
   returns (list_dir h path n) s (fun r s' =>
     r = (FR_OK, take n (map (fun e => (FR_OK, Some e)) (listing (dirents (fs (vol_of s o)) L t)) ++ replicate n (FR_OK, Some (Filinfo 0 0 0 0 [])))) /\
     vol_rep (vol_of s' o) L)) /\
  (target_dir (fs (vol_of s o)) L x = None ->
   returns (f_opendir h path) s (fun '(r, h') s' => r = opendir_error x /\ snd h' = 0 /\ vol_rep (vol_of s' o) L)).
Proof.
  intros Rg R P. split; [|by apply opendir_fails with path'].
  intros c t Et Pt. unfold list_dir. eapply returns_bind; [by apply (opendir_spec s h path path' o L x c t)|]. intros [r h'] s1 (-> & Eo & Rs & Op). change (FR_OK =? FR_OK) with true. cbv iota.
  eapply returns_bind; [apply (readdirs_spec n s1 h' L t (Some 0) Op)|]. rewrite Eo. intros l s2 [-> R2]. apply returns_ret. split; [|done]. cbn [left_of Z.to_nat drop].
  do 5 f_equal. by apply place_same.
Qed.

Definition tree_vols : vols sectors := Vols {[ 0x8000 := demo_fatfs ]} [0x8000; 0] 0 0 tree_sectors.

Lemma directory_listed_witness :
  returns (list_dir (fresh_dir, 0) [47; 98; 111; 111; 116] 4) tree_vols (fun r s' =>
    r = (FR_OK, [(FR_OK, Some (Filinfo 0 0 0 0x10 [46])); (FR_OK, Some (Filinfo 0 0 0 0x10 [46; 46])); (FR_OK, Some (Filinfo 0 0 0 0x20 [86; 77; 76; 73; 78; 85; 88])); (FR_OK, Some (Filinfo 0 0 0 0 []))])) /\
  returns (f_opendir (fresh_dir, 0) [98; 111]) tree_vols (fun '(r, h') _ => r = FR_NO_PATH /\ snd h' = 0).
Proof.
  split.
  - eapply returns_mono; [eapply (proj1 (directory_listed tree_vols (fresh_dir, 0) [47; 98; 111; 111; 116] [47; 98; 111; 111; 116] 0x8000 tree_sectors (Entry Root [66; 79; 79; 84; 32; 32; 32; 32; 32; 32; 32; 12] 0) 4
      ltac:(done) tree_rep ltac:(eapply (leads_entry _ _ _ _ _ _ Root); [vm_compute; reflexivity|reflexivity|exact tree_root|vm_compute; reflexivity]))); [vm_compute; reflexivity|exact tree_boot]|].
    intros r s' [-> _]. vm_compute. reflexivity.
  - eapply returns_mono; [eapply (proj2 (directory_listed tree_vols (fresh_dir, 0) [98; 111] [98; 111] 0x8000 tree_sectors (NoFile Root [66; 79; 32; 32; 32; 32; 32; 32; 32; 32; 32; 12]) 0
      ltac:(done) tree_rep ltac:(eapply (leads_missing _ _ _ _ _ _ Root); [vm_compute; reflexivity|reflexivity|exact tree_root|vm_compute; reflexivity|reflexivity]))); reflexivity|].
    intros [r h'] s' (-> & -> & _). done.
Defined.
