(* ===== verification/FatLib.v ===== *)
(** * FatFs under the file layer

    The functions of [driver/ff.c] as the operations [bbl/file.c] calls: an instance of the
    class [FatFs] of [File], with a handle that is a file object and the file system object
    it is on.  A file on a drive that can be mounted satisfies [VolumeFile], what the loader
    relies on; with the driver and the card of [Drive] this carries the boot loader from an
    SD card in the slot to the running kernel. *)

From Stdlib Require Import ZArith Lia Bool List Ascii String.
From stdpp Require Import base gmap list.
From S2P Require Import Prelude Machine Memory Uart Console File Devices VM Mmap Loader Boot Disk SdCard Fat FatFile Drive FatDir FatOpen.
Open Scope Z_scope.
Open Scope word_scope.

(** ** The library *)

(** A file object and the object of its volume. *)
Definition handle : Type := FatFile.FIL * Z.

(** [buf] has the type [uint8_t[512]]. *)
Definition sector_buf (l : list Z) : list Z := take 512 (map (wrapu 8) l ++ replicate 512 0).

Section Library.
Context {D : Type} `{BlockDevice D}.

(** A call on an open file: its result, the handle, the bytes and the count it returns. *)
Definition on_file (h : handle) (m : ST (io D) Z) (s : vols D) : option (Z * handle * list Z * Z * vols D) :=
  match m (Io (vol_of s (snd h)) (fst h) [] 0) with
  | Ret r i => Some (r, (fil i, snd h), rbuff i, count i, put_vol (snd h) (vol i) s)
  | _ => None
  end.
(** A count returned for a buffer of [n] bytes. *)
Definition counted (c n : Z) : Z := Z.max 0 (Z.min c n).

#[export] Instance fatfs_lib : File.FatFs (vols D) handle := {
  f_open h path mode s :=
    match FatOpen.f_open (set_buf (sector_buf (buf (fst h))) (fst h)) path mode s with
    | Ret (r, fp, o) s' => (r, (fp, o), s')
    | _ => (FR_INT_ERR, h, s)
    end;
  f_close h s := match on_file h FatFile.f_close s with Some (r, h', _, _, s') => (r, h', s') | None => (FR_INT_ERR, h, s) end;
  f_lseek h ofs s := match on_file h (FatFile.f_lseek ofs) s with Some (r, h', _, _, s') => (r, h', s') | None => (FR_INT_ERR, h, s) end;
  f_read h btr s :=
    match on_file h (FatFile.f_read btr) s with
    | Some (r, h', b, c, s') => (r, (map (wrapu 8) (slice 0 (counted c btr) b), counted c btr), h', s')
    | None => (FR_INT_ERR, ([], 0), h, s)
    end;
  f_write h data s :=
    match on_file h (FatFile.f_write data (Z.of_nat (length data))) s with
    | Some (r, h', _, c, s') => (r, counted c (Z.of_nat (length data)), h', s')
    | None => (FR_INT_ERR, 0, h, s)
    end;
  f_stat path s := match FatOpen.f_stat path (Filinfo 0 0 0 0 []) s with Ret (r, i) s' => (r, i_fsize i, s') | _ => (FR_INT_ERR, 0, s) end;
}.

#[export] Instance fatfs_lib_laws : FatFsLaws (vols D) handle.
Proof.
  constructor.
  - intros h btr s Hb. cbn. destruct (on_file h _ s) as [[[[[r h'] b] c] s']|]; [|split_and!; [constructor|cbn; lia..]].
    assert (0 <= counted c btr <= btr) by (unfold counted; lia). split_and!; [|unfold slice; rewrite length_map, length_take, length_drop; lia|lia..].
    apply Forall_map, Forall_forall. intros x _. apply wrapu_range. lia.
  - intros h data s. cbn. destruct (on_file h _ s) as [[[[[r h'] b] c] s']|]; unfold counted; lia.
Qed.
End Library.

(** ** A file on a drive *)
Section FileOnDrive.
Context {D : Type} `{BlockLaws D}.
Context (fn content : list Z).
Hypothesis Hb : Forall (inu 8) content.

(** The drive, not mounted yet, has the file [fn] with these bytes. *)
Definition drive_has (s : vols D) : Prop := exists o st bs b t k l, file_on_drive s fn o FatFile.FA_READ st bs b t k l /\
  let f := fresh_fs bs b (u16 (Fsid s + 1)) in file_data f st l (LD_DWORD (dirent f st t (Z.of_nat k)) DIR_FileSize) = content.
(** The handle is open for reading on the file, at position [q]. *)
Definition reads_at (h : handle) (s : vols D) (q : Z) : Prop := exists L l, file_rep (vol_of s (snd h)) (fst h) L l /\
  contents (fs (vol_of s (snd h))) (fst h) L l = content /\ Z.testbit (flag (fst h)) 0 = true /\ fptr (fst h) = q.

Lemma sector_buf_ok l : length (sector_buf l) = 512%nat /\ Forall (inu 8) (sector_buf l).
Proof.
  unfold sector_buf. split; [rewrite length_take, length_app, length_map, length_replicate; lia|]. apply Forall_take, Forall_app. split.
  - apply Forall_map, Forall_forall. intros x _. apply wrapu_range. lia.
  - apply Forall_replicate. unfold inu. lia.
Qed.

Lemma drive_open h s : drive_has s -> exists h' s', File.f_open h fn File.FA_READ s = (0, h', s') /\ reads_at h' s' 0.
Proof.
  intros (o & st & bs & b & t & k & l & Fd & Ec). destruct (sector_buf_ok (buf (fst h))) as [Lb Bb].
  destruct (f_open_spec s fn o FatFile.FA_READ st bs b t k l (set_buf (sector_buf (buf (fst h))) (fst h)) Fd Lb Bb) as (r & s' & E & fp' & -> & R & C & P & F0 & _).
  exists (fp', o), s'. split; [cbn; change File.FA_READ with FatFile.FA_READ; by rewrite E|]. exists st, l. cbn [fst snd]. split_and!; [done|by rewrite C|by rewrite F0|done].
Qed.

Lemma moved_reads h s L l v' p' L' n q : file_rep (vol_of s (snd h)) (fst h) L l -> contents (fs (vol_of s (snd h))) (fst h) L l = content -> Z.testbit (flag (fst h)) 0 = true ->
  at_rest (vol_of s (snd h)) (fst h) L l n v' p' L' -> fptr (fst h) + n = q -> q <= fil_size (fst h) -> reads_at (p', snd h) (put_vol (snd h) v' s) q.
Proof.
  intros (C & O & Hp) Ec F0 (R & C' & O' & P & Q) Eq Hq. destruct (q_same _ _ _ _ _ _ Q) as (_ & _ & _ & Ez & _). exists L', l. cbn [fst snd]. rewrite vol_of_put. split_and!.
  - split; [done|]. split; [done|]. rewrite Ez, P. lia.
  - rewrite <- Ec. by apply (quiet_contents (vol_of s (snd h)) v' (fst h) L p' L' l C (proj1 O)).
  - by rewrite (q_flag _ _ _ _ _ _ Q) by lia.
  - lia.
Qed.

Lemma drive_seek h s q ofs : reads_at h s q -> 0 <= ofs <= Z.of_nat (length content) -> exists h' s', File.f_lseek h ofs s = (0, h', s') /\ reads_at h' s' ofs.
Proof.
  intros (L & l & R & Ec & F0 & Eq) Ho. pose proof R as (C & O & Hp). assert (Ez : fil_size (fst h) = Z.of_nat (length content)) by (rewrite <- Ec, contents_length; destruct (fo_size _ _ _ _ (proj1 O)); lia).
  destruct (f_lseek_spec (vol_of s (snd h)) (fst h) L l [] 0 ofs R ltac:(lia) ltac:(lia)) as (r & i & E & -> & v' & p' & L' & -> & A).
  exists (p', snd h), (put_vol (snd h) v' s). split; [cbn; unfold on_file; by rewrite E|]. rewrite Z.min_l in A by lia. apply (moved_reads h s L l v' p' L' _ ofs R Ec F0 A); lia.
Qed.

Lemma drive_read_file h s q n : reads_at h s q -> 0 <= n -> let data := take (Z.to_nat n) (drop (Z.to_nat q) content) in
  exists h' s', File.f_read h n s = (0, (data, Z.of_nat (length data)), h', s') /\ reads_at h' s' (q + Z.of_nat (length data)).
Proof.
  intros (L & l & R & Ec & F0 & Eq) Hn data. pose proof R as (C & O & Hp). destruct (fo_pos _ _ _ _ (proj1 O)) as [Op _].
  assert (Ez : fil_size (fst h) = Z.of_nat (length content)) by (rewrite <- Ec, contents_length; destruct (fo_size _ _ _ _ (proj1 O)); lia).
  destruct (f_read_spec (vol_of s (snd h)) (fst h) L l n 0 R F0 Hn) as (r & i & E & -> & v' & p' & L' & -> & A).
  destruct (read_slice content q n (fil_size (fst h)) Ez ltac:(lia) Hn) as [Es El]. fold data in Es, El. rewrite Ec in E. rewrite Eq in A, E. rewrite Es, <- El in E. rewrite <- El in A.
  exists (p', snd h), (put_vol (snd h) v' s). split; [|apply (moved_reads h s L l v' p' L' _ _ R Ec F0 A); lia].
  cbn. unfold on_file. rewrite E. unfold counted. cbn [count rbuff fil vol]. rewrite Z.min_l, Z.max_r by lia. do 4 f_equal. unfold slice. rewrite drop_0, take_ge by lia. apply bytes_wrap. apply Forall_take, Forall_drop, Hb.
Qed.

(** What the loader relies on. *)
#[export] Instance drive_file : VolumeFile (vols D) handle fn content.
Proof.
  refine {| Loader.holds := drive_has; Loader.opened := reads_at |}.
  - exact Hb.
  - exact drive_open.
  - exact drive_seek.
  - exact drive_read_file.
Defined.
End FileOnDrive.

(** ** From the card to the kernel *)

(** [f_mount(&FatFs, "", 0)] with the object at [o]. *)
Definition lib_mount {D} `{BlockDevice D} (o : Z) (s : vols D) : vols D := match f_mount o [] 0 s with Ret _ s' => s' | _ => s end.

Section Card.
Context {V C : Type} `{SpiLaws V C} `{!SdCard C}.

(** A card with a volume that has the file in its root directory, in the slot of a board out
    of reset: the variables of the libraries are zero, the driver is not initialised. *)
Record card_with_file (name11 content : list Z) (s : vols (disk V)) : Prop := {
  cf_static : CurrVol s = 0 /\ FatFs s = [0; 0] /\ Fsid s = 0 /\ Stat (drive s) = STA_NOINIT;
  cf_card : exists c st n bs b t k l, attached (drive s) c /\ sd_at c st (Powered n) /\ Z.of_nat n < 999998 /\ sectors_ok st /\
    map_Forall (fun a _ => 0 <= a < 0xFFFFFFFF /\ inu 32 (sd_address sd_hc a)) st /\ volume_on st bs b /\
    let f := fresh_fs bs b 1 in let e := dirent f st t (Z.of_nat k) in
    placed f st 0 t /\ dir_lookup name11 (dirents f st t) = Some k /\ plain_entry FatFile.FA_READ e /\ file_entry f st t (Z.of_nat k) l /\
    file_data f st l (LD_DWORD e DIR_FileSize) = content;
}.

Lemma card_bytes name11 content s : card_with_file name11 content s -> Forall (inu 8) content.
Proof.
  intros [_ (c & st & n & bs & b & t & k & l & _ & _ & _ & Ok & _ & _ & _ & _ & _ & _ & <-)]. unfold file_data. apply Forall_map, Forall_forall. intros i _. cbn.
  apply byte_at_range. destruct (st !! _) as [x|] eqn:E; cbn; [by apply (Ok _ x E)|constructor].
Qed.

Lemma card_comes_up (d : disk V) c st n : Stat d = STA_NOINIT -> attached d c -> sd_at c st (Powered n) -> Z.of_nat n < 999998 -> sectors_ok st ->
  map_Forall (fun a _ => 0 <= a < 0xFFFFFFFF /\ inu 32 (sd_address sd_hc a)) st -> comes_up d st.
Proof.
  intros Es At A Hn Ok Ad. destruct (disk_initialize_ok d c st n At A Hn Ok) as (r & d' & E & -> & S1 & _ & _ & M); [by rewrite Es|].
  rewrite Es in *. exists (bitand_not 8 STA_NOINIT STA_NOINIT), d'. split; [cbn [blk_initialize sd_drive]; by rewrite E|]. split; [done|]. split; [done|]. split; [by rewrite S1|done].
Qed.

(** After [f_mount] the first use finds the file; [body] is its name on the path. *)
Lemma mounted_card_has body content (s : vols (disk V)) o : forallb name_char body = true -> (0 < length body <= 8)%nat -> to_colon body = length body -> o <> 0 ->
  card_with_file (sfn83 body []) content s -> drive_has body content (lib_mount o s).
Proof.
  intros Vb Hb Tc No [(Ec & Ef & Ei & Es) (c & st & n & bs & b & t & k & l & At & A & Hn & Ok & Ad & Vo & Pl & Hl & Pe & Fe & Ed)].
  assert (Em : lib_mount o s = Vols (objs (put_vol o (set_fs (set_fs_type 0 (fs (vol_of s o))) (vol_of s o)) s)) [o; 0] 0 0 (drive s)).
  { destruct s as [ob ff fi cv dr]. cbn in Ec, Ef, Ei. subst. unfold lib_mount, f_mount, bind, gets. cbn -[vol_of put_vol Z.eqb]. change (0 =? 0) with true.
    rewrite (proj2 (Z.eqb_neq o 0)) by done. cbn. done. }
  exists o, st, bs, b, t, k, l. rewrite Em. cbn [Fsid]. change (u16 (0 + 1)) with 1. split; [|exact Ed]. constructor; cbn [Fsid]; change (u16 (0 + 1)) with 1; try done.
  - destruct (segment_name body [] Vb eq_refl Hb ltac:(cbn; lia)) as (x & Sg & X2 & X5). unfold written83 in Sg. rewrite app_nil_r in Sg. exists body, (sfn83 body [] ++ [x]).
    assert (Ls : length (sfn83 body []) = 11%nat) by (apply sfn83_length; cbn; lia).
    split.
    + split; [|split; [done|done]]. unfold get_ldnumber. rewrite Tc, drop_all. done.
    + assert (Eh : is_sep (chr body) = false /\ 32 <= chr body).
      { destruct body as [|y body]; cbn [length] in Hb; [lia|]. cbn [forallb] in Vb. apply andb_true_iff in Vb as [Vy _]. destruct (name_char_facts y Vy) as [E1 _]. cbn. split; [done|].
        unfold name_char in Vy. rewrite !andb_true_iff in Vy. destruct Vy as ((((Vy & _) & _) & _) & _). apply Z.ltb_lt in Vy. lia. }
      unfold path_to, path_start. rewrite (proj1 Eh). cbn [fst snd]. split; [apply Eh|]. eapply walk_last; [exact Sg| |exact Pl| |].
      * unfold is_last, NSFLAG, byte_at. change (Z.to_nat 11) with 11%nat. rewrite <- Ls, list_lookup_total_middle by done. exact X2.
      * rewrite <- Hl. apply lookup_name_ext. unfold slice. rewrite !drop_0. change (Z.to_nat 11) with 11%nat. rewrite <- Ls. rewrite take_app_length, take_ge by lia. done.
      * done.
  - cbn. by rewrite lookup_insert_eq.
  - cbn [drive]. by apply (card_comes_up (drive s) c st n).
Qed.
End Card.

(** ** Claims *)
Section Claims.
Context {V C U : Type} `{SpiLaws V C} `{!SdCard C} `{UartLaws U}.

(** The board out of reset with the card in the slot: [out_of_reset] of [Boot], with the card
    in place of a volume that already satisfies what the loader relies on. *)
Record card_in_slot (content : list Z) (cpuid : Z) (b : boot (vols (disk V)) handle U) : Prop := {
  cs_mstatus : mstatus (b_cpu b) = reset_mstatus;
  cs_cpuid : supports_extension cpuid "S"%char = true /\ supports_extension cpuid "D"%char = true;
  cs_files : idle (vfs (b_vm b)) /\ length (files (vfs (b_vm b))) = MAX_FILES;
  cs_card : card_with_file (sfn83 (chars "vmlinux") []) content (fat (vfs (b_vm b)));
  cs_mem : bytes_ok (vmem (b_vm b)) /\ mapped (vmem (b_vm b)) 0 (Z.to_nat board_memory);
  cs_alloc : next_free_page (b_vm b) = 0;
}.

(** C7. From the card to the kernel.  The board is out of reset and an SD card is in its slot,
    not powered up yet; the card has a FAT volume (in its first sectors or in a partition)
    whose root directory has an entry VMLINUX, and the sectors of its cluster chain hold a
    supervisor kernel.  Then the first hart's [machine_init] reaches the kernel: FatFs mounts
    the volume at the first use, finds the name, and reads the file through the driver, the
    SPI core and the card's protocol; and every byte of every loadable segment of the file on
    the card is what the hardware's translation finds at its virtual address. *)
Theorem kernel_from_card (content : list Z) cpuid rocc fp_hi o lay _end eh64 phdrs lo ffp (b : boot (vols (disk V)) handle U) :
  o <> 0 -> kernel_image content _end eh64 phdrs lo ffp -> card_in_slot content cpuid b ->
  returns uart_init (b_uart b) (fun _ u =>
    returns (machine_init cpuid rocc fp_hi (lib_mount o) lay _end eh64 phdrs 0) b (fun pc b' =>
      kernel_running content lo ffp u pc b' /\ b_hls b' = Hls 0 0 0 0 0 0)).
Proof.
  intros No K [Rm Rc Rf Rv Rb Ra]. assert (Hb : Forall (inu 8) content) by (by apply (card_bytes _ _ _ Rv)).
  pose (Vol := drive_file (D := disk V) (chars "vmlinux") content Hb).
  apply (machine_init_at content cpuid rocc fp_hi (lib_mount o) lay _end eh64 phdrs lo ffp b K).
  constructor; try done. apply (mounted_card_has (chars "vmlinux") content _ o); [reflexivity|cbn; lia|reflexivity|done|done].
Qed.
End Claims.

(** The card of [FatOpen] with the kernel of [Loader] as its file. *)
Definition card_sectors : sectors := card_image demo_kernel.
Definition card_fresh : sdhc := Sdhc [] [] None (Powered 3) card_sectors.
Definition card_volumes : vols (disk (fifo sdhc)) := Vols ∅ [0; 0] 0 0 (DiskState (Fifo false [] [] card_fresh) ∅ STA_NOINIT 0).
Definition card_machine : boot (vols (disk (fifo sdhc))) handle uart16550 :=
  BootState
    (Vm (ElfInfo 0 0 0 0 0 0 0 0 0 0 0 0 0 0 0 0 0 0) 0 0 0 0 0 0 0 0 1
      (Fsys (replicate 32 (File (FatFile.Fil false 0 0 0 0 0 0 0 0 0 0 [], 0) 0 0)) 0 0 1 card_volumes (write_bytes ∅ 0 (replicate (Z.to_nat board_memory) 0))))
    (Uart16550 0 0 0 0 7 [] [] []) (Mach [] (replicate 32 0) reset_mstatus 0 0 0 0 0 ∅) 0 0 0 0 0 (Hls 1 1 1 1 1 1).

Lemma card_has_kernel : card_with_file (sfn83 (chars "vmlinux") []) demo_kernel card_volumes.
Proof.
  constructor; [done|]. exists card_fresh, card_sectors, 3%nat, 2, card_boot, Root, 1%nat, [2].
  assert (Ok : sectors_ok card_sectors) by (unfold sectors_ok; vm_decide).
  split; [by left|]. split; [by split|]. split; [lia|]. split; [done|]. split; [unfold map_Forall; vm_decide|]. split; [apply card_volume_on|]. cbv zeta.
  split_and!.
  - split; [split_and!; vm_decide|]. intros i Hi. assert (i = 0) as -> by (change (t_sectors _ Root) with 1 in Hi; lia). vm_decide.
  - vm_compute. reflexivity.
  - split; [vm_compute; reflexivity|]. intros E. vm_compute in E. discriminate.
  - constructor.
    + right. split; [split_and!|]; vm_decide.
    + vm_decide.
    + intros i Hi. assert (i = 0) as -> by (change (nsects _ [2]) with 1 in Hi; lia). vm_decide.
  - vm_compute. reflexivity.
Qed.

Lemma card_board : card_in_slot demo_kernel demo_cpuid card_machine.
Proof.
  constructor.
  - reflexivity.
  - split; reflexivity.
  - split; [split; [|split]; [reflexivity|reflexivity|change (sstatus (vfs (b_vm card_machine))) with 1; vm_decide]|reflexivity].
  - exact card_has_kernel.
  - split.
    + apply bytes_ok_write; [apply map_Forall_empty|apply Forall_replicate; vm_decide].
    + eexists. pose proof (read_write_bytes (replicate (Z.to_nat board_memory) 0) ∅ 0) as R. rewrite length_replicate in R. apply R. unfold board_memory. lia.
  - reflexivity.
Qed.

Lemma kernel_from_card_witness :
  returns uart_init (b_uart card_machine) (fun _ u =>
    returns (machine_init demo_cpuid false (fun _ => 0) (lib_mount 0x8000) demo_layout 0x10000 0x9000 0xA000 0) card_machine (fun pc b' =>
      pc = kernel_base /\ visible (vmem (b_vm b')) (sptbr (b_vm b')) (kernel_base + 33) 12)).
Proof.
  eapply returns_mono; [exact (kernel_from_card demo_kernel demo_cpuid false (fun _ => 0) 0x8000 demo_layout 0x10000 0x9000 0xA000 kernel_base (2 ^ 21)
    card_machine ltac:(lia) boot_image card_board)|].
  intros [] u Hr. eapply returns_mono; [exact Hr|]. intros pc b' [[Pc _ _ _ _ _ Sg] _]. split.
  - rewrite Pc. vm_compute. reflexivity.
  - exact (Sg 1%nat 1%nat 12 ltac:(vm_decide) eq_refl eq_refl).
Defined.
